(* ===== verification/_CoqProject ===== *)
-Q . S2P
Prelude.v
Asn1Utils.v
RlcPdu.v
RlcSdu.v
TimeStat.v
RlcEntity.v
RlcTm.v
RlcUm.v
RlcUmRx.v
RlcUmTx.v
RlcUmEntity.v
RlcUmSync.v
RlcUmLink.v
RlcRxManager.v
RlcAm.v
RlcAmStatus.v
RlcAmTx.v
RlcAmRx.v
RlcAmReport.v
RlcAmStore.v
RlcAmTxInv.v
RlcAmOps.v
RlcAmAck.v
RlcAmEntity.v
RlcAmLink.v
RlcAmSpec.v
SmCodec.v
SliceData.v
SliceEnc.v
SliceDec.v
SliceIe.v
EqFloat.v
SmStruct.v
SmMonad.v
TcData.v
TcEnc.v
TcDec.v
TcIe.v
StatsData.v
StatsCodec.v
StatsProps.v
StatsIsac.v
StatsIe.v
StatsSm.v
SeqArr.v
SeqRing.v
Assoc.v
Compare.v
RbTree.v
RbShape.v
RbInsert.v
RbOps.v
RbDelete.v
RbExtract.v
RbMap.v
RbSpec.v
BiMap.v
RicMap.v
IApp.v
IAppSpec.v
IAppProps.v
Pdcp.v
PdcpRx.v
Sdap.v
SdapSpec.v
SdapTrace.v
SdapProps.v
Hashtable.v
F1apIds.v
L2Queue.v
PdcpApi.v
PdcpApiInv.v
L2Props.v
L2Limits.v
StatsRan.v
RlcApi.v
RlcApiInv.v
RlcApiSteps.v
RlcApiProps.v
L2Stack.v
