(* ===== verification/Prelude.v ===== *)
(** * Layer 2 of the gNB and the monitoring plane of FlexRIC, verified

    The repository holds OpenAirInterface (src/openairinterface5g, a 4G/5G
    stack) and FlexRIC (src/flexric, an O-RAN near-real-time controller with the
    agent that runs inside of OpenAirInterface).  This development models the
    user-plane core of the first and the message plane of the second.

    ** The parts of the program and how they interact

    - A PDU of the air interface goes up MAC -> RLC -> PDCP -> SDAP/RRC, an SDU
      goes down the same way.  RLC (openair2/LAYER2/nr_rlc) has one entity per
      bearer, in mode TM, UM or AM: an object with a table of operations
      ([nr_rlc_entity_t]) and callbacks to the layer above.  MAC calls
      [recv_pdu], [buffer_status] and [generate_pdu], PDCP calls [recv_sdu] and
      [discard_sdu], the frame tick calls [set_time].
    - PDCP (openair2/LAYER2/nr_pdcp) has one entity per bearer, which numbers,
      ciphers and integrity-protects SDUs, and puts received ones back in order.
      Its OAI interface keeps the table of UEs and bearers; two queues decouple
      it from RLC.  SDAP (openair2/SDAP/nr_sdap) has one entity per PDU session,
      which maps the QoS flows of the core network to the bearers.
    - The FlexRIC agent reads the state of these layers and sends it to the
      controller in messages of the service models (flexric/src/sm); the
      messages of the slice model are encoded field by field ("plain").  xApps
      connect to the iApp of the controller (flexric/src/ric), which forwards
      their requests to the agents under numbers of its own and brings every
      answer back.  The agent, the controller and the xApps keep their state in
      the containers of flexric/src/util/alg_ds.

    ** The files

    - [Prelude]: failures and results, machine integers, buffers, sums; shared
      lemmas, tactics and hints.  [Asn1Utils] (asn1_utils.c, nr_pdcp_configuration.h
      and nr_rlc_configuration.h): the enumerated values of the RRC configuration.
    - [RlcPdu] (nr_rlc_pdu.c): the sorted reception list, the bit-level coder.
      [RlcSdu] (nr_rlc_sdu.c): SDUs in a shared, reference-counted store, their
      segments, lists with an end pointer.  [TimeStat]
      (common/utils/time_stat.c): the sliding average of sojourn times.
      [RlcEntity] (nr_rlc_entity.[ch]): statistics, buffer status, callbacks as
      events, and the class [RlcEntity] of the table of operations, which
      [RlcTm], [RlcUm] and [RlcAmTx] instantiate.
    - [RlcTm] (nr_rlc_entity_tm.c): the whole TM entity, its specification and
      its refinement.
    - [RlcUm] (nr_rlc_entity_um.c and its part of nr_rlc_entity.c): the whole UM
      entity, one Definition per C function, with the C names.  [RlcUmRx] proves
      the receiver, [RlcUmTx] the transmitter, [RlcUmEntity] the two together,
      [RlcUmSync] what one PDU takes from a transmitter to a receiver, [RlcUmLink]
      the two over a channel that loses nothing.
    - [RlcRxManager] (nr_rlc_rx_manager.c): the reception window of AM, a
      circular array of segment lists.  [RlcAm] (nr_rlc_entity_am.[ch] and its
      part of nr_rlc_entity.c): the state of the AM entity and its reception of
      data PDUs; [RlcAmStatus]: what the receiver reports as missing and the
      status PDU; [RlcAmTx]: the status PDU of the peer, the transmitter, the
      timers and the table of operations.  Again one Definition per C function;
      the labels and [goto] of [process_control_pdu] are functions that call
      each other in the order of the jumps.
      Proofs: [RlcAmRx] the receiver, [RlcAmReport] the walk of the report,
      [RlcAmStore] the segments in the store of SDUs, [RlcAmTxInv] the invariant
      of the three lists and the sending of a PDU, [RlcAmOps] the other
      operations, [RlcAmAck] the acknowledgements, [RlcAmEntity] all of them
      together, [RlcAmLink] what goes from one entity to the other, [RlcAmSpec]
      the properties.
    - [SmCodec]: the reading and writing of integers and byte strings at a
      cursor, with the classes [Fills], [Reads] and [Overruns] that state the
      laws of a writer and a reader; every [fill_x] of the slice model is an
      instance, and the laws compose along the structure of the messages.
      [SliceData] (slice_sm/ie/slice_data_ie.h), [SliceEnc]
      (slice_enc_plain.c), [SliceDec] (slice_dec_plain.c), [SliceIe]
      (slice_data_ie.c).
    - The service models of statistics (gtp, rlc, pdcp, mac, isac), whose
      messages are arrays of structs.  [EqFloat] (alg/eq_float.c): comparison of
      floats.  [SmStruct]: the class [CStruct] of a C struct as the list of its
      members, with its bytes.  [StatsData] (x_data_ie.h of each model x),
      [StatsCodec] (x_enc_plain.c, x_dec_plain.c), [StatsIe] (x_data_ie.c),
      [StatsSm] (x_sm_agent.c, x_sm_ric.c: the procedures of both ends, for any
      instance of the class [StatsModel], and the five instances with the laws
      [StatsModelLaws]); [StatsProps] and [StatsIsac] prove the codecs.
      [StatsRan] (RAN_FUNCTION/CUSTOMIZED/ran_func_pdcp.c): what the gNB reports
      of the tables of [PdcpApi], up to what the RIC decodes.
    - The traffic-control model (tc), a hundred functions over nested unions.
      [SmMonad]: writers and readers at a cursor and their composition, with the
      judgements [writes], [reads_as] and [parses].  [TcData] (tc_data_ie.h),
      [TcEnc] (tc_enc_plain.c), [TcDec] (tc_dec_plain.c), [TcIe] (tc_data_ie.c).
    - [SeqArr], [SeqRing] (util/alg_ds/ds/seq_container): growable array and ring.
    - [Assoc]: the interface of the associative containers (assoc_generic.h), a
      class of operations with its laws [AssocLaws], and the comparison functions
      that order them ([Comparison], with combinators).  [Compare]: the keys of
      the registries of FlexRIC and their comparisons.  [RbTree]
      (assoc_rb_tree.c): the red-black tree on a store of nodes, one Definition
      per C function.  Proofs: [RbShape] the pointers as a tree and its
      contexts, the rotations; [RbInsert], [RbOps] insertion; [RbDelete],
      [RbExtract], [RbMap] deletion, search, release and iteration;
      [RbSpec] the instance of [AssocLaws] and the properties.
    - [BiMap] (bimap.c): the bidirectional map over any two containers with
      [AssocLaws], its simulation of a finite bijection, and the map over the trees.  [RicMap] (map_ric_id.c, map_xapps_sockaddr.c): the registries of the
      iApp.
    - [IApp] (near_ric.c, msg_handler_ric.c, e42_iapp.c, msg_handler_iapp.c): the
      RIC and its iApp, one Definition per handler, [ric_step] for the dispatch.
      [IAppSpec]: the router they implement, as a function on lists, and the
      simulation; [IAppProps]: the properties.
    - [Pdcp] (nr_pdcp_entity.c, nr_pdcp_sdu.c and the wrappers of the security
      algorithms): the whole entity.  [PdcpRx] proves it.
    - [Sdap] (nr_sdap_entity.c, nr_sdap.c): the entity, the registry, the TUN
      interfaces.  [SdapSpec]: what the functions do to the mapping table and the
      headers; [SdapTrace]: every sequence of operations; [SdapProps]: the
      properties.
    - [Hashtable] (common/utils/ds/hashtable.c) with its refinement;
      [F1apIds] (f1ap_ids.c): the identifiers of CU and DU over it.
    - [L2Queue] (nr_pdcp_oai_api.c): the queues between PDCP and RLC, as a step
      relation over the threads.
    - [PdcpApi] (nr_pdcp_ue_manager.c, nr_pdcp_oai_api.c, nr_pdcp_timer_thread.c):
      the table of UEs and bearers, every operation on them, and
      the composition of SDAP and PDCP.  [PdcpApiInv]: the invariant of the
      tables and sequences of operations; [L2Props]: the user plane end to end,
      above RLC; [L2Limits]: where it does not do what it means to.
    - [RlcApi] (nr_rlc_ue_manager.c, nr_rlc_oai_api.c): the table of UEs, bearers
      and logical channels of RLC, every entry point of MAC, PDCP, RRC and the
      tick, and the callbacks of the entities.  [RlcApiInv]: what every operation
      of an entity, of whatever mode, keeps, the well-formed table, the operations
      as one step function, what the callers guarantee and where the process stops; [RlcApiSteps]: one operation; [RlcApiProps]: sequences of
      operations and the independence of the UEs.
    - [L2Stack]: both ends put together from the packet of SDAP to the PDU on the
      air, through the interfaces of [PdcpApi] and [RlcApi].

    ** What is shown

    - Safety of every interleaving of operations, for any input from the air:
      [um_rx_trace_safe], [um_entity_trace_safe], [am_entity_trace_safe] (as long
      as the peer acknowledges no SDU that was not sent to its end),
      [pdcp_recv_pdu_safe], [pdcp_in_order_delivery], [sdap_trace_safe],
      [l2_tables_well_formed], [rlc_trace_safe] (all operations of the RLC layer,
      on any number of UEs and bearers of the three modes, with the exact
      conditions under which the process stops, [rlc_stop]), [rlc_ues_isolated].
      The run functions compose the operations as the callers do; an access outside of an object and a failed assertion are
      values ([Fail]), so that a theorem whose conclusion is [Ok] excludes them
      and proves that each loop ends.
    - End to end: [l2_stack_lossless] (packets of SDAP go through PDCP and RLC of
      one end, the air, and RLC and PDCP of the other, and come out unchanged and
      in order, for a bearer in UM over air that loses nothing, as long as RLC has
      room), over [um_link_lossless] and [l2_user_plane_delivers];
      [um_link_drains] (enough grants deliver everything that was accepted).
    - Telemetry: [pdcp_statistics_reach_ric] (what the RIC decodes is what the
      entities of DRBs 1 to 5 of the gNB count, or the gNB has stopped), over
      [sm_indication_conveyed]; [stats_decoders_verdict] and [isac_decoder_exact]
      (what the decoders do with any bytes at all).
    - Function: [am_exactly_once] (whatever the air does to the PDUs, each SDU is
      handed over once and whole), [am_generate_pdu_spec], [am_status_pdu_spec],
      [data_ind_one_by_one], [sdap_update_qos_flows_spec], [sdap_reflective_mapping_spec],
      [um_reassembly_correct], [um_sdu_full_exact],
      [um_generate_pdu_spec], [pdcp_count_reconstruction],
      [pdcp_reordering_bounded_wait], [pdcp_suspend_reestablish],
      [pdcp_set_security_spec], [pdcp_count_interface], [pdu_list_add_spec],
      [time_average_sliding_sum].
    - Threads: [l2_queue_fifo] (first in, first out, no lost wake-up) and
      [l2_queue_drains].
    - The controller: [iapp_answers_own_requests] (nothing reaches the wrong
      xApp, as long as the xApps ask in their own name), over [iapp_refines_router].  Containers: [rb_nodes_well_formed],
      [rb_search_logarithmic], [rb_free_releases_all].
    - Round trips: [am_pdu_roundtrip] (from the transmitter of one entity to the
      receiver of another), [pdcp_secured_roundtrip], [sdap_data_roundtrip],
      [pdu_header_roundtrip],
      [slice_ind_msg_roundtrip], [slice_ctrl_msg_roundtrip],
      [slice_headers_roundtrip], [stats_messages_roundtrip],
      [tc_ind_msg_roundtrip], [tc_ctrl_msg_roundtrip], [tc_indication_delivered]
      (encoded, decoded and copied), [tc_decoders_exact] (the decoders accept
      nothing but encodings), [enum_values_roundtrip]; copies and comparisons:
      [slice_copies_faithful], [slice_eq_ind_msg_spec], [tc_copy_compare].
    - Refinement: [tm_refines_bounded_queue], [seq_ring_refines_queue],
      [seq_arr_refines_list], [rb_tree_refines_sorted_list],
      [bi_map_refines_bijection], [iapp_refines_router],
      [hashtable_refines_map], [f1_ids_refine_map].
    - What the code does not do although it means to: [am_full_window_hangs] (a
      loop without end when the window is full), [am_poll_timer_null] (a NULL
      pointer is followed when the poll timer expires), [um_rx_size_accounting] and
      [um_rx_size_leak_wedges] (bytes discarded by [t_Reassembly] stay counted,
      until the receiver takes nothing more), [um_two_byte_grant_loses_sdu],
      [um_discard_keeps_tx_size], [pdcp_rx_size_drift], [slice_truncated_overrun]
      (no bound is checked while decoding), [slice_long_string_overrun] (the size
      of a label wraps), [slice_ctrl_out_loses_answer],
      [slice_cp_ctrl_out_reports_ok], [slice_eq_params_aborts],
      [seq_arr_shrink_overflows], [seq_ring_dist_spec],
      [iapp_delete_hits_other_xapp] (a delete request that ends the subscription
      of another xApp), [run_forged_reaches_other], [near_ric_stop_aborts_on_control],
      [l2_high_drbs_have_no_clock] (bearers that the tick leaves out),
      [l2_end_marker_lost], [l2_release_drb_loses_sdus], [rlc_srb3_ack_kills] (an
      acknowledgement on SRB 3 ends the process),
      [pdcp_byte_counter_wrap_stops_gnb] (a counter of bytes that has wrapped ends
      the gNB with the next report), [pdcp_control_stops_gnb],
      [mac_enc_size_wraps], [isac_iq_len_wraps], [eq_mac_ignores_pucch],
      [eq_pdcp_never_false], [tc_ctrl_msg_roundtrip] (a message that adds an OSI
      classifier stops its encoder), [tc_indication_delivered] (the copy of an
      indication has lost the shaper rates), [tc_func_def_copy_differs].

    ** Conventions, bounds and fuel

    - A w-bit unsigned integer is a [Z] with its wrap-around written out ([u32],
      [u64] of this file).  An [int] that only counts bytes or packets is a plain
      [Z]: the operations bound it by the sizes given when the entity is created
      (PDCP's [rx_size], which drifts, is followed without its overflow).
    - [exit], [assert], [AssertFatal] and [DevAssert] are [Fail FExit]; reading
      or writing outside of an object is [Fail FBounds], and so is the overflow
      of the [int] index of a hash iterator.  [malloc] never fails.
      What is written to the log is left out.
    - The padding between the members of a struct is a member of its record,
      because [memcpy] carries it to the network; where the code copies member by
      member the padding of the copy is an argument.  A float is its bit pattern.
      The objects have the layout of x86-64.
    - [StatsRan] takes the UEs of RRC as a list, in the order of its tree, and the
      time as an argument; no other thread runs between the two passes over the
      bearers.
    - The loops of [um_skip_delivered] get [sn_modulus] as fuel (each step moves
      to the next sequence number, and at most a window of them is delivered);
      [remove_old] gets the number of samples; the walks over a container get
      its size or capacity.  [FFuel] is a failure like the others, so the
      theorems that conclude [Ok] prove that the fuel is enough.  All other
      recursions are structural, on the list the C loop walks.
      In AM, [am_skip_delivered] gets [am_fuel], more than the numbers of a
      window, and [am_full_window_hangs] shows that when it runs out no fuel
      would do; the walks of the report ([missing_fuel]) get twice the number of
      stored segments, those of a status PDU ([control_fuel],
      [nack_fuel]) its bits and the length of the lists.
      The walks of the red-black tree get the number of its nodes, which bounds
      every path; the walks of [find_if] the size of the container; the iterator
      of the hash table the number of its chains.
    - Callbacks are events, returned in the order of the calls; so are the
      messages that leave the RIC.  The descriptor of a timer is given by the
      kernel and is an argument.  A step of [ric_step] is one message or the loss
      of one xApp: the handlers take locks around their registries, and the
      interleaving of two handlers inside of one step is not modelled.
      The SDUs that a PDCP entity hands over during an operation go through the
      callback of [PdcpApi] after it, which touches nothing that the receiver of
      the entity uses; the mutex of the manager is held meanwhile.
    - A pointer to an entity of a table is its place: the tables of [PdcpApi],
      [RlcApi] and [Sdap] never share an entity.  Each RLC bearer has its own part
      of the store of SDUs, since no SDU is shared between entities.
    - The callbacks that an RLC entity makes during an operation run after it, in
      their order: they read the table and change none of it.  In [L2Stack] a PDU
      goes from PDCP to RLC and back without the queues between them, which
      [l2_queue_fifo] shows to keep the order and lose nothing; the ticks of PDCP
      are left out there, those of RLC are part of it.
    - In [L2Queue] what a thread does while it holds the mutex is one step, and
      the read of the item without the mutex another; a signal wakes one waiting
      thread or more, any of them, and a thread may wake up without one.
    - The ciphers and MACs (OpenSSL's AES, SNOW 3G) are section variables: the
      theorems hold for all of them.  The laws used are that a cipher is an
      involution that keeps the length, which holds of any key stream, and that
      a MAC has four bytes.  [malloc]'s content of a fresh buffer is a section
      variable of the encoders for the same reason.

    ** Not modelled, and why

    The RAN functions of the models other than PDCP read the tables of the
    scheduler and of RRC.  The setup procedures of the service models return a
    constant string; the agent and RIC of the traffic-control model have the form
    of those of the statistics.  The service models in
    ASN.1 (kpm, rc, E2AP) are mostly generated code.  The [free_x] of the
    service models only release memory, that of PDCP apart.  The start of threads and the E1 glue of PDCP
    (cucp_cuup_handler.c) are left out.  The RIC is modelled from its handlers on:
    sockets, the encoding of E2AP and the setup of the nodes are left out; so are
    the event loops of the agent and of the xApps, which wait on sockets.  The
    schedulers of MAC are tied to the state of the physical layer, which is
    arithmetic on samples; RRC, NAS, F1AP, NGAP and the like are mostly ASN.1 and
    configuration glue.

    ** Where it could go on

    Two AM entities connected in both directions by a link that loses PDUs and
    delivers all that is sent again in the end ([am_exactly_once] has the safety
    half of it); AM bearers in [L2Stack]; the queues of FlexRIC. *)

From Stdlib Require Export ZArith Lia ZifyBool Sorted.
From stdpp Require Export prelude gmap.
#[global] Open Scope Z_scope.

(** ** Results of code that can stop the process or leave an object *)

(** [FExit]: the code calls [exit], or a failing [assert]/[AssertFatal].
    [FBounds]: the code reads or writes outside of an object (undefined in C).
    [FFuel]: the fuel given to a [while] loop of the model ran out. *)
Inductive failure := FExit | FBounds | FFuel.

Inductive res (A : Type) :=
| Ok (a : A)
| Fail (f : failure).
Arguments Ok {A} a.
Arguments Fail {A} f.

#[global] Instance failure_eq_dec : EqDecision failure.
Proof. solve_decision. Defined.

Definition rbind {A B} (m : res A) (k : A -> res B) : res B :=
  match m with
  | Ok a => k a
  | Fail f => Fail f
  end.

Declare Scope res_scope.
Delimit Scope res_scope with res.
Notation "'let*' x := m 'in' k" := (rbind m (fun x => k))
  (at level 10, x pattern, m at level 100, k at level 200) : res_scope.
#[global] Open Scope res_scope.

(** [assert b] and the [AssertFatal]/[DevAssert] macros. *)
Definition assert_ (b : bool) : res unit := if b then Ok tt else Fail FExit.

Definition of_opt {A} (f : failure) (o : option A) : res A :=
  match o with
  | Some a => Ok a
  | None => Fail f
  end.

Lemma rbind_ok {A B} (m : res A) (k : A -> res B) b :
  rbind m k = Ok b <-> exists a, m = Ok a /\ k a = Ok b.
Proof.
  destruct m; simpl; split; [eauto | by intros (?&[= ->]&?) | done | by intros (?&?&?)].
Qed.

Lemma rbind_assoc {A B C} (m : res A) (k : A -> res B) (g : B -> res C) :
  rbind (rbind m k) g = rbind m (fun a => rbind (k a) g).
Proof. by destruct m. Qed.

Lemma rbind_pair_id {A B} (m : res (A * B)) : (let* (a, b) := m in Ok (a, b)) = m.
Proof. by destruct m as [[]|]. Qed.

(** ** Machine integers *)

Definition wrap (w z : Z) : Z := z mod 2 ^ w.
Abbreviation u8 := (wrap 8).
Abbreviation u16 := (wrap 16).
Abbreviation u32 := (wrap 32).
Abbreviation u64 := (wrap 64).

(** Conversion to a signed 32-bit [int]. *)
Definition s32 (z : Z) : Z := (z + 2 ^ 31) mod 2 ^ 32 - 2 ^ 31.

Lemma wrap_range w z : 0 <= w -> 0 <= wrap w z < 2 ^ w.
Proof. intros. apply Z.mod_pos_bound. apply Z.pow_pos_nonneg; lia. Qed.

Lemma wrap_small w z : 0 <= z < 2 ^ w -> wrap w z = z.
Proof. apply Z.mod_small. Qed.

Lemma wrap_idemp w z : wrap w (wrap w z) = wrap w z.
Proof. apply Zmod_mod. Qed.

Lemma wrap_add_l w a b : wrap w (wrap w a + b) = wrap w (a + b).
Proof. apply Zplus_mod_idemp_l. Qed.

Lemma s32_small z : - 2 ^ 31 <= z < 2 ^ 31 -> s32 z = z.
Proof. intros. unfold s32. rewrite Z.mod_small; lia. Qed.

(** Two numbers closer than the modulus with the same residue are equal. *)
Lemma mod_eq_close m a b : a mod m = b mod m -> - m < a - b < m -> a = b.
Proof.
  intros Heq Hc. assert (Hm : 0 < m) by lia.
  pose proof (Z.div_mod a m ltac:(lia)) as Ha. pose proof (Z.div_mod b m ltac:(lia)) as Hb.
  rewrite Heq in Ha. assert (a - b = m * (a / m - b / m)) as Hd by lia.
  assert (a / m - b / m = 0) by nia. nia.
Qed.

(** ** Bytes and buffers *)

Abbreviation bytes := (list Z).
Definition byte_ok (b : Z) : Prop := 0 <= b < 256.

(** Length of a buffer, as the C code sees it. *)
Definition zlen {A} (l : list A) : Z := Z.of_nat (length l).

(** The [len] bytes at offset [off], a read of [memcpy]; [FBounds] when they
    are not all inside of the object. *)
Definition buf_read (l : bytes) (off len : Z) : res bytes :=
  if (0 <=? off) && (0 <=? len) && (off + len <=? zlen l)
  then Ok (take (Z.to_nat len) (drop (Z.to_nat off) l))
  else Fail FBounds.

(** Write [data] at offset [off] of [l], a write of [memcpy]. *)
Definition buf_write (l : bytes) (off : Z) (data : bytes) : res bytes :=
  if (0 <=? off) && (off + zlen data <=? zlen l)
  then Ok (take (Z.to_nat off) l ++ data ++ drop (Z.to_nat off + length data) l)
  else Fail FBounds.

Lemma zlen_nonneg {A} (l : list A) : 0 <= zlen l.
Proof. unfold zlen. lia. Qed.

Lemma zlen_nil {A} : zlen (@nil A) = 0.
Proof. done. Qed.

Lemma zlen_cons {A} (x : A) l : zlen (x :: l) = 1 + zlen l.
Proof. unfold zlen. simpl length. lia. Qed.

Lemma zlen_app {A} (l k : list A) : zlen (l ++ k) = zlen l + zlen k.
Proof. unfold zlen. rewrite length_app. lia. Qed.

Lemma zlen_take {A} (l : list A) n :
  0 <= n <= zlen l -> zlen (take (Z.to_nat n) l) = n.
Proof. unfold zlen. rewrite length_take. lia. Qed.

Lemma zlen_drop {A} (l : list A) n :
  0 <= n <= zlen l -> zlen (drop (Z.to_nat n) l) = zlen l - n.
Proof. unfold zlen. rewrite length_drop. lia. Qed.

Lemma zlen_0_nil {A} (l : list A) : zlen l = 0 -> l = [].
Proof. destruct l; [done | unfold zlen; simpl; lia]. Qed.

Lemma buf_read_ok l off len :
  0 <= off -> 0 <= len -> off + len <= zlen l ->
  buf_read l off len = Ok (take (Z.to_nat len) (drop (Z.to_nat off) l)).
Proof.
  intros. unfold buf_read.
  rewrite (proj2 (Z.leb_le 0 off)), (proj2 (Z.leb_le 0 len)), (proj2 (Z.leb_le _ (zlen l))); done.
Qed.

Lemma buf_read_inv l off len d :
  buf_read l off len = Ok d ->
  0 <= off /\ 0 <= len /\ off + len <= zlen l /\
  d = take (Z.to_nat len) (drop (Z.to_nat off) l).
Proof.
  unfold buf_read.
  destruct (0 <=? off) eqn:?, (0 <=? len) eqn:?, (off + len <=? zlen l) eqn:?; simpl; try done.
  intros [= <-]. split_and!; (lia || done).
Qed.

Lemma buf_read_app l pre post :
  buf_read (pre ++ l ++ post) (zlen pre) (zlen l) = Ok l.
Proof.
  pose proof (zlen_nonneg pre). pose proof (zlen_nonneg l). pose proof (zlen_nonneg post).
  rewrite buf_read_ok by (rewrite ?zlen_app; lia).
  unfold zlen. rewrite !Nat2Z.id, drop_app_length, take_app_length. done.
Qed.

Lemma buf_read_all l : buf_read l 0 (zlen l) = Ok l.
Proof.
  rewrite <- (app_nil_r l) at 1. apply (buf_read_app l [] []).
Qed.

Lemma buf_read_len l off len d : buf_read l off len = Ok d -> zlen d = len.
Proof.
  intros (?&?&?&->)%buf_read_inv. rewrite zlen_take; [done|].
  rewrite zlen_drop; lia.
Qed.

Lemma buf_write_app pre old post data :
  length data = length old ->
  buf_write (pre ++ old ++ post) (zlen pre) data = Ok (pre ++ data ++ post).
Proof.
  intros Hl. unfold buf_write.
  replace (0 <=? zlen pre) with true by (symmetry; apply Z.leb_le, zlen_nonneg).
  assert (Hz : zlen data = zlen old) by (unfold zlen; by rewrite Hl).
  pose proof (zlen_nonneg post).
  rewrite (proj2 (Z.leb_le _ _)) by (rewrite !zlen_app; lia). simpl. f_equal.
  unfold zlen. rewrite Nat2Z.id, take_app_length. f_equal. f_equal.
  rewrite Hl, <- drop_drop, drop_app_length. apply drop_app_length.
Qed.

Lemma buf_write_inv l off data l' :
  buf_write l off data = Ok l' ->
  0 <= off /\ off + zlen data <= zlen l /\
  l' = take (Z.to_nat off) l ++ data ++ drop (Z.to_nat off + length data) l.
Proof.
  unfold buf_write.
  destruct (0 <=? off) eqn:?, (off + zlen data <=? zlen l) eqn:?; simpl; try done.
  intros [= <-]. split_and!; (lia || done).
Qed.

Lemma buf_write_length l off data l' :
  buf_write l off data = Ok l' -> length l' = length l.
Proof.
  intros (?&?&->)%buf_write_inv. unfold zlen in *.
  rewrite !length_app, length_take, length_drop. lia.
Qed.

Lemma take_drop_middle_Z {A} (l : list A) off len :
  0 <= off -> 0 <= len -> off + len <= zlen l ->
  take (Z.to_nat off) l ++ take (Z.to_nat len) (drop (Z.to_nat off) l)
    = take (Z.to_nat (off + len)) l.
Proof.
  intros. rewrite Z2Nat.inj_add by lia.
  rewrite <- (take_drop (Z.to_nat off) l) at 3.
  assert (length (take (Z.to_nat off) l) = Z.to_nat off) as Hl.
  { rewrite length_take. unfold zlen in *. lia. }
  rewrite <- Hl at 3. by rewrite take_app_add.
Qed.

Lemma drop_cons_nth {A} n (l : list A) x k d :
  drop n l = x :: k -> nth n l d = x /\ l !! n = Some x.
Proof.
  revert l. induction n as [|n IH]; intros [|y l]; simpl; try done.
  - by intros [= -> ->].
  - apply IH.
Qed.

Lemma sorted_app_r {A} (R : A -> A -> Prop) l k :
  StronglySorted R (l ++ k) -> StronglySorted R k.
Proof. induction l; simpl; [done|]. inversion 1; auto. Qed.

(** ** Sums over lists *)

Definition zsum {A} (f : A -> Z) (l : list A) : Z := foldr (fun a s => f a + s) 0 l.

Lemma zsum_app {A} (f : A -> Z) l k : zsum f (l ++ k) = zsum f l + zsum f k.
Proof. induction l; simpl; lia. Qed.

Lemma zsum_perm {A} (f : A -> Z) l k : l ≡ₚ k -> zsum f l = zsum f k.
Proof. induction 1; simpl; lia. Qed.

Lemma zsum_nonneg {A} (f : A -> Z) l :
  Forall (fun a => 0 <= f a) l -> 0 <= zsum f l.
Proof. induction 1; simpl; lia. Qed.

(** ** Tactics *)

(** Case analysis on the [if]s of the goal whose condition is a boolean
    comparison, with the comparison reflected. *)
Ltac case_bool_ :=
  match goal with
  | |- context [if ?b then _ else _] =>
      lazymatch type of b with bool => destruct b eqn:? end
  end.
Ltac bool_hyps :=
  repeat match goal with
  | H : (_ && _) = true |- _ => apply andb_true_iff in H; destruct H
  | H : (_ || _) = false |- _ => apply orb_false_iff in H; destruct H
  | H : negb _ = true |- _ => apply negb_true_iff in H
  | H : negb _ = false |- _ => apply negb_false_iff in H
  end.

(** Decide the boolean [if] at the head of the goal or of a hypothesis by
    linear arithmetic. *)
Ltac zif_true := rewrite (proj2 (Z.leb_le _ _)) by lia.


Create HintDb ro discriminated.
Create HintDb zlen.
Lemma zlen_replicate {A} n (x : A) : 0 <= n -> zlen (replicate (Z.to_nat n) x) = n.
Proof. intros. unfold zlen. rewrite length_replicate. lia. Qed.

#[export] Hint Resolve zlen_nonneg wrap_small : ro.
#[export] Hint Rewrite @zlen_nil @zlen_cons @zlen_app : zlen.

(** ** Sublists *)

Lemma sublist_forall {A} (P : A -> Prop) l k : sublist l k -> Forall P k -> Forall P l.
Proof. induction 1 as [|x l k _ IH|x l k _ IH]; intros Hf; [done| |]; inversion Hf; subst; [constructor|]; auto. Qed.

Lemma sublist_map {A B} (f : A -> B) l k : sublist l k -> sublist (map f l) (map f k).
Proof. induction 1; simpl; by constructor. Qed.
