(* ===== verification/Asn1Utils.v ===== *)
(** The enumerated values of the RRC configuration (TS 38.331): the tables of
    nr_pdcp_configuration.h and nr_rlc_configuration.h, and the functions that
    the macro of the two asn1_utils.c files defines, with their round trip. *)

From S2P Require Import Prelude.

(** ** PDCP *)

Definition VALUES_NR_PDCP_SN_SIZE : list Z := [12; 18].
Definition VALUES_NR_PDCP_T_REORDERING : list Z :=
  [0; 1; 2; 4; 5; 8; 10; 15; 20; 30; 40; 50; 60; 80; 100; 120; 140; 160; 180; 200; 220; 240; 260; 280;
   300; 500; 750; 1000; 1250; 1500; 1750; 2000; 2250; 2500; 2750; 3000; -1].
Definition VALUES_NR_PDCP_DISCARD_TIMER : list Z :=
  [10; 20; 30; 40; 50; 60; 75; 100; 150; 200; 250; 300; 500; 750; 1500; -1].

(** ** RLC *)

Definition VALUES_NR_RLC_T_POLL_RETRANSMIT : list Z :=
  [5; 10; 15; 20; 25; 30; 35; 40; 45; 50; 55; 60; 65; 70; 75; 80; 85; 90; 95; 100; 105; 110; 115; 120; 125; 130;
   135; 140; 145; 150; 155; 160; 165; 170; 175; 180; 185; 190; 195; 200; 205; 210; 215; 220; 225; 230; 235; 240;
   245; 250; 300; 350; 400; 450; 500; 800; 1000; 2000; 4000; 1; 2; 4].
Definition VALUES_NR_RLC_T_REASSEMBLY : list Z :=
  [0; 5; 10; 15; 20; 25; 30; 35; 40; 45; 50; 55; 60; 65; 70; 75; 80; 85; 90; 95; 100; 110; 120; 130; 140; 150; 160;
   170; 180; 190; 200].
Definition VALUES_NR_RLC_T_STATUS_PROHIBIT : list Z :=
  [0; 5; 10; 15; 20; 25; 30; 35; 40; 45; 50; 55; 60; 65; 70; 75; 80; 85; 90; 95; 100; 105; 110; 115; 120; 125; 130;
   135; 140; 145; 150; 155; 160; 165; 170; 175; 180; 185; 190; 195; 200; 205; 210; 215; 220; 225; 230; 235; 240;
   245; 250; 300; 350; 400; 450; 500; 800; 1000; 1200; 1600; 2000; 2400].
Definition VALUES_NR_RLC_POLL_PDU : list Z :=
  [4; 8; 16; 32; 64; 128; 256; 512; 1024; 2048; 4096; 6144; 8192; 12288; 16384; 20480; 24576; 28672; 32768; 40960;
   49152; 57344; 65536; -1].
Definition VALUES_NR_RLC_POLL_BYTE : list Z :=
  map (Z.mul 1024)
    [1; 2; 5; 8; 10; 15; 25; 50; 75; 100; 125; 250; 375; 500; 750; 1000; 1250; 1500; 2000; 3000; 4000; 4500; 5000;
     5500; 6000; 6500; 7000; 7500]
  ++ map (Z.mul (1024 * 1024)) [8; 9; 10; 11; 12; 13; 14; 15; 16; 17; 18; 20; 25; 30; 40] ++ [-1].
Definition VALUES_NR_RLC_MAX_RETX_THRESHOLD : list Z := [1; 2; 3; 4; 6; 8; 16; 32].
Definition VALUES_NR_RLC_SN_FIELD_LENGTH_AM : list Z := [12; 18].
Definition VALUES_NR_RLC_SN_FIELD_LENGTH_UM : list Z := [6; 12].

(** ** The two functions that [ENCODE_DECODE] defines *)

Definition decode_value (tab : list Z) (v : Z) : res Z :=
  let* _ := assert_ ((0 <=? v) && (v <? zlen tab)) in
  of_opt FBounds (tab !! Z.to_nat v).

Fixpoint encode_value (ret : Z) (tab : list Z) (v : Z) : res Z :=
  match tab with
  | [] => Fail FExit
  | x :: tab' => if x =? v then Ok ret else encode_value (ret + 1) tab' v
  end.

Definition decode_t_reordering (v : Z) : res Z := decode_value VALUES_NR_PDCP_T_REORDERING v.
Definition decode_sn_size_ul (v : Z) : res Z := decode_value VALUES_NR_PDCP_SN_SIZE v.
Definition decode_sn_size_dl (v : Z) : res Z := decode_value VALUES_NR_PDCP_SN_SIZE v.
Definition decode_discard_timer (v : Z) : res Z := decode_value VALUES_NR_PDCP_DISCARD_TIMER v.
Definition encode_t_reordering (v : Z) : res Z := encode_value 0 VALUES_NR_PDCP_T_REORDERING v.
Definition encode_sn_size_ul (v : Z) : res Z := encode_value 0 VALUES_NR_PDCP_SN_SIZE v.
Definition encode_sn_size_dl (v : Z) : res Z := encode_value 0 VALUES_NR_PDCP_SN_SIZE v.
Definition encode_discard_timer (v : Z) : res Z := encode_value 0 VALUES_NR_PDCP_DISCARD_TIMER v.

Definition decode_t_reassembly (v : Z) : res Z := decode_value VALUES_NR_RLC_T_REASSEMBLY v.
Definition decode_t_status_prohibit (v : Z) : res Z := decode_value VALUES_NR_RLC_T_STATUS_PROHIBIT v.
Definition decode_t_poll_retransmit (v : Z) : res Z := decode_value VALUES_NR_RLC_T_POLL_RETRANSMIT v.
Definition decode_poll_pdu (v : Z) : res Z := decode_value VALUES_NR_RLC_POLL_PDU v.
Definition decode_poll_byte (v : Z) : res Z := decode_value VALUES_NR_RLC_POLL_BYTE v.
Definition decode_max_retx_threshold (v : Z) : res Z := decode_value VALUES_NR_RLC_MAX_RETX_THRESHOLD v.
Definition decode_sn_field_length_am (v : Z) : res Z := decode_value VALUES_NR_RLC_SN_FIELD_LENGTH_AM v.
Definition decode_sn_field_length_um (v : Z) : res Z := decode_value VALUES_NR_RLC_SN_FIELD_LENGTH_UM v.
Definition encode_t_reassembly (v : Z) : res Z := encode_value 0 VALUES_NR_RLC_T_REASSEMBLY v.
Definition encode_t_status_prohibit (v : Z) : res Z := encode_value 0 VALUES_NR_RLC_T_STATUS_PROHIBIT v.
Definition encode_t_poll_retransmit (v : Z) : res Z := encode_value 0 VALUES_NR_RLC_T_POLL_RETRANSMIT v.
Definition encode_poll_pdu (v : Z) : res Z := encode_value 0 VALUES_NR_RLC_POLL_PDU v.
Definition encode_poll_byte (v : Z) : res Z := encode_value 0 VALUES_NR_RLC_POLL_BYTE v.
Definition encode_max_retx_threshold (v : Z) : res Z := encode_value 0 VALUES_NR_RLC_MAX_RETX_THRESHOLD v.
Definition encode_sn_field_length_am (v : Z) : res Z := encode_value 0 VALUES_NR_RLC_SN_FIELD_LENGTH_AM v.
Definition encode_sn_field_length_um (v : Z) : res Z := encode_value 0 VALUES_NR_RLC_SN_FIELD_LENGTH_UM v.

(** ** The round trip *)

Lemma decode_value_lookup tab v x : decode_value tab v = Ok x <-> 0 <= v /\ tab !! Z.to_nat v = Some x.
Proof.
  unfold decode_value, assert_, zlen. destruct (_ && _) eqn:Hb; cbn [rbind].
  - destruct (tab !! Z.to_nat v) as [y|]; simpl; [|by split; [|intros [_ ?]]].
    split; [intros [= ->]; split; [lia|done]|by intros [_ [= ->]]].
  - split; [done|]. intros [Hv Hl%lookup_lt_Some]. lia.
Qed.

Lemma encode_value_lookup tab ret v x :
  NoDup tab -> encode_value ret tab x = Ok v <-> ret <= v /\ tab !! Z.to_nat (v - ret) = Some x.
Proof.
  intros Hnd. revert ret. induction Hnd as [|y tab Hy Hnd IH]; intros ret; simpl.
  { split; [done|]. by intros [_ ?]. }
  destruct (Z.eqb_spec y x) as [->|Hne].
  - split; [intros [= <-]; rewrite Z.sub_diag; split; [lia|done]|].
    intros [Hr Hl]. f_equal. destruct (Z.to_nat (v - ret)) as [|k] eqn:Hk; [lia|]. simpl in Hl.
    destruct Hy. by eapply list_elem_of_lookup_2.
  - rewrite IH. split; intros [Hr Hl].
    + split; [lia|]. by replace (Z.to_nat (v - ret)) with (S (Z.to_nat (v - (ret + 1)))) by lia.
    + destruct (Z.to_nat (v - ret)) as [|k] eqn:Hk; simpl in Hl; [by injection Hl as ->|].
      split; [lia|]. by replace (Z.to_nat (v - (ret + 1))) with k by lia.
Qed.

Definition all_tables : list (list Z) :=
  [VALUES_NR_PDCP_SN_SIZE; VALUES_NR_PDCP_T_REORDERING; VALUES_NR_PDCP_DISCARD_TIMER; VALUES_NR_RLC_T_POLL_RETRANSMIT;
   VALUES_NR_RLC_T_REASSEMBLY; VALUES_NR_RLC_T_STATUS_PROHIBIT; VALUES_NR_RLC_POLL_PDU; VALUES_NR_RLC_POLL_BYTE;
   VALUES_NR_RLC_MAX_RETX_THRESHOLD; VALUES_NR_RLC_SN_FIELD_LENGTH_AM; VALUES_NR_RLC_SN_FIELD_LENGTH_UM].

Lemma all_tables_nodup : Forall NoDup all_tables.
Proof. repeat constructor; apply (bool_decide_unpack _); by vm_compute. Qed.

(** Decoding and encoding of every enumerated value are inverse of each other,
    defined exactly on the positions of the table and on its values. *)
Theorem enum_values_roundtrip tab v x : tab ∈ all_tables ->
  (decode_value tab v = Ok x <-> encode_value 0 tab x = Ok v) /\
  ((exists y, decode_value tab v = Ok y) <-> 0 <= v < zlen tab) /\ ((exists w, encode_value 0 tab x = Ok w) <-> x ∈ tab).
Proof.
  intros Ht. pose proof (proj1 (Forall_forall _ _) all_tables_nodup tab Ht) as Hnd.
  rewrite encode_value_lookup, Z.sub_0_r, decode_value_lookup by done. split; [done|]. split.
  - split.
    + intros [y [? Hl%lookup_lt_Some]%decode_value_lookup]. unfold zlen. lia.
    + unfold zlen. intros [? Hv]. destruct (lookup_lt_is_Some_2 tab (Z.to_nat v)) as [y Hy]; [lia|].
      exists y. by apply decode_value_lookup.
  - rewrite list_elem_of_lookup. split.
    + intros [w [_ Hl]%encode_value_lookup]; [by eexists|done].
    + intros [i Hi]. exists (Z.of_nat i). apply encode_value_lookup; [done|]. by rewrite Z.sub_0_r, Nat2Z.id; split; [lia|].
Qed.

Lemma enum_values_roundtrip_witness :
  VALUES_NR_RLC_MAX_RETX_THRESHOLD ∈ all_tables /\
  (decode_value VALUES_NR_RLC_MAX_RETX_THRESHOLD 5 = Ok 8 <-> encode_value 0 VALUES_NR_RLC_MAX_RETX_THRESHOLD 8 = Ok 5).
Proof.
  assert (VALUES_NR_RLC_MAX_RETX_THRESHOLD ∈ all_tables) as Ht by (unfold all_tables; set_solver).
  split; [done|]. by apply (enum_values_roundtrip VALUES_NR_RLC_MAX_RETX_THRESHOLD 5 8).
Defined.
