(* ===== verification/RlcPdu.v ===== *)
(** The reception list and the bit-level PDU coder of NR RLC
    (openair2/LAYER2/nr_rlc/nr_rlc_pdu.[ch]).

    [nr_rlc_pdu_list_add] is modelled on Rocq lists.  The decoder and the
    encoder keep the byte/bit cursor of the C structs; they are related to a
    plain stream of bits ([dec_stream], [enc_stream]), against which the
    entities prove their header round trips. *)

From S2P Require Import Prelude.

(** ** RX PDU management *)

Record nr_rlc_pdu := mk_pdu {
  pdu_sn : Z;
  pdu_data : option bytes;      (* [None] is the NULL of a processed segment *)
  pdu_size : Z;
  pdu_so : Z;
  pdu_is_first : bool;
  pdu_is_last : bool
}.

Definition nr_rlc_new_pdu (sn so : Z) (is_first is_last : bool) (data : bytes) (size : Z) : res nr_rlc_pdu :=
  let* d := buf_read data 0 size in
  Ok {| pdu_sn := sn; pdu_data := Some d; pdu_size := size; pdu_so := so;
        pdu_is_first := is_first; pdu_is_last := is_last |}.

Fixpoint nr_rlc_pdu_list_add (sn_compare : Z -> Z -> Z) (l : list nr_rlc_pdu) (pdu : nr_rlc_pdu)
    : list nr_rlc_pdu :=
  match l with
  | [] => [pdu]
  | cur :: l' =>
      if (0 <? sn_compare (pdu_sn cur) (pdu_sn pdu))
         || ((pdu_sn cur =? pdu_sn pdu) && (pdu_so pdu <? pdu_so cur))
      then pdu :: cur :: l'
      else cur :: nr_rlc_pdu_list_add sn_compare l' pdu
  end.

(** ** PDU decoder *)

Record nr_rlc_pdu_decoder := mk_decoder {
  dec_error : Z;
  dec_byte : Z;
  dec_bit : Z;
  dec_buffer : bytes;
  dec_size : Z
}.

Definition nr_rlc_pdu_decoder_init (buffer : bytes) (size : Z) : nr_rlc_pdu_decoder :=
  {| dec_error := 0; dec_byte := 0; dec_bit := 0; dec_buffer := buffer; dec_size := size |}.

Definition nr_rlc_pdu_decoder_in_error (d : nr_rlc_pdu_decoder) : bool := dec_error d =? 1.

Definition get_bit (d : nr_rlc_pdu_decoder) : Z * nr_rlc_pdu_decoder :=
  if dec_size d <=? dec_byte d then (0, {| d with dec_error := 1 |})
  else
    let ret := Z.land (Z.shiftr (nth (Z.to_nat (dec_byte d)) (dec_buffer d) 0) (7 - dec_bit d)) 1 in
    let bit := dec_bit d + 1 in
    if bit =? 8
    then (ret, {| d with dec_bit := 0; dec_byte := dec_byte d + 1 |})
    else (ret, {| d with dec_bit := bit |}).

Fixpoint get_bits_loop (i : nat) (ret : Z) (d : nr_rlc_pdu_decoder) : Z * nr_rlc_pdu_decoder :=
  match i with
  | O => (ret, d)
  | S i' =>
      let (b, d') := get_bit d in
      let ret' := Z.lor (Z.shiftl ret 1) b in
      if negb (dec_error d' =? 0) then (-1, d') else get_bits_loop i' ret' d'
  end.

Definition nr_rlc_pdu_decoder_get_bits (d : nr_rlc_pdu_decoder) (count : Z)
    : res (Z * nr_rlc_pdu_decoder) :=
  if 31 <? count then Fail FExit else Ok (get_bits_loop (Z.to_nat count) 0 d).

(** ** PDU encoder *)

Record nr_rlc_pdu_encoder := mk_encoder {
  enc_byte : Z;
  enc_bit : Z;
  enc_buffer : bytes;
  enc_size : Z
}.

Definition nr_rlc_pdu_encoder_init (buffer : bytes) (size : Z) : nr_rlc_pdu_encoder :=
  {| enc_byte := 0; enc_bit := 0; enc_buffer := buffer; enc_size := size |}.

(** The byte under the cursor is an [unsigned char]: shifted left, then the
    new bit is set; an access past the end of the object is [FBounds]. *)
Definition put_bit (e : nr_rlc_pdu_encoder) (bit : bool) : res nr_rlc_pdu_encoder :=
  if enc_byte e =? enc_size e then Fail FExit
  else
    let* old := of_opt FBounds (enc_buffer e !! Z.to_nat (enc_byte e)) in
    let b := u8 (Z.shiftl old 1) in
    let b := if bit then Z.lor b 1 else b in
    let buf := <[Z.to_nat (enc_byte e) := b]> (enc_buffer e) in
    let bit' := enc_bit e + 1 in
    if bit' =? 8
    then Ok {| e with enc_buffer := buf; enc_bit := 0; enc_byte := enc_byte e + 1 |}
    else Ok {| e with enc_buffer := buf; enc_bit := bit' |}.

Fixpoint put_bits_loop (i : nat) (x : Z) (value : Z) (e : nr_rlc_pdu_encoder)
    : res nr_rlc_pdu_encoder :=
  match i with
  | O => Ok e
  | S i' =>
      let* e' := put_bit e (negb (Z.land value x =? 0)) in
      put_bits_loop i' (Z.shiftr x 1) value e'
  end.

Definition nr_rlc_pdu_encoder_put_bits (e : nr_rlc_pdu_encoder) (value count : Z)
    : res nr_rlc_pdu_encoder :=
  if 31 <? count then Fail FExit
  else put_bits_loop (Z.to_nat count) (Z.shiftl 1 (count - 1)) value e.

(** ** The stream of bits behind the cursors *)

(** The [n] low bits of [v], most significant first. *)
Fixpoint low_bits (n : nat) (v : Z) : list bool :=
  match n with
  | O => []
  | S n' => Z.testbit v (Z.of_nat n') :: low_bits n' v
  end.

Definition bits_val (l : list bool) : Z := fold_left (fun a b => 2 * a + Z.b2z b) l 0.

Definition bits_of_bytes (l : bytes) : list bool := concat (map (low_bits 8) l).

Definition dec_pos (d : nr_rlc_pdu_decoder) : Z := 8 * dec_byte d + dec_bit d.

Definition dec_stream (d : nr_rlc_pdu_decoder) : list bool :=
  drop (Z.to_nat (dec_pos d)) (bits_of_bytes (dec_buffer d)).

Definition enc_pos (e : nr_rlc_pdu_encoder) : Z := 8 * enc_byte e + enc_bit e.

(** What has been encoded: the whole bytes, then the low bits of the byte
    under the cursor. *)
Definition enc_stream (e : nr_rlc_pdu_encoder) : list bool :=
  bits_of_bytes (take (Z.to_nat (enc_byte e)) (enc_buffer e))
  ++ low_bits (Z.to_nat (enc_bit e)) (nth (Z.to_nat (enc_byte e)) (enc_buffer e) 0).

Definition dec_wf (d : nr_rlc_pdu_decoder) : Prop :=
  dec_error d = 0 /\ 0 <= dec_byte d /\ 0 <= dec_bit d < 8 /\
  dec_size d = zlen (dec_buffer d) /\ dec_pos d <= 8 * dec_size d.

Definition enc_wf (e : nr_rlc_pdu_encoder) : Prop :=
  0 <= enc_byte e /\ 0 <= enc_bit e < 8 /\ enc_size e <= zlen (enc_buffer e).

Lemma length_low_bits n v : length (low_bits n v) = n.
Proof. induction n; simpl; congruence. Qed.

Lemma low_bits_app n m v :
  low_bits (n + m) v = low_bits n (Z.shiftr v (Z.of_nat m)) ++ low_bits m v.
Proof.
  induction n as [|n IH]; [done|]. simpl. rewrite IH. f_equal.
  rewrite Z.shiftr_spec by lia. f_equal. lia.
Qed.

Lemma low_bits_ext n v w :
  (forall i, 0 <= i < Z.of_nat n -> Z.testbit v i = Z.testbit w i) ->
  low_bits n v = low_bits n w.
Proof.
  induction n as [|n IH]; [done|]. intros H. simpl. f_equal.
  - apply H. lia.
  - apply IH. intros i ?. apply H. lia.
Qed.

Lemma bits_val_acc l a :
  fold_left (fun a b => 2 * a + Z.b2z b) l a = a * 2 ^ zlen l + bits_val l.
Proof.
  unfold bits_val. revert a. induction l as [|b l IH]; intros a; simpl fold_left.
  - rewrite zlen_nil. lia.
  - rewrite IH, (IH (2 * 0 + Z.b2z b)), zlen_cons, Z.pow_add_r by (pose proof (zlen_nonneg l); lia). lia.
Qed.

Lemma bits_val_cons b l : bits_val (b :: l) = Z.b2z b * 2 ^ zlen l + bits_val l.
Proof. unfold bits_val at 1. simpl fold_left. rewrite bits_val_acc. destruct b; simpl; lia. Qed.

Lemma bits_val_snoc l b : bits_val (l ++ [b]) = 2 * bits_val l + Z.b2z b.
Proof. unfold bits_val. rewrite fold_left_app. done. Qed.

Lemma bits_val_low_bits n v : bits_val (low_bits n v) = v mod 2 ^ Z.of_nat n.
Proof.
  induction n as [|n IH].
  - simpl. by rewrite Z.mod_1_r.
  - simpl low_bits. rewrite bits_val_cons, IH. unfold zlen. rewrite length_low_bits.
    replace (Z.of_nat (S n)) with (Z.of_nat n + 1) by lia.
    rewrite Z.pow_add_r, (Z.rem_mul_r v) by (try apply Z.pow_nonzero; lia).
    rewrite Z.testbit_spec' by lia. change (2 ^ 1) with 2. ring.
Qed.

Lemma bits_val_range l : 0 <= bits_val l < 2 ^ zlen l.
Proof.
  induction l as [|b l IH].
  - by compute.
  - rewrite bits_val_cons, zlen_cons, Z.pow_add_r by (pose proof (zlen_nonneg l); lia).
    destruct b; simpl Z.b2z; lia.
Qed.

Lemma zlen_bits_of_bytes l : zlen (bits_of_bytes l) = 8 * zlen l.
Proof.
  induction l as [|b l IH]; [done|].
  change (bits_of_bytes (b :: l)) with (low_bits 8 b ++ bits_of_bytes l).
  rewrite zlen_cons, zlen_app, IH. unfold zlen at 1. rewrite length_low_bits. lia.
Qed.

Lemma bits_of_bytes_app l k : bits_of_bytes (l ++ k) = bits_of_bytes l ++ bits_of_bytes k.
Proof. unfold bits_of_bytes. by rewrite map_app, concat_app. Qed.

Lemma bits_of_bytes_drop n l :
  drop (8 * n) (bits_of_bytes l) = bits_of_bytes (drop n l).
Proof.
  revert l. induction n as [|n IH]; intros l; [done|].
  destruct l as [|b l]; [by rewrite !drop_nil|].
  replace (8 * S n)%nat with (8 + 8 * n)%nat by lia.
  change (bits_of_bytes (b :: l)) with (low_bits 8 b ++ bits_of_bytes l).
  rewrite <- drop_drop, (drop_app_length' _ _ 8) by (by rewrite length_low_bits). apply IH.
Qed.

Lemma drop_low_bits k n v : (k <= n)%nat -> drop k (low_bits n v) = low_bits (n - k) v.
Proof.
  revert n. induction k as [|k IH]; intros n Hk; [by rewrite Nat.sub_0_r|].
  destruct n as [|n]; [lia|]. simpl. apply IH. lia.
Qed.

Lemma low_bits_snoc n v : low_bits (S n) v = low_bits n (Z.shiftr v 1) ++ [Z.testbit v 0].
Proof. rewrite <- (Nat.add_1_r n). apply low_bits_app. Qed.

Lemma testbit_land1 v i : 0 <= i -> Z.land (Z.shiftr v i) 1 = Z.b2z (Z.testbit v i).
Proof.
  intros. change 1 with (Z.ones 1) at 1. rewrite Z.land_ones by lia.
  rewrite Z.testbit_spec', Z.shiftr_div_pow2 by lia. done.
Qed.

(** Shifting the byte and setting its new low bit appends to its low bits. *)
Lemma low_bits_shift k old (b : bool) :
  (k < 8)%nat ->
  low_bits (S k) (if b then Z.lor (u8 (Z.shiftl old 1)) 1 else u8 (Z.shiftl old 1))
  = low_bits k old ++ [b].
Proof.
  intros Hk. set (w := if b then _ else _).
  assert (Hw : forall i, 0 <= i < 8 -> Z.testbit w i = if i =? 0 then b else Z.testbit old (i - 1)).
  { intros i Hi. assert (Hs : Z.testbit (u8 (Z.shiftl old 1)) i = Z.testbit (Z.shiftl old 1) i).
    { unfold wrap. rewrite <- Z.land_ones, Z.land_spec, Z.ones_spec_low, andb_true_r by lia. done. }
    rewrite Z.shiftl_spec in Hs by lia. unfold w. destruct b.
    - rewrite Z.lor_spec, Hs. destruct (Z.eqb_spec i 0) as [->|].
      + by rewrite orb_true_r.
      + rewrite (Z.bits_above_log2 1 i), orb_false_r by (simpl; lia). done.
    - rewrite Hs. destruct (Z.eqb_spec i 0) as [->|]; [|done]. by rewrite Z.testbit_neg_r by lia. }
  rewrite low_bits_snoc, Hw by lia. simpl. f_equal.
  apply low_bits_ext. intros i Hi. rewrite Z.shiftr_spec, Hw by lia.
  rewrite (proj2 (Z.eqb_neq (i + 1) 0)) by lia. f_equal. lia.
Qed.

(** ** The decoder reads the stream *)

Lemma get_bit_spec d :
  dec_wf d ->
  match dec_stream d with
  | [] => get_bit d = (0, {| d with dec_error := 1 |})
  | b :: s => exists d', get_bit d = (Z.b2z b, d') /\ dec_wf d' /\ dec_stream d' = s /\
                         dec_pos d' = dec_pos d + 1 /\ dec_buffer d' = dec_buffer d
  end.
Proof.
  intros (Herr & Hb & Hbit & Hsz & Hpos). unfold get_bit.
  assert (Hstr : dec_stream d = drop (Z.to_nat (dec_bit d))
      (bits_of_bytes (drop (Z.to_nat (dec_byte d)) (dec_buffer d)))).
  { unfold dec_stream, dec_pos. rewrite <- bits_of_bytes_drop, drop_drop. f_equal. lia. }
  destruct (dec_size d <=? dec_byte d) eqn:Hle.
  - unfold dec_pos in Hpos. rewrite Hstr, (drop_ge (dec_buffer d)) by (unfold zlen in *; lia).
    change (bits_of_bytes []) with (@nil bool). by rewrite drop_nil.
  - destruct (drop (Z.to_nat (dec_byte d)) (dec_buffer d)) as [|x l] eqn:Hd.
    { apply (f_equal length) in Hd. rewrite length_drop in Hd. unfold zlen in *. simpl in Hd. lia. }
    assert (Hx : nth (Z.to_nat (dec_byte d)) (dec_buffer d) 0 = x).
    { by apply (drop_cons_nth _ _ _ _ 0) in Hd as [? ?]. }
    rewrite Hx, testbit_land1 by lia.
    change (bits_of_bytes (x :: l)) with (low_bits 8 x ++ bits_of_bytes l) in Hstr.
    rewrite drop_app_le in Hstr by (rewrite length_low_bits; lia).
    rewrite drop_low_bits in Hstr by lia.
    destruct (8 - Z.to_nat (dec_bit d))%nat as [|k] eqn:Hk; [lia|].
    simpl in Hstr. rewrite Hstr. replace (Z.of_nat k) with (7 - dec_bit d) by lia.
    assert (Hlt : dec_byte d < dec_size d) by lia.
    assert (Hnext : forall d', dec_pos d' = dec_pos d + 1 -> dec_buffer d' = dec_buffer d ->
      dec_stream d' = low_bits k x ++ bits_of_bytes l).
    { intros d' Hp Hbuf. unfold dec_stream in *. rewrite Hp, Hbuf.
      replace (Z.to_nat (dec_pos d + 1)) with (Z.to_nat (dec_pos d) + 1)%nat by (unfold dec_pos; lia).
      rewrite <- drop_drop, Hstr. done. }
    destruct (Z.eqb_spec (dec_bit d + 1) 8); eexists; (split; [reflexivity|]);
      (split_and!; [unfold dec_wf, dec_pos in *; simpl; split_and!; lia
                   |apply Hnext; [unfold dec_pos; simpl; lia|done]
                   |unfold dec_pos; simpl; lia|done]).
Qed.

Lemma lor_shiftl1 a (b : bool) : Z.lor (Z.shiftl a 1) (Z.b2z b) = 2 * a + Z.b2z b.
Proof.
  apply Z.bits_inj'. intros n Hn. rewrite Z.lor_spec, Z.shiftl_spec by lia.
  destruct (Z.eq_dec n 0) as [->|].
  - rewrite Z.testbit_0_r, Z.testbit_neg_r by lia. by destruct b.
  - replace n with (Z.succ (n - 1)) by lia. rewrite Z.testbit_succ_r by lia.
    replace (Z.succ (n - 1) - 1) with (n - 1) by lia.
    rewrite (Z.bits_above_log2 (Z.b2z b)), orb_false_r; [done|by destruct b|].
    destruct b; simpl; lia.
Qed.

Lemma get_bits_loop_spec i ret d :
  dec_wf d -> 0 <= ret -> (i <= length (dec_stream d))%nat ->
  exists d', get_bits_loop i ret d = (ret * 2 ^ Z.of_nat i + bits_val (take i (dec_stream d)), d') /\
    dec_wf d' /\ dec_stream d' = drop i (dec_stream d) /\
    dec_pos d' = dec_pos d + Z.of_nat i /\ dec_buffer d' = dec_buffer d.
Proof.
  revert ret d. induction i as [|i IH]; intros ret d Hwf Hret Hlen.
  - exists d. rewrite take_0, drop_0. split_and!; try done; [|lia].
    simpl. f_equal. unfold bits_val. simpl. lia.
  - pose proof (get_bit_spec d Hwf) as Hg.
    destruct (dec_stream d) as [|b s] eqn:Hs; [simpl in Hlen; lia|].
    destruct Hg as (d' & Hget & Hwf' & Hs' & Hp & Hbuf). cbn [get_bits_loop]. rewrite Hget.
    destruct Hwf' as (He & Hwf'). rewrite He. simpl negb. cbv iota.
    destruct (IH (Z.lor (Z.shiftl ret 1) (Z.b2z b)) d') as (d2 & Heq & Hwf2 & Hs2 & Hp2 & Hb2).
    + by split.
    + apply Z.lor_nonneg. rewrite Z.shiftl_nonneg. split; [done|destruct b; done].
    + rewrite Hs'. simpl in Hlen. lia.
    + exists d2. rewrite Heq. split_and!; try done; [|by rewrite Hs2, Hs'|lia|congruence].
      f_equal. rewrite Hs'. simpl take. rewrite bits_val_cons.
      rewrite lor_shiftl1.
      unfold zlen. rewrite length_take. simpl in Hlen.
      replace (i `min` length s)%nat with i by lia.
      replace (Z.of_nat (S i)) with (Z.of_nat i + 1) by lia. rewrite Z.pow_add_r by lia. lia.
Qed.

Lemma get_bits_ok d n :
  dec_wf d -> 0 <= n <= 31 -> n <= zlen (dec_stream d) ->
  exists d', nr_rlc_pdu_decoder_get_bits d n
             = Ok (bits_val (take (Z.to_nat n) (dec_stream d)), d') /\
    dec_wf d' /\ dec_stream d' = drop (Z.to_nat n) (dec_stream d) /\
    dec_pos d' = dec_pos d + n /\ dec_buffer d' = dec_buffer d.
Proof.
  intros Hwf Hn Hlen. unfold nr_rlc_pdu_decoder_get_bits.
  rewrite (proj2 (Z.ltb_ge 31 n)) by lia.
  destruct (get_bits_loop_spec (Z.to_nat n) 0 d) as (d' & Heq & Hwf' & Hs & Hp & Hb);
    [done|lia|unfold zlen in Hlen; lia|].
  exists d'. rewrite Heq, Z.mul_0_l, Z.add_0_l. split_and!; try done. lia.
Qed.

(** Too few bits left: the decoder ends in its error state and returns -1. *)
Lemma get_bits_loop_short i ret d :
  dec_wf d -> (length (dec_stream d) < i)%nat ->
  exists d', get_bits_loop i ret d = (-1, d') /\ dec_error d' = 1.
Proof.
  revert ret d. induction i as [|i IH]; intros ret d Hwf Hlen; [lia|].
  pose proof (get_bit_spec d Hwf) as Hg. cbn [get_bits_loop].
  destruct (dec_stream d) as [|b s].
  - rewrite Hg. simpl. eauto.
  - destruct Hg as (d' & -> & Hwf' & Hs' & _). destruct (Hwf') as (He & _). rewrite He. simpl negb.
    cbv iota. apply IH; [done|]. rewrite Hs'. simpl in Hlen. lia.
Qed.

Lemma get_bits_short d n :
  dec_wf d -> 0 <= n <= 31 -> zlen (dec_stream d) < n ->
  exists d', nr_rlc_pdu_decoder_get_bits d n = Ok (-1, d') /\ dec_error d' = 1.
Proof.
  intros Hwf Hn Hlen. unfold nr_rlc_pdu_decoder_get_bits.
  rewrite (proj2 (Z.ltb_ge 31 n)) by lia.
  destruct (get_bits_loop_short (Z.to_nat n) 0 d) as (d' & -> & He); [done|unfold zlen in *; lia|].
  eauto.
Qed.

(** Both cases at once, for a client that only tests the error. *)
Lemma get_bits_cases d n :
  dec_wf d -> 0 <= n <= 31 ->
  exists v d', nr_rlc_pdu_decoder_get_bits d n = Ok (v, d') /\
    (nr_rlc_pdu_decoder_in_error d' = true \/
     (nr_rlc_pdu_decoder_in_error d' = false /\ 0 <= v < 2 ^ n /\ dec_wf d' /\
      dec_pos d' = dec_pos d + n)).
Proof.
  intros Hwf Hn. destruct (Z.le_gt_cases n (zlen (dec_stream d))) as [Hle|Hgt].
  - destruct (get_bits_ok d n Hwf Hn Hle) as (d' & -> & Hwf' & _ & Hpos & _).
    eexists _, _. split; [done|right]. split_and!; [|..|done|done].
    + destruct Hwf' as (He & _). unfold nr_rlc_pdu_decoder_in_error. by rewrite He.
    + apply bits_val_range.
    + pose proof (bits_val_range (take (Z.to_nat n) (dec_stream d))) as [_ Hr].
      by rewrite zlen_take in Hr by lia.
  - destruct (get_bits_short d n Hwf Hn) as (d' & -> & He); [lia|].
    eexists _, _. split; [done|left]. unfold nr_rlc_pdu_decoder_in_error. by rewrite He.
Qed.

Lemma decoder_init_wf buffer :
  dec_wf (nr_rlc_pdu_decoder_init buffer (zlen buffer)).
Proof. pose proof (zlen_nonneg buffer). unfold dec_wf, dec_pos. simpl. lia. Qed.

Lemma decoder_init_stream buffer size :
  dec_stream (nr_rlc_pdu_decoder_init buffer size) = bits_of_bytes buffer.
Proof. done. Qed.

(** ** The encoder appends to the stream *)

Lemma put_bit_spec e b :
  enc_wf e -> enc_byte e < enc_size e ->
  exists e', put_bit e b = Ok e' /\ enc_wf e' /\ enc_stream e' = enc_stream e ++ [b] /\
    enc_pos e' = enc_pos e + 1 /\ enc_size e' = enc_size e /\
    length (enc_buffer e') = length (enc_buffer e).
Proof.
  intros (Hb & Hbit & Hsz) Hlt. unfold put_bit.
  rewrite (proj2 (Z.eqb_neq _ _)) by lia.
  set (n := Z.to_nat (enc_byte e)). unfold zlen in Hsz.
  destruct (lookup_lt_is_Some_2 (enc_buffer e) n) as [old Hold]; [lia|].
  rewrite Hold. simpl of_opt. unfold rbind. cbv zeta.
  set (w := if b then _ else _).
  assert (Hw : low_bits (S (Z.to_nat (enc_bit e))) w = low_bits (Z.to_nat (enc_bit e)) old ++ [b]).
  { apply low_bits_shift. lia. }
  assert (Hn : nth n (enc_buffer e) 0 = old) by (by apply nth_lookup_Some).
  assert (Hstr : enc_stream e ++ [b] = bits_of_bytes (take n (enc_buffer e))
      ++ low_bits (S (Z.to_nat (enc_bit e))) w).
  { unfold enc_stream. fold n. by rewrite Hn, Hw, app_assoc. }
  rewrite Hstr. destruct (Z.eqb_spec (enc_bit e + 1) 8).
  - eexists; split; [reflexivity|]. unfold enc_wf, enc_pos, enc_stream.
    cbn [enc_byte enc_bit enc_buffer enc_size].
    rewrite length_insert. unfold zlen. rewrite length_insert.
    split_and!; try done; try lia.
    replace (Z.to_nat (enc_byte e + 1)) with (S n) by lia.
    replace (S (Z.to_nat (enc_bit e))) with 8%nat by lia.
    rewrite (take_S_r _ _ w), take_insert_ge, bits_of_bytes_app by (try apply list_lookup_insert_eq; lia).
    rewrite app_nil_r. done.
  - eexists; split; [reflexivity|]. unfold enc_wf, enc_pos, enc_stream.
    cbn [enc_byte enc_bit enc_buffer enc_size].
    fold n. rewrite length_insert. unfold zlen. rewrite length_insert.
    split_and!; try done; try lia.
    rewrite take_insert_ge by lia. f_equal.
    rewrite (nth_lookup_Some _ _ 0 w) by (apply list_lookup_insert_eq; lia).
    by replace (Z.to_nat (enc_bit e + 1)) with (S (Z.to_nat (enc_bit e))) by lia.
Qed.

Lemma land_pow2_testbit v n :
  0 <= n -> negb (Z.land v (2 ^ n) =? 0) = Z.testbit v n.
Proof.
  intros Hn. destruct (Z.testbit v n) eqn:Ht.
  - apply negb_true_iff, Z.eqb_neq. intros H0. apply (f_equal (fun z => Z.testbit z n)) in H0.
    rewrite Z.land_spec, Z.pow2_bits_true, Ht, Z.bits_0 in H0 by lia. done.
  - apply negb_false_iff, Z.eqb_eq, Z.bits_inj'. intros m Hm.
    rewrite Z.land_spec, Z.bits_0, Z.pow2_bits_eqb by lia.
    destruct (Z.eqb_spec n m) as [->|]; [by rewrite Ht|]. apply andb_false_r.
Qed.

Lemma put_bits_loop_spec i value e :
  enc_wf e -> enc_pos e + Z.of_nat i <= 8 * enc_size e ->
  exists e', put_bits_loop i (Z.shiftl 1 (Z.of_nat i - 1)) value e = Ok e' /\ enc_wf e' /\
    enc_stream e' = enc_stream e ++ low_bits i value /\
    enc_pos e' = enc_pos e + Z.of_nat i /\ enc_size e' = enc_size e /\
    length (enc_buffer e') = length (enc_buffer e).
Proof.
  revert e. induction i as [|i IH]; intros e Hwf Hroom.
  - exists e. simpl. rewrite app_nil_r. split_and!; try done; lia.
  - destruct (put_bit_spec e (Z.testbit value (Z.of_nat i)) Hwf)
      as (e1 & H1 & Hwf1 & Hs1 & Hp1 & Hz1 & Hl1).
    { destruct Hwf as (?&?&?). unfold enc_pos in Hroom. lia. }
    destruct (IH e1 Hwf1) as (e2 & H2 & Hwf2 & Hs2 & Hp2 & Hz2 & Hl2); [lia|].
    exists e2. cbn [put_bits_loop].
    replace (Z.shiftl 1 (Z.of_nat (S i) - 1)) with (2 ^ Z.of_nat i)
      by (rewrite Z.shiftl_mul_pow2 by lia; rewrite Z.mul_1_l; f_equal; lia).
    rewrite land_pow2_testbit, H1 by lia. simpl rbind.
    replace (Z.shiftr (2 ^ Z.of_nat i) 1) with (Z.shiftl 1 (Z.of_nat i - 1)).
    { split_and!; try done; try lia. rewrite Hs2, Hs1. by rewrite <- app_assoc. }
    destruct i as [|i].
    + done.
    + rewrite Z.shiftl_mul_pow2, Z.mul_1_l, Z.shiftr_div_pow2 by lia.
      replace (Z.of_nat (S i)) with (Z.of_nat (S i) - 1 + 1) at 2 by lia.
      rewrite Z.pow_add_r, Z.div_mul by lia. done.
Qed.

Lemma put_bits_ok e value n :
  enc_wf e -> 0 <= n <= 31 -> enc_pos e + n <= 8 * enc_size e ->
  exists e', nr_rlc_pdu_encoder_put_bits e value n = Ok e' /\ enc_wf e' /\
    enc_stream e' = enc_stream e ++ low_bits (Z.to_nat n) value /\
    enc_pos e' = enc_pos e + n /\ enc_size e' = enc_size e /\
    length (enc_buffer e') = length (enc_buffer e).
Proof.
  intros Hwf Hn Hroom. unfold nr_rlc_pdu_encoder_put_bits.
  rewrite (proj2 (Z.ltb_ge 31 n)) by lia.
  destruct (put_bits_loop_spec (Z.to_nat n) value e) as (e' & He & ?); [done|lia|].
  rewrite Z2Nat.id in He by lia. exists e'. rewrite He. rewrite Z2Nat.id in H by lia. done.
Qed.

Lemma encoder_init_wf buffer size :
  size <= zlen buffer -> enc_wf (nr_rlc_pdu_encoder_init buffer size).
Proof. intros. unfold enc_wf. simpl. lia. Qed.

(** ** The reception list *)

Section ListAdd.
(** The entities call [nr_rlc_pdu_list_add] with a comparison that is the
    difference of the positions of two sequence numbers in the window. *)
Context (pos : Z -> Z).

Definition pdu_le (a b : nr_rlc_pdu) : Prop :=
  pos (pdu_sn a) < pos (pdu_sn b) \/ (pdu_sn a = pdu_sn b /\ pdu_so a <= pdu_so b).

Definition sn_diff (a b : Z) : Z := pos a - pos b.

#[export] Instance pdu_le_trans : Transitive pdu_le.
Proof.
  intros a b c [?|[Heq ?]] [?|[Heq' ?]]; unfold pdu_le.
  - left. lia.
  - left. by rewrite <- Heq'.
  - left. by rewrite Heq.
  - right. split; [congruence|lia].
Qed.

Lemma list_add_perm l p : nr_rlc_pdu_list_add sn_diff l p ≡ₚ p :: l.
Proof.
  induction l as [|c l IH]; [done|]. simpl. case_match; [done|].
  rewrite IH. apply Permutation_swap.
Qed.

(** Positions are injective on the sequence numbers that satisfy [ok]. *)
Context (ok : Z -> Prop).
Hypothesis pos_inj : forall a b, ok a -> ok b -> pos a = pos b -> a = b.

Lemma list_add_sorted l p :
  Forall (fun q => ok (pdu_sn q)) (p :: l) ->
  StronglySorted pdu_le l ->
  StronglySorted pdu_le (nr_rlc_pdu_list_add sn_diff l p).
Proof.
  intros Hok. inversion Hok as [|? ? Hp Hl]; subst. clear Hok.
  induction l as [|c l IH]; intros Hs; simpl.
  - repeat constructor.
  - inversion Hs as [|? ? Hs' Hall]; subst. inversion Hl as [|? ? Hc Hl']; subst.
    unfold sn_diff at 1. case_match eqn:Hb.
    + constructor; [done|]. assert (Hpc : pdu_le p c).
      { unfold pdu_le. assert (pos (pdu_sn p) < pos (pdu_sn c) \/
          (pdu_sn c = pdu_sn p /\ pdu_so p < pdu_so c)) as [?|[? ?]] by lia; [by left|right; lia]. }
      constructor; [done|]. eapply Forall_impl; [exact Hall|].
      intros x Hx. by transitivity c.
    + constructor; [by apply IH|]. rewrite list_add_perm.
      constructor; [|done]. assert (Hle : pos (pdu_sn c) <= pos (pdu_sn p)) by lia.
      destruct (Z.eq_dec (pos (pdu_sn c)) (pos (pdu_sn p))) as [He|]; [|left; lia].
      right. assert (pdu_sn c = pdu_sn p) by auto. split; [done|lia].
Qed.
End ListAdd.

(** ** Round trip of a header *)

(** A header as the entities write it: fields in order, each a value and its
    width; and its reading, width by width. *)
Fixpoint put_fields (e : nr_rlc_pdu_encoder) (l : list (Z * Z)) : res nr_rlc_pdu_encoder :=
  match l with
  | [] => Ok e
  | (v, n) :: l' => let* e' := nr_rlc_pdu_encoder_put_bits e v n in put_fields e' l'
  end.

Fixpoint get_fields (d : nr_rlc_pdu_decoder) (l : list Z) : res (list Z * nr_rlc_pdu_decoder) :=
  match l with
  | [] => Ok ([], d)
  | n :: l' =>
      let* (v, d') := nr_rlc_pdu_decoder_get_bits d n in
      let* (vs, d'') := get_fields d' l' in
      Ok (v :: vs, d'')
  end.

Definition field_ok (f : Z * Z) : Prop := 0 <= snd f <= 31 /\ 0 <= fst f < 2 ^ snd f.

Definition fields_bits (l : list (Z * Z)) : list bool :=
  concat (map (fun f => low_bits (Z.to_nat (snd f)) (fst f)) l).

Lemma put_fields_ok l e :
  enc_wf e -> Forall field_ok l -> enc_pos e + zsum snd l <= 8 * enc_size e ->
  exists e', put_fields e l = Ok e' /\ enc_wf e' /\
    enc_stream e' = enc_stream e ++ fields_bits l /\
    enc_pos e' = enc_pos e + zsum snd l /\ enc_size e' = enc_size e /\
    length (enc_buffer e') = length (enc_buffer e).
Proof.
  intros Hwf Hok. revert e Hwf. induction Hok as [|[v n] l [Hn Hv] Hok IH]; intros e Hwf Hroom.
  - exists e. unfold fields_bits. simpl. rewrite app_nil_r. split_and!; try done; lia.
  - simpl in Hroom, Hn. assert (0 <= zsum snd l).
    { apply zsum_nonneg. eapply Forall_impl; [exact Hok|]. intros f [? ?]. lia. }
    destruct (put_bits_ok e v n) as (e1 & H1 & Hwf1 & Hs1 & Hp1 & Hz1 & Hl1); [done|done|lia|].
    destruct (IH e1 Hwf1) as (e2 & H2 & Hwf2 & Hs2 & Hp2 & Hz2 & Hl2); [lia|].
    exists e2. simpl. rewrite H1. simpl. split_and!; try done; try lia.
    rewrite Hs2, Hs1. unfold fields_bits. simpl. by rewrite <- app_assoc.
Qed.

Lemma get_fields_ok l d rest :
  dec_wf d -> Forall field_ok l -> dec_stream d = fields_bits l ++ rest ->
  exists d', get_fields d (map snd l) = Ok (map fst l, d') /\ dec_wf d' /\ dec_stream d' = rest /\
    dec_pos d' = dec_pos d + zsum snd l /\ dec_buffer d' = dec_buffer d.
Proof.
  intros Hwf Hok. revert d Hwf. induction Hok as [|[v n] l [Hn Hv] Hok IH]; intros d Hwf Hs.
  - exists d. simpl. split_and!; try done; lia.
  - simpl in Hn, Hv. unfold fields_bits in Hs. simpl in Hs. rewrite <- app_assoc in Hs.
    assert (Hlen : length (low_bits (Z.to_nat n) v) = Z.to_nat n) by apply length_low_bits.
    destruct (get_bits_ok d n) as (d1 & H1 & Hwf1 & Hs1 & Hp1 & Hb1); [done|done| |].
    { rewrite Hs, zlen_app. pose proof (zlen_nonneg (fields_bits l ++ rest)).
      unfold zlen at 1. rewrite Hlen. unfold fields_bits in *. lia. }
    rewrite Hs in H1, Hs1. rewrite take_app_le, take_ge in H1 by (rewrite Hlen; lia).
    rewrite drop_app_length' in Hs1 by done.
    rewrite bits_val_low_bits, Z2Nat.id, Z.mod_small in H1 by lia.
    destruct (IH d1 Hwf1 Hs1) as (d2 & H2 & Hwf2 & Hs2 & Hp2 & Hb2).
    exists d2. simpl. rewrite H1. simpl. rewrite H2. simpl.
    split_and!; try done; try lia; congruence.
Qed.

(** One field. *)
Lemma get_field_ok d v n rest :
  dec_wf d -> field_ok (v, n) -> dec_stream d = low_bits (Z.to_nat n) v ++ rest ->
  exists d', nr_rlc_pdu_decoder_get_bits d n = Ok (v, d') /\ nr_rlc_pdu_decoder_in_error d' = false /\ dec_wf d' /\
    dec_stream d' = rest /\ dec_pos d' = dec_pos d + n.
Proof.
  intros Hwf Hok Hs. destruct (get_fields_ok [(v, n)] d rest Hwf) as (d' & Hg & Hwf' & Hs' & Hp & _).
  { by apply Forall_singleton. } { rewrite Hs. unfold fields_bits. simpl. by rewrite app_nil_r. }
  simpl in Hg. destruct (nr_rlc_pdu_decoder_get_bits d n) as [[w d1]|]; [|done]. simpl in Hg. injection Hg as -> ->.
  exists d'. split_and!; try done.
  - unfold nr_rlc_pdu_decoder_in_error. by destruct Hwf' as [-> _].
  - simpl in Hp. lia.
Qed.

(** The two bits of the SI field. *)
Lemma si_bits (f l : bool) :
  low_bits (Z.to_nat 1) (1 - Z.b2z f) ++ low_bits (Z.to_nat 1) (1 - Z.b2z l)
  = low_bits (Z.to_nat 2) (2 * (1 - Z.b2z f) + (1 - Z.b2z l))
  /\ (Z.land (2 * (1 - Z.b2z f) + (1 - Z.b2z l)) 2 =? 0) = f
  /\ (Z.land (2 * (1 - Z.b2z f) + (1 - Z.b2z l)) 1 =? 0) = l.
Proof. by destruct f, l. Qed.

Lemma enc_stream_aligned e :
  enc_bit e = 0 -> enc_stream e = bits_of_bytes (take (Z.to_nat (enc_byte e)) (enc_buffer e)).
Proof. intros H. unfold enc_stream. rewrite H. simpl. apply app_nil_r. Qed.

(** Once the header is a whole number of bytes, the buffer starts with it. *)
Lemma aligned_buffer_stream e rest :
  enc_wf e -> enc_bit e = 0 -> enc_byte e <= zlen (enc_buffer e) ->
  bits_of_bytes (take (Z.to_nat (enc_byte e)) (enc_buffer e) ++ rest)
  = enc_stream e ++ bits_of_bytes rest.
Proof. intros Hwf H0 Hle. by rewrite enc_stream_aligned, bits_of_bytes_app by done. Qed.

(** ** Properties *)

(** Header round trip.  For every list of fields whose values fit their
    widths (at most 31 bits each) and whose widths add up to whole bytes, the
    PDU encoder, run on any buffer with enough room whatever its content,
    writes exactly those bytes without a failure and leaves the cursor byte
    aligned, and the PDU decoder, run on the result with the same widths,
    returns the same values with no error, its cursor after the header. *)
Theorem pdu_header_roundtrip l buffer k :
  Forall field_ok l -> zsum snd l = 8 * k -> k <= zlen buffer ->
  exists e, put_fields (nr_rlc_pdu_encoder_init buffer (zlen buffer)) l = Ok e /\
    enc_byte e = k /\ enc_bit e = 0 /\
    exists d, get_fields (nr_rlc_pdu_decoder_init (enc_buffer e) (zlen buffer)) (map snd l)
                = Ok (map fst l, d) /\
      dec_byte d = k /\ dec_bit d = 0 /\ nr_rlc_pdu_decoder_in_error d = false.
Proof.
  intros Hok Hk Hroom.
  destruct (put_fields_ok l (nr_rlc_pdu_encoder_init buffer (zlen buffer)))
    as (e & He & Hwf & Hs & Hp & Hz & Hl); [by apply encoder_init_wf|done| |].
  { unfold enc_pos. simpl. lia. }
  exists e. split; [done|]. unfold enc_pos in Hp. simpl in Hp, Hl. destruct Hwf as (? & ? & ?).
  assert (enc_byte e = k /\ enc_bit e = 0) as [Hb Hbit] by lia. split_and!; try done.
  assert (Hzl : zlen buffer = zlen (enc_buffer e)) by (unfold zlen; by rewrite Hl). rewrite Hzl.
  destruct (get_fields_ok l (nr_rlc_pdu_decoder_init (enc_buffer e) (zlen (enc_buffer e)))
    (bits_of_bytes (drop (Z.to_nat k) (enc_buffer e)))) as (d & Hd & Hwfd & _ & Hpd & _).
  - apply decoder_init_wf.
  - done.
  - rewrite decoder_init_stream, <- (take_drop (Z.to_nat k) (enc_buffer e)) at 1.
    rewrite bits_of_bytes_app. f_equal. rewrite <- Hb, <- enc_stream_aligned by done.
    rewrite Hs. done.
  - exists d. split; [done|]. destruct Hwfd as (Herr & ? & ? & ?).
    unfold dec_pos in Hpd. simpl in Hpd. unfold nr_rlc_pdu_decoder_in_error. rewrite Herr.
    split_and!; try done; lia.
Qed.

Lemma pdu_header_roundtrip_witness :
  exists e, put_fields (nr_rlc_pdu_encoder_init [9; 9; 9; 9; 9] 5) [(2, 2); (0, 2); (1234, 12); (517, 16)] = Ok e /\
    enc_byte e = 4 /\ enc_bit e = 0 /\
    exists d, get_fields (nr_rlc_pdu_decoder_init (enc_buffer e) 5) [2; 2; 12; 16]
                = Ok ([2; 0; 1234; 517], d) /\
      dec_byte d = 4 /\ dec_bit d = 0 /\ nr_rlc_pdu_decoder_in_error d = false.
Proof.
  apply (pdu_header_roundtrip [(2, 2); (0, 2); (1234, 12); (517, 16)] [9; 9; 9; 9; 9] 4).
  - repeat constructor; simpl; lia.
  - reflexivity.
  - done.
Defined.

(** Insertion keeps the reception list ordered and loses nothing.  With
    sequence numbers compared by their position in a window (injective on the
    numbers in use), adding a PDU to a list ordered by position and then by
    segment offset gives a list ordered the same way that holds exactly the
    old PDUs and the new one. *)
Theorem pdu_list_add_spec (pos : Z -> Z) (ok : Z -> Prop) l p :
  (forall a b, ok a -> ok b -> pos a = pos b -> a = b) ->
  Forall (fun q => ok (pdu_sn q)) (p :: l) ->
  StronglySorted (pdu_le pos) l ->
  StronglySorted (pdu_le pos) (nr_rlc_pdu_list_add (sn_diff pos) l p) /\
  nr_rlc_pdu_list_add (sn_diff pos) l p ≡ₚ p :: l.
Proof. intros Hinj Hok Hs. split; [by eapply list_add_sorted|apply list_add_perm]. Qed.

Lemma pdu_list_add_spec_witness :
  let p n o := mk_pdu n (Some [7]) 1 o false false in
  let pos a := (a - 60) mod 64 in
  StronglySorted (pdu_le pos) (nr_rlc_pdu_list_add (sn_diff pos) [p 62 5; p 1 0; p 1 8] (p 1 4)) /\
  nr_rlc_pdu_list_add (sn_diff pos) [p 62 5; p 1 0; p 1 8] (p 1 4)
    ≡ₚ p 1 4 :: [p 62 5; p 1 0; p 1 8].
Proof.
  intros p pos. apply (pdu_list_add_spec pos (fun a => 0 <= a < 64)).
  - unfold pos. intros a b Ha Hb Hab.
    pose proof (Z.div_mod (a - 60) 64). pose proof (Z.div_mod (b - 60) 64). lia.
  - repeat constructor; simpl; lia.
  - repeat first [apply SSorted_nil | apply SSorted_cons | apply Forall_nil_2 | apply Forall_cons_2];
      unfold pdu_le; simpl; (left; reflexivity) || (right; split; [done|lia]).
Defined.
