(* ===== verification/RlcSdu.v ===== *)
(** SDUs and SDU segments of NR RLC (openair2/LAYER2/nr_rlc/nr_rlc_sdu.[ch]).

    Several segments point to one SDU, which is freed when all of them are:
    the SDUs live in a shared store ([rlc_heap]), a segment holds the address
    of its SDU, and [resegment]/[nr_rlc_free_sdu_segment] of the entities
    update [ref_count] and [free_count] there.  A segment has an address of its
    own, so that the [tx_end] pointer of the entities can be followed. *)

From S2P Require Import Prelude.

Definition NR_SDU_MAX : Z := 16000.

Record nr_rlc_sdu := mk_sdu {
  sdu_sn : Z;
  sdu_upper_layer_id : Z;
  sdu_data : bytes;
  sdu_size : Z;
  sdu_retx_count : Z;
  sdu_ref_count : Z;
  sdu_free_count : Z;
  sdu_time_of_arrival : Z
}.

Record nr_rlc_sdu_segment := mk_seg {
  seg_addr : nat;
  seg_sdu : nat;
  seg_size : Z;
  seg_so : Z;
  seg_is_first : bool;
  seg_is_last : bool
}.

(** The store: SDUs by address, and the next address [malloc] hands out. *)
Record rlc_heap := mk_heap {
  heap_brk : nat;
  heap_sdus : gmap nat nr_rlc_sdu
}.

Definition heap_empty : rlc_heap := {| heap_brk := 0; heap_sdus := ∅ |}.

(** [p->...] on an SDU pointer. *)
Definition heap_get (h : rlc_heap) (a : nat) : res nr_rlc_sdu := of_opt FBounds (heap_sdus h !! a).

Definition heap_set (h : rlc_heap) (a : nat) (s : nr_rlc_sdu) : rlc_heap :=
  {| h with heap_sdus := <[a := s]> (heap_sdus h) |}.

Definition nr_rlc_new_sdu (h : rlc_heap) (buffer : bytes) (size upper_layer_id : Z)
    : res (rlc_heap * nr_rlc_sdu_segment) :=
  let* data := buf_read buffer 0 size in
  let sdu := {| sdu_sn := -1; sdu_upper_layer_id := upper_layer_id; sdu_data := data;
                sdu_size := size; sdu_retx_count := -1; sdu_ref_count := 1;
                sdu_free_count := 0; sdu_time_of_arrival := 0 |} in
  let a := heap_brk h in
  Ok ({| heap_brk := S (S a); heap_sdus := <[a := sdu]> (heap_sdus h) |},
      {| seg_addr := S a; seg_sdu := a; seg_size := size; seg_so := 0;
         seg_is_first := true; seg_is_last := true |}).

(** Returns 1 if the SDU has been freed too. *)
Definition nr_rlc_free_sdu_segment (h : rlc_heap) (seg : nr_rlc_sdu_segment) : res (rlc_heap * Z) :=
  let* sdu := heap_get h (seg_sdu seg) in
  let sdu := {| sdu with sdu_free_count := sdu_free_count sdu + 1 |} in
  if sdu_free_count sdu =? sdu_ref_count sdu
  then Ok ({| h with heap_sdus := delete (seg_sdu seg) (heap_sdus h) |}, 1)
  else Ok (heap_set h (seg_sdu seg) sdu, 0).

Fixpoint nr_rlc_free_sdu_segment_list (h : rlc_heap) (l : list nr_rlc_sdu_segment) : res rlc_heap :=
  match l with
  | [] => Ok h
  | cur :: l' =>
      let* (h', _) := nr_rlc_free_sdu_segment h cur in
      nr_rlc_free_sdu_segment_list h' l'
  end.

(** A singly linked list with its [end] pointer. [( *end)->next = sdu] links
    the new segment after the node [end] points to, wherever that is. *)
Record seg_list := mk_seg_list {
  sl_list : list nr_rlc_sdu_segment;
  sl_end : option nat
}.

Fixpoint link_after (a : nat) (l : list nr_rlc_sdu_segment) (seg : nr_rlc_sdu_segment)
    : res (list nr_rlc_sdu_segment) :=
  match l with
  | [] => Fail FBounds
  | cur :: l' =>
      if bool_decide (seg_addr cur = a) then Ok [cur; seg]
      else let* l'' := link_after a l' seg in Ok (cur :: l'')
  end.

Definition nr_rlc_sdu_segment_list_append (s : seg_list) (sdu : nr_rlc_sdu_segment) : res seg_list :=
  match sl_list s with
  | [] => Ok {| sl_list := [sdu]; sl_end := Some (seg_addr sdu) |}
  | l =>
      let* e := of_opt FBounds (sl_end s) in
      let* l' := link_after e l sdu in
      Ok {| sl_list := l'; sl_end := Some (seg_addr sdu) |}
  end.

(** ** The list and its end pointer *)

(** [tx_end] is the address of the last segment, NULL for an empty list, and
    the addresses are all different. *)
Definition seg_list_wf (s : seg_list) : Prop :=
  NoDup (map seg_addr (sl_list s)) /\ sl_end s = seg_addr <$> last (sl_list s).

Lemma link_after_last l seg cur :
  NoDup (map seg_addr l) -> last l = Some cur ->
  link_after (seg_addr cur) l seg = Ok (l ++ [seg]).
Proof.
  induction l as [|c l IH]; [done|]. simpl. intros [Hc Hnd]%NoDup_cons Hlast.
  destruct l as [|c' l].
  - injection Hlast as ->. by rewrite bool_decide_true.
  - rewrite bool_decide_false.
    + by rewrite IH.
    + intros Heq. apply Hc. rewrite Heq. apply list_elem_of_fmap. exists cur.
      split; [done|]. by apply last_Some_elem_of.
Qed.

Lemma segment_list_append_ok s seg :
  seg_list_wf s -> seg_addr seg ∉ map seg_addr (sl_list s) ->
  exists s', nr_rlc_sdu_segment_list_append s seg = Ok s' /\
    sl_list s' = sl_list s ++ [seg] /\ seg_list_wf s'.
Proof.
  intros [Hnd Hend] Hfresh. unfold nr_rlc_sdu_segment_list_append.
  destruct (sl_list s) as [|c l] eqn:Hl.
  - eexists; split; [done|]. split; [done|]. split; [apply NoDup_singleton|done].
  - destruct (last (c :: l)) as [cur|] eqn:Hlast; [|by apply last_None in Hlast].
    rewrite Hend. simpl of_opt. unfold rbind.
    rewrite (link_after_last (c :: l) seg cur) by done.
    eexists; split; [done|]. split; [done|]. split.
    + simpl. rewrite map_app. apply (NoDup_app (_ :: _)). split; [done|].
      split; [|apply NoDup_singleton]. intros x Hx ->%list_elem_of_singleton. done.
    + cbn [sl_list sl_end]. by rewrite last_snoc.
Qed.

(** ** Segments and the store *)

Definition seg_bytes (h : rlc_heap) (seg : nr_rlc_sdu_segment) : bytes :=
  match heap_get h (seg_sdu seg) with
  | Ok s => take (Z.to_nat (seg_size seg)) (drop (Z.to_nat (seg_so seg)) (sdu_data s))
  | Fail _ => []
  end.

(** [l == NULL] *)
Definition is_nil {A} (l : list A) : bool := match l with [] => true | _ => false end.

(** A segment of the transmission list: the rest of a live SDU. *)
Definition seg_live (h : rlc_heap) (seg : nr_rlc_sdu_segment) : Prop :=
  exists s, heap_sdus h !! seg_sdu seg = Some s /\ sdu_free_count s < sdu_ref_count s /\
    0 <= seg_so seg /\ 0 < seg_size seg /\ seg_so seg + seg_size seg = zlen (sdu_data s) /\
    zlen (sdu_data s) <= NR_SDU_MAX /\ seg_is_last seg = true /\
    (seg_is_first seg = true <-> seg_so seg = 0) /\
    (seg_addr seg < heap_brk h)%nat /\ (seg_sdu seg < heap_brk h)%nat.

(** The heaps agree on an address. *)
Definition same_sdu (h h' : rlc_heap) (seg : nr_rlc_sdu_segment) : Prop :=
  heap_sdus h' !! seg_sdu seg = heap_sdus h !! seg_sdu seg.

Lemma seg_live_same h h' seg :
  same_sdu h h' seg -> (heap_brk h <= heap_brk h')%nat -> seg_live h seg -> seg_live h' seg.
Proof.
  intros Hs Hb (s & Hl & H). exists s. rewrite Hs. destruct H as (? & ? & ? & ? & ? & ? & ? & ? & ?).
  split_and!; (done || lia).
Qed.

Lemma seg_bytes_same h h' seg : same_sdu h h' seg -> seg_bytes h' seg = seg_bytes h seg.
Proof. intros Hs. unfold seg_bytes, heap_get. by rewrite Hs. Qed.

(** Two heaps that differ at most at address [a]. *)
Definition heap_upd (a : nat) (h h' : rlc_heap) : Prop :=
  (heap_brk h <= heap_brk h')%nat /\ forall b, b <> a -> heap_sdus h' !! b = heap_sdus h !! b.

Lemma heap_upd_list h h' a l :
  heap_upd a h h' -> a ∉ map seg_sdu l ->
  Forall (seg_live h) l -> Forall (seg_live h') l /\ map (seg_bytes h') l = map (seg_bytes h) l.
Proof.
  intros [Hb Hu] Ha Hl. induction Hl as [|seg l Hseg Hl IH]; [done|].
  apply not_elem_of_cons in Ha as [Ha1 Ha2]. destruct (IH Ha2) as [Hl' Hm].
  assert (same_sdu h h' seg) by (apply Hu; congruence).
  split; [constructor; [by eapply seg_live_same|done]|]. simpl. f_equal; [by apply seg_bytes_same|done].
Qed.

Lemma heap_upd_trans a h1 h2 h3 : heap_upd a h1 h2 -> heap_upd a h2 h3 -> heap_upd a h1 h3.
Proof. intros [? H12] [? H23]. split; [lia|]. intros b Hb. rewrite H23, H12; done. Qed.

Lemma heap_upd_set h a s : heap_upd a h (heap_set h a s).
Proof. split; [done|]. intros b Hb. apply lookup_insert_ne. congruence. Qed.

Lemma heap_get_lookup h a s : heap_get h a = Ok s <-> heap_sdus h !! a = Some s.
Proof. unfold heap_get. destruct (heap_sdus h !! a); simpl; split; congruence. Qed.

Lemma heap_set_lookup h a s : heap_sdus (heap_set h a s) !! a = Some s.
Proof. apply lookup_insert_eq. Qed.

Lemma free_sdu_segment_ok h seg s :
  heap_sdus h !! seg_sdu seg = Some s ->
  exists h' r, nr_rlc_free_sdu_segment h seg = Ok (h', r) /\ heap_upd (seg_sdu seg) h h' /\
    heap_brk h' = heap_brk h /\
    (sdu_free_count s + 1 < sdu_ref_count s ->
     heap_sdus h' !! seg_sdu seg = Some {| s with sdu_free_count := sdu_free_count s + 1 |}).
Proof.
  intros Hs%heap_get_lookup. unfold nr_rlc_free_sdu_segment. rewrite Hs. cbn [rbind].
  cbn [sdu_free_count sdu_ref_count]. case_bool_; eexists _, _; (split_and!; [done|..]); try done; try lia.
  - split; [done|]. intros b Hb. simpl. apply lookup_delete_ne. congruence.
  - apply heap_upd_set.
  - intros _. apply heap_set_lookup.
Qed.

Lemma seg_list_wf_dequeue seg rest en :
  seg_list_wf (mk_seg_list (seg :: rest) en) ->
  seg_list_wf (mk_seg_list rest (match rest with [] => None | _ => en end)).
Proof.
  intros [Hnd Hend]. simpl in *. apply NoDup_cons in Hnd as [_ Hnd]. split; [done|]. simpl.
  rewrite Hend. by destruct rest.
Qed.

Lemma seg_list_wf_push next s :
  seg_list_wf s -> seg_addr next ∉ map seg_addr (sl_list s) ->
  seg_list_wf (mk_seg_list (next :: sl_list s)
    (match sl_end s with None => Some (seg_addr next) | a => a end)).
Proof.
  destruct s as [rest en]. intros [Hnd Hend] Hf. simpl in *. split; [by apply NoDup_cons|]. simpl. rewrite Hend.
  destruct rest as [|r rest _] using rev_ind; [done|]. by rewrite app_comm_cons, !last_snoc.
Qed.

Lemma zlen_seg_bytes h seg : seg_live h seg -> zlen (seg_bytes h seg) = seg_size seg.
Proof.
  intros (s & Hs & _ & ? & ? & ? & _). unfold seg_bytes. rewrite (proj2 (heap_get_lookup _ _ _) Hs).
  rewrite zlen_take; [done|]. rewrite zlen_drop; lia.
Qed.

Lemma seg_list_wf_remove pre cur post en :
  seg_list_wf (mk_seg_list (pre ++ cur :: post) en) ->
  seg_list_wf (mk_seg_list (pre ++ post)
    (if bool_decide (en = Some (seg_addr cur)) then seg_addr <$> last pre else en)).
Proof.
  intros [Hnd Hend]. simpl in *. rewrite map_app in Hnd. simpl in Hnd.
  rewrite <- Permutation_middle in Hnd. apply NoDup_cons in Hnd as [Hc Hnd].
  split; [by rewrite <- map_app in Hnd|]. simpl. rewrite Hend.
  destruct post as [|q post _] using rev_ind.
  - rewrite last_snoc, app_nil_r. by rewrite bool_decide_true.
  - rewrite app_comm_cons, !app_assoc, !last_snoc. simpl. rewrite bool_decide_false; [done|].
    intros [= Heq]. apply Hc. rewrite <- Heq, map_app, !elem_of_app. right; right. by left.
Qed.

Lemma free_sdu_segment_list_ok h l :
  Forall (seg_live h) l -> NoDup (map seg_sdu l) ->
  exists h', nr_rlc_free_sdu_segment_list h l = Ok h' /\ heap_brk h' = heap_brk h.
Proof.
  intros Hl. revert h Hl. induction l as [|seg l IH]; intros h Hl Hnd; [by eexists|].
  apply Forall_cons in Hl as [(s & Hs & _) Hl]. apply NoDup_cons in Hnd as [Hf Hnd]. simpl.
  destruct (free_sdu_segment_ok h seg s Hs) as (h1 & r & -> & Hu & Hb & _). cbn [rbind].
  destruct (heap_upd_list h h1 _ l Hu Hf Hl) as [Hl1 _].
  destruct (IH h1 Hl1 Hnd) as (h' & -> & Hb'). eexists. split; [done|congruence].
Qed.

(** A new SDU at the end of a list, with or without its arrival stamped. *)
Lemma new_sdu_append h tx buffer size id :
  seg_list_wf tx -> NoDup (map seg_sdu (sl_list tx)) -> Forall (seg_live h) (sl_list tx) ->
  0 < size <= NR_SDU_MAX -> size <= zlen buffer ->
  exists h1 seg tx' s,
    nr_rlc_new_sdu h buffer size id = Ok (h1, seg) /\
    nr_rlc_sdu_segment_list_append tx seg = Ok tx' /\ sl_list tx' = sl_list tx ++ [seg] /\
    seg_list_wf tx' /\ NoDup (map seg_sdu (sl_list tx')) /\ heap_get h1 (seg_sdu seg) = Ok s /\
    seg_size seg = size /\ seg_so seg = 0 /\ seg_is_first seg = true /\ seg_is_last seg = true /\
    forall hf now, hf = h1 \/ hf = heap_set h1 (seg_sdu seg) {| s with sdu_time_of_arrival := now |} ->
      Forall (seg_live hf) (sl_list tx') /\
      map (seg_bytes hf) (sl_list tx') = map (seg_bytes h) (sl_list tx) ++ [take (Z.to_nat size) buffer].
Proof.
  intros Hwf Hnd Hlive Hsize Hbuf. unfold nr_rlc_new_sdu. rewrite buf_read_ok by lia. cbn [rbind].
  change (drop (Z.to_nat 0) buffer) with buffer.
  set (data := take _ _). assert (Hd : zlen data = size) by (apply zlen_take; lia).
  set (a := heap_brk h). set (s := {| sdu_sn := -1 |}). set (h1 := {| heap_brk := S (S a) |}).
  set (seg := {| seg_addr := S a |}).
  assert (Hfresh : forall x, x ∈ sl_list tx -> (seg_addr x < a)%nat /\ (seg_sdu x < a)%nat).
  { intros x Hx. rewrite Forall_forall in Hlive.
    by destruct (Hlive x Hx) as (? & _ & _ & _ & _ & _ & _ & _ & _ & ?). }
  destruct (segment_list_append_ok tx seg Hwf) as (tx' & Happ & Htx & Hwf').
  { simpl. intros (x & Heq & Hx)%list_elem_of_fmap. destruct (Hfresh x Hx). lia. }
  assert (Hna : a ∉ map seg_sdu (sl_list tx)).
  { intros (x & Heq & Hx)%list_elem_of_fmap. destruct (Hfresh x Hx). lia. }
  exists h1, seg, tx', s. split_and!; try done.
  - rewrite Htx, map_app. apply NoDup_app. split_and!; [done| |apply NoDup_singleton].
    intros x Hx ->%list_elem_of_singleton. done.
  - apply heap_get_lookup, lookup_insert_eq.
  - intros hf now Hhf.
    assert (exists s', heap_sdus hf !! a = Some s' /\ sdu_data s' = data /\ sdu_free_count s' = 0 /\
      sdu_ref_count s' = 1 /\ heap_brk hf = S (S a) /\ heap_upd a h hf) as (s' & Hs' & Hdata & Hf & Hr & Hbrk & Hu).
    { destruct Hhf as [->| ->]; eexists.
      - split; [apply lookup_insert_eq|]. split_and!; try done. split; [simpl; lia|].
        intros b Hne. by apply lookup_insert_ne.
      - split; [apply heap_set_lookup|]. split_and!; try done. split; [simpl; lia|].
        intros b Hne. simpl. by rewrite !lookup_insert_ne. }
    destruct (heap_upd_list h hf a (sl_list tx)) as [Hl Hm]; [done..|].
    assert (Hseg : seg_live hf seg) by (exists s'; rewrite Hdata; split_and!; simpl; done || lia).
    rewrite Htx. split; [by apply Forall_app; split; [|constructor]|].
    rewrite map_app, Hm. simpl. do 2 f_equal. unfold seg_bytes. simpl.
    rewrite (proj2 (heap_get_lookup _ _ _) Hs'), Hdata. apply take_ge. unfold zlen in Hd. simpl. lia.
Qed.
