(* ===== verification/TimeStat.v ===== *)
(** The sliding time average of common/utils/time_stat.[ch], which the RLC
    entities use for the sojourn time of their SDUs.

    The ring buffer of the C code is modelled with its [head]/[tail]/[size]
    cursors and its growth by [realloc]; [ta_contents] is the queue it
    implements.  The [double] quotient of [time_average_get_average] is kept as
    the pair of its numerator and its denominator. *)

From S2P Require Import Prelude.

Record time_value := mk_tv { tv_time : Z; tv_value : Z }.

Record time_average := mk_ta {
  ta_duration : Z;
  ta_head : Z;
  ta_tail : Z;
  ta_buffer : list time_value;
  ta_maxsize : Z;
  ta_size : Z;
  ta_accumulated_value : Z
}.

Definition tv_zero : time_value := {| tv_time := 0; tv_value := 0 |}.

Definition ta_at (t : time_average) (i : Z) : time_value := default tv_zero (ta_buffer t !! Z.to_nat i).

Definition time_average_new (duration initial_size : Z) : res time_average :=
  if negb (Z.land initial_size (initial_size - 1) =? 0) then Fail FExit
  else Ok {| ta_duration := duration; ta_head := initial_size - 1; ta_tail := 0;
             ta_buffer := replicate (Z.to_nat initial_size) tv_zero;
             ta_maxsize := initial_size; ta_size := 0; ta_accumulated_value := 0 |}.

Definition time_average_reset (t : time_average) : time_average :=
  {| t with ta_head := ta_maxsize t - 1; ta_tail := 0; ta_size := 0; ta_accumulated_value := 0 |}.

(** The [while] loop of [remove_old] stops at the latest when [size] is 0:
    each iteration decrements it, so [size] is enough fuel. *)
Fixpoint remove_old_loop (fuel : nat) (t : time_average) (time : Z) : time_average :=
  match fuel with
  | O => t
  | S fuel' =>
      if negb (ta_size t =? 0) && (tv_time (ta_at t (ta_tail t)) <? u64 (time - ta_duration t))
      then remove_old_loop fuel'
             {| t with
                ta_accumulated_value := u64 (ta_accumulated_value t - tv_value (ta_at t (ta_tail t)));
                ta_size := ta_size t - 1;
                ta_tail := Z.rem (ta_tail t + 1) (ta_maxsize t) |} time
      else t
  end.

Definition remove_old (t : time_average) (time : Z) : time_average :=
  remove_old_loop (Z.to_nat (ta_size t)) t time.

(** [realloc] to twice the size; the new half is taken as zero (the code
    never reads it before it writes it).  When the queue wraps, the part at
    the start of the array moves behind the old end. *)
Definition ta_grow (t : time_average) : time_average :=
  let t := {| t with ta_maxsize := ta_maxsize t * 2;
                     ta_buffer := ta_buffer t ++ replicate (length (ta_buffer t)) tv_zero |} in
  if ta_head t <? ta_tail t
  then
    let n := Z.to_nat (ta_head t + 1) in
    {| t with
       ta_buffer := take (Z.to_nat (ta_size t)) (ta_buffer t) ++ take n (ta_buffer t)
                    ++ drop (Z.to_nat (ta_size t) + n) (ta_buffer t);
       ta_head := ta_head t + ta_size t |}
  else t.

Definition time_average_add (t : time_average) (time value : Z) : time_average :=
  let t := remove_old t time in
  let t := if ta_size t =? ta_maxsize t then ta_grow t else t in
  let head := Z.rem (ta_head t + 1) (ta_maxsize t) in
  {| t with
     ta_head := head;
     ta_buffer := <[Z.to_nat head := {| tv_time := time; tv_value := value |}]> (ta_buffer t);
     ta_size := ta_size t + 1;
     ta_accumulated_value := u64 (ta_accumulated_value t + value) |}.

(** The average as (sum, number of samples); [None] is the 0 of an empty queue. *)
Definition time_average_get_average (t : time_average) (time : Z) : time_average * option (Z * Z) :=
  let t := remove_old t time in
  (t, if ta_size t =? 0 then None else Some (ta_accumulated_value t, ta_size t)).

(** ** The queue behind the ring *)

Fixpoint ring_read (t : time_average) (i : Z) (n : nat) : list time_value :=
  match n with
  | O => []
  | S n' => ta_at t i :: ring_read t ((i + 1) mod ta_maxsize t) n'
  end.

Definition ta_contents (t : time_average) : list time_value :=
  ring_read t (ta_tail t) (Z.to_nat (ta_size t)).

Record ta_wf (t : time_average) : Prop := {
  ta_wf_len : zlen (ta_buffer t) = ta_maxsize t;
  ta_wf_max : 0 < ta_maxsize t;
  ta_wf_tail : 0 <= ta_tail t < ta_maxsize t;
  ta_wf_size : 0 <= ta_size t <= ta_maxsize t;
  ta_wf_head : 0 <= ta_head t < ta_maxsize t;
  ta_wf_head_tail : (ta_head t + 1) mod ta_maxsize t = (ta_tail t + ta_size t) mod ta_maxsize t;
  ta_wf_acc : ta_accumulated_value t = u64 (zsum tv_value (ta_contents t))
}.

(** The events the loop drops: the oldest ones, up to the first recent one. *)
Fixpoint drop_old (limit : Z) (l : list time_value) : list time_value :=
  match l with
  | [] => []
  | v :: l' => if tv_time v <? limit then drop_old limit l' else l
  end.

Lemma ring_read_ext t t' n i i' :
  ta_maxsize t = ta_maxsize t' -> 0 < ta_maxsize t -> i = i' ->
  (forall k, (k < n)%nat ->
     ta_at t ((i + Z.of_nat k) mod ta_maxsize t) = ta_at t' ((i' + Z.of_nat k) mod ta_maxsize t)) ->
  0 <= i < ta_maxsize t -> ring_read t i n = ring_read t' i' n.
Proof.
  intros Hm Hpos <-. revert i. induction n as [|n IH]; intros i H Hi; [done|].
  simpl. f_equal.
  - specialize (H 0%nat ltac:(lia)). rewrite Z.add_0_r, Z.mod_small in H by lia. done.
  - rewrite <- Hm. apply IH; [|apply Z.mod_pos_bound; lia].
    intros k Hk. specialize (H (S k) ltac:(lia)). rewrite Zplus_mod_idemp_l.
    replace (i + 1 + Z.of_nat k) with (i + Z.of_nat (S k)) by lia. done.
Qed.

Lemma ring_read_snoc t i n :
  0 < ta_maxsize t -> 0 <= i < ta_maxsize t ->
  ring_read t i (S n) = ring_read t i n ++ [ta_at t ((i + Z.of_nat n) mod ta_maxsize t)].
Proof.
  intros Hm. revert i. induction n as [|n IH]; intros i Hi.
  - simpl. by rewrite Z.add_0_r, Z.mod_small by lia.
  - change (ring_read t i (S (S n)))
      with (ta_at t i :: ring_read t ((i + 1) mod ta_maxsize t) (S n)).
    rewrite IH by (apply Z.mod_pos_bound; lia). simpl. f_equal. f_equal.
    rewrite Zplus_mod_idemp_l. do 3 f_equal. lia.
Qed.

Lemma remove_old_loop_spec n t time :
  ta_wf t -> n = Z.to_nat (ta_size t) ->
  let t' := remove_old_loop n t time in
  ta_wf t' /\ ta_contents t' = drop_old (u64 (time - ta_duration t)) (ta_contents t) /\
  ta_duration t' = ta_duration t.
Proof.
  revert t. induction n as [|n IH]; intros t Hwf Hn; simpl.
  - split_and!; try done. unfold ta_contents. by rewrite <- Hn.
  - destruct Hwf as [Hl Hm Ht Hs Hh Hht Ha].
    assert (Hc : ta_contents t = ta_at t (ta_tail t)
      :: ring_read t ((ta_tail t + 1) mod ta_maxsize t) n).
    { unfold ta_contents. by rewrite <- Hn. }
    rewrite (proj2 (Z.eqb_neq (ta_size t) 0)) by lia. simpl negb. rewrite andb_true_l.
    destruct (tv_time _ <? _) eqn:Hold; simpl; [|by rewrite Hc; simpl; rewrite Hold].
    set (t1 := {| ta_duration := _ |}).
    assert (Hc1 : ta_contents t1 = ring_read t ((ta_tail t + 1) mod ta_maxsize t) n).
    { unfold ta_contents, t1. simpl. rewrite Z.rem_mod_nonneg by lia.
      replace (Z.to_nat (ta_size t - 1)) with n by lia.
      apply ring_read_ext; cbn [ta_maxsize]; try done. by apply Z.mod_pos_bound. }
    destruct (IH t1) as (Hwf' & Hcont & Hd).
    + constructor; rewrite ?Hc1; unfold t1; simpl; try done; try lia.
      * rewrite Z.rem_mod_nonneg by lia. apply Z.mod_pos_bound; lia.
      * rewrite Hht, Z.rem_mod_nonneg, Zplus_mod_idemp_l by lia. f_equal. lia.
      * rewrite Ha, Hc. simpl. unfold wrap. rewrite Zminus_mod_idemp_l. f_equal. lia.
    + unfold t1. simpl. lia.
    + split_and!; [done| |done]. rewrite Hcont, Hc1, Hc. simpl. by rewrite Hold.
Qed.

Lemma remove_old_spec t time :
  ta_wf t ->
  let t' := remove_old t time in
  ta_wf t' /\ ta_contents t' = drop_old (u64 (time - ta_duration t)) (ta_contents t) /\
  ta_duration t' = ta_duration t.
Proof. intros. by apply remove_old_loop_spec. Qed.

(** In a full ring the head is just behind the tail. *)
Lemma ta_full_head t :
  ta_wf t -> ta_size t = ta_maxsize t ->
  (ta_tail t = 0 /\ ta_head t = ta_maxsize t - 1) \/ (0 < ta_tail t /\ ta_head t = ta_tail t - 1).
Proof.
  intros [Hl Hm Ht Hs Hh Hht Ha] Hfull. rewrite Hfull in Hht. set (m := ta_maxsize t) in *.
  replace (ta_tail t + m) with (ta_tail t + 1 * m) in Hht by lia.
  rewrite Z.mod_add in Hht by lia. rewrite (Z.mod_small (ta_tail t)) in Hht by lia.
  destruct (Z.eq_dec (ta_head t) (m - 1)) as [Hhd|].
  - left. rewrite Hhd in Hht. replace (m - 1 + 1) with m in Hht by lia. rewrite Z_mod_same_full in Hht. lia.
  - right. rewrite Z.mod_small in Hht by lia. lia.
Qed.

(** The sample [k] steps after the tail is the same one after the growth. *)
Lemma ta_at_grow t k :
  ta_wf t -> ta_size t = ta_maxsize t -> 0 <= k < ta_maxsize t ->
  ta_at (ta_grow t) ((ta_tail t + k) mod (2 * ta_maxsize t)) = ta_at t ((ta_tail t + k) mod ta_maxsize t).
Proof.
  intros Hwf Hfull Hk. destruct (ta_full_head t Hwf Hfull) as [[H0 Hhd]|[H0 Hhd]];
    destruct Hwf as [Hl Hm Ht Hs Hh Hht Ha]; set (m := ta_maxsize t) in *;
    assert (Hlen : length (ta_buffer t) = Z.to_nat m) by (unfold zlen in Hl; lia);
    rewrite (Z.mod_small _ (2 * m)) by lia; unfold ta_at, ta_grow; cbn; rewrite Hhd.
  - rewrite (proj2 (Z.ltb_ge _ _)) by lia. cbn. rewrite Z.mod_small, lookup_app_l by lia. done.
  - rewrite (proj2 (Z.ltb_lt _ _)) by lia. cbn. fold m in Hfull. rewrite Hfull, <- Hlen.
    rewrite take_app_length. replace (ta_tail t - 1 + 1) with (ta_tail t) by lia.
    rewrite take_app_le by lia.
    destruct (Z.lt_ge_cases (ta_tail t + k) m).
    + rewrite lookup_app_l, Z.mod_small by lia. done.
    + rewrite lookup_app_r by lia. rewrite lookup_app_l by (rewrite length_take; lia).
      rewrite lookup_take_lt by lia.
      replace ((ta_tail t + k) mod m) with (ta_tail t + k - m).
      * do 2 f_equal. lia.
      * apply (Z.mod_unique _ _ 1); lia.
Qed.

Lemma ta_grow_spec t :
  ta_wf t -> ta_size t = ta_maxsize t ->
  ta_wf (ta_grow t) /\ ta_contents (ta_grow t) = ta_contents t /\
  ta_size (ta_grow t) < ta_maxsize (ta_grow t) /\ ta_duration (ta_grow t) = ta_duration t.
Proof.
  intros Hwf Hfull. pose proof (ta_full_head t Hwf Hfull) as Hcase. pose proof (ta_at_grow t) as Hat.
  pose proof Hwf as [Hl Hm Ht Hs Hh Hht Ha]. set (m := ta_maxsize t) in *.
  assert (Hlen : length (ta_buffer t) = Z.to_nat m) by (unfold zlen in Hl; lia).
  assert (Hgm : ta_maxsize (ta_grow t) = 2 * m) by (unfold ta_grow; cbn; case_match; cbn; lia).
  assert (Hgt : ta_tail (ta_grow t) = ta_tail t) by (unfold ta_grow; cbn; case_match; done).
  assert (Hgs : ta_size (ta_grow t) = m) by (unfold ta_grow; cbn; case_match; done).
  assert (Hga : ta_accumulated_value (ta_grow t) = ta_accumulated_value t)
    by (unfold ta_grow; cbn; case_match; done).
  assert (Hgh : ta_head (ta_grow t) = ta_tail t + m - 1).
  { unfold ta_grow. cbn. case_match; cbn; lia. }
  assert (Hc : ta_contents (ta_grow t) = ta_contents t).
  { unfold ta_contents. rewrite Hgs, Hgt, Hfull.
    assert (Hgen : forall n k, 0 <= k -> k + Z.of_nat n <= m ->
      ring_read (ta_grow t) ((ta_tail t + k) mod (2 * m)) n = ring_read t ((ta_tail t + k) mod m) n).
    { induction n as [|n IH]; intros k Hk Hkn; [done|]. simpl. f_equal; [by apply Hat; [..|lia]|].
      rewrite Hgm. fold m. rewrite !Zplus_mod_idemp_l, <- Z.add_assoc. apply IH; lia. }
    specialize (Hgen (Z.to_nat m) 0 ltac:(lia) ltac:(lia)).
    rewrite Z.add_0_r, !Z.mod_small in Hgen by lia. done. }
  split_and!; [constructor|done|lia|unfold ta_grow; cbn; case_match; done];
    rewrite ?Hgm, ?Hgt, ?Hgs, ?Hgh, ?Hga, ?Hc; try done; try lia.
  - unfold ta_grow. cbn. case_match; cbn; unfold zlen;
      rewrite ?length_app, ?length_take, ?length_drop, ?length_app, ?length_replicate; lia.
  - f_equal. lia.
Qed.

Lemma time_average_add_step t time value :
  ta_wf t -> ta_size t < ta_maxsize t ->
  let head := Z.rem (ta_head t + 1) (ta_maxsize t) in
  let t' := {| t with
     ta_head := head;
     ta_buffer := <[Z.to_nat head := {| tv_time := time; tv_value := value |}]> (ta_buffer t);
     ta_size := ta_size t + 1;
     ta_accumulated_value := u64 (ta_accumulated_value t + value) |} in
  ta_wf t' /\ ta_contents t' = ta_contents t ++ [{| tv_time := time; tv_value := value |}].
Proof.
  intros [Hl Hm Ht Hs Hh Hht Ha] Hroom head t'.
  assert (Hhead : head = (ta_tail t + ta_size t) mod ta_maxsize t).
  { unfold head. by rewrite Z.rem_mod_nonneg by lia. }
  assert (Hhr : 0 <= head < ta_maxsize t) by (rewrite Hhead; apply Z.mod_pos_bound; lia).
  assert (Hc : ta_contents t' = ta_contents t ++ [{| tv_time := time; tv_value := value |}]).
  { unfold ta_contents, t'. cbn [ta_size ta_tail].
    replace (Z.to_nat (ta_size t + 1)) with (S (Z.to_nat (ta_size t))) by lia.
    rewrite ring_read_snoc by done. cbn [ta_maxsize]. f_equal.
    - apply ring_read_ext; try done. intros k Hk. unfold ta_at. cbn [ta_buffer ta_maxsize].
      rewrite list_lookup_insert_ne; [done|]. intros Heq.
      assert (head = (ta_tail t + Z.of_nat k) mod ta_maxsize t) as Hk2.
      { apply Z2Nat.inj; [lia|apply Z.mod_pos_bound; lia|done]. }
      rewrite Hhead in Hk2. apply mod_eq_close in Hk2; lia.
    - unfold ta_at. cbn [ta_buffer]. rewrite Z2Nat.id, <- Hhead by lia.
      rewrite list_lookup_insert_eq by (unfold zlen in Hl; lia). done. }
  split; [|done]. constructor; rewrite ?Hc; unfold t'; simpl; try done; try lia.
  - unfold zlen in *. by rewrite length_insert.
  - rewrite Hhead, Zplus_mod_idemp_l. f_equal. lia.
  - rewrite zsum_app, Ha, wrap_add_l. simpl. do 2 f_equal. lia.
Qed.

Lemma time_average_add_spec t time value :
  ta_wf t ->
  ta_wf (time_average_add t time value) /\
  ta_contents (time_average_add t time value)
    = drop_old (u64 (time - ta_duration t)) (ta_contents t)
      ++ [{| tv_time := time; tv_value := value |}].
Proof.
  intros Hwf. unfold time_average_add.
  destruct (remove_old_spec t time Hwf) as (Hwf1 & Hc1 & _).
  destruct (Z.eqb_spec (ta_size (remove_old t time)) (ta_maxsize (remove_old t time))) as [Hfull|Hn].
  - destruct (ta_grow_spec _ Hwf1 Hfull) as (Hwf2 & Hc2 & Hroom & _).
    destruct (time_average_add_step _ time value Hwf2 Hroom) as [Hwf3 Hc3].
    split; [done|]. by rewrite Hc3, Hc2, Hc1.
  - assert (Hroom : ta_size (remove_old t time) < ta_maxsize (remove_old t time)).
    { destruct Hwf1. lia. }
    destruct (time_average_add_step _ time value Hwf1 Hroom) as [Hwf3 Hc3].
    split; [done|]. by rewrite Hc3, Hc1.
Qed.

Lemma time_average_new_wf d n t :
  0 < n -> time_average_new d n = Ok t ->
  ta_wf t /\ ta_contents t = [] /\ ta_duration t = d.
Proof.
  intros Hn. unfold time_average_new. case_match; [done|]. intros [= <-].
  split; [|done]. constructor; cbn; try lia.
  - unfold zlen. rewrite length_replicate. lia.
  - by rewrite Z.sub_add, Z_mod_same_full.
  - done.
Qed.

Lemma ring_read_length t i n : length (ring_read t i n) = n.
Proof. revert i. induction n; intros; simpl; congruence. Qed.

Lemma ta_contents_length t : ta_wf t -> zlen (ta_contents t) = ta_size t.
Proof.
  intros Hwf. destruct Hwf. unfold zlen, ta_contents. rewrite ring_read_length. lia.
Qed.

Lemma time_average_add_duration t time value :
  ta_wf t -> ta_duration (time_average_add t time value) = ta_duration t.
Proof.
  intros Hwf. unfold time_average_add.
  destruct (remove_old_spec t time Hwf) as (Hwf1 & _ & Hd). cbv zeta.
  destruct (Z.eqb_spec (ta_size (remove_old t time)) (ta_maxsize (remove_old t time))); simpl.
  - destruct (ta_grow_spec _ Hwf1 e) as (_ & _ & _ & Hd2). congruence.
  - done.
Qed.

(** The reference: an unbounded queue of samples, cleaned of its old head at
    each addition. *)
Definition queue_add (d : Z) (q : list time_value) (v : time_value) : list time_value :=
  drop_old (u64 (tv_time v - d)) q ++ [v].

Definition ta_add_all (t : time_average) (l : list time_value) : time_average :=
  fold_left (fun t v => time_average_add t (tv_time v) (tv_value v)) l t.

Lemma ta_add_all_spec l t q :
  ta_wf t -> ta_contents t = q ->
  ta_wf (ta_add_all t l) /\ ta_duration (ta_add_all t l) = ta_duration t /\
  ta_contents (ta_add_all t l) = fold_left (queue_add (ta_duration t)) l q.
Proof.
  revert t q. induction l as [|v l IH]; intros t q Hwf Hq; [done|]. simpl.
  destruct (time_average_add_spec t (tv_time v) (tv_value v) Hwf) as [Hwf' Hc'].
  pose proof (time_average_add_duration t (tv_time v) (tv_value v) Hwf) as Hd.
  destruct (IH _ _ Hwf' Hc') as (? & ? & Hfin). split_and!; [done|congruence|].
  rewrite Hfin, Hd, Hq. unfold queue_add at 3. by destruct v.
Qed.

(** The time average is a sliding sum.  A new average of capacity [n] (a
    power of two), after any sequence of [time_average_add], behaves like an
    unbounded queue from which every addition first drops the samples older
    than the window: [time_average_get_average] at time [now] returns the sum
    of the samples still in the window (modulo 2^64) and their number, whatever
    wrap-around and growth of the ring the additions caused. *)
Theorem time_average_sliding_sum d n t0 l now :
  0 < n -> time_average_new d n = Ok t0 ->
  let q := drop_old (u64 (now - d)) (fold_left (queue_add d) l []) in
  snd (time_average_get_average (ta_add_all t0 l) now)
    = (if zlen q =? 0 then None else Some (u64 (zsum tv_value q), zlen q)).
Proof.
  intros Hn Hnew q. destruct (time_average_new_wf _ _ _ Hn Hnew) as (Hwf0 & Hc0 & Hd0).
  destruct (ta_add_all_spec l t0 [] Hwf0 Hc0) as (Hwf1 & Hd1 & Hc1).
  destruct (remove_old_spec _ now Hwf1) as (Hwf2 & Hc2 & _).
  rewrite Hd1, Hc1, Hd0 in Hc2. fold q in Hc2.
  unfold time_average_get_average. cbn [snd].
  rewrite <- (ta_contents_length _ Hwf2), Hc2.
  by rewrite (ta_wf_acc _ Hwf2), Hc2.
Qed.

Lemma time_average_sliding_sum_witness :
  let t0 := mk_ta 100 1 0 [tv_zero; tv_zero] 2 0 0 in
  let l := [mk_tv 1000 5; mk_tv 1010 7; mk_tv 1020 9; mk_tv 1105 4; mk_tv 1106 2] in
  time_average_new 100 2 = Ok t0 /\
  snd (time_average_get_average (ta_add_all t0 l) 1115) = Some (15, 3).
Proof.
  intros t0 l. split; [reflexivity|].
  apply (time_average_sliding_sum 100 2 t0 l 1115); [lia|reflexivity].
Defined.
