(* ===== verification/RlcEntity.v ===== *)
(** What the NR RLC entities share (openair2/LAYER2/nr_rlc/nr_rlc_entity.[ch]):
    the statistics, the buffer status, the common part of an entity, the
    events it raises, and the interface of an entity as a typeclass. *)

From S2P Require Import Prelude RlcPdu RlcSdu TimeStat.

Inductive nr_rlc_mode := NR_RLC_AM | NR_RLC_UM | NR_RLC_TM.

(** The counters, 32-bit unless their comment says 64. *)
Record nr_rlc_statistics := mk_stats {
  st_mode : nr_rlc_mode;
  txpdu_pkts : Z;
  txpdu_bytes : Z;
  txpdu_wt_ms : Z;
  txpdu_dd_pkts : Z;
  txpdu_dd_bytes : Z;
  txpdu_retx_pkts : Z;
  txpdu_retx_bytes : Z;
  txpdu_segmented : Z;
  txpdu_status_pkts : Z;
  txpdu_status_bytes : Z;
  txbuf_occ_bytes : Z;
  txbuf_occ_pkts : Z;
  rxpdu_pkts : Z;
  rxpdu_bytes : Z;
  rxpdu_dup_pkts : Z;
  rxpdu_dup_bytes : Z;
  rxpdu_dd_pkts : Z;
  rxpdu_dd_bytes : Z;
  rxpdu_ow_pkts : Z;
  rxpdu_ow_bytes : Z;
  rxpdu_status_pkts : Z;
  rxpdu_status_bytes : Z;
  rxbuf_occ_bytes : Z;
  rxbuf_occ_pkts : Z;
  txsdu_pkts : Z;
  txsdu_bytes : Z;                          (* 64 bits *)
  txsdu_avg_time_to_tx : option (Z * Z);    (* a double: the quotient, see TimeStat *)
  txsdu_wt_us : Z;
  rxsdu_pkts : Z;
  rxsdu_bytes : Z;                          (* 64 bits *)
  rxsdu_dd_pkts : Z;
  rxsdu_dd_bytes : Z
}.

(** [calloc] of the entity. *)
Definition stats_zero (mode : nr_rlc_mode) : nr_rlc_statistics :=
  mk_stats mode 0 0 0 0 0 0 0 0 0 0 0 0 0 0 0 0 0 0 0 0 0 0 0 0 0 0 None 0 0 0 0 0.

Record nr_rlc_entity_buffer_status := mk_bstatus {
  bs_status_size : Z;
  bs_tx_size : Z;
  bs_retx_size : Z
}.

(** The part common to the three entities.  The function pointers of the C
    struct are the instances of [RlcEntity] below; the callbacks are the
    [event]s an operation returns. *)
Record nr_rlc_entity := mk_entity {
  bstatus : nr_rlc_entity_buffer_status;
  stats : nr_rlc_statistics;
  avg_time_to_tx : time_average;
  avg_time_is_on : bool
}.

(** Calls of [deliver_sdu], [sdu_successful_delivery] and [max_retx_reached],
    in the order they are made. *)
Inductive event :=
| deliver_sdu (buf : bytes)
| sdu_successful_delivery (sdu_id : Z)
| max_retx_reached.

#[global] Instance event_eq_dec : EqDecision event.
Proof. solve_decision. Defined.

(** Statistics of a delivery to the upper layer and of a dropped PDU. *)
Definition stats_delivered (size : Z) (s : nr_rlc_statistics) : nr_rlc_statistics :=
  {| s with txsdu_pkts := u32 (txsdu_pkts s + 1); txsdu_bytes := u64 (txsdu_bytes s + size) |}.

Definition stats_rxpdu_dd (size : Z) (s : nr_rlc_statistics) : nr_rlc_statistics :=
  {| s with rxpdu_dd_pkts := u32 (rxpdu_dd_pkts s + 1); rxpdu_dd_bytes := u32 (rxpdu_dd_bytes s + size) |}.

Definition entity_stats (f : nr_rlc_statistics -> nr_rlc_statistics) (e : nr_rlc_entity) : nr_rlc_entity :=
  {| e with stats := f (stats e) |}.

Definition entity_bstatus_tx (f : Z -> Z) (e : nr_rlc_entity) : nr_rlc_entity :=
  {| e with bstatus := {| (bstatus e) with bs_tx_size := f (bs_tx_size (bstatus e)) |} |}.

(** The sojourn time of an SDU that leaves for MAC at time [now] (the value of
    [time_average_now]), when the statistic is switched on. *)
Definition entity_sojourn (now : Z) (arrival : Z) (e : nr_rlc_entity) : nr_rlc_entity :=
  if avg_time_is_on e
  then {| e with avg_time_to_tx := time_average_add (avg_time_to_tx e) now (u64 (now - arrival)) |}
  else e.

(** [nr_rlc_entity_get_stats]: [sdu] is the head-of-line SDU segment the entity
    shows, [now] the value of [time_average_now].  Returns what is left of the
    average (old samples are dropped) and the statistics. *)
Definition nr_rlc_entity_get_stats (h : rlc_heap) (e : nr_rlc_entity) (sdu : option nr_rlc_sdu_segment)
    (now : Z) : res (nr_rlc_entity * nr_rlc_statistics) :=
  let* wt :=
    match sdu with
    | Some seg => let* s := heap_get h (seg_sdu seg) in Ok (u32 (u64 (now - sdu_time_of_arrival s)))
    | None => Ok 0
    end in
  let out := {| (stats e) with txsdu_wt_us := wt |} in
  if avg_time_is_on e
  then let (avg, v) := time_average_get_average (avg_time_to_tx e) now in
       Ok ({| e with avg_time_to_tx := avg |}, {| out with txsdu_avg_time_to_tx := v |})
  else Ok (e, {| out with txsdu_avg_time_to_tx := None |}).

(** ** The interface of an entity

    The function pointers that the three kinds of entities fill in the same
    way.  [now] is the value [time_average_now] returns during the call; the
    store holds the SDUs. *)
Class RlcEntity (E : Type) := {
  recv_pdu : rlc_heap -> E -> bytes -> res (rlc_heap * E * list event);
  buffer_status : E -> Z -> res nr_rlc_entity_buffer_status;
  generate_pdu : rlc_heap -> E -> Z -> bytes -> Z -> res (rlc_heap * E * bytes * Z);
  recv_sdu : rlc_heap -> E -> Z -> bytes -> Z -> Z -> res (rlc_heap * E);
  set_time : rlc_heap -> E -> Z -> res (rlc_heap * E * list event);
  discard_sdu : rlc_heap -> E -> Z -> res (rlc_heap * E);
  reestablishment : rlc_heap -> E -> res (rlc_heap * E);
  available_tx_space : E -> Z;
  tx_list_occupancy : E -> Z
}.
