(* ===== verification/RlcTm.v ===== *)
(** The NR RLC TM entity (openair2/LAYER2/nr_rlc/nr_rlc_entity_tm.[ch] and the
    TM part of nr_rlc_entity.c), and its refinement of a bounded queue of SDUs. *)

From S2P Require Import Prelude RlcPdu RlcSdu TimeStat RlcEntity.

Record nr_rlc_entity_tm := mk_tm {
  tm_common : nr_rlc_entity;
  tm_t_current : Z;
  tm_t_log_buffer_full : Z;
  tm_sdu_rejected : Z;
  tm_tx : seg_list;                 (* tx_list and tx_end *)
  tm_tx_size : Z;
  tm_tx_maxsize : Z
}.

Definition tm_stats (f : nr_rlc_statistics -> nr_rlc_statistics) (e : nr_rlc_entity_tm)
    : nr_rlc_entity_tm := {| e with tm_common := entity_stats f (tm_common e) |}.

Definition tm_bstatus_tx (f : Z -> Z) (e : nr_rlc_entity_tm) : nr_rlc_entity_tm :=
  {| e with tm_common := entity_bstatus_tx f (tm_common e) |}.

Definition new_nr_rlc_entity_tm (tx_maxsize : Z) : res nr_rlc_entity_tm :=
  let* avg := time_average_new (100 * 1000) 1024 in
  Ok {| tm_common := {| bstatus := mk_bstatus 0 0 0; stats := stats_zero NR_RLC_TM;
                        avg_time_to_tx := avg; avg_time_is_on := false |};
        tm_t_current := 0; tm_t_log_buffer_full := 0; tm_sdu_rejected := 0;
        tm_tx := mk_seg_list [] None; tm_tx_size := 0; tm_tx_maxsize := tx_maxsize |}.

Definition nr_rlc_entity_tm_recv_pdu (e : nr_rlc_entity_tm) (buffer : bytes)
    : res (nr_rlc_entity_tm * list event) :=
  let size := zlen buffer in
  let e := tm_stats (fun s => {| s with rxpdu_pkts := u32 (rxpdu_pkts s + 1);
                                        rxpdu_bytes := u32 (rxpdu_bytes s + size) |}) e in
  Ok (tm_stats (stats_delivered size) e, [deliver_sdu buffer]).

Definition generate_tx_pdu (h : rlc_heap) (e : nr_rlc_entity_tm) (now : Z) (buffer : bytes) (size : Z)
    : res (rlc_heap * nr_rlc_entity_tm * bytes * Z) :=
  match sl_list (tm_tx e) with
  | [] => Ok (h, e, buffer, 0)
  | sdu :: rest =>
      if size <? seg_size sdu then Ok (h, e, buffer, 0)
      else
        let e := {| e with tm_tx := mk_seg_list rest (match rest with [] => None | _ => sl_end (tm_tx e) end) |} in
        let ret := seg_size sdu in
        let* s := heap_get h (seg_sdu sdu) in
        let* data := buf_read (sdu_data s) 0 (seg_size sdu) in
        let* buffer := buf_write buffer 0 data in
        let e := {| e with tm_tx_size := tm_tx_size e - seg_size sdu |} in
        let e := tm_stats (fun s => {| s with txpdu_pkts := u32 (txpdu_pkts s + 1);
                                              txpdu_bytes := u32 (txpdu_bytes s + size) |}) e in
        let e := {| e with tm_common := entity_sojourn now (sdu_time_of_arrival s) (tm_common e) |} in
        let e := tm_bstatus_tx (fun t => t - seg_size sdu) e in
        let* (h, _) := nr_rlc_free_sdu_segment h sdu in
        Ok (h, e, buffer, ret)
  end.

Definition nr_rlc_entity_tm_buffer_status (e : nr_rlc_entity_tm) (maxsize : Z)
    : nr_rlc_entity_buffer_status :=
  {| bs_status_size := 0; bs_tx_size := bs_tx_size (bstatus (tm_common e)); bs_retx_size := 0 |}.

Definition nr_rlc_entity_tm_generate_pdu := generate_tx_pdu.

(** The log of a full buffer is shown at most once per second. *)
Definition tm_reset_log (e : nr_rlc_entity_tm) : nr_rlc_entity_tm :=
  if negb (tm_sdu_rejected e =? 0) && (u64 (tm_t_log_buffer_full e + 1000) <? tm_t_current e)
  then {| e with tm_sdu_rejected := 0; tm_t_log_buffer_full := tm_t_current e |} else e.

Definition tm_reject_sdu (e : nr_rlc_entity_tm) (size : Z) : nr_rlc_entity_tm :=
  tm_stats (fun s => {| s with rxsdu_dd_pkts := u32 (rxsdu_dd_pkts s + 1);
                               rxsdu_dd_bytes := u32 (rxsdu_dd_bytes s + size) |})
    {| e with tm_sdu_rejected := tm_sdu_rejected e + 1 |}.

Definition tm_enqueue_sdu (h : rlc_heap) (e : nr_rlc_entity_tm) (now : Z)
    (buffer : bytes) (size sdu_id : Z) : res (rlc_heap * nr_rlc_entity_tm) :=
  let e := {| e with tm_tx_size := tm_tx_size e + size |} in
  let* (h, sdu) := nr_rlc_new_sdu h buffer size sdu_id in
  let* tx := nr_rlc_sdu_segment_list_append (tm_tx e) sdu in
  let e := {| e with tm_tx := tx |} in
  let e := tm_bstatus_tx (fun t => t + seg_size sdu) e in
  if avg_time_is_on (tm_common e)
  then let* s := heap_get h (seg_sdu sdu) in
       Ok (heap_set h (seg_sdu sdu) {| s with sdu_time_of_arrival := now |}, e)
  else Ok (h, e).

Definition nr_rlc_entity_tm_recv_sdu (h : rlc_heap) (e : nr_rlc_entity_tm) (now : Z)
    (buffer : bytes) (size sdu_id : Z) : res (rlc_heap * nr_rlc_entity_tm) :=
  let e := tm_stats (fun s => {| s with rxsdu_pkts := u32 (rxsdu_pkts s + 1);
                                        rxsdu_bytes := u64 (rxsdu_bytes s + size) |}) e in
  if NR_SDU_MAX <? size then Fail FExit
  else
    let e := tm_reset_log e in
    if tm_tx_maxsize e <? tm_tx_size e + size then Ok (h, tm_reject_sdu e size)
    else tm_enqueue_sdu h e now buffer size sdu_id.

Definition nr_rlc_entity_tm_set_time (e : nr_rlc_entity_tm) (now : Z) : res nr_rlc_entity_tm :=
  Ok {| e with tm_t_current := now |}.

Definition nr_rlc_entity_tm_discard_sdu (h : rlc_heap) (e : nr_rlc_entity_tm) (sdu_id : Z)
    : res (rlc_heap * nr_rlc_entity_tm) := Ok (h, e).

Definition clear_entity (h : rlc_heap) (e : nr_rlc_entity_tm) : res (rlc_heap * nr_rlc_entity_tm) :=
  let* h := nr_rlc_free_sdu_segment_list h (sl_list (tm_tx e)) in
  Ok (h, tm_bstatus_tx (fun _ => 0)
           {| e with tm_t_current := 0; tm_t_log_buffer_full := 0; tm_sdu_rejected := 0;
                     tm_tx := mk_seg_list [] None; tm_tx_size := 0 |}).

Definition nr_rlc_entity_tm_reestablishment := clear_entity.

(** The entity and its average are freed: only the store remains. *)
Definition nr_rlc_entity_tm_delete (h : rlc_heap) (e : nr_rlc_entity_tm) : res rlc_heap :=
  let* (h, _) := clear_entity h e in Ok h.

Definition nr_rlc_entity_tm_available_tx_space (e : nr_rlc_entity_tm) : Z :=
  tm_tx_maxsize e - tm_tx_size e.

Definition nr_rlc_entity_tm_tx_list_occupancy (e : nr_rlc_entity_tm) : Z := tm_tx_size e.

#[export] Instance tm_RlcEntity : RlcEntity nr_rlc_entity_tm := {
  recv_pdu h e buffer := let* (e, ev) := nr_rlc_entity_tm_recv_pdu e buffer in Ok (h, e, ev);
  buffer_status e maxsize := Ok (nr_rlc_entity_tm_buffer_status e maxsize);
  generate_pdu := nr_rlc_entity_tm_generate_pdu;
  recv_sdu := nr_rlc_entity_tm_recv_sdu;
  set_time h e now := let* e := nr_rlc_entity_tm_set_time e now in Ok (h, e, []);
  discard_sdu := nr_rlc_entity_tm_discard_sdu;
  reestablishment := nr_rlc_entity_tm_reestablishment;
  available_tx_space := nr_rlc_entity_tm_available_tx_space;
  tx_list_occupancy := nr_rlc_entity_tm_tx_list_occupancy
}.

(** ** The specification: a queue of SDUs bounded in bytes *)

Inductive tm_op :=
| tm_op_recv_pdu (buffer : bytes)
| tm_op_generate (now : Z) (buffer : bytes) (size : Z)
| tm_op_recv_sdu (now : Z) (buffer : bytes) (size sdu_id : Z)
| tm_op_set_time (now : Z)
| tm_op_discard (sdu_id : Z)
| tm_op_reestablish.

Definition tm_op_ok (op : tm_op) : Prop :=
  match op with
  | tm_op_generate _ buffer size => size <= zlen buffer
  | tm_op_recv_sdu _ buffer size _ => 0 < size <= NR_SDU_MAX /\ size <= zlen buffer
  | _ => True
  end.

(** SDUs go up, PDUs go down. *)
Inductive tm_out := out_up (sdu : bytes) | out_down (pdu : bytes).

Definition out_of_event (ev : event) : list tm_out :=
  match ev with deliver_sdu sdu => [out_up sdu] | _ => [] end.

Definition tm_step (st : rlc_heap * nr_rlc_entity_tm) (op : tm_op)
    : res (rlc_heap * nr_rlc_entity_tm * list tm_out) :=
  let '(h, e) := st in
  match op with
  | tm_op_recv_pdu buffer => let* (h, e, ev) := recv_pdu h e buffer in Ok (h, e, mjoin (map out_of_event ev))
  | tm_op_generate now buffer size =>
      let* (h, e, buf, ret) := generate_pdu h e now buffer size in
      Ok (h, e, if 0 <? ret then [out_down (take (Z.to_nat ret) buf)] else [])
  | tm_op_recv_sdu now buffer size id => let* (h, e) := recv_sdu h e now buffer size id in Ok (h, e, [])
  | tm_op_set_time now => let* (h, e, _) := set_time h e now in Ok (h, e, [])
  | tm_op_discard id => let* (h, e) := discard_sdu h e id in Ok (h, e, [])
  | tm_op_reestablish => let* (h, e) := reestablishment h e in Ok (h, e, [])
  end.

Fixpoint tm_run (st : rlc_heap * nr_rlc_entity_tm) (ops : list tm_op)
    : res (rlc_heap * nr_rlc_entity_tm * list tm_out) :=
  match ops with
  | [] => Ok (st, [])
  | op :: ops' =>
      let* (st1, out1) := tm_step st op in
      let* (st2, out2) := tm_run st1 ops' in
      Ok (st2, out1 ++ out2)
  end.

Definition spec_step (room : Z) (q : list bytes) (op : tm_op) : list bytes * list tm_out :=
  match op with
  | tm_op_recv_pdu buffer => (q, [out_up buffer])
  | tm_op_generate _ _ size =>
      match q with
      | sdu :: q' => if zlen sdu <=? size then (q', [out_down sdu]) else (q, [])
      | [] => (q, [])
      end
  | tm_op_recv_sdu _ buffer size _ =>
      if zsum zlen q + size <=? room then (q ++ [take (Z.to_nat size) buffer], []) else (q, [])
  | tm_op_reestablish => ([], [])
  | tm_op_set_time _ | tm_op_discard _ => (q, [])
  end.

Fixpoint spec_run (room : Z) (q : list bytes) (ops : list tm_op) : list bytes * list tm_out :=
  match ops with
  | [] => (q, [])
  | op :: ops' =>
      let (q1, out1) := spec_step room q op in
      let (q2, out2) := spec_run room q1 ops' in
      (q2, out1 ++ out2)
  end.

(** ** Refinement *)

Record tm_inv (h : rlc_heap) (e : nr_rlc_entity_tm) : Prop := {
  tmi_wf : seg_list_wf (tm_tx e);
  tmi_nodup : NoDup (map seg_sdu (sl_list (tm_tx e)));
  tmi_live : Forall (seg_live h) (sl_list (tm_tx e));
  tmi_whole : Forall (fun s => seg_so s = 0) (sl_list (tm_tx e));
  tmi_size : tm_tx_size e = zsum seg_size (sl_list (tm_tx e));
  tmi_bs : bs_tx_size (bstatus (tm_common e)) = tm_tx_size e
}.

(** The queue an entity implements. *)
Definition tm_queue (h : rlc_heap) (e : nr_rlc_entity_tm) : list bytes :=
  map (seg_bytes h) (sl_list (tm_tx e)).

Lemma zsum_seg_bytes h l : Forall (seg_live h) l -> zsum zlen (map (seg_bytes h) l) = zsum seg_size l.
Proof. induction 1; simpl; [done|]. rewrite zlen_seg_bytes by done. lia. Qed.

Lemma tm_queue_size h e : tm_inv h e -> zsum zlen (tm_queue h e) = tm_tx_size e.
Proof. intros []. unfold tm_queue. rewrite zsum_seg_bytes by done. done. Qed.

Lemma tm_generate_sends h e now buffer size seg rest :
  tm_inv h e -> sl_list (tm_tx e) = seg :: rest -> seg_size seg <= size <= zlen buffer ->
  exists h' e' buffer', generate_tx_pdu h e now buffer size = Ok (h', e', buffer', seg_size seg) /\
    tm_inv h' e' /\ tm_queue h' e' = map (seg_bytes h) rest /\
    take (Z.to_nat (seg_size seg)) buffer' = seg_bytes h seg /\ tm_tx_maxsize e' = tm_tx_maxsize e.
Proof.
  intros [Hwf Hnd Hlive Hwhole Hsize Hbs] Hl Hgrant. unfold generate_tx_pdu. rewrite Hl in *.
  apply Forall_cons in Hlive as [Hseg Hlive]. apply Forall_cons in Hwhole as [Hso Hwhole].
  apply NoDup_cons in Hnd as [Hfresh Hnd].
  pose proof Hseg as (s & Hs & _ & _ & Hsz & Hlen & _).
  rewrite (proj2 (Z.ltb_ge size _)) by lia. rewrite (proj2 (heap_get_lookup _ _ _) Hs). cbn [rbind].
  rewrite buf_read_ok by lia. cbn [rbind]. change (drop (Z.to_nat 0) (sdu_data s)) with (sdu_data s).
  set (data := take _ _). assert (Hd : zlen data = seg_size seg) by (apply zlen_take; lia).
  assert (Hdata : seg_bytes h seg = data).
  { unfold seg_bytes. rewrite (proj2 (heap_get_lookup _ _ _) Hs), Hso. done. }
  destruct (buf_write buffer 0 data) as [buffer'|] eqn:Hw.
  2:{ unfold buf_write in Hw. by rewrite (proj2 (Z.leb_le (0 + zlen data) (zlen buffer))) in Hw by lia. }
  apply buf_write_inv in Hw as (_ & _ & ->). cbn [rbind].
  destruct (free_sdu_segment_ok h seg s Hs) as (h' & r & -> & Hu & _). cbn [rbind].
  destruct (heap_upd_list h h' _ rest Hu Hfresh Hlive) as [Hlive' Hm].
  eexists h', _, _. split_and!; [done| | | |done].
  - constructor; try done; cbn [tm_bstatus_tx tm_stats tm_tx sl_list tm_tx_size].
    + apply (seg_list_wf_dequeue seg). rewrite <- Hl. by destruct (tm_tx e).
    + rewrite Hsize. simpl. lia.
    + cbn [tm_common entity_bstatus_tx bstatus bs_tx_size]. unfold entity_sojourn.
      rewrite <- Hbs. by case_bool_.
  - exact Hm.
  - rewrite Hdata. simpl. rewrite <- Hd. unfold zlen. by rewrite Nat2Z.id, take_app_length.
Qed.

Lemma tm_enqueue_ok h e now buffer size id :
  tm_inv h e -> 0 < size <= NR_SDU_MAX -> size <= zlen buffer ->
  exists h' e', tm_enqueue_sdu h e now buffer size id = Ok (h', e') /\ tm_inv h' e' /\
    tm_queue h' e' = tm_queue h e ++ [take (Z.to_nat size) buffer] /\ tm_tx_maxsize e' = tm_tx_maxsize e.
Proof.
  intros [Hwf Hnd Hlive Hwhole Hsize Hbs] Hrange Hbuf. unfold tm_enqueue_sdu. cbv zeta.
  destruct (new_sdu_append h (tm_tx e) buffer size id) as
    (h1 & seg & tx & s & -> & Happ & Htx & Hwf' & Hnd' & Hs & Hss & Hso & _ & _ & Hlist); [done..|].
  cbn [rbind tm_tx]. rewrite Happ. cbn [rbind].
  match goal with |- context [tm_bstatus_tx ?f ?x] => set (e3 := tm_bstatus_tx f x) end.
  assert (Hinv3 : forall hf, Forall (seg_live hf) (sl_list tx) -> tm_inv hf e3).
  { intros hf Hl. constructor; try done; subst e3; cbn [tm_bstatus_tx tm_tx tm_tx_size].
    - rewrite Htx. apply Forall_app. split; [done|by constructor].
    - rewrite Htx, zsum_app. simpl. lia.
    - change (bs_tx_size (bstatus (tm_common e)) + seg_size seg = tm_tx_size e + size). lia. }
  destruct (avg_time_is_on _).
  - rewrite Hs. cbn [rbind]. destruct (Hlist _ now (or_intror eq_refl)) as [Hl Hm].
    eexists _, e3. split_and!; [done|by apply Hinv3|done|done].
  - destruct (Hlist _ now (or_introl eq_refl)) as [Hl Hm].
    eexists h1, e3. split_and!; [done|by apply Hinv3|done|done].
Qed.

Lemma tm_reset_log_same e :
  exists t r, tm_reset_log e = {| e with tm_t_log_buffer_full := t; tm_sdu_rejected := r |}.
Proof.
  unfold tm_reset_log. case_bool_; [by eexists _, _|].
  exists (tm_t_log_buffer_full e), (tm_sdu_rejected e). by destruct e.
Qed.

Lemma tm_step_refines h e op :
  tm_inv h e -> tm_op_ok op ->
  exists h' e', tm_step (h, e) op = Ok ((h', e'), snd (spec_step (tm_tx_maxsize e) (tm_queue h e) op)) /\
    tm_inv h' e' /\ tm_queue h' e' = fst (spec_step (tm_tx_maxsize e) (tm_queue h e) op) /\
    tm_tx_maxsize e' = tm_tx_maxsize e.
Proof.
  intros Hinv Hop. destruct op as [buffer|now buffer size|now buffer size id|now|id|]; cbn [tm_op_ok] in Hop.
  - eexists h, _. split_and!; [done|by destruct Hinv|done|done].
  - cbn [tm_step]. change generate_pdu with generate_tx_pdu. unfold spec_step. fold (tm_queue h e).
    destruct (sl_list (tm_tx e)) as [|seg rest] eqn:Hl.
    { unfold tm_queue. rewrite Hl. unfold generate_tx_pdu. rewrite Hl. simpl.
      exists h, e. split_and!; try done. unfold tm_queue. by rewrite Hl. }
    pose proof (tmi_live h e Hinv) as Hlive. rewrite Hl in Hlive. apply Forall_cons in Hlive as [Hseg _].
    pose proof (zlen_seg_bytes h seg Hseg) as Hz.
    assert (Hq : tm_queue h e = seg_bytes h seg :: map (seg_bytes h) rest) by (unfold tm_queue; by rewrite Hl).
    rewrite Hq. cbv iota. rewrite Hz. destruct (seg_size seg <=? size) eqn:Hfit.
    + destruct (tm_generate_sends h e now buffer size seg rest) as (h' & e' & b & -> & Hinv' & Hq' & Ht & Hmx);
        [done|done|lia|]. cbn [rbind]. destruct Hseg as (_ & _ & _ & _ & Hpos & _).
      rewrite (proj2 (Z.ltb_lt 0 _)) by lia. rewrite Ht. by exists h', e'.
    + unfold generate_tx_pdu. rewrite Hl, (proj2 (Z.ltb_lt size _)) by lia. simpl. by exists h, e.
  - cbn [tm_step]. change recv_sdu with nr_rlc_entity_tm_recv_sdu. unfold nr_rlc_entity_tm_recv_sdu, spec_step.
    rewrite tm_queue_size by done. rewrite (proj2 (Z.ltb_ge NR_SDU_MAX size)) by lia. cbv zeta.
    match goal with |- context [tm_reset_log ?x] => destruct (tm_reset_log_same x) as (t & r & ->) end.
    set (e1 := {| (tm_stats _ e) with tm_t_log_buffer_full := t; tm_sdu_rejected := r |}).
    assert (Hinv1 : tm_inv h e1) by (destruct Hinv; by constructor).
    change (tm_tx_maxsize e) with (tm_tx_maxsize e1). change (tm_tx_size e) with (tm_tx_size e1).
    change (tm_queue h e) with (tm_queue h e1). clearbody e1. clear Hinv e t r.
    destruct (Z.le_gt_cases (tm_tx_size e1 + size) (tm_tx_maxsize e1)) as [Hle|Hgt].
    + rewrite (proj2 (Z.ltb_ge _ _)), (proj2 (Z.leb_le _ _)) by lia.
      destruct (tm_enqueue_ok h e1 now buffer size id) as (h' & e' & -> & Hinv' & Hq & Hmx); [done|lia..|].
      cbn [rbind]. by exists h', e'.
    + rewrite (proj2 (Z.ltb_lt _ _)), (proj2 (Z.leb_gt _ _)) by lia. cbn [rbind].
      eexists h, _. split_and!; [done|by destruct Hinv1|done|done].
  - eexists h, _. split_and!; [done|by destruct Hinv|done|done].
  - by exists h, e.
  - cbn [tm_step]. change reestablishment with clear_entity. unfold clear_entity.
    destruct (free_sdu_segment_list_ok h _ (tmi_live h e Hinv) (tmi_nodup h e Hinv)) as (h' & -> & _).
    cbn [rbind]. eexists h', _. split_and!; [done| |done|done].
    constructor; try done; [split; [by apply NoDup_nil|done]|by apply NoDup_nil|by apply Forall_nil..].
Qed.

Lemma tm_run_refines ops h e :
  tm_inv h e -> Forall tm_op_ok ops ->
  exists h' e', tm_run (h, e) ops = Ok ((h', e'), snd (spec_run (tm_tx_maxsize e) (tm_queue h e) ops)) /\
    tm_inv h' e' /\ tm_queue h' e' = fst (spec_run (tm_tx_maxsize e) (tm_queue h e) ops).
Proof.
  intros Hinv Hops. revert h e Hinv. induction Hops as [|op ops Hop Hops IH]; intros h e Hinv; cbn [tm_run spec_run].
  { by exists h, e. }
  destruct (tm_step_refines h e op Hinv Hop) as (h1 & e1 & -> & Hinv1 & Hq1 & Hm1). cbn [rbind].
  destruct (IH h1 e1 Hinv1) as (h2 & e2 & -> & Hinv2 & Hq2). cbn [rbind].
  rewrite Hm1, Hq1 in Hq2 |- *.
  destruct (spec_step (tm_tx_maxsize e) (tm_queue h e) op) as [q1 out1]. cbn [fst snd] in *.
  destruct (spec_run (tm_tx_maxsize e) q1 ops) as [q2 out2]. by exists h2, e2.
Qed.

Lemma tm_inv_new txm e : new_nr_rlc_entity_tm txm = Ok e -> forall h, tm_inv h e.
Proof.
  unfold new_nr_rlc_entity_tm. intros (avg & _ & [= <-])%rbind_ok h.
  constructor; try done; [split; [by apply NoDup_nil|done]|by apply NoDup_nil|by apply Forall_nil..].
Qed.

(** ** Properties *)

(** C30. A TM entity is a queue of SDUs bounded in bytes: from a new entity,
    every sequence of its operations runs without a failure and gives, output
    by output, what the specification gives: SDUs leave whole, in order,
    unchanged, one per grant that fits; an SDU that does not fit in the room
    left is refused; PDUs from MAC go up unchanged.  Buffer status and
    occupancy are the bytes of the queue at the end. *)
Theorem tm_refines_bounded_queue txm e0 ops :
  new_nr_rlc_entity_tm txm = Ok e0 -> Forall tm_op_ok ops ->
  exists h e, tm_run (heap_empty, e0) ops = Ok ((h, e), snd (spec_run txm [] ops)) /\
    tm_queue h e = fst (spec_run txm [] ops) /\
    tx_list_occupancy e = zsum zlen (fst (spec_run txm [] ops)) /\
    bs_tx_size (nr_rlc_entity_tm_buffer_status e 0) = zsum zlen (fst (spec_run txm [] ops)).
Proof.
  intros Hnew Hops. destruct (tm_run_refines ops heap_empty e0 (tm_inv_new _ _ Hnew heap_empty) Hops)
    as (h & e & Hr & Hinv & Hq).
  assert (tm_tx_maxsize e0 = txm /\ tm_queue heap_empty e0 = []) as [Hm Hq0].
  { revert Hnew. unfold new_nr_rlc_entity_tm. by intros (avg & _ & [= <-])%rbind_ok. }
  rewrite Hm, Hq0 in *. exists h, e. rewrite <- Hq. pose proof (tm_queue_size h e Hinv) as Hz.
  split_and!; [by rewrite Hr|done|done|]. rewrite Hz. apply (tmi_bs h e Hinv).
Qed.

Definition tm_new (txm : Z) : nr_rlc_entity_tm :=
  match new_nr_rlc_entity_tm txm with
  | Ok e => e
  | Fail _ => mk_tm (mk_entity (mk_bstatus 0 0 0) (stats_zero NR_RLC_TM) (mk_ta 0 0 0 [] 0 0 0) false)
                0 0 0 (mk_seg_list [] None) 0 0
  end.

Lemma tm_refines_bounded_queue_witness :
  let ops := [tm_op_recv_sdu 0 [1; 2; 3] 3 1; tm_op_recv_sdu 0 [4; 5] 2 2; tm_op_recv_sdu 0 [6] 1 3;
              tm_op_generate 0 (replicate 8 0) 2; tm_op_generate 0 (replicate 8 0) 4;
              tm_op_recv_pdu [9; 9]] in
  new_nr_rlc_entity_tm 5 = Ok (tm_new 5) /\ snd (spec_run 5 [] ops) = [out_down [1; 2; 3]; out_up [9; 9]] /\
  exists h e, tm_run (heap_empty, tm_new 5) ops = Ok ((h, e), snd (spec_run 5 [] ops)) /\
    tm_queue h e = fst (spec_run 5 [] ops) /\
    tx_list_occupancy e = zsum zlen (fst (spec_run 5 [] ops)) /\
    bs_tx_size (nr_rlc_entity_tm_buffer_status e 0) = zsum zlen (fst (spec_run 5 [] ops)).
Proof.
  intros ops. assert (Forall tm_op_ok ops) as Hops by (repeat constructor; simpl; vm_compute; by auto).
  split_and!; [done|done|]. by apply (tm_refines_bounded_queue 5).
Defined.
