(* ===== verification/RlcUm.v ===== *)
(** The NR RLC UM entity (openair2/LAYER2/nr_rlc/nr_rlc_entity_um.[ch] and the
    UM part of nr_rlc_entity.c): definitions only.

    The reception list and the transmission list are Rocq lists, the SDUs of
    the transmission list live in the store of RlcSdu, [tx_end] is an address.
    An operation returns the new entity (and the new store), the events it
    raised, or the failure that stops it.  The three [while] loops that step
    over delivered sequence numbers take [sn_modulus] as fuel. *)

From S2P Require Import Prelude RlcPdu RlcSdu TimeStat RlcEntity.

Record nr_rlc_entity_um := mk_um {
  um_common : nr_rlc_entity;
  um_t_reassembly : Z;
  um_sn_field_length : Z;
  um_sn_modulus : Z;
  um_window_size : Z;
  um_rx_next_highest : Z;
  um_rx_next_reassembly : Z;
  um_rx_timer_trigger : Z;
  um_tx_next : Z;
  um_t_current : Z;
  um_t_log_buffer_full : Z;
  um_sdu_rejected : Z;
  um_t_reassembly_start : Z;
  um_rx_list : list nr_rlc_pdu;
  um_rx_size : Z;
  um_rx_maxsize : Z;
  um_tx : seg_list;                 (* tx_list and tx_end *)
  um_tx_size : Z;
  um_tx_maxsize : Z
}.

Definition um_stats (f : nr_rlc_statistics -> nr_rlc_statistics) (e : nr_rlc_entity_um)
    : nr_rlc_entity_um := {| e with um_common := entity_stats f (um_common e) |}.

Definition um_bstatus_tx (f : Z -> Z) (e : nr_rlc_entity_um) : nr_rlc_entity_um :=
  {| e with um_common := entity_bstatus_tx f (um_common e) |}.

Definition new_nr_rlc_entity_um (rx_maxsize tx_maxsize t_reassembly sn_field_length : Z)
    : res nr_rlc_entity_um :=
  let* _ := assert_ ((sn_field_length =? 6) || (sn_field_length =? 12)) in
  let* avg := time_average_new (100 * 1000) 1024 in
  let sn_modulus := Z.shiftl 1 sn_field_length in
  Ok {| um_common := {| bstatus := mk_bstatus 0 0 0; stats := stats_zero NR_RLC_UM;
                        avg_time_to_tx := avg; avg_time_is_on := false |};
        um_t_reassembly := t_reassembly; um_sn_field_length := sn_field_length;
        um_sn_modulus := sn_modulus; um_window_size := Z.quot sn_modulus 2;
        um_rx_next_highest := 0; um_rx_next_reassembly := 0; um_rx_timer_trigger := 0;
        um_tx_next := 0; um_t_current := 0; um_t_log_buffer_full := 0; um_sdu_rejected := 0;
        um_t_reassembly_start := 0; um_rx_list := []; um_rx_size := 0;
        um_rx_maxsize := rx_maxsize; um_tx := mk_seg_list [] None; um_tx_size := 0;
        um_tx_maxsize := tx_maxsize |}.

Definition nr_rlc_entity_um_reconfigure (e : nr_rlc_entity_um) (t_reassembly : Z)
    (sn_field_length : option Z) : nr_rlc_entity_um :=
  let e := {| e with um_t_reassembly := t_reassembly |} in
  match sn_field_length with
  | Some n => {| e with um_sn_field_length := n |}
  | None => e
  end.

Definition compute_pdu_header_size (e : nr_rlc_entity_um) (sdu : nr_rlc_sdu_segment) : Z :=
  1 + (if negb (seg_is_first sdu && seg_is_last sdu) && (um_sn_field_length e =? 12) then 1 else 0)
    + (if negb (seg_is_first sdu) then 2 else 0).

(** ** PDU RX functions *)

Definition modulus_rx (e : nr_rlc_entity_um) (a : Z) : Z :=
  let r := a - (um_rx_next_highest e - um_window_size e) in
  let r := if r <? 0 then r + um_sn_modulus e else r in
  Z.rem r (um_sn_modulus e).

Definition sn_compare_rx (e : nr_rlc_entity_um) (a b : Z) : Z := modulus_rx e a - modulus_rx e b.

(** The list from the first segment of [sn] on. *)
Fixpoint from_sn (sn : Z) (l : list nr_rlc_pdu) : list nr_rlc_pdu :=
  match l with
  | [] => []
  | p :: l' => if pdu_sn p =? sn then l else from_sn sn l'
  end.

Definition new_last_byte (p : nr_rlc_pdu) (last_byte : Z) : Z :=
  let b := pdu_so p + pdu_size p - 1 in
  if last_byte <? b then b else last_byte.

Fixpoint sdu_full_loop (sn last_byte : Z) (l : list nr_rlc_pdu) : bool :=
  match l with
  | [] => false
  | p :: l' =>
      if negb (pdu_sn p =? sn) then false
      else if last_byte + 1 <? pdu_so p then false
      else if pdu_is_last p then true
      else sdu_full_loop sn (new_last_byte p last_byte) l'
  end.

(** All the bytes of the SDU [sn] are there, and it is not processed yet. *)
Definition sdu_full (l : list nr_rlc_pdu) (sn : Z) : bool :=
  match from_sn sn l with
  | {| pdu_data := None |} :: _ => false
  | l' => sdu_full_loop sn (-1) l'
  end.

Definition sdu_delivered (l : list nr_rlc_pdu) (sn : Z) : bool :=
  match from_sn sn l with
  | {| pdu_data := None |} :: _ => true
  | _ => false
  end.

Fixpoint missing_loop (sn last_byte : Z) (l : list nr_rlc_pdu) : bool :=
  match l with
  | [] => false
  | p :: l' =>
      if negb (pdu_sn p =? sn) then false
      else if last_byte + 1 <? pdu_so p then true
      else missing_loop sn (new_last_byte p last_byte) l'
  end.

Definition sdu_has_missing_bytes (l : list nr_rlc_pdu) (sn : Z) : bool :=
  match from_sn sn l with
  | {| pdu_data := None |} :: _ => false
  | l' => missing_loop sn (-1) l'
  end.

(** [while (sdu_delivered(sn)) sn = (sn + 1) % sn_modulus;] *)
Fixpoint skip_delivered (fuel : nat) (modulus : Z) (l : list nr_rlc_pdu) (sn : Z) : res Z :=
  match fuel with
  | O => Fail FFuel
  | S fuel' =>
      if sdu_delivered l sn
      then skip_delivered fuel' modulus l (Z.rem (sn + 1) modulus)
      else Ok sn
  end.

Definition um_skip_delivered (e : nr_rlc_entity_um) (sn : Z) : res Z :=
  skip_delivered (Z.to_nat (um_sn_modulus e)) (um_sn_modulus e) (um_rx_list e) sn.

(** The state of the reassembly loop: the bytes in [sdu[]] ([so] is their
    number), the [bad_sdu] flag, and [rx_size]. *)
Record reassembly := mk_reass { ra_sdu : bytes; ra_bad : bool; ra_rx_size : Z }.

Definition processed (p : nr_rlc_pdu) : nr_rlc_pdu := {| p with pdu_data := None; pdu_size := 0 |}.

Definition reassemble_one (p : nr_rlc_pdu) (r : reassembly) : res reassembly :=
  let so := zlen (ra_sdu r) in
  let bad := ra_bad r || (so <? pdu_so p) in
  let len := pdu_size p - (so - pdu_so p) in
  let bad := bad || (NR_SDU_MAX <? so + len) in
  let* sdu :=
    if negb bad && (0 <? len)
    then let* d := of_opt FBounds (pdu_data p) in
         let* d := buf_read d (so - pdu_so p) len in
         Ok (ra_sdu r ++ d)
    else Ok (ra_sdu r) in
  Ok {| ra_sdu := sdu; ra_bad := bad; ra_rx_size := ra_rx_size r - pdu_size p |}.

Fixpoint reassemble_loop (sn : Z) (l : list nr_rlc_pdu) (r : reassembly)
    : res (list nr_rlc_pdu * reassembly) :=
  match l with
  | [] => Ok ([], r)
  | p :: l' =>
      if negb (pdu_sn p =? sn) then Ok (l, r)
      else
        let* r' := reassemble_one p r in
        let* (l'', r'') := reassemble_loop sn l' r' in
        Ok (processed p :: l'', r'')
  end.

(** Go to the first segment of [sn] (the code follows NULL when there is
    none), then reassemble. *)
Fixpoint reassemble_at (sn : Z) (l : list nr_rlc_pdu) (r : reassembly)
    : res (list nr_rlc_pdu * reassembly) :=
  match l with
  | [] => Fail FBounds
  | p :: l' =>
      if negb (pdu_sn p =? sn)
      then let* (l'', r') := reassemble_at sn l' r in Ok (p :: l'', r')
      else reassemble_loop sn l r
  end.

Definition reassemble_and_deliver (e : nr_rlc_entity_um) (sn : Z)
    : res (nr_rlc_entity_um * list event) :=
  let* (l, r) := reassemble_at sn (um_rx_list e) (mk_reass [] false (um_rx_size e)) in
  let e := {| e with um_rx_list := l; um_rx_size := ra_rx_size r |} in
  if ra_bad r then Ok (e, [])
  else Ok (um_stats (stats_delivered (zlen (ra_sdu r))) e, [deliver_sdu (ra_sdu r)]).

(** Discard the head of the list while it is outside of the window. *)
Fixpoint discard_outside (l : list nr_rlc_pdu) (e : nr_rlc_entity_um) : nr_rlc_entity_um :=
  match l with
  | [] => {| e with um_rx_list := [] |}
  | p :: l' =>
      if 0 <=? sn_compare_rx e (pdu_sn p) (um_rx_next_highest e)
      then discard_outside l'
             (um_stats (fun s => let s := stats_rxpdu_dd (pdu_size p) s in
                          {| s with rxpdu_ow_pkts := u32 (rxpdu_ow_pkts s + 1);
                                    rxpdu_ow_bytes := u32 (rxpdu_ow_bytes s + pdu_size p) |})
                {| e with um_rx_size := um_rx_size e - pdu_size p |})
      else {| e with um_rx_list := l |}
  end.

(** First part of [reception_actions]: the SDU is full, or the window moves. *)
Definition reception_update (e : nr_rlc_entity_um) (x : Z) : res (nr_rlc_entity_um * list event) :=
  if sdu_full (um_rx_list e) x then
    let* (e, ev) := reassemble_and_deliver e x in
    if x =? um_rx_next_reassembly e then
      let* n := um_skip_delivered e (um_rx_next_reassembly e) in
      Ok ({| e with um_rx_next_reassembly := n |}, ev)
    else Ok (e, ev)
  else if 0 <=? sn_compare_rx e x (um_rx_next_highest e) then
    let e := {| e with um_rx_next_highest := Z.rem (x + 1) (um_sn_modulus e) |} in
    let e := discard_outside (um_rx_list e) e in
    if 0 <=? sn_compare_rx e (um_rx_next_reassembly e) (um_rx_next_highest e) then
      let* n := um_skip_delivered e
        (Z.rem (um_rx_next_highest e - um_window_size e + um_sn_modulus e) (um_sn_modulus e)) in
      Ok ({| e with um_rx_next_reassembly := n |}, [])
    else Ok (e, [])
  else Ok (e, []).

(** Second part: [t_Reassembly] is stopped, then (re)started. *)
Definition timer_update (e : nr_rlc_entity_um) : nr_rlc_entity_um :=
  let next := Z.rem (um_rx_next_reassembly e + 1) (um_sn_modulus e) in
  let missing := sdu_has_missing_bytes (um_rx_list e) (um_rx_next_reassembly e) in
  let e :=
    if negb (um_t_reassembly_start e =? 0)
       && ((sn_compare_rx e (um_rx_timer_trigger e) (um_rx_next_reassembly e) <=? 0)
           || (0 <? sn_compare_rx e (um_rx_timer_trigger e) (um_rx_next_highest e))
           || ((um_rx_next_highest e =? next) && negb missing))
    then {| e with um_t_reassembly_start := 0 |} else e in
  if (um_t_reassembly_start e =? 0)
     && ((0 <? sn_compare_rx e (um_rx_next_highest e) next)
         || ((um_rx_next_highest e =? next) && missing))
  then {| e with um_t_reassembly_start := um_t_current e; um_rx_timer_trigger := um_rx_next_highest e |}
  else e.

Definition reception_actions (e : nr_rlc_entity_um) (x : Z) : res (nr_rlc_entity_um * list event) :=
  let* (e, ev) := reception_update e x in
  Ok (timer_update e, ev).

Definition um_discard_pdu (e : nr_rlc_entity_um) (size : Z) : nr_rlc_entity_um :=
  um_stats (stats_rxpdu_dd size) e.

(** What [recv_pdu] does with a segment once its header is decoded. *)
Definition um_recv_segment (e : nr_rlc_entity_um) (buffer : bytes)
    (sn so : Z) (is_first is_last : bool) (byte : Z) : res (nr_rlc_entity_um * list event) :=
  let size := zlen buffer in
  let data_size := size - byte in
  if data_size <=? 0 then Ok (um_discard_pdu e size, [])
  else if um_rx_maxsize e <? um_rx_size e + data_size then Ok (um_discard_pdu e size, [])
  else if sn_compare_rx e sn (um_rx_next_reassembly e) <? 0 then Ok (um_discard_pdu e size, [])
  else
    let* data := buf_read buffer (size - data_size) data_size in
    let* pdu := nr_rlc_new_pdu sn so is_first is_last data data_size in
    let e := {| e with um_rx_size := um_rx_size e + data_size;
                       um_rx_list := nr_rlc_pdu_list_add (sn_compare_rx e) (um_rx_list e) pdu |} in
    reception_actions e (pdu_sn pdu).

Definition nr_rlc_entity_um_recv_pdu (e : nr_rlc_entity_um) (buffer : bytes)
    : res (nr_rlc_entity_um * list event) :=
  let size := zlen buffer in
  let e := um_stats (fun s => {| s with rxpdu_pkts := u32 (rxpdu_pkts s + 1);
                                        rxpdu_bytes := u32 (rxpdu_bytes s + size) |}) e in
  let* (si, d) := nr_rlc_pdu_decoder_get_bits (nr_rlc_pdu_decoder_init buffer size) 2 in
  if nr_rlc_pdu_decoder_in_error d then Ok (um_discard_pdu e size, []) else
  let is_first := Z.land si 2 =? 0 in
  let is_last := Z.land si 1 =? 0 in
  if is_first && is_last then
    if size <? 2 then Ok (um_discard_pdu e size, [])
    else let* sdu := buf_read buffer 1 (size - 1) in
         Ok (um_stats (stats_delivered (size - 1)) e, [deliver_sdu sdu])
  else
    let* (_, d) := (if um_sn_field_length e =? 12 then nr_rlc_pdu_decoder_get_bits d 2 else Ok (0, d)) in
    if nr_rlc_pdu_decoder_in_error d then Ok (um_discard_pdu e size, []) else
    let* (sn, d) := nr_rlc_pdu_decoder_get_bits d (um_sn_field_length e) in
    if nr_rlc_pdu_decoder_in_error d then Ok (um_discard_pdu e size, []) else
    if is_first then um_recv_segment e buffer sn 0 is_first is_last (dec_byte d)
    else
      let* (so, d) := nr_rlc_pdu_decoder_get_bits d 16 in
      if nr_rlc_pdu_decoder_in_error d then Ok (um_discard_pdu e size, [])
      else if so =? 0 then Ok (um_discard_pdu e size, [])
      else um_recv_segment e buffer sn so is_first is_last (dec_byte d).

(** ** TX functions *)

Definition um_put_header (e : nr_rlc_entity_um) (sn : Z) (sdu : nr_rlc_sdu_segment)
    (enc : nr_rlc_pdu_encoder) : res nr_rlc_pdu_encoder :=
  let* enc := nr_rlc_pdu_encoder_put_bits enc (1 - Z.b2z (seg_is_first sdu)) 1 in
  let* enc := nr_rlc_pdu_encoder_put_bits enc (1 - Z.b2z (seg_is_last sdu)) 1 in
  let* enc :=
    if seg_is_first sdu && seg_is_last sdu then nr_rlc_pdu_encoder_put_bits enc 0 6
    else
      let* enc := if um_sn_field_length e =? 12 then nr_rlc_pdu_encoder_put_bits enc 0 2 else Ok enc in
      nr_rlc_pdu_encoder_put_bits enc sn (um_sn_field_length e) in
  if negb (seg_is_first sdu) then nr_rlc_pdu_encoder_put_bits enc (seg_so sdu) 16 else Ok enc.

(** Returns the buffer of the caller with the PDU, and the size of the PDU. *)
Definition serialize_sdu (h : rlc_heap) (e : nr_rlc_entity_um) (sdu : nr_rlc_sdu_segment)
    (buffer : bytes) (bufsize : Z) : res (bytes * Z) :=
  let* s := heap_get h (seg_sdu sdu) in
  let* enc := um_put_header e (sdu_sn s) sdu (nr_rlc_pdu_encoder_init buffer bufsize) in
  let* data := buf_read (sdu_data s) (seg_so sdu) (seg_size sdu) in
  let* buffer := buf_write (enc_buffer enc) (enc_byte enc) data in
  Ok (buffer, enc_byte enc + seg_size sdu).

Definition stats_segmented (s : nr_rlc_statistics) : nr_rlc_statistics :=
  {| s with txpdu_segmented := u32 (txpdu_segmented s + 1) |}.

(** The segment is shortened to fit in [pdu_size] and the remaining bytes make
    a new segment; [None] when not even one byte fits. *)
Definition resegment (h : rlc_heap) (e : nr_rlc_entity_um) (sdu : nr_rlc_sdu_segment) (pdu_size : Z)
    : res (rlc_heap * nr_rlc_entity_um * nr_rlc_sdu_segment * option nr_rlc_sdu_segment) :=
  let* s := heap_get h (seg_sdu sdu) in
  let h := heap_set h (seg_sdu sdu) {| s with sdu_ref_count := sdu_ref_count s + 1 |} in
  let pdu_header_size := compute_pdu_header_size e {| sdu with seg_is_last := false |} in
  if pdu_size <? pdu_header_size + 1 then Ok (h, e, sdu, None)
  else
    let over_size := pdu_header_size + seg_size sdu - pdu_size in
    let sdu' := {| sdu with seg_size := seg_size sdu - over_size; seg_is_last := false |} in
    let next := {| sdu with seg_addr := heap_brk h; seg_size := over_size;
                            seg_so := seg_so sdu + seg_size sdu'; seg_is_first := false |} in
    Ok ({| h with heap_brk := S (heap_brk h) |}, um_stats stats_segmented e, sdu', Some next).

(** The end of [generate_tx_pdu], once the segment that leaves is settled. *)
Definition um_send_segment (h : rlc_heap) (e : nr_rlc_entity_um) (now : Z)
    (sdu : nr_rlc_sdu_segment) (buffer : bytes) (size : Z)
    : res (rlc_heap * nr_rlc_entity_um * bytes * Z) :=
  let e := if negb (seg_is_first sdu) && seg_is_last sdu
           then {| e with um_tx_next := Z.rem (um_tx_next e + 1) (um_sn_modulus e) |} else e in
  let* (buffer, ret) := serialize_sdu h e sdu buffer size in
  let e := {| e with um_tx_size := um_tx_size e - seg_size sdu |} in
  let e := um_stats (fun s => {| s with txpdu_pkts := u32 (txpdu_pkts s + 1);
                                        txpdu_bytes := u32 (txpdu_bytes s + size) |}) e in
  let* s := heap_get h (seg_sdu sdu) in
  let e := {| e with um_common := entity_sojourn now (sdu_time_of_arrival s) (um_common e) |} in
  let* (h, _) := nr_rlc_free_sdu_segment h sdu in
  Ok (h, e, buffer, ret).

Definition generate_tx_pdu (h : rlc_heap) (e : nr_rlc_entity_um) (now : Z) (buffer : bytes) (size : Z)
    : res (rlc_heap * nr_rlc_entity_um * bytes * Z) :=
  match sl_list (um_tx e) with
  | [] => Ok (h, e, buffer, 0)
  | sdu :: rest =>
      let pdu_header_size := compute_pdu_header_size e sdu in
      if size <? pdu_header_size + 1 then Ok (h, e, buffer, 0)
      else
        let e := {| e with um_tx := mk_seg_list rest (match rest with [] => None | _ => sl_end (um_tx e) end) |} in
        let* s := heap_get h (seg_sdu sdu) in
        let h := heap_set h (seg_sdu sdu) {| s with sdu_sn := um_tx_next e |} in
        let pdu_size := pdu_header_size + seg_size sdu in
        let e := um_bstatus_tx (fun t => t - pdu_size) e in
        if size <? pdu_size then
          let* (h, e, sdu, next_sdu) := resegment h e sdu size in
          match next_sdu with
          | None => Ok (h, e, buffer, 0)
          | Some next =>
              let e := {| e with um_tx := mk_seg_list (next :: sl_list (um_tx e))
                (match sl_end (um_tx e) with None => Some (seg_addr next) | a => a end) |} in
              let e := um_stats stats_segmented e in
              let e := um_bstatus_tx (fun t => t + (compute_pdu_header_size e next + seg_size next)) e in
              um_send_segment h e now sdu buffer size
          end
        else um_send_segment h e now sdu buffer size
  end.

Definition nr_rlc_entity_um_buffer_status (e : nr_rlc_entity_um) (maxsize : Z)
    : nr_rlc_entity_buffer_status :=
  {| bs_status_size := 0; bs_tx_size := bs_tx_size (bstatus (um_common e)); bs_retx_size := 0 |}.

Definition nr_rlc_entity_um_generate_pdu := generate_tx_pdu.

(** ** SDU RX functions *)

(** The log of a full buffer is shown at most once per second. *)
Definition um_reset_log (e : nr_rlc_entity_um) : nr_rlc_entity_um :=
  if negb (um_sdu_rejected e =? 0) && (u64 (um_t_log_buffer_full e + 1000) <? um_t_current e)
  then {| e with um_sdu_rejected := 0; um_t_log_buffer_full := um_t_current e |} else e.

Definition um_reject_sdu (e : nr_rlc_entity_um) (size : Z) : nr_rlc_entity_um :=
  um_stats (fun s => {| s with rxsdu_dd_pkts := u32 (rxsdu_dd_pkts s + 1);
                               rxsdu_dd_bytes := u32 (rxsdu_dd_bytes s + size) |})
    {| e with um_sdu_rejected := um_sdu_rejected e + 1 |}.

Definition um_enqueue_sdu (h : rlc_heap) (e : nr_rlc_entity_um) (now : Z)
    (buffer : bytes) (size sdu_id : Z) : res (rlc_heap * nr_rlc_entity_um) :=
  let e := {| e with um_tx_size := um_tx_size e + size |} in
  let* (h, sdu) := nr_rlc_new_sdu h buffer size sdu_id in
  let* tx := nr_rlc_sdu_segment_list_append (um_tx e) sdu in
  let e := {| e with um_tx := tx |} in
  let e := um_bstatus_tx (fun t => t + (compute_pdu_header_size e sdu + seg_size sdu)) e in
  if avg_time_is_on (um_common e)
  then let* s := heap_get h (seg_sdu sdu) in
       Ok (heap_set h (seg_sdu sdu) {| s with sdu_time_of_arrival := now |}, e)
  else Ok (h, e).

Definition nr_rlc_entity_um_recv_sdu (h : rlc_heap) (e : nr_rlc_entity_um) (now : Z)
    (buffer : bytes) (size sdu_id : Z) : res (rlc_heap * nr_rlc_entity_um) :=
  let e := um_stats (fun s => {| s with rxsdu_pkts := u32 (rxsdu_pkts s + 1);
                                        rxsdu_bytes := u64 (rxsdu_bytes s + size) |}) e in
  if NR_SDU_MAX <? size then Fail FExit
  else
    let e := um_reset_log e in
    if um_tx_maxsize e <? um_tx_size e + size then Ok (h, um_reject_sdu e size)
    else um_enqueue_sdu h e now buffer size sdu_id.

(** ** Time and timers *)

(** Discard the head of the list while its SN is before [rx_next_reassembly];
    [rx_size] is left as it is. *)
Fixpoint discard_before (l : list nr_rlc_pdu) (e : nr_rlc_entity_um) : nr_rlc_entity_um :=
  match l with
  | [] => {| e with um_rx_list := [] |}
  | p :: l' =>
      if sn_compare_rx e (pdu_sn p) (um_rx_next_reassembly e) <? 0
      then discard_before l' (um_stats (stats_rxpdu_dd (pdu_size p)) e)
      else {| e with um_rx_list := l |}
  end.

Definition check_t_reassembly (e : nr_rlc_entity_um) : res nr_rlc_entity_um :=
  if (um_t_reassembly_start e =? 0)
     || (um_t_current e <=? u64 (um_t_reassembly_start e + um_t_reassembly e))
  then Ok e
  else
    let e := {| e with um_t_reassembly_start := 0 |} in
    let* n := um_skip_delivered e (um_rx_timer_trigger e) in
    let e := {| e with um_rx_next_reassembly := n |} in
    let e := discard_before (um_rx_list e) e in
    if (0 <? sn_compare_rx e (um_rx_next_highest e)
               (Z.rem (um_rx_next_reassembly e + 1) (um_sn_modulus e)))
       || ((um_rx_next_highest e =? um_rx_next_reassembly e + 1)
           && sdu_has_missing_bytes (um_rx_list e) (um_rx_next_reassembly e))
    then Ok {| e with um_t_reassembly_start := um_t_current e;
                      um_rx_timer_trigger := um_rx_next_highest e |}
    else Ok e.

Definition nr_rlc_entity_um_set_time (e : nr_rlc_entity_um) (now : Z) : res nr_rlc_entity_um :=
  check_t_reassembly {| e with um_t_current := now |}.

(** ** Discard, re-establishment *)

(** The search of [discard_sdu]: the nodes before the first segment of an SDU
    with this id, that segment, and the nodes after it. *)
Fixpoint find_upper_layer_id (h : rlc_heap) (sdu_id : Z) (l : list nr_rlc_sdu_segment)
    : res (list nr_rlc_sdu_segment * option (nr_rlc_sdu_segment * list nr_rlc_sdu_segment)) :=
  match l with
  | [] => Ok ([], None)
  | cur :: l' =>
      let* s := heap_get h (seg_sdu cur) in
      if negb (sdu_upper_layer_id s =? sdu_id)
      then let* (pre, r) := find_upper_layer_id h sdu_id l' in Ok (cur :: pre, r)
      else Ok ([], Some (cur, l'))
  end.

Definition nr_rlc_entity_um_discard_sdu (h : rlc_heap) (e : nr_rlc_entity_um) (sdu_id : Z)
    : res (rlc_heap * nr_rlc_entity_um) :=
  let* (pre, r) := find_upper_layer_id h sdu_id (sl_list (um_tx e)) in
  match r with
  | None => Ok (h, e)
  | Some (cur, post) =>
      if negb (seg_is_first cur) || negb (seg_is_last cur) then Ok (h, e)
      else
        let tx_end := if bool_decide (sl_end (um_tx e) = Some (seg_addr cur))
                      then seg_addr <$> last pre else sl_end (um_tx e) in
        let e := {| e with um_tx := mk_seg_list (pre ++ post) tx_end |} in
        let e := um_bstatus_tx (fun t => t - (compute_pdu_header_size e cur + seg_size cur)) e in
        let* (h, _) := nr_rlc_free_sdu_segment h cur in
        Ok (h, e)
  end.

Definition clear_entity (h : rlc_heap) (e : nr_rlc_entity_um) : res (rlc_heap * nr_rlc_entity_um) :=
  let* h := nr_rlc_free_sdu_segment_list h (sl_list (um_tx e)) in
  Ok (h, um_bstatus_tx (fun _ => 0)
           {| e with um_rx_next_highest := 0; um_rx_next_reassembly := 0; um_rx_timer_trigger := 0;
                     um_tx_next := 0; um_t_current := 0; um_t_log_buffer_full := 0;
                     um_sdu_rejected := 0; um_t_reassembly_start := 0; um_rx_list := [];
                     um_rx_size := 0; um_tx := mk_seg_list [] None; um_tx_size := 0 |}).

Definition nr_rlc_entity_um_reestablishment := clear_entity.

(** The entity and its average are freed: only the store remains. *)
Definition nr_rlc_entity_um_delete (h : rlc_heap) (e : nr_rlc_entity_um) : res rlc_heap :=
  let* (h, _) := clear_entity h e in Ok h.

(** [nr_rlc_entity_get_stats] on a UM entity: the head of [tx_list] is the HOL SDU. *)
Definition nr_rlc_entity_um_get_stats (h : rlc_heap) (e : nr_rlc_entity_um) (now : Z)
    : res (nr_rlc_entity_um * nr_rlc_statistics) :=
  let* (c, out) := nr_rlc_entity_get_stats h (um_common e) (head (sl_list (um_tx e))) now in
  Ok ({| e with um_common := c |}, out).

Definition nr_rlc_entity_um_available_tx_space (e : nr_rlc_entity_um) : Z :=
  um_tx_maxsize e - um_tx_size e.

Definition nr_rlc_entity_um_tx_list_occupancy (e : nr_rlc_entity_um) : Z := um_tx_size e.

#[export] Instance um_RlcEntity : RlcEntity nr_rlc_entity_um := {
  recv_pdu h e buffer := let* (e, ev) := nr_rlc_entity_um_recv_pdu e buffer in Ok (h, e, ev);
  buffer_status e maxsize := Ok (nr_rlc_entity_um_buffer_status e maxsize);
  generate_pdu := nr_rlc_entity_um_generate_pdu;
  recv_sdu := nr_rlc_entity_um_recv_sdu;
  set_time h e now := let* e := nr_rlc_entity_um_set_time e now in Ok (h, e, []);
  discard_sdu := nr_rlc_entity_um_discard_sdu;
  reestablishment := nr_rlc_entity_um_reestablishment;
  available_tx_space := nr_rlc_entity_um_available_tx_space;
  tx_list_occupancy := nr_rlc_entity_um_tx_list_occupancy
}.
