(* ===== verification/RlcUmRx.v ===== *)
(** The receiver of the NR RLC UM entity: invariant, safety, termination,
    reassembly and the accounting of [rx_size]. *)

From S2P Require Import Prelude RlcPdu RlcSdu TimeStat RlcEntity RlcUm.

(** ** Positions in the window *)

Record um_cfg (e : nr_rlc_entity_um) : Prop := {
  cfg_len : um_sn_field_length e = 6 \/ um_sn_field_length e = 12;
  cfg_modulus : um_sn_modulus e = 2 ^ um_sn_field_length e;
  cfg_window : um_sn_modulus e = 2 * um_window_size e
}.

Lemma cfg_window_pos e : um_cfg e -> 32 <= um_window_size e <= 2048.
Proof. intros [[Hl|Hl] Hm Hw]; rewrite Hl in Hm; lia. Qed.

Definition sn_ok (e : nr_rlc_entity_um) (a : Z) : Prop := 0 <= a < um_sn_modulus e.

Lemma modulus_rx_mod e a :
  um_cfg e -> sn_ok e a -> sn_ok e (um_rx_next_highest e) ->
  modulus_rx e a = (a - um_rx_next_highest e + um_window_size e) mod um_sn_modulus e.
Proof.
  intros Hc Ha Hn. pose proof (cfg_window_pos _ Hc). destruct Hc as [_ _ Hw].
  unfold sn_ok in *. unfold modulus_rx.
  replace (a - (um_rx_next_highest e - um_window_size e))
    with (a - um_rx_next_highest e + um_window_size e) by lia.
  destruct (a - um_rx_next_highest e + um_window_size e <? 0) eqn:Hneg.
  - rewrite Z.rem_mod_nonneg by lia.
    symmetry. rewrite <- (Z.mod_add _ 1) by lia. f_equal. lia.
  - by rewrite Z.rem_mod_nonneg by lia.
Qed.

Section Positions.
Context (e : nr_rlc_entity_um).
Hypothesis Hcfg : um_cfg e.
Hypothesis Hnh : sn_ok e (um_rx_next_highest e).

Let Hw := cfg_window_pos e Hcfg.

Lemma pos_range a : sn_ok e a -> 0 <= modulus_rx e a < um_sn_modulus e.
Proof.
  intros. rewrite modulus_rx_mod by done. apply Z.mod_pos_bound.
  rewrite (cfg_window e Hcfg). lia.
Qed.

Lemma pos_inj a b : sn_ok e a -> sn_ok e b -> modulus_rx e a = modulus_rx e b -> a = b.
Proof.
  intros Ha Hb. rewrite !modulus_rx_mod by done. intros Heq%mod_eq_close; unfold sn_ok in *; lia.
Qed.

Lemma pos_next_highest : modulus_rx e (um_rx_next_highest e) = um_window_size e.
Proof.
  rewrite modulus_rx_mod, Z.sub_diag by done. pose proof (cfg_window e Hcfg).
  apply Z.mod_small. lia.
Qed.

Lemma sn_ok_rem a : 0 <= a -> sn_ok e (Z.rem a (um_sn_modulus e)).
Proof.
  intros. pose proof (cfg_window e Hcfg). unfold sn_ok.
  rewrite Z.rem_mod_nonneg by lia. apply Z.mod_pos_bound. lia.
Qed.

Lemma pos_add a k :
  sn_ok e a -> 0 <= k ->
  modulus_rx e ((a + k) mod um_sn_modulus e) = (modulus_rx e a + k) mod um_sn_modulus e.
Proof.
  intros Ha Hk. pose proof (cfg_window e Hcfg).
  rewrite !modulus_rx_mod; [|done..|apply Z.mod_pos_bound; lia|done].
  rewrite Zplus_mod_idemp_l, <- Z.add_sub_swap.
  rewrite <- Z.add_sub_assoc, <- !Z.add_assoc, Zplus_mod_idemp_l. f_equal. lia.
Qed.

(** A sequence number that is [k] after [a], without leaving the modulus. *)
Lemma pos_add_small a k :
  sn_ok e a -> 0 <= k -> modulus_rx e a + k < um_sn_modulus e ->
  modulus_rx e ((a + k) mod um_sn_modulus e) = modulus_rx e a + k.
Proof.
  intros Ha Hk Hs. rewrite pos_add by done. apply Z.mod_small.
  pose proof (pos_range a Ha). lia.
Qed.
End Positions.

(** When [rx_next_highest] moves to just after [x], positions shift. *)
Lemma pos_shift e e' x a :
  um_cfg e -> um_cfg e' -> um_sn_modulus e' = um_sn_modulus e ->
  sn_ok e (um_rx_next_highest e) -> sn_ok e x -> sn_ok e a ->
  um_rx_next_highest e' = Z.rem (x + 1) (um_sn_modulus e) ->
  modulus_rx e' a
    = (modulus_rx e a - modulus_rx e x - 1 + um_window_size e) mod um_sn_modulus e.
Proof.
  intros Hc Hc' Hm Hn Hx Ha Hnh'. pose proof (cfg_window e Hc). pose proof (cfg_window e' Hc').
  pose proof (cfg_window_pos e Hc).
  assert (Hok' : sn_ok e' (um_rx_next_highest e')).
  { unfold sn_ok. rewrite Hnh', Hm. apply sn_ok_rem; [done|unfold sn_ok in Hx; lia]. }
  rewrite modulus_rx_mod by (done || by unfold sn_ok; rewrite Hm).
  rewrite !(modulus_rx_mod e) by done. rewrite Hnh', Hm.
  unfold sn_ok in *. rewrite Z.rem_mod_nonneg by lia.
  replace (um_window_size e') with (um_window_size e) by lia.
  set (M := um_sn_modulus e) in *. set (W := um_window_size e) in *.
  set (nh := um_rx_next_highest e) in *.
  replace (a - (x + 1) mod M + W) with (a + W - (x + 1) mod M) by lia.
  rewrite Zminus_mod_idemp_r.
  replace ((a - nh + W) mod M - (x - nh + W) mod M - 1 + W)
    with ((a - nh + W) mod M + (W - 1 - (x - nh + W) mod M)) by lia.
  rewrite Zplus_mod_idemp_l.
  replace (a - nh + W + (W - 1 - (x - nh + W) mod M))
    with (a - nh + W + (W - 1) - (x - nh + W) mod M) by lia.
  rewrite Zminus_mod_idemp_r. f_equal. lia.
Qed.

(** ** Loops over the reception list *)

Lemma from_sn_app sn l :
  exists pre, l = pre ++ from_sn sn l /\ Forall (fun p => pdu_sn p <> sn) pre /\
    match from_sn sn l with [] => True | p :: _ => pdu_sn p = sn end.
Proof.
  induction l as [|p l (pre & Hl & Hpre & Hhd)]; [by exists []|]. simpl.
  destruct (Z.eqb_spec (pdu_sn p) sn).
  - by exists [].
  - exists (p :: pre). split_and!; [by rewrite Hl at 1|by constructor|done].
Qed.

Lemma sdu_delivered_in l sn :
  sdu_delivered l sn = true -> exists p, p ∈ l /\ pdu_sn p = sn /\ pdu_data p = None.
Proof.
  unfold sdu_delivered. destruct (from_sn_app sn l) as (pre & Hl & _ & Hhd).
  destruct (from_sn sn l) as [|p l'] eqn:He; [done|]. destruct p as [n [d|] sz so f la]; [done|].
  intros _. eexists. split; [|split; [exact Hhd|done]]. rewrite Hl. set_solver.
Qed.

Lemma skip_delivered_spec l M sn k fuel :
  0 < M -> 0 <= sn < M -> (k < fuel)%nat ->
  sdu_delivered l ((sn + Z.of_nat k) mod M) = false ->
  exists j, (j <= k)%nat /\ skip_delivered fuel M l sn = Ok ((sn + Z.of_nat j) mod M) /\
    sdu_delivered l ((sn + Z.of_nat j) mod M) = false /\
    forall i, (i < j)%nat -> sdu_delivered l ((sn + Z.of_nat i) mod M) = true.
Proof.
  intros HM. revert sn k. induction fuel as [|fuel IH]; intros sn k Hsn Hk Hd; [lia|]. simpl.
  destruct (sdu_delivered l sn) eqn:Hsnd.
  - destruct k as [|k].
    { rewrite Z.add_0_r, Z.mod_small in Hd by lia. congruence. }
    rewrite Z.rem_mod_nonneg by lia.
    assert (Hstep : forall i, ((sn + 1) mod M + Z.of_nat i) mod M = (sn + Z.of_nat (S i)) mod M).
    { intros i. rewrite Zplus_mod_idemp_l. f_equal. lia. }
    destruct (IH ((sn + 1) mod M) k) as (j & Hj & Hs & Hdj & Hbefore).
    { apply Z.mod_pos_bound; lia. } { lia. } { by rewrite Hstep. }
    exists (S j). rewrite Hstep in Hs, Hdj. split_and!; [lia|done..|].
    intros [|i] Hi; [by rewrite Z.add_0_r, Z.mod_small by lia|].
    rewrite <- Hstep. apply Hbefore. lia.
  - exists 0%nat. rewrite Z.add_0_r, Z.mod_small by lia. split_and!; [lia|done..|lia].
Qed.

Lemma discard_outside_spec l e :
  exists c pre post, l = pre ++ post /\
    Forall (fun p => 0 <= sn_compare_rx e (pdu_sn p) (um_rx_next_highest e)) pre /\
    match post with
    | [] => True
    | p :: _ => sn_compare_rx e (pdu_sn p) (um_rx_next_highest e) < 0
    end /\
    discard_outside l e = {| e with um_common := c; um_rx_list := post;
                                    um_rx_size := um_rx_size e - zsum pdu_size pre |}.
Proof.
  revert e. induction l as [|p l IH]; intros e; simpl.
  - exists (um_common e), [], []. split_and!; try done. simpl. rewrite Z.sub_0_r. by destruct e.
  - destruct (0 <=? _) eqn:Hc.
    + match goal with |- context [discard_outside l ?e1] =>
        destruct (IH e1) as (c & pre & post & -> & Hpre & Hpost & ->) end.
      exists c, (p :: pre), post. split_and!; [done|constructor; [lia|done]|done|].
      simpl. f_equal. lia.
    + exists (um_common e), [], (p :: l). split_and!; try done; try lia.
      simpl. rewrite Z.sub_0_r. by destruct e.
Qed.

Lemma discard_before_spec l e :
  exists c pre post, l = pre ++ post /\
    Forall (fun p => sn_compare_rx e (pdu_sn p) (um_rx_next_reassembly e) < 0) pre /\
    match post with
    | [] => True
    | p :: _ => 0 <= sn_compare_rx e (pdu_sn p) (um_rx_next_reassembly e)
    end /\
    discard_before l e = {| e with um_common := c; um_rx_list := post |}.
Proof.
  revert e. induction l as [|p l IH]; intros e; simpl.
  - exists (um_common e), [], []. split_and!; done.
  - destruct (_ <? 0) eqn:Hc.
    + match goal with |- context [discard_before l ?e1] =>
        destruct (IH e1) as (c & pre & post & -> & Hpre & Hpost & ->) end.
      exists c, (p :: pre), post. split_and!; [done|constructor; [lia|done]|done|done].
    + exists (um_common e), [], (p :: l). split_and!; try done; lia.
Qed.

(** ** The invariant of the receiver *)

Definition pdu_ok (p : nr_rlc_pdu) : Prop :=
  0 <= pdu_so p /\ (pdu_is_first p = true <-> pdu_so p = 0) /\
  pdu_is_first p && pdu_is_last p = false /\
  match pdu_data p with
  | Some d => zlen d = pdu_size p /\ 0 < pdu_size p
  | None => pdu_size p = 0
  end.

(** Everything but the state of [t_Reassembly]: sequence numbers are in range,
    [rx_next_reassembly] is between the lower edge of the window and
    [rx_next_highest], the stored segments are well formed, inside of the
    window, and ordered by position and offset. *)
Record um_rx_inv0 (e : nr_rlc_entity_um) : Prop := {
  inv_cfg : um_cfg e;
  inv_nh : sn_ok e (um_rx_next_highest e);
  inv_nr : sn_ok e (um_rx_next_reassembly e);
  inv_nr_pos : modulus_rx e (um_rx_next_reassembly e) <= um_window_size e;
  inv_tt : sn_ok e (um_rx_timer_trigger e);
  inv_ok : Forall pdu_ok (um_rx_list e);
  inv_win : Forall (fun p => sn_ok e (pdu_sn p) /\ modulus_rx e (pdu_sn p) < um_window_size e)
              (um_rx_list e);
  inv_sorted : StronglySorted (pdu_le (modulus_rx e)) (um_rx_list e)
}.

(** While [t_Reassembly] runs, its trigger is after [rx_next_reassembly] and
    not after [rx_next_highest]. *)
Record um_rx_inv (e : nr_rlc_entity_um) : Prop := {
  inv_base : um_rx_inv0 e;
  inv_timer : um_t_reassembly_start e <> 0 ->
    modulus_rx e (um_rx_next_reassembly e) < modulus_rx e (um_rx_timer_trigger e)
      <= um_window_size e
}.

(** A list in which some segments have been processed. *)
Definition some_processed : list nr_rlc_pdu -> list nr_rlc_pdu -> Prop :=
  Forall2 (fun p q => q = p \/ q = processed p).

Lemma some_processed_refl l : some_processed l l.
Proof. apply Forall_Forall2_diag, Forall_forall. by left. Qed.

Lemma pdu_ok_processed p : pdu_ok p -> pdu_ok (processed p).
Proof. intros (? & ? & ? & _). by split_and!. Qed.

Lemma some_processed_forall (P : nr_rlc_pdu -> Prop) l l' :
  (forall p, P p -> P (processed p)) -> some_processed l l' -> Forall P l -> Forall P l'.
Proof.
  intros HP Hl. induction Hl as [|p q l l' [->| ->] Hl IH]; intros Hall; [done|..];
    inversion Hall; subst; constructor; auto.
Qed.

Lemma some_processed_sorted pos l l' :
  some_processed l l' -> StronglySorted (pdu_le pos) l -> StronglySorted (pdu_le pos) l'.
Proof.
  intros Hl. induction Hl as [|p q l l' Hpq Hl IH]; intros Hs; [done|].
  inversion Hs as [|? ? Hs' Hall]; subst. constructor; [by apply IH|].
  assert (Forall (pdu_le pos p) l') as H.
  { eapply some_processed_forall; [|done..]. done. }
  destruct Hpq as [->| ->]; [done|]. eapply Forall_impl; [exact H|]. done.
Qed.

Lemma reassemble_one_ok p r :
  pdu_ok p -> exists r', reassemble_one p r = Ok r' /\ ra_rx_size r' = ra_rx_size r - pdu_size p.
Proof.
  intros (Hso & _ & _ & Hd). unfold reassemble_one. cbv zeta.
  destruct (negb _ && _) eqn:Hb; simpl; [|eauto].
  bool_hyps. destruct (pdu_data p) as [d|]; [|lia]. destruct Hd as [Hd _]. simpl.
  rewrite buf_read_ok by lia. simpl. eauto.
Qed.

Lemma reassemble_loop_ok sn l r :
  Forall pdu_ok l ->
  exists l' r', reassemble_loop sn l r = Ok (l', r') /\ some_processed l l' /\
    ra_rx_size r' - zsum pdu_size l' = ra_rx_size r - zsum pdu_size l.
Proof.
  intros Hok. revert r. induction Hok as [|p l Hp Hok IH]; intros r; simpl.
  - eexists _, _. split_and!; [done|constructor|done].
  - destruct (negb _).
    + eexists _, _. split_and!; [done|apply some_processed_refl|done].
    + destruct (reassemble_one_ok p r Hp) as (r1 & -> & Hr1). simpl.
      destruct (IH r1) as (l' & r' & -> & Hl & Hr). simpl.
      eexists _, _. split_and!; [done|by constructor; [right|]|]. simpl. lia.
Qed.

Lemma reassemble_at_ok sn l r :
  Forall pdu_ok l -> Exists (fun p => pdu_sn p = sn) l ->
  exists l' r', reassemble_at sn l r = Ok (l', r') /\ some_processed l l' /\
    ra_rx_size r' - zsum pdu_size l' = ra_rx_size r - zsum pdu_size l.
Proof.
  intros Hok Hex. induction Hok as [|p l Hp Hok IH]; [by inversion Hex|]. cbn [reassemble_at].
  destruct (Z.eqb_spec (pdu_sn p) sn) as [Heq|Hne]; cbn [negb].
  - apply reassemble_loop_ok. by constructor.
  - destruct IH as (l' & r' & Hr & Hl & Hs); [by inversion Hex|]. rewrite Hr. simpl.
    eexists _, _. split_and!; [done|by constructor; [left|]|]. simpl. lia.
Qed.

Lemma sdu_full_in l sn : sdu_full l sn = true -> Exists (fun p => pdu_sn p = sn) l.
Proof.
  unfold sdu_full. destruct (from_sn_app sn l) as (pre & Hl & _ & Hhd).
  destruct (from_sn sn l) as [|p l'] eqn:He; [done|]. intros _.
  rewrite Hl. apply Exists_app. right. by constructor.
Qed.

(** An SDU of which only one segment is stored, at the end, is not full. *)
Lemma sdu_full_single l p :
  Forall (fun q => pdu_sn q <> pdu_sn p) l -> pdu_ok p -> pdu_data p <> None ->
  sdu_full (l ++ [p]) (pdu_sn p) = false.
Proof.
  intros Hne (Hso & Hf & Hfl & _) Hd. unfold sdu_full.
  assert (from_sn (pdu_sn p) (l ++ [p]) = [p]) as ->.
  { induction Hne as [|q l Hq Hne IH]; simpl; [by rewrite Z.eqb_refl|].
    by rewrite (proj2 (Z.eqb_neq _ _)). }
  destruct p as [n [d|] sz so f la]; [|done]. simpl in *. rewrite Z.eqb_refl. simpl.
  destruct (-1 + 1 <? so) eqn:Hlt; [done|]. destruct la; [|done].
  destruct f; [done|]. assert (so = 0) by lia. destruct Hf as [_ Hf]. by specialize (Hf H).
Qed.

Lemma list_add_last cmp l p :
  Forall (fun q => cmp (pdu_sn q) (pdu_sn p) <= 0 /\ pdu_sn q <> pdu_sn p) l ->
  nr_rlc_pdu_list_add cmp l p = l ++ [p].
Proof.
  induction 1 as [|q l [Hc Hn] Hl IH]; [done|]. simpl.
  rewrite (proj2 (Z.ltb_ge _ _)), (proj2 (Z.eqb_neq _ _)) by done. simpl. by rewrite IH.
Qed.

(** [rx_next_highest] is not delivered: it is outside of the window. *)
Lemma next_highest_not_delivered e :
  um_rx_inv0 e -> sdu_delivered (um_rx_list e) (um_rx_next_highest e) = false.
Proof.
  intros [Hc Hnh _ _ _ _ Hwin _]. apply not_true_is_false. intros (p & Hp & Hsn & _)%sdu_delivered_in.
  rewrite Forall_forall in Hwin. destruct (Hwin p Hp) as [_ Hlt].
  rewrite Hsn, pos_next_highest in Hlt by done. lia.
Qed.

Lemma um_skip_delivered_ok e sn :
  um_rx_inv0 e -> sn_ok e sn -> modulus_rx e sn <= um_window_size e ->
  exists n, um_skip_delivered e sn = Ok n /\ sn_ok e n /\
    modulus_rx e sn <= modulus_rx e n <= um_window_size e /\
    sdu_delivered (um_rx_list e) n = false.
Proof.
  intros Hinv Hsn Hpos. pose proof (next_highest_not_delivered e Hinv) as Hnd.
  destruct Hinv as [Hc Hnh _ _ _ _ _ _]. pose proof (cfg_window_pos e Hc). pose proof (cfg_window e Hc).
  pose proof (pos_range e Hc Hnh sn Hsn) as Hr.
  set (k := um_window_size e - modulus_rx e sn).
  assert (Hk : (sn + k) mod um_sn_modulus e = um_rx_next_highest e).
  { apply (pos_inj e); [done..|unfold sn_ok; apply Z.mod_pos_bound; lia|done|].
    rewrite pos_add_small, pos_next_highest by (done || lia). lia. }
  destruct (skip_delivered_spec (um_rx_list e) (um_sn_modulus e) sn (Z.to_nat k)
    (Z.to_nat (um_sn_modulus e))) as (j & Hj & Hs & Hd & _).
  { lia. } { done. } { lia. } { rewrite Z2Nat.id by lia. by rewrite Hk. }
  exists ((sn + Z.of_nat j) mod um_sn_modulus e).
  rewrite pos_add_small by (done || lia).
  split_and!; [done|apply Z.mod_pos_bound; lia|lia|lia|done].
Qed.

(** ** One step of the receiver keeps the invariant *)

(** [rx_size] minus the bytes that are really stored. *)
Definition um_rx_excess (e : nr_rlc_entity_um) : Z := um_rx_size e - zsum pdu_size (um_rx_list e).

Ltac inv0_same H :=
  let Hc := fresh in
  destruct H as [Hc]; destruct Hc; constructor; try (constructor; done); try done.

Lemma reassemble_and_deliver_ok e sn :
  um_rx_inv0 e -> Exists (fun p => pdu_sn p = sn) (um_rx_list e) ->
  exists e' ev, reassemble_and_deliver e sn = Ok (e', ev) /\ um_rx_inv0 e' /\
    um_rx_excess e' = um_rx_excess e /\
    um_rx_next_reassembly e' = um_rx_next_reassembly e.
Proof.
  intros Hinv Hex. unfold reassemble_and_deliver.
  destruct (reassemble_at_ok sn (um_rx_list e) (mk_reass [] false (um_rx_size e)))
    as (l' & r' & Hr & Hl & Hs); [apply Hinv|done|]. rewrite Hr. cbn [rbind ra_rx_size] in *.
  set (e1 := {| e with um_rx_list := l'; um_rx_size := ra_rx_size r' |}).
  assert (Hinv1 : um_rx_inv0 e1).
  { inv0_same Hinv; unfold e1; cbn [um_rx_list].
    - eapply some_processed_forall; [apply pdu_ok_processed|done..].
    - eapply some_processed_forall; [|done..]. done.
    - by eapply some_processed_sorted. }
  destruct (ra_bad r').
  - eexists _, _. split_and!; [done|done| |done]. unfold um_rx_excess. simpl. lia.
  - eexists _, _. split_and!; [done| | |done].
    + inv0_same Hinv1.
    + unfold um_rx_excess. simpl. lia.
Qed.

(** The window moves up to just after [x]: what is left of the list is inside
    of the new window and still ordered. *)
Lemma window_move_list e e' x l p pre post :
  um_rx_inv0 e -> um_cfg e' -> um_sn_modulus e' = um_sn_modulus e ->
  um_rx_next_highest e' = Z.rem (x + 1) (um_sn_modulus e) ->
  um_rx_list e = l -> pdu_sn p = x -> sn_ok e x -> um_window_size e <= modulus_rx e x ->
  l ++ [p] = pre ++ post ->
  match post with
  | [] => True
  | q :: _ => modulus_rx e' (pdu_sn q) < um_window_size e
  end ->
  Forall (fun q => sn_ok e' (pdu_sn q) /\ modulus_rx e' (pdu_sn q) < um_window_size e') post /\
  StronglySorted (pdu_le (modulus_rx e')) post.
Proof.
  intros Hinv Hc' Hm Hnh' <- <- Hx Hpx Hsplit Hhd.
  destruct Hinv as [Hc Hnh _ _ _ _ Hwin Hs].
  pose proof (cfg_window e Hc). pose proof (cfg_window e' Hc'). pose proof (cfg_window_pos e Hc).
  assert (Hall : Forall (fun q => sn_ok e (pdu_sn q) /\ modulus_rx e (pdu_sn q) <= modulus_rx e (pdu_sn p))
                   (um_rx_list e ++ [p])).
  { apply Forall_app. split; [|constructor; [split; [done|lia]|constructor]].
    eapply Forall_impl; [exact Hwin|]. simpl. intros q [? ?]. split; [done|lia]. }
  assert (Hsorted : StronglySorted (pdu_le (modulus_rx e)) (um_rx_list e ++ [p])).
  { clear Hsplit Hall. induction Hs as [|q l Hs IH Hq]; [repeat constructor|].
    inversion Hwin as [|? ? [Hqok Hqw] Hwin']; subst. simpl. constructor; [by apply IH|].
    apply Forall_app. split; [done|]. constructor; [|constructor]. left. lia. }
  rewrite Hsplit in Hall, Hsorted. apply Forall_app in Hall as [_ Hall].
  apply sorted_app_r in Hsorted.
  set (s := modulus_rx e (pdu_sn p) - um_window_size e + 1).
  pose proof (pos_range e Hc Hnh _ Hx) as Hrx.
  assert (Hshift : forall q, sn_ok e (pdu_sn q) -> modulus_rx e (pdu_sn q) <= modulus_rx e (pdu_sn p) ->
    modulus_rx e' (pdu_sn q) = (modulus_rx e (pdu_sn q) - s) mod um_sn_modulus e).
  { intros q Hq _. rewrite (pos_shift e e' (pdu_sn p)) by done. f_equal. lia. }
  destruct post as [|q0 post]; [by repeat constructor|].
  assert (Hq0 : s <= modulus_rx e (pdu_sn q0)).
  { inversion Hall as [|? ? [Hok Hle] _]; subst. rewrite Hshift in Hhd by done.
    pose proof (pos_range e Hc Hnh _ Hok).
    destruct (Z.le_gt_cases s (modulus_rx e (pdu_sn q0))) as [?|Hlt]; [done|].
    rewrite <- (Z.mod_add _ 1), Z.mod_small in Hhd by lia. lia. }
  assert (Hge : Forall (fun q => s <= modulus_rx e (pdu_sn q)) (q0 :: post)).
  { constructor; [done|]. inversion Hsorted as [|? ? _ Hq]; subst.
    eapply Forall_impl; [exact Hq|]. intros q [?|[Heq _]]; [lia|]. by rewrite <- Heq. }
  assert (Hpos : Forall (fun q => sn_ok e (pdu_sn q) /\
      modulus_rx e' (pdu_sn q) = modulus_rx e (pdu_sn q) - s /\
      modulus_rx e (pdu_sn q) <= modulus_rx e (pdu_sn p)) (q0 :: post)).
  { apply Forall_forall. intros q Hq. rewrite Forall_forall in Hall, Hge.
    destruct (Hall q Hq) as [Hok Hle]. specialize (Hge q Hq).
    split_and!; [done| |done]. rewrite Hshift by done. apply Z.mod_small. lia. }
  split.
  - eapply Forall_impl; [exact Hpos|]. intros q (Hok & Heq & Hle). unfold sn_ok in *.
    rewrite Hm, Heq. lia.
  - clear Hall Hge Hhd Hq0 Hsplit. induction Hsorted as [|q l Hsl IH Hq]; [constructor|].
    inversion Hpos as [|? ? (Hok & Heq & Hle) Hpos']; subst. constructor; [by apply IH|].
    apply Forall_forall. intros r Hr. rewrite Forall_forall in Hq, Hpos'.
    destruct (Hpos' r Hr) as (_ & Heqr & _). destruct (Hq r Hr) as [?|?]; [left; lia|by right].
Qed.

(** The segment just stored is inside of the window. *)
Lemma reception_update_in e x :
  um_rx_inv0 e -> Exists (fun p => pdu_sn p = x) (um_rx_list e) -> sn_ok e x ->
  modulus_rx e x < um_window_size e ->
  exists e' ev, reception_update e x = Ok (e', ev) /\ um_rx_inv0 e' /\
    um_rx_excess e' = um_rx_excess e.
Proof.
  intros Hinv Hex Hx Hpx. unfold reception_update.
  destruct (sdu_full _ _).
  - destruct (reassemble_and_deliver_ok e x Hinv Hex) as (e1 & ev & -> & Hinv1 & Hexc & Hnr).
    cbn [rbind]. case_bool_; [|by eauto].
    destruct (um_skip_delivered_ok e1 (um_rx_next_reassembly e1)) as (n & -> & Hn & Hpn & _);
      [done|apply Hinv1|apply Hinv1|]. cbn [rbind].
    eexists _, _. split_and!; [done| |done]. inv0_same Hinv1. apply Hpn.
  - pose proof (pos_next_highest e (inv_cfg e Hinv) (inv_nh e Hinv)).
    unfold sn_compare_rx. rewrite (proj2 (Z.leb_gt _ _)) by lia. by eauto.
Qed.

(** The lower end of the window has position 0. *)
Lemma window_low e :
  um_cfg e -> sn_ok e (um_rx_next_highest e) ->
  let low := Z.rem (um_rx_next_highest e - um_window_size e + um_sn_modulus e) (um_sn_modulus e) in
  sn_ok e low /\ modulus_rx e low = 0.
Proof.
  intros Hc Hnh low. pose proof (cfg_window e Hc). pose proof (cfg_window_pos e Hc).
  assert (sn_ok e low) as Hlo by (apply (sn_ok_rem e Hc); unfold sn_ok in *; lia).
  split; [done|]. rewrite modulus_rx_mod by done. subst low.
  unfold sn_ok in Hnh. rewrite Z.rem_mod_nonneg by lia.
  rewrite <- Z.add_sub_swap, <- Z.add_sub_assoc, Zplus_mod_idemp_l.
  replace (_ + (_ - _)) with (um_sn_modulus e) by lia. apply Z.mod_same. lia.
Qed.

(** The segment just stored moves the window. *)
Lemma reception_update_out e p size :
  um_rx_inv0 e -> pdu_ok p -> pdu_data p <> None -> sn_ok e (pdu_sn p) ->
  um_window_size e <= modulus_rx e (pdu_sn p) ->
  let e0 := {| e with um_rx_size := size; um_rx_list := um_rx_list e ++ [p] |} in
  exists e' ev, reception_update e0 (pdu_sn p) = Ok (e', ev) /\ um_rx_inv0 e' /\
    um_rx_excess e' = um_rx_excess e0.
Proof.
  intros Hinv Hp Hd Hx Hpx e0. unfold reception_update.
  destruct Hinv as [Hc Hnh Hnr Hnrp Htt Hok Hwin Hs] eqn:Heq; clear Heq.
  pose proof (pos_next_highest e Hc Hnh) as Hpnh.
  pose proof (cfg_window e Hc). pose proof (cfg_window_pos e Hc).
  assert (Hne : Forall (fun q => pdu_sn q <> pdu_sn p) (um_rx_list e)).
  { eapply Forall_impl; [exact Hwin|]. intros q [_ Hq] Heq. rewrite Heq in Hq. lia. }
  assert (sdu_full (um_rx_list e0) (pdu_sn p) = false) as -> by by apply sdu_full_single.
  assert ((0 <=? sn_compare_rx e0 (pdu_sn p) (um_rx_next_highest e0)) = true) as ->.
  { apply Z.leb_le. change (0 <= modulus_rx e (pdu_sn p) - modulus_rx e (um_rx_next_highest e)). lia. }
  cbv zeta.
  set (e1 := {| e0 with um_rx_next_highest := Z.rem (pdu_sn p + 1) (um_sn_modulus e0) |}).
  assert (Hc1 : um_cfg e1) by (destruct Hc; by constructor).
  assert (Hnh1 : sn_ok e1 (um_rx_next_highest e1)).
  { apply (sn_ok_rem e Hc). unfold sn_ok in Hx. lia. }
  pose proof (pos_next_highest e1 Hc1 Hnh1) as Hpnh1.
  destruct (discard_outside_spec (um_rx_list e1) e1) as (c & pre & post & Hl & Hpre & Hpost & ->).
  set (e2 := {| e1 with um_common := c; um_rx_list := post;
                        um_rx_size := um_rx_size e1 - zsum pdu_size pre |}).
  assert (Hexc : um_rx_excess e2 = um_rx_excess e0).
  { unfold um_rx_excess. change (um_rx_list e0) with (um_rx_list e1). rewrite Hl, zsum_app.
    simpl. lia. }
  destruct (window_move_list e e1 (pdu_sn p) (um_rx_list e) p pre post) as [Hwin2 Hs2]; try done.
  { destruct post; [done|]. change (um_window_size e1) with (um_window_size e) in Hpnh1.
    unfold sn_compare_rx in Hpost. lia. }
  assert (Hok2 : Forall pdu_ok post).
  { assert (Forall pdu_ok (um_rx_list e1)) as H2 by (apply Forall_app; split; [done|by constructor]).
    rewrite Hl in H2. by apply Forall_app in H2 as [_ ?]. }
  assert (Hinv2 : forall nr, sn_ok e1 nr -> modulus_rx e1 nr <= um_window_size e1 ->
            um_rx_inv0 {| e2 with um_rx_next_reassembly := nr |}).
  { intros nr Hnro Hnrw. constructor; done || (destruct Hc1; constructor; done). }
  set (b := 0 <=? sn_compare_rx e2 _ _). destruct b eqn:Hb.
  - set (low := Z.rem _ _).
    assert (Hlow : sn_ok e1 low /\ modulus_rx e1 low = 0) by exact (window_low e1 Hc1 Hnh1).
    destruct Hlow as [Hlow Hlow0].
    destruct (um_skip_delivered_ok {| e2 with um_rx_next_reassembly := low |} low)
      as (n & Hn & Hno & Hpn & _).
    { apply Hinv2; [done|]. change (um_window_size e1) with (um_window_size e). lia. }
    { done. }
    { change (modulus_rx e1 low <= um_window_size e). lia. }
    change (um_skip_delivered _ low) with (um_skip_delivered e2 low) in Hn. rewrite Hn. cbn [rbind].
    eexists _, _. split_and!; [done| |done]. apply Hinv2; [done|apply Hpn].
  - eexists _, _. split_and!; [done| |done].
    change e2 with {| e2 with um_rx_next_reassembly := um_rx_next_reassembly e |}.
    apply Hinv2; [done|]. subst b. unfold sn_compare_rx in Hb.
    change (modulus_rx e2) with (modulus_rx e1) in Hb. simpl in Hb, Hpnh1 |- *. lia.
Qed.

Lemma pos_next_reassembly e :
  um_rx_inv0 e ->
  0 < sn_compare_rx e (um_rx_next_highest e) (Z.rem (um_rx_next_reassembly e + 1) (um_sn_modulus e)) \/
  um_rx_next_highest e = Z.rem (um_rx_next_reassembly e + 1) (um_sn_modulus e) \/
  um_rx_next_highest e = um_rx_next_reassembly e + 1 ->
  modulus_rx e (um_rx_next_reassembly e) < um_window_size e.
Proof.
  intros [Hc Hnh Hnr Hp _ _ _ _] H. pose proof (pos_next_highest e Hc Hnh) as Hpnh.
  pose proof (cfg_window e Hc). pose proof (cfg_window_pos e Hc).
  destruct (Z.eq_dec (modulus_rx e (um_rx_next_reassembly e)) (um_window_size e)) as [Heq|]; [|lia].
  assert (um_rx_next_reassembly e = um_rx_next_highest e) as Hnn by (apply (pos_inj e); (done || lia)).
  exfalso. unfold sn_ok in *. destruct H as [H|[H|H]]; [| |lia].
  - unfold sn_compare_rx in H. rewrite Z.rem_mod_nonneg, pos_add_small in H by (unfold sn_ok; done || lia).
    lia.
  - rewrite Z.rem_mod_nonneg, Hnn in H by lia.
    rewrite <- (Z.mod_small (um_rx_next_highest e) (um_sn_modulus e)) in H at 1 by lia.
    apply mod_eq_close in H; lia.
Qed.

Ltac inv_same H := let H0 := fresh in
  destruct H as [H0 ?]; constructor; [inv0_same H0|cbn; try done].

Lemma timer_update_ok e :
  um_rx_inv0 e -> um_rx_inv (timer_update e) /\ um_rx_excess (timer_update e) = um_rx_excess e.
Proof.
  intros Hinv. pose proof (pos_next_reassembly e Hinv) as Hnr.
  pose proof (pos_next_highest e (inv_cfg e Hinv) (inv_nh e Hinv)) as Hpnh.
  assert (Hstart : forall e1 : nr_rlc_entity_um, modulus_rx e1 = modulus_rx e ->
    (0 <? sn_compare_rx e1 (um_rx_next_highest e) (Z.rem (um_rx_next_reassembly e + 1) (um_sn_modulus e)))
    || ((um_rx_next_highest e =? Z.rem (um_rx_next_reassembly e + 1) (um_sn_modulus e))
        && sdu_has_missing_bytes (um_rx_list e) (um_rx_next_reassembly e)) = true ->
    modulus_rx e (um_rx_next_reassembly e) < modulus_rx e (um_rx_next_highest e) <= um_window_size e).
  { intros e1 Hm Hb. rewrite Hpnh. split; [|lia]. apply Hnr. unfold sn_compare_rx in *. rewrite Hm in Hb. lia. }
  unfold timer_update. cbv zeta. set (stop := negb _ && _). destruct stop eqn:Hstop; cbn [um_t_reassembly_start].
  - case_bool_; (split; [|done]); (constructor; [inv0_same Hinv|]); [|done].
    intros _. match goal with H : (_ =? 0) && _ = true |- _ =>
      exact (Hstart _ eq_refl (proj2 (proj1 (andb_true_iff _ _) H))) end.
  - case_bool_; (split; [|done]); (constructor; [inv0_same Hinv|]).
    + intros _. bool_hyps. by apply (Hstart e eq_refl).
    + intros Hrun. subst stop. unfold sn_compare_rx in *. lia.
Qed.

Lemma reception_actions_ok e x p size :
  um_rx_inv0 e -> pdu_ok p -> pdu_data p <> None -> pdu_sn p = x -> sn_ok e x ->
  let e0 := {| e with um_rx_size := size;
                      um_rx_list := nr_rlc_pdu_list_add (sn_compare_rx e) (um_rx_list e) p |} in
  exists e' ev, reception_actions e0 x = Ok (e', ev) /\ um_rx_inv e' /\
    um_rx_excess e' = um_rx_excess e0.
Proof.
  intros Hinv Hp Hd <- Hx e0. unfold reception_actions.
  assert (exists e' ev, reception_update e0 (pdu_sn p) = Ok (e', ev) /\ um_rx_inv0 e' /\
    um_rx_excess e' = um_rx_excess e0) as (e' & ev & -> & Hinv' & Hexc).
  { destruct (Z.lt_ge_cases (modulus_rx e (pdu_sn p)) (um_window_size e)) as [Hlt|Hge].
    - assert (Hperm : um_rx_list e0 ≡ₚ p :: um_rx_list e) by apply (list_add_perm (modulus_rx e)).
      apply reception_update_in; [|rewrite Hperm; by constructor|done..].
      destruct Hinv as [Hc Hnh Hnr Hnrp Htt Hok Hwin Hs].
      constructor; try done; [destruct Hc; by constructor|..].
      + rewrite Hperm. by constructor.
      + rewrite Hperm. constructor; [done|exact Hwin].
      + apply (list_add_sorted (modulus_rx e) (sn_ok e)); [intros; by apply (pos_inj e)| |done].
        constructor; [done|]. eapply Forall_impl; [exact Hwin|]. by intros q [? _].
    - subst e0. rewrite (list_add_last _ (um_rx_list e) p).
      + by apply reception_update_out.
      + pose proof (inv_win e Hinv) as Hwin. eapply Forall_impl; [exact Hwin|].
        intros q [_ Hq]. unfold sn_compare_rx. split; [lia|]. intros Heq. rewrite Heq in Hq. lia. }
  cbn [rbind]. destruct (timer_update_ok e' Hinv') as [? ?].
  eexists _, _. split_and!; [done|done|congruence].
Qed.

Lemma um_rx_inv_stats f e : um_rx_inv e -> um_rx_inv (um_stats f e).
Proof. intros H. inv_same H. Qed.

Lemma um_discard_pdu_ok e size :
  um_rx_inv e ->
  exists e' ev, Ok (um_discard_pdu e size, @nil event) = Ok (e', ev) /\
    um_rx_inv e' /\ um_rx_excess e' = um_rx_excess e.
Proof. intros. eexists _, _. split_and!; [done|by apply um_rx_inv_stats|done]. Qed.

Lemma um_recv_segment_ok e buffer sn so is_first is_last byte :
  um_rx_inv e -> sn_ok e sn -> 0 <= so -> (is_first = true <-> so = 0) ->
  is_first && is_last = false -> 0 <= byte ->
  exists e' ev, um_recv_segment e buffer sn so is_first is_last byte = Ok (e', ev) /\
    um_rx_inv e' /\ um_rx_excess e' = um_rx_excess e.
Proof.
  intros Hinv Hsn Hso Hf Hfl Hbyte. unfold um_recv_segment. cbv zeta.
  do 3 (case_bool_; [by apply um_discard_pdu_ok|]).
  rewrite buf_read_ok by lia. cbn [rbind].
  set (data := take _ _). assert (Hlen : zlen data = zlen buffer - byte).
  { subst data. rewrite zlen_take; [lia|]. rewrite zlen_drop by lia. lia. }
  clearbody data. unfold nr_rlc_new_pdu. rewrite <- Hlen, buf_read_all. cbn [rbind pdu_sn].
  set (p := {| pdu_sn := sn |}).
  destruct (reception_actions_ok e sn p (um_rx_size e + zlen data)) as (e' & ev & Hr & Hinv' & Hexc);
    [apply Hinv|split_and!; (done || simpl; lia)|done..|].
  eexists _, _. split_and!; [exact Hr|done|]. rewrite Hexc. unfold um_rx_excess. cbn [um_rx_size um_rx_list].
  rewrite (zsum_perm _ _ _ (list_add_perm (modulus_rx e) (um_rx_list e) p)). simpl. lia.
Qed.

(** A PDU whose SI field is not zero: a segment of an SDU. *)
Definition is_segment (buffer : bytes) : bool :=
  match buffer with
  | [] => true
  | b :: _ => Z.testbit b 7 || Z.testbit b 6
  end.

Definition stats_rxpdu (size : Z) (s : nr_rlc_statistics) : nr_rlc_statistics :=
  {| s with rxpdu_pkts := u32 (rxpdu_pkts s + 1); rxpdu_bytes := u32 (rxpdu_bytes s + size) |}.

(** The three outcomes of [recv_pdu]: the PDU is dropped, it is a whole SDU, or
    a segment whose header is decoded to values in range. *)
Lemma recv_pdu_cases e buffer :
  um_cfg e ->
  let e0 := um_stats (stats_rxpdu (zlen buffer)) e in
  nr_rlc_entity_um_recv_pdu e buffer = Ok (um_discard_pdu e0 (zlen buffer), []) \/
  (is_segment buffer = false /\
   nr_rlc_entity_um_recv_pdu e buffer
   = Ok (um_stats (stats_delivered (zlen buffer - 1)) e0, [deliver_sdu (drop 1 buffer)])) \/
  (is_segment buffer = true /\ exists sn so is_first is_last byte,
   nr_rlc_entity_um_recv_pdu e buffer = um_recv_segment e0 buffer sn so is_first is_last byte /\
   sn_ok e sn /\ 0 <= so /\ (is_first = true <-> so = 0) /\
   is_first && is_last = false /\ 0 <= byte).
Proof.
  intros Hc e0. unfold nr_rlc_entity_um_recv_pdu. cbv zeta.
  change (um_stats _ e) with e0. assert (Hc0 : um_cfg e0) by (destruct Hc; by constructor).
  change (sn_ok e) with (sn_ok e0). clearbody e0. clear Hc e.
  destruct buffer as [|b buffer]; [by left|].
  pose proof (get_bits_ok (nr_rlc_pdu_decoder_init (b :: buffer) (zlen (b :: buffer))) 2) as Hsi.
  rewrite decoder_init_stream in Hsi. destruct Hsi as (d & -> & Hwf & _);
    [apply decoder_init_wf|lia|rewrite zlen_bits_of_bytes, zlen_cons; pose proof (zlen_nonneg buffer); lia|].
  change (take _ _) with [Z.testbit b 7; Z.testbit b 6]. cbn [rbind].
  assert (nr_rlc_pdu_decoder_in_error d = false) as ->.
  { destruct Hwf as (He & _). unfold nr_rlc_pdu_decoder_in_error. by rewrite He. }
  set (si := bits_val _). assert (Hsi : is_segment (b :: buffer) = negb ((Z.land si 2 =? 0) && (Z.land si 1 =? 0))).
  { subst si. cbn [is_segment]. by destruct (Z.testbit b 7), (Z.testbit b 6). }
  rewrite Hsi. set (first := Z.land si 2 =? 0). set (lst := Z.land si 1 =? 0). clearbody first lst. clear Hsi si.
  destruct (first && lst) eqn:Hfl; simpl negb.
  { case_bool_; [by left|right; left]. split; [done|].
    rewrite buf_read_ok by lia. cbn [rbind]. do 4 f_equal. change (Z.to_nat 1) with 1%nat.
    rewrite zlen_cons. apply take_ge. rewrite length_drop. unfold zlen. simpl length. lia. }
  destruct Hc0 as [Hlen Hmod Hw] eqn:Heq; clear Heq.
  assert (exists v d1, (if um_sn_field_length e0 =? 12 then nr_rlc_pdu_decoder_get_bits d 2 else Ok (0, d)) = Ok (v, d1) /\
    (nr_rlc_pdu_decoder_in_error d1 = true \/ (nr_rlc_pdu_decoder_in_error d1 = false /\ dec_wf d1)))
    as (v & d1 & -> & Hd1).
  { destruct (_ =? 12).
    - destruct (get_bits_cases d 2) as (v & d1 & -> & [?|(? & _ & ? & _)]); [done|lia|eauto 6..].
    - eexists _, _. split; [done|right]. split; [|done].
      destruct Hwf as (He & _). unfold nr_rlc_pdu_decoder_in_error. by rewrite He. }
  cbn [rbind]. destruct Hd1 as [->|[-> Hwf1]]; [by left|].
  destruct (get_bits_cases d1 (um_sn_field_length e0)) as (sn & d2 & -> & Hd2); [done|lia|].
  cbn [rbind]. destruct Hd2 as [->|(-> & Hsn & Hwf2 & _)]; [by left|].
  assert (Hsnok : sn_ok e0 sn) by (unfold sn_ok; by rewrite Hmod).
  destruct first.
  { right; right. split; [done|]. eexists _, _, _, _, _. split; [done|]. destruct Hwf2.
    split_and!; (done || lia). }
  destruct (get_bits_cases d2 16) as (so & d3 & -> & Hd3); [done|lia|].
  cbn [rbind]. destruct Hd3 as [->|(-> & Hso & Hwf3 & _)]; [by left|].
  case_bool_; [by left|]. right; right. split; [done|].
  eexists _, _, _, _, _. split; [done|]. destruct Hwf3. split_and!; (done || lia).
Qed.

Lemma recv_pdu_ok e buffer :
  um_rx_inv e ->
  exists e' ev, nr_rlc_entity_um_recv_pdu e buffer = Ok (e', ev) /\
    um_rx_inv e' /\ um_rx_excess e' = um_rx_excess e.
Proof.
  intros Hinv. set (e0 := um_stats (stats_rxpdu (zlen buffer)) e).
  assert (Hinv0 : um_rx_inv e0) by by apply um_rx_inv_stats.
  destruct (recv_pdu_cases e buffer (inv_cfg e (inv_base e Hinv)))
    as [->|[[_ ->]|(_ & sn & so & f & l & byte & -> & Hsn & Hso & Hf & Hfl & Hb)]].
  - by apply (um_discard_pdu_ok e0).
  - eexists _, _. split_and!; [done|by repeat apply um_rx_inv_stats|done].
  - by apply (um_recv_segment_ok e0).
Qed.

(** When [t_Reassembly] expires the list loses a prefix, [rx_size] nothing. *)
Lemma check_t_reassembly_ok e :
  um_rx_inv e ->
  exists e' pre, check_t_reassembly e = Ok e' /\ um_rx_inv e' /\
    um_rx_list e = pre ++ um_rx_list e' /\ um_rx_size e' = um_rx_size e /\
    um_rx_maxsize e' = um_rx_maxsize e /\ um_t_current e' = um_t_current e.
Proof.
  intros Hinv. unfold check_t_reassembly. destruct (_ || _) eqn:Hb.
  { exists e, []. by split_and!. }
  apply orb_false_iff in Hb as [Hrun _]. destruct Hinv as [Hinv Htimer].
  assert (Ht : um_t_reassembly_start e <> 0) by lia. apply Htimer in Ht. clear Htimer.
  cbv zeta. set (e1 := {| e with um_t_reassembly_start := 0 |}).
  destruct (um_skip_delivered_ok e (um_rx_timer_trigger e)) as (n & Hn & Hno & Hpn & _);
    [done|apply Hinv|lia|].
  change (um_skip_delivered e1 (um_rx_timer_trigger e1)) with (um_skip_delivered e (um_rx_timer_trigger e)).
  rewrite Hn. cbn [rbind].
  set (e2 := {| e1 with um_rx_next_reassembly := n |}).
  destruct (discard_before_spec (um_rx_list e2) e2) as (c & pre & post & Hl & Hpre & Hpost & ->).
  set (e3 := {| e2 with um_common := c; um_rx_list := post |}).
  assert (Hinv3 : um_rx_inv0 e3).
  { destruct Hinv as [Hc Hnh Hnr Hnrp Htt Hok Hwin Hs].
    change (um_rx_list e2) with (um_rx_list e) in Hl. rewrite Hl in Hok, Hwin, Hs.
    apply Forall_app in Hok as [_ Hok]. apply Forall_app in Hwin as [_ Hwin].
    apply sorted_app_r in Hs. constructor; try done; [destruct Hc; by constructor|apply Hpn]. }
  pose proof (pos_next_reassembly e3 Hinv3) as Hnr.
  pose proof (pos_next_highest e3 (inv_cfg e3 Hinv3) (inv_nh e3 Hinv3)) as Hpnh.
  case_bool_; eexists _, pre; (split_and!; [done| |done..]).
  - constructor; [inv0_same Hinv3|]. intros _.
    change (modulus_rx e3 (um_rx_next_reassembly e3) < modulus_rx e3 (um_rx_next_highest e3) <= um_window_size e3).
    split; [|lia]. rewrite Hpnh. apply Hnr. lia.
  - constructor; [done|]. by intros [].
Qed.

Lemma set_time_ok e now :
  um_rx_inv e ->
  exists e' pre, nr_rlc_entity_um_set_time e now = Ok e' /\ um_rx_inv e' /\
    um_rx_list e = pre ++ um_rx_list e' /\ um_rx_size e' = um_rx_size e /\
    um_rx_maxsize e' = um_rx_maxsize e.
Proof.
  intros Hinv. unfold nr_rlc_entity_um_set_time.
  destruct (check_t_reassembly_ok {| e with um_t_current := now |}) as (e' & pre & H & ? & ? & ? & ? & _).
  { inv_same Hinv. } eauto 10.
Qed.

Lemma um_rx_inv_new rxm txm t n e :
  new_nr_rlc_entity_um rxm txm t n = Ok e -> um_rx_inv e.
Proof.
  unfold new_nr_rlc_entity_um, assert_. destruct (_ || _) eqn:Hn; [|done]. cbn [rbind].
  destruct (time_average_new _ _) as [avg|]; [|done]. cbn [rbind]. intros [= <-].
  rewrite Z.shiftl_1_l. constructor; [|by intros []].
  assert (n = 6 \/ n = 12) as [-> | ->] by lia; constructor;
    (constructor; vm_compute; (by auto)) || vm_compute; by auto.
Qed.

(** ** Reassembly *)

(** [p] is a segment of the SDU [d]. *)
Definition seg_of (d : bytes) (p : nr_rlc_pdu) : Prop :=
  0 <= pdu_so p /\ 0 < pdu_size p /\ pdu_so p + pdu_size p <= zlen d /\
  pdu_data p = Some (take (Z.to_nat (pdu_size p)) (drop (Z.to_nat (pdu_so p)) d)) /\
  (pdu_is_last p = true <-> pdu_so p + pdu_size p = zlen d).

Definition segs_of (d : bytes) (sn : Z) (l : list nr_rlc_pdu) : Prop :=
  Forall (fun p => pdu_sn p = sn -> seg_of d p) l.

(** The segment [p] of [sn] has the byte [i] of the SDU. *)
Definition has_byte (sn i : Z) (p : nr_rlc_pdu) : Prop :=
  pdu_sn p = sn /\ pdu_so p <= i < pdu_so p + pdu_size p.

Lemma seg_slice (d : bytes) so size k :
  0 <= so -> so + size <= zlen d -> so <= k -> 0 <= size - (k - so) ->
  take (Z.to_nat k) d
    ++ take (Z.to_nat (size - (k - so)))
         (drop (Z.to_nat (k - so)) (take (Z.to_nat size) (drop (Z.to_nat so) d)))
  = take (Z.to_nat (so + size)) d.
Proof.
  intros. replace (so + size) with (k + (so + size - k)) by lia.
  rewrite <- take_drop_middle_Z by lia. f_equal.
  rewrite skipn_firstn_comm, take_take, drop_drop. f_equal; [lia|]. f_equal. lia.
Qed.

Lemma reassemble_one_seg d p last rs :
  seg_of d p -> zlen d <= NR_SDU_MAX -> pdu_so p <= last + 1 <= zlen d ->
  reassemble_one p (mk_reass (take (Z.to_nat (last + 1)) d) false rs)
  = Ok (mk_reass (take (Z.to_nat (new_last_byte p last + 1)) d) false (rs - pdu_size p)).
Proof.
  intros (Hso & Hsz & Hlen & Hd & _) Hmax Hlast. unfold reassemble_one, new_last_byte. cbn [ra_sdu ra_bad ra_rx_size].
  rewrite zlen_take by lia. set (so := last + 1) in *.
  rewrite (proj2 (Z.ltb_ge so (pdu_so p))), (proj2 (Z.ltb_ge NR_SDU_MAX _)) by lia. cbn [negb orb andb].
  destruct (0 <? _) eqn:Hl.
  - rewrite Hd. cbn [of_opt rbind]. rewrite buf_read_ok; [|lia|lia|].
    2:{ rewrite zlen_take; [lia|]. rewrite zlen_drop by lia. lia. }
    cbn [rbind]. rewrite seg_slice by lia. rewrite (proj2 (Z.ltb_lt last _)) by lia.
    do 4 f_equal. lia.
  - cbn [rbind]. rewrite (proj2 (Z.ltb_ge last _)) by lia. done.
Qed.

Lemma reassemble_loop_full d sn l last rs :
  segs_of d sn l -> zlen d <= NR_SDU_MAX -> 0 <= last + 1 <= zlen d ->
  sdu_full_loop sn last l = true \/ last + 1 = zlen d ->
  exists l' rs', reassemble_loop sn l (mk_reass (take (Z.to_nat (last + 1)) d) false rs)
                 = Ok (l', mk_reass d false rs').
Proof.
  intros Hsegs Hmax. revert last rs. induction Hsegs as [|p l Hp Hl IH]; intros last rs Hlast Hfull; simpl.
  - destruct Hfull as [|Heq]; [done|]. rewrite Heq. unfold zlen.
    rewrite Nat2Z.id, firstn_all. eauto.
  - simpl in Hfull. destruct (Z.eqb_spec (pdu_sn p) sn) as [Heq|Hne]; simpl in *.
    2:{ destruct Hfull as [|Heq]; [done|]. rewrite Heq. unfold zlen.
        rewrite Nat2Z.id, firstn_all. eauto. }
    pose proof (Hp Heq) as Hs. pose proof Hs as (Hso & Hsz & Hlen & _ & Hlst).
    assert (Hgap : pdu_so p <= last + 1).
    { destruct Hfull as [Hf|]; [|lia]. destruct (last + 1 <? pdu_so p) eqn:?; [done|lia]. }
    rewrite (reassemble_one_seg d p last rs) by (done || lia). cbn [rbind].
    destruct (IH (new_last_byte p last) (rs - pdu_size p)) as (l' & rs' & ->); [..|cbn [rbind]; eauto].
    + unfold new_last_byte. case_bool_; lia.
    + rewrite (proj2 (Z.ltb_ge _ _)) in Hfull by done. destruct (pdu_is_last p).
      * right. unfold new_last_byte. case_bool_; lia.
      * destruct Hfull as [|Heq']; [by left|right]. unfold new_last_byte. case_bool_; lia.
Qed.

Lemma reassemble_at_from sn l r :
  Exists (fun p => pdu_sn p = sn) l ->
  exists pre, l = pre ++ from_sn sn l /\
    reassemble_at sn l r = (let* (l', r') := reassemble_loop sn (from_sn sn l) r in Ok (pre ++ l', r')) /\
    Forall (fun p => pdu_sn p <> sn) pre.
Proof.
  induction l as [|p l IH]; intros Hex; [by inversion Hex|].
  cbn [reassemble_at from_sn]. destruct (Z.eqb_spec (pdu_sn p) sn) as [|Hne]; cbn [negb].
  - exists []. split_and!; [done| |done]. symmetry. apply rbind_pair_id.
  - destruct IH as (pre & Hl & Hr & Hpre); [by inversion Hex|]. exists (p :: pre).
    split_and!; [by rewrite Hl at 1| |by constructor].
    rewrite Hr. by destruct (reassemble_loop sn (from_sn sn l) r) as [[]|].
Qed.

(** The rest of the list holds every byte of the SDU after [last]. *)
Lemma sdu_full_loop_spec pos d sn q0 l last :
  pdu_sn q0 = sn -> StronglySorted (pdu_le pos) l -> Forall (pdu_le pos q0) l ->
  segs_of d sn l -> -1 <= last < zlen d - 1 ->
  (sdu_full_loop sn last l = true <-> forall i, last < i < zlen d -> Exists (has_byte sn i) l).
Proof.
  intros Hq0 Hs Hafter Hsegs. revert last.
  induction Hs as [|p l Hs IH Hp]; intros last Hlast; simpl.
  { split; [done|]. intros H. specialize (H (last + 1) ltac:(lia)). by inversion H. }
  inversion Hafter as [|? ? Hq0p Hafter']; inversion Hsegs as [|? ? Hseg Hsegs']; subst.
  destruct (Z.eqb_spec (pdu_sn p) (pdu_sn q0)) as [Heq|Hne]; simpl.
  2:{ split; [done|]. intros H. specialize (H (last + 1) ltac:(lia)).
      destruct Hq0p as [Hq0p|[? _]]; [|congruence].
      apply Exists_exists in H as (r & [->|Hr]%elem_of_cons & Hrsn & _); [congruence|].
      rewrite Forall_forall in Hp. destruct (Hp r Hr) as [?|[? _]]; [|congruence].
      rewrite Hrsn in *. lia. }
  pose proof (Hseg Heq) as (Hso & Hsz & Hlen & _ & Hlst).
  destruct (last + 1 <? pdu_so p) eqn:Hgap.
  { split; [done|]. intros H. specialize (H (last + 1) ltac:(lia)).
    apply Exists_exists in H as (r & [->|Hr]%elem_of_cons & Hrsn & ?); [lia|].
    rewrite Forall_forall in Hp. destruct (Hp r Hr) as [?|[? ?]]; [|lia].
    rewrite Hrsn, Heq in *. lia. }
  destruct (pdu_is_last p).
  { split; [|done]. intros _ i Hi. apply Exists_cons_hd. split; [done|lia]. }
  assert (Hnl : pdu_so p + pdu_size p <> zlen d) by (intros H; by apply Hlst in H).
  rewrite IH; [|done|done|unfold new_last_byte; case_bool_; lia].
  split; intros H i Hi.
  - destruct (Z.lt_ge_cases i (pdu_so p + pdu_size p)).
    + apply Exists_cons_hd. split; [done|lia].
    + apply Exists_cons_tl, H. unfold new_last_byte. case_bool_; lia.
  - assert (last < i < zlen d /\ pdu_so p + pdu_size p <= i) as [Hi' ?].
    { revert Hi. unfold new_last_byte. case_bool_; lia. }
    specialize (H i Hi'). inversion H as [? ? [_ Hh]|]; subst; [lia|done].
Qed.

Lemma sdu_full_spec pos d sn l :
  StronglySorted (pdu_le pos) l -> segs_of d sn l -> 0 < zlen d ->
  (sdu_full l sn = true <-> forall i, 0 <= i < zlen d -> Exists (has_byte sn i) l).
Proof.
  intros Hs Hsegs Hd. unfold sdu_full. destruct (from_sn_app sn l) as (pre & Hl & Hpre & Hhd).
  destruct (from_sn sn l) as [|p l'] eqn:He.
  - split; [done|]. intros H. specialize (H 0 ltac:(lia)). rewrite Hl, app_nil_r in H.
    apply Exists_exists in H as (r & Hr & Hrsn & _). rewrite Forall_forall in Hpre. by destruct (Hpre r Hr).
  - assert (Hsegs' : segs_of d sn (p :: l')).
    { unfold segs_of in *. rewrite Hl in Hsegs. by apply Forall_app in Hsegs as [_ ?]. }
    assert (Hs' : StronglySorted (pdu_le pos) (p :: l')) by (rewrite Hl in Hs; by apply sorted_app_r in Hs).
    assert (Heq : sdu_full_loop sn (-1) (p :: l')
      = match p with {| pdu_data := None |} => false | _ => sdu_full_loop sn (-1) (p :: l') end).
    { inversion Hsegs' as [|? ? Hp _]; subst. destruct (Hp eq_refl) as (_ & _ & _ & Hdata & _).
      destruct p. simpl in Hdata. by rewrite Hdata. }
    destruct p as [psn pd psz pso pf pl] eqn:Hpq. rewrite <- Hpq in *.
    assert (match pd with None => false | Some _ => sdu_full_loop sn (-1) (p :: l') end
            = sdu_full_loop sn (-1) (p :: l')) as Hd'.
    { rewrite Hpq in Heq |- *. by destruct pd. }
    transitivity (sdu_full_loop sn (-1) (p :: l') = true).
    { rewrite <- Hd'. rewrite Hpq. by destruct pd. }
    rewrite (sdu_full_loop_spec pos d sn p); [|done|done| |done|lia].
    + split; intros H i Hi.
      * rewrite Hl. apply Exists_app. right. apply H. lia.
      * specialize (H i ltac:(lia)). rewrite Hl in H. apply Exists_app in H as [H|H]; [|done].
        apply Exists_exists in H as (r & Hr & Hrsn & _). rewrite Forall_forall in Hpre. by destruct (Hpre r Hr).
    + inversion Hs'; subst. constructor; [by right|done].
Qed.

(** ** Traces of the receiver *)

Inductive um_rx_op :=
| op_recv_pdu (buffer : bytes)
| op_set_time (now : Z).

Definition um_rx_step (e : nr_rlc_entity_um) (op : um_rx_op) : res (nr_rlc_entity_um * list event) :=
  match op with
  | op_recv_pdu buffer => nr_rlc_entity_um_recv_pdu e buffer
  | op_set_time now => let* e := nr_rlc_entity_um_set_time e now in Ok (e, [])
  end.

Fixpoint um_rx_run (e : nr_rlc_entity_um) (ops : list um_rx_op) : res (nr_rlc_entity_um * list event) :=
  match ops with
  | [] => Ok (e, [])
  | op :: ops' =>
      let* (e1, ev1) := um_rx_step e op in
      let* (e2, ev2) := um_rx_run e1 ops' in
      Ok (e2, ev1 ++ ev2)
  end.

Definition is_recv (op : um_rx_op) : bool := match op with op_recv_pdu _ => true | _ => false end.

(** Bytes the receiver holds. *)
Definition um_rx_stored (e : nr_rlc_entity_um) : Z := zsum pdu_size (um_rx_list e).

Lemma pdu_ok_sizes l : Forall pdu_ok l -> 0 <= zsum pdu_size l.
Proof.
  intros Hok. apply zsum_nonneg. eapply Forall_impl; [exact Hok|].
  intros p (_ & _ & _ & Hp). destruct (pdu_data p); lia.
Qed.

Lemma um_rx_step_ok e op :
  um_rx_inv e ->
  exists e' ev, um_rx_step e op = Ok (e', ev) /\ um_rx_inv e' /\
    um_rx_excess e <= um_rx_excess e' /\ (is_recv op = true -> um_rx_excess e' = um_rx_excess e).
Proof.
  intros Hinv. destruct op as [buffer|now]; simpl.
  - destruct (recv_pdu_ok e buffer Hinv) as (e' & ev & -> & Hinv' & Heq).
    eexists _, _. split_and!; (done || lia).
  - destruct (set_time_ok e now Hinv) as (e' & pre & -> & Hinv' & Hl & Hs & _). cbn [rbind].
    eexists _, _. split_and!; try done. unfold um_rx_excess. rewrite Hl, Hs, zsum_app.
    pose proof (inv_ok e (inv_base e Hinv)) as Hok. rewrite Hl in Hok. apply Forall_app in Hok as [Hpre _].
    apply pdu_ok_sizes in Hpre. lia.
Qed.

Lemma um_rx_run_ok ops e :
  um_rx_inv e ->
  exists e' ev, um_rx_run e ops = Ok (e', ev) /\ um_rx_inv e' /\
    um_rx_excess e <= um_rx_excess e' /\
    (Forall (fun op => is_recv op = true) ops -> um_rx_excess e' = um_rx_excess e).
Proof.
  revert e. induction ops as [|op ops IH]; intros e Hinv; simpl.
  { eexists _, _. by split_and!. }
  destruct (um_rx_step_ok e op Hinv) as (e1 & ev1 & -> & Hinv1 & Hle1 & Heq1). cbn [rbind].
  destruct (IH e1 Hinv1) as (e2 & ev2 & -> & Hinv2 & Hle2 & Heq2). cbn [rbind].
  eexists _, _. split_and!; [done|done|lia|]. inversion 1; subst. rewrite Heq2 by done. by apply Heq1.
Qed.

(** A segment that finds no room is dropped. *)
Lemma um_recv_segment_full e buffer sn so is_first is_last byte :
  um_rx_inv e -> um_rx_maxsize e <= um_rx_excess e ->
  um_recv_segment e buffer sn so is_first is_last byte = Ok (um_discard_pdu e (zlen buffer), []).
Proof.
  intros Hinv Hmax. unfold um_recv_segment. cbv zeta. case_bool_; [done|].
  pose proof (pdu_ok_sizes _ (inv_ok e (inv_base e Hinv))). unfold um_rx_excess in Hmax.
  rewrite (proj2 (Z.ltb_lt _ _)) by lia. done.
Qed.

Definition is_segment_op (op : um_rx_op) : bool :=
  match op with op_recv_pdu buffer => is_segment buffer | op_set_time _ => true end.

Lemma um_rx_step_full e op :
  um_rx_inv e -> um_rx_maxsize e <= um_rx_excess e -> is_segment_op op = true ->
  exists e', um_rx_step e op = Ok (e', []) /\ um_rx_inv e' /\ um_rx_maxsize e' <= um_rx_excess e'.
Proof.
  intros Hinv Hmax Hop. destruct (um_rx_step_ok e op Hinv) as (e' & ev & Hst & Hinv' & Hle & _).
  assert (ev = [] /\ um_rx_maxsize e' = um_rx_maxsize e) as [-> Hm]; [|exists e'; split_and!; (done || lia)].
  destruct op as [buffer|now]; simpl in Hst, Hop.
  - destruct (recv_pdu_cases e buffer (inv_cfg e (inv_base e Hinv)))
      as [Heq|[[? _]|(_ & sn & so & f & l & byte & Heq & _)]]; [|congruence|]; rewrite Heq in Hst.
    + by injection Hst as <- <-.
    + rewrite um_recv_segment_full in Hst by (by try apply um_rx_inv_stats).
      by injection Hst as <- <-.
  - destruct (set_time_ok e now Hinv) as (e1 & pre & Heq & _ & _ & _ & Hmx). rewrite Heq in Hst.
    by injection Hst as <- <-.
Qed.

(** ** Delivery *)

Lemma from_sn_pre sn pre l :
  Forall (fun p => pdu_sn p <> sn) pre -> from_sn sn (pre ++ l) = from_sn sn l.
Proof. induction 1; simpl; [done|]. by rewrite (proj2 (Z.eqb_neq _ _)). Qed.

Lemma reassemble_and_deliver_full e sn d :
  segs_of d sn (um_rx_list e) -> zlen d <= NR_SDU_MAX -> sdu_full (um_rx_list e) sn = true ->
  exists e', reassemble_and_deliver e sn = Ok (e', [deliver_sdu d]) /\
    sdu_delivered (um_rx_list e') sn = true.
Proof.
  intros Hsegs Hmax Hfull. unfold reassemble_and_deliver.
  destruct (reassemble_at_from sn (um_rx_list e) (mk_reass [] false (um_rx_size e)))
    as (pre & Hl & -> & Hpre); [by apply sdu_full_in|].
  unfold sdu_full in Hfull. destruct (from_sn_app sn (um_rx_list e)) as (_ & _ & _ & Hhd).
  destruct (from_sn sn (um_rx_list e)) as [|p l] eqn:Hf; [done|].
  assert (Hsegs' : segs_of d sn (p :: l)).
  { unfold segs_of in *. rewrite Hl in Hsegs. by apply Forall_app in Hsegs as [_ ?]. }
  assert (Hloop : sdu_full_loop sn (-1) (p :: l) = true).
  { destruct p as [? [|] ? ? ? ?]; [exact Hfull|done]. }
  destruct (reassemble_loop_full d sn (p :: l) (-1) (um_rx_size e)) as (l' & rs' & Hr);
    [done|done|pose proof (zlen_nonneg d); lia|by left|].
  change (take (Z.to_nat (-1 + 1)) d) with (@nil Z) in Hr. rewrite Hr. cbn [rbind ra_bad ra_sdu].
  eexists. split; [done|]. simpl in Hr. rewrite (proj2 (Z.eqb_eq _ _)) in Hr by done. simpl in Hr.
  apply rbind_ok in Hr as (r1 & _ & Hr). apply rbind_ok in Hr as ([l1 r2] & _ & [= <- _]).
  unfold sdu_delivered. cbn [um_stats um_rx_list]. rewrite from_sn_pre by done.
  cbn [from_sn processed pdu_sn]. by rewrite (proj2 (Z.eqb_eq _ _)).
Qed.

(** [timer_update] and the second half of [reception_update] leave the list. *)
Lemma timer_update_list e : um_rx_list (timer_update e) = um_rx_list e.
Proof. unfold timer_update. cbv zeta. by repeat case_match. Qed.

Lemma reception_actions_full e sn d :
  um_rx_inv0 e -> segs_of d sn (um_rx_list e) -> zlen d <= NR_SDU_MAX ->
  sdu_full (um_rx_list e) sn = true ->
  exists e', reception_actions e sn = Ok (e', [deliver_sdu d]) /\ um_rx_inv e' /\
    sdu_delivered (um_rx_list e') sn = true.
Proof.
  intros Hinv Hsegs Hmax Hfull. unfold reception_actions, reception_update. rewrite Hfull.
  destruct (reassemble_and_deliver_full e sn d) as (e1 & Hr & Hd); [done..|].
  destruct (reassemble_and_deliver_ok e sn Hinv) as (e1' & ev & Hr' & Hinv1 & _); [by apply sdu_full_in|].
  rewrite Hr in Hr'. injection Hr' as <- <-. rewrite Hr. cbn [rbind].
  case_bool_; cbn [rbind].
  - destruct (um_skip_delivered_ok e1 (um_rx_next_reassembly e1)) as (n & -> & Hn & Hpn & _);
      [done|apply Hinv1|apply Hinv1|]. cbn [rbind].
    eexists. split_and!; [done| |by rewrite timer_update_list].
    apply timer_update_ok. inv0_same Hinv1. apply Hpn.
  - eexists. split_and!; [done|by apply timer_update_ok|by rewrite timer_update_list].
Qed.

Lemma reception_actions_no_event e sn e' ev :
  sdu_full (um_rx_list e) sn = false -> reception_actions e sn = Ok (e', ev) -> ev = [].
Proof.
  intros Hfull. unfold reception_actions, reception_update. rewrite Hfull.
  repeat case_bool_; cbn [rbind]; try (by intros [= _ <-]).
  all: intros ([e1 ev1] & H & [= _ <-])%rbind_ok; by apply rbind_ok in H as (n & _ & [= _ <-]).
Qed.

(** ** Properties *)

(** Whatever PDUs come from the air and whenever the time advances, the
    receiver of a UM entity that was just created never reads out of bounds,
    never fails an assertion, ends each of its loops, and keeps its invariant:
    window variables in range, stored segments inside of the window, in order,
    and a running [t_Reassembly] with its trigger inside of the window. *)
Theorem um_rx_trace_safe rxm txm t n e0 ops :
  new_nr_rlc_entity_um rxm txm t n = Ok e0 ->
  exists e ev, um_rx_run e0 ops = Ok (e, ev) /\ um_rx_inv e.
Proof.
  intros Hnew%um_rx_inv_new. destruct (um_rx_run_ok ops e0 Hnew) as (e & ev & ? & ? & _). eauto.
Qed.

Definition um_new (rxm n : Z) : nr_rlc_entity_um :=
  match new_nr_rlc_entity_um rxm 1000 35 n with
  | Ok e => e
  | Fail _ => mk_um (mk_entity (mk_bstatus 0 0 0) (stats_zero NR_RLC_UM) (mk_ta 0 0 0 [] 0 0 0) false)
                0 0 0 0 0 0 0 0 0 0 0 0 [] 0 0 (mk_seg_list [] None) 0 0
  end.

Lemma um_rx_trace_safe_witness :
  new_nr_rlc_entity_um 18 1000 35 6 = Ok (um_new 18 6) /\
  exists e ev, um_rx_run (um_new 18 6) [op_recv_pdu [0x41; 7; 8]; op_set_time 36; op_recv_pdu [0xff]]
               = Ok (e, ev) /\ um_rx_inv e.
Proof. split; [done|]. by apply (um_rx_trace_safe 18 1000 35 6). Defined.

(** The list test [sdu_full] is exact: for a list ordered as the receiver
    keeps it and segments cut from an SDU [d], it answers true when and only
    when every byte of [d] is held by some segment, in any overlap. *)
Theorem um_sdu_full_exact e sn d :
  um_rx_inv e -> segs_of d sn (um_rx_list e) -> 0 < zlen d ->
  (sdu_full (um_rx_list e) sn = true <->
   forall i, 0 <= i < zlen d -> Exists (has_byte sn i) (um_rx_list e)).
Proof. intros Hinv. apply (sdu_full_spec (modulus_rx e)), Hinv. Qed.

(** The receiver after overlapping segments of the SDU [1;2;3;4;5;6] came out
    of order, under SN 2. *)
Definition um_example_rx (ops : list um_rx_op) : nr_rlc_entity_um :=
  match um_rx_run (um_new 1000 6) ops with Ok (e, _) => e | Fail _ => um_new 1000 6 end.

Lemma um_example_rx_inv ops : um_rx_inv (um_example_rx ops).
Proof.
  assert (um_rx_inv (um_new 1000 6)) as H by by eapply (um_rx_inv_new 1000 1000 35 6).
  unfold um_example_rx. destruct (um_rx_run_ok ops _ H) as (e & ev & -> & He & _). done.
Qed.

(** Segments of that SDU, as the receiver stores them. *)
Definition um_example_seg (so : Z) (data : bytes) : nr_rlc_pdu :=
  mk_pdu 2 (Some data) (zlen data) so (so =? 0) (so + zlen data =? 6).

Lemma um_example_segs_of l :
  Forall (fun p => p = um_example_seg (pdu_so p) (take (Z.to_nat (pdu_size p)) (drop (Z.to_nat (pdu_so p)) [1; 2; 3; 4; 5; 6]))
                   /\ 0 <= pdu_so p /\ 0 < pdu_size p /\ pdu_so p + pdu_size p <= 6) l ->
  segs_of [1; 2; 3; 4; 5; 6] 2 l.
Proof.
  intros H. eapply Forall_impl; [exact H|]. intros p (Hp & Hso & Hsz & Hle) _.
  assert (zlen (take (Z.to_nat (pdu_size p)) (drop (Z.to_nat (pdu_so p)) [1; 2; 3; 4; 5; 6])) = pdu_size p) as Hz.
  { rewrite zlen_take; [done|]. rewrite zlen_drop; change (zlen [1; 2; 3; 4; 5; 6]) with 6; lia. }
  unfold um_example_seg in Hp. rewrite Hz in Hp. rewrite Hp.
  unfold seg_of. cbn [pdu_so pdu_size pdu_data pdu_is_last]. change (zlen [1; 2; 3; 4; 5; 6]) with 6.
  split_and!; try done; lia.
Qed.

Lemma um_sdu_full_exact_witness :
  let e := um_example_rx [op_recv_pdu [0x82; 0; 3; 4; 5; 6]; op_recv_pdu [0xc2; 0; 2; 3; 4]] in
  sdu_full (um_rx_list e) 2 = true <->
  forall i, 0 <= i < 6 -> Exists (has_byte 2 i) (um_rx_list e).
Proof.
  intros e. apply (um_sdu_full_exact e 2 [1; 2; 3; 4; 5; 6]); [apply um_example_rx_inv| |done].
  apply um_example_segs_of. assert (um_rx_list e = [um_example_seg 2 [3; 4]; um_example_seg 3 [4; 5; 6]]) as ->
    by (vm_compute; reflexivity).
  repeat constructor; simpl; lia || done.
Defined.

(** C6. What [reception_actions] does for the SDU a new segment belongs to:
    when all the bytes of the SDU are held it is delivered, exactly, and its
    segments are marked as processed; when one is missing nothing is
    delivered. *)
Theorem um_reassembly_correct e sn d :
  um_rx_inv e -> segs_of d sn (um_rx_list e) -> 0 < zlen d <= NR_SDU_MAX ->
  ((forall i, 0 <= i < zlen d -> Exists (has_byte sn i) (um_rx_list e)) ->
   exists e', reception_actions e sn = Ok (e', [deliver_sdu d]) /\ um_rx_inv e' /\
     sdu_delivered (um_rx_list e') sn = true) /\
  (forall i, 0 <= i < zlen d -> ~ Exists (has_byte sn i) (um_rx_list e) ->
   forall e' ev, reception_actions e sn = Ok (e', ev) -> ev = []).
Proof.
  intros Hinv Hsegs Hd. pose proof (inv_base e Hinv) as Hinv0.
  pose proof (sdu_full_spec (modulus_rx e) d sn _ (inv_sorted e Hinv0) Hsegs ltac:(lia)) as Hspec.
  split.
  - intros Hall%Hspec. by apply reception_actions_full; [..|lia|].
  - intros i Hi Hno e' ev. apply reception_actions_no_event. apply not_true_is_false.
    intros Hf. by apply Hno, Hspec.
Qed.

Lemma um_reassembly_correct_witness :
  let e := {| (um_new 1000 6) with
    um_rx_next_highest := 3;
    um_rx_list := [um_example_seg 0 [1; 2; 3]; um_example_seg 2 [3; 4]; um_example_seg 3 [4; 5; 6]] |} in
  exists e', reception_actions e 2 = Ok (e', [deliver_sdu [1; 2; 3; 4; 5; 6]]) /\ um_rx_inv e' /\
    sdu_delivered (um_rx_list e') 2 = true.
Proof.
  intros e. refine (proj1 (um_reassembly_correct e 2 [1; 2; 3; 4; 5; 6] _ _ _) _).
  - constructor; [|by intros []].
    constructor; try (vm_compute; by auto); try (repeat constructor; vm_compute; by intuition).
  - apply um_example_segs_of. repeat constructor; simpl; lia || done.
  - done.
  - change (zlen [1; 2; 3; 4; 5; 6]) with 6. intros i Hi. destruct (Z.lt_ge_cases i 3).
    + apply Exists_cons_hd. split; [done|]. change (0 <= i < 0 + 3). lia.
    + apply Exists_cons_tl, Exists_cons_tl, Exists_cons_hd. split; [done|]. change (3 <= i < 3 + 3). lia.
Defined.

(** The accounting of the reception buffer over every trace: [rx_size]
    never counts less than the bytes stored, so [rx_maxsize] bounds what is
    held; and it counts them exactly as long as no time is announced, that is
    as long as [t_Reassembly] cannot expire. *)
Theorem um_rx_size_accounting rxm txm t n e0 ops :
  new_nr_rlc_entity_um rxm txm t n = Ok e0 ->
  exists e ev, um_rx_run e0 ops = Ok (e, ev) /\ um_rx_stored e <= um_rx_size e /\
    (Forall (fun op => is_recv op = true) ops -> um_rx_size e = um_rx_stored e).
Proof.
  intros Hnew. pose proof (um_rx_inv_new _ _ _ _ _ Hnew) as Hinv.
  assert (um_rx_excess e0 = 0) as H0.
  { unfold new_nr_rlc_entity_um in Hnew. repeat (apply rbind_ok in Hnew as (? & _ & Hnew)).
    by injection Hnew as <-. }
  destruct (um_rx_run_ok ops e0 Hinv) as (e & ev & Hrun & _ & Hle & Heq). rewrite H0 in Hle, Heq.
  unfold um_rx_excess in *. exists e, ev. split_and!; [done|unfold um_rx_stored; lia|].
  intros Hall%Heq. unfold um_rx_stored. lia.
Qed.

Lemma um_rx_size_accounting_witness :
  let ops := [op_recv_pdu [0x40; 7; 8]; op_recv_pdu [0x41; 7; 8]] in
  new_nr_rlc_entity_um 18 1000 35 6 = Ok (um_new 18 6) /\
  exists e ev, um_rx_run (um_new 18 6) ops = Ok (e, ev) /\ um_rx_stored e <= um_rx_size e /\
    (Forall (fun op => is_recv op = true) ops -> um_rx_size e = um_rx_stored e).
Proof. split; [done|]. by apply (um_rx_size_accounting 18 1000 35 6). Defined.

(** The bytes discarded when [t_Reassembly] expires are not given back to
    [rx_size].  Once the bytes lost this way reach [rx_maxsize], the entity
    drops every segment it receives, however long it waits: from then on no
    trace of segments and time steps delivers anything. *)
Theorem um_rx_size_leak_wedges e ops :
  um_rx_inv e -> um_rx_maxsize e <= um_rx_size e - um_rx_stored e ->
  Forall (fun op => is_segment_op op = true) ops ->
  exists e', um_rx_run e ops = Ok (e', []) /\ um_rx_maxsize e' <= um_rx_size e' - um_rx_stored e'.
Proof.
  intros Hinv Hmax Hops. revert e Hinv Hmax. induction Hops as [|op ops Hop Hops IH]; intros e Hinv Hmax; simpl.
  { eauto. }
  destruct (um_rx_step_full e op Hinv Hmax Hop) as (e1 & -> & Hinv1 & Hmax1). cbn [rbind].
  destruct (IH e1 Hinv1 Hmax1) as (e2 & -> & Hmax2). cbn [rbind]. eauto.
Qed.

(** Two first segments whose SDUs are never completed are enough to wedge an
    entity of 18 bytes; its list is empty by then. *)
Lemma um_rx_size_leak_wedges_witness :
  exists e ev, um_rx_run (um_new 18 6)
      [op_set_time 1; op_recv_pdu [0x40; 1; 2; 3; 4; 5; 6; 7; 8; 9];
       op_recv_pdu [0x41; 1; 2; 3; 4; 5; 6; 7; 8; 9]; op_set_time 37] = Ok (e, ev) /\
    um_rx_list e = [] /\
    exists e', um_rx_run e [op_recv_pdu [0x42; 1; 2; 3]; op_recv_pdu [0x82; 0; 3; 4; 5]] = Ok (e', []) /\
      um_rx_maxsize e' <= um_rx_size e' - um_rx_stored e'.
Proof.
  assert (Hinv : um_rx_inv (um_new 18 6)) by by eapply (um_rx_inv_new 18 1000 35 6).
  match goal with |- exists e ev, um_rx_run _ ?ops = _ /\ _ =>
    destruct (um_rx_run_ok ops _ Hinv) as (e & ev & Hrun & He & _) end.
  exists e, ev. rewrite Hrun. split; [done|].
  assert (um_rx_list e = [] /\ um_rx_maxsize e = 18 /\ um_rx_size e = 18) as (Hl & Hm & Hs).
  { vm_compute in Hrun. injection Hrun as <- _. vm_compute. by auto. }
  split; [done|]. apply um_rx_size_leak_wedges; [done| |by repeat constructor].
  unfold um_rx_stored. rewrite Hl, Hm, Hs. done.
Defined.
