(* ===== verification/RlcUmTx.v ===== *)
(** The transmitter of the NR RLC UM entity: the PDUs it builds, its
    invariant and accounting, and the cases in which bytes are lost. *)

From S2P Require Import Prelude RlcPdu RlcSdu TimeStat RlcEntity RlcUm.

(** ** The header of a PDU *)

(** The fields of a header, with their widths. *)
Definition um_header (sn_len sn so : Z) (is_first is_last : bool) : list (Z * Z) :=
  [(Z.b2z (negb is_first), 1); (Z.b2z (negb is_last), 1)]
  ++ (if is_first && is_last then [(0, 6)]
      else (if sn_len =? 12 then [(0, 2)] else []) ++ [(sn, sn_len)])
  ++ (if negb is_first then [(so, 16)] else []).

Definition seg_header (e : nr_rlc_entity_um) (sn : Z) (seg : nr_rlc_sdu_segment) : list (Z * Z) :=
  um_header (um_sn_field_length e) sn (seg_so seg) (seg_is_first seg) (seg_is_last seg).

Lemma um_put_header_fields e sn seg enc :
  um_put_header e sn seg enc = put_fields enc (seg_header e sn seg).
Proof.
  unfold um_put_header, seg_header, um_header.
  destruct seg as [a s sz so f l]. cbn [seg_is_first seg_is_last seg_so].
  destruct f, l, (um_sn_field_length e =? 12); cbn [negb Z.b2z andb app put_fields];
    repeat (rewrite ?rbind_assoc;
            match goal with |- context [rbind (nr_rlc_pdu_encoder_put_bits ?a ?b ?c) _] =>
              destruct (nr_rlc_pdu_encoder_put_bits a b c) eqn:? end; cbn [rbind] in *;
            repeat match goal with
            | H : nr_rlc_pdu_encoder_put_bits ?a (1 - ?x) ?c = _ |- _ =>
                let y := eval compute in (1 - x) in change (1 - x) with y in H
            | H : nr_rlc_pdu_encoder_put_bits ?a ?x ?c = _ |- context [nr_rlc_pdu_encoder_put_bits ?a ?x ?c] => rewrite H
            end; cbn [rbind]);
    done.
Qed.

Definition um_len_ok (e : nr_rlc_entity_um) : Prop :=
  um_sn_field_length e = 6 \/ um_sn_field_length e = 12.

Lemma seg_header_ok e sn seg :
  um_len_ok e -> 0 <= sn < 2 ^ um_sn_field_length e -> 0 <= seg_so seg < 2 ^ 16 ->
  Forall field_ok (seg_header e sn seg) /\
  zsum snd (seg_header e sn seg) = 8 * compute_pdu_header_size e seg.
Proof.
  intros Hlen Hsn Hso. unfold seg_header, um_header, compute_pdu_header_size.
  destruct seg as [a s sz so f l]. cbn [seg_is_first seg_is_last seg_so] in *.
  assert (Hb : forall b, field_ok (Z.b2z b, 1)) by (intros []; unfold field_ok; simpl; lia).
  assert (field_ok (sn, um_sn_field_length e)) by (unfold field_ok; simpl; destruct Hlen; lia).
  assert (field_ok (so, 16)) by (unfold field_ok; simpl; lia).
  pose proof (Hb true). pose proof (Hb false).
  assert (field_ok (0, 6) /\ field_ok (0, 2)) as [? ?] by (unfold field_ok; simpl; lia).
  destruct f, l, (um_sn_field_length e =? 12) eqn:?; cbn [negb andb app];
    (split; [repeat (apply Forall_cons; split; [done|]); by apply Forall_nil|simpl; destruct Hlen; lia]).
Qed.

Lemma compute_pdu_header_size_range e seg : 1 <= compute_pdu_header_size e seg <= 4.
Proof. unfold compute_pdu_header_size. repeat case_bool_; lia. Qed.

(** [hdr] is the header of [seg] under [sn], for some fields in range. *)
Definition is_header (e : nr_rlc_entity_um) (sn : Z) (seg : nr_rlc_sdu_segment) (hdr : bytes) : Prop :=
  zlen hdr = compute_pdu_header_size e seg /\
  bits_of_bytes hdr = fields_bits (seg_header e sn seg).

Lemma serialize_sdu_ok h e seg s buffer size :
  um_len_ok e -> heap_get h (seg_sdu seg) = Ok s -> 0 <= sdu_sn s < 2 ^ um_sn_field_length e ->
  0 <= seg_so seg < 2 ^ 16 -> 0 <= seg_size seg -> seg_so seg + seg_size seg <= zlen (sdu_data s) ->
  compute_pdu_header_size e seg + seg_size seg <= size <= zlen buffer ->
  exists buffer' hdr, serialize_sdu h e seg buffer size
      = Ok (buffer', compute_pdu_header_size e seg + seg_size seg) /\
    length buffer' = length buffer /\ is_header e (sdu_sn s) seg hdr /\
    take (Z.to_nat (compute_pdu_header_size e seg + seg_size seg)) buffer' = hdr ++ seg_bytes h seg.
Proof.
  intros Hlen Hs Hsn Hso Hsz Hdata Hsize. unfold serialize_sdu, seg_bytes. rewrite Hs. cbn [rbind].
  rewrite um_put_header_fields.
  destruct (seg_header_ok e (sdu_sn s) seg Hlen Hsn Hso) as [Hok Hsum].
  pose proof (compute_pdu_header_size_range e seg).
  destruct (put_fields_ok (seg_header e (sdu_sn s) seg) (nr_rlc_pdu_encoder_init buffer size))
    as (enc & -> & Hwf & Hst & Hp & Hz & Hl); [apply encoder_init_wf; lia|done|unfold enc_pos; cbn [nr_rlc_pdu_encoder_init enc_byte enc_bit enc_size]; lia|].
  unfold enc_pos in Hp. cbn [nr_rlc_pdu_encoder_init enc_byte enc_bit enc_size enc_buffer] in Hp, Hl, Hz. assert (0 <= enc_bit enc < 8) by apply Hwf.
  assert (enc_byte enc = compute_pdu_header_size e seg /\ enc_bit enc = 0) as [Hb Hbit] by lia.
  assert (Hzl : zlen (enc_buffer enc) = zlen buffer) by (unfold zlen; by rewrite Hl).
  cbn [rbind]. rewrite buf_read_ok by lia. cbn [rbind]. set (data := take _ _).
  assert (Hd : zlen data = seg_size seg).
  { subst data. rewrite zlen_take; [done|]. rewrite zlen_drop; lia. }
  destruct (buf_write (enc_buffer enc) (enc_byte enc) data) as [buffer'|] eqn:Hw.
  2:{ unfold buf_write in Hw. by rewrite (proj2 (Z.leb_le 0 _)), (proj2 (Z.leb_le _ (zlen _))) in Hw by lia. }
  pose proof (buf_write_length _ _ _ _ Hw) as Hl'. apply buf_write_inv in Hw as (_ & _ & ->).
  set (hdr := take (Z.to_nat (enc_byte enc)) (enc_buffer enc)) in *.
  assert (Hh : zlen hdr = enc_byte enc) by (apply zlen_take; lia).
  exists (hdr ++ data ++ drop (Z.to_nat (enc_byte enc) + length data) (enc_buffer enc)), hdr.
  cbn [rbind]. unfold is_header. rewrite <- Hb. split_and!; [done|congruence|done|..].
  - rewrite <- Hst at 1. symmetry. apply enc_stream_aligned. done.
  - replace (Z.to_nat _) with (length (hdr ++ data)) by (unfold zlen in *; rewrite length_app; lia).
    by rewrite (app_assoc hdr), take_app_length.
Qed.

(** ** The invariant of the transmitter *)

Definition seg_cost (e : nr_rlc_entity_um) (seg : nr_rlc_sdu_segment) : Z :=
  compute_pdu_header_size e seg + seg_size seg.

Record um_tx_inv (h : rlc_heap) (e : nr_rlc_entity_um) : Prop := {
  txi_len : um_len_ok e;
  txi_mod : um_sn_modulus e = 2 ^ um_sn_field_length e;
  txi_next : 0 <= um_tx_next e < um_sn_modulus e;
  txi_wf : seg_list_wf (um_tx e);
  txi_nodup : NoDup (map seg_sdu (sl_list (um_tx e)));
  txi_live : Forall (seg_live h) (sl_list (um_tx e));
  txi_tail : Forall (fun s => seg_is_first s = true) (tail (sl_list (um_tx e)));
  txi_bs : bs_tx_size (bstatus (um_common e)) = zsum (seg_cost e) (sl_list (um_tx e));
  txi_size : zsum seg_size (sl_list (um_tx e)) <= um_tx_size e
}.

(** The bytes still to send, SDU by SDU. *)
Definition um_tx_pending (h : rlc_heap) (e : nr_rlc_entity_um) : list bytes :=
  map (seg_bytes h) (sl_list (um_tx e)).

(** What leaves for MAC: the PDU of [seg], whose SDU has sequence number [sn]. *)
Lemma um_send_segment_ok h e now seg s buffer size :
  um_len_ok e -> heap_sdus h !! seg_sdu seg = Some s -> 0 <= sdu_sn s < 2 ^ um_sn_field_length e ->
  0 <= seg_so seg < 2 ^ 16 -> 0 <= seg_size seg -> seg_so seg + seg_size seg <= zlen (sdu_data s) ->
  seg_cost e seg <= size <= zlen buffer ->
  exists h' c buffer' hdr,
    um_send_segment h e now seg buffer size
    = Ok (h', {| e with um_common := c;
                        um_tx_size := um_tx_size e - seg_size seg;
                        um_tx_next := if negb (seg_is_first seg) && seg_is_last seg
                                      then Z.rem (um_tx_next e + 1) (um_sn_modulus e) else um_tx_next e |},
          buffer', seg_cost e seg) /\
    bstatus c = bstatus (um_common e) /\ heap_upd (seg_sdu seg) h h' /\ heap_brk h' = heap_brk h /\
    (sdu_free_count s + 1 < sdu_ref_count s ->
     heap_sdus h' !! seg_sdu seg = Some {| s with sdu_free_count := sdu_free_count s + 1 |}) /\
    length buffer' = length buffer /\ is_header e (sdu_sn s) seg hdr /\
    take (Z.to_nat (seg_cost e seg)) buffer' = hdr ++ seg_bytes h seg.
Proof.
  intros Hlen Hs Hsn Hso Hsz Hdata Hsize. unfold um_send_segment.
  set (e1 := if negb (seg_is_first seg) && seg_is_last seg then _ else e).
  assert (He1 : e1 = {| e with um_tx_next := if negb (seg_is_first seg) && seg_is_last seg
    then Z.rem (um_tx_next e + 1) (um_sn_modulus e) else um_tx_next e |}).
  { subst e1. case_bool_; [done|]. by destruct e. }
  assert (serialize_sdu h e1 seg buffer size = serialize_sdu h e seg buffer size) as -> by by rewrite He1.
  pose proof (proj2 (heap_get_lookup _ _ _) Hs) as Hg.
  destruct (serialize_sdu_ok h e seg s buffer size) as (buffer' & hdr & -> & Hl & Hh & Ht); [done..|].
  destruct (free_sdu_segment_ok h seg s Hs) as (h' & r & Hf & Hu & Hb & Hlive).
  cbn [rbind]. rewrite Hg. cbn [rbind]. rewrite Hf. cbn [rbind]. rewrite He1.
  eexists h', _, buffer', hdr. split_and!; [done| |done..].
  cbn [um_stats um_common entity_stats]. unfold entity_sojourn. by case_bool_.
Qed.

(** ** One call of [generate_pdu] *)

(** The entity with the head of its list taken out and its buffer status
    reduced, as [generate_tx_pdu] has it before it looks at the size. *)
Definition um_dequeued (e : nr_rlc_entity_um) (seg : nr_rlc_sdu_segment) (rest : list nr_rlc_sdu_segment)
    : nr_rlc_entity_um :=
  um_bstatus_tx (fun t => t - seg_cost e seg)
    {| e with um_tx := mk_seg_list rest (match rest with [] => None | _ => sl_end (um_tx e) end) |}.

Definition stamped (e : nr_rlc_entity_um) (s : nr_rlc_sdu) : nr_rlc_sdu := {| s with sdu_sn := um_tx_next e |}.

Lemma um_dequeued_ok h e seg rest s :
  um_tx_inv h e -> sl_list (um_tx e) = seg :: rest -> heap_sdus h !! seg_sdu seg = Some s ->
  let h1 := heap_set h (seg_sdu seg) (stamped e s) in
  um_tx_inv h1 (um_dequeued e seg rest) /\ map (seg_bytes h1) rest = map (seg_bytes h) rest /\
  seg_bytes h1 seg = seg_bytes h seg.
Proof.
  intros [Hlen Hmod Hnext Hwf Hnd Hlive Htail Hbs Hsize] Hl Hs h1.
  destruct (um_tx e) as [l en] eqn:Htx. simpl in *. subst l.
  simpl in Hnd. apply NoDup_cons in Hnd as [Hfresh Hnd].
  inversion Hlive as [|? ? Hseg Hlive']; subst.
  destruct (heap_upd_list h h1 (seg_sdu seg) rest) as [Hlive1 Hm]; [apply heap_upd_set|done..|].
  simpl in Hbs, Hsize. assert (0 <= seg_size seg) by (destruct Hseg as (? & ?); lia).
  split_and!; [|done|].
  - constructor; try done; cbn [um_dequeued um_bstatus_tx um_tx um_common entity_bstatus_tx bstatus bs_tx_size sl_list um_tx_size].
    + rewrite Htx. by eapply seg_list_wf_dequeue.
    + by apply Forall_tail.
    + rewrite Hbs. change (seg_cost (um_dequeued e seg rest)) with (seg_cost e). lia.
    + lia.
  - unfold seg_bytes. rewrite (proj2 (heap_get_lookup h1 _ (stamped e s))) by apply heap_set_lookup.
    by rewrite (proj2 (heap_get_lookup h _ s)).
Qed.

Lemma generate_idle h e now buffer size :
  match sl_list (um_tx e) with
  | [] => True
  | seg :: _ => size < compute_pdu_header_size e seg + 1
  end ->
  generate_tx_pdu h e now buffer size = Ok (h, e, buffer, 0).
Proof.
  unfold generate_tx_pdu. destruct (sl_list (um_tx e)) as [|seg rest]; [done|]. intros Hs.
  by rewrite (proj2 (Z.ltb_lt _ _)).
Qed.

(** What a call that sends [seg'] of SN [tx_next] gives back: [ret] bytes of
    the buffer, a header and [payload]. *)
Definition sends (e : nr_rlc_entity_um) (seg' : nr_rlc_sdu_segment) (buffer' : bytes) (ret : Z)
    (payload : bytes) : Prop :=
  exists hdr, is_header e (um_tx_next e) seg' hdr /\ zlen payload = seg_size seg' /\
    ret = seg_cost e seg' /\ take (Z.to_nat ret) buffer' = hdr ++ payload.

(** The SDU of the head is not shared with another segment of the list. *)
Lemma um_head_sdu_fresh h e seg rest :
  um_tx_inv h e -> sl_list (um_tx e) = seg :: rest -> seg_sdu seg ∉ map seg_sdu rest.
Proof. intros [_ _ _ _ Hnd _ _ _ _] Hl. rewrite Hl in Hnd. by apply NoDup_cons in Hnd as [? _]. Qed.

Lemma generate_whole h e now buffer size seg rest :
  um_tx_inv h e -> sl_list (um_tx e) = seg :: rest -> seg_cost e seg <= size <= zlen buffer ->
  exists h' e' buffer',
    generate_tx_pdu h e now buffer size = Ok (h', e', buffer', seg_cost e seg) /\
    um_tx_inv h' e' /\ sl_list (um_tx e') = rest /\ map (seg_bytes h') rest = map (seg_bytes h) rest /\
    sends e seg buffer' (seg_cost e seg) (seg_bytes h seg) /\
    um_sn_field_length e' = um_sn_field_length e /\
    um_tx_next e' = (if seg_is_first seg then um_tx_next e
                     else Z.rem (um_tx_next e + 1) (um_sn_modulus e)) /\
    length buffer' = length buffer.
Proof.
  intros Hinv Hl Hsize. pose proof (txi_live h e Hinv) as Hlive. rewrite Hl in Hlive.
  inversion Hlive as [|? ? Hseg Hlive']; subst. pose proof Hseg as (s & Hs & Hfc & Hso & Hsz & Hlen & Hmax & Hlast & _).
  destruct (um_dequeued_ok h e seg rest s Hinv Hl Hs) as (Hinv1 & Hm1 & Hb1).
  set (h1 := heap_set h (seg_sdu seg) (stamped e s)) in *.
  unfold generate_tx_pdu. rewrite Hl.
  assert (Hc : compute_pdu_header_size e seg + seg_size seg = seg_cost e seg) by done.
  rewrite (proj2 (Z.ltb_ge size _)) by lia. rewrite (proj2 (heap_get_lookup _ _ _) Hs). cbn [rbind].
  cbv zeta. change (um_bstatus_tx (fun t => t - _) _) with (um_dequeued e seg rest). change (heap_set h _ _) with h1.
  rewrite (proj2 (Z.ltb_ge size _)) by lia.
  set (e1 := um_dequeued e seg rest) in *.
  pose proof (um_head_sdu_fresh h e seg rest Hinv Hl) as Hfresh.
  assert (NR_SDU_MAX = 16000) as HM by done.
  destruct (um_send_segment_ok h1 e1 now seg (stamped e s) buffer size)
    as (h' & c & buffer' & hdr & -> & Hc' & Hu & Hb & _ & Hl' & Hh & Ht);
    [apply Hinv1|apply heap_set_lookup| |lia|lia|simpl; lia|done|].
  { pose proof (txi_next h e Hinv) as Hn. by rewrite (txi_mod h e Hinv) in Hn. }
  destruct Hinv1 as [Hlen1 Hmod1 Hnext1 Hwf1 Hnd1 Hlive1 Htail1 Hbs1 Hsize1].
  destruct (heap_upd_list h1 h' (seg_sdu seg) rest Hu Hfresh Hlive1) as [Hlive2 Hm2].
  eexists h', _, buffer'. split_and!; [done| |done|congruence| |done| |done].
  - constructor; try done; cbn [um_tx_next um_common um_tx_size um_tx um_sn_modulus].
    + case_bool_; [|done]. pose proof (Z.rem_bound_pos (um_tx_next e1 + 1) (um_sn_modulus e1)). lia.
    + rewrite Hc'. exact Hbs1.
    + assert (zsum seg_size rest <= um_tx_size e1 - seg_size seg); [|done].
      pose proof (txi_size h e Hinv) as H. rewrite Hl in H. simpl in H. change (um_tx_size e1) with (um_tx_size e). lia.
  - exists hdr. split_and!; [done|by apply zlen_seg_bytes|done|]. rewrite <- Hb1. done.
  - cbn [um_tx_next]. rewrite Hlast, andb_true_r. by destruct (seg_is_first seg).
Qed.

(** The two parts of a segment that is cut after [k] bytes. *)
Definition cut_head (seg : nr_rlc_sdu_segment) (k : Z) : nr_rlc_sdu_segment :=
  {| seg with seg_size := k; seg_is_last := false |}.

Definition cut_tail (seg : nr_rlc_sdu_segment) (k : Z) (a : nat) : nr_rlc_sdu_segment :=
  {| seg with seg_addr := a; seg_size := seg_size seg - k; seg_so := seg_so seg + k; seg_is_first := false |}.

Lemma seg_bytes_cut h seg k a :
  seg_live h seg -> 0 <= k <= seg_size seg ->
  seg_bytes h seg = seg_bytes h (cut_head seg k) ++ seg_bytes h (cut_tail seg k a).
Proof.
  intros (s & Hs & _ & Hso & Hsz & Hlen & _) Hk. unfold seg_bytes, cut_head, cut_tail. cbn [seg_sdu seg_size seg_so].
  rewrite (proj2 (heap_get_lookup _ _ _) Hs), Z2Nat.inj_add, <- drop_drop by lia.
  set (d := drop (Z.to_nat (seg_so seg)) (sdu_data s)).
  assert (zlen d = seg_size seg) by (subst d; rewrite zlen_drop; lia).
  rewrite take_drop_middle_Z by lia. f_equal. lia.
Qed.

Lemma resegment_ok h e seg s size :
  heap_sdus h !! seg_sdu seg = Some s ->
  let hdr := compute_pdu_header_size e (cut_head seg 0) in
  let h' := heap_set h (seg_sdu seg) {| s with sdu_ref_count := sdu_ref_count s + 1 |} in
  resegment h e seg size =
    if size <? hdr + 1 then Ok (h', e, seg, None)
    else Ok ({| h' with heap_brk := S (heap_brk h) |}, um_stats stats_segmented e,
             cut_head seg (size - hdr), Some (cut_tail seg (size - hdr) (heap_brk h))).
Proof.
  intros Hs%heap_get_lookup hdr h'. unfold resegment. rewrite Hs. cbn [rbind].
  change (compute_pdu_header_size e {| seg with seg_is_last := false |}) with hdr.
  case_bool_; [done|]. unfold cut_head, cut_tail. cbv zeta.
  replace (hdr + seg_size seg - size) with (seg_size seg - (size - hdr)) by lia.
  by replace (seg_size seg - (seg_size seg - (size - hdr))) with (size - hdr) by lia.
Qed.

(** A segment pushed in front of a list that satisfies the invariant. *)
Lemma um_tx_inv_push h1 e1 h' e' next :
  um_tx_inv h1 e1 -> um_sn_field_length e' = um_sn_field_length e1 ->
  um_sn_modulus e' = um_sn_modulus e1 -> um_tx_next e' = um_tx_next e1 ->
  um_tx e' = mk_seg_list (next :: sl_list (um_tx e1))
               (match sl_end (um_tx e1) with None => Some (seg_addr next) | a => a end) ->
  seg_addr next ∉ map seg_addr (sl_list (um_tx e1)) -> seg_sdu next ∉ map seg_sdu (sl_list (um_tx e1)) ->
  seg_live h' next -> Forall (seg_live h') (sl_list (um_tx e1)) ->
  Forall (fun s => seg_is_first s = true) (sl_list (um_tx e1)) ->
  bs_tx_size (bstatus (um_common e')) = seg_cost e1 next + bs_tx_size (bstatus (um_common e1)) ->
  seg_size next + zsum seg_size (sl_list (um_tx e1)) <= um_tx_size e' ->
  um_tx_inv h' e'.
Proof.
  intros [Hlen Hm Hn Hwf Hnd _ _ Hbs _] Hl Hmod Hnext Htx Haddr Hsdu Hlive Hrest Hfirst Hb Hsz.
  assert (Hcost : forall s, seg_cost e' s = seg_cost e1 s)
    by (intros s; unfold seg_cost, compute_pdu_header_size; by rewrite Hl).
  constructor; rewrite ?Htx, ?Hl, ?Hmod, ?Hnext; try done.
  - unfold um_len_ok in *. by rewrite Hl.
  - by apply seg_list_wf_push.
  - by apply NoDup_cons.
  - by constructor.
  - rewrite Hb, Hbs. simpl. rewrite Hcost. f_equal. clear -Hcost. induction (sl_list _); simpl; [done|]. by rewrite Hcost, IHl.
Qed.

Lemma seg_bytes_data h h' seg s s' :
  heap_sdus h !! seg_sdu seg = Some s -> heap_sdus h' !! seg_sdu seg = Some s' -> sdu_data s = sdu_data s' ->
  seg_bytes h seg = seg_bytes h' seg.
Proof. intros Hs%heap_get_lookup Hs'%heap_get_lookup Hd. unfold seg_bytes. by rewrite Hs, Hs', Hd. Qed.

(** A cut costs at least the uncut segment with the header of the cut one. *)
Lemma seg_cost_cut e seg :
  seg_is_last seg = true -> seg_cost e seg <= compute_pdu_header_size e (cut_head seg 0) + seg_size seg.
Proof.
  intros Hlast. unfold seg_cost, compute_pdu_header_size, cut_head. cbn [seg_is_first seg_is_last].
  rewrite Hlast. repeat case_bool_; lia.
Qed.

(** The head of the list is longer than the grant, and a part of it fits. *)
Lemma generate_split h e now buffer size seg rest :
  um_tx_inv h e -> sl_list (um_tx e) = seg :: rest ->
  let hdr := compute_pdu_header_size e (cut_head seg 0) in
  hdr + 1 <= size < seg_cost e seg -> size <= zlen buffer ->
  compute_pdu_header_size e seg + 1 <= size ->
  let k := size - hdr in
  exists h' e' buffer',
    generate_tx_pdu h e now buffer size = Ok (h', e', buffer', size) /\
    um_tx_inv h' e' /\ sl_list (um_tx e') = cut_tail seg k (heap_brk h) :: rest /\
    map (seg_bytes h') rest = map (seg_bytes h) rest /\
    seg_bytes h seg = seg_bytes h (cut_head seg k) ++ seg_bytes h' (cut_tail seg k (heap_brk h)) /\
    sends e (cut_head seg k) buffer' size (seg_bytes h (cut_head seg k)) /\
    um_sn_field_length e' = um_sn_field_length e /\ um_tx_next e' = um_tx_next e /\
    length buffer' = length buffer.
Proof.
  intros Hinv Hl hdr Hsize Hbuf Hsize1 k. pose proof (txi_live h e Hinv) as Hlive. rewrite Hl in Hlive.
  inversion Hlive as [|? ? Hseg Hlive']; subst.
  pose proof Hseg as (s & Hs & Hfc & Hso & Hsz & Hlen & Hmax & Hlast & Hfirst & Ha & Hb).
  destruct (um_dequeued_ok h e seg rest s Hinv Hl Hs) as (Hinv1 & Hm1 & Hb1).
  set (h1 := heap_set h (seg_sdu seg) (stamped e s)) in *.
  unfold generate_tx_pdu. rewrite Hl.
  assert (Hc : compute_pdu_header_size e seg + seg_size seg = seg_cost e seg) by done.
  rewrite (proj2 (Z.ltb_ge size _)) by lia. rewrite (proj2 (heap_get_lookup _ _ _) Hs). cbn [rbind].
  cbv zeta. change (um_bstatus_tx (fun t => t - _) _) with (um_dequeued e seg rest). change (heap_set h _ _) with h1.
  rewrite (proj2 (Z.ltb_lt size _)) by lia.
  set (e1 := um_dequeued e seg rest) in *.
  rewrite (resegment_ok h1 e1 seg (stamped e s)) by apply heap_set_lookup.
  change (compute_pdu_header_size e1 (cut_head seg 0)) with hdr.
  rewrite (proj2 (Z.ltb_ge size _)) by lia. cbn [rbind]. fold k.
  match goal with |- context [um_send_segment ?x ?y _ _ _ _] => set (h2 := x); set (e2 := y) end.
  assert (Hs2 : heap_sdus h2 !! seg_sdu (cut_head seg k)
    = Some {| (stamped e s) with sdu_ref_count := sdu_ref_count s + 1 |}) by apply lookup_insert_eq.
  assert (Hu2 : heap_upd (seg_sdu seg) h1 h2).
  { split; [simpl; lia|]. intros b Hne. simpl. apply lookup_insert_ne. congruence. }
  assert (1 <= hdr <= 4) by apply compute_pdu_header_size_range. assert (NR_SDU_MAX = 16000) as HM by done.
  pose proof (seg_cost_cut e seg Hlast : _ <= hdr + _) as Hck.
  destruct (um_send_segment_ok h2 e2 now (cut_head seg k) _ buffer size (txi_len _ _ Hinv1) Hs2)
    as (h' & c & buffer' & hb & -> & Hc' & Hu & Hbk & Hlv & Hl' & Hh & Ht); try (simpl; lia).
  { pose proof (txi_next h e Hinv) as Hn. by rewrite (txi_mod h e Hinv) in Hn. }
  { unfold seg_cost. change (compute_pdu_header_size e2 (cut_head seg k)) with hdr. simpl. lia. }
  assert (Hcost : seg_cost e2 (cut_head seg k) = size).
  { unfold seg_cost. change (compute_pdu_header_size e2 (cut_head seg k)) with hdr. simpl. lia. }
  rewrite Hcost in Ht |- *. eapply heap_upd_trans in Hu; [|exact Hu2].
  specialize (Hlv ltac:(simpl; lia)).
  pose proof (um_head_sdu_fresh h e seg rest Hinv Hl) as Hfresh.
  destruct Hinv1 as [Hlen1 Hmod1 Hnext1 Hwf1 Hnd1 Hlive1 Htail1 Hbs1 Hsz1].
  destruct (heap_upd_list h1 h' (seg_sdu seg) rest Hu Hfresh Hlive1) as [Hlive2 Hm2].
  set (next := cut_tail seg k (heap_brk h)).
  assert (Hnext : seg_live h' next).
  { eexists. split; [exact Hlv|]. destruct Hu as [Hub _]. simpl in Hbk |- *. split_and!; lia || done. }
  assert (Hbytes : seg_bytes h' next = seg_bytes h next).
  { by eapply seg_bytes_data. }
  assert (Hnl : negb (seg_is_first (cut_head seg k)) && seg_is_last (cut_head seg k) = false)
    by apply andb_false_r. rewrite Hnl.
  eexists h', _, buffer'. split_and!; [done| |done|congruence| | |done|done|done].
  - eapply (um_tx_inv_push h1 e1 _ _ next); [by constructor|done..| | |done|done| | |].
    + intros (x & Heq & Hx)%list_elem_of_fmap. rewrite Forall_forall in Hlive'.
      destruct (Hlive' x Hx) as (? & _ & _ & _ & _ & _ & _ & _ & _ & Hax & _). simpl in Heq. lia.
    + done.
    + pose proof (txi_tail h e Hinv) as H0. by rewrite Hl in H0.
    + cbn [um_common]. rewrite Hc'. change (bs_tx_size (bstatus (um_common e1)) + seg_cost e next
        = seg_cost e next + bs_tx_size (bstatus (um_common e1))). lia.
    + pose proof (txi_size h e Hinv) as H0. rewrite Hl in H0. simpl in H0 |- *. lia.
  - rewrite Hbytes. apply seg_bytes_cut; [done|lia].
  - exists hb. split_and!; [done| |by rewrite <- Hcost at 1|].
    + assert (zlen (seg_bytes h (cut_head seg k)) + zlen (seg_bytes h next) = seg_size seg) as Hz.
      { rewrite <- zlen_app. unfold next. rewrite <- seg_bytes_cut by (done || lia). by apply zlen_seg_bytes. }
      rewrite <- Hbytes, (zlen_seg_bytes h' next Hnext) in Hz. simpl in Hz |- *. lia.
    + rewrite Ht. f_equal. by eapply seg_bytes_data.
Qed.

(** A whole SDU whose header grows by the two-byte SN when it is cut, and a
    grant that the header of the cut segment already fills. *)
Lemma generate_lost h e now buffer size seg rest :
  um_tx_inv h e -> sl_list (um_tx e) = seg :: rest ->
  compute_pdu_header_size e seg + 1 <= size < seg_cost e seg ->
  size < compute_pdu_header_size e (cut_head seg 0) + 1 ->
  exists h' e',
    generate_tx_pdu h e now buffer size = Ok (h', e', buffer, 0) /\
    um_tx_inv h' e' /\ sl_list (um_tx e') = rest /\ map (seg_bytes h') rest = map (seg_bytes h) rest /\
    um_tx_size e' = um_tx_size e.
Proof.
  intros Hinv Hl Hsize Hsplit. pose proof (txi_live h e Hinv) as Hlive. rewrite Hl in Hlive.
  inversion Hlive as [|? ? Hseg Hlive']; subst. pose proof Hseg as (s & Hs & _).
  destruct (um_dequeued_ok h e seg rest s Hinv Hl Hs) as (Hinv1 & Hm1 & Hb1).
  set (h1 := heap_set h (seg_sdu seg) (stamped e s)) in *.
  unfold generate_tx_pdu. rewrite Hl.
  assert (Hc : compute_pdu_header_size e seg + seg_size seg = seg_cost e seg) by done.
  rewrite (proj2 (Z.ltb_ge size _)) by lia. rewrite (proj2 (heap_get_lookup _ _ _) Hs). cbn [rbind].
  cbv zeta. change (um_bstatus_tx (fun t => t - _) _) with (um_dequeued e seg rest). change (heap_set h _ _) with h1.
  rewrite (proj2 (Z.ltb_lt size _)) by lia. set (e1 := um_dequeued e seg rest) in *.
  rewrite (resegment_ok h1 e1 seg (stamped e s)) by apply heap_set_lookup.
  change (compute_pdu_header_size e1 (cut_head seg 0)) with (compute_pdu_header_size e (cut_head seg 0)).
  rewrite (proj2 (Z.ltb_lt size _)) by lia. cbn [rbind].
  set (h2 := heap_set h1 _ _).
  pose proof (um_head_sdu_fresh h e seg rest Hinv Hl) as Hfresh.
  destruct Hinv1 as [Hlen1 Hmod1 Hnext1 Hwf1 Hnd1 Hlive1 Htail1 Hbs1 Hsz1].
  destruct (heap_upd_list h1 h2 (seg_sdu seg) rest (heap_upd_set _ _ _) Hfresh Hlive1) as [Hlive2 Hm2].
  eexists h2, e1. split_and!; [done| |done|congruence|done]. by constructor.
Qed.

(** ** The other operations *)

Lemma enqueue_sdu_ok h e now buffer size id :
  um_tx_inv h e -> 0 < size <= NR_SDU_MAX -> size <= zlen buffer ->
  exists h' e', um_enqueue_sdu h e now buffer size id = Ok (h', e') /\ um_tx_inv h' e' /\
    um_sn_field_length e' = um_sn_field_length e /\
    um_tx_pending h' e' = um_tx_pending h e ++ [take (Z.to_nat size) buffer] /\
    um_tx_next e' = um_tx_next e /\ exists new, sl_list (um_tx e') = sl_list (um_tx e) ++ new /\
      Forall (fun s => seg_is_first s = true) new.
Proof.
  intros [Hlen Hmod Hnext Hwf Hnd Hlive Htail Hbs Hsz] Hsize Hbuf. unfold um_enqueue_sdu. cbv zeta.
  destruct (new_sdu_append h (um_tx e) buffer size id) as
    (h1 & seg & tx & s & -> & Happ & Htx & Hwf' & Hnd' & Hs & Hss & _ & Hfirst & _ & Hlist); [done..|].
  cbn [rbind um_tx]. rewrite Happ. cbn [rbind].
  match goal with |- context [um_bstatus_tx ?f ?x] => set (e3 := um_bstatus_tx f x) end.
  assert (Hinv3 : forall hf, Forall (seg_live hf) (sl_list tx) -> um_tx_inv hf e3).
  { intros hf Hl. constructor; try done; subst e3; cbn [um_bstatus_tx um_tx um_tx_size].
    - rewrite Htx. destruct (sl_list (um_tx e)); simpl; [done|]. apply Forall_app. split; [done|by constructor].
    - rewrite Htx, zsum_app. change (bs_tx_size (bstatus (um_common e)) + seg_cost e seg
        = zsum (seg_cost e) (sl_list (um_tx e)) + (seg_cost e seg + 0)). lia.
    - rewrite Htx, zsum_app. simpl. lia. }
  destruct (avg_time_is_on _).
  - rewrite Hs. cbn [rbind]. destruct (Hlist _ now (or_intror eq_refl)) as [Hl Hm].
    eexists _, e3. split_and!; [done|by apply Hinv3|done|done|done|].
    exists [seg]. split; [done|by constructor].
  - destruct (Hlist _ now (or_introl eq_refl)) as [Hl Hm].
    eexists h1, e3. split_and!; [done|by apply Hinv3|done|done|done|].
    exists [seg]. split; [done|by constructor].
Qed.

Lemma um_reset_log_same e :
  exists t r, um_reset_log e = {| e with um_t_log_buffer_full := t; um_sdu_rejected := r |}.
Proof.
  unfold um_reset_log. case_bool_; [by eexists _, _|].
  exists (um_t_log_buffer_full e), (um_sdu_rejected e). by destruct e.
Qed.

Lemma recv_sdu_ok h e now buffer size id :
  um_tx_inv h e -> 0 < size <= NR_SDU_MAX -> size <= zlen buffer ->
  exists h' e', nr_rlc_entity_um_recv_sdu h e now buffer size id = Ok (h', e') /\ um_tx_inv h' e' /\
    um_sn_field_length e' = um_sn_field_length e /\
    um_tx_pending h' e' = um_tx_pending h e
      ++ (if um_tx_maxsize e <? um_tx_size e + size then [] else [take (Z.to_nat size) buffer]) /\
    um_tx_next e' = um_tx_next e /\ exists new, sl_list (um_tx e') = sl_list (um_tx e) ++ new /\
      Forall (fun s => seg_is_first s = true) new.
Proof.
  intros Hinv Hsize Hbuf. unfold nr_rlc_entity_um_recv_sdu.
  rewrite (proj2 (Z.ltb_ge NR_SDU_MAX size)) by lia.
  destruct (um_reset_log_same (um_stats (fun s => {| s with rxsdu_pkts := u32 (rxsdu_pkts s + 1);
    rxsdu_bytes := u64 (rxsdu_bytes s + size) |}) e)) as (t & r & Heq). cbv zeta. rewrite Heq. clear Heq.
  set (e1 := {| (um_stats _ e) with um_t_log_buffer_full := t; um_sdu_rejected := r |}).
  assert (Hinv1 : um_tx_inv h e1) by (destruct Hinv; by constructor).
  change (um_tx_maxsize e) with (um_tx_maxsize e1). change (um_tx_size e) with (um_tx_size e1).
  change (um_tx_pending h e) with (um_tx_pending h e1).
  change (um_sn_field_length e) with (um_sn_field_length e1). change (um_tx_next e) with (um_tx_next e1).
  change (um_tx e) with (um_tx e1). clearbody e1. clear Hinv e t r.
  case_bool_; [|by apply enqueue_sdu_ok].
  exists h, (um_reject_sdu e1 size). split_and!; [done| |done|by rewrite app_nil_r|done|exists []; by rewrite app_nil_r].
  destruct Hinv1; by constructor.
Qed.

Lemma find_upper_layer_id_ok h id l :
  Forall (seg_live h) l ->
  (find_upper_layer_id h id l = Ok (l, None)) \/
  exists pre cur post, find_upper_layer_id h id l = Ok (pre, Some (cur, post)) /\ l = pre ++ cur :: post.
Proof.
  induction 1 as [|cur l (s & Hs%heap_get_lookup & _) Hl IH]; [by left|]. simpl. rewrite Hs. cbn [rbind].
  case_bool_.
  - destruct IH as [->|(pre & c & post & -> & ->)]; cbn [rbind]; [by left|right].
    by exists (cur :: pre), c, post.
  - right. by exists [], cur, l.
Qed.

Lemma discard_sdu_ok h e id :
  um_tx_inv h e ->
  exists h' e', nr_rlc_entity_um_discard_sdu h e id = Ok (h', e') /\ um_tx_inv h' e' /\
    um_tx_size e' = um_tx_size e /\ um_sn_field_length e' = um_sn_field_length e /\
    ((h' = h /\ e' = e) \/
     exists pre cur post, sl_list (um_tx e) = pre ++ cur :: post /\ sl_list (um_tx e') = pre ++ post /\
       seg_is_first cur = true).
Proof.
  intros Hinv. unfold nr_rlc_entity_um_discard_sdu.
  destruct (find_upper_layer_id_ok h id _ (txi_live h e Hinv)) as [->|(pre & cur & post & -> & Hl)]; cbn [rbind].
  { exists h, e. split_and!; try done. by left. }
  case_bool_. { exists h, e. split_and!; try done. by left. }
  destruct Hinv as [Hlen Hmod Hnext Hwf Hnd Hlive Htail Hbs Hsz].
  assert (Hcur : seg_live h cur) by (rewrite Hl in Hlive; by apply Forall_app in Hlive as [_ [? _]%Forall_cons]).
  destruct Hcur as (s & Hs & _ & _ & Hsize & _).
  destruct (free_sdu_segment_ok h cur s Hs) as (h' & r & -> & Hu & _). cbn [rbind].
  assert (Hnd' : (seg_sdu cur ∉ map seg_sdu (pre ++ post)) /\ NoDup (map seg_sdu (pre ++ post))).
  { rewrite Hl, <- Permutation_middle in Hnd. by apply NoDup_cons in Hnd. }
  rewrite Hl, zsum_app in Hbs, Hsz. simpl in Hbs, Hsz. unfold seg_cost at 2 in Hbs.
  eexists h', _. split_and!; [done| |done|done|right; exists pre, cur, post; bool_hyps; by split_and!].
  constructor; try done; cbn [um_bstatus_tx um_tx um_tx_size sl_list].
  - apply seg_list_wf_remove. rewrite <- Hl. by destruct (um_tx e).
  - apply Hnd'.
  - apply (heap_upd_list h h' (seg_sdu cur)); [done|apply Hnd'|].
    rewrite Hl in Hlive. apply Forall_app in Hlive as [? [_ ?]%Forall_cons]. by apply Forall_app.
  - rewrite Hl in Htail. destruct pre as [|p pre]; simpl in *; [by apply Forall_tail|].
    apply Forall_app in Htail as [? [_ ?]%Forall_cons]. by apply Forall_app.
  - rewrite zsum_app. change (bs_tx_size (bstatus (um_common e)) - seg_cost e cur
      = zsum (seg_cost e) pre + zsum (seg_cost e) post). unfold seg_cost at 1. lia.
  - rewrite zsum_app. lia.
Qed.

Lemma clear_entity_ok h e :
  um_tx_inv h e ->
  exists h' e', clear_entity h e = Ok (h', e') /\ um_tx_inv h' e' /\ um_tx_size e' = 0 /\
    sl_list (um_tx e') = [] /\ um_sn_field_length e' = um_sn_field_length e.
Proof.
  intros [Hlen Hmod Hnext Hwf Hnd Hlive Htail Hbs Hsz]. unfold clear_entity.
  destruct (free_sdu_segment_list_ok h _ Hlive Hnd) as (h' & -> & _). cbn [rbind].
  eexists h', _. split_and!; [done| |done..].
  constructor; try done; [simpl; lia|split; [by apply NoDup_nil|done]|by apply NoDup_nil|by apply Forall_nil..].
Qed.
