(* ===== verification/RlcUmEntity.v ===== *)
(** The NR RLC UM entity as a whole: every operation leaves the other half of
    the entity alone, so that all interleavings of its operations are safe;
    the properties of the transmitter. *)

From S2P Require Import Prelude RlcPdu RlcSdu TimeStat RlcEntity RlcUm RlcUmRx RlcUmTx.

(** ** The two halves *)

Definition um_rx_part (e : nr_rlc_entity_um) :=
  (um_sn_field_length e, um_sn_modulus e, um_window_size e, um_rx_next_highest e,
   um_rx_next_reassembly e, um_rx_timer_trigger e, um_t_reassembly_start e, um_rx_list e).

Definition um_tx_part (e : nr_rlc_entity_um) :=
  (um_sn_field_length e, um_sn_modulus e, um_tx_next e, um_tx e, um_tx_size e,
   bstatus (um_common e), um_tx_maxsize e).

Lemma um_rx_part_inv e e' : um_rx_part e' = um_rx_part e -> um_rx_inv e -> um_rx_inv e'.
Proof.
  destruct e, e'. unfold um_rx_part. simpl. intros [= -> -> -> -> -> -> -> ->] [[[] ?] ?].
  constructor; [constructor; [constructor| ..]|]; done.
Qed.

Lemma um_tx_part_inv h e e' : um_tx_part e' = um_tx_part e -> um_tx_inv h e -> um_tx_inv h e'.
Proof.
  destruct e, e'. unfold um_tx_part. simpl. intros [= -> -> -> -> -> Hbs ->] [].
  constructor; simpl in *; try done. by rewrite Hbs.
Qed.

(** Follow an execution that succeeded: one case per branch. *)
Ltac run_inv :=
  repeat (cbv zeta in *; cbn [rbind] in *;
    match goal with
    | H : rbind ?m _ = Ok _ |- _ => apply rbind_ok in H; destruct H as (? & ? & H)
    | H : (let '(_, _) := ?x in _) = Ok _ |- _ => destruct x
    | H : Ok _ = Ok _ |- _ => injection H as; subst
    | H : Fail _ = Ok _ |- _ => discriminate H
    | H : (if ?b then _ else _) = Ok _ |- _ => destruct b
    | H : match ?x with None => _ | Some _ => _ end = Ok _ |- _ => destruct x
    | H : match ?x with [] => _ | _ :: _ => _ end = Ok _ |- _ => destruct x
    end).

Lemma discard_outside_tx l e : um_tx_part (discard_outside l e) = um_tx_part e.
Proof. revert e. induction l as [|p l IH]; intros e; simpl; [done|]. case_bool_; [by rewrite IH|done]. Qed.

Lemma discard_before_tx l e : um_tx_part (discard_before l e) = um_tx_part e.
Proof. revert e. induction l as [|p l IH]; intros e; simpl; [done|]. case_bool_; [by rewrite IH|done]. Qed.

Lemma reassemble_and_deliver_tx e sn e' ev :
  reassemble_and_deliver e sn = Ok (e', ev) -> um_tx_part e' = um_tx_part e.
Proof. unfold reassemble_and_deliver. intros H. run_inv; done. Qed.

Lemma timer_update_tx e : um_tx_part (timer_update e) = um_tx_part e.
Proof. unfold timer_update. cbv zeta. by repeat case_bool_. Qed.

Lemma reception_update_tx e x e' ev :
  reception_update e x = Ok (e', ev) -> um_tx_part e' = um_tx_part e.
Proof.
  unfold reception_update. destruct (sdu_full _ _).
  - intros H. run_inv; match goal with H : reassemble_and_deliver _ _ = _ |- _ =>
      apply reassemble_and_deliver_tx in H; done end.
  - case_bool_; [|by intros [= <- _]]. cbv zeta. set (e1 := discard_outside _ _).
    assert (He1 : um_tx_part e1 = um_tx_part e) by (subst e1; by rewrite discard_outside_tx).
    clearbody e1. intros H. run_inv; done.
Qed.

Lemma reception_actions_tx e x e' ev :
  reception_actions e x = Ok (e', ev) -> um_tx_part e' = um_tx_part e.
Proof.
  unfold reception_actions. intros ([e1 ev1] & H%reception_update_tx & [= <- _])%rbind_ok.
  by rewrite timer_update_tx.
Qed.

Lemma recv_pdu_tx e buffer e' ev :
  um_cfg e -> nr_rlc_entity_um_recv_pdu e buffer = Ok (e', ev) -> um_tx_part e' = um_tx_part e.
Proof.
  intros Hc H. destruct (recv_pdu_cases e buffer Hc) as [Heq|[[_ Heq]|(_ & sn & so & f & l & byte & Heq & _)]];
    rewrite Heq in H; [by injection H as <- _..|].
  unfold um_recv_segment in H. cbv zeta in H.
  repeat (match type of H with (if ?b then _ else _) = _ => destruct b; [by injection H as <- _|] end).
  apply rbind_ok in H as (data & _ & H). apply rbind_ok in H as (pdu & _ & H).
  by apply reception_actions_tx in H.
Qed.

Lemma set_time_tx e now e' :
  nr_rlc_entity_um_set_time e now = Ok e' -> um_tx_part e' = um_tx_part e.
Proof.
  unfold nr_rlc_entity_um_set_time, check_t_reassembly. case_bool_; [by intros [= <-]|].
  cbv zeta. intros (n & _ & H)%rbind_ok. revert H. set (e1 := discard_before _ _).
  assert (He1 : um_tx_part e1 = um_tx_part e) by (subst e1; by rewrite discard_before_tx).
  clearbody e1. intros H. run_inv; done.
Qed.

Lemma um_send_segment_rx h e now seg buffer size h' e' buffer' ret :
  um_send_segment h e now seg buffer size = Ok (h', e', buffer', ret) -> um_rx_part e' = um_rx_part e.
Proof.
  unfold um_send_segment. set (e1 := if negb _ && _ then _ else e).
  assert (He1 : um_rx_part e1 = um_rx_part e) by (subst e1; by case_bool_). clearbody e1.
  intros ([buf r] & _ & H)%rbind_ok. apply rbind_ok in H as (s & _ & H).
  apply rbind_ok in H as ([h1 r1] & _ & H). by injection H as _ <- _ _.
Qed.

Lemma resegment_rx h e seg size h' e' seg' next :
  resegment h e seg size = Ok (h', e', seg', next) -> um_rx_part e' = um_rx_part e.
Proof. unfold resegment. intros (s & _ & H)%rbind_ok. revert H. cbv zeta. by case_bool_; intros [= _ <- _ _]. Qed.

Lemma generate_tx_pdu_rx h e now buffer size h' e' buffer' ret :
  generate_tx_pdu h e now buffer size = Ok (h', e', buffer', ret) -> um_rx_part e' = um_rx_part e.
Proof.
  unfold generate_tx_pdu. destruct (sl_list (um_tx e)) as [|seg rest]; [by intros [= _ <- _ _]|].
  case_bool_; [by intros [= _ <- _ _]|]. cbv zeta. intros (s & _ & H)%rbind_ok. revert H.
  set (e1 := um_bstatus_tx _ _). assert (He1 : um_rx_part e1 = um_rx_part e) by done. clearbody e1.
  case_bool_.
  - intros ([[[h2 e2] seg'] next] & Hr%resegment_rx & H)%rbind_ok.
    destruct next as [nx|]; [|injection H as _ <- _ _; congruence].
    apply um_send_segment_rx in H. rewrite H. rewrite <- He1, <- Hr. done.
  - intros H%um_send_segment_rx. congruence.
Qed.

Lemma recv_sdu_rx h e now buffer size id h' e' :
  nr_rlc_entity_um_recv_sdu h e now buffer size id = Ok (h', e') -> um_rx_part e' = um_rx_part e.
Proof.
  unfold nr_rlc_entity_um_recv_sdu. case_bool_; [done|]. cbv zeta.
  match goal with |- context [um_reset_log ?x] =>
    assert (um_rx_part (um_reset_log x) = um_rx_part e) as He1
      by (unfold um_reset_log; by case_bool_); set (e1 := um_reset_log x) in * end.
  clearbody e1. case_bool_; [by intros [= _ <-]|]. unfold um_enqueue_sdu. cbv zeta.
  intros ([h1 seg] & _ & H)%rbind_ok. apply rbind_ok in H as (tx & _ & H).
  revert H. case_bool_; [intros (s & _ & [= _ <-])%rbind_ok|intros [= _ <-]]; done.
Qed.

Lemma discard_sdu_rx h e id h' e' :
  nr_rlc_entity_um_discard_sdu h e id = Ok (h', e') -> um_rx_part e' = um_rx_part e.
Proof.
  unfold nr_rlc_entity_um_discard_sdu. intros ([pre [[cur post]|]] & _ & H)%rbind_ok;
    [|by injection H as _ <-].
  revert H. case_bool_; [by intros [= _ <-]|]. cbv zeta. by intros ([h1 r] & _ & [= _ <-])%rbind_ok.
Qed.

(** ** Traces of a UM entity *)

(** Every operation of the entity, with what its callers guarantee: PDCP hands
    over at most [NR_SDU_MAX] bytes, MAC a buffer of the size it announces. *)
Inductive um_op :=
| um_op_recv_pdu (buffer : bytes)
| um_op_generate (now : Z) (buffer : bytes) (size : Z)
| um_op_recv_sdu (now : Z) (buffer : bytes) (size sdu_id : Z)
| um_op_set_time (now : Z)
| um_op_discard (sdu_id : Z)
| um_op_reestablish
| um_op_get_stats (now : Z).

Definition um_op_ok (op : um_op) : Prop :=
  match op with
  | um_op_generate _ buffer size => size <= zlen buffer
  | um_op_recv_sdu _ buffer size _ => 0 < size <= NR_SDU_MAX /\ size <= zlen buffer
  | _ => True
  end.

(** What leaves an operation: SDUs to the upper layer, a PDU to MAC. *)
Inductive um_out :=
| out_event (ev : event)
| out_pdu (pdu : bytes).

Definition um_step (st : rlc_heap * nr_rlc_entity_um) (op : um_op)
    : res (rlc_heap * nr_rlc_entity_um * list um_out) :=
  let '(h, e) := st in
  match op with
  | um_op_recv_pdu buffer => let* (h, e, ev) := recv_pdu h e buffer in Ok (h, e, map out_event ev)
  | um_op_generate now buffer size =>
      let* (h, e, buf, ret) := generate_pdu h e now buffer size in
      Ok (h, e, if 0 <? ret then [out_pdu (take (Z.to_nat ret) buf)] else [])
  | um_op_recv_sdu now buffer size id => let* (h, e) := recv_sdu h e now buffer size id in Ok (h, e, [])
  | um_op_set_time now => let* (h, e, _) := set_time h e now in Ok (h, e, [])
  | um_op_discard id => let* (h, e) := discard_sdu h e id in Ok (h, e, [])
  | um_op_reestablish => let* (h, e) := reestablishment h e in Ok (h, e, [])
  | um_op_get_stats now => let* (e, _) := nr_rlc_entity_um_get_stats h e now in Ok (h, e, [])
  end.

Fixpoint um_run (st : rlc_heap * nr_rlc_entity_um) (ops : list um_op)
    : res (rlc_heap * nr_rlc_entity_um * list um_out) :=
  match ops with
  | [] => Ok (st, [])
  | op :: ops' =>
      let* (st1, out1) := um_step st op in
      let* (st2, out2) := um_run st1 ops' in
      Ok (st2, out1 ++ out2)
  end.

Definition um_inv (st : rlc_heap * nr_rlc_entity_um) : Prop :=
  um_rx_inv (snd st) /\ um_tx_inv (fst st) (snd st).

Lemma generate_tx_pdu_ok h e now buffer size :
  um_tx_inv h e -> size <= zlen buffer ->
  exists h' e' buffer' ret, generate_tx_pdu h e now buffer size = Ok (h', e', buffer', ret) /\
    um_tx_inv h' e'.
Proof.
  intros Hinv Hbuf. destruct (sl_list (um_tx e)) as [|seg rest] eqn:Hl.
  { rewrite generate_idle by by rewrite Hl. eauto 10. }
  destruct (Z.lt_ge_cases size (compute_pdu_header_size e seg + 1)).
  { rewrite generate_idle by by rewrite Hl. eauto 10. }
  destruct (Z.lt_ge_cases size (seg_cost e seg)).
  - destruct (Z.lt_ge_cases size (compute_pdu_header_size e (cut_head seg 0) + 1)).
    + destruct (generate_lost h e now buffer size seg rest) as (h' & e' & -> & ? & _); eauto 10.
    + destruct (generate_split h e now buffer size seg rest) as (h' & e' & b & -> & ? & _); eauto 10.
  - destruct (generate_whole h e now buffer size seg rest) as (h' & e' & b & -> & ? & _); eauto 10.
Qed.

Lemma clear_entity_rx h e h' e' : um_rx_inv e -> clear_entity h e = Ok (h', e') -> um_rx_inv e'.
Proof.
  intros [[Hc _ _ _ _ _ _ _] _]. unfold clear_entity. intros (h1 & _ & [= _ <-])%rbind_ok.
  assert (um_cfg e) as Hc' by done. pose proof (cfg_window_pos e Hc). destruct Hc as [Hl Hm Hw].
  constructor; [|by intros []]. constructor; try (constructor; done); unfold sn_ok, modulus_rx; simpl; try lia.
  rewrite (proj2 (Z.ltb_ge _ _)), Z.rem_small by lia. lia.
Qed.

Lemma get_stats_ok h e now :
  um_tx_inv h e ->
  exists e' out, nr_rlc_entity_um_get_stats h e now = Ok (e', out) /\
    um_rx_part e' = um_rx_part e /\ um_tx_part e' = um_tx_part e.
Proof.
  intros Hinv. unfold nr_rlc_entity_um_get_stats, nr_rlc_entity_get_stats.
  assert (exists w, (match head (sl_list (um_tx e)) with
    | Some seg => let* s := heap_get h (seg_sdu seg) in Ok (u32 (u64 (now - sdu_time_of_arrival s)))
    | None => Ok 0 end) = Ok w) as (w & ->).
  { pose proof (txi_live h e Hinv) as Hlive. destruct (sl_list (um_tx e)) as [|seg rest]; [by eexists|].
    apply Forall_cons in Hlive as [(s & Hs%heap_get_lookup & _) _]. simpl. rewrite Hs. by eexists. }
  cbn [rbind]. case_bool_.
  - destruct (time_average_get_average _ _) as [avg v]. cbn [rbind]. eexists _, _. by split_and!.
  - cbn [rbind]. eexists _, _. by split_and!.
Qed.

Lemma um_step_ok st op :
  um_inv st -> um_op_ok op -> exists st' out, um_step st op = Ok (st', out) /\ um_inv st'.
Proof.
  destruct st as [h e]. intros [Hrx Htx] Hop. simpl in *. destruct op; cbn [um_op_ok um_step] in *;
    unfold recv_pdu, generate_pdu, recv_sdu, set_time, discard_sdu, reestablishment, um_RlcEntity,
      nr_rlc_entity_um_generate_pdu, nr_rlc_entity_um_reestablishment.
  - destruct (recv_pdu_ok e buffer Hrx) as (e' & ev & Hr & Hrx' & _). rewrite Hr. cbn [rbind].
    eexists _, _. split; [done|]. split; [done|]. eapply um_tx_part_inv; [|done].
    eapply recv_pdu_tx; [apply Hrx|done].
  - destruct (generate_tx_pdu_ok h e now buffer size Htx Hop) as (h' & e' & b & r & Hr & Htx'). rewrite Hr. cbn [rbind].
    eexists _, _. split; [done|]. split; [|done]. eapply um_rx_part_inv; [by eapply generate_tx_pdu_rx|done].
  - destruct (recv_sdu_ok h e now buffer size sdu_id Htx) as (h' & e' & Hr & Htx' & _); [lia..|]. rewrite Hr. cbn [rbind].
    eexists _, _. split; [done|]. split; [|done]. eapply um_rx_part_inv; [by eapply recv_sdu_rx|done].
  - destruct (set_time_ok e now Hrx) as (e' & pre & Hr & Hrx' & _). rewrite Hr. cbn [rbind].
    eexists _, _. split; [done|]. split; [done|]. eapply um_tx_part_inv; [by eapply set_time_tx|done].
  - destruct (discard_sdu_ok h e sdu_id Htx) as (h' & e' & Hr & Htx' & _). rewrite Hr. cbn [rbind].
    eexists _, _. split; [done|]. split; [|done]. eapply um_rx_part_inv; [by eapply discard_sdu_rx|done].
  - destruct (clear_entity_ok h e Htx) as (h' & e' & Hr & Htx' & _). rewrite Hr. cbn [rbind].
    eexists _, _. split; [done|]. split; [|done]. by eapply clear_entity_rx.
  - destruct (get_stats_ok h e now Htx) as (e' & out & -> & Hr & Ht). cbn [rbind].
    eexists _, _. split; [done|]. split; [by eapply um_rx_part_inv|by eapply um_tx_part_inv].
Qed.

Lemma um_run_ok ops st :
  um_inv st -> Forall um_op_ok ops -> exists st' out, um_run st ops = Ok (st', out) /\ um_inv st'.
Proof.
  intros Hinv Hops. revert st Hinv. induction Hops as [|op ops Hop Hops IH]; intros st Hinv; simpl; [by eauto|].
  destruct (um_step_ok st op Hinv Hop) as (st1 & out1 & -> & Hinv1). cbn [rbind].
  destruct (IH st1 Hinv1) as (st2 & out2 & -> & Hinv2). cbn [rbind]. eauto.
Qed.

Lemma um_tx_inv_new rxm txm t n e h :
  new_nr_rlc_entity_um rxm txm t n = Ok e -> um_tx_inv h e.
Proof.
  unfold new_nr_rlc_entity_um, assert_. destruct (_ || _) eqn:Hn; [|done]. cbn [rbind].
  destruct (time_average_new _ _) as [avg|]; [|done]. cbn [rbind]. intros [= <-].
  rewrite Z.shiftl_1_l. assert (n = 6 \/ n = 12) as [-> | ->] by lia.
  all: constructor; simpl; try done; try apply NoDup_nil; try apply Forall_nil; try (split; [apply NoDup_nil|]); try done.
  all: first [by left|by right|by vm_compute].
Qed.

(** ** Properties *)

(** C8. Every interleaving of all the operations of a UM entity (PDUs and SDUs
    received, PDUs generated for any grant, time, discards, re-establishment,
    statistics) runs without a failure from a new entity, whatever the air
    interface sends.  At the end the receiver invariant holds, no two queued
    segments share an SDU, every queued segment points to a live SDU and at
    most the first is a remainder, the buffer status shown to MAC is exactly
    the bytes (with headers) needed to send the whole queue, and [tx_size] is
    at least the bytes queued. *)
Theorem um_entity_trace_safe rxm txm t n e0 ops :
  new_nr_rlc_entity_um rxm txm t n = Ok e0 -> Forall um_op_ok ops ->
  exists h e out, um_run (heap_empty, e0) ops = Ok ((h, e), out) /\ um_rx_inv e /\
    NoDup (map seg_sdu (sl_list (um_tx e))) /\ Forall (seg_live h) (sl_list (um_tx e)) /\
    Forall (fun s => seg_is_first s = true) (tail (sl_list (um_tx e))) /\
    bs_tx_size (nr_rlc_entity_um_buffer_status e 0)
      = zsum (fun s => compute_pdu_header_size e s + seg_size s) (sl_list (um_tx e)) /\
    zsum seg_size (sl_list (um_tx e)) <= um_tx_size e.
Proof.
  intros Hnew Hops. destruct (um_run_ok ops (heap_empty, e0)) as ([h e] & out & -> & Hrx & Htx);
    [split; [by eapply um_rx_inv_new|by eapply um_tx_inv_new]|done|].
  exists h, e, out. destruct Htx. by split_and!.
Qed.

Lemma um_entity_trace_safe_witness :
  let ops := [um_op_set_time 1; um_op_recv_sdu 0 [1; 2; 3; 4; 5] 5 7; um_op_generate 0 (replicate 8 0) 4;
              um_op_recv_pdu [0xc1; 0; 3; 9]; um_op_discard 7; um_op_generate 0 (replicate 8 0) 8;
              um_op_set_time 99; um_op_get_stats 3; um_op_reestablish] in
  new_nr_rlc_entity_um 100 1000 35 6 = Ok (um_new 100 6) /\ Forall um_op_ok ops /\
  exists h e out, um_run (heap_empty, um_new 100 6) ops = Ok ((h, e), out) /\ um_rx_inv e /\
    NoDup (map seg_sdu (sl_list (um_tx e))) /\ Forall (seg_live h) (sl_list (um_tx e)) /\
    Forall (fun s => seg_is_first s = true) (tail (sl_list (um_tx e))) /\
    bs_tx_size (nr_rlc_entity_um_buffer_status e 0)
      = zsum (fun s => compute_pdu_header_size e s + seg_size s) (sl_list (um_tx e)) /\
    zsum seg_size (sl_list (um_tx e)) <= um_tx_size e.
Proof.
  intros ops. assert (Forall um_op_ok ops) as Hops by (repeat constructor; simpl; vm_compute; by auto).
  split_and!; [done|done|]. by apply (um_entity_trace_safe 100 1000 35 6).
Defined.

(** The bytes still to send after the first [k] of the queue are gone. *)
Definition rest_of (head_bytes : bytes) (q : list bytes) : list bytes :=
  match head_bytes with [] => q | _ => head_bytes :: q end.

(** One grant, in every state the entity can be in: [generate_pdu] never
    uses more than the grant, keeps the invariant, and either (1) sends
    nothing and changes nothing; or (2) sends one PDU made of a header of the
    size it accounts for and the next bytes of the first SDU, which are removed
    from the queue, nothing else is, and a cut fills the grant to the byte; or
    (3) sends nothing and drops the first SDU, in the one case of a whole SDU,
    a 12-bit SN and a grant of exactly two bytes. *)
Theorem um_generate_pdu_spec h e now buffer size :
  um_tx_inv h e -> size <= zlen buffer ->
  exists h' e' buffer' ret,
    generate_pdu h e now buffer size = Ok (h', e', buffer', ret) /\ um_tx_inv h' e' /\
    ((ret = 0 /\ h' = h /\ e' = e) \/
     (exists hdr payload left q, 0 < ret <= size /\ take (Z.to_nat ret) buffer' = hdr ++ payload /\
        1 <= zlen hdr <= 4 /\ 0 < zlen payload /\ (left <> [] -> ret = size) /\
        um_tx_pending h e = (payload ++ left) :: q /\ um_tx_pending h' e' = rest_of left q) \/
     (ret = 0 /\ size = 2 /\ um_sn_field_length e = 12 /\
      um_tx_pending h' e' = tail (um_tx_pending h e) /\ um_tx_size e' = um_tx_size e)).
Proof.
  intros Hinv Hbuf. change generate_pdu with generate_tx_pdu.
  assert (forall seg, 1 <= compute_pdu_header_size e seg <= 4) as Hc by (intros; apply compute_pdu_header_size_range).
  destruct (sl_list (um_tx e)) as [|seg rest] eqn:Hl.
  { rewrite generate_idle by by rewrite Hl. eauto 10. }
  pose proof (txi_live h e Hinv) as Hlive. rewrite Hl in Hlive. apply Forall_cons in Hlive as [Hseg _].
  pose proof Hseg as (s & _ & _ & _ & Hsz & _ & _ & Hlast & _).
  destruct (Z.lt_ge_cases size (compute_pdu_header_size e seg + 1)).
  { rewrite generate_idle by by rewrite Hl. eauto 10. }
  destruct (Z.lt_ge_cases size (seg_cost e seg)) as [Hlt|Hge].
  - destruct (Z.lt_ge_cases size (compute_pdu_header_size e (cut_head seg 0) + 1)) as [Hno|Hsplit].
    + destruct (generate_lost h e now buffer size seg rest) as (h' & e' & -> & Hinv' & Hl' & Hm & Hts); [done..|].
      eexists h', e', _, _. split_and!; [done|done|]. right; right.
      unfold um_tx_pending. rewrite Hl, Hl'. simpl. split_and!; [done| | |done|done].
      all: revert Hno H; unfold compute_pdu_header_size, cut_head; cbn [seg_is_first seg_is_last];
        rewrite Hlast; repeat case_bool_; bool_hyps; lia.
    + destruct (generate_split h e now buffer size seg rest) as (h' & e' & b & -> & Hinv' & Hl' & Hm & Hb & Hs & _);
        [done..|]. destruct Hs as (hdr & [Hh _] & Hp & _ & Ht).
      eexists h', e', _, _. split_and!; [done|done|]. right; left.
      eexists hdr, _, _, (map (seg_bytes h) rest). unfold um_tx_pending. rewrite Hl, Hl'.
      pose proof (Hc seg). split_and!; [lia|lia|exact Ht|rewrite Hh; apply Hc|rewrite Hh; apply Hc|rewrite Hp; simpl; lia|done| |].
      * simpl. f_equal. exact Hb.
      * simpl. rewrite Hm. pose proof (txi_live h' e' Hinv') as Hlive. rewrite Hl' in Hlive.
        apply Forall_cons in Hlive as [Hnx _]. pose proof (zlen_seg_bytes h' _ Hnx) as Hz.
        destruct (seg_bytes h' _); [|done]. destruct Hnx as (? & _ & _ & _ & ? & _). rewrite zlen_nil in Hz. lia.
  - destruct (generate_whole h e now buffer size seg rest) as (h' & e' & b & -> & Hinv' & Hl' & Hm & Hs & _); [done|done|lia|].
    destruct Hs as (hdr & [Hh _] & Hp & _ & Ht).
    eexists h', e', _, _. split_and!; [done|done|]. right; left.
    exists hdr, (seg_bytes h seg), [], (map (seg_bytes h) rest). unfold um_tx_pending. rewrite Hl, Hl', app_nil_r.
    pose proof (Hc seg). unfold seg_cost in *.
    split_and!; [lia|lia|exact Ht|rewrite Hh; apply Hc|rewrite Hh; apply Hc|rewrite Hp; lia|done|done|done].
Qed.

(** A state reached from a new entity of 12-bit SN and 20 bytes of room. *)
Definition um_new12 : nr_rlc_entity_um :=
  match new_nr_rlc_entity_um 1000 20 35 12 with Ok e => e | Fail _ => um_new 1000 6 end.

Definition um_example_st (ops : list um_op) : rlc_heap * nr_rlc_entity_um :=
  match um_run (heap_empty, um_new12) ops with Ok (st, _) => st | Fail _ => (heap_empty, um_new12) end.

Lemma um_example_st_inv ops : Forall um_op_ok ops -> um_inv (um_example_st ops).
Proof.
  intros Hops. assert (um_inv (heap_empty, um_new12)) as H.
  { split; [by eapply (um_rx_inv_new 1000 20 35 12)|by eapply (um_tx_inv_new 1000 20 35 12)]. }
  unfold um_example_st. destruct (um_run_ok ops _ H Hops) as (st & out & -> & Hst). done.
Qed.

Lemma um_generate_pdu_spec_witness :
  let st := um_example_st [um_op_recv_sdu 0 [1; 2; 3; 4; 5] 5 7] in
  exists h' e' buffer' ret,
    generate_pdu (fst st) (snd st) 0 (replicate 8 0) 4 = Ok (h', e', buffer', ret) /\ um_tx_inv h' e' /\
    ((ret = 0 /\ h' = fst st /\ e' = snd st) \/
     (exists hdr payload left q, 0 < ret <= 4 /\ take (Z.to_nat ret) buffer' = hdr ++ payload /\
        1 <= zlen hdr <= 4 /\ 0 < zlen payload /\ (left <> [] -> ret = 4) /\
        um_tx_pending (fst st) (snd st) = (payload ++ left) :: q /\ um_tx_pending h' e' = rest_of left q) \/
     (ret = 0 /\ 4 = 2 /\ um_sn_field_length (snd st) = 12 /\
      um_tx_pending h' e' = tail (um_tx_pending (fst st) (snd st)) /\ um_tx_size e' = um_tx_size (snd st))).
Proof.
  intros st. apply um_generate_pdu_spec; [|done].
  apply um_example_st_inv. repeat constructor; simpl; vm_compute; by auto.
Defined.

(** The grant of two bytes: whenever the first SDU of a 12-bit entity is
    whole and longer than one byte, asking for a PDU of two bytes returns
    nothing, removes that SDU from the queue and from the buffer status, and
    keeps its bytes counted in [tx_size]. *)
Theorem um_two_byte_grant_loses_sdu h e now buffer seg rest :
  um_tx_inv h e -> um_sn_field_length e = 12 -> sl_list (um_tx e) = seg :: rest ->
  seg_is_first seg = true -> 1 < seg_size seg ->
  exists h' e', generate_pdu h e now buffer 2 = Ok (h', e', buffer, 0) /\
    um_tx_pending h' e' = tail (um_tx_pending h e) /\
    bs_tx_size (bstatus (um_common e')) = bs_tx_size (bstatus (um_common e)) - (1 + seg_size seg) /\
    um_tx_size e' = um_tx_size e.
Proof.
  intros Hinv H12 Hl Hfirst Hsz. change generate_pdu with generate_tx_pdu.
  pose proof (txi_live h e Hinv) as Hlive. rewrite Hl in Hlive. apply Forall_cons in Hlive as [Hseg _].
  destruct Hseg as (s & _ & _ & _ & _ & _ & _ & Hlast & _).
  assert (Hc : compute_pdu_header_size e seg = 1).
  { unfold compute_pdu_header_size. by rewrite Hfirst, Hlast. }
  assert (Hc' : compute_pdu_header_size e (cut_head seg 0) = 2).
  { unfold compute_pdu_header_size, cut_head. cbn [seg_is_first seg_is_last]. by rewrite Hfirst, H12. }
  destruct (generate_lost h e now buffer 2 seg rest) as (h' & e' & Hg & Hinv' & Hl' & Hm & Hts);
    [done|done|unfold seg_cost; lia|lia|].
  exists h', e'. split_and!; [done| | |done].
  - unfold um_tx_pending. by rewrite Hl, Hl'.
  - rewrite (txi_bs h' e' Hinv'), (txi_bs h e Hinv), Hl, Hl'. simpl.
    assert (seg_cost e seg = 1 + seg_size seg) by (unfold seg_cost; lia).
    assert (seg_cost e' = seg_cost e) as ->; [|lia].
    apply generate_tx_pdu_rx in Hg. unfold um_rx_part in Hg. injection Hg as Hlen _ _ _ _ _ _ _.
    unfold seg_cost, compute_pdu_header_size. by rewrite Hlen.
Qed.

Lemma um_two_byte_grant_loses_sdu_witness :
  let st := um_example_st [um_op_recv_sdu 0 [1; 2; 3; 4; 5] 5 7] in
  exists h' e', generate_pdu (fst st) (snd st) 0 [0; 0; 0] 2 = Ok (h', e', [0; 0; 0], 0) /\
    um_tx_pending h' e' = tail (um_tx_pending (fst st) (snd st)) /\
    bs_tx_size (bstatus (um_common e')) = bs_tx_size (bstatus (um_common (snd st))) - (1 + 5) /\
    um_tx_size e' = um_tx_size (snd st).
Proof.
  intros st. apply (um_two_byte_grant_loses_sdu _ _ 0 [0; 0; 0] (mk_seg 1 0 5 0 true true) []);
    [|vm_compute; by reflexivity..].
  apply um_example_st_inv. repeat constructor; simpl; vm_compute; by auto.
Defined.

(** [discard_sdu] takes an SDU that is still whole out of the queue and out
    of the buffer status, but its bytes stay counted in [tx_size]: the room the
    entity announces is the same as before. *)
Theorem um_discard_keeps_tx_size h e sdu_id :
  um_tx_inv h e ->
  exists h' e', discard_sdu h e sdu_id = Ok (h', e') /\ um_tx_inv h' e' /\
    available_tx_space e' = available_tx_space e /\
    (e' = e \/ exists pre seg post, sl_list (um_tx e) = pre ++ seg :: post /\
       sl_list (um_tx e') = pre ++ post /\
       zsum seg_size (sl_list (um_tx e')) = zsum seg_size (sl_list (um_tx e)) - seg_size seg).
Proof.
  intros Hinv. destruct (discard_sdu_ok h e sdu_id Hinv) as (h' & e' & Hd & Hinv' & Hts & _ & Hcase).
  change (discard_sdu h e sdu_id) with (nr_rlc_entity_um_discard_sdu h e sdu_id).
  exists h', e'. split_and!; [done|done| |].
  - change (um_tx_maxsize e' - um_tx_size e' = um_tx_maxsize e - um_tx_size e). rewrite Hts. f_equal.
    unfold nr_rlc_entity_um_discard_sdu in Hd. apply rbind_ok in Hd as ([pre [[cur post]|]] & _ & Hd);
      [|by injection Hd as _ <-].
    revert Hd. case_bool_; [by intros [= _ <-]|]. cbv zeta. by intros ([h1 r] & _ & [= _ <-])%rbind_ok.
  - destruct Hcase as [[_ ?]|(pre & seg & post & Hl & Hl' & _)]; [by left|right].
    exists pre, seg, post. split_and!; [done|done|]. rewrite Hl, Hl', !zsum_app. simpl. lia.
Qed.

(** Four SDUs of five bytes fill the room of 20 bytes; once they are
    discarded, the queue is empty and the next SDU is still refused. *)
Lemma um_discard_keeps_tx_size_witness :
  let fill := [um_op_recv_sdu 0 [1; 2; 3; 4; 5] 5 7; um_op_recv_sdu 0 [1; 2; 3; 4; 5] 5 8;
               um_op_recv_sdu 0 [1; 2; 3; 4; 5] 5 9; um_op_recv_sdu 0 [1; 2; 3; 4; 5] 5 10] in
  let st := um_example_st (fill ++ [um_op_discard 7; um_op_discard 8; um_op_discard 9]) in
  let refused := um_example_st (fill ++ map um_op_discard [7; 8; 9; 10] ++ [um_op_recv_sdu 0 [1; 2; 3] 3 11]) in
  sl_list (um_tx (snd refused)) = [] /\
  exists h' e', discard_sdu (fst st) (snd st) 10 = Ok (h', e') /\ um_tx_inv h' e' /\
    available_tx_space e' = available_tx_space (snd st) /\
    (e' = snd st \/ exists pre seg post, sl_list (um_tx (snd st)) = pre ++ seg :: post /\
       sl_list (um_tx e') = pre ++ post /\
       zsum seg_size (sl_list (um_tx e')) = zsum seg_size (sl_list (um_tx (snd st))) - seg_size seg).
Proof.
  intros fill st refused. split; [by vm_compute|]. apply um_discard_keeps_tx_size.
  apply um_example_st_inv. repeat constructor; simpl; vm_compute; by auto.
Defined.
