(* ===== verification/RlcUmSync.v ===== *)
(** The two sides of an NR RLC UM bearer on a channel that loses nothing and
    keeps the order: the header round trip, the point of the stream that the
    receiver is at, the point that the transmitter is at, and what a PDU does to
    both. *)

From S2P Require Import Prelude RlcPdu RlcSdu TimeStat RlcEntity RlcUm RlcUmRx RlcUmTx RlcUmEntity.

(** ** The header *)

(** [hdr] is the header of [seg] for an entity of this SN length. *)
Record um_header_of (e : nr_rlc_entity_um) (sn : Z) (seg : nr_rlc_sdu_segment) (hdr : bytes) : Prop := {
  uho_cfg : um_cfg e;
  uho_sn : sn_ok e sn;
  uho_so : 0 <= seg_so seg < 2 ^ 16;
  uho_first : seg_is_first seg = true <-> seg_so seg = 0;
  uho_hdr : is_header e sn seg hdr
}.

(** What [recv_pdu] does with a PDU that was built from that header. *)
Definition um_recv_decoded (e : nr_rlc_entity_um) (sn : Z) (seg : nr_rlc_sdu_segment) (hdr data : bytes)
    : res (nr_rlc_entity_um * list event) :=
  let e0 := um_stats (stats_rxpdu (zlen (hdr ++ data))) e in
  if seg_is_first seg && seg_is_last seg then Ok (um_stats (stats_delivered (zlen data)) e0, [deliver_sdu data])
  else um_recv_segment e0 (hdr ++ data) sn (seg_so seg) (seg_is_first seg) (seg_is_last seg) (zlen hdr).

Lemma bit_field_ok (b : bool) : field_ok (Z.b2z b, 1).
Proof. unfold field_ok. destruct b; simpl; lia. Qed.

(** The reserved bits before the SN. *)
Lemma um_reserved_ok e d rest :
  dec_wf d -> nr_rlc_pdu_decoder_in_error d = false ->
  dec_stream d = fields_bits (if um_sn_field_length e =? 12 then [(0, 2)] else []) ++ rest ->
  exists v d', (if um_sn_field_length e =? 12 then nr_rlc_pdu_decoder_get_bits d 2 else Ok (0, d)) = Ok (v, d') /\
    nr_rlc_pdu_decoder_in_error d' = false /\ dec_wf d' /\ dec_stream d' = rest /\
    dec_pos d' = dec_pos d + (if um_sn_field_length e =? 12 then 2 else 0).
Proof.
  intros Hwf He Hs. destruct (_ =? 12); [|by eexists _, d; split_and!; (done || lia)].
  unfold fields_bits in Hs. simpl in Hs. change [false; false] with (low_bits (Z.to_nat 2) 0) in Hs.
  destruct (get_field_ok d 0 2 rest Hwf ltac:(unfold field_ok; simpl; lia) Hs) as (d' & -> & ? & ? & ? & ?). eauto 10.
Qed.

Lemma um_recv_pdu_header e sn seg hdr data :
  um_header_of e sn seg hdr -> 0 < zlen data ->
  nr_rlc_entity_um_recv_pdu e (hdr ++ data) = um_recv_decoded e sn seg hdr data.
Proof.
  intros [[Hlen Hmod _] Hsn Hso Hfirst [Hz Hb]] Hdata. unfold nr_rlc_entity_um_recv_pdu, um_recv_decoded. cbv zeta.
  fold (stats_rxpdu (zlen (hdr ++ data))). set (e0 := um_stats _ e).
  change (um_sn_field_length e) with (um_sn_field_length e0) in Hlen, Hmod.
  pose proof (decoder_init_wf (hdr ++ data)) as Hwf. set (d0 := nr_rlc_pdu_decoder_init _ _) in *.
  assert (Hp0 : dec_pos d0 = 0) by done.
  assert (Hstr : dec_stream d0 = bits_of_bytes (hdr ++ data)) by apply decoder_init_stream.
  rewrite bits_of_bytes_app, Hb in Hstr. unfold seg_header, um_header in Hstr. clearbody d0. change (um_sn_field_length e) with (um_sn_field_length e0) in Hstr.
  destruct (si_bits (seg_is_first seg) (seg_is_last seg)) as (Hsi & Hsf & Hsl).
  set (si := 2 * (1 - Z.b2z (seg_is_first seg)) + (1 - Z.b2z (seg_is_last seg))) in *.
  assert (Hs0 : exists rest, dec_stream d0 = low_bits (Z.to_nat 2) si ++ rest /\
    rest = fields_bits ((if seg_is_first seg && seg_is_last seg then [(0, 6)]
      else (if um_sn_field_length e0 =? 12 then [(0, 2)] else []) ++ [(sn, um_sn_field_length e0)])
      ++ (if negb (seg_is_first seg) then [(seg_so seg, 16)] else [])) ++ bits_of_bytes data).
  { eexists. split; [|done]. rewrite Hstr, <- Hsi. unfold fields_bits. by destruct (seg_is_first seg), (seg_is_last seg). }
  destruct Hs0 as (rest & Hs0 & Hrest).
  destruct (get_field_ok d0 si 2 rest Hwf ltac:(unfold field_ok, si; destruct (seg_is_first seg), (seg_is_last seg); simpl; lia) Hs0)
    as (d1 & -> & He1 & Hwf1 & Hs1 & Hp1). cbn [rbind]. rewrite He1, Hsf, Hsl. rewrite Hrest in Hs1. clear Hsi Hsf Hsl Hs0 Hrest Hstr.
  destruct (seg_is_first seg && seg_is_last seg) eqn:Hfl.
  { apply andb_true_iff in Hfl as [Hf Hl].
    assert (zlen hdr = 1) as Hh by (rewrite Hz; unfold compute_pdu_header_size; by rewrite Hf, Hl).
    rewrite zlen_app, (proj2 (Z.ltb_ge _ _)) by lia. rewrite buf_read_ok by (rewrite ?zlen_app; lia). cbn [rbind].
    assert (length hdr = 1%nat) as Hn by (unfold zlen in Hh; lia).
    change (Z.to_nat 1) with 1%nat. rewrite <- Hn, drop_app_length, take_ge by (unfold zlen in *; lia).
    do 4 f_equal. lia. }
  unfold fields_bits in Hs1. rewrite !map_app, !concat_app, <- !app_assoc in Hs1.
  destruct (um_reserved_ok e0 d1 _ Hwf1 He1 Hs1) as (v & d2 & -> & He2 & Hwf2 & Hs2 & Hp2). cbn [rbind]. rewrite He2.
  cbn [map concat fst snd app] in Hs2. rewrite app_nil_r, <- ?app_assoc in Hs2.
  assert (0 <= sn < 2 ^ um_sn_field_length e0) as Hsn' by (rewrite <- Hmod; exact Hsn).
  assert (field_ok (sn, um_sn_field_length e0)) as Hfo by (split; [cbn [snd]; lia|exact Hsn']).
  destruct (get_field_ok d2 sn (um_sn_field_length e0) _ Hwf2 Hfo Hs2)
    as (d3 & -> & He3 & Hwf3 & Hs3 & Hp3). cbn [rbind]. rewrite He3.
  unfold compute_pdu_header_size in Hz. rewrite Hfl in Hz. change (um_sn_field_length e) with (um_sn_field_length e0) in Hz.
  destruct (seg_is_first seg) eqn:Hf.
  - rewrite (proj1 Hfirst eq_refl). f_equal. destruct Hwf3 as (_ & _ & ? & _). unfold dec_pos in *. simpl negb in Hz.
    destruct Hlen as [Hl|Hl]; rewrite Hl in *; simpl in *; lia.
  - cbn [negb map concat fst snd app] in Hs3. rewrite app_nil_r in Hs3.
    destruct (get_field_ok d3 (seg_so seg) 16 _ Hwf3 ltac:(unfold field_ok; simpl; lia) Hs3) as (d4 & -> & He4 & Hwf4 & _ & Hp4).
    cbn [rbind]. rewrite He4. assert (seg_so seg <> 0) as Hne by (intros H0; by apply Hfirst in H0).
    rewrite (proj2 (Z.eqb_neq _ _)) by done. f_equal. destruct Hwf4 as (_ & _ & ? & _). unfold dec_pos in *. simpl negb in Hz.
    destruct Hlen as [Hl|Hl]; rewrite Hl in *; simpl in *; lia.
Qed.

(** ** Segments that follow each other *)

(** [l] holds the bytes of [d] from [a] to [b], in consecutive segments of [sn]. *)
Fixpoint tiles (d : bytes) (sn a : Z) (l : list nr_rlc_pdu) (b : Z) : Prop :=
  match l with
  | [] => a = b
  | p :: l' => pdu_sn p = sn /\ seg_of d p /\ pdu_so p = a /\ tiles d sn (a + pdu_size p) l' b
  end.

Section Tiles.
Context (d : bytes) (sn : Z).

Lemma tiles_snoc l : forall a b p, tiles d sn a l b -> pdu_sn p = sn -> seg_of d p -> pdu_so p = b ->
  tiles d sn a (l ++ [p]) (b + pdu_size p).
Proof. induction l as [|q l IH]; intros a b p; simpl; [by intros ->|]. intros (? & ? & ? & ?) ???. split_and!; auto. Qed.

Lemma tiles_le l : forall a b, tiles d sn a l b -> a <= b.
Proof. induction l as [|q l IH]; intros a b; simpl; [lia|]. intros (_ & (_ & ? & _) & _ & ?%IH). lia. Qed.

Lemma tiles_sn l : forall a b, tiles d sn a l b -> Forall (fun p => pdu_sn p = sn) l.
Proof. induction l as [|q l IH]; intros a b; simpl; [done|]. intros (? & _ & _ & ?%IH). by constructor. Qed.

Lemma tiles_segs l : forall a b, tiles d sn a l b -> segs_of d sn l.
Proof. induction l as [|q l IH]; intros a b; simpl; [constructor|]. intros (_ & ? & _ & ?%IH). by constructor. Qed.

Lemma tiles_size l : forall a b, tiles d sn a l b -> zsum pdu_size l = b - a.
Proof. induction l as [|q l IH]; intros a b; simpl; [lia|]. intros (_ & _ & _ & ->%IH). lia. Qed.

Lemma tiles_before l : forall a b, tiles d sn a l b -> Forall (fun p => pdu_so p <= b) l.
Proof.
  induction l as [|q l IH]; intros a b; simpl; [done|]. intros (_ & (_ & ? & _) & ? & Ht). constructor; [|by eapply IH].
  apply tiles_le in Ht. lia.
Qed.

Lemma last_byte_tile p a : 0 < pdu_size p -> pdu_so p = a -> new_last_byte p (a - 1) = a + pdu_size p - 1.
Proof. intros Hs <-. unfold new_last_byte. rewrite (proj2 (Z.ltb_lt _ _)); lia. Qed.

Lemma tiles_no_gap l : forall a b, tiles d sn a l b -> missing_loop sn (a - 1) l = false.
Proof.
  induction l as [|p l IH]; intros a b; simpl; [done|]. intros (Hsn & (_ & ? & _) & Hso & Ht).
  rewrite (proj2 (Z.eqb_eq _ _)) by done. simpl. rewrite (proj2 (Z.ltb_ge _ _)), last_byte_tile by (done || lia). by eapply IH.
Qed.

(** The SDU is full exactly when its last byte is there. *)
Lemma tiles_full l : forall a b, tiles d sn a l b -> sdu_full_loop sn (a - 1) l = negb (is_nil l) && (b =? zlen d).
Proof.
  induction l as [|p l IH]; intros a b; simpl; [done|]. intros (Hsn & (_ & ? & ? & _ & Hlast) & Hso & Ht).
  rewrite (proj2 (Z.eqb_eq _ _)) by done. simpl. rewrite (proj2 (Z.ltb_ge _ _)), last_byte_tile by (done || lia).
  destruct (pdu_is_last p).
  - pose proof (proj1 Hlast eq_refl). destruct l as [|q l]; simpl in Ht; [lia|].
    destruct Ht as (_ & (_ & ? & ? & _) & ? & _). lia.
  - rewrite (IH _ _ Ht). destruct l as [|q l]; simpl; [|done]. simpl in Ht. subst b.
    symmetry. apply Z.eqb_neq. intros Heq. enough (false = true) by done. apply Hlast. lia.
Qed.

(** A list that holds segments of [sn] only after processed ones of others. *)
Context (old : list nr_rlc_pdu) (Hold : Forall (fun p => pdu_sn p <> sn) old).

Lemma tiles_list l b : tiles d sn 0 l b ->
  from_sn sn (old ++ l) = l /\ sdu_has_missing_bytes (old ++ l) sn = false /\
  sdu_full (old ++ l) sn = negb (is_nil l) && (b =? zlen d).
Proof.
  intros Ht. assert (Hf : from_sn sn (old ++ l) = l).
  { rewrite from_sn_pre by done. destruct l; [done|]. simpl. destruct Ht as [-> _]. by rewrite Z.eqb_refl. }
  pose proof (tiles_no_gap l 0 b Ht) as Hg. pose proof (tiles_full l 0 b Ht) as Hfull. change (0 - 1) with (-1) in Hg, Hfull.
  unfold sdu_has_missing_bytes, sdu_full. rewrite Hf. split; [done|].
  destruct l as [|[? [|] ? ? ? ?] l]; [done|by rewrite Hg, Hfull|]. by destruct Ht as (_ & (_ & _ & _ & [=] & _) & _).
Qed.

Lemma reassemble_tiles l b r l' r' : tiles d sn 0 l b -> l <> [] ->
  reassemble_at sn (old ++ l) r = Ok (l', r') -> l' = old ++ map processed l.
Proof.
  intros Ht Hne Hr. pose proof (tiles_sn l 0 b Ht) as Hsn.
  assert (Hloop : forall k, Forall (fun p => pdu_sn p = sn) k -> forall r l' r', reassemble_loop sn k r = Ok (l', r') -> l' = map processed k).
  { induction 1 as [|p k Hp Hk IH]; intros s m s'; simpl; [by intros [= <- _]|].
    rewrite (proj2 (Z.eqb_eq _ _)) by done. simpl. intros (s1 & _ & H)%rbind_ok. apply rbind_ok in H as ([k' s2] & H & [= <- _]).
    by rewrite (IH _ _ _ H). }
  destruct (reassemble_at_from sn (old ++ l) r) as (pre & Hl & Hat & _).
  { apply Exists_app. right. destruct l as [|p l]; [done|]. constructor. by inversion Hsn. }
  rewrite (proj1 (tiles_list l b Ht)) in Hl, Hat. apply app_inv_tail in Hl as <-. rewrite Hat in Hr.
  apply rbind_ok in Hr as ([k s] & Hk & [= <- <-]). by rewrite (Hloop l Hsn _ _ _ Hk).
Qed.

End Tiles.

(** ** The receiver keeps up *)

(** The SDU that a side is in the middle of, with the number of bytes that are
    done: those that were received, or those that were sent. *)
Definition progress : Type := option (bytes * Z).

Definition progress_ok (c : progress) : Prop :=
  match c with None => True | Some (d, k) => 0 < k < zlen d /\ zlen d <= NR_SDU_MAX end.

Definition um_next_sn (e : nr_rlc_entity_um) (n : Z) : Z := Z.rem (n + 1) (um_sn_modulus e).

(** Everything up to [n] is delivered, and of [n] what [c] says is held. *)
Record um_in_sync (e : nr_rlc_entity_um) (n : Z) (c : progress) (old cur : list nr_rlc_pdu) : Prop := {
  uis_inv : um_rx_inv e;
  uis_reassembly : um_rx_next_reassembly e = n;
  uis_highest : um_rx_next_highest e = match c with None => n | Some _ => um_next_sn e n end;
  uis_timer : um_t_reassembly_start e = 0;
  uis_excess : um_rx_excess e = 0;
  uis_room : NR_SDU_MAX <= um_rx_maxsize e;
  uis_progress : progress_ok c;
  uis_list : um_rx_list e = old ++ cur;
  uis_old : Forall (fun p => pdu_data p = None /\ pdu_sn p <> n) old;
  uis_cur : match c with None => cur = [] | Some (d, k) => tiles d n 0 cur k end
}.

Lemma in_sync_stats f e n c old cur : um_in_sync e n c old cur -> um_in_sync (um_stats f e) n c old cur.
Proof. intros [Hi ? ? ? ? ? ? ? ? ?]. constructor; try done. by apply um_rx_inv_stats. Qed.

Lemma old_sizes e l : um_rx_inv e -> (forall p, p ∈ l -> p ∈ um_rx_list e) -> Forall (fun p => pdu_data p = None) l -> zsum pdu_size l = 0.
Proof.
  intros Hi. pose proof (inv_ok _ (inv_base _ Hi)) as Hok. rewrite Forall_forall in Hok. induction l as [|p l IH]; simpl; [done|].
  intros Hin [Hp Hl]%Forall_cons. rewrite IH; [|set_solver|done]. destruct (Hok p) as (_ & _ & _ & H); [set_solver|]. rewrite Hp in H. lia.
Qed.

(** The bytes held are those of the SDU in progress. *)
Lemma in_sync_size e n c old cur : um_in_sync e n c old cur -> um_rx_size e = match c with None => 0 | Some (_, k) => k end.
Proof.
  intros [Hi _ _ _ Hx _ _ Hl Hold Hc]. unfold um_rx_excess in Hx. rewrite Hl, zsum_app in Hx.
  rewrite (old_sizes e old) in Hx; [|done|rewrite Hl; set_solver|by eapply Forall_impl; [exact Hold|intros ? []]].
  destruct c as [[d k]|]; [rewrite (tiles_size d n cur 0 k Hc) in Hx|subst cur; simpl in Hx]; lia.
Qed.

Section Positions.
Context (e : nr_rlc_entity_um) (Hcfg : um_cfg e) (Hnh : sn_ok e (um_rx_next_highest e)).

Let Hwin := cfg_window_pos e Hcfg.

Lemma next_sn_mod n : sn_ok e n -> um_next_sn e n = (n + 1) mod um_sn_modulus e.
Proof. intros Hn. pose proof (cfg_window e Hcfg). unfold sn_ok in Hn. unfold um_next_sn. apply Z.rem_mod_nonneg; lia. Qed.

Lemma next_sn_ok n : sn_ok e n -> sn_ok e (um_next_sn e n).
Proof. intros Hn. apply (sn_ok_rem e Hcfg). unfold sn_ok in Hn. lia. Qed.

(** The SN before [rx_next_highest] is the last of the window, the one after it
    is beyond it. *)
Lemma before_highest n : sn_ok e n -> um_rx_next_highest e = um_next_sn e n -> modulus_rx e n = um_window_size e - 1.
Proof.
  intros Hn Heq. pose proof (pos_next_highest e Hcfg Hnh) as Hp. rewrite Heq, next_sn_mod, pos_add in Hp by (done || lia).
  pose proof (pos_range e Hcfg Hnh n Hn) as Hr. pose proof (cfg_window e Hcfg).
  destruct (Z.eq_dec (modulus_rx e n) (um_sn_modulus e - 1)) as [Hm|Hm].
  - rewrite Hm in Hp. replace (um_sn_modulus e - 1 + 1) with (0 + 1 * um_sn_modulus e) in Hp by lia.
    rewrite Z.mod_add, Z.mod_0_l in Hp by lia. lia.
  - rewrite Z.mod_small in Hp by lia. lia.
Qed.

Lemma after_highest : modulus_rx e (um_next_sn e (um_rx_next_highest e)) = um_window_size e + 1.
Proof.
  pose proof (cfg_window e Hcfg). pose proof (pos_next_highest e Hcfg Hnh).
  rewrite next_sn_mod, pos_add_small by (done || lia). lia.
Qed.

Lemma next_sn_ne n : sn_ok e n -> um_next_sn e n <> n.
Proof.
  intros Hn Heq. rewrite next_sn_mod in Heq by done. pose proof (cfg_window e Hcfg). unfold sn_ok in Hn.
  rewrite <- (Z.mod_small n (um_sn_modulus e)) in Heq at 2 by lia. apply mod_eq_close in Heq; lia.
Qed.

(** [t_Reassembly] is not started while nothing is missing. *)
Lemma timer_quiet : um_t_reassembly_start e = 0 -> sn_ok e (um_rx_next_reassembly e) ->
  (um_rx_next_highest e = um_next_sn e (um_rx_next_reassembly e) /\
     sdu_has_missing_bytes (um_rx_list e) (um_rx_next_reassembly e) = false) \/
  um_rx_next_highest e = um_rx_next_reassembly e -> timer_update e = e.
Proof.
  intros Ht Hnr Hcase. unfold timer_update. fold (um_next_sn e (um_rx_next_reassembly e)). rewrite Ht. simpl.
  rewrite Ht. unfold sn_compare_rx. destruct Hcase as [[Heq Hm]|Heq].
  - rewrite Hm, <- Heq, Z.sub_diag, andb_false_r. done.
  - rewrite <- Heq, after_highest, pos_next_highest, (proj2 (Z.ltb_ge _ _)) by (done || lia). simpl.
    rewrite (proj2 (Z.eqb_neq _ _)); [done|]. apply not_eq_sym. by apply next_sn_ne.
Qed.

End Positions.

Lemma list_add_end cmp l p :
  Forall (fun q => cmp (pdu_sn q) (pdu_sn p) <= 0 /\ (pdu_sn q = pdu_sn p -> pdu_so q <= pdu_so p)) l ->
  nr_rlc_pdu_list_add cmp l p = l ++ [p].
Proof.
  induction 1 as [|q l [Hc Hn] Hl IH]; [done|]. simpl. rewrite IH, (proj2 (Z.ltb_ge _ _)) by done. simpl.
  destruct (Z.eqb_spec (pdu_sn q) (pdu_sn p)); [|done]. by rewrite (proj2 (Z.ltb_ge _ _)) by auto.
Qed.

(** What a segment that continues [c] leaves to do, with the SDU delivered. *)
Definition after_segment (e : nr_rlc_entity_um) (n : Z) (d : bytes) (p : nr_rlc_pdu) : list event * Z * progress :=
  if pdu_is_last p then ([deliver_sdu d], um_next_sn e n, None) else ([], n, Some (d, pdu_so p + pdu_size p)).

Definition continues (c : progress) (d : bytes) (p : nr_rlc_pdu) : Prop :=
  match c with None => pdu_so p = 0 | Some (d', k) => d' = d /\ pdu_so p = k end.

Section Segment.
Context (e : nr_rlc_entity_um) (n : Z) (c : progress) (old cur : list nr_rlc_pdu) (d : bytes) (p : nr_rlc_pdu).
Hypothesis Hsync : um_in_sync e n c old cur.
Hypothesis Hsn : pdu_sn p = n.
Hypothesis Hseg : seg_of d p.
Hypothesis Hfirst : pdu_is_first p = true <-> pdu_so p = 0.
Hypothesis Hpart : pdu_is_first p && pdu_is_last p = false.
Hypothesis Hcont : continues c d p.
Hypothesis Hmax : zlen d <= NR_SDU_MAX.

Lemma sync_cfg : um_cfg e.
Proof. exact (inv_cfg _ (inv_base _ (uis_inv _ _ _ _ _ Hsync))). Qed.

Lemma sync_nh : sn_ok e (um_rx_next_highest e).
Proof. exact (inv_nh _ (inv_base _ (uis_inv _ _ _ _ _ Hsync))). Qed.

Lemma sync_sn_ok : sn_ok e n.
Proof. rewrite <- (uis_reassembly _ _ _ _ _ Hsync). apply (uis_inv _ _ _ _ _ Hsync). Qed.

Lemma sync_position : modulus_rx e n = match c with None => um_window_size e | Some _ => um_window_size e - 1 end.
Proof.
  pose proof (uis_highest _ _ _ _ _ Hsync) as Hh. pose proof sync_sn_ok as Hn. pose proof (before_highest e sync_cfg sync_nh n Hn) as Hb.
  pose proof (pos_next_highest e sync_cfg sync_nh) as Hp. revert Hh. case c; [auto|]. by intros <-.
Qed.

Lemma sync_tiles : tiles d n 0 (cur ++ [p]) (pdu_so p + pdu_size p).
Proof.
  pose proof (uis_cur _ _ _ _ _ Hsync) as Hc. clear Hsync. unfold continues in Hcont. destruct c as [[d' k]|].
  - destruct Hcont as [-> <-]. by apply tiles_snoc.
  - subst cur. simpl. rewrite Hcont. by split_and!.
Qed.

Lemma sync_old : Forall (fun q => pdu_sn q <> n) old.
Proof. eapply Forall_impl; [apply (uis_old _ _ _ _ _ Hsync)|]. by intros q []. Qed.

Lemma sync_list_add : nr_rlc_pdu_list_add (sn_compare_rx e) (um_rx_list e) p = old ++ cur ++ [p].
Proof.
  pose proof (uis_list _ _ _ _ _ Hsync) as Hl. pose proof (inv_win _ (inv_base _ (uis_inv _ _ _ _ _ Hsync))) as Hw.
  rewrite list_add_end; [by rewrite Hl, <- app_assoc|]. rewrite Hl in Hw |- *. apply Forall_app in Hw as [Hw _].
  rewrite Hsn. unfold sn_compare_rx. apply Forall_app. split.
  - pose proof sync_old as Ho. pose proof sync_position as Hp. pose proof sync_sn_ok as Hn.
    apply Forall_forall. intros q Hq. rewrite Forall_forall in Ho, Hw.
    split; [|intros Heq; by destruct (Ho q Hq)]. destruct (Hw q Hq) as [_ ?]. rewrite Hp. case c; lia.
  - pose proof (uis_cur _ _ _ _ _ Hsync) as Hc. clear Hsync. unfold continues in Hcont. destruct c as [[d' k]|]; [|by subst cur].
    destruct Hcont as [-> Hk]. pose proof (tiles_sn _ _ _ _ _ Hc) as Hs. pose proof (tiles_before _ _ _ _ _ Hc) as Hb.
    apply Forall_forall. intros q Hq. rewrite Forall_forall in Hs, Hb. rewrite (Hs q Hq). specialize (Hb q Hq). lia.
Qed.

(** The entity with the segment stored. *)
Definition stored_one : nr_rlc_entity_um :=
  {| e with um_rx_size := um_rx_size e + pdu_size p; um_rx_list := old ++ cur ++ [p] |}.

Lemma sync_recv hdr : um_recv_segment e (hdr ++ take (Z.to_nat (pdu_size p)) (drop (Z.to_nat (pdu_so p)) d)) n (pdu_so p)
    (pdu_is_first p) (pdu_is_last p) (zlen hdr) = reception_actions stored_one n.
Proof.
  pose proof Hseg as (Hso & Hsz & Hle & Hdata & _). set (data := take _ _) in *.
  assert (Hz : zlen data = pdu_size p) by (unfold data; rewrite zlen_take, ?zlen_drop; rewrite ?zlen_drop; lia).
  unfold um_recv_segment. cbv zeta. rewrite zlen_app. replace (zlen hdr + zlen data - zlen hdr) with (zlen data) by lia.
  rewrite (proj2 (Z.leb_gt _ _)) by lia. pose proof (uis_room _ _ _ _ _ Hsync) as Hroom.
  assert (um_rx_size e + zlen data <= zlen d) as Hrs.
  { pose proof (in_sync_size _ _ _ _ _ Hsync) as ->. rewrite Hz. clear Hsync. unfold continues in Hcont. destruct c as [[d' k]|]; [|lia]. destruct Hcont. lia. }
  rewrite (proj2 (Z.ltb_ge _ _)) by lia. assert (sn_compare_rx e n (um_rx_next_reassembly e) = 0) as ->.
  { rewrite (uis_reassembly _ _ _ _ _ Hsync). unfold sn_compare_rx. lia. }
  change (0 <? 0) with false. cbv iota. pose proof (zlen_nonneg hdr).
  rewrite buf_read_ok by (rewrite ?zlen_app; lia). cbn [rbind].
  replace (Z.to_nat (zlen hdr + zlen data - zlen data)) with (length hdr) by (unfold zlen; lia).
  rewrite drop_app_length, take_ge by (unfold zlen; lia). unfold nr_rlc_new_pdu. rewrite buf_read_all. cbn [rbind pdu_sn].
  assert (mk_pdu n (Some data) (zlen data) (pdu_so p) (pdu_is_first p) (pdu_is_last p) = p) as ->.
  { rewrite Hz, <- Hdata, <- Hsn. by destruct p. }
  by rewrite sync_list_add, Hz.
Qed.

Lemma sync_result : exists e' ev, reception_actions stored_one n = Ok (e', ev) /\ um_rx_inv e' /\ um_rx_excess e' = 0.
Proof.
  pose proof Hseg as (Hso & _). rewrite <- (sync_recv []), <- (uis_excess _ _ _ _ _ Hsync).
  apply um_recv_segment_ok; [apply (uis_inv _ _ _ _ _ Hsync)|apply sync_sn_ok|done..].
Qed.

Lemma sync_not_full : pdu_is_last p = false -> pdu_so p + pdu_size p < zlen d.
Proof. pose proof Hseg as (_ & _ & Hle & _ & Hl). intros Hf. rewrite Hf in Hl. destruct (Z.eq_dec (pdu_so p + pdu_size p) (zlen d)) as [?%Hl|]; [done|lia]. Qed.

Lemma sync_full : sdu_full (um_rx_list stored_one) n = pdu_is_last p.
Proof.
  destruct (tiles_list d n old sync_old _ _ sync_tiles) as (_ & _ & Hf). simpl. rewrite Hf.
  assert (is_nil (cur ++ [p]) = false) as -> by by destruct cur. simpl. pose proof Hseg as (_ & _ & Hle & _ & Hl).
  pose proof sync_not_full as Hnf. revert Hl Hnf. case (pdu_is_last p); intros Hl Hnf; [apply Z.eqb_eq; by apply Hl|].
  apply Z.eqb_neq. specialize (Hnf eq_refl). lia.
Qed.

Lemma sync_no_missing l : Forall (fun q => pdu_sn q <> n) l -> sdu_has_missing_bytes (l ++ cur ++ [p]) n = false.
Proof. intros Hl. apply (tiles_list d n l Hl _ _ sync_tiles). Qed.

(** The first segment moves the window. *)
Lemma sync_first_update : c = None -> pdu_is_last p = false ->
  exists cc pre old', old = pre ++ old' /\ reception_update stored_one n
    = Ok ({| stored_one with um_rx_next_highest := um_next_sn e n; um_common := cc; um_rx_list := old' ++ [p];
               um_rx_size := um_rx_size stored_one - zsum pdu_size pre |}, []).
Proof.
  intros Hnone Hl. pose proof (uis_cur _ _ _ _ _ Hsync) as Hc. pose proof (uis_highest _ _ _ _ _ Hsync) as Hh.
  rewrite Hnone in Hc, Hh. unfold reception_update. rewrite sync_full, Hl.
  assert (sn_compare_rx stored_one n (um_rx_next_highest stored_one) = 0) as ->.
  { change (modulus_rx e n - modulus_rx e (um_rx_next_highest e) = 0). rewrite Hh. lia. }
  change (0 <=? 0) with true. cbv iota zeta. change (Z.rem (n + 1) (um_sn_modulus stored_one)) with (um_next_sn e n).
  set (e1 := {| stored_one with um_rx_next_highest := _ |}).
  assert (Hc1 : um_cfg e1) by (destruct sync_cfg; by constructor).
  assert (Hn1 : sn_ok e1 (um_rx_next_highest e1)) by exact (next_sn_ok e sync_cfg n sync_sn_ok).
  pose proof (before_highest e1 Hc1 Hn1 n sync_sn_ok eq_refl) as Hb. pose proof (pos_next_highest e1 Hc1 Hn1) as Hp1.
  destruct (discard_outside_spec (um_rx_list e1) e1) as (cc & pre & post & Hlist & Hpre & _ & ->).
  assert (exists old', old = pre ++ old' /\ post = old' ++ [p]) as (old' & Hold & ->).
  { simpl in Hlist. rewrite Hc in Hlist. simpl in Hlist. destruct (app_eq_inv _ _ _ _ Hlist) as [(k & H1 & H2)|(k & H1 & H2)]; [by exists k|].
    destruct k as [|q k]; [exists []; simpl in H2; rewrite app_nil_r in H1; by rewrite app_nil_r|].
    injection H2 as <- H2. exfalso. rewrite H1 in Hpre. apply Forall_app in Hpre as [_ Hpre]. apply Forall_cons in Hpre as [Hpre _].
    unfold sn_compare_rx in Hpre. rewrite Hsn in Hpre. lia. }
  exists cc, pre, old'. split; [done|].
  match goal with |- context [sn_compare_rx ?x ?a ?b] => assert (sn_compare_rx x a b = -1) as -> end.
  { change (modulus_rx e1 (um_rx_next_reassembly e) - modulus_rx e1 (um_rx_next_highest e1) = -1).
    rewrite (uis_reassembly _ _ _ _ _ Hsync). lia. }
  done.
Qed.

(** One in the middle changes nothing else. *)
Lemma sync_middle_update : c <> None -> pdu_is_last p = false -> reception_update stored_one n = Ok (stored_one, []).
Proof.
  intros Hc Hl. unfold reception_update. rewrite sync_full, Hl.
  assert (sn_compare_rx stored_one n (um_rx_next_highest stored_one) = -1) as ->; [|done].
  change (modulus_rx e n - modulus_rx e (um_rx_next_highest e) = -1).
  rewrite sync_position, (pos_next_highest e sync_cfg sync_nh). revert Hc. case c; [lia|done].
Qed.

Lemma sync_part_update : pdu_is_last p = false -> exists cc old' size, Forall (fun q => q ∈ old) old' /\
  reception_update stored_one n = Ok ({| stored_one with um_rx_next_highest := um_next_sn e n; um_common := cc;
    um_rx_list := old' ++ cur ++ [p]; um_rx_size := size |}, []).
Proof.
  intros Hl. pose proof (uis_cur _ _ _ _ _ Hsync) as Hcur. pose proof (uis_highest _ _ _ _ _ Hsync) as Hh.
  pose proof sync_first_update as Hf. pose proof sync_middle_update as Hm. destruct (decide (c = None)) as [Hc|Hc].
  - destruct (Hf Hc Hl) as (cc & pre & old' & -> & ->). rewrite Hc in Hcur. rewrite Hcur. exists cc, old'.
    eexists. split; [|done]. apply Forall_forall. intros q Hq. apply elem_of_app. by right.
  - exists (um_common e), old, (um_rx_size stored_one). split; [by apply Forall_forall|]. rewrite (Hm Hc Hl). do 2 f_equal.
    assert (um_next_sn e n = um_rx_next_highest e) as -> by (revert Hh Hc; by case c). done.
Qed.

Lemma sync_part : pdu_is_last p = false -> exists e' old',
  reception_actions stored_one n = Ok (e', []) /\ um_in_sync e' n (Some (d, pdu_so p + pdu_size p)) old' (cur ++ [p]) /\
  um_sn_field_length e' = um_sn_field_length e.
Proof.
  intros Hl. destruct (sync_part_update Hl) as (cc & old' & size & Hin & Hu).
  destruct sync_result as (e' & ev & Hr & Hinv & Hexc). pose proof Hr as Hr'. unfold reception_actions in Hr. rewrite Hu in Hr.
  cbn [rbind] in Hr. match type of Hr with Ok (timer_update ?x, _) = _ => set (e2 := x) in Hr end.
  assert (Hold : Forall (fun q => pdu_data q = None /\ pdu_sn q <> n) old').
  { pose proof (uis_old _ _ _ _ _ Hsync) as Ho. rewrite Forall_forall in Ho. eapply Forall_impl; [exact Hin|]. intros q Hq. by apply Ho. }
  assert (um_rx_next_reassembly e2 = n) as Hnr by exact (uis_reassembly _ _ _ _ _ Hsync).
  rewrite timer_quiet in Hr.
  - injection Hr as <- <-. exists e2, old'. split; [done|]. split; [|done]. pose proof Hseg as (? & ? & _).
    pose proof (sync_not_full Hl). constructor; try done.
    + exact (uis_timer _ _ _ _ _ Hsync).
    + exact (uis_room _ _ _ _ _ Hsync).
    + simpl. lia.
    + apply sync_tiles.
  - destruct sync_cfg. by constructor.
  - exact (next_sn_ok e sync_cfg n sync_sn_ok).
  - exact (uis_timer _ _ _ _ _ Hsync).
  - rewrite Hnr. exact sync_sn_ok.
  - left. rewrite Hnr. split; [done|]. apply sync_no_missing. eapply Forall_impl; [exact Hold|]. by intros q [].
Qed.

(** The last segment delivers the SDU. *)
Lemma sync_last : pdu_is_last p = true -> exists e' old',
  reception_actions stored_one n = Ok (e', [deliver_sdu d]) /\ um_in_sync e' (um_next_sn e n) None old' [] /\
  um_sn_field_length e' = um_sn_field_length e.
Proof.
  intros Hl. pose proof (uis_highest _ _ _ _ _ Hsync) as Hh.
  assert (um_rx_next_highest e = um_next_sn e n) as Hnh.
  { revert Hh Hcont. unfold continues. case c; [done|]. intros _ Hso. apply Hfirst in Hso. by rewrite Hso, Hl in Hpart. }
  destruct (reassemble_and_deliver_full stored_one n d) as (e1 & Hrd & Hdel); [|done|by rewrite sync_full|].
  { simpl. apply Forall_app. split; [|exact (tiles_segs d n _ _ _ sync_tiles)].
    eapply Forall_impl; [exact sync_old|]. intros q Hq Heq. done. }
  assert (Hlist : um_rx_list e1 = old ++ map processed (cur ++ [p]) /\ um_rx_next_reassembly e1 = n /\
    um_rx_next_highest e1 = um_next_sn e n /\ um_cfg e1 /\ um_sn_modulus e1 = um_sn_modulus e /\ um_t_reassembly_start e1 = 0 /\
    NR_SDU_MAX <= um_rx_maxsize e1 /\ um_sn_field_length e1 = um_sn_field_length e).
  { unfold reassemble_and_deliver in Hrd. apply rbind_ok in Hrd as ([l r] & Hra & Hrd).
    apply (reassemble_tiles d n old sync_old _ _ _ _ _ sync_tiles) in Hra as ->; [|by destruct cur].
    destruct (ra_bad r); [done|]. injection Hrd as <- _. split_and!; try done.
    - apply (uis_reassembly _ _ _ _ _ Hsync).
    - destruct sync_cfg. by constructor.
    - apply (uis_timer _ _ _ _ _ Hsync).
    - apply (uis_room _ _ _ _ _ Hsync). }
  destruct Hlist as (Hlist & Hnr1 & Hnh1 & Hc1 & HM1 & Ht1 & Hroom1 & Hlen1).
  destruct sync_result as (e' & ev & Hr & Hinv & Hexc). pose proof Hr as Hr'. unfold reception_actions, reception_update in Hr.
  rewrite sync_full, Hl, Hrd in Hr. cbn [rbind] in Hr.
  rewrite Hnr1, Z.eqb_refl in Hr. apply rbind_ok in Hr as ([e2 ev2] & Hskip & Hr).
  apply rbind_ok in Hskip as (n' & Hskip & [= <- <-]). set (e2 := {| e1 with um_rx_next_reassembly := n' |}) in Hr.
  assert (um_rx_list e' = um_rx_list e1 /\ um_rx_next_highest e' = um_next_sn e n) as [Hl' Hn'].
  { injection Hr as <- _. rewrite timer_update_list. split; [done|]. unfold timer_update. cbv zeta. by repeat case_bool_. }
  pose proof (next_highest_not_delivered e' (inv_base _ Hinv)) as Hnd. rewrite Hl', Hn' in Hnd.
  unfold um_skip_delivered in Hskip. pose proof (cfg_window e1 Hc1). pose proof (cfg_window_pos e1 Hc1).
  replace (Z.to_nat (um_sn_modulus e1)) with (S (S (Z.to_nat (um_sn_modulus e1) - 2))) in Hskip by lia.
  simpl in Hskip. rewrite Hdel, HM1 in Hskip. fold (um_next_sn e n) in Hskip. rewrite Hnd in Hskip. injection Hskip as Hskip.
  assert (sn_ok e1 (um_next_sn e n)) as Hok1 by (unfold sn_ok; rewrite HM1; exact (next_sn_ok e sync_cfg n sync_sn_ok)).
  rewrite timer_quiet in Hr; [| | |exact Ht1|by rewrite Hskip in Hok1|right; simpl; congruence].
  2:{ destruct Hc1. by constructor. } 2:{ change (sn_ok e1 (um_rx_next_highest e1)). by rewrite Hnh1. }
  injection Hr as <- <-. exists e2, (um_rx_list e1). split; [exact Hr'|]. split; [|exact Hlen1].
  constructor; try done; [by rewrite app_nil_r|].
  pose proof (inv_base _ Hinv) as [Hc2 Hn2 _ _ _ _ Hwin _]. pose proof (pos_next_highest e2 Hc2 Hn2) as Hp2.
  rewrite Hl' in Hwin. apply Forall_forall. intros q Hq. rewrite Forall_forall in Hwin. destruct (Hwin q Hq) as [_ Hlt]. split.
  - rewrite Hlist in Hq. apply elem_of_app in Hq as [Hq|(q' & -> & _)%list_elem_of_fmap]; [|done].
    pose proof (uis_old _ _ _ _ _ Hsync) as Ho. rewrite Forall_forall in Ho. by apply Ho.
  - intros Heq. rewrite Heq, <- Hn', Hp2 in Hlt. lia.
Qed.

End Segment.

(** ** PDUs on the air *)

(** The segment of [d] with [len] bytes from [so] on. *)
Definition um_air_segment (d : bytes) (so len : Z) : nr_rlc_sdu_segment :=
  mk_seg 0 0 len so (so =? 0) (so + len =? zlen d).

(** [pdu] carries those bytes, under [sn], in the format of the configuration of [e]. *)
Definition um_air_pdu (e : nr_rlc_entity_um) (sn : Z) (d : bytes) (so len : Z) (pdu : bytes) : Prop :=
  0 <= so /\ 0 < len /\ so + len <= zlen d <= NR_SDU_MAX /\
  exists hdr, um_header_of e sn (um_air_segment d so len) hdr /\ pdu = hdr ++ take (Z.to_nat len) (drop (Z.to_nat so) d).

(** The SN and the progress after those bytes, and the SDU that they complete. *)
Definition um_after (e : nr_rlc_entity_um) (n : Z) (d : bytes) (so len : Z) : Z * progress * list bytes :=
  if so + len =? zlen d then (if so =? 0 then n else um_next_sn e n, None, [d]) else (n, Some (d, so + len), []).

(** [pdu] takes the side that sends it, or the side that receives it, from one
    SN and progress to the next. *)
Definition um_carries (e : nr_rlc_entity_um) (n : Z) (c : progress) (pdu : bytes) (n' : Z) (c' : progress) (ds : list bytes) : Prop :=
  exists d so len, um_air_pdu e n d so len pdu /\ match c with None => so = 0 | Some (d', k) => d' = d /\ so = k end /\
    um_after e n d so len = (n', c', ds).

(** The configuration of an entity is the length of its SNs. *)
Definition same_format (e e' : nr_rlc_entity_um) : Prop := um_cfg e' /\ um_sn_field_length e' = um_sn_field_length e.

Lemma same_format_modulus e e' : um_cfg e -> same_format e e' -> um_sn_modulus e' = um_sn_modulus e.
Proof. intros [_ Hm _] [[_ Hm' _] Hl]. by rewrite Hm, Hm', Hl. Qed.

Lemma um_header_of_format e e' sn seg hdr : same_format e e' -> um_header_of e sn seg hdr -> um_header_of e' sn seg hdr.
Proof.
  intros Hf [Hc Hsn Hso Hfirst [Hz Hb]]. pose proof (same_format_modulus e e' Hc Hf) as HM. destruct Hf as [Hc' Hl].
  constructor; try done; [unfold sn_ok in *; by rewrite HM|]. unfold is_header, compute_pdu_header_size, seg_header in *. by rewrite Hl.
Qed.

(** The receiver follows. *)
Lemma um_recv_carried e0 e n c old cur pdu n' c' ds :
  same_format e0 e -> um_in_sync e n c old cur -> um_carries e0 n c pdu n' c' ds ->
  exists e' old' cur', nr_rlc_entity_um_recv_pdu e pdu = Ok (e', map deliver_sdu ds) /\
    um_in_sync e' n' c' old' cur' /\ same_format e0 e'.
Proof.
  intros Hf Hs (d & so & len & (Hso & Hlen & Hd & hdr & Hhdr & ->) & Hc & Hres).
  assert (um_next_sn e0 n = um_next_sn e n) as Hnx by (unfold um_next_sn; by rewrite (same_format_modulus e0 e (uho_cfg _ _ _ _ Hhdr) Hf)).
  set (payload := take _ _). assert (Hz : zlen payload = len) by (unfold payload; rewrite zlen_take, ?zlen_drop; rewrite ?zlen_drop; lia).
  rewrite (um_recv_pdu_header e n (um_air_segment d so len) hdr payload) by (by try lia; by eapply um_header_of_format).
  unfold um_recv_decoded. cbv zeta. set (e1 := um_stats _ e).
  pose proof (in_sync_stats (stats_rxpdu (zlen (hdr ++ payload))) e n c old cur Hs) as Hs1. fold e1 in Hs1. simpl.
  unfold um_after in Hres. destruct ((so =? 0) && (so + len =? zlen d)) eqn:Hwhole.
  { apply andb_true_iff in Hwhole as [H0 Hl]. rewrite H0, Hl in Hres. injection Hres as <- <- <-.
    assert (c = None) as ->.
    { pose proof (uis_progress _ _ _ _ _ Hs) as Hp. destruct c as [[d' k]|]; [|done]. simpl in Hp. lia. }
    assert (payload = d) as -> by (unfold payload; rewrite Hc; simpl; apply take_ge; unfold zlen in *; lia).
    eexists _, old, cur. split; [done|]. split; [by apply in_sync_stats|]. destruct Hf as [[] ?]. by split; [constructor|]. }
  set (p := mk_pdu n (Some payload) len so (so =? 0) (so + len =? zlen d)).
  assert (Hseg : seg_of d p) by (split_and!; simpl; try done; lia).
  assert (Hcont : continues c d p) by exact Hc.
  assert (Hfirst : pdu_is_first p = true <-> pdu_so p = 0) by apply Z.eqb_eq.
  pose proof (sync_recv e1 n c old cur d p Hs1 eq_refl Hseg Hfirst Hwhole Hcont ltac:(lia) hdr) as Hr. simpl in Hr. fold payload in Hr.
  rewrite Hr. assert (same_format e0 e1) as Hf1 by (destruct Hf as [[] ?]; by split; [constructor|]).
  assert (Hf' : forall e' x y z w, um_in_sync e' x y z w -> um_sn_field_length e' = um_sn_field_length e1 -> same_format e0 e').
  { intros e' x y z w Hx Hl. split; [exact (inv_cfg _ (inv_base _ (uis_inv _ _ _ _ _ Hx)))|]. rewrite Hl. apply Hf1. }
  destruct (so + len =? zlen d) eqn:Hl.
  - destruct (sync_last e1 n c old cur d p Hs1 eq_refl Hseg Hfirst Hwhole Hcont ltac:(lia) eq_refl) as (e' & old' & Hra & Hs' & Hlen').
    rewrite andb_true_r in Hwhole. rewrite Hwhole in Hres. injection Hres as <- <- <-.
    rewrite Hra. exists e', old', []. split; [done|]. rewrite Hnx. split; [exact Hs'|by eapply Hf'].
  - destruct (sync_part e1 n c old cur d p Hs1 eq_refl Hseg Hfirst Hwhole Hcont ltac:(lia) eq_refl) as (e' & old' & Hra & Hs' & Hlen').
    injection Hres as <- <- <-. rewrite Hra. exists e', old', (cur ++ [p]). split; [done|]. split; [exact Hs'|by eapply Hf'].
Qed.

(** ** The transmitter *)

(** The next SN is [n], [c] is sent of the SDU at the head, and the SDUs that
    are not sent completely are [sdus]. *)
Record um_tx_at (h : rlc_heap) (e : nr_rlc_entity_um) (n : Z) (c : progress) (sdus : list bytes) : Prop := {
  uta_inv : um_tx_inv h e;
  uta_next : um_tx_next e = n;
  uta_queue :
    match sl_list (um_tx e) with
    | [] => c = None /\ sdus = []
    | seg :: rest => exists d, sdus = d :: map (seg_bytes h) rest /\ zlen d <= NR_SDU_MAX /\
        seg_so seg + seg_size seg = zlen d /\ seg_bytes h seg = drop (Z.to_nat (seg_so seg)) d /\
        c = (if seg_is_first seg then None else Some (d, seg_so seg))
    end
}.

Lemma tx_at_whole h e : um_tx_inv h e -> Forall (fun s => seg_is_first s = true) (sl_list (um_tx e)) ->
  um_tx_at h e (um_tx_next e) None (um_tx_pending h e).
Proof.
  intros Hinv Hf. constructor; [done..|]. unfold um_tx_pending. pose proof (txi_live h e Hinv) as Hl.
  destruct (sl_list (um_tx e)) as [|seg rest]; [done|]. apply Forall_cons in Hf as [Hf _]. apply Forall_cons in Hl as [Hl _].
  exists (seg_bytes h seg). rewrite Hf. pose proof (zlen_seg_bytes h seg Hl) as Hz.
  destruct Hl as (s & _ & _ & _ & _ & Hd & Hm & _ & Hso & _). apply Hso in Hf. rewrite Hf in *. split_and!; (done || lia).
Qed.

(** The format of the transmitter is that of [e0]. *)
Section Sender.
Context (e0 : nr_rlc_entity_um) (h : rlc_heap) (e : nr_rlc_entity_um) (n : Z) (c : progress) (sdus : list bytes).
Hypothesis Hcfg : um_cfg e0.
Hypothesis Hlen : um_sn_field_length e = um_sn_field_length e0.
Hypothesis Hat : um_tx_at h e n c sdus.

Lemma tx_modulus : um_sn_modulus e = um_sn_modulus e0.
Proof. rewrite (txi_mod h e (uta_inv _ _ _ _ _ Hat)), (cfg_modulus e0 Hcfg). by rewrite Hlen. Qed.

Lemma sends_air_pdu d seg buffer ret payload :
  0 <= seg_so seg -> 0 < seg_size seg -> seg_so seg + seg_size seg <= zlen d <= NR_SDU_MAX ->
  (seg_is_first seg = true <-> seg_so seg = 0) -> seg_is_last seg = (seg_so seg + seg_size seg =? zlen d) ->
  payload = take (Z.to_nat (seg_size seg)) (drop (Z.to_nat (seg_so seg)) d) -> sends e seg buffer ret payload ->
  um_air_pdu e0 n d (seg_so seg) (seg_size seg) (take (Z.to_nat ret) buffer).
Proof.
  intros Hso Hsz Hd Hf Hl -> (hdr & Hh & _ & _ & ->). split_and!; try lia. exists hdr. split; [|done].
  assert (NR_SDU_MAX = 16000) as HM by done.
  assert ((seg_so seg =? 0) = seg_is_first seg) as Hfe by (destruct (seg_is_first seg); [apply Z.eqb_eq; by apply Hf|apply Z.eqb_neq; by intros ?%Hf]).
  constructor; simpl; [done| |lia|by rewrite Hfe|].
  - unfold sn_ok. pose proof (txi_next h e (uta_inv _ _ _ _ _ Hat)) as Hn. by rewrite (uta_next _ _ _ _ _ Hat), tx_modulus in Hn.
  - rewrite (uta_next _ _ _ _ _ Hat) in Hh. destruct Hh as [Hz Hb]. revert Hz Hb. unfold is_header, compute_pdu_header_size, seg_header.
    simpl. by rewrite Hfe, Hl, Hlen.
Qed.

Lemma tx_head seg rest : sl_list (um_tx e) = seg :: rest -> exists d, sdus = d :: map (seg_bytes h) rest /\
  zlen d <= NR_SDU_MAX /\ seg_so seg + seg_size seg = zlen d /\ seg_bytes h seg = drop (Z.to_nat (seg_so seg)) d /\
  c = (if seg_is_first seg then None else Some (d, seg_so seg)) /\ seg_live h seg /\
  0 <= seg_so seg /\ 0 < seg_size seg /\ (seg_is_first seg = true <-> seg_so seg = 0) /\ seg_is_last seg = true.
Proof.
  intros Hl. pose proof (uta_queue _ _ _ _ _ Hat) as Hq. pose proof (txi_live h e (uta_inv _ _ _ _ _ Hat)) as Hlive.
  rewrite Hl in Hq, Hlive. destruct Hq as (d & ? & ? & ? & ? & ?). apply Forall_cons in Hlive as [Hs _].
  pose proof Hs as (s & _ & _ & ? & ? & _ & _ & ? & ? & _). exists d. by split_and!.
Qed.

(** Where the head ends on the air. *)
Lemma carries_head d so len pdu : c = (if so =? 0 then None else Some (d, so)) -> um_air_pdu e0 n d so len pdu ->
  forall n' c' ds, um_after e0 n d so len = (n', c', ds) -> um_carries e0 n c pdu n' c' ds.
Proof.
  intros Hc Ha n' c' ds Hr. exists d, so, len. split_and!; [done| |done].
  clear Hat. rewrite Hc. destruct (so =? 0) eqn:?; [lia|done].
Qed.

Definition um_unsent (h : rlc_heap) (e : nr_rlc_entity_um) : Z := zsum zlen (um_tx_pending h e).

(** What a call of [generate_pdu] comes to. *)
Definition um_generated (size : Z) (h' : rlc_heap) (e' : nr_rlc_entity_um) (b : bytes) (ret : Z) : Prop :=
  um_sn_field_length e' = um_sn_field_length e /\
  ((ret = 0 /\ h' = h /\ e' = e /\ (sdus = [] \/ size < 5)) \/
   (0 < ret /\ um_unsent h' e' < um_unsent h e /\ exists n' c' ds sdus',
      um_carries e0 n c (take (Z.to_nat ret) b) n' c' ds /\ um_tx_at h' e' n' c' sdus' /\ sdus = ds ++ sdus')).

Lemma generate_whole_carries now buffer size seg rest :
  sl_list (um_tx e) = seg :: rest -> seg_cost e seg <= size <= zlen buffer ->
  exists h' e' b ret, generate_tx_pdu h e now buffer size = Ok (h', e', b, ret) /\ um_generated size h' e' b ret.
Proof.
  intros Hl Hsize. pose proof (uta_inv _ _ _ _ _ Hat) as Hinv.
  destruct (tx_head seg rest Hl) as (d & Hsd & Hmax & Hd & Hb & Hc & Hlive & Hso & Hsz & Hf & Hlast).
  pose proof (zlen_seg_bytes h seg Hlive) as Hz.
  destruct (generate_whole h e now buffer size seg rest Hinv Hl Hsize) as (h' & e' & b & -> & Hinv' & Hl' & Hm & Hs & Hlen' & Hn' & _).
  eexists h', e', b, _. split; [done|]. split; [done|]. right.
  assert (Hfe : (seg_so seg =? 0) = seg_is_first seg) by (destruct (seg_is_first seg); [apply Z.eqb_eq; by apply Hf|apply Z.eqb_neq; by intros ?%Hf]).
  pose proof (compute_pdu_header_size_range e seg). split; [unfold seg_cost; lia|]. split.
  { unfold um_unsent, um_tx_pending. rewrite Hl, Hl'. simpl. rewrite Hm. lia. }
  exists (um_tx_next e'), None, [d], (um_tx_pending h' e'). split_and!.
  - eapply carries_head; [by rewrite Hfe| |].
    + eapply sends_air_pdu; [lia..| |done|by rewrite Hlast, Hd, Z.eqb_refl| |done].
      * lia.
      * rewrite Hb, take_ge; [done|]. rewrite Hb in Hz. unfold zlen in Hz. lia.
    + unfold um_after. rewrite Hd, Z.eqb_refl, Hn', Hfe, (uta_next _ _ _ _ _ Hat). unfold um_next_sn. by rewrite tx_modulus.
  - apply tx_at_whole; [done|]. rewrite Hl'. pose proof (txi_tail h e Hinv) as Ht. by rewrite Hl in Ht.
  - unfold um_tx_pending. by rewrite Hl', Hm.
Qed.

Lemma generate_split_carries now buffer size seg rest :
  sl_list (um_tx e) = seg :: rest -> size < seg_cost e seg -> size <= zlen buffer ->
  compute_pdu_header_size e (cut_head seg 0) + 1 <= size -> compute_pdu_header_size e seg + 1 <= size ->
  exists h' e' b ret, generate_tx_pdu h e now buffer size = Ok (h', e', b, ret) /\ um_generated size h' e' b ret.
Proof.
  intros Hl Hsize Hbuf Hcut Hwh. pose proof (uta_inv _ _ _ _ _ Hat) as Hinv.
  destruct (tx_head seg rest Hl) as (d & Hsd & Hmax & Hd & Hb & Hc & Hlive & Hso & Hsz & Hf & Hlast).
  set (k := size - compute_pdu_header_size e (cut_head seg 0)).
  pose proof (seg_cost_cut e seg Hlast). pose proof (compute_pdu_header_size_range e (cut_head seg 0)).
  destruct (generate_split h e now buffer size seg rest Hinv Hl) as (h' & e' & b & -> & Hinv' & Hl' & Hm & Hbs & Hs & Hlen' & Hn' & _);
    [lia..|]. fold k in Hl', Hbs, Hs. set (tl := cut_tail seg k (heap_brk h)) in *.
  assert (Hk : 0 < k < seg_size seg) by lia.
  assert (Hlive' : seg_live h' tl) by (pose proof (txi_live h' e' Hinv') as Hx; rewrite Hl' in Hx; by apply Forall_cons in Hx as [? _]).
  pose proof (zlen_seg_bytes h' tl Hlive') as Hzt. pose proof (zlen_seg_bytes h seg Hlive) as Hz. simpl in Hzt.
  assert (Hzh : length (seg_bytes h (cut_head seg k)) = Z.to_nat k) by (rewrite Hbs, zlen_app in Hz; unfold zlen in *; lia).
  rewrite Hb in Hbs.
  assert (Hhead : seg_bytes h (cut_head seg k) = take (Z.to_nat k) (drop (Z.to_nat (seg_so seg)) d)) by (by rewrite Hbs, <- Hzh, take_app_length).
  assert (Htail : seg_bytes h' tl = drop (Z.to_nat (seg_so seg + k)) d).
  { rewrite Z2Nat.inj_add, <- drop_drop, Hbs, <- Hzh, drop_app_length by lia. done. }
  assert (Hfe : (seg_so seg =? 0) = seg_is_first seg) by (destruct (seg_is_first seg); [apply Z.eqb_eq; by apply Hf|apply Z.eqb_neq; by intros ?%Hf]).
  eexists h', e', b, _. split; [done|]. split; [done|]. right. split; [lia|]. split.
  { unfold um_unsent, um_tx_pending. rewrite Hl, Hl'. simpl. rewrite Hm. simpl in Hzt. lia. }
  exists n, (Some (d, seg_so seg + k)), [], (d :: map (seg_bytes h') rest). split_and!.
  - eapply carries_head; [by rewrite Hfe|apply (sends_air_pdu d (cut_head seg k) b size (seg_bytes h (cut_head seg k)))|]; simpl; try done; try lia.
    unfold um_after. by rewrite (proj2 (Z.eqb_neq _ _)) by lia.
  - constructor; [done|by rewrite Hn'; apply (uta_next _ _ _ _ _ Hat)|]. rewrite Hl'. exists d. simpl. split_and!; try done; lia.
  - by rewrite Hm.
Qed.

Lemma um_generate_carries now buffer size :
  size <= zlen buffer -> (um_sn_field_length e0 = 12 -> size <> 2) ->
  exists h' e' b ret, generate_tx_pdu h e now buffer size = Ok (h', e', b, ret) /\ um_generated size h' e' b ret.
Proof.
  intros Hbuf H2. destruct (sl_list (um_tx e)) as [|seg rest] eqn:Hl.
  { rewrite generate_idle by by rewrite Hl. eexists h, e, _, _. split; [done|]. split; [done|]. left. split_and!; [done..|].
    left. pose proof (uta_queue _ _ _ _ _ Hat) as Hq. rewrite Hl in Hq. apply Hq. }
  pose proof (compute_pdu_header_size_range e seg). pose proof (compute_pdu_header_size_range e (cut_head seg 0)).
  destruct (Z.lt_ge_cases size (compute_pdu_header_size e seg + 1)).
  { rewrite generate_idle by by rewrite Hl. eexists h, e, _, _. split; [done|]. split; [done|]. left. split_and!; [done..|]. right. lia. }
  destruct (Z.lt_ge_cases size (seg_cost e seg)); [|by eapply generate_whole_carries].
  eapply generate_split_carries; try done.
  destruct (tx_head seg rest Hl) as (d & _ & _ & _ & _ & _ & _ & _ & _ & _ & Hlast).
  unfold compute_pdu_header_size, cut_head in *. cbn [seg_is_first seg_is_last] in *. rewrite Hlast, andb_true_r in *.
  destruct (seg_is_first seg); simpl in *; repeat case_bool_; lia.
Qed.

End Sender.
