(* ===== verification/RlcUmLink.v ===== *)
(** From one NR RLC UM entity to another over a channel that loses nothing and
    keeps the order: what is delivered is what was accepted, in order and
    whole, for any segmentation; and enough grants deliver all of it. *)

From S2P Require Import Prelude RlcPdu RlcSdu TimeStat RlcEntity RlcUm RlcUmRx RlcUmTx RlcUmEntity RlcUmSync.

(** ** The link *)

(** PDUs that take a side from one point of the stream to another. *)
Inductive um_flow (e0 : nr_rlc_entity_um) : Z -> progress -> list bytes -> Z -> progress -> list bytes -> Prop :=
| flow_nil n c : um_flow e0 n c [] n c []
| flow_cons n c pdu n1 c1 ds1 air n2 c2 ds2 :
    um_carries e0 n c pdu n1 c1 ds1 -> um_flow e0 n1 c1 air n2 c2 ds2 -> um_flow e0 n c (pdu :: air) n2 c2 (ds1 ++ ds2).

Lemma flow_snoc e0 n c air n1 c1 ds pdu n2 c2 ds' :
  um_flow e0 n c air n1 c1 ds -> um_carries e0 n1 c1 pdu n2 c2 ds' -> um_flow e0 n c (air ++ [pdu]) n2 c2 (ds ++ ds').
Proof.
  induction 1 as [|? ? ? ? ? ? ? ? ? ? Hc _ IH]; intros H; simpl.
  - rewrite <- (app_nil_r ds'). econstructor; [done|constructor].
  - rewrite <- app_assoc. econstructor; [done|auto].
Qed.

(** A sending entity with its store, the PDUs that are on their way, in order,
    and a receiving entity. *)
Record um_link := mk_link { lk_heap : rlc_heap; lk_tx : nr_rlc_entity_um; lk_air : list bytes; lk_rx : nr_rlc_entity_um }.

Inductive link_op :=
| link_sdu (now : Z) (sdu : bytes) (sdu_id : Z)
| link_grant (now : Z) (buffer : bytes) (size : Z)
| link_arrive
| link_tx_time (now : Z)
| link_rx_time (now : Z).

Definition sdus_of (ev : list event) : list bytes :=
  mjoin (map (fun e => match e with deliver_sdu buf => [buf] | _ => [] end) ev).

(** The SDUs that the sending entity accepts, and those that the receiving one
    delivers. *)
Definition link_step (l : um_link) (op : link_op) : res (um_link * (list bytes * list bytes)) :=
  match op with
  | link_sdu now sdu id =>
      let* (h, e) := recv_sdu (lk_heap l) (lk_tx l) now sdu (zlen sdu) id in
      Ok ({| l with lk_heap := h; lk_tx := e |}, (if zlen sdu <=? available_tx_space (lk_tx l) then [sdu] else [], []))
  | link_grant now buffer size =>
      let* (h, e, b, ret) := generate_pdu (lk_heap l) (lk_tx l) now buffer size in
      Ok ({| l with lk_heap := h; lk_tx := e; lk_air := lk_air l ++ if 0 <? ret then [take (Z.to_nat ret) b] else [] |}, ([], []))
  | link_arrive =>
      match lk_air l with
      | [] => Ok (l, ([], []))
      | pdu :: air =>
          let* (_, e, ev) := recv_pdu heap_empty (lk_rx l) pdu in
          Ok ({| l with lk_air := air; lk_rx := e |}, ([], sdus_of ev))
      end
  | link_tx_time now => let* (h, e, _) := set_time (lk_heap l) (lk_tx l) now in Ok ({| l with lk_heap := h; lk_tx := e |}, ([], []))
  | link_rx_time now => let* (_, e, _) := set_time heap_empty (lk_rx l) now in Ok ({| l with lk_rx := e |}, ([], []))
  end.

Fixpoint link_run (l : um_link) (ops : list link_op) : res (um_link * (list bytes * list bytes)) :=
  match ops with
  | [] => Ok (l, ([], []))
  | op :: ops' =>
      let* (l1, (a1, d1)) := link_step l op in
      let* (l2, (a2, d2)) := link_run l1 ops' in
      Ok (l2, (a1 ++ a2, d1 ++ d2))
  end.

(** No grant of two bytes with SNs of 12 bits: it loses an SDU. *)
Definition link_op_ok (n : Z) (op : link_op) : Prop :=
  match op with
  | link_sdu _ sdu _ => 0 < zlen sdu <= NR_SDU_MAX
  | link_grant _ buffer size => size <= zlen buffer /\ (n = 12 -> size <> 2)
  | _ => True
  end.

Record um_link_inv (e0 : nr_rlc_entity_um) (l : um_link) (todo : list bytes) : Prop := {
  lki_cfg : um_cfg e0;
  lki_rx : same_format e0 (lk_rx l);
  lki_tx : um_sn_field_length (lk_tx l) = um_sn_field_length e0;
  lki_tx_rx : um_rx_inv (lk_tx l);
  lki_flow : exists n c old cur n' c' ds sdus, um_in_sync (lk_rx l) n c old cur /\
    um_flow e0 n c (lk_air l) n' c' ds /\ um_tx_at (lk_heap l) (lk_tx l) n' c' sdus /\ todo = ds ++ sdus
}.

Lemma sdus_of_deliver ds : sdus_of (map deliver_sdu ds) = ds.
Proof. induction ds as [|d ds IH]; [done|]. unfold sdus_of in *. simpl. by rewrite IH. Qed.

Lemma tx_part_at h e e' n c sdus : um_tx_part e' = um_tx_part e -> um_tx_at h e n c sdus -> um_tx_at h e' n c sdus.
Proof.
  intros Hp [Hi Hn Hq]. pose proof (um_tx_part_inv h e e' Hp Hi) as Hi'. unfold um_tx_part in Hp. injection Hp as _ _ Hnx Htx _ _ _.
  constructor; [done|by rewrite Hnx|by rewrite Htx].
Qed.

Lemma quiet_set_time e now n c old cur : um_in_sync e n c old cur ->
  exists e', nr_rlc_entity_um_set_time e now = Ok e' /\ um_in_sync e' n c old cur /\ (forall e0, same_format e0 e -> same_format e0 e').
Proof.
  intros [Hi Hr Hh Ht Hx Hroom Hp Hl Ho Hc]. unfold nr_rlc_entity_um_set_time, check_t_reassembly. simpl. rewrite Ht. simpl.
  eexists. split; [done|]. split.
  - constructor; try done. destruct Hi as [[Hcfg]]. constructor; [constructor; try done; by destruct Hcfg|]. intros Hne. by destruct Hne.
  - intros e0 [[] ?]. by split; [constructor|].
Qed.

Lemma tx_sdu_at h e now sdu id n c sdus : um_tx_at h e n c sdus -> 0 < zlen sdu <= NR_SDU_MAX ->
  exists h' e', nr_rlc_entity_um_recv_sdu h e now sdu (zlen sdu) id = Ok (h', e') /\
    um_sn_field_length e' = um_sn_field_length e /\
    um_tx_at h' e' n c (sdus ++ if zlen sdu <=? available_tx_space e then [sdu] else []).
Proof.
  intros [Hi Hn Hq] Hsz. destruct (recv_sdu_ok h e now sdu (zlen sdu) id Hi) as (h' & e' & Hr & Hi' & Hlen & Hp & Hnx & new & Hl & Hf); [done|done|].
  exists h', e'. split; [done|]. split; [done|].
  assert ((zlen sdu <=? available_tx_space e) = negb (um_tx_maxsize e <? um_tx_size e + zlen sdu)) as ->.
  { change (available_tx_space e) with (um_tx_maxsize e - um_tx_size e). lia. }
  assert (take (Z.to_nat (zlen sdu)) sdu = sdu) as Hs by (apply take_ge; unfold zlen; lia). rewrite Hs in Hp.
  set (x := if negb _ then _ else _). assert (um_tx_pending h' e' = um_tx_pending h e ++ x) as Hp' by (unfold x; rewrite Hp; by case_bool_).
  clear Hp. unfold um_tx_pending in Hp'. rewrite Hl, map_app in Hp'. destruct (sl_list (um_tx e)) as [|seg rest] eqn:Hle.
  - destruct Hq as [-> ->]. simpl in *. assert (um_tx_at h' e' (um_tx_next e') None (um_tx_pending h' e')) as H.
    { apply tx_at_whole; [done|]. by rewrite Hl. }
    rewrite Hnx, Hn in H. unfold um_tx_pending in H. by rewrite Hl, Hp' in H.
  - destruct Hq as (d & -> & Hd & Hso & Hb & Hc). simpl in Hp'. injection Hp' as Hb' Hrest.
    constructor; [done|by rewrite Hnx|]. rewrite Hl. simpl. exists d. rewrite map_app, Hrest, Hb'. by split_and!.
Qed.

Definition lk_unsent (l : um_link) : Z := um_unsent (lk_heap l) (lk_tx l).

Lemma unsent_nonneg h e : 0 <= um_unsent h e.
Proof. apply zsum_nonneg, Forall_forall. intros. apply zlen_nonneg. Qed.

Lemma unsent_zero h e n c sdus : um_tx_at h e n c sdus -> um_unsent h e <= zsum zlen sdus /\ (um_unsent h e = 0 <-> sdus = []).
Proof.
  intros [Hi _ Hq]. unfold um_unsent, um_tx_pending. pose proof (txi_live h e Hi) as Hl.
  destruct (sl_list (um_tx e)) as [|seg rest]; [by destruct Hq as [_ ->]|].
  destruct Hq as (d & -> & _ & Hd & _ & _). apply Forall_cons in Hl as [Hs _]. pose proof (zlen_seg_bytes h seg Hs) as Hz.
  destruct Hs as (? & _ & _ & ? & ? & _). simpl.
  assert (0 <= zsum zlen (map (seg_bytes h) rest)) by (apply zsum_nonneg, Forall_forall; intros; apply zlen_nonneg).
  split; [lia|]. split; [lia|done].
Qed.

Lemma link_grant_ok e0 l todo now buffer size :
  um_link_inv e0 l todo -> size <= zlen buffer -> (um_sn_field_length e0 = 12 -> size <> 2) ->
  exists l', link_step l (link_grant now buffer size) = Ok (l', ([], [])) /\ um_link_inv e0 l' todo /\
    (length (lk_air l') <= S (length (lk_air l)))%nat /\
    (lk_unsent l' < lk_unsent l \/ (lk_unsent l' = lk_unsent l /\ (lk_unsent l = 0 \/ size < 5))).
Proof.
  intros [Hcfg Hrx Htx Htxr (n & c & old & cur & n' & c' & ds & sdus & Hs & Hf & Ht & ->)] Hbuf Hno. cbn [link_step].
  destruct (um_generate_carries e0 _ _ _ _ _ Hcfg Htx Ht now buffer size Hbuf Hno) as (h' & e' & b & ret & Hg & Hlen & Hcase).
  pose proof (generate_tx_pdu_rx _ _ _ _ _ _ _ _ _ Hg) as Hpart. change generate_pdu with generate_tx_pdu. rewrite Hg. cbn [rbind].
  eexists. split; [done|]. unfold lk_unsent.
  destruct Hcase as [(-> & -> & -> & Hwhy)|(Hret & Hun & n2 & c2 & ds2 & sdus2 & Hc & Ht' & ->)]; simpl.
  - rewrite app_nil_r. split_and!; [|lia|].
    + constructor; try done. by eexists n, c, old, cur, n', c', ds, sdus.
    + right. split; [done|]. destruct Hwhy as [Hnil|?]; [left|by right]. by apply (unsent_zero _ _ _ _ _ Ht).
  - rewrite (proj2 (Z.ltb_lt _ _)), length_app by done. split_and!; [|simpl; lia|by left].
    constructor; [done|done|by rewrite <- Htx|by eapply um_rx_part_inv|].
    eexists n, c, old, cur, n2, c2, (ds ++ ds2), sdus2. split_and!; [done|by eapply flow_snoc|done|by rewrite app_assoc].
Qed.

Lemma link_arrive_ok e0 l todo :
  um_link_inv e0 l todo -> exists l' del todo', link_step l link_arrive = Ok (l', ([], del)) /\ um_link_inv e0 l' todo' /\
    todo = del ++ todo' /\ length (lk_air l') = pred (length (lk_air l)) /\ lk_unsent l' = lk_unsent l /\
    match lk_air l with
    | [] => l' = l /\ del = []
    | pdu :: air => exists e', nr_rlc_entity_um_recv_pdu (lk_rx l) pdu = Ok (e', map deliver_sdu del) /\ l' = {| l with lk_air := air; lk_rx := e' |}
    end.
Proof.
  intros [Hcfg Hrx Htx Htxr (n & c & old & cur & n' & c' & ds & sdus & Hs & Hf & Ht & ->)]. cbn [link_step].
  inversion Hf as [|? ? pdu n1 c1 ds1 air ? ? ds2 Hc Hf' Hn Hc0 Hair]; subst.
  - exists l, [], sdus. rewrite <- H1 in Hf |- *. split; [done|]. split; [|by rewrite <- ?H1].
    constructor; try done. exists n', c', old, cur, n', c', [], sdus. split_and!; try done. by rewrite <- H1.
  - destruct (um_recv_carried e0 _ _ _ _ _ _ _ _ _ Hrx Hs Hc) as (e' & old' & cur' & Hr & Hs' & Hrx').
    change (recv_pdu heap_empty (lk_rx l) pdu) with (let* (e, ev) := nr_rlc_entity_um_recv_pdu (lk_rx l) pdu in Ok (heap_empty, e, ev)).
    rewrite Hr. cbn [rbind]. rewrite sdus_of_deliver. eexists _, ds1, (ds2 ++ sdus). split; [done|]. split_and!; [|by rewrite app_assoc|done|done|by eexists].
    constructor; try done. by exists n1, c1, old', cur', n', c', ds2, sdus.
Qed.

Definition link_offered (op : link_op) : list bytes := match op with link_sdu _ sdu _ => [sdu] | _ => [] end.

(** Every step keeps the invariant; what is accepted is added to what is still
    to deliver, what is delivered is taken from its front. *)
Lemma link_step_ok e0 l todo op :
  um_link_inv e0 l todo -> link_op_ok (um_sn_field_length e0) op ->
  exists l' acc del todo', link_step l op = Ok (l', (acc, del)) /\ um_link_inv e0 l' todo' /\ todo ++ acc = del ++ todo' /\
    acc `sublist_of` link_offered op /\ (length (lk_air l') <= S (length (lk_air l)))%nat.
Proof.
  intros Hinv Hop. destruct op as [now sdu id|now buffer size| |now|now]; cbn [link_op_ok] in *.
  2:{ destruct Hop as [Hbuf Hno]. destruct (link_grant_ok e0 l todo now buffer size Hinv Hbuf Hno) as (l' & Hst & Hinv' & Hair & _).
      exists l', [], [], todo. split_and!; [done|done|by rewrite app_nil_r|done|done]. }
  2:{ destruct (link_arrive_ok e0 l todo Hinv) as (l' & del & todo' & Hst & Hinv' & -> & Hair & _ & _).
      exists l', [], del, todo'. split_and!; [done|done|by rewrite app_nil_r|done|lia]. }
  all: destruct Hinv as [Hcfg Hrx Htx Htxr (n & c & old & cur & n' & c' & ds & sdus & Hs & Hf & Ht & ->)]; cbn [link_step].
  - destruct (tx_sdu_at _ _ now sdu id _ _ _ Ht Hop) as (h' & e' & Hr & Hlen & Ht'). change recv_sdu with nr_rlc_entity_um_recv_sdu.
    pose proof (recv_sdu_rx _ _ _ _ _ _ _ _ Hr) as Hpart. rewrite Hr. cbn [rbind].
    set (x := if zlen sdu <=? available_tx_space (lk_tx l) then [sdu] else []) in *. eexists _, x, [], (ds ++ sdus ++ x). split; [done|].
    split_and!; [|by rewrite <- app_assoc|unfold x; simpl; case_bool_; [done|apply sublist_nil_l]|simpl; lia].
    constructor; [done|done|by rewrite <- Htx|by eapply um_rx_part_inv|]. by eexists n, c, old, cur, n', c', ds, _.
  - destruct (set_time_ok (lk_tx l) now Htxr) as (e' & pre & Hr & Hrx' & _). pose proof (set_time_tx _ _ _ Hr) as Hp.
    change (set_time (lk_heap l) (lk_tx l) now) with (let* e := nr_rlc_entity_um_set_time (lk_tx l) now in Ok (lk_heap l, e, @nil event)).
    rewrite Hr. cbn [rbind]. eexists _, [], [], (ds ++ sdus). split; [done|]. split_and!; [|by rewrite app_nil_r|done|simpl; lia]. constructor; try done.
    + unfold um_tx_part in Hp. injection Hp as Hl _ _ _ _ _ _. simpl. congruence.
    + eexists n, c, old, cur, n', c', ds, sdus. split_and!; try done. by eapply tx_part_at.
  - destruct (quiet_set_time _ now _ _ _ _ Hs) as (e' & Hr & Hs' & Hf').
    change (set_time heap_empty (lk_rx l) now) with (let* e := nr_rlc_entity_um_set_time (lk_rx l) now in Ok (heap_empty, e, @nil event)).
    rewrite Hr. cbn [rbind]. eexists _, [], [], (ds ++ sdus). split; [done|]. split_and!; [|by rewrite app_nil_r|done|simpl; lia].
    constructor; try done; [by apply Hf'|]. by exists n, c, old, cur, n', c', ds, sdus.
Qed.

Lemma link_run_ok e0 ops : forall l todo, um_link_inv e0 l todo -> Forall (link_op_ok (um_sn_field_length e0)) ops ->
  exists l' acc del todo', link_run l ops = Ok (l', (acc, del)) /\ um_link_inv e0 l' todo' /\ todo ++ acc = del ++ todo' /\
    acc `sublist_of` mjoin (map link_offered ops) /\ (length (lk_air l') <= length ops + length (lk_air l))%nat.
Proof.
  induction ops as [|op ops IH]; intros l todo Hinv Hops; simpl.
  { exists l, [], [], todo. by rewrite app_nil_r. }
  apply Forall_cons in Hops as [Hop Hops].
  destruct (link_step_ok e0 l todo op Hinv Hop) as (l1 & a1 & d1 & t1 & -> & Hinv1 & H1 & Ha1 & Hair1).
  cbn [rbind]. destruct (IH l1 t1 Hinv1 Hops) as (l2 & a2 & d2 & t2 & -> & Hinv2 & H2 & Ha2 & Hair2). cbn [rbind].
  eexists l2, _, _, t2. split; [done|]. split_and!; [done|by rewrite app_assoc, H1, <- !app_assoc, H2| |lia].
  by apply sublist_app.
Qed.

Lemma link_run_app l ops1 ops2 : link_run l (ops1 ++ ops2)
  = (let* (l1, (a1, d1)) := link_run l ops1 in let* (l2, (a2, d2)) := link_run l1 ops2 in Ok (l2, (a1 ++ a2, d1 ++ d2))).
Proof.
  revert l. induction ops1 as [|op ops1 IH]; intros l; simpl.
  { destruct (link_run l ops2) as [[? [? ?]]|]; done. }
  destruct (link_step l op) as [[l1 [a1 d1]]|]; [cbn [rbind]|done]. rewrite IH.
  destruct (link_run l1 ops1) as [[l2 [a2 d2]]|]; [cbn [rbind]|done].
  destruct (link_run l2 ops2) as [[l3 [a3 d3]]|]; [cbn [rbind]|done]. by rewrite <- !app_assoc.
Qed.

(** Enough grants of five bytes or more empty the queue. *)
Lemma link_grants_ok e0 gs : forall l todo, um_link_inv e0 l todo -> lk_unsent l <= Z.of_nat (length gs) ->
  Forall (fun '(_, buffer, size) => 5 <= size <= zlen buffer) gs ->
  exists l', link_run l (map (fun '(now, buffer, size) => link_grant now buffer size) gs) = Ok (l', ([], [])) /\
    um_link_inv e0 l' todo /\ lk_unsent l' = 0 /\ (length (lk_air l') <= length gs + length (lk_air l))%nat.
Proof.
  induction gs as [|[[now buffer] size] gs IH]; intros l todo Hinv Hun Hgs; simpl.
  { exists l. split; [done|]. pose proof (unsent_nonneg (lk_heap l) (lk_tx l)). unfold lk_unsent in *. simpl in Hun. split_and!; (done || lia). }
  apply Forall_cons in Hgs as [Hg Hgs]. simpl in Hun.
  destruct (link_grant_ok e0 l todo now buffer size Hinv) as (l1 & Hst & Hinv1 & Hair & Hdec); [lia..|].
  simpl in Hst. rewrite Hst. cbn [rbind]. destruct (IH l1 todo Hinv1) as (l2 & -> & Hinv2 & Hun2 & Hair2); [lia|done|].
  cbn [rbind]. exists l2. split_and!; (done || lia).
Qed.

(** Enough arrivals empty the air. *)
Lemma link_arrivals_ok e0 m : forall l todo, um_link_inv e0 l todo -> lk_unsent l = 0 -> (length (lk_air l) <= m)%nat ->
  exists l', link_run l (replicate m link_arrive) = Ok (l', ([], todo)).
Proof.
  induction m as [|m IH]; intros l todo Hinv Hun Hair; simpl.
  - exists l. do 3 f_equal. destruct Hinv as [_ _ _ _ (n & c & old & cur & n' & c' & ds & sdus & Hs & Hf & Ht & ->)].
    destruct (lk_air l); [|simpl in Hair; lia]. inversion Hf; subst. simpl. symmetry. by apply (unsent_zero _ _ _ _ _ Ht).
  - destruct (link_arrive_ok e0 l todo Hinv) as (l1 & del & todo' & Hst & Hinv1 & -> & Hair1 & Hun1 & _). simpl in Hst. rewrite Hst. cbn [rbind].
    destruct (IH l1 todo' Hinv1) as (l2 & ->); [congruence|lia|]. cbn [rbind]. by exists l2.
Qed.

(** Two new entities, with nothing on the air. *)
Lemma link_inv_new n rxm1 txm1 t1 e1 rxm2 txm2 t2 e2 :
  new_nr_rlc_entity_um rxm1 txm1 t1 n = Ok e1 -> new_nr_rlc_entity_um rxm2 txm2 t2 n = Ok e2 -> NR_SDU_MAX <= rxm2 ->
  um_link_inv e1 (mk_link heap_empty e1 [] e2) [] /\ um_sn_field_length e1 = n.
Proof.
  intros H1 H2 Hm. pose proof (um_rx_inv_new _ _ _ _ _ H1) as Hr1. pose proof (um_rx_inv_new _ _ _ _ _ H2) as Hr2.
  pose proof (um_tx_inv_new _ _ _ _ _ heap_empty H1) as Ht1. pose proof (inv_cfg _ (inv_base _ Hr1)) as Hc1. pose proof (inv_cfg _ (inv_base _ Hr2)) as Hc2.
  unfold new_nr_rlc_entity_um in H1, H2. apply rbind_ok in H1 as (? & _ & H1). apply rbind_ok in H1 as (? & _ & [= He1]).
  apply rbind_ok in H2 as (? & _ & H2). apply rbind_ok in H2 as (? & _ & [= He2]).
  assert (um_sn_field_length e1 = n /\ um_tx e1 = mk_seg_list [] None /\ um_tx_next e1 = 0) as (Hl1 & Htx & Hnx) by by rewrite <- He1.
  split; [|done]. constructor; try done.
  - split; [done|]. simpl. by rewrite Hl1, <- He2.
  - exists 0, None, [], [], 0, None, [], []. split_and!; [|constructor| |done]; simpl.
    + constructor; try exact Hr2; by rewrite <- ?He2.
    + constructor; [done..|]. by rewrite Htx.
Qed.

(** ** Properties *)

(** C4. A UM bearer over a channel that loses nothing and keeps the order, from two
    new entities and through any interleaving of SDUs, grants of any size (but
    two bytes with SNs of 12 bits), arrivals and passing time: nothing fails,
    and the SDUs delivered are a prefix of those accepted, unchanged and in
    order; when no PDU is on its way and nothing waits to be sent, they are all
    of them. *)
Theorem um_link_lossless n rxm1 txm1 t1 e1 rxm2 txm2 t2 e2 ops :
  new_nr_rlc_entity_um rxm1 txm1 t1 n = Ok e1 -> new_nr_rlc_entity_um rxm2 txm2 t2 n = Ok e2 -> NR_SDU_MAX <= rxm2 ->
  Forall (link_op_ok n) ops ->
  exists l acc del, link_run (mk_link heap_empty e1 [] e2) ops = Ok (l, (acc, del)) /\ del `prefix_of` acc /\
    acc `sublist_of` mjoin (map link_offered ops) /\
    (lk_air l = [] -> sl_list (um_tx (lk_tx l)) = [] -> del = acc).
Proof.
  intros H1 H2 Hm Hops. destruct (link_inv_new _ _ _ _ _ _ _ _ _ H1 H2 Hm) as [Hinv <-].
  destruct (link_run_ok e1 ops _ _ Hinv Hops) as (l & acc & del & todo & -> & Hinv' & Heq & Hsub & _). simpl in Heq. subst acc.
  exists l, (del ++ todo), del. split_and!; [done|by exists todo|done|]. intros Hair Htx.
  destruct Hinv' as [_ _ _ _ (k & c & old & cur & k' & c' & ds & sdus & _ & Hf & Ht & ->)]. rewrite Hair in Hf. inversion Hf; subst.
  pose proof (uta_queue _ _ _ _ _ Ht) as Hq. rewrite Htx in Hq. destruct Hq as [_ ->]. by rewrite app_nil_r.
Qed.

Lemma um_link_lossless_witness :
  let ops := [link_sdu 0 [1; 2; 3; 4; 5] 1; link_sdu 0 [6; 7] 2; link_grant 0 (replicate 9 0) 4; link_arrive;
              link_grant 0 (replicate 9 0) 9; link_rx_time 50; link_arrive; link_grant 0 (replicate 9 0) 9; link_arrive] in
  new_nr_rlc_entity_um 16000 1000 35 12 = Ok (um_new 16000 12) /\ Forall (link_op_ok 12) ops /\
  exists l acc del, link_run (mk_link heap_empty (um_new 16000 12) [] (um_new 16000 12)) ops = Ok (l, (acc, del)) /\ del `prefix_of` acc /\
    acc `sublist_of` mjoin (map link_offered ops) /\
    (lk_air l = [] -> sl_list (um_tx (lk_tx l)) = [] -> del = acc).
Proof.
  intros ops. assert (Forall (link_op_ok 12) ops) as Hops by (repeat constructor; simpl; unfold NR_SDU_MAX, zlen; simpl; lia).
  split_and!; [done|done|]. by apply (um_link_lossless 12 16000 1000 35 (um_new 16000 12) 16000 1000 35 (um_new 16000 12)).
Defined.

(** C18. After any such run, as many grants of five bytes or more as there were
    bytes offered, and as many arrivals as there were operations and grants,
    deliver everything that was accepted. *)
Theorem um_link_drains n rxm1 txm1 t1 e1 rxm2 txm2 t2 e2 ops gs m :
  new_nr_rlc_entity_um rxm1 txm1 t1 n = Ok e1 -> new_nr_rlc_entity_um rxm2 txm2 t2 n = Ok e2 -> NR_SDU_MAX <= rxm2 ->
  Forall (link_op_ok n) ops -> Forall (fun '(_, buffer, size) => 5 <= size <= zlen buffer) gs ->
  zsum zlen (mjoin (map link_offered ops)) <= Z.of_nat (length gs) -> (length ops + length gs <= m)%nat ->
  exists l acc, link_run (mk_link heap_empty e1 [] e2)
      (ops ++ map (fun '(now, buffer, size) => link_grant now buffer size) gs ++ replicate m link_arrive) = Ok (l, (acc, acc)).
Proof.
  intros H1 H2 Hm Hops Hgs Hlen Hmm. destruct (link_inv_new _ _ _ _ _ _ _ _ _ H1 H2 Hm) as [Hinv <-].
  destruct (link_run_ok e1 ops _ _ Hinv Hops) as (l & acc & del & todo & Hr & Hinv' & Heq & Hsub & Hair). simpl in Heq. subst acc.
  assert (Hz : zsum zlen todo <= zsum zlen (mjoin (map link_offered ops))).
  { transitivity (zsum zlen (del ++ todo)).
    - rewrite zsum_app. assert (0 <= zsum zlen del) by (apply zsum_nonneg, Forall_forall; intros; apply zlen_nonneg). lia.
    - clear -Hsub. induction Hsub as [|x k1 k2 _ IH|x k1 k2 _ IH]; simpl; [lia|lia|]. pose proof (zlen_nonneg x). lia. }
  assert (Hun : lk_unsent l <= zsum zlen todo).
  { destruct Hinv' as [_ _ _ _ (k & c & old & cur & k' & c' & ds & sdus & _ & _ & Ht & ->)]. apply unsent_zero in Ht as [Ht _].
    rewrite zsum_app. assert (0 <= zsum zlen ds) by (apply zsum_nonneg, Forall_forall; intros; apply zlen_nonneg). unfold lk_unsent. lia. }
  destruct (link_grants_ok e1 gs l todo Hinv') as (l1 & Hr1 & Hinv1 & Hun1 & Hair1); [lia|done|].
  destruct (link_arrivals_ok e1 m l1 todo Hinv1 Hun1) as (l2 & Hr2); [simpl in Hair; lia|].
  exists l2, (del ++ todo). rewrite link_run_app, Hr. cbn [rbind]. rewrite link_run_app, Hr1. cbn [rbind]. rewrite Hr2. cbn [rbind].
  by rewrite !app_nil_r.
Qed.

Lemma um_link_drains_witness :
  let ops := [link_sdu 0 [1; 2; 3; 4; 5] 1; link_grant 0 (replicate 9 0) 4; link_sdu 0 [6; 7] 2] in
  let gs := replicate 7 (0, replicate 9 0, 5) in
  new_nr_rlc_entity_um 16000 1000 35 12 = Ok (um_new 16000 12) /\ Forall (link_op_ok 12) ops /\
  exists l acc, link_run (mk_link heap_empty (um_new 16000 12) [] (um_new 16000 12))
      (ops ++ map (fun '(now, buffer, size) => link_grant now buffer size) gs ++ replicate 10 link_arrive) = Ok (l, (acc, acc)).
Proof.
  intros ops gs. assert (Forall (link_op_ok 12) ops) as Hops by (repeat constructor; simpl; unfold NR_SDU_MAX, zlen; simpl; lia).
  split_and!; [done|done|].
  apply (um_link_drains 12 16000 1000 35 (um_new 16000 12) 16000 1000 35 (um_new 16000 12)); try done.
  apply Forall_replicate. unfold zlen. simpl. lia.
Defined.
