(* ===== verification/RlcRxManager.v ===== *)
(** The reception window of the NR RLC AM entity
    (openair2/LAYER2/nr_rlc/nr_rlc_rx_manager.[ch]).

    [rx_list] is a circular buffer with one list of PDUs per sequence number of
    the window.  A position outside of the array is [FBounds].  The second half
    relates the positions to the distance of a sequence number from the start
    of the window ([rm_slot]). *)

From S2P Require Import Prelude RlcPdu.

Record nr_rlc_rx_manager := mk_rx_manager {
  rm_list : list (list nr_rlc_pdu);
  rm_size : Z;
  rm_start : Z;
  rm_sn_start : Z
}.

Definition nr_rlc_new_rx_manager (size : Z) : nr_rlc_rx_manager :=
  {| rm_list := replicate (Z.to_nat size) []; rm_size := size; rm_start := 0; rm_sn_start := 0 |}.

(** The loop stores NULL in each of the [size] entries. *)
Definition nr_rlc_clear_rx_manager (m : nr_rlc_rx_manager) : nr_rlc_rx_manager :=
  {| m with rm_list := replicate (Z.to_nat (rm_size m)) []; rm_start := 0; rm_sn_start := 0 |}.

Definition get_pos (m : nr_rlc_rx_manager) (sn : Z) : Z :=
  Z.rem (rm_start m + (sn - rm_sn_start m + rm_size m * 2)) (rm_size m).

(** [m->rx_list[pos]], read and written. *)
Definition rx_list_at (m : nr_rlc_rx_manager) (pos : Z) : res (list nr_rlc_pdu) :=
  if pos <? 0 then Fail FBounds else of_opt FBounds (rm_list m !! Z.to_nat pos).

Definition rx_list_set (m : nr_rlc_rx_manager) (pos : Z) (l : list nr_rlc_pdu) : res nr_rlc_rx_manager :=
  if (0 <=? pos) && (pos <? zlen (rm_list m))
  then Ok {| m with rm_list := <[Z.to_nat pos := l]> (rm_list m) |} else Fail FBounds.

Definition nr_rlc_rx_manager_get_pdu_from_sn (m : nr_rlc_rx_manager) (sn : Z) : res (list nr_rlc_pdu) :=
  rx_list_at m (get_pos m sn).

Definition nr_rlc_rx_manager_clear_pdu (m : nr_rlc_rx_manager) (sn : Z) : res nr_rlc_rx_manager :=
  rx_list_set m (get_pos m sn) [].

Definition nr_rlc_rx_manager_advance (m : nr_rlc_rx_manager) (count : Z) : nr_rlc_rx_manager :=
  {| m with rm_start := Z.rem (rm_start m + count) (rm_size m) |}.

Definition nr_rlc_rx_manager_set_start (m : nr_rlc_rx_manager) (sn_start : Z) : nr_rlc_rx_manager :=
  {| m with rm_sn_start := sn_start |}.

(** The walk of [nr_rlc_rx_manager_add_pdu]: in order of [so], after the
    segments that start at the same byte. *)
Fixpoint insert_by_so (pdu : nr_rlc_pdu) (l : list nr_rlc_pdu) : list nr_rlc_pdu :=
  match l with
  | [] => [pdu]
  | cur :: l' => if pdu_so pdu <? pdu_so cur then pdu :: l else cur :: insert_by_so pdu l'
  end.

Definition nr_rlc_rx_manager_add_pdu (m : nr_rlc_rx_manager) (pdu : nr_rlc_pdu) : res nr_rlc_rx_manager :=
  let pos := get_pos m (pdu_sn pdu) in
  let* l := rx_list_at m pos in
  rx_list_set m pos (insert_by_so pdu l).

(** ** The slots of the window *)

Record rm_wf (m : nr_rlc_rx_manager) : Prop := {
  rmw_size : 0 < rm_size m;
  rmw_len : zlen (rm_list m) = rm_size m;
  rmw_start : 0 <= rm_start m < rm_size m;
  rmw_sn : 0 <= rm_sn_start m < 2 * rm_size m
}.

(** The list [k] entries after the start of the window, around the array. *)
Definition rm_slot (m : nr_rlc_rx_manager) (k : Z) : list nr_rlc_pdu :=
  rm_list m !!! Z.to_nat ((rm_start m + k) mod rm_size m).

Lemma rm_slot_mod m k : rm_slot m (k mod rm_size m) = rm_slot m k.
Proof. unfold rm_slot. by rewrite Zplus_mod_idemp_r. Qed.

Lemma rm_slot_wrap m k : rm_slot m (k + rm_size m) = rm_slot m k.
Proof.
  unfold rm_slot. rewrite Z.add_assoc. destruct (Z.eq_dec (rm_size m) 0) as [->|]; [by rewrite Z.add_0_r|].
  rewrite <- (Z.mul_1_l (rm_size m)) at 1. by rewrite Z.mod_add.
Qed.

Section Slots.
Context (m : nr_rlc_rx_manager) (wf : rm_wf m).

Let size_pos := rmw_size m wf.

Lemma get_pos_mod sn :
  0 <= sn < 2 * rm_size m -> get_pos m sn = (rm_start m + (sn - rm_sn_start m)) mod rm_size m.
Proof.
  intros Hsn. destruct wf. unfold get_pos. rewrite Z.rem_mod_nonneg by lia.
  rewrite Z.add_assoc, (Z.mul_comm (rm_size m) 2). by apply Z.mod_add; lia.
Qed.

Lemma get_pos_range sn : 0 <= sn < 2 * rm_size m -> 0 <= get_pos m sn < rm_size m.
Proof. intros. rewrite get_pos_mod by done. by apply Z.mod_pos_bound. Qed.

Lemma rx_list_at_ok pos : 0 <= pos < rm_size m -> rx_list_at m pos = Ok (rm_list m !!! Z.to_nat pos).
Proof.
  intros Hp. pose proof (rmw_len m wf) as Hl. unfold zlen in Hl. unfold rx_list_at.
  rewrite (proj2 (Z.ltb_ge pos 0)) by lia.
  destruct (lookup_lt_is_Some_2 (rm_list m) (Z.to_nat pos)) as [l Hk]; [lia|].
  by rewrite Hk, (list_lookup_total_correct _ _ _ Hk).
Qed.

Lemma get_pdu_ok sn :
  0 <= sn < 2 * rm_size m -> nr_rlc_rx_manager_get_pdu_from_sn m sn = Ok (rm_slot m (sn - rm_sn_start m)).
Proof.
  intros Hsn. unfold nr_rlc_rx_manager_get_pdu_from_sn, rm_slot.
  rewrite rx_list_at_ok by by apply get_pos_range. by rewrite get_pos_mod.
Qed.

(** A write changes one slot. *)
Lemma rx_list_set_ok sn l :
  0 <= sn < 2 * rm_size m ->
  exists m', rx_list_set m (get_pos m sn) l = Ok m' /\ rm_wf m'
    /\ rm_size m' = rm_size m /\ rm_start m' = rm_start m /\ rm_sn_start m' = rm_sn_start m
    /\ forall k, rm_slot m' k
         = if k mod rm_size m =? (sn - rm_sn_start m) mod rm_size m then l else rm_slot m k.
Proof.
  intros Hsn. pose proof (get_pos_range sn Hsn) as Hp. pose proof (rmw_len m wf) as Hl.
  unfold rx_list_set. rewrite (proj2 (Z.leb_le _ _)), (proj2 (Z.ltb_lt _ _)) by lia. simpl.
  eexists. split; [done|]. split_and!; try done.
  { destruct wf. split; simpl; try done. unfold zlen. by rewrite length_insert. }
  intros k. unfold rm_slot. simpl. rewrite get_pos_mod in * by done. unfold zlen in Hl.
  pose proof (Z.mod_pos_bound (rm_start m + k) (rm_size m) size_pos) as Hk.
  case_bool_.
  - replace ((rm_start m + k) mod rm_size m) with ((rm_start m + (sn - rm_sn_start m)) mod rm_size m).
    + apply list_lookup_total_insert_eq. lia.
    + rewrite <- (Zplus_mod_idemp_r (sn - _)), <- (Zplus_mod_idemp_r k). by rewrite (proj1 (Z.eqb_eq _ _) Heqb).
  - apply list_lookup_total_insert_ne. intros Heq. apply Z2Nat.inj in Heq; [|lia..].
    apply Z.eqb_neq in Heqb. apply Heqb. symmetry.
    replace k with (rm_start m + k + - rm_start m) by lia.
    rewrite <- (Zplus_mod_idemp_l (rm_start m + k)), <- Heq, Zplus_mod_idemp_l. f_equal. lia.
Qed.

Lemma clear_pdu_ok sn :
  0 <= sn < 2 * rm_size m ->
  exists m', nr_rlc_rx_manager_clear_pdu m sn = Ok m' /\ rm_wf m'
    /\ rm_size m' = rm_size m /\ rm_start m' = rm_start m /\ rm_sn_start m' = rm_sn_start m
    /\ forall k, rm_slot m' k
         = if k mod rm_size m =? (sn - rm_sn_start m) mod rm_size m then [] else rm_slot m k.
Proof. apply rx_list_set_ok. Qed.

Lemma add_pdu_ok p :
  0 <= pdu_sn p < 2 * rm_size m ->
  exists m', nr_rlc_rx_manager_add_pdu m p = Ok m' /\ rm_wf m'
    /\ rm_size m' = rm_size m /\ rm_start m' = rm_start m /\ rm_sn_start m' = rm_sn_start m
    /\ forall k, rm_slot m' k
         = if k mod rm_size m =? (pdu_sn p - rm_sn_start m) mod rm_size m
           then insert_by_so p (rm_slot m k) else rm_slot m k.
Proof.
  intros Hsn. unfold nr_rlc_rx_manager_add_pdu. cbv zeta.
  rewrite rx_list_at_ok by by apply get_pos_range. cbn [rbind].
  destruct (rx_list_set_ok (pdu_sn p) (insert_by_so p (rm_list m !!! Z.to_nat (get_pos m (pdu_sn p)))) Hsn)
    as (m' & -> & Hwf & Hs & Hst & Hsn' & Hk).
  eexists. split_and!; try done. intros k. rewrite Hk. case_bool_; [|done]. f_equal.
  rewrite get_pos_mod by done. fold (rm_slot m (pdu_sn p - rm_sn_start m)).
  apply Z.eqb_eq in Heqb. by rewrite <- rm_slot_mod, <- Heqb, rm_slot_mod.
Qed.

(** Advancing by [count] and setting the matching start shifts the slots. *)
Lemma advance_ok count sn :
  0 <= count -> 0 <= sn < 2 * rm_size m ->
  let m' := nr_rlc_rx_manager_set_start (nr_rlc_rx_manager_advance m count) sn in
  rm_wf m' /\ rm_size m' = rm_size m /\ rm_sn_start m' = sn
  /\ forall k, rm_slot m' k = rm_slot m (k + count).
Proof.
  intros Hc Hsn m'. destruct wf. subst m'. unfold nr_rlc_rx_manager_set_start, nr_rlc_rx_manager_advance, rm_slot.
  cbn [rm_size rm_start rm_sn_start rm_list]. rewrite Z.rem_mod_nonneg by lia.
  split_and!; try done.
  - split; simpl; try done. by apply Z.mod_pos_bound.
  - intros k. rewrite Zplus_mod_idemp_l. by replace (rm_start m + count + k) with (rm_start m + (k + count)) by lia.
Qed.

End Slots.

Lemma new_rx_manager_ok size :
  0 < size -> rm_wf (nr_rlc_new_rx_manager size) /\ forall k, rm_slot (nr_rlc_new_rx_manager size) k = [].
Proof.
  intros Hs. split.
  - split; simpl; try lia. unfold zlen. rewrite length_replicate. lia.
  - intros k. unfold rm_slot. simpl. apply lookup_total_replicate_2.
    pose proof (Z.mod_pos_bound (0 + k) size Hs). simpl in *. lia.
Qed.

Lemma clear_rx_manager_new m : nr_rlc_clear_rx_manager m = nr_rlc_new_rx_manager (rm_size m).
Proof. done. Qed.

Lemma insert_by_so_perm p l : insert_by_so p l ≡ₚ p :: l.
Proof.
  induction l as [|q l IH]; simpl; [done|]. case_bool_; [done|]. rewrite IH. apply Permutation_swap.
Qed.

Lemma insert_by_so_sorted p l :
  StronglySorted (fun a b => pdu_so a <= pdu_so b) l ->
  StronglySorted (fun a b => pdu_so a <= pdu_so b) (insert_by_so p l).
Proof.
  induction 1 as [|q l Hs IH Hq]; simpl; [by repeat constructor|]. case_bool_.
  - constructor; [by constructor|]. constructor; [lia|]. eapply Forall_impl; [exact Hq|]. simpl. lia.
  - constructor; [done|]. rewrite insert_by_so_perm. constructor; [lia|done].
Qed.
