(* ===== verification/RlcAm.v ===== *)
(** The NR RLC AM entity, first part: state, arithmetic of sequence numbers
    and reception of data PDUs (openair2/LAYER2/nr_rlc/nr_rlc_entity_am.[ch]); definitions only.

    The segments of an SDU being received are a list of the reception window
    (RlcRxManager).  A pointer into such a list is the list from there on, so
    that [p->next] is its tail and NULL is [[]].  The code of a reassembly step
    is that of the UM entity ([RlcUm.reassemble_one]). *)

From S2P Require Import Prelude RlcPdu RlcSdu TimeStat RlcEntity RlcUm RlcRxManager.

Record nr_rlc_entity_am := mk_am {
  am_common : nr_rlc_entity;
  am_t_poll_retransmit : Z;
  am_t_reassembly : Z;
  am_t_status_prohibit : Z;
  am_poll_pdu : Z;                  (* -1 means infinity *)
  am_poll_byte : Z;                 (* -1 means infinity *)
  am_max_retx_threshold : Z;
  am_sn_field_length : Z;
  am_sn_modulus : Z;
  am_window_size : Z;
  am_rx_next : Z;
  am_rx_next_status_trigger : Z;
  am_rx_highest_status : Z;
  am_rx_next_highest : Z;
  am_status_triggered : bool;
  am_tx_next : Z;
  am_tx_next_ack : Z;
  am_poll_sn : Z;
  am_pdu_without_poll : Z;
  am_byte_without_poll : Z;
  am_force_poll : bool;
  am_t_current : Z;
  am_t_log_buffer_full : Z;
  am_sdu_rejected : Z;
  am_t_poll_retransmit_start : Z;
  am_t_reassembly_start : Z;
  am_t_status_prohibit_start : Z;
  am_rx : nr_rlc_rx_manager;
  am_rx_size : Z;
  am_rx_maxsize : Z;
  am_tx : seg_list;                 (* tx_list and tx_end *)
  am_tx_size : Z;
  am_tx_maxsize : Z;
  am_wait : seg_list;               (* wait_list and wait_end *)
  am_retransmit : list nr_rlc_sdu_segment
}.

Definition am_stats (f : nr_rlc_statistics -> nr_rlc_statistics) (e : nr_rlc_entity_am)
    : nr_rlc_entity_am := {| e with am_common := entity_stats f (am_common e) |}.

Definition am_bstatus_tx (f : Z -> Z) (e : nr_rlc_entity_am) : nr_rlc_entity_am :=
  {| e with am_common := entity_bstatus_tx f (am_common e) |}.

Definition am_bstatus_retx (f : Z -> Z) (e : nr_rlc_entity_am) : nr_rlc_entity_am :=
  let b := bstatus (am_common e) in
  {| e with am_common := {| (am_common e) with bstatus := {| b with bs_retx_size := f (bs_retx_size b) |} |} |}.

Definition new_nr_rlc_entity_am (rx_maxsize tx_maxsize t_poll_retransmit t_reassembly t_status_prohibit
    poll_pdu poll_byte max_retx_threshold sn_field_length : Z) : res nr_rlc_entity_am :=
  let* _ := assert_ ((sn_field_length =? 12) || (sn_field_length =? 18)) in
  let sn_modulus := Z.shiftl 1 sn_field_length in
  let* avg := time_average_new (100 * 1000) 1024 in
  Ok {| am_common := {| bstatus := mk_bstatus 0 0 0; stats := stats_zero NR_RLC_AM;
                        avg_time_to_tx := avg; avg_time_is_on := false |};
        am_t_poll_retransmit := t_poll_retransmit; am_t_reassembly := t_reassembly;
        am_t_status_prohibit := t_status_prohibit; am_poll_pdu := poll_pdu; am_poll_byte := poll_byte;
        am_max_retx_threshold := max_retx_threshold; am_sn_field_length := sn_field_length;
        am_sn_modulus := sn_modulus; am_window_size := Z.quot sn_modulus 2;
        am_rx_next := 0; am_rx_next_status_trigger := 0; am_rx_highest_status := 0;
        am_rx_next_highest := 0; am_status_triggered := false; am_tx_next := 0; am_tx_next_ack := 0;
        am_poll_sn := 0; am_pdu_without_poll := 0; am_byte_without_poll := 0; am_force_poll := false;
        am_t_current := 0; am_t_log_buffer_full := 0; am_sdu_rejected := 0;
        am_t_poll_retransmit_start := 0; am_t_reassembly_start := 0; am_t_status_prohibit_start := 0;
        am_rx := nr_rlc_new_rx_manager (Z.shiftl 1 (sn_field_length - 1)); am_rx_size := 0;
        am_rx_maxsize := rx_maxsize * 5; am_tx := mk_seg_list [] None; am_tx_size := 0;
        am_tx_maxsize := tx_maxsize * 5; am_wait := mk_seg_list [] None; am_retransmit := [] |}.

Definition nr_rlc_entity_am_reconfigure (e : nr_rlc_entity_am) (t_poll_retransmit t_reassembly
    t_status_prohibit poll_pdu poll_byte max_retx_threshold : Z) (sn_field_length : option Z)
    : nr_rlc_entity_am :=
  let e := {| e with am_t_poll_retransmit := t_poll_retransmit; am_t_reassembly := t_reassembly;
                     am_t_status_prohibit := t_status_prohibit; am_poll_pdu := poll_pdu;
                     am_poll_byte := poll_byte; am_max_retx_threshold := max_retx_threshold |} in
  match sn_field_length with
  | Some n => {| e with am_sn_field_length := n |}
  | None => e
  end.

Definition compute_pdu_header_size (e : nr_rlc_entity_am) (sdu : nr_rlc_sdu_segment) : Z :=
  2 + (if am_sn_field_length e =? 18 then 1 else 0) + (if negb (seg_is_first sdu) then 2 else 0).

(** ** PDU RX functions *)

Definition modulus_rx (e : nr_rlc_entity_am) (a : Z) : Z :=
  let r := a - am_rx_next e in if r <? 0 then r + am_sn_modulus e else r.

Definition modulus_tx (e : nr_rlc_entity_am) (a : Z) : Z :=
  let r := a - am_tx_next_ack e in if r <? 0 then r + am_sn_modulus e else r.

Definition sn_in_recv_window (e : nr_rlc_entity_am) (sn : Z) : bool := modulus_rx e sn <? am_window_size e.

Definition sn_compare_rx (e : nr_rlc_entity_am) (a b : Z) : Z := modulus_rx e a - modulus_rx e b.
Definition sn_compare_tx (e : nr_rlc_entity_am) (a b : Z) : Z := modulus_tx e a - modulus_tx e b.

(** The next sequence number. *)
Definition sn_next (e : nr_rlc_entity_am) (a : Z) : Z := Z.rem (a + 1) (am_sn_modulus e).
Definition sn_prev (e : nr_rlc_entity_am) (a : Z) : Z := Z.rem (a - 1 + am_sn_modulus e) (am_sn_modulus e).

Definition get_pdu_from_sn (e : nr_rlc_entity_am) (sn : Z) : res (list nr_rlc_pdu) :=
  nr_rlc_rx_manager_get_pdu_from_sn (am_rx e) sn.

Fixpoint already_received_loop (l : list nr_rlc_pdu) (so size : Z) : bool :=
  match l with
  | [] => size <=? 0
  | p :: l' =>
      if size <=? 0 then true
      else if (pdu_so p <=? so) && (so <? pdu_so p + pdu_size p) then
        let covered := pdu_size p - (so - pdu_so p) in
        already_received_loop l' (so + covered) (size - covered)
      else if (pdu_so p <=? so + size - 1) && (so + size - 1 <? pdu_so p + pdu_size p) then
        let covered := size - (pdu_so p - so) in
        already_received_loop l' so (size - covered)
      else already_received_loop l' so size
  end.

Definition segment_already_received (e : nr_rlc_entity_am) (sn so size : Z) : res bool :=
  let* l := get_pdu_from_sn e sn in
  Ok (already_received_loop l so size).

(** The head of the list was delivered: its data is NULL. *)
Definition head_processed (l : list nr_rlc_pdu) : bool :=
  match l with
  | {| pdu_data := None |} :: _ => true
  | _ => false
  end.

Fixpoint full_loop (last_byte : Z) (l : list nr_rlc_pdu) : bool :=
  match l with
  | [] => false
  | p :: l' =>
      if last_byte + 1 <? pdu_so p then false
      else if pdu_is_last p then true
      else full_loop (new_last_byte p last_byte) l'
  end.

Definition sdu_full (e : nr_rlc_entity_am) (sn : Z) : res bool :=
  let* l := get_pdu_from_sn e sn in
  Ok (if head_processed l then false else full_loop (-1) l).

Definition sdu_delivered (e : nr_rlc_entity_am) (sn : Z) : res bool :=
  let* l := get_pdu_from_sn e sn in
  Ok (head_processed l).

Fixpoint missing_bytes_loop (last_byte : Z) (l : list nr_rlc_pdu) : bool :=
  match l with
  | [] => false
  | p :: l' =>
      if last_byte + 1 <? pdu_so p then true
      else missing_bytes_loop (new_last_byte p last_byte) l'
  end.

Definition sdu_has_missing_bytes (e : nr_rlc_entity_am) (sn : Z) : res bool :=
  let* l := get_pdu_from_sn e sn in
  Ok (if head_processed l then false else missing_bytes_loop (-1) l).

(** A segment after its bytes were copied: the data is freed, the size stays. *)
Definition data_freed (p : nr_rlc_pdu) : nr_rlc_pdu := {| p with pdu_data := None |}.

Fixpoint reassemble_list (l : list nr_rlc_pdu) (r : reassembly) : res (list nr_rlc_pdu * reassembly) :=
  match l with
  | [] => Ok ([], r)
  | p :: l' =>
      let* r := reassemble_one p r in
      let* (l'', r) := reassemble_list l' r in
      Ok (data_freed p :: l'', r)
  end.

Definition stats_am_delivered (s : nr_rlc_statistics) : nr_rlc_statistics :=
  {| s with txsdu_pkts := u32 (txsdu_pkts s + 1) |}.

(** The list is updated in place: the array holds its new content. *)
Definition reassemble_and_deliver (e : nr_rlc_entity_am) (sn : Z) : res (nr_rlc_entity_am * list event) :=
  let* l := get_pdu_from_sn e sn in
  let* (l, r) := reassemble_list l (mk_reass [] false (am_rx_size e)) in
  let* rx := rx_list_set (am_rx e) (get_pos (am_rx e) sn) l in
  let e := {| e with am_rx := rx; am_rx_size := ra_rx_size r |} in
  if ra_bad r then Ok (e, [])
  else Ok (am_stats stats_am_delivered e, [deliver_sdu (ra_sdu r)]).

(** [while (sdu_delivered(entity, sn)) sn = (sn + 1) % entity->sn_modulus;] *)
Fixpoint am_skip_delivered (fuel : nat) (e : nr_rlc_entity_am) (sn : Z) : res Z :=
  match fuel with
  | O => Fail FFuel
  | S fuel' =>
      let* d := sdu_delivered e sn in
      if d then am_skip_delivered fuel' e (sn_next e sn) else Ok sn
  end.

(** More steps than there are sequence numbers: the loop does not end. *)
Definition am_fuel (e : nr_rlc_entity_am) : nat := Z.to_nat (am_sn_modulus e).

(** The loop that frees the delivered SDUs at the head of the window. *)
Fixpoint free_delivered (fuel : nat) (e : nr_rlc_entity_am) (rx_next count : Z)
    : res (nr_rlc_entity_am * Z * Z) :=
  match fuel with
  | O => Fail FFuel
  | S fuel' =>
      let* l := get_pdu_from_sn e rx_next in
      if head_processed l then
        let* rx := nr_rlc_rx_manager_clear_pdu (am_rx e) rx_next in
        free_delivered fuel' {| e with am_rx := rx |} (sn_next e rx_next) (count + 1)
      else Ok (e, rx_next, count)
  end.

Definition advance_rx_next (e : nr_rlc_entity_am) : res nr_rlc_entity_am :=
  let* (e, rx_next, count) := free_delivered (am_fuel e) e (am_rx_next e) 0 in
  let rx := nr_rlc_rx_manager_set_start (nr_rlc_rx_manager_advance (am_rx e) count) rx_next in
  Ok {| e with am_rx_next := rx_next; am_rx := rx |}.

(** [rx_next_highest] moves behind [x], [rx_highest_status] past the SDUs that
    are delivered. *)
Definition raise_next_highest (e : nr_rlc_entity_am) (x : Z) : nr_rlc_entity_am :=
  if 0 <=? sn_compare_rx e x (am_rx_next_highest e)
  then {| e with am_rx_next_highest := sn_next e x |} else e.

Definition raise_highest_status (e : nr_rlc_entity_am) (x : Z) : res nr_rlc_entity_am :=
  if x =? am_rx_highest_status e
  then let* n := am_skip_delivered (am_fuel e) e (am_rx_highest_status e) in
       Ok {| e with am_rx_highest_status := n |}
  else Ok e.

(** First part of [reception_actions]: the window. *)
Definition reception_update (e : nr_rlc_entity_am) (x : Z) : res (nr_rlc_entity_am * list event) :=
  let e := raise_next_highest e x in
  let* full := sdu_full e x in
  if full then
    let* (e, ev) := reassemble_and_deliver e x in
    let* e := raise_highest_status e x in
    let* e := if x =? am_rx_next e then advance_rx_next e else Ok e in
    Ok (e, ev)
  else Ok (e, []).

(** Second part: [t_Reassembly] is stopped, then (re)started. *)
Definition timer_update (e : nr_rlc_entity_am) : res nr_rlc_entity_am :=
  let next := sn_next e (am_rx_next e) in
  let* missing := sdu_has_missing_bytes e (am_rx_next e) in
  let e :=
    if negb (am_t_reassembly_start e =? 0)
       && ((am_rx_next_status_trigger e =? am_rx_next e)
           || ((am_rx_next_status_trigger e =? next) && negb missing)
           || (negb (sn_in_recv_window e (am_rx_next_status_trigger e))
               && negb (am_rx_next_status_trigger e
                        =? Z.rem (am_rx_next e + am_window_size e) (am_sn_modulus e))))
    then {| e with am_t_reassembly_start := 0 |} else e in
  if (am_t_reassembly_start e =? 0)
     && ((0 <? sn_compare_rx e (am_rx_next_highest e) next)
         || ((am_rx_next_highest e =? next) && missing))
  then Ok {| e with am_t_reassembly_start := am_t_current e;
                    am_rx_next_status_trigger := am_rx_next_highest e |}
  else Ok e.

Definition reception_actions (e : nr_rlc_entity_am) (x : Z) : res (nr_rlc_entity_am * list event) :=
  let* (e, ev) := reception_update e x in
  let* e := timer_update e in
  Ok (e, ev).

(** The label [discard] of [recv_pdu]. *)
Definition am_discard_pdu (e : nr_rlc_entity_am) (p : bool) (size : Z) : nr_rlc_entity_am :=
  let e := if p then {| e with am_status_triggered := true |} else e in
  am_stats (stats_rxpdu_dd size) e.

(** What [recv_pdu] does with a segment once its header is decoded. *)
Definition am_recv_segment (e : nr_rlc_entity_am) (buffer : bytes) (p : bool)
    (sn so : Z) (is_first is_last : bool) (byte : Z) : res (nr_rlc_entity_am * list event) :=
  let size := zlen buffer in
  let data_size := size - byte in
  if data_size <=? 0 then Ok (am_discard_pdu e p size, [])
  else if am_rx_maxsize e <? am_rx_size e + data_size then Ok (am_discard_pdu e p size, [])
  else if negb (sn_in_recv_window e sn) then
    Ok (am_discard_pdu (am_stats (fun s => {| s with rxpdu_ow_pkts := u32 (rxpdu_ow_pkts s + 1);
                                                   rxpdu_ow_bytes := u32 (rxpdu_ow_bytes s + size) |}) e) p size, [])
  else
    let* already := segment_already_received e sn so data_size in
    if already then
      Ok (am_discard_pdu (am_stats (fun s => {| s with rxpdu_dup_pkts := u32 (rxpdu_dup_pkts s + 1);
                                                     rxpdu_dup_bytes := u32 (rxpdu_dup_bytes s + size) |}) e) p size, [])
    else
      let* data := buf_read buffer (size - data_size) data_size in
      let* pdu := nr_rlc_new_pdu sn so is_first is_last data data_size in
      let* rx := nr_rlc_rx_manager_add_pdu (am_rx e) pdu in
      let* (e, ev) := reception_actions {| e with am_rx_size := am_rx_size e + data_size; am_rx := rx |} (pdu_sn pdu) in
      Ok (if p then {| e with am_status_triggered := true |} else e, ev).

(** A data PDU, from the bit after D/C on. *)
Definition am_recv_data (e : nr_rlc_entity_am) (buffer : bytes) (d : nr_rlc_pdu_decoder)
    : res (nr_rlc_entity_am * list event) :=
  let size := zlen buffer in
  let* (pv, d) := nr_rlc_pdu_decoder_get_bits d 1 in
  let p := negb (pv =? 0) in
  if nr_rlc_pdu_decoder_in_error d then Ok (am_discard_pdu e p size, []) else
  let* (si, d) := nr_rlc_pdu_decoder_get_bits d 2 in
  if nr_rlc_pdu_decoder_in_error d then Ok (am_discard_pdu e p size, []) else
  let is_first := Z.land si 2 =? 0 in
  let is_last := Z.land si 1 =? 0 in
  let* (_, d) := (if am_sn_field_length e =? 18 then nr_rlc_pdu_decoder_get_bits d 2 else Ok (0, d)) in
  if nr_rlc_pdu_decoder_in_error d then Ok (am_discard_pdu e p size, []) else
  let* (sn, d) := nr_rlc_pdu_decoder_get_bits d (am_sn_field_length e) in
  if nr_rlc_pdu_decoder_in_error d then Ok (am_discard_pdu e p size, []) else
  if is_first then am_recv_segment e buffer p sn 0 is_first is_last (dec_byte d)
  else
    let* (so, d) := nr_rlc_pdu_decoder_get_bits d 16 in
    if nr_rlc_pdu_decoder_in_error d then Ok (am_discard_pdu e p size, [])
    else if so =? 0 then Ok (am_discard_pdu e p size, [])
    else am_recv_segment e buffer p sn so is_first is_last (dec_byte d).
