(* ===== verification/RlcAmStatus.v ===== *)
(** Status reporting of the NR RLC AM entity
    (openair2/LAYER2/nr_rlc/nr_rlc_entity_am.c, "TX functions - status
    reporting"): what is missing in the reception window, and the control PDU
    that says so. *)

From S2P Require Import Prelude RlcPdu RlcSdu TimeStat RlcEntity RlcUm RlcRxManager RlcAm.

(** [md_next] is the pointer to go on from, [[]] for NULL.  The functions below
    return [None] for a [missing_data_t] whose [sn_start] is -1, which the
    callers do not look into any further. *)
Record missing_data_t := mk_missing {
  md_sn_start : Z;
  md_so_start : Z;
  md_sn_end : Z;
  md_so_end : Z;
  md_next : list nr_rlc_pdu
}.

(** The search of [get_first_rx_pdu] and [get_next_rx_pdu]. *)
Fixpoint find_rx_pdu (fuel : nat) (e : nr_rlc_entity_am) (sn last_sn : Z) : res (list nr_rlc_pdu) :=
  match fuel with
  | O => Fail FFuel
  | S fuel' =>
      if sn =? last_sn then get_pdu_from_sn e sn
      else
        let* ret := get_pdu_from_sn e sn in
        match ret with
        | _ :: _ => Ok ret
        | [] => find_rx_pdu fuel' e (sn_next e sn) last_sn
        end
  end.

Definition get_first_rx_pdu (e : nr_rlc_entity_am) : res (list nr_rlc_pdu) :=
  find_rx_pdu (am_fuel e) e (am_rx_next e) (am_rx_highest_status e).

(** [cur] is the PDU, [next] its [next] field. *)
Definition get_next_rx_pdu (e : nr_rlc_entity_am) (cur : nr_rlc_pdu) (next : list nr_rlc_pdu)
    : res (list nr_rlc_pdu) :=
  match next with
  | _ :: _ => Ok next
  | [] =>
      if pdu_sn cur =? am_rx_highest_status e then Ok []
      else find_rx_pdu (am_fuel e) e (sn_next e (pdu_sn cur)) (am_rx_highest_status e)
  end.

(** The reporting window ends before [rx_highest_status]. *)
Definition out_of_report (e : nr_rlc_entity_am) (sn : Z) : bool :=
  sn_compare_rx e (am_rx_highest_status e) sn <=? 0.

Definition last_report_sn (e : nr_rlc_entity_am) : Z := sn_prev e (am_rx_highest_status e).

(** The label [set_end_different_sdu]. *)
Definition set_end_different_sdu (e : nr_rlc_entity_am) (sn_start so_start : Z)
    (cur : nr_rlc_pdu) (next : list nr_rlc_pdu) : missing_data_t :=
  let (sn_end, so_end) :=
    if pdu_is_first cur then (sn_prev e (pdu_sn cur), 0xffff) else (pdu_sn cur, pdu_so cur - 1) in
  if out_of_report e sn_end
  then {| md_sn_start := sn_start; md_so_start := so_start; md_sn_end := last_report_sn e;
          md_so_end := 0xffff; md_next := [] |}
  else {| md_sn_start := sn_start; md_so_start := so_start; md_sn_end := sn_end;
          md_so_end := so_end; md_next := next |}.

(** The end of the search, when there is no PDU after [cur]. *)
Definition missing_at_end (e : nr_rlc_entity_am) (cur : nr_rlc_pdu) (max_so : Z) (last_reached : bool)
    : option missing_data_t :=
  let (sn_start, so_start) :=
    match pdu_data cur with
    | None => (sn_next e (pdu_sn cur), 0)
    | Some _ => if last_reached then (sn_next e (pdu_sn cur), 0) else (pdu_sn cur, max_so + 1)
    end in
  if out_of_report e sn_start then None
  else Some {| md_sn_start := sn_start; md_so_start := so_start; md_sn_end := last_report_sn e;
               md_so_end := 0xffff; md_next := [] |}.

(** From the label [next_pdu] on; [cur] and [next] are as above. *)
Fixpoint next_missing_loop (fuel : nat) (e : nr_rlc_entity_am) (cur : nr_rlc_pdu) (next : list nr_rlc_pdu)
    (max_so : Z) (last_reached : bool) : res (option missing_data_t) :=
  match fuel with
  | O => Fail FFuel
  | S fuel' =>
      let sn := pdu_sn cur in
      let cur_max_so := pdu_so cur + pdu_size cur - 1 in
      let max_so := if max_so <? cur_max_so then cur_max_so else max_so in
      let last_reached := last_reached || pdu_is_last cur in
      let* cur_next := get_next_rx_pdu e cur next in
      match cur_next with
      | [] => Ok (missing_at_end e cur max_so last_reached)
      | cur :: next =>
          if (pdu_sn cur =? sn) && (pdu_so cur - 1 <=? max_so)
          then next_missing_loop fuel' e cur next max_so last_reached
          else if (pdu_sn cur =? sn_next e sn) && last_reached && pdu_is_first cur
          then next_missing_loop fuel' e cur next 0 false
          else if pdu_sn cur =? sn then
            if out_of_report e sn then Ok None
            else Ok (Some {| md_sn_start := sn; md_so_start := max_so + 1; md_sn_end := sn;
                             md_so_end := pdu_so cur - 1; md_next := cur_next |})
          else
            let (sn_start, so_start) := if last_reached then (sn_next e sn, 0) else (sn, max_so + 1) in
            if out_of_report e sn_start then Ok None
            else Ok (Some (set_end_different_sdu e sn_start so_start cur cur_next))
      end
  end.

(** At most every PDU of the window is visited, those of the first sequence
    number twice. *)
Definition missing_fuel (e : nr_rlc_entity_am) : nat := S (2 * length (mjoin (rm_list (am_rx e)))).

(** [l] is the pointer [cur], which is not NULL. *)
Definition next_missing (e : nr_rlc_entity_am) (l : list nr_rlc_pdu) (check_head : bool)
    : res (option missing_data_t) :=
  match l with
  | [] => Fail FBounds
  | cur :: next =>
      if check_head && (negb (pdu_sn cur =? am_rx_next e) || negb (pdu_is_first cur)) then
        if out_of_report e (am_rx_next e) then Ok None
        else Ok (Some (set_end_different_sdu e (am_rx_next e) 0 cur l))
      else next_missing_loop (missing_fuel e) e cur next 0 false
  end.

Definition nack_size (e : nr_rlc_entity_am) (m : missing_data_t) : Z :=
  let nack_length := 2 + (if am_sn_field_length e =? 18 then 1 else 0) in
  let whole := (md_so_start m =? 0) && (md_so_end m =? 0xffff) in
  if md_sn_start m =? md_sn_end m
  then (if whole then nack_length else nack_length + 4)
  else (if whole then nack_length + 1 else nack_length + 5).

Definition get_e1_position (e : nr_rlc_entity_am) (enc : nr_rlc_pdu_encoder) : Z * Z :=
  if am_sn_field_length e =? 18 then (enc_byte enc + 2, 5) else (enc_byte enc + 1, 3).

(** The flags and the range of one NACK: at most 255 sequence numbers of [m]
    from [sn_start] on, when [sn_count] are left. *)
Definition nack_piece (e : nr_rlc_entity_am) (m : missing_data_t) (sn_start sn_count : Z)
    : Z * missing_data_t :=
  let cur_sn_count := if 255 <? sn_count then 255 else sn_count in
  let so_start := if sn_start =? md_sn_start m then md_so_start m else 0 in
  let (sn_end, so_end) :=
    if cur_sn_count =? sn_count then (md_sn_end m, md_so_end m)
    else (Z.rem (sn_start + 254) (am_sn_modulus e), 0xffff) in
  (cur_sn_count, mk_missing sn_start so_start sn_end so_end []).

(** [buffer[i] |= v]. *)
Definition buf_or (buf : bytes) (i v : Z) : res bytes :=
  let* old := of_opt FBounds (buf !! Z.to_nat i) in
  Ok (<[Z.to_nat i := u8 (Z.lor old v)]> buf).

Record missing_out := mk_mout {
  mo_enc : nr_rlc_pdu_encoder;
  mo_e1 : Z * Z;                   (* e1_byte and e1_bit *)
  mo_truncated : bool;
  mo_so_end : option Z;            (* so_end_address, as an offset *)
  mo_last_nack : Z                 (* -1: nothing generated *)
}.

(** The bytes of one NACK. *)
Definition put_nack (e : nr_rlc_entity_am) (n : missing_data_t) (cur_sn_count : Z) (o : missing_out)
    : res missing_out :=
  let r_bits := if am_sn_field_length e =? 18 then 3 else 1 in
  let whole := (md_so_start n =? 0) && (md_so_end n =? 0xffff) in
  let e2 := negb whole in
  let e3 := negb (md_sn_start n =? md_sn_end n) in
  let enc := mo_enc o in
  let* buf := buf_or (enc_buffer enc) (fst (mo_e1 o)) (Z.shiftl 1 (snd (mo_e1 o))) in
  let enc := {| enc with enc_buffer := buf |} in
  let e1 := get_e1_position e enc in
  let* enc := nr_rlc_pdu_encoder_put_bits enc (md_sn_start n) (am_sn_field_length e) in
  let* enc := nr_rlc_pdu_encoder_put_bits enc 0 1 in
  let* enc := nr_rlc_pdu_encoder_put_bits enc (Z.b2z e2) 1 in
  let* enc := nr_rlc_pdu_encoder_put_bits enc (Z.b2z e3) 1 in
  let* enc := nr_rlc_pdu_encoder_put_bits enc 0 r_bits in
  let* (enc, so_end) :=
    if e2 then
      let* enc := nr_rlc_pdu_encoder_put_bits enc (md_so_start n) 16 in
      let so_end := enc_byte enc in
      let* enc := nr_rlc_pdu_encoder_put_bits enc (md_so_end n) 16 in
      Ok (enc, Some so_end)
    else Ok (enc, None) in
  let* enc := if e3 then nr_rlc_pdu_encoder_put_bits enc cur_sn_count 8 else Ok enc in
  Ok {| mo_enc := enc; mo_e1 := e1; mo_truncated := mo_truncated o; mo_so_end := so_end;
        mo_last_nack := if e3 then md_sn_start n + (cur_sn_count - 1) else md_sn_start n |}.

(** The loop [while (sn_count)]: at least one sequence number leaves per turn. *)
Fixpoint generate_missing_loop (fuel : nat) (e : nr_rlc_entity_am) (m : missing_data_t)
    (sn_start sn_count : Z) (o : missing_out) : res missing_out :=
  if sn_count =? 0 then Ok o
  else match fuel with
       | O => Fail FFuel
       | S fuel' =>
           let (cur_sn_count, n) := nack_piece e m sn_start sn_count in
           if enc_size (mo_enc o) <? enc_byte (mo_enc o) + nack_size e n
           then Ok {| o with mo_truncated := true |}
           else
             let* o := put_nack e n cur_sn_count o in
             generate_missing_loop fuel' e m (Z.rem (sn_start + cur_sn_count) (am_sn_modulus e))
               (sn_count - cur_sn_count) o
       end.

Definition missing_count (e : nr_rlc_entity_am) (m : missing_data_t) : Z :=
  Z.rem (md_sn_end m - md_sn_start m + am_sn_modulus e) (am_sn_modulus e) + 1.

(** [mo_last_nack] of the result is the value returned; when [mo_truncated] is
    set, the code sets [m->next] to NULL. *)
Definition generate_missing (e : nr_rlc_entity_am) (m : missing_data_t) (o : missing_out) : res missing_out :=
  let sn_count := missing_count e m in
  generate_missing_loop (Z.to_nat sn_count) e m (md_sn_start m) sn_count
    {| o with mo_truncated := false; mo_last_nack := -1 |}.

(** The loop of [generate_status].  Every turn but the last writes a NACK, so
    that the size of the buffer is enough fuel.  [mo_last_nack] of the
    argument is [last_nack] of the code. *)
Fixpoint status_loop (fuel : nat) (e : nr_rlc_entity_am) (cur : list nr_rlc_pdu) (check_head : bool)
    (o : missing_out) : res missing_out :=
  match cur with
  | [] => Ok o
  | _ =>
      match fuel with
      | O => Fail FFuel
      | S fuel' =>
          let* m := next_missing e cur check_head in
          match m with
          | None => Ok o
          | Some m =>
              let* o' := generate_missing e m o in
              let last_nack := if mo_last_nack o' =? -1 then mo_last_nack o else mo_last_nack o' in
              let* buf :=
                match mo_truncated o', mo_so_end o' with
                | true, Some a => buf_write (enc_buffer (mo_enc o')) a [0xff; 0xff]
                | _, _ => Ok (enc_buffer (mo_enc o'))
                end in
              let o' := {| o' with mo_enc := {| (mo_enc o') with enc_buffer := buf |};
                                   mo_last_nack := last_nack |} in
              status_loop fuel' e (if mo_truncated o' then [] else md_next m) false o'
          end
      end
  end.

(** ACK_SN, written over the first bytes. *)
Definition put_ack_sn (e : nr_rlc_entity_am) (buf : bytes) (ack_sn : Z) : res bytes :=
  if am_sn_field_length e =? 12
  then buf_write buf 0 [u8 (Z.shiftr ack_sn 8); Z.land ack_sn 255]
  else let* buf := buf_write buf 0 [u8 (Z.shiftr ack_sn 14); Z.land (Z.shiftr ack_sn 6) 255] in
       buf_or buf 2 (Z.shiftl (Z.land ack_sn 0x3f) 2).

(** Returns the entity, the buffer of the caller and the size of the PDU. *)
Definition generate_status (e : nr_rlc_entity_am) (buffer : bytes) (size : Z)
    : res (nr_rlc_entity_am * bytes * Z) :=
  if size <? 3 then Ok (e, buffer, 0)
  else
    let last_nack := sn_prev e (am_rx_next e) in
    let* enc := nr_rlc_pdu_encoder_put_bits (nr_rlc_pdu_encoder_init buffer size) 0 (8 * 3) in
    let* cur := get_first_rx_pdu e in
    let* o := status_loop (Z.to_nat size) e cur true
                {| mo_enc := enc; mo_e1 := (2, if am_sn_field_length e =? 18 then 1 else 7);
                   mo_truncated := false; mo_so_end := None; mo_last_nack := last_nack |} in
    let* buf := put_ack_sn e (enc_buffer (mo_enc o)) (Z.rem (mo_last_nack o + 1) (am_sn_modulus e)) in
    let n := enc_byte (mo_enc o) in
    let e := {| e with am_status_triggered := false; am_t_status_prohibit_start := am_t_current e |} in
    Ok (am_stats (fun s => {| s with txpdu_pkts := u32 (txpdu_pkts s + 1);
                                     txpdu_bytes := u32 (txpdu_bytes s + n);
                                     txpdu_status_pkts := u32 (txpdu_status_pkts s + 1);
                                     txpdu_status_bytes := u32 (txpdu_status_bytes s + n) |}) e, buf, n).

Definition status_to_report (e : nr_rlc_entity_am) : bool :=
  am_status_triggered e
  && ((am_t_status_prohibit_start e =? 0)
      || (u64 (am_t_status_prohibit e) <? u64 (am_t_current e - am_t_status_prohibit_start e))).

(** The same walk as [generate_missing], counting bytes: the size so far, the
    ranges counted, and whether the end of the buffer was met. *)
Fixpoint missing_size_loop (fuel : nat) (e : nr_rlc_entity_am) (m : missing_data_t)
    (sn_start sn_count size range_count maxsize : Z) : res (Z * Z * bool) :=
  if sn_count =? 0 then Ok (size, range_count, false)
  else match fuel with
       | O => Fail FFuel
       | S fuel' =>
           let (cur_sn_count, n) := nack_piece e m sn_start sn_count in
           if maxsize <? size + nack_size e n then Ok (size, range_count, true)
           else
             let r_bits := if am_sn_field_length e =? 18 then 3 else 1 in
             let whole := (md_so_start n =? 0) && (md_so_end n =? 0xffff) in
             let bits := am_sn_field_length e + 3 + r_bits
                         + (if whole then 0 else 16 * 2)
                         + (if md_sn_start n =? md_sn_end n then 0 else 8) in
             missing_size_loop fuel' e m (Z.rem (sn_start + cur_sn_count) (am_sn_modulus e))
               (sn_count - cur_sn_count) (size + Z.quot bits 8) (range_count + 1) maxsize
       end.

Definition missing_size (e : nr_rlc_entity_am) (m : missing_data_t) (size maxsize : Z) : res (Z * Z * bool) :=
  let sn_count := missing_count e m in
  missing_size_loop (Z.to_nat sn_count) e m (md_sn_start m) sn_count size 0 maxsize.

Fixpoint status_size_loop (fuel : nat) (e : nr_rlc_entity_am) (cur : list nr_rlc_pdu)
    (nack_count size maxsize : Z) : res Z :=
  match cur with
  | [] => Ok size
  | _ =>
      match fuel with
      | O => Fail FFuel
      | S fuel' =>
          let* m := next_missing e cur (nack_count =? 0) in
          match m with
          | None => Ok size
          | Some m =>
              let* (size, count, truncated) := missing_size e m size maxsize in
              status_size_loop fuel' e (if truncated then [] else md_next m) (nack_count + count) size maxsize
          end
      end
  end.

Definition status_size (e : nr_rlc_entity_am) (maxsize : Z) : res Z :=
  if maxsize <? 3 then Ok 0
  else
    let* cur := get_first_rx_pdu e in
    status_size_loop (Z.to_nat maxsize) e cur 0 3 maxsize.
