(* ===== verification/RlcAmTx.v ===== *)
(** The NR RLC AM entity, second part: status PDUs received, transmission,
    timers and the remaining operations
    (openair2/LAYER2/nr_rlc/nr_rlc_entity_am.c); definitions only.

    The transmission list and the list of segments that wait for their
    acknowledgement have an end pointer, as in RlcSdu; a segment pointer that
    leads to no node of its list is [FBounds]. *)

From S2P Require Import Prelude RlcPdu RlcSdu TimeStat RlcEntity RlcUm RlcRxManager RlcAm RlcAmStatus.

(** [seg->sdu->sn]. *)
Definition seg_sn (h : rlc_heap) (seg : nr_rlc_sdu_segment) : res Z :=
  let* s := heap_get h (seg_sdu seg) in Ok (sdu_sn s).

Fixpoint nr_rlc_tx_sdu_segment_list_add (h : rlc_heap) (e : nr_rlc_entity_am)
    (l : list nr_rlc_sdu_segment) (seg : nr_rlc_sdu_segment) : res (list nr_rlc_sdu_segment) :=
  match l with
  | [] => Ok [seg]
  | cur :: l' =>
      let* sn_cur := seg_sn h cur in
      let* sn_seg := seg_sn h seg in
      if (0 <? sn_compare_tx e sn_cur sn_seg) || ((sn_cur =? sn_seg) && (seg_so seg <? seg_so cur))
      then Ok (seg :: l)
      else let* l'' := nr_rlc_tx_sdu_segment_list_add h e l' seg in Ok (cur :: l'')
  end.

(** ** Status PDUs received *)

Definition so_overlap (s1 e1 s2 e2 : Z) : bool :=
  if s1 <? s2 then (e1 =? -1) || (s2 <=? e1)
  else (e2 =? -1) || (s1 <=? e2).

(** A reader of bits: [None] when the decoder is in error and the code looks. *)
Definition bit_reader : Type := nr_rlc_pdu_decoder -> Z -> res (option (Z * nr_rlc_pdu_decoder)).

(** [get_bits] followed by [R(decoder)], and without. *)
Definition get_bits_R : bit_reader := fun d n =>
  let* (v, d) := nr_rlc_pdu_decoder_get_bits d n in
  Ok (if nr_rlc_pdu_decoder_in_error d then None else Some (v, d)).

Definition get_bits_unchecked : bit_reader := fun d n =>
  let* r := nr_rlc_pdu_decoder_get_bits d n in Ok (Some r).

Definition obind {A B} (m : res (option A)) (k : A -> res (option B)) : res (option B) :=
  let* o := m in match o with Some a => k a | None => Ok None end.

Notation "'let?' x := m 'in' k" := (obind m (fun x => k))
  (at level 10, x pattern, m at level 100, k at level 200) : res_scope.

(** The beginning of a control PDU: CPT, ACK_SN, E1. *)
Definition read_control_header (get : bit_reader) (e : nr_rlc_entity_am) (d : nr_rlc_pdu_decoder)
    : res (option (Z * Z * bool * nr_rlc_pdu_decoder)) :=
  let? (_, d) := get d 1 in
  let? (cpt, d) := get d 3 in
  let? (ack_sn, d) := get d (am_sn_field_length e) in
  let? (e1, d) := get d 1 in
  let? (_, d) := get d (if am_sn_field_length e =? 18 then 1 else 7) in
  Ok (Some (cpt, ack_sn, negb (e1 =? 0), d)).

Record nack_t := mk_nack { nack_sn : Z; nack_so_start : Z; nack_so_end : Z; nack_range : Z }.

(** One NACK, and whether another one follows ([e1]). *)
Definition read_nack (get : bit_reader) (e : nr_rlc_entity_am) (d : nr_rlc_pdu_decoder)
    : res (option (nack_t * bool * nr_rlc_pdu_decoder)) :=
  let? (sn, d) := get d (am_sn_field_length e) in
  let? (e1, d) := get d 1 in
  let? (e2, d) := get d 1 in
  let? (e3, d) := get d 1 in
  let? (_, d) := get d (if am_sn_field_length e =? 18 then 3 else 1) in
  let? (so_start, so_end, d) :=
    if negb (e2 =? 0) then
      let? (so_start, d) := get d 16 in
      let? (so_end, d) := get d 16 in
      Ok (Some (so_start, so_end, d))
    else Ok (Some (0, 0xffff, d)) in
  let? (range, d) := if negb (e3 =? 0) then get d 8 else Ok (Some (1, d)) in
  Ok (Some ({| nack_sn := sn; nack_so_start := so_start;
               nack_so_end := if so_end =? 0xffff then -1 else so_end; nack_range := range |},
            negb (e1 =? 0), d)).

(** [cur_nack_sn], [cur_so_start] and [cur_so_end] of index [i] of a range. *)
Definition nack_at (e : nr_rlc_entity_am) (n : nack_t) (i : Z) : Z * Z * Z :=
  (Z.rem (nack_sn n + i) (am_sn_modulus e),
   if i =? 0 then nack_so_start n else 0,
   if i =? nack_range n - 1 then nack_so_end n else -1).

(** The loop that checks the NACKs of a range: [count] of them, from [i] on.
    [prev_nack_sn] is still -1 in this loop (nothing sets it), so that what the
    code compares with the previous NACK is never looked at. *)
Fixpoint check_nack_range (count : nat) (e : nr_rlc_entity_am) (ack_sn : Z) (n : nack_t) (i : Z) : bool :=
  match count with
  | O => true
  | S count' =>
      let '(cur_nack_sn, _, _) := nack_at e n i in
      if 0 <? sn_compare_tx e cur_nack_sn ack_sn then false
      else check_nack_range count' e ack_sn n (i + 1)
  end.

(** The first [while (e1)]: false stands for [goto err].  A NACK takes bits of
    the PDU, so that their number is enough fuel. *)
Fixpoint check_nacks (fuel : nat) (e : nr_rlc_entity_am) (ack_sn : Z) (e1 : bool) (d : nr_rlc_pdu_decoder)
    : res bool :=
  if negb e1 then Ok true
  else match fuel with
       | O => Fail FFuel
       | S fuel' =>
           let* r := read_nack get_bits_R e d in
           match r with
           | None => Ok false
           | Some (n, e1, d) =>
               if check_nack_range (Z.to_nat (nack_range n)) e ack_sn n 0
               then check_nacks fuel' e ack_sn e1 d else Ok false
           end
       end.

Definition control_fuel (d : nr_rlc_pdu_decoder) : nat := Z.to_nat (8 * dec_size d).

(** The first half of [process_control_pdu]: is the PDU processed? *)
Definition check_control_pdu (e : nr_rlc_entity_am) (buffer : bytes) : res bool :=
  let d := nr_rlc_pdu_decoder_init buffer (zlen buffer) in
  let* r := read_control_header get_bits_R e d in
  match r with
  | None => Ok false
  | Some (cpt, ack_sn, e1, d) =>
      if negb (cpt =? 0) then Ok false
      else if 0 <? sn_compare_tx e ack_sn (am_tx_next e) then Ok false
      else check_nacks (control_fuel d) e ack_sn e1 d
  end.

(** The state of the second half.  [ct_kept] are the segments of the wait list
    up to [prev_wait_list], [ct_wait] those from [cur_wait_list] on, [ct_left]
    those behind [prev_wait_list] once [cur_wait_list] is set to NULL;
    [ct_end] is [end_wait_list]; [ct_new] is the new retransmit list up to
    [new_retransmit_list], [ct_retx] the old one from [cur_retransmit_list]. *)
Record control := mk_control {
  ct_heap : rlc_heap;
  ct_e : nr_rlc_entity_am;
  ct_kept : list nr_rlc_sdu_segment;
  ct_wait : list nr_rlc_sdu_segment;
  ct_left : list nr_rlc_sdu_segment;
  ct_end : option (option nat);
  ct_new : list nr_rlc_sdu_segment;
  ct_retx : list nr_rlc_sdu_segment;
  ct_events : list event
}.

(** [if (cur_wait_list == entity->wait_end) end_wait_list = prev_wait_list;] *)
Definition ct_unlink_end (c : control) (cur : nr_rlc_sdu_segment) : option (option nat) :=
  if bool_decide (sl_end (am_wait (ct_e c)) = Some (seg_addr cur))
  then Some (seg_addr <$> last (ct_kept c)) else ct_end c.

Definition stats_txsdu_bytes (n : Z) (s : nr_rlc_statistics) : nr_rlc_statistics :=
  {| s with txsdu_bytes := u64 (txsdu_bytes s + n) |}.

(** An acknowledged segment is freed; successful delivery is indicated when it
    was the last one of its SDU. *)
Definition free_acked (h : rlc_heap) (e : nr_rlc_entity_am) (cur : nr_rlc_sdu_segment)
    : res (rlc_heap * nr_rlc_entity_am * list event) :=
  let* s := heap_get h (seg_sdu cur) in
  let* (h, freed) := nr_rlc_free_sdu_segment h cur in
  if freed =? 1
  then Ok (h, am_stats (stats_txsdu_bytes (sdu_size s)) {| e with am_tx_size := am_tx_size e - sdu_size s |},
           [sdu_successful_delivery (sdu_upper_layer_id s)])
  else Ok (h, e, []).

(** An acknowledged segment at the head of the wait list. *)
Definition free_acked_wait (c : control) (cur : nr_rlc_sdu_segment) (rest : list nr_rlc_sdu_segment)
    : res control :=
  let* (h, e, ev) := free_acked (ct_heap c) (ct_e c) cur in
  Ok {| c with ct_heap := h; ct_e := e; ct_wait := rest; ct_end := ct_unlink_end c cur;
               ct_events := ct_events c ++ ev |}.

(** The same at the head of the retransmit list. *)
Definition free_acked_retx (c : control) (cur : nr_rlc_sdu_segment) (rest : list nr_rlc_sdu_segment)
    : res control :=
  let e := ct_e c in
  let e := am_bstatus_retx (fun r => r - (compute_pdu_header_size e cur + seg_size cur)) e in
  let* (h, e, ev) := free_acked (ct_heap c) e cur in
  Ok {| c with ct_heap := h; ct_e := e; ct_retx := rest; ct_events := ct_events c ++ ev |}.

(** A segment of the wait list that a NACK covers goes to the retransmit list. *)
Definition nack_wait (c : control) (cur : nr_rlc_sdu_segment) (rest : list nr_rlc_sdu_segment) : res control :=
  let e := ct_e c in
  let* s := heap_get (ct_heap c) (seg_sdu cur) in
  let s := {| s with sdu_retx_count := sdu_retx_count s + 1 |} in
  let h := heap_set (ct_heap c) (seg_sdu cur) s in
  let ev := if am_max_retx_threshold e * sdu_ref_count s <=? sdu_retx_count s then [max_retx_reached] else [] in
  Ok {| c with ct_heap := h;
               ct_e := am_bstatus_retx (fun r => r + (compute_pdu_header_size e cur + seg_size cur)) e;
               ct_wait := rest; ct_end := ct_unlink_end c cur; ct_new := ct_new c ++ [cur];
               ct_events := ct_events c ++ ev |}.

(** Where the processing of one NACK goes on. *)
Inductive nack_next := process_next_pdu | done_nack | lists_over.

(** The label [process_wait_list_head]. *)
Definition process_wait_list_head (c : control) (ack_sn : Z) (n : Z * Z * Z)
    (cur : nr_rlc_sdu_segment) (rest : list nr_rlc_sdu_segment) : res (control * nack_next) :=
  let '(cur_nack_sn, cur_so_start, cur_so_end) := n in
  let e := ct_e c in
  let* sn := seg_sn (ct_heap c) cur in
  if (sn =? cur_nack_sn)
     && so_overlap cur_so_start cur_so_end (seg_so cur) (seg_so cur + seg_size cur - 1)
  then let* c := nack_wait c cur rest in Ok (c, process_next_pdu)
  else
    let cmp := sn_compare_tx e sn cur_nack_sn in
    if (0 <? cmp) || ((cmp =? 0) && (cur_so_start <? seg_so cur)) then Ok (c, done_nack)
    else if sn_compare_tx e sn ack_sn <? 0
    then let* c := free_acked_wait c cur rest in Ok (c, process_next_pdu)
    else if 0 <? sn_compare_tx e sn ack_sn
    then Ok ({| c with ct_wait := []; ct_left := cur :: rest |}, process_next_pdu)
    else Ok ({| c with ct_kept := ct_kept c ++ [cur]; ct_wait := rest |}, process_next_pdu).

(** The label [process_retransmit_list_head].  When the wait list is over, the
    rest of the list is linked behind [new_retransmit_list], which stays where
    it is; the assignment to [new_retransmit_list->next] at the end of
    [process_control_pdu] then cuts that rest off again, so that nothing of it
    is kept here. *)
Definition process_retransmit_list_head (c : control) (ack_sn : Z) (n : Z * Z * Z)
    (cur : nr_rlc_sdu_segment) (rest : list nr_rlc_sdu_segment) : res (control * nack_next) :=
  let '(cur_nack_sn, cur_so_start, cur_so_end) := n in
  let e := ct_e c in
  let* sn := seg_sn (ct_heap c) cur in
  let keep := {| c with ct_new := ct_new c ++ [cur]; ct_retx := rest |} in
  if (sn =? cur_nack_sn)
     && so_overlap cur_so_start cur_so_end (seg_so cur) (seg_so cur + seg_size cur - 1)
  then Ok (keep, process_next_pdu)
  else
    let cmp := sn_compare_tx e sn cur_nack_sn in
    if (0 <? cmp) || ((cmp =? 0) && (cur_so_start <? seg_so cur)) then Ok (c, done_nack)
    else if sn_compare_tx e sn ack_sn <? 0
    then let* c := free_acked_retx c cur rest in Ok (c, process_next_pdu)
    else match ct_wait c with
         | [] => Ok ({| c with ct_retx := [] |}, lists_over)
         | _ => Ok (keep, process_next_pdu)
         end.

(** The smallest SN, either from the wait list or from the retransmit list. *)
Definition process_pdu (c : control) (ack_sn : Z) (n : Z * Z * Z) : res (control * nack_next) :=
  match ct_wait c, ct_retx c with
  | [], [] => Ok (c, lists_over)
  | [], r :: rs => process_retransmit_list_head c ack_sn n r rs
  | w :: ws, [] => process_wait_list_head c ack_sn n w ws
  | w :: ws, r :: rs =>
      let* sn_w := seg_sn (ct_heap c) w in
      let* sn_r := seg_sn (ct_heap c) r in
      let cmp := sn_compare_tx (ct_e c) sn_w sn_r in
      if (cmp <? 0) || ((cmp =? 0) && (seg_so w <? seg_so r))
      then process_wait_list_head c ack_sn n w ws
      else process_retransmit_list_head c ack_sn n r rs
  end.

(** The label [process_next_pdu] for one NACK: every turn takes a segment off
    one of the lists, or is the last one. *)
Fixpoint process_nack (fuel : nat) (c : control) (ack_sn : Z) (n : Z * Z * Z) : res (control * bool) :=
  match fuel with
  | O => Fail FFuel
  | S fuel' =>
      let* (c, next) := process_pdu c ack_sn n in
      match next with
      | process_next_pdu => process_nack fuel' c ack_sn n
      | done_nack => Ok (c, false)
      | lists_over => Ok (c, true)
      end
  end.

Definition nack_fuel (c : control) : nat := S (length (ct_wait c) + length (ct_retx c)).

(** The loop over a range; it is left when the lists are over. *)
Fixpoint process_nack_range (count : nat) (c : control) (ack_sn : Z) (n : nack_t) (i : Z) : res control :=
  match count with
  | O => Ok c
  | S count' =>
      let* (c, over) := process_nack (nack_fuel c) c ack_sn (nack_at (ct_e c) n i) in
      if over then Ok c else process_nack_range count' c ack_sn n (i + 1)
  end.

(** The second [while (e1)]. *)
Fixpoint process_nacks (fuel : nat) (c : control) (ack_sn : Z) (e1 : bool) (d : nr_rlc_pdu_decoder) : res control :=
  if negb e1 then Ok c
  else match fuel with
       | O => Fail FFuel
       | S fuel' =>
           let* r := read_nack get_bits_unchecked (ct_e c) d in
           match r with
           | None => Fail FBounds
           | Some (n, e1, d) =>
               let* c := process_nack_range (Z.to_nat (nack_range n)) c ack_sn n 0 in
               let e := ct_e c in
               let e :=
                 if (sn_compare_tx e (nack_sn n) (am_poll_sn e) <=? 0)
                    && (sn_compare_tx e (am_poll_sn e)
                          (Z.rem (nack_sn n + nack_range n) (am_sn_modulus e)) <? 0)
                 then {| e with am_t_poll_retransmit_start := 0 |} else e in
               process_nacks fuel' {| c with ct_e := e |} ack_sn e1 d
           end
       end.

(** The ACK: what is left of the two lists before ACK_SN. *)
Fixpoint ack_wait_list (l : list nr_rlc_sdu_segment) (c : control) (ack_sn : Z) : res control :=
  match l with
  | [] => Ok {| c with ct_wait := [] |}
  | cur :: rest =>
      let* sn := seg_sn (ct_heap c) cur in
      if sn_compare_tx (ct_e c) sn ack_sn <? 0
      then let* c := free_acked_wait c cur rest in ack_wait_list rest c ack_sn
      else Ok {| c with ct_wait := l |}
  end.

Fixpoint ack_retransmit_list (l : list nr_rlc_sdu_segment) (c : control) (ack_sn : Z) : res control :=
  match l with
  | [] => Ok {| c with ct_retx := [] |}
  | cur :: rest =>
      let* sn := seg_sn (ct_heap c) cur in
      if sn_compare_tx (ct_e c) sn ack_sn <? 0
      then let* c := free_acked_retx c cur rest in ack_retransmit_list rest c ack_sn
      else Ok {| c with ct_retx := l |}
  end.

(** [tx_next_ack] goes down to the SN of a list head when that is smaller. *)
Definition lower_to_head (h : rlc_heap) (e : nr_rlc_entity_am) (l : list nr_rlc_sdu_segment) (a : Z) : res Z :=
  match l with
  | [] => Ok a
  | s :: _ => let* sn := seg_sn h s in Ok (if sn_compare_tx e sn a <? 0 then sn else a)
  end.

Definition update_tx_next_ack (h : rlc_heap) (e : nr_rlc_entity_am) (ack_sn : Z) : res nr_rlc_entity_am :=
  let* a := lower_to_head h e (sl_list (am_wait e)) (am_tx_next e) in
  let* a := lower_to_head h e (am_retransmit e) a in
  Ok {| e with am_tx_next_ack := if sn_compare_tx e ack_sn a <? 0 then ack_sn else a |}.

(** The lists of the entity, once all is processed. *)
Definition control_lists (c : control) : nr_rlc_entity_am :=
  let e := ct_e c in
  {| e with am_wait := mk_seg_list (ct_kept c ++ ct_wait c ++ ct_left c)
                         (match ct_end c with None => sl_end (am_wait e) | Some a => a end);
            am_retransmit := ct_new c ++ ct_retx c |}.

(** The second half of [process_control_pdu]. *)
Definition apply_control_pdu (h : rlc_heap) (e : nr_rlc_entity_am) (buffer : bytes)
    : res (rlc_heap * nr_rlc_entity_am * list event) :=
  let* r := read_control_header get_bits_unchecked e (nr_rlc_pdu_decoder_init buffer (zlen buffer)) in
  match r with
  | None => Fail FBounds
  | Some (_, ack_sn, e1, d) =>
      let e := if sn_compare_tx e (am_poll_sn e) ack_sn <? 0
               then {| e with am_t_poll_retransmit_start := 0 |} else e in
      let c := {| ct_heap := h; ct_e := e; ct_kept := []; ct_wait := sl_list (am_wait e); ct_left := [];
                  ct_end := None; ct_new := []; ct_retx := am_retransmit e; ct_events := [] |} in
      let* c := process_nacks (control_fuel d) c ack_sn e1 d in
      let* c := ack_wait_list (ct_wait c) c ack_sn in
      let* c := ack_retransmit_list (ct_retx c) c ack_sn in
      let* e := update_tx_next_ack (ct_heap c) (control_lists c) ack_sn in
      Ok (ct_heap c, e, ct_events c)
  end.

Definition process_control_pdu (h : rlc_heap) (e : nr_rlc_entity_am) (buffer : bytes)
    : res (rlc_heap * nr_rlc_entity_am * list event) :=
  let* ok := check_control_pdu e buffer in
  if ok then apply_control_pdu h e buffer else Ok (h, e, []).

Definition nr_rlc_entity_am_recv_pdu (h : rlc_heap) (e : nr_rlc_entity_am) (buffer : bytes)
    : res (rlc_heap * nr_rlc_entity_am * list event) :=
  let size := zlen buffer in
  let e := am_stats (fun s => {| s with rxpdu_pkts := u32 (rxpdu_pkts s + 1);
                                        rxpdu_bytes := u32 (rxpdu_bytes s + size) |}) e in
  let* (dc, d) := nr_rlc_pdu_decoder_get_bits (nr_rlc_pdu_decoder_init buffer size) 1 in
  if nr_rlc_pdu_decoder_in_error d then Ok (h, am_discard_pdu e false size, [])
  else if dc =? 0 then process_control_pdu h e buffer
  else let* (e, ev) := am_recv_data e buffer d in Ok (h, e, ev).

(** ** TX functions *)

Definition is_window_stalling (e : nr_rlc_entity_am) : bool :=
  negb ((sn_compare_tx e (am_tx_next_ack e) (am_tx_next e) <=? 0)
        && (sn_compare_tx e (am_tx_next e)
              (Z.rem (am_tx_next_ack e + am_window_size e) (am_sn_modulus e)) <? 0)).

Definition include_poll (e : nr_rlc_entity_am) (buffer : bytes) : res (nr_rlc_entity_am * bytes) :=
  let* buffer := buf_or buffer 0 0x40 in
  Ok ({| e with am_pdu_without_poll := 0; am_byte_without_poll := 0; am_poll_sn := sn_prev e (am_tx_next e);
                am_t_poll_retransmit_start := am_t_current e |}, buffer).

Definition check_poll_after_pdu_assembly (e : nr_rlc_entity_am) : bool :=
  (is_nil (sl_list (am_tx e)) && is_nil (am_retransmit e)) || is_window_stalling e.

Definition am_put_header (e : nr_rlc_entity_am) (sn : Z) (sdu : nr_rlc_sdu_segment)
    (enc : nr_rlc_pdu_encoder) : res nr_rlc_pdu_encoder :=
  let* enc := nr_rlc_pdu_encoder_put_bits enc 1 1 in
  let* enc := nr_rlc_pdu_encoder_put_bits enc 0 1 in
  let* enc := nr_rlc_pdu_encoder_put_bits enc (1 - Z.b2z (seg_is_first sdu)) 1 in
  let* enc := nr_rlc_pdu_encoder_put_bits enc (1 - Z.b2z (seg_is_last sdu)) 1 in
  let* enc := if am_sn_field_length e =? 18 then nr_rlc_pdu_encoder_put_bits enc 0 2 else Ok enc in
  let* enc := nr_rlc_pdu_encoder_put_bits enc sn (am_sn_field_length e) in
  if negb (seg_is_first sdu) then nr_rlc_pdu_encoder_put_bits enc (seg_so sdu) 16 else Ok enc.

(** Returns the entity, the buffer of the caller with the PDU, and its size. *)
Definition serialize_sdu (h : rlc_heap) (e : nr_rlc_entity_am) (sdu : nr_rlc_sdu_segment)
    (buffer : bytes) (bufsize : Z) (p : bool) : res (nr_rlc_entity_am * bytes * Z) :=
  let* s := heap_get h (seg_sdu sdu) in
  let* enc := am_put_header e (sdu_sn s) sdu (nr_rlc_pdu_encoder_init buffer bufsize) in
  let* data := buf_read (sdu_data s) (seg_so sdu) (seg_size sdu) in
  let* buffer := buf_write (enc_buffer enc) (enc_byte enc) data in
  let* (e, buffer) := if p then include_poll e buffer else Ok (e, buffer) in
  Ok (e, buffer, enc_byte enc + seg_size sdu).

(** The segment, shortened to fit in [pdu_size], and a new segment with the
    remaining bytes. *)
Definition resegment (h : rlc_heap) (e : nr_rlc_entity_am) (sdu : nr_rlc_sdu_segment) (pdu_size : Z)
    : res (rlc_heap * nr_rlc_sdu_segment * nr_rlc_sdu_segment) :=
  let* s := heap_get h (seg_sdu sdu) in
  let h := heap_set h (seg_sdu sdu) {| s with sdu_ref_count := sdu_ref_count s + 1 |} in
  let over_size := compute_pdu_header_size e sdu + seg_size sdu - pdu_size in
  let sdu' := {| sdu with seg_size := seg_size sdu - over_size; seg_is_last := false |} in
  let next := {| sdu with seg_addr := heap_brk h; seg_size := over_size;
                          seg_so := seg_so sdu + seg_size sdu'; seg_is_first := false |} in
  Ok ({| h with heap_brk := S (heap_brk h) |}, sdu', next).

(** The node a pointer into the list leads to. *)
Definition seg_node (l : list nr_rlc_sdu_segment) (a : nat) : res nr_rlc_sdu_segment :=
  of_opt FBounds (List.find (fun s => bool_decide (seg_addr s = a)) l).

(** The segment comes after the end of the wait list. *)
Definition after_wait_end (h : rlc_heap) (e : nr_rlc_entity_am) (sdu : nr_rlc_sdu_segment) : res bool :=
  match sl_end (am_wait e) with
  | None => Ok true
  | Some a =>
      let* w := seg_node (sl_list (am_wait e)) a in
      let* sn := seg_sn h sdu in
      let* sn_w := seg_sn h w in
      Ok ((0 <? sn_compare_tx e sn sn_w)
          || ((sn_compare_tx e sn sn_w =? 0) && (seg_so w <? seg_so sdu)))
  end.

(** The segment that leaves is put in the wait list. *)
Definition put_in_wait_list (h : rlc_heap) (e : nr_rlc_entity_am) (sdu : nr_rlc_sdu_segment)
    : res nr_rlc_entity_am :=
  let* after := after_wait_end h e sdu in
  if after then
    let* w := nr_rlc_sdu_segment_list_append (am_wait e) sdu in Ok {| e with am_wait := w |}
  else
    let* l := nr_rlc_tx_sdu_segment_list_add h e (sl_list (am_wait e)) sdu in
    Ok {| e with am_wait := mk_seg_list l (match l with [s] => Some (seg_addr s) | _ => sl_end (am_wait e) end) |}.

(** [if (entity->force_poll) { p = 1; entity->force_poll = 0; }] *)
Definition take_force_poll (e : nr_rlc_entity_am) (p : bool) : nr_rlc_entity_am * bool :=
  if am_force_poll e then ({| e with am_force_poll := false |}, true) else (e, p).

Definition stats_txpdu (n : Z) (s : nr_rlc_statistics) : nr_rlc_statistics :=
  {| s with txpdu_pkts := u32 (txpdu_pkts s + 1); txpdu_bytes := u32 (txpdu_bytes s + n) |}.

(** The end of [generate_retx_pdu], once the segment that leaves is settled. *)
Definition am_resend_segment (h : rlc_heap) (e : nr_rlc_entity_am) (sdu : nr_rlc_sdu_segment)
    (buffer : bytes) (size : Z) : res (rlc_heap * nr_rlc_entity_am * bytes * Z) :=
  let* e := put_in_wait_list h e sdu in
  let (e, p) := take_force_poll e (check_poll_after_pdu_assembly e) in
  let* (e, buffer, ret_size) := serialize_sdu h e sdu buffer size p in
  let e := am_stats (fun s => let s := stats_txpdu ret_size s in
                     {| s with txpdu_retx_pkts := u32 (txpdu_retx_pkts s + 1);
                               txpdu_retx_bytes := u32 (txpdu_retx_bytes s + ret_size) |}) e in
  Ok (h, e, buffer, ret_size).

(** The code follows NULL when the retransmit list is empty; its caller looks. *)
Definition generate_retx_pdu (h : rlc_heap) (e : nr_rlc_entity_am) (buffer : bytes) (size : Z)
    : res (rlc_heap * nr_rlc_entity_am * bytes * Z) :=
  match am_retransmit e with
  | [] => Fail FBounds
  | sdu :: rest =>
      let pdu_header_size := compute_pdu_header_size e sdu in
      if size <? pdu_header_size + 1 then Ok (h, e, buffer, 0)
      else
        let e := {| e with am_retransmit := rest |} in
        let pdu_size := pdu_header_size + seg_size sdu in
        let e := am_bstatus_retx (fun r => r - pdu_size) e in
        if size <? pdu_size then
          let* (h, sdu, next_sdu) := resegment h e sdu size in
          let e := {| e with am_retransmit := next_sdu :: am_retransmit e |} in
          let e := am_bstatus_retx (fun r => r + (compute_pdu_header_size e next_sdu + seg_size next_sdu)) e in
          am_resend_segment h (am_stats stats_segmented e) sdu buffer size
        else am_resend_segment h e sdu buffer size
  end.

(** The polling actions for a new PDU. *)
Definition count_for_poll (e : nr_rlc_entity_am) (sdu : nr_rlc_sdu_segment) : nr_rlc_entity_am * bool :=
  let e := {| e with am_pdu_without_poll := am_pdu_without_poll e + 1;
                     am_byte_without_poll := am_byte_without_poll e + seg_size sdu |} in
  take_force_poll e
    ((negb (am_poll_pdu e =? -1) && (am_poll_pdu e <=? am_pdu_without_poll e))
     || (negb (am_poll_byte e =? -1) && (am_poll_byte e <=? am_byte_without_poll e))
     || check_poll_after_pdu_assembly e).

(** The end of [generate_tx_pdu], once the segment that leaves is settled. *)
Definition am_send_segment (h : rlc_heap) (e : nr_rlc_entity_am) (now : Z) (sdu : nr_rlc_sdu_segment)
    (buffer : bytes) (size : Z) : res (rlc_heap * nr_rlc_entity_am * bytes * Z) :=
  let* e := put_in_wait_list h e sdu in
  let (e, p) := count_for_poll e sdu in
  let* (e, buffer, ret_size) := serialize_sdu h e sdu buffer size p in
  let e := am_stats (stats_txpdu ret_size) e in
  let* s := heap_get h (seg_sdu sdu) in
  let e := {| e with am_common := entity_sojourn now (sdu_time_of_arrival s) (am_common e) |} in
  Ok (h, e, buffer, ret_size).

(** [if (sdu->sdu->sn == -1)]: the SDU gets the next sequence number. *)
Definition assign_sn (h : rlc_heap) (e : nr_rlc_entity_am) (sdu : nr_rlc_sdu_segment)
    : res (rlc_heap * nr_rlc_entity_am) :=
  let* s := heap_get h (seg_sdu sdu) in
  if sdu_sn s =? -1
  then Ok (heap_set h (seg_sdu sdu) {| s with sdu_sn := am_tx_next e |},
           {| e with am_tx_next := sn_next e (am_tx_next e) |})
  else Ok (h, e).

Definition generate_tx_pdu (h : rlc_heap) (e : nr_rlc_entity_am) (now : Z) (buffer : bytes) (size : Z)
    : res (rlc_heap * nr_rlc_entity_am * bytes * Z) :=
  if is_window_stalling e then Ok (h, e, buffer, 0)
  else match sl_list (am_tx e) with
  | [] => Ok (h, e, buffer, 0)
  | sdu :: rest =>
      let pdu_header_size := compute_pdu_header_size e sdu in
      if size <? pdu_header_size + 1 then Ok (h, e, buffer, 0)
      else
        let e := {| e with am_tx := mk_seg_list rest (match rest with [] => None | _ => sl_end (am_tx e) end) |} in
        let pdu_size := pdu_header_size + seg_size sdu in
        let e := am_bstatus_tx (fun t => t - pdu_size) e in
        let* (h, e) := assign_sn h e sdu in
        if size <? pdu_size then
          let* (h, sdu, next_sdu) := resegment h e sdu size in
          let e := {| e with am_tx := mk_seg_list (next_sdu :: sl_list (am_tx e))
            (match sl_end (am_tx e) with None => Some (seg_addr next_sdu) | a => a end) |} in
          let e := am_stats stats_segmented e in
          let e := am_bstatus_tx (fun t => t + (compute_pdu_header_size e next_sdu + seg_size next_sdu)) e in
          am_send_segment h e now sdu buffer size
        else am_send_segment h e now sdu buffer size
  end.

(** The status size needs a walk over the window, which can fail. *)
Definition nr_rlc_entity_am_buffer_status (e : nr_rlc_entity_am) (maxsize : Z)
    : res nr_rlc_entity_buffer_status :=
  let* status := if status_to_report e then status_size e maxsize else Ok 0 in
  Ok {| bs_status_size := status; bs_tx_size := bs_tx_size (bstatus (am_common e));
        bs_retx_size := bs_retx_size (bstatus (am_common e)) |}.

(** After the status, when it did not take the grant. *)
Definition generate_data_pdu (h : rlc_heap) (e : nr_rlc_entity_am) (now : Z) (buffer : bytes) (size : Z)
    : res (rlc_heap * nr_rlc_entity_am * bytes * Z) :=
  match am_retransmit e with
  | [] => generate_tx_pdu h e now buffer size
  | _ =>
      let* (h, e, buffer, ret) := generate_retx_pdu h e buffer size in
      if negb (ret =? 0) then Ok (h, e, buffer, ret) else generate_tx_pdu h e now buffer size
  end.

Definition nr_rlc_entity_am_generate_pdu (h : rlc_heap) (e : nr_rlc_entity_am) (now : Z)
    (buffer : bytes) (size : Z) : res (rlc_heap * nr_rlc_entity_am * bytes * Z) :=
  if status_to_report e then
    let* (e, buffer, ret) := generate_status e buffer size in
    if negb (ret =? 0) then Ok (h, e, buffer, ret) else generate_data_pdu h e now buffer size
  else generate_data_pdu h e now buffer size.

(** ** SDU RX functions *)

Definition am_reset_log (e : nr_rlc_entity_am) : nr_rlc_entity_am :=
  if negb (am_sdu_rejected e =? 0) && (u64 (am_t_log_buffer_full e + 1000) <? am_t_current e)
  then {| e with am_sdu_rejected := 0; am_t_log_buffer_full := am_t_current e |} else e.

Definition am_reject_sdu (e : nr_rlc_entity_am) (size : Z) : nr_rlc_entity_am :=
  am_stats (fun s => {| s with txpdu_dd_pkts := u32 (txpdu_dd_pkts s + 1);
                               txpdu_dd_bytes := u32 (txpdu_dd_bytes s + size) |})
    {| e with am_sdu_rejected := am_sdu_rejected e + 1 |}.

Definition am_enqueue_sdu (h : rlc_heap) (e : nr_rlc_entity_am) (now : Z)
    (buffer : bytes) (size sdu_id : Z) : res (rlc_heap * nr_rlc_entity_am) :=
  let e := {| e with am_tx_size := am_tx_size e + size |} in
  let e := am_stats (fun s => {| s with rxsdu_bytes := u64 (rxsdu_bytes s + size) |}) e in
  let* (h, sdu) := nr_rlc_new_sdu h buffer size sdu_id in
  let* tx := nr_rlc_sdu_segment_list_append (am_tx e) sdu in
  let e := {| e with am_tx := tx |} in
  let e := am_bstatus_tx (fun t => t + (compute_pdu_header_size e sdu + seg_size sdu)) e in
  if avg_time_is_on (am_common e)
  then let* s := heap_get h (seg_sdu sdu) in
       Ok (heap_set h (seg_sdu sdu) {| s with sdu_time_of_arrival := now |}, e)
  else Ok (h, e).

Definition nr_rlc_entity_am_recv_sdu (h : rlc_heap) (e : nr_rlc_entity_am) (now : Z)
    (buffer : bytes) (size sdu_id : Z) : res (rlc_heap * nr_rlc_entity_am) :=
  let e := am_stats (fun s => {| s with rxsdu_pkts := u32 (rxsdu_pkts s + 1) |}) e in
  let* _ := assert_ (size <=? NR_SDU_MAX) in
  let e := am_reset_log e in
  if am_tx_maxsize e <? am_tx_size e + size then Ok (h, am_reject_sdu e size)
  else am_enqueue_sdu h e now buffer size sdu_id.

(** ** Time and timers *)

(** One turn of the loop that moves the segments of an SDU from the head of
    the wait list to the retransmit list. *)
Definition poll_retransmit_one (h : rlc_heap) (e : nr_rlc_entity_am) (cur : nr_rlc_sdu_segment)
    (rest : list nr_rlc_sdu_segment) : res nr_rlc_entity_am :=
  let e := {| e with am_wait := mk_seg_list rest (match rest with [] => None | _ => sl_end (am_wait e) end) |} in
  let e := am_bstatus_retx (fun r => r + (compute_pdu_header_size e cur + seg_size cur)) e in
  let* l := nr_rlc_tx_sdu_segment_list_add h e (am_retransmit e) cur in
  Ok {| e with am_retransmit := l |}.

Fixpoint poll_retransmit (h : rlc_heap) (retransmit_sn : Z) (l : list nr_rlc_sdu_segment)
    (e : nr_rlc_entity_am) : res nr_rlc_entity_am :=
  match l with
  | [] => Ok e
  | cur :: rest =>
      let* sn := seg_sn h cur in
      if sn =? retransmit_sn
      then let* e := poll_retransmit_one h e cur rest in poll_retransmit h retransmit_sn rest e
      else Ok e
  end.

(** What happens when the timer runs out and a poll alone is not enough: the
    SDU at the head of the wait list is to be sent again.  The code follows the
    head without a test. *)
Definition retransmit_head (h : rlc_heap) (e : nr_rlc_entity_am)
    : res (rlc_heap * nr_rlc_entity_am * list event) :=
  match sl_list (am_wait e) with
  | [] => Fail FBounds
  | cur :: _ =>
      let* s := heap_get h (seg_sdu cur) in
      let retx_count := sdu_retx_count s + 1 in
      let h := heap_set h (seg_sdu cur) {| s with sdu_retx_count := retx_count |} in
      let* e := poll_retransmit h (sdu_sn s) (sl_list (am_wait e)) e in
      Ok (h, e, if am_max_retx_threshold e <=? retx_count then [max_retx_reached] else [])
  end.

Definition check_t_poll_retransmit (h : rlc_heap) (e : nr_rlc_entity_am)
    : res (rlc_heap * nr_rlc_entity_am * list event) :=
  if (am_t_poll_retransmit_start e =? 0)
     || (am_t_current e <=? u64 (am_t_poll_retransmit_start e + am_t_poll_retransmit e))
  then Ok (h, e, [])
  else
    let e := {| e with am_t_poll_retransmit_start := 0; am_force_poll := true |} in
    if negb (check_poll_after_pdu_assembly e) then Ok (h, e, []) else retransmit_head h e.

Definition check_t_reassembly (e : nr_rlc_entity_am) : res nr_rlc_entity_am :=
  if (am_t_reassembly_start e =? 0)
     || (am_t_current e <=? u64 (am_t_reassembly_start e + am_t_reassembly e))
  then Ok e
  else
    let e := {| e with am_t_reassembly_start := 0 |} in
    let* sn := am_skip_delivered (am_fuel e) e (am_rx_next_status_trigger e) in
    let e := {| e with am_rx_highest_status := sn; am_status_triggered := true |} in
    let next := sn_next e (am_rx_highest_status e) in
    let* missing := sdu_has_missing_bytes e (am_rx_highest_status e) in
    if (0 <? sn_compare_rx e (am_rx_next_highest e) next)
       || ((am_rx_next_highest e =? next) && missing)
    then Ok {| e with am_t_reassembly_start := am_t_current e;
                      am_rx_next_status_trigger := am_rx_next_highest e |}
    else Ok e.

Definition nr_rlc_entity_am_set_time (h : rlc_heap) (e : nr_rlc_entity_am) (now : Z)
    : res (rlc_heap * nr_rlc_entity_am * list event) :=
  let* (h, e, ev) := check_t_poll_retransmit h {| e with am_t_current := now |} in
  let* e := check_t_reassembly e in
  Ok (h, e, ev).

(** ** Discard, re-establishment *)

Definition nr_rlc_entity_am_discard_sdu (h : rlc_heap) (e : nr_rlc_entity_am) (sdu_id : Z)
    : res (rlc_heap * nr_rlc_entity_am) :=
  let* (pre, r) := find_upper_layer_id h sdu_id (sl_list (am_tx e)) in
  match r with
  | None => Ok (h, e)
  | Some (cur, post) =>
      if negb (seg_is_first cur) || negb (seg_is_last cur) then Ok (h, e)
      else
        let tx_end := if bool_decide (sl_end (am_tx e) = Some (seg_addr cur))
                      then seg_addr <$> last pre else sl_end (am_tx e) in
        let e := {| e with am_tx := mk_seg_list (pre ++ post) tx_end |} in
        let e := am_bstatus_tx (fun t => t - (compute_pdu_header_size e cur + seg_size cur)) e in
        let* s := heap_get h (seg_sdu cur) in
        let e := {| e with am_tx_size := am_tx_size e - sdu_size s |} in
        let* (h, _) := nr_rlc_free_sdu_segment h cur in
        Ok (h, e)
  end.

Definition clear_entity (h : rlc_heap) (e : nr_rlc_entity_am) : res (rlc_heap * nr_rlc_entity_am) :=
  let* h := nr_rlc_free_sdu_segment_list h (sl_list (am_tx e)) in
  let* h := nr_rlc_free_sdu_segment_list h (sl_list (am_wait e)) in
  let* h := nr_rlc_free_sdu_segment_list h (am_retransmit e) in
  Ok (h, am_bstatus_tx (fun _ => 0) (am_bstatus_retx (fun _ => 0)
           {| e with am_rx_next := 0; am_rx_next_status_trigger := 0; am_rx_highest_status := 0;
                     am_rx_next_highest := 0; am_status_triggered := false; am_tx_next := 0;
                     am_tx_next_ack := 0; am_poll_sn := 0; am_pdu_without_poll := 0;
                     am_byte_without_poll := 0; am_force_poll := false; am_t_current := 0;
                     am_t_log_buffer_full := 0; am_sdu_rejected := 0; am_t_poll_retransmit_start := 0;
                     am_t_reassembly_start := 0; am_t_status_prohibit_start := 0;
                     am_rx := nr_rlc_clear_rx_manager (am_rx e); am_rx_size := 0;
                     am_tx := mk_seg_list [] None; am_tx_size := 0;
                     am_wait := mk_seg_list [] None; am_retransmit := [] |})).

Definition nr_rlc_entity_am_reestablishment := clear_entity.

(** The entity, its window and its average are freed: only the store remains. *)
Definition nr_rlc_entity_am_delete (h : rlc_heap) (e : nr_rlc_entity_am) : res rlc_heap :=
  let* (h, _) := clear_entity h e in Ok h.

(** [nr_rlc_entity_get_stats] on an AM entity: the head of the retransmit list
    or else of [tx_list] is the HOL SDU. *)
Definition nr_rlc_entity_am_get_stats (h : rlc_heap) (e : nr_rlc_entity_am) (now : Z)
    : res (nr_rlc_entity_am * nr_rlc_statistics) :=
  let sdu := match am_retransmit e with s :: _ => Some s | [] => head (sl_list (am_tx e)) end in
  let* (c, out) := nr_rlc_entity_get_stats h (am_common e) sdu now in
  Ok ({| e with am_common := c |}, out).

Definition nr_rlc_entity_am_available_tx_space (e : nr_rlc_entity_am) : Z := am_tx_maxsize e - am_tx_size e.

Definition nr_rlc_entity_am_tx_list_occupancy (e : nr_rlc_entity_am) : Z := am_tx_size e.

#[export] Instance am_RlcEntity : RlcEntity nr_rlc_entity_am := {
  recv_pdu := nr_rlc_entity_am_recv_pdu;
  buffer_status := nr_rlc_entity_am_buffer_status;
  generate_pdu := nr_rlc_entity_am_generate_pdu;
  recv_sdu := nr_rlc_entity_am_recv_sdu;
  set_time := nr_rlc_entity_am_set_time;
  discard_sdu := nr_rlc_entity_am_discard_sdu;
  reestablishment := nr_rlc_entity_am_reestablishment;
  available_tx_space := nr_rlc_entity_am_available_tx_space;
  tx_list_occupancy := nr_rlc_entity_am_tx_list_occupancy
}.
