(* ===== verification/RlcAmRx.v ===== *)
(** The receiver of the NR RLC AM entity: the invariant of the reception
    window, safety of the data path and of [t_Reassembly], the state in which
    the code does not come back, and reassembly. *)

From S2P Require Import Prelude RlcPdu RlcSdu TimeStat RlcEntity RlcUm RlcUmRx RlcRxManager RlcAm.
From S2P Require Import RlcAmStatus RlcAmTx.

(** ** Positions in the window *)

Record am_cfg (e : nr_rlc_entity_am) : Prop := {
  acfg_len : am_sn_field_length e = 12 \/ am_sn_field_length e = 18;
  acfg_modulus : am_sn_modulus e = 2 ^ am_sn_field_length e;
  acfg_window : am_sn_modulus e = 2 * am_window_size e
}.

Lemma acfg_window_pos e : am_cfg e -> 2048 <= am_window_size e <= 131072.
Proof. intros [[Hl|Hl] Hm Hw]; rewrite Hl in Hm; lia. Qed.

Definition am_sn_ok (e : nr_rlc_entity_am) (a : Z) : Prop := 0 <= a < am_sn_modulus e.

(** The sequence number [k] after the start of the window, and its list. *)
Definition sn_at (e : nr_rlc_entity_am) (k : Z) : Z := (am_rx_next e + k) mod am_sn_modulus e.
Definition slot (e : nr_rlc_entity_am) (k : Z) : list nr_rlc_pdu := rm_slot (am_rx e) k.
Definition am_done (e : nr_rlc_entity_am) (k : Z) : bool := head_processed (slot e k).

(** The window starts at [rx_next]. *)
Record am_win (e : nr_rlc_entity_am) : Prop := {
  win_cfg : am_cfg e;
  win_next : am_sn_ok e (am_rx_next e);
  win_rm : rm_wf (am_rx e);
  win_size : rm_size (am_rx e) = am_window_size e;
  win_start : rm_sn_start (am_rx e) = am_rx_next e
}.

Section Positions.
Context (e : nr_rlc_entity_am) (Hwin : am_win e).

Lemma win_bounds : 2048 <= am_window_size e <= 131072 /\ am_sn_modulus e = 2 * am_window_size e.
Proof. destruct Hwin as [Hc _ _ _ _]. split; [by apply acfg_window_pos|apply Hc]. Qed.

Lemma sn_at_ok k : am_sn_ok e (sn_at e k).
Proof. pose proof win_bounds. unfold am_sn_ok, sn_at. apply Z.mod_pos_bound. lia. Qed.

Lemma rel_range a : am_sn_ok e a -> 0 <= modulus_rx e a < am_sn_modulus e.
Proof.
  pose proof (win_next e Hwin). unfold modulus_rx, am_sn_ok in *. intros. cbv zeta. case_bool_; lia.
Qed.

Lemma rel_mod a : am_sn_ok e a -> modulus_rx e a = (a - am_rx_next e) mod am_sn_modulus e.
Proof.
  pose proof (win_next e Hwin). unfold modulus_rx, am_sn_ok in *. intros. cbv zeta. case_bool_.
  - rewrite <- (Z.mod_add _ 1) by lia. rewrite Z.mod_small; lia.
  - rewrite Z.mod_small; lia.
Qed.

Lemma rel_at k : 0 <= k < am_sn_modulus e -> modulus_rx e (sn_at e k) = k.
Proof.
  intros Hk. rewrite rel_mod by apply sn_at_ok. unfold sn_at.
  rewrite Zminus_mod_idemp_l. replace (_ + k - _) with k by lia. by apply Z.mod_small.
Qed.

Lemma at_rel a : am_sn_ok e a -> sn_at e (modulus_rx e a) = a.
Proof.
  intros Ha. rewrite rel_mod by done. unfold sn_at. rewrite Zplus_mod_idemp_r.
  replace (_ + (_ - _)) with a by lia. by apply Z.mod_small.
Qed.

Lemma sn_at_0 : sn_at e 0 = am_rx_next e.
Proof. unfold sn_at. rewrite Z.add_0_r. apply Z.mod_small, Hwin. Qed.

Lemma rel_next : modulus_rx e (am_rx_next e) = 0.
Proof. rewrite <- sn_at_0 at 1. apply rel_at. pose proof win_bounds. lia. Qed.

Lemma rel_inj a b : am_sn_ok e a -> am_sn_ok e b -> modulus_rx e a = modulus_rx e b -> a = b.
Proof. intros Ha Hb H. by rewrite <- (at_rel a), <- (at_rel b), H. Qed.

Lemma rel_eqb a b : am_sn_ok e a -> am_sn_ok e b -> (a =? b) = (modulus_rx e a =? modulus_rx e b).
Proof.
  intros Ha Hb. destruct (Z.eqb_spec a b) as [->|Hne]; [by rewrite Z.eqb_refl|].
  symmetry. apply Z.eqb_neq. intros H. by apply Hne, rel_inj.
Qed.

Lemma sn_next_at k : sn_next e (sn_at e k) = sn_at e (k + 1).
Proof.
  pose proof win_bounds. pose proof (sn_at_ok k) as Hk. unfold sn_next, am_sn_ok in *.
  rewrite Z.rem_mod_nonneg by lia. unfold sn_at. rewrite Zplus_mod_idemp_l. f_equal. lia.
Qed.

Lemma sn_next_ok a : am_sn_ok e a -> sn_next e a = sn_at e (modulus_rx e a + 1).
Proof. intros Ha. rewrite <- (at_rel a) at 1 by done. apply sn_next_at. Qed.

(** A sequence number and its place in the array, which is half as large. *)
Lemma am_get_at k : get_pdu_from_sn e (sn_at e k) = Ok (slot e k).
Proof.
  destruct Hwin as [Hc Hn Hrm Hs Hst]. pose proof win_bounds as [Hw HM].
  unfold get_pdu_from_sn. rewrite get_pdu_ok; [|done|rewrite Hs, <- HM; apply sn_at_ok].
  f_equal. rewrite Hst. unfold slot. rewrite <- (rm_slot_mod _ (_ - _)), <- (rm_slot_mod _ k), Hs. f_equal.
  unfold sn_at. rewrite <- Zminus_mod_idemp_l, Z.mod_mod_divide by (rewrite HM; by apply Z.divide_factor_r).
  rewrite Zminus_mod_idemp_l. f_equal. lia.
Qed.

Lemma get_ok a : am_sn_ok e a -> get_pdu_from_sn e a = Ok (slot e (modulus_rx e a)).
Proof. intros Ha. rewrite <- (at_rel a) at 1 by done. apply am_get_at. Qed.

Lemma slot_wrap k : slot e (k + am_window_size e) = slot e k.
Proof. unfold slot. rewrite <- (win_size e Hwin). apply rm_slot_wrap. Qed.

Lemma slot_window : slot e (am_window_size e) = slot e 0.
Proof. apply (slot_wrap 0). Qed.

Lemma sdu_delivered_at k : sdu_delivered e (sn_at e k) = Ok (am_done e k).
Proof. unfold sdu_delivered. by rewrite am_get_at. Qed.

(** ** The loops over the window *)

Lemma am_skip_ok fuel k n :
  0 <= k <= n -> am_done e n = false -> n - k < Z.of_nat fuel ->
  exists j, am_skip_delivered fuel e (sn_at e k) = Ok (sn_at e j) /\ k <= j <= n /\
    am_done e j = false /\ forall i, k <= i < j -> am_done e i = true.
Proof.
  intros Hk Hn. revert k Hk. induction fuel as [|fuel IH]; intros k Hk Hf; [lia|].
  cbn [am_skip_delivered]. rewrite sdu_delivered_at. cbn [rbind]. destruct (am_done e k) eqn:Hd.
  - assert (k <> n) by (intros ->; congruence). rewrite sn_next_at.
    destruct (IH (k + 1)) as (j & -> & Hj & Hdj & Hb); [lia..|]. exists j. split_and!; try done; try lia.
    intros i Hi. destruct (Z.eq_dec i k) as [->|]; [done|]. apply Hb. lia.
  - exists k. split_and!; (done || lia).
Qed.

(** When every entry of the array is delivered, no fuel is enough. *)
Lemma am_skip_diverges fuel k :
  (forall i, am_done e i = true) -> am_skip_delivered fuel e (sn_at e k) = Fail FFuel.
Proof.
  intros Hall. revert k. induction fuel as [|fuel IH]; intros k; [done|]. cbn [am_skip_delivered].
  rewrite sdu_delivered_at, Hall. cbn [rbind]. by rewrite sn_next_at.
Qed.
End Positions.

(** Only the array of the window has changed. *)
Definition with_rx (e : nr_rlc_entity_am) (rx : nr_rlc_rx_manager) : nr_rlc_entity_am := {| e with am_rx := rx |}.

Lemma am_win_with_rx e rx :
  am_win e -> rm_wf rx -> rm_size rx = rm_size (am_rx e) -> rm_sn_start rx = rm_sn_start (am_rx e) ->
  am_win (with_rx e rx).
Proof.
  intros [Hc Hn _ Hs Hst] Hwf Hs' Hst'. split; simpl; try done; try congruence.
  destruct Hc; by split.
Qed.

(** A write of the list of [sn_at e k] changes that slot. *)
Lemma slot_write e k rx l :
  am_win e -> 0 <= k < am_window_size e ->
  (forall i, rm_slot rx i = if i mod rm_size (am_rx e) =? (sn_at e k - rm_sn_start (am_rx e)) mod rm_size (am_rx e)
                            then l i else slot e i) ->
  forall i, 0 <= i < am_window_size e -> slot (with_rx e rx) i = if i =? k then l i else slot e i.
Proof.
  intros Hwin Hk Hrx i Hi. unfold slot at 1. simpl. rewrite Hrx.
  destruct (win_bounds e Hwin) as [Hw HM]. destruct Hwin as [_ _ _ Hs Hst]. rewrite Hs, Hst.
  rewrite <- (Zminus_mod_idemp_l (sn_at e k)). unfold sn_at.
  rewrite Z.mod_mod_divide by (rewrite HM; by apply Z.divide_factor_r).
  rewrite Zminus_mod_idemp_l. replace (_ + k - _) with k by lia.
  by rewrite !Z.mod_small by lia.
Qed.

Lemma sn_range_rm e k :
  am_win e -> 0 <= sn_at e k < 2 * rm_size (am_rx e).
Proof.
  intros Hwin. destruct (win_bounds e Hwin) as [Hw HM]. rewrite (win_size e Hwin), <- HM. by apply sn_at_ok.
Qed.

(** The loop that frees delivered SDUs stops within the window: it empties
    what it passes, so that it does not come around a second time. *)
Lemma free_delivered_ok fuel e c :
  am_win e -> 0 <= c <= am_window_size e -> (0 < c -> am_done e 0 = false) ->
  am_window_size e - c < Z.of_nat fuel ->
  exists rx c', free_delivered fuel e (sn_at e c) c = Ok (with_rx e rx, sn_at e c', c') /\
    c <= c' <= am_window_size e /\ am_win (with_rx e rx) /\
    (forall i, c <= i < c' -> am_done e i = true) /\
    (c' < am_window_size e -> am_done e c' = false) /\
    forall i, 0 <= i < am_window_size e ->
      slot (with_rx e rx) i = if (c <=? i) && (i <? c') then [] else slot e i.
Proof.
  revert e c. induction fuel as [|fuel IH]; intros e c Hwin Hc Hopen Hf; [lia|].
  destruct (win_bounds e Hwin) as [Hw HM].
  cbn [free_delivered]. rewrite (am_get_at e Hwin). cbn [rbind]. fold (am_done e c).
  destruct (am_done e c) eqn:Hd.
  2:{ exists (am_rx e), c. assert (with_rx e (am_rx e) = e) as -> by by destruct e.
      split_and!; try done; try lia. intros i Hi. by rewrite (proj2 (andb_false_iff _ _)) by lia. }
  assert (Hcw : c < am_window_size e).
  { destruct (Z.eq_dec c (am_window_size e)) as [->|]; [|lia].
    unfold am_done in *. rewrite (slot_window e Hwin), Hopen in Hd by lia. done. }
  destruct (clear_pdu_ok (am_rx e) (win_rm e Hwin) (sn_at e c) (sn_range_rm e c Hwin))
    as (rx & -> & Hwf & Hs & _ & Hst & Hslot). cbn [rbind].
  fold (with_rx e rx).
  pose proof (am_win_with_rx e rx Hwin Hwf Hs Hst) as Hwin'.
  pose proof (slot_write e c rx (fun _ => []) Hwin ltac:(lia) Hslot) as Hnew.
  rewrite (sn_next_at e Hwin).
  destruct (IH (with_rx e rx) (c + 1)) as (rx2 & c' & Hr & Hc' & Hwin2 & Hdone & Hnd & Hslots); [done|simpl; lia| |simpl; lia|].
  { intros _. unfold am_done. rewrite Hnew by lia. case_bool_; [done|]. apply Hopen. lia. }
  change (sn_at (with_rx e rx)) with (sn_at e) in Hr. rewrite Hr. simpl in Hc', Hslots.
  exists rx2, c'. split_and!; try done; try lia.
  - intros i Hi. destruct (Z.eq_dec i c) as [->|]; [done|]. specialize (Hdone i ltac:(lia)).
    unfold am_done in Hdone |- *. rewrite Hnew in Hdone by lia. by rewrite (proj2 (Z.eqb_neq i c)) in Hdone by lia.
  - intros Hlt. specialize (Hnd Hlt). unfold am_done in Hnd |- *. rewrite Hnew in Hnd by lia.
    by rewrite (proj2 (Z.eqb_neq c' c)) in Hnd by lia.
  - intros i Hi. change (slot (with_rx e rx2) i) with (slot (with_rx (with_rx e rx) rx2) i).
    rewrite Hslots, Hnew by done.
    destruct (Z.eqb_spec i c) as [->|].
    + rewrite (proj2 (andb_false_iff _ _)), (proj2 (andb_true_iff _ _)) by lia. done.
    + replace (c + 1 <=? i) with (c <=? i) by lia. done.
Qed.

(** ** The segments of one SDU *)

Definition am_pdu_ok (sn : Z) (p : nr_rlc_pdu) : Prop :=
  pdu_sn p = sn /\ 0 <= pdu_so p /\ (pdu_is_first p = true <-> pdu_so p = 0) /\ 0 < pdu_size p /\
  match pdu_data p with Some d => zlen d = pdu_size p | None => True end.

(** Sorted by offset; the data of all is there, or that of the head, the first
    segment, was freed by the delivery. *)
Record slot_ok (sn : Z) (l : list nr_rlc_pdu) : Prop := {
  so_pdus : Forall (am_pdu_ok sn) l;
  so_sorted : StronglySorted (fun p q => pdu_so p <= pdu_so q) l;
  so_data : head_processed l = false -> Forall (fun p => pdu_data p <> None) l;
  so_head : head_processed l = true -> match l with [] => False | p :: _ => pdu_so p = 0 end
}.

Lemma slot_ok_nil sn : slot_ok sn [].
Proof. by repeat constructor. Qed.

Lemma head_processed_data p l : pdu_data p <> None -> head_processed (p :: l) = false.
Proof. by destruct p as [? [|] ? ? ? ?]. Qed.

Lemma insert_slot_ok sn l p :
  slot_ok sn l -> am_pdu_ok sn p -> pdu_data p <> None ->
  slot_ok sn (insert_by_so p l) /\ head_processed (insert_by_so p l) = head_processed l.
Proof.
  intros [Hp Hs Hd Hh] Hok Hdata.
  assert (Hhd : head_processed (insert_by_so p l) = head_processed l).
  { destruct l as [|q l]; cbn [insert_by_so]; [by rewrite head_processed_data|].
    case_bool_; [|by destruct q]. rewrite head_processed_data by done.
    destruct (head_processed (q :: l)) eqn:Hq; [|done].
    specialize (Hh eq_refl). destruct Hok as (_ & ? & _). lia. }
  split; [|done]. split.
  - rewrite insert_by_so_perm. by constructor.
  - by apply insert_by_so_sorted.
  - rewrite Hhd. intros H. rewrite insert_by_so_perm. constructor; auto.
  - rewrite Hhd. intros H. specialize (Hh H). destruct l as [|q l]; [done|]. simpl.
    case_bool_; [|done]. destruct Hok as (_ & ? & _). lia.
Qed.

Lemma insert_not_nil p l : insert_by_so p l <> [].
Proof. destruct l; simpl; [done|]. by case_bool_. Qed.

Lemma reassemble_list_ok sn l r :
  Forall (am_pdu_ok sn) l -> Forall (fun p => pdu_data p <> None) l ->
  exists r', reassemble_list l r = Ok (map data_freed l, r') /\
    ra_rx_size r' = ra_rx_size r - zsum pdu_size l.
Proof.
  intros Hok Hd. revert r. induction Hok as [|p l (_ & Hso & _ & Hsz & Hp) Hok IH]; intros r; simpl.
  { eexists. split; [done|lia]. }
  inversion Hd as [|? ? Hpd Hd']; subst.
  assert (exists r1, reassemble_one p r = Ok r1 /\ ra_rx_size r1 = ra_rx_size r - pdu_size p) as (r1 & -> & Hr1).
  { unfold reassemble_one. cbv zeta. destruct (negb _ && _) eqn:Hb; simpl; [|eauto].
    bool_hyps. destruct (pdu_data p) as [d|]; [|done]. simpl. rewrite buf_read_ok by lia. simpl. eauto. }
  cbn [rbind]. destruct (IH Hd' r1) as (r' & -> & Hr'). cbn [rbind].
  eexists. split; [done|lia].
Qed.

Lemma freed_slot_ok sn l :
  slot_ok sn l -> match l with [] => False | p :: _ => pdu_so p = 0 end ->
  slot_ok sn (map data_freed l) /\ head_processed (map data_freed l) = true.
Proof.
  intros [Hp Hs _ _] Hh. destruct l as [|p l]; [done|]. split; [|done]. split.
  - apply Forall_map. eapply Forall_impl; [exact Hp|]. intros q (? & ? & ? & ? & _). by split_and!.
  - revert Hs. clear. generalize (p :: l). intros k. induction 1 as [|q k Hs IH Hq]; simpl; constructor; [done|].
    apply Forall_map. eapply Forall_impl; [exact Hq|]. done.
  - done.
  - done.
Qed.

(** A list that is full starts with its first byte. *)
Lemma full_head l :
  Forall (fun p => 0 <= pdu_so p) l -> full_loop (-1) l = true ->
  match l with [] => False | p :: _ => pdu_so p = 0 end.
Proof.
  intros Hl. destruct l as [|p l]; [done|]. simpl. inversion Hl; subst.
  case_bool_; [done|]. lia.
Qed.

(** ** The invariant of the receiver *)

(** Everything but [t_Reassembly]: the segments of the [k]-th entry belong to
    the [k]-th sequence number and are well formed, nothing is stored from
    [rx_next_highest] on but just before it, [rx_highest_status] is not after it, and neither the
    SDU at [rx_next] nor the one at [rx_highest_status] is delivered. *)
Record am_rx_inv0 (e : nr_rlc_entity_am) : Prop := {
  ari_win : am_win e;
  ari_slots : forall k, 0 <= k < am_window_size e -> slot_ok (sn_at e k) (slot e k);
  ari_nh : am_sn_ok e (am_rx_next_highest e);
  ari_nh_pos : modulus_rx e (am_rx_next_highest e) <= am_window_size e;
  ari_empty : forall k, modulus_rx e (am_rx_next_highest e) <= k < am_window_size e -> slot e k = [];
  ari_last : 0 < modulus_rx e (am_rx_next_highest e) -> slot e (modulus_rx e (am_rx_next_highest e) - 1) <> [];
  ari_hs : am_sn_ok e (am_rx_highest_status e);
  ari_hs_pos : modulus_rx e (am_rx_highest_status e) <= modulus_rx e (am_rx_next_highest e);
  ari_next_open : am_done e 0 = false;
  ari_hs_open : am_done e (modulus_rx e (am_rx_highest_status e)) = false;
  ari_trigger : am_sn_ok e (am_rx_next_status_trigger e)
}.

(** While [t_Reassembly] runs, its trigger is after [rx_next] and not after
    [rx_next_highest]; just after the window has moved it may also be behind. *)
Definition am_timer_ok (e : nr_rlc_entity_am) : Prop :=
  am_t_reassembly_start e <> 0 ->
  1 <= modulus_rx e (am_rx_next_status_trigger e) <= modulus_rx e (am_rx_next_highest e).

Definition am_timer_weak (e : nr_rlc_entity_am) : Prop :=
  am_t_reassembly_start e <> 0 ->
  modulus_rx e (am_rx_next_status_trigger e) <= modulus_rx e (am_rx_next_highest e)
  \/ am_window_size e < modulus_rx e (am_rx_next_status_trigger e).

Record am_rx_inv (e : nr_rlc_entity_am) : Prop := {
  ari_base : am_rx_inv0 e;
  ari_timer : am_timer_ok e
}.

(** The window is full: all is delivered but the SDU at [rx_next], which is
    also [rx_highest_status]. *)
Definition am_window_full (e : nr_rlc_entity_am) : Prop :=
  am_rx_highest_status e = am_rx_next e
  /\ forall k, 1 <= k < am_window_size e -> am_done e k = true.

Ltac am_win_same H :=
  let Hc := fresh in destruct H as [Hc]; destruct Hc; constructor; try (constructor; done); done.

Ltac am_inv0_same H :=
  let Hw := fresh in let Hc := fresh in
  destruct H as [Hw]; destruct Hw as [Hc]; destruct Hc; constructor; try (constructor; try (constructor; done); done); try done.

Lemma sdu_has_missing_bytes_at e k :
  am_win e -> exists b, sdu_has_missing_bytes e (sn_at e k) = Ok b.
Proof. intros Hw. unfold sdu_has_missing_bytes. rewrite (am_get_at e Hw). simpl. eauto. Qed.

(** [t_Reassembly] is started after [sn] when more than [sn] is expected. *)
Lemma start_condition e sn missing :
  am_rx_inv0 e -> am_sn_ok e sn -> modulus_rx e sn <= am_window_size e ->
  (0 <? sn_compare_rx e (am_rx_next_highest e) (sn_next e sn))
  || ((am_rx_next_highest e =? sn_next e sn) && missing) = true ->
  1 <= modulus_rx e (am_rx_next_highest e).
Proof.
  intros Hinv Hsn Hpos Hb. pose proof (ari_win e Hinv) as Hw. pose proof (win_bounds e Hw) as [Hws HM].
  pose proof (rel_range e Hw sn Hsn). rewrite (sn_next_ok e Hw) in Hb by done.
  unfold sn_compare_rx in Hb. rewrite (rel_at e Hw) in Hb by lia.
  destruct (0 <? _) eqn:?; [lia|]. simpl in Hb. bool_hyps.
  assert (am_rx_next_highest e = sn_at e (modulus_rx e sn + 1)) as -> by lia. rewrite (rel_at e Hw); lia.
Qed.

Lemma am_timer_update_ok e :
  am_rx_inv0 e -> am_timer_weak e ->
  exists e', timer_update e = Ok e' /\ am_rx_inv e' /\
    e' = {| e with am_t_reassembly_start := am_t_reassembly_start e';
                   am_rx_next_status_trigger := am_rx_next_status_trigger e' |}.
Proof.
  intros Hinv Hweak. pose proof (ari_win e Hinv) as Hw. pose proof (win_bounds e Hw) as [Hws HM].
  pose proof (rel_range e Hw _ (ari_trigger e Hinv)) as Htr.
  unfold timer_update. cbv zeta. destruct (sdu_has_missing_bytes_at e 0 Hw) as [missing Hm].
  rewrite (sn_at_0 e Hw) in Hm. rewrite Hm. cbn [rbind]. set (stop := negb _ && _).
  assert (Hstart : (0 <? sn_compare_rx e (am_rx_next_highest e) (sn_next e (am_rx_next e)))
    || ((am_rx_next_highest e =? sn_next e (am_rx_next e)) && missing) = true ->
    1 <= modulus_rx e (am_rx_next_highest e)).
  { apply start_condition; [done|apply Hw|]. rewrite (rel_next e Hw). lia. }
  destruct stop eqn:Hstop; cbn [am_t_reassembly_start am_rx_next_highest am_rx_next].
  - simpl (0 =? 0). cbn [andb].
    change (sn_compare_rx {| e with am_t_reassembly_start := 0 |}) with (sn_compare_rx e).
    case_bool_; eexists; (split_and!; [done| |done]); (constructor; [am_inv0_same Hinv|]).
    + intros _. cbn. specialize (Hstart eq_refl). split; [exact Hstart|apply Z.le_refl].
    + by intros [].
  - case_bool_; eexists; (split_and!; [done| |by destruct e]).
    + constructor; [am_inv0_same Hinv|]. intros _. cbn. bool_hyps. specialize (Hstart H0).
      split; [exact Hstart|apply Z.le_refl].
    + constructor; [done|]. intros Hrun. specialize (Hweak Hrun). subst stop.
      apply andb_false_iff in Hstop as [Hstop|Hstop]; [apply negb_false_iff in Hstop; lia|].
      apply orb_false_iff in Hstop as [Hstop Hout]. apply orb_false_iff in Hstop as [Hz _].
      assert (modulus_rx e (am_rx_next_status_trigger e) <> 0) as Hne.
      { intros H. rewrite <- (rel_next e Hw) in H. apply (rel_inj e Hw) in H; [lia|apply Hinv|apply Hw]. }
      split; [lia|]. destruct Hweak as [?|Hfar]; [done|].
      apply andb_false_iff in Hout as [Hout|Hout]; apply negb_false_iff in Hout.
      * unfold sn_in_recv_window in Hout. lia.
      * assert (Z.rem (am_rx_next e + am_window_size e) (am_sn_modulus e) = sn_at e (am_window_size e)) as Heq.
        { pose proof (win_next e Hw) as Hn. unfold am_sn_ok in Hn. rewrite Z.rem_mod_nonneg by lia. done. }
        rewrite Heq in Hout. apply Z.eqb_eq in Hout. rewrite Hout, (rel_at e Hw) in Hfar by lia. lia.
Qed.

(** When [t_Reassembly] expires. *)
Lemma am_check_t_reassembly_ok e :
  am_rx_inv e ->
  exists e', check_t_reassembly e = Ok e' /\ am_rx_inv e' /\
    e' = {| e with am_t_reassembly_start := am_t_reassembly_start e';
                   am_rx_next_status_trigger := am_rx_next_status_trigger e';
                   am_rx_highest_status := am_rx_highest_status e';
                   am_status_triggered := am_status_triggered e' |}.
Proof.
  intros [Hinv Htimer]. unfold check_t_reassembly. destruct (_ || _) eqn:Hb.
  { exists e. split_and!; [done|done|by destruct e]. }
  apply orb_false_iff in Hb as [Hrun _]. specialize (Htimer ltac:(lia)).
  pose proof (ari_win e Hinv) as Hw. pose proof (win_bounds e Hw) as [Hws HM].
  pose proof (ari_nh_pos e Hinv) as Hnh. set (h := modulus_rx e (am_rx_next_highest e)) in *.
  assert (Hopen : am_done e h = false).
  { destruct (Z.eq_dec h (am_window_size e)) as [->|].
    - unfold am_done. rewrite (slot_window e Hw). apply Hinv.
    - unfold am_done. rewrite (ari_empty e Hinv) by lia. done. }
  cbv zeta. set (e1 := {| e with am_t_reassembly_start := 0 |}).
  assert (Hw1 : am_win e1) by (am_win_same Hw).
  destruct (am_skip_ok e1 Hw1 (am_fuel e1) (modulus_rx e (am_rx_next_status_trigger e)) h)
    as (j & Hs & Hj & Hdj & _); [lia|done|unfold am_fuel; simpl; lia|].
  change (sn_at e1) with (sn_at e) in Hs. rewrite (at_rel e Hw) in Hs by apply Hinv.
  change (am_rx_next_status_trigger e) with (am_rx_next_status_trigger e1) in Hs. rewrite Hs. cbn [rbind]. cbv beta zeta.
  set (e2 := {| e1 with am_rx_highest_status := sn_at e j; am_status_triggered := true |}).
  assert (Hj' : modulus_rx e (sn_at e j) = j) by (apply (rel_at e Hw); lia).
  assert (Hinv2 : am_rx_inv0 e2).
  { am_inv0_same Hinv; simpl.
    - exact (sn_at_ok e Hw j).
    - change (modulus_rx e (sn_at e j) <= h). lia.
    - change (am_done e (modulus_rx e (sn_at e j)) = false). by rewrite Hj'. }
  destruct (sdu_has_missing_bytes_at e2 j (ari_win e2 Hinv2)) as [missing Hm].
  change (am_rx_highest_status e2) with (sn_at e2 j). rewrite Hm. cbn [rbind].
  case_bool_; eexists; (split_and!; [done| |done]); (constructor; [am_inv0_same Hinv2|]); [|by intros []].
  intros _. cbn. change (1 <= h <= h). split; [|lia].
  apply (start_condition e2 (am_rx_highest_status e2) missing); [done|apply Hinv2| |done].
  change (modulus_rx e (sn_at e j) <= am_window_size e). lia.
Qed.

(** ** A segment is stored *)

Lemma am_insert_ok e p size :
  am_rx_inv e -> am_pdu_ok (pdu_sn p) p -> pdu_data p <> None -> am_sn_ok e (pdu_sn p) ->
  sn_in_recv_window e (pdu_sn p) = true ->
  let k := modulus_rx e (pdu_sn p) in
  exists rx e1, nr_rlc_rx_manager_add_pdu (am_rx e) p = Ok rx /\
    e1 = raise_next_highest {| e with am_rx_size := size; am_rx := rx |} (pdu_sn p) /\
    am_rx_inv e1 /\ e1 = {| e with am_rx_size := size; am_rx := rx; am_rx_next_highest := am_rx_next_highest e1 |} /\
    slot e1 k = insert_by_so p (slot e k) /\
    forall i, 0 <= i < am_window_size e -> i <> k -> slot e1 i = slot e i.
Proof.
  intros [Hinv Htimer] Hp Hd Hsn Hin k. pose proof (ari_win e Hinv) as Hw.
  pose proof (win_bounds e Hw) as [Hws HM]. pose proof (rel_range e Hw _ Hsn) as Hk. fold k in Hk.
  unfold sn_in_recv_window in Hin. fold k in Hin. apply Z.ltb_lt in Hin.
  pose proof (at_rel e Hw _ Hsn) as Hat. fold k in Hat.
  destruct (add_pdu_ok (am_rx e) (win_rm e Hw) p) as (rx & Hadd & Hwf & Hs & _ & Hst & Hslot).
  { rewrite <- Hat. by apply sn_range_rm. }
  rewrite <- Hat in Hslot. rewrite Hadd.
  pose proof (slot_write e k rx _ Hw ltac:(lia) Hslot) as Hnew.
  pose proof (am_win_with_rx e rx Hw Hwf Hs Hst) as Hw1.
  change (slot (with_rx e rx)) with (fun i => rm_slot rx i) in Hnew. cbv beta in Hnew.
  assert (Hk1 : slot_ok (pdu_sn p) (insert_by_so p (slot e k)) /\
                head_processed (insert_by_so p (slot e k)) = am_done e k).
  { apply insert_slot_ok; [|done..]. rewrite <- Hat. apply Hinv. lia. }
  set (e0 := {| e with am_rx_size := size; am_rx := rx |}).
  assert (Hw0 : am_win e0) by (am_win_same Hw1).
  set (h := modulus_rx e (am_rx_next_highest e)).
  exists rx. fold e0.
  assert (exists n, raise_next_highest e0 (pdu_sn p) = {| e0 with am_rx_next_highest := n |} /\
    am_sn_ok e n /\ h <= modulus_rx e n <= am_window_size e /\ k < modulus_rx e n /\
    (modulus_rx e n - 1 <> k -> modulus_rx e n = h /\ 0 < h)) as (n & -> & Hn & Hhn & Hkn & Hlastn).
  { pose proof (ari_nh_pos e Hinv) as Hnh. fold h in Hnh. unfold raise_next_highest.
    change (sn_compare_rx e0 (pdu_sn p) (am_rx_next_highest e0)) with (k - h). case_bool_.
    - exists (sn_at e (k + 1)). rewrite (rel_at e Hw) by lia.
      split_and!; [|by apply sn_at_ok|lia..]. change (sn_next e0) with (sn_next e). by rewrite (sn_next_ok e Hw).
    - exists (am_rx_next_highest e). fold h. split_and!; [by destruct e|apply Hinv|lia..]. }
  eexists. split_and!; [done|done| |by destruct e| |].
  2:{ unfold slot at 1. simpl. rewrite Hnew, Z.eqb_refl by lia. done. }
  2:{ intros i Hi Hne. unfold slot at 1. simpl. rewrite Hnew by lia. by rewrite (proj2 (Z.eqb_neq i k)). }
  assert (Hdone : forall i, 0 <= i < am_window_size e -> head_processed (rm_slot rx i) = am_done e i).
  { intros i Hi. rewrite Hnew by done. case_bool_; [|done].
    apply Z.eqb_eq in Heqb as ->. apply Hk1. }
  assert (Hnil : forall i, modulus_rx e n <= i < am_window_size e -> rm_slot rx i = []).
  { intros i Hi. rewrite Hnew, (proj2 (Z.eqb_neq i k)) by lia. apply Hinv. fold h. lia. }
  assert (Hopen : forall i, 0 <= i <= am_window_size e -> am_done e i = false -> head_processed (rm_slot rx i) = false).
  { intros i Hi. destruct (Z.eq_dec i (am_window_size e)) as [->|]; [|rewrite Hdone by lia; done].
    unfold am_done. rewrite (slot_window e Hw). intros H0.
    change (rm_slot rx (am_window_size e)) with (slot e0 (am_window_size e0)). rewrite (slot_window e0 Hw0).
    change (head_processed (rm_slot rx 0) = false). rewrite Hdone by lia. done. }
  pose proof (ari_hs_pos e Hinv) as Hhs. fold h in Hhs.
  assert (Hlast : rm_slot rx (modulus_rx e n - 1) <> []).
  { rewrite Hnew by lia. case_bool_; [apply insert_not_nil|].
    destruct (Hlastn ltac:(lia)) as [-> Hpos]. by apply Hinv. }
  split.
  - constructor; [am_win_same Hw0|..].
    + intros i Hi. change (slot_ok (sn_at e i) (rm_slot rx i)). rewrite Hnew by done.
      case_bool_; [|by apply Hinv]. apply Z.eqb_eq in Heqb as ->. rewrite Hat. apply Hk1.
    + exact Hn.
    + change (modulus_rx e n <= am_window_size e). lia.
    + exact Hnil.
    + intros _. exact Hlast.
    + apply Hinv.
    + change (modulus_rx e (am_rx_highest_status e) <= modulus_rx e n). lia.
    + apply (Hopen 0); [lia|apply Hinv].
    + apply (Hopen (modulus_rx e (am_rx_highest_status e))); [|apply Hinv].
      pose proof (rel_range e Hw _ (ari_hs e Hinv)). pose proof (ari_nh_pos e Hinv) as Hnh. fold h in Hnh. lia.
    + apply Hinv.
  - intros Hrun. specialize (Htimer Hrun). cbn.
    change (1 <= modulus_rx e (am_rx_next_status_trigger e) <= modulus_rx e n). fold h in Htimer. lia.
Qed.

(** ** An SDU is delivered *)

Lemma sdu_full_at e k :
  am_win e -> sdu_full e (sn_at e k) = Ok (if head_processed (slot e k) then false else full_loop (-1) (slot e k)).
Proof. intros Hw. unfold sdu_full. by rewrite (am_get_at e Hw). Qed.

Lemma done_not_nil e k : am_done e k = true -> slot e k <> [].
Proof. unfold am_done. by destruct (slot e k). Qed.

(** What the receiver does not touch. *)
Definition am_tx_part (e : nr_rlc_entity_am) :=
  (am_sn_field_length e, am_sn_modulus e, am_window_size e, bstatus (am_common e),
   (am_tx_next e, am_tx_next_ack e, am_poll_sn e, am_t_current e),
   (am_tx e, am_tx_size e, am_wait e, am_retransmit e),
   (am_tx_maxsize e, am_rx_maxsize e, am_poll_pdu e, am_poll_byte e, am_max_retx_threshold e)).

(** The indication to the upper layer for a list that is full. *)
Definition am_event (l : list nr_rlc_pdu) (rx_size : Z) : list event :=
  match reassemble_list l (mk_reass [] false rx_size) with
  | Ok (_, r) => if ra_bad r then [] else [deliver_sdu (ra_sdu r)]
  | Fail _ => []
  end.

Lemma am_reassemble_ok e k :
  am_rx_inv0 e -> 0 <= k < am_window_size e -> sdu_full e (sn_at e k) = Ok true ->
  exists c rx size ev e2, reassemble_and_deliver e (sn_at e k) = Ok (e2, ev) /\
    e2 = {| e with am_common := c; am_rx := rx; am_rx_size := size |} /\ am_win e2 /\
    bstatus c = bstatus (am_common e) /\ slot e k <> [] /\
    slot_ok (sn_at e k) (slot e2 k) /\ am_done e2 k = true /\
    (size = am_rx_size e - zsum pdu_size (slot e k) /\ ev = am_event (slot e k) (am_rx_size e) /\
     slot e2 k = map data_freed (slot e k)) /\
    forall i, 0 <= i < am_window_size e -> i <> k -> slot e2 i = slot e i.
Proof.
  intros Hinv Hk Hfull. pose proof (ari_win e Hinv) as Hw. pose proof (ari_slots e Hinv k Hk) as Hok.
  rewrite (sdu_full_at e k Hw) in Hfull.
  destruct (head_processed (slot e k)) eqn:Hp; [done|]. injection Hfull as Hfull.
  destruct (freed_slot_ok (sn_at e k) (slot e k)) as [Hfr Hfd]; [done| |].
  { apply full_head; [|done]. eapply Forall_impl; [apply Hok|]. by intros p (_ & ? & _). }
  unfold reassemble_and_deliver. rewrite (am_get_at e Hw). cbn [rbind].
  destruct (reassemble_list_ok (sn_at e k) (slot e k) (mk_reass [] false (am_rx_size e)))
    as (r & Hre & Hr); [apply Hok|by apply Hok|].
  assert (Hev : am_event (slot e k) (am_rx_size e) = if ra_bad r then [] else [deliver_sdu (ra_sdu r)]).
  { unfold am_event. by rewrite Hre. }
  rewrite Hre. cbn [rbind].
  destruct (rx_list_set_ok (am_rx e) (win_rm e Hw) (sn_at e k) (map data_freed (slot e k)) (sn_range_rm e k Hw))
    as (rx & -> & Hwf & Hs & _ & Hst & Hslot). cbn [rbind].
  pose proof (slot_write e k rx (fun _ => map data_freed (slot e k)) Hw Hk Hslot) as Hnew.
  pose proof (am_win_with_rx e rx Hw Hwf Hs Hst) as Hw1.
  assert (forall c size, let e2 := {| e with am_common := c; am_rx := rx; am_rx_size := size |} in
    am_win e2 /\ slot_ok (sn_at e k) (slot e2 k) /\ am_done e2 k = true /\ slot e2 k = map data_freed (slot e k) /\
    forall i, 0 <= i < am_window_size e -> i <> k -> slot e2 i = slot e i) as H2.
  { intros c size e2. split; [am_win_same Hw1|]. unfold am_done.
    change (slot e2) with (slot (with_rx e rx)). rewrite Hnew, Z.eqb_refl by done.
    split_and!; [done|done|done|]. intros i Hi Hne. rewrite Hnew by done. by rewrite (proj2 (Z.eqb_neq i k)). }
  assert (slot e k <> []) as Hnn by (destruct (slot e k); done).
  destruct (ra_bad r).
  - destruct (H2 (am_common e) (ra_rx_size r)) as (? & ? & ? & ? & ?).
    eexists (am_common e), rx, _, _, _. split_and!; done.
  - destruct (H2 (entity_stats stats_am_delivered (am_common e)) (ra_rx_size r)) as (? & ? & ? & ? & ?).
    eexists _, rx, _, _, _. split_and!; try done; done.
Qed.

(** [rx_highest_status] afterwards: at an SDU that is not delivered, unless it
    is one window after [rx_next] and all was delivered. *)
Lemma raise_highest_status_ok e e2 k :
  am_rx_inv e -> am_win e2 -> 0 <= k < modulus_rx e (am_rx_next_highest e) -> k < am_window_size e ->
  am_window_size e2 = am_window_size e -> am_rx_next e2 = am_rx_next e -> am_sn_modulus e2 = am_sn_modulus e ->
  am_rx_highest_status e2 = am_rx_highest_status e ->
  (forall i, 0 <= i < am_window_size e -> i <> k -> slot e2 i = slot e i) ->
  ~ (k = 0 /\ am_window_full e) ->
  exists q, raise_highest_status e2 (sn_at e k) = Ok {| e2 with am_rx_highest_status := sn_at e q |} /\
    0 <= q <= modulus_rx e (am_rx_next_highest e) /\
    (am_done e2 q = false \/ k = 0 /\ q = am_window_size e).
Proof.
  intros [Hinv Htimer] Hw2 Hk Hkw Hws2 Hn2 HM2 Hhs2 Hslots Hfull.
  pose proof (ari_win e Hinv) as Hw. pose proof (win_bounds e Hw) as [Hws HM].
  assert (Hat : forall i, sn_at e2 i = sn_at e i) by (intros i; unfold sn_at; by rewrite Hn2, HM2).
  assert (Hother : forall i, 0 <= i < am_window_size e -> i <> k -> am_done e2 i = am_done e i).
  { intros i Hi Hne. unfold am_done. by rewrite Hslots. }
  pose proof (ari_nh_pos e Hinv) as Hnh. set (h := modulus_rx e (am_rx_next_highest e)) in *.
  pose proof (ari_hs_pos e Hinv) as Hq. fold h in Hq.
  pose proof (rel_range e Hw _ (ari_hs e Hinv)) as Hq0. pose proof (at_rel e Hw _ (ari_hs e Hinv)) as Hqat.
  set (q := modulus_rx e (am_rx_highest_status e)) in *.
  assert (Hzero : k <> 0 -> am_done e2 (am_window_size e) = false).
  { intros Hk0. unfold am_done. rewrite <- Hws2, (slot_window e2 Hw2).
    fold (am_done e2 0). rewrite Hother by lia. apply Hinv. }
  unfold raise_highest_status. rewrite Hhs2, (rel_eqb e Hw), (rel_at e Hw) by (by try apply sn_at_ok; lia || apply Hinv).
  fold q. destruct (Z.eqb_spec k q) as [Hkq|Hne].
  - assert (exists n, k <= n <= h /\ am_done e2 n = false) as (n & Hnr & Hnd).
    { destruct (Z.eq_dec h (am_window_size e)) as [Hhw|].
      2:{ exists h. split; [lia|]. rewrite Hother by lia. unfold am_done.
          by rewrite (ari_empty e Hinv) by (fold h; lia). }
      destruct (Z.eq_dec k 0) as [Hk0|]; [|exists h; split; [lia|rewrite Hhw; auto]].
      destruct (decide (Forall (fun i => am_done e (Z.of_nat i) = true) (seq 1 (Z.to_nat (am_window_size e - 1)))))
        as [Hall|Hex].
      - exfalso. apply Hfull. split; [done|]. split.
        + rewrite <- Hqat, <- Hkq, Hk0. by apply sn_at_0.
        + intros i Hi. rewrite Forall_forall in Hall. specialize (Hall (Z.to_nat i)).
          rewrite Z2Nat.id in Hall by lia. apply Hall, elem_of_seq. lia.
      - apply not_Forall_Exists, Exists_exists in Hex as (i & Hi%elem_of_seq & Hnd); [|apply _].
        exists (Z.of_nat i). split; [lia|]. rewrite Hother by lia. by apply not_true_is_false. }
    destruct (am_skip_ok e2 Hw2 (am_fuel e2) q n) as (j & Hs & Hj & Hdj & _); [lia|done|unfold am_fuel; lia|].
    rewrite Hat, Hqat in Hs. rewrite Hs. cbn [rbind]. exists j. rewrite Hat. split_and!; [done|lia|lia|by left].
  - exists q. split_and!; [rewrite Hqat, <- Hhs2; by destruct e2|lia|lia|].
    destruct (Z.eq_dec q (am_window_size e)) as [->|].
    + destruct (Z.eq_dec k 0); [right; done|left; auto].
    + left. rewrite Hother by lia. apply Hinv.
Qed.

(** The window before its start moves: as [am_rx_inv], except that the SDU at
    [rx_next] may be delivered. *)
Record am_rx_pre (e : nr_rlc_entity_am) : Prop := {
  arp_win : am_win e;
  arp_slots : forall k, 0 <= k < am_window_size e -> slot_ok (sn_at e k) (slot e k);
  arp_nh : am_sn_ok e (am_rx_next_highest e);
  arp_nh_pos : modulus_rx e (am_rx_next_highest e) <= am_window_size e;
  arp_empty : forall k, modulus_rx e (am_rx_next_highest e) <= k < am_window_size e -> slot e k = [];
  arp_last : 0 < modulus_rx e (am_rx_next_highest e) -> slot e (modulus_rx e (am_rx_next_highest e) - 1) <> [];
  arp_hs : am_sn_ok e (am_rx_highest_status e);
  arp_hs_pos : modulus_rx e (am_rx_highest_status e) <= modulus_rx e (am_rx_next_highest e);
  arp_hs_open : modulus_rx e (am_rx_highest_status e) < am_window_size e ->
    am_done e (modulus_rx e (am_rx_highest_status e)) = false;
  arp_trigger : am_sn_ok e (am_rx_next_status_trigger e);
  arp_timer : am_timer_ok e
}.

(** Sequence numbers keep their place when the window starts [c] later. *)
Lemma rel_advance e e' c a :
  am_win e -> am_win e' -> am_sn_modulus e' = am_sn_modulus e -> am_rx_next e' = sn_at e c ->
  0 <= c -> am_sn_ok e a ->
  modulus_rx e' a = (modulus_rx e a - c) mod am_sn_modulus e.
Proof.
  intros Hw Hw' HM Hn Hc Ha. rewrite (rel_mod e' Hw') by (unfold am_sn_ok in *; congruence).
  rewrite HM, Hn, (rel_mod e Hw) by done. unfold sn_at.
  rewrite Zminus_mod_idemp_r, Zminus_mod_idemp_l. f_equal. lia.
Qed.

(** The state after [c] delivered SDUs have left the window. *)
Record am_advanced (e e' : nr_rlc_entity_am) (c : Z) : Prop := {
  adv_win : am_win e';
  adv_count : 0 <= c <= am_window_size e;
  adv_past : forall i, 0 <= i < am_window_size e -> am_done e i = false -> c <= i;
  adv_done : forall i, 0 <= i < c -> am_done e i = true;
  adv_slots : forall i, 0 <= i < am_window_size e ->
    slot e' i = if i + c <? am_window_size e then slot e (i + c) else [];
  adv_rel : forall a, am_sn_ok e a -> modulus_rx e' a = (modulus_rx e a - c) mod am_sn_modulus e;
  adv_at : forall i, sn_at e' i = sn_at e (i + c);
  adv_open : am_done e' 0 = false
}.

Lemma advance_rx_next_ok e :
  am_win e ->
  exists rx n c, advance_rx_next e = Ok {| e with am_rx := rx; am_rx_next := n |} /\ n = sn_at e c /\
    am_advanced e {| e with am_rx := rx; am_rx_next := n |} c.
Proof.
  intros Hw. pose proof (win_bounds e Hw) as [Hws HM]. unfold advance_rx_next.
  destruct (free_delivered_ok (am_fuel e) e 0 Hw) as (rx & c & Hfree & Hc & Hw1 & Hdone & Hnd & Hslots);
    [lia|lia|unfold am_fuel; lia|].
  rewrite (sn_at_0 e Hw) in Hfree. rewrite Hfree. cbn [rbind with_rx am_rx].
  destruct (advance_ok rx (win_rm _ Hw1) c (sn_at e c)) as (Hwf & Hs & Hst & Hsh); [lia| |].
  { pose proof (win_size _ Hw1) as Hsz. simpl in Hsz. rewrite Hsz, <- HM. by apply sn_at_ok. }
  set (rx' := nr_rlc_rx_manager_set_start _ _) in *.
  eexists _, _, c. split; [done|]. split; [done|]. set (e' := {| e with am_rx := rx'; am_rx_next := sn_at e c |}).
  assert (Hw' : am_win e').
  { destruct Hw1 as [[] ? ? Hsz ?]. constructor; [by constructor|exact (sn_at_ok e Hw c)|done| |done].
    change (rm_size rx' = am_window_size e). by rewrite Hs. }
  assert (Hsl : forall i, 0 <= i < am_window_size e ->
    slot e' i = if i + c <? am_window_size e then slot e (i + c) else []).
  { intros i Hi. change (slot e' i) with (rm_slot rx' i). rewrite Hsh.
    change (rm_slot rx (i + c)) with (slot (with_rx e rx) (i + c)). case_bool_.
    - rewrite Hslots by lia. by rewrite (proj2 (andb_false_iff _ _)) by lia.
    - replace (i + c) with (i + c - am_window_size (with_rx e rx) + am_window_size (with_rx e rx)) by lia.
      rewrite (slot_wrap _ Hw1). change (am_window_size (with_rx e rx)) with (am_window_size e).
      rewrite Hslots by lia. by rewrite (proj2 (andb_true_iff _ _)) by lia. }
  constructor; [done|lia| |intros i Hi; apply Hdone; lia|done| | |].
  - intros i Hi Hdi. destruct (Z.le_gt_cases c i) as [|Hlt]; [done|]. rewrite Hdone in Hdi by lia. done.
  - intros a Ha. apply rel_advance; (done || lia).
  - intros i. unfold sn_at at 1. simpl. unfold sn_at. rewrite Zplus_mod_idemp_l. f_equal. lia.
  - unfold am_done. rewrite Hsl by lia. case_bool_; [|done]. apply Hnd. lia.
Qed.

Section Advanced.
Context (e e' : nr_rlc_entity_am) (c : Z) (Hpre : am_rx_pre e) (Hadv : am_advanced e e' c).

Let h := modulus_rx e (am_rx_next_highest e).
Let q := modulus_rx e (am_rx_highest_status e).

Lemma adv_bounds : c <= q <= h /\ h <= am_window_size e /\ am_window_size e < am_sn_modulus e.
Proof.
  pose proof (win_bounds e (arp_win e Hpre)) as [Hws HM]. pose proof (adv_count _ _ _ Hadv).
  pose proof (arp_nh_pos e Hpre) as Hnh. pose proof (arp_hs_pos e Hpre) as Hqh. fold h q in Hnh, Hqh.
  pose proof (rel_range e (arp_win e Hpre) _ (arp_hs e Hpre)) as Hq0. fold q in Hq0.
  split_and!; try lia. destruct (Z.eq_dec q (am_window_size e)); [lia|].
  apply (adv_past _ _ _ Hadv); [lia|]. apply Hpre. fold q. lia.
Qed.

Lemma adv_rel_small a : am_sn_ok e a -> c <= modulus_rx e a -> modulus_rx e' a = modulus_rx e a - c.
Proof.
  intros Ha Hca. rewrite (adv_rel _ _ _ Hadv) by done. pose proof (rel_range e (arp_win e Hpre) a Ha).
  pose proof (adv_count _ _ _ Hadv). apply Z.mod_small. lia.
Qed.

(** What was open stays open, and what is new is empty. *)
Lemma adv_still_open i :
  am_window_size e' = am_window_size e ->
  c <= i <= am_window_size e -> (i < am_window_size e -> am_done e i = false) -> am_done e' (i - c) = false.
Proof.
  intros Hws' Hi Hdi. destruct (Z.eq_dec (i - c) (am_window_size e)) as [Heq|].
  - unfold am_done. rewrite Heq, <- Hws', (slot_window e' (adv_win _ _ _ Hadv)). apply (adv_open _ _ _ Hadv).
  - unfold am_done. pose proof (adv_count _ _ _ Hadv). rewrite (adv_slots _ _ _ Hadv) by lia.
    case_bool_; [|done]. replace (i - c + c) with i in * by lia. apply Hdi. lia.
Qed.
End Advanced.

Lemma am_advance_ok e :
  am_rx_pre e ->
  exists rx n c, advance_rx_next e = Ok {| e with am_rx := rx; am_rx_next := n |} /\
    am_rx_inv0 {| e with am_rx := rx; am_rx_next := n |} /\
    am_timer_weak {| e with am_rx := rx; am_rx_next := n |} /\ n = sn_at e c /\
    am_advanced e {| e with am_rx := rx; am_rx_next := n |} c.
Proof.
  intros Hpre. pose proof (arp_win e Hpre) as Hw.
  destruct (advance_rx_next_ok e Hw) as (rx & n & c & -> & Hn & Hadv). exists rx, n, c. split; [done|].
  set (e' := {| e with am_rx := rx; am_rx_next := n |}) in *.
  pose proof (adv_bounds e e' c Hpre Hadv) as (Hcq & Hh & HM).
  pose proof (adv_rel_small e e' c Hpre Hadv) as Hrel. pose proof (adv_still_open e e' c Hadv) as Hopen.
  pose proof (Hrel _ (arp_nh e Hpre) ltac:(lia)) as Hnh. pose proof (Hrel _ (arp_hs e Hpre) ltac:(lia)) as Hhs.
  pose proof Hadv as [Hw' Hc Hpast _ Hsl Hrelm Hat Hop]. split; [|split; [|done]].
  - constructor; try done; try apply Hpre.
    + intros i Hi. change (am_window_size e') with (am_window_size e) in Hi. rewrite Hsl by done.
      case_bool_; [|apply slot_ok_nil]. rewrite Hat. apply Hpre. lia.
    + etransitivity; [apply Z.eq_le_incl, Hnh|]. simpl. lia.
    + intros i Hi. change (modulus_rx e' (am_rx_next_highest e) <= i < am_window_size e) in Hi. rewrite Hnh in Hi.
      rewrite Hsl by lia. case_bool_; [|done]. apply Hpre. lia.
    + change (0 < modulus_rx e' (am_rx_next_highest e) -> slot e' (modulus_rx e' (am_rx_next_highest e) - 1) <> []).
      rewrite Hnh. intros Hpos. rewrite Hsl by lia. rewrite (proj2 (Z.ltb_lt _ _)) by lia.
      replace (_ - c - 1 + c) with (modulus_rx e (am_rx_next_highest e) - 1) by lia. apply Hpre. lia.
    + change (modulus_rx e' (am_rx_highest_status e) <= modulus_rx e' (am_rx_next_highest e)). lia.
    + change (am_done e' (modulus_rx e' (am_rx_highest_status e)) = false). rewrite Hhs.
      apply Hopen; [done|lia|]. apply Hpre.
  - intros Hrun. pose proof (arp_timer e Hpre Hrun) as Ht.
    change (am_rx_next_highest e') with (am_rx_next_highest e).
    change (am_rx_next_status_trigger e') with (am_rx_next_status_trigger e).
    change (am_window_size e') with (am_window_size e).
    pose proof (arp_trigger e Hpre) as Hts. pose proof (rel_range e Hw _ Hts).
    pose proof (win_bounds e Hw) as [_ HM2].
    destruct (Z.le_gt_cases c (modulus_rx e (am_rx_next_status_trigger e))).
    + left. rewrite (Hrel _ Hts) by done. lia.
    + right. rewrite Hrelm by done. rewrite <- (Z.mod_add _ 1), Z.mod_small by lia. lia.
Qed.

(** The delivery of an SDU: [reception_update] once its SDU is full. *)
Definition am_deliver (e : nr_rlc_entity_am) (x : Z) : res (nr_rlc_entity_am * list event) :=
  let* (e, ev) := reassemble_and_deliver e x in
  let* e := raise_highest_status e x in
  let* e := if x =? am_rx_next e then advance_rx_next e else Ok e in
  Ok (e, ev).

Lemma am_pre_of_delivered e k c rx size q :
  let e2 := {| e with am_common := c; am_rx := rx; am_rx_size := size |} in
  let e3 := {| e2 with am_rx_highest_status := sn_at e q |} in
  am_rx_inv e -> 0 <= k < modulus_rx e (am_rx_next_highest e) -> k < am_window_size e ->
  am_win e2 -> slot_ok (sn_at e k) (slot e2 k) -> slot e2 k <> [] ->
  (forall i, 0 <= i < am_window_size e -> i <> k -> slot e2 i = slot e i) ->
  0 <= q <= modulus_rx e (am_rx_next_highest e) ->
  am_done e2 q = false \/ k = 0 /\ q = am_window_size e ->
  am_rx_pre e3 /\ (k <> 0 -> am_rx_inv e3).
Proof.
  intros e2 e3 [Hinv Htimer] Hk Hkw Hw2 Hk2 Hk2n Hslots Hq Hqd. pose proof (ari_win e Hinv) as Hw.
  pose proof (win_bounds e Hw) as [Hws HM]. pose proof (ari_nh_pos e Hinv) as Hnh.
  assert (Hw3 : am_win e3) by (am_win_same Hw2).
  assert (Hqa : modulus_rx e (sn_at e q) = q) by (apply (rel_at e Hw); lia).
  assert (Hsl : forall i, 0 <= i < am_window_size e -> slot_ok (sn_at e i) (slot e2 i)).
  { intros i Hi. destruct (Z.eq_dec i k) as [->|]; [done|]. rewrite Hslots by done. by apply Hinv. }
  assert (Hem : forall i, modulus_rx e (am_rx_next_highest e) <= i < am_window_size e -> slot e2 i = []).
  { intros i Hi. rewrite Hslots by lia. by apply Hinv. }
  assert (Hla : slot e2 (modulus_rx e (am_rx_next_highest e) - 1) <> []).
  { destruct (Z.eq_dec (modulus_rx e (am_rx_next_highest e) - 1) k) as [->|]; [done|].
    rewrite Hslots by lia. apply Hinv. lia. }
  split.
  - constructor; try done; try apply Hinv.
    + exact (sn_at_ok e Hw q).
    + change (modulus_rx e (sn_at e q) <= modulus_rx e (am_rx_next_highest e)). lia.
    + change (modulus_rx e3 _) with (modulus_rx e (sn_at e q)). rewrite Hqa. intros Hlt.
      destruct Hqd as [|[_ ->]]; [done|]. simpl in Hlt. lia.
  - intros Hk0. constructor; [|exact Htimer]. constructor; try done; try apply Hinv.
    + exact (sn_at_ok e Hw q).
    + change (modulus_rx e (sn_at e q) <= modulus_rx e (am_rx_next_highest e)). lia.
    + change (am_done e2 0 = false). unfold am_done. rewrite Hslots by lia. apply Hinv.
    + change (am_done e2 (modulus_rx e (sn_at e q)) = false). rewrite Hqa. by destruct Hqd as [|[? _]].
Qed.

(** How a step moves the window: [mid] are the slots before its start moves by
    [c], past SDUs that are delivered. *)
Record am_moved (e e' : nr_rlc_entity_am) (c : Z) (mid : Z -> list nr_rlc_pdu) : Prop := {
  mov_count : 0 <= c <= am_window_size e;
  mov_next : am_rx_next e' = sn_at e c;
  mov_past : forall i, 0 <= i < c -> head_processed (mid i) = true;
  mov_slots : forall i, 0 <= i < am_window_size e -> slot e' i = if i + c <? am_window_size e then mid (i + c) else []
}.

(** The slots with that of [k] replaced. *)
Definition slot_now (e : nr_rlc_entity_am) (k : Z) (l : list nr_rlc_pdu) (i : Z) : list nr_rlc_pdu :=
  if i =? k then l else slot e i.

Lemma am_moved_still e e' k l :
  am_win e -> am_rx_next e' = am_rx_next e ->
  (forall i, 0 <= i < am_window_size e -> slot e' i = slot_now e k l i) -> am_moved e e' 0 (slot_now e k l).
Proof.
  intros Hw Hn Hsl. pose proof (win_bounds e Hw). split; [lia|by rewrite (sn_at_0 e Hw)|lia|].
  intros i Hi. by rewrite Z.add_0_r, (proj2 (Z.ltb_lt _ _)), Hsl by lia.
Qed.

Lemma am_deliver_ok e k :
  am_rx_inv e -> 0 <= k < am_window_size e -> sdu_full e (sn_at e k) = Ok true ->
  ~ (k = 0 /\ am_window_full e) ->
  exists e' ev, am_deliver e (sn_at e k) = Ok (e', ev) /\ am_rx_inv0 e' /\ am_timer_weak e' /\
    am_tx_part e' = am_tx_part e /\ ev = am_event (slot e k) (am_rx_size e) /\
    exists c, am_moved e e' c (slot_now e k (map data_freed (slot e k))).
Proof.
  intros Hinv Hk Hsf Hnf. pose proof (ari_base e Hinv) as Hinv0. pose proof (ari_win e Hinv0) as Hw.
  destruct (am_reassemble_ok e k Hinv0 Hk Hsf)
    as (c & rx & size & ev & e2 & Hr & -> & Hw2 & Hb & Hnn & Hok & Hdk & (_ & -> & Hfr) & Hslots).
  assert (Hkh : 0 <= k < modulus_rx e (am_rx_next_highest e)).
  { destruct (Z.lt_ge_cases k (modulus_rx e (am_rx_next_highest e))); [lia|].
    by rewrite (ari_empty e Hinv0) in Hnn by lia. }
  unfold am_deliver. rewrite Hr. cbn [rbind]. set (e2 := {| e with am_common := c; am_rx := rx; am_rx_size := size |}) in *.
  destruct (raise_highest_status_ok e e2 k) as (q & Hq & Hqr & Hqd); try done; [lia|].
  rewrite Hq. cbn [rbind].
  destruct (am_pre_of_delivered e k c rx size q) as [Hpre Hinv3]; try done; [lia|by apply done_not_nil|]. fold e2 in Hpre, Hinv3.
  set (e3 := {| e2 with am_rx_highest_status := sn_at e q |}) in *.
  change (am_rx_next e3) with (am_rx_next e).
  pose proof (win_bounds e Hw) as [_ HM].
  rewrite (rel_eqb e Hw), (rel_at e Hw), (rel_next e Hw) by (exact (win_next e Hw) || exact (sn_at_ok e Hw k) || lia).
  assert (Hnow : forall i, 0 <= i < am_window_size e -> slot e3 i = slot_now e k (map data_freed (slot e k)) i).
  { intros i Hi. unfold slot_now. destruct (Z.eqb_spec i k) as [->|Hne]; [exact Hfr|by apply Hslots]. }
  destruct (Z.eqb_spec k 0) as [->|Hk0].
  - destruct (am_advance_ok e3 Hpre) as (rx' & n & c' & -> & Hinv' & Hweak & Hn & Hadv). cbn [rbind].
    eexists _, _. split_and!; try done; [unfold am_tx_part; simpl; by rewrite Hb|].
    exists c'. pose proof (adv_count _ _ _ Hadv) as Hc'. change (am_window_size e3) with (am_window_size e) in Hc'.
    split; [done|exact Hn| |].
    + intros i Hi. rewrite <- Hnow by lia. by apply (adv_done _ _ _ Hadv).
    + intros i Hi. rewrite (adv_slots _ _ _ Hadv i Hi). change (am_window_size e3) with (am_window_size e).
      case_bool_; [|done]. apply Hnow. lia.
  - cbn [rbind]. destruct (Hinv3 Hk0) as [Hinv' Ht]. eexists _, _. split_and!; try done.
    + intros Hrun. left. apply (Ht Hrun).
    + unfold am_tx_part. simpl. by rewrite Hb.
    + exists 0. by apply am_moved_still.
Qed.

Lemma reception_update_deliver e x :
  reception_update e x
  = (let e := raise_next_highest e x in
     let* full := sdu_full e x in if full then am_deliver e x else Ok (e, [])).
Proof. done. Qed.

Lemma am_tx_part_timer e s t :
  am_tx_part {| e with am_t_reassembly_start := s; am_rx_next_status_trigger := t |} = am_tx_part e.
Proof. done. Qed.

(** The segment [p] completes the SDU at [rx_next] while the window is full. *)
Definition am_hangs (e : nr_rlc_entity_am) (p : nr_rlc_pdu) : Prop :=
  pdu_sn p = am_rx_next e /\ am_window_full e /\ full_loop (-1) (insert_by_so p (slot e 0)) = true.

(** What a segment that is stored does: its SDU, which has the segments [l]
    from then on, is delivered when it is full. *)
Definition am_received (e : nr_rlc_entity_am) (p : nr_rlc_pdu) (size : Z) (e' : nr_rlc_entity_am) (ev : list event) : Prop :=
  let k := modulus_rx e (pdu_sn p) in
  let l := insert_by_so p (slot e k) in
  let full := negb (head_processed l) && full_loop (-1) l in
  ev = (if full then am_event l size else []) /\
  exists c, am_moved e e' c (slot_now e k (if full then map data_freed l else l)).

(** [reception_update] once the segment is stored, in the state [e1]. *)
Lemma am_update_ok e p size rx e1 :
  am_rx_inv e -> am_sn_ok e (pdu_sn p) -> modulus_rx e (pdu_sn p) < am_window_size e -> ~ am_hangs e p ->
  am_rx_inv e1 -> e1 = {| e with am_rx_size := size; am_rx := rx; am_rx_next_highest := am_rx_next_highest e1 |} ->
  slot e1 (modulus_rx e (pdu_sn p)) = insert_by_so p (slot e (modulus_rx e (pdu_sn p))) ->
  (forall i, 0 <= i < am_window_size e -> i <> modulus_rx e (pdu_sn p) -> slot e1 i = slot e i) ->
  exists e2 ev, (let* full := sdu_full e1 (pdu_sn p) in if full then am_deliver e1 (pdu_sn p) else Ok (e1, [])) = Ok (e2, ev) /\
    am_rx_inv0 e2 /\ am_timer_weak e2 /\ am_tx_part e2 = am_tx_part e /\ am_received e p size e2 ev.
Proof.
  intros Hinv Hsn Hin Hnf Hinv1 Hfr Hk Hne. pose proof (ari_win e (ari_base e Hinv)) as Hw.
  pose proof (ari_win e1 (ari_base e1 Hinv1)) as Hw1.
  pose proof (rel_range e Hw _ Hsn) as Hkr. pose proof (at_rel e Hw _ Hsn) as Hat. unfold am_received. cbv zeta.
  set (k := modulus_rx e (pdu_sn p)) in *. set (l := insert_by_so p (slot e k)) in *.
  assert (Hat1 : sn_at e1 k = pdu_sn p) by (rewrite Hfr; exact Hat).
  assert (Htx1 : am_tx_part e1 = am_tx_part e) by by rewrite Hfr.
  assert (Hws1 : am_window_size e1 = am_window_size e) by by rewrite Hfr.
  assert (Hnow : forall l', (forall i, 0 <= i < am_window_size e -> slot_now e1 k l' i = slot_now e k l' i)).
  { intros l' i Hi. unfold slot_now. case_bool_; [done|]. apply Hne; lia. }
  assert (Hfull : sdu_full e1 (pdu_sn p) = Ok (negb (head_processed l) && full_loop (-1) l)).
  { rewrite <- Hat1, (sdu_full_at e1 k Hw1), Hk. by destruct (head_processed l). }
  rewrite Hfull. cbn [rbind]. destruct (negb (head_processed l) && full_loop (-1) l) eqn:Hb.
  - destruct (am_deliver_ok e1 k) as (e2 & ev & Hd & Hinv2 & Hweak & Htx2 & Hev & c & Hmov); [done|lia|by rewrite Hat1| |].
    + intros [Hk0 [Hhs Hall]]. apply Hnf. rewrite Hfr in Hhs, Hall. bool_hyps. split_and!.
      * rewrite <- Hat, Hk0. by apply sn_at_0.
      * split; [exact Hhs|]. intros i Hi. specialize (Hall i Hi). rewrite <- Hfr in Hall.
        unfold am_done in *. rewrite Hne in Hall by lia. done.
      * by rewrite <- Hk0.
    + rewrite Hat1 in Hd. rewrite Hk in Hev, Hmov. exists e2, ev. split_and!; try done; [congruence|by rewrite Hev, Hfr|].
      exists c. destruct Hmov as [Hc Hn Hp Hs]. rewrite Hws1 in *. split; [done| | |].
      * rewrite Hn, Hfr. done.
      * intros i Hi. rewrite <- Hnow by lia. by apply Hp.
      * intros i Hi. rewrite Hs by done. case_bool_; [|done]. apply Hnow. lia.
  - eexists _, _. split_and!; [done|apply Hinv1| |done|done|].
    + intros Hrun. left. by apply (ari_timer e1 Hinv1).
    + exists 0. apply am_moved_still; [done|by rewrite Hfr|]. intros i Hi. unfold slot_now.
      destruct (Z.eqb_spec i k) as [->|]; [done|]. by apply Hne.
Qed.

(** [reception_actions] for a segment that was just stored. *)
Lemma am_reception_ok e p size :
  am_rx_inv e -> am_pdu_ok (pdu_sn p) p -> pdu_data p <> None -> am_sn_ok e (pdu_sn p) ->
  sn_in_recv_window e (pdu_sn p) = true ->
  ~ am_hangs e p ->
  exists rx e' ev, nr_rlc_rx_manager_add_pdu (am_rx e) p = Ok rx /\
    reception_actions {| e with am_rx_size := size; am_rx := rx |} (pdu_sn p) = Ok (e', ev) /\
    am_rx_inv e' /\ am_tx_part e' = am_tx_part e /\ am_received e p size e' ev.
Proof.
  intros Hinv Hp Hd Hsn Hin Hnf.
  destruct (am_insert_ok e p size Hinv Hp Hd Hsn Hin) as (rx & e1 & -> & He1 & Hinv1 & Hfr & Hk & Hne).
  unfold sn_in_recv_window in Hin. apply Z.ltb_lt in Hin.
  destruct (am_update_ok e p size rx e1) as (e2 & ev & Hr & Hinv2 & Hweak & Htx & Hrec); try done.
  exists rx. unfold reception_actions. rewrite reception_update_deliver. cbv zeta. rewrite <- He1, Hr. cbn [rbind].
  destruct (am_timer_update_ok e2 Hinv2 Hweak) as (e3 & -> & Hinv3 & Hfr3). cbn [rbind].
  exists e3, ev. split_and!; [done|done|done| |].
  - rewrite Hfr3, am_tx_part_timer. done.
  - destruct Hrec as (Hev & c & [? ? ? ?]). split; [done|]. exists c. rewrite Hfr3. by constructor.
Qed.

(** ** Reception of a data PDU *)

Lemma am_rx_inv_same f s e :
  am_rx_inv e -> am_rx_inv {| (am_stats f e) with am_status_triggered := s |}.
Proof. intros [H ?]. constructor; [am_inv0_same H|done]. Qed.

Lemma am_rx_inv_stats f e : am_rx_inv e -> am_rx_inv (am_stats f e).
Proof. intros [H ?]. constructor; [am_inv0_same H|done]. Qed.

Lemma am_rx_inv_triggered s e : am_rx_inv e -> am_rx_inv {| e with am_status_triggered := s |}.
Proof. intros [H ?]. constructor; [am_inv0_same H|done]. Qed.

Lemma am_discard_pdu_ok e p size :
  am_rx_inv e -> am_rx_inv (am_discard_pdu e p size) /\ am_tx_part (am_discard_pdu e p size) = am_tx_part e.
Proof.
  intros Hinv. unfold am_discard_pdu. destruct p; split; try done; apply am_rx_inv_stats; [|done].
  by apply am_rx_inv_triggered.
Qed.

Lemma segment_already_received_ok e sn so size :
  am_win e -> am_sn_ok e sn -> exists b, segment_already_received e sn so size = Ok b.
Proof. intros Hw Hsn. unfold segment_already_received. rewrite (get_ok e Hw) by done. simpl. eauto. Qed.

(** What a receiver promises for one step: no failure, the invariant, and the
    transmitter left alone. *)
Definition am_rx_good (e : nr_rlc_entity_am) (r : res (nr_rlc_entity_am * list event)) : Prop :=
  exists e' ev, r = Ok (e', ev) /\ am_rx_inv e' /\ am_tx_part e' = am_tx_part e.

Lemma am_rx_good_discard e f p size :
  am_rx_inv e -> am_rx_good e (Ok (am_discard_pdu (am_stats f e) p size, [])).
Proof.
  intros Hinv. destruct (am_discard_pdu_ok (am_stats f e) p size) as [H1 H2]; [by apply am_rx_inv_stats|].
  eexists _, _. by split_and!.
Qed.

Lemma am_stats_id e : am_stats (fun s => s) e = e.
Proof. destruct e as [[] ]. done. Qed.

(** The segments that are neither dropped at once nor duplicates. *)
Definition am_segment_stored (e : nr_rlc_entity_am) (sn so data_size : Z) : bool :=
  (0 <? data_size) && (am_rx_size e + data_size <=? am_rx_maxsize e) && sn_in_recv_window e sn
  && match segment_already_received e sn so data_size with Ok b => negb b | Fail _ => false end.

Lemma am_recv_segment_cases e buffer p sn so is_first is_last byte :
  am_win e -> am_sn_ok e sn -> 0 <= byte ->
  let size := zlen buffer - byte in
  (am_segment_stored e sn so size = false /\ exists f,
    am_recv_segment e buffer p sn so is_first is_last byte
    = Ok (am_discard_pdu (am_stats f e) p (zlen buffer), [])) \/
  (am_segment_stored e sn so size = true /\ 0 < size /\ sn_in_recv_window e sn = true /\ exists data,
    zlen data = size /\ drop (Z.to_nat byte) buffer = data /\
    am_recv_segment e buffer p sn so is_first is_last byte
    = let* rx := nr_rlc_rx_manager_add_pdu (am_rx e) (mk_pdu sn (Some data) size so is_first is_last) in
      let* (e, ev) := reception_actions {| e with am_rx_size := am_rx_size e + size; am_rx := rx |} sn in
      Ok (if p then {| e with am_status_triggered := true |} else e, ev)).
Proof.
  intros Hw Hsn Hbyte size. unfold am_recv_segment, am_segment_stored. cbv zeta. fold size.
  destruct (size <=? 0) eqn:Hsz.
  { left. rewrite (proj2 (Z.ltb_ge 0 size)) by lia. split; [done|]. exists (fun s => s). by rewrite am_stats_id. }
  rewrite (proj2 (Z.ltb_lt 0 size)) by lia. simpl.
  destruct (am_rx_maxsize e <? am_rx_size e + size) eqn:Hmax.
  { left. rewrite (proj2 (Z.leb_gt _ _)) by lia. split; [done|]. exists (fun s => s). by rewrite am_stats_id. }
  rewrite (proj2 (Z.leb_le _ _)) by lia. simpl.
  destruct (sn_in_recv_window e sn) eqn:Hin; simpl; [|left; by eauto].
  destruct (segment_already_received_ok e sn so size Hw Hsn) as [b ->]. cbn [rbind].
  destruct b; simpl; [left; by eauto|]. right. split_and!; [done|lia|done|].
  rewrite buf_read_ok by lia. cbn [rbind]. set (data := take _ _).
  assert (Hlen : zlen data = size) by (subst data; rewrite zlen_take; [lia|rewrite zlen_drop; lia]).
  exists data. split_and!; [done| |].
  - subst data. replace (zlen buffer - size) with byte by lia. symmetry. apply take_ge. rewrite length_drop. unfold zlen in *. lia.
  - unfold nr_rlc_new_pdu. rewrite <- Hlen at 1. by rewrite buf_read_all.
Qed.

Lemma am_recv_segment_ok e buffer p sn so is_first is_last byte :
  am_rx_inv e -> am_sn_ok e sn -> 0 <= so -> (is_first = true <-> so = 0) -> 0 <= byte ->
  ~ am_hangs e (mk_pdu sn (Some (drop (Z.to_nat byte) buffer)) (zlen buffer - byte) so is_first is_last) ->
  am_rx_good e (am_recv_segment e buffer p sn so is_first is_last byte).
Proof.
  intros Hinv Hsn Hso Hf Hbyte Hnf.
  destruct (am_recv_segment_cases e buffer p sn so is_first is_last byte)
    as [[_ [f ->]]|(_ & Hsz & Hin & data & Hlen & <- & ->)]; [apply Hinv|done|done|by apply am_rx_good_discard|].
  set (data := drop _ _) in *. set (pdu := mk_pdu sn (Some data) (zlen buffer - byte) so is_first is_last) in *.
  destruct (am_reception_ok e pdu (am_rx_size e + (zlen buffer - byte)))
    as (rx & e' & ev & -> & Hr & Hinv' & Htx & _); try done.
  cbn [rbind]. change sn with (pdu_sn pdu) at 1. rewrite Hr. cbn [rbind]. eexists _, _. split; [done|].
  destruct p; [|done]. split; [by apply am_rx_inv_triggered|done].
Qed.

(** A data PDU is dropped for its header, or it is a segment whose fields are
    in range. *)
Lemma am_recv_data_cases e buffer d :
  am_cfg e -> dec_wf d ->
  (exists p, am_recv_data e buffer d = Ok (am_discard_pdu e p (zlen buffer), [])) \/
  (exists p sn so is_first is_last byte,
    am_recv_data e buffer d = am_recv_segment e buffer p sn so is_first is_last byte /\
    am_sn_ok e sn /\ 0 <= so /\ (is_first = true <-> so = 0) /\ 0 <= byte).
Proof.
  intros [Hlen Hmod _] Hwf. unfold am_recv_data. cbv zeta.
  destruct (get_bits_cases d 1) as (pv & d1 & -> & Hd1); [done|lia|]. cbn [rbind].
  destruct Hd1 as [->|(-> & _ & Hwf1 & _)]; [by eauto|].
  destruct (get_bits_cases d1 2) as (si & d2 & -> & Hd2); [done|lia|]. cbn [rbind].
  destruct Hd2 as [->|(-> & _ & Hwf2 & _)]; [by eauto|].
  set (first := Z.land si 2 =? 0). set (lst := Z.land si 1 =? 0). clearbody first lst.
  assert (exists v d3, (if am_sn_field_length e =? 18 then nr_rlc_pdu_decoder_get_bits d2 2 else Ok (0, d2)) = Ok (v, d3) /\
    (nr_rlc_pdu_decoder_in_error d3 = true \/ (nr_rlc_pdu_decoder_in_error d3 = false /\ dec_wf d3)))
    as (v & d3 & -> & Hd3).
  { destruct (_ =? 18).
    - destruct (get_bits_cases d2 2) as (w & d3 & -> & [?|(? & _ & ? & _)]); [done|lia|eauto 6..].
    - eexists _, _. split; [done|right]. split; [|done].
      destruct Hwf2 as (He & _). unfold nr_rlc_pdu_decoder_in_error. by rewrite He. }
  cbn [rbind]. destruct Hd3 as [->|[-> Hwf3]]; [by eauto|].
  destruct (get_bits_cases d3 (am_sn_field_length e)) as (sn & d4 & -> & Hd4); [done|lia|]. cbn [rbind].
  destruct Hd4 as [->|(-> & Hsn & Hwf4 & _)]; [by eauto|].
  assert (Hsnok : am_sn_ok e sn) by (unfold am_sn_ok; by rewrite Hmod).
  destruct first.
  { right. eexists _, _, _, _, _, _. split; [done|]. destruct Hwf4. split_and!; (done || lia). }
  destruct (get_bits_cases d4 16) as (so & d5 & -> & Hd5); [done|lia|]. cbn [rbind].
  destruct Hd5 as [->|(-> & Hso & Hwf5 & _)]; [by eauto|].
  case_bool_; [by eauto|]. right. eexists _, _, _, _, _, _. split; [done|]. destruct Hwf5. split_and!; (done || lia).
Qed.

(** ** The receiver that does not come back *)

Lemma am_hang_skip e p size :
  am_rx_inv e -> am_pdu_ok (pdu_sn p) p -> pdu_data p <> None -> am_hangs e p ->
  exists rx e1 e2 ev, nr_rlc_rx_manager_add_pdu (am_rx e) p = Ok rx /\
    e1 = raise_next_highest {| e with am_rx_size := size; am_rx := rx |} (pdu_sn p) /\
    sdu_full e1 (pdu_sn p) = Ok true /\
    reassemble_and_deliver e1 (pdu_sn p) = Ok (e2, ev) /\
    am_rx_highest_status e2 = pdu_sn p /\
    forall fuel, am_skip_delivered fuel e2 (am_rx_highest_status e2) = Fail FFuel.
Proof.
  intros Hinv Hp Hd (Hsn & [Hhs Hall] & Hfull). pose proof (ari_win e (ari_base e Hinv)) as Hw.
  pose proof (win_bounds e Hw) as [Hws HM].
  assert (Hrel : modulus_rx e (pdu_sn p) = 0) by (rewrite Hsn; by apply rel_next).
  assert (Hok : am_sn_ok e (pdu_sn p)) by (rewrite Hsn; apply Hw).
  destruct (am_insert_ok e p size Hinv Hp Hd Hok) as (rx & e1 & Hadd & He1 & Hinv1 & Hfr & Hk & Hne).
  { unfold sn_in_recv_window. lia. }
  rewrite Hrel in Hk, Hne. pose proof (ari_win e1 (ari_base e1 Hinv1)) as Hw1.
  assert (Hat1 : sn_at e1 0 = pdu_sn p) by (rewrite (sn_at_0 e1 Hw1), Hfr; simpl; by rewrite Hsn).
  assert (Hsf : sdu_full e1 (sn_at e1 0) = Ok true).
  { rewrite (sdu_full_at e1 0 Hw1). fold (am_done e1 0). rewrite (ari_next_open e1 (ari_base e1 Hinv1)), Hk. by rewrite Hfull. }
  assert (Hws1 : am_window_size e1 = am_window_size e) by by rewrite Hfr.
  destruct (am_reassemble_ok e1 0 (ari_base e1 Hinv1)) as (c & rx2 & sz & ev & e2 & Hr & He2 & Hw2 & _ & _ & _ & Hd0 & _ & Hsl);
    [lia|done|]. rewrite Hat1 in Hr, Hsf.
  exists rx, e1, e2, ev. split_and!; try done.
  - rewrite He2, Hfr. simpl. by rewrite Hhs, Hsn.
  - assert (Hwin : forall i, 0 <= i < am_window_size e -> am_done e2 i = true).
    { intros i Hi. destruct (Z.eq_dec i 0) as [->|]; [done|]. unfold am_done. rewrite Hsl, Hne by lia. apply Hall. lia. }
    assert (am_rx_highest_status e2 = sn_at e2 0) as ->.
    { rewrite (sn_at_0 e2 Hw2), He2, Hfr. simpl. done. }
    intros fuel. apply am_skip_diverges; [done|]. intros i. unfold am_done, slot.
    rewrite <- rm_slot_mod, (win_size e2 Hw2). apply Hwin.
    assert (am_window_size e2 = am_window_size e) as -> by (rewrite He2; exact Hws1).
    apply Z.mod_pos_bound. lia.
Qed.

Lemma am_hang_reception e p size :
  am_rx_inv e -> am_pdu_ok (pdu_sn p) p -> pdu_data p <> None -> am_hangs e p ->
  exists rx, nr_rlc_rx_manager_add_pdu (am_rx e) p = Ok rx /\
    reception_actions {| e with am_rx_size := size; am_rx := rx |} (pdu_sn p) = Fail FFuel.
Proof.
  intros Hinv Hp Hd Hh. destruct (am_hang_skip e p size Hinv Hp Hd Hh) as (rx & e1 & e2 & ev & -> & He1 & Hf & Hr & Hhs & Hdiv).
  exists rx. split; [done|]. unfold reception_actions. rewrite reception_update_deliver. cbv zeta. rewrite <- He1, Hf.
  cbn [rbind]. unfold am_deliver. rewrite Hr. cbn [rbind]. unfold raise_highest_status.
  rewrite (proj2 (Z.eqb_eq _ _)), Hdiv by done. done.
Qed.

(** ** A window in which nothing has been received *)

Lemma am_rx_inv_fresh e :
  am_cfg e -> am_rx e = nr_rlc_new_rx_manager (am_window_size e) ->
  am_rx_next e = 0 -> am_rx_next_status_trigger e = 0 -> am_rx_highest_status e = 0 -> am_rx_next_highest e = 0 ->
  am_t_reassembly_start e = 0 -> am_rx_inv e.
Proof.
  intros Hc Hrx Hn Ht Hs Hh Hst. pose proof (acfg_window_pos e Hc) as Hw. pose proof (acfg_window e Hc) as HM.
  destruct (new_rx_manager_ok (am_window_size e)) as [Hwf Hslot]; [lia|].
  assert (am_sn_ok e 0) by (unfold am_sn_ok; lia).
  assert (Hwin : am_win e) by (constructor; rewrite ?Hrx, ?Hn; done).
  assert (Hrel : modulus_rx e 0 = 0) by (unfold modulus_rx; by rewrite Hn).
  assert (Hsl : forall k, slot e k = []) by (intros k; unfold slot; by rewrite Hrx).
  constructor; [|intros Hrun; by rewrite Hst in Hrun].
  constructor; rewrite ?Hn, ?Ht, ?Hs, ?Hh, ?Hrel; try done; try lia.
  - intros k _. rewrite Hsl. apply slot_ok_nil.
  - unfold am_done. by rewrite Hsl.
  - unfold am_done. by rewrite Hsl.
Qed.
