(* ===== verification/RlcAmReport.v ===== *)
(** Status reporting of the NR RLC AM entity: the walk over the reception
    window ends, a status PDU fits in the grant, and the size announced to MAC
    is the size of the PDU that is generated. *)

From S2P Require Import Prelude RlcPdu RlcSdu TimeStat RlcEntity RlcUm RlcRxManager RlcAm.
From S2P Require Import RlcAmStatus RlcAmTx RlcAmRx.

(** ** Pointers into the window *)

(** The lists from entry [k] on, the number of PDUs in them. *)
Definition slots_from (e : nr_rlc_entity_am) (k : Z) : list (list nr_rlc_pdu) :=
  map (fun i => slot e (Z.of_nat i)) (seq (Z.to_nat k) (Z.to_nat (am_window_size e - k))).

Definition pdus_from (e : nr_rlc_entity_am) (k : Z) : nat := length (mjoin (slots_from e k)).

Lemma slots_from_cons e k :
  0 <= k < am_window_size e -> slots_from e k = slot e k :: slots_from e (k + 1).
Proof.
  intros Hk. unfold slots_from.
  replace (Z.to_nat (am_window_size e - k)) with (S (Z.to_nat (am_window_size e - (k + 1)))) by lia.
  simpl. replace (Z.to_nat (k + 1)) with (S (Z.to_nat k)) by lia. by rewrite Z2Nat.id by lia.
Qed.

Lemma pdus_from_cons e k :
  0 <= k < am_window_size e -> pdus_from e k = (length (slot e k) + pdus_from e (k + 1))%nat.
Proof. intros Hk. unfold pdus_from. rewrite slots_from_cons by done. simpl. by rewrite length_app. Qed.

Lemma pdus_from_le e j k :
  0 <= j <= k -> k <= am_window_size e -> (pdus_from e k <= pdus_from e j)%nat.
Proof.
  intros Hj Hk. replace k with (j + Z.of_nat (Z.to_nat (k - j))) by lia.
  assert (j + Z.of_nat (Z.to_nat (k - j)) <= am_window_size e) as Hle by lia.
  induction (Z.to_nat (k - j)) as [|n IH]; [by rewrite Z.add_0_r|].
  rewrite (pdus_from_cons e (j + Z.of_nat n)) in IH by lia. specialize (IH ltac:(lia)).
  replace (j + Z.of_nat (S n)) with (j + Z.of_nat n + 1) by lia. lia.
Qed.

(** The entries are those of the array, from its start on and around. *)
Lemma slots_rotation e :
  am_win e -> slots_from e 0 = drop (Z.to_nat (rm_start (am_rx e))) (rm_list (am_rx e))
                                ++ take (Z.to_nat (rm_start (am_rx e))) (rm_list (am_rx e)).
Proof.
  intros [Hc Hn [Hsz Hlen Hst _] Hs _]. unfold zlen in Hlen. rewrite Hs in *.
  set (l := rm_list (am_rx e)) in *. set (s := rm_start (am_rx e)) in *. set (w := am_window_size e) in *.
  apply list_eq_same_length with (n := Z.to_nat w).
  { rewrite length_app, length_drop, length_take. lia. }
  { unfold slots_from. rewrite length_map, length_seq. fold w. f_equal. lia. }
  intros i x y Hi. unfold slots_from. rewrite list_lookup_fmap, lookup_seq_lt by (fold w; lia).
  intros [= <-]. unfold slot, rm_slot. rewrite Hs. fold l s w. simpl.
  intros Hy. apply list_lookup_total_correct. rewrite <- Hy.
  destruct (Z.lt_ge_cases (s + Z.of_nat i) w).
  - rewrite Z.mod_small by lia. rewrite lookup_app_l by (rewrite length_drop; lia).
    rewrite lookup_drop. f_equal. lia.
  - rewrite <- (Z.mod_add _ (-1)), Z.mod_small by lia.
    rewrite lookup_app_r by (rewrite length_drop; lia). rewrite lookup_take_lt by (rewrite length_drop; lia).
    f_equal. rewrite length_drop. lia.
Qed.

Lemma pdus_total e : am_win e -> pdus_from e 0 = length (mjoin (rm_list (am_rx e))).
Proof.
  intros Hw. unfold pdus_from. rewrite slots_rotation by done.
  rewrite join_app, length_app, Nat.add_comm, <- length_app, <- join_app. by rewrite take_drop.
Qed.

(** [l] is a pointer to a PDU of entry [k]. *)
Definition ptr (e : nr_rlc_entity_am) (k : Z) (l : list nr_rlc_pdu) : Prop :=
  0 <= k < am_window_size e /\ l <> [] /\ exists pre, slot e k = pre ++ l.

(** The PDUs from a pointer on. *)
Definition ahead (e : nr_rlc_entity_am) (k : Z) (l : list nr_rlc_pdu) : nat := length l + pdus_from e (k + 1).

Lemma ahead_total e k l : am_win e -> ptr e k l -> (ahead e k l <= length (mjoin (rm_list (am_rx e))))%nat.
Proof.
  intros Hw (Hk & _ & pre & Hl). rewrite <- pdus_total by done. unfold ahead.
  pose proof (pdus_from_le e 0 k ltac:(lia) ltac:(lia)). rewrite (pdus_from_cons e k), Hl, length_app in H by done. lia.
Qed.

Section Walk.
Context (e : nr_rlc_entity_am) (Hinv : am_rx_inv0 e).

Let Hw := ari_win e Hinv.
Let q := modulus_rx e (am_rx_highest_status e).

Lemma q_bounds : 0 <= q <= am_window_size e /\ 2048 <= am_window_size e /\ am_sn_modulus e = 2 * am_window_size e.
Proof.
  pose proof (win_bounds e Hw). pose proof (rel_range e Hw _ (ari_hs e Hinv)). pose proof (ari_hs_pos e Hinv).
  pose proof (ari_nh_pos e Hinv). fold q in H0, H1. lia.
Qed.

Lemma q_at : sn_at e q = am_rx_highest_status e.
Proof. apply (at_rel e Hw), Hinv. Qed.

(** The last entry is used when the report goes up to the end of the window. *)
Lemma q_last : q = am_window_size e -> slot e (am_window_size e - 1) <> [].
Proof.
  intros Hq. pose proof q_bounds. pose proof (ari_hs_pos e Hinv) as Hqh. fold q in Hqh.
  pose proof (ari_nh_pos e Hinv). pose proof (ari_last e Hinv).
  replace (am_window_size e) with (modulus_rx e (am_rx_next_highest e)) by lia. auto with lia.
Qed.

Lemma sn_at_inj i j : 0 <= i < am_sn_modulus e -> 0 <= j < am_sn_modulus e -> sn_at e i = sn_at e j -> i = j.
Proof. intros Hi Hj H. rewrite <- (rel_at e Hw i), <- (rel_at e Hw j), H by done. done. Qed.

Lemma ptr_sn k cur next : ptr e k (cur :: next) -> pdu_sn cur = sn_at e k.
Proof.
  intros (Hk & _ & pre & Hl). pose proof (so_pdus _ _ (ari_slots e Hinv k Hk)) as H. rewrite Hl in H.
  apply Forall_app in H as [_ H]. inversion H as [|? ? (Hsn & _) _]; subst. done.
Qed.

Lemma find_rx_pdu_ok fuel j :
  0 <= j <= q -> q - j < Z.of_nat fuel ->
  exists i, find_rx_pdu fuel e (sn_at e j) (am_rx_highest_status e) = Ok (slot e i) /\
    j <= i <= q /\ (forall m, j <= m < i -> slot e m = []) /\ (slot e i = [] -> i = q).
Proof.
  pose proof q_bounds as (Hq & Hws & HM). revert j.
  induction fuel as [|fuel IH]; intros j Hj Hf; [lia|]. cbn [find_rx_pdu].
  rewrite (am_get_at e Hw). rewrite (rel_eqb e Hw), (rel_at e Hw) by (try lia; try apply sn_at_ok; done || apply Hinv).
  fold q. destruct (Z.eqb_spec j q) as [->|Hne].
  - exists q. split_and!; try done; lia.
  - cbn [rbind]. destruct (slot e j) as [|p l] eqn:Hs.
    + rewrite (sn_next_at e Hw). destruct (IH (j + 1)) as (i & -> & Hi & Hemp & Hlast); [lia..|].
      exists i. split_and!; try done; try lia. intros m Hm. destruct (Z.eq_dec m j) as [->|]; [done|]. apply Hemp. lia.
    + exists j. rewrite Hs. split_and!; try done; lia.
Qed.

(** A pointer the walk goes on with, or NULL. *)
Definition ptr_or_null (l : list nr_rlc_pdu) : Prop := l = [] \/ exists i, i <= q /\ ptr e i l.

Lemma ptr_slot i : 0 <= i < am_window_size e -> slot e i <> [] -> ptr e i (slot e i).
Proof. intros. split_and!; try done; try lia. by exists []. Qed.

Lemma get_first_rx_pdu_ok : exists l, get_first_rx_pdu e = Ok l /\ ptr_or_null l.
Proof.
  pose proof q_bounds as (Hq & Hws & HM). unfold get_first_rx_pdu. rewrite <- (sn_at_0 e Hw).
  destruct (find_rx_pdu_ok (am_fuel e) 0) as (i & -> & Hi & Hemp & Hlast); [lia|unfold am_fuel; lia|].
  eexists. split; [done|]. destruct (decide (slot e i = [])) as [->|Hne]; [by left|]. right.
  destruct (Z.eq_dec i (am_window_size e)) as [Heq|].
  - exfalso. apply q_last; [lia|]. apply Hemp. lia.
  - exists i. split; [lia|]. apply ptr_slot; [lia|done].
Qed.

(** The next PDU is further on, or the walk has come around to entry 0, which
    happens only from the last entry of the window. *)
Lemma get_next_rx_pdu_ok k cur next :
  ptr e k (cur :: next) -> k <= q ->
  exists l, get_next_rx_pdu e cur next = Ok l /\
    (l = [] \/ (exists i, i <= q /\ ptr e i l /\ (ahead e i l < ahead e k (cur :: next))%nat /\ k <= i)
     \/ (q = am_window_size e /\ k = am_window_size e - 1 /\ l = slot e 0 /\ l <> [])).
Proof.
  intros Hp Hkq. pose proof q_bounds as (Hq & Hws & HM). pose proof Hp as (Hk & _ & pre & Hl).
  unfold get_next_rx_pdu. destruct next as [|n next].
  2:{ eexists. split; [done|]. right; left. exists k. split_and!; [done| |unfold ahead; simpl; lia|lia].
      split_and!; [lia|lia|done|]. exists (pre ++ [cur]). by rewrite <- app_assoc. }
  rewrite (ptr_sn k cur []) by done.
  rewrite (rel_eqb e Hw), (rel_at e Hw) by (try lia; try apply sn_at_ok; done || apply Hinv).
  fold q. destruct (Z.eqb_spec k q) as [->|Hne]; [eexists; split; [done|by left]|].
  rewrite (sn_next_at e Hw).
  destruct (find_rx_pdu_ok (am_fuel e) (k + 1)) as (i & -> & Hi & Hemp & Hlast); [lia|unfold am_fuel; lia|].
  eexists. split; [done|]. destruct (decide (slot e i = [])) as [->|Hnil]; [by left|]. right.
  destruct (Z.eq_dec i (am_window_size e)) as [->|].
  - right. split; [lia|]. rewrite (slot_window e Hw) in *. split_and!; try done; try lia.
    destruct (Z.eq_dec k (am_window_size e - 1)); [done|]. exfalso. apply q_last; [lia|]. apply Hemp. lia.
  - left. exists i. split_and!; [lia|by apply ptr_slot; [lia|]| |lia]. unfold ahead.
    pose proof (pdus_from_le e (k + 1) i ltac:(lia) ltac:(lia)).
    rewrite (pdus_from_cons e i) in H by lia. simpl. lia.
Qed.

(** What a report is about: two sequence numbers, and where to go on. *)
Definition missing_ok (m : missing_data_t) : Prop :=
  am_sn_ok e (md_sn_start m) /\ am_sn_ok e (md_sn_end m) /\ ptr_or_null (md_next m).

Lemma sn_next_range a : am_sn_ok e a -> am_sn_ok e (sn_next e a).
Proof. intros Ha. rewrite (sn_next_ok e Hw) by done. by apply sn_at_ok. Qed.

Lemma sn_prev_range a : am_sn_ok e a -> am_sn_ok e (sn_prev e a).
Proof.
  pose proof (q_bounds) as (_ & _ & HM). unfold am_sn_ok, sn_prev. intros.
  rewrite Z.rem_mod_nonneg by lia. apply Z.mod_pos_bound. lia.
Qed.

Lemma set_end_ok sn so k cur next :
  am_sn_ok e sn -> k <= q -> ptr e k (cur :: next) ->
  missing_ok (set_end_different_sdu e sn so cur (cur :: next)).
Proof.
  intros Hsn Hkq Hp. unfold set_end_different_sdu. rewrite (ptr_sn k cur next) by done.
  pose proof (sn_at_ok e Hw k) as Hk.
  destruct (pdu_is_first cur); case_bool_; split_and!; simpl; try done;
    try (by apply sn_prev_range); try (by apply sn_prev_range, Hinv); (by left) || right; by exists k.
Qed.

Lemma missing_at_end_ok k cur next max_so last_reached m :
  ptr e k (cur :: next) -> missing_at_end e cur max_so last_reached = Some m -> missing_ok m.
Proof.
  intros Hp. unfold missing_at_end. rewrite (ptr_sn k cur next) by done.
  pose proof (sn_at_ok e Hw k) as Hk. pose proof (sn_next_range _ Hk).
  assert (am_sn_ok e (last_report_sn e)) by apply sn_prev_range, Hinv.
  destruct (pdu_data cur); [destruct last_reached|]; case_bool_; try done; intros [= <-];
    split_and!; simpl; done || by left.
Qed.

Definition missing_opt_ok (o : option missing_data_t) : Prop :=
  match o with None => True | Some m => missing_ok m end.

(** The walk ends: each turn has fewer PDUs ahead, and when it comes around to
    the start of the window it stops there. *)
Lemma next_missing_loop_ok fuel k cur next max_so last_reached :
  ptr e k (cur :: next) -> k <= q -> (ahead e k (cur :: next) < fuel)%nat ->
  exists o, next_missing_loop fuel e cur next max_so last_reached = Ok o /\ missing_opt_ok o.
Proof.
  pose proof q_bounds as (Hq & Hws & HM). revert k cur next max_so last_reached.
  induction fuel as [|fuel IH]; intros k cur next max_so last_reached Hp Hkq Hf; [lia|].
  cbn [next_missing_loop]. cbv zeta.
  set (max_so' := if max_so <? _ then _ else _). set (last' := last_reached || pdu_is_last cur).
  pose proof (ptr_sn k cur next Hp) as Hsn. pose proof Hp as (Hk & _).
  destruct (get_next_rx_pdu_ok k cur next Hp Hkq) as (l & -> & Hl). cbn [rbind].
  destruct l as [|cur' next'].
  { eexists. split; [done|]. destruct (missing_at_end _ _ _ _) eqn:Hm; [|done]. by eapply missing_at_end_ok. }
  assert (exists i, i <= q /\ ptr e i (cur' :: next') /\
    ((ahead e i (cur' :: next') < ahead e k (cur :: next))%nat
     \/ i = 0 /\ q = am_window_size e /\ k = am_window_size e - 1)) as (i & Hiq & Hp' & Hstep).
  { destruct Hl as [?|[(i & ? & ? & ? & _)|(? & ? & Hl & Hnil)]]; [done|exists i; auto|].
    exists 0. split_and!; [lia| |auto]. rewrite Hl in *. apply ptr_slot; [lia|done]. }
  pose proof (ptr_sn i cur' next' Hp') as Hsn'. rewrite Hsn, Hsn'.
  pose proof (sn_at_ok e Hw k) as Hok. rewrite !(sn_next_at e Hw).
  assert (Hback : (ahead e i (cur' :: next') < ahead e k (cur :: next))%nat
                  \/ (sn_at e i =? sn_at e k) = false /\ (sn_at e i =? sn_at e (k + 1)) = false).
  { destruct Hstep as [?|(-> & _ & ->)]; [by left|right]. split; apply Z.eqb_neq; intros H; apply sn_at_inj in H; lia. }
  destruct ((sn_at e i =? sn_at e k) && _) eqn:H1.
  { apply IH with i; [done|done|]. destruct Hback as [?|[Hb _]]; [lia|]. by rewrite Hb in H1. }
  destruct ((sn_at e i =? sn_at e (k + 1)) && _ && _) eqn:H2.
  { apply IH with i; [done|done|]. destruct Hback as [?|[_ Hb]]; [lia|]. by rewrite Hb in H2. }
  assert (Hnx : ptr_or_null (cur' :: next')) by (right; by exists i).
  destruct (sn_at e i =? sn_at e k).
  { case_bool_; eexists; (split; [done|]); [done|]. by split_and!. }
  destruct last'; (case_bool_; eexists; (split; [done|]); [done|]); apply set_end_ok with i; done || by apply sn_at_ok.
Qed.

Lemma next_missing_ok l check_head :
  l <> [] -> ptr_or_null l -> exists o, next_missing e l check_head = Ok o /\ missing_opt_ok o.
Proof.
  intros Hnil [?|(k & Hk & Hp)]; [done|]. destruct l as [|cur next]; [done|]. unfold next_missing.
  case_bool_.
  - case_bool_; eexists; (split; [done|]); [done|]. apply set_end_ok with k; [apply Hw|done|done].
  - apply next_missing_loop_ok with k; [done|done|]. unfold missing_fuel.
    pose proof (ahead_total e k (cur :: next) Hw Hp). lia.
Qed.
End Walk.

(** ** NACKs *)

(** The encoder is at a byte boundary inside of the grant, and the addresses
    remembered are behind it. *)
Record mout_ok (len size : Z) (o : missing_out) : Prop := {
  mo_wf : enc_wf (mo_enc o);
  mo_aligned : enc_bit (mo_enc o) = 0;
  mo_size : enc_size (mo_enc o) = size;
  mo_len : zlen (enc_buffer (mo_enc o)) = len;
  mo_room : 3 <= enc_byte (mo_enc o) <= size;
  mo_e1_ok : 0 <= fst (mo_e1 o) < enc_byte (mo_enc o);
  mo_addr : match mo_so_end o with None => True | Some a => 0 <= a /\ a + 2 <= enc_byte (mo_enc o) end
}.

Lemma buf_or_ok buf i v :
  0 <= i < zlen buf -> exists buf', buf_or buf i v = Ok buf' /\ zlen buf' = zlen buf.
Proof.
  intros Hi. unfold buf_or, zlen in *.
  destruct (lookup_lt_is_Some_2 buf (Z.to_nat i)) as [old ->]; [lia|]. simpl.
  eexists. split; [done|]. by rewrite length_insert.
Qed.

(** A field of an encoder with room for it. *)
Lemma put_bits_room enc v n :
  enc_wf enc -> 0 <= n <= 31 -> enc_pos enc + n <= 8 * enc_size enc ->
  exists enc', nr_rlc_pdu_encoder_put_bits enc v n = Ok enc' /\ enc_wf enc' /\
    enc_pos enc' = enc_pos enc + n /\ enc_size enc' = enc_size enc /\
    zlen (enc_buffer enc') = zlen (enc_buffer enc).
Proof.
  intros Hwf Hn Hroom. destruct (put_bits_ok enc v n Hwf Hn Hroom) as (enc' & ? & ? & _ & ? & ? & Hl).
  exists enc'. unfold zlen. by rewrite Hl.
Qed.

Ltac put_field := match goal with
  | |- context [nr_rlc_pdu_encoder_put_bits ?enc ?v ?n] =>
      let enc' := fresh "enc" in let Hp := fresh "Hp" in let Hs := fresh "Hs" in let Hl := fresh "Hl" in
      destruct (put_bits_room enc v n) as (enc' & -> & ? & Hp & Hs & Hl);
      [done|lia|lia|]; cbn [rbind]
  end.

(** The optional fields of a NACK. *)
Lemma put_so_ok enc v1 v2 (present : bool) :
  enc_wf enc -> enc_pos enc + (if present then 32 else 0) <= 8 * enc_size enc ->
  exists enc' a,
    (if present then
       let* enc := nr_rlc_pdu_encoder_put_bits enc v1 16 in
       let* enc' := nr_rlc_pdu_encoder_put_bits enc v2 16 in Ok (enc', Some (enc_byte enc))
     else Ok (enc, None)) = Ok (enc', a) /\ enc_wf enc' /\
    enc_pos enc' = enc_pos enc + (if present then 32 else 0) /\ enc_size enc' = enc_size enc /\
    zlen (enc_buffer enc') = zlen (enc_buffer enc) /\
    match a with None => True | Some a => 0 <= a /\ 8 * (a + 2) <= enc_pos enc' end.
Proof.
  intros Hwf Hroom. destruct present.
  - do 2 put_field. eexists _, _. split_and!; try done; try lia.
    all: destruct H as (? & ? & ?); unfold enc_pos in *; lia.
  - eexists _, _. split_and!; try done. lia.
Qed.

Lemma put_opt_ok enc v n (present : bool) :
  enc_wf enc -> 0 <= n <= 31 -> enc_pos enc + (if present then n else 0) <= 8 * enc_size enc ->
  exists enc', (if present then nr_rlc_pdu_encoder_put_bits enc v n else Ok enc) = Ok enc' /\ enc_wf enc' /\
    enc_pos enc' = enc_pos enc + (if present then n else 0) /\ enc_size enc' = enc_size enc /\
    zlen (enc_buffer enc') = zlen (enc_buffer enc).
Proof.
  intros Hwf Hn Hroom. destruct present; [by apply put_bits_room|]. exists enc. split_and!; try done. lia.
Qed.

Lemma nack_size_pos e n : 2 <= nack_size e n.
Proof. unfold nack_size. cbv zeta. repeat case_bool_; lia. Qed.

Lemma nack_size_bits e n :
  am_cfg e ->
  8 * nack_size e n = am_sn_field_length e + 3 + (if am_sn_field_length e =? 18 then 3 else 1)
    + (if (md_so_start n =? 0) && (md_so_end n =? 0xffff) then 0 else 16 * 2)
    + (if md_sn_start n =? md_sn_end n then 0 else 8).
Proof. intros [[Hl|Hl] _ _]; unfold nack_size; rewrite Hl; simpl; repeat case_bool_; lia. Qed.

Lemma put_nack_ok e n c o len size :
  am_cfg e -> mout_ok len size o -> enc_byte (mo_enc o) + nack_size e n <= size ->
  exists o', put_nack e n c o = Ok o' /\ mout_ok len size o' /\
    enc_byte (mo_enc o') = enc_byte (mo_enc o) + nack_size e n /\ mo_truncated o' = mo_truncated o.
Proof.
  intros Hc [Hwf Hal Hsz Hln Hrm He1 Had] Hroom. pose proof (nack_size_bits e n Hc) as Hbits.
  pose proof (nack_size_pos e n) as Hpos. destruct Hc as [Hlen _ _].
  unfold put_nack. cbv zeta. set (whole := (md_so_start n =? 0) && _) in *.
  assert (0 <= enc_size (mo_enc o) <= zlen (enc_buffer (mo_enc o))) as Hzl by (destruct Hwf as (? & ? & ?); lia).
  destruct (buf_or_ok (enc_buffer (mo_enc o)) (fst (mo_e1 o)) (Z.shiftl 1 (snd (mo_e1 o)))) as (buf & -> & Hb); [lia|].
  cbn [rbind]. set (enc := {| (mo_enc o) with enc_buffer := buf |}).
  assert (Hwf0 : enc_wf enc) by (destruct Hwf as (? & ? & ?); split_and!; simpl; lia).
  assert (Hpos0 : enc_pos enc = 8 * enc_byte (mo_enc o)) by (unfold enc_pos; simpl; lia).
  assert (Hsz0 : enc_size enc = size) by done. assert (Hl0 : zlen (enc_buffer enc) = len) by (simpl; lia).
  assert (Hed : fst (get_e1_position e enc) < enc_byte (mo_enc o) + nack_size e n
                /\ 0 <= fst (get_e1_position e enc)).
  { unfold get_e1_position. simpl. destruct (_ =? 18); simpl; [|lia]. revert Hbits. repeat case_bool_; lia. }
  clearbody enc. revert Hbits.
  set (r := if am_sn_field_length e =? 18 then 3 else 1). set (a := if whole then 0 else 16 * 2).
  set (b := if md_sn_start n =? md_sn_end n then 0 else 8). intros Hbits.
  assert (Hr : r = 1 \/ r = 3) by (subst r; case_bool_; lia).
  assert (Hae : a = if negb whole then 32 else 0) by (by destruct whole).
  assert (Hbe : b = if negb (md_sn_start n =? md_sn_end n) then 8 else 0) by (by destruct (md_sn_start n =? md_sn_end n)).
  assert (Hab : 0 <= a /\ 0 <= b) by (rewrite Hae, Hbe; repeat case_bool_; lia).
  clearbody r a b. do 5 put_field.
  destruct (put_so_ok enc4 (md_so_start n) (md_so_end n) (negb whole)) as (enc5 & so & -> & Hw5 & Hp5 & Hs5 & Hl5 & Hso);
    [done|lia|]. cbn [rbind].
  destruct (put_opt_ok enc5 c 8 (negb (md_sn_start n =? md_sn_end n))) as (enc6 & -> & Hw6 & Hp6 & Hs6 & Hl6); [done|lia..|].
  cbn [rbind].
  assert (Hend : enc_bit enc6 = 0 /\ enc_byte enc6 = enc_byte (mo_enc o) + nack_size e n).
  { destruct Hw6 as (? & ? & ?). unfold enc_pos in *. lia. }
  eexists. split; [done|]. split; [|split; [apply Hend|done]]. constructor; simpl; try done; try lia.
  destruct so; [|done]. unfold enc_pos in *. lia.
Qed.

(** ** The PDU and its announced size *)

Lemma nack_bits_quot e n :
  am_cfg e ->
  Z.quot (am_sn_field_length e + 3 + (if am_sn_field_length e =? 18 then 3 else 1)
          + (if (md_so_start n =? 0) && (md_so_end n =? 0xffff) then 0 else 16 * 2)
          + (if md_sn_start n =? md_sn_end n then 0 else 8)) 8 = nack_size e n.
Proof. intros Hc. rewrite <- nack_size_bits by done. rewrite Z.mul_comm. by apply Z.quot_mul. Qed.

(** One report: what is written and what is counted agree, and a report that is
    not cut short writes at least one NACK. *)
Lemma generate_missing_loop_ok fuel e m sn_start sn_count o len size ranges :
  am_cfg e -> mout_ok len size o -> mo_truncated o = false -> 0 <= sn_count <= Z.of_nat fuel ->
  exists o' ranges', generate_missing_loop fuel e m sn_start sn_count o = Ok o' /\ mout_ok len size o' /\
    missing_size_loop fuel e m sn_start sn_count (enc_byte (mo_enc o)) ranges size
    = Ok (enc_byte (mo_enc o'), ranges', mo_truncated o') /\
    ranges <= ranges' /\ enc_byte (mo_enc o) <= enc_byte (mo_enc o') /\
    (0 < sn_count -> mo_truncated o' = false -> ranges < ranges' /\ enc_byte (mo_enc o) < enc_byte (mo_enc o')).
Proof.
  intros Hc. revert sn_start sn_count o ranges.
  induction fuel as [|fuel IH]; intros sn_start sn_count o ranges Ho Ht Hcount; simpl.
  { rewrite (proj2 (Z.eqb_eq _ _)) by lia. exists o, ranges. rewrite Ht. split_and!; (done || lia). }
  destruct (sn_count =? 0) eqn:Hz.
  { exists o, ranges. rewrite Ht. split_and!; (done || lia). }
  destruct (nack_piece e m sn_start sn_count) as [c n] eqn:Hpiece.
  assert (Hcr : 1 <= c <= sn_count).
  { unfold nack_piece in Hpiece. case_match; simplify_eq; case_bool_; lia. }
  rewrite (mo_size _ _ _ Ho). destruct (size <? enc_byte (mo_enc o) + nack_size e n) eqn:Hsz.
  - eexists _, _. split; [done|]. split; [by destruct Ho; constructor|]. split; [done|]. simpl. split_and!; (done || lia).
  - destruct (put_nack_ok e n c o len size Hc Ho) as (o1 & -> & Ho1 & Hb1 & Ht1); [lia|]. cbn [rbind].
    rewrite nack_bits_quot, <- Hb1 by done. pose proof (nack_size_pos e n).
    destruct (IH (Z.rem (sn_start + c) (am_sn_modulus e)) (sn_count - c) o1 (ranges + 1))
      as (o2 & r2 & -> & Ho2 & -> & Hr2 & Hb2 & _); [done|congruence|lia|].
    exists o2, r2. split_and!; (done || lia).
Qed.

Lemma missing_count_pos e m :
  am_win e -> am_sn_ok e (md_sn_start m) -> am_sn_ok e (md_sn_end m) -> 0 < missing_count e m.
Proof.
  intros Hw. pose proof (win_bounds e Hw). unfold am_sn_ok, missing_count. intros.
  rewrite Z.rem_mod_nonneg by lia.
  pose proof (Z.mod_pos_bound (md_sn_end m - md_sn_start m + am_sn_modulus e) (am_sn_modulus e)). lia.
Qed.

Lemma generate_missing_ok e m o len size :
  am_rx_inv0 e -> missing_ok e m -> mout_ok len size o ->
  exists o' count, generate_missing e m o = Ok o' /\ mout_ok len size o' /\
    missing_size e m (enc_byte (mo_enc o)) size = Ok (enc_byte (mo_enc o'), count, mo_truncated o') /\
    0 <= count /\ (mo_truncated o' = false -> 0 < count /\ enc_byte (mo_enc o) < enc_byte (mo_enc o')).
Proof.
  intros Hinv (Hs & He & _) Ho. pose proof (ari_win e Hinv) as Hw.
  pose proof (missing_count_pos e m Hw Hs He) as Hpos.
  unfold generate_missing, missing_size. set (o0 := {| o with mo_truncated := false; mo_last_nack := -1 |}).
  assert (Ho0 : mout_ok len size o0) by (destruct Ho; by constructor).
  destruct (generate_missing_loop_ok (Z.to_nat (missing_count e m)) e m (md_sn_start m) (missing_count e m) o0 len size 0)
    as (o' & r & Hg & Ho' & Hm & Hr & Hb & Hp); [apply Hw|done|done|lia|].
  exists o', r. split_and!; try done. intros Ht. destruct (Hp Hpos Ht). done.
Qed.

(** The address of [so_end] is overwritten when the report was cut short. *)
Lemma so_end_rewrite_ok o len size :
  mout_ok len size o ->
  exists buf,
    match mo_truncated o, mo_so_end o with
    | true, Some a => buf_write (enc_buffer (mo_enc o)) a [0xff; 0xff]
    | _, _ => Ok (enc_buffer (mo_enc o))
    end = Ok buf /\ zlen buf = len.
Proof.
  intros Ho. destruct (mo_truncated o); [|by exists (enc_buffer (mo_enc o)); destruct Ho].
  pose proof (mo_addr _ _ _ Ho) as Ha. destruct (mo_so_end o) as [a|]; [|by exists (enc_buffer (mo_enc o)); destruct Ho].
  destruct Ho as [(? & ? & ?) ? Hs Hl ? _ _].
  destruct (buf_write (enc_buffer (mo_enc o)) a [255; 255]) as [buf|] eqn:Hb.
  - exists buf. split; [done|]. unfold zlen in *. by rewrite (buf_write_length _ _ _ _ Hb).
  - unfold buf_write in Hb. change (zlen [255; 255]) with 2 in Hb.
    by rewrite (proj2 (Z.leb_le 0 a)), (proj2 (Z.leb_le _ (zlen _))) in Hb by lia.
Qed.

Lemma mout_ok_buffer o len size buf n :
  mout_ok len size o -> zlen buf = len ->
  mout_ok len size {| o with mo_enc := {| (mo_enc o) with enc_buffer := buf |}; mo_last_nack := n |}.
Proof.
  intros [(? & ? & ?) ? ? ? ? ? ?] Hb. constructor; simpl; try done. split_and!; simpl; (done || lia).
Qed.

Lemma status_loop_ok fuel e cur o len size nacks :
  am_rx_inv0 e -> mout_ok len size o -> ptr_or_null e cur -> size - enc_byte (mo_enc o) < Z.of_nat fuel -> 0 <= nacks ->
  exists o', status_loop fuel e cur (nacks =? 0) o = Ok o' /\ mout_ok len size o' /\
    status_size_loop fuel e cur nacks (enc_byte (mo_enc o)) size = Ok (enc_byte (mo_enc o')).
Proof.
  intros Hinv. revert cur o nacks.
  induction fuel as [|fuel IH]; intros cur o nacks Ho Hcur Hf Hn.
  { destruct Ho. lia. }
  destruct cur as [|p l]; [by exists o|]. cbn [status_loop status_size_loop].
  destruct (next_missing_ok e Hinv (p :: l) (nacks =? 0)) as (m & -> & Hm); [done|done|]. cbn [rbind].
  destruct m as [m|]; [|by exists o].
  destruct (generate_missing_ok e m o len size Hinv Hm Ho) as (o1 & count & -> & Ho1 & -> & Hc & Hp). cbn [rbind].
  destruct (so_end_rewrite_ok o1 len size Ho1) as (buf & -> & Hbuf). cbn [rbind].
  set (ln := if mo_last_nack o1 =? -1 then _ else _).
  pose proof (mout_ok_buffer o1 len size buf ln Ho1 Hbuf) as Ho2.
  set (o2 := {| o1 with mo_enc := {| (mo_enc o1) with enc_buffer := buf |}; mo_last_nack := ln |}) in *.
  change (enc_byte (mo_enc o1)) with (enc_byte (mo_enc o2)). change (enc_byte (mo_enc o1)) with (enc_byte (mo_enc o2)) in Hp. cbv zeta.
  destruct (mo_truncated o1).
  - exists o2. split_and!; try done; destruct fuel; done.
  - destruct (Hp eq_refl) as [Hpc Hpb].
    destruct (IH (md_next m) o2 (nacks + count)) as (o3 & H1 & Ho3 & H2); [done|apply Hm|lia|lia|].
    assert ((nacks + count =? 0) = false) as Hz by lia. rewrite Hz in H1. exists o3. by split_and!.
Qed.

Lemma put_ack_sn_ok e buf a :
  am_cfg e -> 3 <= zlen buf -> exists buf', put_ack_sn e buf a = Ok buf' /\ zlen buf' = zlen buf.
Proof.
  intros [Hl _ _] Hb. unfold put_ack_sn.
  assert (forall x y, exists buf', buf_write buf 0 [x; y] = Ok buf' /\ zlen buf' = zlen buf) as Hwr.
  { intros x y. destruct (buf_write buf 0 [x; y]) as [buf'|] eqn:H.
    - exists buf'. split; [done|]. unfold zlen. by rewrite (buf_write_length _ _ _ _ H).
    - unfold buf_write in H. change (zlen [x; y]) with 2 in H. by rewrite (proj2 (Z.leb_le _ (zlen _))) in H by lia. }
  destruct Hl as [-> | ->]; simpl; [apply Hwr|].
  destruct (Hwr (u8 (Z.shiftr a 14)) (Z.land (Z.shiftr a 6) 255)) as (b1 & -> & Hb1). cbn [rbind]. rewrite <- Hb1.
  apply buf_or_ok. lia.
Qed.

(** A status PDU: it fits in the grant, and its size is the one announced. *)
Lemma generate_status_ok e buffer size :
  am_rx_inv e -> size <= zlen buffer ->
  exists e' buf n, generate_status e buffer size = Ok (e', buf, n) /\ status_size e size = Ok n /\
    0 <= n /\ (n <= size \/ n = 0) /\ (3 <= size -> 3 <= n) /\ zlen buf = zlen buffer /\ am_rx_inv e' /\ am_tx_part e' = am_tx_part e /\
    (3 <= size -> am_status_triggered e' = false).
Proof.
  intros [Hinv Ht] Hsize. unfold generate_status, status_size.
  destruct (size <? 3) eqn:Hs.
  { eexists _, _, _. split_and!; done || lia. }
  change (8 * 3) with 24. destruct (put_bits_room (nr_rlc_pdu_encoder_init buffer size) 0 24) as (enc & -> & Hwf & Hp & Hsz & Hl).
  { by apply encoder_init_wf. } { lia. } { unfold enc_pos. simpl. lia. }
  cbn [rbind]. destruct (get_first_rx_pdu_ok e Hinv) as (cur & -> & Hcur). cbn [rbind].
  unfold enc_pos in Hp. simpl in Hp, Hsz, Hl.
  assert (enc_byte enc = 3 /\ enc_bit enc = 0) as [Hb Hbit] by (destruct Hwf as (? & ? & ?); lia).
  match goal with |- context [status_loop _ _ _ _ ?x] => set (o := x) end.
  assert (Ho : mout_ok (zlen buffer) size o).
  { constructor; simpl; try done; lia. }
  destruct (status_loop_ok (Z.to_nat size) e cur o (zlen buffer) size 0 Hinv Ho Hcur) as (o' & Hg & Ho' & Hst); [simpl; lia|lia|].
  simpl (0 =? 0) in Hg. rewrite Hg. cbn [rbind].
  destruct (put_ack_sn_ok e (enc_buffer (mo_enc o')) (Z.rem (mo_last_nack o' + 1) (am_sn_modulus e)))
    as (buf & -> & Hbuf); [apply Hinv|destruct Ho' as [(? & ? & ?)]; lia|]. cbn [rbind].
  simpl in Hst. rewrite Hb in Hst. destruct Ho' as [? ? ? Hlen [Hlo Hhi] ? ?].
  eexists _, buf, (enc_byte (mo_enc o')).
  split_and!; try done; try lia. constructor; [am_inv0_same Hinv|exact Ht].
Qed.
