(* ===== verification/RlcAmStore.v ===== *)
(** The store of the NR RLC AM transmitter: its segments, shared out over three
    lists, are disjoint parts of live SDUs, and an SDU is freed only with the
    last of them. *)

From S2P Require Import Prelude RlcPdu RlcSdu TimeStat RlcEntity RlcUm RlcRxManager RlcAm.
From S2P Require Import RlcAmStatus RlcAmTx RlcAmRx.

(** A segment of a live SDU. *)
Definition seg_fits (h : rlc_heap) (seg : nr_rlc_sdu_segment) : Prop :=
  exists s, heap_sdus h !! seg_sdu seg = Some s /\
    0 <= seg_so seg /\ 0 < seg_size seg /\ seg_so seg + seg_size seg <= zlen (sdu_data s) /\
    zlen (sdu_data s) <= NR_SDU_MAX /\
    (seg_is_first seg = true <-> seg_so seg = 0) /\
    (seg_is_last seg = true <-> seg_so seg + seg_size seg = zlen (sdu_data s)) /\
    (seg_addr seg < heap_brk h)%nat /\ (seg_sdu seg < heap_brk h)%nat.

Lemma fits_bytes_len h seg : seg_fits h seg -> zlen (seg_bytes h seg) = seg_size seg.
Proof.
  intros (s & Hs & ? & ? & ? & _). unfold seg_bytes. rewrite (proj2 (heap_get_lookup _ _ _) Hs).
  rewrite zlen_take; [lia|]. rewrite zlen_drop by lia. lia.
Qed.

(** Two segments share no byte. *)
Definition seg_apart (s t : nr_rlc_sdu_segment) : Prop :=
  seg_sdu s <> seg_sdu t \/ seg_so s + seg_size s <= seg_so t \/ seg_so t + seg_size t <= seg_so s.

Definition of_sdu (a : nat) (seg : nr_rlc_sdu_segment) : Z := if bool_decide (seg_sdu seg = a) then 1 else 0.

Record store_ok (h : rlc_heap) (l : list nr_rlc_sdu_segment) : Prop := {
  st_fits : Forall (seg_fits h) l;
  st_addr : NoDup (map seg_addr l);
  st_apart : ForallOrdPairs seg_apart l;
  st_count : forall a s, heap_sdus h !! a = Some s -> zsum (of_sdu a) l <= sdu_ref_count s - sdu_free_count s
}.

Lemma seg_apart_sym s t : seg_apart s t -> seg_apart t s.
Proof. unfold seg_apart. intros [?|[?|?]]; auto. Qed.

Lemma apart_perm l k : l ≡ₚ k -> ForallOrdPairs seg_apart l -> ForallOrdPairs seg_apart k.
Proof.
  induction 1 as [|x l k Hp IH|x y l|l1 l2 l3 _ IH1 _ IH2]; intros H; auto.
  - inversion H; subst. constructor; [by rewrite <- Hp|auto].
  - inversion H as [|? ? Hy H1]; subst. inversion H1 as [|? ? Hx H2]; subst. inversion Hy; subst.
    constructor; [constructor; [by apply seg_apart_sym|done]|by constructor].
Qed.

Lemma store_ok_perm h l k : l ≡ₚ k -> store_ok h l -> store_ok h k.
Proof.
  intros Hp [Hf Ha Hd Hc]. split.
  - by rewrite <- Hp.
  - by rewrite <- Hp.
  - by eapply apart_perm.
  - intros a s Hs. rewrite <- (zsum_perm _ _ _ Hp). auto.
Qed.

#[export] Instance store_ok_proper h : Proper ((≡ₚ) ==> iff) (store_ok h).
Proof. intros l k Hp. split; by apply store_ok_perm. Qed.

Lemma of_sdu_nonneg a l : 0 <= zsum (of_sdu a) l.
Proof. apply zsum_nonneg, Forall_forall. intros s _. unfold of_sdu. case_bool_; lia. Qed.

Lemma store_ok_tail h seg l : store_ok h (seg :: l) -> store_ok h l.
Proof.
  intros [Hf Ha Hd Hc]. apply Forall_cons in Hf as [_ Hf]. apply NoDup_cons in Ha as [_ Ha]. inversion Hd; subst.
  split; try done. intros a s Hs. specialize (Hc a s Hs). simpl in Hc. unfold of_sdu at 1 in Hc.
  revert Hc. case_bool_; lia.
Qed.

Lemma store_ok_app_r h k l : store_ok h (k ++ l) -> store_ok h l.
Proof. induction k; simpl; [done|]. intros H%store_ok_tail. auto. Qed.

(** What a change of the store must keep of an SDU. *)
Definition sdu_same (s s' : nr_rlc_sdu) : Prop :=
  sdu_data s' = sdu_data s /\ sdu_sn s' = sdu_sn s.

(** [h'] has every SDU that a segment of [l] points to, with the same data and
    sequence number. *)
Definition heap_keeps (l : list nr_rlc_sdu_segment) (h h' : rlc_heap) : Prop :=
  (heap_brk h <= heap_brk h')%nat /\
  forall seg s, seg ∈ l -> heap_sdus h !! seg_sdu seg = Some s ->
    exists s', heap_sdus h' !! seg_sdu seg = Some s' /\ sdu_same s s'.

Lemma heap_keeps_refl l h : heap_keeps l h h.
Proof. split; [done|]. intros seg s _ Hs. exists s. by split_and!. Qed.

Lemma heap_keeps_trans l h1 h2 h3 : heap_keeps l h1 h2 -> heap_keeps l h2 h3 -> heap_keeps l h1 h3.
Proof.
  intros [? H12] [? H23]. split; [lia|]. intros seg s Hl Hs.
  destruct (H12 seg s Hl Hs) as (s2 & Hs2 & ? & ?). destruct (H23 seg s2 Hl Hs2) as (s3 & Hs3 & ? & ?).
  exists s3. split_and!; [done|split; congruence].
Qed.

Lemma heap_keeps_sub l k h h' : (forall s, s ∈ k -> s ∈ l) -> heap_keeps l h h' -> heap_keeps k h h'.
Proof. intros Hk [Hb H]. split; [done|]. intros seg s Hs. apply H. auto. Qed.

Lemma seg_fits_keeps l h h' seg : heap_keeps l h h' -> seg ∈ l -> seg_fits h seg -> seg_fits h' seg.
Proof.
  intros [Hb H] Hl (s & Hs & Hr). destruct (H seg s Hl Hs) as (s' & Hs' & Hd & _).
  exists s'. rewrite Hd. intuition lia.
Qed.

Lemma fits_keeps l h h' : heap_keeps l h h' -> Forall (seg_fits h) l -> Forall (seg_fits h') l.
Proof.
  intros Hk Hl. rewrite Forall_forall in *. intros seg Hseg. by eapply seg_fits_keeps; [..|apply Hl].
Qed.

(** The sequence number of a segment, -1 before it is assigned. *)
Definition sn_of (h : rlc_heap) (seg : nr_rlc_sdu_segment) : Z :=
  match heap_sdus h !! seg_sdu seg with Some s => sdu_sn s | None => -1 end.

Lemma sn_of_keeps l h h' seg : heap_keeps l h h' -> seg ∈ l -> seg_fits h seg -> sn_of h' seg = sn_of h seg.
Proof.
  intros [_ H] Hl (s & Hs & _). destruct (H seg s Hl Hs) as (s' & Hs' & _ & Hsn).
  unfold sn_of. by rewrite Hs, Hs'.
Qed.

Lemma seg_sn_ok h seg : seg_fits h seg -> seg_sn h seg = Ok (sn_of h seg).
Proof. intros (s & Hs & _). unfold seg_sn, sn_of, heap_get. by rewrite Hs. Qed.

(** An SDU is updated in place: not its data, and not the numbers of its
    segments. *)
Lemma store_ok_set h l a s s' :
  heap_sdus h !! a = Some s -> sdu_data s' = sdu_data s ->
  sdu_ref_count s' - sdu_free_count s' = sdu_ref_count s - sdu_free_count s ->
  store_ok h l -> store_ok (heap_set h a s') l.
Proof.
  intros Hs Hd Hc [Hf Ha Hp Hn]. split; try done.
  - eapply Forall_impl; [exact Hf|]. intros seg (t & Ht & Hr). destruct (decide (seg_sdu seg = a)) as [Heq|Hne].
    + exists s'. rewrite Heq, Hs in Ht. injection Ht as <-. rewrite Heq, heap_set_lookup, Hd.
      by rewrite Heq in Hr.
    + exists t. split; [|exact Hr]. simpl. by rewrite lookup_insert_ne by congruence.
  - intros b t. simpl. destruct (decide (b = a)) as [->|Hne].
    + rewrite lookup_insert_eq. intros [= <-]. rewrite Hc. auto.
    + rewrite lookup_insert_ne by congruence. auto.
Qed.

Lemma heap_keeps_set h l a s s' :
  heap_sdus h !! a = Some s -> sdu_same s s' -> heap_keeps l h (heap_set h a s').
Proof.
  intros Hs Hsame. split; [done|]. intros seg t _ Ht. simpl. destruct (decide (seg_sdu seg = a)) as [Heq|Hne].
  - rewrite Heq in Ht |- *. rewrite lookup_insert_eq. exists s'. split; [done|]. congruence.
  - rewrite lookup_insert_ne by congruence. exists t. by split_and!.
Qed.

(** A segment is freed, its SDU with it when it was the last one. *)
Lemma store_free h seg l :
  store_ok h (seg :: l) ->
  exists h' r, nr_rlc_free_sdu_segment h seg = Ok (h', r) /\ store_ok h' l /\ heap_keeps l h h' /\
    heap_brk h' = heap_brk h.
Proof.
  intros [Hf Ha Hp Hn]. apply Forall_cons in Hf as [(s & Hs & _) Hf]. apply NoDup_cons in Ha as [_ Ha].
  inversion Hp as [|? ? _ Hp']; subst.
  assert (Hcount : zsum (of_sdu (seg_sdu seg)) l <= sdu_ref_count s - (sdu_free_count s + 1)).
  { specialize (Hn _ _ Hs). simpl in Hn. unfold of_sdu at 1 in Hn. rewrite bool_decide_true in Hn by done. lia. }
  assert (Hother : forall b t, b <> seg_sdu seg -> heap_sdus h !! b = Some t ->
    zsum (of_sdu b) l <= sdu_ref_count t - sdu_free_count t).
  { intros b t Hb Ht. specialize (Hn _ _ Ht). simpl in Hn. unfold of_sdu at 1 in Hn.
    rewrite bool_decide_false in Hn by congruence. lia. }
  unfold nr_rlc_free_sdu_segment. rewrite (proj2 (heap_get_lookup _ _ _) Hs). cbn [rbind].
  cbn [sdu_free_count sdu_ref_count]. destruct (_ =? _) eqn:Heq.
  - set (h' := {| h with heap_sdus := delete (seg_sdu seg) (heap_sdus h) |}).
    assert (Hnone : forall t, t ∈ l -> seg_sdu t <> seg_sdu seg).
    { intros t Ht Hsdu. assert (zsum (of_sdu (seg_sdu seg)) l <= 0) as H0 by lia.
      apply list_elem_of_split in Ht as (l1 & l2 & ->). rewrite zsum_app in H0. simpl in H0.
      unfold of_sdu at 2 in H0. rewrite bool_decide_true in H0 by done.
      pose proof (of_sdu_nonneg (seg_sdu seg) l1). pose proof (of_sdu_nonneg (seg_sdu seg) l2). lia. }
    assert (Hk : heap_keeps l h h').
    { split; [done|]. intros t u Ht Hu. exists u. split; [|by split]. simpl.
      rewrite lookup_delete_ne; [done|]. intros H. by apply (Hnone t Ht). }
    exists h', 1. split_and!; try done. split; try done.
    + by eapply fits_keeps.
    + intros b t. simpl. destruct (decide (b = seg_sdu seg)) as [->|Hb]; [by rewrite lookup_delete_eq|].
      rewrite lookup_delete_ne by congruence. auto.
  - eexists _, 0. split; [done|]. split_and!; [|by eapply heap_keeps_set|done].
    split; try done.
    + eapply fits_keeps; [|done]. by eapply heap_keeps_set.
    + intros b t. simpl. destruct (decide (b = seg_sdu seg)) as [->|Hb].
      * rewrite lookup_insert_eq. intros [= <-]. simpl. lia.
      * rewrite lookup_insert_ne by congruence. auto.
Qed.

Lemma store_free_list h k l :
  store_ok h (k ++ l) ->
  exists h', nr_rlc_free_sdu_segment_list h k = Ok h' /\ store_ok h' l /\ heap_keeps l h h' /\ heap_brk h' = heap_brk h.
Proof.
  revert h. induction k as [|seg k IH]; intros h Hs; simpl.
  { exists h. split_and!; try done. apply heap_keeps_refl. }
  destruct (store_free h seg (k ++ l) Hs) as (h1 & r & -> & Hs1 & Hk1 & Hb1). cbn [rbind].
  destruct (IH h1 Hs1) as (h2 & -> & Hs2 & Hk2 & Hb2). exists h2. split_and!; try done; [|congruence].
  eapply heap_keeps_trans; [|done]. eapply heap_keeps_sub; [|done]. intros s. rewrite elem_of_app. auto.
Qed.

(** A new SDU with one segment. *)
Lemma store_new h l buffer size id :
  store_ok h l -> 0 < size <= NR_SDU_MAX -> size <= zlen buffer ->
  exists h' seg, nr_rlc_new_sdu h buffer size id = Ok (h', seg) /\ store_ok h' (seg :: l) /\
    heap_keeps l h h' /\ seg_addr seg = S (heap_brk h) /\ seg_so seg = 0 /\ seg_size seg = size /\
    seg_is_first seg = true /\ seg_is_last seg = true /\ sn_of h' seg = -1 /\
    (forall t, t ∈ l -> seg_sdu t <> seg_sdu seg) /\
    exists s, heap_sdus h' !! seg_sdu seg = Some s /\ sdu_data s = take (Z.to_nat size) buffer /\ sdu_size s = size.
Proof.
  intros [Hf Ha Hp Hn] Hsz Hbuf. unfold nr_rlc_new_sdu. rewrite buf_read_ok by lia. cbn [rbind].
  change (drop (Z.to_nat 0) buffer) with buffer. set (data := take _ _).
  assert (Hd : zlen data = size) by (apply zlen_take; lia).
  set (a := heap_brk h). set (s := {| sdu_sn := -1; sdu_data := data |}).
  set (h' := {| heap_brk := S (S a) |}). set (seg := {| seg_addr := S a |}).
  assert (Hold : forall t, t ∈ l -> (seg_addr t < a)%nat /\ (seg_sdu t < a)%nat).
  { intros t Ht. rewrite Forall_forall in Hf. by destruct (Hf t Ht) as (? & _ & _ & _ & _ & _ & _ & _ & ? & ?). }
  assert (Hs : heap_sdus h' !! seg_sdu seg = Some s) by apply lookup_insert_eq.
  assert (Hk : heap_keeps l h h').
  { split; [simpl; lia|]. intros t u Ht Hu. exists u. split; [|by split].
    simpl. rewrite lookup_insert_ne; [done|]. destruct (Hold t Ht). fold a. lia. }
  exists h', seg. split; [done|]. split_and!; try done.
  - split.
    + constructor; [|by eapply fits_keeps]. exists s. split; [done|]. simpl. rewrite Hd. split_and!; done || lia.
    + simpl. apply NoDup_cons. split; [|done]. intros (t & Heq & Ht)%list_elem_of_fmap. destruct (Hold t Ht). lia.
    + constructor; [|done]. apply Forall_forall. intros t Ht. left. destruct (Hold t Ht). simpl. lia.
    + intros b t. destruct (decide (b = a)) as [->|Hb].
      * change (heap_sdus h' !! a) with (heap_sdus h' !! seg_sdu seg). rewrite Hs. intros [= <-].
        assert (zsum (of_sdu a) l = 0) as H0.
        { clear -Hold. induction l as [|x l IH]; [done|]. simpl. rewrite IH by (intros; apply Hold; by right).
          destruct (Hold x); [by left|]. unfold of_sdu. rewrite bool_decide_false; lia. }
        simpl zsum. rewrite H0. unfold of_sdu. rewrite bool_decide_true by done. simpl. lia.
      * simpl. rewrite lookup_insert_ne by congruence. intros Ht. unfold of_sdu at 1. simpl.
        rewrite bool_decide_false by congruence. specialize (Hn b t Ht). lia.
  - unfold sn_of. by rewrite Hs.
  - intros t Ht. destruct (Hold t Ht). simpl. lia.
  - exists s. by split_and!.
Qed.

(** The two parts of a segment that is cut after [k] bytes. *)
Definition seg_cut_head (seg : nr_rlc_sdu_segment) (k : Z) : nr_rlc_sdu_segment :=
  {| seg with seg_size := k; seg_is_last := false |}.

Definition seg_cut_tail (seg : nr_rlc_sdu_segment) (k : Z) (a : nat) : nr_rlc_sdu_segment :=
  {| seg with seg_addr := a; seg_size := seg_size seg - k; seg_so := seg_so seg + k; seg_is_first := false |}.

Lemma store_cut h seg l s k :
  store_ok h (seg :: l) -> heap_sdus h !! seg_sdu seg = Some s -> 0 < k < seg_size seg ->
  let h' := {| (heap_set h (seg_sdu seg) {| s with sdu_ref_count := sdu_ref_count s + 1 |})
               with heap_brk := S (heap_brk h) |} in
  store_ok h' (seg_cut_head seg k :: seg_cut_tail seg k (heap_brk h) :: l) /\ heap_keeps (seg :: l) h h'.
Proof.
  intros [Hf Ha Hp Hn] Hs Hk h'.
  apply Forall_cons in Hf as [Hseg Hf]. pose proof Hseg as (s1 & Hs1 & Hso & Hsz & Hle & Hmax & Hfi & Hla & Hadr & Hsdu).
  rewrite Hs in Hs1. injection Hs1 as <-.
  assert (Hkeep : heap_keeps (seg :: l) h h').
  { destruct (heap_keeps_set h (seg :: l) _ s {| s with sdu_ref_count := sdu_ref_count s + 1 |} Hs) as [_ H]; [by split|].
    split; [simpl; lia|]. exact H. }
  assert (Hs' : heap_sdus h' !! seg_sdu seg = Some {| s with sdu_ref_count := sdu_ref_count s + 1 |}) by apply lookup_insert_eq.
  split; [|done]. apply NoDup_cons in Ha as [Han Ha]. inversion Hp as [|? ? Hap Hp']; subst. split.
  - constructor; [|constructor].
    + eexists. split; [exact Hs'|]. simpl. split_and!; (done || lia).
    + eexists. split; [exact Hs'|]. simpl. replace (_ + k + (_ - k)) with (seg_so seg + seg_size seg) by lia. split_and!; (done || lia).
    + eapply fits_keeps; [|done]. eapply heap_keeps_sub; [|exact Hkeep]. intros t. by right.
  - simpl. apply NoDup_cons. split; [|apply NoDup_cons; split; [|done]].
    + intros [Heq|Hin]%elem_of_cons; [lia|done].
    + intros (t & Heq & Ht)%list_elem_of_fmap. rewrite Forall_forall in Hf.
      destruct (Hf t Ht) as (? & _ & _ & _ & _ & _ & _ & _ & ? & _). lia.
  - assert (Hsub : Forall (seg_apart (seg_cut_head seg k)) l /\ Forall (seg_apart (seg_cut_tail seg k (heap_brk h))) l).
    { rewrite !Forall_forall. rewrite Forall_forall in Hap.
      split; intros t Ht; destruct (Hap t Ht) as [?|[?|?]]; unfold seg_apart; simpl; lia. }
    destruct Hsub as [H1 H2]. constructor; [|by constructor]. constructor; [|done].
    right. left. simpl. lia.
  - intros b t. simpl. destruct (decide (b = seg_sdu seg)) as [->|Hb].
    + rewrite lookup_insert_eq. intros [= <-]. specialize (Hn _ _ Hs). simpl in Hn |- *. unfold of_sdu in *. simpl.
      rewrite bool_decide_true in Hn |- * by done. lia.
    + rewrite lookup_insert_ne by congruence. intros Ht. specialize (Hn _ _ Ht). simpl in Hn. unfold of_sdu in *. simpl.
      rewrite bool_decide_false in Hn |- * by congruence. lia.
Qed.
