(* ===== verification/RlcAmTxInv.v ===== *)
(** The transmitter of the NR RLC AM entity: its invariant, the wait and
    retransmit lists, and the PDUs it builds. *)

From S2P Require Import Prelude RlcPdu RlcSdu TimeStat RlcEntity RlcUm RlcRxManager RlcAm.
From S2P Require Import RlcAmStatus RlcAmTx RlcAmRx RlcAmStore.

(** ** Positions in the transmission window *)

Lemma cfg_bounds e : am_cfg e -> 2048 <= am_window_size e <= 131072 /\ am_sn_modulus e = 2 * am_window_size e.
Proof. intros Hc. split; [by apply acfg_window_pos|apply Hc]. Qed.

Section TxPositions.
Context (e : nr_rlc_entity_am) (Hcfg : am_cfg e) (Hack : am_sn_ok e (am_tx_next_ack e)).

Lemma tx_rel_mod a : am_sn_ok e a -> modulus_tx e a = (a - am_tx_next_ack e) mod am_sn_modulus e.
Proof.
  unfold modulus_tx, am_sn_ok in *. intros. cbv zeta. case_bool_.
  - rewrite <- (Z.mod_add _ 1) by lia. rewrite Z.mod_small; lia.
  - rewrite Z.mod_small; lia.
Qed.

Lemma tx_rel_range a : am_sn_ok e a -> 0 <= modulus_tx e a < am_sn_modulus e.
Proof. unfold modulus_tx, am_sn_ok in *. intros. cbv zeta. case_bool_; lia. Qed.

Lemma tx_rel_inj a b : am_sn_ok e a -> am_sn_ok e b -> modulus_tx e a = modulus_tx e b -> a = b.
Proof. unfold modulus_tx, am_sn_ok in *. cbv zeta. intros Ha Hb. repeat case_bool_; lia. Qed.

Lemma tx_rel_ack : modulus_tx e (am_tx_next_ack e) = 0.
Proof. unfold modulus_tx. cbv zeta. rewrite Z.sub_diag. done. Qed.

Lemma sn_next_tx_ok a : am_sn_ok e a -> am_sn_ok e (sn_next e a).
Proof.
  pose proof (cfg_bounds e Hcfg). unfold am_sn_ok, sn_next. intros. rewrite Z.rem_mod_nonneg by lia.
  apply Z.mod_pos_bound. lia.
Qed.

Lemma tx_rel_next a :
  am_sn_ok e a -> modulus_tx e a + 1 < am_sn_modulus e -> modulus_tx e (sn_next e a) = modulus_tx e a + 1.
Proof.
  intros Ha Hs. pose proof (cfg_bounds e Hcfg). pose proof (tx_rel_range a Ha).
  rewrite !tx_rel_mod in * by (done || by apply sn_next_tx_ok).
  unfold sn_next, am_sn_ok in *. rewrite Z.rem_mod_nonneg by lia. rewrite Zminus_mod_idemp_l.
  replace (a + 1 - am_tx_next_ack e) with (a - am_tx_next_ack e + 1) by lia.
  rewrite <- Zplus_mod_idemp_l. apply Z.mod_small. lia.
Qed.
End TxPositions.

(** The window starts later: positions go down by the same amount. *)
Lemma tx_rel_shift e e' a :
  am_cfg e -> am_sn_modulus e' = am_sn_modulus e -> am_sn_ok e (am_tx_next_ack e) -> am_sn_ok e (am_tx_next_ack e') ->
  am_sn_ok e a -> modulus_tx e (am_tx_next_ack e') <= modulus_tx e a ->
  modulus_tx e' a = modulus_tx e a - modulus_tx e (am_tx_next_ack e').
Proof.
  intros Hc HM H1 H2 Ha Hle. unfold modulus_tx, am_sn_ok in *. cbv zeta in *. rewrite HM in *.
  revert Hle. repeat case_bool_; lia.
Qed.

(** ** Lists ordered by sequence number and offset *)

Definition seg_key (h : rlc_heap) (e : nr_rlc_entity_am) (seg : nr_rlc_sdu_segment) : Z :=
  modulus_tx e (sn_of h seg) * 65536 + seg_so seg.

Definition key_lt (h : rlc_heap) (e : nr_rlc_entity_am) (s t : nr_rlc_sdu_segment) : Prop :=
  seg_key h e s < seg_key h e t.

#[export] Instance key_lt_trans h e : Transitive (key_lt h e).
Proof. intros a b c. unfold key_lt. lia. Qed.

(** A segment that has a sequence number of the window. *)
Definition in_flight (h : rlc_heap) (e : nr_rlc_entity_am) (seg : nr_rlc_sdu_segment) : Prop :=
  am_sn_ok e (sn_of h seg) /\ modulus_tx e (sn_of h seg) < modulus_tx e (am_tx_next e).

Lemma fits_so h seg : seg_fits h seg -> 0 <= seg_so seg < 16000 /\ 0 < seg_size seg <= 16000.
Proof. intros (s & _ & ? & ? & ? & Hmax & _). unfold NR_SDU_MAX in Hmax. lia. Qed.

(** The comparison the code makes is that of the keys. *)
Lemma key_compare h e s t :
  am_sn_ok e (am_tx_next_ack e) -> seg_fits h s -> seg_fits h t -> am_sn_ok e (sn_of h s) -> am_sn_ok e (sn_of h t) ->
  (0 <? sn_compare_tx e (sn_of h s) (sn_of h t)) || ((sn_of h s =? sn_of h t) && (seg_so t <? seg_so s))
  = (seg_key h e t <? seg_key h e s).
Proof.
  intros Hack Hs Ht Hsn Htn. pose proof (fits_so h s Hs). pose proof (fits_so h t Ht).
  pose proof (tx_rel_range e Hack _ Hsn). pose proof (tx_rel_range e Hack _ Htn).
  unfold seg_key, sn_compare_tx. destruct (Z.eqb_spec (sn_of h s) (sn_of h t)) as [Heq|Hne].
  - rewrite Heq. destruct (seg_so t <? seg_so s) eqn:?; lia.
  - assert (modulus_tx e (sn_of h s) <> modulus_tx e (sn_of h t)) by (intros H3; by apply Hne, (tx_rel_inj e)).
    rewrite andb_false_l, orb_false_r. destruct (0 <? _) eqn:?; lia.
Qed.

(** Different segments in flight have different keys. *)
Lemma key_neq h e s t :
  am_sn_ok e (am_tx_next_ack e) -> seg_fits h s -> seg_fits h t -> am_sn_ok e (sn_of h s) -> am_sn_ok e (sn_of h t) ->
  seg_apart s t -> (sn_of h s = sn_of h t -> seg_sdu s = seg_sdu t) -> seg_key h e s <> seg_key h e t.
Proof.
  intros Hack Hs Ht Hsn Htn Hap Hsame. pose proof (fits_so h s Hs). pose proof (fits_so h t Ht).
  unfold seg_key. intros Heq.
  assert (modulus_tx e (sn_of h s) = modulus_tx e (sn_of h t)) as Hm by lia.
  apply (tx_rel_inj e) in Hm; [|done|done]. specialize (Hsame Hm). rewrite Hm in Heq.
  destruct Hap as [?|?]; [done|lia].
Qed.

Definition sent_list (h : rlc_heap) (e : nr_rlc_entity_am) (l : list nr_rlc_sdu_segment) : Prop :=
  Forall (fun s => seg_fits h s /\ am_sn_ok e (sn_of h s)) l.

(** Insertion keeps the order and reports no error. *)
Lemma tx_list_add_ok h e l seg :
  am_sn_ok e (am_tx_next_ack e) -> sent_list h e (seg :: l) -> StronglySorted (key_lt h e) l ->
  Forall (fun t => seg_key h e t <> seg_key h e seg) l ->
  exists l', nr_rlc_tx_sdu_segment_list_add h e l seg = Ok l' /\ l' ≡ₚ seg :: l /\
    StronglySorted (key_lt h e) l' /\
    (forall t, last l = Some t -> key_lt h e seg t -> last l' = Some t) /\ l' <> [].
Proof.
  intros Hack [[Hfs Hsn] Hl]%Forall_cons Hs Hne.
  induction Hs as [|cur l Hs IH Hcur]; simpl.
  { exists [seg]. split_and!; try done. by repeat constructor. }
  apply Forall_cons in Hl as [[Hfc Hcn] Hl]. apply Forall_cons in Hne as [Hnc Hne].
  rewrite (seg_sn_ok h cur), (seg_sn_ok h seg) by done. cbn [rbind]. rewrite key_compare by done.
  destruct (seg_key h e seg <? seg_key h e cur) eqn:Hlt.
  - exists (seg :: cur :: l). split_and!; try done.
    apply Z.ltb_lt in Hlt. constructor; [by constructor|]. constructor; [done|].
    eapply Forall_impl; [exact Hcur|]. intros t Ht. unfold key_lt in *. lia.
  - destruct (IH Hl Hne) as (l' & -> & Hp & Hs' & Hlast & Hnil). exists (cur :: l'). split_and!; try done.
    + rewrite Hp. apply Permutation_swap.
    + constructor; [done|]. rewrite Hp. constructor; [|done]. unfold key_lt. lia.
    + intros t Ht Hk. destruct l as [|c2 l].
      * injection Ht as <-. unfold key_lt in Hk. lia.
      * rewrite last_cons. rewrite last_cons in Ht. destruct (last (c2 :: l)) eqn:Hl2; [|by apply last_None in Hl2].
        injection Ht as ->. by rewrite (Hlast t).
Qed.

Lemma key_sorted_app h e l k :
  StronglySorted (key_lt h e) l -> StronglySorted (key_lt h e) k ->
  (forall s t, s ∈ l -> t ∈ k -> key_lt h e s t) -> StronglySorted (key_lt h e) (l ++ k).
Proof.
  intros Hl Hk Hlk. induction Hl as [|s l Hl IH Hs]; simpl; [done|].
  constructor; [apply IH; intros; apply Hlk; [by right|done]|].
  apply Forall_app. split; [done|]. apply Forall_forall. intros t Ht. apply Hlk; [by left|done].
Qed.

(** The list and its end pointer, as in RlcSdu; the addresses are different
    because the store says so. *)
Definition end_ok (s : seg_list) : Prop := sl_end s = seg_addr <$> last (sl_list s).

Lemma seg_node_last l t :
  NoDup (map seg_addr l) -> last l = Some t -> seg_node l (seg_addr t) = Ok t.
Proof.
  unfold seg_node. induction l as [|c l IH]; [done|]. simpl. intros [Hc Hnd]%NoDup_cons Hl.
  destruct (decide (seg_addr c = seg_addr t)) as [Heq|Hne].
  - rewrite bool_decide_true by done. simpl. destruct l as [|c2 l]; [by injection Hl as ->|].
    exfalso. apply Hc. rewrite Heq. apply list_elem_of_fmap. exists t. split; [done|].
    rewrite last_cons in Hl. destruct (last (c2 :: l)) as [u|] eqn:H2; [|by apply last_None in H2].
    injection Hl as ->. by apply last_Some_elem_of.
  - rewrite bool_decide_false by done. destruct l as [|c2 l]; [by injection Hl as ->|].
    apply IH; [done|]. rewrite last_cons in Hl. destruct (last (c2 :: l)) as [u|] eqn:H2; [done|]. by apply last_None in H2.
Qed.

(** A segment goes to the wait list. *)
Lemma put_in_wait_list_ok h e seg :
  am_sn_ok e (am_tx_next_ack e) -> sent_list h e (seg :: sl_list (am_wait e)) -> end_ok (am_wait e) ->
  NoDup (map seg_addr (seg :: sl_list (am_wait e))) ->
  StronglySorted (key_lt h e) (sl_list (am_wait e)) ->
  Forall (fun t => seg_key h e t <> seg_key h e seg) (sl_list (am_wait e)) ->
  exists w, put_in_wait_list h e seg = Ok {| e with am_wait := w |} /\
    sl_list w ≡ₚ seg :: sl_list (am_wait e) /\ end_ok w /\ StronglySorted (key_lt h e) (sl_list w).
Proof.
  intros Hack Hsent Hend Hnd Hs Hne. pose proof Hsent as [[Hfs Hsn] Hl]%Forall_cons.
  apply NoDup_cons in Hnd as [Hfresh Hnd]. unfold put_in_wait_list, after_wait_end. rewrite Hend.
  destruct (last (sl_list (am_wait e))) as [t|] eqn:Hlast; simpl.
  - rewrite (seg_node_last _ t) by done. cbn [rbind].
    assert (Ht : t ∈ sl_list (am_wait e)) by by apply last_Some_elem_of.
    rewrite Forall_forall in Hl. destruct (Hl t Ht) as [Hft Htn].
    rewrite (seg_sn_ok h seg), (seg_sn_ok h t) by done. cbn [rbind].
    assert ((sn_compare_tx e (sn_of h seg) (sn_of h t) =? 0) = (sn_of h seg =? sn_of h t)) as ->.
    { unfold sn_compare_tx. destruct (Z.eqb_spec (sn_of h seg) (sn_of h t)) as [->|Hd]; [by rewrite Z.sub_diag|].
      apply Z.eqb_neq. intros H. apply Hd, (tx_rel_inj e); [done..|lia]. }
    rewrite key_compare by done. destruct (seg_key h e t <? seg_key h e seg) eqn:Hk.
    + destruct (segment_list_append_ok (am_wait e) seg) as (w & -> & Hw & [_ Hwe]); [by split|done|].
      cbn [rbind]. exists w. rewrite Hw. split_and!; [done|by rewrite Permutation_app_comm|exact Hwe|].
      apply key_sorted_app; [done|by repeat constructor|]. intros x y Hx ->%list_elem_of_singleton.
      assert (x = t \/ key_lt h e x t) as [->|Hxt].
      { clear -Hs Hlast Hx. induction Hs as [|c l Hs IH Hc]; [by apply not_elem_of_nil in Hx|].
        rewrite last_cons in Hlast. apply elem_of_cons in Hx as [->|Hx].
        - destruct (last l) as [u|] eqn:Hu; injection Hlast as ->; [right|by left].
          rewrite Forall_forall in Hc. apply Hc. by apply last_Some_elem_of.
        - destruct (last l) as [u|] eqn:Hu; [apply IH; done|]. apply last_None in Hu as ->. by apply not_elem_of_nil in Hx. }
      * unfold key_lt. lia.
      * unfold key_lt in *. lia.
    + destruct (tx_list_add_ok h e (sl_list (am_wait e)) seg) as (l' & -> & Hp & Hs' & Hll & Hnil); try done.
      cbn [rbind]. eexists. split; [done|]. simpl. split_and!; [done| |done].
      rewrite Forall_forall in Hne. specialize (Hne t Ht). unfold end_ok. simpl.
      rewrite (Hll t) by (done || unfold key_lt; lia).
      destruct l' as [|x [|y l']]; [done| |done].
      apply Permutation_length in Hp. simpl in Hp. destruct (sl_list (am_wait e)); simpl in *; [done|lia].
  - apply last_None in Hlast. cbn [rbind]. unfold nr_rlc_sdu_segment_list_append. rewrite Hlast. cbn [rbind].
    eexists. split; [done|]. simpl. split_and!; [done|done|by repeat constructor].
Qed.

(** ** The invariant of the transmitter *)

(** An SDU of which nothing was sent, and the rest of the one being sent, which
    has the last sequence number used. *)
Definition unsent (h : rlc_heap) (seg : nr_rlc_sdu_segment) : Prop :=
  sn_of h seg = -1 /\ seg_is_first seg = true /\ seg_is_last seg = true.

Definition partial (h : rlc_heap) (e : nr_rlc_entity_am) (seg : nr_rlc_sdu_segment) : Prop :=
  am_sn_ok e (sn_of h seg) /\ modulus_tx e (sn_of h seg) + 1 = modulus_tx e (am_tx_next e).

Definition am_cost (e : nr_rlc_entity_am) (seg : nr_rlc_sdu_segment) : Z :=
  compute_pdu_header_size e seg + seg_size seg.

Definition am_segs (e : nr_rlc_entity_am) : list nr_rlc_sdu_segment :=
  sl_list (am_tx e) ++ sl_list (am_wait e) ++ am_retransmit e.

(** [hand] are segments taken out of a list and not yet in another one. *)
Record am_tx_inv (h : rlc_heap) (e : nr_rlc_entity_am) (hand : list nr_rlc_sdu_segment) : Prop := {
  ati_cfg : am_cfg e;
  ati_next : am_sn_ok e (am_tx_next e);
  ati_ack : am_sn_ok e (am_tx_next_ack e);
  ati_window : modulus_tx e (am_tx_next e) <= am_window_size e;
  ati_store : store_ok h (hand ++ am_segs e);
  ati_tx_end : end_ok (am_tx e);
  ati_wait_end : end_ok (am_wait e);
  ati_tail : Forall (unsent h) (tail (sl_list (am_tx e)));
  ati_head : forall seg, head (sl_list (am_tx e)) = Some seg -> unsent h seg \/ partial h e seg;
  ati_sent : Forall (in_flight h e) (hand ++ sl_list (am_wait e) ++ am_retransmit e);
  ati_wait_sorted : StronglySorted (key_lt h e) (sl_list (am_wait e));
  ati_retx_sorted : StronglySorted (key_lt h e) (am_retransmit e);
  ati_sn : forall s t, s ∈ hand ++ am_segs e -> t ∈ hand ++ am_segs e ->
    0 <= sn_of h s -> sn_of h s = sn_of h t -> seg_sdu s = seg_sdu t;
  ati_bs_tx : bs_tx_size (bstatus (am_common e)) = zsum (am_cost e) (sl_list (am_tx e));
  ati_bs_retx : zsum (am_cost e) (am_retransmit e) <= bs_retx_size (bstatus (am_common e))
}.

(** What the invariant is about. *)
Definition am_core (e : nr_rlc_entity_am) :=
  (am_sn_field_length e, am_sn_modulus e, am_window_size e, bstatus (am_common e), am_tx_next e, am_tx_next_ack e,
   am_tx e, am_wait e, am_retransmit e).

Lemma modulus_tx_ext e e' :
  am_sn_modulus e' = am_sn_modulus e -> am_tx_next_ack e' = am_tx_next_ack e -> modulus_tx e' = modulus_tx e.
Proof. intros HM HA. unfold modulus_tx. by rewrite HM, HA. Qed.

Lemma am_tx_inv_core h e e' hand : am_core e' = am_core e -> am_tx_inv h e hand -> am_tx_inv h e' hand.
Proof.
  intros [= Hl HM Hw Hb Hn Ha Ht Hwt Hr] [Hc ? ? ? ? ? ? ? Hh Hs Hws Hrs ? Hbt Hbr].
  pose proof (modulus_tx_ext e e' HM Ha) as Hmod.
  assert (am_cost e' = am_cost e) as Hcost by (unfold am_cost, compute_pdu_header_size; by rewrite Hl).
  assert (am_sn_ok e' = am_sn_ok e) as Hok by (unfold am_sn_ok; by rewrite HM).
  assert (am_segs e' = am_segs e) as Hsegs by (unfold am_segs; by rewrite Ht, Hwt, Hr).
  assert (in_flight h e' = in_flight h e) as Hif by (unfold in_flight; by rewrite Hok, Hmod, Hn).
  assert (key_lt h e' = key_lt h e) as Hkey by (unfold key_lt, seg_key; by rewrite Hmod).
  assert (partial h e' = partial h e) as Hpart by (unfold partial; by rewrite Hok, Hmod, Hn).
  constructor; rewrite ?Hok, ?Hmod, ?Hcost, ?Hsegs, ?Hif, ?Hkey, ?Hpart, ?Hn, ?Ha, ?Hw, ?Ht, ?Hwt, ?Hr, ?Hb; try done.
  destruct Hc. constructor; congruence.
Qed.

Section Inv.
Context (h : rlc_heap) (e : nr_rlc_entity_am).

Lemma inv_fits hand s : am_tx_inv h e hand -> s ∈ hand ++ am_segs e -> seg_fits h s.
Proof. intros Hinv Hs. pose proof (st_fits _ _ (ati_store _ _ _ Hinv)) as H. rewrite Forall_forall in H. auto. Qed.

Lemma inv_apart seg l t : store_ok h (seg :: l) -> t ∈ l -> seg_apart t seg.
Proof.
  intros [_ _ Hp _] Ht. inversion Hp as [|? ? H _]; subst. rewrite Forall_forall in H. by apply seg_apart_sym, H.
Qed.

(** A segment in hand has a key of its own. *)
Lemma hand_key seg t :
  am_tx_inv h e [seg] -> t ∈ sl_list (am_wait e) ++ am_retransmit e -> seg_key h e t <> seg_key h e seg.
Proof.
  intros Hinv Ht. pose proof (ati_sent _ _ _ Hinv) as Hs. simpl in Hs. apply Forall_cons in Hs as [[Hsn _] Hs].
  rewrite Forall_forall in Hs. destruct (Hs t Ht) as [Htn _].
  assert (Hta : t ∈ am_segs e) by (unfold am_segs; rewrite elem_of_app; auto).
  assert (seg ∈ [seg] ++ am_segs e /\ t ∈ [seg] ++ am_segs e) as [Hsi Hti] by (split; [by left|by right]).
  apply key_neq; try done.
  - apply Hinv.
  - by apply (inv_fits [seg]).
  - by apply (inv_fits [seg]).
  - eapply inv_apart; [apply Hinv|done].
  - intros Heq. apply (ati_sn _ _ _ Hinv); try done. unfold am_sn_ok in Htn. lia.
Qed.

Lemma inv_sent_list hand l :
  am_tx_inv h e hand -> (forall s, s ∈ l -> s ∈ hand ++ sl_list (am_wait e) ++ am_retransmit e) -> sent_list h e l.
Proof.
  intros Hinv Hl. apply Forall_forall. intros s Hs. specialize (Hl s Hs).
  pose proof (ati_sent _ _ _ Hinv) as H. rewrite Forall_forall in H. split; [|by apply H].
  apply (inv_fits hand); [done|]. unfold am_segs. rewrite !elem_of_app in *. tauto.
Qed.

(** The segment in hand goes to the wait list. *)
Lemma put_hand_ok seg :
  am_tx_inv h e [seg] ->
  exists w, put_in_wait_list h e seg = Ok {| e with am_wait := w |} /\
    am_tx_inv h {| e with am_wait := w |} [] /\ sl_list w ≡ₚ seg :: sl_list (am_wait e).
Proof.
  intros Hinv. destruct (put_in_wait_list_ok h e seg) as (w & Hput & Hp & Hend & Hs).
  - apply Hinv.
  - apply (inv_sent_list [seg]); [done|]. intros s Hs. rewrite elem_of_app, list_elem_of_singleton. apply elem_of_cons in Hs. rewrite elem_of_app. tauto.
  - apply Hinv.
  - pose proof (st_addr _ _ (ati_store _ _ _ Hinv)) as Hnd. unfold am_segs in Hnd.
    rewrite !map_app in Hnd. simpl in Hnd. apply NoDup_cons in Hnd as [Hf Hnd].
    apply NoDup_app in Hnd as (_ & _ & Hnd). apply NoDup_app in Hnd as (Hnd & _ & _).
    simpl. apply NoDup_cons. split; [|done]. intros H. apply Hf. rewrite !elem_of_app. auto.
  - apply Hinv.
  - apply Forall_forall. intros t Ht. apply hand_key; [done|]. rewrite elem_of_app. auto.
  - exists w. split; [done|]. split; [|done].
    assert (Hperm : [] ++ am_segs {| e with am_wait := w |} ≡ₚ [seg] ++ am_segs e).
    { unfold am_segs. simpl. rewrite Hp. simpl. symmetry. apply Permutation_middle. }
    destruct Hinv as [[] ? ? ? Hst ? ? ? Hh Hsent Hws Hrs Hsn ? ?]. constructor; try done.
    + by rewrite Hperm.
    + simpl. rewrite Hp. simpl. done.
    + intros s t Hs1 Ht1. apply Hsn; by rewrite <- Hperm.
Qed.
End Inv.

(** ** The header of a PDU *)

(** The fields of a header, with their widths; [p] is the poll bit. *)
Definition am_header (e : nr_rlc_entity_am) (p : bool) (sn : Z) (seg : nr_rlc_sdu_segment) : list (Z * Z) :=
  [(1, 1); (Z.b2z p, 1); (1 - Z.b2z (seg_is_first seg), 1); (1 - Z.b2z (seg_is_last seg), 1)]
  ++ (if am_sn_field_length e =? 18 then [(0, 2)] else [])
  ++ [(sn, am_sn_field_length e)]
  ++ (if negb (seg_is_first seg) then [(seg_so seg, 16)] else []).

Lemma put_fields_app e l k : put_fields e (l ++ k) = rbind (put_fields e l) (fun e => put_fields e k).
Proof.
  revert e. induction l as [|[v n] l IH]; intros e; simpl; [done|]. rewrite rbind_assoc.
  destruct (nr_rlc_pdu_encoder_put_bits e v n); simpl; auto.
Qed.

Lemma am_put_header_fields e sn seg enc :
  am_put_header e sn seg enc = put_fields enc (am_header e false sn seg).
Proof.
  unfold am_put_header, am_header. rewrite !put_fields_app. simpl.
  repeat (rewrite ?rbind_assoc; match goal with |- rbind ?m _ = rbind ?m _ => destruct m; cbn [rbind]; [|done] end).
  destruct (_ =? 18); simpl; rewrite ?rbind_assoc;
    repeat (rewrite ?rbind_assoc; match goal with |- rbind ?m _ = rbind ?m _ => destruct m; cbn [rbind]; [|done] end).
  all: destruct (negb _); simpl; try done; by destruct (nr_rlc_pdu_encoder_put_bits _ _ _).
Qed.

Lemma am_header_ok e p sn seg :
  am_cfg e -> am_sn_ok e sn -> 0 <= seg_so seg < 2 ^ 16 ->
  Forall field_ok (am_header e p sn seg) /\ zsum snd (am_header e p sn seg) = 8 * compute_pdu_header_size e seg.
Proof.
  intros [Hlen Hm _] Hsn Hso. unfold am_sn_ok in Hsn. rewrite Hm in Hsn.
  assert (Hb : forall b, field_ok (Z.b2z b, 1) /\ field_ok (1 - Z.b2z b, 1)) by (intros []; unfold field_ok; simpl; lia).
  assert (field_ok (1, 1)) by (unfold field_ok; simpl; lia).
  assert (field_ok (sn, am_sn_field_length e)) by (unfold field_ok; simpl; destruct Hlen; lia).
  assert (field_ok (seg_so seg, 16)) by (unfold field_ok; simpl; lia).
  assert (field_ok (0, 2)) by (unfold field_ok; simpl; lia).
  unfold am_header, compute_pdu_header_size. split.
  - destruct (am_sn_field_length e =? 18), (negb (seg_is_first seg)); cbn [app];
      repeat (apply Forall_cons; split); try apply Forall_nil; try done; apply Hb.
  - rewrite !zsum_app. simpl. repeat case_bool_; simpl; lia.
Qed.

Lemma am_header_size_range e seg : 2 <= compute_pdu_header_size e seg <= 5.
Proof. unfold compute_pdu_header_size. repeat case_bool_; lia. Qed.

(** Setting the poll bit of a header. *)
Lemma set_poll_bit hdr e sn seg :
  0 < zlen hdr -> bits_of_bytes hdr = fields_bits (am_header e false sn seg) ->
  exists b l, hdr = b :: l /\ bits_of_bytes (u8 (Z.lor b 0x40) :: l) = fields_bits (am_header e true sn seg).
Proof.
  intros Hz Hb. destruct hdr as [|b l]; [done|]. exists b, l. split; [done|].
  assert (Hbit : forall i, 0 <= i < 8 -> Z.testbit (u8 (Z.lor b 64)) i = Z.testbit b i || (i =? 6)).
  { intros i Hi. unfold wrap. rewrite Z.mod_pow2_bits_low by lia. rewrite Z.lor_spec. f_equal.
    assert (i = 0 \/ i = 1 \/ i = 2 \/ i = 3 \/ i = 4 \/ i = 5 \/ i = 6 \/ i = 7)
      as [->|[->|[->|[->|[->|[->|[->| ->]]]]]]] by lia; done. }
  unfold bits_of_bytes, fields_bits, am_header in *. cbn [map concat low_bits app fst snd] in *.
  change (Z.to_nat 1) with 1%nat in *. cbn [low_bits app] in *.
  rewrite !Hbit by lia.
  pose proof (f_equal (hd false) Hb) as H7. pose proof (f_equal (fun l => hd false (tl (tl l))) Hb) as H5.
  pose proof (f_equal (fun l => hd false (tl (tl (tl l)))) Hb) as H4.
  pose proof (f_equal (fun l => tl (tl (tl (tl l)))) Hb) as Hrest. cbn [hd tl] in H7, H5, H4, Hrest.
  rewrite H7, H5, H4, <- Hrest. change (Z.of_nat 6 =? 6) with true. rewrite orb_true_r.
  repeat match goal with |- context [_ || (Z.of_nat ?i =? 6)] => change (Z.of_nat i =? 6) with false end.
  by rewrite !orb_false_r.
Qed.

(** [hdr] is the header of [seg] under [sn] with poll bit [p]. *)
Definition is_am_header (e : nr_rlc_entity_am) (p : bool) (sn : Z) (seg : nr_rlc_sdu_segment) (hdr : bytes) : Prop :=
  zlen hdr = compute_pdu_header_size e seg /\ bits_of_bytes hdr = fields_bits (am_header e p sn seg).

(** The state after a PDU with the poll bit. *)
Definition am_polled (e : nr_rlc_entity_am) (p : bool) : nr_rlc_entity_am :=
  if p then {| e with am_pdu_without_poll := 0; am_byte_without_poll := 0; am_poll_sn := sn_prev e (am_tx_next e);
                      am_t_poll_retransmit_start := am_t_current e |} else e.

Lemma am_serialize_ok h e seg s buffer size p :
  am_cfg e -> heap_sdus h !! seg_sdu seg = Some s -> am_sn_ok e (sdu_sn s) ->
  seg_fits h seg -> am_cost e seg <= size <= zlen buffer ->
  exists buffer' hdr, serialize_sdu h e seg buffer size p = Ok (am_polled e p, buffer', am_cost e seg) /\
    zlen buffer' = zlen buffer /\ is_am_header e p (sdu_sn s) seg hdr /\
    take (Z.to_nat (am_cost e seg)) buffer' = hdr ++ seg_bytes h seg.
Proof.
  intros Hc Hs Hsn Hfit Hsize. pose proof (fits_so h seg Hfit) as [Hso Hsz].
  destruct Hfit as (s' & Hs' & _ & _ & Hle & _). rewrite Hs in Hs'. injection Hs' as <-.
  unfold serialize_sdu, seg_bytes. rewrite (proj2 (heap_get_lookup _ _ _) Hs). cbn [rbind].
  rewrite am_put_header_fields. destruct (am_header_ok e false (sdu_sn s) seg Hc Hsn) as [Hok Hsum]; [lia|].
  unfold am_cost in *. pose proof (am_header_size_range e seg).
  destruct (put_fields_ok (am_header e false (sdu_sn s) seg) (nr_rlc_pdu_encoder_init buffer size))
    as (enc & -> & Hwf & Hst & Hp & Hz & Hl); [apply encoder_init_wf; lia|done|unfold enc_pos; simpl enc_byte; simpl enc_bit; simpl enc_size; lia|].
  unfold enc_pos in Hp. simpl enc_byte in Hp; simpl enc_bit in Hp. simpl enc_buffer in Hl.
  assert (enc_byte enc = compute_pdu_header_size e seg /\ enc_bit enc = 0) as [Hb Hbit] by (destruct Hwf as (? & ? & ?); lia).
  assert (Hzl : zlen (enc_buffer enc) = zlen buffer) by (unfold zlen; by rewrite Hl).
  cbn [rbind]. rewrite buf_read_ok by lia. cbn [rbind]. set (data := take _ (drop _ (sdu_data s))).
  assert (Hd : zlen data = seg_size seg) by (subst data; rewrite zlen_take; [done|rewrite zlen_drop; lia]).
  destruct (buf_write (enc_buffer enc) (enc_byte enc) data) as [b1|] eqn:Hw.
  2:{ unfold buf_write in Hw. by rewrite (proj2 (Z.leb_le 0 _)), (proj2 (Z.leb_le _ (zlen _))) in Hw by lia. }
  pose proof (buf_write_length _ _ _ _ Hw) as Hl1. apply buf_write_inv in Hw as (_ & _ & ->).
  set (hdr := take (Z.to_nat (enc_byte enc)) (enc_buffer enc)) in *.
  set (rest := drop _ (enc_buffer enc)) in *.
  assert (Hh : zlen hdr = compute_pdu_header_size e seg) by (rewrite <- Hb; apply zlen_take; lia).
  assert (Hhb : bits_of_bytes hdr = fields_bits (am_header e false (sdu_sn s) seg)).
  { unfold hdr. rewrite <- (enc_stream_aligned enc Hbit), Hst. done. }
  assert (Htake : forall hd, zlen hd = zlen hdr ->
    take (Z.to_nat (compute_pdu_header_size e seg + seg_size seg)) (hd ++ data ++ rest) = hd ++ data).
  { intros hd Hhd. rewrite (app_assoc hd). apply take_app_length'. rewrite length_app. unfold zlen in *. lia. }
  cbn [rbind]. rewrite Hb. destruct p.
  - destruct (set_poll_bit hdr e (sdu_sn s) seg) as (b & l & Heq & Hpb); [lia|done|].
    unfold include_poll, buf_or. rewrite Heq. cbn [rbind app lookup list_lookup of_opt Z.to_nat insert list_insert].
    eexists _, (u8 (Z.lor b 64) :: l). split; [done|]. split_and!.
    + unfold zlen in *. rewrite Heq in Hl1. simpl in *. lia.
    + unfold is_am_header. rewrite <- Hh, Heq. done.
    + apply (Htake (u8 (Z.lor b 64) :: l)). by rewrite Heq.
  - eexists _, hdr. cbn [rbind]. split; [done|]. split_and!; [unfold zlen in *; lia|done|by apply Htake].
Qed.

(** ** Changes of the store *)

Lemma unsent_sn h h' seg : sn_of h' seg = sn_of h seg -> unsent h seg -> unsent h' seg.
Proof. unfold unsent. by intros ->. Qed.

Lemma partial_sn h h' e seg : sn_of h' seg = sn_of h seg -> partial h e seg -> partial h' e seg.
Proof. unfold partial. by intros ->. Qed.

Lemma in_flight_sn h h' e seg : sn_of h' seg = sn_of h seg -> in_flight h e seg -> in_flight h' e seg.
Proof. unfold in_flight. by intros ->. Qed.

Lemma sorted_sn h h' e l :
  (forall s, s ∈ l -> sn_of h' s = sn_of h s) -> StronglySorted (key_lt h e) l -> StronglySorted (key_lt h' e) l.
Proof.
  intros Hsn Hs. induction Hs as [|s l Hs IH Hl]; constructor; [apply IH; intros; apply Hsn; by right|].
  rewrite Forall_forall in *. intros t Ht. specialize (Hl t Ht). unfold key_lt, seg_key in *.
  rewrite !Hsn by (by left || by right). done.
Qed.

Lemma forall_sn (P : rlc_heap -> nr_rlc_sdu_segment -> Prop) h h' l :
  (forall s, sn_of h' s = sn_of h s -> P h s -> P h' s) -> (forall s, s ∈ l -> sn_of h' s = sn_of h s) ->
  Forall (P h) l -> Forall (P h') l.
Proof. intros HP Hsn. rewrite !Forall_forall. intros H s Hs. apply HP; auto. Qed.

(** The sequence numbers of the segments stay, and the store stays in order. *)
Lemma am_tx_inv_heap h h' e hand :
  (forall s, s ∈ hand ++ am_segs e -> sn_of h' s = sn_of h s) -> store_ok h' (hand ++ am_segs e) ->
  am_tx_inv h e hand -> am_tx_inv h' e hand.
Proof.
  intros Hsn Hst' [Hc Hn Ha Hw Hst Hte Hwe Ht Hh Hs Hws Hrs Hu Hb Hr].
  assert (Htx : forall s, s ∈ sl_list (am_tx e) -> sn_of h' s = sn_of h s).
  { intros s Hs1. apply Hsn. unfold am_segs. rewrite !elem_of_app. auto. }
  assert (Hsent : forall s, s ∈ hand ++ sl_list (am_wait e) ++ am_retransmit e -> sn_of h' s = sn_of h s).
  { intros s Hs1. apply Hsn. unfold am_segs. rewrite !elem_of_app in *. tauto. }
  constructor; try done.
  - eapply (forall_sn unsent); [apply unsent_sn| |done]. intros s Hs1. apply Htx.
    destruct (sl_list (am_tx e)); [done|by right].
  - intros seg Hseg. assert (seg ∈ sl_list (am_tx e)) as Hin.
    { destruct (sl_list (am_tx e)); [done|]. injection Hseg as ->. by left. }
    destruct (Hh seg Hseg) as [?|?]; [left; apply (unsent_sn h)|right; apply (partial_sn h)]; auto.
  - eapply (forall_sn (fun h => in_flight h e)); [apply in_flight_sn|exact Hsent|done].
  - eapply sorted_sn; [|done]. intros s Hs1. apply Hsent. rewrite !elem_of_app. auto.
  - eapply sorted_sn; [|done]. intros s Hs1. apply Hsent. rewrite !elem_of_app. auto.
  - intros s t Hs1 Ht1. rewrite !Hsn by done. by apply Hu.
Qed.

Lemma am_tx_inv_keeps h h' e hand :
  heap_keeps (hand ++ am_segs e) h h' -> store_ok h' (hand ++ am_segs e) ->
  am_tx_inv h e hand -> am_tx_inv h' e hand.
Proof.
  intros Hk Hst Hinv. apply (am_tx_inv_heap h); [|done|done]. intros s Hs. eapply sn_of_keeps; [done|done|].
  by apply (inv_fits h e hand).
Qed.

(** A whole SDU has no other segment. *)
Lemma whole_alone h seg l t :
  store_ok h (seg :: l) -> seg_is_first seg = true -> seg_is_last seg = true -> t ∈ l -> seg_sdu t <> seg_sdu seg.
Proof.
  intros Hst Hf Hl Ht Heq. pose proof Hst as [Hfit _ _ _]. apply Forall_cons in Hfit as [Hs Hall].
  rewrite Forall_forall in Hall. pose proof (Hall t Ht) as (u & Hu & Hso & Hsz & Hle & _).
  destruct Hs as (s & Hss & _ & _ & _ & _ & Hfirst & Hlast & _). rewrite Heq, Hss in Hu. injection Hu as <-.
  apply Hfirst in Hf. apply Hlast in Hl. destruct (inv_apart h seg l t Hst Ht) as [?|[?|?]]; [done|lia|lia].
Qed.

(** ** A segment is taken for transmission *)

Definition am_tx_taken (e : nr_rlc_entity_am) (seg : nr_rlc_sdu_segment) (rest : list nr_rlc_sdu_segment)
    : nr_rlc_entity_am :=
  am_bstatus_tx (fun t => t - am_cost e seg)
    {| e with am_tx := mk_seg_list rest (match rest with [] => None | _ => sl_end (am_tx e) end) |}.

Lemma end_ok_dequeue seg rest s :
  end_ok s -> sl_list s = seg :: rest -> end_ok (mk_seg_list rest (match rest with [] => None | _ => sl_end s end)).
Proof. unfold end_ok. intros -> ->. simpl. by destruct rest. Qed.

Lemma tx_taken_segs e seg rest : sl_list (am_tx e) = seg :: rest -> [seg] ++ am_segs (am_tx_taken e seg rest) = am_segs e.
Proof. intros Hl. unfold am_segs. by rewrite Hl. Qed.

Lemma not_stalling e :
  am_cfg e -> am_sn_ok e (am_tx_next e) -> am_sn_ok e (am_tx_next_ack e) -> is_window_stalling e = false ->
  modulus_tx e (am_tx_next e) < am_window_size e.
Proof.
  intros Hc Hn Ha. pose proof (cfg_bounds e Hc) as [Hw HM]. unfold is_window_stalling, sn_compare_tx. rewrite tx_rel_ack.
  unfold am_sn_ok in *.
  assert (modulus_tx e (Z.rem (am_tx_next_ack e + am_window_size e) (am_sn_modulus e)) = am_window_size e) as ->; [|lia].
  rewrite Z.rem_mod_nonneg by lia. rewrite tx_rel_mod.
  - rewrite Zminus_mod_idemp_l. replace (_ + _ - _) with (am_window_size e) by lia. apply Z.mod_small. lia.
  - done.
  - unfold am_sn_ok. apply Z.mod_pos_bound. lia.
Qed.

(** Everything but the sequence number: the head of the list is in hand. *)
Lemma tx_taken_cost e seg rest : am_cost (am_tx_taken e seg rest) = am_cost e.
Proof. done. Qed.

Lemma taken_tail (l : list nr_rlc_sdu_segment) (P : nr_rlc_sdu_segment -> Prop) seg rest :
  l = seg :: rest -> Forall P (tail l) -> Forall P (tail rest) /\ (forall s, head rest = Some s -> P s) /\ Forall P rest.
Proof.
  intros -> H. simpl in H. split_and!; [by apply Forall_tail| |done].
  intros s Hs. destruct H; [done|]. by injection Hs as ->.
Qed.

Lemma take_partial h e seg rest :
  am_tx_inv h e [] -> sl_list (am_tx e) = seg :: rest -> partial h e seg ->
  am_tx_inv h (am_tx_taken e seg rest) [seg].
Proof.
  intros [Hc Hn Ha Hw Hst Hte Hwe Ht Hh Hs Hws Hrs Hu Hb Hr] Hl [Hsn Hlast].
  destruct (taken_tail _ _ _ _ Hl Ht) as (Ht' & Hh' & _). pose proof (tx_taken_segs e seg rest Hl) as Hsegs.
  constructor; try done; try rewrite Hsegs; try done.
  - destruct Hc; by constructor.
  - by apply (end_ok_dequeue seg).
  - intros s Hs1. left. by apply Hh'.
  - simpl. constructor; [|done]. split; [done|]. simpl. change (modulus_tx (am_tx_taken e seg rest)) with (modulus_tx e). lia.
  - simpl. rewrite Hb, Hl. simpl. change (am_cost (am_tx_taken e seg rest)) with (am_cost e). lia.
Qed.

Lemma sn_of_set h a s t seg :
  heap_sdus h !! a = Some s ->
  sn_of (heap_set h a t) seg = if bool_decide (seg_sdu seg = a) then sdu_sn t else sn_of h seg.
Proof.
  intros Hs. unfold sn_of. simpl. case_bool_decide as Heq.
  - by rewrite Heq, lookup_insert_eq.
  - by rewrite lookup_insert_ne.
Qed.

Lemma am_cfg_core e e' :
  am_sn_field_length e' = am_sn_field_length e -> am_sn_modulus e' = am_sn_modulus e ->
  am_window_size e' = am_window_size e -> am_cfg e -> am_cfg e'.
Proof. intros Hl HM Hw []. constructor; congruence. Qed.

(** The head gets its sequence number. *)
Lemma take_unsent h e seg rest s :
  am_tx_inv h e [] -> sl_list (am_tx e) = seg :: rest -> unsent h seg ->
  modulus_tx e (am_tx_next e) < am_window_size e -> heap_sdus h !! seg_sdu seg = Some s ->
  let h1 := heap_set h (seg_sdu seg) {| s with sdu_sn := am_tx_next e |} in
  let e1 := {| (am_tx_taken e seg rest) with am_tx_next := sn_next e (am_tx_next e) |} in
  am_tx_inv h1 e1 [seg] /\ partial h1 e1 seg.
Proof.
  intros [Hc Hn Ha Hw Hst Hte Hwe Ht Hh Hs Hws Hrs Hu Hb Hr] Hl (Hsn & Hf & Hla) Hwin Hss h1 e1.
  pose proof (cfg_bounds e Hc) as [Hw0 HM].
  destruct (taken_tail _ _ _ _ Hl Ht) as (Ht' & Hh' & Hrest). pose proof (tx_taken_segs e seg rest Hl) as Hsegs.
  assert (Hst1 : store_ok h ([seg] ++ am_segs e1)) by (change (am_segs e1) with (am_segs (am_tx_taken e seg rest)); by rewrite Hsegs).
  assert (Hseg1 : sn_of h1 seg = am_tx_next e) by (unfold h1; by rewrite (sn_of_set h _ s), bool_decide_true).
  assert (Hoth : forall t, t ∈ am_segs e1 -> sn_of h1 t = sn_of h t).
  { intros t Ht1. unfold h1. rewrite (sn_of_set h _ s) by done. rewrite bool_decide_false; [done|].
    by apply (whole_alone h seg (am_segs e1)). }
  assert (Hrel : modulus_tx e (sn_next e (am_tx_next e)) = modulus_tx e (am_tx_next e) + 1)
    by (apply tx_rel_next; done || lia).
  assert (Hfl : forall t, t ∈ am_segs e1 -> in_flight h e t -> in_flight h1 e1 t).
  { intros t Ht1 [H1 H2]. unfold in_flight. rewrite Hoth by done. split; [done|].
    change (modulus_tx e (sn_of h t) < modulus_tx e (sn_next e (am_tx_next e))). lia. }
  assert (Hpart : partial h1 e1 seg).
  { unfold partial. rewrite Hseg1. split; [done|]. exact (eq_sym Hrel). }
  assert (Hin : forall t, t ∈ sl_list (am_wait e) ++ am_retransmit e -> t ∈ am_segs e1).
  { intros t. unfold am_segs. rewrite !elem_of_app. simpl. tauto. }
  assert (Hinr : forall t, t ∈ rest -> t ∈ am_segs e1) by (intros t; unfold am_segs; rewrite !elem_of_app; auto).
  split; [|done]. constructor; try done.
  - exact (am_cfg_core e e1 eq_refl eq_refl eq_refl Hc).
  - by apply (sn_next_tx_ok e).
  - change (modulus_tx e (sn_next e (am_tx_next e)) <= am_window_size e). lia.
  - apply (store_ok_set h _ _ s); done.
  - by apply (end_ok_dequeue seg).
  - eapply (forall_sn unsent); [apply unsent_sn| |exact Ht']. intros t Ht1. apply Hoth, Hinr. simpl in Ht1.
    destruct rest; [done|by right].
  - intros t Ht1. left. apply (unsent_sn h); [|by apply Hh']. apply Hoth, Hinr. simpl in Ht1.
    destruct rest; [done|]. injection Ht1 as ->. by left.
  - simpl. constructor.
    { split; [by apply Hpart|]. destruct Hpart as [_ Hp]. change (modulus_tx e (sn_of h1 seg) < modulus_tx e1 (am_tx_next e1)). 
      change (modulus_tx e1 (sn_of h1 seg)) with (modulus_tx e (sn_of h1 seg)) in Hp. lia. }
    rewrite Forall_forall in *. intros t Ht1. apply Hfl; auto.
  - eapply sorted_sn; [|exact Hws]. intros t Ht1. apply Hoth, Hin. rewrite elem_of_app. by left.
  - eapply sorted_sn; [|exact Hrs]. intros t Ht1. apply Hoth, Hin. rewrite elem_of_app. by right.
  - assert (Hne : forall t, t ∈ am_segs e1 -> sn_of h1 t <> am_tx_next e).
    { intros t Ht1. rewrite Hoth by done. unfold am_segs in Ht1. simpl in Ht1. apply elem_of_app in Ht1 as [Ht1|Ht1].
      - rewrite Forall_forall in Hrest. destruct (Hrest t Ht1) as [-> _]. unfold am_sn_ok in Hn. lia.
      - rewrite Forall_forall in Hs. destruct (Hs t Ht1) as [_ Hlt]. intros Heq. rewrite Heq in Hlt. lia. }
    intros x y [->%list_elem_of_singleton|Hx]%elem_of_app [->%list_elem_of_singleton|Hy]%elem_of_app; [done|..].
    + intros _ Heq. exfalso. apply (Hne y Hy). congruence.
    + intros _ Heq. exfalso. apply (Hne x Hx). congruence.
    + rewrite !Hoth by done. intros H0 Heq. apply Hu; try done; rewrite <- Hsegs; by right.
  - simpl. rewrite Hb, Hl. simpl. change (am_cost e1) with (am_cost e). lia.
Qed.

(** ** A segment is cut *)

Definition heap_cut (h : rlc_heap) (seg : nr_rlc_sdu_segment) (s : nr_rlc_sdu) : rlc_heap :=
  {| (heap_set h (seg_sdu seg) {| s with sdu_ref_count := sdu_ref_count s + 1 |}) with heap_brk := S (heap_brk h) |}.

Lemma am_resegment_ok h e seg s size :
  heap_sdus h !! seg_sdu seg = Some s ->
  let k := size - compute_pdu_header_size e seg in
  resegment h e seg size = Ok (heap_cut h seg s, seg_cut_head seg k, seg_cut_tail seg k (heap_brk h)).
Proof.
  intros Hs%heap_get_lookup k. unfold resegment. rewrite Hs. cbn [rbind]. cbv zeta.
  unfold seg_cut_head, seg_cut_tail, heap_cut. cbn [seg_size]. subst k.
  set (hd := compute_pdu_header_size e seg).
  replace (hd + seg_size seg - size) with (seg_size seg - (size - hd)) by lia.
  by replace (seg_size seg - (seg_size seg - (size - hd))) with (size - hd) by lia.
Qed.

Definition am_cut_tx (e : nr_rlc_entity_am) (t : nr_rlc_sdu_segment) : nr_rlc_entity_am :=
  am_bstatus_tx (fun b => b + am_cost e t)
    {| e with am_tx := mk_seg_list (t :: sl_list (am_tx e))
                         (match sl_end (am_tx e) with None => Some (seg_addr t) | a => a end) |}.

Definition am_cut_retx (e : nr_rlc_entity_am) (t : nr_rlc_sdu_segment) : nr_rlc_entity_am :=
  am_bstatus_retx (fun b => b + am_cost e t) {| e with am_retransmit := t :: am_retransmit e |}.

Section Cut.
Context (h : rlc_heap) (e : nr_rlc_entity_am) (seg : nr_rlc_sdu_segment) (k : Z) (s : nr_rlc_sdu).
Hypothesis Hinv : am_tx_inv h e [seg].
Hypothesis Hs : heap_sdus h !! seg_sdu seg = Some s.
Hypothesis Hk : 0 < k < seg_size seg.

Let h' := heap_cut h seg s.
Let t := seg_cut_tail seg k (heap_brk h).
Let hd := seg_cut_head seg k.

Lemma cut_store : store_ok h' (hd :: t :: am_segs e) /\ heap_keeps (seg :: am_segs e) h h'.
Proof. by apply store_cut; [apply Hinv|..]. Qed.

Lemma cut_sn x : x ∈ seg :: am_segs e -> sn_of h' x = sn_of h x.
Proof.
  intros Hx. eapply sn_of_keeps; [apply cut_store|done|]. by apply (inv_fits h e [seg]).
Qed.

Lemma cut_sn_parts : sn_of h' hd = sn_of h seg /\ sn_of h' t = sn_of h seg.
Proof. split; rewrite <- (cut_sn seg) by (by left); done. Qed.

(** Every segment of the new lists stands for one of the old lists. *)
Lemma cut_unique x y :
  x ∈ hd :: t :: am_segs e -> y ∈ hd :: t :: am_segs e -> 0 <= sn_of h' x -> sn_of h' x = sn_of h' y -> seg_sdu x = seg_sdu y.
Proof.
  assert (Hrep : forall z, z ∈ hd :: t :: am_segs e ->
    exists z0, z0 ∈ [seg] ++ am_segs e /\ seg_sdu z = seg_sdu z0 /\ sn_of h' z = sn_of h z0).
  { destruct cut_sn_parts as [H1 H2].
    intros z [->|[->|Hz]%elem_of_cons]%elem_of_cons; [exists seg|exists seg|exists z].
    - split_and!; [by left|done|done].
    - split_and!; [by left|done|done].
    - split_and!; [by right|done|]. apply cut_sn. by right. }
  intros (x0 & Hx & -> & ->)%Hrep (y0 & Hy & -> & ->)%Hrep. by apply (ati_sn _ _ _ Hinv).
Qed.

Lemma tx_cut_ok :
  partial h e seg -> Forall (unsent h) (sl_list (am_tx e)) -> am_tx_inv h' (am_cut_tx e t) [hd].
Proof.
  intros Hpart Hun. destruct cut_store as [Hst Hkeep]. destruct cut_sn_parts as [Hsnh Hsnt].
  pose proof cut_unique as Huniq.
  assert (Htx : forall x, x ∈ sl_list (am_tx e) -> sn_of h' x = sn_of h x).
  { intros x Hx. apply cut_sn. right. unfold am_segs. rewrite elem_of_app. by left. }
  assert (Hsx : forall x, x ∈ sl_list (am_wait e) ++ am_retransmit e -> sn_of h' x = sn_of h x).
  { intros x Hx. apply cut_sn. right. unfold am_segs. rewrite elem_of_app. by right. }
  assert (Hun' : Forall (unsent h') (sl_list (am_tx e))).
  { eapply (forall_sn unsent); [apply unsent_sn|exact Htx|done]. }
  destruct Hinv as [Hc Hn Ha Hw _ Hte Hwe Ht Hh Hsent Hws Hrs Hu Hb Hr].
  constructor; try done.
  - exact (am_cfg_core e (am_cut_tx e t) eq_refl eq_refl eq_refl Hc).
  - change (end_ok (mk_seg_list (t :: sl_list (am_tx e)) (match sl_end (am_tx e) with None => Some (seg_addr t) | a => a end))).
    unfold end_ok in *. rewrite Hte. simpl. rewrite last_cons. by destruct (last (sl_list (am_tx e))).
  - intros x [= <-]. right. eapply partial_sn; [exact Hsnt|done].
  - simpl in Hsent |- *. apply Forall_cons in Hsent as [Hseg Hsent]. constructor.
    + eapply in_flight_sn; [exact Hsnh|done].
    + eapply (forall_sn (fun h => in_flight h e)); [apply in_flight_sn|exact Hsx|done].
  - eapply sorted_sn; [|exact Hws]. intros x Hx. apply Hsx. rewrite elem_of_app. by left.
  - eapply sorted_sn; [|exact Hrs]. intros x Hx. apply Hsx. rewrite elem_of_app. by right.
  - simpl. rewrite Hb. change (am_cost (am_cut_tx e t)) with (am_cost e). lia.
Qed.

Lemma retx_cut_ok :
  (forall x, x ∈ am_retransmit e -> key_lt h e seg x) -> am_tx_inv h' (am_cut_retx e t) [hd].
Proof.
  intros Hbefore. destruct cut_store as [Hst Hkeep]. destruct cut_sn_parts as [Hsnh Hsnt].
  pose proof cut_unique as Huniq.
  assert (Hp : [hd] ++ am_segs (am_cut_retx e t) ≡ₚ hd :: t :: am_segs e).
  { unfold am_segs. simpl. f_equiv. rewrite !app_assoc. symmetry. apply Permutation_middle. }
  assert (Htx : forall x, x ∈ sl_list (am_tx e) -> sn_of h' x = sn_of h x).
  { intros x Hx. apply cut_sn. right. unfold am_segs. rewrite elem_of_app. by left. }
  assert (Hsx : forall x, x ∈ sl_list (am_wait e) ++ am_retransmit e -> sn_of h' x = sn_of h x).
  { intros x Hx. apply cut_sn. right. unfold am_segs. rewrite elem_of_app. by right. }
  assert (Hfit : forall x, x ∈ seg :: am_segs e -> seg_fits h x) by (intros x Hx; by apply (inv_fits h e [seg])).
  assert (Hnext : forall x, x ∈ am_retransmit e -> key_lt h' (am_cut_retx e t) t x).
  { intros x Hx. pose proof (Hbefore x Hx) as Hk0. unfold key_lt, seg_key in *.
    rewrite Hsnt, Hsx by (rewrite elem_of_app; by right). simpl.
    change (modulus_tx (am_cut_retx e t)) with (modulus_tx e).
    assert (Hxs : x ∈ am_segs e) by (unfold am_segs; rewrite !elem_of_app; auto).
    pose proof (fits_so h x (Hfit x ltac:(by right))). pose proof (fits_so h seg (Hfit seg ltac:(by left))).
    assert (Hlast : seg_so seg + seg_size seg <= 16000).
    { destruct (Hfit seg ltac:(by left)) as (u & _ & _ & _ & ? & Hm & _). unfold NR_SDU_MAX in Hm. lia. }
    destruct (Z.eq_dec (modulus_tx e (sn_of h seg)) (modulus_tx e (sn_of h x))) as [Heq|]; [|lia].
    rewrite Heq in Hk0 |- *. pose proof (ati_sent _ _ _ Hinv) as Hsent. simpl in Hsent.
    apply Forall_cons in Hsent as [[Hs1 _] Hsent]. rewrite Forall_forall in Hsent.
    destruct (Hsent x) as [Hs2 _]; [rewrite elem_of_app; by right|].
    apply (tx_rel_inj e) in Heq; [|done|done].
    assert (seg_sdu seg = seg_sdu x) as Hsdu.
    { apply (ati_sn _ _ _ Hinv); [by left|by right| |done]. unfold am_sn_ok in Hs1. lia. }
    destruct (inv_apart h seg (am_segs e) x (ati_store _ _ _ Hinv) Hxs) as [?|[?|?]]; [congruence|lia|lia]. }
  destruct Hinv as [Hc Hn Ha Hw _ Hte Hwe Ht Hh Hsent Hws Hrs Hu Hb Hr].
  constructor; try done.
  - exact (am_cfg_core e (am_cut_retx e t) eq_refl eq_refl eq_refl Hc).
  - by rewrite Hp.
  - eapply (forall_sn unsent); [apply unsent_sn| |exact Ht]. intros x Hx. apply Htx.
    simpl in Hx. destruct (sl_list (am_tx e)); [done|by right].
  - intros x Hx. simpl in Hx. assert (x ∈ sl_list (am_tx e)) as Hin.
    { destruct (sl_list (am_tx e)); [done|]. injection Hx as ->. by left. }
    destruct (Hh x Hx) as [?|?]; [left; by apply (unsent_sn h); [apply Htx|]|right; by apply (partial_sn h); [apply Htx|]].
  - simpl in Hsent |- *. apply Forall_cons in Hsent as [Hseg Hsent]. constructor; [by eapply in_flight_sn; [exact Hsnh|]|].
    rewrite <- Permutation_middle. apply Forall_cons. split; [by eapply in_flight_sn; [exact Hsnt|]|].
    eapply (forall_sn (fun h => in_flight h e)); [apply in_flight_sn|exact Hsx|done].
  - eapply sorted_sn; [|exact Hws]. intros x Hx. apply Hsx. rewrite elem_of_app. by left.
  - change (StronglySorted (key_lt h' (am_cut_retx e t)) (t :: am_retransmit e)). constructor.
    + eapply sorted_sn; [|exact Hrs]. intros x Hx. apply Hsx. rewrite elem_of_app. by right.
    + apply Forall_forall. exact Hnext.
  - intros x y. rewrite Hp. apply Huniq.
  - simpl. change (am_cost (am_cut_retx e t)) with (am_cost e). lia.
Qed.
End Cut.

(** The head of the retransmit list is taken. *)
Definition am_retx_taken (e : nr_rlc_entity_am) (seg : nr_rlc_sdu_segment) (rest : list nr_rlc_sdu_segment)
    : nr_rlc_entity_am :=
  am_bstatus_retx (fun r => r - am_cost e seg) {| e with am_retransmit := rest |}.

Lemma retx_taken_segs e seg rest : am_retransmit e = seg :: rest -> seg :: am_segs (am_retx_taken e seg rest) ≡ₚ am_segs e.
Proof. intros Hl. unfold am_segs. rewrite Hl. simpl. rewrite !app_assoc. apply Permutation_middle. Qed.

Lemma take_retx h e seg rest :
  am_tx_inv h e [] -> am_retransmit e = seg :: rest -> am_tx_inv h (am_retx_taken e seg rest) [seg].
Proof.
  intros [Hc Hn Ha Hw Hst Hte Hwe Ht Hh Hsent Hws Hrs Hu Hb Hr] Hl.
  pose proof (retx_taken_segs e seg rest Hl) as Hp.
  rewrite Hl in Hrs. apply StronglySorted_inv in Hrs as [Hrs _]. constructor; try done.
  - exact (am_cfg_core e (am_retx_taken e seg rest) eq_refl eq_refl eq_refl Hc).
  - by rewrite Hp.
  - rewrite Hl in Hsent. simpl in Hsent |- *. rewrite <- Permutation_middle in Hsent. exact Hsent.
  - intros x y. rewrite Hp. apply Hu.
  - simpl. rewrite Hl in Hr. simpl in Hr. change (am_cost (am_retx_taken e seg rest)) with (am_cost e). lia.
Qed.

(** ** A PDU is built *)

(** What the receiver's invariant is about. *)
Definition am_rx_part (e : nr_rlc_entity_am) :=
  (am_sn_field_length e, am_sn_modulus e, am_window_size e, am_rx e,
   (am_rx_next e, am_rx_next_status_trigger e, am_rx_highest_status e, am_rx_next_highest e),
   am_t_reassembly_start e).

Lemma am_rx_inv_part e e' : am_rx_part e' = am_rx_part e -> am_rx_inv e -> am_rx_inv e'.
Proof.
  intros [= Hl HM Hw Hrx Hn Ht Hs Hh Hst] [[Hwin Hsl Hnh Hnhp Hem Hla Hhs Hhsp Hno Hho Htr] Htm].
  assert (modulus_rx e' = modulus_rx e) as Hmod by (unfold modulus_rx; by rewrite HM, Hn).
  assert (sn_at e' = sn_at e) as Hat by (unfold sn_at; by rewrite HM, Hn).
  assert (slot e' = slot e) as Hslot by (unfold slot; by rewrite Hrx).
  assert (am_done e' = am_done e) as Hdone by (unfold am_done; by rewrite Hslot).
  assert (am_sn_ok e' = am_sn_ok e) as Hok by (unfold am_sn_ok; by rewrite HM).
  constructor; [constructor|]; unfold am_timer_ok;
    rewrite ?Hok, ?Hmod, ?Hat, ?Hslot, ?Hdone, ?Hw, ?Hn, ?Ht, ?Hs, ?Hh, ?Hst; try done.
  destruct Hwin as [Hc ? ? ? ?]. constructor; rewrite ?Hok, ?Hrx, ?Hw, ?Hn; try done. by apply (am_cfg_core e e').
Qed.

(** The bytes of the PDU that carries [seg]. *)
Definition am_sends (h : rlc_heap) (e : nr_rlc_entity_am) (seg : nr_rlc_sdu_segment) (buffer : bytes) (n : Z) : Prop :=
  n = am_cost e seg /\ exists p hdr, is_am_header e p (sn_of h seg) seg hdr /\
    take (Z.to_nat n) buffer = hdr ++ seg_bytes h seg.

Lemma am_polled_core e p : am_core (am_polled e p) = am_core e /\ am_rx_part (am_polled e p) = am_rx_part e.
Proof. by destruct p. Qed.

Lemma take_force_poll_core e p e' p' :
  take_force_poll e p = (e', p') -> am_core e' = am_core e /\ am_rx_part e' = am_rx_part e.
Proof. unfold take_force_poll. case_bool_; intros [= <- <-]; done. Qed.

Lemma count_for_poll_core e seg e' p' :
  count_for_poll e seg = (e', p') -> am_core e' = am_core e /\ am_rx_part e' = am_rx_part e.
Proof. unfold count_for_poll. intros H. destruct (take_force_poll_core _ _ _ _ H) as [-> ->]. done. Qed.

Lemma am_header_core e e' p sn seg : am_core e' = am_core e -> am_header e' p sn seg = am_header e p sn seg.
Proof. intros [= Hl _ _ _ _ _ _ _]. unfold am_header. by rewrite Hl. Qed.

Lemma am_cost_core e e' : am_core e' = am_core e -> am_cost e' = am_cost e.
Proof. intros [= Hl _ _ _ _ _ _ _]. unfold am_cost, compute_pdu_header_size. by rewrite Hl. Qed.

Lemma is_am_header_core e e' p sn seg hdr :
  am_core e' = am_core e -> is_am_header e' p sn seg hdr -> is_am_header e p sn seg hdr.
Proof.
  intros Hc [Hz Hb]. pose proof Hc as [= Hl _ _ _ _ _ _ _]. unfold is_am_header.
  rewrite <- (am_header_core e e') by done. unfold compute_pdu_header_size in *. by rewrite <- Hl.
Qed.

(** Serialization of a segment that is in the lists. *)
Lemma am_serialize_inv h e e1 seg buffer size p :
  am_tx_inv h e [] -> am_core e1 = am_core e -> seg ∈ sl_list (am_wait e) -> am_cost e seg <= size <= zlen buffer ->
  exists buffer', serialize_sdu h e1 seg buffer size p = Ok (am_polled e1 p, buffer', am_cost e seg) /\
    zlen buffer' = zlen buffer /\ am_sends h e seg buffer' (am_cost e seg).
Proof.
  intros Hinv Hcore Hin Hsize. assert (Hinv1 : am_tx_inv h e1 []) by by apply (am_tx_inv_core h e).
  assert (Hw : am_wait e1 = am_wait e) by (by injection Hcore).
  assert (Hfit : seg_fits h seg).
  { apply (inv_fits h e []); [done|]. unfold am_segs. rewrite !elem_of_app. auto. }
  assert (Hsn : am_sn_ok e1 (sn_of h seg)).
  { pose proof (ati_sent _ _ _ Hinv1) as Hs. rewrite Forall_forall in Hs. apply Hs.
    rewrite Hw, !elem_of_app. auto. }
  pose proof Hfit as (s & Hs & _). assert (sdu_sn s = sn_of h seg) as Heq by (unfold sn_of; by rewrite Hs).
  pose proof (am_cost_core _ _ Hcore) as Hcost.
  destruct (am_serialize_ok h e1 seg s buffer size p) as (buffer' & hdr & Hser & Hl & Hh & Ht);
    [apply Hinv1|done|by rewrite Heq|done|by rewrite Hcost|].
  rewrite Hcost in Hser, Ht. rewrite Heq in Hh. exists buffer'. split_and!; [done|done|]. split; [done|].
  exists p, hdr. split; [by apply (is_am_header_core e e1)|done].
Qed.

(** What a call that sends [seg] gives back. *)
Definition am_sent (h : rlc_heap) (e : nr_rlc_entity_am) (seg : nr_rlc_sdu_segment) (buffer : bytes)
    (r : res (rlc_heap * nr_rlc_entity_am * bytes * Z)) : Prop :=
  exists e' buffer', r = Ok (h, e', buffer', am_cost e seg) /\ am_tx_inv h e' [] /\
    am_rx_part e' = am_rx_part e /\ sl_list (am_wait e') ≡ₚ seg :: sl_list (am_wait e) /\
    am_tx e' = am_tx e /\ am_retransmit e' = am_retransmit e /\
    zlen buffer' = zlen buffer /\ am_sends h e seg buffer' (am_cost e seg).

Lemma am_sent_ok h e seg w e1 p buffer size f c :
  am_tx_inv h {| e with am_wait := w |} [] -> sl_list w ≡ₚ seg :: sl_list (am_wait e) ->
  am_core e1 = am_core {| e with am_wait := w |} -> am_rx_part e1 = am_rx_part e ->
  am_cost e seg <= size <= zlen buffer ->
  (forall e2 : nr_rlc_entity_am, am_core (f e2) = am_core e2 /\ am_rx_part (f e2) = am_rx_part e2) ->
  (forall e2 buffer', c (e2, buffer', am_cost e seg) = Ok (h, f e2, buffer', am_cost e seg)) ->
  am_sent h e seg buffer (rbind (serialize_sdu h e1 seg buffer size p) c).
Proof.
  intros Hinv Hw Hcore Hrx Hsize Hf Hc. set (ew := {| e with am_wait := w |}) in *.
  destruct (am_serialize_inv h ew e1 seg buffer size p) as (buffer' & -> & Hl & Hs); [done|done| |done|].
  { simpl. rewrite Hw. by left. }
  cbn [rbind]. rewrite Hc. destruct (Hf (am_polled e1 p)) as [H1 H2]. destruct (am_polled_core e1 p) as [H3 H4].
  eexists _, buffer'. split; [done|].
  assert (Hc2 : am_core (f (am_polled e1 p)) = am_core ew) by congruence. pose proof Hc2 as [= _ _ _ _ _ _ Ht Hw2 Hr].
  split_and!; try done; [by apply (am_tx_inv_core h ew)|congruence|by rewrite Hw2].
Qed.

Lemma am_resend_ok h e seg buffer size :
  am_tx_inv h e [seg] -> am_cost e seg <= size <= zlen buffer ->
  am_sent h e seg buffer (am_resend_segment h e seg buffer size).
Proof.
  intros Hinv Hsize. destruct (put_hand_ok h e seg Hinv) as (w & Hput & Hinvw & Hw).
  unfold am_resend_segment. rewrite Hput. cbn [rbind].
  destruct (take_force_poll _ _) as [e1 p] eqn:Hp. destruct (take_force_poll_core _ _ _ _ Hp) as [Hc1 Hr1].
  apply (am_sent_ok h e seg w _ _ _ _
    (am_stats (fun s => let s := stats_txpdu (am_cost e seg) s in
                        {| s with txpdu_retx_pkts := u32 (txpdu_retx_pkts s + 1);
                                  txpdu_retx_bytes := u32 (txpdu_retx_bytes s + am_cost e seg) |}))); done.
Qed.

Lemma am_send_ok h e now seg buffer size :
  am_tx_inv h e [seg] -> am_cost e seg <= size <= zlen buffer ->
  am_sent h e seg buffer (am_send_segment h e now seg buffer size).
Proof.
  intros Hinv Hsize. destruct (put_hand_ok h e seg Hinv) as (w & Hput & Hinvw & Hw).
  assert (Hfit : seg_fits h seg) by (apply (inv_fits h e [seg]); [done|by left]). destruct Hfit as (s & Hs & _).
  unfold am_send_segment. rewrite Hput. cbn [rbind].
  destruct (count_for_poll _ _) as [e1 p] eqn:Hp. destruct (count_for_poll_core _ _ _ _ Hp) as [Hc1 Hr1].
  apply (am_sent_ok h e seg w _ _ _ _
    (fun e2 => {| (am_stats (stats_txpdu (am_cost e seg)) e2) with
                  am_common := entity_sojourn now (sdu_time_of_arrival s)
                                 (am_common (am_stats (stats_txpdu (am_cost e seg)) e2)) |})); try done.
  - intros e2. unfold am_core, am_rx_part. simpl. unfold entity_sojourn. by case_bool_.
  - intros e2 b. cbv beta iota. rewrite (proj2 (heap_get_lookup _ _ _) Hs). done.
Qed.

(** The bytes of SDUs the lists hold. *)
Definition seg_span (seg : nr_rlc_sdu_segment) : list (nat * Z) :=
  map (pair (seg_sdu seg)) (seqZ (seg_so seg) (seg_size seg)).

Definition spans (l : list nr_rlc_sdu_segment) : list (nat * Z) := mjoin (map seg_span l).

Definition am_held (e : nr_rlc_entity_am) : list (nat * Z) := spans (am_segs e).

#[export] Instance spans_proper : Proper (Permutation ==> Permutation) spans.
Proof. intros l k Hlk. unfold spans. by rewrite Hlk. Qed.

Lemma spans_cut seg k a l :
  0 < k < seg_size seg -> spans (seg_cut_head seg k :: seg_cut_tail seg k a :: l) = spans (seg :: l).
Proof.
  intros Hk. unfold spans. simpl. rewrite app_assoc. f_equal. unfold seg_span. simpl. rewrite <- map_app. f_equal.
  replace (seg_size seg) with (k + (seg_size seg - k)) at 2 by lia. by rewrite seqZ_app by lia.
Qed.

(** The segment a PDU is made of: the head of the retransmit list, or that of
    the transmission list when the window is open and no retransmission was
    possible. *)
Definition am_source (e : nr_rlc_entity_am) (size : Z) (src : nr_rlc_sdu_segment) : Prop :=
  head (am_retransmit e) = Some src \/
  (head (sl_list (am_tx e)) = Some src /\ is_window_stalling e = false /\
   forall r, head (am_retransmit e) = Some r -> size < compute_pdu_header_size e r + 1).

(** One call that builds a data PDU, or none: no byte leaves the lists. *)
Record am_generated (e : nr_rlc_entity_am) (h : rlc_heap) (buffer : bytes) (size : Z)
    (h' : rlc_heap) (e' : nr_rlc_entity_am) (buffer' : bytes) (n : Z) : Prop := {
  agn_inv : am_tx_inv h' e' [];
  agn_rx : am_rx_part e' = am_rx_part e;
  agn_len : zlen buffer' = zlen buffer;
  agn_size : n = 0 \/ 3 <= n <= size;
  agn_idle : n = 0 -> h' = h /\ e' = e /\ buffer' = buffer;
  agn_pdu : n <> 0 -> exists src seg, am_source e size src /\ seg_sdu seg = seg_sdu src /\ seg_so seg = seg_so src /\
    seg ∈ sl_list (am_wait e') /\ am_sends h' e' seg buffer' n;
  agn_held : am_held e' ≡ₚ am_held e;
  agn_none : n = 0 -> forall r, head (am_retransmit e) = Some r -> size < compute_pdu_header_size e r + 1
}.

Definition am_gen_ok (h : rlc_heap) (e : nr_rlc_entity_am) (buffer : bytes) (size : Z)
    (r : res (rlc_heap * nr_rlc_entity_am * bytes * Z)) : Prop :=
  exists h' e' buffer' n, r = Ok (h', e', buffer', n) /\ am_generated e h buffer size h' e' buffer' n.

Lemma am_gen_idle h e buffer size :
  am_tx_inv h e [] -> (forall r, head (am_retransmit e) = Some r -> size < compute_pdu_header_size e r + 1) ->
  am_gen_ok h e buffer size (Ok (h, e, buffer, 0)).
Proof. intros Hinv Hnone. eexists _, _, _, _. split; [done|]. split; auto; done. Qed.

Lemma am_sends_core h e e' seg buffer n : am_sn_field_length e' = am_sn_field_length e -> am_sends h e seg buffer n -> am_sends h e' seg buffer n.
Proof.
  intros Hl (-> & p & hdr & [Hz Hb] & Ht).
  assert (compute_pdu_header_size e' seg = compute_pdu_header_size e seg) as Hs by (unfold compute_pdu_header_size; by rewrite Hl).
  split; [unfold am_cost; by rewrite Hs|]. exists p, hdr. split; [|done]. split; [by rewrite Hs|].
  unfold am_header. by rewrite Hl.
Qed.

Lemma am_gen_of_sent h e h1 e1 seg src buffer size r :
  am_sent h1 e1 seg buffer r -> seg_fits h1 seg -> am_rx_part e1 = am_rx_part e -> am_cost e1 seg <= size ->
  am_source e size src -> seg_sdu seg = seg_sdu src -> seg_so seg = seg_so src ->
  spans (seg :: am_segs e1) ≡ₚ am_held e -> am_gen_ok h e buffer size r.
Proof.
  intros (e' & buffer' & -> & Hinv & Hrx & Hw & Ht & Hr & Hl & Hs) Hfit Hrx1 Hsize Hsrc Ha Hso Hheld.
  pose proof (fits_so h1 seg Hfit) as [_ Hsz]. pose proof (am_header_size_range e1 seg).
  eexists _, e', buffer', _. split; [done|]. unfold am_cost in *. split; try done; [congruence|right; lia|lia| | |lia].
  - intros _. exists src, seg. split_and!; try done; [rewrite Hw; by left|]. eapply am_sends_core; [|done]. by injection Hrx.
  - rewrite <- Hheld. unfold am_held. f_equiv. unfold am_segs. rewrite Ht, Hr, Hw. simpl. symmetry. apply Permutation_middle.
Qed.

Lemma inv_hand_fits h e seg : am_tx_inv h e [seg] -> seg_fits h seg.
Proof. intros Hinv. apply (inv_fits h e [seg]); [done|by left]. Qed.

(** The size test, then the segment as it is or its first part. *)
Lemma cut_cost e seg size :
  am_cost e (seg_cut_head seg (size - compute_pdu_header_size e seg)) = size.
Proof. unfold am_cost, compute_pdu_header_size. simpl. lia. Qed.

Lemma generate_retx_ok h e buffer size :
  am_tx_inv h e [] -> am_retransmit e <> [] -> size <= zlen buffer ->
  am_gen_ok h e buffer size (generate_retx_pdu h e buffer size).
Proof.
  intros Hinv Hne Hsize. unfold generate_retx_pdu. destruct (am_retransmit e) as [|seg rest] eqn:Hl; [done|].
  destruct (size <? compute_pdu_header_size e seg + 1) eqn:Hsm.
  { apply am_gen_idle; [done|]. rewrite Hl. intros r [= <-]. lia. }
  cbv zeta. pose proof (take_retx h e seg rest Hinv Hl) as Hinv1. pose proof (inv_hand_fits _ _ _ Hinv1) as Hfit.
  change (am_bstatus_retx (fun r => r - (compute_pdu_header_size e seg + seg_size seg)) {| e with am_retransmit := rest |})
    with (am_retx_taken e seg rest).
  change (compute_pdu_header_size e seg + seg_size seg) with (am_cost e seg).
  assert (Hheld : spans (seg :: am_segs (am_retx_taken e seg rest)) ≡ₚ am_held e) by (unfold am_held; by rewrite (retx_taken_segs e seg rest Hl)).
  assert (Hsrc : am_source e size seg) by (left; by rewrite Hl).
  set (e1 := am_retx_taken e seg rest) in *.
  destruct (size <? am_cost e seg) eqn:Hcut.
  2:{ apply (am_gen_of_sent h e h e1 seg seg); try done; [|change (am_cost e1 seg) with (am_cost e seg); lia].
      apply am_resend_ok; [done|]. change (am_cost e1 seg) with (am_cost e seg). lia. }
  destruct Hfit as (s & Hs & _).
  rewrite (am_resegment_ok h e1 seg s size Hs). cbn [rbind].
  change (compute_pdu_header_size e1 seg) with (compute_pdu_header_size e seg).
  set (k := size - compute_pdu_header_size e seg). set (t := seg_cut_tail seg k (heap_brk h)).
  assert (Hk : 0 < k < seg_size seg) by (unfold k, am_cost in *; lia).
  pose proof (retx_cut_ok h e1 seg k s Hinv1 Hs Hk) as Hinv2.
  specialize (Hinv2 ltac:(intros x Hx; pose proof (ati_retx_sorted _ _ _ Hinv) as Hss; rewrite Hl in Hss;
    apply StronglySorted_inv in Hss as [_ Hss]; rewrite Forall_forall in Hss; by apply Hss)).
  change (am_bstatus_retx _ {| e1 with am_retransmit := t :: am_retransmit e1 |}) with (am_cut_retx e1 t).
  set (e2 := am_stats stats_segmented (am_cut_retx e1 t)).
  assert (Hinv3 : am_tx_inv (heap_cut h seg s) e2 [seg_cut_head seg k]) by by apply (am_tx_inv_core _ (am_cut_retx e1 t)).
  assert (Hcost : am_cost e2 (seg_cut_head seg k) = size) by apply (cut_cost e).
  apply (am_gen_of_sent h e (heap_cut h seg s) e2 (seg_cut_head seg k) seg); try done; [|by eapply inv_hand_fits|lia|].
  - apply am_resend_ok; [done|lia].
  - rewrite <- Hheld, <- (spans_cut seg k (heap_brk h)) by done. f_equiv. f_equiv. change (am_segs e2) with (am_segs (am_cut_retx e1 t)).
    unfold am_segs. simpl. rewrite !app_assoc. symmetry. apply Permutation_middle.
Qed.

(** The head of the transmission list in hand, with its sequence number. *)
Lemma take_tx_ok h e seg rest :
  am_tx_inv h e [] -> sl_list (am_tx e) = seg :: rest -> is_window_stalling e = false ->
  exists h1 e1, assign_sn h (am_tx_taken e seg rest) seg = Ok (h1, e1) /\
    am_tx_inv h1 e1 [seg] /\ partial h1 e1 seg /\ Forall (unsent h1) (sl_list (am_tx e1)) /\
    am_rx_part e1 = am_rx_part e /\ am_sn_field_length e1 = am_sn_field_length e /\
    sl_list (am_tx e1) = rest /\ sl_end (am_tx e1) = sl_end (am_tx (am_tx_taken e seg rest)) /\
    am_segs e1 = am_segs (am_tx_taken e seg rest).
Proof.
  intros Hinv Hl Hns. pose proof (not_stalling e (ati_cfg _ _ _ Hinv) (ati_next _ _ _ Hinv) (ati_ack _ _ _ Hinv) Hns) as Hwin.
  assert (Hfit : seg_fits h seg) by (apply (inv_fits h e []); [done|]; unfold am_segs; rewrite Hl; by left).
  pose proof Hfit as (s & Hs & _). assert (Hsn : sn_of h seg = sdu_sn s) by (unfold sn_of; by rewrite Hs).
  destruct (taken_tail _ _ _ _ Hl (ati_tail _ _ _ Hinv)) as (_ & _ & Hrest).
  unfold assign_sn. rewrite (proj2 (heap_get_lookup _ _ _) Hs). cbn [rbind].
  destruct (ati_head _ _ _ Hinv seg) as [Hun|Hpart]; [by rewrite Hl|..].
  - pose proof Hun as (Hm1 & _). rewrite <- Hsn, Hm1. cbn [Z.eqb Z.opp].
    destruct (take_unsent h e seg rest s Hinv Hl Hun Hwin Hs) as [Hinv1 Hp].
    eexists _, _. split; [done|]. split_and!; try done.
    destruct (Hinv1) as [_ _ _ _ _ _ _ Ht Hh _ _ _ _ _ _]. simpl. simpl in Ht, Hh.
    destruct rest as [|r rest]; [done|]. constructor; [|done].
    destruct (Hh r eq_refl) as [?|Hpr]; [done|]. exfalso.
    apply Forall_cons in Hrest as [(Hr1 & _) _]. destruct Hpr as [Hpr _].
    assert (sn_of (heap_set h (seg_sdu seg) {| s with sdu_sn := am_tx_next e |}) r = -1) as Hx.
    { rewrite (sn_of_set h _ s) by done. rewrite bool_decide_false; [done|].
      apply (whole_alone h seg (am_segs (am_tx_taken e seg (r :: rest)))).
      - change (seg :: ?l) with ([seg] ++ l). rewrite (tx_taken_segs e seg (r :: rest) Hl). apply Hinv.
      - apply Hun.
      - apply Hun.
      - unfold am_segs. simpl. by left. }
    unfold am_sn_ok in Hpr. change (am_tx_next (am_tx_taken e seg (r :: rest))) with (am_tx_next e) in Hpr. rewrite Hx in Hpr. lia.
  - pose proof Hpart as [Hok _]. unfold am_sn_ok in Hok.
    rewrite (proj2 (Z.eqb_neq _ _)) by lia. eexists _, _. split; [done|].
    split_and!; try done. by apply take_partial.
Qed.

Lemma generate_tx_ok h e now buffer size :
  am_tx_inv h e [] -> size <= zlen buffer ->
  (forall r, head (am_retransmit e) = Some r -> size < compute_pdu_header_size e r + 1) ->
  am_gen_ok h e buffer size (generate_tx_pdu h e now buffer size).
Proof.
  intros Hinv Hsize Hnoretx. unfold generate_tx_pdu. destruct (is_window_stalling e) eqn:Hns; [by apply am_gen_idle|].
  destruct (sl_list (am_tx e)) as [|seg rest] eqn:Hl; [by apply am_gen_idle|].
  destruct (size <? compute_pdu_header_size e seg + 1) eqn:Hsm; [by apply am_gen_idle|]. cbv zeta.
  destruct (take_tx_ok h e seg rest Hinv Hl Hns) as (h1 & e1 & Has & Hinv1 & Hpart & Hun & Hrx & Hlen & Hrest & Hend & Hsegs).
  assert (Hheld : spans (seg :: am_segs e1) = am_held e).
  { unfold am_held. by rewrite Hsegs, <- (tx_taken_segs e seg rest Hl). }
  assert (Hsrc : am_source e size seg) by (right; by rewrite Hl).
  change (am_bstatus_tx (fun t => t - (compute_pdu_header_size e seg + seg_size seg)) _) with (am_tx_taken e seg rest).
  change (compute_pdu_header_size e seg + seg_size seg) with (am_cost e seg). rewrite Has. cbn [rbind].
  assert (Hhs : compute_pdu_header_size e1 seg = compute_pdu_header_size e seg) by (unfold compute_pdu_header_size; by rewrite Hlen).
  pose proof (inv_hand_fits _ _ _ Hinv1) as Hfit.
  destruct (size <? am_cost e seg) eqn:Hcut.
  2:{ apply (am_gen_of_sent h e h1 e1 seg seg); try done; [apply am_send_ok; [done|]| |by rewrite Hheld]; unfold am_cost in *; lia. }
  destruct Hfit as (s & Hs & _). rewrite (am_resegment_ok h1 e1 seg s size Hs). cbn [rbind]. rewrite Hhs.
  set (k := size - compute_pdu_header_size e seg). set (t := seg_cut_tail seg k (heap_brk h1)).
  assert (Hk : 0 < k < seg_size seg) by (unfold k, am_cost in *; lia).
  pose proof (tx_cut_ok h1 e1 seg k s Hinv1 Hs Hk Hpart Hun) as Hinv2. fold t in Hinv2.
  match goal with |- context [am_send_segment _ ?x _ _ _ _] => set (e2 := x) end.
  assert (Hinv3 : am_tx_inv (heap_cut h1 seg s) e2 [seg_cut_head seg k]) by by apply (am_tx_inv_core _ (am_cut_tx e1 t)).
  assert (Hcost : am_cost e2 (seg_cut_head seg k) = size).
  { unfold k. rewrite <- Hhs. apply (cut_cost e1). }
  apply (am_gen_of_sent h e (heap_cut h1 seg s) e2 (seg_cut_head seg k) seg); try done; [|by eapply inv_hand_fits|lia|].
  - apply am_send_ok; [done|lia].
  - change (am_segs e2) with (t :: am_segs e1). unfold t. by rewrite spans_cut, Hheld.
Qed.

Lemma generate_data_ok h e now buffer size :
  am_tx_inv h e [] -> size <= zlen buffer -> am_gen_ok h e buffer size (generate_data_pdu h e now buffer size).
Proof.
  intros Hinv Hsize. unfold generate_data_pdu. destruct (am_retransmit e) as [|x l] eqn:Hr; [apply generate_tx_ok; [done|done|by rewrite Hr]|].
  destruct (generate_retx_ok h e buffer size Hinv) as (h' & e' & buffer' & n & -> & Hg); [by rewrite Hr|done|]. cbn [rbind].
  destruct (Z.eqb_spec n 0) as [->|Hn].
  - destruct (agn_idle _ _ _ _ _ _ _ _ Hg eq_refl) as (-> & -> & ->). apply generate_tx_ok; [done|done|].
    by apply (agn_none _ _ _ _ _ _ _ _ Hg).
  - by exists h', e', buffer', n.
Qed.
