(* ===== verification/RlcAmOps.v ===== *)
(** The NR RLC AM entity: SDUs from above, discard, re-establishment, and the
    poll retransmission timer. *)

From S2P Require Import Prelude RlcPdu RlcSdu TimeStat RlcEntity RlcUm RlcRxManager RlcAm.
From S2P Require Import RlcAmStatus RlcAmTx RlcAmRx RlcAmStore RlcAmTxInv.

(** ** SDUs from the upper layer *)

(** A list of SDUs to send with a new one at its end. *)
Lemma tail_snoc {A} (l : list A) x : tail (l ++ [x]) = [] \/ tail (l ++ [x]) = tail l ++ [x].
Proof. destruct l; simpl; auto. Qed.

Lemma am_tx_append h h' e seg tx :
  am_tx_inv h e [] -> heap_keeps (am_segs e) h h' -> store_ok h' (seg :: am_segs e) ->
  unsent h' seg -> (forall t, t ∈ am_segs e -> seg_sdu t <> seg_sdu seg) ->
  sl_list tx = sl_list (am_tx e) ++ [seg] -> end_ok tx ->
  am_tx_inv h' (am_bstatus_tx (fun t => t + am_cost e seg) {| e with am_tx := tx |}) [].
Proof.
  intros Hinv Hk Hst Hun Hne Hl Hend. pose proof (store_ok_tail _ _ _ Hst) as Hst0.
  destruct (am_tx_inv_keeps h h' e [] Hk Hst0 Hinv) as [Hc Hn Ha Hw _ Hte Hwe Ht Hh Hsent Hws Hrs Hu Hb Hr].
  set (e' := am_bstatus_tx _ _).
  assert (Hp : [] ++ am_segs e' ≡ₚ seg :: am_segs e).
  { unfold am_segs. simpl. rewrite Hl, <- app_assoc. simpl. symmetry. apply Permutation_middle. }
  constructor; try done.
  - exact (am_cfg_core e e' eq_refl eq_refl eq_refl Hc).
  - by rewrite Hp.
  - simpl. rewrite Hl. destruct (tail_snoc (sl_list (am_tx e)) seg) as [-> | ->]; [done|].
    apply Forall_app. split; [done|by apply Forall_singleton].
  - intros s. simpl. rewrite Hl. destruct (sl_list (am_tx e)) as [|x l] eqn:Hx; simpl; [intros [= <-]; by left|].
    intros Hs. apply Hh. exact Hs.
  - intros x y. rewrite Hp. intros [->|Hx]%elem_of_cons [->|Hy]%elem_of_cons; [done|..|by apply Hu];
      destruct Hun as (Hun & _); rewrite Hun; lia.
  - simpl. rewrite Hb, Hl, zsum_app. simpl. change (am_cost e') with (am_cost e). lia.
Qed.

Lemma tx_addresses h e : am_tx_inv h e [] -> NoDup (map seg_addr (sl_list (am_tx e))).
Proof.
  intros Hinv. pose proof (st_addr _ _ (ati_store _ _ _ Hinv)) as Hnd. simpl in Hnd. unfold am_segs in Hnd.
  rewrite map_app in Hnd. by apply NoDup_app in Hnd as (? & _ & _).
Qed.

Lemma am_enqueue_ok h e now buffer size id :
  am_tx_inv h e [] -> 0 < size <= NR_SDU_MAX -> size <= zlen buffer ->
  exists h' e', am_enqueue_sdu h e now buffer size id = Ok (h', e') /\ am_tx_inv h' e' [] /\
    am_rx_part e' = am_rx_part e.
Proof.
  intros Hinv Hsize Hbuf. unfold am_enqueue_sdu. cbv zeta.
  destruct (store_new h (am_segs e) buffer size id (ati_store _ _ _ Hinv) Hsize Hbuf)
    as (h1 & seg & Hnew & Hst & Hk & Hadr & Hso & Hsz & Hf & Hla & Hsn & Hfr & s & Hs & _).
  rewrite Hnew. cbn [rbind]. set (e0 := am_stats _ _).
  assert (Hinv0 : am_tx_inv h e0 []) by by apply (am_tx_inv_core h e).
  destruct (segment_list_append_ok (am_tx e0) seg) as (tx & Happ & Hl & [_ Hend]).
  { split; [by apply (tx_addresses h e0)|apply Hinv0]. }
  { pose proof (st_addr _ _ Hst) as Hnd. simpl in Hnd. apply NoDup_cons in Hnd as [Hnd _]. intros Hin. apply Hnd.
    unfold am_segs. rewrite map_app, elem_of_app. by left. }
  rewrite Happ. cbn [rbind].
  assert (Hun : unsent h1 seg) by by split_and!.
  pose proof (am_tx_append h h1 e0 seg tx Hinv0 Hk Hst Hun Hfr Hl Hend) as Hinv1.
  match goal with |- context [am_bstatus_tx ?f ?x] => change (am_bstatus_tx f x) with (am_bstatus_tx (fun t => t + am_cost e0 seg) {| e0 with am_tx := tx |}) end.
  set (e1 := am_bstatus_tx _ _) in *.
  destruct (avg_time_is_on _).
  - rewrite (proj2 (heap_get_lookup _ _ _) Hs). cbn [rbind]. eexists _, e1. split; [done|]. split; [|done].
    apply (am_tx_inv_keeps h1); [by eapply heap_keeps_set; [exact Hs|split]| |done].
    eapply store_ok_set; [exact Hs|done|done|apply Hinv1].
  - by exists h1, e1.
Qed.

Lemma am_reset_log_core e : am_core (am_reset_log e) = am_core e /\ am_rx_part (am_reset_log e) = am_rx_part e.
Proof. unfold am_reset_log. by case_bool_. Qed.

(** An SDU is queued, refused when there is no room, or the process stops
    because it is too long. *)
Lemma am_recv_sdu_ok h e now buffer size id :
  am_tx_inv h e [] -> 0 < size <= zlen buffer ->
  if NR_SDU_MAX <? size then nr_rlc_entity_am_recv_sdu h e now buffer size id = Fail FExit
  else exists h' e', nr_rlc_entity_am_recv_sdu h e now buffer size id = Ok (h', e') /\ am_tx_inv h' e' [] /\
    am_rx_part e' = am_rx_part e.
Proof.
  intros Hinv Hsize. unfold nr_rlc_entity_am_recv_sdu. case_bool_.
  - by rewrite (proj2 (Z.leb_gt _ _)) by lia.
  - rewrite (proj2 (Z.leb_le _ _)) by lia. cbn [rbind assert_]. set (e0 := am_reset_log _).
    destruct (am_reset_log_core (am_stats (fun s => {| s with rxsdu_pkts := u32 (rxsdu_pkts s + 1) |}) e)) as [Hc Hr].
    fold e0 in Hc, Hr. assert (Hinv0 : am_tx_inv h e0 []) by by apply (am_tx_inv_core h e).
    case_bool_.
    + eexists h, _. split; [done|]. split; [by apply (am_tx_inv_core h e0)|]. exact Hr.
    + destruct (am_enqueue_ok h e0 now buffer size id Hinv0) as (h' & e' & -> & Hinv' & Hrx); [lia..|].
      exists h', e'. split_and!; [done|done|]. rewrite Hrx. exact Hr.
Qed.

(** ** Discard *)

Lemma find_id_ok h id l :
  Forall (seg_fits h) l ->
  exists pre r, find_upper_layer_id h id l = Ok (pre, r) /\
    match r with None => pre = l | Some (cur, post) => l = pre ++ cur :: post end.
Proof.
  induction 1 as [|c l (s & Hs & _) Hl IH]; simpl; [by eexists _, _|].
  rewrite (proj2 (heap_get_lookup _ _ _) Hs). cbn [rbind]. case_bool_.
  - destruct IH as (pre & r & -> & Hr). cbn [rbind]. eexists _, _. split; [done|]. destruct r as [[]|]; by subst.
  - eexists _, _. by split.
Qed.

Lemma end_ok_remove pre cur post en :
  NoDup (map seg_addr (pre ++ cur :: post)) -> end_ok (mk_seg_list (pre ++ cur :: post) en) ->
  end_ok (mk_seg_list (pre ++ post) (if bool_decide (en = Some (seg_addr cur)) then seg_addr <$> last pre else en)).
Proof. intros Hnd Hend. by destruct (seg_list_wf_remove pre cur post en). Qed.

Lemma tail_remove {A} (P : A -> Prop) pre c post :
  Forall P (tail (pre ++ c :: post)) -> Forall P (tail (pre ++ post)) /\
  (forall x, head (pre ++ post) = Some x -> head (pre ++ c :: post) = Some x \/ P x).
Proof.
  destruct pre as [|p pre]; simpl.
  - intros H. split; [by apply Forall_tail|]. intros x Hx. right. destruct H; [done|]. by injection Hx as ->.
  - intros [H1 H2]%Forall_app. apply Forall_cons in H2 as [_ H2]. split; [by apply Forall_app|]. auto.
Qed.

(** A segment of the transmission list is taken out and freed. *)
Lemma am_tx_remove h e pre cur post en :
  am_tx_inv h e [] -> sl_list (am_tx e) = pre ++ cur :: post ->
  en = (if bool_decide (sl_end (am_tx e) = Some (seg_addr cur)) then seg_addr <$> last pre else sl_end (am_tx e)) ->
  exists h' r, nr_rlc_free_sdu_segment h cur = Ok (h', r) /\
    am_tx_inv h' (am_bstatus_tx (fun t => t - am_cost e cur) {| e with am_tx := mk_seg_list (pre ++ post) en |}) [].
Proof.
  intros Hinv Hl ->. set (e' := am_bstatus_tx _ _).
  assert (Hp : am_segs e ≡ₚ cur :: am_segs e').
  { unfold am_segs. simpl. rewrite Hl, <- !app_assoc. simpl. symmetry. apply Permutation_middle. }
  pose proof (ati_store _ _ _ Hinv) as Hst. simpl in Hst. rewrite Hp in Hst.
  destruct (store_free h cur (am_segs e') Hst) as (h' & r & -> & Hst' & Hk & _). exists h', r. split; [done|].
  apply (am_tx_inv_keeps h); [done|done|].
  pose proof (tx_addresses h e Hinv) as Hnd. rewrite Hl in Hnd.
  destruct Hinv as [Hc Hn Ha Hw _ Hte Hwe Ht Hh Hsent Hws Hrs Hu Hb Hr].
  rewrite Hl in Ht. destruct (tail_remove _ _ _ _ Ht) as [Ht' Hh'].
  constructor; try done.
  - exact (am_cfg_core e e' eq_refl eq_refl eq_refl Hc).
  - by eapply store_ok_tail.
  - apply end_ok_remove; [done|]. unfold end_ok in *. by rewrite Hte, Hl.
  - intros s Hs. destruct (Hh' s Hs) as [H|H]; [|by left]. apply Hh. by rewrite Hl.
  - intros x y Hx Hy. apply Hu; simpl; rewrite Hp; by right.
  - simpl. rewrite Hb, Hl, !zsum_app. simpl. change (am_cost e') with (am_cost e). lia.
Qed.

Lemma tx_fits h e : am_tx_inv h e [] -> Forall (seg_fits h) (sl_list (am_tx e)).
Proof.
  intros Hinv. apply Forall_forall. intros s Hs. apply (inv_fits h e []); [done|].
  unfold am_segs. simpl. rewrite elem_of_app. by left.
Qed.

Lemma am_discard_sdu_ok h e id :
  am_tx_inv h e [] ->
  exists h' e', nr_rlc_entity_am_discard_sdu h e id = Ok (h', e') /\ am_tx_inv h' e' [] /\ am_rx_part e' = am_rx_part e.
Proof.
  intros Hinv. pose proof (tx_fits h e Hinv) as Hfit. unfold nr_rlc_entity_am_discard_sdu.
  destruct (find_id_ok h id (sl_list (am_tx e)) Hfit) as (pre & r & -> & Hr). cbn [rbind].
  destruct r as [[cur post]|]; [|by exists h, e]. case_bool_; [by exists h, e|]. cbv zeta.
  rewrite Hr in Hfit. apply Forall_app in Hfit as [_ Hfit]. apply Forall_cons in Hfit as [(s & Hs & _) _].
  rewrite (proj2 (heap_get_lookup _ _ _) Hs). cbn [rbind].
  destruct (am_tx_remove h e pre cur post _ Hinv Hr eq_refl) as (h' & r & -> & Hinv'). cbn [rbind].
  eexists h', _. split; [done|]. split; [|done]. by eapply am_tx_inv_core; [|exact Hinv'].
Qed.

(** ** Re-establishment *)

(** An entity with nothing to transmit. *)
Lemma am_tx_inv_fresh h e :
  am_cfg e -> store_ok h [] -> am_tx e = mk_seg_list [] None -> am_wait e = mk_seg_list [] None -> am_retransmit e = [] ->
  am_tx_next e = 0 -> am_tx_next_ack e = 0 -> bs_tx_size (bstatus (am_common e)) = 0 ->
  bs_retx_size (bstatus (am_common e)) = 0 -> am_tx_inv h e [].
Proof.
  intros Hc Hst Ht Hw Hr Hn Ha Hb1 Hb2. pose proof (cfg_bounds e Hc) as [Hw0 HM].
  assert (am_sn_ok e 0) by (unfold am_sn_ok; lia).
  assert (am_segs e = []) as Hs by (unfold am_segs; by rewrite Ht, Hw, Hr).
  constructor; rewrite ?Hs, ?Ht, ?Hw, ?Hr, ?Hn, ?Ha, ?Hb1, ?Hb2; simpl; try done; try apply SSorted_nil.
  - unfold modulus_tx. rewrite Ha. simpl. lia.
  - intros s t Hin. by apply not_elem_of_nil in Hin.
Qed.

(** The entity as [clear_entity] leaves it. *)
Lemma am_clear_entity_ok h e :
  am_tx_inv h e [] -> rm_size (am_rx e) = am_window_size e ->
  exists h' e', clear_entity h e = Ok (h', e') /\ am_tx_inv h' e' [] /\ am_rx_inv e' /\
    am_segs e' = [] /\ am_rx e' = nr_rlc_new_rx_manager (am_window_size e) /\ am_rx_size e' = 0.
Proof.
  intros Hinv Hsize. pose proof (ati_store _ _ _ Hinv) as Hst. simpl in Hst. unfold am_segs in Hst.
  destruct (store_free_list h _ _ Hst) as (h1 & H1 & Hst1 & _ & Hb1).
  destruct (store_free_list h1 _ _ Hst1) as (h2 & H2 & Hst2 & _ & Hb2).
  rewrite <- (app_nil_r (am_retransmit e)) in Hst2.
  destruct (store_free_list h2 _ _ Hst2) as (h3 & H3 & Hst3 & _ & Hb3).
  unfold clear_entity. rewrite H1. cbn [rbind]. rewrite H2. cbn [rbind]. rewrite H3. cbn [rbind].
  pose proof (ati_cfg _ _ _ Hinv) as Hc. pose proof (cfg_bounds e Hc) as [Hw HM].
  match goal with |- exists h' e', Ok (_, ?x) = _ /\ _ => set (e' := x) end.
  assert (Hrx : am_rx e' = nr_rlc_new_rx_manager (am_window_size e)).
  { change (nr_rlc_clear_rx_manager (am_rx e) = nr_rlc_new_rx_manager (am_window_size e)).
    by rewrite clear_rx_manager_new, Hsize. }
  assert (Hc' : am_cfg e') by exact (am_cfg_core e e' eq_refl eq_refl eq_refl Hc).
  exists h3, e'. split_and!; try done.
  - by apply am_tx_inv_fresh.
  - by apply am_rx_inv_fresh; rewrite ?Hrx.
Qed.

(** ** The poll retransmission timer *)

Definition am_wait_taken (e : nr_rlc_entity_am) (rest : list nr_rlc_sdu_segment) : nr_rlc_entity_am :=
  {| e with am_wait := mk_seg_list rest (match rest with [] => None | _ => sl_end (am_wait e) end) |}.

Lemma take_wait h e cur rest :
  am_tx_inv h e [] -> sl_list (am_wait e) = cur :: rest -> am_tx_inv h (am_wait_taken e rest) [cur].
Proof.
  intros [Hc Hn Ha Hw Hst Hte Hwe Ht Hh Hsent Hws Hrs Hu Hb Hr] Hl.
  assert (Hp : [cur] ++ am_segs (am_wait_taken e rest) ≡ₚ am_segs e).
  { unfold am_segs. rewrite Hl. simpl. apply Permutation_middle. }
  rewrite Hl in Hws. apply StronglySorted_inv in Hws as [Hws _]. constructor; try done.
  - exact (am_cfg_core e (am_wait_taken e rest) eq_refl eq_refl eq_refl Hc).
  - by rewrite Hp.
  - by apply (end_ok_dequeue cur).
  - rewrite Hl in Hsent. exact Hsent.
  - intros x y. rewrite Hp. apply Hu.
Qed.

(** The segment in hand goes to the retransmit list. *)
Lemma put_retx h e seg :
  am_tx_inv h e [seg] -> am_cost e seg + zsum (am_cost e) (am_retransmit e) <= bs_retx_size (bstatus (am_common e)) ->
  exists l, nr_rlc_tx_sdu_segment_list_add h e (am_retransmit e) seg = Ok l /\
    am_tx_inv h {| e with am_retransmit := l |} [].
Proof.
  intros Hinv Hbs. destruct (tx_list_add_ok h e (am_retransmit e) seg) as (l & Hadd & Hp & Hs & _).
  - apply Hinv.
  - apply (inv_sent_list h e [seg]); [done|]. intros s. rewrite elem_of_cons, !elem_of_app, list_elem_of_singleton. tauto.
  - apply Hinv.
  - apply Forall_forall. intros t Ht. apply hand_key; [done|]. rewrite elem_of_app. auto.
  - exists l. split; [done|]. set (e' := {| e with am_retransmit := l |}).
    assert (Hperm : [] ++ am_segs e' ≡ₚ [seg] ++ am_segs e).
    { unfold am_segs. simpl. rewrite Hp, !app_assoc. symmetry. apply Permutation_middle. }
    destruct Hinv as [Hc ? ? ? Hst ? ? ? Hh Hsent Hws Hrs Hsn ? ?]. constructor; try done.
    + exact (am_cfg_core e e' eq_refl eq_refl eq_refl Hc).
    + by rewrite Hperm.
    + simpl in Hsent |- *. rewrite Hp, <- Permutation_middle. exact Hsent.
    + intros s t Hs1 Ht1. apply Hsn; by rewrite <- Hperm.
    + simpl. rewrite (zsum_perm _ _ _ Hp). simpl. exact Hbs.
Qed.

Lemma poll_retransmit_one_ok h e cur rest :
  am_tx_inv h e [] -> sl_list (am_wait e) = cur :: rest ->
  exists e', poll_retransmit_one h e cur rest = Ok e' /\ am_tx_inv h e' [] /\ am_rx_part e' = am_rx_part e /\
    sl_list (am_wait e') = rest /\ am_max_retx_threshold e' = am_max_retx_threshold e.
Proof.
  intros Hinv Hl. pose proof (take_wait h e cur rest Hinv Hl) as Hinv1. unfold poll_retransmit_one. cbv zeta.
  fold (am_wait_taken e rest). set (e1 := am_bstatus_retx _ _).
  assert (Hinv2 : am_tx_inv h e1 [cur]).
  { destruct Hinv1 as [Hc ? ? ? ? ? ? ? ? ? ? ? ? Hb Hr]. constructor; try done.
    - exact (am_cfg_core (am_wait_taken e rest) e1 eq_refl eq_refl eq_refl Hc).
    - simpl. pose proof (fits_so h cur (inv_hand_fits _ _ _ (take_wait h e cur rest Hinv Hl))) as [_ Hsz].
      pose proof (am_header_size_range e cur) as Hhd.
      change (zsum (am_cost e) (am_retransmit e) <= bs_retx_size (bstatus (am_common e))) in Hr.
      change (compute_pdu_header_size (am_wait_taken e rest) cur) with (compute_pdu_header_size e cur).
      change (am_cost e1) with (am_cost e). lia. }
  destruct (put_retx h e1 cur Hinv2) as (l & Hadd & Hinv').
  { simpl. pose proof (ati_bs_retx _ _ _ Hinv) as Hr. change (am_cost e1) with (am_cost e). unfold am_cost at 1.
    change (compute_pdu_header_size (am_wait_taken e rest) cur) with (compute_pdu_header_size e cur). lia. }
  change (am_retransmit (am_wait_taken e rest)) with (am_retransmit e1).
  rewrite Hadd. cbn [rbind]. eexists. split; [done|]. by split_and!.
Qed.

Lemma poll_retransmit_ok h sn l e :
  am_tx_inv h e [] -> sl_list (am_wait e) = l ->
  exists e', poll_retransmit h sn l e = Ok e' /\ am_tx_inv h e' [] /\ am_rx_part e' = am_rx_part e /\
    am_max_retx_threshold e' = am_max_retx_threshold e.
Proof.
  revert e. induction l as [|cur rest IH]; intros e Hinv Hl; [by exists e|]. cbn [poll_retransmit].
  assert (Hfit : seg_fits h cur).
  { apply (inv_fits h e []); [done|]. unfold am_segs. simpl. rewrite Hl, !elem_of_app. right. left. by left. }
  rewrite (seg_sn_ok h cur Hfit). cbn [rbind]. case_bool_; [|by exists e].
  destruct (poll_retransmit_one_ok h e cur rest Hinv Hl) as (e1 & -> & Hinv1 & Hrx1 & Hl1 & Hm1). cbn [rbind].
  destruct (IH e1 Hinv1 Hl1) as (e2 & -> & Hinv2 & Hrx2 & Hm2). exists e2. split_and!; (done || congruence).
Qed.

Lemma retransmit_head_ok h e :
  am_tx_inv h e [] -> sl_list (am_wait e) <> [] ->
  exists h' e' ev, retransmit_head h e = Ok (h', e', ev) /\ am_tx_inv h' e' [] /\ am_rx_part e' = am_rx_part e.
Proof.
  intros Hinv Hne. unfold retransmit_head. destruct (sl_list (am_wait e)) as [|cur rest] eqn:Hl; [done|].
  assert (Hfit : seg_fits h cur).
  { apply (inv_fits h e []); [done|]. unfold am_segs. simpl. rewrite Hl, !elem_of_app. right. left. by left. }
  destruct Hfit as (s & Hs & _). rewrite (proj2 (heap_get_lookup _ _ _) Hs). cbn [rbind]. cbv zeta.
  set (h1 := heap_set h (seg_sdu cur) _).
  assert (Hinv1 : am_tx_inv h1 e []).
  { apply (am_tx_inv_keeps h); [by eapply heap_keeps_set; [exact Hs|split]| |done].
    eapply store_ok_set; [exact Hs|done|done|apply Hinv]. }
  destruct (poll_retransmit_ok h1 (sdu_sn s) (cur :: rest) e Hinv1 Hl) as (e' & -> & Hinv' & Hrx & _). cbn [rbind].
  eexists h1, e', _. by split_and!.
Qed.

(** The timer has run out, nothing waits for its acknowledgement, and yet a poll
    must be sent: the code follows the head of an empty wait list. *)
Definition am_poll_crashes (e : nr_rlc_entity_am) : bool :=
  negb (am_t_poll_retransmit_start e =? 0)
  && (u64 (am_t_poll_retransmit_start e + am_t_poll_retransmit e) <? am_t_current e)
  && is_nil (sl_list (am_wait e)) && check_poll_after_pdu_assembly e.

Lemma check_poll_core e e' : am_core e' = am_core e -> check_poll_after_pdu_assembly e' = check_poll_after_pdu_assembly e.
Proof.
  intros [= _ HM Hw _ Hn Ha Ht _ Hr]. unfold check_poll_after_pdu_assembly, is_window_stalling, sn_compare_tx, modulus_tx.
  by rewrite HM, Hw, Hn, Ha, Ht, Hr.
Qed.

Lemma check_t_poll_ok h e :
  am_tx_inv h e [] ->
  if am_poll_crashes e then check_t_poll_retransmit h e = Fail FBounds
  else exists h' e' ev, check_t_poll_retransmit h e = Ok (h', e', ev) /\ am_tx_inv h' e' [] /\
    am_rx_part e' = am_rx_part e.
Proof.
  intros Hinv. unfold check_t_poll_retransmit, am_poll_crashes.
  destruct (am_t_poll_retransmit_start e =? 0); simpl; [by exists h, e, []|].
  destruct (am_t_current e <=? _) eqn:Hexp.
  { rewrite (proj2 (Z.ltb_ge _ _)) by lia. by exists h, e, []. }
  rewrite (proj2 (Z.ltb_lt _ _)) by lia. simpl. set (e1 := {| e with am_t_poll_retransmit_start := 0 |}).
  set (e2 := {| e1 with am_force_poll := true |}).
  assert (Hinv2 : am_tx_inv h e2 []) by by apply (am_tx_inv_core h e).
  assert (check_poll_after_pdu_assembly {| e with am_t_poll_retransmit_start := 0; am_force_poll := true |}
          = check_poll_after_pdu_assembly e) as -> by by apply check_poll_core.
  destruct (check_poll_after_pdu_assembly e); simpl; [|rewrite andb_false_r; by exists h, e2, []].
  rewrite andb_true_r. unfold is_nil. destruct (sl_list (am_wait e)) eqn:Hl.
  - unfold retransmit_head. simpl. by rewrite Hl.
  - change {| e with am_t_poll_retransmit_start := 0; am_force_poll := true |} with e2.
    destruct (retransmit_head_ok h e2 Hinv2) as (h' & e' & ev & -> & Hinv' & Hrx); [simpl; by rewrite Hl|].
    by exists h', e', ev.
Qed.
