(* ===== verification/RlcAmAck.v ===== *)
(** Status PDUs received by the NR RLC AM entity: whatever the bits of the PDU
    are, the lists and the store stay in order and every loop ends. *)

From S2P Require Import Prelude RlcPdu RlcSdu TimeStat RlcEntity RlcUm RlcRxManager RlcAm.
From S2P Require Import RlcAmStatus RlcAmTx RlcAmRx RlcAmStore RlcAmTxInv RlcAmOps.

(** ** Segments leave the lists *)

Lemma sorted_remove h e pre cur post :
  StronglySorted (key_lt h e) (pre ++ cur :: post) -> StronglySorted (key_lt h e) (pre ++ post).
Proof.
  induction pre as [|p pre IH]; simpl; intros H; apply StronglySorted_inv in H as [H Hp]; [done|].
  constructor; [auto|]. apply Forall_app in Hp as [H1 H2]. apply Forall_cons in H2 as [_ H2]. by apply Forall_app.
Qed.

Lemma sorted_sublist_l h e l k : StronglySorted (key_lt h e) (l ++ k) -> StronglySorted (key_lt h e) l.
Proof.
  induction l as [|a l IH]; simpl; intros H; [constructor|]. apply StronglySorted_inv in H as [H Ha].
  constructor; [auto|]. by apply Forall_app in Ha as [? _].
Qed.

(** The segments [gone] leave, in any of the three lists; the numbers of the
    transmission side stay.  [v'] has the lists that are left. *)
Record am_shrunk (h : rlc_heap) (v v' : nr_rlc_entity_am) (gone : list nr_rlc_sdu_segment) : Prop := {
  ash_same : (am_sn_field_length v', am_sn_modulus v', am_window_size v', am_tx_next v', am_tx_next_ack v', am_tx v')
           = (am_sn_field_length v, am_sn_modulus v, am_window_size v, am_tx_next v, am_tx_next_ack v, am_tx v);
  ash_bs : bs_tx_size (bstatus (am_common v')) = bs_tx_size (bstatus (am_common v));
  ash_lists : sl_list (am_wait v) ++ am_retransmit v ≡ₚ gone ++ sl_list (am_wait v') ++ am_retransmit v';
  ash_wait_end : end_ok (am_wait v');
  ash_wait : StronglySorted (key_lt h v) (sl_list (am_wait v'));
  ash_retx : StronglySorted (key_lt h v) (am_retransmit v');
  ash_bs_retx : zsum (am_cost v) (am_retransmit v') <= bs_retx_size (bstatus (am_common v'))
}.

Lemma am_shrunk_inv h v v' gone : am_tx_inv h v [] -> am_shrunk h v v' gone -> am_tx_inv h v' [] /\ store_ok h (gone ++ am_segs v').
Proof.
  intros [Hc Hn Ha Hw Hst Hte Hwe Ht Hh Hsent Hws Hrs Hu Hb Hr] [[= Hl HM HW Hn' Ha' Ht'] Hbs Hp Hwe' Hws' Hrs' Hbr'].
  pose proof (modulus_tx_ext v v' HM Ha') as Hmod.
  assert (am_cost v' = am_cost v) as Hcost by (unfold am_cost, compute_pdu_header_size; by rewrite Hl).
  assert (am_sn_ok v' = am_sn_ok v) as Hok by (unfold am_sn_ok; by rewrite HM).
  assert (in_flight h v' = in_flight h v) as Hif by (unfold in_flight; by rewrite Hok, Hmod, Hn').
  assert (key_lt h v' = key_lt h v) as Hkey by (unfold key_lt, seg_key; by rewrite Hmod).
  assert (partial h v' = partial h v) as Hpart by (unfold partial; by rewrite Hok, Hmod, Hn').
  assert (Hsegs : am_segs v ≡ₚ gone ++ am_segs v').
  { unfold am_segs. rewrite Ht', Hp, !app_assoc. by rewrite (Permutation_app_comm gone). }
  simpl in Hst, Hsent. rewrite Hsegs in Hst. rewrite Hp in Hsent. apply Forall_app in Hsent as [_ Hsent].
  split; [|done].
  constructor; rewrite ?Hok, ?Hmod, ?Hcost, ?Hif, ?Hkey, ?Hpart, ?Hn', ?Ha', ?HW, ?Ht', ?Hbs; try done.
  - by apply (am_cfg_core v v').
  - by apply store_ok_app_r in Hst.
  - intros x y Hx Hy. apply Hu; simpl; rewrite Hsegs, elem_of_app; by right.
Qed.

(** A segment leaves and is freed. *)
Lemma am_free_ok h v v' cur :
  am_tx_inv h v [] -> am_shrunk h v v' [cur] ->
  exists s h' r, heap_get h (seg_sdu cur) = Ok s /\ nr_rlc_free_sdu_segment h cur = Ok (h', r) /\ am_tx_inv h' v' [] /\
    heap_keeps (am_segs v') h h'.
Proof.
  intros Hinv Hsh. destruct (am_shrunk_inv h v v' [cur] Hinv Hsh) as [Hinv' Hst].
  destruct (store_free h cur (am_segs v') Hst) as (h' & r & Hf & Hst' & Hk & _).
  pose proof (st_fits _ _ Hst) as Hfit. apply Forall_cons in Hfit as [(s & Hs & _) _].
  exists s, h', r. split_and!; [by apply heap_get_lookup|done|by apply (am_tx_inv_keeps h)|done].
Qed.

(** ** The state of the walk *)

(** An event that hands over no SDU. *)
Definition quiet (ev : event) : bool := match ev with deliver_sdu _ => false | _ => true end.

(** The segments ahead on the two lists are in order behind those of the new
    retransmit list; [end_wait_list] is set only when nothing is ahead on the
    wait list. *)
Record ctl_inv (c : control) : Prop := {
  ci_inv : am_tx_inv (ct_heap c) (control_lists c) [];
  ci_end : ct_end c <> None -> ct_wait c = [];
  ci_left : ct_wait c <> [] -> ct_left c = [];
  ci_events : forallb quiet (ct_events c) = true;
  ci_merge : forall s t, s ∈ ct_new c -> t ∈ ct_wait c -> key_lt (ct_heap c) (ct_e c) s t
}.

(** What the walk does not change. *)
Definition ctl_frame (e : nr_rlc_entity_am) :=
  (am_rx_part e, (am_tx_next e, am_tx_next_ack e, am_tx e, am_wait e), am_t_current e).

Definition ctl_ahead (c : control) : nat := length (ct_wait c) + length (ct_retx c).

(** The sequence numbers of what is still to be transmitted. *)
Definition ctl_sns (c : control) : list Z := map (sn_of (ct_heap c)) (sl_list (am_tx (ct_e c))).

(** One turn: the invariant stays, and there is less ahead when it goes on. *)
Definition ctl_step (c c' : control) : Prop :=
  ctl_inv c' /\ (ctl_frame (ct_e c') = ctl_frame (ct_e c) /\ ctl_sns c' = ctl_sns c) /\ (ctl_ahead c' <= ctl_ahead c)%nat.

Lemma ctl_in_wait c s : s ∈ ct_wait c -> s ∈ am_segs (control_lists c).
Proof. unfold am_segs. simpl. rewrite !elem_of_app. tauto. Qed.

Lemma ctl_in_retx c s : s ∈ ct_retx c -> s ∈ am_segs (control_lists c).
Proof. unfold am_segs. simpl. rewrite !elem_of_app. tauto. Qed.

Section Turn.
Context (c : control) (Hinv : ctl_inv c).

Let v := control_lists c.

Lemma ctl_fits s : s ∈ am_segs v -> seg_fits (ct_heap c) s.
Proof. intros Hs. by apply (inv_fits _ v []); [apply Hinv|]. Qed.

Lemma ctl_sn s : s ∈ ct_kept c ++ ct_wait c ++ ct_left c ++ ct_new c ++ ct_retx c -> am_sn_ok v (sn_of (ct_heap c) s).
Proof.
  intros Hs. pose proof (ati_sent _ _ _ (ci_inv c Hinv)) as H. rewrite Forall_forall in H. apply H.
  simpl. rewrite !elem_of_app in *. tauto.
Qed.

Lemma ctl_sn_wait cur rest : ct_wait c = cur :: rest -> seg_sn (ct_heap c) cur = Ok (sn_of (ct_heap c) cur).
Proof. intros Hl. apply seg_sn_ok, ctl_fits, ctl_in_wait. rewrite Hl. by left. Qed.

Lemma ctl_sn_retx cur rest : ct_retx c = cur :: rest -> seg_sn (ct_heap c) cur = Ok (sn_of (ct_heap c) cur).
Proof. intros Hl. apply seg_sn_ok, ctl_fits, ctl_in_retx. rewrite Hl. by left. Qed.

(** The end pointer when the head of what is ahead on the wait list goes. *)
Lemma ctl_unlink_ok cur rest :
  ct_wait c = cur :: rest ->
  end_ok (mk_seg_list (ct_kept c ++ rest ++ ct_left c)
            (match ct_unlink_end c cur with None => sl_end (am_wait (ct_e c)) | Some a => a end))
  /\ (ct_unlink_end c cur <> None -> rest = []).
Proof.
  intros Hl. pose proof (ci_left c Hinv ltac:(by rewrite Hl)) as Hlf.
  assert (ct_end c = None) as Hend.
  { destruct (ct_end c) eqn:He; [|done]. pose proof (ci_end c Hinv ltac:(by rewrite He)). congruence. }
  pose proof (ati_wait_end _ _ _ (ci_inv c Hinv)) as Hok. unfold end_ok in Hok. simpl in Hok.
  rewrite Hend, Hl, Hlf, app_nil_r in Hok. unfold ct_unlink_end. rewrite Hok, Hend, Hlf, app_nil_r.
  pose proof (st_addr _ _ (ati_store _ _ _ (ci_inv c Hinv))) as Hnd. simpl in Hnd. unfold am_segs in Hnd. simpl in Hnd.
  rewrite !map_app in Hnd. apply NoDup_app in Hnd as (_ & _ & Hnd). apply NoDup_app in Hnd as (Hnd & _ & _).
  apply NoDup_app in Hnd as (_ & _ & Hnd). rewrite Hl in Hnd. simpl in Hnd. apply NoDup_cons in Hnd as [Hfresh _].
  destruct rest as [|r rest _] using rev_ind.
  - rewrite last_snoc. simpl. rewrite bool_decide_true by done. split; [|done]. unfold end_ok. simpl. by rewrite app_nil_r.
  - assert (last (ct_kept c ++ cur :: rest ++ [r]) = Some r) as -> by by rewrite app_comm_cons, app_assoc, last_snoc.
    simpl. rewrite bool_decide_false.
    + split; [|done]. unfold end_ok. simpl. by rewrite app_assoc, last_snoc.
    + intros [= Heq]. apply Hfresh. rewrite map_app, !elem_of_app. left. right. simpl. rewrite Heq. by left.
Qed.
End Turn.

(** ** The turns of the walk *)

Lemma free_acked_ok h e cur s h' r :
  heap_get h (seg_sdu cur) = Ok s -> nr_rlc_free_sdu_segment h cur = Ok (h', r) ->
  exists e' ev, free_acked h e cur = Ok (h', e', ev) /\ am_core e' = am_core e /\ ctl_frame e' = ctl_frame e /\
    forallb quiet ev = true.
Proof.
  intros Hs Hf. unfold free_acked. rewrite Hs. cbn [rbind]. rewrite Hf. cbn [rbind].
  case_bool_; eexists _, _; by split_and!.
Qed.

Lemma control_lists_core c c' :
  am_core (ct_e c') = am_core (ct_e c) -> ct_kept c' ++ ct_wait c' ++ ct_left c' = ct_kept c ++ ct_wait c ++ ct_left c ->
  ct_end c' = ct_end c -> ct_new c' ++ ct_retx c' = ct_new c ++ ct_retx c ->
  am_core (control_lists c') = am_core (control_lists c).
Proof.
  intros [= Hl HM HW Hb Hn Ha Ht Hw Hr] Hwl Hend Hrl. unfold am_core, control_lists. simpl.
  by rewrite Hl, HM, HW, Hb, Hn, Ha, Ht, Hw, Hwl, Hend, Hrl.
Qed.

Lemma key_core h e e' s t : am_core e' = am_core e -> key_lt h e s t -> key_lt h e' s t.
Proof.
  intros [= _ HM _ _ _ Ha _ _ _]. unfold key_lt, seg_key. by rewrite (modulus_tx_ext e e').
Qed.

Lemma key_keeps l h h' e s t :
  heap_keeps l h h' -> s ∈ l -> t ∈ l -> seg_fits h s -> seg_fits h t -> key_lt h e s t -> key_lt h' e s t.
Proof.
  intros Hk Hs Ht Hfs Hft. unfold key_lt, seg_key. by rewrite !(sn_of_keeps l h h') by done.
Qed.

(** What is to be transmitted does not see the store change. *)
Lemma ctl_sns_keeps c c1 h' e' :
  heap_keeps (am_segs (control_lists c1)) (ct_heap c) h' -> ctl_frame e' = ctl_frame (ct_e c) -> ctl_inv c ->
  am_tx (ct_e c1) = am_tx (ct_e c) ->
  map (sn_of h') (sl_list (am_tx e')) = map (sn_of (ct_heap c)) (sl_list (am_tx (ct_e c))).
Proof.
  intros Hk [= _ _ _ _ _ _ _ _ _ _ _ Ht _ _] Hinv Ht1. rewrite Ht. apply map_ext_in. intros s Hs%list_elem_of_In.
  apply (sn_of_keeps (am_segs (control_lists c1))); [done| |].
  - unfold am_segs. simpl. rewrite Ht1, !elem_of_app. by left.
  - apply (inv_fits _ (control_lists c) []); [apply Hinv|]. unfold am_segs. simpl. rewrite elem_of_app. by left.
Qed.

(** The invariant once the lists have shrunk and the store has changed. *)
Lemma ctl_inv_next c c1 c' :
  ctl_inv c -> am_tx_inv (ct_heap c') (control_lists c1) [] -> am_core (control_lists c') = am_core (control_lists c1) ->
  am_core (ct_e c') = am_core (ct_e c) \/ modulus_tx (ct_e c') = modulus_tx (ct_e c) ->
  (forall s, s ∈ ct_new c' ++ ct_wait c' -> sn_of (ct_heap c') s = sn_of (ct_heap c) s) ->
  (ct_end c' <> None -> ct_wait c' = []) -> (ct_wait c' <> [] -> ct_left c' = []) ->
  forallb quiet (ct_events c') = true ->
  (forall s t, s ∈ ct_new c' -> t ∈ ct_wait c' -> key_lt (ct_heap c) (ct_e c) s t) ->
  ctl_inv c'.
Proof.
  intros Hinv Hinv1 Hcore He Hsn Hend Hleft Hq Hm. split; try done.
  - by apply (am_tx_inv_core _ (control_lists c1)).
  - intros s t Hs Ht. specialize (Hm s t Hs Ht). unfold key_lt, seg_key in *.
    rewrite !Hsn by (rewrite elem_of_app; auto).
    assert (modulus_tx (ct_e c') = modulus_tx (ct_e c)) as ->; [|done].
    destruct He as [[= _ HM _ _ _ Ha _ _ _]|?]; [by apply modulus_tx_ext|done].
Qed.

Section Turns.
Context (c : control) (Hinv : ctl_inv c).

Let v := control_lists c.
Let h := ct_heap c.

Lemma ctl_key_wait_sorted cur rest t : ct_wait c = cur :: rest -> t ∈ rest -> key_lt h (ct_e c) cur t.
Proof.
  intros Hl Ht. pose proof (ati_wait_sorted _ _ _ (ci_inv c Hinv)) as Hs. simpl in Hs. rewrite Hl in Hs.
  assert (StronglySorted (key_lt h (control_lists c)) ((cur :: rest) ++ ct_left c)) as Hs2 by by apply sorted_app_r in Hs.
  apply StronglySorted_inv in Hs2 as [_ Hall]. rewrite Forall_forall in Hall. apply Hall. rewrite elem_of_app. by left.
Qed.

Lemma free_acked_wait_ok cur rest :
  ct_wait c = cur :: rest ->
  exists c', free_acked_wait c cur rest = Ok c' /\ ctl_step c c' /\ (ctl_ahead c' < ctl_ahead c)%nat /\ ct_wait c' = rest.
Proof.
  intros Hl. destruct (ctl_unlink_ok c Hinv cur rest Hl) as [Hend Hun].
  set (c1 := {| c with ct_wait := rest; ct_end := ct_unlink_end c cur |}).
  pose proof (ci_left c Hinv ltac:(by rewrite Hl)) as Hlf.
  assert (Hsh : am_shrunk h v (control_lists c1) [cur]).
  { pose proof (ati_wait_sorted _ _ _ (ci_inv c Hinv)) as Hs. simpl in Hs. rewrite Hl in Hs.
    constructor; try done; try apply (ci_inv c Hinv).
    - simpl. rewrite Hl, Hlf. rewrite <- !app_assoc. simpl. symmetry. apply Permutation_middle.
    - simpl. by apply (sorted_remove _ _ _ cur). }
  destruct (am_free_ok h v (control_lists c1) cur (ci_inv c Hinv) Hsh) as (s & h' & r & Hs & Hf & Hinv1 & Hk).
  destruct (free_acked_ok h (ct_e c) cur s h' r Hs Hf) as (e' & ev & Hfa & Hcore & Hframe & Hq).
  unfold free_acked_wait. fold h. rewrite Hfa. cbn [rbind]. eexists. split; [done|].
  split; [|simpl; unfold ctl_ahead; simpl; rewrite Hl; simpl; split; [lia|done]].
  split; [|split; [split; [done|by apply (ctl_sns_keeps c c1)]|unfold ctl_ahead; simpl; rewrite Hl; simpl; lia]].
  apply (ctl_inv_next c c1); try done.
  - by apply control_lists_core.
  - by left.
  - intros x Hx. simpl in Hx. apply (sn_of_keeps (am_segs (control_lists c1))); [done| |].
    + unfold am_segs. simpl. rewrite !elem_of_app in *. tauto.
    + apply (ctl_fits c Hinv). destruct (elem_of_app (ct_new c) rest x) as [H1 _]. destruct (H1 Hx) as [?|?].
      * unfold am_segs. simpl. rewrite !elem_of_app. tauto.
      * apply ctl_in_wait. rewrite Hl. by right.
  - simpl. by rewrite forallb_app, (ci_events c Hinv).
  - intros x y Hx Hy. apply (ci_merge c Hinv); [done|]. rewrite Hl. by right.
Qed.

Lemma free_acked_retx_ok cur rest :
  ct_retx c = cur :: rest ->
  exists c', free_acked_retx c cur rest = Ok c' /\ ctl_step c c' /\ (ctl_ahead c' < ctl_ahead c)%nat /\ ct_retx c' = rest
    /\ ct_wait c' = ct_wait c.
Proof.
  intros Hl. unfold free_acked_retx. cbv zeta.
  set (e1 := am_bstatus_retx _ (ct_e c)). set (c1 := {| c with ct_e := e1; ct_retx := rest |}).
  assert (Hsh : am_shrunk h v (control_lists c1) [cur]).
  { pose proof (ati_retx_sorted _ _ _ (ci_inv c Hinv)) as Hs. simpl in Hs. rewrite Hl in Hs.
    pose proof (ati_bs_retx _ _ _ (ci_inv c Hinv)) as Hr. simpl in Hr. rewrite Hl, zsum_app in Hr. simpl in Hr.
    constructor; try done; try apply (ci_inv c Hinv).
    - simpl. rewrite Hl. rewrite !app_assoc. symmetry. apply Permutation_middle.
    - simpl. by apply (sorted_remove _ _ _ cur).
    - simpl. rewrite zsum_app. change (am_cost (control_lists c)) with (am_cost (ct_e c)) in Hr.
      change (am_cost v) with (am_cost (ct_e c)). unfold am_cost at 2 in Hr. lia. }
  destruct (am_free_ok h v (control_lists c1) cur (ci_inv c Hinv) Hsh) as (s & h' & r & Hs & Hf & Hinv1 & Hk).
  destruct (free_acked_ok h e1 cur s h' r Hs Hf) as (e' & ev & Hfa & Hcore & Hframe & Hq).
  fold h. rewrite Hfa. cbn [rbind]. eexists. split; [done|].
  split; [|unfold ctl_ahead; simpl; rewrite Hl; simpl; split_and!; [lia|done|done]].
  split; [|split; [split; [exact Hframe|by apply (ctl_sns_keeps c c1)]|unfold ctl_ahead; simpl; rewrite Hl; simpl; lia]].
  apply (ctl_inv_next c c1); try done; try apply Hinv.
  - by apply control_lists_core.
  - right. simpl. pose proof Hcore as [= _ HM _ _ _ Ha _ _ _]. by apply modulus_tx_ext.
  - intros x Hx. simpl in Hx. apply (sn_of_keeps (am_segs (control_lists c1))); [done| |].
    + unfold am_segs. simpl. rewrite !elem_of_app in *. tauto.
    + apply (ctl_fits c Hinv). unfold am_segs. simpl. rewrite !elem_of_app in *. tauto.
  - simpl. by rewrite forallb_app, (ci_events c Hinv).
Qed.

Lemma nack_wait_ok cur rest :
  ct_wait c = cur :: rest -> (forall t, t ∈ ct_retx c -> key_lt h (ct_e c) cur t) ->
  exists c', nack_wait c cur rest = Ok c' /\ ctl_step c c' /\ (ctl_ahead c' < ctl_ahead c)%nat.
Proof.
  intros Hl Hbefore. destruct (ctl_unlink_ok c Hinv cur rest Hl) as [Hend Hun].
  pose proof (ci_left c Hinv ltac:(by rewrite Hl)) as Hlf.
  assert (Hfit : seg_fits h cur) by (apply (ctl_fits c Hinv), ctl_in_wait; rewrite Hl; by left).
  pose proof Hfit as (s & Hs & _). unfold nack_wait. cbv zeta. fold h.
  rewrite (proj2 (heap_get_lookup _ _ _) Hs). cbn [rbind]. set (s' := {| s with sdu_retx_count := sdu_retx_count s + 1 |}).
  set (e1 := am_bstatus_retx _ (ct_e c)). eexists. split; [done|].
  match goal with |- ctl_step c ?x /\ _ => set (c' := x) end.
  assert (Hsh : am_shrunk h v (control_lists c') []).
  { pose proof (ati_wait_sorted _ _ _ (ci_inv c Hinv)) as Hws. simpl in Hws. rewrite Hl in Hws.
    pose proof (ati_retx_sorted _ _ _ (ci_inv c Hinv)) as Hrs. simpl in Hrs.
    pose proof (ati_bs_retx _ _ _ (ci_inv c Hinv)) as Hr. simpl in Hr. rewrite zsum_app in Hr.
    constructor; try done; try apply (ci_inv c Hinv).
    - simpl. rewrite Hl, Hlf, !app_nil_r, <- !app_assoc. simpl. f_equiv. rewrite !app_assoc. apply Permutation_middle.
    - simpl. by apply (sorted_remove _ _ _ cur).
    - simpl. rewrite <- app_assoc. simpl. apply key_sorted_app.
      + by apply sorted_sublist_l in Hrs.
      + constructor; [by apply sorted_app_r in Hrs|]. apply Forall_forall. intros t Ht. by apply Hbefore.
      + intros x y Hx [->|Hy]%elem_of_cons.
        * apply (ci_merge c Hinv); [done|]. rewrite Hl. by left.
        * clear -Hrs Hx Hy. revert Hrs Hx. generalize (ct_new c). intros l. induction l as [|a l IH]; intros Hs Hx; [by apply not_elem_of_nil in Hx|].
          apply StronglySorted_inv in Hs as [Hs Ha]. apply elem_of_cons in Hx as [->|Hx]; [|by apply IH].
          rewrite Forall_forall in Ha. apply Ha. rewrite elem_of_app. by right.
    - simpl. rewrite !zsum_app. simpl. change (am_cost (control_lists c)) with (am_cost (ct_e c)) in Hr.
      change (am_cost v) with (am_cost (ct_e c)). unfold am_cost at 2. lia. }
  destruct (am_shrunk_inv h v (control_lists c') [] (ci_inv c Hinv) Hsh) as [Hinv1 Hst].
  assert (Hsn : forall x, sn_of (heap_set h (seg_sdu cur) s') x = sn_of h x).
  { intros x. rewrite (sn_of_set h _ s) by done. case_bool_decide as Heq; [|done]. unfold sn_of. by rewrite Heq, Hs. }
  split.
  - split; [|split; [split; [done|by apply list_fmap_ext; intros; apply Hsn]|unfold ctl_ahead; simpl; rewrite Hl; simpl; lia]].
    apply (ctl_inv_next c c'); try done.
    + apply (am_tx_inv_heap h); [intros; apply Hsn| |done]. eapply store_ok_set; [exact Hs|done|done|exact Hst].
    + by right.
    + simpl. rewrite forallb_app, (ci_events c Hinv). by destruct (_ <=? _).
    + intros x y [Hx|Hx]%elem_of_app Hy.
      * apply (ci_merge c Hinv); [done|]. rewrite Hl. by right.
      * apply list_elem_of_singleton in Hx as ->. by apply (ctl_key_wait_sorted cur rest).
  - unfold ctl_ahead. simpl. rewrite Hl. simpl. lia.
Qed.

(** Turns that only move the cursors. *)
Lemma ctl_move c' :
  control_lists c' = v -> ct_heap c' = h -> ct_e c' = ct_e c -> (ctl_ahead c' <= ctl_ahead c)%nat ->
  (ct_end c' <> None -> ct_wait c' = []) -> (ct_wait c' <> [] -> ct_left c' = []) -> ct_events c' = ct_events c ->
  (forall s t, s ∈ ct_new c' -> t ∈ ct_wait c' -> key_lt h (ct_e c) s t) -> ctl_step c c'.
Proof.
  intros Hv Hh He Ha Hend Hl Hev Hm. split; [|split; [split; [by rewrite He|unfold ctl_sns; by rewrite Hh, He]|done]].
  split; rewrite ?Hv, ?Hh, ?He, ?Hev; try done; apply Hinv.
Qed.

(** What is left of the retransmit list is dropped. *)
Lemma ctl_drop_retx : ctl_step c {| c with ct_retx := [] |}.
Proof.
  set (c' := {| c with ct_retx := [] |}).
  assert (Hsh : am_shrunk h v (control_lists c') (ct_retx c)).
  { pose proof (ati_retx_sorted _ _ _ (ci_inv c Hinv)) as Hrs. simpl in Hrs.
    pose proof (ati_bs_retx _ _ _ (ci_inv c Hinv)) as Hr. simpl in Hr. rewrite zsum_app in Hr.
    constructor; try done; try apply (ci_inv c Hinv).
    - simpl. rewrite app_nil_r, (app_assoc (ct_kept c ++ ct_wait c ++ ct_left c) (ct_new c) (ct_retx c)).
      apply Permutation_app_comm.
    - simpl. rewrite app_nil_r. by apply sorted_sublist_l in Hrs.
    - simpl. rewrite app_nil_r. change (am_cost v) with (am_cost (control_lists c)).
      assert (0 <= zsum (am_cost (control_lists c)) (ct_retx c)); [|lia].
      apply zsum_nonneg, Forall_forall. intros s Hs.
      pose proof (fits_so h s (ctl_fits c Hinv s (ctl_in_retx c s Hs))) as [_ ?].
      pose proof (am_header_size_range (control_lists c) s). unfold am_cost. lia. }
  destruct (am_shrunk_inv h v (control_lists c') _ (ci_inv c Hinv) Hsh) as [Hinv1 _].
  split; [|split; [done|unfold ctl_ahead; simpl; lia]]. split; try done; apply Hinv.
Qed.
End Turns.

(** ** One NACK *)

Definition ctl_turn (c : control) (r : res (control * nack_next)) : Prop :=
  exists c' next, r = Ok (c', next) /\ ctl_step c c' /\ (next = process_next_pdu -> (ctl_ahead c' < ctl_ahead c)%nat).

Lemma ctl_step_refl c : ctl_inv c -> ctl_step c c.
Proof. intros H. by split_and!. Qed.

Lemma ctl_step_trans c1 c2 c3 : ctl_step c1 c2 -> ctl_step c2 c3 -> ctl_step c1 c3.
Proof. intros (_ & [Hf1 Hn1] & Ha1) (H & [Hf2 Hn2] & Ha2). split; [done|]. split; [split; congruence|lia]. Qed.

Section Heads.
Context (c : control) (Hinv : ctl_inv c) (ack_sn : Z) (n : Z * Z * Z).

Lemma wait_head_turn cur rest :
  ct_wait c = cur :: rest -> (forall t, t ∈ ct_retx c -> key_lt (ct_heap c) (ct_e c) cur t) ->
  ctl_turn c (process_wait_list_head c ack_sn n cur rest).
Proof.
  intros Hl Hbefore. destruct n as [[nsn nso] nse]. unfold process_wait_list_head.
  rewrite (ctl_sn_wait c Hinv cur rest Hl). cbn [rbind]. cbv zeta.
  pose proof (ci_left c Hinv ltac:(by rewrite Hl)) as Hlf.
  assert (Hend : ct_end c = None).
  { destruct (ct_end c) eqn:He; [|done]. pose proof (ci_end c Hinv ltac:(by rewrite He)). congruence. }
  case_bool_.
  { destruct (nack_wait_ok c Hinv cur rest Hl Hbefore) as (c' & -> & Hs & Ha). cbn [rbind]. by eexists _, _. }
  case_bool_.
  { eexists _, _. split; [done|]. split; [by apply ctl_step_refl|done]. }
  case_bool_.
  { destruct (free_acked_wait_ok c Hinv cur rest Hl) as (c' & -> & Hs & Ha & _). cbn [rbind]. by eexists _, _. }
  case_bool_; eexists _, _; (split; [done|]).
  - split; [|intros _; unfold ctl_ahead; simpl; rewrite Hl; simpl; lia].
    apply ctl_move; try done.
    + unfold control_lists. simpl. by rewrite Hl, Hlf, app_nil_r.
    + unfold ctl_ahead. simpl. lia.
    + intros s t _ Ht. by apply not_elem_of_nil in Ht.
  - split; [|intros _; unfold ctl_ahead; simpl; rewrite Hl; simpl; lia].
    apply ctl_move; try done.
    + unfold control_lists. simpl. by rewrite Hl, <- app_assoc.
    + unfold ctl_ahead. simpl. rewrite Hl. simpl. lia.
    + intros s t Hs Ht. apply (ci_merge c Hinv); [done|]. rewrite Hl. by right.
Qed.

Lemma retx_head_turn cur rest :
  ct_retx c = cur :: rest -> (forall t, t ∈ ct_wait c -> key_lt (ct_heap c) (ct_e c) cur t) ->
  ctl_turn c (process_retransmit_list_head c ack_sn n cur rest).
Proof.
  intros Hl Hbefore. destruct n as [[nsn nso] nse]. unfold process_retransmit_list_head.
  rewrite (ctl_sn_retx c Hinv cur rest Hl). cbn [rbind]. cbv zeta.
  set (keep := {| c with ct_new := ct_new c ++ [cur]; ct_retx := rest |}).
  assert (Hkeep : ctl_step c keep /\ (ctl_ahead keep < ctl_ahead c)%nat).
  { split; [|unfold ctl_ahead; simpl; rewrite Hl; simpl; lia]. apply ctl_move; try done; try apply Hinv.
    - unfold control_lists. simpl. by rewrite Hl, <- app_assoc.
    - unfold ctl_ahead. simpl. rewrite Hl. simpl. lia.
    - intros s t [Hs|Hs]%elem_of_app Ht; [by apply (ci_merge c Hinv)|].
      apply list_elem_of_singleton in Hs as ->. by apply Hbefore. }
  case_bool_; [by eexists _, _; split; [done|]; split; [apply Hkeep|intros; apply Hkeep]|].
  case_bool_.
  { eexists _, _. split; [done|]. split; [by apply ctl_step_refl|done]. }
  case_bool_.
  { destruct (free_acked_retx_ok c Hinv cur rest Hl) as (c' & -> & Hs & Ha & _). cbn [rbind]. by eexists _, _. }
  pose proof (ctl_drop_retx c Hinv) as Hdrop. clearbody keep. revert Hdrop.
  destruct (ct_wait c) eqn:Hw; intros Hdrop; eexists _, _; (split; [done|]).
  - split; [exact Hdrop|done].
  - split; [apply Hkeep|intros; apply Hkeep].
Qed.

(** Every segment ahead comes after the smaller of the two heads. *)
Lemma ctl_key_retx_sorted cur rest t : ct_retx c = cur :: rest -> t ∈ rest -> key_lt (ct_heap c) (ct_e c) cur t.
Proof.
  intros Hl Ht. pose proof (ati_retx_sorted _ _ _ (ci_inv c Hinv)) as Hs. simpl in Hs. rewrite Hl in Hs.
  apply sorted_app_r in Hs. apply StronglySorted_inv in Hs as [_ Hall]. rewrite Forall_forall in Hall. by apply Hall.
Qed.

Lemma heads_neq w ws r rs :
  ct_wait c = w :: ws -> ct_retx c = r :: rs -> seg_key (ct_heap c) (ct_e c) r <> seg_key (ct_heap c) (ct_e c) w.
Proof.
  intros Hw Hr. pose proof (ci_inv c Hinv) as Hi. pose proof (ati_store _ _ _ Hi) as Hst. simpl in Hst.
  set (l := sl_list (am_tx (ct_e c)) ++ (ct_kept c ++ ws ++ ct_left c) ++ ct_new c ++ ct_retx c).
  assert (Hp : am_segs (control_lists c) ≡ₚ w :: l).
  { unfold am_segs, l. simpl. rewrite Hw, (Permutation_middle (sl_list _)). f_equiv.
    rewrite <- !app_assoc. symmetry. apply Permutation_middle. }
  assert (Hin : r ∈ l) by (unfold l; rewrite Hr, !elem_of_app; do 3 right; by left).
  assert (Hsr : am_sn_ok (ct_e c) (sn_of (ct_heap c) r)) by (apply (ctl_sn c Hinv); rewrite Hr, !elem_of_app; do 4 right; by left).
  rewrite Hp in Hst. apply key_neq.
  - exact (ati_ack _ _ _ Hi).
  - apply (ctl_fits c Hinv), ctl_in_retx. rewrite Hr. by left.
  - apply (ctl_fits c Hinv), ctl_in_wait. rewrite Hw. by left.
  - done.
  - apply (ctl_sn c Hinv). rewrite Hw, !elem_of_app. right. left. by left.
  - by apply (inv_apart (ct_heap c) w l).
  - apply (ati_sn _ _ _ Hi); simpl; rewrite ?Hp; [by right|by left|]. apply Hsr.
Qed.

Lemma process_pdu_turn : ctl_turn c (process_pdu c ack_sn n).
Proof.
  unfold process_pdu. destruct (ct_wait c) as [|w ws] eqn:Hw; destruct (ct_retx c) as [|r rs] eqn:Hr.
  - eexists _, _. split; [done|]. split; [by apply ctl_step_refl|done].
  - apply retx_head_turn; [done|]. intros t Ht. rewrite Hw in Ht. by apply not_elem_of_nil in Ht.
  - apply wait_head_turn; [done|]. intros t Ht. rewrite Hr in Ht. by apply not_elem_of_nil in Ht.
  - rewrite (ctl_sn_wait c Hinv w ws Hw), (ctl_sn_retx c Hinv r rs Hr). cbn [rbind]. cbv zeta.
    assert (Hfw : seg_fits (ct_heap c) w) by (apply (ctl_fits c Hinv), ctl_in_wait; rewrite Hw; by left).
    assert (Hfr : seg_fits (ct_heap c) r) by (apply (ctl_fits c Hinv), ctl_in_retx; rewrite Hr; by left).
    assert (Hcmp : (sn_compare_tx (ct_e c) (sn_of (ct_heap c) w) (sn_of (ct_heap c) r) <? 0)
      || ((sn_compare_tx (ct_e c) (sn_of (ct_heap c) w) (sn_of (ct_heap c) r) =? 0) && (seg_so w <? seg_so r))
      = (seg_key (ct_heap c) (ct_e c) w <? seg_key (ct_heap c) (ct_e c) r)).
    { unfold seg_key, sn_compare_tx. pose proof (fits_so _ _ Hfw). pose proof (fits_so _ _ Hfr).
      destruct (_ - _ <? 0) eqn:?, (_ - _ =? 0) eqn:?, (seg_so w <? seg_so r) eqn:?; simpl; lia. }
    rewrite Hcmp. clear Hcmp. destruct (seg_key (ct_heap c) (ct_e c) w <? seg_key (ct_heap c) (ct_e c) r) eqn:Hlt.
    + apply wait_head_turn; [done|]. intros t. rewrite Hr. intros [->|Ht]%elem_of_cons; [unfold key_lt; lia|].
      pose proof (ctl_key_retx_sorted r rs t Hr Ht). unfold key_lt in *. lia.
    + pose proof (heads_neq w ws r rs Hw Hr) as Hne.
      apply retx_head_turn; [done|]. intros t. rewrite Hw. intros [->|Ht]%elem_of_cons; [unfold key_lt; lia|].
      pose proof (ctl_key_wait_sorted c Hinv w ws t Hw Ht). unfold key_lt in *. lia.
Qed.
End Heads.

(** ** All the NACKs *)

Lemma process_nack_ok fuel c ack_sn n :
  ctl_inv c -> (ctl_ahead c < fuel)%nat -> exists c' over, process_nack fuel c ack_sn n = Ok (c', over) /\ ctl_step c c'.
Proof.
  revert c. induction fuel as [|fuel IH]; intros c Hinv Hf; [lia|]. simpl.
  destruct (process_pdu_turn c Hinv ack_sn n) as (c1 & next & -> & Hs & Hless). cbn [rbind].
  destruct next; [|by eauto..]. specialize (Hless eq_refl).
  destruct (IH c1) as (c2 & over & -> & Hs2); [apply Hs|lia|]. exists c2, over. split; [done|].
  by apply (ctl_step_trans c c1).
Qed.

Lemma process_nack_range_ok count c ack_sn n i :
  ctl_inv c -> exists c', process_nack_range count c ack_sn n i = Ok c' /\ ctl_step c c'.
Proof.
  revert c i. induction count as [|count IH]; intros c i Hinv; cbn [process_nack_range].
  { eexists. split; [done|]. by apply ctl_step_refl. }
  destruct (process_nack_ok (nack_fuel c) c ack_sn (nack_at (ct_e c) n i)) as (c1 & over & -> & Hs); [done|unfold nack_fuel, ctl_ahead; lia|].
  cbn [rbind]. destruct over; [by eauto|]. destruct (IH c1 (i + 1)) as (c2 & -> & Hs2); [apply Hs|].
  exists c2. split; [done|]. by apply (ctl_step_trans c c1).
Qed.

(** Only the numbers the lists do not depend on. *)
Lemma ctl_with_e c e' :
  ctl_inv c -> am_core e' = am_core (ct_e c) -> ctl_frame e' = ctl_frame (ct_e c) -> ctl_step c {| c with ct_e := e' |}.
Proof.
  intros Hinv Hcore Hf. pose proof Hf as [= _ _ _ _ _ _ _ _ _ _ _ Ht _ _].
  split; [|split; [split; [done|]|done]]; [|unfold ctl_sns; simpl; by rewrite Ht]. apply (ctl_inv_next c c); try done; try apply Hinv.
  - by apply control_lists_core.
  - by left.
Qed.

(** *** The two readings of the PDU *)

(** The reading that looks for the end of the PDU stops, or the one that does
    not look reads the same. *)
Definition same_read {A} (m m' : res (option A)) (P : A -> Prop) : Prop :=
  m = Ok None \/ exists a, m = Ok (Some a) /\ m' = Ok (Some a) /\ P a.

Lemma same_read_bind {A B} (m m' : res (option A)) (k k' : A -> res (option B)) P Q :
  same_read m m' P -> (forall a, P a -> same_read (k a) (k' a) Q) -> same_read (obind m k) (obind m' k') Q.
Proof. intros [->|(a & -> & -> & Ha)] Hk; [by left|]. by apply Hk. Qed.

Lemma same_read_ret {A} (a : A) (P : A -> Prop) : P a -> same_read (Ok (Some a)) (Ok (Some a)) P.
Proof. intros. right. by exists a. Qed.

Definition reads (d d' : nr_rlc_pdu_decoder) (n : Z) : Prop :=
  dec_wf d' /\ dec_size d' = dec_size d /\ dec_pos d + n <= dec_pos d'.

Lemma same_read_bits d n :
  dec_wf d -> 0 <= n <= 31 ->
  same_read (get_bits_R d n) (get_bits_unchecked d n) (fun r => 0 <= fst r < 2 ^ n /\ reads d (snd r) n).
Proof.
  intros Hwf Hn. unfold get_bits_R, get_bits_unchecked. destruct (Z.le_gt_cases n (zlen (dec_stream d))) as [Hle|Hgt].
  - destruct (get_bits_ok d n Hwf Hn Hle) as (d' & -> & Hwf' & _ & Hpos & Hbuf). cbn [rbind].
    assert (nr_rlc_pdu_decoder_in_error d' = false) as ->.
    { unfold nr_rlc_pdu_decoder_in_error. destruct Hwf' as [-> _]. done. }
    right. eexists. split_and!; [done|done|..]; simpl.
    + apply bits_val_range.
    + pose proof (bits_val_range (take (Z.to_nat n) (dec_stream d))) as [_ Hr]. by rewrite zlen_take in Hr by lia.
    + split_and!; [done| |lia]. destruct Hwf as (_ & _ & _ & -> & _), Hwf' as (_ & _ & _ & -> & _). by rewrite Hbuf.
  - destruct (get_bits_short d n Hwf Hn) as (d' & -> & He); [lia|]. cbn [rbind]. left.
    unfold nr_rlc_pdu_decoder_in_error. by rewrite He.
Qed.

(** Takes the bits of the field next to be read. *)
Ltac read_field v d' Hv Hd :=
  eapply same_read_bind;
    [apply same_read_bits; [assumption|repeat case_match; lia]
    |intros [v d'] [Hv Hd]; simpl in Hv, Hd; let Hw := fresh "Hwf" in pose proof (proj1 Hd) as Hw].

Lemma reads_trans d1 d2 d3 n m : reads d1 d2 n -> reads d2 d3 m -> reads d1 d3 (n + m).
Proof. intros (_ & Hs & Hp) (Hw & Hs2 & Hp2). split_and!; [done|congruence|lia]. Qed.

Lemma reads_le d1 d2 n m : reads d1 d2 n -> m <= n -> reads d1 d2 m.
Proof. intros (? & ? & ?) ?. split_and!; [done..|lia]. Qed.

Lemma read_header_same e d :
  am_cfg e -> dec_wf d ->
  same_read (read_control_header get_bits_R e d) (read_control_header get_bits_unchecked e d)
    (fun r => let '(_, ack_sn, _, d') := r in am_sn_ok e ack_sn /\ reads d d' 1).
Proof.
  intros [Hl HM _] Hwf. unfold read_control_header, am_sn_ok. rewrite HM.
  read_field x1 d1 H1 Hd1. read_field x2 d2 H2 Hd2. read_field ack d3 H3 Hd3. read_field x4 d4 H4 Hd4.
  read_field x5 d5 H5 Hd5. apply same_read_ret. split; [done|].
  pose proof (reads_trans _ _ _ _ _ (reads_trans _ _ _ _ _ Hd1 Hd2) (reads_trans _ _ _ _ _ Hd3 (reads_trans _ _ _ _ _ Hd4 Hd5))) as Hd.
  eapply reads_le; [exact Hd|]. case_match; lia.
Qed.

Lemma read_nack_same e d :
  am_cfg e -> dec_wf d ->
  same_read (read_nack get_bits_R e d) (read_nack get_bits_unchecked e d)
    (fun r => let '(n, _, d') := r in am_sn_ok e (nack_sn n) /\ reads d d' 1).
Proof.
  intros [Hl HM _] Hwf. unfold read_nack, am_sn_ok. rewrite HM.
  read_field x1 d1 H1 Hd1. read_field x2 d2 H2 Hd2. read_field x3 d3 H3 Hd3. read_field x4 d4 H4 Hd4.
  read_field x5 d5 H5 Hd5.
  eapply (same_read_bind _ _ _ _ (fun r => let '(_, _, d') := r in reads d5 d' 0)).
  { destruct (negb (x3 =? 0)); [|apply same_read_ret; split_and!; [done..|lia]].
    read_field y1 e1 Hy1 He1. read_field y2 e2 Hy2 He2. apply same_read_ret.
    eapply reads_le; [exact (reads_trans _ _ _ _ _ He1 He2)|lia]. }
  intros [[so_start so_end] d6] Hd6. pose proof (proj1 Hd6) as Hwf6.
  eapply (same_read_bind _ _ _ _ (fun r => reads d6 (snd r) 0)).
  { destruct (negb (x4 =? 0)); [|apply same_read_ret; split_and!; [done..|simpl; lia]].
    destruct (same_read_bits d6 8 Hwf6 ltac:(lia)) as [->|(r & -> & -> & _ & Hr)]; [by left|].
    apply same_read_ret. by eapply reads_le. }
  intros [rg d7] Hd7. apply same_read_ret. split; [done|].
  pose proof (reads_trans _ _ _ _ _ (reads_trans _ _ _ _ _ Hd1 Hd2) (reads_trans _ _ _ _ _ Hd3 (reads_trans _ _ _ _ _ Hd4 Hd5))) as Hd.
  pose proof (reads_trans _ _ _ _ _ Hd (reads_trans _ _ _ _ _ Hd6 Hd7)) as Hd'.
  eapply reads_le; [exact Hd'|]. case_match; lia.
Qed.

Lemma read_nack_ext get e e' d : am_sn_field_length e' = am_sn_field_length e -> read_nack get e' d = read_nack get e d.
Proof. intros H. unfold read_nack. by rewrite H. Qed.

Lemma frame_len e e' : ctl_frame e' = ctl_frame e -> am_sn_field_length e' = am_sn_field_length e.
Proof. by intros [=]. Qed.

(** When the PDU passed the checks, its NACKs are processed to the end. *)
Lemma process_nacks_ok fuel e c ack_sn e1 d :
  ctl_inv c -> am_cfg e -> am_sn_field_length (ct_e c) = am_sn_field_length e -> dec_wf d ->
  8 * dec_size d - dec_pos d < Z.of_nat fuel ->
  check_nacks fuel e ack_sn e1 d = Ok false \/
  (check_nacks fuel e ack_sn e1 d = Ok true /\ exists c', process_nacks fuel c ack_sn e1 d = Ok c' /\ ctl_step c c').
Proof.
  intros Hinv He Hlen Hwf Hfuel. revert c e1 d Hinv Hlen Hwf Hfuel.
  induction fuel as [|fuel IH]; intros c e1 d Hinv Hlen Hwf Hfuel.
  { destruct Hwf as (_ & _ & _ & _ & ?). lia. }
  simpl. destruct e1; simpl.
  2:{ right. split; [done|]. eexists. split; [done|]. by apply ctl_step_refl. }
  rewrite (read_nack_ext get_bits_unchecked e (ct_e c)) by done.
  destruct (read_nack_same e d He Hwf) as [->|([[n e1] d'] & -> & -> & Hn & Hd)]; cbn [rbind]; [by left|].
  destruct (check_nack_range _ _ _ _ _); [|by left].
  destruct (process_nack_range_ok (Z.to_nat (nack_range n)) c ack_sn n 0 Hinv) as (c1 & -> & Hs1). cbn [rbind]. cbv zeta.
  set (c2 := {| c1 with ct_e := _ |}).
  assert (Hs2 : ctl_step c1 c2) by (apply ctl_with_e; [apply Hs1|by case_match..]).
  pose proof (ctl_step_trans _ _ _ Hs1 Hs2) as Hs.
  destruct (IH c2 e1 d') as [->|(-> & c3 & -> & Hs3)]; [apply Hs|by rewrite (frame_len (ct_e c)) by apply Hs|apply Hd|..].
  - destruct Hd as (_ & -> & ?). lia.
  - by left.
  - right. split; [done|]. exists c3. split; [done|]. by apply (ctl_step_trans c c2).
Qed.

(** ** The ACK *)

Lemma ctl_eta_wait c : ct_wait c = [] -> {| c with ct_wait := [] |} = c.
Proof. by destruct c; simpl; intros ->. Qed.

Lemma ctl_eta_retx c : ct_retx c = [] -> {| c with ct_retx := [] |} = c.
Proof. by destruct c; simpl; intros ->. Qed.

Lemma ack_wait_list_ok l c ack_sn :
  ctl_inv c -> ct_wait c = l -> exists c', ack_wait_list l c ack_sn = Ok c' /\ ctl_step c c'.
Proof.
  revert c. induction l as [|cur rest IH]; intros c Hinv Hl; simpl.
  { eexists. split; [done|]. rewrite ctl_eta_wait by done. by apply ctl_step_refl. }
  rewrite (ctl_sn_wait c Hinv cur rest Hl). cbn [rbind]. case_bool_.
  - destruct (free_acked_wait_ok c Hinv cur rest Hl) as (c1 & -> & Hs & _ & Hw). cbn [rbind].
    destruct (IH c1) as (c2 & -> & Hs2); [apply Hs|done|]. exists c2. split; [done|]. by apply (ctl_step_trans c c1).
  - eexists. split; [done|]. rewrite <- Hl. destruct c. by apply ctl_step_refl.
Qed.

Lemma ack_retransmit_list_ok l c ack_sn :
  ctl_inv c -> ct_retx c = l -> exists c', ack_retransmit_list l c ack_sn = Ok c' /\ ctl_step c c'.
Proof.
  revert c. induction l as [|cur rest IH]; intros c Hinv Hl; simpl.
  { eexists. split; [done|]. rewrite ctl_eta_retx by done. by apply ctl_step_refl. }
  rewrite (ctl_sn_retx c Hinv cur rest Hl). cbn [rbind]. case_bool_.
  - destruct (free_acked_retx_ok c Hinv cur rest Hl) as (c1 & -> & Hs & _ & Hw & _). cbn [rbind].
    destruct (IH c1) as (c2 & -> & Hs2); [apply Hs|done|]. exists c2. split; [done|]. by apply (ctl_step_trans c c1).
  - eexists. split; [done|]. rewrite <- Hl. destruct c. by apply ctl_step_refl.
Qed.

(** ** The window moves *)

Section WindowMoves.
Context (h : rlc_heap) (e : nr_rlc_entity_am) (Hinv : am_tx_inv h e []).

(** The lists start at [a] or later, and so does the SDU being sent. *)
Definition behind (a : Z) : Prop :=
  am_sn_ok e a /\ modulus_tx e a <= modulus_tx e (am_tx_next e) /\
  Forall (fun s => modulus_tx e a <= modulus_tx e (sn_of h s)) (sl_list (am_wait e) ++ am_retransmit e) /\
  (forall seg, head (sl_list (am_tx e)) = Some seg -> 0 <= sn_of h seg -> modulus_tx e a < modulus_tx e (am_tx_next e)).

Lemma window_moves_ok a : behind a -> am_tx_inv h {| e with am_tx_next_ack := a |} [].
Proof.
  intros (Ha & Hn & Hl & Hp). destruct Hinv as [Hc Hnext Hack Hw Hst Hte Hwe Ht Hh Hsent Hws Hrs Hu Hb Hr].
  set (e' := {| e with am_tx_next_ack := a |}).
  assert (Hsh : forall b, am_sn_ok e b -> modulus_tx e a <= modulus_tx e b -> modulus_tx e' b = modulus_tx e b - modulus_tx e a).
  { intros b Hob Hle. by apply (tx_rel_shift e e' b). }
  pose proof (tx_rel_range e Hack a Ha) as [Ha0 _]. simpl in Hsent.
  assert (Hseg : forall s, s ∈ sl_list (am_wait e) ++ am_retransmit e -> modulus_tx e' (sn_of h s) = modulus_tx e (sn_of h s) - modulus_tx e a).
  { intros s Hs. rewrite Forall_forall in Hsent, Hl. apply Hsh; [by apply Hsent|by apply Hl]. }
  assert (Hsort : forall l, (forall s, s ∈ l -> s ∈ sl_list (am_wait e) ++ am_retransmit e) ->
    StronglySorted (key_lt h e) l -> StronglySorted (key_lt h e') l).
  { intros l Hin Hs. induction Hs as [|s l Hs IH Hall]; constructor.
    - apply IH. intros t Ht'. apply Hin. by right.
    - rewrite Forall_forall in *. intros t Ht'. specialize (Hall t Ht'). unfold key_lt, seg_key in *.
      rewrite !Hseg by (apply Hin; (by left) || by right). lia. }
  constructor; simpl; fold e'; try done.
  - destruct Hc. by constructor.
  - rewrite Hsh by done. lia.
  - intros seg Hs. destruct (Hh seg Hs) as [?|[Hok Hpos]]; [by left|right]. split; [done|].
    change (am_tx_next e') with (am_tx_next e). specialize (Hp seg Hs). rewrite !Hsh; unfold am_sn_ok in Hok; (done || lia).
  - rewrite Forall_forall in *. intros s Hs. destruct (Hsent s Hs) as [Hok Hlt]. split; [done|].
    change (am_tx_next e') with (am_tx_next e). rewrite Hseg, Hsh by done. lia.
  - apply Hsort; [|done]. intros s Hs. rewrite elem_of_app. by left.
  - apply Hsort; [|done]. intros s Hs. rewrite elem_of_app. by right.
Qed.

Lemma lower_to_head_ok l a :
  (forall s, s ∈ l -> s ∈ sl_list (am_wait e) ++ am_retransmit e) -> StronglySorted (key_lt h e) l -> am_sn_ok e a ->
  exists a', lower_to_head h e l a = Ok a' /\ am_sn_ok e a' /\ modulus_tx e a' <= modulus_tx e a /\
    Forall (fun s => modulus_tx e a' <= modulus_tx e (sn_of h s)) l.
Proof.
  intros Hin Hs Ha. destruct l as [|s l]; simpl.
  { exists a. split_and!; try done. }
  assert (Hfit : forall t, t ∈ s :: l -> seg_fits h t /\ am_sn_ok e (sn_of h t)).
  { intros t Ht. specialize (Hin t Ht). pose proof (ati_sent _ _ _ Hinv) as Hsent. rewrite Forall_forall in Hsent. split.
    - apply (inv_fits h e []); [done|]. unfold am_segs. simpl. rewrite elem_of_app. by right.
    - by apply Hsent. }
  destruct (Hfit s) as [Hf Hok]; [by left|]. rewrite (seg_sn_ok h s Hf). cbn [rbind].
  assert (Hall : Forall (fun t => modulus_tx e (sn_of h s) <= modulus_tx e (sn_of h t)) (s :: l)).
  { constructor; [lia|]. apply StronglySorted_inv in Hs as [_ Hs]. rewrite Forall_forall in *. intros t Ht.
    specialize (Hs t Ht). destruct (Hfit t) as [Hft _]; [by right|]. pose proof (fits_so h s Hf). pose proof (fits_so h t Hft).
    unfold key_lt, seg_key in Hs. lia. }
  unfold sn_compare_tx. case_bool_; eexists; (split; [done|]).
  - split_and!; [done|lia|done].
  - split_and!; [done|lia|]. eapply Forall_impl; [exact Hall|]. simpl. lia.
Qed.

(** The peer acknowledges no SDU of which a part is still to be sent. *)
Definition ack_honest (ack_sn : Z) : Prop :=
  forall seg, head (sl_list (am_tx e)) = Some seg -> 0 <= sn_of h seg -> ack_sn <> am_tx_next e.

Lemma update_tx_next_ack_ok ack_sn :
  am_sn_ok e ack_sn -> modulus_tx e ack_sn <= modulus_tx e (am_tx_next e) -> ack_honest ack_sn ->
  exists a, update_tx_next_ack h e ack_sn = Ok {| e with am_tx_next_ack := a |} /\
    am_tx_inv h {| e with am_tx_next_ack := a |} [].
Proof.
  intros Hok Hle Hhon. unfold update_tx_next_ack. pose proof (ati_next _ _ _ Hinv) as Hnext. pose proof (ati_ack _ _ _ Hinv) as Hack.
  destruct (lower_to_head_ok (sl_list (am_wait e)) (am_tx_next e)) as (a1 & -> & Ha1 & Hle1 & Hall1); [|apply Hinv|done|].
  { intros s Hs. rewrite elem_of_app. by left. }
  cbn [rbind]. destruct (lower_to_head_ok (am_retransmit e) a1) as (a2 & -> & Ha2 & Hle2 & Hall2); [|apply Hinv|done|].
  { intros s Hs. rewrite elem_of_app. by right. }
  cbn [rbind]. set (a := if _ <? 0 then _ else _).
  assert (Hmin : modulus_tx e a <= modulus_tx e a2 /\ modulus_tx e a <= modulus_tx e ack_sn /\ am_sn_ok e a).
  { unfold a, sn_compare_tx. case_bool_; (split; [lia|split; [lia|done]]). }
  destruct Hmin as (Hm1 & Hm2 & Hm3). exists a. split; [done|]. apply window_moves_ok. split_and!; [done|lia| |].
  - apply Forall_app. split; (eapply Forall_impl; [eassumption|]); simpl; lia.
  - intros seg Hs Hsn. specialize (Hhon seg Hs Hsn).
    assert (modulus_tx e ack_sn <> modulus_tx e (am_tx_next e)) by (intros Heq; by apply (tx_rel_inj e) in Heq). lia.
Qed.
End WindowMoves.

(** ** The whole PDU *)

Definition control_start (h : rlc_heap) (e : nr_rlc_entity_am) : control :=
  {| ct_heap := h; ct_e := e; ct_kept := []; ct_wait := sl_list (am_wait e); ct_left := []; ct_end := None;
     ct_new := []; ct_retx := am_retransmit e; ct_events := [] |}.

Lemma control_start_ok h e : am_tx_inv h e [] -> ctl_inv (control_start h e).
Proof.
  intros Hinv. split; try done.
  - apply (am_tx_inv_core h e); [|done]. unfold am_core, control_lists. simpl. rewrite app_nil_r. by destruct (am_wait e).
  - intros s t Hs. by apply not_elem_of_nil in Hs.
Qed.

(** What the PDU acknowledges, when it can be read. *)
Definition honest_control (h : rlc_heap) (e : nr_rlc_entity_am) (buffer : bytes) : Prop :=
  forall cpt ack_sn e1 d,
    read_control_header get_bits_R e (nr_rlc_pdu_decoder_init buffer (zlen buffer)) = Ok (Some (cpt, ack_sn, e1, d)) ->
    ack_honest h e ack_sn.

(** The processing of a PDU that passed the checks. *)
Lemma control_walk_ok fuel h e e' ack_sn e1 d :
  am_tx_inv h e [] -> am_core e' = am_core e -> ctl_frame e' = ctl_frame e -> dec_wf d ->
  8 * dec_size d - dec_pos d < Z.of_nat fuel -> check_nacks fuel e ack_sn e1 d = Ok true ->
  am_sn_ok e ack_sn -> modulus_tx e ack_sn <= modulus_tx e (am_tx_next e) -> ack_honest h e ack_sn ->
  exists h2 e2 ev,
    (let* c := process_nacks fuel (control_start h e') ack_sn e1 d in
     let* c := ack_wait_list (ct_wait c) c ack_sn in
     let* c := ack_retransmit_list (ct_retx c) c ack_sn in
     let* e := update_tx_next_ack (ct_heap c) (control_lists c) ack_sn in
     Ok (ct_heap c, e, ct_events c)) = Ok (h2, e2, ev) /\
    am_tx_inv h2 e2 [] /\ am_rx_part e2 = am_rx_part e /\ am_t_current e2 = am_t_current e /\ forallb quiet ev = true.
Proof.
  intros Hinv Hcore Hframe Hwf Hfuel Hchk Hok Hle Hhon.
  pose proof (control_start_ok h e' (am_tx_inv_core h e e' [] Hcore Hinv)) as Hstart.
  destruct (process_nacks_ok fuel e (control_start h e') ack_sn e1 d Hstart (ati_cfg _ _ _ Hinv)) as [?|(_ & c1 & -> & Hs1)];
    [by apply frame_len|done..|congruence|]. cbn [rbind].
  destruct (ack_wait_list_ok _ c1 ack_sn (proj1 Hs1) eq_refl) as (c2 & -> & Hs2). cbn [rbind].
  destruct (ack_retransmit_list_ok _ c2 ack_sn (proj1 Hs2) eq_refl) as (c3 & -> & Hs3). cbn [rbind].
  pose proof (ctl_step_trans _ _ _ Hs1 (ctl_step_trans _ _ _ Hs2 Hs3)) as (Hinv3 & [Hf3 Hn3] & _).
  simpl in Hf3. rewrite Hframe in Hf3. pose proof Hf3 as [= Hl HM HW Hrx R1 R2 R3 R4 R5 Hnext Hack Htx _ Hcur].
  pose proof (modulus_tx_ext e (control_lists c3) HM Hack) as Hmod.
  destruct (update_tx_next_ack_ok (ct_heap c3) (control_lists c3) (ci_inv _ Hinv3) ack_sn) as (a & -> & Hres).
  - unfold am_sn_ok. simpl. by rewrite HM.
  - rewrite Hmod. simpl. by rewrite Hnext.
  - intros seg Hhd Hsn. simpl in Hhd |- *. rewrite Hnext. apply (Hhon seg); [by rewrite <- Htx|].
    unfold ctl_sns in Hn3. simpl in Hn3. pose proof Hframe as [= _ _ _ _ _ _ _ _ _ _ _ Htx' _ _].
    rewrite Htx' in Hn3. rewrite Htx in Hhd, Hn3.
    destruct (sl_list (am_tx e)); [done|]. injection Hhd as ->. simpl in Hn3. injection Hn3 as Hn3 _. by rewrite <- Hn3.
  - cbn [rbind]. eexists _, _, _. split_and!; [done|exact Hres| |exact Hcur|apply Hinv3]. unfold am_rx_part. simpl. congruence.
Qed.

Lemma process_control_pdu_ok h e buffer :
  am_tx_inv h e [] -> honest_control h e buffer ->
  exists h' e' ev, process_control_pdu h e buffer = Ok (h', e', ev) /\
    am_tx_inv h' e' [] /\ am_rx_part e' = am_rx_part e /\ am_t_current e' = am_t_current e /\ forallb quiet ev = true.
Proof.
  intros Hinv Hhon. unfold process_control_pdu, check_control_pdu, apply_control_pdu, honest_control in *.
  set (d0 := nr_rlc_pdu_decoder_init buffer (zlen buffer)) in *.
  destruct (read_header_same e d0 (ati_cfg _ _ _ Hinv) (decoder_init_wf buffer))
    as [->|([[[cpt ack_sn] e1] d] & Hr & -> & Hok & Hd)]; [by eexists _, _, _|].
  rewrite Hr in Hhon |- *. specialize (Hhon cpt ack_sn e1 d eq_refl). cbn [rbind].
  case_bool_; [by eexists _, _, _|]. case_bool_; [by eexists _, _, _|].
  assert (Hfuel : 8 * dec_size d - dec_pos d < Z.of_nat (control_fuel d)).
  { unfold control_fuel. destruct Hd as ((_ & ? & ? & ? & ?) & Hsz & Hp). unfold dec_pos in *. simpl in Hp. lia. }
  destruct (process_nacks_ok (control_fuel d) e (control_start h e) ack_sn e1 d (control_start_ok h e Hinv)
    (ati_cfg _ _ _ Hinv) eq_refl (proj1 Hd) Hfuel) as [->|(Hchk & _)]; [by eexists _, _, _|]. rewrite Hchk. cbn [rbind].
  apply control_walk_ok; try done; try (by case_match; apply Hd); try apply Hd; try by case_match.
  unfold sn_compare_tx in *. lia.
Qed.
