(* ===== verification/RlcAmEntity.v ===== *)
(** The NR RLC AM entity as a whole: every interleaving of its operations keeps
    the invariants of both halves, or stops in one of the three places where
    the code does not come back. *)

From S2P Require Import Prelude RlcPdu RlcSdu TimeStat RlcEntity RlcUm RlcRxManager RlcAm.
From S2P Require Import RlcAmStatus RlcAmTx RlcAmRx RlcAmReport RlcAmStore RlcAmTxInv RlcAmOps RlcAmAck.

(** ** The two halves *)

Definition am_inv (st : rlc_heap * nr_rlc_entity_am) : Prop := am_tx_inv (fst st) (snd st) [] /\ am_rx_inv (snd st).

Lemma am_tx_inv_part h e e' : am_tx_part e' = am_tx_part e -> am_tx_inv h e [] -> am_tx_inv h e' [].
Proof.
  intros [= Hl HM HW Hb Hn Ha _ _ Ht _ Hw Hr _ _ _ _ _]. apply am_tx_inv_core. unfold am_core. congruence.
Qed.

Lemma am_inv_stats h e f : am_inv (h, e) -> am_inv (h, am_stats f e).
Proof. intros [Ht Hr]. split; [by apply (am_tx_inv_core h e)|by apply am_rx_inv_stats]. Qed.

(** ** The window that is full *)

Lemma am_window_full_alt e :
  am_window_full e <-> am_rx_highest_status e = am_rx_next e
    /\ Forall (fun k => am_done e k = true) (seqZ 1 (am_window_size e - 1)).
Proof.
  unfold am_window_full. rewrite Forall_seqZ. split; intros [? Hk]; (split; [done|]); intros k ?; apply Hk; lia.
Qed.

#[export] Instance am_window_full_dec e : Decision (am_window_full e).
Proof.
  destruct (decide (am_rx_highest_status e = am_rx_next e
    /\ Forall (fun k => am_done e k = true) (seqZ 1 (am_window_size e - 1)))) as [H|H]; [left|right];
    by rewrite am_window_full_alt.
Defined.

#[export] Instance am_hangs_dec e p : Decision (am_hangs e p).
Proof. unfold am_hangs. apply _. Defined.

(** The data PDU [buffer] carries the last bytes missing of the SDU at
    [rx_next] while the window is full. *)
Definition am_hangs_on (e : nr_rlc_entity_am) (buffer : bytes) : Prop :=
  exists d p sn so is_first is_last byte,
    nr_rlc_pdu_decoder_get_bits (nr_rlc_pdu_decoder_init buffer (zlen buffer)) 1 = Ok (1, d) /\
    nr_rlc_pdu_decoder_in_error d = false /\
    am_recv_data e buffer d = am_recv_segment e buffer p sn so is_first is_last byte /\
    (am_sn_ok e sn /\ 0 <= so /\ (is_first = true <-> so = 0) /\ 0 <= byte) /\
    am_segment_stored e sn so (zlen buffer - byte) = true /\
    am_hangs e (mk_pdu sn (Some (drop (Z.to_nat byte) buffer)) (zlen buffer - byte) so is_first is_last).

Lemma am_segment_hangs e buffer p sn so is_first is_last byte :
  am_rx_inv e -> am_sn_ok e sn -> 0 <= so -> (is_first = true <-> so = 0) -> 0 <= byte ->
  am_hangs e (mk_pdu sn (Some (drop (Z.to_nat byte) buffer)) (zlen buffer - byte) so is_first is_last) ->
  am_segment_stored e sn so (zlen buffer - byte) = true ->
  am_recv_segment e buffer p sn so is_first is_last byte = Fail FFuel.
Proof.
  intros Hinv Hsn Hso Hf Hbyte Hh Hstored.
  destruct (am_recv_segment_cases e buffer p sn so is_first is_last byte) as [[Hn _]|(_ & Hsz & Hin & data & Hlen & <- & ->)];
    [apply Hinv|done|done|congruence|].
  set (pdu := mk_pdu _ _ _ _ _ _) in *.
  destruct (am_hang_reception e pdu (am_rx_size e + (zlen buffer - byte))) as (rx & -> & Hr); try done.
  cbn [rbind]. change sn with (pdu_sn pdu). by rewrite Hr.
Qed.

(** ** Reception of a PDU *)

(** The D/C bit is there and is 0. *)
Definition is_control (buffer : bytes) : bool :=
  match nr_rlc_pdu_decoder_get_bits (nr_rlc_pdu_decoder_init buffer (zlen buffer)) 1 with
  | Ok (dc, d) => negb (nr_rlc_pdu_decoder_in_error d) && (dc =? 0)
  | Fail _ => false
  end.

Definition am_good (st : rlc_heap * nr_rlc_entity_am) (r : res (rlc_heap * nr_rlc_entity_am * list event)) : Prop :=
  exists st' ev, r = Ok (st', ev) /\ am_inv st'.

Lemma am_recv_data_ok h e buffer d :
  am_inv (h, e) -> dec_wf d -> nr_rlc_pdu_decoder_get_bits (nr_rlc_pdu_decoder_init buffer (zlen buffer)) 1 = Ok (1, d) ->
  nr_rlc_pdu_decoder_in_error d = false ->
  am_good (h, e) (let* (e, ev) := am_recv_data e buffer d in Ok (h, e, ev)) \/
  (am_hangs_on e buffer /\ am_recv_data e buffer d = Fail FFuel).
Proof.
  intros [Htx Hrx] Hwf Hd Herr.
  assert (Hgood : forall r, am_rx_good e r -> am_good (h, e) (let* (e, ev) := r in Ok (h, e, ev))).
  { intros r (e' & ev & -> & Hrx' & Hpart). eexists _, _. split; [done|]. split; [by apply (am_tx_inv_part h e)|done]. }
  destruct (am_recv_data_cases e buffer d (ati_cfg _ _ _ Htx) Hwf) as [[p Hr]|(p & sn & so & f & l & byte & Hr & Hsn & Hso & Hf & Hb)].
  { left. rewrite Hr. apply Hgood. rewrite <- (am_stats_id e) at 2. by apply am_rx_good_discard. }
  set (pdu := mk_pdu sn (Some (drop (Z.to_nat byte) buffer)) (zlen buffer - byte) so f l).
  destruct (decide (am_hangs e pdu)) as [Hh|Hh].
  - destruct (am_recv_segment_cases e buffer p sn so f l byte) as [[_ [g Hs]]|(Hs & _)]; [apply Hrx|done|done|..].
    + left. rewrite Hr, Hs. apply Hgood. by apply am_rx_good_discard.
    + right. split; [by exists d, p, sn, so, f, l, byte|]. rewrite Hr. by apply am_segment_hangs.
  - left. rewrite Hr. apply Hgood. by apply am_recv_segment_ok.
Qed.

Definition stats_rxpdu (n : Z) (s : nr_rlc_statistics) : nr_rlc_statistics :=
  {| s with rxpdu_pkts := u32 (rxpdu_pkts s + 1); rxpdu_bytes := u32 (rxpdu_bytes s + n) |}.

Lemma am_recv_pdu_ok h e buffer :
  am_inv (h, e) -> (is_control buffer = true -> honest_control h e buffer) ->
  am_good (h, e) (recv_pdu h e buffer) \/
  (am_hangs_on (am_stats (stats_rxpdu (zlen buffer)) e) buffer /\ recv_pdu h e buffer = Fail FFuel).
Proof.
  intros Hinv Hhon. unfold recv_pdu, am_RlcEntity, nr_rlc_entity_am_recv_pdu. cbv zeta.
  fold (stats_rxpdu (zlen buffer)).
  pose proof (am_inv_stats h e (stats_rxpdu (zlen buffer)) Hinv) as Hinv1. set (e1 := am_stats _ e) in *.
  pose proof (decoder_init_wf buffer) as Hwf0.
  destruct (get_bits_cases (nr_rlc_pdu_decoder_init buffer (zlen buffer)) 1 Hwf0) as (dc & d & Hg & Hd); [lia|].
  unfold is_control in Hhon. rewrite Hg in Hhon |- *. cbn [rbind]. destruct Hd as [->|(Hne & Hdc & Hwf & _)].
  { left. eexists (h, _), _. split; [done|]. destruct Hinv1 as [Htx Hrx].
    destruct (am_discard_pdu_ok e1 false (zlen buffer) Hrx) as [H1 H2]. split; [|done]. by apply (am_tx_inv_part h e1). }
  rewrite Hne in Hhon |- *. destruct (Z.eqb_spec dc 0) as [->|Hdc0].
  - left. destruct (process_control_pdu_ok h e1 buffer) as (h' & e' & ev & -> & Htx' & Hrx' & _); [apply Hinv1|by apply Hhon|].
    eexists (h', e'), ev. split; [done|]. split; [done|]. apply (am_rx_inv_part e1); [done|apply Hinv1].
  - assert (dc = 1) as -> by lia. destruct (am_recv_data_ok h e1 buffer d Hinv1 Hwf Hg Hne) as [?|[? ->]]; [by left|by right].
Qed.

(** The PDU that [am_hangs_on] tells is the one on which the receiver hangs. *)
Lemma am_recv_pdu_hangs h e buffer :
  am_inv (h, e) -> am_hangs_on (am_stats (stats_rxpdu (zlen buffer)) e) buffer -> recv_pdu h e buffer = Fail FFuel.
Proof.
  intros Hinv. pose proof (am_inv_stats h e (stats_rxpdu (zlen buffer)) Hinv) as [_ Hrx].
  intros (d & p & sn & so & f & l & byte & Hg & Hne & Hr & (Hsn & Hso & Hf & Hb) & Hst & Hh).
  unfold recv_pdu, am_RlcEntity, nr_rlc_entity_am_recv_pdu. cbv zeta. fold (stats_rxpdu (zlen buffer)).
  set (e1 := am_stats _ e) in *. rewrite Hg. cbn [rbind]. rewrite Hne. change (1 =? 0) with false. cbn iota. by rewrite Hr, am_segment_hangs.
Qed.

(** ** Generation of a PDU *)

Lemma generate_status_small e buffer size : size < 3 -> generate_status e buffer size = Ok (e, buffer, 0).
Proof. intros. unfold generate_status. by rewrite (proj2 (Z.ltb_lt _ _)). Qed.

(** What a grant is used for: a status PDU, or a data PDU, or nothing. *)
Lemma am_generate_pdu_ok h e now buffer size :
  am_inv (h, e) -> size <= zlen buffer ->
  exists h' e' buffer' n, generate_pdu h e now buffer size = Ok (h', e', buffer', n) /\ am_inv (h', e') /\
    zlen buffer' = zlen buffer /\
    if status_to_report e && (3 <=? size)
    then h' = h /\ am_tx_part e' = am_tx_part e /\ 3 <= n <= size /\ status_size e size = Ok n /\
         generate_status e buffer size = Ok (e', buffer', n)
    else am_generated e h buffer size h' e' buffer' n.
Proof.
  intros [Htx Hrx] Hsize. unfold generate_pdu, am_RlcEntity, nr_rlc_entity_am_generate_pdu.
  assert (Hdata : exists h' e' buffer' n, generate_data_pdu h e now buffer size = Ok (h', e', buffer', n) /\ am_inv (h', e') /\
    zlen buffer' = zlen buffer /\ am_generated e h buffer size h' e' buffer' n).
  { destruct (generate_data_ok h e now buffer size Htx Hsize) as (h' & e' & buffer' & n & Hg & Hgen).
    exists h', e', buffer', n. split; [done|]. pose proof Hgen as [Hi Hr Hl _ _ _]. split_and!; [|done|done].
    split; [done|]. by apply (am_rx_inv_part e). }
  destruct (status_to_report e); [|done]. simpl. destruct (3 <=? size) eqn:H3.
  - destruct (generate_status_ok e buffer size Hrx Hsize) as (e' & buf & n & Hg & Hs & Hn & Hns & Hn3 & Hl & Hrx' & Hpart & _).
    rewrite Hg. cbn [rbind]. rewrite (proj2 (Z.eqb_neq n 0)) by lia. simpl.
    exists h, e', buf, n. split_and!; try done; try lia. split; [by apply (am_tx_inv_part h e)|done].
  - rewrite generate_status_small by lia. exact Hdata.
Qed.

(** ** The other operations *)

Lemma am_get_stats_ok h e now :
  am_inv (h, e) -> exists e' out, nr_rlc_entity_am_get_stats h e now = Ok (e', out) /\ am_inv (h, e') /\
    am_rx_part e' = am_rx_part e.
Proof.
  intros [Htx Hrx]. unfold nr_rlc_entity_am_get_stats, nr_rlc_entity_get_stats. set (hol := match am_retransmit e with [] => _ | _ => _ end).
  assert (Hhol : match hol with Some seg => seg_fits h seg | None => True end).
  { assert (forall s, s ∈ am_segs e -> seg_fits h s) as Hf by (intros s Hs; by apply (inv_fits h e [])).
    unfold hol, am_segs in *. destruct (am_retransmit e) as [|s l].
    - destruct (sl_list (am_tx e)) as [|s l]; [done|]. apply Hf. simpl. by left.
    - apply Hf. rewrite !elem_of_app. right. right. by left. }
  assert (exists w, (match hol with
    | Some seg => let* s := heap_get h (seg_sdu seg) in Ok (u32 (u64 (now - sdu_time_of_arrival s)))
    | None => Ok 0 end) = Ok w) as (w & ->).
  { destruct hol as [seg|]; [|by eexists]. destruct Hhol as (s & Hs%heap_get_lookup & _). rewrite Hs. by eexists. }
  cbn [rbind]. case_bool_.
  - destruct (time_average_get_average _ _) as [avg v]. cbn [rbind]. eexists _, _. split; [done|].
    split; [|done]. split; [by apply (am_tx_inv_core h e)|by apply (am_rx_inv_part e)].
  - cbn [rbind]. eexists _, _. split; [done|]. split; [|done]. split; [by apply (am_tx_inv_core h e)|by apply (am_rx_inv_part e)].
Qed.

Lemma am_set_time_ok h e now :
  am_inv (h, e) ->
  if am_poll_crashes {| e with am_t_current := now |} then set_time h e now = Fail FBounds
  else am_good (h, e) (set_time h e now).
Proof.
  intros [Htx Hrx]. unfold set_time, am_RlcEntity, nr_rlc_entity_am_set_time. set (e1 := {| e with am_t_current := now |}).
  assert (Htx1 : am_tx_inv h e1 []) by by apply (am_tx_inv_core h e).
  assert (Hrx1 : am_rx_inv e1) by by apply (am_rx_inv_part e).
  pose proof (check_t_poll_ok h e1 Htx1) as H. destruct (am_poll_crashes e1); [by rewrite H|].
  destruct H as (h' & e2 & ev & -> & Htx2 & Hrx2). cbn [rbind].
  destruct (am_check_t_reassembly_ok e2) as (e3 & -> & Hrx3 & Heq); [by apply (am_rx_inv_part e1)|]. cbn [rbind].
  eexists (h', e3), ev. split; [done|]. split; [|done]. apply (am_tx_inv_part h' e2); [by rewrite Heq|done].
Qed.

(** ** Traces *)

Inductive am_op :=
| am_op_recv_pdu (buffer : bytes)
| am_op_generate (now : Z) (buffer : bytes) (size : Z)
| am_op_buffer_status (maxsize : Z)
| am_op_recv_sdu (now : Z) (buffer : bytes) (size sdu_id : Z)
| am_op_set_time (now : Z)
| am_op_discard (sdu_id : Z)
| am_op_reestablish
| am_op_get_stats (now : Z).

(** What the callers guarantee: buffers of the size they announce. *)
Definition am_op_ok (op : am_op) : Prop :=
  match op with
  | am_op_generate _ buffer size => size <= zlen buffer
  | am_op_recv_sdu _ buffer size _ => 0 < size <= zlen buffer
  | _ => True
  end.

Inductive am_out :=
| am_out_event (ev : event)
| am_out_pdu (pdu : bytes)
| am_out_status (b : nr_rlc_entity_buffer_status).

Definition am_state : Type := rlc_heap * nr_rlc_entity_am.

Definition am_step (st : am_state) (op : am_op) : res (am_state * list am_out) :=
  let '(h, e) := st in
  match op with
  | am_op_recv_pdu buffer => let* (h, e, ev) := recv_pdu h e buffer in Ok (h, e, map am_out_event ev)
  | am_op_generate now buffer size =>
      let* (h, e, buf, ret) := generate_pdu h e now buffer size in
      Ok (h, e, if 0 <? ret then [am_out_pdu (take (Z.to_nat ret) buf)] else [])
  | am_op_buffer_status maxsize => let* b := buffer_status e maxsize in Ok (h, e, [am_out_status b])
  | am_op_recv_sdu now buffer size id => let* (h, e) := recv_sdu h e now buffer size id in Ok (h, e, [])
  | am_op_set_time now => let* (h, e, ev) := set_time h e now in Ok (h, e, map am_out_event ev)
  | am_op_discard id => let* (h, e) := discard_sdu h e id in Ok (h, e, [])
  | am_op_reestablish => let* (h, e) := reestablishment h e in Ok (h, e, [])
  | am_op_get_stats now => let* (e, _) := nr_rlc_entity_am_get_stats h e now in Ok (h, e, [])
  end.

Fixpoint am_run (st : am_state) (ops : list am_op) : res (am_state * list am_out) :=
  match ops with
  | [] => Ok (st, [])
  | op :: ops' =>
      let* (st1, out1) := am_step st op in
      let* (st2, out2) := am_run st1 ops' in
      Ok (st2, out1 ++ out2)
  end.

(** A peer does not acknowledge an SDU of which a part was not sent yet. *)
Definition am_honest_pdu (st : am_state) (buffer : bytes) : bool :=
  let '(h, e) := st in
  negb (is_control buffer) ||
  match read_control_header get_bits_R e (nr_rlc_pdu_decoder_init buffer (zlen buffer)) with
  | Ok (Some (_, ack_sn, _, _)) =>
      match sl_list (am_tx e) with
      | seg :: _ => negb ((0 <=? sn_of h seg) && (ack_sn =? am_tx_next e))
      | [] => true
      end
  | _ => true
  end.

Definition am_honest (st : am_state) (op : am_op) : bool :=
  match op with am_op_recv_pdu buffer => am_honest_pdu st buffer | _ => true end.

Fixpoint am_honest_run (st : am_state) (ops : list am_op) : bool :=
  match ops with
  | [] => true
  | op :: ops' =>
      am_honest st op && match am_step st op with Ok (st', _) => am_honest_run st' ops' | Fail _ => true end
  end.

(** The three ways not to come back. *)
Inductive am_stops : am_state -> am_op -> failure -> Prop :=
| stops_window_full h e buffer :
    am_hangs_on (am_stats (stats_rxpdu (zlen buffer)) e) buffer -> am_stops (h, e) (am_op_recv_pdu buffer) FFuel
| stops_poll h e now :
    am_poll_crashes {| e with am_t_current := now |} = true -> am_stops (h, e) (am_op_set_time now) FBounds
| stops_sdu_too_long h e now buffer size id :
    NR_SDU_MAX < size -> am_stops (h, e) (am_op_recv_sdu now buffer size id) FExit.

Lemma am_honest_pdu_ok h e buffer : am_honest_pdu (h, e) buffer = true -> is_control buffer = true -> honest_control h e buffer.
Proof.
  unfold am_honest_pdu, honest_control, ack_honest. intros Hh Hc cpt ack_sn e1 d Hr seg Hseg Hsn Heq. rewrite Hc, Hr in Hh. simpl in Hh.
  destruct (sl_list (am_tx e)) as [|s l]; [done|]. injection Hseg as ->. bool_hyps. lia.
Qed.

Lemma am_step_ok st op :
  am_inv st -> am_op_ok op -> am_honest st op = true ->
  (exists st' out, am_step st op = Ok (st', out) /\ am_inv st') \/ exists f, am_step st op = Fail f /\ am_stops st op f.
Proof.
  destruct st as [h e]. intros Hinv Hop Hhon. pose proof Hinv as [Htx Hrx]. destruct op; cbn [am_op_ok am_honest am_step] in *.
  - destruct (am_recv_pdu_ok h e buffer Hinv (am_honest_pdu_ok _ _ _ Hhon)) as [([h' e'] & ev & -> & Hinv')|[Hh ->]].
    + left. by eexists _, _.
    + right. eexists. split; [done|]. by constructor.
  - left. destruct (am_generate_pdu_ok h e now buffer size Hinv Hop) as (h' & e' & b & n & -> & Hinv' & _). by eexists _, _.
  - left. unfold buffer_status, am_RlcEntity, nr_rlc_entity_am_buffer_status. destruct (status_to_report e); [|by eexists _, _].
    destruct (Z.le_gt_cases 0 maxsize) as [Hm|Hm].
    + destruct (generate_status_ok e (replicate (Z.to_nat maxsize) 0) maxsize Hrx) as (? & ? & n & _ & -> & _).
      { unfold zlen. rewrite length_replicate. lia. }
      by eexists _, _.
    + unfold status_size. rewrite (proj2 (Z.ltb_lt _ _)) by lia. by eexists _, _.
  - pose proof (am_recv_sdu_ok h e now buffer size sdu_id Htx Hop) as H. unfold recv_sdu, am_RlcEntity. destruct (NR_SDU_MAX <? size) eqn:Hs.
    + right. eexists. rewrite H. split; [done|]. constructor. lia.
    + left. destruct H as (h' & e' & -> & Htx' & Hp). eexists _, _. split; [done|]. split; [done|]. by apply (am_rx_inv_part e).
  - pose proof (am_set_time_ok h e now Hinv) as H. destruct (am_poll_crashes _) eqn:Hc.
    + right. rewrite H. eexists. split; [done|]. by constructor.
    + left. destruct H as ([h' e'] & ev & -> & Hinv'). by eexists _, _.
  - left. destruct (am_discard_sdu_ok h e sdu_id Htx) as (h' & e' & H & Htx' & Hp). unfold discard_sdu, am_RlcEntity. rewrite H.
    eexists _, _. split; [done|]. split; [done|]. by apply (am_rx_inv_part e).
  - left. destruct (am_clear_entity_ok h e Htx) as (h' & e' & H & Htx' & Hrx' & _); [apply Hrx|].
    unfold reestablishment, am_RlcEntity, nr_rlc_entity_am_reestablishment. rewrite H. by eexists _, _.
  - left. destruct (am_get_stats_ok h e now Hinv) as (e' & out & -> & Hinv' & _). by eexists _, _.
Qed.

Lemma am_run_ok ops st :
  am_inv st -> Forall am_op_ok ops -> am_honest_run st ops = true ->
  (exists st' out, am_run st ops = Ok (st', out) /\ am_inv st') \/
  exists pre op post st1 out f, ops = pre ++ op :: post /\ am_run st pre = Ok (st1, out) /\ am_inv st1 /\
    am_run st ops = Fail f /\ am_step st1 op = Fail f /\ am_stops st1 op f.
Proof.
  intros Hinv Hops. revert st Hinv. induction Hops as [|op ops Hop Hops IH]; intros st Hinv Hh; simpl in *; [left; by eauto|].
  apply andb_true_iff in Hh as [Hh Hrest].
  destruct (am_step_ok st op Hinv Hop Hh) as [(st1 & out1 & Hs & Hinv1)|(f & Hs & Hstop)]; rewrite Hs in Hrest |- *; cbn [rbind].
  - destruct (IH st1 Hinv1 Hrest) as [(st2 & out2 & -> & Hinv2)|(pre & op2 & post & st2 & out2 & f & -> & Hpre & Hinv2 & Hf & Hs2 & Hstop)].
    + left. cbn [rbind]. by eauto.
    + right. exists (op :: pre), op2, post, st2, (out1 ++ out2), f. simpl. rewrite Hs. cbn [rbind]. rewrite Hpre, Hf. cbn [rbind]. by split_and!.
  - right. by exists [], op, ops, st, [], f.
Qed.

Lemma am_inv_new rxm txm t1 t2 t3 pp pb mr n e :
  new_nr_rlc_entity_am rxm txm t1 t2 t3 pp pb mr n = Ok e -> am_inv (heap_empty, e).
Proof.
  unfold new_nr_rlc_entity_am, assert_. destruct (_ || _) eqn:Hn; [|done]. cbn [rbind]. cbv zeta.
  destruct (time_average_new _ _) as [avg|]; [|done]. cbn [rbind]. intros [= <-].
  assert (n = 12 \/ n = 18) as Hl by lia. rewrite Z.shiftl_1_l.
  assert (Hc : Z.quot (2 ^ n) 2 = 2 ^ (n - 1) /\ 2 ^ n = 2 * Z.quot (2 ^ n) 2) by (destruct Hl as [-> | ->]; done).
  destruct Hc as [Hq H2]. split.
  - apply am_tx_inv_fresh; try done. by constructor; [constructor..|].
  - apply am_rx_inv_fresh; simpl; try done. by rewrite Hq, Z.shiftl_1_l.
Qed.
