(* ===== verification/RlcAmLink.v ===== *)
(** From one NR RLC AM entity to another: the header round trip, and the
    receiver as what it is for, which hands over every SDU exactly once and
    whole, whatever the order, the repetitions, the losses and the segmentation
    of what arrives. *)

From S2P Require Import Prelude RlcPdu RlcSdu TimeStat RlcEntity RlcUm RlcUmRx RlcRxManager RlcAm.
From S2P Require Import RlcAmStatus RlcAmTx RlcAmRx RlcAmReport RlcAmStore RlcAmTxInv RlcAmOps RlcAmAck RlcAmEntity.

(** ** The header *)

(** A header that can be decoded. *)
Record am_header_of (e : nr_rlc_entity_am) (p : bool) (sn : Z) (seg : nr_rlc_sdu_segment) (hdr : bytes) : Prop := {
  aho_cfg : am_cfg e;
  aho_sn : am_sn_ok e sn;
  aho_so : 0 <= seg_so seg < 2 ^ 16;
  aho_first : seg_is_first seg = true <-> seg_so seg = 0;
  aho_hdr : is_am_header e p sn seg hdr
}.

(** What follows the D/C bit. *)
Lemma am_recv_data_header e p sn seg hdr data d :
  am_header_of e p sn seg hdr -> dec_wf d -> dec_pos d = 1 -> low_bits 1 1 ++ dec_stream d = bits_of_bytes (hdr ++ data) ->
  am_recv_data e (hdr ++ data) d
  = am_recv_segment e (hdr ++ data) p sn (seg_so seg) (seg_is_first seg) (seg_is_last seg) (zlen hdr).
Proof.
  intros [[Hlen Hmod _] Hsn Hso Hfirst [Hz Hb]] Hwf Hpos Hstr.
  rewrite bits_of_bytes_app, Hb in Hstr. unfold am_header, fields_bits in Hstr. cbn [map concat app fst snd] in Hstr.
  rewrite <- !app_assoc in Hstr. apply app_inv_head in Hstr.
  unfold am_recv_data. cbv zeta.
  assert (Hbit : forall b : bool, field_ok (Z.b2z b, 1)) by (intros []; unfold field_ok; simpl; lia).
  destruct (get_field_ok d (Z.b2z p) 1 _ Hwf (Hbit p) Hstr) as (d1 & -> & He1 & Hwf1 & Hs1 & Hp1). cbn [rbind].
  assert (negb (Z.b2z p =? 0) = p) as -> by by destruct p. rewrite He1.
  destruct (si_bits (seg_is_first seg) (seg_is_last seg)) as (Hsi & Hsf & Hsl).
  rewrite app_assoc, Hsi in Hs1.
  destruct (get_field_ok d1 (2 * (1 - Z.b2z (seg_is_first seg)) + (1 - Z.b2z (seg_is_last seg))) 2 _ Hwf1 ltac:(unfold field_ok; destruct (seg_is_first seg), (seg_is_last seg); simpl; lia) Hs1)
    as (d2 & -> & He2 & Hwf2 & Hs2 & Hp2). cbn [rbind]. rewrite He2, Hsf, Hsl. clear Hsi Hsf Hsl Hs1.
  assert (exists v d3, (if am_sn_field_length e =? 18 then nr_rlc_pdu_decoder_get_bits d2 2 else Ok (0, d2)) = Ok (v, d3) /\
    nr_rlc_pdu_decoder_in_error d3 = false /\ dec_wf d3 /\
    dec_stream d3 = concat (map (fun f => low_bits (Z.to_nat (snd f)) (fst f))
      ([(sn, am_sn_field_length e)] ++ (if negb (seg_is_first seg) then [(seg_so seg, 16)] else []))) ++ bits_of_bytes data /\
    dec_pos d3 = dec_pos d2 + (if am_sn_field_length e =? 18 then 2 else 0)) as (v & d3 & -> & He3 & Hwf3 & Hs3 & Hp3).
  { destruct (am_sn_field_length e =? 18).
    - cbn [app map concat fst snd] in Hs2. rewrite <- app_assoc in Hs2.
      destruct (get_field_ok d2 0 2 _ Hwf2 ltac:(unfold field_ok; simpl; lia) Hs2) as (d3 & -> & ? & ? & ? & ?). by eauto 10.
    - eexists _, d2. split_and!; (done || lia). }
  cbn [rbind]. rewrite He3. cbn [app map concat fst snd] in Hs3. rewrite <- app_assoc in Hs3.
  unfold am_sn_ok in Hsn. rewrite Hmod in Hsn.
  destruct (get_field_ok d3 sn (am_sn_field_length e) _ Hwf3 ltac:(unfold field_ok; simpl; lia) Hs3)
    as (d4 & -> & He4 & Hwf4 & Hs4 & Hp4). cbn [rbind]. rewrite He4.
  unfold compute_pdu_header_size in Hz. destruct (seg_is_first seg) eqn:Hf.
  - rewrite (proj1 Hfirst eq_refl). f_equal. destruct Hwf4 as (_ & _ & ? & _). unfold dec_pos in *. simpl negb in Hz.
    destruct Hlen as [Hl|Hl]; rewrite Hl in *; simpl in *; lia.
  - cbn [negb map concat fst snd app] in Hs4. rewrite app_nil_r in Hs4.
    destruct (get_field_ok d4 (seg_so seg) 16 _ Hwf4 ltac:(unfold field_ok; simpl; lia) Hs4) as (d5 & -> & He5 & Hwf5 & _ & Hp5).
    cbn [rbind]. rewrite He5. assert (seg_so seg <> 0) as Hne by (intros H0; by apply Hfirst in H0).
    rewrite (proj2 (Z.eqb_neq _ _)) by done. f_equal. destruct Hwf5 as (_ & _ & ? & _). unfold dec_pos in *. simpl negb in Hz.
    destruct Hlen as [Hl|Hl]; rewrite Hl in *; simpl in *; lia.
Qed.

Lemma am_recv_pdu_header h e p sn seg hdr data :
  am_header_of e p sn seg hdr ->
  nr_rlc_entity_am_recv_pdu h e (hdr ++ data)
  = let* (e, ev) := am_recv_segment (am_stats (stats_rxpdu (zlen (hdr ++ data))) e) (hdr ++ data) p sn (seg_so seg)
      (seg_is_first seg) (seg_is_last seg) (zlen hdr) in Ok (h, e, ev).
Proof.
  intros Hof. unfold nr_rlc_entity_am_recv_pdu. cbv zeta. fold (stats_rxpdu (zlen (hdr ++ data))).
  set (e1 := am_stats _ e). pose proof (decoder_init_wf (hdr ++ data)) as Hwf.
  set (d0 := nr_rlc_pdu_decoder_init _ _) in *.
  assert (Hs : dec_stream d0 = low_bits (Z.to_nat 1) 1 ++ tl (dec_stream d0)).
  { unfold d0. rewrite decoder_init_stream, bits_of_bytes_app. destruct (aho_hdr _ _ _ _ _ Hof) as [_ ->]. done. }
  destruct (get_field_ok d0 1 1 _ Hwf ltac:(unfold field_ok; simpl; lia) Hs) as (d & -> & He & Hwf1 & Hs1 & Hp1). cbn [rbind]. rewrite He.
  simpl (1 =? 0). cbv iota. rewrite (am_recv_data_header e1 p sn seg hdr data d); try done.
  - destruct Hof as [[] ? ? ? ?]. by constructor.
  - rewrite Hs1. change (low_bits 1 1) with (low_bits (Z.to_nat 1) 1). rewrite <- Hs. apply decoder_init_stream.
Qed.

(** ** Reassembly *)

Lemma reassemble_list_full d l last rs :
  Forall (seg_of d) l -> zlen d <= NR_SDU_MAX -> 0 <= last + 1 <= zlen d ->
  full_loop last l = true \/ last + 1 = zlen d ->
  exists l' rs', reassemble_list l (mk_reass (take (Z.to_nat (last + 1)) d) false rs) = Ok (l', mk_reass d false rs').
Proof.
  intros Hsegs Hmax. revert last rs. induction Hsegs as [|p l Hp Hl IH]; intros last rs Hlast Hfull; simpl.
  - destruct Hfull as [|Heq]; [done|]. rewrite Heq. unfold zlen. rewrite Nat2Z.id, firstn_all. eauto.
  - pose proof Hp as (Hso & Hsz & Hlen & _ & Hlst). simpl in Hfull.
    assert (Hgap : pdu_so p <= last + 1).
    { destruct Hfull as [Hf|]; [|lia]. destruct (last + 1 <? pdu_so p) eqn:?; [done|lia]. }
    rewrite (reassemble_one_seg d p last rs) by (done || lia). cbn [rbind].
    destruct (IH (new_last_byte p last) (rs - pdu_size p)) as (l' & rs' & ->); [..|cbn [rbind]; eauto].
    + unfold new_last_byte. case_bool_; lia.
    + rewrite (proj2 (Z.ltb_ge _ _)) in Hfull by done. destruct (pdu_is_last p).
      * right. unfold new_last_byte. case_bool_; lia.
      * destruct Hfull as [|Heq']; [by left|right]. unfold new_last_byte. case_bool_; lia.
Qed.

Lemma am_event_full d l rs :
  Forall (seg_of d) l -> zlen d <= NR_SDU_MAX -> full_loop (-1) l = true -> am_event l rs = [deliver_sdu d].
Proof.
  intros Hs Hmax Hf. unfold am_event. pose proof (zlen_nonneg d).
  destruct (reassemble_list_full d l (-1) rs) as (l' & rs' & H1); [done|done|lia|by left|].
  change (take (Z.to_nat (-1 + 1)) d) with (@nil Z) in H1. by rewrite H1.
Qed.

(** What the handing over of SDUs is about. *)
Definition am_slots_part (e : nr_rlc_entity_am) := (am_sn_modulus e, am_window_size e, am_rx e, am_rx_next e).

Lemma am_discard_slots f p size e : am_slots_part (am_discard_pdu (am_stats f e) p size) = am_slots_part e.
Proof. by destruct p. Qed.

(** A segment whose reception succeeds: it was dropped, or stored. *)
Lemma am_segment_received e buffer p sn so is_first is_last byte e' ev :
  am_rx_inv e -> am_sn_ok e sn -> 0 <= so -> (is_first = true <-> so = 0) -> 0 <= byte ->
  am_recv_segment e buffer p sn so is_first is_last byte = Ok (e', ev) ->
  let pdu := mk_pdu sn (Some (drop (Z.to_nat byte) buffer)) (zlen buffer - byte) so is_first is_last in
  (am_slots_part e' = am_slots_part e /\ ev = []) \/
  (am_pdu_ok sn pdu /\ sn_in_recv_window e sn = true /\ am_tx_part e' = am_tx_part e /\
   am_received e pdu (am_rx_size e + (zlen buffer - byte)) e' ev).
Proof.
  intros Hinv Hsn Hso Hf Hbyte Hr pdu.
  destruct (am_recv_segment_cases e buffer p sn so is_first is_last byte)
    as [[_ [f Hd]]|(Hst & Hsz & Hin & data & Hlen & Hdd & Hs)]; [apply Hinv|done|done|..].
  { left. rewrite Hd in Hr. injection Hr as <- <-. split; [apply am_discard_slots|done]. }
  right. destruct (decide (am_hangs e pdu)) as [Hh|Hnh].
  { rewrite (am_segment_hangs e) in Hr by done. done. }
  rewrite <- Hdd in Hs. fold pdu in Hs. subst data. rewrite Hs in Hr.
  assert (Hok : am_pdu_ok (pdu_sn pdu) pdu) by (split_and!; done).
  destruct (am_reception_ok e pdu (am_rx_size e + (zlen buffer - byte)) Hinv Hok ltac:(done) Hsn Hin Hnh)
    as (rx & e2 & ev2 & Ha & Hre & _ & Hpart & Hrec).
  rewrite Ha in Hr. cbn [rbind] in Hr. change sn with (pdu_sn pdu) in Hr at 1. rewrite Hre in Hr. cbn [rbind] in Hr.
  injection Hr as <- <-. split_and!; [done|done|by destruct p|]. destruct Hrec as (Hev & c & [? ? ? ?]).
  split; [done|]. exists c. by destruct p.
Qed.

(** ** Every SDU once *)

Section Once.
Context (sdu : Z -> bytes) (Hsdu : forall n, 0 < zlen (sdu n) <= NR_SDU_MAX).

(** The segment of [len] bytes from [so] on of the SDU [d]. *)
Definition air_segment (d : bytes) (so len : Z) : nr_rlc_sdu_segment :=
  {| seg_addr := 0; seg_sdu := 0; seg_size := len; seg_so := so; seg_is_first := so =? 0;
     seg_is_last := so + len =? zlen d |}.

(** [buffer] is the PDU of that segment of the [n]-th SDU. *)
Definition is_air_pdu (e : nr_rlc_entity_am) (n so len : Z) (buffer : bytes) : Prop :=
  0 <= so /\ 0 < len /\ so + len <= zlen (sdu n) /\
  exists p hdr, is_am_header e p (n mod am_sn_modulus e) (air_segment (sdu n) so len) hdr /\
    buffer = hdr ++ take (Z.to_nat len) (drop (Z.to_nat so) (sdu n)).

(** [base] SDUs are behind the window and [nums] were handed over. *)
Record am_once (base : Z) (e : nr_rlc_entity_am) (nums : list Z) : Prop := {
  on_base : 0 <= base;
  on_next : am_rx_next e = base mod am_sn_modulus e;
  on_nodup : NoDup nums;
  on_nums : forall n, n ∈ nums <->
    0 <= n < base \/ (base <= n < base + am_window_size e /\ am_done e (n - base) = true);
  on_segs : forall k, 0 <= k < am_window_size e -> am_done e k = false -> Forall (seg_of (sdu (base + k))) (slot e k)
}.

(** How far the window has moved. *)
Definition window_shift (e e' : nr_rlc_entity_am) : Z := (am_rx_next e' - am_rx_next e) mod am_sn_modulus e.

Lemma am_once_same base e e' nums :
  am_slots_part e' = am_slots_part e -> am_once base e nums -> am_once (base + window_shift e e') e' nums.
Proof.
  intros [= HM HW Hrx Hn] [Hb Hnx Hnd Hnum Hseg]. unfold window_shift.
  assert (slot e' = slot e) as Hsl by (unfold slot; by rewrite Hrx).
  assert (am_done e' = am_done e) as Hd by (unfold am_done; by rewrite Hsl).
  rewrite Hn, Z.sub_diag, Zmod_0_l, Z.add_0_r. split; rewrite ?Hsl, ?Hd, ?HM, ?HW, ?Hn; done.
Qed.

Lemma rel_number base e n :
  am_win e -> am_rx_next e = base mod am_sn_modulus e -> modulus_rx e (n mod am_sn_modulus e) = (n - base) mod am_sn_modulus e.
Proof.
  intros Hw Hn. pose proof (win_bounds e Hw) as [Hb HM]. rewrite (rel_mod e Hw).
  - rewrite Hn. by rewrite Zminus_mod_idemp_l, Zminus_mod_idemp_r.
  - unfold am_sn_ok. apply Z.mod_pos_bound. lia.
Qed.

Section Step.
Context (base : Z) (e e' : nr_rlc_entity_am) (nums : list Z) (n : Z) (p : nr_rlc_pdu) (size : Z) (ev : list event).
Context (Hinv : am_rx_inv e) (Honce : am_once base e nums) (Hn : base <= n < base + am_window_size e)
  (Hsn : pdu_sn p = n mod am_sn_modulus e) (Hp : am_pdu_ok (pdu_sn p) p) (Hseg : seg_of (sdu n) p)
  (Hsame : am_tx_part e' = am_tx_part e) (Hrec : am_received e p size e' ev).

Let k := n - base.
Let l := insert_by_so p (slot e k).
Let full := negb (head_processed l) && full_loop (-1) l.
Let mid := slot_now e k (if full then map data_freed l else l).

Lemma step_k : modulus_rx e (pdu_sn p) = k /\ 0 <= k < am_window_size e.
Proof.
  pose proof (ari_win e (ari_base e Hinv)) as Hw. pose proof (win_bounds e Hw) as [Hb HM].
  rewrite Hsn, (rel_number base e n Hw (on_next _ _ _ Honce)). unfold k. rewrite Z.mod_small; lia.
Qed.

Lemma step_head : head_processed l = am_done e k.
Proof.
  destruct step_k as [Hk Hkr]. pose proof (ari_win e (ari_base e Hinv)) as Hw.
  destruct (insert_slot_ok (pdu_sn p) (slot e k) p) as [_ H]; [|done|by destruct Hseg as (_ & _ & _ & -> & _)|exact H].
  assert (sn_at e k = pdu_sn p) as <-; [|by apply Hinv].
  rewrite <- Hk. apply (at_rel e Hw). rewrite Hsn. unfold am_sn_ok. pose proof (win_bounds e Hw). apply Z.mod_pos_bound. lia.
Qed.

Lemma step_segs : head_processed l = false -> Forall (seg_of (sdu n)) l.
Proof.
  destruct step_k as [_ Hkr]. rewrite step_head. intros Hd. pose proof (on_segs _ _ _ Honce k Hkr Hd) as Hs.
  replace (base + k) with n in Hs by (unfold k; lia). unfold l. rewrite insert_by_so_perm. by constructor.
Qed.

Lemma step_events : ev = map (fun i => deliver_sdu (sdu i)) (if full then [n] else []).
Proof.
  destruct Hrec as [Hev _]. destruct step_k as [Hk _]. rewrite Hk in Hev. fold l full in Hev. rewrite Hev.
  destruct full eqn:Hf; [|done]. unfold full in Hf. bool_hyps. apply am_event_full; [by apply step_segs|apply Hsdu|done].
Qed.

(** What is delivered, seen from before the window moves. *)
Lemma step_done i :
  0 <= i < am_window_size e ->
  head_processed (mid i) = (am_done e i || (if full then i =? k else false)).
Proof.
  intros Hi. unfold mid, slot_now. destruct (Z.eqb_spec i k) as [->|]; [|by destruct full; rewrite orb_false_r].
  pose proof step_head as Hh. unfold full in *. destruct (negb (head_processed l) && full_loop (-1) l) eqn:Hf.
  - rewrite orb_true_r. bool_hyps. by destruct l.
  - by rewrite Hh, orb_false_r.
Qed.

Lemma step_new : full = true -> n ∉ nums.
Proof.
  intros Hf Hin. unfold full in Hf. bool_hyps. rewrite step_head in *.
  apply (on_nums _ _ _ Honce) in Hin as [?|[_ Hd]]; [lia|]. fold k in Hd. congruence.
Qed.

Lemma step_frame : am_sn_modulus e' = am_sn_modulus e /\ am_window_size e' = am_window_size e.
Proof. by injection Hsame. Qed.

Let c := window_shift e e'.

Lemma step_moved :
  0 <= c <= am_window_size e /\ am_rx_next e' = sn_at e c /\
  (forall i, 0 <= i < c -> head_processed (mid i) = true) /\
  forall i, 0 <= i < am_window_size e -> slot e' i = if i + c <? am_window_size e then mid (i + c) else [].
Proof.
  destruct Hrec as [_ (c' & [Hc Hnx Hpast Hsl])]. destruct step_k as [Hk Hkr]. rewrite Hk in Hpast, Hsl.
  fold l full mid in Hpast, Hsl. pose proof (win_bounds e (ari_win e (ari_base e Hinv))) as [Hb HM].
  assert (c = c') as ->; [|split_and!; [lia|lia|exact Hnx|exact Hpast|exact Hsl]].
  unfold c, window_shift. rewrite Hnx. unfold sn_at. rewrite Zminus_mod_idemp_l.
  replace (_ + c' - _) with c' by lia. apply Z.mod_small. lia.
Qed.

Lemma step_done' i :
  0 <= i < am_window_size e ->
  am_done e' i = if i + c <? am_window_size e then head_processed (mid (i + c)) else false.
Proof. intros Hi. unfold am_done. destruct step_moved as (_ & _ & _ & Hsl). rewrite Hsl by done. by destruct (i + c <? am_window_size e). Qed.

Lemma step_nums x :
  x ∈ nums ++ (if full then [n] else []) <->
  0 <= x < base + c \/ (base + c <= x < base + c + am_window_size e' /\ am_done e' (x - (base + c)) = true).
Proof.
  destruct step_k as [_ Hkr]. destruct step_moved as (Hc & _ & Hpast & _). destruct step_frame as [_ ->].
  pose proof (on_base _ _ _ Honce) as Hb0.
  assert (Hin : x ∈ (if full then [n] else []) <-> (if full then x - base =? k else false) = true).
  { destruct full; [rewrite list_elem_of_singleton, Z.eqb_eq; unfold k; lia|]. by rewrite elem_of_nil. }
  rewrite elem_of_app, Hin, (on_nums _ _ _ Honce).
  destruct (Z.lt_ge_cases x base) as [Hxb|Hxb].
  { assert ((if full then x - base =? k else false) = false) as -> by (destruct full; lia). lia. }
  destruct (Z.lt_ge_cases x (base + am_window_size e)) as [Hxw|Hxw].
  2:{ assert ((if full then x - base =? k else false) = false) as -> by (destruct full; lia).
      split; [lia|]. intros [?|[Hx Hd]]; [lia|]. rewrite step_done' in Hd by lia. revert Hd. case_bool_; [lia|done]. }
  pose proof (step_done (x - base) ltac:(lia)) as Hd. destruct (Z.lt_ge_cases (x - base) c) as [Hlt|Hge].
  - rewrite Hpast in Hd by lia. symmetry in Hd. apply orb_true_iff in Hd. split; [left; lia|].
    intros _. destruct Hd as [Hd|Hd]; [left; right; split; [lia|done]|by right].
  - rewrite (step_done' (x - (base + c))) by lia. replace (x - (base + c) + c) with (x - base) by lia.
    rewrite (proj2 (Z.ltb_lt _ _)), Hd, orb_true_iff by lia. split.
    + intros [[?|[_ ?]]|?]; [lia|right..]; (split; [lia|auto]).
    + intros [?|[_ [?|?]]]; [lia|left; right; split; [lia|done]|by right].
Qed.

Lemma am_once_step : am_once (base + c) e' (nums ++ (if full then [n] else [])).
Proof.
  destruct step_k as [_ Hkr]. destruct step_moved as (Hc & Hnx & _ & Hsl). destruct step_frame as [HM' HW'].
  split.
  - pose proof (on_base _ _ _ Honce). lia.
  - rewrite Hnx, HM'. unfold sn_at. rewrite (on_next _ _ _ Honce). by rewrite Zplus_mod_idemp_l.
  - pose proof (on_nodup _ _ _ Honce) as Hnd. destruct full eqn:Hf; [|by rewrite app_nil_r].
    apply NoDup_app. split_and!; [done| |by apply NoDup_singleton]. intros x Hx ->%list_elem_of_singleton. by apply (step_new Hf).
  - exact step_nums.
  - intros i Hi Hd. rewrite HW' in Hi. rewrite step_done' in Hd by done. rewrite Hsl by done. case_bool_; [|constructor].
    unfold mid, slot_now in Hd |- *. replace (base + c + i) with (base + (i + c)) by lia.
    destruct (Z.eqb_spec (i + c) k) as [Heq|Hne]; [|apply (on_segs _ _ _ Honce); [lia|done]].
    replace (base + (i + c)) with n by (unfold k in Heq; lia). destruct full eqn:Hf; [|by apply step_segs].
    exfalso. revert Hd. unfold l. by destruct (insert_by_so p (slot e k)) eqn:Hl; [apply insert_not_nil in Hl|].
Qed.
End Step.

(** *** A PDU that carries a segment *)

Definition deliveries (out : list am_out) : list bytes :=
  omap (fun o => match o with am_out_event (deliver_sdu b) => Some b | _ => None end) out.

Lemma deliveries_app l k : deliveries (l ++ k) = deliveries l ++ deliveries k.
Proof. apply omap_app. Qed.

Lemma deliveries_quiet ev : forallb quiet ev = true -> deliveries (map am_out_event ev) = [].
Proof.
  induction ev as [|x ev IH]; [done|]. simpl. intros [Hx Hev]%andb_true_iff. destruct x; [done|..]; by apply IH.
Qed.

Lemma deliveries_sdus l : deliveries (map am_out_event (map (fun i => deliver_sdu (sdu i)) l)) = map sdu l.
Proof. induction l as [|i l IH]; [done|]. simpl. by f_equal. Qed.

Lemma air_not_control e n so len buffer : is_air_pdu e n so len buffer -> is_control buffer = false.
Proof.
  intros (_ & _ & _ & p & hdr & [_ Hb] & ->). unfold is_control. pose proof (decoder_init_wf (hdr ++ take (Z.to_nat len) (drop (Z.to_nat so) (sdu n)))) as Hwf.
  set (d0 := nr_rlc_pdu_decoder_init _ _) in *.
  assert (Hs : dec_stream d0 = low_bits (Z.to_nat 1) 1 ++ tl (dec_stream d0)).
  { unfold d0. rewrite decoder_init_stream, bits_of_bytes_app, Hb. done. }
  destruct (get_field_ok d0 1 1 _ Hwf ltac:(unfold field_ok; simpl; lia) Hs) as (d & -> & -> & _). done.
Qed.

Lemma am_once_recv base h e n so len buffer st' out nums :
  am_inv (h, e) -> am_once base e nums -> base - am_window_size e <= n < base + am_window_size e ->
  is_air_pdu e n so len buffer -> am_step (h, e) (am_op_recv_pdu buffer) = Ok (st', out) ->
  exists new, am_once (base + window_shift e (snd st')) (snd st') (nums ++ new) /\ deliveries out = map sdu new.
Proof.
  intros Hinv Honce Hn (Hso & Hlen & Hend & p & hdr & Hhdr & ->) Hstep. pose proof Hinv as [Htx Hrx]. simpl in Htx, Hrx.
  pose proof (ari_win e (ari_base e Hrx)) as Hw. pose proof (win_bounds e Hw) as [Hb HM].
  assert (Hok : am_sn_ok e (n mod am_sn_modulus e)) by (apply Z.mod_pos_bound; lia).
  pose proof (Hsdu n) as Hmax. unfold NR_SDU_MAX in Hmax.
  set (seg := air_segment (sdu n) so len) in *. set (data := take _ _) in *.
  assert (Hof : am_header_of e p (n mod am_sn_modulus e) seg hdr).
  { split; [apply Hw|done|simpl; lia| |done]. simpl. lia. }
  unfold am_step, recv_pdu, am_RlcEntity in Hstep. rewrite (am_recv_pdu_header h e p _ seg hdr data Hof) in Hstep.
  apply rbind_ok in Hstep as ([[h1 e'] ev] & Hrecv & Hout). apply rbind_ok in Hrecv as ([e1' ev1] & Hrecv & Heq).
  injection Heq as -> -> ->. injection Hout as <- <-. simpl.
  set (e1 := am_stats _ e) in Hrecv. assert (Hrx1 : am_rx_inv e1) by by apply am_rx_inv_stats.
  assert (Honce1 : am_once base e1 nums) by (destruct Honce; by constructor).
  assert (Hdl : zlen data = len) by (unfold data; rewrite zlen_take; [lia|rewrite zlen_drop; lia]).
  pose proof (zlen_nonneg hdr).
  destruct (am_segment_received e1 (hdr ++ data) p (n mod am_sn_modulus e) so (so =? 0) (so + len =? zlen (sdu n)) (zlen hdr) e' ev)
    as [[Hs ->]|(Hpok & Hin & Hpart & Hrec)]; try done; try lia.
  { exists []. rewrite app_nil_r. split; [|done]. by apply (am_once_same base e1). }
  rewrite drop_app_length' in Hpok, Hrec by (unfold zlen; lia). rewrite zlen_app in Hpok, Hrec.
  replace (zlen hdr + zlen data - zlen hdr) with len in Hpok, Hrec by lia.
  set (pdu := mk_pdu _ _ _ _ _ _) in *.
  assert (Hwin : base <= n < base + am_window_size e1).
  { unfold sn_in_recv_window in Hin. apply Z.ltb_lt in Hin. change (am_sn_modulus e) with (am_sn_modulus e1) in Hin.
    rewrite (rel_number base e1 n) in Hin; [|apply Hrx1|apply Honce1]. change (am_window_size e1) with (am_window_size e) in *.
    change (am_sn_modulus e1) with (am_sn_modulus e) in Hin. split; [|lia]. destruct (Z.le_gt_cases base n); [done|].
    rewrite <- (Z.mod_add _ 1), Z.mod_small in Hin by lia. lia. }
  assert (Hsegof : seg_of (sdu n) pdu) by (split_and!; simpl; (done || lia)).
  pose proof (step_events base e1 e' nums n pdu (am_rx_size e1 + len) ev Hrx1 Honce1 Hwin eq_refl Hpok Hsegof Hrec) as Hev.
  pose proof (am_once_step base e1 e' nums n pdu (am_rx_size e1 + len) ev Hrx1 Honce1 Hwin eq_refl Hpok Hsegof Hpart Hrec) as Honce2.
  eexists. rewrite Hev, deliveries_sdus. split; [exact Honce2|done].
Qed.

(** *** The other operations *)

(** All but data PDUs and the re-establishment. *)
Definition am_local (op : am_op) : bool :=
  match op with
  | am_op_recv_pdu buffer => is_control buffer
  | am_op_reestablish => false
  | _ => true
  end.

Lemma slots_of_rx_part e e' : am_rx_part e' = am_rx_part e -> am_slots_part e' = am_slots_part e.
Proof. intros [= _ HM HW Hrx Hn _ _ _ _]. unfold am_slots_part. congruence. Qed.

Lemma generate_status_slots e buffer size e' buf n :
  generate_status e buffer size = Ok (e', buf, n) -> am_slots_part e' = am_slots_part e.
Proof.
  unfold generate_status. case_bool_; [by intros [= <- _ _]|]. cbv zeta.
  intros (enc & _ & H)%rbind_ok. apply rbind_ok in H as (cur & _ & H). apply rbind_ok in H as (o & _ & H).
  apply rbind_ok in H as (b & _ & H). by injection H as <- _ _.
Qed.

Lemma retransmit_head_quiet h e h' e' ev : retransmit_head h e = Ok (h', e', ev) -> forallb quiet ev = true.
Proof.
  unfold retransmit_head. destruct (sl_list (am_wait e)); [done|]. intros (s & _ & H)%rbind_ok. cbv zeta in H.
  apply rbind_ok in H as (e1 & _ & H). injection H as _ _ <-. by destruct (_ <=? _).
Qed.

Lemma check_t_poll_quiet h e h' e' ev : check_t_poll_retransmit h e = Ok (h', e', ev) -> forallb quiet ev = true.
Proof.
  unfold check_t_poll_retransmit. destruct (_ || _); [by intros [= _ _ <-]|]. cbv zeta.
  destruct (negb _); [by intros [= _ _ <-]|]. apply retransmit_head_quiet.
Qed.

Lemma set_time_local h e now st' ev :
  am_inv (h, e) -> set_time h e now = Ok (st', ev) -> am_slots_part (snd st') = am_slots_part e /\ forallb quiet ev = true.
Proof.
  intros [Htx Hrx] H. unfold set_time, am_RlcEntity, nr_rlc_entity_am_set_time in H. set (e1 := {| e with am_t_current := now |}) in H.
  assert (Htx1 : am_tx_inv h e1 []) by by apply (am_tx_inv_core h e).
  pose proof (check_t_poll_ok h e1 Htx1) as Hp. destruct (am_poll_crashes e1); [by rewrite Hp in H|].
  destruct Hp as (h' & e2 & ev2 & Hc & _ & Hrx2). rewrite Hc in H. cbn [rbind] in H.
  assert (Hi2 : am_rx_inv e2) by by apply (am_rx_inv_part e).
  destruct (am_check_t_reassembly_ok e2 Hi2) as (e3 & H3 & _ & Heq). rewrite H3 in H. cbn [rbind] in H. injection H as <- <-.
  split; [|by apply (check_t_poll_quiet h e1 h' e2)]. simpl. etransitivity; [|by apply (slots_of_rx_part e e2)]. by rewrite Heq.
Qed.

Lemma am_local_step st op st' out :
  am_inv st -> am_op_ok op -> am_honest st op = true -> am_local op = true -> am_step st op = Ok (st', out) ->
  am_slots_part (snd st') = am_slots_part (snd st) /\ deliveries out = [].
Proof.
  destruct st as [h e]. intros Hinv Hop Hhon Hloc H. pose proof Hinv as [Htx Hrx]. destruct op; simpl in Hloc; try done; cbn [am_step am_op_ok am_honest] in *.
  - pose proof Hloc as Hctl. unfold is_control in Hloc. unfold recv_pdu, am_RlcEntity, nr_rlc_entity_am_recv_pdu in H. cbv zeta in H.
    destruct (nr_rlc_pdu_decoder_get_bits _ 1) as [[dc d]|]; [|done]. cbn [rbind] in H. bool_hyps.
    rewrite H0, H1 in H. fold (stats_rxpdu (zlen buffer)) in H. set (e1 := am_stats _ e) in H.
    destruct (process_control_pdu_ok h e1 buffer) as (h' & e' & ev & Hp & _ & Hpart & _ & Hq);
      [by apply (am_tx_inv_core h e)|by apply (am_honest_pdu_ok h e)|].
    rewrite Hp in H. cbn [rbind] in H. injection H as <- <-. split; [by apply (slots_of_rx_part e1)|by apply deliveries_quiet].
  - destruct (am_generate_pdu_ok h e now buffer size Hinv Hop) as (h' & e' & b & n & Hg & _ & _ & Hc). rewrite Hg in H. cbn [rbind] in H.
    injection H as <- <-. split; [|by destruct (0 <? n)]. simpl. destruct (status_to_report e && (3 <=? size)).
    + destruct Hc as (_ & _ & _ & _ & Hs). by apply generate_status_slots in Hs.
    + by apply slots_of_rx_part, (agn_rx _ _ _ _ _ _ _ _ Hc).
  - apply rbind_ok in H as (b & _ & H). by injection H as <- <-.
  - pose proof (am_recv_sdu_ok h e now buffer size sdu_id Htx Hop) as Hs. unfold recv_sdu, am_RlcEntity in H.
    destruct (NR_SDU_MAX <? size); [by rewrite Hs in H|]. destruct Hs as (h' & e' & Hs & _ & Hp). rewrite Hs in H. cbn [rbind] in H.
    injection H as <- <-. by split; [apply slots_of_rx_part|].
  - apply rbind_ok in H as ([st1 ev] & Hs & H). destruct (set_time_local h e now st1 ev Hinv Hs) as [Hsl Hq].
    destruct st1 as [h1 e1]. injection H as <- <-. split; [done|by apply deliveries_quiet].
  - destruct (am_discard_sdu_ok h e sdu_id Htx) as (h' & e' & Hs & _ & Hp). unfold discard_sdu, am_RlcEntity in H. rewrite Hs in H.
    cbn [rbind] in H. injection H as <- <-. by split; [apply slots_of_rx_part|].
  - destruct (am_get_stats_ok h e now Hinv) as (e' & o & Hs & _ & Hp). rewrite Hs in H. cbn [rbind] in H. injection H as <- <-.
    by split; [apply slots_of_rx_part|].
Qed.

(** ** The life of a receiver *)

(** Data PDUs of numbered SDUs arrive, each at most one window away from the
    start of the window on either side, between any other operations. *)
Inductive am_receives : Z -> am_state -> list am_out -> Z -> am_state -> Prop :=
| receives_end base st : am_receives base st [] base st
| receives_data base st n so len buffer st1 out1 base2 st2 out2 :
    base - am_window_size (snd st) <= n < base + am_window_size (snd st) ->
    is_air_pdu (snd st) n so len buffer ->
    am_step st (am_op_recv_pdu buffer) = Ok (st1, out1) ->
    am_receives (base + window_shift (snd st) (snd st1)) st1 out2 base2 st2 ->
    am_receives base st (out1 ++ out2) base2 st2
| receives_other base st op st1 out1 base2 st2 out2 :
    am_local op = true -> am_op_ok op -> am_honest st op = true ->
    am_step st op = Ok (st1, out1) ->
    am_receives (base + window_shift (snd st) (snd st1)) st1 out2 base2 st2 ->
    am_receives base st (out1 ++ out2) base2 st2.

Lemma am_step_inv st op st' out :
  am_inv st -> am_op_ok op -> am_honest st op = true -> am_step st op = Ok (st', out) -> am_inv st'.
Proof.
  intros Hinv Hop Hh H. destruct (am_step_ok st op Hinv Hop Hh) as [(st1 & out1 & Hs & Hinv1)|(f & Hs & _)]; rewrite Hs in H; [|done].
  by injection H as -> ->.
Qed.

Lemma am_receives_once base st out base' st' nums :
  am_receives base st out base' st' -> am_inv st -> am_once base (snd st) nums ->
  exists new, am_inv st' /\ am_once base' (snd st') (nums ++ new) /\ deliveries out = map sdu new.
Proof.
  intros Hr. revert nums. induction Hr as [base st|base st n so len buffer st1 out1 base2 st2 out2 Hn Hair Hs Hr IH
    |base st op st1 out1 base2 st2 out2 Hloc Hop Hh Hs Hr IH]; intros nums Hinv Honce.
  - exists []. by rewrite app_nil_r.
  - assert (Hh : am_honest st (am_op_recv_pdu buffer) = true).
    { destruct st as [h e]. simpl. by rewrite (air_not_control e n so len). }
    pose proof (am_step_inv st (am_op_recv_pdu buffer) st1 out1 Hinv I Hh Hs) as Hinv1. destruct st as [h e].
    destruct (am_once_recv base h e n so len buffer st1 out1 nums Hinv Honce Hn Hair Hs) as (new1 & Honce1 & Hd1).
    destruct (IH (nums ++ new1) Hinv1 Honce1) as (new2 & Hinv2 & Honce2 & Hd2).
    exists (new1 ++ new2). rewrite app_assoc, deliveries_app, Hd1, Hd2, map_app. by split_and!.
  - pose proof (am_step_inv st op st1 out1 Hinv Hop Hh Hs) as Hinv1.
    destruct (am_local_step st op st1 out1 Hinv Hop Hh Hloc Hs) as [Hsl Hd1].
    destruct (IH nums Hinv1 (am_once_same base _ _ nums Hsl Honce)) as (new & Hinv2 & Honce2 & Hd2).
    exists new. rewrite deliveries_app, Hd1. by split_and!.
Qed.

Lemma am_once_new rxm txm t1 t2 t3 pp pb mr n e : new_nr_rlc_entity_am rxm txm t1 t2 t3 pp pb mr n = Ok e -> am_once 0 e [].
Proof.
  intros Hnew. pose proof (am_inv_new _ _ _ _ _ _ _ _ _ _ Hnew) as [_ Hrx]. simpl in Hrx.
  assert (Hsl : (forall k, slot e k = []) /\ am_rx_next e = 0).
  { unfold new_nr_rlc_entity_am, assert_ in Hnew. destruct (_ || _) eqn:Hn; [|done]. cbn [rbind] in Hnew. cbv zeta in Hnew.
    destruct (time_average_new _ _) as [avg|]; [|done]. cbn [rbind] in Hnew. injection Hnew as <-. split; [|done].
    apply new_rx_manager_ok. rewrite Z.shiftl_1_l. apply Z.pow_pos_nonneg; lia. }
  destruct Hsl as [Hsl Hn]. split; [done|by rewrite Hn, Zmod_0_l|constructor| |by intros; rewrite Hsl].
  intros x. rewrite elem_of_nil. split; [done|]. unfold am_done. rewrite Hsl. intros [?|[_ ?]]; [lia|done].
Qed.
End Once.
