(* ===== verification/RlcAmSpec.v ===== *)
(** The properties of the NR RLC AM entity, with concrete instances. *)

From S2P Require Import Prelude RlcPdu RlcSdu TimeStat RlcEntity RlcUm RlcUmRx RlcRxManager RlcAm.
From S2P Require Import RlcAmStatus RlcAmTx RlcAmRx RlcAmReport RlcAmStore RlcAmTxInv RlcAmOps RlcAmAck RlcAmEntity RlcAmLink.

(** ** An entity to look at *)

(** A new entity with 12-bit sequence numbers, without the poll counters. *)
Definition am_new12 : nr_rlc_entity_am :=
  match new_nr_rlc_entity_am 100000 100000 45 35 0 (-1) (-1) 8 12
  as r return match r with Ok _ => nr_rlc_entity_am | Fail _ => unit end
  with Ok e => e | Fail _ => tt end.

Lemma am_new12_ok : new_nr_rlc_entity_am 100000 100000 45 35 0 (-1) (-1) 8 12 = Ok am_new12.
Proof. reflexivity. Qed.

Lemma am_new12_inv : am_inv (heap_empty, am_new12).
Proof. exact (am_inv_new _ _ _ _ _ _ _ _ _ _ am_new12_ok). Qed.

Definition am_after (st : am_state) (op : am_op) : am_state :=
  match am_step st op with Ok (st', _) => st' | Fail _ => st end.

Definition am_out_of (st : am_state) (op : am_op) : list am_out :=
  match am_step st op with Ok (_, out) => out | Fail _ => [] end.

Definition am_ok (st : am_state) (op : am_op) : bool := match am_step st op with Ok _ => true | Fail _ => false end.

Lemma am_step_after st op : am_ok st op = true -> am_step st op = Ok (am_after st op, am_out_of st op).
Proof. unfold am_ok, am_after, am_out_of. by destruct (am_step st op) as [[]|]. Qed.

Lemma am_after_inv st op : am_inv st -> am_op_ok op -> am_honest st op = true -> am_ok st op = true -> am_inv (am_after st op).
Proof. intros Hinv Hop Hh Hs. by eapply am_step_inv; [| | |apply am_step_after]. Qed.

(** ** Properties *)

(** C3. Every interleaving of all the operations of an AM entity, from a new one:
    data and status PDUs with any content, SDUs, grants of any size, time,
    discards, re-establishment.  As long as the peer acknowledges no SDU that
    was not sent to its end, either the whole trace runs and the invariant of
    both halves holds at the end (three lists of disjoint segments of live
    SDUs, in order, within the transmission window; a reception window
    consistent with its variables), or it stops at one of exactly three places:
    a receiver whose window is full never comes back from the PDU that
    completes its first SDU, the poll timer expires while nothing waits for an
    acknowledgement (NULL is followed), an SDU longer than NR_SDU_MAX ends the
    process. *)
Theorem am_entity_trace_safe rxm txm t1 t2 t3 pp pb mr n e0 ops :
  new_nr_rlc_entity_am rxm txm t1 t2 t3 pp pb mr n = Ok e0 -> Forall am_op_ok ops ->
  am_honest_run (heap_empty, e0) ops = true ->
  (exists st out, am_run (heap_empty, e0) ops = Ok (st, out) /\ am_tx_inv (fst st) (snd st) [] /\ am_rx_inv (snd st)) \/
  (exists pre op post st1 out f, ops = pre ++ op :: post /\ am_run (heap_empty, e0) pre = Ok (st1, out) /\
     am_tx_inv (fst st1) (snd st1) [] /\ am_rx_inv (snd st1) /\
     am_run (heap_empty, e0) ops = Fail f /\ am_step st1 op = Fail f /\ am_stops st1 op f).
Proof.
  intros Hnew Hops Hh.
  destruct (am_run_ok ops _ (am_inv_new _ _ _ _ _ _ _ _ _ _ Hnew) Hops Hh)
    as [(st & out & Hr & Htx & Hrx)|(pre & op & post & st1 & out & f & ? & ? & [? ?] & ? & ? & ?)].
  - left. by exists st, out.
  - right. by exists pre, op, post, st1, out, f.
Qed.

(** Everything once: two SDUs sent, a status PDU that reports one of them
    missing, its retransmission, a data PDU received and reported. *)
Definition am_example_ops : list am_op :=
  [am_op_set_time 1; am_op_recv_sdu 0 [1; 2; 3; 4] 4 7; am_op_recv_sdu 0 [5; 6] 2 8; am_op_recv_sdu 0 [9] 1 9;
   am_op_generate 0 (replicate 8 0) 4; am_op_generate 0 (replicate 8 0) 8; am_op_generate 0 (replicate 8 0) 8;
   am_op_buffer_status 10; am_op_recv_pdu [0; 2; 128; 0; 0]; am_op_generate 0 (replicate 8 0) 8;
   am_op_discard 9; am_op_recv_pdu [0xc0; 1; 42]; am_op_set_time 2; am_op_generate 0 (replicate 8 0) 8;
   am_op_set_time 99; am_op_get_stats 3; am_op_reestablish].

Lemma am_entity_trace_safe_witness :
  am_honest_run (heap_empty, am_new12) am_example_ops = true /\
  ((exists st out, am_run (heap_empty, am_new12) am_example_ops = Ok (st, out) /\ am_tx_inv (fst st) (snd st) [] /\ am_rx_inv (snd st)) \/
   (exists pre op post st1 out f, am_example_ops = pre ++ op :: post /\ am_run (heap_empty, am_new12) pre = Ok (st1, out) /\
      am_tx_inv (fst st1) (snd st1) [] /\ am_rx_inv (snd st1) /\
      am_run (heap_empty, am_new12) am_example_ops = Fail f /\ am_step st1 op = Fail f /\ am_stops st1 op f)).
Proof.
  assert (Hh : am_honest_run (heap_empty, am_new12) am_example_ops = true) by by vm_compute.
  split; [done|]. eapply (am_entity_trace_safe 100000 100000 45 35 0 (-1) (-1) 8 12); [apply am_new12_ok| |done].
  repeat constructor; vm_compute; by auto.
Defined.

(** What the example gives: the first SDU in two PDUs and the second in one, the
    size of what is queued, the delivery of the second, a retransmission, an
    SDU handed over, and a status PDU that acknowledges nothing below 0 more. *)
Example am_example_runs :
  match am_run (heap_empty, am_new12) am_example_ops with
  | Ok (_, out) => out
  | Fail _ => []
  end = [am_out_pdu [0x90; 0; 1; 2]; am_out_pdu [0xa0; 0; 0; 2; 3; 4]; am_out_pdu [0x80; 1; 5; 6];
         am_out_status (mk_bstatus 0 3 0); am_out_event (sdu_successful_delivery 8); am_out_pdu [0x90; 0; 1; 2];
         am_out_event (deliver_sdu [42]); am_out_pdu [0; 0; 0]].
Proof. vm_compute. reflexivity. Qed.

(** C2. The receiver hands over every SDU exactly once and whole.  Number the
    SDUs of the peer and let segments of them arrive in any order, repeated,
    overlapping, cut anew for each transmission, or not at all, between any
    other operations of the entity (status PDUs, time, its own transmission),
    as long as none is further than a window away from the start of the
    reception window.  Then what was handed over is the list of the SDUs of
    pairwise different numbers, byte for byte; every SDU behind the window was
    handed over; and the ones of the window that were are those the entity
    marks as delivered. *)
Theorem am_exactly_once rxm txm t1 t2 t3 pp pb mr n0 e0 sdu out base h e :
  new_nr_rlc_entity_am rxm txm t1 t2 t3 pp pb mr n0 = Ok e0 ->
  (forall n, 0 < zlen (sdu n) <= NR_SDU_MAX) ->
  am_receives sdu 0 (heap_empty, e0) out base (h, e) ->
  exists nums, deliveries out = map sdu nums /\ NoDup nums /\ am_rx_next e = base mod am_sn_modulus e /\
    forall n, n ∈ nums <-> 0 <= n < base \/
      (base <= n < base + am_window_size e /\ sdu_delivered e (n mod am_sn_modulus e) = Ok true).
Proof.
  intros Hnew Hsdu Hr.
  destruct (am_receives_once sdu Hsdu 0 (heap_empty, e0) out base (h, e) [] Hr (am_inv_new _ _ _ _ _ _ _ _ _ _ Hnew)
    (am_once_new sdu _ _ _ _ _ _ _ _ _ _ Hnew)) as (nums & [_ Hrx] & [Hb Hn Hnd Hnum _] & Hd). simpl in *.
  pose proof (ari_win e (ari_base e Hrx)) as Hw. exists nums. split_and!; try done. intros n. rewrite Hnum.
  assert (Heq : base <= n < base + am_window_size e ->
    sdu_delivered e (n mod am_sn_modulus e) = Ok (am_done e (n - base))).
  { intros Hr'. rewrite <- (sdu_delivered_at e Hw). f_equal. unfold sn_at. rewrite Hn, Zplus_mod_idemp_l. f_equal. lia. }
  split; (intros [?|[? Hx]]; [by left|right; split; [done|]]).
  - by rewrite Heq, Hx.
  - rewrite Heq in Hx by done. by injection Hx.
Qed.

(** The peer sends the SDUs [7 n; 8] of two bytes. *)
Definition example_sdu (n : Z) : bytes := [u8 (7 * n); 8].

Lemma example_air e n so len hdr :
  am_sn_field_length e = 12 -> am_sn_modulus e = 4096 -> 0 <= so -> 0 < len -> so + len <= 2 ->
  is_am_header am_new12 false (n mod 4096) (air_segment (example_sdu n) so len) hdr ->
  is_air_pdu example_sdu e n so len (hdr ++ take (Z.to_nat len) (drop (Z.to_nat so) (example_sdu n))).
Proof.
  intros Hl HM Hso Hlen Hend [H1 H2]. split_and!; try done. exists false, hdr. split; [|done]. rewrite HM. split.
  - rewrite H1. unfold compute_pdu_header_size. by rewrite Hl.
  - rewrite H2. unfold am_header. by rewrite Hl.
Qed.

Definition example_pdu (hdr : bytes) (n so len : Z) : am_op :=
  am_op_recv_pdu (hdr ++ take (Z.to_nat len) (drop (Z.to_nat so) (example_sdu n))).

Definition example_check (base : Z) (st : am_state) (hdr : bytes) (n so len : Z) : bool :=
  let e := snd st in
  (am_sn_field_length e =? 12) && (am_sn_modulus e =? 4096) && (0 <=? so) && (0 <? len) && (so + len <=? 2)
  && (base - am_window_size e <=? n) && (n <? base + am_window_size e) && am_ok st (example_pdu hdr n so len)
  && (zlen hdr =? compute_pdu_header_size am_new12 (air_segment (example_sdu n) so len))
  && bool_decide (bits_of_bytes hdr = fields_bits (am_header am_new12 false (n mod 4096) (air_segment (example_sdu n) so len))).

Lemma example_receives base st n so len hdr out base' st' :
  example_check base st hdr n so len = true ->
  am_receives example_sdu (base + window_shift (snd st) (snd (am_after st (example_pdu hdr n so len))))
    (am_after st (example_pdu hdr n so len)) out base' st' ->
  am_receives example_sdu base st (am_out_of st (example_pdu hdr n so len) ++ out) base' st'.
Proof.
  unfold example_check. cbv zeta. intros Hc Hr.
  repeat match goal with H : _ && _ = true |- _ => apply andb_true_iff in H as [H ?] end.
  match goal with H : bool_decide _ = true |- _ => apply bool_decide_eq_true in H end.
  eapply (receives_data example_sdu base st n so len); [lia| |by apply am_step_after|exact Hr].
  apply example_air; [lia..|]. split; [lia|done].
Qed.

(** The second SDU, the end of the first one, the second again, time, the
    beginning of the first. *)
Lemma am_exactly_once_witness :
  exists out base h e, am_receives example_sdu 0 (heap_empty, am_new12) out base (h, e) /\
    deliveries out = [[7; 8]; [0; 8]] /\ base = 2 /\
    exists nums, deliveries out = map example_sdu nums /\ NoDup nums /\ am_rx_next e = base mod am_sn_modulus e /\
      forall n, n ∈ nums <-> 0 <= n < base \/
        (base <= n < base + am_window_size e /\ sdu_delivered e (n mod am_sn_modulus e) = Ok true).
Proof.
  assert (exists out base st, am_receives example_sdu 0 (heap_empty, am_new12) out base st /\
    deliveries out = [[7; 8]; [0; 8]] /\ base = 2) as (out & base & [h e] & Hr & Hd & Hb).
  { eexists _, _, _. split.
    - apply (example_receives _ _ 1 0 2 [0x80; 1]); [by vm_compute|].
      apply (example_receives _ _ 0 1 1 [0xa0; 0; 0; 1]); [by vm_compute|].
      apply (example_receives _ _ 1 0 2 [0x80; 1]); [by vm_compute|].
      eapply (receives_other _ _ _ (am_op_set_time 50)); [done..|apply am_step_after; by vm_compute|].
      apply (example_receives _ _ 0 0 1 [0x90; 0]); [by vm_compute|].
      apply receives_end.
    - split; by vm_compute. }
  exists out, base, h, e. split_and!; [done..|].
  apply (am_exactly_once 100000 100000 45 35 0 (-1) (-1) 8 12 am_new12 example_sdu out base h e am_new12_ok); [done|exact Hr].
Defined.

(** C9. One grant.  When no status PDU is due, [generate_pdu] keeps the
    invariant, never writes more than the grant, and no byte of an SDU leaves
    the three lists.  Either it sends nothing, changes nothing and no
    retransmission would have fit in the grant, or the PDU is the header and
    the bytes of a segment that now waits for its acknowledgement, which starts
    where the head of the retransmit list starts, or else, the window being
    open and no retransmission possible, the head of the transmission list. *)
Theorem am_generate_pdu_spec h e now buffer size :
  am_inv (h, e) -> size <= zlen buffer -> status_to_report e && (3 <=? size) = false ->
  exists h' e' buffer' n, generate_pdu h e now buffer size = Ok (h', e', buffer', n) /\ am_inv (h', e') /\
    am_held e' ≡ₚ am_held e /\
    ((n = 0 /\ h' = h /\ e' = e /\ buffer' = buffer /\
      forall r, head (am_retransmit e) = Some r -> size < compute_pdu_header_size e r + 1) \/
     (3 <= n <= size /\ exists src seg p hdr, am_source e size src /\ seg_sdu seg = seg_sdu src /\ seg_so seg = seg_so src /\
        seg ∈ sl_list (am_wait e') /\ is_am_header e' p (sn_of h' seg) seg hdr /\
        take (Z.to_nat n) buffer' = hdr ++ seg_bytes h' seg)).
Proof.
  intros Hinv Hsize Hst. destruct (am_generate_pdu_ok h e now buffer size Hinv Hsize) as (h' & e' & b & n & Hg & Hinv' & _ & Hc).
  rewrite Hst in Hc. destruct Hc as [_ _ _ Hn Hidle Hpdu Hheld Hnone]. exists h', e', b, n. split_and!; [done..|].
  destruct Hn as [->|Hn]; [left|right].
  - destruct (Hidle eq_refl) as (-> & -> & ->). split_and!; try done. by apply Hnone.
  - split; [done|]. destruct Hpdu as (src & seg & H1 & H2 & H3 & H4 & _ & p & hdr & H5 & H6); [lia|].
    by exists src, seg, p, hdr.
Qed.

(** Four bytes of grant for an SDU of four bytes. *)
Definition am_one_sdu : am_state := am_after (heap_empty, am_new12) (am_op_recv_sdu 0 [1; 2; 3; 4] 4 7).

Lemma am_one_sdu_inv : am_inv (fst am_one_sdu, snd am_one_sdu).
Proof. rewrite <- surjective_pairing. apply am_after_inv; [apply am_new12_inv|by vm_compute|done|by vm_compute]. Qed.

Lemma am_generate_pdu_spec_witness :
  let h := fst am_one_sdu in let e := snd am_one_sdu in let size := 4 in let buffer := replicate 8 0 in
  exists h' e' buffer' n, generate_pdu h e 0 buffer size = Ok (h', e', buffer', n) /\ am_inv (h', e') /\
    am_held e' ≡ₚ am_held e /\
    ((n = 0 /\ h' = h /\ e' = e /\ buffer' = buffer /\
      forall r, head (am_retransmit e) = Some r -> size < compute_pdu_header_size e r + 1) \/
     (3 <= n <= size /\ exists src seg p hdr, am_source e size src /\ seg_sdu seg = seg_sdu src /\ seg_so seg = seg_so src /\
        seg ∈ sl_list (am_wait e') /\ is_am_header e' p (sn_of h' seg) seg hdr /\
        take (Z.to_nat n) buffer' = hdr ++ seg_bytes h' seg)).
Proof.
  intros h e size buffer. apply (am_generate_pdu_spec h e 0 buffer size); [exact am_one_sdu_inv|done|by vm_compute].
Defined.

(** C10. From one entity to the other: what [generate_pdu] sends as a data PDU,
    an entity with sequence numbers of the same length receives as exactly that
    segment: the sequence number, the offset, the first and last marks and the
    bytes come back. *)
Theorem am_pdu_roundtrip h e now buffer size h' e' buffer' n h2 e2 :
  am_inv (h, e) -> size <= zlen buffer -> status_to_report e && (3 <=? size) = false ->
  generate_pdu h e now buffer size = Ok (h', e', buffer', n) -> 0 < n ->
  am_cfg e2 -> am_sn_field_length e2 = am_sn_field_length e ->
  exists seg p byte, seg ∈ sl_list (am_wait e') /\
    let pdu := take (Z.to_nat n) buffer' in
    drop (Z.to_nat byte) pdu = seg_bytes h' seg /\ zlen pdu - byte = seg_size seg /\
    recv_pdu h2 e2 pdu
    = let* (e2, ev) := am_recv_segment (am_stats (stats_rxpdu (zlen pdu)) e2) pdu p (sn_of h' seg) (seg_so seg)
                         (seg_is_first seg) (seg_is_last seg) byte in Ok (h2, e2, ev).
Proof.
  intros Hinv Hsize Hst Hg Hn Hc2 Hl2.
  destruct (am_generate_pdu_ok h e now buffer size Hinv Hsize) as (h1 & e1 & b1 & n1 & Hg1 & [Htx Hrx] & _ & Hc).
  rewrite Hst in Hc. rewrite Hg in Hg1. injection Hg1 as <- <- <- <-.
  destruct Hc as [_ Hrxp _ _ _ Hpdu _ _]. destruct (Hpdu ltac:(lia)) as (src & seg & _ & _ & _ & Hin & _ & p & hdr & Hhdr & Hb).
  simpl in Htx, Hrx. exists seg, p, (zlen hdr). split; [done|]. cbv zeta. rewrite Hb.
  assert (Hfit : seg_fits h' seg).
  { apply (inv_fits h' e' []); [done|]. unfold am_segs. rewrite !elem_of_app. auto. }
  assert (Hlen : am_sn_field_length e' = am_sn_field_length e2) by (injection Hrxp; congruence).
  pose proof (ati_sent _ _ _ Htx) as Hsent. rewrite Forall_forall in Hsent.
  destruct (Hsent seg) as [Hsn _]; [simpl; rewrite elem_of_app; by left|].
  assert (HM : am_sn_modulus e2 = am_sn_modulus e').
  { rewrite (acfg_modulus e2 Hc2), (acfg_modulus e' (ati_cfg _ _ _ Htx)). by rewrite Hlen. }
  pose proof (fits_bytes_len h' seg Hfit) as Hz. pose proof (fits_so h' seg Hfit).
  split_and!; [apply drop_app_length'; unfold zlen; lia|rewrite zlen_app; lia|].
  unfold recv_pdu, am_RlcEntity. apply (am_recv_pdu_header h2 e2 p (sn_of h' seg) seg hdr (seg_bytes h' seg)).
  destruct Hhdr as [H1 H2]. split; [done|unfold am_sn_ok in *; by rewrite HM|lia|by destruct Hfit as (s & _ & _ & _ & _ & _ & ? & _)|].
  split; [rewrite H1|rewrite H2]; [unfold compute_pdu_header_size|unfold am_header]; by rewrite Hlen.
Qed.

Lemma am_pdu_roundtrip_witness :
  exists h' e' buffer' n, generate_pdu (fst am_one_sdu) (snd am_one_sdu) 0 (replicate 8 0) 8 = Ok (h', e', buffer', n) /\ 0 < n /\
    exists seg p byte, seg ∈ sl_list (am_wait e') /\
      let pdu := take (Z.to_nat n) buffer' in
      drop (Z.to_nat byte) pdu = seg_bytes h' seg /\ zlen pdu - byte = seg_size seg /\
      recv_pdu heap_empty am_new12 pdu
      = let* (e2, ev) := am_recv_segment (am_stats (stats_rxpdu (zlen pdu)) am_new12) pdu p (sn_of h' seg) (seg_so seg)
                           (seg_is_first seg) (seg_is_last seg) byte in Ok (heap_empty, e2, ev).
Proof.
  assert (Hc : match generate_pdu (fst am_one_sdu) (snd am_one_sdu) 0 (replicate 8 0) 8 with Ok (_, _, _, n) => n =? 6 | Fail _ => false end = true)
    by by vm_compute.
  destruct (generate_pdu (fst am_one_sdu) (snd am_one_sdu) 0 (replicate 8 0) 8) as [[[[h' e'] b] n]|] eqn:Hg; [|done].
  exists h', e', b, n. split; [done|]. split; [lia|].
  apply (am_pdu_roundtrip (fst am_one_sdu) (snd am_one_sdu) 0 (replicate 8 0) 8);
    [exact am_one_sdu_inv|done|by vm_compute|exact Hg|lia|apply am_new12_inv|by vm_compute].
Defined.

(** C29. Status PDUs.  When one is due and the grant has room for its three first
    bytes, the walk over the reception window ends, both where its size is
    announced to MAC and where the PDU is written, and both give the same size,
    which fits in the grant; nothing but the report is reset. *)
Theorem am_status_pdu_spec h e now buffer size :
  am_inv (h, e) -> status_to_report e = true -> 3 <= size <= zlen buffer ->
  exists e' buffer' n b, buffer_status e size = Ok b /\ bs_status_size b = n /\
    generate_pdu h e now buffer size = Ok (h, e', buffer', n) /\ 3 <= n <= size /\ am_inv (h, e') /\
    am_slots_part e' = am_slots_part e /\ am_tx_part e' = am_tx_part e /\ status_to_report e' = false.
Proof.
  intros Hinv Hst Hsize. destruct (am_generate_pdu_ok h e now buffer size Hinv ltac:(lia)) as (h' & e' & b & n & Hg & Hinv' & _ & Hc).
  rewrite Hst, (proj2 (Z.leb_le _ _)) in Hc by lia. destruct Hc as (-> & Hpart & Hn & Hs & Hgs).
  exists e', b, n, (mk_bstatus n (bs_tx_size (bstatus (am_common e))) (bs_retx_size (bstatus (am_common e)))).
  split_and!; try done; try lia.
  - unfold buffer_status, am_RlcEntity, nr_rlc_entity_am_buffer_status. by rewrite Hst, Hs.
  - by apply generate_status_slots in Hgs.
  - destruct (generate_status_ok e buffer size (proj2 Hinv) ltac:(lia)) as (e2 & ? & ? & Hgs2 & _ & _ & _ & _ & _ & _ & _ & Ht).
    rewrite Hgs in Hgs2. injection Hgs2 as <- <- <-. unfold status_to_report. rewrite Ht by lia. done.
Qed.

(** A receiver that is asked for a status and has the SDU 1 but not 0. *)
Definition am_missing_one : am_state :=
  am_after (am_after (heap_empty, am_new12) (am_op_set_time 1)) (am_op_recv_pdu [0xc0; 1; 42]).

Lemma am_missing_one_inv : am_inv (fst am_missing_one, snd am_missing_one).
Proof.
  rewrite <- surjective_pairing. apply am_after_inv; [|done|by vm_compute|by vm_compute].
  apply am_after_inv; [apply am_new12_inv|done|done|by vm_compute].
Qed.

Lemma am_status_pdu_spec_witness :
  let h := fst am_missing_one in let e := snd am_missing_one in
  status_to_report e = true /\
  exists e' buffer' n b, buffer_status e 8 = Ok b /\ bs_status_size b = n /\
    generate_pdu h e 0 (replicate 8 0) 8 = Ok (h, e', buffer', n) /\ 3 <= n <= 8 /\ am_inv (h, e') /\
    am_slots_part e' = am_slots_part e /\ am_tx_part e' = am_tx_part e /\ status_to_report e' = false.
Proof.
  assert (Hn : 3 <= 8 <= zlen (replicate 8 0)) by done.
  assert (Hs : status_to_report (snd am_missing_one) = true) by by vm_compute.
  split; [exact Hs|]. exact (am_status_pdu_spec _ _ 0 (replicate 8 0) 8 am_missing_one_inv Hs Hn).
Defined.

(** C32. The receiver that never comes back: when everything of the window is
    delivered but its first SDU, and [rx_highest_status] still is that first
    SDU, the PDU that brings it makes the loop that looks for the next
    [rx_highest_status] go round the circular window for ever: the loop ends
    for no number of turns. *)
Theorem am_full_window_hangs h e p seg hdr data :
  am_inv (h, e) -> am_window_full e -> slot e 0 = [] ->
  is_am_header e p (am_rx_next e) seg hdr -> seg_so seg = 0 -> seg_is_first seg = true -> seg_is_last seg = true ->
  0 < zlen data -> am_rx_size e + zlen data <= am_rx_maxsize e ->
  recv_pdu h e (hdr ++ data) = Fail FFuel /\
  exists e1 e2 ev, reassemble_and_deliver e1 (am_rx_next e) = Ok (e2, ev) /\ am_rx_highest_status e2 = am_rx_next e /\
    forall fuel, am_skip_delivered fuel e2 (am_rx_highest_status e2) = Fail FFuel.
Proof.
  intros Hinv Hfull Hempty Hhdr Hso Hf Hl Hd Hroom. pose proof Hinv as [Htx Hrx]. simpl in Htx, Hrx.
  pose proof (ari_win e (ari_base e Hrx)) as Hw. pose proof (win_next e Hw) as Hsn. pose proof (zlen_nonneg hdr).
  assert (Hof : am_header_of e p (am_rx_next e) seg hdr) by (split; [apply Hw|done|lia|by rewrite Hf, Hso|done]).
  set (e1 := am_stats (stats_rxpdu (zlen (hdr ++ data))) e). assert (Hrx1 : am_rx_inv e1) by by apply am_rx_inv_stats.
  set (pdu := mk_pdu (am_rx_next e) (Some data) (zlen data) 0 true true).
  assert (Hpdu : am_pdu_ok (pdu_sn pdu) pdu) by (split_and!; simpl; done).
  assert (Hh : am_hangs e1 pdu).
  { split; [done|]. split; [exact Hfull|]. change (slot e1 0) with (slot e 0). by rewrite Hempty. }
  split.
  - unfold recv_pdu, am_RlcEntity. rewrite (am_recv_pdu_header h e p (am_rx_next e) seg hdr data Hof), Hf, Hl, Hso. fold e1.
    assert (Hsz : zlen (hdr ++ data) - zlen hdr = zlen data) by (rewrite zlen_app; lia).
    rewrite (am_segment_hangs e1); try done.
    + by rewrite Hsz, drop_app_length' by (unfold zlen; lia).
    + rewrite Hsz. unfold am_segment_stored. change (am_rx_size e1) with (am_rx_size e). change (am_rx_maxsize e1) with (am_rx_maxsize e).
      rewrite (proj2 (Z.ltb_lt _ _)), (proj2 (Z.leb_le _ _)) by lia. simpl.
      pose proof (win_bounds e Hw). unfold sn_in_recv_window. change (modulus_rx e1 (am_rx_next e)) with (modulus_rx e (am_rx_next e)).
      rewrite (rel_next e Hw), (proj2 (Z.ltb_lt _ _)) by (simpl; lia). unfold segment_already_received.
      change (get_pdu_from_sn e1 (am_rx_next e)) with (get_pdu_from_sn e (am_rx_next e)).
      rewrite (get_ok e Hw), (rel_next e Hw), Hempty by done. simpl. by rewrite (proj2 (Z.leb_gt _ _)).
  - destruct (am_hang_skip e1 pdu 0 Hrx1 Hpdu ltac:(done) Hh) as (rx & e3 & e2 & ev & _ & _ & _ & Hr & Hhs & Hdiv).
    exists e3, e2, ev. by split_and!.
Qed.

(** The window of the example when all but its first SDU were received before
    [t_Reassembly] ran out for the first time (a trace of 2047 PDUs leads here). *)
Definition delivered_slot (k : Z) : list nr_rlc_pdu := [mk_pdu k None 1 0 true true].

Definition am_full12 : nr_rlc_entity_am :=
  {| am_new12 with am_rx := mk_rx_manager ([] :: map delivered_slot (seqZ 1 2047)) 2048 0 0; am_rx_next_highest := 2048 |}.

Lemma full12_slot k : 0 <= k < 2048 -> slot am_full12 k = if k =? 0 then [] else delivered_slot k.
Proof.
  intros Hk. unfold slot, rm_slot. cbn [am_full12 am_rx rm_list rm_start rm_size]. rewrite Z.add_0_l, Z.mod_small by done.
  destruct (Z.eqb_spec k 0) as [->|Hne]; [done|].
  replace (Z.to_nat k) with (S (Z.to_nat (k - 1))) by lia. apply list_lookup_total_correct. cbn [lookup list_lookup].
  apply list_lookup_fmap_Some. exists k. split; [done|]. apply lookup_seqZ. lia.
Qed.

Lemma full12_numbers :
  am_window_size am_full12 = 2048 /\ am_sn_modulus am_full12 = 4096 /\ am_rx_next am_full12 = 0 /\
  am_rx_highest_status am_full12 = 0 /\ am_rx_next_highest am_full12 = 2048 /\ am_rx_next_status_trigger am_full12 = 0 /\
  am_t_reassembly_start am_full12 = 0.
Proof. by vm_compute. Qed.

Lemma full12_inv : am_inv (heap_empty, am_full12).
Proof.
  destruct full12_numbers as (HW & HM & Hn & Hhs & Hnh & Htr & Hts).
  destruct am_new12_inv as [Htx [Hrx _]]. split; [by apply (am_tx_inv_core _ am_new12)|change (am_rx_inv am_full12)].
  assert (Hmod : forall a, 0 <= a -> modulus_rx am_full12 a = a).
  { intros a Ha. unfold modulus_rx. rewrite Hn, Z.sub_0_r, (proj2 (Z.ltb_ge _ _)) by done. done. }
  assert (Hwin : am_win am_full12).
  { split; [exact (am_cfg_core am_new12 am_full12 eq_refl eq_refl eq_refl (win_cfg _ (ari_win _ Hrx)))| | |by rewrite HW|by rewrite Hn].
    - unfold am_sn_ok. by rewrite HM, Hn.
    - by split. }
  split; [|unfold am_timer_ok; by rewrite Hts].
  split; rewrite ?HW, ?Hnh, ?Hhs, ?Htr; unfold am_sn_ok; rewrite ?HM, ?Hmod by done; try done; try lia.
  - intros k Hk. rewrite full12_slot by done. destruct (k =? 0); [apply slot_ok_nil|].
    assert (sn_at am_full12 k = k) as -> by (unfold sn_at; rewrite Hn, HM, Z.mod_small; lia).
    split; [by apply Forall_singleton|by repeat constructor|..]; done.
Qed.

Lemma am_full_window_hangs_witness :
  recv_pdu heap_empty am_full12 [0x80; 0; 42] = Fail FFuel /\
  exists e1 e2 ev, reassemble_and_deliver e1 (am_rx_next am_full12) = Ok (e2, ev) /\
    am_rx_highest_status e2 = am_rx_next am_full12 /\
    forall fuel, am_skip_delivered fuel e2 (am_rx_highest_status e2) = Fail FFuel.
Proof.
  destruct full12_numbers as (HW & HM & Hn & Hhs & _).
  apply (am_full_window_hangs heap_empty am_full12 false (mk_seg 0 0 1 0 true true) [0x80; 0] [42]);
    [exact full12_inv| |by rewrite full12_slot|split; by vm_compute|done|done|done|done|by vm_compute].
  split; [by rewrite Hhs, Hn|]. rewrite HW. intros k Hk. unfold am_done. rewrite full12_slot by lia.
  by rewrite (proj2 (Z.eqb_neq k 0)) by lia.
Defined.

(** C33. [t_PollRetransmit].  In every state of the entity, letting the time pass
    fails in exactly one case: the timer is running and has expired, a poll has
    to be sent (nothing is left to send, or the window is stalled), and no
    segment waits for its acknowledgement, because all that was sent was
    reported missing.  The code then follows the head of an empty list. *)
Theorem am_poll_timer_null h e now :
  am_inv (h, e) ->
  (set_time h e now = Fail FBounds <-> am_poll_crashes {| e with am_t_current := now |} = true) /\
  (am_poll_crashes {| e with am_t_current := now |} = false ->
   exists h' e' ev, set_time h e now = Ok (h', e', ev) /\ am_inv (h', e')).
Proof.
  intros Hinv. pose proof (am_set_time_ok h e now Hinv) as H. destruct (am_poll_crashes _); [by rewrite H|].
  destruct H as ([h' e'] & ev & -> & Hinv'). split; [done|]. intros _. by exists h', e', ev.
Qed.

(** Two SDUs sent and reported missing; then the state in which the SDUs up to
    2047 have been sent and acknowledged while these two were not (a trace of
    12000 operations leads here), with the timer running. *)
Definition am_two_missing : am_state :=
  fold_left am_after [am_op_set_time 1; am_op_recv_sdu 0 [7] 1 0; am_op_recv_sdu 0 [7] 1 1; am_op_generate 0 (replicate 8 0) 8;
    am_op_generate 0 (replicate 8 0) 8; am_op_recv_pdu [0; 2; 128; 0; 8; 0; 16]] (heap_empty, am_new12).

Lemma am_two_missing_inv : am_inv am_two_missing.
Proof.
  unfold am_two_missing. simpl fold_left.
  apply am_after_inv; [|done|by vm_compute|by vm_compute]. apply am_after_inv; [|done|done|by vm_compute].
  apply am_after_inv; [|done|done|by vm_compute]. apply am_after_inv; [|by vm_compute|done|by vm_compute].
  apply am_after_inv; [|by vm_compute|done|by vm_compute]. apply am_after_inv; [|done|done|by vm_compute].
  apply am_new12_inv.
Qed.

(** More SDUs sent and acknowledged. *)
Lemma raise_tx_next_ok h e a :
  am_tx_inv h e [] -> sl_list (am_tx e) = [] -> am_sn_ok e a -> modulus_tx e (am_tx_next e) <= modulus_tx e a <= am_window_size e ->
  am_tx_inv h {| e with am_tx_next := a |} [].
Proof.
  intros [Hc Hn Ha Hw Hst Hte Hwe Ht Hh Hsent Hws Hrs Hu Hb Hr] Hl Hok Hle.
  constructor; try done; try (by simpl; rewrite Hl).
  - exact (am_cfg_core e {| e with am_tx_next := a |} eq_refl eq_refl eq_refl Hc).
  - change (modulus_tx e a <= am_window_size e). lia.
  - eapply Forall_impl; [exact Hsent|]. intros s [H1 H2]. split; [done|]. change (modulus_tx e (sn_of h s) < modulus_tx e a). lia.
Qed.

Definition am_stall (e : nr_rlc_entity_am) : nr_rlc_entity_am :=
  {| e with am_tx_next := 2048; am_poll_sn := 2047; am_t_poll_retransmit_start := 1 |}.

Lemma am_stall_inv h e :
  am_inv (h, e) -> sl_list (am_tx e) = [] -> am_sn_ok e 2048 ->
  modulus_tx e (am_tx_next e) <= modulus_tx e 2048 <= am_window_size e -> am_inv (h, am_stall e).
Proof.
  intros [Htx Hrx] Hl Hok Hle. split; [|by apply (am_rx_inv_part e)].
  apply (am_tx_inv_core _ {| e with am_tx_next := 2048 |}); [done|by apply raise_tx_next_ok].
Qed.

Definition am_stalled : nr_rlc_entity_am := am_stall (snd am_two_missing).

Lemma am_stalled_inv : am_inv (fst am_two_missing, am_stalled).
Proof.
  apply am_stall_inv; [rewrite <- surjective_pairing; exact am_two_missing_inv|by vm_compute|split; by vm_compute|split; by vm_compute].
Qed.

Lemma am_poll_timer_null_witness :
  length (am_retransmit am_stalled) = 2%nat /\ is_window_stalling am_stalled = true /\
  set_time (fst am_two_missing) am_stalled 47 = Fail FBounds.
Proof.
  split; [by vm_compute|]. split; [by vm_compute|].
  apply (am_poll_timer_null (fst am_two_missing) am_stalled 47 am_stalled_inv). by vm_compute.
Defined.
