(* ===== verification/SmCodec.v ===== *)
(** What the "plain" encodings of the service models are made of: integers
    copied in host order (little endian), written at a cursor into a buffer
    that was allocated beforehand and read back from a buffer.

    A writer of the C code is a function [fill_x] of a cursor and a value, a
    reader a function [fill_x] of a value to fill in and a cursor: both return
    the number of bytes they went over.  Here a writer takes the buffer and the cursor and
    returns the buffer and the count, a reader takes the buffer and the cursor
    and returns the value and the count.  Sizes are [size_t]; the objects they
    count are in memory, so their sums do not wrap and are kept in Z. *)

From S2P Require Import Prelude.

(** ** Little-endian integers *)

Fixpoint le (n : nat) (v : Z) : bytes :=
  match n with
  | O => []
  | S n' => v mod 256 :: le n' (v / 256)
  end.

Fixpoint unle (l : bytes) : Z :=
  match l with
  | [] => 0
  | b :: l' => b + 256 * unle l'
  end.

Definition s64 (z : Z) : Z := (z + 2 ^ 63) mod 2 ^ 64 - 2 ^ 63.

Lemma zlen_le n v : zlen (le n v) = Z.of_nat n.
Proof. revert v. induction n as [|n IH]; intros v; [done|]. simpl. rewrite zlen_cons, IH. lia. Qed.

Lemma zlen_le4 v : zlen (le 4 v) = 4.
Proof. done. Qed.

Lemma zlen_le2 v : zlen (le 2 v) = 2.
Proof. done. Qed.

Lemma unle_le n v : unle (le n v) = v mod 256 ^ Z.of_nat n.
Proof.
  revert v. induction n as [|n IH]; intros v; [by rewrite Z.mod_1_r|]. simpl. rewrite IH.
  replace (Z.of_nat (S n)) with (1 + Z.of_nat n) by lia. rewrite Z.pow_add_r, Z.pow_1_r by lia.
  rewrite Z.rem_mul_r by lia. lia.
Qed.

Lemma unle_le_small n v : 0 <= v < 256 ^ Z.of_nat n -> unle (le n v) = v.
Proof. intros. rewrite unle_le. by apply Z.mod_small. Qed.

Lemma s64_u64 v : - 2 ^ 63 <= v < 2 ^ 63 -> s64 (v mod 2 ^ 64) = v.
Proof.
  intros. unfold s64. rewrite Zplus_mod_idemp_l, Z.mod_small by lia. lia.
Qed.

#[global] Arguments le : simpl never.

(** ** Writing at a cursor *)

(** The buffer with [data] over the bytes at [it]. *)
Definition splice (buf : bytes) (it : Z) (data : bytes) : bytes :=
  take (Z.to_nat it) buf ++ data ++ drop (Z.to_nat (it + zlen data)) buf.

Lemma buf_write_splice buf it data :
  0 <= it -> it + zlen data <= zlen buf -> buf_write buf it data = Ok (splice buf it data).
Proof.
  intros. unfold buf_write, splice. rewrite (proj2 (Z.leb_le 0 it)), (proj2 (Z.leb_le _ (zlen buf))) by lia.
  simpl. do 4 f_equal. unfold zlen. lia.
Qed.

Lemma zlen_splice buf it data :
  0 <= it -> it + zlen data <= zlen buf -> zlen (splice buf it data) = zlen buf.
Proof.
  intros. unfold splice. pose proof (zlen_nonneg data).
  rewrite !zlen_app, zlen_take, zlen_drop by lia. lia.
Qed.

Lemma splice_splice buf it it' d1 d2 :
  0 <= it -> it' = it + zlen d1 -> it' + zlen d2 <= zlen buf ->
  splice (splice buf it d1) it' d2 = splice buf it (d1 ++ d2).
Proof.
  intros Hit -> Hlen. pose proof (zlen_nonneg d1). pose proof (zlen_nonneg d2).
  set (s := splice buf it d1).
  assert (Hpre : take (Z.to_nat (it + zlen d1)) s = take (Z.to_nat it) buf ++ d1).
  { subst s. unfold splice. rewrite app_assoc. apply take_app_length'. rewrite length_app, length_take.
    unfold zlen in *. lia. }
  assert (Hpost : drop (Z.to_nat (it + zlen d1 + zlen d2)) s = drop (Z.to_nat (it + (zlen d1 + zlen d2))) buf).
  { subst s. unfold splice. rewrite app_assoc, drop_app_ge by (rewrite length_app, length_take; unfold zlen in *; lia).
    rewrite drop_drop. f_equal. rewrite length_app, length_take. unfold zlen in *. lia. }
  unfold splice. by rewrite zlen_app, Hpre, Hpost, <- !app_assoc.
Qed.

Lemma splice_nil buf it : 0 <= it -> splice buf it [] = buf.
Proof. intros. unfold splice. rewrite zlen_nil, Z.add_0_r. apply take_drop. Qed.

Lemma splice_all buf data : zlen buf = zlen data -> splice buf 0 data = data.
Proof.
  intros H. unfold splice. rewrite take_0, Z.add_0_l, <- H. simpl.
  rewrite drop_ge by (unfold zlen; lia). apply app_nil_r.
Qed.

(** [memcpy(it, &v, n)] of an integer of [n] bytes, and [memcpy] of bytes. *)
Definition put (n : nat) (buf : bytes) (it v : Z) : res bytes := buf_write buf it (le n v).

Definition get (n : nat) (buf : bytes) (it : Z) : res Z :=
  let* d := buf_read buf it (Z.of_nat n) in Ok (unle d).

(** ** The laws of a writer and of a reader

    [lay] is the layout of a value in memory, [wf] the values it is about. *)
Class Fills {A} (lay : A -> bytes) (wf : A -> Prop) (fill : bytes -> Z -> A -> res (bytes * Z)) : Prop :=
  fills : forall buf it a, wf a -> 0 <= it -> it + zlen (lay a) <= zlen buf ->
    fill buf it a = Ok (splice buf it (lay a), zlen (lay a)).

(** The bytes [d] are in [buf] at [it]. *)
Definition at_pos (buf : bytes) (it : Z) (d : bytes) : Prop :=
  0 <= it <= zlen buf /\ exists post, drop (Z.to_nat it) buf = d ++ post.

(** The buffer ends in the middle of [d], which starts at [it]. *)
Definition cut_pos (buf : bytes) (it : Z) (d : bytes) : Prop :=
  0 <= it <= zlen buf /\ exists post, post <> [] /\ d = drop (Z.to_nat it) buf ++ post.

Class Reads {A} (lay : A -> bytes) (wf : A -> Prop) (read : bytes -> Z -> res (A * Z)) : Prop :=
  reads : forall buf it a, wf a -> at_pos buf it (lay a) -> read buf it = Ok (a, zlen (lay a)).

(** A reader has no bound to check: a truncated value is read past the end. *)
Class Overruns {A} (lay : A -> bytes) (wf : A -> Prop) (read : bytes -> Z -> res (A * Z)) : Prop :=
  overruns : forall buf it a, wf a -> cut_pos buf it (lay a) -> read buf it = Fail FBounds.

Lemma at_pos_room buf it d : at_pos buf it d -> 0 <= it /\ it + zlen d <= zlen buf.
Proof.
  intros [Hit (post & Hd)]. apply (f_equal zlen) in Hd. rewrite zlen_app, zlen_drop in Hd by lia.
  pose proof (zlen_nonneg post). lia.
Qed.

Lemma at_pos_app buf it d1 d2 :
  at_pos buf it (d1 ++ d2) -> at_pos buf it d1 /\ at_pos buf (it + zlen d1) d2.
Proof.
  intros H. pose proof (at_pos_room _ _ _ H) as [_ Hroom]. destruct H as [Hit (post & Hd)].
  pose proof (zlen_nonneg d1). pose proof (zlen_nonneg d2). rewrite zlen_app in Hroom.
  rewrite <- app_assoc in Hd. split; (split; [lia|]).
  - by eexists.
  - exists post. unfold zlen. rewrite Z2Nat.inj_add, Nat2Z.id, <- drop_drop, Hd by lia.
    apply drop_app_length.
Qed.

Lemma at_pos_start d post : at_pos (d ++ post) 0 d.
Proof. split; [pose proof (zlen_nonneg (d ++ post)); lia|by exists post]. Qed.

Lemma cut_pos_app buf it d1 d2 :
  cut_pos buf it (d1 ++ d2) -> cut_pos buf it d1 \/ (at_pos buf it d1 /\ cut_pos buf (it + zlen d1) d2).
Proof.
  intros [Hit (post & Hp & Hd)]. set (r := drop (Z.to_nat it) buf) in *.
  assert (Hr : zlen r = zlen buf - it) by (apply zlen_drop; lia).
  destruct (Z.lt_ge_cases (zlen r) (zlen d1)) as [Hlt|Hge].
  - left. split; [done|]. exists (drop (length r) d1). split.
    + intros H. apply (f_equal length) in H. rewrite length_drop in H. unfold zlen in *. simpl in H. lia.
    + fold r. apply (f_equal (take (length d1))) in Hd. rewrite take_app_length in Hd.
      rewrite take_app_ge in Hd by (unfold zlen in *; lia).
      rewrite Hd at 1. f_equal. apply (f_equal (drop (length r))) in Hd. rewrite drop_app_length in Hd.
      by symmetry.
  - right. split; (split; [pose proof (zlen_nonneg d1); lia|]).
    + exists (drop (length d1) r). fold r. apply (f_equal (take (length d1))) in Hd.
      rewrite take_app_length, take_app_le in Hd by (unfold zlen in *; lia).
      rewrite <- (take_drop (length d1) r) at 1. by rewrite <- Hd.
    + exists post. split; [done|]. apply (f_equal (drop (length d1))) in Hd.
      rewrite drop_app_length, drop_app_le in Hd by (unfold zlen in *; lia).
      rewrite Hd. f_equal. subst r. rewrite drop_drop. f_equal. unfold zlen. lia.
Qed.

Lemma buf_read_at buf it d : at_pos buf it d -> buf_read buf it (zlen d) = Ok d.
Proof.
  intros H. pose proof (at_pos_room _ _ _ H). destruct H as [Hit (post & Hd)].
  pose proof (zlen_nonneg d). rewrite buf_read_ok by lia. rewrite Hd.
  unfold zlen. by rewrite Nat2Z.id, take_app_length.
Qed.

Lemma buf_read_cut buf it d : cut_pos buf it d -> buf_read buf it (zlen d) = Fail FBounds.
Proof.
  intros [Hit (post & Hp & Hd)]. unfold buf_read.
  apply (f_equal zlen) in Hd. rewrite zlen_app, zlen_drop in Hd by lia.
  assert (0 < zlen post) by (destruct post; [done|rewrite zlen_cons; pose proof (zlen_nonneg post); lia]).
  rewrite (proj2 (Z.leb_gt _ (zlen buf))) by lia. by rewrite !andb_false_r.
Qed.

(** ** Integers *)

Lemma put_ok n buf it v :
  0 <= it -> it + Z.of_nat n <= zlen buf -> put n buf it v = Ok (splice buf it (le n v)).
Proof. intros. unfold put. apply buf_write_splice; rewrite ?zlen_le; lia. Qed.

Lemma get_at n buf it v :
  0 <= v < 256 ^ Z.of_nat n -> at_pos buf it (le n v) -> get n buf it = Ok v.
Proof.
  intros Hv Hat%buf_read_at. rewrite zlen_le in Hat. unfold get. rewrite Hat. cbn [rbind].
  by rewrite unle_le_small.
Qed.

Lemma get_cut n buf it v : cut_pos buf it (le n v) -> get n buf it = Fail FBounds.
Proof. intros H%buf_read_cut. rewrite zlen_le in H. unfold get. by rewrite H. Qed.

(** ** Arrays *)

Section Arrays.
Context {A : Type} (lay : A -> bytes) (wf : A -> Prop).

Definition lay_array (l : list A) : bytes := concat (map lay l).

(** [for(i = 0; i < len; ++i){ tmp = fill(it, a[i]); it += tmp; sz += tmp; }] *)
Fixpoint fill_array (fill : bytes -> Z -> A -> res (bytes * Z)) (buf : bytes) (it sz : Z) (l : list A)
    : res (bytes * Z) :=
  match l with
  | [] => Ok (buf, sz)
  | a :: l' =>
      let* (buf, tmp) := fill buf it a in
      fill_array fill buf (it + tmp) (sz + tmp) l'
  end.

Fixpoint read_array (read : bytes -> Z -> res (A * Z)) (buf : bytes) (it sz : Z) (len : nat)
    : res (list A * Z) :=
  match len with
  | O => Ok ([], sz)
  | S len' =>
      let* (a, tmp) := read buf it in
      let* (l, sz) := read_array read buf (it + tmp) (sz + tmp) len' in
      Ok (a :: l, sz)
  end.

Lemma fill_array_ok fill `{!Fills lay wf fill} l buf it sz :
  Forall wf l -> 0 <= it -> it + zlen (lay_array l) <= zlen buf ->
  fill_array fill buf it sz l = Ok (splice buf it (lay_array l), sz + zlen (lay_array l)).
Proof.
  intros Hl. revert buf it sz. induction Hl as [|a l Ha Hl IH]; intros buf it sz Hit Hroom; simpl.
  - change (lay_array []) with (@nil Z). rewrite splice_nil by done. by rewrite zlen_nil, Z.add_0_r.
  - change (lay_array (a :: l)) with (lay a ++ lay_array l) in *.
    rewrite zlen_app in *. pose proof (zlen_nonneg (lay a)). pose proof (zlen_nonneg (lay_array l)).
    rewrite fills by (done || lia). cbn [rbind]. rewrite IH by (rewrite ?zlen_splice; lia).
    rewrite splice_splice by lia. do 2 f_equal. lia.
Qed.

Lemma read_array_ok read `{!Reads lay wf read} l buf it sz :
  Forall wf l -> at_pos buf it (lay_array l) ->
  read_array read buf it sz (length l) = Ok (l, sz + zlen (lay_array l)).
Proof.
  intros Hl. revert it sz. induction Hl as [|a l Ha Hl IH]; intros it sz Hat; simpl.
  - by rewrite Z.add_0_r.
  - change (lay_array (a :: l)) with (lay a ++ lay_array l) in *.
    apply at_pos_app in Hat as [Hat1 Hat2]. rewrite (reads _ _ a) by done. cbn [rbind].
    rewrite IH by done. cbn [rbind]. rewrite zlen_app. do 2 f_equal. lia.
Qed.

Lemma read_array_cut read `{!Reads lay wf read, !Overruns lay wf read} l buf it sz :
  Forall wf l -> cut_pos buf it (lay_array l) ->
  read_array read buf it sz (length l) = Fail FBounds.
Proof.
  intros Hl. revert it sz. induction Hl as [|a l Ha Hl IH]; intros it sz Hcut; simpl.
  - destruct Hcut as [_ (post & Hp & Hd)]. symmetry in Hd. by apply app_nil in Hd as [_ ->].
  - change (lay_array (a :: l)) with (lay a ++ lay_array l) in *.
    apply cut_pos_app in Hcut as [Hcut|[Hat Hcut]].
    + by rewrite (overruns _ _ a).
    + rewrite (reads _ _ a) by done. cbn [rbind]. by rewrite IH.
Qed.

Lemma zlen_lay_array_const k l :
  (forall a, zlen (lay a) = k) -> zlen (lay_array l) = k * zlen l.
Proof.
  intros Hk. unfold lay_array. induction l as [|a l IH]; simpl; [unfold zlen; simpl; lia|].
  rewrite zlen_app, zlen_cons, IH, Hk. lia.
Qed.
End Arrays.

(** A size accumulated by a loop that adds the same amount each time. *)
Lemma fold_left_size {A} (f : A -> Z) k (l : list A) sz :
  (forall a, f a = k) -> fold_left (fun sz a => sz + f a) l sz = sz + k * zlen l.
Proof.
  intros Hk. revert sz. induction l as [|a l IH]; intros sz; simpl; [rewrite zlen_nil; lia|].
  rewrite IH, Hk, zlen_cons. lia.
Qed.

(** ** Automation

    A writer is executed on a buffer whose bytes from [it] on are the ones it
    has written so far, [d]; every write appends to [d].  A reader is executed
    on a buffer that holds the layout, which every read splits. *)

Lemma fills_intro {A} (lay : A -> bytes) wf fill :
  (forall buf it a, wf a -> 0 <= it -> it + zlen (lay a) <= zlen buf ->
     fill (splice buf it []) it a = Ok (splice buf it (lay a), zlen (lay a))) ->
  Fills lay wf fill.
Proof. intros H buf it a Ha Hit Hroom. rewrite <- (splice_nil buf it) at 1 by done. by apply H. Qed.

Lemma ok_splice_eq buf it d d' (n m : Z) :
  d = d' -> n = m -> Ok (splice buf it d, n) = Ok (splice buf it d', m).
Proof. by intros -> ->. Qed.

Section Append.
Context (buf : bytes) (it0 it : Z) (d : bytes).
Hypothesis (Hit0 : 0 <= it0) (Hit : it = it0 + zlen d).

Lemma write_app data :
  it + zlen data <= zlen buf -> buf_write (splice buf it0 d) it data = Ok (splice buf it0 (d ++ data)).
Proof.
  intros. pose proof (zlen_nonneg d). pose proof (zlen_nonneg data).
  rewrite buf_write_splice by (rewrite ?zlen_splice; lia). by rewrite splice_splice by lia.
Qed.

Lemma put_app n v :
  it + Z.of_nat n <= zlen buf -> put n (splice buf it0 d) it v = Ok (splice buf it0 (d ++ le n v)).
Proof. intros. unfold put. apply write_app. rewrite zlen_le. lia. Qed.

Lemma assert_room_app n : 0 < n -> it + n <= zlen buf -> assert_ (it <? zlen (splice buf it0 d)) = Ok tt.
Proof.
  intros. pose proof (zlen_nonneg d). rewrite zlen_splice by lia. by rewrite (proj2 (Z.ltb_lt _ _)) by lia.
Qed.
End Append.

Section AppendFills.
Context {A : Type} (lay : A -> bytes) (wf : A -> Prop) (fill : bytes -> Z -> A -> res (bytes * Z)).
Context `{!Fills lay wf fill} (buf : bytes) (it0 it : Z) (d : bytes).

Lemma fills_app a :
  0 <= it0 -> it = it0 + zlen d -> wf a -> it + zlen (lay a) <= zlen buf ->
  fill (splice buf it0 d) it a = Ok (splice buf it0 (d ++ lay a), zlen (lay a)).
Proof.
  intros. pose proof (zlen_nonneg d). pose proof (zlen_nonneg (lay a)).
  rewrite fills by (rewrite ?zlen_splice; done || lia). by rewrite splice_splice by lia.
Qed.

Lemma fill_array_app sz l :
  0 <= it0 -> it = it0 + zlen d -> Forall wf l -> it + zlen (lay_array lay l) <= zlen buf ->
  fill_array fill (splice buf it0 d) it sz l
  = Ok (splice buf it0 (d ++ lay_array lay l), sz + zlen (lay_array lay l)).
Proof.
  intros. pose proof (zlen_nonneg d). pose proof (zlen_nonneg (lay_array lay l)).
  rewrite (fill_array_ok lay wf) by (rewrite ?zlen_splice; done || lia). by rewrite splice_splice by lia.
Qed.
End AppendFills.

#[export] Hint Rewrite @zlen_app zlen_le @zlen_nil : codec.

Ltac room := autorewrite with codec; unfold zlen in *; lia.
Tactic Notation "wr" := first [rewrite put_app by room | rewrite write_app by room]; cbn [rbind].
(** Write a component whose layout is [lay], or an array of them. *)
Tactic Notation "wr" constr(lay) := rewrite (fills_app lay _ _) by (done || room); cbn [rbind].
Tactic Notation "wr_array" constr(lay) := rewrite (fill_array_app lay _ _) by (done || room); cbn [rbind].
Ltac wr_done := apply ok_splice_eq; [by rewrite ?app_nil_l, <- ?app_assoc | room].

(** Read a string whose length is not zero. *)
Definition get_bytes (buf : bytes) (it len : Z) : res bytes :=
  if 0 <? len then buf_read buf it len else Ok [].

Lemma get_bytes_at buf it d : at_pos buf it d -> get_bytes buf it (zlen d) = Ok d.
Proof.
  intros Hat. unfold get_bytes. destruct (0 <? zlen d) eqn:Hd; [by apply buf_read_at|].
  rewrite (zlen_0_nil d); [done|]. pose proof (zlen_nonneg d). lia.
Qed.

Lemma get_bytes_cut buf it d : cut_pos buf it d -> get_bytes buf it (zlen d) = Fail FBounds.
Proof.
  intros Hcut. unfold get_bytes. destruct (0 <? zlen d) eqn:Hd; [by apply buf_read_cut|].
  destruct Hcut as [_ (post & Hp & Heq)]. rewrite (zlen_0_nil d) in Heq by (pose proof (zlen_nonneg d); lia).
  symmetry in Heq. by apply app_nil in Heq as [_ ->].
Qed.

(** Read a string into [calloc(1, len + 1)], where [len] is a [uint32_t]: from
    2^32 - 1 on the size wraps and the copy overruns an empty object. *)
Definition get_string (buf : bytes) (it len : Z) : res bytes :=
  if 0 <? len then if u32 (len + 1) <? len then Fail FBounds else buf_read buf it len else Ok [].

Lemma get_string_bytes buf it len : len < 2 ^ 32 - 1 -> get_string buf it len = get_bytes buf it len.
Proof.
  intros Hl. unfold get_string, get_bytes. destruct (Z.ltb_spec 0 len); [|done].
  rewrite wrap_small by lia. by rewrite (proj2 (Z.ltb_ge _ _)) by lia.
Qed.

Lemma get_string_at buf it d : at_pos buf it d -> zlen d < 2 ^ 32 - 1 -> get_string buf it (zlen d) = Ok d.
Proof. intros Hat Hd. rewrite get_string_bytes by done. by apply get_bytes_at. Qed.

Lemma get_string_cut buf it d : cut_pos buf it d -> zlen d < 2 ^ 32 - 1 -> get_string buf it (zlen d) = Fail FBounds.
Proof. intros Hcut Hd. rewrite get_string_bytes by done. by apply get_bytes_cut. Qed.

(** The values a field of [n] bytes can hold; [rd] looks for the bound of the
    next field among the hypotheses. *)
Definition fits (n : nat) (v : Z) : Prop := 0 <= v < 256 ^ Z.of_nat n.

Lemma get_fits n buf it v : at_pos buf it (le n v) -> fits n v -> get n buf it = Ok v.
Proof. intros. by apply get_at. Qed.

Lemma ok_pair_eq {A} (a b : A) (n m : Z) : a = b -> n = m -> Ok (a, n) = Ok (b, m).
Proof. by intros -> ->. Qed.

Ltac rd_done := apply ok_pair_eq; [done|room].

(** One step of a reader over the layout in [H], which is either held by the
    buffer ([rd]) or cut ([ov], where it may end here). *)
Ltac rd_field Hn :=
  lazymatch type of Hn with
  | at_pos _ _ (le _ _) => rewrite (get_fits _ _ _ _ Hn) by auto
  | at_pos _ _ (lay_array ?lay ?l) =>
      let r := constr:(@read_array_ok _ lay _ _ _) in rewrite (r l) by eassumption
  | at_pos _ _ (?lay ?a) =>
      first [ let r := constr:(@reads _ lay _ _ _) in rewrite (r _ _ a) by eassumption
            | rewrite (get_bytes_at _ _ _ Hn)
            | rewrite (get_string_at _ _ _ Hn) by assumption ]
  end; cbn [rbind].

Ltac rd H := let Hn := fresh in
  apply at_pos_app in H; destruct H as [Hn H]; rd_field Hn; clear Hn; rewrite ?zlen_le4, ?zlen_le2 in H.

Ltac cut_field H :=
  lazymatch type of H with
  | cut_pos _ _ (le _ _) => rewrite (get_cut _ _ _ _ H)
  | cut_pos _ _ (lay_array ?lay ?l) =>
      let r := constr:(@read_array_cut _ lay _ _ _ _) in rewrite (r l) by eassumption
  | cut_pos _ _ (?lay ?a) =>
      first [ let r := constr:(@overruns _ lay _ _ _) in rewrite (r _ _ a) by eassumption
            | rewrite (get_bytes_cut _ _ _ H)
            | rewrite (get_string_cut _ _ _ H) by assumption ]
  end; done.

Ltac ov H := let Hn := fresh in
  apply cut_pos_app in H; destruct H as [H|[Hn H]];
  [cut_field H|rd_field Hn; clear Hn; rewrite ?zlen_le4, ?zlen_le2 in H].
