(* ===== verification/SliceData.v ===== *)
(** The information elements of the slice service model
    (flexric/src/sm/slice_sm/ie/slice_data_ie.h), their layout in the plain
    encoding and the values the encoding is meant for.

    A pair (length, pointer) of the C structs is a list whose length is the
    first member; a struct with a type member and a union is an inductive type
    whose constructors are the members of the union, with one more for a type
    that is no member of the enum.  A [float] is the 32-bit pattern that
    [memcpy] copies. *)

From S2P Require Import Prelude SmCodec.

Record slice_event_trigger_t := mk_event_trigger { et_ms : Z }.
Record slice_ind_hdr_t := mk_ind_hdr { ih_dummy : Z }.
Record slice_ctrl_hdr_t := mk_ctrl_hdr { ch_dummy : Z }.

(** [slice_algorithm_e] *)
Definition SLICE_ALG_SM_V0_NONE : Z := 0.
Definition SLICE_ALG_SM_V0_STATIC : Z := 1.
Definition SLICE_ALG_SM_V0_NVS : Z := 2.
Definition SLICE_ALG_SM_V0_SCN19 : Z := 3.
Definition SLICE_ALG_SM_V0_EDF : Z := 4.

Record static_slice_t := mk_static { pos_low : Z; pos_high : Z }.

Definition SLICE_SM_NVS_V0_RATE : Z := 0.
Definition SLICE_SM_NVS_V0_CAPACITY : Z := 1.

Record nvs_rate_t := mk_rate { mbps_required : Z; mbps_reference : Z }.
Record nvs_capacity_t := mk_capacity { nvs_pct_reserved : Z }.

Inductive nvs_slice_t :=
| nvs_rate (r : nvs_rate_t)
| nvs_capacity (c : nvs_capacity_t)
| nvs_other (conf : Z).

Definition nvs_conf (n : nvs_slice_t) : Z :=
  match n with
  | nvs_rate _ => SLICE_SM_NVS_V0_RATE
  | nvs_capacity _ => SLICE_SM_NVS_V0_CAPACITY
  | nvs_other c => c
  end.

Definition SLICE_SCN19_SM_V0_DYNAMIC : Z := 0.
Definition SLICE_SCN19_SM_V0_FIXED : Z := 1.
Definition SLICE_SCN19_SM_V0_ON_DEMAND : Z := 2.

Record scn19_on_demand_t := mk_on_demand { pct_reserved : Z; log_delta : Z; tau : Z }.

Inductive scn19_slice_t :=
| scn19_dynamic (r : nvs_rate_t)
| scn19_fixed (s : static_slice_t)
| scn19_on_demand (o : scn19_on_demand_t)
| scn19_other (conf : Z).

Definition scn19_conf (s : scn19_slice_t) : Z :=
  match s with
  | scn19_dynamic _ => SLICE_SCN19_SM_V0_DYNAMIC
  | scn19_fixed _ => SLICE_SCN19_SM_V0_FIXED
  | scn19_on_demand _ => SLICE_SCN19_SM_V0_ON_DEMAND
  | scn19_other c => c
  end.

Record edf_slice_t := mk_edf {
  deadline : Z;
  guaranteed_prbs : Z;
  max_replenish : Z;
  over : list Z
}.

Inductive slice_params_t :=
| params_sta (s : static_slice_t)
| params_nvs (n : nvs_slice_t)
| params_scn19 (s : scn19_slice_t)
| params_edf (e : edf_slice_t)
| params_other (type : Z).

Definition params_type (p : slice_params_t) : Z :=
  match p with
  | params_sta _ => SLICE_ALG_SM_V0_STATIC
  | params_nvs _ => SLICE_ALG_SM_V0_NVS
  | params_scn19 _ => SLICE_ALG_SM_V0_SCN19
  | params_edf _ => SLICE_ALG_SM_V0_EDF
  | params_other t => t
  end.

Record fr_slice_t := mk_fr_slice {
  slc_id : Z;
  slc_label : bytes;
  slc_sched : bytes;
  slc_params : slice_params_t
}.

Record ul_dl_slice_conf_t := mk_ul_dl { slices : list fr_slice_t; sched_name : bytes }.
Record slice_conf_t := mk_slice_conf { conf_dl : ul_dl_slice_conf_t; conf_ul : ul_dl_slice_conf_t }.
Record ue_slice_assoc_t := mk_assoc { dl_id : Z; ul_id : Z; rnti : Z }.
Record ue_slice_conf_t := mk_ue_conf { ues : list ue_slice_assoc_t }.

Record slice_ind_msg_t := mk_ind_msg {
  im_slice_conf : slice_conf_t;
  im_ue_slice_conf : ue_slice_conf_t;
  im_tstamp : Z                          (* int64_t *)
}.

Definition SLICE_CTRL_SM_V0_ADD : Z := 0.
Definition SLICE_CTRL_SM_V0_DEL : Z := 1.
Definition SLICE_CTRL_SM_V0_UE_SLICE_ASSOC : Z := 2.

Record del_slice_conf_t := mk_del { del_dl : list Z; del_ul : list Z }.

Inductive slice_ctrl_msg_t :=
| ctrl_add_mod_slice (c : slice_conf_t)
| ctrl_del_slice (d : del_slice_conf_t)
| ctrl_ue_slice (u : ue_slice_conf_t)
| ctrl_other (type : Z).

Definition ctrl_msg_type (m : slice_ctrl_msg_t) : Z :=
  match m with
  | ctrl_add_mod_slice _ => SLICE_CTRL_SM_V0_ADD
  | ctrl_del_slice _ => SLICE_CTRL_SM_V0_DEL
  | ctrl_ue_slice _ => SLICE_CTRL_SM_V0_UE_SLICE_ASSOC
  | ctrl_other t => t
  end.

Inductive slice_ctrl_out_e := SLICE_CTRL_OUT_OK | SLICE_CTRL_OUT_ERROR.
Record slice_ctrl_out_t := mk_ctrl_out { ans : slice_ctrl_out_e; diagnostic : bytes }.

(** ** Layout *)

Definition lay_u32 : Z -> bytes := le 4.
Definition lay_string (s : bytes) : bytes := le 4 (zlen s) ++ s.
Definition lay_static (s : static_slice_t) : bytes := le 4 (pos_high s) ++ le 4 (pos_low s).
Definition lay_rate (r : nvs_rate_t) : bytes := le 4 (mbps_reference r) ++ le 4 (mbps_required r).
Definition lay_capacity (c : nvs_capacity_t) : bytes := le 4 (nvs_pct_reserved c).

Definition lay_nvs (n : nvs_slice_t) : bytes :=
  le 4 (nvs_conf n) ++ match n with
                       | nvs_rate r => lay_rate r
                       | nvs_capacity c => lay_capacity c
                       | nvs_other _ => []
                       end.

Definition lay_on_demand (o : scn19_on_demand_t) : bytes :=
  le 4 (log_delta o) ++ le 4 (pct_reserved o) ++ le 4 (tau o).

Definition lay_scn19 (s : scn19_slice_t) : bytes :=
  le 4 (scn19_conf s) ++ match s with
                         | scn19_dynamic r => lay_rate r
                         | scn19_fixed s => lay_static s
                         | scn19_on_demand o => lay_on_demand o
                         | scn19_other _ => []
                         end.

Definition lay_edf (e : edf_slice_t) : bytes :=
  le 4 (deadline e) ++ le 4 (guaranteed_prbs e) ++ le 4 (max_replenish e)
  ++ le 4 (zlen (over e)) ++ lay_array lay_u32 (over e).

Definition lay_params (p : slice_params_t) : bytes :=
  le 4 (params_type p) ++ match p with
                          | params_sta s => lay_static s
                          | params_nvs n => lay_nvs n
                          | params_scn19 s => lay_scn19 s
                          | params_edf e => lay_edf e
                          | params_other _ => []
                          end.

Definition lay_slice (s : fr_slice_t) : bytes :=
  le 4 (slc_id s) ++ lay_string (slc_label s) ++ lay_string (slc_sched s) ++ lay_params (slc_params s).

Definition lay_ul_dl (c : ul_dl_slice_conf_t) : bytes :=
  lay_string (sched_name c) ++ le 4 (zlen (slices c)) ++ lay_array lay_slice (slices c).

Definition lay_slice_conf (c : slice_conf_t) : bytes := lay_ul_dl (conf_dl c) ++ lay_ul_dl (conf_ul c).

Definition lay_assoc (a : ue_slice_assoc_t) : bytes := le 4 (dl_id a) ++ le 4 (ul_id a) ++ le 2 (rnti a).

Definition lay_ue_conf (c : ue_slice_conf_t) : bytes :=
  le 4 (zlen (ues c)) ++ lay_array lay_assoc (ues c).

Definition lay_ind_msg (m : slice_ind_msg_t) : bytes :=
  lay_slice_conf (im_slice_conf m) ++ lay_ue_conf (im_ue_slice_conf m) ++ le 8 (u64 (im_tstamp m)).

Definition lay_del (d : del_slice_conf_t) : bytes :=
  (le 4 (zlen (del_dl d)) ++ lay_array lay_u32 (del_dl d))
  ++ (le 4 (zlen (del_ul d)) ++ lay_array lay_u32 (del_ul d)).

Definition lay_ctrl_msg (m : slice_ctrl_msg_t) : bytes :=
  le 4 (ctrl_msg_type m) ++ match m with
                            | ctrl_add_mod_slice c => lay_slice_conf c
                            | ctrl_del_slice d => lay_del d
                            | ctrl_ue_slice u => lay_ue_conf u
                            | ctrl_other _ => []
                            end.

(** ** The values the C types can hold, without the types the code refuses *)

Definition is_u32 (z : Z) : Prop := 0 <= z < 2 ^ 32.
Definition len_ok {A} (l : list A) : Prop := zlen l < 2 ^ 32.
(** A label or a name: the decoder adds one to its length, as a [uint32_t]. *)
Definition str_ok (l : bytes) : Prop := zlen l < 2 ^ 32 - 1.

Definition wf_static (s : static_slice_t) : Prop := is_u32 (pos_low s) /\ is_u32 (pos_high s).
Definition wf_rate (r : nvs_rate_t) : Prop := is_u32 (mbps_required r) /\ is_u32 (mbps_reference r).
Definition wf_capacity (c : nvs_capacity_t) : Prop := is_u32 (nvs_pct_reserved c).

Definition wf_nvs (n : nvs_slice_t) : Prop :=
  match n with
  | nvs_rate r => wf_rate r
  | nvs_capacity c => wf_capacity c
  | nvs_other _ => False
  end.

Definition wf_on_demand (o : scn19_on_demand_t) : Prop :=
  is_u32 (log_delta o) /\ is_u32 (pct_reserved o) /\ is_u32 (tau o).

Definition wf_scn19 (s : scn19_slice_t) : Prop :=
  match s with
  | scn19_dynamic r => wf_rate r
  | scn19_fixed s => wf_static s
  | scn19_on_demand o => wf_on_demand o
  | scn19_other _ => False
  end.

Definition wf_edf (e : edf_slice_t) : Prop :=
  is_u32 (deadline e) /\ is_u32 (guaranteed_prbs e) /\ is_u32 (max_replenish e) /\
  len_ok (over e) /\ Forall is_u32 (over e).

Definition wf_params (p : slice_params_t) : Prop :=
  match p with
  | params_sta s => wf_static s
  | params_nvs n => wf_nvs n
  | params_scn19 s => wf_scn19 s
  | params_edf e => wf_edf e
  | params_other _ => False
  end.

Definition wf_slice (s : fr_slice_t) : Prop :=
  is_u32 (slc_id s) /\ str_ok (slc_label s) /\ str_ok (slc_sched s) /\ wf_params (slc_params s).

Definition wf_ul_dl (c : ul_dl_slice_conf_t) : Prop :=
  str_ok (sched_name c) /\ len_ok (slices c) /\ Forall wf_slice (slices c).

Definition wf_slice_conf (c : slice_conf_t) : Prop := wf_ul_dl (conf_dl c) /\ wf_ul_dl (conf_ul c).

Definition wf_assoc (a : ue_slice_assoc_t) : Prop :=
  is_u32 (dl_id a) /\ is_u32 (ul_id a) /\ 0 <= rnti a < 2 ^ 16.

Definition wf_ue_conf (c : ue_slice_conf_t) : Prop := len_ok (ues c) /\ Forall wf_assoc (ues c).

Definition wf_ind_msg (m : slice_ind_msg_t) : Prop :=
  wf_slice_conf (im_slice_conf m) /\ wf_ue_conf (im_ue_slice_conf m) /\
  - 2 ^ 63 <= im_tstamp m < 2 ^ 63.

Definition wf_del (d : del_slice_conf_t) : Prop :=
  len_ok (del_dl d) /\ Forall is_u32 (del_dl d) /\ len_ok (del_ul d) /\ Forall is_u32 (del_ul d).

Definition wf_ctrl_msg (m : slice_ctrl_msg_t) : Prop :=
  match m with
  | ctrl_add_mod_slice c => wf_slice_conf c
  | ctrl_del_slice d => wf_del d
  | ctrl_ue_slice u => wf_ue_conf u
  | ctrl_other _ => False
  end.
