(* ===== verification/SliceEnc.v ===== *)
(** The plain encoder of the slice service model
    (flexric/src/sm/slice_sm/enc/slice_enc_plain.c).

    [cal_x] computes the size of the buffer, [fill_x] writes into it.  The
    buffer comes from [malloc], which leaves any content in it: the section
    variable [malloc] gives that content, [n] bytes for a request of [n].  The
    static variable [end] is one past the buffer, i.e. [zlen buf].  A pointer
    of the C code is an offset in the buffer; [assert(it != NULL)] holds of
    every offset. *)

From S2P Require Import Prelude SmCodec SliceData.

(** ** Sizes *)

Definition cal_static (sta : static_slice_t) : res Z := Ok (4 + 4).

Definition cal_nvs (nvs : nvs_slice_t) : res Z :=
  let sz := 4 in
  match nvs with
  | nvs_rate _ => Ok (sz + 4 + 4)
  | nvs_capacity _ => Ok (sz + 4)
  | nvs_other _ => Fail FExit
  end.

Definition cal_scn19 (scn : scn19_slice_t) : res Z :=
  let sz := 4 in
  match scn with
  | scn19_dynamic _ => Ok (sz + 4 + 4)
  | scn19_fixed _ => Ok (sz + 4 + 4)
  | scn19_on_demand _ => Ok (sz + 4 + 4 + 4)
  | scn19_other _ => Fail FExit
  end.

Definition cal_edf (edf : edf_slice_t) : res Z :=
  Ok (fold_left (fun sz _ => sz + 4) (over edf) (4 + 4 + 4 + 4)).

Definition cal_params (par : slice_params_t) : res Z :=
  let* sz :=
    match par with
    | params_sta s => cal_static s
    | params_nvs n => cal_nvs n
    | params_scn19 s => cal_scn19 s
    | params_edf e => cal_edf e
    | params_other _ => Fail FExit
    end in
  Ok (4 + sz).

Fixpoint cal_slc (total : Z) (slc : list fr_slice_t) : res Z :=
  match slc with
  | [] => Ok total
  | s :: slc' =>
      let* sz_par := cal_params (slc_params s) in
      cal_slc (total + (4 + 4 + zlen (slc_label s) + 4 + zlen (slc_sched s) + sz_par)) slc'
  end.

Definition cal_ul_dl (slc : ul_dl_slice_conf_t) : res Z :=
  let* sz_slice := cal_slc 0 (slices slc) in
  Ok (4 + zlen (sched_name slc) + 4 + sz_slice).

Definition cal_slice_conf (slc : slice_conf_t) : res Z :=
  let* ul := cal_ul_dl (conf_ul slc) in
  let* dl := cal_ul_dl (conf_dl slc) in
  Ok (ul + dl).

Definition cal_ue_slice_assoc (assoc : ue_slice_assoc_t) : Z := 4 + 4 + 2.

Definition cal_ue_slice_conf (slc : ue_slice_conf_t) : Z :=
  fold_left (fun sz a => sz + cal_ue_slice_assoc a) (ues slc) 4.

Definition cal_ind_msg_payload (ind_msg : slice_ind_msg_t) : res Z :=
  let* sz_conf := cal_slice_conf (im_slice_conf ind_msg) in
  let sz_ues := cal_ue_slice_conf (im_ue_slice_conf ind_msg) in
  Ok (sz_conf + sz_ues + 8).

Definition cal_del_slice (del : del_slice_conf_t) : Z :=
  4 + zlen (del_dl del) * 4 + 4 + zlen (del_ul del) * 4.

Definition cal_ctrl_msg_payload (ctrl_msg : slice_ctrl_msg_t) : res Z :=
  let* sz :=
    match ctrl_msg with
    | ctrl_add_mod_slice c => cal_slice_conf c
    | ctrl_del_slice d => Ok (cal_del_slice d)
    | ctrl_ue_slice u => Ok (cal_ue_slice_conf u)
    | ctrl_other _ => Fail FExit
    end in
  Ok (4 + sz).

(** ** Writers *)

Definition fill_static (buf : bytes) (it : Z) (sta : static_slice_t) : res (bytes * Z) :=
  let* _ := assert_ (it <? zlen buf) in
  let* buf := put 4 buf it (pos_high sta) in
  let* buf := put 4 buf (it + 4) (pos_low sta) in
  Ok (buf, 4 + 4).

Definition fill_rate (buf : bytes) (it : Z) (nvs : nvs_rate_t) : res (bytes * Z) :=
  let* buf := put 4 buf it (mbps_reference nvs) in
  let* buf := put 4 buf (it + 4) (mbps_required nvs) in
  Ok (buf, 4 + 4).

Definition fill_capacity (buf : bytes) (it : Z) (nvs : nvs_capacity_t) : res (bytes * Z) :=
  let* buf := put 4 buf it (nvs_pct_reserved nvs) in
  Ok (buf, 4).

Definition fill_nvs (buf : bytes) (it : Z) (nvs : nvs_slice_t) : res (bytes * Z) :=
  let* buf := put 4 buf it (nvs_conf nvs) in
  let it := it + 4 in
  let sz := 4 in
  let* (buf, n) :=
    match nvs with
    | nvs_rate r => fill_rate buf it r
    | nvs_capacity c => fill_capacity buf it c
    | nvs_other _ => Fail FExit
    end in
  Ok (buf, sz + n).

Definition fill_on_demand (buf : bytes) (it : Z) (scn : scn19_on_demand_t) : res (bytes * Z) :=
  let* buf := put 4 buf it (log_delta scn) in
  let* buf := put 4 buf (it + 4) (pct_reserved scn) in
  let* buf := put 4 buf (it + 4 + 4) (tau scn) in
  Ok (buf, 4 + 4 + 4).

Definition fill_scn19 (buf : bytes) (it : Z) (scn : scn19_slice_t) : res (bytes * Z) :=
  let* buf := put 4 buf it (scn19_conf scn) in
  let it := it + 4 in
  let sz := 4 in
  let* (buf, n) :=
    match scn with
    | scn19_dynamic r => fill_rate buf it r
    | scn19_fixed s => fill_static buf it s
    | scn19_on_demand o => fill_on_demand buf it o
    | scn19_other _ => Fail FExit
    end in
  Ok (buf, sz + n).

(** [memcpy] of one [uint32_t] of an array. *)
Definition fill_u32 (buf : bytes) (it v : Z) : res (bytes * Z) :=
  let* buf := put 4 buf it v in Ok (buf, 4).

Definition fill_edf (buf : bytes) (it : Z) (edf : edf_slice_t) : res (bytes * Z) :=
  let* buf := put 4 buf it (deadline edf) in
  let* buf := put 4 buf (it + 4) (guaranteed_prbs edf) in
  let* buf := put 4 buf (it + 4 + 4) (max_replenish edf) in
  let* buf := put 4 buf (it + 4 + 4 + 4) (zlen (over edf)) in
  fill_array fill_u32 buf (it + 4 + 4 + 4 + 4) (4 + 4 + 4 + 4) (over edf).

Definition fill_params (buf : bytes) (it : Z) (par : slice_params_t) : res (bytes * Z) :=
  let* buf := put 4 buf it (params_type par) in
  let it := it + 4 in
  let sz := 4 in
  let* (buf, n) :=
    match par with
    | params_sta s => fill_static buf it s
    | params_nvs n => fill_nvs buf it n
    | params_scn19 s => fill_scn19 buf it s
    | params_edf e => fill_edf buf it e
    | params_other _ => Fail FExit
    end in
  Ok (buf, sz + n).

Definition fill_slice (buf : bytes) (it : Z) (slc : fr_slice_t) : res (bytes * Z) :=
  let* _ := assert_ (it <? zlen buf) in
  let* buf := put 4 buf it (slc_id slc) in
  let it := it + 4 in
  let sz := 4 in
  let* buf := put 4 buf it (zlen (slc_label slc)) in
  let it := it + 4 in
  let sz := sz + 4 in
  let* buf := buf_write buf it (slc_label slc) in
  let it := it + zlen (slc_label slc) in
  let sz := sz + zlen (slc_label slc) in
  let* buf := put 4 buf it (zlen (slc_sched slc)) in
  let it := it + 4 in
  let sz := sz + 4 in
  let* buf := buf_write buf it (slc_sched slc) in
  let it := it + zlen (slc_sched slc) in
  let sz := sz + zlen (slc_sched slc) in
  let* (buf, n) := fill_params buf it (slc_params slc) in
  Ok (buf, sz + n).

Definition fill_ul_dl_slice_conf (buf : bytes) (it : Z) (conf : ul_dl_slice_conf_t) : res (bytes * Z) :=
  let* buf := put 4 buf it (zlen (sched_name conf)) in
  let it := it + 4 in
  let sz := 4 in
  let* buf := buf_write buf it (sched_name conf) in
  let it := it + zlen (sched_name conf) in
  let sz := sz + zlen (sched_name conf) in
  let* buf := put 4 buf it (zlen (slices conf)) in
  let it := it + 4 in
  let sz := sz + 4 in
  fill_array fill_slice buf it sz (slices conf).

Definition fill_slice_conf (buf : bytes) (it : Z) (conf : slice_conf_t) : res (bytes * Z) :=
  let* (buf, sz) := fill_ul_dl_slice_conf buf it (conf_dl conf) in
  let it := it + sz in
  let* (buf, n) := fill_ul_dl_slice_conf buf it (conf_ul conf) in
  Ok (buf, sz + n).

Definition fill_ue_slice_assoc (buf : bytes) (it : Z) (assoc : ue_slice_assoc_t) : res (bytes * Z) :=
  let* _ := assert_ (it <? zlen buf) in
  let* buf := put 4 buf it (dl_id assoc) in
  let* buf := put 4 buf (it + 4) (ul_id assoc) in
  let* buf := put 2 buf (it + 4 + 4) (rnti assoc) in
  Ok (buf, 4 + 4 + 2).

Definition fill_ue_slice_conf (buf : bytes) (it : Z) (slc : ue_slice_conf_t) : res (bytes * Z) :=
  let* buf := put 4 buf it (zlen (ues slc)) in
  fill_array fill_ue_slice_assoc buf (it + 4) 4 (ues slc).

Definition fill_del_slice_conf (buf : bytes) (it : Z) (conf : del_slice_conf_t) : res (bytes * Z) :=
  let* buf := put 4 buf it (zlen (del_dl conf)) in
  let it := it + 4 in
  let* (buf, sz) := fill_array fill_u32 buf it 4 (del_dl conf) in
  let it := it + (sz - 4) in
  let* buf := put 4 buf it (zlen (del_ul conf)) in
  fill_array fill_u32 buf (it + 4) (sz + 4) (del_ul conf).

Definition fill_slice_ctrl_msg (buf : bytes) (it : Z) (msg : slice_ctrl_msg_t) : res (bytes * Z) :=
  let* buf := put 4 buf it (ctrl_msg_type msg) in
  let it := it + 4 in
  let sz := 4 in
  let* (buf, n) :=
    match msg with
    | ctrl_add_mod_slice c => fill_slice_conf buf it c
    | ctrl_del_slice d => fill_del_slice_conf buf it d
    | ctrl_ue_slice u => fill_ue_slice_conf buf it u
    | ctrl_other _ => Fail FExit
    end in
  Ok (buf, sz + n).

(** ** Messages *)

Section Enc.
Context (malloc : Z -> bytes).

Definition slice_enc_event_trigger_plain (event_trigger : slice_event_trigger_t) : res bytes :=
  put 4 (malloc 4) 0 (et_ms event_trigger).

Definition slice_enc_ind_hdr_plain (ind_hdr : slice_ind_hdr_t) : res bytes :=
  put 4 (replicate 4 0) 0 (ih_dummy ind_hdr).

Definition slice_enc_ctrl_hdr_plain (ctrl_hdr : slice_ctrl_hdr_t) : res bytes :=
  put 4 (replicate 4 0) 0 (ch_dummy ctrl_hdr).

Definition slice_enc_ind_msg_plain (ind_msg : slice_ind_msg_t) : res bytes :=
  let* sz := cal_ind_msg_payload ind_msg in
  let buf := malloc sz in
  let it := 0 in
  let* (buf, pos1) := fill_slice_conf buf it (im_slice_conf ind_msg) in
  let it := it + pos1 in
  let* (buf, pos2) := fill_ue_slice_conf buf it (im_ue_slice_conf ind_msg) in
  let it := it + pos2 in
  let* buf := put 8 buf it (u64 (im_tstamp ind_msg)) in
  let it := it + 8 in
  let* _ := assert_ (it =? sz) in
  Ok buf.

Definition slice_enc_ctrl_msg_plain (ctrl_msg : slice_ctrl_msg_t) : res bytes :=
  let* sz := cal_ctrl_msg_payload ctrl_msg in
  let* (buf, pos) := fill_slice_ctrl_msg (malloc sz) 0 ctrl_msg in
  let* _ := assert_ (pos =? sz) in
  Ok buf.

(** The member [ans] is not written. *)
Definition slice_enc_ctrl_out_plain (ctrl : slice_ctrl_out_t) : res bytes :=
  let len := 4 + zlen (diagnostic ctrl) in
  let it := 0 in
  let* buf := put 4 (malloc len) it (zlen (diagnostic ctrl)) in
  let it := it + 4 in
  let* buf := buf_write buf it (diagnostic ctrl) in
  let it := it + zlen (diagnostic ctrl) in
  let* _ := assert_ (it =? len) in
  Ok buf.
End Enc.

(** [assert(0!=0 && "Not implemented")] is what these start with. *)
Definition slice_enc_action_def_plain : res bytes := Fail FExit.
Definition slice_enc_call_proc_id_plain : res bytes := Fail FExit.
Definition slice_enc_func_def_plain : res bytes := Fail FExit.

(** ** The writers write the layout *)

Ltac wr_start := apply fills_intro; intros buf it a Ha Hit Hroom.
Ltac wr_room := autorewrite with codec in *.
Ltac wr_assert := rewrite assert_room_app with (n := 1) by (done || room); cbn [rbind].

#[export] Instance fills_u32 : Fills lay_u32 is_u32 fill_u32.
Proof. wr_start. unfold fill_u32, lay_u32 in *. wr_room. wr. wr_done. Qed.

#[export] Instance fills_static : Fills lay_static wf_static fill_static.
Proof. wr_start. unfold fill_static, lay_static in *. wr_room. wr_assert. wr. wr. wr_done. Qed.

#[export] Instance fills_rate : Fills lay_rate wf_rate fill_rate.
Proof. wr_start. unfold fill_rate, lay_rate in *. wr_room. wr. wr. wr_done. Qed.

#[export] Instance fills_capacity : Fills lay_capacity wf_capacity fill_capacity.
Proof. wr_start. unfold fill_capacity, lay_capacity in *. wr_room. wr. wr_done. Qed.

#[export] Instance fills_nvs : Fills lay_nvs wf_nvs fill_nvs.
Proof.
  wr_start. unfold fill_nvs, lay_nvs in *. wr_room.
  destruct a; [wr; wr lay_rate; wr_done|wr; wr lay_capacity; wr_done|done].
Qed.

#[export] Instance fills_on_demand : Fills lay_on_demand wf_on_demand fill_on_demand.
Proof. wr_start. unfold fill_on_demand, lay_on_demand in *. wr_room. wr. wr. wr. wr_done. Qed.

#[export] Instance fills_scn19 : Fills lay_scn19 wf_scn19 fill_scn19.
Proof.
  wr_start. unfold fill_scn19, lay_scn19 in *. wr_room.
  destruct a; [wr; wr lay_rate; wr_done|wr; wr lay_static; wr_done|wr; wr lay_on_demand; wr_done|done].
Qed.

#[export] Instance fills_edf : Fills lay_edf wf_edf fill_edf.
Proof.
  wr_start. unfold fill_edf, lay_edf in *. wr_room. destruct Ha as (_ & _ & _ & _ & Ha).
  wr. wr. wr. wr. wr_array lay_u32. wr_done.
Qed.

#[export] Instance fills_params : Fills lay_params wf_params fill_params.
Proof.
  wr_start. unfold fill_params, lay_params in *. wr_room.
  destruct a; [wr; wr lay_static; wr_done|wr; wr lay_nvs; wr_done|wr; wr lay_scn19; wr_done|wr; wr lay_edf; wr_done|done].
Qed.

#[export] Instance fills_slice : Fills lay_slice wf_slice fill_slice.
Proof.
  wr_start. unfold fill_slice, lay_slice, lay_string in *. wr_room. destruct Ha as (_ & _ & _ & Ha).
  wr_assert. wr. wr. wr. wr. wr. wr lay_params. wr_done.
Qed.

#[export] Instance fills_ul_dl : Fills lay_ul_dl wf_ul_dl fill_ul_dl_slice_conf.
Proof.
  wr_start. unfold fill_ul_dl_slice_conf, lay_ul_dl, lay_string in *. wr_room. destruct Ha as (_ & _ & Ha).
  wr. wr. wr. wr_array lay_slice. wr_done.
Qed.

#[export] Instance fills_slice_conf : Fills lay_slice_conf wf_slice_conf fill_slice_conf.
Proof.
  wr_start. unfold fill_slice_conf, lay_slice_conf in *. wr_room. destruct Ha.
  wr lay_ul_dl. wr lay_ul_dl. wr_done.
Qed.

#[export] Instance fills_assoc : Fills lay_assoc wf_assoc fill_ue_slice_assoc.
Proof. wr_start. unfold fill_ue_slice_assoc, lay_assoc in *. wr_room. wr_assert. wr. wr. wr. wr_done. Qed.

#[export] Instance fills_ue_conf : Fills lay_ue_conf wf_ue_conf fill_ue_slice_conf.
Proof.
  wr_start. unfold fill_ue_slice_conf, lay_ue_conf in *. wr_room. destruct Ha. wr. wr_array lay_assoc. wr_done.
Qed.

#[export] Instance fills_del : Fills lay_del wf_del fill_del_slice_conf.
Proof.
  wr_start. unfold fill_del_slice_conf, lay_del in *. wr_room. destruct Ha as (_ & ? & _ & ?).
  wr. wr_array lay_u32. wr. wr_array lay_u32. wr_done.
Qed.

#[export] Instance fills_ctrl_msg : Fills lay_ctrl_msg wf_ctrl_msg fill_slice_ctrl_msg.
Proof.
  wr_start. unfold fill_slice_ctrl_msg, lay_ctrl_msg in *. wr_room.
  destruct a; [wr; wr lay_slice_conf; wr_done|wr; wr lay_del; wr_done|wr; wr lay_ue_conf; wr_done|done].
Qed.

(** ** The computed sizes are the sizes of the layouts *)

Lemma zlen_lay_u32_array l : zlen (lay_array lay_u32 l) = 4 * zlen l.
Proof. apply zlen_lay_array_const. intros. apply zlen_le. Qed.

Lemma zlen_lay_assoc_array l : zlen (lay_array lay_assoc l) = 10 * zlen l.
Proof. apply zlen_lay_array_const. intros a. unfold lay_assoc. autorewrite with codec. lia. Qed.

Ltac cal_done := f_equal; autorewrite with codec; rewrite ?zlen_lay_u32_array, ?zlen_lay_assoc_array; lia.

Lemma cal_nvs_ok n : wf_nvs n -> cal_nvs n = Ok (zlen (lay_nvs n)).
Proof. destruct n; [intros _..|done]; unfold lay_nvs, lay_rate, lay_capacity; simpl; cal_done. Qed.

Lemma cal_scn19_ok s : wf_scn19 s -> cal_scn19 s = Ok (zlen (lay_scn19 s)).
Proof.
  destruct s; [intros _..|done]; unfold lay_scn19, lay_rate, lay_static, lay_on_demand; simpl; cal_done.
Qed.

Lemma cal_edf_ok e : cal_edf e = Ok (zlen (lay_edf e)).
Proof. unfold cal_edf, lay_edf. rewrite (fold_left_size (fun _ => 4) 4) by done. cal_done. Qed.

Lemma cal_params_ok p : wf_params p -> cal_params p = Ok (zlen (lay_params p)).
Proof.
  unfold cal_params, lay_params. destruct p; intros Hp.
  - unfold cal_static, lay_static. cbn [rbind]. cal_done.
  - rewrite cal_nvs_ok by done. cbn [rbind]. cal_done.
  - rewrite cal_scn19_ok by done. cbn [rbind]. cal_done.
  - rewrite cal_edf_ok. cbn [rbind]. cal_done.
  - done.
Qed.

Lemma cal_slc_ok l total : Forall wf_slice l -> cal_slc total l = Ok (total + zlen (lay_array lay_slice l)).
Proof.
  intros Hl. revert total. induction Hl as [|s l (_ & _ & _ & Hs) Hl IH]; intros total; simpl; [cal_done|].
  rewrite cal_params_ok by done. cbn [rbind]. rewrite IH.
  change (lay_array lay_slice (s :: l)) with (lay_slice s ++ lay_array lay_slice l).
  unfold lay_slice, lay_string. cal_done.
Qed.

Lemma cal_ul_dl_ok c : wf_ul_dl c -> cal_ul_dl c = Ok (zlen (lay_ul_dl c)).
Proof.
  intros (_ & _ & Hc). unfold cal_ul_dl, lay_ul_dl, lay_string. rewrite cal_slc_ok by done. cbn [rbind]. cal_done.
Qed.

Lemma cal_slice_conf_ok c : wf_slice_conf c -> cal_slice_conf c = Ok (zlen (lay_slice_conf c)).
Proof.
  intros [Hd Hu]. unfold cal_slice_conf, lay_slice_conf. rewrite !cal_ul_dl_ok by done. cbn [rbind]. cal_done.
Qed.

Lemma cal_ue_slice_conf_ok c : cal_ue_slice_conf c = zlen (lay_ue_conf c).
Proof.
  unfold cal_ue_slice_conf, lay_ue_conf. rewrite (fold_left_size cal_ue_slice_assoc 10) by done.
  autorewrite with codec. rewrite zlen_lay_assoc_array. lia.
Qed.

Lemma cal_ind_msg_ok m : wf_ind_msg m -> cal_ind_msg_payload m = Ok (zlen (lay_ind_msg m)).
Proof.
  intros (Hc & _ & _). unfold cal_ind_msg_payload, lay_ind_msg. rewrite cal_slice_conf_ok by done.
  cbn [rbind]. rewrite cal_ue_slice_conf_ok. cal_done.
Qed.

Lemma cal_ctrl_msg_ok m : wf_ctrl_msg m -> cal_ctrl_msg_payload m = Ok (zlen (lay_ctrl_msg m)).
Proof.
  unfold cal_ctrl_msg_payload, lay_ctrl_msg. destruct m; intros Hm.
  - rewrite cal_slice_conf_ok by done. cbn [rbind]. cal_done.
  - unfold cal_del_slice, lay_del. cbn [rbind]. cal_done.
  - rewrite cal_ue_slice_conf_ok. cbn [rbind]. cal_done.
  - done.
Qed.

(** ** The encoders return the layout *)

Section EncOk.
Context (malloc : Z -> bytes).
Hypothesis malloc_len : forall n, 0 <= n -> zlen (malloc n) = n.

(** A whole buffer written by one writer. *)
Lemma fills_whole {A} (lay : A -> bytes) wf fill `{!Fills lay wf fill} a :
  wf a -> fill (malloc (zlen (lay a))) 0 a = Ok (lay a, zlen (lay a)).
Proof.
  intros Ha. pose proof (zlen_nonneg (lay a)). rewrite fills by (rewrite ?malloc_len; done || lia).
  by rewrite splice_all by (rewrite malloc_len; lia).
Qed.

Definition fill_ind_msg (buf : bytes) (it : Z) (m : slice_ind_msg_t) : res (bytes * Z) :=
  let* (buf, pos1) := fill_slice_conf buf it (im_slice_conf m) in
  let* (buf, pos2) := fill_ue_slice_conf buf (it + pos1) (im_ue_slice_conf m) in
  let* buf := put 8 buf (it + pos1 + pos2) (u64 (im_tstamp m)) in
  Ok (buf, pos1 + pos2 + 8).

Lemma fills_ind_msg : Fills lay_ind_msg wf_ind_msg fill_ind_msg.
Proof.
  wr_start. unfold fill_ind_msg, lay_ind_msg in *. wr_room. destruct Ha as (? & ? & _).
  wr lay_slice_conf. wr lay_ue_conf. wr. wr_done.
Qed.

Lemma enc_ind_msg_ok m : wf_ind_msg m -> slice_enc_ind_msg_plain malloc m = Ok (lay_ind_msg m).
Proof.
  intros Hm. unfold slice_enc_ind_msg_plain. rewrite cal_ind_msg_ok by done. cbn [rbind].
  pose proof (@fills_whole _ _ _ _ fills_ind_msg m Hm) as Hf. unfold fill_ind_msg in Hf.
  apply rbind_ok in Hf as ([b1 p1] & -> & Hf). apply rbind_ok in Hf as ([b2 p2] & H2 & Hf).
  cbn [rbind]. rewrite H2. cbn [rbind]. apply rbind_ok in Hf as (b3 & H3 & [= -> Hz]).
  rewrite H3. cbn [rbind]. rewrite Z.add_0_l, Hz, Z.eqb_refl. done.
Qed.

Lemma enc_ctrl_msg_ok m : wf_ctrl_msg m -> slice_enc_ctrl_msg_plain malloc m = Ok (lay_ctrl_msg m).
Proof.
  intros Hm. unfold slice_enc_ctrl_msg_plain. rewrite cal_ctrl_msg_ok by done. cbn [rbind].
  rewrite (fills_whole lay_ctrl_msg wf_ctrl_msg _) by done. cbn [rbind]. by rewrite Z.eqb_refl.
Qed.

Lemma enc_ctrl_out_ok c : slice_enc_ctrl_out_plain malloc c = Ok (lay_string (diagnostic c)).
Proof.
  unfold slice_enc_ctrl_out_plain, lay_string. cbv zeta. set (d := diagnostic c).
  pose proof (zlen_nonneg d). rewrite <- (splice_nil (malloc (4 + zlen d)) 0) by done.
  assert (zlen (malloc (4 + zlen d)) = 4 + zlen d) as Hz by (apply malloc_len; lia).
  wr. wr. rewrite Z.add_0_l, Z.eqb_refl. cbn [rbind assert_]. f_equal.
  rewrite app_nil_l. apply splice_all. autorewrite with codec. lia.
Qed.

Lemma enc_u32_ok v buf : zlen buf = 4 -> put 4 buf 0 v = Ok (le 4 v).
Proof. intros Hb. rewrite put_ok by lia. f_equal. apply splice_all. by rewrite zlen_le. Qed.
End EncOk.
