(* ===== verification/SliceDec.v ===== *)
(** The plain decoder of the slice service model
    (flexric/src/sm/slice_sm/dec/slice_dec_plain.c), and the round trips with
    the encoder of SliceEnc.

    A reader never looks at the end of the message: a field outside of the
    array is a read out of bounds ([FBounds]); only the last line of the
    message decoders compares the cursor with [len]. *)

From S2P Require Import Prelude SmCodec SliceData SliceEnc.

(** ** Readers *)

Definition fill_static (buf : bytes) (it : Z) : res (static_slice_t * Z) :=
  let* high := get 4 buf it in
  let* low := get 4 buf (it + 4) in
  Ok ({| pos_low := low; pos_high := high |}, 4 + 4).

Definition fill_rate (buf : bytes) (it : Z) : res (nvs_rate_t * Z) :=
  let* reference := get 4 buf it in
  let* required := get 4 buf (it + 4) in
  Ok ({| mbps_required := required; mbps_reference := reference |}, 4 + 4).

Definition fill_capacity (buf : bytes) (it : Z) : res (nvs_capacity_t * Z) :=
  let* pct := get 4 buf it in
  Ok ({| nvs_pct_reserved := pct |}, 4).

Definition fill_nvs (buf : bytes) (it : Z) : res (nvs_slice_t * Z) :=
  let* conf := get 4 buf it in
  let it := it + 4 in
  let sz := 4 in
  if conf =? SLICE_SM_NVS_V0_RATE then let* (r, n) := fill_rate buf it in Ok (nvs_rate r, sz + n)
  else if conf =? SLICE_SM_NVS_V0_CAPACITY then let* (c, n) := fill_capacity buf it in Ok (nvs_capacity c, sz + n)
  else Fail FExit.

Definition fill_on_demand (buf : bytes) (it : Z) : res (scn19_on_demand_t * Z) :=
  let* delta := get 4 buf it in
  let* pct := get 4 buf (it + 4) in
  let* t := get 4 buf (it + 4 + 4) in
  Ok ({| pct_reserved := pct; log_delta := delta; tau := t |}, 4 + 4 + 4).

Definition fill_scn19 (buf : bytes) (it : Z) : res (scn19_slice_t * Z) :=
  let* conf := get 4 buf it in
  let it := it + 4 in
  let sz := 4 in
  if conf =? SLICE_SCN19_SM_V0_DYNAMIC then let* (r, n) := fill_rate buf it in Ok (scn19_dynamic r, sz + n)
  else if conf =? SLICE_SCN19_SM_V0_FIXED then let* (s, n) := fill_static buf it in Ok (scn19_fixed s, sz + n)
  else if conf =? SLICE_SCN19_SM_V0_ON_DEMAND then let* (o, n) := fill_on_demand buf it in Ok (scn19_on_demand o, sz + n)
  else Fail FExit.

(** [memcpy] of one [uint32_t] of an array. *)
Definition read_u32 (buf : bytes) (it : Z) : res (Z * Z) :=
  let* v := get 4 buf it in Ok (v, 4).

Definition fill_edf (buf : bytes) (it : Z) : res (edf_slice_t * Z) :=
  let* dl := get 4 buf it in
  let* prbs := get 4 buf (it + 4) in
  let* repl := get 4 buf (it + 4 + 4) in
  let* len_over := get 4 buf (it + 4 + 4 + 4) in
  let* (ov, sz) := read_array read_u32 buf (it + 4 + 4 + 4 + 4) (4 + 4 + 4 + 4) (Z.to_nat len_over) in
  Ok ({| deadline := dl; guaranteed_prbs := prbs; max_replenish := repl; over := ov |}, sz).

Definition fill_params (buf : bytes) (it : Z) : res (slice_params_t * Z) :=
  let* type := get 4 buf it in
  let it := it + 4 in
  let sz := 4 in
  if type =? SLICE_ALG_SM_V0_STATIC then let* (s, n) := fill_static buf it in Ok (params_sta s, sz + n)
  else if type =? SLICE_ALG_SM_V0_NVS then let* (v, n) := fill_nvs buf it in Ok (params_nvs v, sz + n)
  else if type =? SLICE_ALG_SM_V0_SCN19 then let* (s, n) := fill_scn19 buf it in Ok (params_scn19 s, sz + n)
  else if type =? SLICE_ALG_SM_V0_EDF then let* (e, n) := fill_edf buf it in Ok (params_edf e, sz + n)
  else Fail FExit.

Definition fill_slice (buf : bytes) (it : Z) : res (fr_slice_t * Z) :=
  let* id := get 4 buf it in
  let it := it + 4 in
  let* len_label := get 4 buf it in
  let it := it + 4 in
  let* label := get_string buf it len_label in
  let it := it + len_label in
  let* len_sched := get 4 buf it in
  let it := it + 4 in
  let* sched := get_string buf it len_sched in
  let it := it + len_sched in
  let* (par, n) := fill_params buf it in
  Ok ({| slc_id := id; slc_label := label; slc_sched := sched; slc_params := par |},
      4 + 4 + len_label + 4 + len_sched + n).

Definition fill_ul_dl_slice_conf (buf : bytes) (it : Z) : res (ul_dl_slice_conf_t * Z) :=
  let* len_sched_name := get 4 buf it in
  let it := it + 4 in
  let* name := get_string buf it len_sched_name in
  let it := it + len_sched_name in
  let* len_slices := get 4 buf it in
  let it := it + 4 in
  let* (l, sz) := read_array fill_slice buf it (4 + len_sched_name + 4) (Z.to_nat len_slices) in
  Ok ({| slices := l; sched_name := name |}, sz).

Definition fill_slice_conf (buf : bytes) (it : Z) : res (slice_conf_t * Z) :=
  let* (dl, sz) := fill_ul_dl_slice_conf buf it in
  let it := it + sz in
  let* (ul, n) := fill_ul_dl_slice_conf buf it in
  Ok ({| conf_dl := dl; conf_ul := ul |}, sz + n).

Definition fill_ue_slice_assoc (buf : bytes) (it : Z) : res (ue_slice_assoc_t * Z) :=
  let* dl := get 4 buf it in
  let* ul := get 4 buf (it + 4) in
  let* r := get 2 buf (it + 4 + 4) in
  Ok ({| dl_id := dl; ul_id := ul; rnti := r |}, 4 + 4 + 2).

Definition fill_ue_slice_conf (buf : bytes) (it : Z) : res (ue_slice_conf_t * Z) :=
  let* len_ue_slice := get 4 buf it in
  let* (l, sz) := read_array fill_ue_slice_assoc buf (it + 4) 4 (Z.to_nat len_ue_slice) in
  Ok ({| ues := l |}, sz).

Definition fill_del_slice (buf : bytes) (it : Z) : res (del_slice_conf_t * Z) :=
  let* len_dl := get 4 buf it in
  let it := it + 4 in
  let* (dl, sz) := read_array read_u32 buf it 4 (Z.to_nat len_dl) in
  let it := it + (sz - 4) in
  let* len_ul := get 4 buf it in
  let it := it + 4 in
  let* (ul, sz) := read_array read_u32 buf it (sz + 4) (Z.to_nat len_ul) in
  Ok ({| del_dl := dl; del_ul := ul |}, sz).

(** ** Messages: the array of [len] bytes is the argument *)

Definition slice_dec_event_trigger_plain (ev_tr : bytes) : res slice_event_trigger_t :=
  let* ms := get 4 ev_tr 0 in Ok {| et_ms := ms |}.

Definition slice_dec_ind_hdr_plain (ind_hdr : bytes) : res slice_ind_hdr_t :=
  let* _ := assert_ (zlen ind_hdr =? 4) in
  let* d := get 4 ind_hdr 0 in Ok {| ih_dummy := d |}.

Definition slice_dec_ctrl_hdr_plain (ctrl_hdr : bytes) : res slice_ctrl_hdr_t :=
  let* _ := assert_ (zlen ctrl_hdr =? 4) in
  let* d := get 4 ctrl_hdr 0 in Ok {| ch_dummy := d |}.

Definition slice_dec_ind_msg_plain (ind_msg : bytes) : res slice_ind_msg_t :=
  let it := 0 in
  let* (conf, sz) := fill_slice_conf ind_msg it in
  let it := it + sz in
  let* (ue, sz) := fill_ue_slice_conf ind_msg it in
  let it := it + sz in
  let* t := get 8 ind_msg it in
  let it := it + 8 in
  let* _ := assert_ (zlen ind_msg =? it) in
  Ok {| im_slice_conf := conf; im_ue_slice_conf := ue; im_tstamp := s64 t |}.

Definition slice_dec_ctrl_msg_plain (ctrl_msg : bytes) : res slice_ctrl_msg_t :=
  let* type := get 4 ctrl_msg 0 in
  let it := 4 in
  let sz := 4 in
  let* (ctrl, sz) :=
    if type =? SLICE_CTRL_SM_V0_ADD then
      let* (c, n) := fill_slice_conf ctrl_msg it in Ok (ctrl_add_mod_slice c, sz + n)
    else if type =? SLICE_CTRL_SM_V0_DEL then
      let* (d, n) := fill_del_slice ctrl_msg it in Ok (ctrl_del_slice d, sz + n)
    else if type =? SLICE_CTRL_SM_V0_UE_SLICE_ASSOC then
      let* (u, n) := fill_ue_slice_conf ctrl_msg it in Ok (ctrl_ue_slice u, sz + n)
    else Fail FExit in
  let* _ := assert_ (sz =? zlen ctrl_msg) in
  Ok ctrl.

(** [ans] stays what [{0}] made it: the first member of the enum. *)
Definition slice_dec_ctrl_out_plain (ctrl_out : bytes) : res slice_ctrl_out_t :=
  let* len_diag := get 4 ctrl_out 0 in
  let* diag := get_bytes ctrl_out 4 len_diag in
  Ok {| ans := SLICE_CTRL_OUT_OK; diagnostic := diag |}.

(** [assert(0!=0 && "Not implemented")] is what these start with. *)
Definition slice_dec_action_def_plain (action_def : bytes) : res unit := Fail FExit.
Definition slice_dec_call_proc_id_plain (call_proc_id : bytes) : res unit := Fail FExit.
Definition slice_dec_func_def_plain (func_def : bytes) : res unit := Fail FExit.

(** ** The readers read the layout, and overrun a truncated one *)

Lemma fits_u32 v : is_u32 v -> fits 4 v.
Proof. done. Qed.

Lemma fits_len {A} (l : list A) : len_ok l -> fits 4 (zlen l).
Proof. pose proof (zlen_nonneg l). unfold len_ok, fits. simpl Z.of_nat. lia. Qed.

Lemma fits_str (l : bytes) : str_ok l -> fits 4 (zlen l).
Proof. intros. apply fits_len. unfold str_ok, len_ok in *. lia. Qed.

#[local] Hint Resolve fits_u32 fits_len fits_str : core.

Lemma length_zlen {A} (l : list A) : Z.to_nat (zlen l) = length l.
Proof. unfold zlen. lia. Qed.

#[export] Instance reads_u32 : Reads lay_u32 is_u32 read_u32.
Proof. intros buf it a Ha Hat. unfold read_u32, lay_u32 in *. rd_field Hat. done. Qed.

#[export] Instance overruns_u32 : Overruns lay_u32 is_u32 read_u32.
Proof. intros buf it a Ha H. unfold read_u32, lay_u32 in *. cut_field H. Qed.

#[export] Instance reads_static : Reads lay_static wf_static fill_static.
Proof.
  intros buf it a [Hl Hh] Hat. unfold fill_static, lay_static in *. rd Hat. rd_field Hat. destruct a; rd_done.
Qed.

#[export] Instance overruns_static : Overruns lay_static wf_static fill_static.
Proof.
  intros buf it a [Hl Hh] H. unfold fill_static, lay_static in *. ov H. cut_field H.
Qed.

#[export] Instance reads_rate : Reads lay_rate wf_rate fill_rate.
Proof.
  intros buf it a [Hl Hh] Hat. unfold fill_rate, lay_rate in *. rd Hat. rd_field Hat. destruct a; rd_done.
Qed.

#[export] Instance overruns_rate : Overruns lay_rate wf_rate fill_rate.
Proof. intros buf it a [Hl Hh] H. unfold fill_rate, lay_rate in *. ov H. cut_field H. Qed.

#[export] Instance reads_capacity : Reads lay_capacity wf_capacity fill_capacity.
Proof. intros buf it a Ha Hat. unfold fill_capacity, lay_capacity, wf_capacity in *. rd_field Hat. by destruct a. Qed.

#[export] Instance overruns_capacity : Overruns lay_capacity wf_capacity fill_capacity.
Proof. intros buf it a Ha H. unfold fill_capacity, lay_capacity in *. cut_field H. Qed.

(** The type that precedes a union: a constant of the enum. *)
Ltac rd_tag H := let Hn := fresh in
  apply at_pos_app in H; destruct H as [Hn H];
  rewrite (get_fits _ _ _ _ Hn) by (unfold fits; vm_compute; by auto); cbn [rbind]; clear Hn;
  rewrite ?zlen_le4 in H.
Ltac ov_tag H := let Hn := fresh in
  apply cut_pos_app in H; destruct H as [H|[Hn H]]; [cut_field H|];
  rewrite (get_fits _ _ _ _ Hn) by (unfold fits; vm_compute; by auto); cbn [rbind]; clear Hn;
  rewrite ?zlen_le4 in H.
Ltac rd_union H := rd_field H; apply ok_pair_eq; [done|room].

#[export] Instance reads_nvs : Reads lay_nvs wf_nvs fill_nvs.
Proof.
  intros buf it [r|c|o] Ha Hat; [..|done]; unfold fill_nvs, lay_nvs, wf_nvs in *; cbn [nvs_conf] in *;
    rd_tag Hat; rd_union Hat.
Qed.

#[export] Instance overruns_nvs : Overruns lay_nvs wf_nvs fill_nvs.
Proof.
  intros buf it [r|c|o] Ha H; [..|done]; unfold fill_nvs, lay_nvs, wf_nvs in *; cbn [nvs_conf] in *;
    ov_tag H; cut_field H.
Qed.

#[export] Instance reads_on_demand : Reads lay_on_demand wf_on_demand fill_on_demand.
Proof.
  intros buf it a (? & ? & ?) Hat. unfold fill_on_demand, lay_on_demand in *. rd Hat. rd Hat. rd_field Hat.
  destruct a; rd_done.
Qed.

#[export] Instance overruns_on_demand : Overruns lay_on_demand wf_on_demand fill_on_demand.
Proof. intros buf it a (? & ? & ?) Hcut. unfold fill_on_demand, lay_on_demand in *. ov Hcut. ov Hcut. cut_field Hcut. Qed.

#[export] Instance reads_scn19 : Reads lay_scn19 wf_scn19 fill_scn19.
Proof.
  intros buf it [r|s|o|t] Ha Hat; [..|done]; unfold fill_scn19, lay_scn19, wf_scn19 in *; cbn [scn19_conf] in *;
    rd_tag Hat; rd_union Hat.
Qed.

#[export] Instance overruns_scn19 : Overruns lay_scn19 wf_scn19 fill_scn19.
Proof.
  intros buf it [r|s|o|t] Ha Hcut; [..|done]; unfold fill_scn19, lay_scn19, wf_scn19 in *; cbn [scn19_conf] in *;
    ov_tag Hcut; cut_field Hcut.
Qed.

#[export] Instance reads_edf : Reads lay_edf wf_edf fill_edf.
Proof.
  intros buf it a (? & ? & ? & ? & ?) Hat. unfold fill_edf, lay_edf in *.
  rd Hat. rd Hat. rd Hat. rd Hat. rewrite length_zlen. rd_field Hat. destruct a; rd_done.
Qed.

#[export] Instance overruns_edf : Overruns lay_edf wf_edf fill_edf.
Proof.
  intros buf it a (? & ? & ? & ? & ?) Hcut. unfold fill_edf, lay_edf in *.
  ov Hcut. ov Hcut. ov Hcut. ov Hcut. rewrite length_zlen. cut_field Hcut.
Qed.

#[export] Instance reads_params : Reads lay_params wf_params fill_params.
Proof.
  intros buf it [s|n|s|e|t] Ha Hat; [..|done]; unfold fill_params, lay_params, wf_params in *; cbn [params_type] in *;
    rd_tag Hat; rd_union Hat.
Qed.

#[export] Instance overruns_params : Overruns lay_params wf_params fill_params.
Proof.
  intros buf it [s|n|s|e|t] Ha Hcut; [..|done]; unfold fill_params, lay_params, wf_params in *; cbn [params_type] in *;
    ov_tag Hcut; cut_field Hcut.
Qed.

#[export] Instance reads_slice : Reads lay_slice wf_slice fill_slice.
Proof.
  intros buf it a (? & ? & ? & ?) Hat. unfold fill_slice, lay_slice, lay_string in *. rewrite <- !app_assoc in Hat.
  rd Hat. rd Hat. rd Hat. rd Hat. rd Hat. rd_field Hat. destruct a; rd_done.
Qed.

#[export] Instance overruns_slice : Overruns lay_slice wf_slice fill_slice.
Proof.
  intros buf it a (? & ? & ? & ?) Hcut. unfold fill_slice, lay_slice, lay_string in *. rewrite <- !app_assoc in Hcut.
  ov Hcut. ov Hcut. ov Hcut. ov Hcut. ov Hcut. cut_field Hcut.
Qed.

#[export] Instance reads_ul_dl : Reads lay_ul_dl wf_ul_dl fill_ul_dl_slice_conf.
Proof.
  intros buf it a (? & ? & ?) Hat. unfold fill_ul_dl_slice_conf, lay_ul_dl, lay_string in *. rewrite <- !app_assoc in Hat.
  rd Hat. rd Hat. rd Hat. rewrite length_zlen. rd_field Hat. destruct a; rd_done.
Qed.

#[export] Instance overruns_ul_dl : Overruns lay_ul_dl wf_ul_dl fill_ul_dl_slice_conf.
Proof.
  intros buf it a (? & ? & ?) Hcut. unfold fill_ul_dl_slice_conf, lay_ul_dl, lay_string in *. rewrite <- !app_assoc in Hcut.
  ov Hcut. ov Hcut. ov Hcut. rewrite length_zlen. cut_field Hcut.
Qed.

#[export] Instance reads_slice_conf : Reads lay_slice_conf wf_slice_conf fill_slice_conf.
Proof.
  intros buf it a [? ?] Hat. unfold fill_slice_conf, lay_slice_conf in *. rd Hat. rd_field Hat. destruct a; rd_done.
Qed.

#[export] Instance overruns_slice_conf : Overruns lay_slice_conf wf_slice_conf fill_slice_conf.
Proof. intros buf it a [? ?] Hcut. unfold fill_slice_conf, lay_slice_conf in *. ov Hcut. cut_field Hcut. Qed.

#[export] Instance reads_assoc : Reads lay_assoc wf_assoc fill_ue_slice_assoc.
Proof.
  intros buf it a (? & ? & Hr) Hat. unfold fill_ue_slice_assoc, lay_assoc in *.
  change (fits 2 (rnti a)) in Hr. rd Hat. rd Hat. rd_field Hat. destruct a; rd_done.
Qed.

#[export] Instance overruns_assoc : Overruns lay_assoc wf_assoc fill_ue_slice_assoc.
Proof. intros buf it a (? & ? & Hr) Hcut. unfold fill_ue_slice_assoc, lay_assoc in *. ov Hcut. ov Hcut. cut_field Hcut. Qed.

#[export] Instance reads_ue_conf : Reads lay_ue_conf wf_ue_conf fill_ue_slice_conf.
Proof.
  intros buf it a [? ?] Hat. unfold fill_ue_slice_conf, lay_ue_conf in *. rd Hat. rewrite length_zlen. rd_field Hat.
  destruct a; rd_done.
Qed.

#[export] Instance overruns_ue_conf : Overruns lay_ue_conf wf_ue_conf fill_ue_slice_conf.
Proof.
  intros buf it a [? ?] Hcut. unfold fill_ue_slice_conf, lay_ue_conf in *. ov Hcut. rewrite length_zlen. cut_field Hcut.
Qed.

#[export] Instance reads_del : Reads lay_del wf_del fill_del_slice.
Proof.
  intros buf it a (? & ? & ? & ?) Hat. unfold fill_del_slice, lay_del in *. rewrite <- !app_assoc in Hat.
  rd Hat. rewrite length_zlen. rd Hat. replace (4 + _ - 4) with (zlen (lay_array lay_u32 (del_dl a))) by lia.
  rd Hat. rewrite length_zlen. rd_field Hat. destruct a; rd_done.
Qed.

#[export] Instance overruns_del : Overruns lay_del wf_del fill_del_slice.
Proof.
  intros buf it a (? & ? & ? & ?) Hcut. unfold fill_del_slice, lay_del in *. rewrite <- !app_assoc in Hcut.
  ov Hcut. rewrite length_zlen. ov Hcut. replace (4 + _ - 4) with (zlen (lay_array lay_u32 (del_dl a))) by lia.
  ov Hcut. rewrite length_zlen. cut_field Hcut.
Qed.

(** ** Whole messages *)

Lemma dec_ind_msg_ok m post :
  wf_ind_msg m ->
  slice_dec_ind_msg_plain (lay_ind_msg m ++ post)
  = if bool_decide (post = []) then Ok m else Fail FExit.
Proof.
  intros (? & ? & Ht). unfold slice_dec_ind_msg_plain. cbv zeta.
  set (buf := lay_ind_msg m ++ post). pose proof (at_pos_start (lay_ind_msg m) post) as Hat. fold buf in Hat.
  assert (Hlen : zlen buf = zlen (lay_ind_msg m) + zlen post) by apply zlen_app. clearbody buf.
  assert (fits 8 (u64 (im_tstamp m))) as Hfit by apply (wrap_range 64 (im_tstamp m) ltac:(lia)).
  unfold lay_ind_msg in Hat, Hlen. rd Hat. rd Hat. rd_field Hat.
  autorewrite with codec in Hlen. rewrite Hlen. unfold assert_. case_bool_; cbn [rbind].
  - rewrite bool_decide_true by (apply zlen_0_nil; unfold zlen in *; lia). unfold wrap.
    rewrite s64_u64 by done. by destruct m.
  - rewrite bool_decide_false; [done|]. intros ->. rewrite zlen_nil in *. unfold zlen in *. lia.
Qed.

Lemma take_cut_pos n (d : bytes) : (n < length d)%nat -> cut_pos (take n d) 0 d.
Proof.
  intros. split; [unfold zlen; lia|]. exists (drop n d). split.
  - intros Hd. apply (f_equal length) in Hd. rewrite length_drop in Hd. simpl in Hd. lia.
  - change (drop (Z.to_nat 0) (take n d)) with (take n d). by rewrite take_drop.
Qed.

Lemma dec_ind_msg_cut m n :
  wf_ind_msg m -> (n < length (lay_ind_msg m))%nat ->
  slice_dec_ind_msg_plain (take n (lay_ind_msg m)) = Fail FBounds.
Proof.
  intros (? & ? & Ht) Hcut%take_cut_pos. unfold slice_dec_ind_msg_plain. cbv zeta.
  set (buf := take n (lay_ind_msg m)) in *. clearbody buf.
  unfold lay_ind_msg in Hcut. ov Hcut. ov Hcut. by rewrite (get_cut _ _ _ _ Hcut).
Qed.

Lemma dec_ctrl_msg_ok m post :
  wf_ctrl_msg m ->
  slice_dec_ctrl_msg_plain (lay_ctrl_msg m ++ post)
  = if bool_decide (post = []) then Ok m else Fail FExit.
Proof.
  intros Hm. unfold slice_dec_ctrl_msg_plain. cbv zeta.
  set (buf := lay_ctrl_msg m ++ post). pose proof (at_pos_start (lay_ctrl_msg m) post) as Hat. fold buf in Hat.
  assert (Hlen : zlen buf = zlen (lay_ctrl_msg m) + zlen post) by apply zlen_app. clearbody buf.
  unfold lay_ctrl_msg, wf_ctrl_msg in *.
  assert (Hend : forall sz : Z, sz = zlen buf - zlen post ->
    (let* _ := assert_ (sz =? zlen buf) in Ok m) = if bool_decide (post = []) then Ok m else Fail FExit).
  { intros sz Hsz. unfold assert_. case_bool_; cbn [rbind].
    - rewrite bool_decide_true; [done|]. apply zlen_0_nil. lia.
    - rewrite bool_decide_false; [done|]. intros ->. rewrite zlen_nil in *. lia. }
  destruct m as [c|d|u|t]; [..|done]; cbn [ctrl_msg_type] in *; autorewrite with codec in Hlen;
    rd_tag Hat; rd_field Hat; apply Hend; lia.
Qed.

Lemma dec_ctrl_msg_cut m n :
  wf_ctrl_msg m -> (n < length (lay_ctrl_msg m))%nat ->
  slice_dec_ctrl_msg_plain (take n (lay_ctrl_msg m)) = Fail FBounds.
Proof.
  intros Hm Hcut%take_cut_pos. unfold slice_dec_ctrl_msg_plain. cbv zeta.
  set (buf := take n (lay_ctrl_msg m)) in *. clearbody buf. unfold lay_ctrl_msg, wf_ctrl_msg in *.
  destruct m as [c|d|u|t]; [..|done]; cbn [ctrl_msg_type] in *; ov_tag Hcut; cut_field Hcut.
Qed.

Lemma dec_ctrl_out_ok d post :
  len_ok d -> slice_dec_ctrl_out_plain (lay_string d ++ post) = Ok {| ans := SLICE_CTRL_OUT_OK; diagnostic := d |}.
Proof.
  intros Hd. unfold slice_dec_ctrl_out_plain. pose proof (at_pos_start (lay_string d) post) as Hat.
  set (buf := lay_string d ++ post) in *. clearbody buf. unfold lay_string in Hat.
  rd Hat. rewrite Z.add_0_l in Hat. rewrite (get_bytes_at _ _ _ Hat). done.
Qed.

(** ** Properties *)

Section Properties.
(** [malloc(n)] of the C library: [n] bytes of any content. *)
Context (malloc : Z -> bytes).
Hypothesis malloc_len : forall n, 0 <= n -> zlen (malloc n) = n.

(** C27. An indication message of the slice model, with any number of slices of
    any kind, labels and names shorter than 2^32 - 1 bytes and any content of the
    allocated memory, is encoded without a write outside of the buffer that [cal_ind_msg_payload]
    sized, passes the final layout assertion, and decodes to the same message;
    with anything after it the decoder stops at its length check. *)
Theorem slice_ind_msg_roundtrip m post :
  wf_ind_msg m ->
  exists ba, slice_enc_ind_msg_plain malloc m = Ok ba /\ cal_ind_msg_payload m = Ok (zlen ba) /\
    slice_dec_ind_msg_plain ba = Ok m /\
    (post <> [] -> slice_dec_ind_msg_plain (ba ++ post) = Fail FExit).
Proof.
  intros Hm. exists (lay_ind_msg m). split_and!.
  - by apply enc_ind_msg_ok.
  - by apply cal_ind_msg_ok.
  - pose proof (dec_ind_msg_ok m [] Hm) as H. by rewrite app_nil_r in H.
  - intros Hp. rewrite dec_ind_msg_ok by done. by rewrite bool_decide_false.
Qed.

(** A control message of the slice model, to add or change slices, to delete
    slices or to associate UEs with slices, is encoded without a write outside
    of the buffer that [cal_ctrl_msg_payload] sized, passes the final layout
    assertion, and decodes to the same message; with anything after it the
    decoder stops at its length check. *)
Theorem slice_ctrl_msg_roundtrip m post :
  wf_ctrl_msg m ->
  exists ba, slice_enc_ctrl_msg_plain malloc m = Ok ba /\ cal_ctrl_msg_payload m = Ok (zlen ba) /\
    slice_dec_ctrl_msg_plain ba = Ok m /\
    (post <> [] -> slice_dec_ctrl_msg_plain (ba ++ post) = Fail FExit).
Proof.
  intros Hm. exists (lay_ctrl_msg m). split_and!.
  - by apply enc_ctrl_msg_ok.
  - by apply cal_ctrl_msg_ok.
  - pose proof (dec_ctrl_msg_ok m [] Hm) as H. by rewrite app_nil_r in H.
  - intros Hp. rewrite dec_ctrl_msg_ok by done. by rewrite bool_decide_false.
Qed.

(** The decoders check no bound before the end: whatever valid message is
    cut short, at whatever byte, decoding it reads past the received bytes. *)
Theorem slice_truncated_overrun m c n k :
  wf_ind_msg m -> wf_ctrl_msg c ->
  (forall ba, slice_enc_ind_msg_plain malloc m = Ok ba -> (n < length ba)%nat ->
     slice_dec_ind_msg_plain (take n ba) = Fail FBounds) /\
  (forall ba, slice_enc_ctrl_msg_plain malloc c = Ok ba -> (k < length ba)%nat ->
     slice_dec_ctrl_msg_plain (take k ba) = Fail FBounds).
Proof.
  intros Hm Hc. split; intros ba.
  - rewrite enc_ind_msg_ok by done. intros [= <-]. by apply dec_ind_msg_cut.
  - rewrite enc_ctrl_msg_ok by done. intros [= <-]. by apply dec_ctrl_msg_cut.
Qed.

(** A label or a scheduler name of 2^32 - 1 bytes is copied into an object of
    no bytes, since [len + 1] is 0 in a [uint32_t]; so is the name of a
    configuration. *)
Theorem slice_long_string_overrun buf it v :
  get 4 buf it = Ok v ->
  (v = 2 ^ 32 - 1 -> fill_ul_dl_slice_conf buf it = Fail FBounds) /\
  (get 4 buf (it + 4) = Ok (2 ^ 32 - 1) -> fill_slice buf it = Fail FBounds).
Proof.
  intros Hv. assert (Hs : forall it, get_string buf it (2 ^ 32 - 1) = Fail FBounds) by done. split.
  - intros ->. unfold fill_ul_dl_slice_conf. rewrite Hv. cbn [rbind]. by rewrite Hs.
  - intros Hl. unfold fill_slice. rewrite Hv. cbn [rbind]. rewrite Hl. cbn [rbind]. by rewrite Hs.
Qed.

(** The answer of a control outcome is lost: the encoder writes the
    diagnostic only, so a refused request is decoded as an accepted one. *)
Theorem slice_ctrl_out_loses_answer d :
  len_ok d ->
  exists ba, slice_enc_ctrl_out_plain malloc {| ans := SLICE_CTRL_OUT_ERROR; diagnostic := d |} = Ok ba /\
    slice_dec_ctrl_out_plain ba = Ok {| ans := SLICE_CTRL_OUT_OK; diagnostic := d |}.
Proof.
  intros Hd. exists (lay_string d). split; [by apply enc_ctrl_out_ok|].
  pose proof (dec_ctrl_out_ok d [] Hd) as H. by rewrite app_nil_r in H.
Qed.

(** Event triggers and the two headers round trip; a header is refused
    when its length is not that of the struct. *)
Theorem slice_headers_roundtrip ms ih ch bad :
  is_u32 ms -> is_u32 ih -> is_u32 ch -> zlen bad <> 4 ->
  (exists ba, slice_enc_event_trigger_plain malloc {| et_ms := ms |} = Ok ba /\
     slice_dec_event_trigger_plain ba = Ok {| et_ms := ms |}) /\
  (exists ba, slice_enc_ind_hdr_plain {| ih_dummy := ih |} = Ok ba /\
     slice_dec_ind_hdr_plain ba = Ok {| ih_dummy := ih |}) /\
  (exists ba, slice_enc_ctrl_hdr_plain {| ch_dummy := ch |} = Ok ba /\
     slice_dec_ctrl_hdr_plain ba = Ok {| ch_dummy := ch |}) /\
  slice_dec_ind_hdr_plain bad = Fail FExit /\ slice_dec_ctrl_hdr_plain bad = Fail FExit.
Proof.
  intros Hms Hih Hch Hbad.
  assert (Hget : forall v, is_u32 v -> get 4 (le 4 v) 0 = Ok v).
  { intros v Hv. apply get_fits; [|auto]. pose proof (at_pos_start (le 4 v) []) as H. by rewrite app_nil_r in H. }
  assert (Hput : forall v buf, zlen buf = 4 -> put 4 buf 0 v = Ok (le 4 v)) by (intros; by apply enc_u32_ok).
  split_and!; [exists (le 4 ms)|exists (le 4 ih)|exists (le 4 ch)|..].
  - split; [by apply Hput, malloc_len|]. unfold slice_dec_event_trigger_plain. cbn [et_ms]. by rewrite Hget.
  - split; [by apply Hput|]. unfold slice_dec_ind_hdr_plain. rewrite zlen_le4.
    change (assert_ (4 =? 4)) with (Ok tt). cbn [rbind]. by rewrite Hget.
  - split; [by apply Hput|]. unfold slice_dec_ctrl_hdr_plain. rewrite zlen_le4.
    change (assert_ (4 =? 4)) with (Ok tt). cbn [rbind]. by rewrite Hget.
  - unfold slice_dec_ind_hdr_plain. by rewrite (proj2 (Z.eqb_neq _ _)).
  - unfold slice_dec_ctrl_hdr_plain. by rewrite (proj2 (Z.eqb_neq _ _)).
Qed.
End Properties.

Definition example_malloc (n : Z) : bytes := replicate (Z.to_nat n) 0xaa.

Lemma example_malloc_len n : 0 <= n -> zlen (example_malloc n) = n.
Proof. intros. unfold example_malloc, zlen. rewrite length_replicate. lia. Qed.

(** Two downlink slices (a static one, an EDF one with two exceptions), one
    uplink slice of kind NVS, one associated UE. *)
Definition example_conf : slice_conf_t :=
  mk_slice_conf
    (mk_ul_dl [mk_fr_slice 0 [0x53; 0x31] [0x50; 0x46] (params_sta (mk_static 0 3));
               mk_fr_slice 5 [] [0x45] (params_edf (mk_edf 10 20 0 [7; 65535]))] [0x52; 0x52])
    (mk_ul_dl [mk_fr_slice 1 [0x55] [] (params_nvs (nvs_rate (mk_rate 0x41200000 0x42f00000)))] []).

Definition example_ind_msg : slice_ind_msg_t :=
  mk_ind_msg example_conf (mk_ue_conf [mk_assoc 0 1 0x4601]) (-1).

Ltac wf_example := repeat constructor; vm_compute; by intuition congruence.

Lemma slice_ind_msg_roundtrip_witness :
  exists ba, slice_enc_ind_msg_plain example_malloc example_ind_msg = Ok ba /\
    cal_ind_msg_payload example_ind_msg = Ok (zlen ba) /\
    slice_dec_ind_msg_plain ba = Ok example_ind_msg /\
    ([0] <> [] -> slice_dec_ind_msg_plain (ba ++ [0]) = Fail FExit).
Proof. apply (slice_ind_msg_roundtrip example_malloc example_malloc_len example_ind_msg [0]). wf_example. Defined.

Lemma slice_ctrl_msg_roundtrip_witness :
  let m := ctrl_del_slice (mk_del [1; 2] [3]) in
  exists ba, slice_enc_ctrl_msg_plain example_malloc m = Ok ba /\
    cal_ctrl_msg_payload m = Ok (zlen ba) /\
    slice_dec_ctrl_msg_plain ba = Ok m /\
    ([0] <> [] -> slice_dec_ctrl_msg_plain (ba ++ [0]) = Fail FExit).
Proof. intros m. apply (slice_ctrl_msg_roundtrip example_malloc example_malloc_len m [0]). wf_example. Defined.

Lemma slice_truncated_overrun_witness :
  let c := ctrl_ue_slice (mk_ue_conf [mk_assoc 0 1 0x4601]) in
  (forall ba, slice_enc_ind_msg_plain example_malloc example_ind_msg = Ok ba -> (40 < length ba)%nat ->
     slice_dec_ind_msg_plain (take 40 ba) = Fail FBounds) /\
  (forall ba, slice_enc_ctrl_msg_plain example_malloc c = Ok ba -> (9 < length ba)%nat ->
     slice_dec_ctrl_msg_plain (take 9 ba) = Fail FBounds).
Proof.
  intros c. apply (slice_truncated_overrun example_malloc example_malloc_len example_ind_msg c 40 9); wf_example.
Defined.

Lemma slice_ctrl_out_loses_answer_witness :
  exists ba, slice_enc_ctrl_out_plain example_malloc (mk_ctrl_out SLICE_CTRL_OUT_ERROR [0x6e; 0x6f]) = Ok ba /\
    slice_dec_ctrl_out_plain ba = Ok (mk_ctrl_out SLICE_CTRL_OUT_OK [0x6e; 0x6f]).
Proof. by apply (slice_ctrl_out_loses_answer example_malloc example_malloc_len [0x6e; 0x6f]). Defined.

Lemma slice_headers_roundtrip_witness :
  (exists ba, slice_enc_event_trigger_plain example_malloc (mk_event_trigger 1000) = Ok ba /\
     slice_dec_event_trigger_plain ba = Ok (mk_event_trigger 1000)) /\
  (exists ba, slice_enc_ind_hdr_plain (mk_ind_hdr 1) = Ok ba /\
     slice_dec_ind_hdr_plain ba = Ok (mk_ind_hdr 1)) /\
  (exists ba, slice_enc_ctrl_hdr_plain (mk_ctrl_hdr 2) = Ok ba /\
     slice_dec_ctrl_hdr_plain ba = Ok (mk_ctrl_hdr 2)) /\
  slice_dec_ind_hdr_plain [1; 2] = Fail FExit /\ slice_dec_ctrl_hdr_plain [1; 2] = Fail FExit.
Proof. by apply (slice_headers_roundtrip example_malloc example_malloc_len 1000 1 2 [1; 2]). Defined.
