(* ===== verification/SliceIe.v ===== *)
(** Copy and comparison of the information elements of the slice service model
    (flexric/src/sm/slice_sm/ie/slice_data_ie.c).

    A length of 0 goes with a null pointer, as the decoders and the copies
    leave it.  Both operations can stop the process ([assert], [FExit]).  A
    comparison that reads a member of a union that is not the one in use is
    [FBounds]: the bytes are then taken for pointers. *)

From S2P Require Import Prelude SmCodec SliceData.

(** ** Floats *)

(** A NaN: the exponent is all ones and the mantissa is not 0. *)
Definition is_nan (f : Z) : bool := 0x7f800000 <? Z.land f 0x7fffffff.
(** The two zeros compare equal. *)
Definition fcanon (f : Z) : Z := if Z.land f 0x7fffffff =? 0 then 0 else f.
(** [==] on two floats given by their bits. *)
Definition float_eq (a b : Z) : bool := negb (is_nan a) && negb (is_nan b) && (fcanon a =? fcanon b).

(** ** Loops over two arrays of one length *)

Fixpoint all_eq {A} (f : A -> A -> res bool) (l k : list A) : res bool :=
  match l, k with
  | [], _ => Ok true
  | x :: l, y :: k => let* b := f x y in if b then all_eq f l k else Ok false
  | _ :: _, [] => Fail FBounds
  end.

Fixpoint cp_array {A} (f : A -> res A) (l : list A) : res (list A) :=
  match l with
  | [] => Ok []
  | x :: l => let* y := f x in let* k := cp_array f l in Ok (y :: k)
  end.

Definition eq_u32 (a b : Z) : res bool := Ok (a =? b).

(** ** Comparison *)

Definition eq_slice_ind_hdr (m0 m1 : slice_ind_hdr_t) : bool := ih_dummy m0 =? ih_dummy m1.

Definition eq_static_slice (m0 m1 : static_slice_t) : bool :=
  (pos_high m0 =? pos_high m1) && (pos_low m0 =? pos_low m1).

Definition eq_nvs_rate (m0 m1 : nvs_rate_t) : bool :=
  float_eq (mbps_reference m0) (mbps_reference m1) && float_eq (mbps_required m0) (mbps_required m1).

Definition eq_nvs_cap (m0 m1 : nvs_capacity_t) : bool := float_eq (nvs_pct_reserved m0) (nvs_pct_reserved m1).

Definition eq_nvs_slice (m0 m1 : nvs_slice_t) : bool :=
  if negb (nvs_conf m0 =? nvs_conf m1) then false
  else match m0, m1 with
       | nvs_rate r0, nvs_rate r1 => eq_nvs_rate r0 r1
       | nvs_capacity c0, nvs_capacity c1 => eq_nvs_cap c0 c1
       | _, _ => false
       end.

Definition eq_scn19_on_demand (m0 m1 : scn19_on_demand_t) : bool :=
  float_eq (log_delta m0) (log_delta m1) && float_eq (pct_reserved m0) (pct_reserved m1) && (tau m0 =? tau m1).

Definition eq_scn19_slice (m0 m1 : scn19_slice_t) : bool :=
  if negb (scn19_conf m0 =? scn19_conf m1) then false
  else match m0, m1 with
       | scn19_dynamic r0, scn19_dynamic r1 => eq_nvs_rate r0 r1
       | scn19_fixed s0, scn19_fixed s1 => eq_static_slice s0 s1
       | scn19_on_demand o0, scn19_on_demand o1 => eq_scn19_on_demand o0 o1
       | _, _ => false
       end.

Definition eq_edf_slice (m0 m1 : edf_slice_t) : res bool :=
  let* _ := assert_ (zlen (over m0) =? zlen (over m1)) in
  let* b := all_eq eq_u32 (over m0) (over m1) in
  let* _ := assert_ b in
  Ok ((deadline m0 =? deadline m1) && (guaranteed_prbs m0 =? guaranteed_prbs m1)
      && (max_replenish m0 =? max_replenish m1) && (zlen (over m0) =? zlen (over m1))).

Definition eq_slice_params (m0 m1 : slice_params_t) : res bool :=
  if negb (params_type m0 =? params_type m1) then Ok false
  else
    let* ret := match m0, m1 with
                | params_sta s0, params_sta s1 => Ok (eq_static_slice s0 s1)
                | params_nvs n0, params_nvs n1 => Ok (eq_nvs_slice n0 n1)
                | params_scn19 s0, params_scn19 s1 => Ok (eq_scn19_slice s0 s1)
                | params_edf e0, params_edf e1 => eq_edf_slice e0 e1
                | _, _ => Ok false
                end in
    let* _ := assert_ ret in
    Ok ret.

Definition eq_slice (m0 m1 : fr_slice_t) : res bool :=
  if negb (slc_id m0 =? slc_id m1) then Ok false
  else if negb (zlen (slc_label m0) =? zlen (slc_label m1)) then Ok false
  else if negb (bool_decide (slc_label m0 = slc_label m1)) then Ok false
  else if negb (zlen (slc_sched m0) =? zlen (slc_sched m1)) then Ok false
  else eq_slice_params (slc_params m0) (slc_params m1).

Definition eq_sched_name (m0 m1 : bytes) : bool := bool_decide (m0 = m1).

Definition eq_ul_dl_slice_conf (m0 m1 : ul_dl_slice_conf_t) : res bool :=
  if negb (zlen (sched_name m0) =? zlen (sched_name m1)) then Ok false
  else if negb (eq_sched_name (sched_name m0) (sched_name m1)) then Ok false
  else if negb (zlen (slices m0) =? zlen (slices m1)) then Ok false
  else
    let* b := all_eq eq_slice (slices m0) (slices m1) in
    let* _ := assert_ b in
    Ok true.

Definition eq_slice_conf (m0 m1 : slice_conf_t) : res bool :=
  let* b := eq_ul_dl_slice_conf (conf_ul m0) (conf_ul m1) in
  if b then eq_ul_dl_slice_conf (conf_dl m0) (conf_dl m1) else Ok false.

Definition eq_ue_slice_assoc (m0 m1 : ue_slice_assoc_t) : bool :=
  (dl_id m0 =? dl_id m1) && (rnti m0 =? rnti m1) && (ul_id m0 =? ul_id m1).

Definition eq_ue_slice_conf (m0 m1 : ue_slice_conf_t) : res bool :=
  if negb (zlen (ues m0) =? zlen (ues m1)) then Ok false
  else all_eq (fun a b => Ok (eq_ue_slice_assoc a b)) (ues m0) (ues m1).

Definition eq_slice_ind_msg (m0 m1 : slice_ind_msg_t) : res bool :=
  let* b := eq_slice_conf (im_slice_conf m0) (im_slice_conf m1) in
  if negb b then Ok false
  else
    let* b := eq_ue_slice_conf (im_ue_slice_conf m0) (im_ue_slice_conf m1) in
    Ok (b && (im_tstamp m0 =? im_tstamp m1)).

Definition eq_slice_ctrl_hdr (m0 m1 : slice_ctrl_hdr_t) : bool := ch_dummy m0 =? ch_dummy m1.

Definition eq_del_slice (m0 m1 : del_slice_conf_t) : res bool :=
  if negb (zlen (del_dl m0) =? zlen (del_dl m1)) then Ok false
  else
    let* b := all_eq eq_u32 (del_dl m0) (del_dl m1) in
    if negb b then Ok false
    else if negb (zlen (del_ul m0) =? zlen (del_ul m1)) then Ok false
    else all_eq eq_u32 (del_ul m0) (del_ul m1).

(** The type of [m1] is not looked at. *)
Definition eq_slice_ctrl_msg (m0 m1 : slice_ctrl_msg_t) : res bool :=
  match m0 with
  | ctrl_add_mod_slice c0 => match m1 with ctrl_add_mod_slice c1 => eq_slice_conf c0 c1 | _ => Fail FBounds end
  | ctrl_del_slice d0 => match m1 with ctrl_del_slice d1 => eq_del_slice d0 d1 | _ => Fail FBounds end
  | ctrl_ue_slice u0 => match m1 with ctrl_ue_slice u1 => eq_ue_slice_conf u0 u1 | _ => Fail FBounds end
  | ctrl_other _ => Fail FExit
  end.

Definition eq_slice_ctrl_out (m0 m1 : slice_ctrl_out_t) : bool :=
  if negb (zlen (diagnostic m0) =? zlen (diagnostic m1)) then false
  else if 0 <? zlen (diagnostic m0) then bool_decide (diagnostic m0 = diagnostic m1)
  else true.

Record slice_func_def_t := mk_func_def { supported_alg : list Z }.

Definition eq_slice_func_def (m0 m1 : slice_func_def_t) : res bool :=
  if negb (zlen (supported_alg m0) =? zlen (supported_alg m1)) then Ok false
  else all_eq eq_u32 (supported_alg m0) (supported_alg m1).

(** ** Copy *)

Definition cp_slice_ind_hdr (src : slice_ind_hdr_t) : slice_ind_hdr_t := mk_ind_hdr (ih_dummy src).
Definition cp_slice_ctrl_hdr (src : slice_ctrl_hdr_t) : slice_ctrl_hdr_t := mk_ctrl_hdr (ch_dummy src).

Definition cp_scn19_slice (src : scn19_slice_t) : res scn19_slice_t :=
  match src with
  | scn19_dynamic r => Ok (scn19_dynamic (mk_rate (mbps_required r) (mbps_reference r)))
  | scn19_fixed s => Ok (scn19_fixed (mk_static (pos_low s) (pos_high s)))
  | scn19_on_demand o => Ok (scn19_on_demand (mk_on_demand (pct_reserved o) (log_delta o) (tau o)))
  | scn19_other _ => Fail FExit
  end.

Definition cp_slice_params (src : slice_params_t) : res slice_params_t :=
  let* dst :=
    match src with
    | params_sta s => Ok (params_sta (mk_static (pos_low s) (pos_high s)))
    | params_nvs (nvs_rate r) => Ok (params_nvs (nvs_rate (mk_rate (mbps_required r) (mbps_reference r))))
    | params_nvs (nvs_capacity c) => Ok (params_nvs (nvs_capacity (mk_capacity (nvs_pct_reserved c))))
    | params_nvs (nvs_other _) => Fail FExit
    | params_scn19 s => let* d := cp_scn19_slice s in Ok (params_scn19 d)
    | params_edf e => Ok (params_edf (mk_edf (deadline e) (guaranteed_prbs e) (max_replenish e) (over e)))
    | params_other _ => Fail FExit
    end in
  let* b := eq_slice_params dst src in
  let* _ := assert_ b in
  Ok dst.

Definition cpy_slice (src : fr_slice_t) : res fr_slice_t :=
  let* params := cp_slice_params (slc_params src) in
  let dst := mk_fr_slice (slc_id src) (slc_label src) (slc_sched src) params in
  let* b := eq_slice src dst in
  let* _ := assert_ b in
  Ok dst.

Definition cpy_ul_dl_slice_conf (src : ul_dl_slice_conf_t) : res ul_dl_slice_conf_t :=
  let* l := cp_array cpy_slice (slices src) in
  let dst := mk_ul_dl l (sched_name src) in
  let* b := eq_ul_dl_slice_conf src dst in
  let* _ := assert_ b in
  Ok dst.

Definition cp_slice_conf (src : slice_conf_t) : res slice_conf_t :=
  let* dl := cpy_ul_dl_slice_conf (conf_dl src) in
  let* ul := cpy_ul_dl_slice_conf (conf_ul src) in
  let dst := mk_slice_conf dl ul in
  let* b := eq_slice_conf src dst in
  let* _ := assert_ b in
  Ok dst.

Definition cp_ue_slice_assoc (src : ue_slice_assoc_t) : ue_slice_assoc_t :=
  mk_assoc (dl_id src) (ul_id src) (rnti src).

Definition cp_ue_slice_conf (src : ue_slice_conf_t) : ue_slice_conf_t :=
  mk_ue_conf (map cp_ue_slice_assoc (ues src)).

Definition cp_slice_ind_msg (src : slice_ind_msg_t) : res slice_ind_msg_t :=
  let* conf := cp_slice_conf (im_slice_conf src) in
  let out := mk_ind_msg conf (cp_ue_slice_conf (im_ue_slice_conf src)) (im_tstamp src) in
  let* b := eq_slice_ind_msg src out in
  let* _ := assert_ b in
  Ok out.

Definition cp_del_slice (src : del_slice_conf_t) : del_slice_conf_t := mk_del (del_dl src) (del_ul src).

Definition cp_slice_ctrl_msg (src : slice_ctrl_msg_t) : res slice_ctrl_msg_t :=
  match src with
  | ctrl_add_mod_slice c => let* d := cp_slice_conf c in Ok (ctrl_add_mod_slice d)
  | ctrl_del_slice d => Ok (ctrl_del_slice (cp_del_slice d))
  | ctrl_ue_slice u => Ok (ctrl_ue_slice (cp_ue_slice_conf u))
  | ctrl_other _ => Fail FExit
  end.

(** [dst] is initialised with its length only: [ans] is 0. *)
Definition cp_slice_ctrl_out (src : slice_ctrl_out_t) : slice_ctrl_out_t :=
  mk_ctrl_out SLICE_CTRL_OUT_OK (diagnostic src).

Definition cp_slice_func_def (src : slice_func_def_t) : slice_func_def_t := mk_func_def (supported_alg src).

Record slice_ind_data_t := mk_ind_data {
  id_hdr : slice_ind_hdr_t;
  id_msg : slice_ind_msg_t;
  id_proc_id : option Z
}.

(** [cp_slice_call_proc_id] is not implemented. *)
Definition cp_slice_call_proc_id (src : Z) : res Z := Fail FExit.

Definition cp_slice_ind_data (src : slice_ind_data_t) : res slice_ind_data_t :=
  let* msg := cp_slice_ind_msg (id_msg src) in
  let hdr := cp_slice_ind_hdr (id_hdr src) in
  match id_proc_id src with
  | Some p => let* q := cp_slice_call_proc_id p in Ok (mk_ind_data hdr msg (Some q))
  | None => Ok (mk_ind_data hdr msg None)
  end.

(** ** What the comparison sees *)

(** The value up to the sign of zeros and the bytes of [sched]. *)
Definition canon_rate (r : nvs_rate_t) : nvs_rate_t := mk_rate (fcanon (mbps_required r)) (fcanon (mbps_reference r)).
Definition canon_capacity (c : nvs_capacity_t) : nvs_capacity_t := mk_capacity (fcanon (nvs_pct_reserved c)).

Definition canon_nvs (n : nvs_slice_t) : nvs_slice_t :=
  match n with
  | nvs_rate r => nvs_rate (canon_rate r)
  | nvs_capacity c => nvs_capacity (canon_capacity c)
  | nvs_other _ => n
  end.

Definition canon_scn19 (s : scn19_slice_t) : scn19_slice_t :=
  match s with
  | scn19_dynamic r => scn19_dynamic (canon_rate r)
  | scn19_on_demand o => scn19_on_demand (mk_on_demand (fcanon (pct_reserved o)) (fcanon (log_delta o)) (tau o))
  | _ => s
  end.

Definition canon_params (p : slice_params_t) : slice_params_t :=
  match p with
  | params_nvs n => params_nvs (canon_nvs n)
  | params_scn19 s => params_scn19 (canon_scn19 s)
  | _ => p
  end.

Definition canon_slice (s : fr_slice_t) : fr_slice_t :=
  mk_fr_slice (slc_id s) (slc_label s) (replicate (length (slc_sched s)) 0) (canon_params (slc_params s)).

Definition canon_ul_dl (c : ul_dl_slice_conf_t) : ul_dl_slice_conf_t :=
  mk_ul_dl (map canon_slice (slices c)) (sched_name c).

Definition canon_conf (c : slice_conf_t) : slice_conf_t :=
  mk_slice_conf (canon_ul_dl (conf_dl c)) (canon_ul_dl (conf_ul c)).

Definition canon_ind_msg (m : slice_ind_msg_t) : slice_ind_msg_t :=
  mk_ind_msg (canon_conf (im_slice_conf m)) (im_ue_slice_conf m) (im_tstamp m).

(** Messages without NaNs and with the types of the enums. *)
Definition is_num (f : Z) : Prop := is_nan f = false.
Definition num_rate (r : nvs_rate_t) : Prop := is_num (mbps_required r) /\ is_num (mbps_reference r).

Definition num_nvs (n : nvs_slice_t) : Prop :=
  match n with
  | nvs_rate r => num_rate r
  | nvs_capacity c => is_num (nvs_pct_reserved c)
  | nvs_other _ => False
  end.

Definition num_scn19 (s : scn19_slice_t) : Prop :=
  match s with
  | scn19_dynamic r => num_rate r
  | scn19_fixed _ => True
  | scn19_on_demand o => is_num (pct_reserved o) /\ is_num (log_delta o)
  | scn19_other _ => False
  end.

Definition num_params (p : slice_params_t) : Prop :=
  match p with
  | params_nvs n => num_nvs n
  | params_scn19 s => num_scn19 s
  | params_other _ => False
  | _ => True
  end.

Definition num_slice (s : fr_slice_t) : Prop := num_params (slc_params s).
Definition num_conf (c : slice_conf_t) : Prop :=
  Forall num_slice (slices (conf_dl c)) /\ Forall num_slice (slices (conf_ul c)).

(** ** Comparison decides equality of what it sees *)

Lemma float_eq_spec a b : is_num a -> is_num b -> float_eq a b = true <-> fcanon a = fcanon b.
Proof. unfold is_num, float_eq. intros -> ->. simpl. apply Z.eqb_eq. Qed.

Lemma Ok_iff {A} (a b : A) : Ok a = Ok b <-> a = b.
Proof. split; congruence. Qed.

Lemma zlen_eqb {A} (l k : list A) : (zlen l =? zlen k) = true <-> length l = length k.
Proof. rewrite Z.eqb_eq. unfold zlen. lia. Qed.

(** The loop over two arrays decides equality of the images under [c] when
    the comparison of their elements does. *)
Lemma all_eq_spec {A B} (f : A -> A -> res bool) (c : A -> B) (P : A -> Prop) l k :
  (forall x y, P x -> P y -> f x y = Ok true <-> c x = c y) ->
  Forall P l -> Forall P k -> length l = length k -> all_eq f l k = Ok true <-> map c l = map c k.
Proof.
  intros Hf. revert k. induction l as [|x l IH]; intros [|y k]; simpl; try done.
  intros [Hx Hl]%Forall_cons [Hy Hk]%Forall_cons [= Hlen]. specialize (IH k Hl Hk Hlen).
  specialize (Hf x y Hx Hy). destruct (f x y) as [[]|]; simpl.
  - rewrite IH. split; [intros ->; f_equal; by apply Hf | by intros [= _ ->]].
  - split; [done|]. intros [= E _]. by apply Hf in E.
  - split; [done|]. intros [= E _]. by apply Hf in E.
Qed.

Lemma all_eq_u32 l k : length l = length k -> all_eq eq_u32 l k = Ok true <-> l = k.
Proof.
  intros Hlen. rewrite (all_eq_spec eq_u32 id (fun _ => True)); try (by apply Forall_true); try done.
  - by rewrite !map_id.
  - intros x y _ _. unfold eq_u32, id. split; [intros [= ?%Z.eqb_eq]; done | intros ->; by rewrite Z.eqb_refl].
Qed.

Lemma eq_nvs_rate_spec a b : num_rate a -> num_rate b -> eq_nvs_rate a b = true <-> canon_rate a = canon_rate b.
Proof.
  intros [] []. unfold eq_nvs_rate, canon_rate. rewrite andb_true_iff, !float_eq_spec by done.
  split; [intros [E1 E2]; by rewrite E1, E2 | intros E; by injection E].
Qed.

Lemma eq_static_spec a b : eq_static_slice a b = true <-> a = b.
Proof.
  unfold eq_static_slice. rewrite andb_true_iff, !Z.eqb_eq. destruct a, b; simpl.
  split; [by intros [-> ->] | by intros [= -> ->]].
Qed.

Lemma eq_nvs_spec a b : num_nvs a -> num_nvs b -> eq_nvs_slice a b = true <-> canon_nvs a = canon_nvs b.
Proof.
  destruct a as [a|a|], b as [b|b|]; simpl; try done; intros Ha Hb; unfold eq_nvs_slice; simpl.
  - rewrite eq_nvs_rate_spec by done. split; congruence.
  - unfold eq_nvs_cap, canon_capacity. rewrite float_eq_spec by done. split; [intros E; by rewrite E | intros E; by injection E].
Qed.

Lemma eq_scn19_spec a b : num_scn19 a -> num_scn19 b -> eq_scn19_slice a b = true <-> canon_scn19 a = canon_scn19 b.
Proof.
  destruct a as [a|a|a|], b as [b|b|b|]; simpl; try done; intros Ha Hb; unfold eq_scn19_slice; simpl.
  - rewrite eq_nvs_rate_spec by done. split; congruence.
  - rewrite eq_static_spec. split; [by intros -> | by intros [= ->]].
  - destruct Ha, Hb. unfold eq_scn19_on_demand. rewrite !andb_true_iff, !float_eq_spec, Z.eqb_eq by done.
    split; [intros [[E1 E2] E3]; by rewrite E1, E2, E3 | intros E; by injection E].
Qed.

(** The whole contract of the comparison of parameters: [true] on equal ones,
    [false] on different types, and the process stops on anything else. *)
Lemma eq_params_spec a b :
  num_params a -> num_params b ->
  (eq_slice_params a b = Ok true <-> canon_params a = canon_params b)
  /\ (params_type a <> params_type b -> eq_slice_params a b = Ok false)
  /\ (params_type a = params_type b -> canon_params a <> canon_params b -> eq_slice_params a b = Fail FExit).
Proof.
  assert (Hret : forall r (P : Prop), r = true <-> P ->
     ((let* _ := assert_ r in Ok r) = Ok true <-> P) /\ (~ P -> (let* _ := assert_ r in Ok r) = Fail FExit)).
  { intros [] P HP; simpl; split; [|intros Hn; by destruct Hn; apply HP| |done].
    - split; [intros _; by apply HP | done].
    - split; [done | intros ?%HP; done]. }
  destruct a as [a|a|a|a|], b as [b|b|b|b|]; intros Ha Hb; simpl in Ha, Hb; try done;
    try (split_and!; [split; [done | by intros [=]] | done | done]); unfold eq_slice_params; simpl.
  - edestruct (Hret (eq_static_slice a b) (params_sta a = params_sta b)) as [-> H2];
      [rewrite eq_static_spec; split; congruence | by split_and!].
  - edestruct (Hret (eq_nvs_slice a b) (params_nvs (canon_nvs a) = params_nvs (canon_nvs b))) as [-> H2];
      [rewrite eq_nvs_spec by done; split; congruence | by split_and!].
  - edestruct (Hret (eq_scn19_slice a b) (params_scn19 (canon_scn19 a) = params_scn19 (canon_scn19 b))) as [-> H2];
      [rewrite eq_scn19_spec by done; split; congruence | by split_and!].
  - assert (Hedf : (eq_edf_slice a b = Ok true <-> a = b)
                   /\ (eq_edf_slice a b = Ok true \/ eq_edf_slice a b = Ok false \/ eq_edf_slice a b = Fail FExit)).
    { unfold eq_edf_slice, assert_. destruct (zlen (over a) =? zlen (over b)) eqn:E; simpl.
      2:{ split; [|auto]. split; [done|]. intros ->. by rewrite Z.eqb_refl in E. }
      pose proof (all_eq_u32 _ _ (proj1 (zlen_eqb _ _) E)) as Ho.
      assert (Hb2 : exists t, all_eq eq_u32 (over a) (over b) = Ok t).
      { clear Ho. apply zlen_eqb in E. revert E. generalize (over b). induction (over a) as [|x l IH]; intros [|y k]; simpl; try done; eauto.
        intros [= E]. destruct (x =? y); [by apply IH | eauto]. }
      destruct Hb2 as [t Et]. rewrite Et in Ho |- *. destruct t; simpl.
      - pose proof (proj1 Ho eq_refl) as Eo. rewrite andb_true_r.
        split; [|destruct (_ && _); auto]. destruct a, b; simpl in *. subst.
        rewrite Ok_iff, !andb_true_iff, !Z.eqb_eq. split; [by intros [[-> ->] ->] | by intros [= -> -> ->]].
      - split; [|auto]. split; [done|]. intros ->. discriminate (proj2 Ho eq_refl). }
    destruct Hedf as [H1 H2].
    assert (params_edf a = params_edf b <-> a = b) as Hi by (split; congruence).
    rewrite Hi. split_and!; [|done|].
    + rewrite <- H1. destruct H2 as [-> | [-> | ->]]; done.
    + intros _ Hn. destruct H2 as [E | [-> | ->]]; [by apply H1 in E | done..].
Qed.

Lemma replicate_length_eq {A} n m (x : A) : replicate n x = replicate m x <-> n = m.
Proof. split; [|by intros ->]. intros H%(f_equal length). by rewrite !length_replicate in H. Qed.

Lemma eq_slice_spec a b :
  num_slice a -> num_slice b -> eq_slice a b = Ok true <-> canon_slice a = canon_slice b.
Proof.
  intros Ha Hb. destruct (eq_params_spec (slc_params a) (slc_params b) Ha Hb) as [Hp _].
  unfold eq_slice, canon_slice.
  destruct (slc_id a =? slc_id b) eqn:E1; simpl; [|split; [done|]; intros [= E]; lia].
  destruct (zlen (slc_label a) =? zlen (slc_label b)) eqn:E2; simpl.
  2:{ split; [done|]. intros [= _ E _]. rewrite E, Z.eqb_refl in E2. done. }
  case_bool_decide as E3; simpl; [|split; [done|]; intros [= _ E _]; done].
  destruct (zlen (slc_sched a) =? zlen (slc_sched b)) eqn:E4; simpl.
  - rewrite Hp. apply zlen_eqb in E4. apply Z.eqb_eq in E1. rewrite E1, E3, E4. split; [by intros -> | congruence].
  - split; [done|]. intros [= _ _ E%replicate_length_eq _]. apply zlen_eqb in E. congruence.
Qed.

Lemma eq_ul_dl_spec a b :
  Forall num_slice (slices a) -> Forall num_slice (slices b) ->
  eq_ul_dl_slice_conf a b = Ok true <-> canon_ul_dl a = canon_ul_dl b.
Proof.
  intros Ha Hb. unfold eq_ul_dl_slice_conf, canon_ul_dl, eq_sched_name.
  destruct (zlen (sched_name a) =? zlen (sched_name b)) eqn:E1; simpl.
  2:{ split; [done|]. intros [= _ E]. rewrite E, Z.eqb_refl in E1. done. }
  case_bool_decide as E2; simpl; [|split; [done|]; intros [= _ E]; done].
  destruct (zlen (slices a) =? zlen (slices b)) eqn:E3; simpl.
  - apply zlen_eqb in E3. pose proof (all_eq_spec eq_slice canon_slice num_slice _ _ eq_slice_spec Ha Hb E3) as H.
    rewrite E2. transitivity (all_eq eq_slice (slices a) (slices b) = Ok true); [|rewrite H; split; congruence].
    by destruct (all_eq _ _ _) as [[]|].
  - split; [done|]. intros [= E%(f_equal length) _]. rewrite !length_map in E. apply zlen_eqb in E. congruence.
Qed.

Lemma eq_conf_spec a b :
  num_conf a -> num_conf b -> eq_slice_conf a b = Ok true <-> canon_conf a = canon_conf b.
Proof.
  intros [Ha1 Ha2] [Hb1 Hb2]. unfold eq_slice_conf, canon_conf.
  pose proof (eq_ul_dl_spec _ _ Ha1 Hb1) as Hd. pose proof (eq_ul_dl_spec _ _ Ha2 Hb2) as Hu.
  destruct (eq_ul_dl_slice_conf (conf_ul a) (conf_ul b)) as [[]|]; simpl.
  - destruct (proj1 Hu eq_refl). rewrite Hd. split; [by intros -> | congruence].
  - split; [done|]. intros E%(f_equal conf_ul). by apply Hu in E.
  - split; [done|]. intros E%(f_equal conf_ul). by apply Hu in E.
Qed.

Lemma eq_assoc_spec a b : eq_ue_slice_assoc a b = true <-> a = b.
Proof.
  unfold eq_ue_slice_assoc. rewrite !andb_true_iff, !Z.eqb_eq. destruct a, b; simpl.
  split; [by intros [[-> ->] ->] | by intros [= -> -> ->]].
Qed.

Lemma eq_ue_conf_spec a b : eq_ue_slice_conf a b = Ok true <-> a = b.
Proof.
  unfold eq_ue_slice_conf. destruct a as [l], b as [k]; simpl.
  destruct (zlen l =? zlen k) eqn:E; simpl.
  - apply zlen_eqb in E. rewrite (all_eq_spec _ id (fun _ => True)); try (by apply Forall_true); try done.
    + rewrite !map_id. split; congruence.
    + intros x y _ _. rewrite Ok_iff. apply eq_assoc_spec.
  - split; [done|]. intros [= ->]. by rewrite Z.eqb_refl in E.
Qed.

(** ** Copies *)

Lemma cp_params_ok p : num_params p -> cp_slice_params p = Ok p.
Proof.
  intros Hp. unfold cp_slice_params.
  match goal with |- (let* dst := ?m in _) = _ => assert (m = Ok p) as -> end.
  { destruct p as [[]|[[]|[]|]|[[]|[]|[]|]|[]|]; simpl in Hp; done. }
  cbn [rbind]. by rewrite (proj2 (proj1 (eq_params_spec p p Hp Hp)) eq_refl).
Qed.

Lemma cpy_slice_ok s : num_slice s -> cpy_slice s = Ok s.
Proof.
  intros Hs. unfold cpy_slice. rewrite cp_params_ok by done. cbn [rbind].
  replace (mk_fr_slice _ _ _ _) with s by by destruct s.
  by rewrite (proj2 (eq_slice_spec s s Hs Hs) eq_refl).
Qed.

Lemma cp_array_ok {A} (f : A -> res A) l : Forall (fun x => f x = Ok x) l -> cp_array f l = Ok l.
Proof. induction 1 as [|x l Hx _ IH]; simpl; [done|]. by rewrite Hx, IH. Qed.

Lemma cpy_ul_dl_ok c : Forall num_slice (slices c) -> cpy_ul_dl_slice_conf c = Ok c.
Proof.
  intros Hc. unfold cpy_ul_dl_slice_conf.
  rewrite cp_array_ok by (eapply Forall_impl; [done | apply cpy_slice_ok]). cbn [rbind].
  replace (mk_ul_dl _ _) with c by by destruct c.
  by rewrite (proj2 (eq_ul_dl_spec c c Hc Hc) eq_refl).
Qed.

Lemma cp_conf_ok c : num_conf c -> cp_slice_conf c = Ok c.
Proof.
  intros [Hd Hu]. unfold cp_slice_conf. rewrite !cpy_ul_dl_ok by done. cbn [rbind].
  replace (mk_slice_conf _ _) with c by by destruct c.
  by rewrite (proj2 (eq_conf_spec c c (conj Hd Hu) (conj Hd Hu)) eq_refl).
Qed.

Lemma cp_ue_conf_ok c : cp_ue_slice_conf c = c.
Proof.
  destruct c as [l]. unfold cp_ue_slice_conf. simpl. f_equal. rewrite <- (map_id l) at 2.
  apply map_ext. by intros [].
Qed.

Lemma eq_ind_msg_spec a b :
  num_conf (im_slice_conf a) -> num_conf (im_slice_conf b) ->
  eq_slice_ind_msg a b = Ok true <-> canon_ind_msg a = canon_ind_msg b.
Proof.
  intros Ha Hb. unfold eq_slice_ind_msg, canon_ind_msg.
  pose proof (eq_conf_spec _ _ Ha Hb) as Hc. pose proof (eq_ue_conf_spec (im_ue_slice_conf a) (im_ue_slice_conf b)) as Hu.
  destruct (eq_slice_conf _ _) as [[]|]; simpl.
  2,3: split; [done|]; intros E%(f_equal im_slice_conf); by apply Hc in E.
  destruct (proj1 Hc eq_refl).
  destruct (eq_ue_slice_conf _ _) as [[]|]; simpl.
  2,3: split; [done|]; intros E%(f_equal im_ue_slice_conf); by apply Hu in E.
  rewrite (proj1 Hu eq_refl), Ok_iff, Z.eqb_eq. split; [by intros -> | congruence].
Qed.

(** [eq_slice_ind_msg] on messages without NaNs: it returns true exactly
    when the two messages agree on everything except the sign of zeros and the
    bytes of the [sched] strings, whose lengths only are compared. *)
Theorem slice_eq_ind_msg_spec a b :
  num_conf (im_slice_conf a) -> num_conf (im_slice_conf b) ->
  eq_slice_ind_msg a b = Ok true <-> canon_ind_msg a = canon_ind_msg b.
Proof. apply eq_ind_msg_spec. Qed.

(** Copies are faithful and total on values without NaNs whose types are
    those of the enums: no assertion of the copy fails (each level compares the
    copy with its source) and the copy of an indication message, of a control
    message and of an indication without a call process id is the message
    itself; a call process id stops the process. *)
Theorem slice_copies_faithful (m : slice_ind_msg_t) (c : slice_ctrl_msg_t) h p :
  num_conf (im_slice_conf m) ->
  match c with ctrl_add_mod_slice s => num_conf s | ctrl_other _ => False | _ => True end ->
  cp_slice_ind_msg m = Ok m
  /\ cp_slice_ctrl_msg c = Ok c
  /\ cp_slice_ind_data (mk_ind_data h m p)
     = match p with None => Ok (mk_ind_data h m None) | Some _ => Fail FExit end.
Proof.
  intros Hm Hc.
  assert (Hcp : cp_slice_ind_msg m = Ok m).
  { unfold cp_slice_ind_msg. rewrite cp_conf_ok, cp_ue_conf_ok by done. cbn [rbind].
    replace (mk_ind_msg _ _ _) with m by by destruct m.
    by rewrite (proj2 (eq_ind_msg_spec m m Hm Hm) eq_refl). }
  split_and!; [done| |].
  - destruct c as [s|[]|u|]; simpl; [by rewrite cp_conf_ok | done | by rewrite cp_ue_conf_ok | done].
  - unfold cp_slice_ind_data. simpl. rewrite Hcp. cbn [rbind]. by destruct p, h.
Qed.

(** The comparison of two parameter values of one type that differ stops
    the process instead of returning false, so [eq_slice_ind_msg] stops it too
    for two messages that differ in a slice; values of different types are
    told apart by false. *)
Theorem slice_eq_params_aborts a b :
  num_params a -> num_params b -> canon_params a <> canon_params b ->
  eq_slice_params a b = if params_type a =? params_type b then Fail FExit else Ok false.
Proof.
  intros Ha Hb Hn. destruct (eq_params_spec a b Ha Hb) as (_&H1&H2).
  destruct (params_type a =? params_type b) eqn:E; [apply H2; [lia | done] | apply H1; lia].
Qed.

(** The copy of a control outcome always reports success: whatever
    [ans] was, that of the copy is OK, and the comparison of the copy with its
    source does not see it. *)
Theorem slice_cp_ctrl_out_reports_ok (o : slice_ctrl_out_t) :
  ans (cp_slice_ctrl_out o) = SLICE_CTRL_OUT_OK
  /\ diagnostic (cp_slice_ctrl_out o) = diagnostic o
  /\ eq_slice_ctrl_out (cp_slice_ctrl_out o) o = true.
Proof.
  split_and!; [done|done|]. unfold eq_slice_ctrl_out, cp_slice_ctrl_out. simpl.
  rewrite Z.eqb_refl. simpl. rewrite bool_decide_eq_true_2 by done. by case_match.
Qed.

(** ** Concrete instances *)

Definition ex_slice (sched : bytes) : fr_slice_t :=
  mk_fr_slice 3 [97; 98] sched (params_nvs (nvs_rate (mk_rate 0x80000000 0x3f800000))).
Definition ex_conf (sched : bytes) : slice_conf_t :=
  mk_slice_conf (mk_ul_dl [ex_slice sched] [80; 70]) (mk_ul_dl [] []).
Definition ex_msg (sched : bytes) : slice_ind_msg_t :=
  mk_ind_msg (ex_conf sched) (mk_ue_conf [mk_assoc 3 3 17921]) 12345.

Lemma ex_conf_num sched : num_conf (ex_conf sched).
Proof. split; [constructor; [split; reflexivity | constructor] | constructor]. Qed.

Lemma slice_eq_ind_msg_spec_witness :
  eq_slice_ind_msg (ex_msg [80; 70]) (ex_msg [82; 82]) = Ok true
  /\ ex_msg [80; 70] <> ex_msg [82; 82].
Proof.
  split; [|discriminate].
  apply (slice_eq_ind_msg_spec (ex_msg [80; 70]) (ex_msg [82; 82]));
    [apply ex_conf_num | apply ex_conf_num | reflexivity].
Defined.

Lemma slice_copies_faithful_witness :
  cp_slice_ind_msg (ex_msg [80]) = Ok (ex_msg [80])
  /\ cp_slice_ctrl_msg (ctrl_add_mod_slice (ex_conf [80])) = Ok (ctrl_add_mod_slice (ex_conf [80]))
  /\ cp_slice_ind_data (mk_ind_data (mk_ind_hdr 0) (ex_msg [80]) (Some 1)) = Fail FExit.
Proof.
  apply (slice_copies_faithful (ex_msg [80]) (ctrl_add_mod_slice (ex_conf [80])) (mk_ind_hdr 0) (Some 1));
    apply ex_conf_num.
Defined.

Lemma slice_eq_params_aborts_witness :
  eq_slice_params (params_sta (mk_static 0 1)) (params_sta (mk_static 0 2)) = Fail FExit.
Proof.
  apply (slice_eq_params_aborts (params_sta (mk_static 0 1)) (params_sta (mk_static 0 2)));
    [exact I | exact I | discriminate].
Defined.
