(* ===== verification/EqFloat.v ===== *)
(** Comparison of two floats up to an error (flexric/src/util/alg_ds/alg/eq_float.c),
    on the IEEE formats that the C types have: [float] is binary32 and
    [double] is binary64, rounding to nearest.  A value of the model is the
    pattern of its bits. *)

From Stdlib Require Import SpecFloat.
From S2P Require Import Prelude.

(** The number that a pattern of [1 + ew + (prec - 1)] bits stands for. *)
Definition float_of_bits (prec ew : Z) (n : Z) : spec_float :=
  let s := Z.testbit n (ew + (prec - 1)) in
  let e := Z.land (Z.shiftr n (prec - 1)) (2 ^ ew - 1) in
  let m := Z.land n (2 ^ (prec - 1) - 1) in
  let emin := 3 - 2 ^ (ew - 1) - prec in
  if e =? 0 then
    match m with Zpos p => S754_finite s p emin | _ => S754_zero s end
  else if e =? 2 ^ ew - 1 then
    if m =? 0 then S754_infinity s else S754_nan
  else
    match m + 2 ^ (prec - 1) with
    | Zpos p => S754_finite s p (e - 1 + emin)
    | _ => S754_nan
    end.

Definition b32 : Z -> spec_float := float_of_bits 24 8.
Definition b64 : Z -> spec_float := float_of_bits 53 11.

(** The conversion of a [float] to a [double], which is exact. *)
Definition to_double (f : spec_float) : spec_float :=
  match f with
  | S754_finite s m e => binary_normalize 53 1024 (cond_Zopp s (Zpos m)) e s
  | f => f
  end.

Definition isnan (f : spec_float) : bool := match f with S754_nan => true | _ => false end.

(** 2^-126 *)
Definition FLT_MIN : spec_float := b64 0x3810000000000000.

(** [eps] is a [double]; [a == 0] holds of both zeros. *)
Definition eq_float (a b : Z) (eps : spec_float) : res bool :=
  let a := b32 a in
  let b := b32 b in
  let* _ := assert_ (negb (isnan a)) in
  let* _ := assert_ (negb (isnan b)) in
  let* _ := assert_ (negb (isnan eps)) in
  let absA := SFabs a in
  let absB := SFabs b in
  let diff := SFabs (to_double (SFsub 24 128 a b)) in
  if SFeqb a b then Ok true
  else if SFeqb a (S754_zero false) || SFeqb b (S754_zero false) || SFltb diff FLT_MIN
  then Ok (SFltb diff (SFmul 53 1024 eps FLT_MIN))
  else Ok (SFltb (SFdiv 53 1024 diff (to_double (SFadd 24 128 absA absB))) eps).

(** 0.0000001 *)
Definition eps_1em7 : spec_float := b64 0x3e7ad7f29abcaf48.

Lemma SFeqb_refl f : isnan f = false -> SFeqb f f = true.
Proof.
  unfold SFeqb, SFcompare. destruct f as [[]|[]| |[] m e]; try done; intros _;
    rewrite Z.compare_refl;
    change (Pos.compare_cont Eq m m) with (m ?= m)%positive; by rewrite Pos.compare_refl.
Qed.

(** A float equals itself, unless it is a NaN, which stops the process. *)
Lemma eq_float_self a eps : isnan eps = false -> eq_float a a eps = if isnan (b32 a) then Fail FExit else Ok true.
Proof.
  intros He. unfold eq_float. destruct (isnan (b32 a)) eqn:Hn; cbn [negb assert_ rbind]; [done|].
  rewrite He. cbn [negb assert_ rbind]. by rewrite SFeqb_refl.
Qed.

Lemma eq_float_refl a : eq_float a a eps_1em7 = if isnan (b32 a) then Fail FExit else Ok true.
Proof. by apply eq_float_self. Qed.

(** It gives an answer or stops. *)
Lemma eq_float_cases a b eps : (exists t, eq_float a b eps = Ok t) \/ eq_float a b eps = Fail FExit.
Proof.
  unfold eq_float. destruct (isnan (b32 a)), (isnan (b32 b)), (isnan eps); cbn [negb assert_ rbind];
    try (by right); left; repeat case_match; by eexists.
Qed.

Lemma eq_float_nan a b : isnan (b32 a) = true \/ isnan (b32 b) = true -> eq_float a b eps_1em7 = Fail FExit.
Proof.
  unfold eq_float. intros [->| ->]; cbn [negb assert_ rbind]; [done|]. by destruct (isnan (b32 a)).
Qed.

(** 20.5 and the next float are equal, 20.5 and 20.6 are not; 0 equals the
    other zero and not the smallest float. *)
Example eq_float_values :
  eq_float 0x41a40000 0x41a40001 eps_1em7 = Ok true /\ eq_float 0x41a40000 0x41a4cccd eps_1em7 = Ok false
  /\ eq_float 0 0x00800000 eps_1em7 = Ok false /\ eq_float 0 0x80000000 eps_1em7 = Ok true
  /\ eq_float 0 1 eps_1em7 = Ok false /\ eq_float 0x7f800000 0xff800000 eps_1em7 = Ok false.
Proof. vm_compute. split_and!; reflexivity. Qed.
