(* ===== verification/SmStruct.v ===== *)
(** C structs that the plain encodings copy whole with [memcpy].

    The object of a struct is the sequence of its members, in host order, with
    the padding that x86-64 puts between and after them: a member of its own
    for the model, because [memcpy] carries it over.  [CStruct] describes a
    struct by the sizes of these members, the integers in them and the value
    they make up; its law says that no bit of an object is lost. *)

From S2P Require Import Prelude SmCodec.

(** ** Little-endian integers, both ways *)

Lemma le_mod n v : le n (v mod 256 ^ Z.of_nat n) = le n v.
Proof.
  revert v. induction n as [|n IH]; intros v; [done|]. unfold le; fold le.
  assert (Hpow : 256 ^ Z.of_nat (S n) = 256 * 256 ^ Z.of_nat n)
    by (rewrite Nat2Z.inj_succ, Z.pow_succ_r by lia; lia).
  rewrite Hpow. f_equal.
  - rewrite Z.rem_mul_r by lia. rewrite Z.mul_comm, Z.mod_add by lia. by apply Zmod_mod.
  - rewrite Z.rem_mul_r by lia.
    rewrite Z.mul_comm, Z.div_add, Z.div_small, Z.add_0_l by (lia || (apply Z.mod_pos_bound; lia)).
    apply IH.
Qed.

Lemma le_s64 v : le 8 (s64 v) = le 8 v.
Proof.
  rewrite <- (le_mod 8 (s64 v)), <- (le_mod 8 v). f_equal. change (256 ^ Z.of_nat 8) with (2 ^ 64).
  unfold s64. rewrite Zminus_mod_idemp_l. f_equal. lia.
Qed.

Lemma s64_range v : - 2 ^ 63 <= s64 v < 2 ^ 63.
Proof. unfold s64. pose proof (Z.mod_pos_bound (v + 2 ^ 63) (2 ^ 64)). lia. Qed.

Lemma unle_fits d : Forall byte_ok d -> fits (length d) (unle d).
Proof.
  unfold fits. induction 1 as [|b d Hb Hd IH]; [done|]. cbn [unle length]. unfold byte_ok in Hb.
  rewrite Nat2Z.inj_succ, Z.pow_succ_r by lia. lia.
Qed.

Lemma le_unle d : Forall byte_ok d -> le (length d) (unle d) = d.
Proof.
  induction 1 as [|b d Hb Hd IH]; [done|]. unfold byte_ok in Hb.
  change (le (length (b :: d)) (unle (b :: d)))
    with ((b + 256 * unle d) mod 256 :: le (length d) ((b + 256 * unle d) / 256)).
  rewrite (Z.mul_comm 256), Z.mod_add, Z.mod_small, Z.div_add, Z.div_small, Z.add_0_l by lia. by rewrite IH.
Qed.

Lemma le_bytes n v : Forall byte_ok (le n v).
Proof.
  revert v. induction n as [|n IH]; intros v; [constructor|]. constructor; [|apply IH].
  apply Z.mod_pos_bound. lia.
Qed.

(** [int8_t] and [int16_t]. *)
Definition s8 (z : Z) : Z := (z + 2 ^ 7) mod 2 ^ 8 - 2 ^ 7.
Definition s16 (z : Z) : Z := (z + 2 ^ 15) mod 2 ^ 16 - 2 ^ 15.

Lemma u8_s8 z : fits 1 z -> u8 (s8 z) = z.
Proof. intros H. unfold s8, wrap. rewrite Zminus_mod_idemp_l, Z.add_simpl_r. by apply Z.mod_small. Qed.

Lemma u16_s16 z : fits 2 z -> u16 (s16 z) = z.
Proof. intros H. unfold s16, wrap. rewrite Zminus_mod_idemp_l, Z.add_simpl_r. by apply Z.mod_small. Qed.

Lemma u32_s32 z : fits 4 z -> u32 (s32 z) = z.
Proof. intros H. unfold s32, wrap. rewrite Zminus_mod_idemp_l, Z.add_simpl_r. by apply Z.mod_small. Qed.

Lemma u64_s64 z : fits 8 z -> u64 (s64 z) = z.
Proof. intros H. unfold s64, wrap. rewrite Zminus_mod_idemp_l, Z.add_simpl_r. by apply Z.mod_small. Qed.

(** ** Sequences of members *)

Fixpoint lay_words (sizes : list nat) (vs : list Z) : bytes :=
  match sizes, vs with
  | n :: sizes, v :: vs => le n v ++ lay_words sizes vs
  | _, _ => []
  end.

Fixpoint split_words (sizes : list nat) (d : bytes) : list Z :=
  match sizes with
  | [] => []
  | n :: sizes => unle (take n d) :: split_words sizes (drop n d)
  end.

Definition words_size (sizes : list nat) : nat := foldr plus 0%nat sizes.

Lemma length_lay_words sizes vs :
  Forall2 fits sizes vs -> length (lay_words sizes vs) = words_size sizes.
Proof.
  induction 1 as [|n v sizes vs _ _ IH]; [done|]. simpl. rewrite length_app, IH. f_equal.
  pose proof (zlen_le n v). unfold zlen in *. lia.
Qed.

Lemma split_lay_words sizes vs : Forall2 fits sizes vs -> split_words sizes (lay_words sizes vs) = vs.
Proof.
  induction 1 as [|n v sizes vs Hv _ IH]; [done|]. simpl.
  assert (Hl : length (le n v) = n) by (pose proof (zlen_le n v); unfold zlen in *; lia).
  rewrite take_app_length', drop_app_length', unle_le_small by done. by rewrite IH.
Qed.

Lemma split_words_ok sizes d :
  Forall byte_ok d -> length d = words_size sizes ->
  Forall2 fits sizes (split_words sizes d) /\ lay_words sizes (split_words sizes d) = d.
Proof.
  revert d. induction sizes as [|n sizes IH]; intros d Hd Hl; simpl.
  - split; [constructor|]. by destruct d.
  - simpl in Hl. destruct (IH (drop n d)) as [Hf He]; [by apply Forall_drop|rewrite length_drop; lia|].
    assert (Ht : length (take n d) = n) by (rewrite length_take; lia).
    pose proof (unle_fits (take n d)) as Hfit. pose proof (le_unle (take n d)) as Hle. rewrite Ht in Hfit, Hle.
    split; [constructor; [apply Hfit, Forall_take, Hd|done]|].
    rewrite Hle, He by by apply Forall_take. apply take_drop.
Qed.

(** ** Structs *)

Class CStruct (T : Type) := {
  cs_sizes : list nat;
  cs_words : T -> list Z;
  cs_make : list Z -> T;
  cs_law : forall l, Forall2 fits cs_sizes l -> cs_words (cs_make l) = l
}.

(** A value made of the first [n] integers of a list. *)
Fixpoint zfun (n : nat) (T : Type) : Type :=
  match n with O => T | S n' => Z -> zfun n' T end.

Fixpoint zapply {T} (n : nat) : zfun n T -> list Z -> T :=
  match n with
  | O => fun f _ => f
  | S n' => fun f l => zapply n' (f (hd 0 l)) (tl l)
  end.

(** The law of a struct whose members are all unsigned holds by computation,
    once the list is known to have as many integers as there are members. *)
Ltac cstruct_law :=
  let l := fresh "l" in let H := fresh "H" in
  intros l H; cbn [replicate app] in H;
  repeat match type of H with
  | Forall2 _ (_ :: _) _ => apply Forall2_cons_inv_l in H; destruct H as (? & ? & ? & H & ->)
  | Forall2 _ [] _ => apply Forall2_nil_inv_l in H; subst
  end;
  cbn -[s8 s16 s32 s64 wrap]; rewrite ?u8_s8, ?u16_s16, ?u32_s32, ?u64_s64 by done; reflexivity.

Section Object.
Context {T : Type} `{CStruct T}.

Definition sizeof : Z := Z.of_nat (words_size cs_sizes).

(** The bytes of an object. *)
Definition obj (x : T) : bytes := lay_words cs_sizes (cs_words x).

(** The values that an object can have. *)
Definition wf_obj (x : T) : Prop := Forall2 fits cs_sizes (cs_words x) /\ cs_make (cs_words x) = x.

(** [memcpy(it, &x, sizeof(x))] and [memcpy(&x, it, sizeof(x))]. *)
Definition put_obj (buf : bytes) (it : Z) (x : T) : res (bytes * Z) :=
  let* buf := buf_write buf it (obj x) in Ok (buf, sizeof).

Definition get_obj (buf : bytes) (it : Z) : res (T * Z) :=
  let* d := buf_read buf it sizeof in Ok (cs_make (split_words cs_sizes d), sizeof).

Lemma zlen_obj x : wf_obj x -> zlen (obj x) = sizeof.
Proof. intros [Hf _]. unfold zlen, obj, sizeof. by rewrite length_lay_words. Qed.

Lemma make_obj x : wf_obj x -> cs_make (split_words cs_sizes (obj x)) = x.
Proof. intros [Hf Hx]. unfold obj. by rewrite split_lay_words. Qed.

Lemma made_obj d :
  Forall byte_ok d -> zlen d = sizeof ->
  let x := cs_make (split_words cs_sizes d) in wf_obj x /\ obj x = d.
Proof.
  intros Hd Hl x. destruct (split_words_ok cs_sizes d Hd) as [Hf He]; [unfold zlen, sizeof in *; lia|].
  subst x. unfold wf_obj, obj. by rewrite cs_law.
Qed.

#[export] Instance put_obj_fills : Fills obj wf_obj put_obj.
Proof.
  intros buf it x Hx Hit Hroom. unfold put_obj. rewrite buf_write_splice by done. cbn [rbind].
  by rewrite zlen_obj.
Qed.

#[export] Instance get_obj_reads : Reads obj wf_obj get_obj.
Proof.
  intros buf it x Hx Hat%buf_read_at. rewrite zlen_obj in Hat by done. unfold get_obj. rewrite Hat. cbn [rbind].
  by rewrite make_obj, zlen_obj.
Qed.

Lemma zlen_objs l : Forall wf_obj l -> zlen (lay_array obj l) = sizeof * zlen l.
Proof.
  unfold lay_array. induction 1 as [|x l Hx Hl IH]; simpl; [unfold zlen; simpl; lia|].
  rewrite zlen_app, zlen_cons, IH, zlen_obj by done. lia.
Qed.

(** Reading [n] objects from bytes of which nothing is known: all of them are
    inside of the buffer, and are the bytes there, or the read leaves it. *)
Lemma get_objs_total n buf it sz :
  Forall byte_ok buf -> 0 <= it <= zlen buf ->
  match read_array get_obj buf it sz n with
  | Ok (l, sz') => it + sizeof * Z.of_nat n <= zlen buf /\ sz' = sz + sizeof * Z.of_nat n /\
      length l = n /\ Forall wf_obj l /\
      take (Z.to_nat (sizeof * Z.of_nat n)) (drop (Z.to_nat it) buf) = lay_array obj l
  | Fail f => f = FBounds /\ zlen buf < it + sizeof * Z.of_nat n
  end.
Proof.
  intros Hbuf. revert it sz. assert (Hs : 0 <= sizeof) by (unfold sizeof; lia).
  induction n as [|n IH]; intros it sz Hit; cbn [read_array].
  { rewrite Z.mul_0_r. split_and!; [lia..|done|constructor|done]. }
  unfold get_obj at 1. destruct (buf_read buf it sizeof) as [d|f] eqn:Hr; cbn [rbind].
  2: { unfold buf_read in Hr.
    destruct (0 <=? it) eqn:?, (0 <=? sizeof) eqn:?, (it + sizeof <=? zlen buf) eqn:?; simplify_eq/=;
      try lia; split; (done || nia). }
  pose proof (buf_read_len _ _ _ _ Hr) as Hlen. apply buf_read_inv in Hr as (_ & _ & Hroom & Hd).
  assert (Hdok : Forall byte_ok d) by (subst d; by apply Forall_take, Forall_drop).
  destruct (made_obj d Hdok Hlen) as [Hwf Hobj].
  set (x := cs_make (split_words cs_sizes d)) in *. clearbody x.
  specialize (IH (it + sizeof) (sz + sizeof) ltac:(lia)).
  destruct (read_array get_obj buf (it + sizeof) (sz + sizeof) n) as [[l sz']|f]; cbn [rbind];
    [|destruct IH; split; [done|nia]].
  destruct IH as (Hroom' & -> & Hn & Hl & Hlay). split_and!; [nia|nia|simpl; lia|by constructor|].
  change (lay_array obj (x :: l)) with (obj x ++ lay_array obj l). rewrite Hobj, <- Hlay, Hd.
  replace (Z.to_nat (sizeof * Z.of_nat (S n))) with (Z.to_nat sizeof + Z.to_nat (sizeof * Z.of_nat n))%nat by nia.
  rewrite Z2Nat.inj_add, <- drop_drop by lia. symmetry. apply take_take_drop.
Qed.
End Object.

Arguments sizeof T {_}.
#[global] Arguments obj : simpl never.

(** ** Readers of bytes of which nothing is known *)

Lemma at_pos_join buf it d1 d2 :
  at_pos buf it d1 -> at_pos buf (it + zlen d1) d2 -> at_pos buf it (d1 ++ d2).
Proof.
  intros [Hit (p1 & Hd1)] [Hit2 (p2 & Hd2)]. split; [done|]. exists p2. rewrite <- app_assoc, <- Hd2, Hd1.
  f_equal. rewrite Z2Nat.inj_add, <- drop_drop, Hd1 by (pose proof (zlen_nonneg d1); lia).
  unfold zlen. by rewrite Nat2Z.id, drop_app_length.
Qed.

Lemma at_pos_nil buf it : 0 <= it <= zlen buf -> at_pos buf it [].
Proof. intros. split; [done|]. by eexists. Qed.

Lemma at_pos_all buf d : at_pos buf 0 d -> zlen d = zlen buf -> d = buf.
Proof.
  intros [_ (post & Hd)] Hl. change (Z.to_nat 0) with 0%nat in Hd. rewrite drop_0 in Hd. subst buf. rewrite zlen_app in Hl.
  rewrite (zlen_0_nil post) by (pose proof (zlen_nonneg post); lia). by rewrite app_nil_r.
Qed.

Lemma at_pos_read buf it d : buf_read buf it (zlen d) = Ok d -> at_pos buf it d.
Proof.
  intros (H1 & H2 & H3 & Hd)%buf_read_inv. split; [lia|]. eexists. rewrite Hd at 1. symmetry. apply take_drop.
Qed.

Lemma at_pos_whole d : at_pos d 0 d.
Proof. rewrite <- (app_nil_r d) at 1. apply at_pos_start. Qed.

(** A reader that stays inside of the buffer: it returns a value whose bytes
    are there, or stops in the way [f] where [bad] holds. *)
Class Total {A} (lay : A -> bytes) (wf : A -> Prop) (read : bytes -> Z -> res (A * Z)) (f : failure) : Prop :=
  total : forall buf it, Forall byte_ok buf -> 0 <= it <= zlen buf ->
    match read buf it with
    | Ok (a, n) => wf a /\ n = zlen (lay a) /\ it + n <= zlen buf /\ at_pos buf it (lay a)
    | Fail g => g = f
    end.

Lemma read_array_total {A} (lay : A -> bytes) wf read f `{!Total lay wf read f} n buf it sz :
  Forall byte_ok buf -> 0 <= it <= zlen buf ->
  match read_array read buf it sz n with
  | Ok (l, sz') => length l = n /\ Forall wf l /\ sz' = sz + zlen (lay_array lay l) /\
      it + zlen (lay_array lay l) <= zlen buf /\ at_pos buf it (lay_array lay l)
  | Fail g => g = f
  end.
Proof.
  intros Hbuf. revert it sz. induction n as [|n IH]; intros it sz Hit; cbn [read_array].
  { split_and!; [done|constructor|unfold zlen; simpl; lia|unfold zlen in *; simpl; lia|by apply at_pos_nil]. }
  pose proof (total buf it Hbuf Hit) as Hr.
  destruct (read buf it) as [[a k]|g]; cbn [rbind]; [|done]. destruct Hr as (Ha & -> & Hk & Hat).
  pose proof (zlen_nonneg (lay a)).
  specialize (IH (it + zlen (lay a)) (sz + zlen (lay a)) ltac:(lia)).
  destruct (read_array read buf (it + zlen (lay a)) (sz + zlen (lay a)) n) as [[l sz']|g]; cbn [rbind]; [|done].
  destruct IH as (Hn & Hl & -> & Hroom & Hat').
  change (lay_array lay (a :: l)) with (lay a ++ lay_array lay l). rewrite zlen_app.
  split_and!; [simpl; lia|by constructor|lia|lia|by apply at_pos_join].
Qed.

Lemma get_total n buf it :
  Forall byte_ok buf -> 0 <= it ->
  match get n buf it with
  | Ok v => fits n v /\ it + Z.of_nat n <= zlen buf /\ at_pos buf it (le n v)
  | Fail f => f = FBounds /\ zlen buf < it + Z.of_nat n
  end.
Proof.
  intros Hbuf Hit. unfold get. destruct (buf_read buf it (Z.of_nat n)) as [d|f] eqn:Hr; cbn [rbind].
  - pose proof (buf_read_len _ _ _ _ Hr) as Hl. pose proof Hr as (_ & _ & Hroom & Hd)%buf_read_inv.
    assert (Hok : Forall byte_ok d) by (subst d; by apply Forall_take, Forall_drop).
    assert (Hn : n = length d) by (unfold zlen in Hl; lia). rewrite Hn at 1 3.
    rewrite le_unle by done. split_and!; [by apply unle_fits|lia|].
    apply at_pos_read. by rewrite Hl.
  - unfold buf_read in Hr. destruct (0 <=? it) eqn:?, (0 <=? Z.of_nat n) eqn:?,
      (it + Z.of_nat n <=? zlen buf) eqn:?; simplify_eq/=; try lia; (split; [done|lia]).
Qed.

#[export] Instance get_obj_total {T} `{CStruct T} : Total obj wf_obj get_obj FBounds.
Proof.
  intros buf it Hbuf Hit. pose proof (get_objs_total 1 buf it 0 Hbuf Hit) as Hr. cbn [read_array] in Hr.
  destruct (get_obj buf it) as [[x n]|g] eqn:Hg; cbn [rbind] in Hr; [|by destruct Hr].
  destruct Hr as (Hroom & Hn & _ & Hwf & Hd). inversion Hwf as [|?? Hx]; subst.
  change (lay_array obj [x]) with (obj x ++ []) in Hd. rewrite app_nil_r in Hd.
  rewrite zlen_obj by done. split_and!; [done|lia|lia|]. split; [done|]. eexists.
  rewrite <- Hd. symmetry. apply take_drop.
Qed.
