(* ===== verification/SmMonad.v ===== *)
(** Writers and readers of the plain encodings, composed.

    The traffic-control model is encoded by a hundred small functions, each of
    which copies some members at a cursor, moves it and returns how far it went:
    [memcpy(it, &x, n); it += n; sz += n;].  A writer and a reader are such
    functions; the sequence of two of them adds up the bytes they went over.
    Three judgements follow the code: what a writer writes, what a reader makes
    of bytes that it expects, and what it can make of any bytes at all. *)

From S2P Require Import Prelude SmCodec SmStruct.

(** ** Writers *)

Definition writer : Type := bytes -> Z -> res (bytes * Z).

Definition w_nil : writer := fun buf it => Ok (buf, 0).
(** A failed [assert(0!=0)]. *)
Definition w_stop : writer := fun buf it => Fail FExit.
(** [assert(it < buf + len)] *)
Definition w_inside : writer := fun buf it => let* _ := assert_ (it <? zlen buf) in Ok (buf, 0).

Definition w_u32 (v : Z) : writer := fun buf it => let* buf := put 4 buf it v in Ok (buf, 4).
Definition w_i32 (v : Z) : writer := w_u32 (u32 v).
Definition w_i64 (v : Z) : writer := fun buf it => let* buf := put 8 buf it (u64 v) in Ok (buf, 8).

Definition w_seq (w1 w2 : writer) : writer := fun buf it =>
  let* (buf, n) := w1 buf it in
  let* (buf, m) := w2 buf (it + n) in
  Ok (buf, n + m).

Declare Scope codec_scope.
Notation "a >>> b" := (w_seq a b) (at level 60, right associativity) : codec_scope.
#[global] Open Scope codec_scope.

Fixpoint w_list {A} (w : A -> writer) (l : list A) : writer :=
  match l with
  | [] => w_nil
  | a :: l => w a >>> w_list w l
  end.

(** ** Readers *)

Definition reader (A : Type) : Type := bytes -> Z -> res (A * Z).

Definition r_ret {A} (a : A) : reader A := fun buf it => Ok (a, 0).
Definition r_stop {A} : reader A := fun buf it => Fail FExit.
Definition r_inside : reader unit := fun buf it => let* _ := assert_ (it <? zlen buf) in Ok (tt, 0).

Definition r_u32 : reader Z := fun buf it => let* v := get 4 buf it in Ok (v, 4).
Definition r_i32 : reader Z := fun buf it => let* v := get 4 buf it in Ok (s32 v, 4).
Definition r_i64 : reader Z := fun buf it => let* v := get 8 buf it in Ok (s64 v, 8).

Definition r_bind {A B} (r : reader A) (k : A -> reader B) : reader B := fun buf it =>
  let* (a, n) := r buf it in
  let* (b, m) := k a buf (it + n) in
  Ok (b, n + m).

Notation "'let!' x := r 'in' k" := (r_bind r (fun x => k))
  (at level 10, x pattern, r at level 100, k at level 200) : codec_scope.

Fixpoint r_list {A} (r : reader A) (n : nat) : reader (list A) :=
  match n with
  | O => r_ret []
  | S n => let! a := r in let! l := r_list r n in r_ret (a :: l)
  end.

(** ** Messages *)

(** A buffer of [sz] bytes is written from its start; the cursor has to end
    at its end. *)
Definition run_writer (malloc : Z -> bytes) (sz : Z) (w : writer) : res bytes :=
  let* (buf, n) := w (malloc sz) 0 in
  let* _ := assert_ (n =? zlen buf) in
  Ok buf.

Definition run_reader {A} (r : reader A) (buf : bytes) : res A :=
  let* (a, n) := r buf 0 in
  let* _ := assert_ (n =? zlen buf) in
  Ok a.

(** ** What a writer writes

    [w] writes [d] wherever there are [k] bytes of room after it. *)
Definition writes (k : Z) (w : writer) (d : bytes) : Prop :=
  forall buf it, 0 <= it -> it + zlen d + k <= zlen buf -> w buf it = Ok (splice buf it d, zlen d).

Lemma writes_nil : writes 0 w_nil [].
Proof. intros buf it Hit _. unfold w_nil. by rewrite splice_nil. Qed.

Lemma writes_inside : writes 1 w_inside [].
Proof.
  intros buf it Hit Hroom. unfold w_inside. rewrite zlen_nil in Hroom.
  rewrite (proj2 (Z.ltb_lt _ _)) by lia. by rewrite splice_nil.
Qed.

Lemma writes_u32 v : writes 0 (w_u32 v) (le 4 v).
Proof. intros buf it Hit Hroom. unfold w_u32. rewrite zlen_le in *. by rewrite put_ok by lia. Qed.

Lemma writes_i32 v : writes 0 (w_i32 v) (le 4 (u32 v)).
Proof. apply writes_u32. Qed.

Lemma writes_i64 v : writes 0 (w_i64 v) (le 8 (u64 v)).
Proof. intros buf it Hit Hroom. unfold w_i64. rewrite zlen_le in *. by rewrite put_ok by lia. Qed.

Lemma writes_obj {T} `{CStruct T} (x : T) : wf_obj x -> writes 0 (fun buf it => put_obj buf it x) (obj x).
Proof. intros Hx buf it Hit Hroom. apply (fills (lay := obj)); [done..|lia]. Qed.

Lemma writes_seq k j w1 w2 d1 d2 :
  0 <= k -> writes j w1 d1 -> j <= zlen d2 + k -> writes k w2 d2 -> writes k (w1 >>> w2) (d1 ++ d2).
Proof.
  intros Hk H1 Hj H2 buf it Hit Hroom. pose proof (zlen_nonneg d1). pose proof (zlen_nonneg d2).
  rewrite zlen_app in Hroom. unfold w_seq. rewrite H1 by lia. cbn [rbind].
  rewrite H2 by (rewrite ?zlen_splice; lia). cbn [rbind]. by rewrite splice_splice, zlen_app by lia.
Qed.

Lemma writes_room k j w d : writes j w d -> j <= k -> writes k w d.
Proof. intros Hw Hj buf it Hit Hroom. apply Hw; lia. Qed.

(** The two ways of sequencing: nothing is asked about the end of the buffer,
    or one byte has to follow. *)
Lemma writes_then k w1 w2 d1 d2 : 0 <= k -> writes 0 w1 d1 -> writes k w2 d2 -> writes k (w1 >>> w2) (d1 ++ d2).
Proof. intros. pose proof (zlen_nonneg d2). by apply (writes_seq k 0); [|done|lia|]. Qed.

Lemma writes_check k w d : 1 <= zlen d + k -> 0 <= k -> writes k w d -> writes k (w_inside >>> w) d.
Proof. intros. change d with ([] ++ d). by apply (writes_seq k 1); [|apply writes_inside| |]. Qed.

Lemma writes_last_check w d : writes 0 w d -> writes 1 (w >>> w_inside) d.
Proof.
  intros Hw. rewrite <- (app_nil_r d). apply writes_then; [done..|]. apply writes_inside.
Qed.

Lemma writes_list k {A} (w : A -> writer) (lay : A -> bytes) l :
  0 <= k -> Forall (fun a => writes k (w a) (lay a)) l -> writes k (w_list w l) (lay_array lay l).
Proof.
  intros Hk. induction 1 as [|a l Ha Hl IH]; [apply (writes_room k 0); [apply writes_nil|done]|].
  change (lay_array lay (a :: l)) with (lay a ++ lay_array lay l). simpl.
  pose proof (zlen_nonneg (lay_array lay l)). by apply (writes_seq k k); [|done|lia|].
Qed.

Lemma run_writer_ok malloc sz w d :
  (forall n, 0 <= n -> zlen (malloc n) = n) -> writes 0 w d -> sz = zlen d -> run_writer malloc sz w = Ok d.
Proof.
  intros Hm Hw ->. pose proof (zlen_nonneg d). assert (Hl : zlen (malloc (zlen d)) = zlen d) by (by apply Hm).
  unfold run_writer. rewrite Hw by lia. cbn [rbind]. rewrite splice_all by done. by rewrite Z.eqb_refl.
Qed.

(** A buffer with room left fails the last check. *)
Lemma run_writer_long malloc sz w d :
  (forall n, 0 <= n -> zlen (malloc n) = n) -> writes 0 w d -> zlen d < sz -> run_writer malloc sz w = Fail FExit.
Proof.
  intros Hm Hw Hlt. pose proof (zlen_nonneg d). assert (Hl : zlen (malloc sz) = sz) by (apply Hm; lia).
  unfold run_writer. rewrite Hw by lia. cbn [rbind]. rewrite zlen_splice by lia.
  by rewrite (proj2 (Z.eqb_neq _ _)) by lia.
Qed.

(** ** What a reader makes of the bytes that it expects

    [r] reads [d] as [a] wherever [k] bytes follow it. *)
Definition reads_as (k : Z) {A} (r : reader A) (d : bytes) (a : A) : Prop :=
  forall buf it, at_pos buf it d -> it + zlen d + k <= zlen buf -> r buf it = Ok (a, zlen d).

Lemma reads_ret {A} (a : A) : reads_as 0 (r_ret a) [] a.
Proof. done. Qed.

Lemma reads_inside : reads_as 1 r_inside [] tt.
Proof.
  intros buf it _ Hroom. unfold r_inside. rewrite zlen_nil in Hroom. by rewrite (proj2 (Z.ltb_lt _ _)) by lia.
Qed.

Lemma reads_u32 v : fits 4 v -> reads_as 0 r_u32 (le 4 v) v.
Proof. intros Hv buf it Hat _. unfold r_u32. by rewrite (get_fits _ _ _ _ Hat). Qed.

Definition fits_i32 (v : Z) : Prop := - 2 ^ 31 <= v < 2 ^ 31.
Definition fits_i64 (v : Z) : Prop := - 2 ^ 63 <= v < 2 ^ 63.

Lemma s32_u32 v : fits_i32 v -> s32 (u32 v) = v.
Proof. unfold fits_i32, s32, wrap. intros. rewrite Zplus_mod_idemp_l, Z.mod_small by lia. lia. Qed.

Lemma reads_i32 v : fits_i32 v -> reads_as 0 r_i32 (le 4 (u32 v)) v.
Proof.
  intros Hv buf it Hat _. unfold r_i32. rewrite (get_fits _ _ _ _ Hat) by by apply (wrap_range 32).
  cbn [rbind]. by rewrite s32_u32.
Qed.

Lemma reads_i64 v : fits_i64 v -> reads_as 0 r_i64 (le 8 (u64 v)) v.
Proof.
  intros Hv buf it Hat _. unfold r_i64. rewrite (get_fits _ _ _ _ Hat) by by apply (wrap_range 64).
  cbn [rbind]. unfold wrap. by rewrite s64_u64.
Qed.

Lemma reads_obj {T} `{CStruct T} (x : T) : wf_obj x -> reads_as 0 get_obj (obj x) x.
Proof. intros Hx buf it Hat _. by apply (reads (lay := obj)). Qed.

Lemma reads_seq k j {A B} (r : reader A) (f : A -> reader B) d1 d2 a b :
  reads_as j r d1 a -> j <= zlen d2 + k -> reads_as k (f a) d2 b -> reads_as k (r_bind r f) (d1 ++ d2) b.
Proof.
  intros H1 Hj H2 buf it Hat Hroom. apply at_pos_app in Hat as [Hat1 Hat2]. rewrite zlen_app in Hroom.
  unfold r_bind. rewrite H1 by (done || lia). cbn [rbind]. rewrite H2 by (done || lia). cbn [rbind].
  by rewrite zlen_app.
Qed.

Lemma reads_room k j {A} (r : reader A) d a : reads_as j r d a -> j <= k -> reads_as k r d a.
Proof. intros Hr Hj buf it Hat Hroom. apply Hr; [done|lia]. Qed.

Lemma reads_then k {A B} (r : reader A) (f : A -> reader B) d1 d2 a b :
  0 <= k -> reads_as 0 r d1 a -> reads_as k (f a) d2 b -> reads_as k (r_bind r f) (d1 ++ d2) b.
Proof. intros. pose proof (zlen_nonneg d2). apply (reads_seq k 0 _ _ _ _ a); [done|lia|done]. Qed.

Lemma reads_check k {B} (f : unit -> reader B) d b :
  1 <= zlen d + k -> reads_as k (f tt) d b -> reads_as k (r_bind r_inside f) d b.
Proof. intros. change d with ([] ++ d). by apply (reads_seq k 1 _ _ _ _ tt); [apply reads_inside| |]. Qed.

(** The last read of a function. *)
Lemma reads_last k {A B} (r : reader A) (f : A -> B) d a b :
  0 <= k -> reads_as k r d a -> f a = b -> reads_as k (let! x := r in r_ret (f x)) d b.
Proof.
  intros Hk Hr <-. rewrite <- (app_nil_r d). apply (reads_seq k k _ _ _ _ a); [done|rewrite zlen_nil; lia|].
  by apply (reads_room k 0).
Qed.

Lemma reads_list k {A} (r : reader A) (lay : A -> bytes) l :
  0 <= k -> Forall (fun a => reads_as k r (lay a) a) l -> reads_as k (r_list r (length l)) (lay_array lay l) l.
Proof.
  intros Hk. induction 1 as [|a l Ha Hl IH]; [by apply (reads_room k 0)|].
  change (lay_array lay (a :: l)) with (lay a ++ lay_array lay l). simpl.
  pose proof (zlen_nonneg (lay_array lay l)). apply (reads_seq k k _ _ _ _ a); [done|lia|].
  by apply (reads_last k _ (cons a) _ l).
Qed.

Lemma run_reader_ok {A} (r : reader A) d a : reads_as 0 r d a -> run_reader r d = Ok a.
Proof.
  intros Hr. unfold run_reader. rewrite Hr by (apply at_pos_whole || lia). cbn [rbind]. by rewrite Z.eqb_refl.
Qed.

(** Bytes after the message are refused. *)
Lemma run_reader_long {A} (r : reader A) d post a :
  reads_as 0 r d a -> post <> [] -> run_reader r (d ++ post) = Fail FExit.
Proof.
  intros Hr Hp. pose proof (zlen_nonneg d). unfold run_reader.
  assert (0 < zlen post) by (destruct post; [done|rewrite zlen_cons; pose proof (zlen_nonneg post); lia]).
  rewrite Hr by (apply at_pos_start || (rewrite zlen_app; lia)). cbn [rbind].
  by rewrite (proj2 (Z.eqb_neq _ _)) by (rewrite zlen_app; lia).
Qed.

(** ** What a reader makes of any bytes

    What [r] returns relates by [P] to the bytes that it went over; [r] always
    comes to an end. *)
Definition sound {A} (r : reader A) (P : A -> bytes -> Prop) : Prop :=
  forall buf it, Forall byte_ok buf -> 0 <= it <= zlen buf ->
    match r buf it with
    | Ok (a, n) => exists d, P a d /\ at_pos buf it d /\ n = zlen d
    | Fail f => f <> FFuel
    end.

Lemma sound_ret {A} (a : A) (P : A -> bytes -> Prop) : P a [] -> sound (r_ret a) P.
Proof. intros Ha buf it _ Hit. exists []. split; [done|]. split; [by apply at_pos_nil|done]. Qed.

Lemma sound_stop {A} (P : A -> bytes -> Prop) : sound r_stop P.
Proof. done. Qed.

Lemma sound_inside (P : unit -> bytes -> Prop) : P tt [] -> sound r_inside P.
Proof.
  intros Ha buf it _ Hit. unfold r_inside, assert_. destruct (it <? zlen buf); cbn [rbind]; [|done].
  exists []. split; [done|]. split; [by apply at_pos_nil|done].
Qed.

Lemma sound_bind {A B} (r : reader A) (k : A -> reader B) P (Q : B -> bytes -> Prop) :
  sound r P -> (forall a d, P a d -> sound (k a) (fun b d' => Q b (d ++ d'))) -> sound (r_bind r k) Q.
Proof.
  intros Hr Hk buf it Hbuf Hit. unfold r_bind. specialize (Hr buf it Hbuf Hit).
  destruct (r buf it) as [[a n]|f]; cbn [rbind]; [|done]. destruct Hr as (d & HP & Hat & ->).
  pose proof (at_pos_room _ _ _ Hat) as [_ Hroom]. pose proof (zlen_nonneg d).
  specialize (Hk a d HP buf (it + zlen d) Hbuf ltac:(lia)).
  destruct (k a buf (it + zlen d)) as [[b m]|f]; cbn [rbind]; [|done]. destruct Hk as (d' & HQ & Hat' & ->).
  exists (d ++ d'). split; [done|]. split; [by apply at_pos_join|]. by rewrite zlen_app.
Qed.

Lemma sound_weaken {A} (r : reader A) (P Q : A -> bytes -> Prop) :
  sound r P -> (forall a d, P a d -> Q a d) -> sound r Q.
Proof.
  intros Hr HPQ buf it Hbuf Hit. specialize (Hr buf it Hbuf Hit). destruct (r buf it) as [[a n]|f]; [|done].
  destruct Hr as (d & HP & ?). exists d. by split; [apply HPQ|].
Qed.

(** The bytes are the layout of the value, which is well-formed. *)
Definition parses {A} (r : reader A) (lay : A -> bytes) (wf : A -> Prop) : Prop :=
  sound r (fun a d => wf a /\ d = lay a).

Lemma parses_u32 : parses r_u32 (le 4) (fits 4).
Proof.
  intros buf it Hbuf Hit. unfold r_u32. pose proof (get_total 4 buf it Hbuf ltac:(lia)) as Hg.
  destruct (get 4 buf it) as [v|f]; cbn [rbind]; [|by destruct Hg as [-> _]]. destruct Hg as (Hv & _ & Hat).
  exists (le 4 v). by rewrite zlen_le.
Qed.

Lemma parses_i32 : parses r_i32 (fun v => le 4 (u32 v)) fits_i32.
Proof.
  intros buf it Hbuf Hit. unfold r_i32. pose proof (get_total 4 buf it Hbuf ltac:(lia)) as Hg.
  destruct (get 4 buf it) as [v|f]; cbn [rbind]; [|by destruct Hg as [-> _]]. destruct Hg as (Hv & _ & Hat).
  exists (le 4 v). rewrite u32_s32, zlen_le by done. split_and!; try done.
  unfold fits_i32, s32. pose proof (Z.mod_pos_bound (v + 2 ^ 31) (2 ^ 32)). lia.
Qed.

Lemma parses_i64 : parses r_i64 (fun v => le 8 (u64 v)) fits_i64.
Proof.
  intros buf it Hbuf Hit. unfold r_i64. pose proof (get_total 8 buf it Hbuf ltac:(lia)) as Hg.
  destruct (get 8 buf it) as [v|f]; cbn [rbind]; [|by destruct Hg as [-> _]]. destruct Hg as (Hv & _ & Hat).
  exists (le 8 v). rewrite u64_s64, zlen_le by done. split_and!; try done; apply s64_range.
Qed.

Lemma parses_obj {T} `{CStruct T} : parses get_obj obj wf_obj.
Proof.
  intros buf it Hbuf Hit. pose proof (total (lay := obj) (read := get_obj) buf it Hbuf Hit) as Ht.
  destruct (get_obj buf it) as [[x n]|f]; [|by rewrite Ht]. destruct Ht as (Hx & -> & _ & Hat). by exists (obj x).
Qed.

Lemma parses_then {A B} (r : reader A) (k : A -> reader B) lay wf (Q : B -> bytes -> Prop) :
  parses r lay wf -> (forall a, wf a -> sound (k a) (fun b d => Q b (lay a ++ d))) -> sound (r_bind r k) Q.
Proof. intros Hr Hk. eapply sound_bind; [apply Hr|]. intros a d [Ha ->]. by apply Hk. Qed.

Lemma parses_inside {B} (k : unit -> reader B) (Q : B -> bytes -> Prop) : sound (k tt) Q -> sound (r_bind r_inside k) Q.
Proof. intros Hk. eapply (sound_bind _ _ (fun _ d => d = [])); [by apply sound_inside|]. by intros [] d ->. Qed.

Lemma parses_list {A} (r : reader A) lay wf n :
  parses r lay wf -> sound (r_list r n) (fun l d => length l = n /\ Forall wf l /\ d = lay_array lay l).
Proof.
  intros Hr. induction n as [|n IH]; [by apply sound_ret|]. simpl.
  eapply sound_bind; [apply Hr|]. intros a d [Ha ->]. eapply sound_bind; [apply IH|]. intros l d (Hn & Hl & ->).
  apply sound_ret. rewrite app_nil_r. split_and!; [by simpl; f_equal|by constructor|done].
Qed.

(** A decoder accepts exactly the layouts of the well-formed values. *)
Lemma run_reader_exact {A} (r : reader A) lay wf buf a :
  Forall byte_ok buf -> parses r lay wf -> (forall a, wf a -> reads_as 0 r (lay a) a) ->
  run_reader r buf = Ok a <-> wf a /\ lay a = buf.
Proof.
  intros Hbuf Hp Hr. split; [|intros [Ha <-]; by apply run_reader_ok, Hr]. unfold run_reader.
  pose proof (zlen_nonneg buf). specialize (Hp buf 0 Hbuf ltac:(lia)).
  destruct (r buf 0) as [[b n]|f]; cbn [rbind]; [|done]. destruct Hp as (d & [Hb ->] & Hat & ->).
  unfold assert_. case_bool_; cbn [rbind]; [|done]. intros [= ->]. split; [done|]. apply at_pos_all; [done|by apply Z.eqb_eq].
Qed.

(** An encoding that is cut short is not the layout of another value. *)
Lemma run_reader_cut {A} (r : reader A) lay wf a n :
  Forall byte_ok (lay a) -> parses r lay wf -> (forall a, wf a -> reads_as 0 r (lay a) a) -> wf a ->
  (n < length (lay a))%nat -> exists f, run_reader r (take n (lay a)) = Fail f /\ f <> FFuel.
Proof.
  intros Hbytes Hp Hr Ha Hn. set (buf := take n (lay a)).
  assert (Hbuf : Forall byte_ok buf) by by apply Forall_take.
  pose proof (zlen_nonneg buf). pose proof (run_reader_exact r lay wf buf) as Hex.
  unfold run_reader in *. pose proof (Hp buf 0 Hbuf ltac:(lia)) as Hs.
  destruct (r buf 0) as [[b m]|f] eqn:Hb; cbn [rbind] in *; [|by exists f].
  unfold assert_ in *. destruct (m =? zlen buf) eqn:Hm; cbn [rbind] in *; [|by exists FExit].
  exfalso. destruct (Hex b Hbuf Hp Hr) as [Hex1 _]. destruct (Hex1 eq_refl) as [Hwf Heq].
  assert (Hat : at_pos (lay a) 0 (lay b)).
  { rewrite Heq. split; [pose proof (zlen_nonneg (lay a)); lia|]. exists (drop n (lay a)).
    change (Z.to_nat 0) with 0%nat. rewrite drop_0. unfold buf. symmetry. apply take_drop. }
  pose proof (at_pos_room _ _ _ Hat) as [_ Hroom].
  assert (Hra : r (lay a) 0 = Ok (a, zlen (lay a))) by (apply Hr; [done|apply at_pos_whole|lia]).
  assert (Hrb : r (lay a) 0 = Ok (b, zlen (lay b))) by (apply Hr; [done..|lia]).
  rewrite Hrb in Hra. injection Hra as -> _. apply (f_equal length) in Heq. unfold buf in Heq.
  rewrite length_take in Heq. lia.
Qed.

(** ** A length and as many elements *)

Definition lay_counted {A} (lay : A -> bytes) (l : list A) : bytes := le 4 (zlen l) ++ lay_array lay l.

Lemma reads_counted {A} (r : reader A) (lay : A -> bytes) l :
  zlen l < 2 ^ 32 -> Forall (fun a => reads_as 0 r (lay a) a) l ->
  reads_as 0 (let! n := r_u32 in r_list r (Z.to_nat n)) (lay_counted lay l) l.
Proof.
  intros Hl Hr. apply (reads_then 0 _ _ _ _ (zlen l)); [done| |].
  - apply reads_u32. pose proof (zlen_nonneg l). unfold fits. lia.
  - replace (Z.to_nat (zlen l)) with (length l) by (unfold zlen; lia). by apply reads_list.
Qed.

Lemma parses_counted {A} (r : reader A) lay wf :
  parses r lay wf ->
  parses (let! n := r_u32 in r_list r (Z.to_nat n)) (lay_counted lay) (fun l => zlen l < 2 ^ 32 /\ Forall wf l).
Proof.
  intros Hr. eapply sound_bind; [apply parses_u32|]. intros n d [Hn ->].
  eapply sound_weaken; [by apply parses_list|]. intros l d (Hl & Hwf & ->). unfold fits in Hn.
  assert (Hz : zlen l = n) by (unfold zlen; lia). unfold lay_counted. rewrite Hz. split_and!; [lia|done|done].
Qed.
