(* ===== verification/TcData.v ===== *)
(** The information elements of the traffic-control service model
    (flexric/src/sm/tc_sm/ie/tc_data_ie.h), their layout in the plain encoding
    and the values the encoding is meant for.

    A struct with one member is that member.  A struct with a type and a union
    is an inductive type whose constructors are the members of the union, with
    one more for a type that is no member of the enum; two structs of one shape
    share it: the classifiers of the indication and of the three control
    actions are [tc_cls_u], the six structs with an action are [tc_act_u], the
    statistics of the three kinds of queue are [tc_queue_stats_t].  The three
    arrays of [len_q] elements are one list of [tc_flow_t].  A [float] is its
    bit pattern, which is also what the array [bnd_uint] of the union holds. *)

From S2P Require Import Prelude SmCodec SmStruct SmMonad.

(** ** Filters and classifiers *)

Record L3_filter_t := mk_l3 { src_addr : Z; dst_addr : Z }.                 (* int64_t *)
Record L4_filter_t := mk_l4 { src_port : Z; dst_port : Z; protocol : Z }.   (* int32_t *)

(** Copied whole: the padding before the addresses and after the queue. *)
Record tc_cls_osi_filter_t := mk_filter {
  flt_id : Z;
  flt_pad : Z;
  flt_l3 : L3_filter_t;
  flt_l4 : L4_filter_t;
  flt_l7 : Z;                            (* L7_filter_t: [dummy] *)
  flt_dst_queue : Z;                     (* int32_t *)
  flt_pad_end : Z
}.

#[global] Program Instance filter_struct : CStruct tc_cls_osi_filter_t := {|
  cs_sizes := [4; 4; 8; 8; 4; 4; 4; 4; 4; 4]%nat;
  cs_words f :=
    [flt_id f; flt_pad f; u64 (src_addr (flt_l3 f)); u64 (dst_addr (flt_l3 f));
     u32 (src_port (flt_l4 f)); u32 (dst_port (flt_l4 f)); u32 (protocol (flt_l4 f));
     flt_l7 f; u32 (flt_dst_queue f); flt_pad_end f];
  cs_make := zapply 10 (fun id pad src dst sp dp pr l7 q pe =>
    mk_filter id pad (mk_l3 (s64 src) (s64 dst)) (mk_l4 (s32 sp) (s32 dp) (s32 pr)) l7 (s32 q) pe)
|}.
Next Obligation. cstruct_law. Qed.

(** [tc_cls_e] *)
Definition TC_CLS_RR : Z := 0.
Definition TC_CLS_OSI : Z := 1.
Definition TC_CLS_STO : Z := 2.

Inductive tc_cls_u (O : Type) :=
| cls_rr (dummy : Z)
| cls_osi (o : O)
| cls_sto (dummy : Z)
| cls_other (type : Z).
Arguments cls_rr {O} dummy.
Arguments cls_osi {O} o.
Arguments cls_sto {O} dummy.
Arguments cls_other {O} type.

Definition cls_type {O} (c : tc_cls_u O) : Z :=
  match c with
  | cls_rr _ => TC_CLS_RR
  | cls_osi _ => TC_CLS_OSI
  | cls_sto _ => TC_CLS_STO
  | cls_other t => t
  end.

Definition tc_cls_t : Type := tc_cls_u (list tc_cls_osi_filter_t).

(** ** Meters, policers, queues, schedulers, shapers, pacers *)

Record tc_mtr_t := mk_mtr { time_window_ms : Z; bnd_flt : Z }.

Record tc_plc_t := mk_plc {
  plc_id : Z;
  plc_mtr : tc_mtr_t;
  plc_drp : Z;                           (* tc_drp_t: [dropped_pkts] *)
  plc_mrk : Z;                           (* tc_mrk_t: [marked_pkts] *)
  plc_max_rate_kbps : Z;                 (* float *)
  plc_active : Z;
  plc_dst_id : Z;
  plc_dev_id : Z
}.

(** [tc_queue_fifo_t], [tc_queue_codel_t] and [tc_queue_ecn_codel_t]: the fifth
    member counts dropped packets in the first two, marked ones in the third. *)
Record tc_queue_stats_t := mk_queue_stats {
  qs_bytes : Z; qs_pkts : Z; qs_bytes_fwd : Z; qs_pkts_fwd : Z;
  qs_drp_mrk : Z;
  qs_avg_sojourn_time : Z;               (* float *)
  qs_last_sojourn_time : Z               (* int64_t *)
}.

Definition TC_QUEUE_FIFO : Z := 0.
Definition TC_QUEUE_CODEL : Z := 1.
Definition TC_QUEUE_ECN_CODEL : Z := 2.

(** A type of queue and the member of a union for it. *)
Inductive tc_queue_u (F C : Type) :=
| queue_fifo (f : F)
| queue_codel (c : C)
| queue_ecn (e : C)
| queue_other (type : Z).
Arguments queue_fifo {F C} f.
Arguments queue_codel {F C} c.
Arguments queue_ecn {F C} e.
Arguments queue_other {F C} type.

Definition queue_type {F C} (q : tc_queue_u F C) : Z :=
  match q with
  | queue_fifo _ => TC_QUEUE_FIFO
  | queue_codel _ => TC_QUEUE_CODEL
  | queue_ecn _ => TC_QUEUE_ECN_CODEL
  | queue_other t => t
  end.

Record tc_queue_t := mk_queue { queue_id : Z; queue_stats : tc_queue_u tc_queue_stats_t tc_queue_stats_t }.

Definition TC_SCHED_RR : Z := 0.
Definition TC_SCHED_PRIO : Z := 1.

(** [tc_sch_t], and [tc_mod_ctrl_sch_t]. *)
Inductive tc_sch_t :=
| sch_rr (dummy : Z)
| sch_prio (q_prio : list Z)
| sch_other (type : Z).

Definition sch_type (s : tc_sch_t) : Z :=
  match s with
  | sch_rr _ => TC_SCHED_RR
  | sch_prio _ => TC_SCHED_PRIO
  | sch_other t => t
  end.

Record tc_shp_t := mk_shp { shp_id : Z; shp_active : Z; shp_max_rate_kbps : Z; shp_mtr : tc_mtr_t }.

(** The type of a pacer is copied without a look at it. *)
Record tc_pcr_t := mk_pcr { pcr_type : Z; pcr_id : Z; pcr_mtr : tc_mtr_t }.

Record tc_flow_t := mk_flow { fl_shp : tc_shp_t; fl_plc : tc_plc_t; fl_q : tc_queue_t }.

Record tc_ind_msg_t := mk_tc_ind {
  tc_sch : tc_sch_t;
  tc_pcr : tc_pcr_t;
  tc_cls : tc_cls_t;
  tc_flows : list tc_flow_t;
  tc_tstamp : Z                          (* int64_t *)
}.

(** ** Control messages *)

(** [tc_ctrl_act_e] *)
Definition TC_CTRL_ACTION_SM_V0_ADD : Z := 0.
Definition TC_CTRL_ACTION_SM_V0_DEL : Z := 1.
Definition TC_CTRL_ACTION_SM_V0_MOD : Z := 2.

Inductive tc_act_u (A M D : Type) :=
| act_add (a : A)
| act_mod (m : M)
| act_del (d : D)
| act_other (act : Z).
Arguments act_add {A M D} a.
Arguments act_mod {A M D} m.
Arguments act_del {A M D} d.
Arguments act_other {A M D} act.

Definition act_type {A M D} (a : tc_act_u A M D) : Z :=
  match a with
  | act_add _ => TC_CTRL_ACTION_SM_V0_ADD
  | act_mod _ => TC_CTRL_ACTION_SM_V0_MOD
  | act_del _ => TC_CTRL_ACTION_SM_V0_DEL
  | act_other t => t
  end.

Record tc_add_cls_osi_t := mk_add_osi {
  ao_l3 : L3_filter_t; ao_l4 : L4_filter_t; ao_l7 : Z; ao_dst_queue : Z
}.

Definition tc_add_ctrl_cls_t : Type := tc_cls_u tc_add_cls_osi_t.
Definition tc_mod_ctrl_cls_t : Type := tc_cls_u tc_cls_osi_filter_t.
Definition tc_del_ctrl_cls_t : Type := tc_cls_u Z.                        (* [filter_id] *)
Definition tc_ctrl_cls_t : Type := tc_act_u tc_add_ctrl_cls_t tc_mod_ctrl_cls_t tc_del_ctrl_cls_t.

Record tc_mod_ctrl_plc_t := mk_mod_plc {
  mp_id : Z; mp_drop_rate_kbps : Z; mp_dev_id : Z; mp_dev_rate_kbps : Z; mp_active : Z
}.
Definition tc_ctrl_plc_t : Type := tc_act_u Z tc_mod_ctrl_plc_t Z.

(** [tc_ctrl_queue_codel_t], and [tc_ctrl_queue_ecn_codel_t]. *)
Record tc_ctrl_queue_codel_t := mk_codel { target_ms : Z; interval_ms : Z }.
Definition tc_add_ctrl_queue_t : Type := tc_queue_u Z tc_ctrl_queue_codel_t.
Record tc_mod_ctrl_queue_t := mk_mod_queue { mq_id : Z; mq_queue : tc_queue_u Z tc_ctrl_queue_codel_t }.
Record tc_del_ctrl_queue_t := mk_del_queue { dq_id : Z; dq_type : Z }.
Definition tc_ctrl_queue_t : Type := tc_act_u tc_add_ctrl_queue_t tc_mod_ctrl_queue_t tc_del_ctrl_queue_t.

Definition tc_ctrl_sch_t : Type := tc_act_u Z tc_sch_t Z.

Record tc_mod_ctrl_shp_t := mk_mod_shp {
  ms_id : Z; ms_time_window_ms : Z; ms_max_rate_kbps : Z; ms_active : Z
}.
Definition tc_ctrl_shp_t : Type := tc_act_u Z tc_mod_ctrl_shp_t Z.

Record tc_pcr_5g_bdp_t := mk_bdp { drb_sz : Z; bdp_tstamp : Z }.           (* int64_t *)

(** [tc_pcr_e] *)
Definition TC_PCR_DUMMY : Z := 0.
Definition TC_PCR_5G_BDP : Z := 1.

Inductive tc_mod_ctrl_pcr_t :=
| pcr_bdp (b : tc_pcr_5g_bdp_t)
| pcr_dummy (dummy : Z)
| pcr_other (type : Z).

Definition mod_pcr_type (p : tc_mod_ctrl_pcr_t) : Z :=
  match p with
  | pcr_bdp _ => TC_PCR_5G_BDP
  | pcr_dummy _ => TC_PCR_DUMMY
  | pcr_other t => t
  end.
Definition tc_ctrl_pcr_t : Type := tc_act_u Z tc_mod_ctrl_pcr_t Z.

(** [tc_ctrl_msg_e] *)
Definition TC_CTRL_SM_V0_CLS : Z := 0.
Definition TC_CTRL_SM_V0_PLC : Z := 1.
Definition TC_CTRL_SM_V0_QUEUE : Z := 2.
Definition TC_CTRL_SM_V0_SCH : Z := 3.
Definition TC_CTRL_SM_V0_SHP : Z := 4.
Definition TC_CTRL_SM_V0_PCR : Z := 5.

Inductive tc_ctrl_msg_t :=
| tc_ctrl_cls (c : tc_ctrl_cls_t)
| tc_ctrl_plc (p : tc_ctrl_plc_t)
| tc_ctrl_q (q : tc_ctrl_queue_t)
| tc_ctrl_sch (s : tc_ctrl_sch_t)
| tc_ctrl_shp (s : tc_ctrl_shp_t)
| tc_ctrl_pcr (p : tc_ctrl_pcr_t)
| tc_ctrl_other (type : Z).

Definition tc_ctrl_type (m : tc_ctrl_msg_t) : Z :=
  match m with
  | tc_ctrl_cls _ => TC_CTRL_SM_V0_CLS
  | tc_ctrl_plc _ => TC_CTRL_SM_V0_PLC
  | tc_ctrl_q _ => TC_CTRL_SM_V0_QUEUE
  | tc_ctrl_sch _ => TC_CTRL_SM_V0_SCH
  | tc_ctrl_shp _ => TC_CTRL_SM_V0_SHP
  | tc_ctrl_pcr _ => TC_CTRL_SM_V0_PCR
  | tc_ctrl_other t => t
  end.

(** ** Layout *)

Definition lay_i32 (v : Z) : bytes := le 4 (u32 v).
Definition lay_i64 (v : Z) : bytes := le 8 (u64 v).
Definition lay_words_list : list Z -> bytes := lay_counted (le 4).

Definition lay_tc_sch (s : tc_sch_t) : bytes :=
  le 4 (sch_type s) ++ match s with
                       | sch_prio l => lay_words_list l
                       | _ => []
                       end.

Definition lay_mtr (m : tc_mtr_t) : bytes := le 4 (bnd_flt m) ++ le 4 (time_window_ms m).

Definition lay_tc_pcr (p : tc_pcr_t) : bytes := le 4 (pcr_type p) ++ le 4 (pcr_id p) ++ lay_mtr (pcr_mtr p).

Definition lay_cls_u {O} (lay : O -> bytes) (c : tc_cls_u O) : bytes :=
  le 4 (cls_type c) ++ match c with
                       | cls_rr d => le 4 d
                       | cls_osi o => lay o
                       | cls_sto d => le 4 d
                       | cls_other _ => []
                       end.

Definition lay_filters : list tc_cls_osi_filter_t -> bytes := lay_counted obj.

Definition lay_shp (s : tc_shp_t) : bytes :=
  le 4 (shp_id s) ++ le 4 (shp_active s) ++ le 4 (shp_max_rate_kbps s) ++ lay_mtr (shp_mtr s).

Definition lay_plc (p : tc_plc_t) : bytes :=
  le 4 (plc_id p) ++ lay_mtr (plc_mtr p) ++ le 4 (plc_drp p) ++ le 4 (plc_mrk p)
  ++ le 4 (plc_max_rate_kbps p) ++ le 4 (plc_active p) ++ le 4 (plc_dst_id p) ++ le 4 (plc_dev_id p).

Definition lay_queue_stats (q : tc_queue_stats_t) : bytes :=
  le 4 (qs_bytes q) ++ le 4 (qs_pkts q) ++ le 4 (qs_bytes_fwd q) ++ le 4 (qs_pkts_fwd q)
  ++ le 4 (qs_drp_mrk q) ++ le 4 (qs_avg_sojourn_time q) ++ lay_i64 (qs_last_sojourn_time q).

Definition lay_queue_u {F C} (lay_f : F -> bytes) (lay_c : C -> bytes) (q : tc_queue_u F C) : bytes :=
  le 4 (queue_type q) ++ match q with
                         | queue_fifo f => lay_f f
                         | queue_codel c => lay_c c
                         | queue_ecn e => lay_c e
                         | queue_other _ => []
                         end.

(** The identifier of the queue is not sent. *)
Definition lay_queue (q : tc_queue_t) : bytes := lay_queue_u lay_queue_stats lay_queue_stats (queue_stats q).

Definition lay_flow (f : tc_flow_t) : bytes := lay_shp (fl_shp f) ++ lay_plc (fl_plc f) ++ lay_queue (fl_q f).

Definition lay_tc_ind (m : tc_ind_msg_t) : bytes :=
  lay_tc_sch (tc_sch m) ++ lay_tc_pcr (tc_pcr m) ++ lay_cls_u lay_filters (tc_cls m)
  ++ le 4 (zlen (tc_flows m)) ++ lay_array lay_flow (tc_flows m) ++ lay_i64 (tc_tstamp m).

Definition lay_act_u {A M D} (la : A -> bytes) (lm : M -> bytes) (ld : D -> bytes) (a : tc_act_u A M D) : bytes :=
  le 4 (act_type a) ++ match a with
                       | act_add a => la a
                       | act_mod m => lm m
                       | act_del d => ld d
                       | act_other _ => []
                       end.

(** Without the member [l7]. *)
Definition lay_add_osi (o : tc_add_cls_osi_t) : bytes :=
  lay_i64 (src_addr (ao_l3 o)) ++ lay_i64 (dst_addr (ao_l3 o)) ++ lay_i32 (src_port (ao_l4 o))
  ++ lay_i32 (dst_port (ao_l4 o)) ++ lay_i32 (protocol (ao_l4 o)) ++ lay_i32 (ao_dst_queue o).

Definition lay_ctrl_cls (c : tc_ctrl_cls_t) : bytes :=
  lay_act_u (lay_cls_u lay_add_osi) (lay_cls_u obj) (lay_cls_u (le 4)) c.

Definition lay_mod_plc (p : tc_mod_ctrl_plc_t) : bytes :=
  le 4 (mp_id p) ++ le 4 (mp_drop_rate_kbps p) ++ le 4 (mp_dev_id p) ++ le 4 (mp_dev_rate_kbps p) ++ le 4 (mp_active p).
Definition lay_ctrl_plc (p : tc_ctrl_plc_t) : bytes := lay_act_u (le 4) lay_mod_plc (le 4) p.

Definition lay_codel (c : tc_ctrl_queue_codel_t) : bytes := le 4 (target_ms c) ++ le 4 (interval_ms c).
Definition lay_mod_queue (q : tc_mod_ctrl_queue_t) : bytes :=
  le 4 (mq_id q) ++ lay_queue_u (le 4) lay_codel (mq_queue q).
Definition lay_del_queue (q : tc_del_ctrl_queue_t) : bytes := le 4 (dq_id q) ++ le 4 (dq_type q).
Definition lay_ctrl_queue (q : tc_ctrl_queue_t) : bytes :=
  lay_act_u (lay_queue_u (le 4) lay_codel) lay_mod_queue lay_del_queue q.

Definition lay_mod_sch (s : tc_sch_t) : bytes :=
  le 4 (sch_type s) ++ match s with
                       | sch_rr d => le 4 d
                       | sch_prio l => lay_words_list l
                       | sch_other _ => []
                       end.
Definition lay_ctrl_sch (s : tc_ctrl_sch_t) : bytes := lay_act_u (le 4) lay_mod_sch (le 4) s.

Definition lay_mod_shp (s : tc_mod_ctrl_shp_t) : bytes :=
  le 4 (ms_id s) ++ le 4 (ms_time_window_ms s) ++ le 4 (ms_max_rate_kbps s) ++ le 4 (ms_active s).
Definition lay_ctrl_shp (s : tc_ctrl_shp_t) : bytes := lay_act_u (le 4) lay_mod_shp (le 4) s.

Definition lay_mod_pcr (p : tc_mod_ctrl_pcr_t) : bytes :=
  le 4 (mod_pcr_type p) ++ match p with
                           | pcr_bdp b => le 4 (drb_sz b) ++ lay_i64 (bdp_tstamp b)
                           | pcr_dummy d => le 4 d
                           | pcr_other _ => []
                           end.
Definition lay_ctrl_pcr (p : tc_ctrl_pcr_t) : bytes := lay_act_u (le 4) lay_mod_pcr (le 4) p.

Definition lay_tc_ctrl (m : tc_ctrl_msg_t) : bytes :=
  le 4 (tc_ctrl_type m) ++ match m with
                           | tc_ctrl_cls c => lay_ctrl_cls c
                           | tc_ctrl_plc p => lay_ctrl_plc p
                           | tc_ctrl_q q => lay_ctrl_queue q
                           | tc_ctrl_sch s => lay_ctrl_sch s
                           | tc_ctrl_shp s => lay_ctrl_shp s
                           | tc_ctrl_pcr p => lay_ctrl_pcr p
                           | tc_ctrl_other _ => []
                           end.

(** ** The values the C types can hold, without the types the code refuses *)

Definition fits_words (l : list Z) : Prop := zlen l < 2 ^ 32 /\ Forall (fits 4) l.

Definition wf_sch (s : tc_sch_t) : Prop :=
  match s with
  | sch_rr d => fits 4 d
  | sch_prio l => fits_words l
  | sch_other _ => False
  end.

Definition wf_mtr (m : tc_mtr_t) : Prop := fits 4 (bnd_flt m) /\ fits 4 (time_window_ms m).
Definition wf_pcr (p : tc_pcr_t) : Prop := fits 4 (pcr_type p) /\ fits 4 (pcr_id p) /\ wf_mtr (pcr_mtr p).

Definition wf_cls_u {O} (wf : O -> Prop) (c : tc_cls_u O) : Prop :=
  match c with
  | cls_rr d | cls_sto d => fits 4 d
  | cls_osi o => wf o
  | cls_other _ => False
  end.

Definition wf_filters (l : list tc_cls_osi_filter_t) : Prop := zlen l < 2 ^ 32 /\ Forall wf_obj l.

Definition wf_shp (s : tc_shp_t) : Prop :=
  fits 4 (shp_id s) /\ fits 4 (shp_active s) /\ fits 4 (shp_max_rate_kbps s) /\ wf_mtr (shp_mtr s).

Definition wf_plc (p : tc_plc_t) : Prop :=
  fits 4 (plc_id p) /\ wf_mtr (plc_mtr p) /\ fits 4 (plc_drp p) /\ fits 4 (plc_mrk p) /\
  fits 4 (plc_max_rate_kbps p) /\ fits 4 (plc_active p) /\ fits 4 (plc_dst_id p) /\ fits 4 (plc_dev_id p).

Definition wf_queue_stats (q : tc_queue_stats_t) : Prop :=
  fits 4 (qs_bytes q) /\ fits 4 (qs_pkts q) /\ fits 4 (qs_bytes_fwd q) /\ fits 4 (qs_pkts_fwd q) /\
  fits 4 (qs_drp_mrk q) /\ fits 4 (qs_avg_sojourn_time q) /\ fits_i64 (qs_last_sojourn_time q).

Definition wf_queue_u {F C} (wf_f : F -> Prop) (wf_c : C -> Prop) (q : tc_queue_u F C) : Prop :=
  match q with
  | queue_fifo f => wf_f f
  | queue_codel c | queue_ecn c => wf_c c
  | queue_other _ => False
  end.

Definition wf_queue (q : tc_queue_t) : Prop :=
  fits 4 (queue_id q) /\ wf_queue_u wf_queue_stats wf_queue_stats (queue_stats q).

Definition wf_flow (f : tc_flow_t) : Prop := wf_shp (fl_shp f) /\ wf_plc (fl_plc f) /\ wf_queue (fl_q f).

Definition wf_tc_ind (m : tc_ind_msg_t) : Prop :=
  wf_sch (tc_sch m) /\ wf_pcr (tc_pcr m) /\ wf_cls_u wf_filters (tc_cls m) /\
  zlen (tc_flows m) < 2 ^ 32 /\ Forall wf_flow (tc_flows m) /\ fits_i64 (tc_tstamp m).

Definition wf_act_u {A M D} (wa : A -> Prop) (wm : M -> Prop) (wd : D -> Prop) (a : tc_act_u A M D) : Prop :=
  match a with
  | act_add a => wa a
  | act_mod m => wm m
  | act_del d => wd d
  | act_other _ => False
  end.

Definition wf_l3 (f : L3_filter_t) : Prop := fits_i64 (src_addr f) /\ fits_i64 (dst_addr f).
Definition wf_l4 (f : L4_filter_t) : Prop := fits_i32 (src_port f) /\ fits_i32 (dst_port f) /\ fits_i32 (protocol f).

Definition wf_add_osi (o : tc_add_cls_osi_t) : Prop :=
  wf_l3 (ao_l3 o) /\ wf_l4 (ao_l4 o) /\ fits 4 (ao_l7 o) /\ fits_i32 (ao_dst_queue o).

Definition wf_ctrl_cls (c : tc_ctrl_cls_t) : Prop :=
  wf_act_u (wf_cls_u wf_add_osi) (wf_cls_u wf_obj) (wf_cls_u (fits 4)) c.

Definition wf_mod_plc (p : tc_mod_ctrl_plc_t) : Prop :=
  fits 4 (mp_id p) /\ fits 4 (mp_drop_rate_kbps p) /\ fits 4 (mp_dev_id p) /\ fits 4 (mp_dev_rate_kbps p) /\
  fits 4 (mp_active p).
Definition wf_ctrl_plc (p : tc_ctrl_plc_t) : Prop := wf_act_u (fits 4) wf_mod_plc (fits 4) p.

Definition wf_codel (c : tc_ctrl_queue_codel_t) : Prop := fits 4 (target_ms c) /\ fits 4 (interval_ms c).
Definition wf_mod_queue (q : tc_mod_ctrl_queue_t) : Prop := fits 4 (mq_id q) /\ wf_queue_u (fits 4) wf_codel (mq_queue q).
Definition wf_del_queue (q : tc_del_ctrl_queue_t) : Prop := fits 4 (dq_id q) /\ fits 4 (dq_type q).
Definition wf_ctrl_queue (q : tc_ctrl_queue_t) : Prop :=
  wf_act_u (wf_queue_u (fits 4) wf_codel) wf_mod_queue wf_del_queue q.

Definition wf_ctrl_sch (s : tc_ctrl_sch_t) : Prop := wf_act_u (fits 4) wf_sch (fits 4) s.

Definition wf_mod_shp (s : tc_mod_ctrl_shp_t) : Prop :=
  fits 4 (ms_id s) /\ fits 4 (ms_time_window_ms s) /\ fits 4 (ms_max_rate_kbps s) /\ fits 4 (ms_active s).
Definition wf_ctrl_shp (s : tc_ctrl_shp_t) : Prop := wf_act_u (fits 4) wf_mod_shp (fits 4) s.

Definition wf_mod_pcr (p : tc_mod_ctrl_pcr_t) : Prop :=
  match p with
  | pcr_bdp b => fits 4 (drb_sz b) /\ fits_i64 (bdp_tstamp b)
  | pcr_dummy d => fits 4 d
  | pcr_other _ => False
  end.
Definition wf_ctrl_pcr (p : tc_ctrl_pcr_t) : Prop := wf_act_u (fits 4) wf_mod_pcr (fits 4) p.

Definition wf_tc_ctrl (m : tc_ctrl_msg_t) : Prop :=
  match m with
  | tc_ctrl_cls c => wf_ctrl_cls c
  | tc_ctrl_plc p => wf_ctrl_plc p
  | tc_ctrl_q q => wf_ctrl_queue q
  | tc_ctrl_sch s => wf_ctrl_sch s
  | tc_ctrl_shp s => wf_ctrl_shp s
  | tc_ctrl_pcr p => wf_ctrl_pcr p
  | tc_ctrl_other _ => False
  end.
