(* ===== verification/TcEnc.v ===== *)
(** The plain encoder of the traffic-control service model
    (flexric/src/sm/tc_sm/enc/tc_enc_plain.c).

    [cal_x] computes the size of the buffer, [tc_enc_x] and [enc_tc_x] are
    writers of SmMonad.  [malloc] leaves any content in the buffer.  The C code
    compares the end of the cursor with the end of the buffer, and for an
    indication again the sum of the sizes with the size: the cursor is the
    sum. *)

From S2P Require Import Prelude SmCodec SmStruct SmMonad TcData.

(** ** Sizes of the indication message *)

Definition cal_sch_payload (s : tc_sch_t) : res Z :=
  let sz := 4 in
  match s with
  | sch_rr _ => Ok sz
  | sch_prio q_prio => Ok (sz + 4 + 4 * zlen q_prio)
  | sch_other _ => Fail FExit
  end.

Definition cal_mtr_payload (m : tc_mtr_t) : Z := 4 + 4.
Definition cal_pcr_payload (pcr : tc_pcr_t) : Z := 4 + 4 + cal_mtr_payload (pcr_mtr pcr).

Definition cal_cls_rr_payload (dummy : Z) : Z := 4.
Definition cal_cls_osi_payload (flt : list tc_cls_osi_filter_t) : Z := 4 + sizeof tc_cls_osi_filter_t * zlen flt.
Definition cal_cls_sto_payload (dummy : Z) : Z := 4.

Definition cal_cls_payload (c : tc_cls_t) : res Z :=
  let sz := 4 in
  match c with
  | cls_rr rr => Ok (sz + cal_cls_rr_payload rr)
  | cls_osi osi => Ok (sz + cal_cls_osi_payload osi)
  | cls_sto sto => Ok (sz + cal_cls_sto_payload sto)
  | cls_other _ => Fail FExit
  end.

Definition cal_drp_payload (dropped_pkts : Z) : Z := 4.
Definition cal_mrk_payload (marked_pkts : Z) : Z := 4.

Definition cal_q_payload (q : tc_queue_t) : res Z :=
  let sz := 4 in
  match queue_stats q with
  | queue_fifo s => Ok (sz + 4 + 4 + 4 + 4 + cal_drp_payload (qs_drp_mrk s) + 4 + 8)
  | queue_codel s => Ok (sz + 4 + 4 + 4 + 4 + cal_drp_payload (qs_drp_mrk s) + 4 + 8)
  | queue_ecn s => Ok (sz + 4 + 4 + 4 + 4 + cal_mrk_payload (qs_drp_mrk s) + 4 + 8)
  | queue_other _ => Fail FExit
  end.

Definition cal_shp_payload (shp : tc_shp_t) : Z := 4 + 4 + 4 + cal_mtr_payload (shp_mtr shp).

Definition cal_plc_payload (plc : tc_plc_t) : Z :=
  4 + cal_mtr_payload (plc_mtr plc) + cal_drp_payload (plc_drp plc) + cal_mrk_payload (plc_mrk plc) + 4 + 4 + 4 + 4.

(** The loop of [cal_ind_msg_payload]. *)
Fixpoint cal_flows (sz_q_shp_plc : Z) (l : list tc_flow_t) : res Z :=
  match l with
  | [] => Ok sz_q_shp_plc
  | f :: l =>
      let* sz_q := cal_q_payload (fl_q f) in
      let sz_shp := cal_shp_payload (fl_shp f) in
      let sz_plc := cal_plc_payload (fl_plc f) in
      cal_flows (sz_q_shp_plc + (sz_q + sz_shp + sz_plc)) l
  end.

Definition cal_ind_msg_payload (ind_msg : tc_ind_msg_t) : res Z :=
  let* sz_sch := cal_sch_payload (tc_sch ind_msg) in
  let sz_pcr := cal_pcr_payload (tc_pcr ind_msg) in
  let* sz_cls := cal_cls_payload (tc_cls ind_msg) in
  let sz_len := 4 in
  let* sz_q_shp_plc := cal_flows 0 (tc_flows ind_msg) in
  let sz_tstamp := 8 in
  Ok (sz_sch + sz_pcr + sz_cls + sz_len + sz_q_shp_plc + sz_tstamp).

(** ** Writers of the indication message *)

(** [memcpy] of a whole struct. *)
Definition w_obj {T} `{CStruct T} (x : T) : writer := fun buf it => put_obj buf it x.

Definition tc_enc_sch_rr (dummy : Z) : writer := w_nil.

(** One [memcpy] for the array. *)
Definition tc_enc_sch_prio (q_prio : list Z) : writer := w_u32 (zlen q_prio) >>> w_list w_u32 q_prio.

Definition tc_enc_sch (sch : tc_sch_t) : writer :=
  w_u32 (sch_type sch) >>>
  match sch with
  | sch_rr rr => tc_enc_sch_rr rr
  | sch_prio p => tc_enc_sch_prio p
  | sch_other _ => w_stop
  end.

Definition tc_enc_mtr (mtr : tc_mtr_t) : writer := w_u32 (bnd_flt mtr) >>> w_u32 (time_window_ms mtr).

Definition tc_enc_pcr (pcr : tc_pcr_t) : writer :=
  w_u32 (pcr_type pcr) >>> w_u32 (pcr_id pcr) >>> tc_enc_mtr (pcr_mtr pcr).

Definition tc_enc_cls_rr (dummy : Z) : writer := w_u32 dummy.
Definition tc_enc_cls_osi (flt : list tc_cls_osi_filter_t) : writer := w_u32 (zlen flt) >>> w_list w_obj flt.
Definition tc_enc_cls_sto (dummy : Z) : writer := w_u32 dummy.

Definition tc_enc_cls (cls : tc_cls_t) : writer :=
  w_u32 (cls_type cls) >>>
  match cls with
  | cls_rr rr => tc_enc_cls_rr rr
  | cls_osi osi => tc_enc_cls_osi osi
  | cls_sto sto => tc_enc_cls_sto sto
  | cls_other _ => w_stop
  end.

Definition tc_enc_shp (shp : tc_shp_t) : writer :=
  w_u32 (shp_id shp) >>> w_u32 (shp_active shp) >>> w_u32 (shp_max_rate_kbps shp) >>> tc_enc_mtr (shp_mtr shp).

Definition tc_enc_drp (dropped_pkts : Z) : writer := w_u32 dropped_pkts.
Definition tc_enc_mrk (marked_pkts : Z) : writer := w_u32 marked_pkts.

Definition tc_enc_plc (plc : tc_plc_t) : writer :=
  w_u32 (plc_id plc) >>> tc_enc_mtr (plc_mtr plc) >>> tc_enc_drp (plc_drp plc) >>> tc_enc_mrk (plc_mrk plc) >>>
  w_u32 (plc_max_rate_kbps plc) >>> w_u32 (plc_active plc) >>> w_u32 (plc_dst_id plc) >>> w_u32 (plc_dev_id plc).

Definition tc_enc_q_fifo (q : tc_queue_stats_t) : writer :=
  w_u32 (qs_bytes q) >>> w_u32 (qs_pkts q) >>> w_u32 (qs_bytes_fwd q) >>> w_u32 (qs_pkts_fwd q) >>>
  tc_enc_drp (qs_drp_mrk q) >>> w_u32 (qs_avg_sojourn_time q) >>> w_i64 (qs_last_sojourn_time q).

Definition tc_enc_q_codel (q : tc_queue_stats_t) : writer :=
  w_u32 (qs_bytes q) >>> w_u32 (qs_pkts q) >>> w_u32 (qs_bytes_fwd q) >>> w_u32 (qs_pkts_fwd q) >>>
  tc_enc_drp (qs_drp_mrk q) >>> w_u32 (qs_avg_sojourn_time q) >>> w_i64 (qs_last_sojourn_time q).

Definition tc_enc_q_ecn_codel (q : tc_queue_stats_t) : writer :=
  w_u32 (qs_bytes q) >>> w_u32 (qs_pkts q) >>> w_u32 (qs_bytes_fwd q) >>> w_u32 (qs_pkts_fwd q) >>>
  tc_enc_mrk (qs_drp_mrk q) >>> w_u32 (qs_avg_sojourn_time q) >>> w_i64 (qs_last_sojourn_time q).

Definition tc_enc_q (q : tc_queue_t) : writer :=
  w_u32 (queue_type (queue_stats q)) >>>
  match queue_stats q with
  | queue_fifo s => tc_enc_q_fifo s
  | queue_codel s => tc_enc_q_codel s
  | queue_ecn s => tc_enc_q_ecn_codel s
  | queue_other _ => w_stop
  end.

(** The body of the loop of [tc_enc_ind_msg_plain]. *)
Definition tc_enc_flow (f : tc_flow_t) : writer :=
  tc_enc_shp (fl_shp f) >>> w_inside >>>
  tc_enc_plc (fl_plc f) >>> w_inside >>>
  tc_enc_q (fl_q f) >>> w_inside.

Definition tc_enc_ind (ind_msg : tc_ind_msg_t) : writer :=
  tc_enc_sch (tc_sch ind_msg) >>> w_inside >>>
  tc_enc_pcr (tc_pcr ind_msg) >>> w_inside >>>
  tc_enc_cls (tc_cls ind_msg) >>> w_inside >>>
  w_u32 (zlen (tc_flows ind_msg)) >>> w_inside >>>
  w_list tc_enc_flow (tc_flows ind_msg) >>>
  w_i64 (tc_tstamp ind_msg).

(** ** Sizes of the control message *)

Definition cal_tc_add_ctrl_payload_cls_rr (dummy : Z) : Z := 4.
(** [l3], [l4], [l7] and [dst_queue]. *)
Definition cal_tc_add_ctrl_payload_cls_osi (osi : tc_add_cls_osi_t) : Z := 16 + 12 + 4 + 4.
Definition cal_tc_add_ctrl_payload_cls_sto (dummy : Z) : Z := 4.

Definition cal_tc_add_ctrl_payload_cls (add : tc_add_ctrl_cls_t) : res Z :=
  let sz := 4 in
  match add with
  | cls_rr rr => Ok (sz + cal_tc_add_ctrl_payload_cls_rr rr)
  | cls_osi osi => Ok (sz + cal_tc_add_ctrl_payload_cls_osi osi)
  | cls_sto sto => Ok (sz + cal_tc_add_ctrl_payload_cls_sto sto)
  | cls_other _ => Fail FExit
  end.

Definition cal_tc_mod_ctrl_payload_cls_rr (dummy : Z) : Z := 4.
Definition cal_tc_mod_ctrl_payload_cls_osi (filter : tc_cls_osi_filter_t) : Z := sizeof tc_cls_osi_filter_t.
Definition cal_tc_mod_ctrl_payload_cls_sto (dummy : Z) : Z := 4.

Definition cal_tc_mod_ctrl_payload_cls (mod_ : tc_mod_ctrl_cls_t) : res Z :=
  let sz := 4 in
  match mod_ with
  | cls_rr rr => Ok (sz + cal_tc_mod_ctrl_payload_cls_rr rr)
  | cls_osi osi => Ok (sz + cal_tc_mod_ctrl_payload_cls_osi osi)
  | cls_sto sto => Ok (sz + cal_tc_mod_ctrl_payload_cls_sto sto)
  | cls_other _ => Fail FExit
  end.

Definition cal_tc_del_ctrl_payload_cls_rr (dummy : Z) : Z := 4.
Definition cal_tc_del_ctrl_payload_cls_osi (filter_id : Z) : Z := 4.
Definition cal_tc_del_ctrl_payload_cls_sto (dummy : Z) : Z := 4.

Definition cal_tc_del_ctrl_payload_cls (del : tc_del_ctrl_cls_t) : res Z :=
  let sz := 4 in
  match del with
  | cls_rr rr => Ok (sz + cal_tc_del_ctrl_payload_cls_rr rr)
  | cls_osi osi => Ok (sz + cal_tc_del_ctrl_payload_cls_osi osi)
  | cls_sto sto => Ok (sz + cal_tc_del_ctrl_payload_cls_sto sto)
  | cls_other _ => Fail FExit
  end.

Definition cal_tc_ctrl_payload_cls (cls : tc_ctrl_cls_t) : res Z :=
  let* sz :=
    match cls with
    | act_add a => cal_tc_add_ctrl_payload_cls a
    | act_del d => cal_tc_del_ctrl_payload_cls d
    | act_mod m => cal_tc_mod_ctrl_payload_cls m
    | act_other _ => Fail FExit
    end in
  Ok (4 + sz).

Definition cal_tc_add_ctrl_payload_plc (dummy : Z) : Z := 4.
Definition cal_tc_mod_ctrl_payload_plc (m : tc_mod_ctrl_plc_t) : Z := 4 + 4 + 4 + 4 + 4.
Definition cal_tc_del_ctrl_payload_plc (id : Z) : Z := 4.

Definition cal_tc_ctrl_payload_plc (plc : tc_ctrl_plc_t) : res Z :=
  let sz := 4 in
  match plc with
  | act_add a => Ok (sz + cal_tc_add_ctrl_payload_plc a)
  | act_del d => Ok (sz + cal_tc_del_ctrl_payload_plc d)
  | act_mod m => Ok (sz + cal_tc_mod_ctrl_payload_plc m)
  | act_other _ => Fail FExit
  end.

Definition cal_tc_ctrl_payload_q_fifo (dummy : Z) : Z := 4.
Definition cal_tc_ctrl_payload_q_codel (codel : tc_ctrl_queue_codel_t) : Z := 4 + 4.
Definition cal_tc_ctrl_payload_q_ecn_codel (ecn : tc_ctrl_queue_codel_t) : Z := 4 + 4.

Definition cal_tc_ctrl_payload_q_add (add : tc_add_ctrl_queue_t) : res Z :=
  let sz := 4 in
  match add with
  | queue_fifo f => Ok (sz + cal_tc_ctrl_payload_q_fifo f)
  | queue_codel c => Ok (sz + cal_tc_ctrl_payload_q_codel c)
  | queue_ecn e => Ok (sz + cal_tc_ctrl_payload_q_ecn_codel e)
  | queue_other _ => Fail FExit
  end.

Definition cal_tc_ctrl_payload_q_mod (m : tc_mod_ctrl_queue_t) : res Z :=
  let sz := 4 + 4 in
  match mq_queue m with
  | queue_fifo f => Ok (sz + cal_tc_ctrl_payload_q_fifo f)
  | queue_codel c => Ok (sz + cal_tc_ctrl_payload_q_codel c)
  | queue_ecn e => Ok (sz + cal_tc_ctrl_payload_q_ecn_codel e)
  | queue_other _ => Fail FExit
  end.

Definition cal_tc_ctrl_payload_q_del (del : tc_del_ctrl_queue_t) : Z := 4 + 4.

Definition cal_tc_ctrl_payload_q (q : tc_ctrl_queue_t) : res Z :=
  let* sz :=
    match q with
    | act_add a => cal_tc_ctrl_payload_q_add a
    | act_mod m => cal_tc_ctrl_payload_q_mod m
    | act_del d => Ok (cal_tc_ctrl_payload_q_del d)
    | act_other _ => Fail FExit
    end in
  Ok (4 + sz).

Definition cal_tc_ctrl_payload_sch_add (dummy : Z) : Z := 4.
Definition cal_tc_ctrl_payload_sch_mod_rr (dummy : Z) : Z := 4.
Definition cal_tc_ctrl_payload_sch_mod_prio (q_prio : list Z) : Z := 4 + zlen q_prio * 4.

Definition cal_tc_ctrl_payload_sch_mod (m : tc_sch_t) : res Z :=
  let sz := 4 in
  match m with
  | sch_rr rr => Ok (sz + cal_tc_ctrl_payload_sch_mod_rr rr)
  | sch_prio p => Ok (sz + cal_tc_ctrl_payload_sch_mod_prio p)
  | sch_other _ => Fail FExit
  end.

Definition cal_tc_ctrl_payload_sch_del (dummy : Z) : Z := 4.

Definition cal_tc_ctrl_payload_sch (sch : tc_ctrl_sch_t) : res Z :=
  let* sz :=
    match sch with
    | act_add a => Ok (cal_tc_ctrl_payload_sch_add a)
    | act_del d => Ok (cal_tc_ctrl_payload_sch_del d)
    | act_mod m => cal_tc_ctrl_payload_sch_mod m
    | act_other _ => Fail FExit
    end in
  Ok (4 + sz).

Definition cal_tc_ctrl_payload_shp_add (dummy : Z) : Z := 4.
Definition cal_tc_ctrl_payload_shp_mod (m : tc_mod_ctrl_shp_t) : Z := 4 + 4 + 4 + 4.
Definition cal_tc_ctrl_payload_shp_del (id : Z) : Z := 4.

Definition cal_tc_ctrl_payload_shp (shp : tc_ctrl_shp_t) : res Z :=
  let sz := 4 in
  match shp with
  | act_add a => Ok (sz + cal_tc_ctrl_payload_shp_add a)
  | act_del d => Ok (sz + cal_tc_ctrl_payload_shp_del d)
  | act_mod m => Ok (sz + cal_tc_ctrl_payload_shp_mod m)
  | act_other _ => Fail FExit
  end.

Definition cal_tc_ctrl_payload_pcr_add (dummy : Z) : Z := 4.
Definition cal_tc_ctrl_payload_pcr_mod_dummy (dummy : Z) : Z := 4.
Definition cal_tc_ctrl_payload_pcr_mod_bdp (bdp : tc_pcr_5g_bdp_t) : Z := 4 + 8.

Definition cal_tc_ctrl_payload_pcr_mod (m : tc_mod_ctrl_pcr_t) : res Z :=
  let sz := 4 in
  match m with
  | pcr_dummy d => Ok (sz + cal_tc_ctrl_payload_pcr_mod_dummy d)
  | pcr_bdp b => Ok (sz + cal_tc_ctrl_payload_pcr_mod_bdp b)
  | pcr_other _ => Fail FExit
  end.

Definition cal_tc_ctrl_payload_pcr_del (dummy : Z) : Z := 4.

Definition cal_tc_ctrl_payload_pcr (pcr : tc_ctrl_pcr_t) : res Z :=
  let* sz :=
    match pcr with
    | act_add a => Ok (cal_tc_ctrl_payload_pcr_add a)
    | act_del d => Ok (cal_tc_ctrl_payload_pcr_del d)
    | act_mod m => cal_tc_ctrl_payload_pcr_mod m
    | act_other _ => Fail FExit
    end in
  Ok (4 + sz).

Definition cal_tc_ctrl_payload (ctrl_msg : tc_ctrl_msg_t) : res Z :=
  let* sz :=
    match ctrl_msg with
    | tc_ctrl_cls c => cal_tc_ctrl_payload_cls c
    | tc_ctrl_plc p => cal_tc_ctrl_payload_plc p
    | tc_ctrl_q q => cal_tc_ctrl_payload_q q
    | tc_ctrl_sch s => cal_tc_ctrl_payload_sch s
    | tc_ctrl_shp s => cal_tc_ctrl_payload_shp s
    | tc_ctrl_pcr p => cal_tc_ctrl_payload_pcr p
    | tc_ctrl_other _ => Fail FExit
    end in
  Ok (4 + sz).

(** ** Writers of the control message *)

Definition enc_tc_add_ctrl_payload_cls_rr (dummy : Z) : writer := w_u32 dummy.

(** [l7] is left out. *)
Definition enc_tc_add_ctrl_payload_cls_osi (osi : tc_add_cls_osi_t) : writer :=
  w_i64 (src_addr (ao_l3 osi)) >>> w_i64 (dst_addr (ao_l3 osi)) >>>
  w_i32 (src_port (ao_l4 osi)) >>> w_i32 (dst_port (ao_l4 osi)) >>> w_i32 (protocol (ao_l4 osi)) >>>
  w_i32 (ao_dst_queue osi).

Definition enc_tc_add_ctrl_payload_cls_sto (dummy : Z) : writer := w_u32 dummy.

Definition enc_tc_add_ctrl_payload_cls (add : tc_add_ctrl_cls_t) : writer :=
  w_u32 (cls_type add) >>>
  match add with
  | cls_rr rr => enc_tc_add_ctrl_payload_cls_rr rr
  | cls_osi osi => enc_tc_add_ctrl_payload_cls_osi osi
  | cls_sto sto => enc_tc_add_ctrl_payload_cls_sto sto
  | cls_other _ => w_stop
  end.

Definition enc_tc_mod_ctrl_payload_cls_rr (dummy : Z) : writer := w_u32 dummy.
Definition enc_tc_mod_ctrl_payload_cls_osi (filter : tc_cls_osi_filter_t) : writer := w_obj filter.
Definition enc_tc_mod_ctrl_payload_cls_sto (dummy : Z) : writer := w_u32 dummy.

Definition enc_tc_mod_ctrl_payload_cls (m : tc_mod_ctrl_cls_t) : writer :=
  w_u32 (cls_type m) >>>
  match m with
  | cls_rr rr => enc_tc_mod_ctrl_payload_cls_rr rr
  | cls_osi osi => enc_tc_mod_ctrl_payload_cls_osi osi
  | cls_sto sto => enc_tc_mod_ctrl_payload_cls_sto sto
  | cls_other _ => w_stop
  end.

Definition enc_tc_del_ctrl_payload_cls_rr (dummy : Z) : writer := w_u32 dummy.
Definition enc_tc_del_ctrl_payload_cls_osi (filter_id : Z) : writer := w_u32 filter_id.
Definition enc_tc_del_ctrl_payload_cls_sto (dummy : Z) : writer := w_u32 dummy.

Definition enc_tc_del_ctrl_payload_cls (del : tc_del_ctrl_cls_t) : writer :=
  w_u32 (cls_type del) >>>
  match del with
  | cls_rr rr => enc_tc_del_ctrl_payload_cls_rr rr
  | cls_osi osi => enc_tc_del_ctrl_payload_cls_osi osi
  | cls_sto sto => enc_tc_del_ctrl_payload_cls_sto sto
  | cls_other _ => w_stop
  end.

Definition enc_tc_ctrl_payload_cls (cls : tc_ctrl_cls_t) : writer :=
  w_u32 (act_type cls) >>>
  match cls with
  | act_add a => enc_tc_add_ctrl_payload_cls a
  | act_del d => enc_tc_del_ctrl_payload_cls d
  | act_mod m => enc_tc_mod_ctrl_payload_cls m
  | act_other _ => w_stop
  end.

Definition enc_tc_add_ctrl_payload_plc (dummy : Z) : writer := w_u32 dummy.

Definition enc_tc_mod_ctrl_payload_plc (m : tc_mod_ctrl_plc_t) : writer :=
  w_u32 (mp_id m) >>> w_u32 (mp_drop_rate_kbps m) >>> w_u32 (mp_dev_id m) >>> w_u32 (mp_dev_rate_kbps m) >>>
  w_u32 (mp_active m).

Definition enc_tc_del_ctrl_payload_plc (id : Z) : writer := w_u32 id.

Definition enc_tc_ctrl_payload_plc (plc : tc_ctrl_plc_t) : writer :=
  w_u32 (act_type plc) >>>
  match plc with
  | act_add a => enc_tc_add_ctrl_payload_plc a
  | act_del d => enc_tc_del_ctrl_payload_plc d
  | act_mod m => enc_tc_mod_ctrl_payload_plc m
  | act_other _ => w_stop
  end.

Definition enc_tc_ctrl_payload_q_fifo (dummy : Z) : writer := w_u32 dummy.
Definition enc_tc_ctrl_payload_q_codel (c : tc_ctrl_queue_codel_t) : writer := w_u32 (target_ms c) >>> w_u32 (interval_ms c).
Definition enc_tc_ctrl_payload_q_ecn_codel (e : tc_ctrl_queue_codel_t) : writer := w_u32 (target_ms e) >>> w_u32 (interval_ms e).

Definition enc_tc_add_ctrl_payload_q (add : tc_add_ctrl_queue_t) : writer :=
  w_u32 (queue_type add) >>>
  match add with
  | queue_codel c => enc_tc_ctrl_payload_q_codel c
  | queue_fifo f => enc_tc_ctrl_payload_q_fifo f
  | queue_ecn e => enc_tc_ctrl_payload_q_ecn_codel e
  | queue_other _ => w_stop
  end.

Definition enc_tc_mod_ctrl_payload_q (m : tc_mod_ctrl_queue_t) : writer :=
  w_u32 (mq_id m) >>> w_u32 (queue_type (mq_queue m)) >>>
  match mq_queue m with
  | queue_codel c => enc_tc_ctrl_payload_q_codel c
  | queue_fifo f => enc_tc_ctrl_payload_q_fifo f
  | queue_ecn e => enc_tc_ctrl_payload_q_ecn_codel e
  | queue_other _ => w_stop
  end.

Definition enc_tc_del_ctrl_payload_q (del : tc_del_ctrl_queue_t) : writer := w_u32 (dq_id del) >>> w_u32 (dq_type del).

Definition enc_tc_ctrl_payload_q (q : tc_ctrl_queue_t) : writer :=
  w_u32 (act_type q) >>>
  match q with
  | act_add a => enc_tc_add_ctrl_payload_q a
  | act_del d => enc_tc_del_ctrl_payload_q d
  | act_mod m => enc_tc_mod_ctrl_payload_q m
  | act_other _ => w_stop
  end.

Definition enc_tc_add_ctrl_payload_sch (dummy : Z) : writer := w_u32 dummy.
Definition enc_tc_mod_ctrl_payload_sch_rr (dummy : Z) : writer := w_u32 dummy.
Definition enc_tc_mod_ctrl_payload_sch_prio (q_prio : list Z) : writer := w_u32 (zlen q_prio) >>> w_list w_u32 q_prio.

Definition enc_tc_mod_ctrl_payload_sch (m : tc_sch_t) : writer :=
  w_u32 (sch_type m) >>>
  match m with
  | sch_rr rr => enc_tc_mod_ctrl_payload_sch_rr rr
  | sch_prio p => enc_tc_mod_ctrl_payload_sch_prio p
  | sch_other _ => w_stop
  end.

Definition enc_tc_del_ctrl_payload_sch (dummy : Z) : writer := w_u32 dummy.

Definition enc_tc_ctrl_payload_sch (sch : tc_ctrl_sch_t) : writer :=
  w_u32 (act_type sch) >>>
  match sch with
  | act_add a => enc_tc_add_ctrl_payload_sch a
  | act_del d => enc_tc_del_ctrl_payload_sch d
  | act_mod m => enc_tc_mod_ctrl_payload_sch m
  | act_other _ => w_stop
  end.

Definition enc_tc_add_ctrl_payload_shp (dummy : Z) : writer := w_u32 dummy.

Definition enc_tc_mod_ctrl_payload_shp (m : tc_mod_ctrl_shp_t) : writer :=
  w_u32 (ms_id m) >>> w_u32 (ms_time_window_ms m) >>> w_u32 (ms_max_rate_kbps m) >>> w_u32 (ms_active m).

Definition enc_tc_del_ctrl_payload_shp (id : Z) : writer := w_u32 id.

Definition enc_tc_ctrl_payload_shp (shp : tc_ctrl_shp_t) : writer :=
  w_u32 (act_type shp) >>>
  match shp with
  | act_add a => enc_tc_add_ctrl_payload_shp a
  | act_del d => enc_tc_del_ctrl_payload_shp d
  | act_mod m => enc_tc_mod_ctrl_payload_shp m
  | act_other _ => w_stop
  end.

Definition enc_tc_add_ctrl_payload_pcr (dummy : Z) : writer := w_u32 dummy.
Definition enc_tc_mod_ctrl_payload_pcr_dummy (dummy : Z) : writer := w_u32 dummy.
Definition enc_tc_mod_ctrl_payload_pcr_bdp (bdp : tc_pcr_5g_bdp_t) : writer := w_u32 (drb_sz bdp) >>> w_i64 (bdp_tstamp bdp).

Definition enc_tc_mod_ctrl_payload_pcr (m : tc_mod_ctrl_pcr_t) : writer :=
  w_u32 (mod_pcr_type m) >>>
  match m with
  | pcr_dummy d => enc_tc_mod_ctrl_payload_pcr_dummy d
  | pcr_bdp b => enc_tc_mod_ctrl_payload_pcr_bdp b
  | pcr_other _ => w_stop
  end.

Definition enc_tc_del_ctrl_payload_pcr (dummy : Z) : writer := w_u32 dummy.

Definition enc_tc_ctrl_payload_pcr (pcr : tc_ctrl_pcr_t) : writer :=
  w_u32 (act_type pcr) >>>
  match pcr with
  | act_add a => enc_tc_add_ctrl_payload_pcr a
  | act_del d => enc_tc_del_ctrl_payload_pcr d
  | act_mod m => enc_tc_mod_ctrl_payload_pcr m
  | act_other _ => w_stop
  end.

Definition enc_tc_ctrl (ctrl_msg : tc_ctrl_msg_t) : writer :=
  w_u32 (tc_ctrl_type ctrl_msg) >>>
  match ctrl_msg with
  | tc_ctrl_cls c => enc_tc_ctrl_payload_cls c
  | tc_ctrl_plc p => enc_tc_ctrl_payload_plc p
  | tc_ctrl_q q => enc_tc_ctrl_payload_q q
  | tc_ctrl_sch s => enc_tc_ctrl_payload_sch s
  | tc_ctrl_shp s => enc_tc_ctrl_payload_shp s
  | tc_ctrl_pcr p => enc_tc_ctrl_payload_pcr p
  | tc_ctrl_other _ => w_stop
  end.

(** ** Messages *)

Section Messages.
(** [malloc(n)] of the C library: [n] bytes of any content. *)
Context (malloc : Z -> bytes).

(** The buffer is as long as the single member. *)
Definition tc_enc_event_trigger_plain (ms : Z) : res bytes := put 4 (malloc 4) 0 ms.
Definition tc_enc_ind_hdr_plain (dummy : Z) : res bytes := put 4 (replicate 4 0) 0 dummy.
Definition tc_enc_ctrl_hdr_plain (dummy : Z) : res bytes := put 4 (replicate 4 0) 0 dummy.
Definition tc_enc_ctrl_out_plain (out : Z) : res bytes := put 4 (replicate 4 0) 0 out.

Definition tc_enc_ind_msg_plain (ind_msg : tc_ind_msg_t) : res bytes :=
  let* sz := cal_ind_msg_payload ind_msg in
  run_writer malloc sz (tc_enc_ind ind_msg).

Definition tc_enc_ctrl_msg_plain (ctrl_msg : tc_ctrl_msg_t) : res bytes :=
  let* sz := cal_tc_ctrl_payload ctrl_msg in
  run_writer malloc sz (enc_tc_ctrl ctrl_msg).

(** [assert(0!=0 && "Not implemented")] is what these start with. *)
Definition tc_enc_action_def_plain (action_def : Z) : res bytes := Fail FExit.
Definition tc_enc_call_proc_id_plain (call_proc_id : Z) : res bytes := Fail FExit.
Definition tc_enc_func_def_plain (func_def : bytes) : res bytes := Fail FExit.
End Messages.

(** ** The writers write the layout *)

Create HintDb tc discriminated.
Create HintDb tc_w discriminated.
#[export] Hint Unfold
  tc_enc_sch_rr tc_enc_sch_prio tc_enc_mtr tc_enc_pcr tc_enc_cls_rr tc_enc_cls_osi tc_enc_cls_sto
  tc_enc_shp tc_enc_drp tc_enc_mrk tc_enc_plc tc_enc_q_fifo tc_enc_q_codel tc_enc_q_ecn_codel
  enc_tc_add_ctrl_payload_cls_rr enc_tc_add_ctrl_payload_cls_osi enc_tc_add_ctrl_payload_cls_sto
  enc_tc_add_ctrl_payload_cls enc_tc_mod_ctrl_payload_cls_rr enc_tc_mod_ctrl_payload_cls_osi
  enc_tc_mod_ctrl_payload_cls_sto enc_tc_mod_ctrl_payload_cls enc_tc_del_ctrl_payload_cls_rr
  enc_tc_del_ctrl_payload_cls_osi enc_tc_del_ctrl_payload_cls_sto enc_tc_del_ctrl_payload_cls
  enc_tc_ctrl_payload_cls enc_tc_add_ctrl_payload_plc enc_tc_mod_ctrl_payload_plc enc_tc_del_ctrl_payload_plc
  enc_tc_ctrl_payload_plc enc_tc_ctrl_payload_q_fifo enc_tc_ctrl_payload_q_codel enc_tc_ctrl_payload_q_ecn_codel
  enc_tc_add_ctrl_payload_q enc_tc_mod_ctrl_payload_q enc_tc_del_ctrl_payload_q enc_tc_ctrl_payload_q
  enc_tc_add_ctrl_payload_sch enc_tc_mod_ctrl_payload_sch_rr enc_tc_mod_ctrl_payload_sch_prio
  enc_tc_mod_ctrl_payload_sch enc_tc_del_ctrl_payload_sch enc_tc_ctrl_payload_sch
  enc_tc_add_ctrl_payload_shp enc_tc_mod_ctrl_payload_shp enc_tc_del_ctrl_payload_shp enc_tc_ctrl_payload_shp
  enc_tc_add_ctrl_payload_pcr enc_tc_mod_ctrl_payload_pcr_dummy enc_tc_mod_ctrl_payload_pcr_bdp
  enc_tc_mod_ctrl_payload_pcr enc_tc_del_ctrl_payload_pcr enc_tc_ctrl_payload_pcr
  lay_counted lay_words_list lay_mtr lay_tc_pcr lay_cls_u lay_filters lay_shp lay_plc lay_queue_stats lay_queue_u lay_queue
  lay_act_u lay_add_osi lay_ctrl_cls lay_mod_plc lay_ctrl_plc lay_codel lay_mod_queue lay_del_queue lay_ctrl_queue
  lay_mod_sch lay_ctrl_sch lay_mod_shp lay_ctrl_shp lay_mod_pcr lay_ctrl_pcr lay_i32 lay_i64 : tc_w.

Lemma writes_words l : writes 0 (w_list w_u32 l) (lay_array (le 4) l).
Proof. apply writes_list; [done|]. apply Forall_true. intros. apply writes_u32. Qed.

Lemma writes_objs {T} `{CStruct T} (l : list T) : Forall wf_obj l -> writes 0 (w_list w_obj l) (lay_array obj l).
Proof. intros Hl. apply writes_list; [done|]. eapply Forall_impl; [done|]. apply writes_obj. Qed.

#[export] Hint Resolve writes_nil writes_u32 writes_i32 writes_i64 writes_words : tc.

(** Follow the sequence of writes and the layout together. *)
Ltac w_go := repeat first
  [ progress autounfold with tc_w | progress cbn match | progress cbn [mq_id mq_queue] | (apply writes_then; [done|..]) | solve [auto with tc]
  | apply writes_obj; done | apply writes_objs; done ].

Lemma tc_enc_sch_ok s : wf_sch s -> writes 0 (tc_enc_sch s) (lay_tc_sch s).
Proof. intros Hs. unfold tc_enc_sch, lay_tc_sch. destruct s; [w_go..|done]. Qed.

Lemma tc_enc_pcr_ok p : writes 0 (tc_enc_pcr p) (lay_tc_pcr p).
Proof. w_go. Qed.

Lemma tc_enc_cls_ok c : wf_cls_u wf_filters c -> writes 0 (tc_enc_cls c) (lay_cls_u lay_filters c).
Proof. intros Hc. unfold tc_enc_cls. destruct c; [|destruct Hc|..|done]; w_go. Qed.

Lemma tc_enc_shp_ok s : writes 0 (tc_enc_shp s) (lay_shp s).
Proof. w_go. Qed.

Lemma tc_enc_plc_ok p : writes 0 (tc_enc_plc p) (lay_plc p).
Proof. w_go. Qed.

Lemma tc_enc_q_ok q : wf_queue q -> writes 0 (tc_enc_q q) (lay_queue q).
Proof. intros [_ Hq]. unfold tc_enc_q. autounfold with tc_w. destruct (queue_stats q); [w_go..|done]. Qed.

Lemma tc_enc_flow_ok f : wf_flow f -> writes 1 (tc_enc_flow f) (lay_flow f).
Proof.
  intros (_ & _ & Hq). unfold tc_enc_flow, lay_flow. pose proof (zlen_nonneg (lay_queue (fl_q f))).
  pose proof (zlen_nonneg (lay_plc (fl_plc f) ++ lay_queue (fl_q f))).
  apply writes_then; [done|apply tc_enc_shp_ok|]. apply writes_check; [lia|done|].
  apply writes_then; [done|apply tc_enc_plc_ok|]. apply writes_check; [lia|done|].
  by apply writes_last_check, tc_enc_q_ok.
Qed.

Lemma tc_enc_ind_ok m : wf_tc_ind m -> writes 0 (tc_enc_ind m) (lay_tc_ind m).
Proof.
  intros (Hs & _ & Hc & _ & Hf & _). unfold tc_enc_ind, lay_tc_ind, lay_i64.
  pose proof (zlen_nonneg (lay_tc_pcr (tc_pcr m))). pose proof (zlen_nonneg (lay_cls_u lay_filters (tc_cls m))).
  pose proof (zlen_nonneg (lay_array lay_flow (tc_flows m))).
  apply writes_then; [done|by apply tc_enc_sch_ok|]. apply writes_check; [room|done|].
  apply writes_then; [done|apply tc_enc_pcr_ok|]. apply writes_check; [room|done|].
  apply writes_then; [done|by apply tc_enc_cls_ok|]. apply writes_check; [room|done|].
  apply writes_then; [done|apply writes_u32|]. apply writes_check; [room|done|].
  apply (writes_seq 0 1); [done| |by rewrite zlen_le|apply writes_i64].
  apply writes_list; [done|]. eapply Forall_impl; [done|]. intros f. apply tc_enc_flow_ok.
Qed.

Lemma enc_ctrl_cls_ok c : wf_ctrl_cls c -> writes 0 (enc_tc_ctrl_payload_cls c) (lay_ctrl_cls c).
Proof. intros Hc. destruct c as [[]|[]|[]|]; try done; w_go. Qed.

Lemma enc_ctrl_plc_ok p : wf_ctrl_plc p -> writes 0 (enc_tc_ctrl_payload_plc p) (lay_ctrl_plc p).
Proof. intros Hp. destruct p; try done; w_go. Qed.

Lemma enc_ctrl_q_ok q : wf_ctrl_queue q -> writes 0 (enc_tc_ctrl_payload_q q) (lay_ctrl_queue q).
Proof. intros Hq. destruct q as [[]|[i []]|[]|]; try done; try (by destruct Hq); w_go. Qed.

Lemma enc_ctrl_sch_ok s : wf_ctrl_sch s -> writes 0 (enc_tc_ctrl_payload_sch s) (lay_ctrl_sch s).
Proof. intros Hs. destruct s as [|[]| |]; try done; w_go. Qed.

Lemma enc_ctrl_shp_ok s : wf_ctrl_shp s -> writes 0 (enc_tc_ctrl_payload_shp s) (lay_ctrl_shp s).
Proof. intros Hs. destruct s; try done; w_go. Qed.

Lemma enc_ctrl_pcr_ok p : wf_ctrl_pcr p -> writes 0 (enc_tc_ctrl_payload_pcr p) (lay_ctrl_pcr p).
Proof. intros Hp. destruct p as [|[]| |]; try done; w_go. Qed.

Lemma enc_tc_ctrl_ok m : wf_tc_ctrl m -> writes 0 (enc_tc_ctrl m) (lay_tc_ctrl m).
Proof.
  intros Hm. unfold enc_tc_ctrl, lay_tc_ctrl. apply writes_then; [done|apply writes_u32|].
  destruct m; [by apply enc_ctrl_cls_ok|by apply enc_ctrl_plc_ok|by apply enc_ctrl_q_ok|by apply enc_ctrl_sch_ok
    |by apply enc_ctrl_shp_ok|by apply enc_ctrl_pcr_ok|done].
Qed.

(** ** The sizes are those of the layout *)

Lemma zlen_words l : zlen (lay_array (le 4) l) = 4 * zlen l.
Proof. apply zlen_lay_array_const. intros. apply zlen_le. Qed.

#[export] Hint Rewrite zlen_words : codec.

(** Both sides are sums of the sizes of integers. *)
Ltac size_go := autounfold with tc_w; cbn match; autorewrite with codec; reflexivity || lia.

Lemma cal_sch_ok s : wf_sch s -> cal_sch_payload s = Ok (zlen (lay_tc_sch s)).
Proof. intros Hs. unfold cal_sch_payload, lay_tc_sch. destruct s; [..|done]; f_equal; size_go. Qed.

Lemma zlen_tc_pcr p : zlen (lay_tc_pcr p) = cal_pcr_payload p.
Proof. unfold cal_pcr_payload, cal_mtr_payload. size_go. Qed.

Lemma cal_cls_ok c : wf_cls_u wf_filters c -> cal_cls_payload c = Ok (zlen (lay_cls_u lay_filters c)).
Proof.
  intros Hc. unfold cal_cls_payload, cal_cls_osi_payload. destruct c as [|l| |]; [|destruct Hc|..|done]; f_equal;
    try size_go. unfold lay_cls_u, lay_filters, lay_counted. rewrite !zlen_app, zlen_objs, !zlen_le by done. lia.
Qed.

Lemma cal_q_ok q : wf_queue q -> cal_q_payload q = Ok (zlen (lay_queue q)).
Proof.
  intros [_ Hq]. unfold cal_q_payload, lay_queue. destruct (queue_stats q); [..|done]; f_equal;
    unfold cal_drp_payload, cal_mrk_payload; size_go.
Qed.

Lemma cal_flows_ok l sz : Forall wf_flow l -> cal_flows sz l = Ok (sz + zlen (lay_array lay_flow l)).
Proof.
  intros Hl. revert sz. induction Hl as [|f l (_ & _ & Hq) Hl IH]; intros sz; simpl;
    [unfold zlen; simpl; f_equal; lia|]. rewrite cal_q_ok by done. cbn [rbind]. rewrite IH.
  change (lay_array lay_flow (f :: l)) with (lay_flow f ++ lay_array lay_flow l).
  rewrite zlen_app. unfold lay_flow. rewrite !zlen_app. f_equal.
  assert (Hs : zlen (lay_shp (fl_shp f)) = cal_shp_payload (fl_shp f)) by (unfold cal_shp_payload, cal_mtr_payload; size_go).
  assert (Hp : zlen (lay_plc (fl_plc f)) = cal_plc_payload (fl_plc f))
    by (unfold cal_plc_payload, cal_mtr_payload, cal_drp_payload, cal_mrk_payload; size_go). lia.
Qed.

Lemma cal_ind_ok m : wf_tc_ind m -> cal_ind_msg_payload m = Ok (zlen (lay_tc_ind m)).
Proof.
  intros (Hs & _ & Hc & _ & Hf & _). unfold cal_ind_msg_payload. rewrite cal_sch_ok by done. cbn [rbind].
  rewrite cal_cls_ok by done. cbn [rbind]. rewrite cal_flows_ok by done. cbn [rbind]. f_equal.
  unfold lay_tc_ind, lay_i64. rewrite !zlen_app, !zlen_le, zlen_tc_pcr. lia.
Qed.

(** The control message that is smaller than what is allocated for it. *)
Definition adds_osi (m : tc_ctrl_msg_t) : bool :=
  match m with tc_ctrl_cls (act_add (cls_osi _)) => true | _ => false end.

Lemma cal_ctrl_ok m :
  wf_tc_ctrl m -> cal_tc_ctrl_payload m = Ok (zlen (lay_tc_ctrl m) + (if adds_osi m then 4 else 0)).
Proof.
  intros Hm. destruct m as [[[]|[]|[]|]|[]|[[]|[i []]|[]|]|[|[|l|]| |]|[]|[|[]| |]|]; try done; try (by destruct Hm).
  unfold cal_tc_ctrl_payload, cal_tc_ctrl_payload_sch, cal_tc_ctrl_payload_sch_mod, cal_tc_ctrl_payload_sch_mod_prio.
  cbn [adds_osi rbind]. f_equal. unfold lay_tc_ctrl. size_go.
Qed.

Section Sizes.
Context (malloc : Z -> bytes).
Hypothesis malloc_len : forall n, 0 <= n -> zlen (malloc n) = n.

Lemma tc_enc_ind_msg_ok m : wf_tc_ind m -> tc_enc_ind_msg_plain malloc m = Ok (lay_tc_ind m).
Proof.
  intros Hm. unfold tc_enc_ind_msg_plain. rewrite cal_ind_ok by done. cbn [rbind].
  apply run_writer_ok; [done|by apply tc_enc_ind_ok|done].
Qed.

Lemma tc_enc_ctrl_msg_ok m :
  wf_tc_ctrl m -> tc_enc_ctrl_msg_plain malloc m = if adds_osi m then Fail FExit else Ok (lay_tc_ctrl m).
Proof.
  intros Hm. unfold tc_enc_ctrl_msg_plain. rewrite cal_ctrl_ok by done. cbn [rbind].
  pose proof (enc_tc_ctrl_ok m Hm). destruct (adds_osi m); [eapply run_writer_long; [done..|lia]|].
  apply run_writer_ok; [done..|lia].
Qed.
End Sizes.
