(* ===== verification/TcDec.v ===== *)
(** The plain decoder of the traffic-control service model
    (flexric/src/sm/tc_sm/dec/tc_dec_plain.c), what it accepts, and the round
    trips with the encoder of TcEnc.

    The structs that it fills in start as zeros: a member that is not sent is
    0. *)

From S2P Require Import Prelude SmCodec SmStruct SmMonad TcData TcEnc.

(** ** Readers of the indication message *)

Definition tc_dec_sch_rr : reader Z := r_ret 0.

(** One [memcpy] for the array. *)
Definition tc_dec_sch_prio : reader (list Z) :=
  let! len_q_prio := r_u32 in
  r_list r_u32 (Z.to_nat len_q_prio).

Definition tc_dec_sch : reader tc_sch_t :=
  let! type := r_u32 in
  if type =? TC_SCHED_RR then let! rr := tc_dec_sch_rr in r_ret (sch_rr rr)
  else if type =? TC_SCHED_PRIO then let! prio := tc_dec_sch_prio in r_ret (sch_prio prio)
  else r_stop.

Definition tc_dec_mtr : reader tc_mtr_t :=
  let! bnd := r_u32 in
  let! window := r_u32 in
  r_ret {| time_window_ms := window; bnd_flt := bnd |}.

Definition tc_dec_pcr : reader tc_pcr_t :=
  let! type := r_u32 in
  let! id := r_u32 in
  let! mtr := tc_dec_mtr in
  r_ret {| pcr_type := type; pcr_id := id; pcr_mtr := mtr |}.

Definition tc_dec_cls_rr : reader Z := r_u32.

Definition tc_dec_cls_osi : reader (list tc_cls_osi_filter_t) :=
  let! len := r_u32 in
  r_list get_obj (Z.to_nat len).

Definition tc_dec_cls_sto : reader Z := r_u32.

Definition tc_dec_cls : reader tc_cls_t :=
  let! type := r_u32 in
  if type =? TC_CLS_RR then let! rr := tc_dec_cls_rr in r_ret (cls_rr rr)
  else if type =? TC_CLS_OSI then let! osi := tc_dec_cls_osi in r_ret (cls_osi osi)
  else if type =? TC_CLS_STO then let! sto := tc_dec_cls_sto in r_ret (cls_sto sto)
  else r_stop.

Definition tc_dec_shp : reader tc_shp_t :=
  let! id := r_u32 in
  let! active := r_u32 in
  let! max_rate_kbps := r_u32 in
  let! mtr := tc_dec_mtr in
  r_ret {| shp_id := id; shp_active := active; shp_max_rate_kbps := max_rate_kbps; shp_mtr := mtr |}.

Definition tc_dec_drp : reader Z := r_u32.
Definition tc_dec_mrk : reader Z := r_u32.

Definition tc_dec_plc : reader tc_plc_t :=
  let! id := r_u32 in
  let! mtr := tc_dec_mtr in
  let! drp := tc_dec_drp in
  let! mrk := tc_dec_mrk in
  let! max_rate_kbps := r_u32 in
  let! active := r_u32 in
  let! dst_id := r_u32 in
  let! dev_id := r_u32 in
  r_ret {| plc_id := id; plc_mtr := mtr; plc_drp := drp; plc_mrk := mrk; plc_max_rate_kbps := max_rate_kbps;
           plc_active := active; plc_dst_id := dst_id; plc_dev_id := dev_id |}.

Definition tc_dec_q_fifo : reader tc_queue_stats_t :=
  let! b := r_u32 in
  let! pkts := r_u32 in
  let! bytes_fwd := r_u32 in
  let! pkts_fwd := r_u32 in
  let! drp := tc_dec_drp in
  let! avg_sojourn_time := r_u32 in
  let! last_sojourn_time := r_i64 in
  r_ret (mk_queue_stats b pkts bytes_fwd pkts_fwd drp avg_sojourn_time last_sojourn_time).

Definition tc_dec_q_codel : reader tc_queue_stats_t :=
  let! b := r_u32 in
  let! pkts := r_u32 in
  let! bytes_fwd := r_u32 in
  let! pkts_fwd := r_u32 in
  let! drp := tc_dec_drp in
  let! avg_sojourn_time := r_u32 in
  let! last_sojourn_time := r_i64 in
  r_ret (mk_queue_stats b pkts bytes_fwd pkts_fwd drp avg_sojourn_time last_sojourn_time).

Definition tc_dec_q_ecn_codel : reader tc_queue_stats_t :=
  let! b := r_u32 in
  let! pkts := r_u32 in
  let! bytes_fwd := r_u32 in
  let! pkts_fwd := r_u32 in
  let! mrk := tc_dec_mrk in
  let! avg_sojourn_time := r_u32 in
  let! last_sojourn_time := r_i64 in
  r_ret (mk_queue_stats b pkts bytes_fwd pkts_fwd mrk avg_sojourn_time last_sojourn_time).

Definition tc_dec_q : reader tc_queue_t :=
  let! type := r_u32 in
  if type =? TC_QUEUE_FIFO then let! s := tc_dec_q_fifo in r_ret (mk_queue 0 (queue_fifo s))
  else if type =? TC_QUEUE_CODEL then let! s := tc_dec_q_codel in r_ret (mk_queue 0 (queue_codel s))
  else if type =? TC_QUEUE_ECN_CODEL then let! s := tc_dec_q_ecn_codel in r_ret (mk_queue 0 (queue_ecn s))
  else r_stop.

(** The body of the loop of [tc_dec_ind_msg_plain]. *)
Definition tc_dec_flow : reader tc_flow_t :=
  let! shp := tc_dec_shp in
  let! _ := r_inside in
  let! plc := tc_dec_plc in
  let! _ := r_inside in
  let! q := tc_dec_q in
  let! _ := r_inside in
  r_ret (mk_flow shp plc q).

Definition tc_dec_ind : reader tc_ind_msg_t :=
  let! sch := tc_dec_sch in
  let! _ := r_inside in
  let! pcr := tc_dec_pcr in
  let! _ := r_inside in
  let! cls := tc_dec_cls in
  let! _ := r_inside in
  let! len_q := r_u32 in
  let! _ := r_inside in
  let! flows := r_list tc_dec_flow (Z.to_nat len_q) in
  let! tstamp := r_i64 in
  r_ret {| tc_sch := sch; tc_pcr := pcr; tc_cls := cls; tc_flows := flows; tc_tstamp := tstamp |}.

(** ** Readers of the control message *)

Definition dec_tc_add_ctrl_payload_cls_rr : reader Z := r_u32.

Definition dec_tc_add_ctrl_payload_cls_osi : reader tc_add_cls_osi_t :=
  let! src := r_i64 in
  let! dst := r_i64 in
  let! sport := r_i32 in
  let! dport := r_i32 in
  let! proto := r_i32 in
  let! queue := r_i32 in
  r_ret (mk_add_osi (mk_l3 src dst) (mk_l4 sport dport proto) 0 queue).

Definition dec_tc_add_ctrl_payload_cls_sto : reader Z := r_u32.

Definition dec_tc_add_ctrl_payload_cls : reader tc_add_ctrl_cls_t :=
  let! type := r_u32 in
  if type =? TC_CLS_RR then let! rr := dec_tc_add_ctrl_payload_cls_rr in r_ret (cls_rr rr)
  else if type =? TC_CLS_OSI then let! osi := dec_tc_add_ctrl_payload_cls_osi in r_ret (cls_osi osi)
  else if type =? TC_CLS_STO then let! sto := dec_tc_add_ctrl_payload_cls_sto in r_ret (cls_sto sto)
  else r_stop.

Definition dec_tc_del_ctrl_payload_cls_rr : reader Z := r_u32.
Definition dec_tc_del_ctrl_payload_cls_osi : reader Z := r_u32.
Definition dec_tc_del_ctrl_payload_cls_sto : reader Z := r_u32.

Definition dec_tc_del_ctrl_payload_cls : reader tc_del_ctrl_cls_t :=
  let! type := r_u32 in
  if type =? TC_CLS_RR then let! rr := dec_tc_del_ctrl_payload_cls_rr in r_ret (cls_rr rr)
  else if type =? TC_CLS_OSI then let! osi := dec_tc_del_ctrl_payload_cls_osi in r_ret (cls_osi osi)
  else if type =? TC_CLS_STO then let! sto := dec_tc_del_ctrl_payload_cls_sto in r_ret (cls_sto sto)
  else r_stop.

Definition dec_tc_mod_ctrl_payload_cls_rr : reader Z := r_u32.
Definition dec_tc_mod_ctrl_payload_cls_osi : reader tc_cls_osi_filter_t := get_obj.
Definition dec_tc_mod_ctrl_payload_cls_sto : reader Z := r_u32.

Definition dec_tc_mod_ctrl_payload_cls : reader tc_mod_ctrl_cls_t :=
  let! type := r_u32 in
  if type =? TC_CLS_RR then let! rr := dec_tc_mod_ctrl_payload_cls_rr in r_ret (cls_rr rr)
  else if type =? TC_CLS_OSI then let! osi := dec_tc_mod_ctrl_payload_cls_osi in r_ret (cls_osi osi)
  else if type =? TC_CLS_STO then let! sto := dec_tc_mod_ctrl_payload_cls_sto in r_ret (cls_sto sto)
  else r_stop.

Definition dec_tc_ctrl_payload_cls : reader tc_ctrl_cls_t :=
  let! act := r_u32 in
  if act =? TC_CTRL_ACTION_SM_V0_ADD then let! a := dec_tc_add_ctrl_payload_cls in r_ret (act_add a)
  else if act =? TC_CTRL_ACTION_SM_V0_DEL then let! d := dec_tc_del_ctrl_payload_cls in r_ret (act_del d)
  else if act =? TC_CTRL_ACTION_SM_V0_MOD then let! m := dec_tc_mod_ctrl_payload_cls in r_ret (act_mod m)
  else r_stop.

Definition dec_tc_ctrl_payload_q_fifo : reader Z := r_u32.

Definition dec_tc_ctrl_payload_q_codel : reader tc_ctrl_queue_codel_t :=
  let! target := r_u32 in
  let! interval := r_u32 in
  r_ret (mk_codel target interval).

Definition dec_tc_ctrl_payload_q_ecn_codel : reader tc_ctrl_queue_codel_t :=
  let! target := r_u32 in
  let! interval := r_u32 in
  r_ret (mk_codel target interval).

Definition dec_tc_add_ctrl_payload_plc : reader Z := r_u32.
Definition dec_tc_del_ctrl_payload_plc : reader Z := r_u32.

Definition dec_tc_mod_ctrl_payload_plc : reader tc_mod_ctrl_plc_t :=
  let! id := r_u32 in
  let! drop_rate := r_u32 in
  let! dev_id := r_u32 in
  let! dev_rate := r_u32 in
  let! active := r_u32 in
  r_ret (mk_mod_plc id drop_rate dev_id dev_rate active).

Definition dec_tc_ctrl_payload_plc : reader tc_ctrl_plc_t :=
  let! act := r_u32 in
  if act =? TC_CTRL_ACTION_SM_V0_ADD then let! a := dec_tc_add_ctrl_payload_plc in r_ret (act_add a)
  else if act =? TC_CTRL_ACTION_SM_V0_DEL then let! d := dec_tc_del_ctrl_payload_plc in r_ret (act_del d)
  else if act =? TC_CTRL_ACTION_SM_V0_MOD then let! m := dec_tc_mod_ctrl_payload_plc in r_ret (act_mod m)
  else r_stop.

Definition dec_tc_add_ctrl_payload_q : reader tc_add_ctrl_queue_t :=
  let! type := r_u32 in
  if type =? TC_QUEUE_FIFO then let! f := dec_tc_ctrl_payload_q_fifo in r_ret (queue_fifo f)
  else if type =? TC_QUEUE_CODEL then let! c := dec_tc_ctrl_payload_q_codel in r_ret (queue_codel c)
  else if type =? TC_QUEUE_ECN_CODEL then let! e := dec_tc_ctrl_payload_q_ecn_codel in r_ret (queue_ecn e)
  else r_stop.

Definition dec_tc_del_ctrl_payload_q : reader tc_del_ctrl_queue_t :=
  let! id := r_u32 in
  let! type := r_u32 in
  r_ret (mk_del_queue id type).

Definition dec_tc_mod_ctrl_payload_q : reader tc_mod_ctrl_queue_t :=
  let! id := r_u32 in
  let! type := r_u32 in
  if type =? TC_QUEUE_FIFO then let! f := dec_tc_ctrl_payload_q_fifo in r_ret (mk_mod_queue id (queue_fifo f))
  else if type =? TC_QUEUE_CODEL then let! c := dec_tc_ctrl_payload_q_codel in r_ret (mk_mod_queue id (queue_codel c))
  else if type =? TC_QUEUE_ECN_CODEL then let! e := dec_tc_ctrl_payload_q_ecn_codel in r_ret (mk_mod_queue id (queue_ecn e))
  else r_stop.

Definition dec_tc_ctrl_payload_q : reader tc_ctrl_queue_t :=
  let! act := r_u32 in
  if act =? TC_CTRL_ACTION_SM_V0_ADD then let! a := dec_tc_add_ctrl_payload_q in r_ret (act_add a)
  else if act =? TC_CTRL_ACTION_SM_V0_DEL then let! d := dec_tc_del_ctrl_payload_q in r_ret (act_del d)
  else if act =? TC_CTRL_ACTION_SM_V0_MOD then let! m := dec_tc_mod_ctrl_payload_q in r_ret (act_mod m)
  else r_stop.

Definition dec_tc_add_ctrl_payload_sch : reader Z := r_u32.
Definition dec_tc_del_ctrl_payload_sch : reader Z := r_u32.
Definition dec_tc_mod_ctrl_payload_sch_rr : reader Z := r_u32.

Definition dec_tc_mod_ctrl_payload_sch_prio : reader (list Z) :=
  let! len_q_prio := r_u32 in
  r_list r_u32 (Z.to_nat len_q_prio).

Definition dec_tc_mod_ctrl_payload_sch : reader tc_sch_t :=
  let! type := r_u32 in
  if type =? TC_SCHED_RR then let! rr := dec_tc_mod_ctrl_payload_sch_rr in r_ret (sch_rr rr)
  else if type =? TC_SCHED_PRIO then let! prio := dec_tc_mod_ctrl_payload_sch_prio in r_ret (sch_prio prio)
  else r_stop.

Definition dec_tc_ctrl_payload_sch : reader tc_ctrl_sch_t :=
  let! act := r_u32 in
  if act =? TC_CTRL_ACTION_SM_V0_ADD then let! a := dec_tc_add_ctrl_payload_sch in r_ret (act_add a)
  else if act =? TC_CTRL_ACTION_SM_V0_DEL then let! d := dec_tc_del_ctrl_payload_sch in r_ret (act_del d)
  else if act =? TC_CTRL_ACTION_SM_V0_MOD then let! m := dec_tc_mod_ctrl_payload_sch in r_ret (act_mod m)
  else r_stop.

Definition dec_tc_add_ctrl_payload_shp : reader Z := r_u32.
Definition dec_tc_del_ctrl_payload_shp : reader Z := r_u32.

Definition dec_tc_mod_ctrl_payload_shp : reader tc_mod_ctrl_shp_t :=
  let! id := r_u32 in
  let! window := r_u32 in
  let! max_rate := r_u32 in
  let! active := r_u32 in
  r_ret (mk_mod_shp id window max_rate active).

Definition dec_tc_ctrl_payload_shp : reader tc_ctrl_shp_t :=
  let! act := r_u32 in
  if act =? TC_CTRL_ACTION_SM_V0_ADD then let! a := dec_tc_add_ctrl_payload_shp in r_ret (act_add a)
  else if act =? TC_CTRL_ACTION_SM_V0_DEL then let! d := dec_tc_del_ctrl_payload_shp in r_ret (act_del d)
  else if act =? TC_CTRL_ACTION_SM_V0_MOD then let! m := dec_tc_mod_ctrl_payload_shp in r_ret (act_mod m)
  else r_stop.

Definition dec_tc_add_ctrl_payload_pcr : reader Z := r_u32.
Definition dec_tc_del_ctrl_payload_pcr : reader Z := r_u32.
Definition dec_tc_mod_ctrl_payload_pcr_dummy : reader Z := r_u32.

Definition dec_tc_mod_ctrl_payload_pcr_bdp : reader tc_pcr_5g_bdp_t :=
  let! sz := r_u32 in
  let! t := r_i64 in
  r_ret (mk_bdp sz t).

Definition dec_tc_mod_ctrl_payload_pcr : reader tc_mod_ctrl_pcr_t :=
  let! type := r_u32 in
  if type =? TC_PCR_DUMMY then let! d := dec_tc_mod_ctrl_payload_pcr_dummy in r_ret (pcr_dummy d)
  else if type =? TC_PCR_5G_BDP then let! b := dec_tc_mod_ctrl_payload_pcr_bdp in r_ret (pcr_bdp b)
  else r_stop.

Definition dec_tc_ctrl_payload_pcr : reader tc_ctrl_pcr_t :=
  let! act := r_u32 in
  if act =? TC_CTRL_ACTION_SM_V0_ADD then let! a := dec_tc_add_ctrl_payload_pcr in r_ret (act_add a)
  else if act =? TC_CTRL_ACTION_SM_V0_DEL then let! d := dec_tc_del_ctrl_payload_pcr in r_ret (act_del d)
  else if act =? TC_CTRL_ACTION_SM_V0_MOD then let! m := dec_tc_mod_ctrl_payload_pcr in r_ret (act_mod m)
  else r_stop.

Definition dec_tc_ctrl : reader tc_ctrl_msg_t :=
  let! type := r_u32 in
  if type =? TC_CTRL_SM_V0_CLS then let! c := dec_tc_ctrl_payload_cls in r_ret (tc_ctrl_cls c)
  else if type =? TC_CTRL_SM_V0_PLC then let! p := dec_tc_ctrl_payload_plc in r_ret (tc_ctrl_plc p)
  else if type =? TC_CTRL_SM_V0_QUEUE then let! q := dec_tc_ctrl_payload_q in r_ret (tc_ctrl_q q)
  else if type =? TC_CTRL_SM_V0_SCH then let! s := dec_tc_ctrl_payload_sch in r_ret (tc_ctrl_sch s)
  else if type =? TC_CTRL_SM_V0_SHP then let! s := dec_tc_ctrl_payload_shp in r_ret (tc_ctrl_shp s)
  else if type =? TC_CTRL_SM_V0_PCR then let! p := dec_tc_ctrl_payload_pcr in r_ret (tc_ctrl_pcr p)
  else r_stop.

(** ** Messages: the array of [len] bytes is the argument *)

Definition tc_dec_event_trigger_plain (ev_tr : bytes) : res Z := get 4 ev_tr 0.

Definition tc_dec_ind_hdr_plain (ind_hdr : bytes) : res Z :=
  let* _ := assert_ (zlen ind_hdr =? 4) in get 4 ind_hdr 0.

Definition tc_dec_ctrl_hdr_plain (ctrl_hdr : bytes) : res Z :=
  let* _ := assert_ (zlen ctrl_hdr =? 4) in get 4 ctrl_hdr 0.

Definition tc_dec_ind_msg_plain (ind_msg : bytes) : res tc_ind_msg_t := run_reader tc_dec_ind ind_msg.

Definition tc_dec_ctrl_msg_plain (ctrl_msg : bytes) : res tc_ctrl_msg_t :=
  let* _ := assert_ (0 <? zlen ctrl_msg) in
  run_reader dec_tc_ctrl ctrl_msg.

Definition tc_dec_ctrl_out_plain (ctrl_out : bytes) : res Z :=
  let* _ := assert_ (0 <? zlen ctrl_out) in
  let* _ := assert_ (zlen ctrl_out =? 4) in
  get 4 ctrl_out 0.

(** [assert(0!=0 && "Not implemented")] is what these start with. *)
Definition tc_dec_action_def_plain (action_def : bytes) : res Z := Fail FExit.
Definition tc_dec_call_proc_id_plain (call_proc_id : bytes) : res Z := Fail FExit.
Definition tc_dec_func_def_plain (func_def : bytes) : res bytes := Fail FExit.

(** ** The values that are received: what is not sent is 0 *)

Definition rcvd_sch (s : tc_sch_t) : Prop := match s with sch_rr d => d = 0 | _ => True end.
Definition rcvd_flow (f : tc_flow_t) : Prop := queue_id (fl_q f) = 0.
Definition rcvd_ind (m : tc_ind_msg_t) : Prop := rcvd_sch (tc_sch m) /\ Forall rcvd_flow (tc_flows m).

Definition rcvd_ctrl (m : tc_ctrl_msg_t) : Prop :=
  match m with tc_ctrl_cls (act_add (cls_osi o)) => ao_l7 o = 0 | _ => True end.

(** What is left of a message on the way. *)
Definition sent_sch (s : tc_sch_t) : tc_sch_t := match s with sch_rr _ => sch_rr 0 | s => s end.
Definition sent_flow (f : tc_flow_t) : tc_flow_t :=
  mk_flow (fl_shp f) (fl_plc f) (mk_queue 0 (queue_stats (fl_q f))).
Definition sent_ind (m : tc_ind_msg_t) : tc_ind_msg_t :=
  mk_tc_ind (sent_sch (tc_sch m)) (tc_pcr m) (tc_cls m) (map sent_flow (tc_flows m)) (tc_tstamp m).

Lemma lay_sent m : lay_tc_ind (sent_ind m) = lay_tc_ind m.
Proof.
  unfold lay_tc_ind, sent_ind. cbn [tc_sch tc_pcr tc_cls tc_flows tc_tstamp].
  assert (Hs : lay_tc_sch (sent_sch (tc_sch m)) = lay_tc_sch (tc_sch m)) by by destruct (tc_sch m).
  assert (Hn : zlen (map sent_flow (tc_flows m)) = zlen (tc_flows m)) by (unfold zlen; by rewrite length_map).
  rewrite Hs, Hn. unfold lay_array. by rewrite map_map.
Qed.

Lemma wf_sent m : wf_tc_ind m -> wf_tc_ind (sent_ind m) /\ rcvd_ind (sent_ind m).
Proof.
  intros (Hs & Hp & Hc & Hn & Hf & Ht).
  assert (Hw : wf_sch (sent_sch (tc_sch m)) /\ rcvd_sch (sent_sch (tc_sch m))) by by destruct (tc_sch m).
  split; [split_and!; simpl; try done; try apply Hw|split; [apply Hw|]].
  - unfold zlen in *. by rewrite length_map.
  - apply Forall_map. eapply Forall_impl; [done|]. intros f (? & ? & ? & ?). by split_and!.
  - apply Forall_map. by apply Forall_true.
Qed.

Lemma sent_rcvd m : rcvd_ind m -> sent_ind m = m.
Proof.
  intros [Hs Hf]. unfold sent_ind. destruct m as [s p c l t]; simpl in *. f_equal; [destruct s; simpl in *; by subst|].
  induction Hf as [|[sh pl [i q]] l Hx Hl IH]; simpl; [done|]. rewrite IH. unfold rcvd_flow in Hx. simpl in Hx. by subst.
Qed.

(** ** The readers read the layout *)

#[export] Hint Resolve reads_u32 reads_i32 reads_i64 reads_obj : tc.

Ltac fits_tag := unfold fits; vm_compute; by intuition congruence.

(** Decide the comparison with a constant of an enum. *)
Ltac if_tag :=
  match goal with
  | |- context [if ?a =? ?b then _ else _] =>
      let v := eval vm_compute in (a =? b) in change (a =? b) with v; cbv iota
  end.

(** Follow the sequence of reads and the layout together. *)
Ltac r_go := repeat first
  [ if_tag
  | progress cbv beta
  | lazymatch goal with
    | |- reads_as ?k (r_bind ?r (fun x => r_ret (@?f x))) _ _ =>
        eapply (reads_last k r f); [done|solve [eauto with tc]|reflexivity]
    end
  | eapply reads_then; [done|solve [eauto with tc | apply reads_u32; fits_tag]|]
  | solve [eauto with tc] ].

Lemma reads_mtr m : wf_mtr m -> reads_as 0 tc_dec_mtr (lay_mtr m) m.
Proof. intros []. destruct m. unfold tc_dec_mtr, lay_mtr. r_go. Qed.
#[export] Hint Resolve reads_mtr : tc.

Lemma reads_pcr p : wf_pcr p -> reads_as 0 tc_dec_pcr (lay_tc_pcr p) p.
Proof. intros (? & ? & ?). destruct p. unfold tc_dec_pcr, lay_tc_pcr. r_go. Qed.

Lemma reads_shp s : wf_shp s -> reads_as 0 tc_dec_shp (lay_shp s) s.
Proof. intros (? & ? & ? & ?). destruct s. unfold tc_dec_shp, lay_shp. r_go. Qed.

Lemma reads_plc p : wf_plc p -> reads_as 0 tc_dec_plc (lay_plc p) p.
Proof. intros (? & ? & ? & ? & ? & ? & ? & ?). destruct p. unfold tc_dec_plc, lay_plc. r_go. Qed.

Lemma reads_words l : fits_words l -> reads_as 0 tc_dec_sch_prio (lay_words_list l) l.
Proof. intros []. apply reads_counted; [done|]. eapply Forall_impl; [done|]. apply reads_u32. Qed.

Lemma reads_filters l : wf_filters l -> reads_as 0 tc_dec_cls_osi (lay_filters l) l.
Proof. intros []. apply reads_counted; [done|]. eapply Forall_impl; [done|]. apply reads_obj. Qed.

Lemma reads_sch_rr : reads_as 0 tc_dec_sch_rr [] 0.
Proof. apply reads_ret. Qed.
#[export] Hint Resolve reads_sch_rr reads_words reads_filters reads_shp reads_plc reads_pcr : tc.

Lemma reads_sch s : wf_sch s -> rcvd_sch s -> reads_as 0 tc_dec_sch (lay_tc_sch s) s.
Proof.
  intros Hs Hr. unfold tc_dec_sch, lay_tc_sch. destruct s as [d| |]; [simpl in Hr; subst d|..|done]; cbn [sch_type]; r_go.
Qed.

Lemma reads_cls c : wf_cls_u wf_filters c -> reads_as 0 tc_dec_cls (lay_cls_u lay_filters c) c.
Proof. intros Hc. unfold tc_dec_cls, lay_cls_u. destruct c; [..|done]; cbn [cls_type]; simpl in Hc; r_go. Qed.

Lemma reads_queue_stats q : wf_queue_stats q -> reads_as 0 tc_dec_q_fifo (lay_queue_stats q) q.
Proof. intros (? & ? & ? & ? & ? & ? & ?). destruct q. unfold tc_dec_q_fifo, lay_queue_stats, lay_i64. r_go. Qed.
#[export] Hint Resolve reads_queue_stats : tc.

Lemma reads_q q : wf_queue q -> queue_id q = 0 -> reads_as 0 tc_dec_q (lay_queue q) q.
Proof.
  intros [_ Hq] Hid. destruct q as [id u]; simpl in *. subst id. unfold tc_dec_q, lay_queue, lay_queue_u.
  change tc_dec_q_codel with tc_dec_q_fifo. change tc_dec_q_ecn_codel with tc_dec_q_fifo.
  destruct u; [..|done]; simpl in Hq; cbn [queue_type queue_stats]; r_go.
Qed.
#[export] Hint Resolve reads_sch reads_cls reads_q : tc.

Lemma reads_flow f : wf_flow f -> rcvd_flow f -> reads_as 1 tc_dec_flow (lay_flow f) f.
Proof.
  intros (? & ? & Hq) Hr. unfold tc_dec_flow, lay_flow, rcvd_flow in *. destruct f as [s p q]; cbn [fl_shp fl_plc fl_q] in *.
  pose proof (zlen_nonneg (lay_plc p ++ lay_queue q)). pose proof (zlen_nonneg (lay_queue q)).
  eapply reads_then; [done|by apply reads_shp|]. apply reads_check; [lia|].
  eapply reads_then; [done|by apply reads_plc|]. apply reads_check; [lia|].
  rewrite <- (app_nil_r (lay_queue q)). eapply reads_then; [done|by apply reads_q|].
  apply reads_check; [by rewrite zlen_nil|]. apply (reads_room 1 0); [apply reads_ret|done].
Qed.

Lemma reads_ind m : wf_tc_ind m -> rcvd_ind m -> reads_as 0 tc_dec_ind (lay_tc_ind m) m.
Proof.
  intros (Hs & Hp & Hc & Hn & Hf & Ht) [Hrs Hrf]. destruct m as [s p c l t]; cbn [tc_sch tc_pcr tc_cls tc_flows tc_tstamp] in *.
  unfold tc_dec_ind, lay_tc_ind, lay_i64. cbn [tc_sch tc_pcr tc_cls tc_flows tc_tstamp].
  pose proof (zlen_nonneg (lay_tc_pcr p)). pose proof (zlen_nonneg (lay_cls_u lay_filters c)).
  pose proof (zlen_nonneg (lay_array lay_flow l)). pose proof (zlen_nonneg l).
  eapply reads_then; [done|by apply reads_sch|]. apply reads_check; [room|].
  eapply reads_then; [done|by apply reads_pcr|]. apply reads_check; [room|].
  eapply reads_then; [done|by apply reads_cls|]. apply reads_check; [room|].
  eapply reads_then; [done|apply reads_u32; unfold fits; lia|]. apply reads_check; [room|].
  replace (Z.to_nat (zlen l)) with (length l) by (unfold zlen; lia). eapply (reads_seq 0 1); [|by rewrite zlen_le|].
  - apply reads_list; [done|]. apply Forall_forall. intros f Hin. rewrite Forall_forall in Hf, Hrf.
    apply reads_flow; [by apply Hf|by apply Hrf].
  - r_go.
Qed.

Lemma reads_add_osi o : wf_add_osi o -> ao_l7 o = 0 -> reads_as 0 dec_tc_add_ctrl_payload_cls_osi (lay_add_osi o) o.
Proof.
  intros ([? ?] & (? & ? & ?) & _ & ?) Hl. destruct o as [[sa da] [sp dp pr] l7 q]; simpl in *. subst l7.
  unfold dec_tc_add_ctrl_payload_cls_osi, lay_add_osi, lay_i64, lay_i32.
  cbn [ao_l3 ao_l4 ao_dst_queue src_addr dst_addr src_port dst_port protocol]. r_go.
Qed.

Lemma reads_mod_plc p : wf_mod_plc p -> reads_as 0 dec_tc_mod_ctrl_payload_plc (lay_mod_plc p) p.
Proof. intros (? & ? & ? & ? & ?). destruct p. unfold dec_tc_mod_ctrl_payload_plc, lay_mod_plc. r_go. Qed.

Lemma reads_codel c : wf_codel c -> reads_as 0 dec_tc_ctrl_payload_q_codel (lay_codel c) c.
Proof. intros []. destruct c. unfold dec_tc_ctrl_payload_q_codel, lay_codel. r_go. Qed.

Lemma reads_mod_shp s : wf_mod_shp s -> reads_as 0 dec_tc_mod_ctrl_payload_shp (lay_mod_shp s) s.
Proof. intros (? & ? & ? & ?). destruct s. unfold dec_tc_mod_ctrl_payload_shp, lay_mod_shp. r_go. Qed.
#[export] Hint Resolve reads_add_osi reads_mod_plc reads_codel reads_mod_shp : tc.

Lemma reads_queue_u q :
  wf_queue_u (fits 4) wf_codel q -> reads_as 0 dec_tc_add_ctrl_payload_q (lay_queue_u (le 4) lay_codel q) q.
Proof.
  intros Hq. unfold dec_tc_add_ctrl_payload_q, lay_queue_u.
  change dec_tc_ctrl_payload_q_ecn_codel with dec_tc_ctrl_payload_q_codel. unfold dec_tc_ctrl_payload_q_fifo.
  destruct q; [..|done]; simpl in Hq; cbn [queue_type]; r_go.
Qed.

Lemma reads_mod_queue q : wf_mod_queue q -> reads_as 0 dec_tc_mod_ctrl_payload_q (lay_mod_queue q) q.
Proof.
  intros [Hi Hq]. unfold dec_tc_mod_ctrl_payload_q, lay_mod_queue, lay_queue_u.
  change dec_tc_ctrl_payload_q_ecn_codel with dec_tc_ctrl_payload_q_codel. unfold dec_tc_ctrl_payload_q_fifo.
  destruct q as [i []]; [..|done]; simpl in Hi, Hq; cbn [queue_type mq_id mq_queue]; r_go.
Qed.

Lemma reads_del_queue q : wf_del_queue q -> reads_as 0 dec_tc_del_ctrl_payload_q (lay_del_queue q) q.
Proof. intros []. destruct q. unfold dec_tc_del_ctrl_payload_q, lay_del_queue. r_go. Qed.

Lemma reads_mod_sch s : wf_sch s -> reads_as 0 dec_tc_mod_ctrl_payload_sch (lay_mod_sch s) s.
Proof.
  intros Hs. unfold dec_tc_mod_ctrl_payload_sch, lay_mod_sch, dec_tc_mod_ctrl_payload_sch_rr.
  change dec_tc_mod_ctrl_payload_sch_prio with tc_dec_sch_prio.
  destruct s; [..|done]; simpl in Hs; cbn [sch_type]; r_go.
Qed.

Lemma reads_mod_pcr p : wf_mod_pcr p -> reads_as 0 dec_tc_mod_ctrl_payload_pcr (lay_mod_pcr p) p.
Proof.
  intros Hp. unfold dec_tc_mod_ctrl_payload_pcr, lay_mod_pcr, dec_tc_mod_ctrl_payload_pcr_dummy.
  assert (Hb : forall b, wf_mod_pcr (pcr_bdp b) ->
    reads_as 0 dec_tc_mod_ctrl_payload_pcr_bdp (le 4 (drb_sz b) ++ lay_i64 (bdp_tstamp b)) b).
  { intros [sz t] []. unfold dec_tc_mod_ctrl_payload_pcr_bdp, lay_i64. r_go. }
  destruct p; [..|done]; cbn [mod_pcr_type]; [|simpl in Hp]; r_go.
Qed.

(** A classifier, by what its OSI member is read with. *)
Lemma reads_cls_u {O} (r : reader O) lay wf c :
  (forall o, wf o -> reads_as 0 r (lay o) o) -> wf_cls_u wf c ->
  reads_as 0 (let! type := r_u32 in
    if type =? TC_CLS_RR then let! rr := r_u32 in r_ret (cls_rr rr)
    else if type =? TC_CLS_OSI then let! osi := r in r_ret (cls_osi osi)
    else if type =? TC_CLS_STO then let! sto := r_u32 in r_ret (cls_sto sto)
    else r_stop) (lay_cls_u lay c) c.
Proof. intros Hr Hc. unfold lay_cls_u. destruct c; [..|done]; simpl in Hc; cbn [cls_type]; r_go. Qed.

(** A control of one element, by what its three actions are read with. *)
Lemma reads_act_u {A M D} (ra : reader A) (rm : reader M) (rd : reader D) la lm ld wa wm wd a :
  (forall a, wa a -> reads_as 0 ra (la a) a) -> (forall m, wm m -> reads_as 0 rm (lm m) m) ->
  (forall d, wd d -> reads_as 0 rd (ld d) d) -> wf_act_u wa wm wd a ->
  reads_as 0 (let! act := r_u32 in
    if act =? TC_CTRL_ACTION_SM_V0_ADD then let! a := ra in r_ret (act_add a)
    else if act =? TC_CTRL_ACTION_SM_V0_DEL then let! d := rd in r_ret (act_del d)
    else if act =? TC_CTRL_ACTION_SM_V0_MOD then let! m := rm in r_ret (act_mod m)
    else r_stop) (lay_act_u la lm ld a) a.
Proof. intros Ha Hm Hd Hw. unfold lay_act_u. destruct a; [..|done]; simpl in Hw; cbn [act_type]; r_go. Qed.

#[export] Hint Resolve reads_queue_u reads_mod_queue reads_del_queue reads_mod_sch reads_mod_pcr : tc.

(** [l7] of a classifier that is added is 0. *)
Definition rcvd_add (c : tc_add_ctrl_cls_t) : Prop := match c with cls_osi o => ao_l7 o = 0 | _ => True end.

Lemma reads_ctrl_cls c :
  wf_ctrl_cls c -> rcvd_ctrl (tc_ctrl_cls c) -> reads_as 0 dec_tc_ctrl_payload_cls (lay_ctrl_cls c) c.
Proof.
  intros Hc Hr. apply (reads_act_u _ _ _ _ _ _ (fun a => wf_cls_u wf_add_osi a /\ rcvd_add a)
    (wf_cls_u wf_obj) (wf_cls_u (fits 4))).
  - intros a [Ha Hl]. apply (reads_cls_u _ _ (fun o => wf_add_osi o /\ ao_l7 o = 0)); [|by destruct a].
    intros o []. by apply reads_add_osi.
  - intros m Hm. by apply (reads_cls_u _ _ wf_obj); [intros; by apply reads_obj|].
  - intros d Hd. by apply (reads_cls_u _ _ (fits 4)); [intros; by apply reads_u32|].
  - destruct c as [[]| | |]; by simpl in *.
Qed.

Lemma reads_ctrl m : wf_tc_ctrl m -> rcvd_ctrl m -> reads_as 0 dec_tc_ctrl (lay_tc_ctrl m) m.
Proof.
  intros Hm Hr. unfold dec_tc_ctrl, lay_tc_ctrl.
  assert (Hu : forall v, fits 4 v -> reads_as 0 r_u32 (le 4 v) v) by apply reads_u32.
  destruct m as [c|p|q|s|s|p|]; [..|done]; cbn [tc_ctrl_type];
    (eapply reads_then; [done|apply reads_u32; fits_tag|]); cbv beta; repeat if_tag;
    (eapply (reads_last 0 _ _ _ _ _); [done| |reflexivity]).
  - by apply reads_ctrl_cls.
  - by apply (reads_act_u _ _ _ _ _ _ (fits 4) wf_mod_plc (fits 4)); auto using reads_mod_plc.
  - by apply (reads_act_u _ _ _ _ _ _ (wf_queue_u (fits 4) wf_codel) wf_mod_queue wf_del_queue); auto with tc.
  - by apply (reads_act_u _ _ _ _ _ _ (fits 4) wf_sch (fits 4)); auto with tc.
  - by apply (reads_act_u _ _ _ _ _ _ (fits 4) wf_mod_shp (fits 4)); auto with tc.
  - by apply (reads_act_u _ _ _ _ _ _ (fits 4) wf_mod_pcr (fits 4)); auto with tc.
Qed.

(** ** The readers accept nothing else *)

Create HintDb tc_s discriminated.
#[export] Hint Resolve parses_u32 parses_i32 parses_i64 parses_obj : tc_s.

(** The type that was read is a constant of the enum. *)
Ltac s_tag := match goal with |- sound (if ?a =? ?b then _ else _) _ => destruct (Z.eqb_spec a b); [subst a|] end.

(** Follow the sequence of reads, and compare what they went over with the
    layout. *)
Ltac s_end :=
  apply sound_ret; cbv beta; rewrite ?app_nil_r; split_and!; cbn;
  first [assumption | reflexivity | by rewrite <- ?app_assoc | by auto].
Ltac s_go := repeat first
  [ apply sound_stop
  | s_tag
  | apply parses_inside | (eapply parses_then; [solve [eauto with tc_s]|intros ? ?; cbv beta in *; destruct_and?; subst])
  | s_end ].

Lemma parses_mtr : parses tc_dec_mtr lay_mtr wf_mtr.
Proof. unfold parses, tc_dec_mtr, lay_mtr, wf_mtr. s_go. Qed.
#[export] Hint Resolve parses_mtr : tc_s.

Lemma parses_pcr : parses tc_dec_pcr lay_tc_pcr wf_pcr.
Proof. unfold parses, tc_dec_pcr, lay_tc_pcr, wf_pcr. s_go. Qed.

Lemma parses_shp : parses tc_dec_shp lay_shp wf_shp.
Proof. unfold parses, tc_dec_shp, lay_shp, wf_shp. s_go. Qed.

Lemma parses_plc : parses tc_dec_plc lay_plc wf_plc.
Proof. unfold parses, tc_dec_plc, lay_plc, wf_plc, tc_dec_drp, tc_dec_mrk. s_go. Qed.

Lemma parses_words : parses tc_dec_sch_prio lay_words_list fits_words.
Proof. apply parses_counted, parses_u32. Qed.

Lemma parses_filters : parses tc_dec_cls_osi lay_filters wf_filters.
Proof. apply parses_counted, parses_obj. Qed.
#[export] Hint Resolve parses_words parses_filters parses_shp parses_plc parses_pcr : tc_s.

Lemma parses_sch_rr : parses tc_dec_sch_rr (fun _ => []) (eq 0).
Proof. by apply sound_ret. Qed.
#[export] Hint Resolve parses_sch_rr : tc_s.

Lemma parses_sch : parses tc_dec_sch lay_tc_sch (fun s => wf_sch s /\ rcvd_sch s).
Proof. unfold parses, tc_dec_sch. s_go. Qed.

Lemma parses_cls : parses tc_dec_cls (lay_cls_u lay_filters) (wf_cls_u wf_filters).
Proof. unfold parses, tc_dec_cls, tc_dec_cls_rr, tc_dec_cls_sto. s_go. Qed.

Lemma parses_queue_stats : parses tc_dec_q_fifo lay_queue_stats wf_queue_stats.
Proof. unfold parses, tc_dec_q_fifo, lay_queue_stats, wf_queue_stats, tc_dec_drp, lay_i64. s_go. Qed.
#[export] Hint Resolve parses_sch parses_cls parses_queue_stats : tc_s.

Lemma parses_q : parses tc_dec_q lay_queue (fun q => wf_queue q /\ queue_id q = 0).
Proof.
  unfold parses, tc_dec_q, wf_queue. change tc_dec_q_codel with tc_dec_q_fifo.
  change tc_dec_q_ecn_codel with tc_dec_q_fifo. s_go.
Qed.
#[export] Hint Resolve parses_q : tc_s.

Lemma parses_flow : parses tc_dec_flow lay_flow (fun f => wf_flow f /\ rcvd_flow f).
Proof. unfold parses, tc_dec_flow, lay_flow, wf_flow, rcvd_flow. s_go. Qed.

Lemma parses_ind : parses tc_dec_ind lay_tc_ind (fun m => wf_tc_ind m /\ rcvd_ind m).
Proof.
  unfold parses, tc_dec_ind, lay_tc_ind, wf_tc_ind, rcvd_ind.
  eapply parses_then; [apply parses_sch|intros s [? ?]]. apply parses_inside.
  eapply parses_then; [apply parses_pcr|intros p ?]. apply parses_inside.
  eapply parses_then; [apply parses_cls|intros c ?]. apply parses_inside.
  eapply parses_then; [apply parses_u32|intros n Hn]. apply parses_inside.
  eapply sound_bind; [apply parses_list, parses_flow|]. intros l d (Hl & Hwf & ->).
  assert (Hz : zlen l = n) by (unfold fits in Hn; unfold zlen; lia).
  eapply parses_then; [apply parses_i64|intros t ?]. apply sound_ret. cbn.
  rewrite app_nil_r, Hz. apply Forall_and in Hwf as [? ?]. unfold fits in Hn. split_and!; try done; lia.
Qed.

Lemma parses_add_osi : parses dec_tc_add_ctrl_payload_cls_osi lay_add_osi (fun o => wf_add_osi o /\ ao_l7 o = 0).
Proof.
  unfold parses, dec_tc_add_ctrl_payload_cls_osi, lay_add_osi, lay_i64, lay_i32, wf_add_osi, wf_l3, wf_l4. s_go.
Qed.

Lemma parses_mod_plc : parses dec_tc_mod_ctrl_payload_plc lay_mod_plc wf_mod_plc.
Proof. unfold parses, dec_tc_mod_ctrl_payload_plc, lay_mod_plc, wf_mod_plc. s_go. Qed.

Lemma parses_codel : parses dec_tc_ctrl_payload_q_codel lay_codel wf_codel.
Proof. unfold parses, dec_tc_ctrl_payload_q_codel, lay_codel, wf_codel. s_go. Qed.

Lemma parses_mod_shp : parses dec_tc_mod_ctrl_payload_shp lay_mod_shp wf_mod_shp.
Proof. unfold parses, dec_tc_mod_ctrl_payload_shp, lay_mod_shp, wf_mod_shp. s_go. Qed.

Lemma parses_bdp :
  parses dec_tc_mod_ctrl_payload_pcr_bdp (fun b => le 4 (drb_sz b) ++ lay_i64 (bdp_tstamp b))
    (fun b => fits 4 (drb_sz b) /\ fits_i64 (bdp_tstamp b)).
Proof. unfold parses, dec_tc_mod_ctrl_payload_pcr_bdp, lay_i64. s_go. Qed.

Lemma parses_del_queue : parses dec_tc_del_ctrl_payload_q lay_del_queue wf_del_queue.
Proof. unfold parses, dec_tc_del_ctrl_payload_q, lay_del_queue, wf_del_queue. s_go. Qed.
#[export] Hint Resolve parses_add_osi parses_mod_plc parses_codel parses_mod_shp parses_bdp parses_del_queue : tc_s.

Lemma parses_queue_u :
  parses dec_tc_add_ctrl_payload_q (lay_queue_u (le 4) lay_codel) (wf_queue_u (fits 4) wf_codel).
Proof.
  unfold parses, dec_tc_add_ctrl_payload_q, dec_tc_ctrl_payload_q_fifo.
  change dec_tc_ctrl_payload_q_ecn_codel with dec_tc_ctrl_payload_q_codel. s_go.
Qed.

Lemma parses_mod_queue : parses dec_tc_mod_ctrl_payload_q lay_mod_queue wf_mod_queue.
Proof.
  unfold parses, dec_tc_mod_ctrl_payload_q, dec_tc_ctrl_payload_q_fifo, wf_mod_queue.
  change dec_tc_ctrl_payload_q_ecn_codel with dec_tc_ctrl_payload_q_codel. s_go.
Qed.

Lemma parses_mod_sch : parses dec_tc_mod_ctrl_payload_sch lay_mod_sch wf_sch.
Proof.
  unfold parses, dec_tc_mod_ctrl_payload_sch, dec_tc_mod_ctrl_payload_sch_rr.
  change dec_tc_mod_ctrl_payload_sch_prio with tc_dec_sch_prio. s_go.
Qed.

Lemma parses_mod_pcr : parses dec_tc_mod_ctrl_payload_pcr lay_mod_pcr wf_mod_pcr.
Proof. unfold parses, dec_tc_mod_ctrl_payload_pcr, dec_tc_mod_ctrl_payload_pcr_dummy. s_go; by destruct a as []. Qed.
#[export] Hint Resolve parses_queue_u parses_mod_queue parses_mod_sch parses_mod_pcr : tc_s.

(** As [reads_cls_u] and [reads_act_u]. *)
Lemma parses_cls_u {O} (r : reader O) lay wf :
  parses r lay wf ->
  parses (let! type := r_u32 in
    if type =? TC_CLS_RR then let! rr := r_u32 in r_ret (cls_rr rr)
    else if type =? TC_CLS_OSI then let! osi := r in r_ret (cls_osi osi)
    else if type =? TC_CLS_STO then let! sto := r_u32 in r_ret (cls_sto sto)
    else r_stop) (lay_cls_u lay) (wf_cls_u wf).
Proof. intros Hr. unfold parses. s_go. Qed.

Lemma parses_act_u {A M D} (ra : reader A) (rm : reader M) (rd : reader D) la lm ld wa wm wd :
  parses ra la wa -> parses rm lm wm -> parses rd ld wd ->
  parses (let! act := r_u32 in
    if act =? TC_CTRL_ACTION_SM_V0_ADD then let! a := ra in r_ret (act_add a)
    else if act =? TC_CTRL_ACTION_SM_V0_DEL then let! d := rd in r_ret (act_del d)
    else if act =? TC_CTRL_ACTION_SM_V0_MOD then let! m := rm in r_ret (act_mod m)
    else r_stop) (lay_act_u la lm ld) (wf_act_u wa wm wd).
Proof. intros Ha Hm Hd. unfold parses. s_go. Qed.

Lemma parses_ctrl_cls :
  parses dec_tc_ctrl_payload_cls lay_ctrl_cls (fun c => wf_ctrl_cls c /\ rcvd_ctrl (tc_ctrl_cls c)).
Proof.
  eapply sound_weaken.
  - apply (parses_act_u _ _ _ (lay_cls_u lay_add_osi) (lay_cls_u obj) (lay_cls_u (le 4))
      (wf_cls_u (fun o => wf_add_osi o /\ ao_l7 o = 0)) (wf_cls_u wf_obj) (wf_cls_u (fits 4)));
      apply parses_cls_u; [apply parses_add_osi|apply parses_obj|apply parses_u32].
  - intros c d [Hc ->]. split; [|done]. destruct c as [[]| | |]; simpl in *; by destruct_and?.
Qed.

Lemma parses_ctrl_plc : parses dec_tc_ctrl_payload_plc lay_ctrl_plc wf_ctrl_plc.
Proof. apply parses_act_u; auto with tc_s; apply parses_u32. Qed.
Lemma parses_ctrl_q : parses dec_tc_ctrl_payload_q lay_ctrl_queue wf_ctrl_queue.
Proof. apply parses_act_u; auto with tc_s; apply parses_u32. Qed.
Lemma parses_ctrl_sch : parses dec_tc_ctrl_payload_sch lay_ctrl_sch wf_ctrl_sch.
Proof. apply parses_act_u; auto with tc_s; apply parses_u32. Qed.
Lemma parses_ctrl_shp : parses dec_tc_ctrl_payload_shp lay_ctrl_shp wf_ctrl_shp.
Proof. apply parses_act_u; auto with tc_s; apply parses_u32. Qed.
Lemma parses_ctrl_pcr : parses dec_tc_ctrl_payload_pcr lay_ctrl_pcr wf_ctrl_pcr.
Proof. apply parses_act_u; auto with tc_s; apply parses_u32. Qed.
#[export] Hint Resolve parses_ctrl_cls parses_ctrl_plc parses_ctrl_q parses_ctrl_sch parses_ctrl_shp parses_ctrl_pcr : tc_s.

Lemma parses_ctrl : parses dec_tc_ctrl lay_tc_ctrl (fun m => wf_tc_ctrl m /\ rcvd_ctrl m).
Proof. unfold parses, dec_tc_ctrl. s_go. Qed.

(** ** Bytes *)

Lemma obj_bytes {T} `{CStruct T} (x : T) : Forall byte_ok (obj x).
Proof.
  unfold obj. generalize (cs_words x). induction cs_sizes as [|n ns IH]; intros [|v vs]; simpl; try constructor.
  apply Forall_app. split; [apply le_bytes|apply IH].
Qed.

Lemma array_bytes {A} (lay : A -> bytes) l : (forall a, Forall byte_ok (lay a)) -> Forall byte_ok (lay_array lay l).
Proof. intros Ha. unfold lay_array. induction l; simpl; [constructor|]. by apply Forall_app. Qed.

Ltac bytes_go := repeat first
  [ apply le_bytes | apply obj_bytes | apply Forall_nil_2 | (apply array_bytes; intros) | (apply Forall_app; split)
  | progress autounfold with tc_w | case_match ].

Lemma ind_bytes m : Forall byte_ok (lay_tc_ind m).
Proof. unfold lay_tc_ind, lay_tc_sch, lay_flow. bytes_go. Qed.

Lemma ctrl_bytes m : Forall byte_ok (lay_tc_ctrl m).
Proof. unfold lay_tc_ctrl. bytes_go. Qed.

(** ** Properties *)

Section Properties.
Context (malloc : Z -> bytes).
Hypothesis malloc_len : forall n, 0 <= n -> zlen (malloc n) = n.

(** An indication message of the traffic-control model, with any scheduler,
    classifier and number of queues, is encoded without a write outside of the
    buffer that was sized for it, and passes every check of the cursor.  The
    decoder gives back the message but for the identifiers of the queues and
    the dummy of a round-robin scheduler, which are not sent.  Bytes after it
    are refused; cut short, it is never taken for a message. *)
Theorem tc_ind_msg_roundtrip m post n :
  wf_tc_ind m ->
  exists ba, tc_enc_ind_msg_plain malloc m = Ok ba /\ cal_ind_msg_payload m = Ok (zlen ba) /\
    tc_dec_ind_msg_plain ba = Ok (sent_ind m) /\
    (post <> [] -> tc_dec_ind_msg_plain (ba ++ post) = Fail FExit) /\
    ((n < length ba)%nat -> exists f, tc_dec_ind_msg_plain (take n ba) = Fail f /\ f <> FFuel).
Proof.
  intros Hm. destruct (wf_sent m Hm) as [Hw Hr]. exists (lay_tc_ind m). unfold tc_dec_ind_msg_plain. split_and!.
  - by apply tc_enc_ind_msg_ok.
  - by apply cal_ind_ok.
  - rewrite <- lay_sent. by apply run_reader_ok, reads_ind.
  - intros Hp. rewrite <- lay_sent. apply (run_reader_long _ _ _ (sent_ind m)); [by apply reads_ind|done].
  - intros Hn. rewrite <- lay_sent in *.
    by apply (run_reader_cut _ _ (fun m => wf_tc_ind m /\ rcvd_ind m));
      [apply ind_bytes|apply parses_ind|intros ? []; apply reads_ind|..].
Qed.

(** C25. A control message of the traffic-control model is encoded without a write
    outside of its buffer and decodes to itself, except for one kind: the
    encoder stops the process on every message that adds an OSI classifier,
    because four more bytes are reserved than are written.  The decoder would
    take such a message. *)
Theorem tc_ctrl_msg_roundtrip m post n :
  wf_tc_ctrl m ->
  if adds_osi m then
    tc_enc_ctrl_msg_plain malloc m = Fail FExit /\
    (rcvd_ctrl m -> tc_dec_ctrl_msg_plain (lay_tc_ctrl m) = Ok m)
  else
    exists ba, tc_enc_ctrl_msg_plain malloc m = Ok ba /\ cal_tc_ctrl_payload m = Ok (zlen ba) /\
      tc_dec_ctrl_msg_plain ba = Ok m /\
      (post <> [] -> tc_dec_ctrl_msg_plain (ba ++ post) = Fail FExit) /\
      ((n < length ba)%nat -> exists f, tc_dec_ctrl_msg_plain (take n ba) = Fail f /\ f <> FFuel).
Proof.
  intros Hm. pose proof (tc_enc_ctrl_msg_ok malloc malloc_len m Hm) as Henc. pose proof (cal_ctrl_ok m Hm) as Hcal.
  assert (Hpos : 0 < zlen (lay_tc_ctrl m)).
  { unfold lay_tc_ctrl. rewrite zlen_app, zlen_le.
    match goal with |- 0 < _ + zlen ?d => pose proof (zlen_nonneg d) end. lia. }
  unfold tc_dec_ctrl_msg_plain. destruct (adds_osi m) eqn:Ha.
  - split; [done|]. intros Hr. rewrite (proj2 (Z.ltb_lt _ _)) by done. cbn [assert_ rbind].
    by apply run_reader_ok, reads_ctrl.
  - assert (Hr : rcvd_ctrl m) by by destruct m as [[[]|[]|[]|]|[]|[[]|[i []]|[]|]|[|[]| |]|[]|[|[]| |]|].
    exists (lay_tc_ctrl m). rewrite Z.add_0_r in Hcal. split_and!; [done|done|..].
    + rewrite (proj2 (Z.ltb_lt _ _)) by done. cbn [assert_ rbind]. by apply run_reader_ok, reads_ctrl.
    + intros Hp. pose proof (zlen_nonneg post). rewrite (proj2 (Z.ltb_lt _ _)) by (rewrite zlen_app; lia).
      cbn [assert_ rbind]. apply (run_reader_long _ _ _ m); [by apply reads_ctrl|done].
    + intros Hn. unfold assert_. case_bool_; cbn [rbind]; [|by exists FExit].
      by apply (run_reader_cut _ _ (fun m => wf_tc_ctrl m /\ rcvd_ctrl m));
        [apply ctrl_bytes|apply parses_ctrl|intros ? []; apply reads_ctrl|..].
Qed.

(** What the two decoders accept, of all sequences of bytes: an indication is
    decoded to [m] exactly when [m] is encoded to these bytes (and is a value
    that a decoder can give).  The same holds of a control message, but for
    those that add an OSI classifier. *)
Theorem tc_decoders_exact buf m c :
  Forall byte_ok buf ->
  (tc_dec_ind_msg_plain buf = Ok m <->
     wf_tc_ind m /\ rcvd_ind m /\ tc_enc_ind_msg_plain malloc m = Ok buf) /\
  (adds_osi c = false ->
     tc_dec_ctrl_msg_plain buf = Ok c <-> wf_tc_ctrl c /\ tc_enc_ctrl_msg_plain malloc c = Ok buf) /\
  tc_dec_ind_msg_plain buf <> Fail FFuel /\ tc_dec_ctrl_msg_plain buf <> Fail FFuel.
Proof.
  intros Hbuf. pose proof (run_reader_exact tc_dec_ind lay_tc_ind _ buf m Hbuf parses_ind
    (fun m H => reads_ind m (proj1 H) (proj2 H))) as Hi.
  pose proof (run_reader_exact dec_tc_ctrl lay_tc_ctrl _ buf c Hbuf parses_ctrl
    (fun m H => reads_ctrl m (proj1 H) (proj2 H))) as Hc.
  assert (Hfuel : forall A (r : reader A) lay wf, parses r lay wf -> run_reader r buf <> Fail FFuel).
  { intros A r lay wf Hp. unfold run_reader. pose proof (zlen_nonneg buf).
    specialize (Hp buf 0 Hbuf ltac:(lia)). destruct (r buf 0) as [[a n]|f]; cbn [rbind]; [|congruence].
    unfold assert_. by destruct (n =? zlen buf). }
  unfold tc_dec_ind_msg_plain, tc_dec_ctrl_msg_plain. split_and!.
  - rewrite Hi. split.
    + intros [[Hw Hr] <-]. split_and!; [done..|]. by apply tc_enc_ind_msg_ok.
    + intros (Hw & Hr & He). rewrite tc_enc_ind_msg_ok in He by done. by injection He as <-.
  - intros Ha. assert (Hr : rcvd_ctrl c) by by destruct c as [[[]|[]|[]|]|[]|[[]|[i []]|[]|]|[|[]| |]|[]|[|[]| |]|].
    assert (Hshort : (let* _ := assert_ (0 <? zlen buf) in run_reader dec_tc_ctrl buf) = Ok c <->
      run_reader dec_tc_ctrl buf = Ok c).
    { unfold assert_. destruct (Z.ltb_spec 0 (zlen buf)); cbn [rbind]; [done|]. split; [done|].
      rewrite Hc. intros [_ <-]. unfold lay_tc_ctrl in *. rewrite zlen_app, zlen_le in *.
      match goal with H : _ + zlen ?d <= 0 |- _ => pose proof (zlen_nonneg d) end. lia. }
    rewrite Hshort, Hc. split.
    + intros [[Hw _] <-]. split; [done|]. rewrite tc_enc_ctrl_msg_ok by done. by rewrite Ha.
    + intros (Hw & He). rewrite tc_enc_ctrl_msg_ok, Ha in He by done. by injection He as <-.
  - eapply Hfuel, parses_ind.
  - unfold assert_. destruct (0 <? zlen buf); cbn [rbind]; [|done]. eapply Hfuel, parses_ctrl.
Qed.
End Properties.

(** ** Examples *)

Definition example_add_osi : tc_ctrl_msg_t :=
  tc_ctrl_cls (act_add (cls_osi (mk_add_osi (mk_l3 (-1) 2) (mk_l4 80 (-2) 17) 0 1))).
Definition example_mod_queue : tc_ctrl_msg_t :=
  tc_ctrl_q (act_mod (mk_mod_queue 3 (queue_ecn (mk_codel 5 100)))).

Definition tc_malloc (n : Z) : bytes := repeat 0 (Z.to_nat n).

Lemma tc_malloc_len n : 0 <= n -> zlen (tc_malloc n) = n.
Proof. intros Hn. unfold zlen, tc_malloc. rewrite repeat_length. lia. Qed.

Lemma tc_ctrl_msg_roundtrip_witness :
  tc_enc_ctrl_msg_plain tc_malloc example_add_osi = Fail FExit /\
  tc_dec_ctrl_msg_plain (lay_tc_ctrl example_add_osi) = Ok example_add_osi /\
  (let* ba := tc_enc_ctrl_msg_plain tc_malloc example_mod_queue in tc_dec_ctrl_msg_plain ba) = Ok example_mod_queue.
Proof.
  destruct (tc_ctrl_msg_roundtrip tc_malloc tc_malloc_len example_add_osi [] 0) as [He Hd]; [by repeat split|].
  split; [exact He|]. split; [by apply Hd|].
  destruct (tc_ctrl_msg_roundtrip tc_malloc tc_malloc_len example_mod_queue [] 0) as (ba & Hba & _ & Hdec & _);
    [by repeat split|].
  rewrite Hba. exact Hdec.
Defined.
