(* ===== verification/TcIe.v ===== *)
(** Copy and comparison of the information elements of the traffic-control
    service model (flexric/src/sm/tc_sm/ie/tc_data_ie.c).

    The padding of a struct that is copied member by member is whatever the
    compiler leaves there: a section variable.  A comparison that fails stops
    the process where the code asserts, so both operations return [res]. *)

From Stdlib Require Import SpecFloat.
From S2P Require Import Prelude SmCodec SmStruct SmMonad SliceIe EqFloat TcData TcEnc TcDec.

(** 0.01 and 0.001 as [double]. *)
Definition eps_1em2 : spec_float := b64 0x3f847ae147ae147b.
Definition eps_1em3 : spec_float := b64 0x3f50624dd2f1a9fc.

Lemma eps_1em2_num : isnan eps_1em2 = false.
Proof. by vm_compute. Qed.
Lemma eps_1em3_num : isnan eps_1em3 = false.
Proof. by vm_compute. Qed.

(** ** Comparison of the indication message *)

Definition eq_tc_ind_hdr (m0 m1 : Z) : res bool := Fail FExit.

Definition eq_tc_sch_rr (m0 m1 : Z) : bool := true.

Definition eq_tc_sch_prio (m0 m1 : list Z) : res bool :=
  if negb (zlen m0 =? zlen m1) then Ok false else all_eq eq_u32 m0 m1.

Definition eq_tc_sch (m0 m1 : tc_sch_t) : res bool :=
  if negb (sch_type m0 =? sch_type m1) then Ok false
  else match m0, m1 with
       | sch_rr r0, sch_rr r1 => Ok (eq_tc_sch_rr r0 r1)
       | sch_prio p0, sch_prio p1 => eq_tc_sch_prio p0 p1
       | _, _ => Fail FExit
       end.

Definition eq_tc_mtr (m0 m1 : tc_mtr_t) : res bool :=
  if negb (time_window_ms m0 =? time_window_ms m1) then Ok false
  else eq_float (bnd_flt m0) (bnd_flt m1) eps_1em2.

Definition eq_tc_pcr (m0 m1 : tc_pcr_t) : res bool :=
  if negb (pcr_type m0 =? pcr_type m1) then Ok false
  else if negb (pcr_id m0 =? pcr_id m1) then Ok false
  else eq_tc_mtr (pcr_mtr m0) (pcr_mtr m1).

Definition eq_L3_filter (m0 m1 : L3_filter_t) : bool :=
  (src_addr m0 =? src_addr m1) && (dst_addr m0 =? dst_addr m1).

Definition eq_L4_filter (m0 m1 : L4_filter_t) : bool :=
  (src_port m0 =? src_port m1) && (dst_port m0 =? dst_port m1) && (protocol m0 =? protocol m1).

Definition eq_L7_filter (m0 m1 : Z) : res bool := Fail FExit.

(** Layer 7 is not looked at. *)
Definition eq_tc_cls_osi_filter (m0 m1 : tc_cls_osi_filter_t) : bool :=
  (flt_id m0 =? flt_id m1) && eq_L3_filter (flt_l3 m0) (flt_l3 m1) && eq_L4_filter (flt_l4 m0) (flt_l4 m1)
  && (flt_dst_queue m0 =? flt_dst_queue m1).

Definition eq_tc_cls_osi (m0 m1 : list tc_cls_osi_filter_t) : res bool :=
  if negb (zlen m0 =? zlen m1) then Ok false
  else all_eq (fun f g => Ok (eq_tc_cls_osi_filter f g)) m0 m1.

Definition eq_tc_cls (m0 m1 : tc_cls_t) : res bool :=
  if negb (cls_type m0 =? cls_type m1) then Ok false
  else match m0, m1 with
       | cls_rr d0, cls_rr d1 => Ok (d0 =? d1)
       | cls_osi o0, cls_osi o1 => eq_tc_cls_osi o0 o1
       | cls_sto d0, cls_sto d1 => Ok (d0 =? d1)
       | _, _ => Fail FExit
       end.

(** [max_rate_kbps] is not looked at. *)
Definition eq_tc_shp (m0 m1 : tc_shp_t) : res bool :=
  if negb (shp_id m0 =? shp_id m1) then Ok false
  else if negb (shp_active m0 =? shp_active m1) then Ok false
  else eq_tc_mtr (shp_mtr m0) (shp_mtr m1).

Definition eq_tc_drp (m0 m1 : Z) : bool := m0 =? m1.
Definition eq_tc_mrk (m0 m1 : Z) : bool := m0 =? m1.

Definition eq_tc_plc (m0 m1 : tc_plc_t) : res bool :=
  if negb (plc_id m0 =? plc_id m1) then Ok false
  else
    let* b := eq_tc_mtr (plc_mtr m0) (plc_mtr m1) in
    if negb b then Ok false
    else if negb (eq_tc_drp (plc_drp m0) (plc_drp m1)) then Ok false
    else if negb (eq_tc_mrk (plc_mrk m0) (plc_mrk m1)) then Ok false
    else
      let* b := eq_float (plc_max_rate_kbps m0) (plc_max_rate_kbps m1) eps_1em2 in
      if negb b then Ok false
      else Ok ((plc_active m0 =? plc_active m1) && (plc_dst_id m0 =? plc_dst_id m1) && (plc_dev_id m0 =? plc_dev_id m1)).

Definition eq_tc_queue_fifo (m0 m1 : tc_queue_stats_t) : res bool :=
  if negb (eq_tc_drp (qs_drp_mrk m0) (qs_drp_mrk m1)) then Ok false
  else
    let* b := eq_float (qs_avg_sojourn_time m0) (qs_avg_sojourn_time m1) eps_1em3 in
    if negb b then Ok false
    else Ok ((qs_bytes m0 =? qs_bytes m1) && (qs_pkts m0 =? qs_pkts m1)
             && (qs_bytes_fwd m0 =? qs_bytes_fwd m1) && (qs_pkts_fwd m0 =? qs_pkts_fwd m1)).

Definition eq_tc_queue_codel (m0 m1 : tc_queue_stats_t) : res bool :=
  if negb (eq_tc_drp (qs_drp_mrk m0) (qs_drp_mrk m1)) then Ok false
  else
    let* b := eq_float (qs_avg_sojourn_time m0) (qs_avg_sojourn_time m1) eps_1em3 in
    if negb b then Ok false
    else Ok ((qs_bytes m0 =? qs_bytes m1) && (qs_pkts m0 =? qs_pkts m1)
             && (qs_bytes_fwd m0 =? qs_bytes_fwd m1) && (qs_pkts_fwd m0 =? qs_pkts_fwd m1)).

Definition eq_tc_queue_ecn_codel (m0 m1 : tc_queue_stats_t) : res bool :=
  if negb (eq_tc_mrk (qs_drp_mrk m0) (qs_drp_mrk m1)) then Ok false
  else
    let* b := eq_float (qs_avg_sojourn_time m0) (qs_avg_sojourn_time m1) eps_1em3 in
    if negb b then Ok false
    else Ok ((qs_bytes m0 =? qs_bytes m1) && (qs_pkts m0 =? qs_pkts m1)
             && (qs_bytes_fwd m0 =? qs_bytes_fwd m1) && (qs_pkts_fwd m0 =? qs_pkts_fwd m1)).

(** The identifiers are not looked at. *)
Definition eq_tc_q (m0 m1 : tc_queue_t) : res bool :=
  if negb (queue_type (queue_stats m0) =? queue_type (queue_stats m1)) then Ok false
  else match queue_stats m0, queue_stats m1 with
       | queue_fifo s0, queue_fifo s1 => eq_tc_queue_fifo s0 s1
       | queue_codel s0, queue_codel s1 => eq_tc_queue_codel s0 s1
       | queue_ecn s0, queue_ecn s1 => eq_tc_queue_ecn_codel s0 s1
       | _, _ => Fail FExit
       end.

(** The body of the loop of [eq_tc_ind_msg]: [assert(0!=0)] comes before each
    [return false]. *)
Definition eq_tc_flow (m0 m1 : tc_flow_t) : res bool :=
  let* b := eq_tc_shp (fl_shp m0) (fl_shp m1) in
  let* _ := assert_ b in
  let* b := eq_tc_plc (fl_plc m0) (fl_plc m1) in
  let* _ := assert_ b in
  let* b := eq_tc_q (fl_q m0) (fl_q m1) in
  let* _ := assert_ b in
  Ok true.

Definition eq_tc_ind_msg (m0 m1 : tc_ind_msg_t) : res bool :=
  let* _ := assert_ (tc_tstamp m0 =? tc_tstamp m1) in
  let* b := eq_tc_sch (tc_sch m0) (tc_sch m1) in
  let* _ := assert_ b in
  let* b := eq_tc_pcr (tc_pcr m0) (tc_pcr m1) in
  let* _ := assert_ b in
  let* b := eq_tc_cls (tc_cls m0) (tc_cls m1) in
  let* _ := assert_ b in
  let* _ := assert_ (zlen (tc_flows m0) =? zlen (tc_flows m1)) in
  all_eq eq_tc_flow (tc_flows m0) (tc_flows m1).

(** ** Copy of the indication message *)

Definition cp_tc_ind_hdr (src : Z) : Z := src.

Section Copy.
Context (pad : tc_cls_osi_filter_t -> Z * Z).

Definition cp_tc_sch_rr (src : Z) : Z := src.
Definition cp_tc_sch_prio (src : list Z) : list Z := src.

Definition cp_tc_sch (src : tc_sch_t) : res tc_sch_t :=
  match src with
  | sch_rr r => Ok (sch_rr (cp_tc_sch_rr r))
  | sch_prio p => Ok (sch_prio (cp_tc_sch_prio p))
  | sch_other _ => Fail FExit
  end.

Definition cp_tc_mtr (src : tc_mtr_t) : tc_mtr_t := mk_mtr (time_window_ms src) (bnd_flt src).
Definition cp_tc_pcr (src : tc_pcr_t) : tc_pcr_t := mk_pcr (pcr_type src) (pcr_id src) (cp_tc_mtr (pcr_mtr src)).

Definition cp_L3_filter (src : L3_filter_t) : L3_filter_t := mk_l3 (src_addr src) (dst_addr src).
Definition cp_L4_filter (src : L4_filter_t) : L4_filter_t := mk_l4 (src_port src) (dst_port src) (protocol src).
Definition cp_L7_filter (src : Z) : res Z := Fail FExit.

(** Layer 7 is left at 0. *)
Definition cp_tc_cls_osi_filter (src : tc_cls_osi_filter_t) : tc_cls_osi_filter_t :=
  mk_filter (flt_id src) (pad src).1 (cp_L3_filter (flt_l3 src)) (cp_L4_filter (flt_l4 src)) 0
    (flt_dst_queue src) (pad src).2.

Definition cp_tc_cls_osi (src : list tc_cls_osi_filter_t) : list tc_cls_osi_filter_t := map cp_tc_cls_osi_filter src.

Definition cp_tc_cls (src : tc_cls_t) : res tc_cls_t :=
  match src with
  | cls_rr d => Ok (cls_rr d)
  | cls_osi o => Ok (cls_osi (cp_tc_cls_osi o))
  | cls_sto d => Ok (cls_sto d)
  | cls_other _ => Fail FExit
  end.

Definition cp_tc_drp (src : Z) : Z := src.
Definition cp_tc_mrk (src : Z) : Z := src.

(** Neither the identifier nor [last_sojourn_time] is copied. *)
Definition cp_tc_queue (src : tc_queue_t) : res tc_queue_t :=
  match queue_stats src with
  | queue_fifo s => Ok (mk_queue 0 (queue_fifo (mk_queue_stats (qs_bytes s) (qs_pkts s) (qs_bytes_fwd s) (qs_pkts_fwd s)
      (cp_tc_drp (qs_drp_mrk s)) (qs_avg_sojourn_time s) 0)))
  | queue_codel s => Ok (mk_queue 0 (queue_codel (mk_queue_stats (qs_bytes s) (qs_pkts s) (qs_bytes_fwd s) (qs_pkts_fwd s)
      (cp_tc_drp (qs_drp_mrk s)) (qs_avg_sojourn_time s) 0)))
  | queue_ecn s => Ok (mk_queue 0 (queue_ecn (mk_queue_stats (qs_bytes s) (qs_pkts s) (qs_bytes_fwd s) (qs_pkts_fwd s)
      (cp_tc_mrk (qs_drp_mrk s)) (qs_avg_sojourn_time s) 0)))
  | queue_other _ => Fail FExit
  end.

(** [max_rate_kbps] is not copied. *)
Definition cp_tc_shp (src : tc_shp_t) : res tc_shp_t :=
  let* _ := assert_ ((shp_active src =? 0) || (shp_active src =? 1)) in
  Ok (mk_shp (shp_id src) (shp_active src) 0 (cp_tc_mtr (shp_mtr src))).

Definition cp_tc_plc (src : tc_plc_t) : res tc_plc_t :=
  let* _ := assert_ ((plc_active src =? 0) || (plc_active src =? 1)) in
  Ok (mk_plc (plc_id src) (cp_tc_mtr (plc_mtr src)) (cp_tc_drp (plc_drp src)) (cp_tc_mrk (plc_mrk src))
       (plc_max_rate_kbps src) (plc_active src) (plc_dst_id src) (plc_dev_id src)).

(** The body of the loop of [cp_tc_shp_q_plc]. *)
Definition cp_tc_flow (src : tc_flow_t) : res tc_flow_t :=
  let* q := cp_tc_queue (fl_q src) in
  let* shp := cp_tc_shp (fl_shp src) in
  let* plc := cp_tc_plc (fl_plc src) in
  Ok (mk_flow shp plc q).

Definition cp_tc_shp_q_plc (src : list tc_flow_t) : res (list tc_flow_t) := cp_array cp_tc_flow src.

Definition cp_tc_ind_msg (src : tc_ind_msg_t) : res tc_ind_msg_t :=
  let* sch := cp_tc_sch (tc_sch src) in
  let pcr := cp_tc_pcr (tc_pcr src) in
  let* cls := cp_tc_cls (tc_cls src) in
  let* flows := cp_tc_shp_q_plc (tc_flows src) in
  let dst := mk_tc_ind sch pcr cls flows (tc_tstamp src) in
  let* b := eq_tc_ind_msg src dst in
  let* _ := assert_ b in
  Ok dst.

(** ** Control messages *)

Definition cp_tc_call_proc_id (src : Z) : res Z := Fail FExit.
Definition cp_tc_ctrl_hdr (src : Z) : Z := src.
Definition eq_tc_ctrl_hdr (m0 m1 : Z) : bool := m0 =? m1.

Definition cp_tc_add_cls_osi (src : tc_add_cls_osi_t) : tc_add_cls_osi_t :=
  mk_add_osi (cp_L3_filter (ao_l3 src)) (cp_L4_filter (ao_l4 src)) 0 (ao_dst_queue src).

Definition cp_tc_add_ctrl_cls (src : tc_add_ctrl_cls_t) : res tc_add_ctrl_cls_t :=
  match src with
  | cls_rr d => Ok (cls_rr d)
  | cls_osi o => Ok (cls_osi (cp_tc_add_cls_osi o))
  | cls_sto d => Ok (cls_sto d)
  | cls_other _ => Fail FExit
  end.

Definition cp_tc_mod_ctrl_cls (src : tc_mod_ctrl_cls_t) : res tc_mod_ctrl_cls_t :=
  match src with
  | cls_rr d => Ok (cls_rr d)
  | cls_osi f => Ok (cls_osi (cp_tc_cls_osi_filter f))
  | cls_sto d => Ok (cls_sto d)
  | cls_other _ => Fail FExit
  end.

Definition cp_tc_del_ctrl_cls (src : tc_del_ctrl_cls_t) : res tc_del_ctrl_cls_t :=
  match src with
  | cls_rr d => Ok (cls_rr d)
  | cls_osi i => Ok (cls_osi i)
  | cls_sto d => Ok (cls_sto d)
  | cls_other _ => Fail FExit
  end.

Definition cp_tc_ctrl_cls (src : tc_ctrl_cls_t) : res tc_ctrl_cls_t :=
  match src with
  | act_add a => let* a := cp_tc_add_ctrl_cls a in Ok (act_add a)
  | act_del d => let* d := cp_tc_del_ctrl_cls d in Ok (act_del d)
  | act_mod m => let* m := cp_tc_mod_ctrl_cls m in Ok (act_mod m)
  | act_other _ => Fail FExit
  end.

Definition cp_tc_mod_ctrl_plc (src : tc_mod_ctrl_plc_t) : tc_mod_ctrl_plc_t :=
  mk_mod_plc (mp_id src) (mp_drop_rate_kbps src) (mp_dev_id src) (mp_dev_rate_kbps src) (mp_active src).

Definition cp_tc_ctrl_plc (src : tc_ctrl_plc_t) : res tc_ctrl_plc_t :=
  match src with
  | act_add d => Ok (act_add d)
  | act_del i => Ok (act_del i)
  | act_mod m => Ok (act_mod (cp_tc_mod_ctrl_plc m))
  | act_other _ => Fail FExit
  end.

Definition cp_tc_ctrl_q_fifo (src : Z) : Z := src.
Definition cp_tc_ctrl_q_codel (src : tc_ctrl_queue_codel_t) : tc_ctrl_queue_codel_t := mk_codel (target_ms src) (interval_ms src).
Definition cp_tc_ctrl_q_ecn_codel (src : tc_ctrl_queue_codel_t) : tc_ctrl_queue_codel_t := mk_codel (target_ms src) (interval_ms src).

Definition cp_tc_add_ctrl_queue (src : tc_add_ctrl_queue_t) : res tc_add_ctrl_queue_t :=
  match src with
  | queue_fifo f => Ok (queue_fifo (cp_tc_ctrl_q_fifo f))
  | queue_codel c => Ok (queue_codel (cp_tc_ctrl_q_codel c))
  | queue_ecn e => Ok (queue_ecn (cp_tc_ctrl_q_ecn_codel e))
  | queue_other _ => Fail FExit
  end.

Definition cp_tc_del_ctrl_queue (src : tc_del_ctrl_queue_t) : tc_del_ctrl_queue_t := mk_del_queue (dq_id src) (dq_type src).

Definition cp_tc_mod_ctrl_queue (src : tc_mod_ctrl_queue_t) : res tc_mod_ctrl_queue_t :=
  match mq_queue src with
  | queue_fifo f => Ok (mk_mod_queue (mq_id src) (queue_fifo (cp_tc_ctrl_q_fifo f)))
  | queue_codel c => Ok (mk_mod_queue (mq_id src) (queue_codel (cp_tc_ctrl_q_codel c)))
  | queue_ecn e => Ok (mk_mod_queue (mq_id src) (queue_ecn (cp_tc_ctrl_q_ecn_codel e)))
  | queue_other _ => Fail FExit
  end.

Definition cp_tc_ctrl_q (src : tc_ctrl_queue_t) : res tc_ctrl_queue_t :=
  match src with
  | act_add a => let* a := cp_tc_add_ctrl_queue a in Ok (act_add a)
  | act_del d => Ok (act_del (cp_tc_del_ctrl_queue d))
  | act_mod m => let* m := cp_tc_mod_ctrl_queue m in Ok (act_mod m)
  | act_other _ => Fail FExit
  end.

Definition cp_tc_mod_ctrl_sch (src : tc_sch_t) : res tc_sch_t :=
  match src with
  | sch_rr d => Ok (sch_rr d)
  | sch_prio p => Ok (sch_prio (cp_tc_sch_prio p))
  | sch_other _ => Fail FExit
  end.

Definition cp_tc_ctrl_sch (src : tc_ctrl_sch_t) : res tc_ctrl_sch_t :=
  match src with
  | act_add d => Ok (act_add d)
  | act_del d => Ok (act_del d)
  | act_mod m => let* m := cp_tc_mod_ctrl_sch m in Ok (act_mod m)
  | act_other _ => Fail FExit
  end.

Definition cp_tc_mod_ctrl_shp (src : tc_mod_ctrl_shp_t) : tc_mod_ctrl_shp_t :=
  mk_mod_shp (ms_id src) (ms_time_window_ms src) (ms_max_rate_kbps src) (ms_active src).

Definition cp_tc_ctrl_shp (src : tc_ctrl_shp_t) : res tc_ctrl_shp_t :=
  match src with
  | act_add d => Ok (act_add d)
  | act_del i => Ok (act_del i)
  | act_mod m => Ok (act_mod (cp_tc_mod_ctrl_shp m))
  | act_other _ => Fail FExit
  end.

Definition cp_tc_pcr_5g_bdp (src : tc_pcr_5g_bdp_t) : tc_pcr_5g_bdp_t := mk_bdp (drb_sz src) (bdp_tstamp src).

Definition cp_tc_mod_ctrl_pcr (src : tc_mod_ctrl_pcr_t) : res tc_mod_ctrl_pcr_t :=
  match src with
  | pcr_dummy d => Ok (pcr_dummy d)
  | pcr_bdp b => Ok (pcr_bdp (cp_tc_pcr_5g_bdp b))
  | pcr_other _ => Fail FExit
  end.

Definition cp_tc_ctrl_pcr (src : tc_ctrl_pcr_t) : res tc_ctrl_pcr_t :=
  match src with
  | act_add d => Ok (act_add d)
  | act_del d => Ok (act_del d)
  | act_mod m => let* m := cp_tc_mod_ctrl_pcr m in Ok (act_mod m)
  | act_other _ => Fail FExit
  end.

Definition cp_tc_ctrl_msg (src : tc_ctrl_msg_t) : res tc_ctrl_msg_t :=
  match src with
  | tc_ctrl_cls c => let* c := cp_tc_ctrl_cls c in Ok (tc_ctrl_cls c)
  | tc_ctrl_plc p => let* p := cp_tc_ctrl_plc p in Ok (tc_ctrl_plc p)
  | tc_ctrl_q q => let* q := cp_tc_ctrl_q q in Ok (tc_ctrl_q q)
  | tc_ctrl_sch s => let* s := cp_tc_ctrl_sch s in Ok (tc_ctrl_sch s)
  | tc_ctrl_shp s => let* s := cp_tc_ctrl_shp s in Ok (tc_ctrl_shp s)
  | tc_ctrl_pcr p => let* p := cp_tc_ctrl_pcr p in Ok (tc_ctrl_pcr p)
  | tc_ctrl_other _ => Fail FExit
  end.

Definition eq_tc_ctrl_msg (m0 m1 : tc_ctrl_msg_t) : res bool := Fail FExit.

Definition cp_tc_ctrl_out (src : Z) : Z := src.
Definition eq_tc_ctrl_out (m0 m1 : Z) : bool := m0 =? m1.

Record tc_ind_data_t := mk_tc_ind_data { tid_hdr : Z; tid_msg : tc_ind_msg_t; tid_proc_id : option Z }.

Definition cp_tc_ind_data (src : tc_ind_data_t) : res tc_ind_data_t :=
  let hdr := cp_tc_ind_hdr (tid_hdr src) in
  let* msg := cp_tc_ind_msg (tid_msg src) in
  match tid_proc_id src with
  | Some p => let* q := cp_tc_call_proc_id p in Ok (mk_tc_ind_data hdr msg (Some q))
  | None => Ok (mk_tc_ind_data hdr msg None)
  end.

(** A RAN function definition: the address of its bytes and the bytes. *)
Record tc_func_def_t := mk_tc_func_def { fd_ptr : Z; fd_buf : bytes }.

(** [calloc] gives the address of the copy; an empty one is NULL. *)
Definition cp_tc_func_def (calloc_ : Z) (src : tc_func_def_t) : tc_func_def_t :=
  mk_tc_func_def (if 0 <? zlen (fd_buf src) then calloc_ else 0) (fd_buf src).

(** [same] is [m0 == m1]; [memcmp] is on the structs, the address and the
    length, for as many bytes as the definition has. *)
Definition eq_tc_func_def (same : bool) (m0 m1 : tc_func_def_t) : res bool :=
  if same then Ok true
  else if negb (zlen (fd_buf m0) =? zlen (fd_buf m1)) then Ok false
  else
    let s (m : tc_func_def_t) := le 8 (fd_ptr m) ++ le 8 (zlen (fd_buf m)) in
    let* a := buf_read (s m0) 0 (zlen (fd_buf m0)) in
    let* b := buf_read (s m1) 0 (zlen (fd_buf m0)) in
    Ok (bool_decide (a = b)).
End Copy.

(** ** What a comparison sees

    Not the dummy of a round-robin scheduler, layer 7, the rate of a shaper,
    the identifier and the last sojourn time of a queue.  Floats are compared
    up to an error, which is no equivalence: they are left out as well. *)

Definition seen_sch (s : tc_sch_t) : tc_sch_t := match s with sch_rr _ => sch_rr 0 | s => s end.
Definition seen_mtr (m : tc_mtr_t) : Z := time_window_ms m.
Definition seen_filter (f : tc_cls_osi_filter_t) : tc_cls_osi_filter_t :=
  mk_filter (flt_id f) 0 (flt_l3 f) (flt_l4 f) 0 (flt_dst_queue f) 0.
Definition seen_cls (c : tc_cls_t) : tc_cls_t := match c with cls_osi l => cls_osi (map seen_filter l) | c => c end.
Definition seen_stats (s : tc_queue_stats_t) : tc_queue_stats_t :=
  mk_queue_stats (qs_bytes s) (qs_pkts s) (qs_bytes_fwd s) (qs_pkts_fwd s) (qs_drp_mrk s) 0 0.
Definition seen_queue (q : tc_queue_t) : tc_queue_t :=
  mk_queue 0 match queue_stats q with
             | queue_fifo s => queue_fifo (seen_stats s)
             | queue_codel s => queue_codel (seen_stats s)
             | queue_ecn s => queue_ecn (seen_stats s)
             | queue_other t => queue_other t
             end.
Definition seen_flow (f : tc_flow_t) : tc_flow_t :=
  mk_flow (mk_shp (shp_id (fl_shp f)) (shp_active (fl_shp f)) 0 (mk_mtr (seen_mtr (shp_mtr (fl_shp f))) 0))
    (mk_plc (plc_id (fl_plc f)) (mk_mtr (seen_mtr (plc_mtr (fl_plc f))) 0) (plc_drp (fl_plc f)) (plc_mrk (fl_plc f)) 0
       (plc_active (fl_plc f)) (plc_dst_id (fl_plc f)) (plc_dev_id (fl_plc f)))
    (seen_queue (fl_q f)).
Definition seen_ind (m : tc_ind_msg_t) : tc_ind_msg_t :=
  mk_tc_ind (seen_sch (tc_sch m)) (mk_pcr (pcr_type (tc_pcr m)) (pcr_id (tc_pcr m)) (mk_mtr (seen_mtr (pcr_mtr (tc_pcr m))) 0))
    (seen_cls (tc_cls m)) (map seen_flow (tc_flows m)) (tc_tstamp m).

(** From the chain of comparisons of a function that returned [true] to the
    equalities. *)
Lemma if_negb_true {A} (b : bool) (x y : A) r : (if negb b then x else y) = r -> x <> r -> b = true /\ y = r.
Proof. by destruct b; simpl. Qed.

Ltac eq_chain :=
  repeat match goal with
  | H : (if negb ?b then Ok false else _) = Ok true |- _ =>
      let E := fresh in apply if_negb_true in H as [E H]; [|done]
  | H : rbind ?r _ = Ok true |- _ =>
      let b := fresh "b" in let E := fresh in destruct r as [b|] eqn:E; [cbn [rbind] in H|done]
  | H : assert_ ?b = Ok _ |- _ => destruct b eqn:?; [clear H|done]
  | H : Ok ?b = Ok true |- _ => injection H as H
  | H : (_ && _) = true |- _ => apply andb_true_iff in H; destruct H
  | H : (_ =? _) = true |- _ => apply Z.eqb_eq in H
  | H : true = true |- _ => clear H
  end.

Lemma all_eq_true {A} (f : A -> A -> res bool) l k :
  all_eq f l k = Ok true -> zlen l = zlen k -> Forall2 (fun x y => f x y = Ok true) l k.
Proof.
  revert k. induction l as [|x l IH]; intros [|y k]; simpl; intros H Hl; [constructor|done..|].
  destruct (f x y) as [[]|] eqn:Hf; cbn [rbind] in H; try done. rewrite !zlen_cons in Hl.
  constructor; [done|]. apply IH; [done|lia].
Qed.

Lemma all_eq_seen {A B} (f : A -> A -> res bool) (c : A -> B) l k :
  (forall x y, f x y = Ok true -> c x = c y) -> all_eq f l k = Ok true -> zlen l = zlen k -> map c l = map c k.
Proof.
  intros Hf Hl Hn. pose proof (all_eq_true f l k Hl Hn) as H2. clear Hl Hn.
  induction H2 as [|x y l k Hx _ IH]; simpl; [done|]. by rewrite (Hf x y Hx), IH.
Qed.

Lemma eq_sch_true a b : eq_tc_sch a b = Ok true -> seen_sch a = seen_sch b.
Proof.
  unfold eq_tc_sch, eq_tc_sch_prio. intros H. eq_chain. destruct a, b; try done; simpl. eq_chain. f_equal.
  apply all_eq_u32; [|done]. unfold zlen in *. lia.
Qed.

Lemma eq_mtr_true a b : eq_tc_mtr a b = Ok true -> seen_mtr a = seen_mtr b.
Proof. unfold eq_tc_mtr. intros H. by eq_chain. Qed.

Lemma eq_cls_true a b : eq_tc_cls a b = Ok true -> seen_cls a = seen_cls b.
Proof.
  unfold eq_tc_cls, eq_tc_cls_osi. intros H. eq_chain. destruct a, b; try done; simpl; eq_chain; subst; try done.
  f_equal. eapply all_eq_seen; [|done..]. intros [] [] Hf. eq_chain.
  unfold eq_tc_cls_osi_filter, eq_L3_filter, eq_L4_filter in Hf. simpl in Hf. eq_chain.
  unfold seen_filter. simpl. destruct flt_l3, flt_l4, flt_l0, flt_l1; simpl in *. by subst.
Qed.

Lemma eq_q_true a b : eq_tc_q a b = Ok true -> seen_queue a = seen_queue b.
Proof.
  unfold eq_tc_q, seen_queue. intros H. eq_chain.
  assert (Hs : forall s t, eq_tc_queue_fifo s t = Ok true -> seen_stats s = seen_stats t).
  { intros s t Hst. unfold eq_tc_queue_fifo, eq_tc_drp in Hst. eq_chain. unfold seen_stats. congruence. }
  change eq_tc_queue_codel with eq_tc_queue_fifo in H. change eq_tc_queue_ecn_codel with eq_tc_queue_fifo in H.
  destruct (queue_stats a), (queue_stats b); try done; by rewrite (Hs _ _ H).
Qed.

Lemma eq_flow_true a b : eq_tc_flow a b = Ok true -> seen_flow a = seen_flow b.
Proof.
  unfold eq_tc_flow, eq_tc_shp, eq_tc_plc, eq_tc_drp, eq_tc_mrk. intros H. eq_chain. subst.
  repeat match goal with H : eq_tc_mtr _ _ = Ok true |- _ => apply eq_mtr_true in H end.
  match goal with H : eq_tc_q _ _ = Ok true |- _ => apply eq_q_true in H as Hq end.
  eq_chain. unfold seen_flow. congruence.
Qed.

Lemma eq_ind_true a b : eq_tc_ind_msg a b = Ok true -> seen_ind a = seen_ind b.
Proof.
  unfold eq_tc_ind_msg, eq_tc_pcr. intros H. eq_chain. subst.
  match goal with H : eq_tc_mtr _ _ = Ok true |- _ => apply eq_mtr_true in H as Hm end.
  match goal with H : eq_tc_sch _ _ = Ok true |- _ => apply eq_sch_true in H as Hs end.
  match goal with H : eq_tc_cls _ _ = Ok true |- _ => apply eq_cls_true in H as Hc end.
  assert (Hf : map seen_flow (tc_flows a) = map seen_flow (tc_flows b))
    by (eapply all_eq_seen; [apply eq_flow_true|done..]).
  eq_chain. unfold seen_ind. congruence.
Qed.

(** ** An indication is never found to differ: the process stops first *)

Definition true_or_exit (r : res bool) : Prop := r = Ok true \/ r = Fail FExit.
Definition bool_or_exit (r : res bool) : Prop := (exists b, r = Ok b) \/ r = Fail FExit.

Lemma boe_ok b : bool_or_exit (Ok b).
Proof. left. by eexists. Qed.
Lemma boe_exit : bool_or_exit (Fail FExit).
Proof. by right. Qed.
Lemma boe_if (b : bool) r s : bool_or_exit r -> bool_or_exit s -> bool_or_exit (if b then r else s).
Proof. by destruct b. Qed.
Lemma boe_bind r k : bool_or_exit r -> (forall b, bool_or_exit (k b)) -> bool_or_exit (rbind r k).
Proof. intros [[b ->]| ->] Hk; simpl; [apply Hk|by right]. Qed.
Lemma boe_float a b e : bool_or_exit (eq_float a b e).
Proof. apply eq_float_cases. Qed.

(** [let* b := r in assert b; k] *)
Lemma toe_check r k :
  bool_or_exit r -> true_or_exit k -> true_or_exit (let* b := r in let* _ := assert_ b in k).
Proof. intros [[[] ->]| ->] Hk; simpl; [done|by right..]. Qed.

Lemma toe_assert b k : true_or_exit k -> true_or_exit (let* _ := assert_ b in k).
Proof. destruct b; [done|by right]. Qed.

Lemma boe_loop {A} (f : A -> A -> res bool) l k :
  (forall x y, bool_or_exit (f x y)) -> zlen l = zlen k -> bool_or_exit (all_eq f l k).
Proof.
  intros Hf. revert k. induction l as [|x l IH]; intros [|y k] Hl; simpl; try done; [apply boe_ok|].
  rewrite !zlen_cons in Hl. apply boe_bind; [done|]. intros []; [|apply boe_ok]. apply IH. lia.
Qed.

Lemma toe_loop {A} (f : A -> A -> res bool) l k :
  (forall x y, true_or_exit (f x y)) -> zlen l = zlen k -> true_or_exit (all_eq f l k).
Proof.
  intros Hf. revert k. induction l as [|x l IH]; intros [|y k] Hl; simpl; try done; [by left|].
  rewrite !zlen_cons in Hl. destruct (Hf x y) as [->| ->]; simpl; [|by right]. apply IH. lia.
Qed.

Create HintDb boe discriminated.
#[local] Hint Resolve boe_ok boe_exit boe_if boe_bind boe_float : boe.

Lemma boe_mtr a b : bool_or_exit (eq_tc_mtr a b).
Proof. unfold eq_tc_mtr. auto with boe. Qed.
#[local] Hint Resolve boe_mtr : boe.

Lemma boe_counted {A} (f : A -> A -> res bool) l k :
  (forall x y, bool_or_exit (f x y)) -> bool_or_exit (if negb (zlen l =? zlen k) then Ok false else all_eq f l k).
Proof. intros Hf. destruct (Z.eqb_spec (zlen l) (zlen k)); simpl; [by apply boe_loop|apply boe_ok]. Qed.

Lemma boe_sch a b : bool_or_exit (eq_tc_sch a b).
Proof.
  unfold eq_tc_sch. apply boe_if; [apply boe_ok|]. destruct a, b; auto with boe.
  apply boe_counted. intros. apply boe_ok.
Qed.

Lemma boe_cls a b : bool_or_exit (eq_tc_cls a b).
Proof.
  unfold eq_tc_cls. apply boe_if; [apply boe_ok|]. destruct a, b; auto with boe.
  apply boe_counted. intros. apply boe_ok.
Qed.

Lemma boe_q a b : bool_or_exit (eq_tc_q a b).
Proof.
  unfold eq_tc_q, eq_tc_queue_fifo, eq_tc_queue_codel, eq_tc_queue_ecn_codel. apply boe_if; [apply boe_ok|].
  destruct (queue_stats a), (queue_stats b); auto 8 with boe.
Qed.

Lemma toe_flow a b : true_or_exit (eq_tc_flow a b).
Proof.
  unfold eq_tc_flow. apply toe_check; [unfold eq_tc_shp; auto with boe|].
  apply toe_check; [unfold eq_tc_plc; auto 12 with boe|]. apply toe_check; [apply boe_q|by left].
Qed.

Lemma toe_ind a b : true_or_exit (eq_tc_ind_msg a b).
Proof.
  unfold eq_tc_ind_msg. apply toe_assert. apply toe_check; [apply boe_sch|].
  apply toe_check; [unfold eq_tc_pcr; auto with boe|]. apply toe_check; [apply boe_cls|].
  destruct (Z.eqb_spec (zlen (tc_flows a)) (zlen (tc_flows b))); [|by right]. apply toe_loop; [apply toe_flow|done].
Qed.

(** ** Copies *)

Definition is_flag (v : Z) : bool := (v =? 0) || (v =? 1).
Definition num (f : Z) : bool := negb (isnan (b32 f)).
Definition queue_avg (q : tc_queue_t) : Z :=
  match queue_stats q with
  | queue_fifo s | queue_codel s | queue_ecn s => qs_avg_sojourn_time s
  | queue_other _ => 0
  end.

(** The messages that can be copied: [active] is a boolean and no float is a
    NaN. *)
Definition active_flow (f : tc_flow_t) : bool := is_flag (shp_active (fl_shp f)) && is_flag (plc_active (fl_plc f)).
Definition copyable_flow (f : tc_flow_t) : bool :=
  active_flow f && num (bnd_flt (shp_mtr (fl_shp f)))
  && num (bnd_flt (plc_mtr (fl_plc f))) && num (plc_max_rate_kbps (fl_plc f)) && num (queue_avg (fl_q f)).
Definition copyable (m : tc_ind_msg_t) : bool :=
  num (bnd_flt (pcr_mtr (tc_pcr m))) && forallb copyable_flow (tc_flows m).

(** What is left of a message in its copy. *)
Definition copied_stats (s : tc_queue_stats_t) : tc_queue_stats_t :=
  mk_queue_stats (qs_bytes s) (qs_pkts s) (qs_bytes_fwd s) (qs_pkts_fwd s) (qs_drp_mrk s) (qs_avg_sojourn_time s) 0.
Definition copied_queue (q : tc_queue_t) : tc_queue_t :=
  mk_queue 0 match queue_stats q with
             | queue_fifo s => queue_fifo (copied_stats s)
             | queue_codel s => queue_codel (copied_stats s)
             | queue_ecn s => queue_ecn (copied_stats s)
             | queue_other t => queue_other t
             end.
Definition copied_flow (f : tc_flow_t) : tc_flow_t :=
  mk_flow (mk_shp (shp_id (fl_shp f)) (shp_active (fl_shp f)) 0 (shp_mtr (fl_shp f))) (fl_plc f) (copied_queue (fl_q f)).

Section Copies.
Context (pad : tc_cls_osi_filter_t -> Z * Z).

Definition copied_filter (f : tc_cls_osi_filter_t) : tc_cls_osi_filter_t :=
  mk_filter (flt_id f) (pad f).1 (flt_l3 f) (flt_l4 f) 0 (flt_dst_queue f) (pad f).2.
Definition copied_cls (c : tc_cls_t) : tc_cls_t := match c with cls_osi l => cls_osi (map copied_filter l) | c => c end.
Definition copied_ind (m : tc_ind_msg_t) : tc_ind_msg_t :=
  mk_tc_ind (tc_sch m) (tc_pcr m) (copied_cls (tc_cls m)) (map copied_flow (tc_flows m)) (tc_tstamp m).

Definition copied_ctrl (m : tc_ctrl_msg_t) : tc_ctrl_msg_t :=
  match m with
  | tc_ctrl_cls (act_add (cls_osi o)) =>
      tc_ctrl_cls (act_add (cls_osi (mk_add_osi (ao_l3 o) (ao_l4 o) 0 (ao_dst_queue o))))
  | tc_ctrl_cls (act_mod (cls_osi f)) => tc_ctrl_cls (act_mod (cls_osi (copied_filter f)))
  | m => m
  end.

Lemma cp_mtr_id m : cp_tc_mtr m = m.
Proof. by destruct m. Qed.

Lemma cp_filter_ok f : cp_tc_cls_osi_filter pad f = copied_filter f.
Proof. unfold cp_tc_cls_osi_filter, copied_filter, cp_L3_filter, cp_L4_filter. by destruct f as [? ? [] []]. Qed.

Lemma cp_flow_ok f :
  wf_flow f ->
  cp_tc_flow f = if active_flow f then Ok (copied_flow f) else Fail FExit.
Proof.
  intros (_ & _ & _ & Hq). unfold cp_tc_flow, cp_tc_queue, cp_tc_shp, cp_tc_plc, copied_flow, copied_queue, active_flow, is_flag.
  rewrite !cp_mtr_id. destruct f as [s p q]; simpl in *.
  destruct (queue_stats q); try done; simpl; destruct (_ || _) in |- *; simpl; try done; destruct (_ || _); simpl; try done;
    by destruct p.
Qed.

Lemma cp_flows_ok l :
  Forall wf_flow l ->
  cp_array cp_tc_flow l
  = if forallb active_flow l
    then Ok (map copied_flow l) else Fail FExit.
Proof.
  induction 1 as [|f l Hf Hl IH]; simpl; [done|]. rewrite cp_flow_ok, IH by done.
  destruct (active_flow f); simpl; [|done]. by destruct (forallb _ l).
Qed.

(** ** A message and its copy *)

Lemma eq_mtr_self m : eq_tc_mtr m m = if num (bnd_flt m) then Ok true else Fail FExit.
Proof.
  unfold eq_tc_mtr, num. rewrite Z.eqb_refl. cbn [negb]. rewrite eq_float_self by apply eps_1em2_num. by destruct (isnan _).
Qed.

Lemma eq_q_copied q :
  wf_queue q -> eq_tc_q q (copied_queue q) = if num (queue_avg q) then Ok true else Fail FExit.
Proof.
  intros [_ Hq]. unfold eq_tc_q, copied_queue, queue_avg, eq_tc_queue_fifo, eq_tc_queue_codel, eq_tc_queue_ecn_codel,
    eq_tc_drp, eq_tc_mrk, num.
  destruct (queue_stats q); try done; unfold copied_stats;
    cbn [queue_stats queue_type qs_drp_mrk qs_avg_sojourn_time qs_bytes qs_pkts qs_bytes_fwd qs_pkts_fwd];
    rewrite !Z.eqb_refl, eq_float_self by apply eps_1em3_num; cbn [negb]; by destruct (isnan _).
Qed.

Lemma eq_flow_copied f :
  wf_flow f -> active_flow f = true ->
  eq_tc_flow f (copied_flow f) = if copyable_flow f then Ok true else Fail FExit.
Proof.
  intros (_ & _ & Hq) Hact. unfold eq_tc_flow, eq_tc_shp, eq_tc_plc, eq_tc_drp, eq_tc_mrk, copyable_flow. rewrite Hact.
  cbn [copied_flow fl_shp fl_plc fl_q shp_id shp_active shp_mtr].
  rewrite !Z.eqb_refl, !eq_mtr_self, eq_q_copied by done. cbn [negb]. rewrite eq_float_self by apply eps_1em2_num.
  unfold num. repeat (case_match; cbn [negb rbind assert_ andb] in *; try done).
Qed.

Lemma eq_flows_copied l :
  Forall wf_flow l -> forallb active_flow l = true ->
  all_eq eq_tc_flow l (map copied_flow l) = if forallb copyable_flow l then Ok true else Fail FExit.
Proof.
  induction 1 as [|f l Hf Hl IH]; simpl; [done|]. intros [Ha Has]%andb_true_iff.
  rewrite eq_flow_copied by done. destruct (copyable_flow f); simpl; [|done]. by apply IH.
Qed.

Lemma flows_active l :
  forallb copyable_flow l = true ->
  forallb active_flow l = true.
Proof.
  rewrite !forallb_forall. intros H f Hf%H. unfold copyable_flow in Hf. bool_hyps. done.
Qed.

Lemma all_eq_copies {A} (f : A -> A -> bool) c l :
  (forall x, f x (c x) = true) -> all_eq (fun x y => Ok (f x y)) l (map c l) = Ok true.
Proof. intros Hf. induction l as [|x l IH]; simpl; [done|]. by rewrite Hf. Qed.

Lemma zlen_map_eqb {A B} (f : A -> B) l : (zlen l =? zlen (map f l)) = true.
Proof. unfold zlen. rewrite length_map. apply Z.eqb_refl. Qed.

Lemma eq_cls_copied c : wf_cls_u wf_filters c -> eq_tc_cls c (copied_cls c) = Ok true.
Proof.
  intros Hc. unfold eq_tc_cls, eq_tc_cls_osi. destruct c; [..|done]; simpl; rewrite ?Z.eqb_refl, ?zlen_map_eqb; try done.
  apply all_eq_copies. intros f. unfold eq_tc_cls_osi_filter, eq_L3_filter, eq_L4_filter. simpl. by rewrite !Z.eqb_refl.
Qed.

Lemma eq_sch_self s : wf_sch s -> eq_tc_sch s s = Ok true.
Proof.
  intros Hs. unfold eq_tc_sch, eq_tc_sch_prio. rewrite Z.eqb_refl. destruct s; [done| |done]. simpl. rewrite Z.eqb_refl.
  simpl. by apply all_eq_u32.
Qed.

Lemma cp_ind_ok m :
  wf_tc_ind m -> cp_tc_ind_msg pad m = if copyable m then Ok (copied_ind m) else Fail FExit.
Proof.
  intros (Hs & _ & Hc & _ & Hf & _). unfold cp_tc_ind_msg, cp_tc_shp_q_plc.
  assert (Hsch : cp_tc_sch (tc_sch m) = Ok (tc_sch m)) by by destruct (tc_sch m).
  assert (Hcls : cp_tc_cls pad (tc_cls m) = Ok (copied_cls (tc_cls m))).
  { destruct (tc_cls m); try done. simpl. unfold cp_tc_cls_osi. do 2 f_equal. apply map_ext, cp_filter_ok. }
  assert (Hpcr : cp_tc_pcr (tc_pcr m) = tc_pcr m) by (unfold cp_tc_pcr; rewrite cp_mtr_id; by destruct (tc_pcr m)).
  rewrite Hsch, Hcls, Hpcr, cp_flows_ok by done. cbn [rbind]. fold (copied_ind m). unfold copyable.
  destruct (forallb copyable_flow (tc_flows m)) eqn:Hcp.
  - rewrite (flows_active _ Hcp). cbn [rbind]. fold (copied_ind m). unfold eq_tc_ind_msg, eq_tc_pcr.
    cbn [copied_ind tc_sch tc_pcr tc_cls tc_flows tc_tstamp].
    rewrite !Z.eqb_refl, eq_sch_self, eq_mtr_self, eq_cls_copied, zlen_map_eqb by done. cbn [negb rbind assert_].
    rewrite eq_flows_copied, Hcp by (done || by apply flows_active). by destruct (num _).
  - rewrite andb_false_r. destruct (forallb active_flow (tc_flows m)) eqn:Ha; cbn [rbind]; [|done]. fold (copied_ind m).
    unfold eq_tc_ind_msg, eq_tc_pcr.
    cbn [copied_ind tc_sch tc_pcr tc_cls tc_flows tc_tstamp].
    rewrite !Z.eqb_refl, eq_sch_self, eq_mtr_self, eq_cls_copied, zlen_map_eqb by done. cbn [negb rbind assert_].
    rewrite eq_flows_copied, Hcp by done. by destruct (num _).
Qed.

Lemma cp_ctrl_ok m : wf_tc_ctrl m -> cp_tc_ctrl_msg pad m = Ok (copied_ctrl m).
Proof.
  intros Hm. destruct m as [[[|o| |]|[|f| |]|[]|]|[|[]| |]|[[|[]|[]|]|[i [|[]|[]|]]|[]|]|[|[]| |]|[|[]| |]|[|[[]| |]| |]|];
    try done; try (by destruct Hm).
  - by destruct o as [[] []].
  - simpl. by rewrite cp_filter_ok.
Qed.
End Copies.


(** ** Properties *)

Lemma copyable_sent m : copyable (sent_ind m) = copyable m.
Proof.
  unfold copyable, sent_ind. cbn [tc_pcr tc_flows]. f_equal.
  induction (tc_flows m) as [|f l IH]; [done|]. cbn [map forallb]. by rewrite IH.
Qed.

Lemma lost_copied pad m :
  Forall (fun f => shp_max_rate_kbps (fl_shp f) = 0 /\ queue_id (fl_q f) = 0) (tc_flows (copied_ind pad m)).
Proof. unfold copied_ind. cbn [tc_flows]. apply Forall_map, Forall_forall. by intros f _. Qed.

Lemma copied_sent pad m :
  seen_ind (copied_ind pad (sent_ind m)) = seen_ind m /\
  map fl_plc (tc_flows (copied_ind pad (sent_ind m))) = map fl_plc (tc_flows m).
Proof.
  unfold copied_ind, seen_ind, sent_ind. cbn [tc_sch tc_pcr tc_cls tc_flows tc_tstamp]. rewrite !map_map. split.
  - f_equal.
    + by destruct (tc_sch m).
    + destruct (tc_cls m); try done. simpl. f_equal. rewrite map_map. by apply map_ext.
    + apply map_ext. intros [s p [i []]]; done.
  - by apply map_ext.
Qed.

Section Properties.
Context (malloc : Z -> bytes) (pad : tc_cls_osi_filter_t -> Z * Z).
Hypothesis malloc_len : forall n, 0 <= n -> zlen (malloc n) = n.

(** C39. An indication of the traffic-control model from the agent to the copy that
    the RIC keeps.  It is encoded in a buffer of exactly its size, and decoded.
    It can be copied exactly when every [active] is 0 or 1 and no rate or time
    is a NaN: the process stops otherwise.  The copy has what the comparison
    looks at and the policers, but no shaper rate and no queue identifier. *)
Theorem tc_indication_delivered m :
  wf_tc_ind m ->
  exists ba, tc_enc_ind_msg_plain malloc m = Ok ba /\ cal_ind_msg_payload m = Ok (zlen ba) /\
    (let* r := tc_dec_ind_msg_plain ba in cp_tc_ind_msg pad r)
    = (if copyable m then Ok (copied_ind pad (sent_ind m)) else Fail FExit) /\
    seen_ind (copied_ind pad (sent_ind m)) = seen_ind m /\
    map fl_plc (tc_flows (copied_ind pad (sent_ind m))) = map fl_plc (tc_flows m) /\
    Forall (fun f => shp_max_rate_kbps (fl_shp f) = 0 /\ queue_id (fl_q f) = 0)
      (tc_flows (copied_ind pad (sent_ind m))).
Proof.
  intros Hm. destruct (wf_sent m Hm) as [Hw Hr]. destruct (copied_sent pad m) as [Hs Hp]. exists (lay_tc_ind m).
  split_and!; [by apply tc_enc_ind_msg_ok|by apply cal_ind_ok| |done|done|apply lost_copied].
  unfold tc_dec_ind_msg_plain. rewrite <- lay_sent, (run_reader_ok _ _ (sent_ind m)) by by apply reads_ind.
  cbn [rbind]. by rewrite cp_ind_ok, copyable_sent.
Qed.

(** Copy and comparison of messages that are only well-formed or not even
    that.  Two indications are never found to differ, because the code asserts
    before it returns [false]; when they are found equal, all members that are
    compared exactly are equal.  A control message is copied whole but for
    layer 7, and two are never compared. *)
Theorem tc_copy_compare m m' c c' :
  (eq_tc_ind_msg m m' = Ok true /\ seen_ind m = seen_ind m' \/ eq_tc_ind_msg m m' = Fail FExit) /\
  (wf_tc_ctrl c -> cp_tc_ctrl_msg pad c = Ok (copied_ctrl pad c)) /\
  eq_tc_ctrl_msg c c' = Fail FExit.
Proof.
  split_and!; [|apply cp_ctrl_ok|done]. destruct (toe_ind m m') as [H|H]; [|by right].
  left. split; [done|by apply eq_ind_true].
Qed.
End Properties.

(** [eq_tc_func_def] compares the two structs, that is the addresses: a copy of
    8 to 16 bytes differs from its original, with more the structs are
    overrun. *)
Lemma tc_func_def_copy_differs m calloc_ :
  fits 8 (fd_ptr m) -> fits 8 calloc_ -> calloc_ <> fd_ptr m -> 8 <= zlen (fd_buf m) ->
  eq_tc_func_def false m (cp_tc_func_def calloc_ m) = if zlen (fd_buf m) <=? 16 then Ok false else Fail FBounds.
Proof.
  intros Hp Hc Hne Hl. unfold eq_tc_func_def, cp_tc_func_def. cbn [fd_ptr fd_buf].
  rewrite Z.eqb_refl, (proj2 (Z.ltb_lt 0 _)) by lia. cbn [negb].
  destruct (Z.leb_spec (zlen (fd_buf m)) 16) as [Hle|Hgt].
  - rewrite !buf_read_ok by (rewrite ?zlen_app, ?zlen_le; lia). cbn [rbind]. f_equal. apply bool_decide_eq_false_2.
    intros Heq. apply (f_equal (take 8)) in Heq. change (Z.to_nat 0) with 0%nat in Heq. rewrite !drop_0, !take_take in Heq.
    replace (8 `min` Z.to_nat (zlen (fd_buf m)))%nat with 8%nat in Heq by lia.
    rewrite !take_app_length' in Heq by done. apply (f_equal unle) in Heq.
    rewrite !unle_le_small in Heq by done. congruence.
  - unfold buf_read. rewrite !zlen_app, !zlen_le. rewrite (proj2 (Z.leb_gt (0 + _) _)) by lia.
    by rewrite andb_false_r.
Qed.

(** ** An example *)

Definition example_stats : tc_queue_stats_t := mk_queue_stats 1500 1 3000 2 0 0x3e000000 (-7).
Definition example_flow : tc_flow_t :=
  mk_flow (mk_shp 1 1 0x42c80000 (mk_mtr 100 0x42c80000)) (mk_plc 2 (mk_mtr 50 0) 3 4 0x42480000 0 5 6)
    (mk_queue 9 (queue_codel example_stats)).
Definition example_tc_ind : tc_ind_msg_t :=
  mk_tc_ind (sch_prio [1; 2]) (mk_pcr 1 0 (mk_mtr 10 0x3f800000))
    (cls_osi [mk_filter 1 0 (mk_l3 (-1) 2) (mk_l4 80 (-2) 17) 0 1 0]) [example_flow] 1234567.

Ltac wf_tc :=
  unfold wf_tc_ind, wf_sch, wf_pcr, wf_mtr, wf_cls_u, wf_filters, wf_flow, wf_shp, wf_plc, wf_queue, wf_queue_u,
    wf_queue_stats, fits_words, wf_obj, fits_i64, fits;
  repeat first [split | apply Forall_cons | apply Forall_nil | progress cbn]; try lia; try done.

Example example_tc_ind_length : (let* ba := tc_enc_ind_msg_plain tc_malloc example_tc_ind in Ok (zlen ba)) = Ok 192.
Proof. by vm_compute. Qed.

Lemma tc_indication_delivered_witness :
  (let* r := (let* ba := tc_enc_ind_msg_plain tc_malloc example_tc_ind in tc_dec_ind_msg_plain ba) in
   cp_tc_ind_msg (fun _ => (0, 0)) r)
  = Ok (copied_ind (fun _ => (0, 0)) (sent_ind example_tc_ind)).
Proof.
  destruct (tc_indication_delivered tc_malloc (fun _ => (0, 0)) tc_malloc_len example_tc_ind) as (ba & Hba & _ & Hcp & _).
  - wf_tc. unfold cs_sizes. simpl. repeat constructor; done.
  - rewrite Hba. exact Hcp.
Defined.
