(* ===== verification/StatsData.v ===== *)
(** The information elements of the statistics service models of FlexRIC
    (flexric/src/sm/{gtp,rlc,pdcp,mac,isac}_sm/ie/*_data_ie.h), with the layout
    of the structs that the plain encodings copy whole.

    A member [pad] is the padding of the struct on x86-64.  A [float] or a
    [double] is its bit pattern.  A pair (length, pointer) is a list whose
    length is the first member.  The structs with a single [uint32_t] (event
    triggers, headers, control messages) and the one with a single enum
    (control outcomes) are that integer. *)

From S2P Require Import Prelude SmCodec SmStruct.

(** ** GTP *)

Module Gtp.
Record gtp_ngu_t_stats_t := mk_ngut {
  rnti : Z; teidgnb : Z;                             (* uint32_t *)
  qfi : Z; teidupf : Z;                              (* uint8_t *)
  pad : Z
}.

#[global] Program Instance ngut_struct : CStruct gtp_ngu_t_stats_t := {|
  cs_sizes := [4; 4; 1; 1; 2]%nat;
  cs_words s := [rnti s; teidgnb s; qfi s; teidupf s; pad s];
  cs_make := zapply 5 mk_ngut
|}.
Next Obligation. cstruct_law. Qed.

Record gtp_ind_msg_t := mk_msg { ngut : list gtp_ngu_t_stats_t; tstamp : Z }.
End Gtp.

(** ** RLC *)

Module Rlc.
Record rlc_radio_bearer_stats_t := mk_rb {
  txpdu_pkts : Z; txpdu_bytes : Z; txpdu_wt_ms : Z; txpdu_dd_pkts : Z; txpdu_dd_bytes : Z;
  txpdu_retx_pkts : Z; txpdu_retx_bytes : Z; txpdu_segmented : Z; txpdu_status_pkts : Z;
  txpdu_status_bytes : Z; txbuf_occ_bytes : Z; txbuf_occ_pkts : Z;
  rxpdu_pkts : Z; rxpdu_bytes : Z; rxpdu_dup_pkts : Z; rxpdu_dup_bytes : Z; rxpdu_dd_pkts : Z;
  rxpdu_dd_bytes : Z; rxpdu_ow_pkts : Z; rxpdu_ow_bytes : Z; rxpdu_status_pkts : Z;
  rxpdu_status_bytes : Z; rxbuf_occ_bytes : Z; rxbuf_occ_pkts : Z;
  txsdu_pkts : Z;
  pad0 : Z;
  txsdu_bytes : Z;                                   (* uint64_t *)
  txsdu_avg_time_to_tx : Z;                          (* double *)
  txsdu_wt_us : Z;
  rxsdu_pkts : Z;
  rxsdu_bytes : Z;                                   (* uint64_t *)
  rxsdu_dd_pkts : Z; rxsdu_dd_bytes : Z;
  rnti : Z;
  mode : Z; rbid : Z;                                (* uint8_t *)
  pad : Z
}.

#[global] Program Instance rb_struct : CStruct rlc_radio_bearer_stats_t := {|
  cs_sizes := replicate 25 4%nat ++ [4; 8; 8; 4; 4; 8; 4; 4; 4; 1; 1; 2]%nat;
  cs_words s :=
    [txpdu_pkts s; txpdu_bytes s; txpdu_wt_ms s; txpdu_dd_pkts s; txpdu_dd_bytes s;
     txpdu_retx_pkts s; txpdu_retx_bytes s; txpdu_segmented s; txpdu_status_pkts s;
     txpdu_status_bytes s; txbuf_occ_bytes s; txbuf_occ_pkts s;
     rxpdu_pkts s; rxpdu_bytes s; rxpdu_dup_pkts s; rxpdu_dup_bytes s; rxpdu_dd_pkts s;
     rxpdu_dd_bytes s; rxpdu_ow_pkts s; rxpdu_ow_bytes s; rxpdu_status_pkts s;
     rxpdu_status_bytes s; rxbuf_occ_bytes s; rxbuf_occ_pkts s;
     txsdu_pkts s; pad0 s; txsdu_bytes s; txsdu_avg_time_to_tx s; txsdu_wt_us s; rxsdu_pkts s;
     rxsdu_bytes s; rxsdu_dd_pkts s; rxsdu_dd_bytes s; rnti s; mode s; rbid s; pad s];
  cs_make := zapply 37 mk_rb
|}.
Next Obligation. cstruct_law. Qed.

Record rlc_ind_msg_t := mk_msg { rb : list rlc_radio_bearer_stats_t; tstamp : Z }.
End Rlc.

(** ** PDCP *)

Module Pdcp.
Record pdcp_radio_bearer_stats_t := mk_rb {
  txpdu_pkts : Z; txpdu_bytes : Z; txpdu_sn : Z;
  rxpdu_pkts : Z; rxpdu_bytes : Z; rxpdu_sn : Z;
  rxpdu_oo_pkts : Z; rxpdu_oo_bytes : Z;
  rxpdu_dd_pkts : Z; rxpdu_dd_bytes : Z;
  rxpdu_ro_count : Z;
  txsdu_pkts : Z; txsdu_bytes : Z;
  rxsdu_pkts : Z; rxsdu_bytes : Z;
  rnti : Z;
  mode : Z; rbid : Z;                                (* uint8_t *)
  pad : Z
}.

#[global] Program Instance rb_struct : CStruct pdcp_radio_bearer_stats_t := {|
  cs_sizes := replicate 16 4%nat ++ [1; 1; 2]%nat;
  cs_words s :=
    [txpdu_pkts s; txpdu_bytes s; txpdu_sn s; rxpdu_pkts s; rxpdu_bytes s; rxpdu_sn s;
     rxpdu_oo_pkts s; rxpdu_oo_bytes s; rxpdu_dd_pkts s; rxpdu_dd_bytes s; rxpdu_ro_count s;
     txsdu_pkts s; txsdu_bytes s; rxsdu_pkts s; rxsdu_bytes s; rnti s; mode s; rbid s; pad s];
  cs_make := zapply 19 mk_rb
|}.
Next Obligation. cstruct_law. Qed.

Record pdcp_ind_msg_t := mk_msg { rb : list pdcp_radio_bearer_stats_t; tstamp : Z }.

Definition PDCP_CTRL_OUT_OK : Z := 0.
End Pdcp.

(** ** MAC *)

Module Mac.
Record mac_ue_stats_impl_t := mk_ue {
  dl_aggr_tbs : Z; ul_aggr_tbs : Z; dl_aggr_bytes_sdus : Z; ul_aggr_bytes_sdus : Z;   (* uint64_t *)
  dl_curr_tbs : Z; ul_curr_tbs : Z; dl_sched_rb : Z; ul_sched_rb : Z;
  pusch_snr : Z; pucch_snr : Z; dl_bler : Z; ul_bler : Z;                             (* float *)
  dl_harq0 : Z; dl_harq1 : Z; dl_harq2 : Z; dl_harq3 : Z; dl_harq4 : Z;               (* dl_harq[5] *)
  ul_harq0 : Z; ul_harq1 : Z; ul_harq2 : Z; ul_harq3 : Z; ul_harq4 : Z;               (* ul_harq[5] *)
  dl_num_harq : Z; ul_num_harq : Z;
  rnti : Z; dl_aggr_prb : Z; ul_aggr_prb : Z; dl_aggr_sdus : Z; ul_aggr_sdus : Z;
  dl_aggr_retx_prb : Z; ul_aggr_retx_prb : Z;
  bsr : Z;
  frame : Z; slot : Z;                                                                (* uint16_t *)
  wb_cqi : Z; dl_mcs1 : Z; ul_mcs1 : Z; dl_mcs2 : Z; ul_mcs2 : Z;                     (* uint8_t *)
  phr : Z;                                                                            (* int8_t *)
  pad : Z
}.

#[global] Program Instance ue_struct : CStruct mac_ue_stats_impl_t := {|
  cs_sizes := replicate 8 8%nat ++ replicate 24 4%nat ++ [2; 2; 1; 1; 1; 1; 1; 1; 6]%nat;
  cs_words s :=
    [dl_aggr_tbs s; ul_aggr_tbs s; dl_aggr_bytes_sdus s; ul_aggr_bytes_sdus s;
     dl_curr_tbs s; ul_curr_tbs s; dl_sched_rb s; ul_sched_rb s;
     pusch_snr s; pucch_snr s; dl_bler s; ul_bler s;
     dl_harq0 s; dl_harq1 s; dl_harq2 s; dl_harq3 s; dl_harq4 s;
     ul_harq0 s; ul_harq1 s; ul_harq2 s; ul_harq3 s; ul_harq4 s;
     dl_num_harq s; ul_num_harq s; rnti s; dl_aggr_prb s; ul_aggr_prb s; dl_aggr_sdus s; ul_aggr_sdus s;
     dl_aggr_retx_prb s; ul_aggr_retx_prb s; bsr s; frame s; slot s;
     wb_cqi s; dl_mcs1 s; ul_mcs1 s; dl_mcs2 s; ul_mcs2 s; u8 (phr s); pad s];
  cs_make l :=
    let s := zapply 41 mk_ue l in {| s with phr := s8 (phr s) |}
|}.
Next Obligation. cstruct_law. Qed.

Record mac_ind_msg_t := mk_msg { ue_stats : list mac_ue_stats_impl_t; tstamp : Z }.
End Mac.

(** ** ISAC *)

Module Isac.
Record isac_csi_meta_t := mk_meta {
  tstamp_us : Z;                                     (* int64_t *)
  ul_carrier_freq_hz : Z;                            (* uint64_t *)
  seq : Z; nb_sc : Z; first_sc : Z; scs_hz : Z;      (* uint32_t *)
  frame : Z; slot : Z; rnti : Z;                     (* uint16_t *)
  wb_snr_db : Z;                                     (* int16_t *)
  ta_offset : Z; nb_prb_carrier : Z; nb_prb_srs : Z; nb_symb_srs : Z;
  nb_rx_ant : Z; nb_ue_ports : Z; comb_size : Z;     (* uint8_t *)
  pad : Z;
  pad_end : Z
}.

#[global] Program Instance meta_struct : CStruct isac_csi_meta_t := {|
  cs_sizes := [8; 8; 4; 4; 4; 4; 2; 2; 2; 2; 2; 2; 2; 2; 1; 1; 1; 1; 4]%nat;
  cs_words s :=
    [u64 (tstamp_us s); ul_carrier_freq_hz s; seq s; nb_sc s; first_sc s; scs_hz s; frame s; slot s; rnti s;
     u16 (wb_snr_db s); ta_offset s; nb_prb_carrier s; nb_prb_srs s; nb_symb_srs s;
     nb_rx_ant s; nb_ue_ports s; comb_size s; pad s; pad_end s];
  cs_make l :=
    let s := zapply 19 mk_meta l in {| s with tstamp_us := s64 (tstamp_us s); wb_snr_db := s16 (wb_snr_db s) |}
|}.
Next Obligation. cstruct_law. Qed.

Record isac_csi_snap_t := mk_snap { meta : isac_csi_meta_t; iq : list Z }.

Record isac_ind_msg_t := mk_msg { snap : list isac_csi_snap_t; dropped_snap : Z; tstamp : Z }.

(** [2u * m->nb_rx_ant * m->nb_ue_ports * m->nb_sc]: the product of [unsigned int]s. *)
Definition isac_snap_iq_len (m : isac_csi_meta_t) : Z :=
  u32 (u32 (u32 (2 * nb_rx_ant m) * nb_ue_ports m) * nb_sc m).
End Isac.

(** The sizes of the structs on x86-64. *)
Lemma stats_struct_sizes :
  sizeof Gtp.gtp_ngu_t_stats_t = 12 /\ sizeof Rlc.rlc_radio_bearer_stats_t = 152
  /\ sizeof Pdcp.pdcp_radio_bearer_stats_t = 68 /\ sizeof Mac.mac_ue_stats_impl_t = 176
  /\ sizeof Isac.isac_csi_meta_t = 56.
Proof. done. Qed.
