(* ===== verification/StatsCodec.v ===== *)
(** The plain encoders and decoders of the statistics service models
    (flexric/src/sm/{gtp,rlc,pdcp,mac,isac}_sm/{enc,dec}/*_plain.c).

    [malloc] leaves any content in a buffer of the requested size, and is a
    section variable; [calloc] leaves zeros; neither fails.  A pointer into a
    buffer is an offset.  A decoder is given the received bytes, its [len] is
    their number. *)

From S2P Require Import Prelude SmCodec SmStruct StatsData.

Definition calloc (n : Z) : bytes := replicate (Z.to_nat n) 0.

(** A message that is one struct with one [uint32_t] or one enum. *)
Definition enc_word (ba : bytes) (v : Z) : res bytes := put 4 ba 0 v.

Definition dec_word (ba : bytes) : res Z :=
  let* _ := assert_ (zlen ba =? 4) in get 4 ba 0.

(** ** The array of statistics

    The four older models have one layout: the number of objects, the objects,
    the time. *)

Section StatsArray.
Context {T : Type} `{CStruct T}.

(** The offset that is returned is one past the last byte written or read. *)
Definition enc_stats (buf : bytes) (l : list T) (tstamp : Z) : res (bytes * Z) :=
  let* buf := put 4 buf 0 (zlen l) in
  let* (buf, it) := fill_array put_obj buf 4 4 l in
  let* buf := put 8 buf it tstamp in
  Ok (buf, it + 8).

Definition dec_stats (buf : bytes) : res (list T * Z * Z) :=
  let* n := get 4 buf 0 in
  let* (l, it) := read_array get_obj buf 4 4 (Z.to_nat n) in
  let* tstamp := get 8 buf it in
  Ok (l, s64 tstamp, it + 8).
End StatsArray.

(** [next_pow2] of the GTP and RLC decoders, on a [size_t]. *)
Definition next_pow2 (x : Z) : Z :=
  let x := u64 (x - 1) in
  let x := Z.lor x (Z.shiftr x 1) in
  let x := Z.lor x (Z.shiftr x 2) in
  let x := Z.lor x (Z.shiftr x 4) in
  let x := Z.lor x (Z.shiftr x 8) in
  let x := Z.lor x (Z.shiftr x 16) in
  let x := Z.lor x (Z.shiftr x 32) in
  u64 (x + 1).

(** [sizeof(gtp_ind_msg_t)] and [sizeof(rlc_ind_msg_t)]: a pointer, a length
    with padding, the time. *)
Definition sizeof_ind_msg : Z := 8 + 8 + 8.

Section Encoders.
Context (malloc : Z -> bytes).

(** ** GTP *)

Definition gtp_enc_event_trigger_plain (ms : Z) : res bytes := enc_word (malloc 4) ms.
Definition gtp_enc_ind_hdr_plain (dummy : Z) : res bytes := enc_word (calloc 4) dummy.
Definition gtp_enc_ctrl_hdr_plain (dummy : Z) : res bytes := enc_word (calloc 4) dummy.
Definition gtp_enc_ctrl_msg_plain (action : Z) : res bytes := enc_word (calloc 4) action.

Definition gtp_enc_ind_msg_plain (m : Gtp.gtp_ind_msg_t) : res bytes :=
  let sz := 4 + sizeof Gtp.gtp_ngu_t_stats_t * zlen (Gtp.ngut m) + 8 in
  let* (buf, it) := enc_stats (malloc sz) (Gtp.ngut m) (Gtp.tstamp m) in
  let* _ := assert_ (it =? sz) in
  Ok buf.

(** ** RLC *)

Definition rlc_enc_event_trigger_plain (ms : Z) : res bytes := enc_word (malloc 4) ms.
Definition rlc_enc_ind_hdr_plain (dummy : Z) : res bytes := enc_word (calloc 4) dummy.
Definition rlc_enc_ctrl_hdr_plain (dummy : Z) : res bytes := enc_word (calloc 4) dummy.
Definition rlc_enc_ctrl_msg_plain (action : Z) : res bytes := enc_word (calloc 4) action.

Definition rlc_enc_ind_msg_plain (m : Rlc.rlc_ind_msg_t) : res bytes :=
  let sz := 4 + sizeof Rlc.rlc_radio_bearer_stats_t * zlen (Rlc.rb m) + 8 in
  let* (buf, it) := enc_stats (malloc sz) (Rlc.rb m) (Rlc.tstamp m) in
  let* _ := assert_ (it =? sz) in
  Ok buf.

(** ** PDCP *)

Definition pdcp_enc_event_trigger_plain (ms : Z) : res bytes := enc_word (calloc 4) ms.
Definition pdcp_enc_ind_hdr_plain (dummy : Z) : res bytes := enc_word (calloc 4) dummy.
Definition pdcp_enc_ctrl_hdr_plain (dummy : Z) : res bytes := enc_word (calloc 4) dummy.
Definition pdcp_enc_ctrl_msg_plain (action : Z) : res bytes := enc_word (calloc 4) action.
Definition pdcp_enc_ctrl_out_plain (ans : Z) : res bytes := enc_word (calloc 4) ans.

Definition pdcp_enc_ind_msg_plain (m : Pdcp.pdcp_ind_msg_t) : res bytes :=
  let sz := 4 + 8 + sizeof Pdcp.pdcp_radio_bearer_stats_t * zlen (Pdcp.rb m) in
  let* (buf, it) := enc_stats (malloc sz) (Pdcp.rb m) (Pdcp.tstamp m) in
  let* _ := assert_ (it =? sz) in
  Ok buf.

(** ** MAC *)

Definition mac_enc_event_trigger_plain (ms : Z) : res bytes := enc_word (malloc 4) ms.
Definition mac_enc_ind_hdr_plain (dummy : Z) : res bytes := enc_word (calloc 4) dummy.
Definition mac_enc_ctrl_hdr_plain (dummy : Z) : res bytes := enc_word (calloc 4) dummy.
Definition mac_enc_ctrl_msg_plain (action : Z) : res bytes := enc_word (calloc 4) action.

(** The size is kept in an [uint32_t]. *)
Definition mac_enc_ind_msg_plain (m : Mac.mac_ind_msg_t) : res bytes :=
  let len := u32 (4 + sizeof Mac.mac_ue_stats_impl_t * zlen (Mac.ue_stats m) + 8) in
  let* (buf, ptr) := enc_stats (calloc len) (Mac.ue_stats m) (Mac.tstamp m) in
  let* _ := assert_ (ptr =? len) in
  Ok buf.

(** ** ISAC *)

Definition isac_enc_event_trigger_plain (ms : Z) : res bytes := enc_word (malloc 4) ms.
Definition isac_enc_ind_hdr_plain (dummy : Z) : res bytes := enc_word (calloc 4) dummy.
Definition isac_enc_ctrl_hdr_plain (dummy : Z) : res bytes := enc_word (calloc 4) dummy.
Definition isac_enc_ctrl_msg_plain (action : Z) : res bytes := enc_word (calloc 4) action.

(** The bytes of an array of [int16_t]. *)
Definition lay_iq (iq : list Z) : bytes := lay_words (replicate (length iq) 2%nat) (map u16 iq).

Definition isac_put_snap (buf : bytes) (ptr : Z) (s : Isac.isac_csi_snap_t) : res (bytes * Z) :=
  let* (buf, n) := put_obj buf ptr (Isac.meta s) in
  let ptr := ptr + n in
  let iq_bytes := Isac.isac_snap_iq_len (Isac.meta s) * 2 in
  if 0 <? iq_bytes then
    let* _ := assert_ (negb (bool_decide (Isac.iq s = []))) in
    let* d := buf_read (lay_iq (Isac.iq s)) 0 iq_bytes in
    let* buf := buf_write buf ptr d in
    Ok (buf, n + iq_bytes)
  else Ok (buf, n).

Definition isac_enc_ind_msg_plain (m : Isac.isac_ind_msg_t) : res bytes :=
  let len := fold_left (fun len s => len + (sizeof Isac.isac_csi_meta_t + Isac.isac_snap_iq_len (Isac.meta s) * 2))
               (Isac.snap m) (4 + 4 + 8) in
  let buf := calloc len in
  let* buf := put 4 buf 0 (zlen (Isac.snap m)) in
  let* buf := put 4 buf 4 (Isac.dropped_snap m) in
  let* buf := put 8 buf (4 + 4) (Isac.tstamp m) in
  let* (buf, ptr) := fill_array isac_put_snap buf (4 + 4 + 8) (4 + 4 + 8) (Isac.snap m) in
  let* _ := assert_ (ptr =? len) in
  Ok buf.
End Encoders.

(** ** Decoders *)

Definition gtp_dec_event_trigger_plain (ev_tr : bytes) : res Z := get 4 ev_tr 0.
Definition gtp_dec_ind_hdr_plain (ind_hdr : bytes) : res Z := dec_word ind_hdr.
Definition gtp_dec_ctrl_hdr_plain (ctrl_hdr : bytes) : res Z := dec_word ctrl_hdr.
Definition gtp_dec_ctrl_msg_plain (ctrl_msg : bytes) : res Z := dec_word ctrl_msg.
Definition gtp_dec_ctrl_out_plain (ctrl_out : bytes) : res Z := Fail FExit.

Definition gtp_dec_ind_msg_plain (ind_msg : bytes) : res Gtp.gtp_ind_msg_t :=
  let* _ := assert_ (sizeof_ind_msg - 8 <=? next_pow2 (zlen ind_msg)) in
  let* (ngut, tstamp, it) := dec_stats ind_msg in
  let* _ := assert_ (it =? zlen ind_msg) in
  Ok (Gtp.mk_msg ngut tstamp).

Definition rlc_dec_event_trigger_plain (ev_tr : bytes) : res Z := get 4 ev_tr 0.
Definition rlc_dec_ind_hdr_plain (ind_hdr : bytes) : res Z := dec_word ind_hdr.
Definition rlc_dec_ctrl_hdr_plain (ctrl_hdr : bytes) : res Z := dec_word ctrl_hdr.
Definition rlc_dec_ctrl_msg_plain (ctrl_msg : bytes) : res Z := dec_word ctrl_msg.
Definition rlc_dec_ctrl_out_plain (ctrl_out : bytes) : res Z := Fail FExit.

Definition rlc_dec_ind_msg_plain (ind_msg : bytes) : res Rlc.rlc_ind_msg_t :=
  let* _ := assert_ (sizeof_ind_msg - 8 <=? next_pow2 (zlen ind_msg)) in
  let* (rb, tstamp, it) := dec_stats ind_msg in
  let* _ := assert_ (it =? zlen ind_msg) in
  Ok (Rlc.mk_msg rb tstamp).

Definition pdcp_dec_event_trigger_plain (ev_tr : bytes) : res Z := get 4 ev_tr 0.
Definition pdcp_dec_ind_hdr_plain (ind_hdr : bytes) : res Z := dec_word ind_hdr.
Definition pdcp_dec_ctrl_hdr_plain (ctrl_hdr : bytes) : res Z := dec_word ctrl_hdr.
Definition pdcp_dec_ctrl_msg_plain (ctrl_msg : bytes) : res Z := dec_word ctrl_msg.
Definition pdcp_dec_ctrl_out_plain (ctrl_out : bytes) : res Z :=
  let* _ := assert_ (0 <? zlen ctrl_out) in dec_word ctrl_out.

Definition pdcp_dec_ind_msg_plain (ind_msg : bytes) : res Pdcp.pdcp_ind_msg_t :=
  let* _ := assert_ (4 + 8 <=? zlen ind_msg) in
  let* (rb, tstamp, it) := dec_stats ind_msg in
  let* _ := assert_ (it =? zlen ind_msg) in
  Ok (Pdcp.mk_msg rb tstamp).

Definition mac_dec_event_trigger_plain (ev_tr : bytes) : res Z := get 4 ev_tr 0.
Definition mac_dec_ind_hdr_plain (ind_hdr : bytes) : res Z := dec_word ind_hdr.
Definition mac_dec_ctrl_hdr_plain (ctrl_hdr : bytes) : res Z := dec_word ctrl_hdr.
Definition mac_dec_ctrl_msg_plain (ctrl_msg : bytes) : res Z := dec_word ctrl_msg.
Definition mac_dec_ctrl_out_plain (ctrl_out : bytes) : res Z := Fail FExit.

Definition mac_dec_ind_msg_plain (ind_msg : bytes) : res Mac.mac_ind_msg_t :=
  let* (ue_stats, tstamp, ptr) := dec_stats ind_msg in
  let* _ := assert_ (ptr =? zlen ind_msg) in
  Ok (Mac.mk_msg ue_stats tstamp).

Definition isac_dec_event_trigger_plain (ev_tr : bytes) : res Z := get 4 ev_tr 0.
Definition isac_dec_ind_hdr_plain (ind_hdr : bytes) : res Z := dec_word ind_hdr.
Definition isac_dec_ctrl_hdr_plain (ctrl_hdr : bytes) : res Z := dec_word ctrl_hdr.
Definition isac_dec_ctrl_msg_plain (ctrl_msg : bytes) : res Z := dec_word ctrl_msg.
Definition isac_dec_ctrl_out_plain (ctrl_out : bytes) : res Z := Fail FExit.

Definition unlay_iq (d : bytes) : list Z := map s16 (split_words (replicate (length d / 2) 2%nat) d).

Definition isac_get_snap (ind_msg : bytes) (ptr : Z) : res (Isac.isac_csi_snap_t * Z) :=
  let* _ := assert_ (ptr + sizeof Isac.isac_csi_meta_t <=? zlen ind_msg) in
  let* (meta, n) := get_obj ind_msg ptr in
  let ptr := ptr + n in
  let iq_bytes := Isac.isac_snap_iq_len meta * 2 in
  if 0 <? iq_bytes then
    let* _ := assert_ (ptr + iq_bytes <=? zlen ind_msg) in
    let* d := buf_read ind_msg ptr iq_bytes in
    Ok (Isac.mk_snap meta (unlay_iq d), n + iq_bytes)
  else Ok (Isac.mk_snap meta [], n).

Definition isac_dec_ind_msg_plain (ind_msg : bytes) : res Isac.isac_ind_msg_t :=
  let* _ := assert_ (4 + 4 + 8 <=? zlen ind_msg) in
  let* len_snap := get 4 ind_msg 0 in
  let* dropped_snap := get 4 ind_msg 4 in
  let* tstamp := get 8 ind_msg (4 + 4) in
  let* (snap, ptr) := read_array isac_get_snap ind_msg (4 + 4 + 8) (4 + 4 + 8) (Z.to_nat len_snap) in
  let* _ := assert_ (ptr =? zlen ind_msg) in
  Ok (Isac.mk_msg snap dropped_snap (s64 tstamp)).
