(* ===== verification/StatsProps.v ===== *)
(** The statistics service models: what their plain encoders write is what
    their decoders read, and what the decoders do with any other bytes. *)

From S2P Require Import Prelude SmCodec SmStruct StatsData StatsCodec.

(** ** The array of statistics *)

Section StatsArray.
Context {T : Type} `{CStruct T}.

Definition lay_stats (l : list T) (tstamp : Z) : bytes := le 4 (zlen l) ++ lay_array obj l ++ le 8 tstamp.

Definition wf_stats (l : list T) (tstamp : Z) : Prop :=
  zlen l < 2 ^ 32 /\ Forall wf_obj l /\ - 2 ^ 63 <= tstamp < 2 ^ 63.

Definition stats_size (n : Z) : Z := 4 + sizeof T * n + 8.

Lemma zlen_lay_stats l t : Forall wf_obj l -> zlen (lay_stats l t) = stats_size (zlen l).
Proof. intros. unfold lay_stats, stats_size. rewrite !zlen_app, !zlen_le, zlen_objs by done. lia. Qed.

Lemma enc_stats_ok buf l t :
  wf_stats l t -> zlen buf = stats_size (zlen l) ->
  enc_stats buf l t = Ok (lay_stats l t, stats_size (zlen l)).
Proof.
  intros (Hn & Hl & Ht) Hbuf. pose proof (zlen_objs l Hl) as Hobjs. pose proof (zlen_nonneg l).
  assert (0 <= sizeof T) by (unfold sizeof; lia). unfold enc_stats, stats_size in *.
  rewrite <- (splice_nil buf 0) by done.
  assert (0 <= sizeof T * zlen l) by nia.
  rewrite put_app by (done || lia). cbn [rbind]. rewrite app_nil_l.
  rewrite (fill_array_app obj wf_obj put_obj) by (rewrite ?zlen_le; done || lia). cbn [rbind].
  rewrite put_app by (rewrite ?zlen_app, ?zlen_le; lia). cbn [rbind].
  rewrite splice_all by (rewrite !zlen_app, !zlen_le, Hobjs, Hbuf; lia).
  rewrite Hobjs, <- app_assoc. unfold lay_stats. reflexivity.
Qed.

Lemma stats_time v : fits 8 v -> - 2 ^ 63 <= s64 v < 2 ^ 63 /\ le 8 (s64 v) = le 8 v.
Proof. intros _. split; [apply s64_range|apply le_s64]. Qed.

Lemma dec_stats_at buf l t :
  wf_stats l t -> at_pos buf 0 (lay_stats l t) -> dec_stats buf = Ok (l, t, stats_size (zlen l)).
Proof.
  intros (Hn & Hl & Ht) Hat. unfold dec_stats, lay_stats in *. pose proof (zlen_nonneg l).
  apply at_pos_app in Hat as [H1 H2]. apply at_pos_app in H2 as [H2 H3].
  rewrite (get_fits _ _ _ _ H1) by (unfold fits; lia). cbn [rbind]. rewrite Z.add_0_l, zlen_le4 in H2.
  replace (Z.to_nat (zlen l)) with (length l) by (unfold zlen; lia).
  rewrite (read_array_ok obj wf_obj get_obj) by done. cbn [rbind].
  rewrite <- (le_mod 8 t) in H3. rewrite Z.add_0_l, zlen_le4 in H3.
  rewrite (get_fits _ _ _ _ H3) by (apply Z.mod_pos_bound; lia). cbn [rbind].
  change (256 ^ Z.of_nat 8) with (2 ^ 64). rewrite s64_u64, zlen_objs by done.
  unfold stats_size. done.
Qed.

(** The number of objects that a message announces. *)
Definition stats_count (buf : bytes) : Z := unle (take 4 buf).

Lemma dec_stats_total buf :
  Forall byte_ok buf ->
  match dec_stats buf with
  | Ok (l, t, it) => wf_stats l t /\ it = stats_size (zlen l) /\ zlen l = stats_count buf
      /\ it <= zlen buf /\ at_pos buf 0 (lay_stats l t)
  | Fail f => f = FBounds /\ (zlen buf < 4 \/ zlen buf < stats_size (stats_count buf))
  end.
Proof.
  intros Hbuf. unfold dec_stats. pose proof (get_total 4 buf 0 Hbuf ltac:(lia)) as H4.
  destruct (get 4 buf 0) as [n|f] eqn:Hget; cbn [rbind]; [|destruct H4; split; [done|lia]].
  destruct H4 as (Hn & H4 & Hat4). unfold fits in Hn.
  assert (0 <= sizeof T * n) by (unfold sizeof; apply Z.mul_nonneg_nonneg; lia).
  assert (Hcount : stats_count buf = n).
  { unfold get in Hget. destruct (buf_read buf 0 (Z.of_nat 4)) as [d|] eqn:Hr; [|done].
    apply buf_read_inv in Hr as (_ & _ & _ & ->). cbn [rbind] in Hget. by inversion Hget. }
  rewrite Hcount.
  pose proof (get_objs_total (T := T) (Z.to_nat n) buf 4 4 Hbuf ltac:(lia)) as Ho. rewrite Z2Nat.id in Ho by lia.
  destruct (read_array get_obj buf 4 4 (Z.to_nat n)) as [[l it]|f]; cbn [rbind].
  2: { destruct Ho as [-> Ho]. split; [done|]. right. unfold stats_size. lia. }
  destruct Ho as (Hroom & -> & Hlen & Hl & Hlay).
  assert (Hzl : zlen l = n) by (unfold zlen; lia).
  assert (Hit8 : 0 <= 4 + sizeof T * n) by lia. pose proof (get_total 8 buf _ Hbuf Hit8) as H8.
  destruct (get 8 buf (4 + sizeof T * n)) as [t|f]; cbn [rbind].
  2: { destruct H8 as [-> H8]. split; [done|]. right. unfold stats_size. lia. }
  destruct H8 as (Ht & H8 & Hat8). destruct (stats_time t Ht) as [Hts Hle].
  unfold stats_size. rewrite Hzl. split_and!; [|done|done|lia|].
  { split_and!; [lia|done|lia..]. }
  unfold lay_stats. rewrite Hzl, Hle. apply at_pos_join; [done|]. rewrite zlen_le4.
  apply at_pos_join; [|rewrite zlen_objs, Hzl by done; done].
  split; [lia|]. eexists. rewrite <- Hlay. symmetry. apply take_drop.
Qed.

(** What [dec_stats] and the final check make of a message. *)
Definition dec_stats_all (buf : bytes) : res (list T * Z) :=
  let* (l, t, it) := dec_stats buf in
  let* _ := assert_ (it =? zlen buf) in
  Ok (l, t).

Lemma dec_stats_all_verdict buf :
  Forall byte_ok buf -> 4 <= zlen buf ->
  match dec_stats_all buf with
  | Ok (l, t) => wf_stats l t /\ lay_stats l t = buf
  | Fail FBounds => zlen buf < stats_size (stats_count buf)
  | Fail FExit => stats_size (stats_count buf) < zlen buf
  | Fail FFuel => False
  end.
Proof.
  intros Hbuf H4. unfold dec_stats_all. pose proof (dec_stats_total buf Hbuf) as Ht.
  destruct (dec_stats buf) as [[[l t] it]|f]; cbn [rbind].
  - destruct Ht as (Hwf & -> & Hn & Hle & Hat). unfold assert_. case_bool_; cbn [rbind].
    + split; [done|]. apply at_pos_all; [done|]. rewrite zlen_lay_stats by apply Hwf. lia.
    + rewrite Hn in *. lia.
  - destruct Ht as [-> Ht]. lia.
Qed.

Lemma dec_stats_all_ok l t : wf_stats l t -> dec_stats_all (lay_stats l t) = Ok (l, t).
Proof.
  intros Hwf. unfold dec_stats_all. rewrite (dec_stats_at _ l t) by (done || by apply at_pos_whole).
  cbn [rbind]. rewrite zlen_lay_stats by apply Hwf. by rewrite Z.eqb_refl.
Qed.
End StatsArray.

(** ** The next power of two *)

(** The bits of [y] are those of [x] smeared over [w] positions. *)
Definition smeared (x w y : Z) : Prop :=
  0 <= y /\ forall i, 0 <= i -> Z.testbit y i = true <-> exists j, 0 <= j < w /\ Z.testbit x (i + j) = true.

Lemma smear_step x w y : 0 <= w -> smeared x w y -> smeared x (2 * w) (Z.lor y (Z.shiftr y w)).
Proof.
  intros Hw [Hy Hs]. split.
  { apply Z.lor_nonneg. split; [done|]. by apply Z.shiftr_nonneg. }
  intros i Hi. rewrite Z.lor_spec, Z.shiftr_spec, orb_true_iff, (Hs i Hi), (Hs (i + w)) by lia. split.
  - intros [(j & Hj & Hb)|(j & Hj & Hb)]; [exists j; split; [lia|done]|].
    exists (w + j). split; [lia|]. by rewrite Z.add_assoc.
  - intros (j & Hj & Hb). destruct (Z.lt_ge_cases j w); [left; exists j; split; [lia|done]|].
    right. exists (j - w). split; [lia|]. by replace (i + w + (j - w)) with (i + j) by lia.
Qed.

Lemma smeared_ones x y : 0 < x < 2 ^ 64 -> smeared x 64 y -> y = Z.ones (Z.log2 x + 1).
Proof.
  intros Hx [Hy Hs]. pose proof (Z.log2_nonneg x).
  assert (Hlog : Z.log2 x < 64) by (apply Z.log2_lt_pow2; lia).
  apply Z.bits_inj'. intros i Hi. apply eq_true_iff_eq. rewrite (Hs i Hi), Z.testbit_ones_nonneg, Z.ltb_lt by lia.
  split.
  - intros (j & Hj & Hb). destruct (Z.lt_ge_cases i (Z.log2 x + 1)); [done|].
    rewrite Z.bits_above_log2 in Hb by lia. done.
  - intros Hle. exists (Z.log2 x - i). split; [lia|]. replace (i + (Z.log2 x - i)) with (Z.log2 x) by lia.
    apply Z.bit_log2. lia.
Qed.

(** [next_pow2] is the least power of two that is not below its argument, up
    to 2^63; 0 gives 0. *)
Lemma next_pow2_spec x : 0 < x <= 2 ^ 63 -> next_pow2 x = 2 ^ Z.log2_up x.
Proof.
  intros Hx. unfold next_pow2. rewrite (wrap_small 64 (x - 1)) by lia.
  destruct (Z.eq_dec x 1) as [->|Hne]; [done|].
  assert (H1 : smeared (x - 1) 1 (x - 1)).
  { split; [lia|]. intros i Hi. split; [intros; exists 0; by rewrite Z.add_0_r|].
    intros (j & Hj & Hb). by replace (i + j) with i in Hb by lia. }
  do 6 (apply smear_step in H1; [|lia];
        match type of H1 with smeared _ ?w _ => let v := eval vm_compute in w in change w with v in H1 end).
  rewrite (smeared_ones (x - 1) _ ltac:(lia) H1). rewrite Z.ones_equiv, Z.log2_up_eqn by lia.
  replace (Z.pred x) with (x - 1) by lia. pose proof (Z.log2_nonneg (x - 1)).
  assert (Z.log2 (x - 1) < 63) by (apply Z.log2_lt_pow2; lia).
  assert (2 ^ (Z.log2 (x - 1) + 1) < 2 ^ 64) by (apply Z.pow_lt_mono_r; lia).
  assert (0 < 2 ^ (Z.log2 (x - 1) + 1)) by (apply Z.pow_pos_nonneg; lia).
  rewrite wrap_small by lia. unfold Z.succ. lia.
Qed.

(** The check of the GTP and RLC decoders keeps out the messages of 8 bytes
    or less, of which none is valid, but not those of 9 to 11 bytes. *)
Lemma next_pow2_check x : 0 <= x <= 2 ^ 63 -> (sizeof_ind_msg - 8 <=? next_pow2 x) = (9 <=? x).
Proof.
  intros Hx. destruct (Z.eq_dec x 0) as [->|]; [done|]. rewrite next_pow2_spec by lia.
  unfold sizeof_ind_msg. change (8 + 8 + 8 - 8) with (2 ^ 4).
  destruct (Z.leb_spec 9 x) as [Hle|Hlt].
  - apply Z.leb_le, Z.pow_le_mono_r; [lia|]. change 4 with (Z.log2_up 9). by apply Z.log2_up_le_mono.
  - apply Z.leb_gt, Z.pow_lt_mono_r; [lia..|].
    assert (Z.log2_up x <= Z.log2_up 8) by (apply Z.log2_up_le_mono; lia). change (Z.log2_up 8) with 3 in *. lia.
Qed.

(** ** Messages of the four older models *)

Lemma zlen_calloc n : 0 <= n -> zlen (calloc n) = n.
Proof. intros. unfold calloc, zlen. rewrite length_replicate. lia. Qed.

(** An encoder of the four older models, written for a buffer of [size] bytes. *)
Lemma enc_stats_msg {T} `{CStruct T} (l : list T) t size buf :
  wf_stats l t -> size = stats_size (T := T) (zlen l) -> zlen buf = size ->
  (let* (buf, it) := enc_stats buf l t in let* _ := assert_ (it =? size) in Ok buf) = Ok (lay_stats l t).
Proof. intros Hwf -> Hbuf. rewrite enc_stats_ok by done. cbn [rbind]. by rewrite Z.eqb_refl. Qed.

(** A buffer that is too short is written out of bounds. *)
Lemma buf_write_total buf it data :
  0 <= it ->
  match buf_write buf it data with
  | Ok buf' => zlen buf' = zlen buf /\ it + zlen data <= zlen buf
  | Fail f => f = FBounds
  end.
Proof.
  intros Hit. destruct (buf_write buf it data) as [buf'|f] eqn:Hw.
  - unfold zlen at 1. rewrite (buf_write_length _ _ _ _ Hw). by apply buf_write_inv in Hw as (_ & ? & _).
  - unfold buf_write in Hw. case_match; by simplify_eq.
Qed.

Lemma fill_objs_total {T} `{CStruct T} (l : list T) buf it sz :
  Forall wf_obj l -> 0 <= it ->
  match fill_array put_obj buf it sz l with
  | Ok (buf', sz') => zlen buf' = zlen buf /\ sz' = sz + sizeof T * zlen l
  | Fail f => f = FBounds
  end.
Proof.
  intros Hl. assert (Hs : 0 <= sizeof T) by (unfold sizeof; lia).
  revert buf it sz. induction Hl as [|x l Hx Hl IH]; intros buf it sz Hit; cbn [fill_array].
  { rewrite zlen_nil. split; [done|lia]. }
  unfold put_obj at 1. pose proof (buf_write_total buf it (obj x) Hit) as Hw.
  destruct (buf_write buf it (obj x)) as [b|f]; cbn [rbind]; [|done]. destruct Hw as [Hb _].
  assert (Hit' : 0 <= it + sizeof T) by lia. specialize (IH b _ (sz + sizeof T) Hit').
  destruct (fill_array put_obj b (it + sizeof T) (sz + sizeof T) l) as [[b' sz']|f]; [|done].
  destruct IH as [-> ->]. rewrite zlen_cons. split; [done|lia].
Qed.

Lemma enc_stats_short {T} `{CStruct T} (l : list T) t buf :
  wf_stats l t -> zlen buf < stats_size (T := T) (zlen l) -> enc_stats buf l t = Fail FBounds.
Proof.
  intros (Hn & Hl & Ht) Hbuf. unfold enc_stats, stats_size, put in *. pose proof (zlen_nonneg l).
  assert (0 <= sizeof T * zlen l) by (unfold sizeof; apply Z.mul_nonneg_nonneg; lia).
  pose proof (buf_write_total buf 0 (le 4 (zlen l)) ltac:(lia)) as Hw1.
  destruct (buf_write buf 0 (le 4 (zlen l))) as [b|f]; cbn [rbind]; [|by rewrite Hw1].
  pose proof (fill_objs_total l b 4 4 Hl ltac:(lia)) as Hw2.
  destruct (fill_array put_obj b 4 4 l) as [[b' it]|f]; cbn [rbind]; [|by rewrite Hw2]. destruct Hw2 as [Hb ->].
  assert (Hit : 0 <= 4 + sizeof T * zlen l) by lia. pose proof (buf_write_total b' _ (le 8 t) Hit) as Hw3.
  destruct (buf_write b' (4 + sizeof T * zlen l) (le 8 t)) as [c|f]; cbn [rbind]; [|by rewrite Hw3].
  rewrite zlen_le in Hw3. destruct Hw1, Hw3. lia.
Qed.

Definition wf_gtp (m : Gtp.gtp_ind_msg_t) : Prop := wf_stats (Gtp.ngut m) (Gtp.tstamp m).
Definition wf_rlc (m : Rlc.rlc_ind_msg_t) : Prop := wf_stats (Rlc.rb m) (Rlc.tstamp m).
Definition wf_pdcp (m : Pdcp.pdcp_ind_msg_t) : Prop := wf_stats (Pdcp.rb m) (Pdcp.tstamp m).
(** The size of a MAC message is computed on 32 bits. *)
Definition wf_mac (m : Mac.mac_ind_msg_t) : Prop :=
  wf_stats (Mac.ue_stats m) (Mac.tstamp m)
  /\ stats_size (T := Mac.mac_ue_stats_impl_t) (zlen (Mac.ue_stats m)) < 2 ^ 32.

(** The outcome of a decoder on [buf], which is [size] bytes by the number of
    objects that it announces: a message is accepted when it is the encoding
    of a value, refused when it is below [min] bytes or longer than announced,
    and read past its end when it is shorter. *)
Definition stats_verdict {M} (enc : M -> res bytes) (wf : M -> Prop) (min size : Z) (buf : bytes) (r : res M) : Prop :=
  match r with
  | Ok m => wf m /\ enc m = Ok buf
  | Fail FExit => zlen buf < min \/ size < zlen buf
  | Fail FBounds => min <= zlen buf < size
  | Fail FFuel => False
  end.

Section StatsMessages.
Context (malloc : Z -> bytes).
Hypothesis malloc_len : forall n, 0 <= n -> zlen (malloc n) = n.

Lemma stats_size_pos {T} `{CStruct T} (l : list T) : 12 <= stats_size (T := T) (zlen l).
Proof.
  unfold stats_size. pose proof (zlen_nonneg l).
  assert (0 <= sizeof T * zlen l) by (unfold sizeof; apply Z.mul_nonneg_nonneg; lia). lia.
Qed.

Lemma gtp_enc_ok m : wf_gtp m -> gtp_enc_ind_msg_plain malloc m = Ok (lay_stats (Gtp.ngut m) (Gtp.tstamp m)).
Proof.
  intros. pose proof (stats_size_pos (Gtp.ngut m)). apply enc_stats_msg; [done..|]. apply malloc_len.
  unfold stats_size in *. lia.
Qed.

Lemma rlc_enc_ok m : wf_rlc m -> rlc_enc_ind_msg_plain malloc m = Ok (lay_stats (Rlc.rb m) (Rlc.tstamp m)).
Proof.
  intros. pose proof (stats_size_pos (Rlc.rb m)). apply enc_stats_msg; [done..|]. apply malloc_len.
  unfold stats_size in *. lia.
Qed.

Lemma pdcp_enc_ok m : wf_pdcp m -> pdcp_enc_ind_msg_plain malloc m = Ok (lay_stats (Pdcp.rb m) (Pdcp.tstamp m)).
Proof.
  intros. pose proof (stats_size_pos (Pdcp.rb m)).
  apply enc_stats_msg; [done|unfold stats_size; lia|]. apply malloc_len. unfold stats_size in *. lia.
Qed.

Lemma mac_enc_ok m : wf_mac m -> mac_enc_ind_msg_plain m = Ok (lay_stats (Mac.ue_stats m) (Mac.tstamp m)).
Proof.
  intros [Hwf Hsz]. pose proof (stats_size_pos (Mac.ue_stats m)). unfold mac_enc_ind_msg_plain.
  cbv zeta. rewrite wrap_small by (unfold stats_size in *; lia).
  apply enc_stats_msg; [done..|]. apply zlen_calloc. unfold stats_size in *. lia.
Qed.

Ltac dec_eq :=
  unfold dec_stats_all;
  repeat match goal with
  | |- context [rbind (dec_stats ?b)] => destruct (dec_stats b) as [[[? ?] ?]|]; cbn [rbind]
  | |- context [rbind (assert_ ?b)] => destruct (assert_ b); cbn [rbind]
  end; done.

Lemma gtp_dec_eq buf : gtp_dec_ind_msg_plain buf =
  let* _ := assert_ (sizeof_ind_msg - 8 <=? next_pow2 (zlen buf)) in
  let* (l, t) := dec_stats_all buf in Ok (Gtp.mk_msg l t).
Proof. unfold gtp_dec_ind_msg_plain. dec_eq. Qed.

Lemma rlc_dec_eq buf : rlc_dec_ind_msg_plain buf =
  let* _ := assert_ (sizeof_ind_msg - 8 <=? next_pow2 (zlen buf)) in
  let* (l, t) := dec_stats_all buf in Ok (Rlc.mk_msg l t).
Proof. unfold rlc_dec_ind_msg_plain. dec_eq. Qed.

Lemma pdcp_dec_eq buf : pdcp_dec_ind_msg_plain buf =
  let* _ := assert_ (4 + 8 <=? zlen buf) in let* (l, t) := dec_stats_all buf in Ok (Pdcp.mk_msg l t).
Proof. unfold pdcp_dec_ind_msg_plain. dec_eq. Qed.

Lemma mac_dec_eq buf : mac_dec_ind_msg_plain buf = let* (l, t) := dec_stats_all buf in Ok (Mac.mk_msg l t).
Proof. unfold mac_dec_ind_msg_plain. dec_eq. Qed.

Lemma assert_ge (a b : Z) : a <= b -> assert_ (a <=? b) = Ok tt.
Proof. intros. by rewrite (proj2 (Z.leb_le _ _)). Qed.

Lemma assert_lt (a b : Z) : b < a -> assert_ (a <=? b) = Fail FExit.
Proof. intros. by rewrite (proj2 (Z.leb_gt _ _)). Qed.

Lemma gtp_roundtrip m :
  wf_gtp m -> exists ba, gtp_enc_ind_msg_plain malloc m = Ok ba /\ gtp_dec_ind_msg_plain ba = Ok m.
Proof.
  intros Hm. eexists. split; [by apply gtp_enc_ok|]. rewrite gtp_dec_eq, zlen_lay_stats by apply Hm.
  pose proof (stats_size_pos (Gtp.ngut m)). assert (zlen (Gtp.ngut m) < 2 ^ 32) by apply Hm.
  rewrite next_pow2_check by (unfold stats_size in *; change (sizeof Gtp.gtp_ngu_t_stats_t) with 12 in *; lia).
  rewrite assert_ge by lia. cbn [rbind]. rewrite dec_stats_all_ok by done. by destruct m.
Qed.

Lemma rlc_roundtrip m :
  wf_rlc m -> exists ba, rlc_enc_ind_msg_plain malloc m = Ok ba /\ rlc_dec_ind_msg_plain ba = Ok m.
Proof.
  intros Hm. eexists. split; [by apply rlc_enc_ok|]. rewrite rlc_dec_eq, zlen_lay_stats by apply Hm.
  pose proof (stats_size_pos (Rlc.rb m)). assert (zlen (Rlc.rb m) < 2 ^ 32) by apply Hm.
  rewrite next_pow2_check by (unfold stats_size in *; change (sizeof Rlc.rlc_radio_bearer_stats_t) with 152 in *; lia).
  rewrite assert_ge by lia. cbn [rbind]. rewrite dec_stats_all_ok by done. by destruct m.
Qed.

Lemma pdcp_roundtrip m :
  wf_pdcp m -> exists ba, pdcp_enc_ind_msg_plain malloc m = Ok ba /\ pdcp_dec_ind_msg_plain ba = Ok m.
Proof.
  intros Hm. eexists. split; [by apply pdcp_enc_ok|]. rewrite pdcp_dec_eq, zlen_lay_stats by apply Hm.
  rewrite assert_ge by apply stats_size_pos. cbn [rbind]. rewrite dec_stats_all_ok by done. by destruct m.
Qed.

Lemma mac_roundtrip m : wf_mac m -> exists ba, mac_enc_ind_msg_plain m = Ok ba /\ mac_dec_ind_msg_plain ba = Ok m.
Proof.
  intros Hm. eexists. split; [by apply mac_enc_ok|]. rewrite mac_dec_eq, dec_stats_all_ok by apply Hm. by destruct m.
Qed.

(** An indication message of the GTP, RLC, PDCP or MAC model, with any number of
    objects, any statistics and any padding in them, is encoded without a
    write outside of the buffer and passes the final check of its layout; the
    decoder gives back the same message. *)
Theorem stats_messages_roundtrip g r p m :
  wf_gtp g -> wf_rlc r -> wf_pdcp p -> wf_mac m ->
  (exists ba, gtp_enc_ind_msg_plain malloc g = Ok ba /\ gtp_dec_ind_msg_plain ba = Ok g) /\
  (exists ba, rlc_enc_ind_msg_plain malloc r = Ok ba /\ rlc_dec_ind_msg_plain ba = Ok r) /\
  (exists ba, pdcp_enc_ind_msg_plain malloc p = Ok ba /\ pdcp_dec_ind_msg_plain ba = Ok p) /\
  (exists ba, mac_enc_ind_msg_plain m = Ok ba /\ mac_dec_ind_msg_plain ba = Ok m).
Proof.
  intros. split_and!; [by apply gtp_roundtrip|by apply rlc_roundtrip|by apply pdcp_roundtrip|by apply mac_roundtrip].
Qed.

Lemma stats_count_nonneg buf : Forall byte_ok buf -> 0 <= stats_count buf.
Proof. intros Hbuf. pose proof (unle_fits (take 4 buf) (Forall_take _ _ _ Hbuf)) as H. apply H. Qed.

Lemma stats_size_count {T} `{CStruct T} buf : Forall byte_ok buf -> 12 <= stats_size (T := T) (stats_count buf).
Proof.
  intros Hbuf%stats_count_nonneg. unfold stats_size.
  assert (0 <= sizeof T * stats_count buf) by (unfold sizeof; apply Z.mul_nonneg_nonneg; lia). lia.
Qed.

Lemma dec_stats_all_short {T} `{CStruct T} buf :
  Forall byte_ok buf -> zlen buf < 4 -> dec_stats_all (T := T) buf = Fail FBounds.
Proof.
  intros Hbuf Hlt. unfold dec_stats_all, dec_stats. pose proof (get_total 4 buf 0 Hbuf ltac:(lia)) as Hg.
  destruct (get 4 buf 0); [destruct Hg; lia|]. by destruct Hg as [-> _].
Qed.

(** From the verdict on the array to the one on the message. *)
Lemma stats_verdict_dec {T} `{CStruct T} {M} (enc : M -> res bytes) (wf : M -> Prop) (mk : list T -> Z -> M) min buf :
  Forall byte_ok buf -> 0 <= min <= 12 ->
  (forall l t, wf_stats l t -> lay_stats l t = buf -> wf (mk l t) /\ enc (mk l t) = Ok (lay_stats l t)) ->
  stats_verdict enc wf min (stats_size (T := T) (stats_count buf)) buf
    (let* _ := assert_ (min <=? zlen buf) in let* (l, t) := dec_stats_all buf in Ok (mk l t)).
Proof.
  intros Hbuf Hmin Henc. pose proof (stats_size_count (T := T) buf Hbuf) as Hsize.
  destruct (Z.le_gt_cases min (zlen buf)); [rewrite assert_ge by done|rewrite assert_lt by done; simpl; by left].
  cbn [rbind]. destruct (Z.lt_ge_cases (zlen buf) 4) as [Hlt|Hge]; [rewrite dec_stats_all_short by done; simpl; lia|].
  pose proof (dec_stats_all_verdict (T := T) buf Hbuf Hge) as Hv.
  destruct (dec_stats_all buf) as [[l t]|[]]; cbn [rbind stats_verdict]; [|by right|lia|done].
  destruct Hv as [Hwf Heq]. rewrite <- Heq. by apply Henc.
Qed.

(** C40. What the four decoders do with any bytes, as long as there are less than
    2^32 of them: exactly the encodings of messages are accepted, a message
    with more bytes than it announces is refused, and one with less makes the
    decoder read past the received bytes; only PDCP refuses all the messages
    that end before their time stamp could. *)
Theorem stats_decoders_verdict buf :
  Forall byte_ok buf -> zlen buf < 2 ^ 32 ->
  stats_verdict (gtp_enc_ind_msg_plain malloc) wf_gtp 9 (12 + 12 * stats_count buf) buf (gtp_dec_ind_msg_plain buf) /\
  stats_verdict (rlc_enc_ind_msg_plain malloc) wf_rlc 9 (12 + 152 * stats_count buf) buf (rlc_dec_ind_msg_plain buf) /\
  stats_verdict (pdcp_enc_ind_msg_plain malloc) wf_pdcp 12 (12 + 68 * stats_count buf) buf (pdcp_dec_ind_msg_plain buf) /\
  stats_verdict mac_enc_ind_msg_plain wf_mac 0 (12 + 176 * stats_count buf) buf (mac_dec_ind_msg_plain buf).
Proof.
  intros Hbuf Hlen. pose proof (zlen_nonneg buf).
  assert (Hsize : forall T `{CStruct T} k, sizeof T = k -> 12 + k * stats_count buf = stats_size (T := T) (stats_count buf))
    by (intros T ? k <-; unfold stats_size; lia).
  rewrite (Hsize Gtp.gtp_ngu_t_stats_t _ 12), (Hsize Rlc.rlc_radio_bearer_stats_t _ 152),
    (Hsize Pdcp.pdcp_radio_bearer_stats_t _ 68), (Hsize Mac.mac_ue_stats_impl_t _ 176) by done.
  split_and!.
  - rewrite gtp_dec_eq, next_pow2_check by lia. apply stats_verdict_dec; [done|lia|].
    intros l t Hwf _. split; [done|]. by apply (gtp_enc_ok (Gtp.mk_msg l t)).
  - rewrite rlc_dec_eq, next_pow2_check by lia. apply stats_verdict_dec; [done|lia|].
    intros l t Hwf _. split; [done|]. by apply (rlc_enc_ok (Rlc.mk_msg l t)).
  - rewrite pdcp_dec_eq. apply stats_verdict_dec; [done|lia|].
    intros l t Hwf _. split; [done|]. by apply (pdcp_enc_ok (Pdcp.mk_msg l t)).
  - rewrite mac_dec_eq.
    pose proof (stats_verdict_dec mac_enc_ind_msg_plain wf_mac Mac.mk_msg 0 buf Hbuf ltac:(lia)) as Hv.
    rewrite assert_ge in Hv by done. apply Hv. intros l t Hwf Heq.
    assert (Hmac : wf_mac (Mac.mk_msg l t)).
    { split; [done|]. rewrite <- Heq, zlen_lay_stats in Hlen by apply Hwf. exact Hlen. }
    split; [done|]. by apply (mac_enc_ok (Mac.mk_msg l t)).
Qed.

(** The MAC encoder computes the size of its buffer on 32 bits: a message of 4
    GiB or more is written out of the bounds of a buffer that is too short. *)
Theorem mac_enc_size_wraps m :
  wf_stats (Mac.ue_stats m) (Mac.tstamp m) -> 2 ^ 32 <= 12 + 176 * zlen (Mac.ue_stats m) ->
  mac_enc_ind_msg_plain m = Fail FBounds.
Proof.
  intros Hwf Hbig. unfold mac_enc_ind_msg_plain. cbv zeta. rewrite enc_stats_short; [done|done|].
  set (n := 4 + _ + 8). pose proof (wrap_range 32 n ltac:(lia)). rewrite zlen_calloc by lia.
  unfold stats_size. change (sizeof Mac.mac_ue_stats_impl_t) with 176. lia.
Qed.
End StatsMessages.

(** ** Examples *)

Definition stats_malloc (n : Z) : bytes := replicate (Z.to_nat n) 0xa5.

Lemma stats_malloc_len n : 0 <= n -> zlen (stats_malloc n) = n.
Proof. intros. unfold stats_malloc, zlen. rewrite length_replicate. lia. Qed.

Definition example_gtp : Gtp.gtp_ind_msg_t :=
  Gtp.mk_msg [Gtp.mk_ngut 0x4601 0xdeadbeef 5 1 0xa5a5; Gtp.mk_ngut 0x4602 7 9 2 0] (-1).
Definition example_rlc : Rlc.rlc_ind_msg_t := Rlc.mk_msg [] 1700000000000000.
Definition example_pdcp_rb (pkts bytes rbid : Z) : Pdcp.pdcp_radio_bearer_stats_t :=
  Pdcp.mk_rb pkts bytes 2 pkts bytes 1 0 0 0 0 0 pkts bytes pkts bytes 0x4601 0 rbid 0.
Definition example_pdcp : Pdcp.pdcp_ind_msg_t := Pdcp.mk_msg [example_pdcp_rb 2 3000 1; example_pdcp_rb 0 0 2] 42.
Definition example_ue (pucch_snr phr : Z) : Mac.mac_ue_stats_impl_t :=
  Mac.mk_ue 1 2 3 4 5 6 7 8 0x41200000 pucch_snr 0 0 1 2 3 4 5 1 2 3 4 5 6 7 0x4601 8 9 10 11 12 13 14 512 3 15 9 9 0 0
    phr 0xffffffffffff.
Definition example_mac : Mac.mac_ind_msg_t := Mac.mk_msg [example_ue 0x41a00000 (-7)] 42.

(** A closed well-formed message. *)
Ltac wf_closed :=
  repeat match goal with
  | |- _ /\ _ => split
  | |- Forall2 _ _ _ => unfold cs_sizes; simpl; repeat constructor; done
  | |- Forall _ _ => constructor
  | |- wf_obj _ => split
  | |- _ = _ => reflexivity
  | |- _ => vm_compute; by intuition congruence
  end.

Lemma stats_messages_roundtrip_witness :
  (exists ba, gtp_enc_ind_msg_plain stats_malloc example_gtp = Ok ba /\ gtp_dec_ind_msg_plain ba = Ok example_gtp) /\
  (exists ba, rlc_enc_ind_msg_plain stats_malloc example_rlc = Ok ba /\ rlc_dec_ind_msg_plain ba = Ok example_rlc) /\
  (exists ba, pdcp_enc_ind_msg_plain stats_malloc example_pdcp = Ok ba /\ pdcp_dec_ind_msg_plain ba = Ok example_pdcp) /\
  (exists ba, mac_enc_ind_msg_plain example_mac = Ok ba /\ mac_dec_ind_msg_plain ba = Ok example_mac).
Proof.
  apply (stats_messages_roundtrip stats_malloc stats_malloc_len); unfold wf_mac; unfold wf_gtp, wf_rlc, wf_pdcp, wf_stats; wf_closed.
Defined.

(** A PDCP message that announces two bearers and holds one. *)
Definition example_cut : bytes := le 4 2 ++ obj (example_pdcp_rb 2 3000 1) ++ le 8 42.

Lemma stats_decoders_verdict_witness :
  stats_verdict (gtp_enc_ind_msg_plain stats_malloc) wf_gtp 9 (12 + 12 * stats_count example_cut) example_cut
    (gtp_dec_ind_msg_plain example_cut) /\
  stats_verdict (rlc_enc_ind_msg_plain stats_malloc) wf_rlc 9 (12 + 152 * stats_count example_cut) example_cut
    (rlc_dec_ind_msg_plain example_cut) /\
  stats_verdict (pdcp_enc_ind_msg_plain stats_malloc) wf_pdcp 12 (12 + 68 * stats_count example_cut) example_cut
    (pdcp_dec_ind_msg_plain example_cut) /\
  stats_verdict mac_enc_ind_msg_plain wf_mac 0 (12 + 176 * stats_count example_cut) example_cut
    (mac_dec_ind_msg_plain example_cut).
Proof.
  apply (stats_decoders_verdict stats_malloc stats_malloc_len); [|done].
  repeat constructor; vm_compute; by intuition congruence.
Defined.

Example example_cut_overrun :
  pdcp_dec_ind_msg_plain example_cut = Fail FBounds /\ gtp_dec_ind_msg_plain example_cut = Fail FExit.
Proof. done. Qed.
