(* ===== verification/StatsIsac.v ===== *)
(** The ISAC service model: its decoder checks its bounds, so it accepts the
    encodings of messages and stops on everything else without leaving the
    received bytes. *)

From S2P Require Import Prelude SmCodec SmStruct StatsData StatsCodec StatsProps.
Import Isac.

(** ** The payload of a snapshot *)

Definition is_i16 (v : Z) : Prop := - 2 ^ 15 <= v < 2 ^ 15.

Lemma s16_range v : is_i16 (s16 v).
Proof. unfold is_i16, s16. pose proof (Z.mod_pos_bound (v + 2 ^ 15) (2 ^ 16)). lia. Qed.

Lemma s16_u16 v : is_i16 v -> s16 (u16 v) = v.
Proof. unfold is_i16, s16, wrap. intros. rewrite Zplus_mod_idemp_l, Z.mod_small by lia. lia. Qed.

Lemma words_size_replicate n k : words_size (replicate n k) = (n * k)%nat.
Proof. induction n as [|n IH]; simpl; [done|]. rewrite <- IH. unfold words_size. lia. Qed.

Lemma lay_iq_fits iq : Forall2 fits (replicate (length iq) 2%nat) (map u16 iq).
Proof.
  induction iq as [|v iq IH]; [constructor|]. constructor; [|done]. apply (wrap_range 16). lia.
Qed.

Lemma zlen_lay_iq iq : zlen (lay_iq iq) = 2 * zlen iq.
Proof.
  unfold zlen, lay_iq. rewrite length_lay_words, words_size_replicate by apply lay_iq_fits. lia.
Qed.

Lemma unlay_lay_iq iq : Forall is_i16 iq -> unlay_iq (lay_iq iq) = iq.
Proof.
  intros Hiq. unfold unlay_iq.
  replace (length (lay_iq iq) / 2)%nat with (length iq)
    by (pose proof (zlen_lay_iq iq); unfold zlen in *; apply Nat.div_unique_exact; lia).
  unfold lay_iq. rewrite split_lay_words by apply lay_iq_fits. rewrite map_map.
  induction Hiq as [|v iq Hv Hiq IH]; simpl; [done|]. by rewrite s16_u16, IH.
Qed.

Lemma lay_unlay_iq d n :
  Forall byte_ok d -> zlen d = 2 * n -> lay_iq (unlay_iq d) = d /\ Forall is_i16 (unlay_iq d) /\ zlen (unlay_iq d) = n.
Proof.
  intros Hd Hn. set (k := (length d / 2)%nat).
  assert (Hk : length d = (k * 2)%nat).
  { subst k. unfold zlen in Hn. replace (length d) with (Z.to_nat n * 2)%nat by lia. by rewrite Nat.div_mul. }
  destruct (split_words_ok (replicate k 2%nat) d Hd) as [Hf He]; [by rewrite words_size_replicate|].
  unfold lay_iq, unlay_iq. fold k. set (vs := split_words (replicate k 2%nat) d) in *. clearbody vs.
  assert (Hlen : length vs = k) by (rewrite <- (Forall2_length _ _ _ Hf), length_replicate; done).
  split_and!.
  - rewrite length_map, Hlen, map_map. rewrite <- He. f_equal. clear - Hf.
    revert Hf. generalize k. induction vs as [|v vs IH]; intros k' Hf; [done|].
    destruct k' as [|k']; inversion Hf as [|???? Hv Hvs]; subst. simpl. rewrite u16_s16 by done. by rewrite (IH k').
  - apply Forall_forall. intros v Hv%list_elem_of_In%in_map_iff. destruct Hv as (? & <- & _). apply s16_range.
  - unfold zlen in *. rewrite length_map. lia.
Qed.

(** ** Snapshots *)

Definition lay_snap (s : isac_csi_snap_t) : bytes := obj (meta s) ++ lay_iq (iq s).

Definition wf_snap (s : isac_csi_snap_t) : Prop :=
  wf_obj (meta s) /\ zlen (iq s) = isac_snap_iq_len (meta s) /\ Forall is_i16 (iq s).

Lemma iq_len_range m : 0 <= isac_snap_iq_len m < 2 ^ 32.
Proof. unfold isac_snap_iq_len. apply wrap_range. lia. Qed.

Lemma zlen_lay_snap s : wf_snap s -> zlen (lay_snap s) = 56 + 2 * isac_snap_iq_len (meta s).
Proof.
  intros (Hm & Hiq & _). unfold lay_snap. rewrite zlen_app, zlen_obj, zlen_lay_iq, Hiq by done. done.
Qed.

#[export] Instance isac_put_snap_fills : Fills lay_snap wf_snap isac_put_snap.
Proof.
  intros buf it s Hwf Hit Hroom. pose proof (zlen_lay_snap s Hwf) as Hlen. destruct Hwf as (Hm & Hiq & Hi).
  pose proof (iq_len_range (meta s)). rewrite Hlen in Hroom.
  change 56 with (sizeof isac_csi_meta_t) in Hroom, Hlen.
  unfold isac_put_snap. rewrite <- (splice_nil buf it) at 1 by done.
  rewrite (fills_app obj wf_obj put_obj) by (rewrite ?zlen_obj by done; done || (autorewrite with zlen; lia)). cbn [rbind].
  rewrite zlen_obj by done. rewrite app_nil_l.
  unfold lay_snap in *. case_bool_.
  - rewrite bool_decide_false by (intros Hnil; rewrite Hnil, zlen_nil in Hiq; lia). cbn [negb assert_ rbind].
    replace (isac_snap_iq_len (meta s) * 2) with (zlen (lay_iq (iq s))) by (rewrite zlen_lay_iq; lia).
    rewrite buf_read_all. cbn [rbind].
    rewrite write_app by (rewrite ?zlen_obj, ?zlen_lay_iq by done; lia). cbn [rbind].
    by rewrite zlen_app, zlen_obj.
  - assert (Hnil : iq s = []) by (apply zlen_0_nil; lia). rewrite Hnil.
    change (lay_iq []) with (@nil Z). rewrite app_nil_r, zlen_obj by done. done.
Qed.

#[export] Instance isac_get_snap_reads : Reads lay_snap wf_snap isac_get_snap.
Proof.
  intros buf it s Hwf Hat. pose proof (zlen_lay_snap s Hwf) as Hlen. pose proof (at_pos_room _ _ _ Hat) as [Hit Hroom].
  destruct Hwf as (Hm & Hiq & Hi). pose proof (iq_len_range (meta s)). unfold isac_get_snap.
  change (sizeof isac_csi_meta_t) with 56. rewrite assert_ge by lia. cbn [rbind].
  apply at_pos_app in Hat as [Hat1 Hat2]. rewrite (reads _ _ (meta s)) by done. cbn [rbind].
  rewrite zlen_obj in * by done. change (sizeof isac_csi_meta_t) with 56 in *.
  rewrite Hlen. case_bool_.
  - rewrite assert_ge by lia. cbn [rbind].
    replace (isac_snap_iq_len (meta s) * 2) with (zlen (lay_iq (iq s))) by (rewrite zlen_lay_iq; lia).
    rewrite (buf_read_at _ _ _ Hat2). cbn [rbind]. rewrite unlay_lay_iq by done.
    apply ok_pair_eq; [by destruct s|]. rewrite zlen_lay_iq. lia.
  - apply ok_pair_eq; [|lia]. destruct s as [m q]. simpl in *. by rewrite (zlen_0_nil q) by lia.
Qed.

(** The bounds are checked before each read. *)
#[export] Instance isac_get_snap_total : Total lay_snap wf_snap isac_get_snap FExit.
Proof.
  intros buf it Hbuf Hit. unfold isac_get_snap. unfold assert_ at 1. change (sizeof isac_csi_meta_t) with 56.
  destruct (it + 56 <=? zlen buf) eqn:Hm; cbn [rbind]; [|done].
  pose proof (get_objs_total (T := isac_csi_meta_t) 1 buf it 0 Hbuf Hit) as Hr. cbn [read_array] in Hr.
  pose proof (total (lay := obj) (read := get_obj (T := isac_csi_meta_t)) buf it Hbuf Hit) as Ht.
  destruct (get_obj buf it) as [[m n]|g]; cbn [rbind] in *.
  2: { destruct Hr as [_ Hr]. change (sizeof isac_csi_meta_t) with 56 in Hr. lia. }
  clear Hr. destruct Ht as (Hwf & -> & Hroom & Hat). rewrite zlen_obj in * by done.
  change (sizeof isac_csi_meta_t) with 56 in *. pose proof (iq_len_range m). case_bool_.
  - unfold assert_. case_bool_; cbn [rbind]; [|done].
    destruct (buf_read buf (it + 56) (isac_snap_iq_len m * 2)) as [d|f] eqn:Hd; cbn [rbind].
    2: { exfalso. rewrite buf_read_ok in Hd by lia. done. }
    pose proof (buf_read_len _ _ _ _ Hd) as Hl.
    assert (Hok : Forall byte_ok d).
    { apply buf_read_inv in Hd as (_ & _ & _ & ->). by apply Forall_take, Forall_drop. }
    destruct (lay_unlay_iq d (isac_snap_iq_len m) Hok ltac:(lia)) as (Hlay & Hi & Hn).
    assert (Hws : wf_snap (mk_snap m (unlay_iq d))) by done.
    split_and!; [done|rewrite zlen_lay_snap by done; cbn [meta]; lia|lia|]. unfold lay_snap. cbn [meta iq]. rewrite Hlay.
    apply at_pos_join; [done|]. rewrite zlen_obj by done. apply at_pos_read. rewrite Hl. exact Hd.
  - assert (Hz : isac_snap_iq_len m = 0) by lia.
    assert (Hws : wf_snap (mk_snap m [])) by (split_and!; [done|by symmetry|constructor]).
    split_and!; [done|rewrite zlen_lay_snap by done; cbn [meta]; lia|lia|]. unfold lay_snap. cbn [meta iq].
    change (lay_iq []) with (@nil Z). by rewrite app_nil_r.
Qed.

(** ** Messages *)

Definition wf_isac (m : isac_ind_msg_t) : Prop :=
  zlen (snap m) < 2 ^ 32 /\ Forall wf_snap (snap m) /\ fits 4 (dropped_snap m) /\ - 2 ^ 63 <= tstamp m < 2 ^ 63.

Definition lay_isac (m : isac_ind_msg_t) : bytes :=
  le 4 (zlen (snap m)) ++ le 4 (dropped_snap m) ++ le 8 (tstamp m) ++ lay_array lay_snap (snap m).

Lemma isac_size l sz :
  Forall wf_snap l ->
  fold_left (fun len s => len + (sizeof isac_csi_meta_t + isac_snap_iq_len (meta s) * 2)) l sz
  = sz + zlen (lay_array lay_snap l).
Proof.
  intros Hl. revert sz. induction Hl as [|s l Hs Hl IH]; intros sz; simpl; [unfold zlen; simpl; lia|].
  change (lay_array lay_snap (s :: l)) with (lay_snap s ++ lay_array lay_snap l).
  rewrite IH, zlen_app, (zlen_lay_snap s) by done. change (sizeof isac_csi_meta_t) with 56. lia.
Qed.

Lemma isac_enc_ok m : wf_isac m -> isac_enc_ind_msg_plain m = Ok (lay_isac m).
Proof.
  intros (Hn & Hl & Hd & Ht). unfold isac_enc_ind_msg_plain. cbv zeta. rewrite isac_size by done.
  pose proof (zlen_nonneg (lay_array lay_snap (snap m))). set (len := 4 + 4 + 8 + _).
  assert (Hlen : zlen (calloc len) = len) by (apply zlen_calloc; lia).
  rewrite <- (splice_nil (calloc len) 0) by done. do 3 wr.
  wr_array lay_snap.
  rewrite (proj2 (Z.eqb_eq _ len)) by lia. cbn [assert_ rbind]. f_equal.
  unfold lay_isac. rewrite splice_all by (autorewrite with codec; unfold len in *; lia).
  by rewrite <- !app_assoc.
Qed.

Lemma isac_dec_at m buf : wf_isac m -> at_pos buf 0 (lay_isac m) -> zlen buf = zlen (lay_isac m) ->
  isac_dec_ind_msg_plain buf = Ok m.
Proof.
  intros (Hn & Hl & Hd & Ht) Hat Hlen. unfold isac_dec_ind_msg_plain, lay_isac in *.
  pose proof (zlen_nonneg (lay_array lay_snap (snap m))). pose proof (zlen_nonneg (snap m)).
  autorewrite with codec in Hlen. rewrite assert_ge by lia. cbn [rbind].
  rewrite <- (le_mod 8 (tstamp m)) in Hat.
  assert (Hfn : fits 4 (zlen (snap m))) by (unfold fits; lia).
  assert (Hft : fits 8 (tstamp m mod 256 ^ Z.of_nat 8)) by (apply Z.mod_pos_bound; lia).
  apply at_pos_app in Hat as [H1 Hat]. apply at_pos_app in Hat as [H2 Hat]. apply at_pos_app in Hat as [H3 Hat].
  rewrite !zlen_le, ?Z.add_0_l in *. change (Z.of_nat 4) with 4 in *. change (Z.of_nat 8) with 8 in *. rewrite ?Z.add_0_l in *.
  rewrite (get_fits _ _ _ _ H1) by done. cbn [rbind]. rewrite (get_fits _ _ _ _ H2) by done. cbn [rbind].
  rewrite (get_fits _ _ _ _ H3) by done. cbn [rbind].
  replace (Z.to_nat (zlen (snap m))) with (length (snap m)) by (unfold zlen; lia).
  rewrite (read_array_ok lay_snap wf_snap isac_get_snap) by done. cbn [rbind].
  rewrite (proj2 (Z.eqb_eq _ (zlen buf))) by lia. cbn [assert_ rbind].
  change (256 ^ Z.of_nat 8) with (2 ^ 64). rewrite s64_u64 by done. by destruct m.
Qed.

Lemma isac_dec_ok m : wf_isac m -> isac_dec_ind_msg_plain (lay_isac m) = Ok m.
Proof. intros. apply isac_dec_at; [done|apply at_pos_whole|done]. Qed.

Lemma isac_roundtrip m : wf_isac m -> exists ba, isac_enc_ind_msg_plain m = Ok ba /\ isac_dec_ind_msg_plain ba = Ok m.
Proof. exists (lay_isac m). split; [by apply isac_enc_ok|by apply isac_dec_ok]. Qed.

(** C31. An ISAC indication message, with any snapshots, is encoded within its
    buffer and decoded to the same message.  On any bytes at all, the decoder
    stays inside of them: either they are the encoding of the message it
    returns, or no message is encoded by them and it stops. *)
Theorem isac_decoder_exact m buf :
  wf_isac m -> Forall byte_ok buf ->
  (exists ba, isac_enc_ind_msg_plain m = Ok ba /\ isac_dec_ind_msg_plain ba = Ok m) /\
  match isac_dec_ind_msg_plain buf with
  | Ok m' => wf_isac m' /\ isac_enc_ind_msg_plain m' = Ok buf
  | Fail f => f = FExit /\ forall m', wf_isac m' -> isac_enc_ind_msg_plain m' <> Ok buf
  end.
Proof.
  intros Hm Hbuf. split; [by apply isac_roundtrip|].
  assert (Hrt : forall m', wf_isac m' -> isac_enc_ind_msg_plain m' = Ok buf -> isac_dec_ind_msg_plain buf = Ok m').
  { intros m' Hm'. rewrite isac_enc_ok by done. intros [= <-]. by apply isac_dec_ok. }
  assert (Hv : match isac_dec_ind_msg_plain buf with
               | Ok m' => wf_isac m' /\ isac_enc_ind_msg_plain m' = Ok buf
               | Fail f => f = FExit
               end).
  2: { destruct (isac_dec_ind_msg_plain buf) as [m'|f] eqn:Hdec; [done|]. split; [done|].
       intros m' Hm' He. apply Hrt in He; [|done]. done. }
  clear m Hm Hrt. unfold isac_dec_ind_msg_plain. unfold assert_ at 1.
  destruct (4 + 4 + 8 <=? zlen buf) eqn:H16; cbn [rbind]; [|done].
  pose proof (get_total 4 buf 0 Hbuf ltac:(lia)) as Hn. destruct (get 4 buf 0) as [n|]; cbn [rbind]; [|lia].
  pose proof (get_total 4 buf 4 Hbuf ltac:(lia)) as Hd. destruct (get 4 buf 4) as [d|]; cbn [rbind]; [|lia].
  pose proof (get_total 8 buf (4 + 4) Hbuf ltac:(lia)) as Ht. destruct (get 8 buf (4 + 4)) as [t|]; cbn [rbind]; [|lia].
  destruct Hn as (Hn & _ & Hatn), Hd as (Hd & _ & Hatd), Ht as (Ht & _ & Hatt).
  pose proof (read_array_total lay_snap wf_snap isac_get_snap FExit (Z.to_nat n) buf (4 + 4 + 8) (4 + 4 + 8) Hbuf ltac:(lia)) as Ha.
  destruct (read_array isac_get_snap buf (4 + 4 + 8) (4 + 4 + 8) (Z.to_nat n)) as [[l it]|g]; cbn [rbind]; [|done].
  destruct Ha as (Hlen & Hl & -> & Hroom & Hat). unfold assert_. case_bool_; cbn [rbind]; [|done].
  assert (Hzl : zlen l = n) by (unfold fits in Hn; unfold zlen; lia).
  assert (Hwf : wf_isac (mk_msg l d (s64 t))).
  { split_and!; cbn [snap dropped_snap tstamp]; [|done|done|apply s64_range..]. rewrite Hzl. apply Hn. }
  split; [done|]. rewrite isac_enc_ok by done. f_equal. apply at_pos_all.
  - unfold lay_isac. cbn [snap dropped_snap tstamp]. rewrite Hzl, le_s64.
    apply at_pos_join; [done|]. rewrite zlen_le4. apply at_pos_join; [done|]. rewrite zlen_le4.
    apply at_pos_join; [done|]. done.
  - unfold lay_isac. cbn [snap dropped_snap tstamp]. autorewrite with codec. lia.
Qed.

(** The number of values of the payload is a product on 32 bits: a snapshot
    whose announced dimensions multiply to 2^32 carries no payload. *)
Lemma isac_iq_len_wraps m :
  isac_snap_iq_len m = (2 * nb_rx_ant m * nb_ue_ports m * nb_sc m) mod 2 ^ 32.
Proof.
  unfold isac_snap_iq_len, wrap. by rewrite Zmult_mod_idemp_l, <- Z.mul_assoc, Zmult_mod_idemp_l, Z.mul_assoc.
Qed.

Example isac_iq_len_zero : isac_snap_iq_len (mk_meta 0 0 0 (2 ^ 29) 0 0 0 0 0 0 0 0 0 0 2 2 0 0 0) = 0.
Proof. done. Qed.

(** ** Example *)

Definition example_meta (ant ports sc : Z) : isac_csi_meta_t :=
  mk_meta (-5) 3700000000 1 sc 0 30000 512 7 0x4601 (-32768) 0xffff 273 272 1 ant ports 2 0 0xa5a5a5a5.
Definition example_isac : isac_ind_msg_t :=
  mk_msg [mk_snap (example_meta 2 1 1) [1; -2; 32767; -32768]; mk_snap (example_meta 0 1 3264) []] 3 42.

(** A message whose only snapshot is cut. *)
Definition example_isac_cut : bytes := le 4 1 ++ le 4 0 ++ le 8 42 ++ obj (example_meta 2 1 1) ++ [1; 0].

Lemma isac_decoder_exact_witness :
  (exists ba, isac_enc_ind_msg_plain example_isac = Ok ba /\ isac_dec_ind_msg_plain ba = Ok example_isac) /\
  match isac_dec_ind_msg_plain example_isac_cut with
  | Ok m' => wf_isac m' /\ isac_enc_ind_msg_plain m' = Ok example_isac_cut
  | Fail f => f = FExit /\ forall m', wf_isac m' -> isac_enc_ind_msg_plain m' <> Ok example_isac_cut
  end.
Proof.
  apply (isac_decoder_exact example_isac example_isac_cut).
  - unfold wf_isac. wf_closed; unfold wf_snap; wf_closed.
  - repeat constructor; vm_compute; by intuition congruence.
Defined.
