(* ===== verification/StatsIe.v ===== *)
(** Copy and comparison of the information elements of the statistics service
    models (flexric/src/sm/{gtp,rlc,pdcp,mac,isac}_sm/ie/*_data_ie.c).

    A copy that assigns the members of a struct leaves the padding of the new
    object unspecified: an argument [any] stands for it.  Allocation does not
    fail. *)

From S2P Require Import Prelude SmCodec SliceIe EqFloat SmStruct StatsData StatsCodec.

(** ** GTP *)

Definition cp_gtp_ind_msg (src : Gtp.gtp_ind_msg_t) : Gtp.gtp_ind_msg_t :=
  Gtp.mk_msg (Gtp.ngut src) (Gtp.tstamp src).

Definition eq_ngut (a b : Gtp.gtp_ngu_t_stats_t) : bool :=
  (Gtp.rnti a =? Gtp.rnti b) && (Gtp.teidgnb a =? Gtp.teidgnb b) && (Gtp.qfi a =? Gtp.qfi b)
  && (Gtp.teidupf a =? Gtp.teidupf b).

Definition eq_gtp_ind_msg (m0 m1 : Gtp.gtp_ind_msg_t) : res bool :=
  if negb (Gtp.tstamp m0 =? Gtp.tstamp m1) || negb (zlen (Gtp.ngut m0) =? zlen (Gtp.ngut m1)) then Ok false
  else all_eq (fun a b => Ok (eq_ngut a b)) (Gtp.ngut m0) (Gtp.ngut m1).

(** ** RLC *)

Definition cp_rlc_ind_msg (src : Rlc.rlc_ind_msg_t) : Rlc.rlc_ind_msg_t :=
  Rlc.mk_msg (Rlc.rb src) (Rlc.tstamp src).

(** [txsdu_avg_time_to_tx] and [txsdu_wt_us] are not compared. *)
Definition eq_rlc_rb (a b : Rlc.rlc_radio_bearer_stats_t) : bool :=
  (Rlc.txpdu_pkts a =? Rlc.txpdu_pkts b) && (Rlc.txpdu_bytes a =? Rlc.txpdu_bytes b)
  && (Rlc.txpdu_wt_ms a =? Rlc.txpdu_wt_ms b)
  && (Rlc.txpdu_dd_pkts a =? Rlc.txpdu_dd_pkts b) && (Rlc.txpdu_dd_bytes a =? Rlc.txpdu_dd_bytes b)
  && (Rlc.txpdu_retx_pkts a =? Rlc.txpdu_retx_pkts b) && (Rlc.txpdu_retx_bytes a =? Rlc.txpdu_retx_bytes b)
  && (Rlc.txpdu_segmented a =? Rlc.txpdu_segmented b)
  && (Rlc.txpdu_status_pkts a =? Rlc.txpdu_status_pkts b) && (Rlc.txpdu_status_bytes a =? Rlc.txpdu_status_bytes b)
  && (Rlc.txbuf_occ_bytes a =? Rlc.txbuf_occ_bytes b) && (Rlc.txbuf_occ_pkts a =? Rlc.txbuf_occ_pkts b)
  && (Rlc.rxpdu_pkts a =? Rlc.rxpdu_pkts b) && (Rlc.rxpdu_bytes a =? Rlc.rxpdu_bytes b)
  && (Rlc.rxpdu_dup_pkts a =? Rlc.rxpdu_dup_pkts b) && (Rlc.rxpdu_dup_bytes a =? Rlc.rxpdu_dup_bytes b)
  && (Rlc.rxpdu_dd_pkts a =? Rlc.rxpdu_dd_pkts b) && (Rlc.rxpdu_dd_bytes a =? Rlc.rxpdu_dd_bytes b)
  && (Rlc.rxpdu_ow_pkts a =? Rlc.rxpdu_ow_pkts b) && (Rlc.rxpdu_ow_bytes a =? Rlc.rxpdu_ow_bytes b)
  && (Rlc.rxpdu_status_pkts a =? Rlc.rxpdu_status_pkts b) && (Rlc.rxpdu_status_bytes a =? Rlc.rxpdu_status_bytes b)
  && (Rlc.rxbuf_occ_bytes a =? Rlc.rxbuf_occ_bytes b) && (Rlc.rxbuf_occ_pkts a =? Rlc.rxbuf_occ_pkts b)
  && (Rlc.txsdu_pkts a =? Rlc.txsdu_pkts b) && (Rlc.txsdu_bytes a =? Rlc.txsdu_bytes b)
  && (Rlc.rxsdu_pkts a =? Rlc.rxsdu_pkts b) && (Rlc.rxsdu_bytes a =? Rlc.rxsdu_bytes b)
  && (Rlc.rxsdu_dd_pkts a =? Rlc.rxsdu_dd_pkts b) && (Rlc.rxsdu_dd_bytes a =? Rlc.rxsdu_dd_bytes b)
  && (Rlc.rnti a =? Rlc.rnti b) && (Rlc.mode a =? Rlc.mode b) && (Rlc.rbid a =? Rlc.rbid b).

Definition eq_rlc_ind_msg (m0 m1 : Rlc.rlc_ind_msg_t) : res bool :=
  if negb (Rlc.tstamp m0 =? Rlc.tstamp m1) || negb (zlen (Rlc.rb m0) =? zlen (Rlc.rb m1)) then Ok false
  else all_eq (fun a b => Ok (eq_rlc_rb a b)) (Rlc.rb m0) (Rlc.rb m1).

(** ** PDCP *)

Definition check_pdcp_mode (mode : Z) : res unit := assert_ ((mode =? 0) || (mode =? 1) || (mode =? 2)).
Definition check_pdcp_rbid (rbid : Z) : res unit := assert_ (rbid <? 11).

Definition check_pdcp_bearer (rb : Pdcp.pdcp_radio_bearer_stats_t) : res unit :=
  let* _ := assert_ (Pdcp.txpdu_pkts rb <=? Pdcp.txpdu_bytes rb) in
  let* _ := assert_ (Pdcp.rxpdu_pkts rb <=? Pdcp.rxpdu_bytes rb) in
  let* _ := assert_ (Pdcp.txsdu_pkts rb <=? Pdcp.txsdu_bytes rb) in
  assert_ (Pdcp.rxsdu_pkts rb <=? Pdcp.rxsdu_bytes rb).

Fixpoint check_pdcp_rbs (l : list Pdcp.pdcp_radio_bearer_stats_t) : res unit :=
  match l with
  | [] => Ok tt
  | rb :: l =>
      let* _ := check_pdcp_mode (Pdcp.mode rb) in
      let* _ := check_pdcp_rbid (Pdcp.rbid rb) in
      let* _ := check_pdcp_bearer rb in
      check_pdcp_rbs l
  end.

Definition check_pdcp_invariants (msg : Pdcp.pdcp_ind_msg_t) : res unit := check_pdcp_rbs (Pdcp.rb msg).

(** The memory is released after the check. *)
Definition free_pdcp_ind_msg (msg : Pdcp.pdcp_ind_msg_t) : res unit := check_pdcp_invariants msg.

Definition cp_pdcp_ind_msg (src : Pdcp.pdcp_ind_msg_t) : res Pdcp.pdcp_ind_msg_t :=
  let* _ := check_pdcp_invariants src in
  Ok (Pdcp.mk_msg (Pdcp.rb src) (Pdcp.tstamp src)).

Definition eq_pdcp_rb (a b : Pdcp.pdcp_radio_bearer_stats_t) : bool :=
  (Pdcp.txpdu_pkts a =? Pdcp.txpdu_pkts b) && (Pdcp.txpdu_bytes a =? Pdcp.txpdu_bytes b)
  && (Pdcp.txpdu_sn a =? Pdcp.txpdu_sn b)
  && (Pdcp.rxpdu_pkts a =? Pdcp.rxpdu_pkts b) && (Pdcp.rxpdu_bytes a =? Pdcp.rxpdu_bytes b)
  && (Pdcp.rxpdu_sn a =? Pdcp.rxpdu_sn b)
  && (Pdcp.rxpdu_oo_pkts a =? Pdcp.rxpdu_oo_pkts b) && (Pdcp.rxpdu_oo_bytes a =? Pdcp.rxpdu_oo_bytes b)
  && (Pdcp.rxpdu_dd_pkts a =? Pdcp.rxpdu_dd_pkts b) && (Pdcp.rxpdu_dd_bytes a =? Pdcp.rxpdu_dd_bytes b)
  && (Pdcp.rxpdu_ro_count a =? Pdcp.rxpdu_ro_count b)
  && (Pdcp.txsdu_pkts a =? Pdcp.txsdu_pkts b) && (Pdcp.txsdu_bytes a =? Pdcp.txsdu_bytes b)
  && (Pdcp.rxsdu_pkts a =? Pdcp.rxsdu_pkts b) && (Pdcp.rxsdu_bytes a =? Pdcp.rxsdu_bytes b)
  && (Pdcp.rnti a =? Pdcp.rnti b) && (Pdcp.mode a =? Pdcp.mode b) && (Pdcp.rbid a =? Pdcp.rbid b).

(** A difference is an [assert(0 != 0)]. *)
Definition eq_pdcp_ind_msg (m0 m1 : Pdcp.pdcp_ind_msg_t) : res bool :=
  let* _ := check_pdcp_invariants m0 in
  let* _ := check_pdcp_invariants m1 in
  if negb (Pdcp.tstamp m0 =? Pdcp.tstamp m1) || negb (zlen (Pdcp.rb m0) =? zlen (Pdcp.rb m1)) then Fail FExit
  else all_eq (fun a b => if eq_pdcp_rb a b then Ok true else Fail FExit) (Pdcp.rb m0) (Pdcp.rb m1).

(** ** MAC *)

Definition cp_mac_ue_stats_impl (any : Z) (src : Mac.mac_ue_stats_impl_t) : Mac.mac_ue_stats_impl_t :=
  {| src with Mac.pad := any |}.

Definition cp_mac_ind_msg (any : Z) (src : Mac.mac_ind_msg_t) : Mac.mac_ind_msg_t :=
  Mac.mk_msg (map (cp_mac_ue_stats_impl any) (Mac.ue_stats src)) (Mac.tstamp src).

(** The members that are compared with [!=]. *)
Definition eq_mac_counters (a b : Mac.mac_ue_stats_impl_t) : bool :=
  (Mac.dl_aggr_tbs a =? Mac.dl_aggr_tbs b) && (Mac.ul_aggr_tbs a =? Mac.ul_aggr_tbs b)
  && (Mac.dl_aggr_bytes_sdus a =? Mac.dl_aggr_bytes_sdus b) && (Mac.ul_aggr_bytes_sdus a =? Mac.ul_aggr_bytes_sdus b)
  && (Mac.dl_curr_tbs a =? Mac.dl_curr_tbs b) && (Mac.ul_curr_tbs a =? Mac.ul_curr_tbs b)
  && (Mac.dl_sched_rb a =? Mac.dl_sched_rb b) && (Mac.ul_sched_rb a =? Mac.ul_sched_rb b)
  && (Mac.rnti a =? Mac.rnti b) && (Mac.dl_aggr_prb a =? Mac.dl_aggr_prb b) && (Mac.ul_aggr_prb a =? Mac.ul_aggr_prb b)
  && (Mac.dl_aggr_sdus a =? Mac.dl_aggr_sdus b) && (Mac.ul_aggr_sdus a =? Mac.ul_aggr_sdus b)
  && (Mac.dl_aggr_retx_prb a =? Mac.dl_aggr_retx_prb b) && (Mac.ul_aggr_retx_prb a =? Mac.ul_aggr_retx_prb b)
  && (Mac.wb_cqi a =? Mac.wb_cqi b) && (Mac.dl_mcs1 a =? Mac.dl_mcs1 b) && (Mac.ul_mcs1 a =? Mac.ul_mcs1 b)
  && (Mac.dl_mcs2 a =? Mac.dl_mcs2 b) && (Mac.ul_mcs2 a =? Mac.ul_mcs2 b) && (Mac.phr a =? Mac.phr b)
  && (Mac.bsr a =? Mac.bsr b) && float_eq (Mac.dl_bler a) (Mac.dl_bler b) && float_eq (Mac.ul_bler a) (Mac.ul_bler b)
  && (Mac.dl_num_harq a =? Mac.dl_num_harq b)
  && (Mac.dl_harq0 a =? Mac.dl_harq0 b) && (Mac.dl_harq1 a =? Mac.dl_harq1 b) && (Mac.dl_harq2 a =? Mac.dl_harq2 b)
  && (Mac.dl_harq3 a =? Mac.dl_harq3 b) && (Mac.dl_harq4 a =? Mac.dl_harq4 b)
  && (Mac.ul_num_harq a =? Mac.ul_num_harq b)
  && (Mac.ul_harq0 a =? Mac.ul_harq0 b) && (Mac.ul_harq1 a =? Mac.ul_harq1 b) && (Mac.ul_harq2 a =? Mac.ul_harq2 b)
  && (Mac.ul_harq3 a =? Mac.ul_harq3 b) && (Mac.ul_harq4 a =? Mac.ul_harq4 b)
  && (Mac.frame a =? Mac.frame b) && (Mac.slot a =? Mac.slot b).

(** The last comparison is of [ue0] with itself. *)
Definition eq_mac_ue (ue0 ue1 : Mac.mac_ue_stats_impl_t) : res bool :=
  if negb (eq_mac_counters ue0 ue1) then Ok false
  else
    let* b := eq_float (Mac.pusch_snr ue0) (Mac.pusch_snr ue1) eps_1em7 in
    if negb b then Ok false
    else eq_float (Mac.pucch_snr ue0) (Mac.pucch_snr ue0) eps_1em7.

Definition eq_mac_ind_msg (m0 m1 : Mac.mac_ind_msg_t) : res bool :=
  if negb (zlen (Mac.ue_stats m0) =? zlen (Mac.ue_stats m1)) || negb (Mac.tstamp m0 =? Mac.tstamp m1) then Ok false
  else all_eq eq_mac_ue (Mac.ue_stats m0) (Mac.ue_stats m1).

(** ** ISAC *)

Definition cp_isac_csi_snap (any : Z) (src : Isac.isac_csi_snap_t) : res Isac.isac_csi_snap_t :=
  let meta := {| (Isac.meta src) with Isac.pad_end := any |} in
  let len := Isac.isac_snap_iq_len (Isac.meta src) in
  if 0 <? len then
    let* _ := assert_ (negb (bool_decide (Isac.iq src = []))) in
    let* d := buf_read (lay_iq (Isac.iq src)) 0 (len * 2) in
    Ok (Isac.mk_snap meta (unlay_iq d))
  else Ok (Isac.mk_snap meta []).

Definition cp_isac_ind_msg (any : Z) (src : Isac.isac_ind_msg_t) : res Isac.isac_ind_msg_t :=
  let* snap := cp_array (cp_isac_csi_snap any) (Isac.snap src) in
  Ok (Isac.mk_msg snap (Isac.dropped_snap src) (Isac.tstamp src)).

(** [memcmp] of the metadata, padding included, and of the payload. *)
Definition eq_isac_csi_snap (m0 m1 : Isac.isac_csi_snap_t) : res bool :=
  if negb (bool_decide (obj (Isac.meta m0) = obj (Isac.meta m1))) then Ok false
  else
    let len := Isac.isac_snap_iq_len (Isac.meta m0) in
    if len =? 0 then Ok true
    else
      let* d0 := buf_read (lay_iq (Isac.iq m0)) 0 (len * 2) in
      let* d1 := buf_read (lay_iq (Isac.iq m1)) 0 (len * 2) in
      Ok (bool_decide (d0 = d1)).

Definition eq_isac_ind_msg (m0 m1 : Isac.isac_ind_msg_t) : res bool :=
  if negb (zlen (Isac.snap m0) =? zlen (Isac.snap m1)) || negb (Isac.dropped_snap m0 =? Isac.dropped_snap m1)
     || negb (Isac.tstamp m0 =? Isac.tstamp m1) then Ok false
  else all_eq eq_isac_csi_snap (Isac.snap m0) (Isac.snap m1).

(** ** RAN function definitions

    The struct is a length and a pointer, in one order or the other; [mem] is
    the memory that the pointers lead to.  [same]: the two arguments are one
    object. *)

Record func_def_t := mk_func_def { fd_len : Z; fd_buf : Z }.

Section FuncDef.
Context (mem : Z -> bytes).

(** [memcmp(m0, m1, m0->len)] is about the structs, not about what they point to. *)
Definition eq_func_def (obj0 obj1 : bytes) (same : bool) (m0 m1 : func_def_t) : res bool :=
  if same then Ok true
  else if negb (fd_len m0 =? fd_len m1) then Ok false
  else
    let* d0 := buf_read obj0 0 (fd_len m0) in
    let* d1 := buf_read obj1 0 (fd_len m0) in
    Ok (bool_decide (d0 = d1)).

(** [{size_t len; uint8_t* buf;}] and [{uint8_t* buf; size_t len;}] *)
Definition mac_func_def_obj (m : func_def_t) : bytes := le 8 (fd_len m) ++ le 8 (fd_buf m).
Definition pdcp_func_def_obj (m : func_def_t) : bytes := le 8 (fd_buf m) ++ le 8 (fd_len m).

Definition eq_mac_func_def (same : bool) (m0 m1 : func_def_t) : res bool :=
  eq_func_def (mac_func_def_obj m0) (mac_func_def_obj m1) same m0 m1.
Definition eq_pdcp_func_def (same : bool) (m0 m1 : func_def_t) : res bool :=
  eq_func_def (pdcp_func_def_obj m0) (pdcp_func_def_obj m1) same m0 m1.
Definition eq_rlc_func_def (same : bool) (m0 m1 : func_def_t) : res bool :=
  eq_func_def (pdcp_func_def_obj m0) (pdcp_func_def_obj m1) same m0 m1.

(** ISAC compares the contents. *)
Definition eq_isac_func_def (same : bool) (m0 m1 : func_def_t) : res bool :=
  if same then Ok true
  else if negb (fd_len m0 =? fd_len m1) then Ok false
  else
    let* d0 := buf_read (mem (fd_buf m0)) 0 (fd_len m0) in
    let* d1 := buf_read (mem (fd_buf m1)) 0 (fd_len m0) in
    Ok (bool_decide (d0 = d1)).
End FuncDef.

(** ** Properties *)

Lemma all_eq_pure {A} (f : A -> A -> bool) l k :
  length l = length k ->
  exists b, all_eq (fun a b => Ok (f a b)) l k = Ok b /\ (b = true <-> Forall2 (fun x y => f x y = true) l k).
Proof.
  revert k. induction l as [|x l IH]; intros [|y k] Hlen; try done; [exists true; split; [done|by split]|].
  cbn [all_eq rbind]. destruct (f x y) eqn:Hf.
  - destruct (IH k) as (b & Hb & Hiff); [simpl in Hlen; lia|]. exists b. split; [done|]. rewrite Hiff.
    split; [by constructor|by inversion 1].
  - exists false. split; [done|]. split; [done|]. inversion 1; congruence.
Qed.

Lemma zlen_eqb_length {A} (l k : list A) : (zlen l =? zlen k) = true <-> length l = length k.
Proof. unfold zlen. lia. Qed.

(** The invariants of a PDCP message, and what breaks them. *)
Definition pdcp_rb_ok (rb : Pdcp.pdcp_radio_bearer_stats_t) : Prop :=
  (Pdcp.mode rb = 0 \/ Pdcp.mode rb = 1 \/ Pdcp.mode rb = 2) /\ Pdcp.rbid rb < 11
  /\ Pdcp.txpdu_pkts rb <= Pdcp.txpdu_bytes rb /\ Pdcp.rxpdu_pkts rb <= Pdcp.rxpdu_bytes rb
  /\ Pdcp.txsdu_pkts rb <= Pdcp.txsdu_bytes rb /\ Pdcp.rxsdu_pkts rb <= Pdcp.rxsdu_bytes rb.

#[global] Instance pdcp_rb_ok_dec rb : Decision (pdcp_rb_ok rb).
Proof. unfold pdcp_rb_ok. apply _. Defined.

Lemma check_pdcp_rbs_spec l :
  check_pdcp_rbs l = if bool_decide (Forall pdcp_rb_ok l) then Ok tt else Fail FExit.
Proof.
  induction l as [|rb l IH]; [done|]. cbn [check_pdcp_rbs].
  assert (Hrb : forall k : res unit, (let* _ := check_pdcp_mode (Pdcp.mode rb) in let* _ := check_pdcp_rbid (Pdcp.rbid rb) in
                           let* _ := check_pdcp_bearer rb in k)
                          = if bool_decide (pdcp_rb_ok rb) then k else Fail FExit).
  { intros k. unfold check_pdcp_mode, check_pdcp_rbid, check_pdcp_bearer, assert_, pdcp_rb_ok.
    repeat (case_bool_; cbn [rbind]); case_bool_decide; try done; lia. }
  rewrite Hrb, IH. destruct (decide (pdcp_rb_ok rb)) as [Hok|Hno].
  - rewrite (bool_decide_true (pdcp_rb_ok rb)) by done.
    by rewrite (bool_decide_ext (Forall pdcp_rb_ok (rb :: l)) (Forall pdcp_rb_ok l)) by (rewrite Forall_cons; tauto).
  - rewrite !bool_decide_false; [done|by inversion 1|done].
Qed.

(** [eq_pdcp_ind_msg] never answers that two messages differ: it says that
    they are the same, or stops the process. *)
Lemma eq_pdcp_never_false m0 m1 :
  eq_pdcp_ind_msg m0 m1 = Ok true \/ eq_pdcp_ind_msg m0 m1 = Fail FExit.
Proof.
  unfold eq_pdcp_ind_msg, check_pdcp_invariants. rewrite !check_pdcp_rbs_spec.
  case_bool_decide; cbn [rbind]; [|by right]. case_bool_decide; cbn [rbind]; [|by right].
  case_bool_; [by right|]. bool_hyps.
  assert (Hlen : length (Pdcp.rb m0) = length (Pdcp.rb m1)) by (apply zlen_eqb_length; by destruct (_ =? _)).
  revert Hlen. generalize (Pdcp.rb m0), (Pdcp.rb m1). clear. induction l as [|x l IH]; intros [|y k] Hlen; try done.
  { by left. }
  cbn [all_eq]. destruct (eq_pdcp_rb x y); cbn [rbind]; [|by right]. apply IH. simpl in Hlen. lia.
Qed.

(** The comparison of MAC messages does not look at [pucch_snr] of its second
    argument: two messages that differ there only are the same to it. *)
Definition with_pucch (f : Z) (ue : Mac.mac_ue_stats_impl_t) : Mac.mac_ue_stats_impl_t := {| ue with Mac.pucch_snr := f |}.

Lemma eq_mac_ignores_pucch m0 l f t :
  eq_mac_ind_msg m0 (Mac.mk_msg (map (with_pucch f) l) t) = eq_mac_ind_msg m0 (Mac.mk_msg l t).
Proof.
  unfold eq_mac_ind_msg. cbn [Mac.ue_stats Mac.tstamp]. unfold zlen. rewrite length_map. case_bool_; [done|].
  generalize (Mac.ue_stats m0). clear. induction l as [|ue l IH]; intros [|x k]; try done.
  cbn [all_eq map]. change (eq_mac_ue x (with_pucch f ue)) with (eq_mac_ue x ue).
  destruct (eq_mac_ue x ue) as [[]|]; cbn [rbind]; [apply IH|done..].
Qed.

(** The functions that compare function definitions compare pointers.  Two
    definitions of up to 8 bytes are always the same for MAC; equal contents
    at two addresses differ for PDCP and RLC; beyond the 16 bytes of the
    struct the comparison leaves it. *)
Lemma eq_func_def_wrong m0 m1 :
  fits 8 (fd_buf m0) -> fits 8 (fd_buf m1) -> fd_len m1 = fd_len m0 ->
  (0 <= fd_len m0 <= 8 -> eq_mac_func_def false m0 m1 = Ok true) /\
  (8 <= fd_len m0 <= 16 -> fd_buf m0 <> fd_buf m1 ->
     eq_pdcp_func_def false m0 m1 = Ok false /\ eq_rlc_func_def false m0 m1 = Ok false) /\
  (16 < fd_len m0 -> eq_mac_func_def false m0 m1 = Fail FBounds /\ eq_pdcp_func_def false m0 m1 = Fail FBounds).
Proof.
  intros H0 H1 Hlen. unfold eq_mac_func_def, eq_pdcp_func_def, eq_rlc_func_def, eq_func_def.
  rewrite Hlen, Z.eqb_refl. cbn [negb]. unfold mac_func_def_obj, pdcp_func_def_obj. rewrite Hlen.
  assert (Hobj : forall a b, zlen (le 8 a ++ le 8 b) = 16) by done.
  assert (Htake : forall a b n, (n <= 8)%nat -> take n (le 8 a ++ le 8 b) = take n (le 8 a))
    by (intros; by rewrite take_app_le).
  split_and!.
  - intros Hn. rewrite !buf_read_ok by (rewrite ?Hobj; lia). cbn [rbind]. rewrite !drop_0, !Htake by lia.
    by rewrite bool_decide_true.
  - intros Hn Hne. rewrite !buf_read_ok by (rewrite ?Hobj; lia). cbn [rbind]. rewrite !drop_0.
    enough (take (Z.to_nat (fd_len m0)) (le 8 (fd_buf m0) ++ le 8 (fd_len m0))
            <> take (Z.to_nat (fd_len m0)) (le 8 (fd_buf m1) ++ le 8 (fd_len m0))) by (by rewrite bool_decide_false).
    intros Heq%(f_equal (take 8)). rewrite !take_take, !Nat.min_l, !Htake, !take_ge in Heq by (done || lia).
    apply (f_equal unle) in Heq. by rewrite !unle_le_small in Heq.
  - intros Hn. unfold buf_read. rewrite !Hobj, !(proj2 (Z.leb_gt (0 + fd_len m0) 16)), !andb_false_r by lia. done.
Qed.
