(* ===== verification/StatsSm.v ===== *)
(** The statistics service models on both sides of E2: the functions of the
    agent (flexric/src/sm/{gtp,rlc,pdcp,mac,isac}_sm/*_sm_agent.c) and those of
    the RIC ([_sm_ric.c]).

    The five models do the same with codecs of their own: [StatsModel] is what
    a model provides, with the few points in which its functions differ, and
    [StatsModelLaws] what is promised about it.  The callbacks of the RAN,
    which the agent calls, are arguments; so is the state [S] they work on.
    [FExit] is a failing [assert]: it stops the gNB on one side, the RIC on
    the other. *)

From stdpp Require Import strings.
From S2P Require Import Prelude SmCodec SmStruct StatsData StatsCodec StatsProps StatsIsac StatsIe.

Record sm_ind_data_t := mk_sm_ind { sm_ind_hdr : bytes; sm_ind_msg : bytes; sm_call_process_id : option bytes }.
Record sm_ctrl_req_data_t := mk_sm_ctrl { sm_ctrl_hdr : bytes; sm_ctrl_msg : bytes }.

(** The periods that the four older models know, and those of ISAC. *)
Definition stats_periods : list (string * Z) :=
  [("1_ms"%string, 1); ("2_ms"%string, 2); ("5_ms"%string, 5); ("10_ms"%string, 10)].
Definition isac_periods : list (string * Z) :=
  stats_periods ++ [("20_ms"%string, 20); ("50_ms"%string, 50); ("100_ms"%string, 100)].

Class StatsModel (M : Type) := {
  sm_enc_event_trigger : Z -> res bytes;
  sm_dec_event_trigger : bytes -> res Z;
  sm_enc_ind_hdr : Z -> res bytes;
  sm_dec_ind_hdr : bytes -> res Z;
  sm_enc_ind_msg : M -> res bytes;
  sm_dec_ind_msg : bytes -> res M;
  sm_enc_ctrl_hdr : Z -> res bytes;
  sm_dec_ctrl_hdr : bytes -> res Z;
  sm_enc_ctrl_msg : Z -> res bytes;
  sm_dec_ctrl_msg : bytes -> res Z;
  sm_dec_ctrl_out : bytes -> res Z;
  sm_free_ind_msg : M -> res unit;
  sm_periods : list (string * Z);
  sm_ctrl_dummy : Z;                 (* the one control header that is supported *)
  sm_req_checked : bool;             (* the RIC checks what it is asked to send *)
  sm_msg_first : bool;               (* the RIC decodes the message before the header *)
  sm_no_cpid : bool                  (* the RIC refuses a call process ID *)
}.

(** ** The functions, for any model *)

Section Procedures.
Context {M : Type} `{StatsModel M}.

(** The agent: the period of a subscription in ms, an indication, and the
    execution of a control request, which is answered by nothing. *)
Definition on_subscription_sm_ag (event_trigger : bytes) : res Z := sm_dec_event_trigger event_trigger.

Definition on_indication_sm_ag {S} (read_ind : S -> res (S * bool * M)) (s : S) : res (S * option sm_ind_data_t) :=
  let* ba_hdr := sm_enc_ind_hdr 0 in
  let* (s, has_value, msg) := read_ind s in
  if negb has_value then
    let* _ := sm_free_ind_msg msg in
    Ok (s, None)
  else
    let* ba := sm_enc_ind_msg msg in
    let* _ := sm_free_ind_msg msg in
    Ok (s, Some (mk_sm_ind ba_hdr ba None)).

Definition on_control_sm_ag {S} (write_ctrl : S -> Z -> Z -> res S) (s : S) (data : sm_ctrl_req_data_t) : res (S * bytes) :=
  let* hdr := sm_dec_ctrl_hdr (sm_ctrl_hdr data) in
  let* _ := assert_ (hdr =? sm_ctrl_dummy) in
  let* action := sm_dec_ctrl_msg (sm_ctrl_msg data) in
  let* _ := assert_ (action =? 42) in
  let* s := write_ctrl s hdr action in
  Ok (s, []).

(** The RIC. *)
Fixpoint find_period (cmd : string) (l : list (string * Z)) : res Z :=
  match l with
  | [] => Fail FExit
  | (name, ms) :: l => if bool_decide (cmd = name) then Ok ms else find_period cmd l
  end.

Definition on_subscription_sm_ric (cmd : string) : res bytes :=
  let* ms := find_period cmd sm_periods in
  sm_enc_event_trigger ms.

Definition on_indication_sm_ric (data : sm_ind_data_t) : res (Z * M) :=
  let* (hdr, msg) :=
    if sm_msg_first then
      let* msg := sm_dec_ind_msg (sm_ind_msg data) in
      let* hdr := sm_dec_ind_hdr (sm_ind_hdr data) in
      Ok (hdr, msg)
    else
      let* hdr := sm_dec_ind_hdr (sm_ind_hdr data) in
      let* msg := sm_dec_ind_msg (sm_ind_msg data) in
      Ok (hdr, msg) in
  let* _ := assert_ (negb sm_no_cpid || negb (bool_decide (is_Some (sm_call_process_id data)))) in
  Ok (hdr, msg).

Definition on_control_req_sm_ric (dummy action : Z) : res sm_ctrl_req_data_t :=
  let* _ := assert_ (negb sm_req_checked || (dummy =? sm_ctrl_dummy)) in
  let* _ := assert_ (negb sm_req_checked || (action =? 42)) in
  let* hdr := sm_enc_ctrl_hdr dummy in
  let* msg := sm_enc_ctrl_msg action in
  Ok (mk_sm_ctrl hdr msg).

Definition on_control_out_sm_ric (ctrl_out : bytes) : res Z :=
  let* ans := sm_dec_ctrl_out ctrl_out in
  let* _ := assert_ (negb sm_req_checked || (ans =? 0)) in
  Ok ans.

Definition free_ind_data_sm_ric (msg : M) : res unit := sm_free_ind_msg msg.
End Procedures.

(** What a model promises: every message that it can carry is encoded, and
    decoding gives it back; so are the words of the other messages. *)
Class StatsModelLaws (M : Type) `{StatsModel M} (wf : M -> Prop) := {
  sm_ind_law : forall m, wf m -> exists ba, sm_enc_ind_msg m = Ok ba /\ sm_dec_ind_msg ba = Ok m;
  sm_hdr_law : exists ba, sm_enc_ind_hdr 0 = Ok ba /\ sm_dec_ind_hdr ba = Ok 0;
  sm_trigger_law : forall ms, fits 4 ms -> exists ba, sm_enc_event_trigger ms = Ok ba /\ sm_dec_event_trigger ba = Ok ms;
  sm_ctrl_law : forall v, fits 4 v ->
    (exists ba, sm_enc_ctrl_hdr v = Ok ba /\ sm_dec_ctrl_hdr ba = Ok v) /\
    (exists ba, sm_enc_ctrl_msg v = Ok ba /\ sm_dec_ctrl_msg ba = Ok v);
  sm_periods_law : Forall (fun p => fits 4 p.2) sm_periods;
  sm_dummy_law : fits 4 sm_ctrl_dummy
}.

(** ** The five models *)

Section Models.
Context (malloc : Z -> bytes).

#[export] Instance gtp_model : StatsModel Gtp.gtp_ind_msg_t := {|
  sm_enc_event_trigger := gtp_enc_event_trigger_plain malloc; sm_dec_event_trigger := gtp_dec_event_trigger_plain;
  sm_enc_ind_hdr := gtp_enc_ind_hdr_plain; sm_dec_ind_hdr := gtp_dec_ind_hdr_plain;
  sm_enc_ind_msg := gtp_enc_ind_msg_plain malloc; sm_dec_ind_msg := gtp_dec_ind_msg_plain;
  sm_enc_ctrl_hdr := gtp_enc_ctrl_hdr_plain; sm_dec_ctrl_hdr := gtp_dec_ctrl_hdr_plain;
  sm_enc_ctrl_msg := gtp_enc_ctrl_msg_plain; sm_dec_ctrl_msg := gtp_dec_ctrl_msg_plain;
  sm_dec_ctrl_out := gtp_dec_ctrl_out_plain; sm_free_ind_msg _ := Ok tt;
  sm_periods := stats_periods; sm_ctrl_dummy := 0; sm_req_checked := true;
  sm_msg_first := true; sm_no_cpid := false |}.

#[export] Instance rlc_model : StatsModel Rlc.rlc_ind_msg_t := {|
  sm_enc_event_trigger := rlc_enc_event_trigger_plain malloc; sm_dec_event_trigger := rlc_dec_event_trigger_plain;
  sm_enc_ind_hdr := rlc_enc_ind_hdr_plain; sm_dec_ind_hdr := rlc_dec_ind_hdr_plain;
  sm_enc_ind_msg := rlc_enc_ind_msg_plain malloc; sm_dec_ind_msg := rlc_dec_ind_msg_plain;
  sm_enc_ctrl_hdr := rlc_enc_ctrl_hdr_plain; sm_dec_ctrl_hdr := rlc_dec_ctrl_hdr_plain;
  sm_enc_ctrl_msg := rlc_enc_ctrl_msg_plain; sm_dec_ctrl_msg := rlc_dec_ctrl_msg_plain;
  sm_dec_ctrl_out := rlc_dec_ctrl_out_plain; sm_free_ind_msg _ := Ok tt;
  sm_periods := stats_periods; sm_ctrl_dummy := 0; sm_req_checked := true;
  sm_msg_first := true; sm_no_cpid := true |}.

#[export] Instance pdcp_model : StatsModel Pdcp.pdcp_ind_msg_t := {|
  sm_enc_event_trigger := pdcp_enc_event_trigger_plain; sm_dec_event_trigger := pdcp_dec_event_trigger_plain;
  sm_enc_ind_hdr := pdcp_enc_ind_hdr_plain; sm_dec_ind_hdr := pdcp_dec_ind_hdr_plain;
  sm_enc_ind_msg := pdcp_enc_ind_msg_plain malloc; sm_dec_ind_msg := pdcp_dec_ind_msg_plain;
  sm_enc_ctrl_hdr := pdcp_enc_ctrl_hdr_plain; sm_dec_ctrl_hdr := pdcp_dec_ctrl_hdr_plain;
  sm_enc_ctrl_msg := pdcp_enc_ctrl_msg_plain; sm_dec_ctrl_msg := pdcp_dec_ctrl_msg_plain;
  sm_dec_ctrl_out := pdcp_dec_ctrl_out_plain; sm_free_ind_msg := free_pdcp_ind_msg;
  sm_periods := stats_periods; sm_ctrl_dummy := 0; sm_req_checked := false;
  sm_msg_first := false; sm_no_cpid := false |}.

#[export] Instance mac_model : StatsModel Mac.mac_ind_msg_t := {|
  sm_enc_event_trigger := mac_enc_event_trigger_plain malloc; sm_dec_event_trigger := mac_dec_event_trigger_plain;
  sm_enc_ind_hdr := mac_enc_ind_hdr_plain; sm_dec_ind_hdr := mac_dec_ind_hdr_plain;
  sm_enc_ind_msg := mac_enc_ind_msg_plain; sm_dec_ind_msg := mac_dec_ind_msg_plain;
  sm_enc_ctrl_hdr := mac_enc_ctrl_hdr_plain; sm_dec_ctrl_hdr := mac_dec_ctrl_hdr_plain;
  sm_enc_ctrl_msg := mac_enc_ctrl_msg_plain; sm_dec_ctrl_msg := mac_dec_ctrl_msg_plain;
  sm_dec_ctrl_out := mac_dec_ctrl_out_plain; sm_free_ind_msg _ := Ok tt;
  sm_periods := stats_periods; sm_ctrl_dummy := 1; sm_req_checked := true;
  sm_msg_first := false; sm_no_cpid := true |}.

#[export] Instance isac_model : StatsModel Isac.isac_ind_msg_t := {|
  sm_enc_event_trigger := isac_enc_event_trigger_plain malloc; sm_dec_event_trigger := isac_dec_event_trigger_plain;
  sm_enc_ind_hdr := isac_enc_ind_hdr_plain; sm_dec_ind_hdr := isac_dec_ind_hdr_plain;
  sm_enc_ind_msg := isac_enc_ind_msg_plain; sm_dec_ind_msg := isac_dec_ind_msg_plain;
  sm_enc_ctrl_hdr := isac_enc_ctrl_hdr_plain; sm_dec_ctrl_hdr := isac_dec_ctrl_hdr_plain;
  sm_enc_ctrl_msg := isac_enc_ctrl_msg_plain; sm_dec_ctrl_msg := isac_dec_ctrl_msg_plain;
  sm_dec_ctrl_out := isac_dec_ctrl_out_plain; sm_free_ind_msg _ := Ok tt;
  sm_periods := isac_periods; sm_ctrl_dummy := 1; sm_req_checked := true;
  sm_msg_first := false; sm_no_cpid := true |}.
End Models.

(** ** The control of PDCP

    PDCP is the one model that sends the answer of the RAN back. *)

(** [sm_ag_if_ans_e] and [sm_ag_if_ans_ctrl_e] *)
Definition CTRL_OUTCOME_SM_AG_IF_ANS_V0 : Z := 0.
Definition PDCP_AGENT_IF_CTRL_ANS_V0 : Z := 2.

Record sm_ag_if_ans_t := mk_sm_ans { ans_type : Z; ctrl_out_type : Z; pdcp_ctrl_out : Z }.

Definition on_control_pdcp_sm_ag {S} (write_ctrl : S -> Z -> Z -> res (S * sm_ag_if_ans_t)) (s : S)
    (data : sm_ctrl_req_data_t) : res (S * bytes) :=
  let* dummy := pdcp_dec_ctrl_hdr_plain (sm_ctrl_hdr data) in
  let* _ := assert_ (dummy =? 0) in
  let* action := pdcp_dec_ctrl_msg_plain (sm_ctrl_msg data) in
  let* _ := assert_ (action =? 42) in
  let* (s, ans) := write_ctrl s dummy action in
  let* _ := assert_ (ans_type ans =? CTRL_OUTCOME_SM_AG_IF_ANS_V0) in
  let* _ := assert_ (ctrl_out_type ans =? PDCP_AGENT_IF_CTRL_ANS_V0) in
  let* ba := pdcp_enc_ctrl_out_plain (pdcp_ctrl_out ans) in
  Ok (s, ba).

(** [write_ctrl_pdcp_sm] of the gNB (openair2/E2AP/RAN_FUNCTION/CUSTOMIZED/ran_func_pdcp.c). *)
Definition write_ctrl_pdcp_sm {S} (s : S) (dummy action : Z) : res (S * sm_ag_if_ans_t) :=
  Ok (s, mk_sm_ans 0 0 0).

(** ** Laws *)

Lemma enc_word_ok ba v : zlen ba = 4 -> enc_word ba v = Ok (le 4 v).
Proof.
  intros Hba. unfold enc_word. rewrite put_ok by lia. by rewrite splice_all.
Qed.

Lemma dec_word_ok v : fits 4 v -> dec_word (le 4 v) = Ok v.
Proof.
  intros Hv. unfold dec_word. rewrite zlen_le. cbn [assert_ rbind Z.of_nat Pos.of_succ_nat Pos.succ Z.eqb Pos.eqb].
  apply get_fits; [apply at_pos_whole|done].
Qed.

Lemma get_word_ok v : fits 4 v -> get 4 (le 4 v) 0 = Ok v.
Proof. intros. by apply get_fits; [apply at_pos_whole|]. Qed.

Section Laws.
Context (malloc : Z -> bytes).
Hypothesis malloc_len : forall n, 0 <= n -> zlen (malloc n) = n.

Ltac word_law := eexists; split; [apply enc_word_ok; by (rewrite malloc_len || done)|first [by apply dec_word_ok|by apply get_word_ok]].
Ltac model_laws ind :=
  split;
  [ intros m Hm; apply ind, Hm
  | word_law
  | intros ms Hms; word_law
  | intros v Hv; split; word_law
  | repeat constructor; done
  | done ].

#[export] Instance gtp_laws : @StatsModelLaws _ (gtp_model malloc) wf_gtp.
Proof. model_laws (gtp_roundtrip malloc malloc_len). Qed.

#[export] Instance rlc_laws : @StatsModelLaws _ (rlc_model malloc) wf_rlc.
Proof. model_laws (rlc_roundtrip malloc malloc_len). Qed.

#[export] Instance pdcp_laws : @StatsModelLaws _ (pdcp_model malloc) wf_pdcp.
Proof. model_laws (pdcp_roundtrip malloc malloc_len). Qed.

#[export] Instance mac_laws : @StatsModelLaws _ (mac_model malloc) wf_mac.
Proof. model_laws mac_roundtrip. Qed.

#[export] Instance isac_laws : @StatsModelLaws _ (isac_model malloc) wf_isac.
Proof. model_laws isac_roundtrip. Qed.
End Laws.

(** ** From the RIC to the agent and back, for any model *)

Section Conveyed.
Context {M : Type} `{StatsModel M} (wf : M -> Prop) `{!StatsModelLaws M wf}.

(** What the callback of the RAN reports is what the RIC gets, when the agent
    can release it. *)
Lemma sm_indication_conveyed {S} (read_ind : S -> res (S * bool * M)) s s' m :
  read_ind s = Ok (s', true, m) -> wf m -> sm_free_ind_msg m = Ok tt ->
  exists d, on_indication_sm_ag read_ind s = Ok (s', Some d) /\ on_indication_sm_ric d = Ok (0, m).
Proof.
  intros Hread Hwf Hfree. destruct (sm_ind_law m Hwf) as (ba & Henc & Hdec).
  destruct (sm_hdr_law (M := M) (wf := wf)) as (bh & Henh & Hdeh).
  exists (mk_sm_ind bh ba None). unfold on_indication_sm_ag, on_indication_sm_ric. cbn [sm_ind_hdr sm_ind_msg sm_call_process_id].
  rewrite Henh. cbn [rbind]. rewrite Hread. cbn [rbind negb]. rewrite Henc. cbn [rbind]. rewrite Hfree. split; [done|].
  rewrite Hdec, Hdeh. destruct sm_msg_first; cbn [rbind]; by destruct sm_no_cpid.
Qed.

Lemma find_period_ok cmd l ms : find_period cmd l = Ok ms -> In (cmd, ms) l.
Proof.
  induction l as [|[name m] l IH]; [done|]. cbn [find_period]. case_bool_decide as Hc; [intros [= ->]; subst; by left|].
  intros Hf. right. by apply IH.
Qed.

(** A subscription with a period that the RIC knows arrives with that period;
    any other stops the RIC. *)
Lemma sm_subscription_conveyed cmd :
  match find_period cmd sm_periods with
  | Ok ms => exists et, on_subscription_sm_ric cmd = Ok et /\ on_subscription_sm_ag et = Ok ms
  | Fail _ => on_subscription_sm_ric cmd = Fail FExit
  end.
Proof.
  unfold on_subscription_sm_ric. destruct (find_period cmd sm_periods) as [ms|f] eqn:Hf.
  - pose proof (find_period_ok _ _ _ Hf) as Hin. pose proof (sm_periods_law (M := M) (wf := wf)) as Hl.
    rewrite Forall_forall in Hl. apply list_elem_of_In, Hl in Hin. cbn in Hin. cbn [rbind].
    by apply (sm_trigger_law (M := M) (wf := wf)).
  - cbn [rbind]. f_equal. revert Hf. induction sm_periods as [|[n m] l IH]; cbn [find_period]; [by intros [= <-]|].
    case_bool_decide; [done|]. apply IH.
Qed.

(** The control request that the RIC sends is the one that the agent gives to
    the RAN; anything else that reaches the agent stops it. *)
Lemma sm_control_conveyed {S} (write_ctrl : S -> Z -> Z -> res S) s :
  exists d, on_control_req_sm_ric sm_ctrl_dummy 42 = Ok d /\
    on_control_sm_ag write_ctrl s d = let* s := write_ctrl s sm_ctrl_dummy 42 in Ok (s, []).
Proof.
  pose proof (sm_dummy_law (M := M) (wf := wf)) as Hd.
  destruct (sm_ctrl_law _ Hd) as [(bh & Henh & Hdeh) _].
  destruct (sm_ctrl_law (M := M) (wf := wf) 42 ltac:(done)) as [_ (bm & Henm & Hdem)].
  exists (mk_sm_ctrl bh bm). unfold on_control_req_sm_ric, on_control_sm_ag. cbn [sm_ctrl_hdr sm_ctrl_msg].
  rewrite !Z.eqb_refl, !orb_true_r. cbn [assert_ rbind]. rewrite Henh. cbn [rbind]. rewrite Henm. cbn [rbind].
  split; [done|]. rewrite Hdeh. cbn [rbind]. rewrite Z.eqb_refl. cbn [assert_ rbind]. by rewrite Hdem.
Qed.
End Conveyed.

(** Whatever control request reaches the PDCP model of the gNB, the process
    stops: a request that is not the supported one fails a check, and the
    answer to the supported one is of the type of MAC. *)
Theorem pdcp_control_stops_gnb {S} (s : S) data :
  on_control_pdcp_sm_ag write_ctrl_pdcp_sm s data = Fail FExit.
Proof.
  unfold on_control_pdcp_sm_ag, pdcp_dec_ctrl_hdr_plain, pdcp_dec_ctrl_msg_plain, dec_word.
  assert (Hget : forall ba, zlen ba = 4 -> exists v, get 4 ba 0 = Ok v).
  { intros ba Hba. unfold get. rewrite buf_read_ok by lia. cbn [rbind]. by eexists. }
  unfold assert_ at 1. destruct (zlen (sm_ctrl_hdr data) =? 4) eqn:Hh; cbn [rbind]; [|done].
  destruct (Hget (sm_ctrl_hdr data)) as [v ->]; [lia|]. cbn [rbind].
  unfold assert_ at 1. destruct (v =? 0); cbn [rbind]; [|done].
  unfold assert_ at 1. destruct (zlen (sm_ctrl_msg data) =? 4) eqn:Hm; cbn [rbind]; [|done].
  destruct (Hget (sm_ctrl_msg data)) as [w ->]; [lia|]. cbn [rbind].
  unfold assert_ at 1. by destruct (w =? 42).
Qed.
