(* ===== verification/SeqArr.v ===== *)
(** The growable array of flexric (util/alg_ds/ds/seq_container/seq_arr.[ch]).

    [data] is the heap block of the array, byte for byte; an iterator is an
    offset into it.  The load [(float)size / (float)cap] is compared with 0.25
    as a rational, which is what the C code computes while [size] is below 2^24
    ([cap] is a power of two).  Bytes that [realloc] adds are taken as 0: no
    operation reads one before it is written. *)

From S2P Require Import Prelude.

Record seq_arr_t := mk_seq_arr {
  sa_data : bytes;
  sa_size : Z;
  sa_elt_size : Z;
  sa_cap : Z
}.

Definition MIN_SIZE : Z := 8.

Definition maybe_expand (a : seq_arr_t) : seq_arr_t :=
  if sa_size a + 1 =? sa_cap a
  then {| a with sa_data := resize (Z.to_nat (2 * sa_cap a * sa_elt_size a)) 0 (sa_data a);
                 sa_cap := sa_cap a * 2 |}
  else a.

Definition maybe_shrink (a : seq_arr_t) : res seq_arr_t :=
  if (MIN_SIZE <? sa_size a) && (4 * sa_size a <? sa_cap a) then
    let* _ := assert_ (MIN_SIZE <? sa_cap a) in
    let cap := Z.quot (sa_cap a) 2 in
    let tmp := replicate (Z.to_nat (cap * cap)) 0 in
    let* _ := assert_ (sa_size a <=? cap) in
    let* d := buf_read (sa_data a) 0 (sa_size a * sa_elt_size a) in
    let* tmp := buf_write tmp 0 d in
    Ok {| a with sa_data := tmp; sa_cap := cap |}
  else Ok a.

Definition seq_arr_init (elt_size : Z) : seq_arr_t :=
  {| sa_data := replicate (Z.to_nat (MIN_SIZE * elt_size)) 0; sa_size := 0; sa_elt_size := elt_size; sa_cap := MIN_SIZE |}.

Definition seq_arr_size (a : seq_arr_t) : Z := sa_size a.
Definition seq_arr_front (a : seq_arr_t) : Z := 0.
Definition seq_arr_next (a : seq_arr_t) (it : Z) : Z := it + sa_elt_size a.
Definition seq_arr_end (a : seq_arr_t) : Z := sa_size a * sa_elt_size a.

Definition seq_arr_at (a : seq_arr_t) (pos : Z) : res Z :=
  let* _ := assert_ (pos <? sa_size a) in
  Ok (pos * sa_elt_size a).

Definition seq_arr_dist (a : seq_arr_t) (first last : Z) : res Z :=
  let pos := Z.quot (last - first) (sa_elt_size a) in
  let* _ := assert_ (-1 <? pos) in
  Ok pos.

Definition seq_arr_equal (it_1 it_2 : Z) : bool := it_1 =? it_2.

Definition seq_arr_push_back (a : seq_arr_t) (data : bytes) (len : Z) : res seq_arr_t :=
  let* _ := assert_ (len =? sa_elt_size a) in
  let a := maybe_expand a in
  let offset := sa_size a * sa_elt_size a in
  let* d := buf_read data 0 (sa_elt_size a) in
  let* buf := buf_write (sa_data a) offset d in
  Ok {| a with sa_data := buf; sa_size := sa_size a + 1 |}.

Definition seq_arr_erase (a : seq_arr_t) (start_it end_it : Z) : res seq_arr_t :=
  let* _ := assert_ (start_it <=? end_it) in
  if start_it =? end_it then Ok a
  else
    let num_bytes_move := seq_arr_end a - end_it in
    let* _ := assert_ (-1 <? num_bytes_move) in
    let* d := buf_read (sa_data a) end_it num_bytes_move in
    let* buf := buf_write (sa_data a) start_it d in
    let num_bytes_erase := end_it - start_it in
    let num_elm_erase := Z.quot num_bytes_erase (sa_elt_size a) in
    let* _ := assert_ (0 <? num_elm_erase) in
    let a := {| a with sa_data := buf; sa_size := sa_size a - num_elm_erase |} in
    let* buf := buf_write (sa_data a) (seq_arr_end a) (replicate (Z.to_nat num_bytes_erase) 0) in
    maybe_shrink {| a with sa_data := buf |}.

(** The loop of [seq_arr_free]: the iterators [free_func] is called with.  It
    makes one step per element, so [size] is enough fuel. *)
Fixpoint seq_arr_walk (fuel : nat) (a : seq_arr_t) (start_it end_it : Z) : res (list Z) :=
  if start_it =? end_it then Ok []
  else match fuel with
       | O => Fail FFuel
       | S fuel => let* l := seq_arr_walk fuel a (seq_arr_next a start_it) end_it in Ok (start_it :: l)
       end.

Definition seq_arr_free (a : seq_arr_t) : res (list Z) :=
  seq_arr_walk (Z.to_nat (sa_size a)) a (seq_arr_front a) (seq_arr_end a).

(** ** Invariant *)

Definition sa_contents (a : seq_arr_t) : bytes := take (Z.to_nat (sa_size a * sa_elt_size a)) (sa_data a).

Record sa_inv (a : seq_arr_t) : Prop := {
  sa_elt_pos : 0 < sa_elt_size a;
  sa_size_range : 0 <= sa_size a < sa_cap a;
  sa_cap_pow : exists k, 3 <= k /\ sa_cap a = 2 ^ k;
  sa_block : sa_cap a * sa_elt_size a <= zlen (sa_data a)
}.

Lemma sa_init_inv elt : 0 < elt -> sa_inv (seq_arr_init elt).
Proof.
  intros He. split; simpl; try done; [by exists 3|].
  unfold zlen. rewrite length_replicate. lia.
Qed.

Lemma sa_bytes_fit a : sa_inv a -> 0 <= sa_size a * sa_elt_size a <= zlen (sa_data a).
Proof. intros [He Hs _ Hb]. nia. Qed.

Lemma sa_contents_len a : sa_inv a -> zlen (sa_contents a) = sa_size a * sa_elt_size a.
Proof. intros H. apply zlen_take. by apply sa_bytes_fit. Qed.

Lemma maybe_expand_ok a :
  sa_inv a -> sa_inv (maybe_expand a) /\ sa_contents (maybe_expand a) = sa_contents a
  /\ sa_size (maybe_expand a) = sa_size a /\ sa_elt_size (maybe_expand a) = sa_elt_size a
  /\ sa_size a + 1 < sa_cap (maybe_expand a).
Proof.
  intros Hi. pose proof (sa_bytes_fit a Hi) as Hf. destruct (Hi) as [He Hs (k&Hk&Ek) Hb].
  unfold maybe_expand. destruct (_ =? _) eqn:E; [|split_and!; [done..|lia]]. simpl.
  assert (Hc : 2 <= sa_cap a) by (rewrite Ek; change 2 with (2 ^ 1) at 1; apply Z.pow_le_mono_r; lia).
  assert (zlen (sa_data a) <= 2 * sa_cap a * sa_elt_size a \/ 2 * sa_cap a * sa_elt_size a < zlen (sa_data a)) by lia.
  split_and!; try done; try lia.
  - split; simpl; [done | lia | |].
    + exists (k + 1). split; [lia|]. rewrite Z.pow_add_r by lia. lia.
    + unfold zlen. rewrite length_resize. nia.
  - unfold sa_contents. simpl. rewrite take_resize_le by nia. rewrite resize_le; [done|]. unfold zlen in *. lia.
Qed.

Lemma buf_write_spec l off d :
  0 <= off -> off + zlen d <= zlen l ->
  buf_write l off d = Ok (take (Z.to_nat off) l ++ d ++ drop (Z.to_nat off + length d) l).
Proof. intros. unfold buf_write. rewrite (proj2 (Z.leb_le 0 off)), (proj2 (Z.leb_le _ (zlen l))) by done. done. Qed.

Lemma take_write (l d : bytes) off :
  0 <= off -> off + zlen d <= zlen l ->
  take (Z.to_nat (off + zlen d)) (take (Z.to_nat off) l ++ d ++ drop (Z.to_nat off + length d) l)
    = take (Z.to_nat off) l ++ d.
Proof.
  intros Ho Hl. rewrite app_assoc. apply take_app_length'.
  rewrite length_app, length_take. unfold zlen in *. lia.
Qed.

Lemma write_len (l d : bytes) off :
  0 <= off -> off + zlen d <= zlen l ->
  zlen (take (Z.to_nat off) l ++ d ++ drop (Z.to_nat off + length d) l) = zlen l.
Proof. intros. unfold zlen in *. rewrite !length_app, length_take, length_drop. lia. Qed.

Lemma sa_push_ok a d :
  sa_inv a -> zlen d = sa_elt_size a ->
  exists a', seq_arr_push_back a d (zlen d) = Ok a' /\ sa_inv a'
    /\ sa_contents a' = sa_contents a ++ d /\ sa_size a' = sa_size a + 1 /\ sa_elt_size a' = sa_elt_size a.
Proof.
  intros Hi Hd. destruct (maybe_expand_ok a Hi) as (Hi'&Hc&Hs&He&Hlt).
  unfold seq_arr_push_back, assert_. rewrite Hd, Z.eqb_refl. cbn [rbind]. rewrite He, <- Hd, buf_read_all. cbn [rbind].
  set (b := maybe_expand a) in *. clearbody b. destruct (Hi') as [He' Hs' Hk Hb].
  assert (Hfit : 0 <= sa_size b * zlen d /\ sa_size b * zlen d + zlen d <= zlen (sa_data b)) by nia.
  rewrite buf_write_spec by lia. cbn [rbind]. eexists. split; [reflexivity|]. simpl.
  split_and!; [|..|lia|lia].
  - split; simpl; [lia | lia | done|]. rewrite write_len by lia. lia.
  - rewrite <- Hc. unfold sa_contents. simpl. rewrite He, <- Hd.
    replace ((sa_size b + 1) * zlen d) with (sa_size b * zlen d + zlen d) by lia. apply take_write; lia.
Qed.

(** Shrinking is harmless while an element is not larger than 32 bytes. *)
Lemma maybe_shrink_ok a :
  sa_inv a -> sa_elt_size a <= 32 ->
  exists a', maybe_shrink a = Ok a' /\ sa_inv a' /\ sa_contents a' = sa_contents a
    /\ sa_size a' = sa_size a /\ sa_elt_size a' = sa_elt_size a.
Proof.
  intros Hi H32. pose proof (sa_bytes_fit a Hi) as Hf. destruct (Hi) as [He Hs (k&Hk&Ek) Hb].
  unfold maybe_shrink, MIN_SIZE, assert_.
  destruct (_ && _) eqn:Ec; [|exists a; by split_and!]. bool_hyps.
  rewrite (proj2 (Z.ltb_lt 8 (sa_cap a))) by lia. cbn [rbind].
  assert (Hk6 : 6 <= k).
  { destruct (Z_lt_ge_dec k 6) as [Hlt|]; [|lia]. assert (2 ^ k <= 2 ^ 5) by (apply Z.pow_le_mono_r; lia). lia. }
  assert (Hc : Z.quot (sa_cap a) 2 = 2 ^ (k - 1)).
  { rewrite Ek, Z.quot_div_nonneg by (try apply Z.pow_nonneg; lia).
    replace k with (k - 1 + 1) at 1 by lia. rewrite Z.pow_add_r by lia. apply Z.div_mul. lia. }
  assert (H2 : sa_cap a = 2 * 2 ^ (k - 1)).
  { rewrite Ek. replace k with (k - 1 + 1) at 1 by lia. rewrite Z.pow_add_r by lia. lia. }
  assert (32 <= 2 ^ (k - 1)) by (change 32 with (2 ^ 5); apply Z.pow_le_mono_r; lia).
  rewrite Hc. set (c := 2 ^ (k - 1)) in *. clearbody c.
  rewrite (proj2 (Z.leb_le (sa_size a) c)) by lia. cbn [rbind].
  rewrite buf_read_ok by lia. cbn [rbind]. rewrite drop_0.
  assert (Hlen : zlen (take (Z.to_nat (sa_size a * sa_elt_size a)) (sa_data a)) = sa_size a * sa_elt_size a)
    by (by apply zlen_take).
  rewrite buf_write_spec by (rewrite ?Hlen, ?zlen_replicate by nia; nia). cbn [rbind]. simpl.
  eexists. split; [reflexivity|]. split_and!; simpl; try done.
  - split; simpl; [done | lia | exists (k - 1); split; [lia|]|].
    + apply (Z.mul_cancel_l _ _ 2); [lia|]. rewrite <- H2, Ek. replace k with (k - 1 + 1) at 1 by lia.
      rewrite Z.pow_add_r by lia. lia.
    + rewrite zlen_app, Hlen. unfold zlen in *. rewrite length_drop, length_replicate.
      assert (c * sa_elt_size a <= c * c /\ sa_size a * sa_elt_size a <= c * c) by nia. lia.
  - unfold sa_contents. simpl. apply take_app_length'. unfold zlen in Hlen. lia.
Qed.

(** ** Erasing *)

Lemma quot_mul n m : 0 < m -> Z.quot (n * m) m = n.
Proof. intros. apply Z.quot_mul. lia. Qed.

(** The block after the elements from [i] to [j] are erased, before the shrink. *)
Lemma sa_erase_move a i j :
  sa_inv a -> 0 <= i < j -> j <= sa_size a ->
  exists a1, sa_inv a1 /\ sa_size a1 = sa_size a - (j - i) /\ sa_elt_size a1 = sa_elt_size a
    /\ sa_cap a1 = sa_cap a
    /\ sa_contents a1 = take (Z.to_nat (i * sa_elt_size a)) (sa_contents a)
                        ++ drop (Z.to_nat (j * sa_elt_size a)) (sa_contents a)
    /\ seq_arr_erase a (i * sa_elt_size a) (j * sa_elt_size a) = maybe_shrink a1.
Proof.
  intros Hi Hij Hj. pose proof (sa_bytes_fit a Hi) as Hf. destruct (Hi) as [He Hs Hk Hb].
  unfold seq_arr_erase, assert_, seq_arr_end. set (m := sa_elt_size a) in *. set (n := sa_size a) in *.
  assert (Ho : 0 <= i * m /\ i * m < j * m /\ j * m <= n * m /\ n * m - j * m = (n - j) * m /\ j * m - i * m = (j - i) * m
               /\ (n - (j - i)) * m = i * m + (n - j) * m /\ 0 <= (n - j) * m /\ 0 < (j - i) * m) by nia.
  destruct Ho as (O1&O2&O3&O4&O5&O6&O7&O8).
  rewrite (proj2 (Z.leb_le _ _)), (proj2 (Z.eqb_neq _ _)) by lia. cbn [rbind].
  rewrite (proj2 (Z.ltb_lt (-1) _)) by lia. cbn [rbind]. rewrite buf_read_ok by lia. cbn [rbind].
  set (d := take _ (drop _ _)).
  assert (Hd : zlen d = n * m - j * m) by (subst d; rewrite zlen_take; [done|]; rewrite zlen_drop; lia).
  rewrite buf_write_spec by lia. cbn [rbind]. rewrite O5, quot_mul by done.
  rewrite (proj2 (Z.ltb_lt 0 (j - i))) by lia. cbn [rbind sa_size sa_elt_size sa_data sa_cap].
  set (l1 := take _ _ ++ d ++ _).
  assert (Hl1 : zlen l1 = zlen (sa_data a)) by (apply write_len; lia).
  rewrite buf_write_spec by (rewrite ?zlen_replicate, ?Hl1 by lia; lia). cbn [rbind].
  set (z := replicate _ 0). assert (Hz : zlen z = (j - i) * m) by (apply zlen_replicate; lia).
  exists (mk_seq_arr (take (Z.to_nat ((n - (j - i)) * m)) l1 ++ z ++ drop (Z.to_nat ((n - (j - i)) * m) + length z) l1)
                     (n - (j - i)) m (sa_cap a)).
  split; [|split; [reflexivity|split; [reflexivity|split; [reflexivity|split; [|reflexivity]]]]].
  - split; simpl; [lia | lia | done|]. rewrite write_len by lia. lia.
  - unfold sa_contents. cbn [sa_size sa_elt_size sa_data]. fold m n.
    rewrite take_app_length' by (rewrite length_take; unfold zlen in *; lia).
    rewrite O6. replace ((n - j) * m) with (zlen d) by lia. subst l1.
    rewrite (take_write (sa_data a) d) by lia. f_equal.
    + rewrite take_take. f_equal. lia.
    + subst d. rewrite skipn_firstn_comm. f_equal. lia.
Qed.

Lemma sa_erase_ok a i j :
  sa_inv a -> sa_elt_size a <= 32 -> 0 <= i <= j -> j <= sa_size a ->
  exists a', seq_arr_erase a (i * sa_elt_size a) (j * sa_elt_size a) = Ok a' /\ sa_inv a'
    /\ sa_size a' = sa_size a - (j - i) /\ sa_elt_size a' = sa_elt_size a
    /\ sa_contents a' = take (Z.to_nat (i * sa_elt_size a)) (sa_contents a)
                        ++ drop (Z.to_nat (j * sa_elt_size a)) (sa_contents a).
Proof.
  intros Hi H32 Hij Hj. destruct (decide (i = j)) as [->|Hne].
  - exists a. unfold seq_arr_erase, assert_. rewrite Z.leb_refl, Z.eqb_refl. cbn [rbind].
    split_and!; [done|done|lia|done|]. by rewrite take_drop.
  - destruct (sa_erase_move a i j) as (a1&Hi1&Hs1&He1&_&Hc1&->); [done|lia|done|].
    destruct (maybe_shrink_ok a1) as (a'&E&Hi'&Hc'&Hs'&He'); [done|lia|]. exists a'.
    split_and!; [done|done|lia|lia|]. by rewrite Hc'.
Qed.

(** ** Refinement of a list of elements *)

Inductive arr_op :=
| APush (d : bytes)
| AErase (i j : nat).

Definition arr_step (a : seq_arr_t) (op : arr_op) : res seq_arr_t :=
  match op with
  | APush d => seq_arr_push_back a d (zlen d)
  | AErase i j => seq_arr_erase a (seq_arr_front a + Z.of_nat i * sa_elt_size a) (seq_arr_front a + Z.of_nat j * sa_elt_size a)
  end.

Fixpoint arr_run (a : seq_arr_t) (ops : list arr_op) : res seq_arr_t :=
  match ops with
  | [] => Ok a
  | op :: ops => let* a := arr_step a op in arr_run a ops
  end.

(** The list an array stands for, with the operations that have a meaning:
    elements of the right size, ranges inside of the list. *)
Definition list_step (elt : Z) (l : list bytes) (op : arr_op) : option (list bytes) :=
  match op with
  | APush d => if zlen d =? elt then Some (l ++ [d]) else None
  | AErase i j => if (i <=? j)%nat && (j <=? length l)%nat then Some (take i l ++ drop j l) else None
  end.

Fixpoint list_run (elt : Z) (l : list bytes) (ops : list arr_op) : option (list bytes) :=
  match ops with
  | [] => Some l
  | op :: ops => match list_step elt l op with Some l => list_run elt l ops | None => None end
  end.

Record arr_is (a : seq_arr_t) (elt : Z) (l : list bytes) : Prop := {
  ai_inv : sa_inv a;
  ai_elt : sa_elt_size a = elt;
  ai_size : sa_size a = zlen l;
  ai_bytes : sa_contents a = concat l;
  ai_elts : Forall (fun d => zlen d = elt) l
}.

Lemma concat_take_drop (elt : Z) (l : list bytes) (i : nat) :
  0 <= elt -> Forall (fun d => zlen d = elt) l -> (i <= length l)%nat ->
  take (Z.to_nat (Z.of_nat i * elt)) (concat l) = concat (take i l)
  /\ drop (Z.to_nat (Z.of_nat i * elt)) (concat l) = concat (drop i l).
Proof.
  intros He H. revert i. induction H as [|d l Hd H IH]; intros i Hi; simpl in Hi.
  - assert (i = 0)%nat as -> by lia. done.
  - destruct i as [|i]; simpl; [by rewrite drop_0|].
    destruct (IH i ltac:(lia)) as [<- <-].
    assert (Z.to_nat (Z.of_nat (S i) * elt) = length d + Z.to_nat (Z.of_nat i * elt))%nat as ->
      by (unfold zlen in Hd; nia).
    by rewrite take_app_add, drop_app_add.
Qed.

Lemma arr_step_ok a elt l op l' :
  arr_is a elt l -> elt <= 32 -> list_step elt l op = Some l' ->
  exists a', arr_step a op = Ok a' /\ arr_is a' elt l'.
Proof.
  intros [Hi He Hs Hb Hl] H32. pose proof (sa_elt_pos a Hi). destruct op as [d|i j]; simpl.
  - destruct (zlen d =? elt) eqn:E; [|done]. intros [= <-]. apply Z.eqb_eq in E.
    destruct (sa_push_ok a d) as (a'&->&Hi'&Hc'&Hs'&He'); [done|lia|]. exists a'. split; [done|].
    split; [done|lia|rewrite zlen_app, zlen_cons, zlen_nil; lia| |].
    + rewrite Hc', Hb, concat_app. simpl. by rewrite app_nil_r.
    + apply Forall_app. by split; [|constructor].
  - destruct (_ && _) eqn:E; [|done]. intros [= <-]. apply andb_true_iff in E as [E1%Nat.leb_le E2%Nat.leb_le].
    unfold seq_arr_front. rewrite !Z.add_0_l.
    destruct (sa_erase_ok a (Z.of_nat i) (Z.of_nat j)) as (a'&->&Hi'&Hs'&He'&Hc'); [done|lia|lia|unfold zlen in Hs; lia|].
    exists a'. split; [done|]. split; [done|lia| | |].
    + rewrite zlen_app. unfold zlen in *. rewrite length_take, length_drop. lia.
    + rewrite Hc', Hb, He, concat_app.
      destruct (concat_take_drop elt l i) as [-> _]; [lia|done|lia|].
      by destruct (concat_take_drop elt l j) as [_ ->]; [lia|done|lia|].
    + apply Forall_app. split; [by apply Forall_take | by apply Forall_drop].
Qed.

Lemma arr_run_ok a elt l ops l' :
  arr_is a elt l -> elt <= 32 -> list_run elt l ops = Some l' ->
  exists a', arr_run a ops = Ok a' /\ arr_is a' elt l'.
Proof.
  revert a l. induction ops as [|op ops IH]; simpl; intros a l Ha H32.
  - intros [= <-]. by exists a.
  - destruct (list_step elt l op) as [l1|] eqn:E; [|done]. intros H.
    destruct (arr_step_ok a elt l op l1) as (a1&->&Ha1); [done..|]. cbn [rbind]. by apply (IH a1 l1).
Qed.

Lemma seq_arr_walk_ok a n i :
  0 < sa_elt_size a ->
  seq_arr_walk n a (Z.of_nat i * sa_elt_size a) (Z.of_nat (i + n) * sa_elt_size a)
    = Ok (map (fun k => Z.of_nat k * sa_elt_size a) (seq i n)).
Proof.
  intros He. revert i. induction n as [|n IH]; intros i; simpl.
  - by rewrite Nat.add_0_r, Z.eqb_refl.
  - rewrite (proj2 (Z.eqb_neq _ _)) by nia. unfold seq_arr_next.
    replace (Z.of_nat i * sa_elt_size a + sa_elt_size a) with (Z.of_nat (S i) * sa_elt_size a) by lia.
    replace (i + S n)%nat with (S i + n)%nat by lia. by rewrite IH.
Qed.

(** The array implements a list: after any sequence of pushes and erasures
    of ranges, with the block moved and resized on the way, no operation leaves
    the block or fails an assertion, [seq_arr_size] is the length of the list,
    [seq_arr_at] of an index points to the bytes of that element, and the loop
    of [seq_arr_free] visits every element once, in order.  This needs elements
    of at most 32 bytes. *)
Theorem seq_arr_refines_list elt ops l :
  0 < elt <= 32 -> list_run elt [] ops = Some l ->
  exists a, arr_run (seq_arr_init elt) ops = Ok a
    /\ seq_arr_size a = zlen l
    /\ (forall i d, l !! i = Some d ->
          exists it, seq_arr_at a (Z.of_nat i) = Ok it /\ buf_read (sa_data a) it elt = Ok d)
    /\ seq_arr_free a = Ok (map (fun k => Z.of_nat k * elt) (seq 0 (length l))).
Proof.
  intros He Hr. destruct (arr_run_ok (seq_arr_init elt) elt [] ops l) as (a&Ea&[Hi Hel Hs Hb Hl]); [|lia|done|].
  { split; [apply sa_init_inv; lia | done | done | done | constructor]. }
  exists a. split_and!; [done|done| |].
  - intros i d Hd. pose proof (lookup_lt_Some _ _ _ Hd) as Hlt.
    unfold seq_arr_at, assert_. rewrite (proj2 (Z.ltb_lt _ _)) by (unfold zlen in Hs; lia). cbn [rbind].
    eexists. split; [done|]. pose proof (sa_bytes_fit a Hi) as Hf.
    assert (Hbnd : Z.of_nat i * elt + elt <= sa_size a * sa_elt_size a) by (rewrite Hel, Hs; unfold zlen; nia).
    rewrite Hel, buf_read_ok by nia. apply f_equal.
    assert (Hc : take (Z.to_nat elt) (drop (Z.to_nat (Z.of_nat i * elt)) (sa_contents a)) = d).
    { rewrite Hb. destruct (concat_take_drop elt l i) as [_ ->]; [lia|done|lia|].
      rewrite (drop_S _ _ _ Hd). simpl. apply take_app_length'.
      rewrite Forall_forall in Hl. specialize (Hl d (list_elem_of_lookup_2 _ _ _ Hd)). unfold zlen in Hl. lia. }
    rewrite <- Hc. unfold sa_contents. rewrite skipn_firstn_comm, take_take. f_equal. nia.
  - unfold seq_arr_free, seq_arr_front, seq_arr_end. rewrite Hs.
    pose proof (seq_arr_walk_ok a (length l) 0 ltac:(lia)) as Hw. rewrite Z.mul_0_l, Nat.add_0_l in Hw.
    unfold zlen. rewrite Nat2Z.id, Hw. by rewrite Hel.
Qed.

(** The block that [maybe_shrink] allocates has [cap * cap] bytes instead of
    [cap * elt_size]: whenever the elements that remain after an erasure do not
    fit in it, the copy writes after its end. *)
Theorem seq_arr_shrink_overflows a i j :
  sa_inv a -> 0 <= i < j -> j <= sa_size a ->
  let n := sa_size a - (j - i) in
  MIN_SIZE < n -> 4 * n < sa_cap a -> Z.quot (sa_cap a) 2 * Z.quot (sa_cap a) 2 < n * sa_elt_size a ->
  seq_arr_erase a (i * sa_elt_size a) (j * sa_elt_size a) = Fail FBounds.
Proof.
  intros Hi Hij Hj n H8 H4 Hov.
  destruct (sa_erase_move a i j) as (a1&Hi1&Hs1&He1&Hc1&_&->); [done..|]. fold n in Hs1.
  pose proof (sa_bytes_fit a1 Hi1) as Hf.
  unfold maybe_shrink, assert_, MIN_SIZE in *. rewrite Hs1, He1, Hc1 in *.
  rewrite (proj2 (Z.ltb_lt 8 n)), (proj2 (Z.ltb_lt (4 * n) _)), (proj2 (Z.ltb_lt 8 (sa_cap a))) by lia. cbn [andb rbind].
  assert (Hq : 0 <= Z.quot (sa_cap a) 2 /\ n <= Z.quot (sa_cap a) 2).
  { rewrite Z.quot_div_nonneg by lia. split; [apply Z.div_pos; lia | apply Z.div_le_lower_bound; lia]. }
  rewrite (proj2 (Z.leb_le n _)) by lia. cbn [rbind]. rewrite buf_read_ok by lia. cbn [rbind].
  unfold buf_write. rewrite zlen_take by (rewrite drop_0; lia). rewrite zlen_replicate by nia.
  rewrite (proj2 (Z.leb_gt (0 + n * sa_elt_size a) _)) by lia. by rewrite andb_false_r.
Qed.

(** ** Concrete instances *)

Definition ex_elem (x : Z) : bytes := [x; 0; 0; 0].
Definition ex_arr_ops : list arr_op :=
  map (fun x => APush (ex_elem (Z.of_nat x))) (seq 0 40) ++ [AErase 2 32; AErase 0 1].

Lemma seq_arr_refines_list_witness :
  exists a, arr_run (seq_arr_init 4) ex_arr_ops = Ok a /\ seq_arr_size a = 9
    /\ (forall i d, map (fun x => ex_elem (Z.of_nat x)) (1%nat :: seq 32 8) !! i = Some d ->
          exists it, seq_arr_at a (Z.of_nat i) = Ok it /\ buf_read (sa_data a) it 4 = Ok d)
    /\ seq_arr_free a = Ok (map (fun k => Z.of_nat k * 4) (seq 0 9)).
Proof.
  apply (seq_arr_refines_list 4 ex_arr_ops (map (fun x => ex_elem (Z.of_nat x)) (1%nat :: seq 32 8))).
  - lia.
  - vm_compute. reflexivity.
Defined.

(** Forty elements of 128 bytes. *)
Definition ex_big_arr : seq_arr_t :=
  match arr_run (seq_arr_init 128) (replicate 40 (APush (replicate 128 7))) with
  | Ok a => a
  | Fail _ => seq_arr_init 1
  end.

Lemma ex_big_arr_inv : sa_inv ex_big_arr.
Proof.
  split; [by vm_compute | split; [by vm_compute | by vm_compute] | exists 6; split; [lia | by vm_compute] | by vm_compute].
Qed.

Lemma seq_arr_shrink_overflows_witness : seq_arr_erase ex_big_arr 0 (28 * 128) = Fail FBounds.
Proof.
  apply (seq_arr_shrink_overflows ex_big_arr 0 28);
    [apply ex_big_arr_inv | lia | vm_compute; discriminate | reflexivity | reflexivity | reflexivity].
Defined.
