(* ===== verification/SeqRing.v ===== *)
(** The growable ring of flexric (util/alg_ds/ds/seq_container/seq_ring.[ch]),
    which carries its event queues (tsq, tsn_queue).

    The buffer is the list of its [cap] cells of [elt_size] bytes; an iterator
    is the index of a cell.  [head] and [tail] are 32-bit counters that are
    never reduced: their difference is the size, also after they wrap around. *)

From S2P Require Import Prelude.

Record seq_ring_t := mk_seq_ring {
  sr_elt_size : Z;
  sr_array : list bytes;
  sr_cap : Z;
  sr_head : Z;
  sr_tail : Z
}.

Definition DEFAULT_ELM : Z := 32.

Definition mask (cap val : Z) : Z := Z.land val (cap - 1).

Definition seq_ring_size (r : seq_ring_t) : Z := u32 (sr_head r - sr_tail r).
Definition full (r : seq_ring_t) : bool := seq_ring_size r =? sr_cap r - 1.

Definition zero_cell (r : seq_ring_t) : bytes := replicate (Z.to_nat (sr_elt_size r)) 0.

(** The cells from index [i] up to index [j]. *)
Definition cells (l : list bytes) (i j : Z) : list bytes := take (Z.to_nat (j - i)) (drop (Z.to_nat i) l).

Definition enlarge_buffer (r : seq_ring_t) : res seq_ring_t :=
  let* _ := assert_ (full r) in
  let head_pos := mask (sr_cap r) (sr_head r) in
  let tail_pos := mask (sr_cap r) (sr_tail r) in
  let moved := if tail_pos <? head_pos
               then cells (sr_array r) tail_pos head_pos
               else cells (sr_array r) tail_pos (sr_cap r) ++ cells (sr_array r) 0 head_pos in
  let cap := sr_cap r * 2 in
  Ok {| r with sr_array := moved ++ replicate (Z.to_nat cap - length moved) (zero_cell r);
               sr_cap := cap; sr_tail := 0; sr_head := Z.quot cap 2 - 1 |}.

Definition seq_ring_init (elt_size : Z) : seq_ring_t :=
  {| sr_elt_size := elt_size;
     sr_array := replicate (Z.to_nat DEFAULT_ELM) (replicate (Z.to_nat elt_size) 0);
     sr_cap := DEFAULT_ELM; sr_head := 0; sr_tail := 0 |}.

Definition seq_ring_push_back (r : seq_ring_t) (data : bytes) (len : Z) : res seq_ring_t :=
  let* _ := assert_ (len =? sr_elt_size r) in
  let* r := if full r then enlarge_buffer r else Ok r in
  let pos := mask (sr_cap r) (sr_head r) in
  Ok {| r with sr_array := <[Z.to_nat pos := data]> (sr_array r); sr_head := u32 (sr_head r + 1) |}.

(** [memset] of the cells from [i] up to [j]. *)
Definition clear_cells (r : seq_ring_t) (i j : Z) : seq_ring_t :=
  {| r with sr_array := take (Z.to_nat i) (sr_array r) ++ replicate (Z.to_nat (j - i)) (zero_cell r)
                        ++ drop (Z.to_nat j) (sr_array r) |}.

Definition seq_ring_erase (r : seq_ring_t) (it_start it_end : Z) : res seq_ring_t :=
  let* _ := assert_ (it_start =? mask (sr_cap r) (sr_tail r)) in
  if it_start =? it_end then Ok r
  else
    let* _ := assert_ (it_end <=? sr_cap r) in
    let r' :=
      if it_start <? it_end
      then {| (clear_cells r it_start it_end) with sr_tail := u32 (sr_tail r + (it_end - it_start)) |}
      else {| (clear_cells (clear_cells r it_start (sr_cap r)) 0 it_end) with
              sr_tail := u32 (sr_tail r + (sr_cap r - it_start + it_end)) |} in
    let* _ := assert_ (mask (sr_cap r') (sr_tail r') =? it_end) in
    Ok r'.

Definition seq_ring_front (r : seq_ring_t) : Z := mask (sr_cap r) (sr_tail r).
Definition seq_ring_end (r : seq_ring_t) : Z := mask (sr_cap r) (sr_head r).
Definition seq_ring_next (r : seq_ring_t) (it : Z) : Z := if it + 1 =? sr_cap r then 0 else it + 1.
Definition seq_ring_at (r : seq_ring_t) (pos : Z) : Z := mask (sr_cap r) (u32 (sr_tail r + pos)).

Definition seq_ring_dist (r : seq_ring_t) (first last : Z) : Z :=
  if first <? last then last - first else (sr_cap r - first) + last.

Definition seq_ring_equal (it_1 it_2 : Z) : bool := it_1 =? it_2.

(** The loop of [seq_ring_free]: the iterators the function is called with; one
    step per cell at most. *)
Fixpoint seq_ring_walk (fuel : nat) (r : seq_ring_t) (start_it end_it : Z) : res (list Z) :=
  if start_it =? end_it then Ok []
  else match fuel with
       | O => Fail FFuel
       | S fuel => let* l := seq_ring_walk fuel r (seq_ring_next r start_it) end_it in Ok (start_it :: l)
       end.

Definition seq_ring_free (r : seq_ring_t) : res (list Z) :=
  seq_ring_walk (Z.to_nat (sr_cap r)) r (seq_ring_front r) (seq_ring_end r).

(** ** Invariant and the queue behind the ring *)

(** The [n] elements from counter [t] on. *)
Definition ring_queue (l : list bytes) (cap t : Z) (n : nat) : list bytes :=
  map (fun i => l !!! Z.to_nat ((t + Z.of_nat i) mod cap)) (seq 0 n).

Definition sr_contents (r : seq_ring_t) : list bytes :=
  ring_queue (sr_array r) (sr_cap r) (sr_tail r) (Z.to_nat (seq_ring_size r)).

Record sr_inv (r : seq_ring_t) : Prop := {
  sr_cap_pow : exists k, 5 <= k <= 31 /\ sr_cap r = 2 ^ k;
  sr_len : zlen (sr_array r) = sr_cap r;
  sr_counters : 0 <= sr_head r < 2 ^ 32 /\ 0 <= sr_tail r < 2 ^ 32;
  sr_room : seq_ring_size r < sr_cap r
}.

Lemma mask_mod k v : 0 <= k -> mask (2 ^ k) v = v mod 2 ^ k.
Proof.
  intros. unfold mask. replace (2 ^ k - 1) with (Z.ones k) by (rewrite Z.ones_equiv; lia). by apply Z.land_ones.
Qed.

Lemma wrap_mod k v : 0 <= k <= 32 -> u32 v mod 2 ^ k = v mod 2 ^ k.
Proof.
  intros Hk. unfold wrap. apply Z.mod_mod_divide.
  exists (2 ^ (32 - k)). rewrite <- Z.pow_add_r by lia. f_equal. lia.
Qed.

Section Inv.
Context (r : seq_ring_t) (inv : sr_inv r).

Lemma sr_cap_range : 32 <= sr_cap r < 2 ^ 32.
Proof.
  destruct (sr_cap_pow r inv) as (k&Hk&->). split.
  - change 32 with (2 ^ 5). apply Z.pow_le_mono_r; lia.
  - apply Z.pow_lt_mono_r; lia.
Qed.

Lemma sr_mask v : mask (sr_cap r) v = v mod sr_cap r.
Proof. destruct (sr_cap_pow r inv) as (k&Hk&->). apply mask_mod. lia. Qed.

Lemma sr_wrap v : u32 v mod sr_cap r = v mod sr_cap r.
Proof. destruct (sr_cap_pow r inv) as (k&Hk&->). apply wrap_mod. lia. Qed.

Lemma sr_size_range : 0 <= seq_ring_size r < sr_cap r.
Proof. split; [apply wrap_range; lia | apply inv]. Qed.

(** The head is [size] after the tail, modulo the capacity. *)
Lemma sr_head_mod : sr_head r mod sr_cap r = (sr_tail r + seq_ring_size r) mod sr_cap r.
Proof.
  unfold seq_ring_size. pose proof sr_cap_range. rewrite <- Zplus_mod_idemp_r, sr_wrap, Zplus_mod_idemp_r. f_equal. lia.
Qed.

Lemma sr_mod_range v : 0 <= v mod sr_cap r < sr_cap r.
Proof. apply Z.mod_pos_bound. pose proof sr_cap_range. lia. Qed.
End Inv.

Lemma sr_init_inv elt : sr_inv (seq_ring_init elt).
Proof. split; simpl; try done. by exists 5. Qed.

(** Two counters closer than the capacity fall on different cells. *)
Lemma mod_far cap a b : 0 < cap -> 0 < b - a < cap -> a mod cap <> b mod cap.
Proof. intros Hc Hd E. pose proof (mod_eq_close cap a b E ltac:(lia)). lia. Qed.

Lemma ring_queue_ext l l' cap t t' n :
  (forall i, (i < n)%nat -> l !!! Z.to_nat ((t + Z.of_nat i) mod cap) = l' !!! Z.to_nat ((t' + Z.of_nat i) mod cap)) ->
  ring_queue l cap t n = ring_queue l' cap t' n.
Proof. intros H. apply map_ext_in. intros i Hi%in_seq. apply H. lia. Qed.

Lemma ring_queue_app l cap t n m :
  ring_queue l cap t (n + m) = ring_queue l cap t n ++ ring_queue l cap (t + Z.of_nat n) m.
Proof.
  unfold ring_queue. rewrite seq_app, map_app. f_equal. simpl.
  rewrite <- (Nat.add_0_r n) at 1. rewrite <- fmap_add_seq, map_map. apply map_ext. intros i. do 3 f_equal. lia.
Qed.

Lemma ring_queue_length l cap t n : length (ring_queue l cap t n) = n.
Proof. unfold ring_queue. by rewrite length_map, length_seq. Qed.

(** Cells without wrap-around. *)
Lemma ring_queue_linear l cap t n :
  0 <= t -> t + Z.of_nat n <= cap -> zlen l = cap -> ring_queue l cap t n = cells l t (t + Z.of_nat n).
Proof.
  intros Ht Hn Hl. unfold cells. replace (Z.to_nat (t + Z.of_nat n - t)) with n by lia.
  apply list_eq. intros i. destruct (decide (i < n)%nat) as [Hi|Hi].
  - unfold ring_queue. rewrite list_lookup_fmap, lookup_seq_lt by done. simpl.
    rewrite lookup_take_lt, lookup_drop by done. rewrite Z.mod_small by lia.
    symmetry. rewrite list_lookup_lookup_total_lt by (unfold zlen in *; lia). do 2 f_equal. lia.
  - rewrite !lookup_ge_None_2; [done | rewrite length_take; lia | rewrite ring_queue_length; lia].
Qed.

Lemma ring_queue_shift l cap t t' n : t mod cap = t' mod cap -> ring_queue l cap t n = ring_queue l cap t' n.
Proof.
  intros H. apply ring_queue_ext. intros i _. do 2 f_equal.
  by rewrite <- (Zplus_mod_idemp_l t), H, Zplus_mod_idemp_l.
Qed.

(** Where counter [t + i] falls, from where [t] falls. *)
Lemma mod_step cap t i :
  0 < cap -> 0 <= i < cap ->
  (t + i) mod cap = if t mod cap + i <? cap then t mod cap + i else t mod cap + i - cap.
Proof.
  intros Hc Hi. pose proof (Z.mod_pos_bound t cap Hc). rewrite <- Zplus_mod_idemp_l.
  destruct (_ <? _) eqn:E; [apply Z.mod_small; lia|].
  replace (t mod cap + i) with (t mod cap + i - cap + 1 * cap) at 1 by lia. rewrite Z_mod_plus_full.
  apply Z.mod_small. lia.
Qed.

(** ** Push *)

Lemma sr_push_small r d :
  sr_inv r -> seq_ring_size r + 1 < sr_cap r ->
  let r' := {| r with sr_array := <[Z.to_nat (mask (sr_cap r) (sr_head r)) := d]> (sr_array r);
                      sr_head := u32 (sr_head r + 1) |} in
  sr_inv r' /\ seq_ring_size r' = seq_ring_size r + 1 /\ sr_contents r' = sr_contents r ++ [d].
Proof.
  intros Hi Hn r'. pose proof (sr_cap_range r Hi) as Hcap. pose proof (sr_size_range r Hi) as Hs.
  assert (Hs' : seq_ring_size r' = seq_ring_size r + 1).
  { unfold seq_ring_size in *. simpl. rewrite <- Z.add_opp_r, wrap_add_l.
    replace (sr_head r + 1 + - sr_tail r) with (sr_head r - sr_tail r + 1) by lia.
    rewrite <- wrap_add_l. apply wrap_small. lia. }
  split_and!; [|done|].
  - destruct Hi as [Hk Hl [Hh Ht] Hr]. split; [done | | | rewrite Hs'; simpl; lia].
    + simpl. unfold zlen in *. by rewrite length_insert.
    + split; [apply wrap_range; lia | done].
  - unfold sr_contents. rewrite Hs'. replace (Z.to_nat (seq_ring_size r + 1)) with (Z.to_nat (seq_ring_size r) + 1)%nat by lia.
    rewrite ring_queue_app. simpl sr_array. simpl sr_cap. simpl sr_tail.
    rewrite (sr_mask r Hi), (sr_head_mod r Hi).
    pose proof (sr_mod_range r Hi (sr_tail r + seq_ring_size r)) as Hm. f_equal.
    + apply ring_queue_ext. intros i Hi'. rewrite list_lookup_total_insert_ne; [done|].
      pose proof (sr_mod_range r Hi (sr_tail r + Z.of_nat i)).
      pose proof (mod_far (sr_cap r) (sr_tail r + Z.of_nat i) (sr_tail r + seq_ring_size r) ltac:(lia) ltac:(lia)). lia.
    + unfold ring_queue. simpl. rewrite Z.add_0_r, Z2Nat.id by lia.
      rewrite list_lookup_total_insert_eq; [done|]. pose proof (sr_len r Hi). unfold zlen in *. lia.
Qed.

(** The cells that [enlarge_buffer] moves are the queue. *)
Lemma sr_moved r :
  sr_inv r -> full r = true ->
  (if mask (sr_cap r) (sr_tail r) <? mask (sr_cap r) (sr_head r)
   then cells (sr_array r) (mask (sr_cap r) (sr_tail r)) (mask (sr_cap r) (sr_head r))
   else cells (sr_array r) (mask (sr_cap r) (sr_tail r)) (sr_cap r)
        ++ cells (sr_array r) 0 (mask (sr_cap r) (sr_head r))) = sr_contents r.
Proof.
  intros Hi Hf%Z.eqb_eq. pose proof (sr_cap_range r Hi) as Hcap. pose proof (sr_len r Hi) as Hl.
  unfold sr_contents. rewrite !(sr_mask r Hi), (sr_head_mod r Hi), Hf, mod_step by lia.
  pose proof (sr_mod_range r Hi (sr_tail r)) as Ht.
  rewrite (ring_queue_shift _ _ (sr_tail r) (sr_tail r mod sr_cap r)) by (symmetry; apply Zmod_mod).
  set (t := sr_tail r mod sr_cap r) in *. clearbody t. set (c := sr_cap r) in *. clearbody c.
  destruct (t + (c - 1) <? c) eqn:E.
  - rewrite (proj2 (Z.ltb_lt _ _)) by lia. rewrite ring_queue_linear by lia. f_equal. lia.
  - rewrite (proj2 (Z.ltb_ge _ _)) by lia.
    replace (Z.to_nat (c - 1)) with (Z.to_nat (c - t) + Z.to_nat (t - 1))%nat by lia.
    rewrite ring_queue_app, ring_queue_linear by lia. f_equal; [f_equal; lia|].
    rewrite (ring_queue_shift _ _ _ 0), ring_queue_linear; [f_equal; lia | lia | lia | done|].
    replace (t + Z.of_nat (Z.to_nat (c - t))) with (0 + 1 * c) by lia. apply Z_mod_plus_full.
Qed.

Lemma sr_enlarge r :
  sr_inv r -> full r = true -> sr_cap r < 2 ^ 31 ->
  exists r', enlarge_buffer r = Ok r' /\ sr_inv r' /\ seq_ring_size r' = seq_ring_size r
    /\ sr_contents r' = sr_contents r /\ sr_cap r' = sr_cap r * 2 /\ sr_elt_size r' = sr_elt_size r.
Proof.
  intros Hi Hf Hc. pose proof (sr_cap_range r Hi) as Hcap. pose proof (sr_moved r Hi Hf) as Hm.
  unfold enlarge_buffer, assert_. rewrite Hf. cbn [rbind]. rewrite Hm.
  apply Z.eqb_eq in Hf.
  assert (Hlen : length (sr_contents r) = Z.to_nat (sr_cap r - 1)) by (unfold sr_contents; rewrite ring_queue_length; lia).
  eexists. split; [reflexivity|].
  assert (Hq : Z.quot (sr_cap r * 2) 2 = sr_cap r) by (by rewrite Z.quot_mul).
  rewrite Hq. set (r' := mk_seq_ring _ _ _ _ _).
  assert (Hsz : seq_ring_size r' = seq_ring_size r).
  { rewrite Hf. unfold seq_ring_size. simpl. rewrite wrap_small by lia. lia. }
  split_and!; try done.
  - destruct (sr_cap_pow r Hi) as (k&Hk&Ek). split; simpl; [| |lia|simpl in Hsz; rewrite Hsz; lia].
    + exists (k + 1). rewrite Z.pow_add_r, Ek by lia. split; [|lia]. split; [lia|].
      destruct (Z_lt_ge_dec k 31) as [|]; [lia|]. assert (2 ^ 31 <= 2 ^ k) by (apply Z.pow_le_mono_r; lia). lia.
    + unfold zlen. rewrite length_app, length_replicate, Hlen. lia.
  - unfold sr_contents at 1. rewrite Hsz, Hf. simpl sr_array. simpl sr_tail. simpl sr_cap.
    rewrite ring_queue_linear.
    + unfold cells. rewrite drop_0. apply take_app_length'. lia.
    + lia.
    + lia.
    + unfold zlen. rewrite length_app, length_replicate, Hlen. lia.
Qed.

Lemma sr_push_ok r d :
  sr_inv r -> sr_cap r < 2 ^ 31 -> zlen d = sr_elt_size r ->
  exists r', seq_ring_push_back r d (zlen d) = Ok r' /\ sr_inv r' /\ sr_contents r' = sr_contents r ++ [d]
    /\ seq_ring_size r' = seq_ring_size r + 1 /\ sr_elt_size r' = sr_elt_size r
    /\ sr_cap r' = (if full r then sr_cap r * 2 else sr_cap r).
Proof.
  intros Hi Hc Hd. unfold seq_ring_push_back, assert_. rewrite Hd, Z.eqb_refl. cbn [rbind].
  pose proof (sr_cap_range r Hi). pose proof (sr_size_range r Hi).
  destruct (full r) eqn:Ef.
  - destruct (sr_enlarge r Hi Ef Hc) as (r1&->&Hi1&Hs1&Hc1&Hcap1&He1). cbn [rbind].
    apply Z.eqb_eq in Ef. destruct (sr_push_small r1 d Hi1) as (Hi'&Hs'&Hc'); [lia|].
    eexists. split; [reflexivity|]. split_and!; [done | by rewrite Hc', Hc1 | lia | done | done].
  - cbn [rbind]. apply Z.eqb_neq in Ef. destruct (sr_push_small r d Hi) as (Hi'&Hs'&Hc'); [lia|].
    eexists. split; [reflexivity|]. by split_and!.
Qed.

(** ** Erase *)

Lemma clear_cells_lookup r i j p :
  0 <= i <= j -> j <= zlen (sr_array r) -> 0 <= p -> p < i \/ j <= p ->
  sr_array (clear_cells r i j) !!! Z.to_nat p = sr_array r !!! Z.to_nat p.
Proof.
  intros Hij Hj Hp Ho. simpl. unfold zlen in Hj. rewrite !list_lookup_total_alt. f_equal. destruct Ho as [Ho|Ho].
  - rewrite lookup_app_l by (rewrite length_take; lia). apply lookup_take_lt. lia.
  - rewrite lookup_app_r by (rewrite length_take; lia).
    rewrite lookup_app_r by (rewrite length_take, length_replicate; lia).
    rewrite lookup_drop, length_take, length_replicate. f_equal. lia.
Qed.

Lemma clear_cells_len r i j : 0 <= i <= j -> j <= zlen (sr_array r) -> zlen (sr_array (clear_cells r i j)) = zlen (sr_array r).
Proof.
  intros Hij Hj. simpl. unfold zlen in *. rewrite !length_app, length_take, length_replicate, length_drop. lia.
Qed.

(** The state an erasure of the [k] oldest elements must reach. *)
Lemma sr_erase_state r r' k :
  sr_inv r -> 0 <= k <= seq_ring_size r ->
  zlen (sr_array r') = sr_cap r -> sr_cap r' = sr_cap r -> sr_head r' = sr_head r ->
  sr_tail r' = u32 (sr_tail r + k) ->
  (forall i, k <= i < seq_ring_size r ->
     sr_array r' !!! Z.to_nat ((sr_tail r + i) mod sr_cap r) = sr_array r !!! Z.to_nat ((sr_tail r + i) mod sr_cap r)) ->
  sr_inv r' /\ seq_ring_size r' = seq_ring_size r - k /\ sr_contents r' = drop (Z.to_nat k) (sr_contents r).
Proof.
  intros Hi Hk Hl Hc Hh Ht Ha. pose proof (sr_cap_range r Hi). pose proof (sr_size_range r Hi) as Hs.
  assert (Hs' : seq_ring_size r' = seq_ring_size r - k).
  { unfold seq_ring_size in *. rewrite Hh, Ht. unfold wrap at 1 2. rewrite Zminus_mod_idemp_r.
    replace (sr_head r - (sr_tail r + k)) with (sr_head r - sr_tail r + - k) by lia.
    change ((sr_head r - sr_tail r + - k) mod 2 ^ 32) with (u32 (sr_head r - sr_tail r + - k)).
    rewrite <- wrap_add_l. rewrite wrap_small by lia. lia. }
  split_and!; [|done|].
  - destruct Hi as [Hp _ [Hh' _] _]. split; rewrite ?Hc, ?Hh, ?Ht; [done | done | | lia].
    split; [done | apply wrap_range; lia].
  - unfold sr_contents at 2.
    replace (Z.to_nat (seq_ring_size r)) with (Z.to_nat k + Z.to_nat (seq_ring_size r - k))%nat by lia.
    rewrite ring_queue_app, drop_app_length' by (by rewrite ring_queue_length).
    unfold sr_contents. rewrite Hs', Hc, Ht.
    rewrite (ring_queue_shift _ _ _ (sr_tail r + k)) by (apply (sr_wrap r Hi)). rewrite Z2Nat.id by lia.
    apply ring_queue_ext. intros i Hi'. rewrite <- Z.add_assoc. apply Ha. lia.
Qed.

Lemma sr_erase_ok r k :
  sr_inv r -> 0 <= k <= seq_ring_size r ->
  exists r', seq_ring_erase r (seq_ring_front r) (seq_ring_at r k) = Ok r' /\ sr_inv r'
    /\ seq_ring_size r' = seq_ring_size r - k /\ sr_contents r' = drop (Z.to_nat k) (sr_contents r)
    /\ sr_elt_size r' = sr_elt_size r /\ sr_cap r' = sr_cap r.
Proof.
  intros Hi Hk. pose proof (sr_cap_range r Hi) as Hcap. pose proof (sr_size_range r Hi) as Hs.
  pose proof (sr_mod_range r Hi (sr_tail r)) as Htr. pose proof (sr_len r Hi) as Hl.
  unfold seq_ring_erase, seq_ring_front, seq_ring_at, assert_. rewrite Z.eqb_refl. cbn [rbind].
  rewrite !(sr_mask r Hi), (sr_wrap r Hi), (mod_step (sr_cap r) (sr_tail r) k) by lia.
  destruct (decide (k = 0)) as [->|Hk0].
  { rewrite Z.add_0_r, (proj2 (Z.ltb_lt _ _)), Z.eqb_refl by lia. exists r. rewrite drop_0. split_and!; try done; lia. }
  assert (Htail : forall a, mask (sr_cap r) (u32 (sr_tail r + a)) = (sr_tail r + a) mod sr_cap r)
    by (intros a; rewrite (sr_mask r Hi); apply (sr_wrap r Hi)).
  assert (Hpos : forall i, 0 <= i < sr_cap r -> (sr_tail r + i) mod sr_cap r =
     if sr_tail r mod sr_cap r + i <? sr_cap r then sr_tail r mod sr_cap r + i else sr_tail r mod sr_cap r + i - sr_cap r)
    by (intros; apply mod_step; lia).
  set (tp := sr_tail r mod sr_cap r) in *. clearbody tp.
  destruct (tp + k <? sr_cap r) eqn:E.
  - rewrite (proj2 (Z.eqb_neq _ _)), (proj2 (Z.leb_le _ _)), (proj2 (Z.ltb_lt tp _)) by lia. cbn [rbind].
    simpl sr_cap. simpl sr_tail. replace (tp + k - tp) with k by lia.
    rewrite Htail, Hpos, E, Z.eqb_refl by lia. cbn [rbind].
    eexists. split; [reflexivity|].
    match goal with |- sr_inv ?x /\ _ => destruct (sr_erase_state r x k) as (I&S&C) end; try done.
    + etrans; [apply clear_cells_len; lia | done].
    + intros i Hik. rewrite Hpos by lia. apply clear_cells_lookup; try lia; destruct (tp + i <? sr_cap r) eqn:?; lia.
  - rewrite (proj2 (Z.eqb_neq _ _)), (proj2 (Z.leb_le _ _)), (proj2 (Z.ltb_ge tp _)) by lia. cbn [rbind].
    simpl sr_cap. simpl sr_tail. replace (sr_cap r - tp + (tp + k - sr_cap r)) with k by lia.
    rewrite Htail, Hpos, E, Z.eqb_refl by lia. cbn [rbind].
    eexists. split; [reflexivity|].
    assert (Hl1 : zlen (sr_array (clear_cells r tp (sr_cap r))) = sr_cap r) by (rewrite clear_cells_len; lia).
    match goal with |- sr_inv ?x /\ _ => destruct (sr_erase_state r x k) as (I&S&C) end; try done.
    + etrans; [apply (clear_cells_len (clear_cells r tp (sr_cap r))); lia | done].
    + intros i Hik. rewrite Hpos by lia. rewrite (proj2 (Z.ltb_ge _ _)) by lia.
      etrans; [apply (clear_cells_lookup (clear_cells r tp (sr_cap r)) 0 (tp + k - sr_cap r)); lia|].
      apply clear_cells_lookup; lia.
Qed.

(** ** Iteration *)

Lemma sr_next_at r i :
  sr_inv r -> 0 <= i < sr_cap r -> seq_ring_next r ((sr_tail r + i) mod sr_cap r) = (sr_tail r + (i + 1)) mod sr_cap r.
Proof.
  intros Hi Hir. pose proof (sr_cap_range r Hi). pose proof (sr_mod_range r Hi (sr_tail r + i)) as Hm.
  unfold seq_ring_next. rewrite Z.add_assoc, (mod_step _ _ 1) by lia.
  destruct (_ =? _) eqn:E1, (_ <? _) eqn:E2; lia.
Qed.

Lemma sr_walk_ok r n i fuel :
  sr_inv r -> (n <= fuel)%nat -> 0 <= i -> i + Z.of_nat n = seq_ring_size r ->
  seq_ring_walk fuel r ((sr_tail r + i) mod sr_cap r) (seq_ring_end r)
    = Ok (map (fun j => (sr_tail r + i + Z.of_nat j) mod sr_cap r) (seq 0 n)).
Proof.
  intros Hi. revert i fuel. pose proof (sr_cap_range r Hi) as Hc. pose proof (sr_size_range r Hi) as Hs.
  assert (He : seq_ring_end r = (sr_tail r + seq_ring_size r) mod sr_cap r)
    by (unfold seq_ring_end; by rewrite (sr_mask r Hi), (sr_head_mod r Hi)).
  induction n as [|n IH]; intros i fuel Hf H0 Hn.
  - destruct fuel; simpl; rewrite He; replace i with (seq_ring_size r) by lia; by rewrite Z.eqb_refl.
  - destruct fuel as [|fuel]; [lia|]. cbn [seq_ring_walk].
    assert (Hne : (sr_tail r + i) mod sr_cap r <> seq_ring_end r) by (rewrite He; apply mod_far; lia).
    rewrite (proj2 (Z.eqb_neq _ _)) by done. rewrite sr_next_at by (done || lia). rewrite IH by lia. cbn [rbind].
    apply f_equal. simpl. rewrite Z.add_0_r. f_equal. rewrite <- seq_shift, map_map. apply map_ext. intros j. f_equal. lia.
Qed.

(** ** Refinement of a queue *)

Inductive ring_op :=
| RPush (d : bytes)
| RPop (k : nat).     (* erase the [k] oldest elements *)

Definition ring_step (r : seq_ring_t) (op : ring_op) : res seq_ring_t :=
  match op with
  | RPush d => seq_ring_push_back r d (zlen d)
  | RPop k => seq_ring_erase r (seq_ring_front r) (seq_ring_at r (Z.of_nat k))
  end.

Fixpoint ring_run (r : seq_ring_t) (ops : list ring_op) : res seq_ring_t :=
  match ops with
  | [] => Ok r
  | op :: ops => let* r := ring_step r op in ring_run r ops
  end.

(** The queue, with the operations that have a meaning; it never holds more
    than 2^30 elements. *)
Definition queue_step (elt : Z) (q : list bytes) (op : ring_op) : option (list bytes) :=
  match op with
  | RPush d => if (zlen d =? elt) && (zlen q <? 2 ^ 30) then Some (q ++ [d]) else None
  | RPop k => if (k <=? length q)%nat then Some (drop k q) else None
  end.

Fixpoint queue_run (elt : Z) (q : list bytes) (ops : list ring_op) : option (list bytes) :=
  match ops with
  | [] => Some q
  | op :: ops => match queue_step elt q op with Some q => queue_run elt q ops | None => None end
  end.

Record ring_is (r : seq_ring_t) (elt : Z) (q : list bytes) : Prop := {
  ri_inv : sr_inv r;
  ri_elt : sr_elt_size r = elt;
  ri_size : seq_ring_size r = zlen q;
  ri_queue : sr_contents r = q;
  ri_cap : sr_cap r <= 2 ^ 31
}.

Lemma ring_step_ok r elt q op q' :
  ring_is r elt q -> queue_step elt q op = Some q' -> exists r', ring_step r op = Ok r' /\ ring_is r' elt q'.
Proof.
  intros [Hi He Hs Hq Hc]. pose proof (sr_size_range r Hi). destruct op as [d|k]; simpl.
  - destruct (_ && _) eqn:E; [|done]. intros [= <-]. bool_hyps.
    assert (Hcap : full r = true -> sr_cap r <= 2 ^ 30).
    { intros Hf%Z.eqb_eq. destruct (sr_cap_pow r Hi) as (m&Hm&Em). rewrite Em in *.
      destruct (Z_lt_ge_dec 30 m) as [Hlt|]; [|apply Z.pow_le_mono_r; lia].
      assert (2 ^ 31 <= 2 ^ m) by (apply Z.pow_le_mono_r; lia). lia. }
    destruct (Z_lt_ge_dec (sr_cap r) (2 ^ 31)) as [Hlt|Hge].
    + destruct (sr_push_ok r d Hi Hlt) as (r'&->&Hi'&Hc'&Hs'&He'&Hcap'); [lia|].
      exists r'. split; [done|]. split; [done|lia|rewrite zlen_app, zlen_cons, zlen_nil; lia|by rewrite Hc', Hq|].
      rewrite Hcap'. destruct (full r); [specialize (Hcap eq_refl)|]; lia.
    + assert (Hnf : full r = false) by (apply Z.eqb_neq; lia).
      unfold seq_ring_push_back, assert_. rewrite (proj2 (Z.eqb_eq (zlen d) _)) by lia. cbn [rbind]. rewrite Hnf. cbn [rbind].
      destruct (sr_push_small r d Hi) as (Hi'&Hs'&Hc'); [lia|]. eexists. split; [reflexivity|].
      split; [done|done|rewrite zlen_app, zlen_cons, zlen_nil; lia|by rewrite Hc', Hq|done].
  - destruct (k <=? length q)%nat eqn:E; [|done]. intros [= <-]. apply Nat.leb_le in E.
    destruct (sr_erase_ok r (Z.of_nat k) Hi) as (r'&->&Hi'&Hs'&Hc'&He'&Hcap'); [unfold zlen in Hs; lia|].
    exists r'. split; [done|]. split; [done|lia| |by rewrite Hc', Hq, Nat2Z.id|lia].
    rewrite Hs', Hs. unfold zlen. rewrite length_drop. lia.
Qed.

Lemma ring_run_ok r elt q ops q' :
  ring_is r elt q -> queue_run elt q ops = Some q' -> exists r', ring_run r ops = Ok r' /\ ring_is r' elt q'.
Proof.
  revert r q. induction ops as [|op ops IH]; simpl; intros r q Hr.
  - intros [= <-]. by exists r.
  - destruct (queue_step elt q op) as [q1|] eqn:E; [|done]. intros H.
    destruct (ring_step_ok r elt q op q1) as (r1&->&Hr1); [done..|]. cbn [rbind]. by apply (IH r1 q1).
Qed.

Lemma ring_is_cell r elt q i :
  ring_is r elt q -> (i < length q)%nat ->
  sr_array r !!! Z.to_nat (seq_ring_at r (Z.of_nat i)) = q !!! i.
Proof.
  intros [Hi He Hs Hq _] Hlt. unfold seq_ring_at. rewrite (sr_mask r Hi), (sr_wrap r Hi).
  rewrite <- Hq. unfold sr_contents, ring_queue.
  rewrite (list_lookup_total_alt (map _ _)), list_lookup_fmap, lookup_seq_lt by (unfold zlen in Hs; lia). done.
Qed.

(** The ring implements a queue: from any ring that stands for a queue
    [q] - the counters anywhere in their 32 bits, also about to wrap around -
    and after any sequence of pushes and erasures of the oldest elements, with
    the buffer enlarged on the way, no assertion fails, [seq_ring_size] is the
    length of the queue, the cell at [seq_ring_at i] holds its [i]-th element, and
    the loop from [seq_ring_front] by [seq_ring_next] to [seq_ring_end] visits
    exactly these cells in order and ends. *)
Theorem seq_ring_refines_queue r elt q ops q' :
  ring_is r elt q -> queue_run elt q ops = Some q' ->
  exists r', ring_run r ops = Ok r'
    /\ seq_ring_size r' = zlen q'
    /\ (forall i, (i < length q')%nat -> sr_array r' !!! Z.to_nat (seq_ring_at r' (Z.of_nat i)) = q' !!! i)
    /\ seq_ring_free r' = Ok (map (fun i => seq_ring_at r' (Z.of_nat i)) (seq 0 (length q'))).
Proof.
  intros Hr Hq. destruct (ring_run_ok r elt q ops q') as (r'&E&Hr'); [done..|].
  exists r'. split_and!; [done | apply Hr' | intros i; by apply (ring_is_cell r' elt)|].
  destruct Hr' as [Hi _ Hs _ _]. pose proof (sr_size_range r' Hi).
  unfold seq_ring_free, seq_ring_front. rewrite (sr_mask r' Hi).
  pose proof (sr_walk_ok r' (length q') 0 (Z.to_nat (sr_cap r')) Hi) as Hw. rewrite Z.add_0_r in Hw.
  rewrite Hw by (unfold zlen in Hs; lia). apply f_equal, map_ext. intros i.
  unfold seq_ring_at. by rewrite (sr_mask r' Hi), (sr_wrap r' Hi).
Qed.

(** [seq_ring_dist] counts the elements between two iterators of a ring,
    except between an iterator and itself, where it answers the capacity of
    the buffer instead of 0: an empty ring looks full. *)
Theorem seq_ring_dist_spec r i j :
  sr_inv r -> 0 <= i <= j -> j <= seq_ring_size r ->
  seq_ring_dist r (seq_ring_at r i) (seq_ring_at r j) = if i =? j then sr_cap r else j - i.
Proof.
  intros Hi Hij Hj. pose proof (sr_cap_range r Hi). pose proof (sr_size_range r Hi). pose proof (sr_mod_range r Hi (sr_tail r)).
  unfold seq_ring_dist, seq_ring_at. rewrite !(sr_mask r Hi), !(sr_wrap r Hi), !mod_step by lia.
  destruct (i =? j) eqn:E; repeat case_bool_; lia.
Qed.

(** ** Concrete instances *)

Definition ex_cell (x : Z) : bytes := [x mod 256; x / 256].

(** An empty ring two pushes before its counters wrap around. *)
Definition ex_ring : seq_ring_t :=
  {| (seq_ring_init 2) with sr_head := 2 ^ 32 - 2; sr_tail := 2 ^ 32 - 2 |}.

Definition ex_ring_ops : list ring_op :=
  map (fun x => RPush (ex_cell (Z.of_nat x))) (seq 0 20) ++ [RPop 15]
  ++ map (fun x => RPush (ex_cell (Z.of_nat x))) (seq 20 40) ++ [RPop 3].

Lemma ex_ring_is : ring_is ex_ring 2 [].
Proof. split; try done. split; try done. by exists 5. Qed.

Lemma seq_ring_refines_queue_witness :
  exists r', ring_run ex_ring ex_ring_ops = Ok r' /\ sr_cap r' = 64 /\ seq_ring_size r' = 42
    /\ seq_ring_free r' = Ok (map (fun i => seq_ring_at r' (Z.of_nat i)) (seq 0 42)).
Proof.
  destruct (seq_ring_refines_queue ex_ring 2 [] ex_ring_ops (map (fun x => ex_cell (Z.of_nat x)) (seq 18 42)) ex_ring_is
              ltac:(vm_compute; reflexivity)) as (r'&E&Hs&_&Hf).
  exists r'. split; [exact E|]. split; [|split; [exact Hs | exact Hf]].
  vm_compute in E. injection E as <-. reflexivity.
Defined.

Lemma seq_ring_dist_spec_witness :
  seq_ring_dist ex_ring (seq_ring_at ex_ring 0) (seq_ring_at ex_ring 0) = 32.
Proof. apply (seq_ring_dist_spec ex_ring 0 0); [apply ex_ring_is | lia | vm_compute; discriminate]. Defined.
