(* ===== verification/Assoc.v ===== *)
(** What flexric's associative containers promise to their clients.

    [Comparison] is what a container needs of the function that compares keys.
    [Assoc] is the table of operations that the macros of
    util/alg_ds/ds/assoc_container/assoc_generic.h select by the type of the
    container, [AssocLaws] what they promise: the container holds a list of keys
    and values, sorted by key.  The clients ([BiMap], [RicMap], [PendEv]) are
    proved against these laws; [RbSpec] has the instance of the red-black tree. *)

From S2P Require Import Prelude.

(** [comp a b] is 1 when [a] comes first, -1 when [b] does, 0 when neither;
    coming not after is transitive. *)
Class Comparison {K} (comp : K -> K -> Z) : Prop := {
  comp_val a b : comp a b = 1 \/ comp a b = 0 \/ comp a b = -1;
  comp_flip a b : comp a b = 1 <-> comp b a = -1;
  comp_trans a b c : comp a b <> -1 -> comp b c <> -1 -> comp a c <> -1
}.

Section Comparison.
Context {K : Type} (comp : K -> K -> Z) `{!Comparison comp}.

Lemma comp_refl a : comp a a = 0.
Proof. pose proof (comp_flip a a). destruct (comp_val a a) as [H1|[H1|H1]]; rewrite H1 in *; naive_solver. Qed.

Lemma comp_lt_le a b c : comp a b = 1 -> comp b c <> -1 -> comp a c = 1.
Proof.
  intros Hab Hbc. destruct (decide (comp a c = 1)) as [|Hn]; [done|]. exfalso.
  assert (Hca : comp c a <> -1) by (by rewrite <- comp_flip).
  pose proof (comp_trans b c a Hbc Hca) as Hba. apply Hba. by apply comp_flip.
Qed.

Lemma comp_le_lt a b c : comp a b <> -1 -> comp b c = 1 -> comp a c = 1.
Proof.
  intros Hab Hbc. destruct (decide (comp a c = 1)) as [|Hn]; [done|]. exfalso.
  assert (Hca : comp c a <> -1) by (by rewrite <- comp_flip).
  pose proof (comp_trans c a b Hca Hab) as Hcb. apply Hcb. by apply comp_flip.
Qed.

Lemma comp_0_sym a b : comp a b = 0 -> comp b a = 0.
Proof.
  intros H. destruct (comp_val b a) as [H1|[H1|H1]]; [|done|].
  - apply comp_flip in H1. lia.
  - apply comp_flip in H1. lia.
Qed.

Lemma comp_0_trans a b c : comp a b = 0 -> comp b c = 0 -> comp a c = 0.
Proof.
  intros Hab Hbc. pose proof (comp_0_sym _ _ Hab) as Hba. pose proof (comp_0_sym _ _ Hbc) as Hcb.
  assert (comp a c <> -1) by (apply (comp_trans a b c); lia).
  assert (Hca : comp c a <> -1) by (apply (comp_trans c b a); lia).
  rewrite <- comp_flip in Hca. pose proof (comp_val a c). lia.
Qed.

End Comparison.

(** Two keys that both compare as 0 to a third are one for the container. *)
Definition same_key {K} (comp : K -> K -> Z) (a b : K) : Prop := comp a b = 0.

(** Comparisons of machine integers, of fields of records and of one field
    after the other, from which those of the code are made. *)
Definition cmp_up (a b : Z) : Z := if a <? b then 1 else if a =? b then 0 else -1.
Definition cmp_then {K} (c1 c2 : K -> K -> Z) (a b : K) : Z := if c1 a b =? 0 then c2 a b else c1 a b.
Definition cmp_on {A K} (f : A -> K) (c : K -> K -> Z) (a b : A) : Z := c (f a) (f b).
Definition cmp_rev {K} (c : K -> K -> Z) (a b : K) : Z := c b a.

(** Instances are chosen by the head symbol. *)
#[global] Hint Mode Comparison ! ! : typeclass_instances.
#[global] Typeclasses Opaque cmp_up cmp_then cmp_on cmp_rev.

#[global] Instance cmp_up_ok : Comparison cmp_up.
Proof.
  assert (H : forall a b, cmp_up a b = 1 /\ a < b \/ cmp_up a b = 0 /\ a = b \/ cmp_up a b = -1 /\ b < a).
  { intros a b. unfold cmp_up. repeat case_bool_; lia. }
  split; intros.
  - pose proof (H a b). lia.
  - pose proof (H a b). pose proof (H b a). lia.
  - pose proof (H a b). pose proof (H b c). pose proof (H a c). lia.
Qed.

#[global] Instance cmp_on_ok {A K} (f : A -> K) c : Comparison c -> Comparison (cmp_on f c).
Proof. intros H. unfold cmp_on. split; intros; [apply comp_val|apply comp_flip|by eapply comp_trans]. Qed.

#[global] Instance cmp_rev_ok {K} (c : K -> K -> Z) : Comparison c -> Comparison (cmp_rev c).
Proof. intros H. unfold cmp_rev. split; intros; [apply comp_val|apply comp_flip|by eapply comp_trans]. Qed.

#[global] Instance cmp_then_ok {K} (c1 c2 : K -> K -> Z) : Comparison c1 -> Comparison c2 -> Comparison (cmp_then c1 c2).
Proof.
  intros H1 H2. unfold cmp_then. split; intros a b.
  - case_bool_; apply comp_val.
  - destruct (Z.eqb_spec (c1 a b) 0) as [E|E].
    + rewrite (comp_0_sym c1 a b E). simpl. apply comp_flip.
    + destruct (Z.eqb_spec (c1 b a) 0) as [E'|E']; [by apply comp_0_sym in E'|apply comp_flip].
  - intros c Hab Hbc. destruct (Z.eqb_spec (c1 a b) 0) as [E1|E1], (Z.eqb_spec (c1 b c) 0) as [E2|E2].
    + rewrite (comp_0_trans c1 a b c E1 E2). simpl. by apply (comp_trans a b c).
    + pose proof (comp_val (comp:=c1) b c). by rewrite (comp_le_lt c1 a b c) by lia.
    + pose proof (comp_val (comp:=c1) a b). by rewrite (comp_lt_le c1 a b c) by lia.
    + pose proof (comp_val (comp:=c1) a b). by rewrite (comp_lt_le c1 a b c) by lia.
Qed.

Definition cmp_none {K} (a b : K) : Z := 0.

#[global] Typeclasses Opaque cmp_none.

#[global] Instance cmp_none_ok {K} : Comparison (@cmp_none K).
Proof. unfold cmp_none. split; intros; lia. Qed.

Lemma cmp_then_eq {K} (c1 c2 : K -> K -> Z) a b : cmp_then c1 c2 a b = if c1 a b =? 0 then c2 a b else c1 a b.
Proof. done. Qed.

(** The shapes in which the code writes a comparison of fields. *)
Lemma cmp_then_up {K} (f : K -> Z) c a b :
  cmp_then (cmp_on f cmp_up) c a b = if f a <? f b then 1 else if f a >? f b then -1 else c a b.
Proof.
  unfold cmp_then, cmp_on, cmp_up. rewrite Z.gtb_ltb.
  destruct (Z.ltb_spec (f a) (f b)); [done|]. destruct (Z.eqb_spec (f a) (f b)), (Z.ltb_spec (f b) (f a)); done || lia.
Qed.

Lemma cmp_then_down {K} (f : K -> Z) c a b :
  cmp_then (cmp_rev (cmp_on f cmp_up)) c a b = if f a <? f b then -1 else if f a >? f b then 1 else c a b.
Proof.
  unfold cmp_then, cmp_rev, cmp_on, cmp_up. rewrite Z.gtb_ltb.
  destruct (Z.ltb_spec (f b) (f a)), (Z.ltb_spec (f a) (f b)), (Z.eqb_spec (f b) (f a)); done || lia.
Qed.

(** Two functions that agree are comparisons together. *)
Lemma Comparison_ext {K} (c1 c2 : K -> K -> Z) : (forall a b, c1 a b = c2 a b) -> Comparison c1 -> Comparison c2.
Proof.
  intros He H. split; intros.
  - rewrite <- He. apply comp_val.
  - rewrite <- !He. apply comp_flip.
  - rewrite <- !He in *. by eapply comp_trans.
Qed.

(** ** The sorted list of a container *)

Section Sorted.
Context {K V : Type} (comp : K -> K -> Z) `{!Comparison comp}.
Implicit Types (l : list (K * V)) (e : K * V).

(** An element goes in after those with an equal key. *)
Fixpoint kv_insert e l : list (K * V) :=
  match l with
  | [] => [e]
  | x :: l' => if comp e.1 x.1 =? 1 then e :: l else x :: kv_insert e l'
  end.

Definition kv_sorted l : Prop := StronglySorted (fun e e' => comp e.1 e'.1 <> -1) l.

Definition has l key : Prop := Exists (fun e => comp key e.1 = 0) l.

(** The keys of the list are pairwise different. *)
Definition kv_unique l : Prop := forall i j e e', l !! i = Some e -> l !! j = Some e' -> comp e.1 e'.1 = 0 -> i = j.

Lemma kv_insert_perm e l : kv_insert e l ≡ₚ e :: l.
Proof.
  induction l as [|x l IH]; simpl; [done|]. case_bool_; [done|]. rewrite IH. apply Permutation_swap.
Qed.

Lemma kv_sorted_remove l1 e l2 : kv_sorted (l1 ++ e :: l2) -> kv_sorted (l1 ++ l2).
Proof.
  unfold kv_sorted. induction l1 as [|x l1 IH]; simpl; intros H; [by inversion H|].
  inversion H as [|? ? Hs Hf]; subst. constructor; [by apply IH|].
  apply Forall_app in Hf as [Hf1 Hf2]. inversion Hf2; subst. by apply Forall_app.
Qed.

Lemma kv_insert_sorted e l : kv_sorted l -> kv_sorted (kv_insert e l).
Proof.
  induction 1 as [|x l Hs IH Hf]; simpl; [by repeat constructor|].
  destruct (Z.eqb_spec (comp e.1 x.1) 1) as [H1|H1].
  - repeat constructor; [done|done|lia|]. eapply Forall_impl; [exact Hf|]. intros y Hy. rewrite (comp_lt_le comp e.1 x.1) by done. done.
  - constructor; [done|]. rewrite kv_insert_perm. constructor; [|done]. intros Hn. apply H1. by apply comp_flip.
Qed.

Lemma has_elem l key : has l key <-> exists k v, (k, v) ∈ l /\ comp key k = 0.
Proof. unfold has. rewrite Exists_exists. split; [intros ([k v]&?&?); eauto|intros (k&v&?&?); exists (k, v); auto]. Qed.

Lemma has_perm l l' key : l ≡ₚ l' -> has l key -> has l' key.
Proof. intros Hp. unfold has. by rewrite Hp. Qed.

#[global] Instance has_dec l key : Decision (has l key).
Proof. unfold has. apply _. Defined.

End Sorted.

(** ** The operations and their laws *)

Class Assoc (K V T : Type) := {
  assoc_comp : K -> K -> Z;
  assoc_key_sz : T -> Z;
  assoc_free_func : T -> bool;
  assoc_init : Z -> bool -> res T;
  assoc_free : T -> res (T * list (option K * option V));
  assoc_insert : T -> K -> Z -> V -> res T;
  assoc_extract : T -> K -> res (T * option V);
  assoc_key : T -> nat -> res (option K);
  assoc_value : T -> nat -> res (option V);
  assoc_size : T -> Z;
  assoc_front : T -> res nat;
  assoc_next : T -> nat -> res nat;
  assoc_end : T -> nat
}.

Section Walk.
Context {K V T : Type} `{A : Assoc K V T}.
Implicit Types (t : T) (l : list (K * V)).

(** From [it] on, the iteration sees the elements of [l] and comes to the end. *)
Fixpoint walks t (it : nat) l : Prop :=
  match l with
  | [] => it = assoc_end t
  | (k, v) :: l' => it <> assoc_end t /\ assoc_key t it = Ok (Some k) /\ assoc_value t it = Ok (Some v) /\
      exists it', assoc_next t it = Ok it' /\ walks t it' l'
  end.

(** [find_if] on a container: the first iterator from [it] on whose key [f]
    accepts, else the end.  The code has [f(value, key)]. *)
Fixpoint find_if_rb_tree (fuel : nat) t (start_it end_it : nat) (f : K -> bool) : res nat :=
  if (start_it =? end_it)%nat then Ok start_it
  else match fuel with
       | O => Fail FFuel
       | S fuel' =>
           let* ok := assoc_key t start_it in
           let* k := of_opt FBounds ok in
           if f k then Ok start_it
           else let* it := assoc_next t start_it in find_if_rb_tree fuel' t it end_it f
       end.

Lemma find_if_ok fuel f : forall t it l, walks t it l -> (length l <= fuel)%nat ->
  (find_if_rb_tree fuel t it (assoc_end t) f = Ok (assoc_end t) /\ Forall (fun e => f e.1 = false) l) \/
  exists l1 k v l2 it', find_if_rb_tree fuel t it (assoc_end t) f = Ok it' /\ l = l1 ++ (k, v) :: l2 /\
    Forall (fun e => f e.1 = false) l1 /\ f k = true /\ walks t it' ((k, v) :: l2).
Proof.
  induction fuel as [|fuel IH]; intros t it [|[k v] l] Hw Hl; cbn [length] in Hl; try lia;
    cbn [walks] in Hw; simpl.
  - subst it. rewrite Nat.eqb_refl. by left.
  - subst it. rewrite Nat.eqb_refl. by left.
  - destruct Hw as (Hne & Hk & Hv & it' & Hn & Hw). rewrite (proj2 (Nat.eqb_neq _ _) Hne), Hk. simpl.
    destruct (f k) eqn:Hf.
    + right. exists [], k, v, l, it. repeat split; [constructor|done|done|done|done|by exists it'].
    + rewrite Hn. simpl. destruct (IH t it' l Hw ltac:(lia)) as [[-> HF]|(l1 & k' & v' & l2 & it2 & -> & -> & HF & Hf' & Hw')].
      * left. split; [done|by constructor].
      * right. exists ((k, v) :: l1), k', v', l2, it2. split; [done|]. split; [done|]. split; [by constructor|by split].
Qed.

End Walk.

Class AssocLaws (K V T : Type) `{A : Assoc K V T} := {
  al_comp :: Comparison (assoc_comp (Assoc:=A));
  al_holds : T -> list (K * V) -> Prop;
  al_init key_sz free_func : 0 < key_sz ->
    exists t, assoc_init key_sz free_func = Ok t /\ al_holds t [] /\ assoc_key_sz t = key_sz /\ assoc_free_func t = free_func;
  al_insert t l k v : al_holds t l -> zlen l + 1 < 2 ^ 64 ->
    exists t', assoc_insert t k (assoc_key_sz t) v = Ok t' /\ al_holds t' (kv_insert assoc_comp (k, v) l) /\
      assoc_key_sz t' = assoc_key_sz t /\ assoc_free_func t' = assoc_free_func t;
  al_insert_sz t l k key_sz v : al_holds t l -> key_sz <> assoc_key_sz t -> assoc_insert t k key_sz v = Fail FExit;
  al_extract t l key : al_holds t l -> has assoc_comp l key ->
    exists t' l1 k v l2, assoc_extract t key = Ok (t', Some v) /\ l = l1 ++ (k, v) :: l2 /\ assoc_comp key k = 0 /\
      al_holds t' (l1 ++ l2) /\ assoc_key_sz t' = assoc_key_sz t /\ assoc_free_func t' = assoc_free_func t;
  al_missing t l key : al_holds t l -> ~ has assoc_comp l key -> assoc_extract t key = Fail FExit;
  al_size t l : al_holds t l -> assoc_size t = zlen l;
  al_sorted t l : al_holds t l -> kv_sorted assoc_comp l;
  al_front t l : al_holds t l -> exists it, assoc_front t = Ok it /\ walks t it l;
  al_free t l : al_holds t l ->
    exists t' ev, assoc_free t = Ok (t', ev) /\
      ev ≡ₚ (if assoc_free_func t then map (fun e : K * V => (Some e.1, Some e.2)) l else [])
}.
