(* ===== verification/Compare.v ===== *)
(** The comparisons of flexric's keys, each one an instance of [Comparison], and
    the equality tests that are given to [find_if].

    util/compare.h, lib/pending_events.c, lib/pending_event_ric.c,
    lib/e2ap/v2_03/e2ap_types/common (ric_gen_id.c, e2ap_plmn.c,
    e2ap_global_node_id.c), lib/3gpp/ie/e2ap_gnb_id.c, lib/ep/sctp_msg.c,
    ric/iApp (xapp_ric_id.c, map_ric_id.c, map_xapps_sockaddr.c). *)

From S2P Require Import Prelude Assoc.

(** ** Integers *)

Definition eq_fd (fd1 fd2 : Z) : bool := fd1 =? fd2.

Definition cmp_fd (fd1 fd2 : Z) : Z := if fd1 <? fd2 then 1 else if fd1 =? fd2 then 0 else -1.

Definition eq_ran_func_id (a b : Z) : bool := a =? b.

Definition cmp_ran_func_id (a b : Z) : Z := if a <? b then 1 else if a =? b then 0 else -1.

Definition cmp_uint32 (m0 m1 : Z) : Z := if m0 <? m1 then -1 else if m0 =? m1 then 0 else 1.

Definition cmp_uint16_wrapper (m0 m1 : Z) : Z := if m0 <? m1 then 1 else if m0 >? m1 then -1 else 0.

Definition eq_uint16_wrapper (m0 m1 : Z) : bool := m0 =? m1.

(** ** Events of the pending requests *)

Inductive pending_event_t :=
| SETUP_REQUEST_PENDING_EVENT
| SUBSCRIPTION_REQUEST_PENDING_EVENT
| SUBSCRIPTION_DELETE_REQUEST_PENDING_EVENT
| CONTROL_REQUEST_PENDING_EVENT
| E42_SETUP_REQUEST_PENDING_EVENT
| E42_RIC_SUBSCRIPTION_REQUEST_PENDING_EVENT
| RIC_SUBSCRIPTION_DELETE_REQUEST_PENDING_EVENT
| E42_RIC_SUBSCRIPTION_DELETE_REQUEST_PENDING_EVENT
| E42_RIC_CONTROL_REQUEST_PENDING_EVENT.

#[global] Instance pending_event_eq_dec : EqDecision pending_event_t.
Proof. solve_decision. Defined.

(** The values of the enumeration. *)
Definition pending_event_val (ev : pending_event_t) : Z :=
  match ev with
  | SETUP_REQUEST_PENDING_EVENT => 0
  | SUBSCRIPTION_REQUEST_PENDING_EVENT => 1
  | SUBSCRIPTION_DELETE_REQUEST_PENDING_EVENT => 2
  | CONTROL_REQUEST_PENDING_EVENT => 3
  | E42_SETUP_REQUEST_PENDING_EVENT => 4
  | E42_RIC_SUBSCRIPTION_REQUEST_PENDING_EVENT => 5
  | RIC_SUBSCRIPTION_DELETE_REQUEST_PENDING_EVENT => 6
  | E42_RIC_SUBSCRIPTION_DELETE_REQUEST_PENDING_EVENT => 7
  | E42_RIC_CONTROL_REQUEST_PENDING_EVENT => 8
  end.

Definition cmp_pending_event (ev1 ev2 : pending_event_t) : Z :=
  if pending_event_val ev1 <? pending_event_val ev2 then 1
  else if pending_event_val ev1 =? pending_event_val ev2 then 0 else -1.

Definition valid_pending_event (ev : pending_event_t) : res bool :=
  let* _ := assert_ (bool_decide (ev = SETUP_REQUEST_PENDING_EVENT) || bool_decide (ev = SUBSCRIPTION_REQUEST_PENDING_EVENT)
                     || bool_decide (ev = SUBSCRIPTION_DELETE_REQUEST_PENDING_EVENT) || bool_decide (ev = E42_SETUP_REQUEST_PENDING_EVENT)) in
  Ok true.

(** ** Identifiers of a request *)

Record ric_gen_id_t := mk_ric_gen_id { ric_req_id : Z; ric_inst_id : Z; ran_func_id : Z }.

#[global] Instance ric_gen_id_eq_dec : EqDecision ric_gen_id_t.
Proof. solve_decision. Defined.

Definition eq_ric_gen_id (m0 m1 : ric_gen_id_t) : bool :=
  (ric_req_id m0 =? ric_req_id m1) && (ric_inst_id m0 =? ric_inst_id m1) && (ran_func_id m0 =? ran_func_id m1).

Definition cmp_ric_gen_id (m0 m1 : ric_gen_id_t) : Z :=
  if ran_func_id m0 <? ran_func_id m1 then 1 else if ran_func_id m0 >? ran_func_id m1 then -1
  else if ric_inst_id m0 <? ric_inst_id m1 then 1 else if ric_inst_id m0 >? ric_inst_id m1 then -1
  else if ric_req_id m0 <? ric_req_id m1 then 1 else if ric_req_id m0 >? ric_req_id m1 then -1
  else 0.

Record pending_event_ric_t := mk_pending_event_ric { per_ev : pending_event_t; per_id : ric_gen_id_t }.

Definition cmp_pending_event_ric (p1 p2 : pending_event_ric_t) : Z :=
  let cmp_ev := cmp_pending_event (per_ev p1) (per_ev p2) in
  if negb (cmp_ev =? 0) then cmp_ev else cmp_ric_gen_id (per_id p1) (per_id p2).

Definition eq_pending_event_ric (p1 p2 : pending_event_ric_t) : bool := cmp_pending_event_ric p1 p2 =? 0.

(** ** Identifiers of an E2 node *)

Record e2ap_plmn_t := mk_e2ap_plmn { mcc : Z; mnc : Z; mnc_digit_len : Z }.

Definition eq_e2ap_plmn (m0 m1 : e2ap_plmn_t) : bool :=
  (mcc m0 =? mcc m1) && (mnc m0 =? mnc m1) && (mnc_digit_len m0 =? mnc_digit_len m1).

Definition cmp_e2ap_plmn (m0 m1 : e2ap_plmn_t) : Z :=
  if mcc m0 <? mcc m1 then -1 else if mcc m0 >? mcc m1 then 1
  else if mnc m0 <? mnc m1 then -1 else if mnc m0 >? mnc m1 then 1
  else if mnc_digit_len m0 <? mnc_digit_len m1 then -1 else if mnc_digit_len m0 >? mnc_digit_len m1 then 1
  else 0.

Record e2ap_gnb_id_t := mk_e2ap_gnb_id { nb_id : Z; unused : Z }.

Definition eq_e2ap_gnb_id (m0 m1 : e2ap_gnb_id_t) : bool := (nb_id m0 =? nb_id m1) && (unused m0 =? unused m1).

Inductive ngran_node_t :=
| ngran_eNB | ngran_ng_eNB | ngran_gNB | ngran_eNB_CU | ngran_ng_eNB_CU | ngran_gNB_CU
| ngran_eNB_DU | ngran_gNB_DU | ngran_eNB_MBMS_STA | ngran_gNB_CUCP | ngran_gNB_CUUP | END_NGRAN_NODE_TYPE.

#[global] Instance ngran_node_eq_dec : EqDecision ngran_node_t.
Proof. solve_decision. Defined.

Definition ngran_val (n : ngran_node_t) : Z :=
  match n with
  | ngran_eNB => 0 | ngran_ng_eNB => 1 | ngran_gNB => 2 | ngran_eNB_CU => 3 | ngran_ng_eNB_CU => 4 | ngran_gNB_CU => 5
  | ngran_eNB_DU => 6 | ngran_gNB_DU => 7 | ngran_eNB_MBMS_STA => 8 | ngran_gNB_CUCP => 9 | ngran_gNB_CUUP => 10
  | END_NGRAN_NODE_TYPE => 11
  end.

Definition NODE_IS_CU (n : ngran_node_t) : bool :=
  match n with ngran_eNB_CU | ngran_ng_eNB_CU | ngran_gNB_CU | ngran_gNB_CUCP | ngran_gNB_CUUP => true | _ => false end.
Definition NODE_IS_DU (n : ngran_node_t) : bool := match n with ngran_eNB_DU | ngran_gNB_DU => true | _ => false end.
Definition NODE_IS_CUUP (n : ngran_node_t) : bool := match n with ngran_gNB_CUUP => true | _ => false end.

(** [cu_du_id] is a pointer; [None] is NULL. *)
Record global_e2_node_id_t := mk_global_e2_node_id {
  ge_type : ngran_node_t;
  ge_plmn : e2ap_plmn_t;
  ge_nb_id : e2ap_gnb_id_t;
  ge_cu_du_id : option Z
}.

(** Both pointers, which the code asserts not to be NULL. *)
Definition both_ids (m0 m1 : global_e2_node_id_t) : res (Z * Z) :=
  match ge_cu_du_id m0, ge_cu_du_id m1 with
  | Some a, Some b => Ok (a, b)
  | _, _ => Fail FExit
  end.

(** The two arguments are different objects: for one object the code answers
    true at once. *)
Definition eq_global_e2_node_id (m0 m1 : global_e2_node_id_t) : res bool :=
  if negb (bool_decide (ge_type m0 = ge_type m1)) then Ok false
  else if negb (eq_e2ap_plmn (ge_plmn m0) (ge_plmn m1)) then Ok false
  else if negb (eq_e2ap_gnb_id (ge_nb_id m0) (ge_nb_id m1)) then Ok false
  else if NODE_IS_CUUP (ge_type m0) || NODE_IS_DU (ge_type m0) then
    let* (a, b) := both_ids m0 m1 in
    if negb (a =? b) then Ok false else Ok true
  else Ok true.

Definition cmp_global_e2_node_id (m0 m1 : global_e2_node_id_t) : res Z :=
  if ngran_val (ge_type m0) <? ngran_val (ge_type m1) then Ok (-1)
  else if ngran_val (ge_type m0) >? ngran_val (ge_type m1) then Ok 1
  else
    let rc := cmp_e2ap_plmn (ge_plmn m0) (ge_plmn m1) in
    if negb (rc =? 0) then Ok rc
    else if nb_id (ge_nb_id m0) <? nb_id (ge_nb_id m1) then Ok (-1)
    else if nb_id (ge_nb_id m0) >? nb_id (ge_nb_id m1) then Ok 1
    else if unused (ge_nb_id m0) <? unused (ge_nb_id m1) then Ok 1
    else if unused (ge_nb_id m0) >? unused (ge_nb_id m1) then Ok (-1)
    else if NODE_IS_CU (ge_type m0) || NODE_IS_CUUP (ge_type m0) || NODE_IS_DU (ge_type m0) then
      let* (a, b) := both_ids m0 m1 in
      if a <? b then Ok (-1) else if a >? b then Ok 1 else Ok 0
    else Ok 0.

(** ** Endpoints *)

Record sockaddr_in := mk_sockaddr_in { sin_family : Z; sin_port : Z; s_addr : Z }.

(** [sri] (struct sctp_sndrcvinfo) is not looked into. *)
Record sctp_info_t (sri_t : Type) := mk_sctp_info { si_addr : sockaddr_in; si_sri : sri_t }.
Arguments mk_sctp_info {sri_t}.
Arguments si_addr {sri_t}.
Arguments si_sri {sri_t}.

Definition cmp_sockaddr_in (m0 m1 : sockaddr_in) : Z :=
  if sin_port m0 <? sin_port m1 then 1 else if sin_port m0 >? sin_port m1 then -1
  else if s_addr m0 <? s_addr m1 then 1 else if s_addr m0 >? s_addr m1 then -1
  else if sin_family m0 <? sin_family m1 then 1 else if sin_family m0 >? sin_family m1 then -1
  else 0.

Definition cmp_sctp_sndrcvinfo {sri_t} (m0 m1 : sri_t) : Z := 0.

Definition cmp_sctp_info_wrapper {sri_t} (m0 m1 : sctp_info_t sri_t) : Z :=
  let cmp := cmp_sockaddr_in (si_addr m0) (si_addr m1) in
  if negb (cmp =? 0) then cmp else cmp_sctp_sndrcvinfo (si_sri m0) (si_sri m1).

Definition eq_sctp_info_wrapper {sri_t} (m0 m1 : sctp_info_t sri_t) : bool := cmp_sctp_info_wrapper m0 m1 =? 0.

(** ** Identifiers of the iApp *)

Record xapp_ric_id_t := mk_xapp_ric_id { xr_ric_id : ric_gen_id_t; xr_xapp_id : Z }.

#[global] Instance xapp_ric_id_eq_dec : EqDecision xapp_ric_id_t.
Proof. solve_decision. Defined.

Definition cmp_xapp_ric_gen_id (m0 m1 : xapp_ric_id_t) : Z :=
  if xr_xapp_id m0 <? xr_xapp_id m1 then 1 else if xr_xapp_id m0 >? xr_xapp_id m1 then -1
  else cmp_ric_gen_id (xr_ric_id m0) (xr_ric_id m1).

Definition eq_xapp_id (m0 m1 : Z) : bool := if negb (m0 =? m1) then false else true.

Definition eq_xapp_ric_gen_id (m0 m1 : xapp_ric_id_t) : bool :=
  if negb (eq_xapp_id (xr_xapp_id m0) (xr_xapp_id m0)) then false else eq_ric_gen_id (xr_ric_id m0) (xr_ric_id m1).

Definition eq_xapp_ric_gen_id2 (m0 m1 : xapp_ric_id_t) : bool := xr_xapp_id m0 =? xr_xapp_id m1.

Inductive ric_request_type_e := SUBSCRIPTION_RIC_REQUEST_TYPE | CONTROL_RIC_REQUEST_TYPE | END_RIC_REQUEST_TYPE.

#[global] Instance ric_request_type_eq_dec : EqDecision ric_request_type_e.
Proof. solve_decision. Defined.

Record e2_node_ric_id_t := mk_e2_node_ric_id {
  en_e2_node_id : global_e2_node_id_t;
  en_ric_id : ric_gen_id_t;
  en_ric_req_type : ric_request_type_e
}.

Definition cmp_e2_node_ric_req_wrapper (m0 m1 : e2_node_ric_id_t) : Z :=
  cmp_uint32 (ric_req_id (en_ric_id m0)) (ric_req_id (en_ric_id m1)).

Definition eq_e2_node_ric_req (m0 m1 : e2_node_ric_id_t) : bool := ric_req_id (en_ric_id m0) =? ric_req_id (en_ric_id m1).

(** ** All of them are comparisons *)

#[global] Instance cmp_fd_ok : Comparison cmp_fd := cmp_up_ok.
#[global] Instance cmp_ran_func_id_ok : Comparison cmp_ran_func_id := cmp_up_ok.

#[global] Instance cmp_uint32_ok : Comparison cmp_uint32.
Proof.
  apply (Comparison_ext (cmp_rev cmp_up)); [|apply _]. intros a b. unfold cmp_uint32, cmp_rev, cmp_up.
  repeat (case_bool_; try lia).
Qed.

#[global] Instance cmp_uint16_ok : Comparison cmp_uint16_wrapper.
Proof. apply (Comparison_ext (cmp_then (cmp_on id cmp_up) cmp_none)); [intros a b; by rewrite cmp_then_up|apply _]. Qed.

#[global] Instance cmp_pending_event_ok : Comparison cmp_pending_event := cmp_on_ok pending_event_val cmp_up cmp_up_ok.

#[global] Instance cmp_ric_gen_id_ok : Comparison cmp_ric_gen_id.
Proof.
  apply (Comparison_ext (cmp_then (cmp_on ran_func_id cmp_up) (cmp_then (cmp_on ric_inst_id cmp_up) (cmp_then (cmp_on ric_req_id cmp_up) cmp_none)))); [|apply _].
  intros a b. by rewrite !cmp_then_up.
Qed.

#[global] Instance cmp_pending_event_ric_ok : Comparison cmp_pending_event_ric.
Proof.
  apply (Comparison_ext (cmp_then (cmp_on per_ev cmp_pending_event) (cmp_on per_id cmp_ric_gen_id))); [|apply _].
  intros a b. unfold cmp_pending_event_ric, cmp_then, cmp_on. by destruct (_ =? 0).
Qed.

#[global] Instance cmp_e2ap_plmn_ok : Comparison cmp_e2ap_plmn.
Proof.
  apply (Comparison_ext (cmp_then (cmp_rev (cmp_on mcc cmp_up)) (cmp_then (cmp_rev (cmp_on mnc cmp_up)) (cmp_then (cmp_rev (cmp_on mnc_digit_len cmp_up)) cmp_none)))); [|apply _].
  intros a b. by rewrite !cmp_then_down.
Qed.

#[global] Instance cmp_sockaddr_in_ok : Comparison cmp_sockaddr_in.
Proof.
  apply (Comparison_ext (cmp_then (cmp_on sin_port cmp_up) (cmp_then (cmp_on s_addr cmp_up) (cmp_then (cmp_on sin_family cmp_up) cmp_none)))); [|apply _].
  intros a b. by rewrite !cmp_then_up.
Qed.

#[global] Instance cmp_sctp_info_ok {sri_t} : Comparison (@cmp_sctp_info_wrapper sri_t).
Proof.
  apply (Comparison_ext (cmp_then (cmp_on si_addr cmp_sockaddr_in) cmp_none)); [|apply _].
  intros a b. unfold cmp_sctp_info_wrapper, cmp_then, cmp_on. by destruct (_ =? 0).
Qed.

#[global] Instance cmp_xapp_ric_gen_id_ok : Comparison cmp_xapp_ric_gen_id.
Proof.
  apply (Comparison_ext (cmp_then (cmp_on xr_xapp_id cmp_up) (cmp_on xr_ric_id cmp_ric_gen_id))); [|apply _].
  intros a b. by rewrite cmp_then_up.
Qed.

#[global] Instance cmp_e2_node_ric_req_ok : Comparison cmp_e2_node_ric_req_wrapper.
Proof. change (Comparison (cmp_on (fun m => ric_req_id (en_ric_id m)) cmp_uint32)). apply _. Qed.

(** ** E2 nodes *)

(** A node that has a DU or CU part carries its identifier. *)
Definition node_id_ok (m : global_e2_node_id_t) : Prop :=
  NODE_IS_CU (ge_type m) || NODE_IS_CUUP (ge_type m) || NODE_IS_DU (ge_type m) = true -> ge_cu_du_id m <> None.

(** What [cmp_global_e2_node_id] looks at, in its order. *)
Definition node_part_id (m : global_e2_node_id_t) : Z :=
  if NODE_IS_CU (ge_type m) || NODE_IS_CUUP (ge_type m) || NODE_IS_DU (ge_type m) then default 0 (ge_cu_du_id m) else 0.

Definition node_order : global_e2_node_id_t -> global_e2_node_id_t -> Z :=
  cmp_then (cmp_rev (cmp_on (fun m => ngran_val (ge_type m)) cmp_up)) (cmp_then (cmp_on ge_plmn cmp_e2ap_plmn)
    (cmp_then (cmp_rev (cmp_on (fun m => nb_id (ge_nb_id m)) cmp_up)) (cmp_then (cmp_on (fun m => unused (ge_nb_id m)) cmp_up)
      (cmp_then (cmp_rev (cmp_on node_part_id cmp_up)) cmp_none)))).

#[global] Instance node_order_ok : Comparison node_order.
Proof. unfold node_order. apply _. Qed.

Lemma ngran_val_inj a b : ngran_val a = ngran_val b -> a = b.
Proof. by destruct a, b. Qed.

Lemma cmp_global_e2_node_id_order m0 m1 : node_id_ok m0 -> node_id_ok m1 -> cmp_global_e2_node_id m0 m1 = Ok (node_order m0 m1).
Proof.
  intros H0 H1. unfold cmp_global_e2_node_id, node_order. rewrite cmp_then_down, Z.gtb_ltb.
  destruct (Z.ltb_spec (ngran_val (ge_type m0)) (ngran_val (ge_type m1))); [done|].
  destruct (Z.ltb_spec (ngran_val (ge_type m1)) (ngran_val (ge_type m0))); [done|].
  assert (Ht : ge_type m0 = ge_type m1) by (apply ngran_val_inj; lia).
  rewrite cmp_then_eq. change (cmp_on ge_plmn cmp_e2ap_plmn m0 m1) with (cmp_e2ap_plmn (ge_plmn m0) (ge_plmn m1)).
  destruct (cmp_e2ap_plmn _ _ =? 0); simpl negb; cbv iota; [|done].
  rewrite cmp_then_down, !Z.gtb_ltb. do 2 (case_bool_; [done|]). rewrite cmp_then_up, ?Z.gtb_ltb. do 2 (case_bool_; [done|]).
  rewrite cmp_then_down, ?Z.gtb_ltb. unfold node_part_id, both_ids, node_id_ok in *. rewrite Ht in *.
  case_bool_; [|by rewrite Z.ltb_irrefl].
  destruct (ge_cu_du_id m0), (ge_cu_du_id m1); try naive_solver. simpl. rewrite Z.gtb_ltb. by repeat case_bool_.
Qed.
