(* ===== verification/RbTree.v ===== *)
(** The red-black tree of flexric
    (util/alg_ds/ds/assoc_container/assoc_rb_tree.[ch]); definitions only.

    The nodes of a tree are a store of their own, from addresses to records with
    the pointers [parent], [left] and [right]; the leaves and the parent of the
    root are one shared node, [dummy], which is written to as well.  0 is NULL,
    an address that is never allocated, and following it, or a node that was
    freed, is [FBounds].  The comparison is a parameter of the tree; [comp a b]
    is 1 when [a] comes first.  A key is the content of the block that the tree
    allocates for it, a value is the pointer the caller gives. *)

From S2P Require Import Prelude.
#[local] Open Scope nat_scope.

Inductive assoc_color_e := ASSOC_BLACK | ASSOC_RED.

#[global] Instance assoc_color_eq_dec : EqDecision assoc_color_e.
Proof. solve_decision. Defined.

Definition is_red (c : assoc_color_e) : bool := match c with ASSOC_RED => true | ASSOC_BLACK => false end.

Record assoc_node_t (K V : Type) := mk_node {
  nd_key : option K;
  nd_value : option V;
  nd_parent : nat;
  nd_left : nat;
  nd_right : nat;
  nd_color : assoc_color_e
}.
Arguments mk_node {K V}.
Arguments nd_key {K V}.
Arguments nd_value {K V}.
Arguments nd_parent {K V}.
Arguments nd_left {K V}.
Arguments nd_right {K V}.
Arguments nd_color {K V}.

(** [rb_nodes] and [rb_brk] are the memory of the nodes; [rb_free_func] says
    whether the pointer of that name is not NULL. *)
Record assoc_rb_tree_t (K V : Type) := mk_rb_tree {
  rb_dummy : nat;
  rb_root : nat;
  rb_size : Z;
  rb_key_sz : Z;
  rb_free_func : bool;
  rb_nodes : gmap nat (assoc_node_t K V);
  rb_brk : nat
}.
Arguments mk_rb_tree {K V}.
Arguments rb_dummy {K V}.
Arguments rb_root {K V}.
Arguments rb_size {K V}.
Arguments rb_key_sz {K V}.
Arguments rb_free_func {K V}.
Arguments rb_nodes {K V}.
Arguments rb_brk {K V}.

Section RbTree.
Context {K V : Type}.
Variable comp : K -> K -> Z.
Abbreviation tree := (assoc_rb_tree_t K V).
Abbreviation node_t := (assoc_node_t K V).

(** ** Reading and writing the fields of a node *)

Definition node (t : tree) (a : nat) : res node_t := of_opt FBounds (rb_nodes t !! a).

Definition put_node (t : tree) (a : nat) (n : node_t) : tree := {| t with rb_nodes := <[a:=n]> (rb_nodes t) |}.

Definition upd_node (t : tree) (a : nat) (f : node_t -> node_t) : res tree :=
  let* n := node t a in Ok (put_node t a (f n)).

Definition set_parent (t : tree) (a p : nat) : res tree := upd_node t a (fun n => {| n with nd_parent := p |}).
Definition set_left (t : tree) (a l : nat) : res tree := upd_node t a (fun n => {| n with nd_left := l |}).
Definition set_right (t : tree) (a r : nat) : res tree := upd_node t a (fun n => {| n with nd_right := r |}).
Definition set_color (t : tree) (a : nat) (c : assoc_color_e) : res tree := upd_node t a (fun n => {| n with nd_color := c |}).
Definition set_root (t : tree) (a : nat) : tree := {| t with rb_root := a |}.

(** [tree->comp(key, a->key)]. *)
Definition compare_at (t : tree) (key : K) (a : nat) : res Z :=
  let* n := node t a in
  let* k := of_opt FBounds (nd_key n) in
  Ok (comp key k).

Definition color_of (t : tree) (a : nat) : res assoc_color_e := let* n := node t a in Ok (nd_color n).

(** ** Creation and release *)

Definition init_node (t : tree) (key : option K) (value : option V) : tree * nat :=
  let a := rb_brk t in
  ({| t with rb_nodes := <[a := mk_node key value 0 0 0 ASSOC_RED]> (rb_nodes t); rb_brk := S a |}, a).

Definition create_node_rb_tree (t : tree) (key : K) (value : V) : res (tree * nat) :=
  let (t, x) := init_node t (Some key) (Some value) in
  let* t := set_parent t x (rb_dummy t) in
  let* t := set_left t x (rb_dummy t) in
  let* t := set_right t x (rb_dummy t) in
  Ok (t, x).

Definition free_node_rb_tree (t : tree) (a : nat) : res tree :=
  let* _ := node t a in
  Ok {| t with rb_nodes := delete a (rb_nodes t) |}.

(** The calls of [f] are returned, in their order.  The recursion goes down the
    tree; a node is visited once, so the number of nodes is enough fuel. *)
Fixpoint depth_first_search_free (fuel : nat) (t : tree) (a : nat) (f : bool)
    : res (tree * list (option K * option V)) :=
  let* _ := assert_ (negb (a =? 0)) in
  if a =? rb_dummy t then Ok (t, [])
  else match fuel with
       | O => Fail FFuel
       | S fuel' =>
           let* n := node t a in
           let* (t, ev1) := depth_first_search_free fuel' t (nd_left n) f in
           let* n := node t a in
           let* (t, ev2) := depth_first_search_free fuel' t (nd_right n) f in
           let* n := node t a in
           let* t := free_node_rb_tree t a in
           Ok (t, ev1 ++ ev2 ++ if f then [(nd_key n, nd_value n)] else [])
       end.

Definition assoc_rb_tree_init (key_sz : Z) (free_func : bool) : res tree :=
  let* _ := assert_ (0 <? key_sz)%Z in
  let t := mk_rb_tree 0 0 0 key_sz free_func ∅ 1 in
  let (t, dummy) := init_node t None None in
  let* t := set_color t dummy ASSOC_BLACK in
  Ok {| t with rb_dummy := dummy; rb_root := dummy |}.

Definition assoc_rb_tree_free (t : tree) : res (tree * list (option K * option V)) :=
  let* (t, ev) := depth_first_search_free (size (rb_nodes t)) t (rb_root t) (rb_free_func t) in
  let* t := free_node_rb_tree t (rb_dummy t) in
  Ok (t, ev).

(** ** Rotations *)

(** The node [y] takes the place of [x] below the parent of [x]. *)
Definition replace_child (t : tree) (x y : nat) : res tree :=
  let* xn := node t x in
  let p := nd_parent xn in
  if p =? rb_dummy t then Ok (set_root t y)
  else
    let* pn := node t p in
    if x =? nd_left pn then set_left t p y else set_right t p y.

(** [if(a != tree->dummy) a->parent = p;] *)
Definition adopt (t : tree) (a p : nat) : res tree :=
  if a =? rb_dummy t then Ok t else set_parent t a p.

(** The lines the two rotations share: [x] gets the inner subtree [b] of its
    child [y], which takes its place. *)
Definition raise_child (t : tree) (x y b : nat) : res tree :=
  let* t := adopt t b x in
  let* xn := node t x in
  let* t := set_parent t y (nd_parent xn) in
  replace_child t x y.

Definition left_rotate (t : tree) (x : nat) : res tree :=
  let* xn := node t x in
  let* _ := assert_ (negb (nd_right xn =? rb_dummy t)) in
  let y := nd_right xn in
  let* yn := node t y in
  let* t := set_right t x (nd_left yn) in
  let* t := raise_child t x y (nd_left yn) in
  let* t := set_left t y x in
  set_parent t x y.

Definition right_rotate (t : tree) (x : nat) : res tree :=
  let* xn := node t x in
  let* _ := assert_ (negb (nd_left xn =? rb_dummy t)) in
  let y := nd_left xn in
  let* yn := node t y in
  let* t := set_left t x (nd_right yn) in
  let* t := raise_child t x y (nd_right yn) in
  let* t := set_right t y x in
  set_parent t x y.

(** ** Insertion *)

(** Case 1. *)
Definition flip_colors (t : tree) (parent uncle grand_parent : nat) : res tree :=
  let* t := set_color t parent ASSOC_BLACK in
  let* t := set_color t uncle ASSOC_BLACK in
  set_color t grand_parent ASSOC_RED.

(** The loop goes up two levels at each turn. *)
Fixpoint insert_fixup_loop (fuel : nat) (t : tree) (z : nat) : res tree :=
  match fuel with
  | O => Fail FFuel
  | S fuel' =>
      let* zn := node t z in
      let parent := nd_parent zn in
      let* pn := node t parent in
      if negb (is_red (nd_color pn)) then Ok t
      else
        let grand_parent := nd_parent pn in
        let* gn := node t grand_parent in
        if parent =? nd_left gn then
          let uncle := nd_right gn in
          let* c := color_of t uncle in
          if is_red c then
            let* t := flip_colors t parent uncle grand_parent in
            insert_fixup_loop fuel' t grand_parent
          else
            let* (t, z, parent) :=
              if z =? nd_right pn then
                let* t := left_rotate t parent in
                let* zn := node t parent in
                Ok (t, parent, nd_parent zn)
              else Ok (t, z, parent) in
            let* t := set_color t parent ASSOC_BLACK in
            let* t := set_color t grand_parent ASSOC_RED in
            let* t := right_rotate t grand_parent in
            insert_fixup_loop fuel' t z
        else
          let uncle := nd_left gn in
          let* c := color_of t uncle in
          if is_red c then
            let* t := flip_colors t parent uncle grand_parent in
            insert_fixup_loop fuel' t grand_parent
          else
            let* (t, z, parent) :=
              if z =? nd_left pn then
                let* t := right_rotate t parent in
                let* zn := node t parent in
                Ok (t, parent, nd_parent zn)
              else Ok (t, z, parent) in
            let* t := set_color t parent ASSOC_BLACK in
            let* t := set_color t grand_parent ASSOC_RED in
            let* t := left_rotate t grand_parent in
            insert_fixup_loop fuel' t z
  end.

Definition insert_fixup (t : tree) (z : nat) : res tree :=
  let* t := insert_fixup_loop (size (rb_nodes t)) t z in
  set_color t (rb_root t) ASSOC_BLACK.

(** "Find leaf to insert": the last node before [dummy] on the way down. *)
Fixpoint find_leaf (fuel : nat) (t : tree) (key : K) (x y : nat) : res nat :=
  if x =? rb_dummy t then Ok y
  else match fuel with
       | O => Fail FFuel
       | S fuel' =>
           let* c := compare_at t key x in
           let* n := node t x in
           find_leaf fuel' t key (if (c =? 1)%Z then nd_left n else nd_right n) x
       end.

Definition assoc_rb_tree_insert (t : tree) (key : K) (key_sz : Z) (value : V) : res tree :=
  let* _ := assert_ (rb_key_sz t =? key_sz)%Z in
  let* (t, z) := create_node_rb_tree t key value in
  let* _ := assert_ (negb (z =? rb_dummy t)) in
  let* y := find_leaf (size (rb_nodes t)) t key (rb_root t) (rb_dummy t) in
  let* t := set_parent t z y in
  let* t :=
    if y =? rb_dummy t then Ok (set_root t z)
    else
      let* c := compare_at t key y in
      if (c =? 1)%Z then set_left t y z else set_right t y z in
  let* t := insert_fixup t z in
  Ok {| t with rb_size := u64 (rb_size t + 1) |}.

(** ** Deletion *)

(** Case 1: the sibling of the left child of [p]; a red one is first replaced
    by a black one. *)
Definition sibling_of_left (t : tree) (p : nat) : res (tree * nat) :=
  let* pn := node t p in
  let w := nd_right pn in
  let* wc := color_of t w in
  if is_red wc then
    let* t := set_color t w ASSOC_BLACK in
    let* t := set_color t p ASSOC_RED in
    let* t := left_rotate t p in
    let* pn := node t p in
    Ok (t, nd_right pn)
  else Ok (t, w).

(** Cases 3 and 4: a red child of the sibling [w] gives a black node. *)
Definition borrow_for_left (t : tree) (p w : nat) : res tree :=
  let* wn := node t w in
  let* rc := color_of t (nd_right wn) in
  let* (t, w) :=
    if negb (is_red rc) then
      let* _ := assert_ (negb (is_red (nd_color wn))) in
      let* lc := color_of t (nd_left wn) in
      let* _ := assert_ (is_red lc) in
      let* t := set_color t (nd_left wn) ASSOC_BLACK in
      let* t := set_color t w ASSOC_RED in
      let* t := right_rotate t w in
      let* pn := node t p in
      Ok (t, nd_right pn)
    else Ok (t, w) in
  let* wn := node t w in
  let* _ := assert_ (negb (is_red (nd_color wn))) in
  let* rc := color_of t (nd_right wn) in
  let* _ := assert_ (is_red rc) in
  let* pc := color_of t p in
  let* t := set_color t w pc in
  let* t := set_color t p ASSOC_BLACK in
  let* t := set_color t (nd_right wn) ASSOC_BLACK in
  left_rotate t p.

(** Case 1: the sibling of the right child of [p]; a red one is first replaced
    by a black one. *)
Definition sibling_of_right (t : tree) (p : nat) : res (tree * nat) :=
  let* pn := node t p in
  let w := nd_left pn in
  let* wc := color_of t w in
  if is_red wc then
    let* t := set_color t w ASSOC_BLACK in
    let* t := set_color t p ASSOC_RED in
    let* t := right_rotate t p in
    let* pn := node t p in
    Ok (t, nd_left pn)
  else Ok (t, w).

(** Cases 3 and 4: a red child of the sibling [w] gives a black node. *)
Definition borrow_for_right (t : tree) (p w : nat) : res tree :=
  let* wn := node t w in
  let* rc := color_of t (nd_left wn) in
  let* (t, w) :=
    if negb (is_red rc) then
      let* _ := assert_ (negb (is_red (nd_color wn))) in
      let* lc := color_of t (nd_right wn) in
      let* _ := assert_ (is_red lc) in
      let* t := set_color t (nd_right wn) ASSOC_BLACK in
      let* t := set_color t w ASSOC_RED in
      let* t := left_rotate t w in
      let* pn := node t p in
      Ok (t, nd_left pn)
    else Ok (t, w) in
  let* wn := node t w in
  let* _ := assert_ (negb (is_red (nd_color wn))) in
  let* rc := color_of t (nd_left wn) in
  let* _ := assert_ (is_red rc) in
  let* pc := color_of t p in
  let* t := set_color t w pc in
  let* t := set_color t p ASSOC_BLACK in
  let* t := set_color t (nd_left wn) ASSOC_BLACK in
  right_rotate t p.

(** Case 2 goes up one level, or to a red node, which ends the loop; the other
    cases end it. *)
Fixpoint delete_fixup_loop (fuel : nat) (t : tree) (x : nat) : res (tree * nat) :=
  match fuel with
  | O => Fail FFuel
  | S fuel' =>
      let* xc := color_of t x in
      if (x =? rb_root t) || is_red xc then Ok (t, x)
      else
        let* xn := node t x in
        let p := nd_parent xn in
        let* pn := node t p in
        if x =? nd_left pn then
          let* (t, w) := sibling_of_left t p in
          let* wn := node t w in
          let* _ := assert_ (negb (is_red (nd_color wn))) in
          let* lc := color_of t (nd_left wn) in
          let* rc := color_of t (nd_right wn) in
          if negb (is_red lc) && negb (is_red rc) then
            let* t := set_color t w ASSOC_RED in
            delete_fixup_loop fuel' t p
          else
            let* t := borrow_for_left t p w in
            delete_fixup_loop fuel' t (rb_root t)
        else
          let* (t, w) := sibling_of_right t p in
          let* wn := node t w in
          let* _ := assert_ (negb (is_red (nd_color wn))) in
          let* lc := color_of t (nd_left wn) in
          let* rc := color_of t (nd_right wn) in
          if negb (is_red lc) && negb (is_red rc) then
            let* t := set_color t w ASSOC_RED in
            delete_fixup_loop fuel' t p
          else
            let* t := borrow_for_right t p w in
            delete_fixup_loop fuel' t (rb_root t)
  end.

Definition delete_fixup (t : tree) (x : nat) : res tree :=
  let* (t, x) := delete_fixup_loop (size (rb_nodes t)) t x in
  set_color t x ASSOC_BLACK.

Definition transplant (t : tree) (u v : nat) : res tree :=
  let* _ := assert_ (negb (u =? rb_dummy t)) in
  let* t := replace_child t u v in
  let* un := node t u in
  set_parent t v (nd_parent un).

Fixpoint leftmost (fuel : nat) (t : tree) (x : nat) : res nat :=
  let* n := node t x in
  if nd_left n =? rb_dummy t then Ok x
  else match fuel with
       | O => Fail FFuel
       | S fuel' => leftmost fuel' t (nd_left n)
       end.

Definition minimum (t : tree) (x : nat) : res nat :=
  if x =? rb_dummy t then Ok (rb_dummy t) else leftmost (size (rb_nodes t)) t x.

Fixpoint find_loop (fuel : nat) (t : tree) (a : nat) (key : K) : res nat :=
  if a =? rb_dummy t then Ok a
  else match fuel with
       | O => Fail FFuel
       | S fuel' =>
           let* rc := compare_at t key a in
           let* n := node t a in
           if (rc =? 1)%Z then find_loop fuel' t (nd_left n) key
           else if (rc =? -1)%Z then find_loop fuel' t (nd_right n) key
           else let* _ := assert_ (rc =? 0)%Z in Ok a
       end.

Definition find_rb_tree (t : tree) (a : nat) (key : K) : res nat := find_loop (size (rb_nodes t)) t a key.

(** [y], the successor of [z], leaves its place and gets the right subtree of
    [z]; its own right subtree takes its place. *)
Definition detach (t : tree) (z y : nat) : res tree :=
  let* yn := node t y in
  if nd_parent yn =? z then set_parent t (nd_right yn) y
  else
    let* t := transplant t y (nd_right yn) in
    let* zn := node t z in
    let* t := set_right t y (nd_right zn) in
    set_parent t (nd_right zn) y.

(** [y] takes the place, the left subtree and the colour of [z]. *)
Definition take_place (t : tree) (z y : nat) : res tree :=
  let* t := transplant t z y in
  let* zn := node t z in
  let* t := set_left t y (nd_left zn) in
  let* t := set_parent t (nd_left zn) y in
  set_color t y (nd_color zn).

Definition assoc_rb_tree_extract_node (t : tree) (z : nat) : res tree :=
  let* _ := assert_ (negb (z =? 0)) in
  let* _ := assert_ (negb (z =? rb_dummy t)) in
  let* zn := node t z in
  let* (t, original_color, x) :=
    if nd_left zn =? rb_dummy t then
      let* t := transplant t z (nd_right zn) in
      Ok (t, nd_color zn, nd_right zn)
    else if nd_right zn =? rb_dummy t then
      let* t := transplant t z (nd_left zn) in
      Ok (t, nd_color zn, nd_left zn)
    else
      let* y := minimum t (nd_right zn) in
      let* yn := node t y in
      let* t := detach t z y in
      let* t := take_place t z y in
      Ok (t, nd_color yn, nd_right yn) in
  if is_red original_color then Ok t else delete_fixup t x.

Definition assoc_rb_tree_extract (t : tree) (key : K) : res (tree * option V) :=
  let* z := find_rb_tree t (rb_root t) key in
  let* _ := assert_ (negb (z =? rb_dummy t)) in
  let* t := assoc_rb_tree_extract_node t z in
  let* zn := node t z in
  let* t := free_node_rb_tree t z in
  let* _ := assert_ (negb (rb_size t =? 0)%Z) in
  Ok ({| t with rb_size := (rb_size t - 1)%Z |}, nd_value zn).

(** Also returns what [free_func] is called with; calling NULL is [FBounds]. *)
Definition assoc_rb_tree_free_it (t : tree) (it : nat) : res (tree * (option K * option V)) :=
  let* _ := assert_ (negb (it =? rb_dummy t)) in
  let* t := assoc_rb_tree_extract_node t it in
  let* zn := node t it in
  let* _ := of_opt FBounds (if rb_free_func t then Some tt else None) in
  let* t := free_node_rb_tree t it in
  let* _ := assert_ (negb (rb_size t =? 0)%Z) in
  Ok ({| t with rb_size := (rb_size t - 1)%Z |}, (nd_key zn, nd_value zn)).

(** ** Iterators *)

Definition assoc_rb_tree_front (t : tree) : res nat := minimum t (rb_root t).

(** "Otherwise go up until you come from parent's left". *)
Fixpoint climb (fuel : nat) (t : tree) (a : nat) (p : nat) : res nat :=
  if p =? rb_dummy t then Ok p
  else
    let* pn := node t p in
    if nd_left pn =? a then Ok p
    else match fuel with
         | O => Fail FFuel
         | S fuel' => climb fuel' t p (nd_parent pn)
         end.

Definition assoc_rb_tree_next (t : tree) (it : nat) : res nat :=
  let* _ := assert_ (negb (it =? 0)) in
  let* _ := assert_ (negb (it =? rb_dummy t)) in
  let* n := node t it in
  if nd_right n =? rb_dummy t then climb (size (rb_nodes t)) t it (nd_parent n)
  else minimum t (nd_right n).

Definition assoc_rb_tree_end (t : tree) : nat := rb_dummy t.

Definition assoc_rb_tree_key (t : tree) (it : nat) : res (option K) :=
  let* _ := assert_ (negb (it =? rb_dummy t)) in
  let* n := node t it in Ok (nd_key n).

Definition assoc_rb_tree_value (t : tree) (it : nat) : res (option V) :=
  let* _ := assert_ (negb (it =? rb_dummy t)) in
  let* n := node t it in Ok (nd_value n).

Definition assoc_rb_tree_size (t : tree) : Z := rb_size t.

End RbTree.
