(* ===== verification/RbShape.v ===== *)
(** The red-black tree of flexric in memory: the binary tree that the nodes
    represent, a place in it as a context and a subtree (a zipper), and the
    moves of the code, rotations, recolouring and transplanting, on zippers. *)

From S2P Require Import Prelude RbTree.
#[local] Open Scope nat_scope.

(** The nodes of a place are apart. *)
Ltac apart :=
  repeat match goal with
  | H : NoDup (_ :: _) |- _ => apply NoDup_cons in H as [? H]
  | H : NoDup (_ ++ _) |- _ => apply NoDup_app in H as (? & ? & H)
  end; set_solver.

Ltac apart_list :=
  repeat match goal with
  | H : NoDup (_ :: _) |- _ => apply NoDup_cons in H as [? H]
  | H : NoDup (_ ++ _) |- _ => apply NoDup_app in H as (? & ? & H)
  end;
  repeat first [assumption|apply NoDup_nil_2|apply NoDup_cons; split|apply NoDup_app; split_and!]; set_solver.

Section Shape.
Context {K V : Type}.
Abbreviation tree := (assoc_rb_tree_t K V).
Abbreviation node_t := (assoc_node_t K V).
Implicit Types (m : gmap nat node_t) (t : tree).

(** ** Trees and contexts *)

Inductive rbt :=
| E
| T (c : assoc_color_e) (a : nat) (k : K) (v : V) (l r : rbt).

Inductive ctx :=
| Top
| InL (c : assoc_color_e) (a : nat) (k : K) (v : V) (r : rbt) (u : ctx)
| InR (c : assoc_color_e) (a : nat) (k : K) (v : V) (l : rbt) (u : ctx).

Fixpoint plug (u : ctx) (s : rbt) : rbt :=
  match u with
  | Top => s
  | InL c a k v r u => plug u (T c a k v s r)
  | InR c a k v l u => plug u (T c a k v l s)
  end.

Definition color (s : rbt) : assoc_color_e := match s with E => ASSOC_BLACK | T c _ _ _ _ _ => c end.

(** The pointer to a subtree, and to the node above a place. *)
Definition ptr (d : nat) (s : rbt) : nat := match s with E => d | T _ a _ _ _ _ => a end.
Definition above (d : nat) (u : ctx) : nat := match u with Top => d | InL _ a _ _ _ _ | InR _ a _ _ _ _ => a end.

Fixpoint addrs (s : rbt) : list nat :=
  match s with E => [] | T _ a _ _ l r => a :: addrs l ++ addrs r end.

Fixpoint caddrs (u : ctx) : list nat :=
  match u with
  | Top => []
  | InL _ a _ _ s u | InR _ a _ _ s u => a :: addrs s ++ caddrs u
  end.

Lemma addrs_plug u s : addrs (plug u s) ≡ₚ caddrs u ++ addrs s.
Proof.
  revert s. induction u as [|c a k v r u IH|c a k v l u IH]; intros s; simpl; [done| |]; rewrite IH; simpl; solve_Permutation.
Qed.

(** The contents, in order: the node, the key and the value of each element. *)
Definition entry : Type := nat * K * V.

Fixpoint inorder (s : rbt) : list entry :=
  match s with E => [] | T _ a k v l r => inorder l ++ (a, k, v) :: inorder r end.

Fixpoint before (u : ctx) : list entry :=
  match u with
  | Top => []
  | InL _ _ _ _ _ u => before u
  | InR _ a k v l u => before u ++ inorder l ++ [(a, k, v)]
  end.

Fixpoint after (u : ctx) : list entry :=
  match u with
  | Top => []
  | InL _ a k v r u => (a, k, v) :: inorder r ++ after u
  | InR _ _ _ _ _ u => after u
  end.

Lemma inorder_plug u s : inorder (plug u s) = before u ++ inorder s ++ after u.
Proof.
  revert s. induction u as [|c a k v r u IH|c a k v l u IH]; intros s; simpl; [by rewrite app_nil_r| |];
    rewrite IH; simpl; by rewrite <- !app_assoc.
Qed.

(** ** Representation *)

Fixpoint rep m (d p : nat) (s : rbt) : Prop :=
  match s with
  | E => True
  | T c a k v l r => m !! a = Some (mk_node (Some k) (Some v) p (ptr d l) (ptr d r) c) /\ rep m d a l /\ rep m d a r
  end.

Fixpoint crep m (d root : nat) (u : ctx) (q : nat) : Prop :=
  match u with
  | Top => root = q
  | InL c a k v r u =>
      m !! a = Some (mk_node (Some k) (Some v) (above d u) q (ptr d r) c) /\ rep m d a r /\ crep m d root u a
  | InR c a k v l u =>
      m !! a = Some (mk_node (Some k) (Some v) (above d u) (ptr d l) q c) /\ rep m d a l /\ crep m d root u a
  end.

Lemma rep_frame m m' d p s : (forall a, a ∈ addrs s -> m' !! a = m !! a) -> rep m d p s -> rep m' d p s.
Proof.
  revert p. induction s as [|c a k v l IHl r IHr]; intros p Hf; simpl; [done|]. intros (Ha & Hl & Hr).
  rewrite Hf by (simpl; set_solver). split_and!; [done|apply IHl|apply IHr]; try done;
    intros b Hb; apply Hf; simpl; set_solver.
Qed.

Lemma crep_frame m m' d root u q : (forall a, a ∈ caddrs u -> m' !! a = m !! a) -> crep m d root u q -> crep m' d root u q.
Proof.
  revert q. induction u as [|c a k v r u IH|c a k v l u IH]; intros q Hf; simpl; [done| |]; intros (Ha & Hs & Hu);
    (rewrite Hf by (simpl; set_solver)); (split_and!; [done|eapply rep_frame; [|done]|apply IH; [|done]]);
    intros b Hb; apply Hf; simpl; set_solver.
Qed.

Lemma rep_plug m d root u s :
  rep m d d (plug u s) /\ root = ptr d (plug u s) <-> rep m d (above d u) s /\ crep m d root u (ptr d s).
Proof.
  revert s. induction u as [|c a k v r u IH|c a k v l u IH]; intros s; simpl; [done| |]; rewrite IH; simpl; tauto.
Qed.

(** The tree [t] of the code represents [w]; the nodes of the list [ex] are
    allocated but not part of it.  There are no other nodes. *)
Record rb_rep (t : tree) (w : rbt) (ex : list nat) : Prop := {
  rr_dummy : exists dn, rb_nodes t !! rb_dummy t = Some dn /\ nd_color dn = ASSOC_BLACK;
  rr_rep : rep (rb_nodes t) (rb_dummy t) (rb_dummy t) w;
  rr_root : rb_root t = ptr (rb_dummy t) w;
  rr_nodup : NoDup (rb_dummy t :: ex ++ addrs w);
  rr_dom : forall a, is_Some (rb_nodes t !! a) <-> a ∈ rb_dummy t :: ex ++ addrs w;
  rr_brk : forall a, a ∈ rb_dummy t :: ex ++ addrs w -> 0 < a < rb_brk t
}.

Definition node_kv (n : node_t) : option K * option V := (nd_key n, nd_value n).

(** What no step on the nodes of a tree changes: a node keeps its key and its
    value. *)
Record rb_kept (t t' : tree) : Prop := {
  rk_dummy : rb_dummy t' = rb_dummy t;
  rk_size : rb_size t' = rb_size t;
  rk_key_sz : rb_key_sz t' = rb_key_sz t;
  rk_free : rb_free_func t' = rb_free_func t;
  rk_brk : rb_brk t' = rb_brk t;
  rk_content : node_kv <$> rb_nodes t' = node_kv <$> rb_nodes t
}.

#[global] Instance rb_kept_preorder : PreOrder rb_kept.
Proof.
  split; [done|]. intros t1 t2 t3 [] []. split; congruence.
Qed.

Lemma rk_count t t' : rb_kept t t' -> dom (rb_nodes t') = dom (rb_nodes t).
Proof. intros H. by rewrite <- (dom_fmap_L node_kv (rb_nodes t')), (rk_content _ _ H), dom_fmap_L. Qed.

Lemma rk_node t t' a n : rb_kept t t' -> rb_nodes t !! a = Some n ->
  exists n', rb_nodes t' !! a = Some n' /\ nd_key n' = nd_key n /\ nd_value n' = nd_value n.
Proof.
  intros H Ha. assert (Hk : (node_kv <$> rb_nodes t') !! a = Some (node_kv n)) by (rewrite (rk_content _ _ H), lookup_fmap; by rewrite Ha).
  rewrite lookup_fmap in Hk. destruct (rb_nodes t' !! a) as [n'|]; simpl in Hk; [|done]. injection Hk as Hk Hv. by exists n'.
Qed.

(** ** The addresses around a place *)

Lemma rep_nodup t u s ex : rb_rep t (plug u s) ex -> NoDup (rb_dummy t :: ex ++ caddrs u ++ addrs s).
Proof. intros H. pose proof (rr_nodup _ _ _ H) as Hn. by rewrite addrs_plug in Hn. Qed.

Lemma rep_place t u s ex : rb_rep t (plug u s) ex ->
  rep (rb_nodes t) (rb_dummy t) (above (rb_dummy t) u) s /\ crep (rb_nodes t) (rb_dummy t) (rb_root t) u (ptr (rb_dummy t) s).
Proof. intros H. apply rep_plug. split; [apply (rr_rep _ _ _ H)|apply (rr_root _ _ _ H)]. Qed.

Lemma rep_node t u c a k v l r ex : rb_rep t (plug u (T c a k v l r)) ex ->
  node t a = Ok (mk_node (Some k) (Some v) (above (rb_dummy t) u) (ptr (rb_dummy t) l) (ptr (rb_dummy t) r) c).
Proof. intros H. destruct (rep_place _ _ _ _ H) as [[Ha _] _]. unfold node. by rewrite Ha. Qed.

Lemma color_ptr t u s ex : rb_rep t (plug u s) ex -> color_of t (ptr (rb_dummy t) s) = Ok (color s).
Proof.
  intros H. unfold color_of. destruct s as [|c a k v l r]; simpl.
  - destruct (rr_dummy _ _ _ H) as (dn & Hd & Hc). unfold node. rewrite Hd. simpl. by rewrite Hc.
  - by rewrite (rep_node t u c a k v l r ex H).
Qed.

Lemma not_dummy t u c a k v l r ex : rb_rep t (plug u (T c a k v l r)) ex -> (a =? rb_dummy t) = false.
Proof. intros H%rep_nodup. apply Nat.eqb_neq. intros ->. apply NoDup_cons in H as [H _]. simpl in H. set_solver. Qed.

Lemma above_dummy t u s ex : rb_rep t (plug u s) ex -> (above (rb_dummy t) u =? rb_dummy t) = match u with Top => true | _ => false end.
Proof.
  intros H. destruct u as [|c a k v r u|c a k v l u]; simpl; [apply Nat.eqb_refl| |]; simpl in H; by apply (not_dummy _ _ _ _ _ _ _ _ _ H).
Qed.

(** ** A step on the nodes *)

Lemma upd_node_ok t a f n : rb_nodes t !! a = Some n -> upd_node t a f = Ok (put_node t a (f n)).
Proof. intros H. unfold upd_node, node. by rewrite H. Qed.

Lemma put_kept t a n : node_kv <$> rb_nodes t !! a = Some (node_kv n) -> rb_kept t (put_node t a n).
Proof. intros H. split; try done. simpl. rewrite fmap_insert. apply insert_id. by rewrite lookup_fmap. Qed.

(** [rb_rep] after steps that keep the nodes allocated. *)
Lemma rep_built t t' w ex u' s' ex' :
  rb_rep t w ex -> rb_kept t t' ->
  (exists dn, rb_nodes t' !! rb_dummy t = Some dn /\ nd_color dn = ASSOC_BLACK) ->
  ex' ++ caddrs u' ++ addrs s' ≡ₚ ex ++ addrs w ->
  rep (rb_nodes t') (rb_dummy t) (above (rb_dummy t) u') s' ->
  crep (rb_nodes t') (rb_dummy t) (rb_root t') u' (ptr (rb_dummy t) s') ->
  rb_rep t' (plug u' s') ex'.
Proof.
  intros [Hd Hr Hro Hn Hdom Hb] Hk Hdn Hp Hs Hu. pose proof (rk_dummy _ _ Hk) as Kd. pose proof (rk_brk _ _ Hk) as Kb.
  assert (Hperm : ex' ++ addrs (plug u' s') ≡ₚ ex ++ addrs w) by by rewrite addrs_plug.
  destruct (proj2 (rep_plug (rb_nodes t') (rb_dummy t) (rb_root t') u' s') (conj Hs Hu)) as [H1 H2].
  split; rewrite ?Kd, ?Kb; [done..| | |].
  - by rewrite Hperm.
  - intros a. rewrite Hperm, <- Hdom, <- !elem_of_dom. by rewrite (rk_count _ _ Hk).
  - intros a. rewrite Hperm. apply Hb.
Qed.

(** [rb_rep] after a step that moves the nodes around. *)
Lemma rep_moved t t' u s u' s' ex :
  rb_rep t (plug u s) ex -> rb_kept t t' ->
  rb_nodes t' !! rb_dummy t = rb_nodes t !! rb_dummy t ->
  caddrs u' ++ addrs s' ≡ₚ caddrs u ++ addrs s ->
  rep (rb_nodes t') (rb_dummy t) (above (rb_dummy t) u') s' ->
  crep (rb_nodes t') (rb_dummy t) (rb_root t') u' (ptr (rb_dummy t) s') ->
  rb_rep t' (plug u' s') ex.
Proof.
  intros H Hk Hdn Hp Hs Hu. apply (rep_built t t' (plug u s) ex u' s' ex); [done|done| | |done|done].
  - rewrite Hdn. apply (rr_dummy _ _ _ H).
  - by rewrite addrs_plug, Hp.
Qed.

Lemma set_color_ok t u c a k v l r ex c' : rb_rep t (plug u (T c a k v l r)) ex ->
  exists t', set_color t a c' = Ok t' /\ rb_rep t' (plug u (T c' a k v l r)) ex /\ rb_kept t t' /\
    rb_nodes t' !! rb_dummy t = rb_nodes t !! rb_dummy t.
Proof.
  intros H. pose proof (rep_nodup _ _ _ _ H) as Hn. destruct (rep_place _ _ _ _ H) as [(Ha & Hl & Hr) Hu].
  assert (Hd : a <> rb_dummy t) by (apply Nat.eqb_neq; by eapply not_dummy).
  assert (Hk : rb_kept t (put_node t a (mk_node (Some k) (Some v) (above (rb_dummy t) u) (ptr (rb_dummy t) l) (ptr (rb_dummy t) r) c')))
    by (apply put_kept; by rewrite Ha).
  eexists. split; [by apply (upd_node_ok t a _ _ Ha)|]. simpl. split_and!; [|done|by rewrite lookup_insert_ne].
  assert (Ho : forall b, b ∈ addrs l ++ addrs r ++ caddrs u -> a <> b).
  { clear -Hn. apply NoDup_cons in Hn as [_ Hn]. apply NoDup_app in Hn as (_ & _ & Hn). apply NoDup_app in Hn as (_ & Hx & Hn).
    simpl in Hx, Hn. apply NoDup_cons in Hn as [Hn _]. intros b Hb ->. set_solver. }
  apply (rep_moved t _ u (T c a k v l r)); [done|done|by simpl; rewrite lookup_insert_ne|done|simpl; split_and!|].
  - by rewrite lookup_insert_eq.
  - eapply rep_frame; [|done]. intros b Hb. apply lookup_insert_ne, Ho. set_solver.
  - eapply rep_frame; [|done]. intros b Hb. apply lookup_insert_ne, Ho. set_solver.
  - eapply crep_frame; [|done]. intros b Hb. apply lookup_insert_ne, Ho. set_solver.
Qed.

(** ** Rotations *)

Lemma rep_put m d p s a n : a ∉ addrs s -> rep m d p s -> rep (<[a:=n]> m) d p s.
Proof. intros Ha. apply rep_frame. intros b Hb. apply lookup_insert_ne. by intros ->. Qed.

Lemma crep_put m d root u q a n : a ∉ caddrs u -> crep m d root u q -> crep (<[a:=n]> m) d root u q.
Proof. intros Ha. apply crep_frame. intros b Hb. apply lookup_insert_ne. by intros ->. Qed.

Lemma ptr_cases d s : ptr d s = d \/ ptr d s ∈ addrs s.
Proof. destruct s; simpl; [by left|right; set_solver]. Qed.

Lemma adopt_ok t s p p' : rep (rb_nodes t) (rb_dummy t) p s -> rb_dummy t ∉ addrs s -> NoDup (addrs s) ->
  exists t', adopt t (ptr (rb_dummy t) s) p' = Ok t' /\ rep (rb_nodes t') (rb_dummy t) p' s /\
    (forall b, b ∉ addrs s -> rb_nodes t' !! b = rb_nodes t !! b) /\ rb_kept t t' /\ rb_root t' = rb_root t.
Proof.
  intros Hs Hd Hn. unfold adopt. destruct s as [|c a k v l r]; simpl in *.
  - rewrite Nat.eqb_refl. by exists t.
  - destruct Hs as (Ha & Hl & Hr). apply NoDup_cons in Hn as [Hal Hn]. rewrite (proj2 (Nat.eqb_neq _ _)) by set_solver.
    eexists. split; [by apply (upd_node_ok t a _ _ Ha)|]. simpl. split_and!; [by rewrite lookup_insert_eq|..].
    + apply rep_put; [set_solver|done].
    + apply rep_put; [set_solver|done].
    + intros b Hb. apply lookup_insert_ne. set_solver.
    + apply put_kept. by rewrite Ha.
    + done.
Qed.

Lemma replace_child_ok t u x y xn :
  rb_nodes t !! x = Some xn -> nd_parent xn = above (rb_dummy t) u -> crep (rb_nodes t) (rb_dummy t) (rb_root t) u x ->
  x ∉ rb_dummy t :: caddrs u -> rb_dummy t ∉ caddrs u -> NoDup (caddrs u) ->
  exists t', replace_child t x y = Ok t' /\ crep (rb_nodes t') (rb_dummy t) (rb_root t') u y /\
    (forall b, b ∉ caddrs u -> rb_nodes t' !! b = rb_nodes t !! b) /\ rb_kept t t'.
Proof.
  intros Hx Hp Hu Hxu Hd Hn. unfold replace_child, node. rewrite Hx. simpl. rewrite Hp.
  destruct u as [|c a k v r u|c a k v l u]; simpl in *.
  - rewrite Nat.eqb_refl. by eexists.
  - destruct Hu as (Ha & Hr & Hu). rewrite (proj2 (Nat.eqb_neq _ _)) by set_solver. rewrite Ha. simpl. rewrite Nat.eqb_refl.
    apply NoDup_cons in Hn as [Hal Hn]. eexists. split; [by apply (upd_node_ok t a _ _ Ha)|]. simpl.
    split_and!; [by rewrite lookup_insert_eq|apply rep_put; [set_solver|done]|apply crep_put; [set_solver|done]| |].
    + intros b Hb. apply lookup_insert_ne. set_solver.
    + apply put_kept. by rewrite Ha.
  - destruct Hu as (Ha & Hr & Hu). rewrite (proj2 (Nat.eqb_neq _ _)) by set_solver. rewrite Ha. simpl.
    rewrite (proj2 (Nat.eqb_neq _ _)) by (destruct (ptr_cases (rb_dummy t) l) as [->|?]; set_solver).
    apply NoDup_cons in Hn as [Hal Hn]. eexists. split; [by apply (upd_node_ok t a _ _ Ha)|]. simpl.
    split_and!; [by rewrite lookup_insert_eq|apply rep_put; [set_solver|done]|apply crep_put; [set_solver|done]| |].
    + intros b Hb. apply lookup_insert_ne. set_solver.
    + apply put_kept. by rewrite Ha.
Qed.
Lemma put_node_eq t a n : rb_nodes (put_node t a n) !! a = Some n.
Proof. apply lookup_insert_eq. Qed.

Lemma put_node_ne t a b n : a <> b -> rb_nodes (put_node t a n) !! b = rb_nodes t !! b.
Proof. apply lookup_insert_ne. Qed.

Lemma raise_child_ok t u x y B xn yn d :
  rb_dummy t = d -> rb_nodes t !! x = Some xn -> nd_parent xn = above d u -> rb_nodes t !! y = Some yn ->
  rep (rb_nodes t) d y B -> crep (rb_nodes t) d (rb_root t) u x -> NoDup (d :: caddrs u ++ x :: y :: addrs B) ->
  exists t', raise_child t x y (ptr d B) = Ok t' /\ rep (rb_nodes t') d x B /\ crep (rb_nodes t') d (rb_root t') u y /\
    rb_nodes t' !! y = Some {| yn with nd_parent := above d u |} /\
    (forall b, b ∉ caddrs u ++ y :: addrs B -> rb_nodes t' !! b = rb_nodes t !! b) /\ rb_kept t t'.
Proof.
  intros Ed Hx Hp Hy HB Hu Hn. rewrite <- Ed in HB at 1.
  destruct (adopt_ok t B y x HB ltac:(rewrite Ed; apart) ltac:(apart)) as (t2 & Ha2 & HB2 & Hf2 & Hk2 & Hroot2).
  rewrite Ed in Ha2, HB2. unfold raise_child. rewrite Ha2. simpl.
  assert (Hx2 : rb_nodes t2 !! x = Some xn) by (rewrite Hf2; [done|apart]).
  assert (Hy2 : rb_nodes t2 !! y = Some yn) by (rewrite Hf2; [done|apart]).
  unfold node at 1. rewrite Hx2. simpl. unfold set_parent. rewrite (upd_node_ok t2 y _ _ Hy2). simpl. rewrite Hp.
  set (t3 := put_node t2 y _).
  assert (Ed3 : rb_dummy t3 = d) by (etrans; [apply (rk_dummy _ _ Hk2)|done]).
  assert (Hf3 : forall b, b ∉ y :: addrs B -> rb_nodes t3 !! b = rb_nodes t !! b).
  { intros b Hb. unfold t3. rewrite put_node_ne by set_solver. apply Hf2. set_solver. }
  destruct (replace_child_ok t3 u x y xn) as (t4 & -> & Hu4 & Hf4 & Hk4).
  - rewrite Hf3; [done|apart].
  - by rewrite Ed3.
  - rewrite Ed3. change (rb_root t3) with (rb_root t2). rewrite Hroot2. eapply crep_frame; [|done].
    intros b Hb. apply Hf3. apart.
  - rewrite Ed3. apart.
  - rewrite Ed3. apart.
  - apart.
  - rewrite Ed3 in Hu4. exists t4. split_and!; [done|..|done| | |].
    + assert (HB3 : rep (rb_nodes t3) d x B) by (apply rep_put; [apart|done]).
      eapply rep_frame; [|exact HB3]. intros b Hb. apply Hf4. apart.
    + rewrite Hf4 by apart. apply put_node_eq.
    + intros b Hb. rewrite Hf4 by set_solver. apply Hf3. set_solver.
    + etrans; [exact Hk2|]. etrans; [|exact Hk4]. apply put_kept. by rewrite Hy2.
Qed.

Lemma left_rotate_ok t u cx x kx vx A cy y ky vy B C ex :
  rb_rep t (plug u (T cx x kx vx A (T cy y ky vy B C))) ex ->
  exists t', left_rotate t x = Ok t' /\ rb_rep t' (plug u (T cy y ky vy (T cx x kx vx A B) C)) ex /\ rb_kept t t' /\
    rb_nodes t' !! rb_dummy t = rb_nodes t !! rb_dummy t.
Proof.
  intros H. pose proof (rep_nodup _ _ _ _ H) as Hn. destruct (rep_place _ _ _ _ H) as [(Hx & HA & Hy & HB & HC) Hu].
  simpl in Hn, Hx, Hy, Hu, HA, HB, HC. remember (rb_dummy t) as d eqn:Ed.
  assert (Hn' : NoDup (d :: caddrs u ++ x :: addrs A ++ y :: addrs B ++ addrs C)).
  { apply NoDup_cons in Hn as [Hd Hn]. apply NoDup_app in Hn as (_ & _ & Hn). apply NoDup_cons. split; [set_solver|done]. }
  clear Hn. unfold left_rotate, node at 1. rewrite Hx. simpl. rewrite <- Ed, (proj2 (Nat.eqb_neq y d)) by apart. simpl.
  unfold node at 1. rewrite Hy. simpl. unfold set_right. rewrite (upd_node_ok t x _ _ Hx). simpl.
  set (t1 := put_node t x _).
  destruct (raise_child_ok t1 u x y B (mk_node (Some kx) (Some vx) (above d u) (ptr d A) (ptr d B) cx)
    (mk_node (Some ky) (Some vy) x (ptr d B) (ptr d C) cy) d) as (t2 & -> & HB2 & Hu2 & Hy2 & Hf2 & Hk2).
  - done.
  - apply put_node_eq.
  - done.
  - unfold t1. rewrite put_node_ne; [done|apart].
  - apply rep_put; [apart|done].
  - apply crep_put; [apart|done].
  - apart_list.
  - simpl. unfold set_left. rewrite (upd_node_ok t2 y _ _ Hy2). simpl. set (t3 := put_node t2 y _).
    assert (Hx3 : rb_nodes t3 !! x = Some (mk_node (Some kx) (Some vx) (above d u) (ptr d A) (ptr d B) cx)).
    { etrans; [apply put_node_ne; apart|]. rewrite Hf2 by apart. apply put_node_eq. }
    unfold set_parent. rewrite (upd_node_ok t3 x _ _ Hx3). simpl. set (t4 := put_node t3 x _).
    assert (Hk : rb_kept t t4).
    { transitivity t1; [apply put_kept; by rewrite Hx|]. etrans; [exact Hk2|].
      transitivity t3; apply put_kept; [by rewrite Hy2|by rewrite Hx3]. }
    assert (Hf : forall b, b ∉ x :: y :: caddrs u ++ addrs B -> rb_nodes t4 !! b = rb_nodes t !! b).
    { intros b Hb. etrans; [apply put_node_ne; set_solver|]. etrans; [apply put_node_ne; set_solver|].
      rewrite Hf2 by set_solver. apply put_node_ne. set_solver. }
    exists t4. split_and!; [done| |done|apply Hf; apart].
    apply (rep_moved t t4 u (T cx x kx vx A (T cy y ky vy B C)) u); try rewrite <- Ed; [done|done|apply Hf; apart|..].
    + simpl. solve_Permutation.
    + simpl. split_and!.
      * etrans; [apply (put_node_ne t3); apart|apply (put_node_eq t2)].
      * apply (put_node_eq t3).
      * eapply rep_frame; [|exact HA]. intros b Hb. apply Hf. apart.
      * apply rep_put; [apart|]. apply rep_put; [apart|done].
      * eapply rep_frame; [|exact HC]. intros b Hb. apply Hf. apart.
    + apply crep_put; [apart|]. apply crep_put; [apart|done].
Qed.

Lemma right_rotate_ok t u cx x kx vx A cy y ky vy B C ex :
  rb_rep t (plug u (T cx x kx vx (T cy y ky vy C B) A)) ex ->
  exists t', right_rotate t x = Ok t' /\ rb_rep t' (plug u (T cy y ky vy C (T cx x kx vx B A))) ex /\ rb_kept t t' /\
    rb_nodes t' !! rb_dummy t = rb_nodes t !! rb_dummy t.
Proof.
  intros H. pose proof (rep_nodup _ _ _ _ H) as Hn. destruct (rep_place _ _ _ _ H) as [(Hx & (Hy & HC & HB) & HA) Hu].
  simpl in Hn, Hx, Hy, Hu, HA, HB, HC. remember (rb_dummy t) as d eqn:Ed.
  assert (Hn' : NoDup (d :: caddrs u ++ x :: (y :: addrs C ++ addrs B) ++ addrs A)).
  { apply NoDup_cons in Hn as [Hd Hn]. apply NoDup_app in Hn as (_ & _ & Hn). apply NoDup_cons. split; [set_solver|done]. }
  clear Hn. unfold right_rotate, node at 1. rewrite Hx. simpl. rewrite <- Ed, (proj2 (Nat.eqb_neq y d)) by apart. simpl.
  unfold node at 1. rewrite Hy. simpl. unfold set_left. rewrite (upd_node_ok t x _ _ Hx). simpl.
  set (t1 := put_node t x _).
  destruct (raise_child_ok t1 u x y B (mk_node (Some kx) (Some vx) (above d u) (ptr d B) (ptr d A) cx)
    (mk_node (Some ky) (Some vy) x (ptr d C) (ptr d B) cy) d) as (t2 & -> & HB2 & Hu2 & Hy2 & Hf2 & Hk2).
  - done.
  - apply put_node_eq.
  - done.
  - unfold t1. rewrite put_node_ne; [done|apart].
  - apply rep_put; [apart|done].
  - apply crep_put; [apart|done].
  - apart_list.
  - simpl. unfold set_right. rewrite (upd_node_ok t2 y _ _ Hy2). simpl. set (t3 := put_node t2 y _).
    assert (Hx3 : rb_nodes t3 !! x = Some (mk_node (Some kx) (Some vx) (above d u) (ptr d B) (ptr d A) cx)).
    { etrans; [apply put_node_ne; apart|]. rewrite Hf2 by apart. apply put_node_eq. }
    unfold set_parent. rewrite (upd_node_ok t3 x _ _ Hx3). simpl. set (t4 := put_node t3 x _).
    assert (Hk : rb_kept t t4).
    { transitivity t1; [apply put_kept; by rewrite Hx|]. etrans; [exact Hk2|].
      transitivity t3; apply put_kept; [by rewrite Hy2|by rewrite Hx3]. }
    assert (Hf : forall b, b ∉ x :: y :: caddrs u ++ addrs B -> rb_nodes t4 !! b = rb_nodes t !! b).
    { intros b Hb. etrans; [apply put_node_ne; set_solver|]. etrans; [apply put_node_ne; set_solver|].
      rewrite Hf2 by set_solver. apply put_node_ne. set_solver. }
    exists t4. split_and!; [done| |done|apply Hf; apart].
    apply (rep_moved t t4 u (T cx x kx vx (T cy y ky vy C B) A) u); try rewrite <- Ed; [done|done|apply Hf; apart|..].
    + simpl. solve_Permutation.
    + simpl. split_and!.
      * etrans; [apply (put_node_ne t3); apart|apply (put_node_eq t2)].
      * eapply rep_frame; [|exact HC]. intros b Hb. apply Hf. apart.
      * apply (put_node_eq t3).
      * apply rep_put; [apart|]. apply rep_put; [apart|done].
      * eapply rep_frame; [|exact HA]. intros b Hb. apply Hf. apart.
    + apply crep_put; [apart|]. apply crep_put; [apart|done].
Qed.

(** A node outside of the tree can be written to. *)
Lemma rep_put_loose t w ex a n : rb_rep t w ex -> a ∈ ex -> node_kv <$> rb_nodes t !! a = Some (node_kv n) ->
  rb_rep (put_node t a n) w ex /\ rb_kept t (put_node t a n).
Proof.
  intros H Ha Hkv. assert (Hk : rb_kept t (put_node t a n)) by by apply put_kept. split; [|done].
  pose proof (rr_nodup _ _ _ H) as Hn. apply NoDup_cons in Hn as [Hd Hn]. apply NoDup_app in Hn as (_ & Hx & _).
  apply (rep_moved t (put_node t a n) Top w Top w ex); simpl; try done.
  - apply lookup_insert_ne. set_solver.
  - apply rep_put; [by apply Hx|apply (rr_rep _ _ _ H)].
  - apply (rr_root _ _ _ H).
Qed.

End Shape.
Arguments rbt : clear implicits.
Arguments ctx : clear implicits.
