(* ===== verification/RbInsert.v ===== *)
(** The red-black tree of flexric: the colours, and insertion. *)

From S2P Require Import Prelude RbTree RbShape.
#[local] Open Scope nat_scope.

(** ** The red-black properties *)

Section Colors.
Context {K V : Type}.
Abbreviation rbt := (rbt K V).
Abbreviation ctx := (ctx K V).

(** [rb c n s]: the root of [s] has colour [c], no red node has a red child, and
    every path to a leaf has [n] black nodes. *)
Inductive rb : assoc_color_e -> nat -> rbt -> Prop :=
| rb_E : rb ASSOC_BLACK 0 E
| rb_red n a k v l r : rb ASSOC_BLACK n l -> rb ASSOC_BLACK n r -> rb ASSOC_RED n (T ASSOC_RED a k v l r)
| rb_black n cl cr a k v l r : rb cl n l -> rb cr n r -> rb ASSOC_BLACK (S n) (T ASSOC_BLACK a k v l r).

Definition frame_ok (c cn : assoc_color_e) (n : nat) (s : rbt) : Prop :=
  match cn with
  | ASSOC_RED => c = ASSOC_BLACK /\ rb ASSOC_BLACK n s
  | ASSOC_BLACK => exists c', rb c' n s
  end.

Definition up_height (cn : assoc_color_e) (n : nat) : nat := match cn with ASSOC_RED => n | ASSOC_BLACK => S n end.

(** A place where a subtree of colour [c] and black height [n] fits in a
    red-black tree, whose root is black. *)
Fixpoint cok (c : assoc_color_e) (n : nat) (u : ctx) : Prop :=
  match u with
  | Top => c = ASSOC_BLACK
  | InL cn _ _ _ s u | InR cn _ _ _ s u => frame_ok c cn n s /\ cok cn (up_height cn n) u
  end.

Lemma rb_color c n s : rb c n s -> color s = c.
Proof. by intros []. Qed.

Lemma rb_node c cn n a k v l r :
  rb c n l -> frame_ok c cn n r -> rb cn (up_height cn n) (T cn a k v l r) /\ rb cn (up_height cn n) (T cn a k v r l).
Proof. destruct cn; simpl; [intros Hl [c' Hr]|intros Hl [-> Hr]]; split; econstructor; eauto. Qed.

Lemma rb_plug c n u s : rb c n s -> cok c n u -> exists n', rb ASSOC_BLACK n' (plug u s).
Proof.
  revert c n s. induction u as [|cn a k v s' u IH|cn a k v s' u IH]; intros c n s Hs; simpl.
  - intros ->. by exists n.
  - intros [Hf Hu]. destruct (rb_node c cn n a k v s s' Hs Hf). by eapply IH.
  - intros [Hf Hu]. destruct (rb_node c cn n a k v s s' Hs Hf). by eapply IH.
Qed.

Lemma rb_unplug n' u s : rb ASSOC_BLACK n' (plug u s) -> exists c n, rb c n s /\ cok c n u.
Proof.
  revert s. induction u as [|cn a k v s' u IH|cn a k v s' u IH]; intros s; simpl.
  - intros H. by exists ASSOC_BLACK, n'.
  - intros (c & n & H & Hu)%IH. inversion H; subst; simpl.
    + exists ASSOC_BLACK, n. by split_and!.
    + exists cl, n0. split_and!; [done|by eexists|done].
  - intros (c & n & H & Hu)%IH. inversion H; subst; simpl.
    + exists ASSOC_BLACK, n. by split_and!.
    + exists cr, n0. split_and!; [done|by eexists|done].
Qed.

Lemma cok_black c n u : cok c n u -> cok ASSOC_BLACK n u.
Proof. destruct u as [|[] ????|[] ????]; simpl; naive_solver. Qed.

Definition blacken (s : rbt) : rbt := match s with E => E | T _ a k v l r => T ASSOC_BLACK a k v l r end.

Lemma blacken_rb c n s : rb c n s -> exists n', rb ASSOC_BLACK n' (blacken s).
Proof. intros []; simpl; eexists; econstructor; eauto. Qed.

Lemma blacken_black n s : rb ASSOC_BLACK n s -> blacken s = s.
Proof. by inversion 1. Qed.

Lemma inorder_blacken s : inorder (blacken s) = inorder s.
Proof. by destruct s. Qed.

Fixpoint depth (u : ctx) : nat :=
  match u with Top => 0 | InL _ _ _ _ _ u | InR _ _ _ _ _ u => S (depth u) end.

End Colors.

Lemma inorder_recolor {K V} (u : ctx K V) s s' : inorder s = inorder s' -> inorder (plug u s) = inorder (plug u s').
Proof. intros H. by rewrite !inorder_plug, H. Qed.

(** ** The fix-up of an insertion *)

Section Insert.
Context {K V : Type}.
Abbreviation tree := (assoc_rb_tree_t K V).
Implicit Types (t : tree).

Lemma sibling_neq t c p kp vp sib u ca a k v l r ex :
  rb_rep t (plug (InL c p kp vp sib u) (T ca a k v l r)) ex \/ rb_rep t (plug (InR c p kp vp sib u) (T ca a k v l r)) ex ->
  (a =? ptr (rb_dummy t) sib) = false.
Proof.
  intros [H|H]; apply rep_nodup in H; apply Nat.eqb_neq; destruct (ptr_cases (rb_dummy t) sib) as [->|?]; simpl in H; apart.
Qed.

(** One turn that ends the loop or moves the violation up. *)
Definition fixed_up t t' (w w' : rbt K V) (ex : list nat) : Prop :=
  rb_rep t' w' ex /\ rb_kept t t' /\ inorder w' = inorder w /\ exists n, rb ASSOC_BLACK n (blacken w').


Lemma fixed_up_trans t t' t'' w w' w'' ex :
  rb_kept t t' -> inorder w' = inorder w -> fixed_up t' t'' w' w'' ex -> fixed_up t t'' w w'' ex.
Proof. intros Hk Hi (H1 & H2 & H3 & H4). split_and!; [done|by etrans|congruence|done]. Qed.

Lemma insert_fixup_stop fuel t u a k v l r ex n :
  rb_rep t (plug u (T ASSOC_RED a k v l r)) ex -> rb ASSOC_BLACK n l -> rb ASSOC_BLACK n r ->
  match u with Top => True | InL c _ _ _ _ _ | InR c _ _ _ _ _ => c = ASSOC_BLACK end -> cok ASSOC_BLACK n u ->
  insert_fixup_loop (S fuel) t a = Ok t /\ fixed_up t t (plug u (T ASSOC_RED a k v l r)) (plug u (T ASSOC_RED a k v l r)) ex.
Proof.
  intros H Hl Hr Hc Hu. simpl. rewrite (rep_node t u _ a k v l r ex H). simpl.
  assert (Hrb : rb ASSOC_RED n (T ASSOC_RED a k v l r)) by by constructor.
  destruct u as [|c p kp vp sib u|c p kp vp sib u]; simpl.
  - destruct (rr_dummy _ _ _ H) as (dn & Hd & Hb). unfold node. rewrite Hd. simpl. rewrite Hb. simpl. split; [done|].
    split_and!; [done|done|done|]. exists (S n). by econstructor.
  - subst c. rewrite (rep_node t u _ p kp vp _ sib ex H). simpl. split; [done|]. split_and!; [done|done|done|].
    destruct (rb_plug ASSOC_RED n (InL ASSOC_BLACK p kp vp sib u) _ Hrb) as [n' Hn']; [done|].
    exists n'. simpl in *. by rewrite (blacken_black n').
  - subst c. rewrite (rep_node t u _ p kp vp sib _ ex H). simpl. split; [done|]. split_and!; [done|done|done|].
    destruct (rb_plug ASSOC_RED n (InR ASSOC_BLACK p kp vp sib u) _ Hrb) as [n' Hn']; [done|].
    exists n'. simpl in *. by rewrite (blacken_black n').
Qed.

Lemma flip_left t u g kg vg p kp vp x s y ky vy yl yr ex :
  rb_rep t (plug u (T ASSOC_BLACK g kg vg (T ASSOC_RED p kp vp x s) (T ASSOC_RED y ky vy yl yr))) ex ->
  exists t', flip_colors t p y g = Ok t' /\ rb_kept t t' /\
    rb_rep t' (plug u (T ASSOC_RED g kg vg (T ASSOC_BLACK p kp vp x s) (T ASSOC_BLACK y ky vy yl yr))) ex.
Proof.
  intros H. unfold flip_colors.
  destruct (set_color_ok t (InL ASSOC_BLACK g kg vg _ u) _ p _ _ _ _ ex ASSOC_BLACK H) as (t1 & -> & H1 & K1 & _). simpl.
  destruct (set_color_ok t1 (InR ASSOC_BLACK g kg vg _ u) _ y _ _ _ _ ex ASSOC_BLACK H1) as (t2 & -> & H2 & K2 & _). simpl.
  destruct (set_color_ok t2 u _ g _ _ _ _ ex ASSOC_RED H2) as (t3 & -> & H3 & K3 & _).
  exists t3. split_and!; [done|etrans; [|etrans]; done|done].
Qed.

Lemma flip_right t u g kg vg p kp vp x s y ky vy yl yr ex :
  rb_rep t (plug u (T ASSOC_BLACK g kg vg (T ASSOC_RED y ky vy yl yr) (T ASSOC_RED p kp vp s x))) ex ->
  exists t', flip_colors t p y g = Ok t' /\ rb_kept t t' /\
    rb_rep t' (plug u (T ASSOC_RED g kg vg (T ASSOC_BLACK y ky vy yl yr) (T ASSOC_BLACK p kp vp s x))) ex.
Proof.
  intros H. unfold flip_colors.
  destruct (set_color_ok t (InR ASSOC_BLACK g kg vg _ u) _ p _ _ _ _ ex ASSOC_BLACK H) as (t1 & -> & H1 & K1 & _). simpl.
  destruct (set_color_ok t1 (InL ASSOC_BLACK g kg vg _ u) _ y _ _ _ _ ex ASSOC_BLACK H1) as (t2 & -> & H2 & K2 & _). simpl.
  destruct (set_color_ok t2 u _ g _ _ _ _ ex ASSOC_RED H2) as (t3 & -> & H3 & K3 & _).
  exists t3. split_and!; [done|etrans; [|etrans]; done|done].
Qed.

(** Cases 2 and 3 end with two colours and a rotation. *)
Lemma lift_left {B} t u g kg vg p kp vp x s unc ex (next : tree -> res B) :
  rb_rep t (plug u (T ASSOC_BLACK g kg vg (T ASSOC_RED p kp vp x s) unc)) ex ->
  exists t', (let* t := set_color t p ASSOC_BLACK in let* t := set_color t g ASSOC_RED in let* t := right_rotate t g in next t)
      = next t' /\ rb_kept t t' /\ rb_rep t' (plug u (T ASSOC_BLACK p kp vp x (T ASSOC_RED g kg vg s unc))) ex.
Proof.
  intros H.
  destruct (set_color_ok t (InL ASSOC_BLACK g kg vg _ u) _ p _ _ _ _ ex ASSOC_BLACK H) as (t1 & -> & H1 & K1 & _). simpl.
  destruct (set_color_ok t1 u _ g _ _ _ _ ex ASSOC_RED H1) as (t2 & -> & H2 & K2 & _). simpl.
  destruct (right_rotate_ok t2 u _ g _ _ _ _ p _ _ _ _ ex H2) as (t3 & -> & H3 & K3 & _).
  exists t3. split_and!; [done|etrans; [|etrans]; done|done].
Qed.

Lemma lift_right {B} t u g kg vg p kp vp x s unc ex (next : tree -> res B) :
  rb_rep t (plug u (T ASSOC_BLACK g kg vg unc (T ASSOC_RED p kp vp s x))) ex ->
  exists t', (let* t := set_color t p ASSOC_BLACK in let* t := set_color t g ASSOC_RED in let* t := left_rotate t g in next t)
      = next t' /\ rb_kept t t' /\ rb_rep t' (plug u (T ASSOC_BLACK p kp vp (T ASSOC_RED g kg vg unc s) x)) ex.
Proof.
  intros H.
  destruct (set_color_ok t (InR ASSOC_BLACK g kg vg _ u) _ p _ _ _ _ ex ASSOC_BLACK H) as (t1 & -> & H1 & K1 & _). simpl.
  destruct (set_color_ok t1 u _ g _ _ _ _ ex ASSOC_RED H1) as (t2 & -> & H2 & K2 & _). simpl.
  destruct (left_rotate_ok t2 u _ g _ _ _ _ p _ _ _ _ ex H2) as (t3 & -> & H3 & K3 & _).
  exists t3. split_and!; [done|etrans; [|etrans]; done|done].
Qed.

(** Where the violation is: a red node [a] under a red node [p] under a black
    node [g] whose other subtree is [unc]. *)
Section Turn.
Variable fuel : nat.
Hypothesis next_turns : forall t u a (k : K) (v : V) l r ex n,
  rb_rep t (plug u (T ASSOC_RED a k v l r)) ex -> rb ASSOC_BLACK n l -> rb ASSOC_BLACK n r -> cok ASSOC_BLACK n u -> depth u < fuel ->
  exists t' w', insert_fixup_loop fuel t a = Ok t' /\ fixed_up t t' (plug u (T ASSOC_RED a k v l r)) w' ex.

Context (t : tree) (u : ctx K V) (g : nat) (kg : K) (vg : V) (p : nat) (kp : K) (vp : V) (a : nat) (k : K) (v : V).
Context (l r x unc : rbt K V) (ex : list nat) (n : nat) (cu : assoc_color_e).
Hypotheses (Hl : rb ASSOC_BLACK n l) (Hr : rb ASSOC_BLACK n r) (Hx : rb ASSOC_BLACK n x) (Hunc : rb cu n unc).
Hypotheses (Hu : cok ASSOC_BLACK (S n) u) (Hfuel : S (depth u) < fuel).
Let s := T ASSOC_RED a k v l r.

Lemma rb_fresh : rb ASSOC_RED n s.
Proof. by constructor. Qed.

(** The next turns start at [g], or at a red node below a black one. *)
Lemma next_up t0 t1 w p' kp' vp' y y' :
  rb_kept t0 t1 -> rb_rep t1 (plug u (T ASSOC_RED p' kp' vp' y y')) ex -> rb ASSOC_BLACK (S n) y ->
  rb ASSOC_BLACK (S n) y' -> inorder (plug u (T ASSOC_RED p' kp' vp' y y')) = inorder w ->
  exists t' w', insert_fixup_loop fuel t1 p' = Ok t' /\ fixed_up t0 t' w w' ex.
Proof.
  intros K1 H1 Hy Hy' Hi.
  destruct (next_turns t1 u p' kp' vp' y y' ex (S n) H1 Hy Hy' Hu ltac:(lia)) as (t' & w' & -> & Hf).
  exists t', w'. split; [done|]. eapply fixed_up_trans; [exact K1|exact Hi|exact Hf].
Qed.

Lemma next_down t0 t1 w c a' ka va la ra :
  rb_kept t0 t1 -> rb_rep t1 (plug c (T ASSOC_RED a' ka va la ra)) ex -> rb ASSOC_BLACK n la -> rb ASSOC_BLACK n ra ->
  cok ASSOC_BLACK n c -> depth c = S (depth u) -> inorder (plug c (T ASSOC_RED a' ka va la ra)) = inorder w ->
  exists t' w', insert_fixup_loop fuel t1 a' = Ok t' /\ fixed_up t0 t' w w' ex.
Proof.
  intros K1 H1 Hla Hra Hc Hd Hi.
  destruct (next_turns t1 c a' ka va la ra ex n H1 Hla Hra Hc ltac:(lia)) as (t' & w' & -> & Hf).
  exists t', w'. split; [done|]. eapply fixed_up_trans; [exact K1|exact Hi|exact Hf].
Qed.

Lemma insert_turn_ll (w := T ASSOC_BLACK g kg vg (T ASSOC_RED p kp vp s x) unc) :
  rb_rep t (plug u w) ex -> exists t' w', insert_fixup_loop (S fuel) t a = Ok t' /\ fixed_up t t' (plug u w) w' ex.
Proof.
  intros H. simpl.
  rewrite (rep_node t (InL ASSOC_RED p kp vp x (InL ASSOC_BLACK g kg vg unc u)) _ a k v l r ex H). simpl.
  rewrite (rep_node t (InL ASSOC_BLACK g kg vg unc u) _ p kp vp _ _ ex H). simpl.
  rewrite (rep_node t u _ g kg vg _ _ ex H). simpl.
  rewrite Nat.eqb_refl.
  rewrite (color_ptr t (InR ASSOC_BLACK g kg vg _ u) unc ex H), (rb_color cu n) by done.
  destruct cu; simpl.
  - rewrite (sibling_neq t _ p kp vp x (InL ASSOC_BLACK g kg vg unc u) _ a k v l r ex (or_introl H)). simpl.
    destruct (lift_left t u g kg vg p kp vp s x unc ex (fun t => insert_fixup_loop fuel t a) H) as (t1 & -> & K1 & H1).
    apply (next_down t t1 _ (InL ASSOC_BLACK p kp vp (T ASSOC_RED g kg vg x unc) u) a k v l r); try done.
    + split; [|done]. exists ASSOC_RED. by constructor.
    + apply (inorder_recolor u). simpl. by rewrite <- !app_assoc.
  - inversion Hunc as [|n' y ky vy yl yr Hyl Hyr|]; subst. simpl.
    destruct (flip_left t u g kg vg p kp vp s x y ky vy yl yr ex H) as (t1 & -> & K1 & H1). simpl.
    apply (next_up t t1 _ g kg vg (T ASSOC_BLACK p kp vp s x) (T ASSOC_BLACK y ky vy yl yr)); try done.
    1,2: by econstructor; eauto using rb_fresh.
    by apply (inorder_recolor u).
Qed.

Lemma insert_turn_lr (w := T ASSOC_BLACK g kg vg (T ASSOC_RED p kp vp x s) unc) :
  rb_rep t (plug u w) ex -> exists t' w', insert_fixup_loop (S fuel) t a = Ok t' /\ fixed_up t t' (plug u w) w' ex.
Proof.
  intros H. simpl.
  rewrite (rep_node t (InR ASSOC_RED p kp vp x (InL ASSOC_BLACK g kg vg unc u)) _ a k v l r ex H). simpl.
  rewrite (rep_node t (InL ASSOC_BLACK g kg vg unc u) _ p kp vp _ _ ex H). simpl.
  rewrite (rep_node t u _ g kg vg _ _ ex H). simpl.
  rewrite Nat.eqb_refl.
  rewrite (color_ptr t (InR ASSOC_BLACK g kg vg _ u) unc ex H), (rb_color cu n) by done.
  destruct cu; simpl.
  - rewrite Nat.eqb_refl. destruct (left_rotate_ok t (InL ASSOC_BLACK g kg vg unc u) _ p _ _ _ _ a _ _ _ _ ex H) as (t1 & -> & H1 & K1 & _). simpl.
    rewrite (rep_node t1 (InL ASSOC_RED a k v r (InL ASSOC_BLACK g kg vg unc u)) _ p kp vp _ _ ex H1). simpl.
    destruct (lift_left t1 u g kg vg a k v (T ASSOC_RED p kp vp x l) r unc ex (fun t => insert_fixup_loop fuel t p) H1) as (t2 & -> & K2 & H2).
    apply (next_down t t2 _ (InL ASSOC_BLACK a k v (T ASSOC_RED g kg vg r unc) u) p kp vp x l); try done.
    + by etrans.
    + split; [|done]. exists ASSOC_RED. by constructor.
    + apply (inorder_recolor u). simpl. by rewrite <- ?app_assoc; simpl; rewrite <- ?app_assoc.
  - inversion Hunc as [|n' y ky vy yl yr Hyl Hyr|]; subst. simpl.
    destruct (flip_left t u g kg vg p kp vp x s y ky vy yl yr ex H) as (t1 & -> & K1 & H1). simpl.
    apply (next_up t t1 _ g kg vg (T ASSOC_BLACK p kp vp x s) (T ASSOC_BLACK y ky vy yl yr)); try done.
    1,2: by econstructor; eauto using rb_fresh.
    by apply (inorder_recolor u).
Qed.

Lemma insert_turn_rl (w := T ASSOC_BLACK g kg vg unc (T ASSOC_RED p kp vp s x)) :
  rb_rep t (plug u w) ex -> exists t' w', insert_fixup_loop (S fuel) t a = Ok t' /\ fixed_up t t' (plug u w) w' ex.
Proof.
  intros H. simpl.
  rewrite (rep_node t (InL ASSOC_RED p kp vp x (InR ASSOC_BLACK g kg vg unc u)) _ a k v l r ex H). simpl.
  rewrite (rep_node t (InR ASSOC_BLACK g kg vg unc u) _ p kp vp _ _ ex H). simpl.
  rewrite (rep_node t u _ g kg vg _ _ ex H). simpl.
  rewrite (sibling_neq t _ g kg vg unc u _ p kp vp _ _ ex (or_intror H)).
  rewrite (color_ptr t (InL ASSOC_BLACK g kg vg _ u) unc ex H), (rb_color cu n) by done.
  destruct cu; simpl.
  - rewrite Nat.eqb_refl. destruct (right_rotate_ok t (InR ASSOC_BLACK g kg vg unc u) _ p _ _ _ _ a _ _ _ _ ex H) as (t1 & -> & H1 & K1 & _). simpl.
    rewrite (rep_node t1 (InR ASSOC_RED a k v l (InR ASSOC_BLACK g kg vg unc u)) _ p kp vp _ _ ex H1). simpl.
    destruct (lift_right t1 u g kg vg a k v (T ASSOC_RED p kp vp r x) l unc ex (fun t => insert_fixup_loop fuel t p) H1) as (t2 & -> & K2 & H2).
    apply (next_down t t2 _ (InR ASSOC_BLACK a k v (T ASSOC_RED g kg vg unc l) u) p kp vp r x); try done.
    + by etrans.
    + split; [|done]. exists ASSOC_RED. by constructor.
    + apply (inorder_recolor u). simpl. by rewrite <- ?app_assoc; simpl; rewrite <- ?app_assoc.
  - inversion Hunc as [|n' y ky vy yl yr Hyl Hyr|]; subst. simpl.
    destruct (flip_right t u g kg vg p kp vp x s y ky vy yl yr ex H) as (t1 & -> & K1 & H1). simpl.
    apply (next_up t t1 _ g kg vg (T ASSOC_BLACK y ky vy yl yr) (T ASSOC_BLACK p kp vp s x)); try done.
    1,2: by econstructor; eauto using rb_fresh.
    by apply (inorder_recolor u).
Qed.

Lemma insert_turn_rr (w := T ASSOC_BLACK g kg vg unc (T ASSOC_RED p kp vp x s)) :
  rb_rep t (plug u w) ex -> exists t' w', insert_fixup_loop (S fuel) t a = Ok t' /\ fixed_up t t' (plug u w) w' ex.
Proof.
  intros H. simpl.
  rewrite (rep_node t (InR ASSOC_RED p kp vp x (InR ASSOC_BLACK g kg vg unc u)) _ a k v l r ex H). simpl.
  rewrite (rep_node t (InR ASSOC_BLACK g kg vg unc u) _ p kp vp _ _ ex H). simpl.
  rewrite (rep_node t u _ g kg vg _ _ ex H). simpl.
  rewrite (sibling_neq t _ g kg vg unc u _ p kp vp _ _ ex (or_intror H)).
  rewrite (color_ptr t (InL ASSOC_BLACK g kg vg _ u) unc ex H), (rb_color cu n) by done.
  destruct cu; simpl.
  - rewrite (sibling_neq t _ p kp vp x (InR ASSOC_BLACK g kg vg unc u) _ a k v l r ex (or_intror H)). simpl.
    destruct (lift_right t u g kg vg p kp vp s x unc ex (fun t => insert_fixup_loop fuel t a) H) as (t1 & -> & K1 & H1).
    apply (next_down t t1 _ (InR ASSOC_BLACK p kp vp (T ASSOC_RED g kg vg unc x) u) a k v l r); try done.
    + split; [|done]. exists ASSOC_RED. by constructor.
    + apply (inorder_recolor u). simpl. by rewrite <- !app_assoc.
  - inversion Hunc as [|n' y ky vy yl yr Hyl Hyr|]; subst. simpl.
    destruct (flip_right t u g kg vg p kp vp s x y ky vy yl yr ex H) as (t1 & -> & K1 & H1). simpl.
    apply (next_up t t1 _ g kg vg (T ASSOC_BLACK y ky vy yl yr) (T ASSOC_BLACK p kp vp x s)); try done.
    1,2: by econstructor; eauto using rb_fresh.
    by apply (inorder_recolor u).
Qed.

End Turn.

Lemma insert_fixup_loop_ok fuel : forall t u a (k : K) (v : V) l r ex n,
  rb_rep t (plug u (T ASSOC_RED a k v l r)) ex -> rb ASSOC_BLACK n l -> rb ASSOC_BLACK n r -> cok ASSOC_BLACK n u -> depth u < fuel ->
  exists t' w', insert_fixup_loop fuel t a = Ok t' /\ fixed_up t t' (plug u (T ASSOC_RED a k v l r)) w' ex.
Proof.
  induction fuel as [|fuel IH]; [lia|]. intros t u a k v l r ex n H Hl Hr Hu Hfuel.
  destruct u as [|[] p kp vp sib u|[] p kp vp sib u].
  1,2,4: by destruct (insert_fixup_stop fuel t _ a k v l r ex n H Hl Hr) as [-> ?]; [..|eauto].
  all: destruct Hu as [[_ Hsib] Hu], u as [|[] g kg vg unc u|[] g kg vg unc u]; simpl in Hu, Hfuel.
  1,3,5,6,8,10: naive_solver.
  all: destruct Hu as [[cu Hunc] Hu].
  - apply (insert_turn_ll fuel IH t u g kg vg p kp vp a k v l r sib unc ex n cu); try done; lia.
  - apply (insert_turn_rl fuel IH t u g kg vg p kp vp a k v l r sib unc ex n cu); try done; lia.
  - apply (insert_turn_lr fuel IH t u g kg vg p kp vp a k v l r sib unc ex n cu); try done; lia.
  - apply (insert_turn_rr fuel IH t u g kg vg p kp vp a k v l r sib unc ex n cu); try done; lia.
Qed.

End Insert.
