(* ===== verification/RbOps.v ===== *)
(** The red-black tree of flexric: the order of the keys, the way down the
    tree, and insertion as a whole. *)

From S2P Require Import Prelude Assoc RbTree RbShape RbInsert.
#[local] Open Scope nat_scope.

Section Ops.
Context {K V : Type} (comp : K -> K -> Z) `{!Comparison comp}.
Abbreviation tree := (assoc_rb_tree_t K V).
Abbreviation rbt := (rbt K V).
Abbreviation ctx := (ctx K V).
Abbreviation entry := (nat * K * V)%type.
Implicit Types (t : tree) (e : entry).

Definition key_of e : K := e.1.2.

Definition key_le e e' : Prop := comp (key_of e) (key_of e') <> (-1)%Z.

Definition sorted_keys : list entry -> Prop := StronglySorted key_le.

(** The list a sorted list becomes when an element is put in, after those that
    are equal. *)
Fixpoint list_insert e (l : list entry) : list entry :=
  match l with
  | [] => [e]
  | x :: l' => if (comp (key_of e) (key_of x) =? 1)%Z then e :: l else x :: list_insert e l'
  end.

Definition goes_left (key : K) e : Prop := comp key (key_of e) = 1%Z.

Lemma list_insert_at e l k :
  Forall (fun x => ~ goes_left (key_of e) x) l -> Forall (goes_left (key_of e)) k -> list_insert e (l ++ k) = l ++ e :: k.
Proof.
  intros Hl Hk. induction Hl as [|x l Hx Hl IH]; simpl.
  - destruct Hk as [|x k Hx Hk]; simpl; [done|]. by rewrite Hx.
  - rewrite IH. by destruct (Z.eqb_spec (comp (key_of e) (key_of x)) 1).
Qed.

Lemma sorted_middle l e k :
  sorted_keys (l ++ k) -> Forall (fun x => key_le x e) l -> Forall (fun x => key_le e x) k -> sorted_keys (l ++ e :: k).
Proof.
  intros H Hl Hk. induction l as [|x l IH]; simpl in *; [by constructor|].
  inversion H as [|? ? Hs Hf]; subst. inversion Hl; subst. constructor; [by apply IH|].
  apply Forall_app in Hf as [Hf1 Hf2]. apply Forall_app. split; [done|by constructor].
Qed.

Lemma sorted_split l e k : sorted_keys (l ++ e :: k) ->
  sorted_keys (l ++ k) /\ Forall (fun x => key_le x e) l /\ Forall (fun x => key_le e x) k.
Proof.
  intros H. induction l as [|x l IH]; simpl in *; [by inversion H|].
  inversion H as [|? ? Hs Hf]; subst. destruct (IH Hs) as (H1 & H2 & H3).
  apply Forall_app in Hf as [Hf1 Hf2]. inversion Hf2; subst. split_and!; [|by constructor|done].
  constructor; [done|]. apply Forall_app. by split.
Qed.

(** ** The way down *)

Fixpoint height (s : rbt) : nat := match s with E => 0 | T _ _ _ _ l r => S (max (height l) (height r)) end.

Lemma height_addrs s : height s <= length (addrs s).
Proof. induction s; simpl; rewrite ?length_app; lia. Qed.

Lemma depth_caddrs u : depth u <= length (caddrs (K:=K) (V:=V) u).
Proof. induction u; simpl; rewrite ?length_app; lia. Qed.

Lemma nodes_size t w ex : rb_rep t w ex -> size (rb_nodes t) = S (length ex + length (addrs w)).
Proof.
  intros H. rewrite <- size_dom.
  assert (Hd : dom (rb_nodes t) = list_to_set (rb_dummy t :: ex ++ addrs w)).
  { apply set_eq. intros a. by rewrite elem_of_dom, (rr_dom _ _ _ H), elem_of_list_to_set. }
  rewrite Hd, size_list_to_set by apply (rr_nodup _ _ _ H). simpl. by rewrite length_app.
Qed.

Lemma compare_at_ok t u c a k v l r ex key : rb_rep t (plug u (T c a k v l r)) ex -> compare_at comp t key a = Ok (comp key k).
Proof. intros H. unfold compare_at. by rewrite (rep_node t u c a k v l r ex H). Qed.

(** The place where a key goes: everything before it is not greater, everything
    after it is. *)
Definition key_place (key : K) (u : ctx) : Prop :=
  Forall (fun x => ~ goes_left key x) (before u) /\ Forall (goes_left key) (after u).

Lemma key_place_down key u c a k v l r :
  sorted_keys (inorder (plug u (T c a k v l r))) -> key_place key u ->
  key_place key (if (comp key k =? 1)%Z then InL c a k v r u else InR c a k v l u).
Proof.
  rewrite inorder_plug. simpl. intros Hs [Hb Ha].
  rewrite <- app_assoc in Hs. simpl in Hs. rewrite app_assoc in Hs. apply sorted_split in Hs as (_ & Hl & Hr).
  rewrite Forall_app in Hl, Hr. destruct Hl as [_ Hl], Hr as [Hr _].
  destruct (Z.eqb_spec (comp key k) 1) as [H1|H1]; split; simpl; try done.
  - constructor; [done|]. apply Forall_app. split; [|done]. eapply Forall_impl; [exact Hr|].
    intros x Hx. by apply (comp_lt_le comp key k).
  - rewrite !Forall_app. split_and!; [done| |by constructor]. eapply Forall_impl; [exact Hl|].
    intros x Hx Hg. apply H1. apply (comp_lt_le comp key (key_of x)); [done|exact Hx].
Qed.

Lemma find_leaf_ok fuel : forall t u s ex key,
  rb_rep t (plug u s) ex -> sorted_keys (inorder (plug u s)) -> key_place key u -> height s <= fuel ->
  exists u', find_leaf comp fuel t key (ptr (rb_dummy t) s) (above (rb_dummy t) u) = Ok (above (rb_dummy t) u') /\
    plug u' E = plug u s /\ key_place key u'.
Proof.
  induction fuel as [|fuel IH]; intros t u s ex key H Hs Hp Hf; (destruct s as [|c a k v l r]; simpl in *;
    [rewrite Nat.eqb_refl; by exists u|]); [lia|].
  rewrite (not_dummy t u c a k v l r ex H), (compare_at_ok t u c a k v l r ex key H), (rep_node t u c a k v l r ex H). simpl.
  pose proof (key_place_down key u c a k v l r Hs Hp) as Hd. destruct (comp key k =? 1)%Z.
  - apply (IH t (InL c a k v r u) l ex key H Hs Hd). lia.
  - apply (IH t (InR c a k v l u) r ex key H Hs Hd). lia.
Qed.

(** ** A new node *)

Lemma node_ok t a n : rb_nodes t !! a = Some n -> node t a = Ok n.
Proof. intros H. unfold node. by rewrite H. Qed.

Lemma create_node_ok t w key value : rb_rep t w [] ->
  exists t', create_node_rb_tree t key value = Ok (t', rb_brk t) /\ rb_rep t' w [rb_brk t] /\
    rb_nodes t' !! rb_brk t = Some (mk_node (Some key) (Some value) (rb_dummy t) (rb_dummy t) (rb_dummy t) ASSOC_RED) /\
    rb_dummy t' = rb_dummy t /\ rb_size t' = rb_size t /\ rb_key_sz t' = rb_key_sz t /\ rb_free_func t' = rb_free_func t /\
    rb_brk t' = S (rb_brk t) /\ rb_root t' = rb_root t.
Proof.
  intros H. set (z := rb_brk t). unfold create_node_rb_tree, init_node. fold z.
  set (t1 := {| t with rb_nodes := _; rb_brk := _ |}).
  assert (Hz : forall b, b ∈ rb_dummy t :: addrs w -> b <> z) by (intros b Hb ->; pose proof (rr_brk _ _ _ H _ Hb); unfold z in *; lia).
  assert (H1 : rb_rep t1 w [z]).
  { pose proof (rr_nodup _ _ _ H) as Hn. split; simpl.
    - destruct (rr_dummy _ _ _ H) as (dn & Hd & Hc). exists dn. rewrite lookup_insert_ne; [done|]. symmetry. apply Hz. set_solver.
    - apply rep_put; [|apply (rr_rep _ _ _ H)]. intros Hin. apply (Hz z); [set_solver|done].
    - apply (rr_root _ _ _ H).
    - simpl in Hn. apply NoDup_cons in Hn as [Hd Hn]. constructor; [|constructor; [|done]].
      + intros [Heq|Hin]%elem_of_cons; [apply (Hz (rb_dummy t)); [set_solver|done]|done].
      + intros Hin. apply (Hz z); [set_solver|done].
    - intros a. rewrite lookup_insert. pose proof (rr_dom _ _ _ H a) as Hdom. simpl in Hdom. case_decide; [subst; set_solver|].
      rewrite Hdom. set_solver.
    - intros a Ha. assert (a = z \/ a ∈ rb_dummy t :: [] ++ addrs w) as [->|Hin] by set_solver.
      + pose proof (rr_brk _ _ _ H (rb_dummy t) ltac:(set_solver)). unfold z. lia.
      + pose proof (rr_brk _ _ _ H a Hin). lia. }
  assert (Hin : rb_nodes t1 !! z = Some (mk_node (Some key) (Some value) 0 0 0 ASSOC_RED)) by apply lookup_insert_eq.
  assert (Hzz : z ∈ [z]) by set_solver.
  unfold set_parent at 1. rewrite (upd_node_ok t1 z _ _ Hin). simpl.
  destruct (rep_put_loose t1 w _ z {| (mk_node (Some key) (Some value) 0 0 0 ASSOC_RED) with nd_parent := rb_dummy t |} H1 Hzz ltac:(by rewrite Hin)) as [H2 _].
  unfold set_left at 1. rewrite (upd_node_ok _ z _ _ (put_node_eq _ _ _)). simpl.
  destruct (rep_put_loose _ w _ z {| (mk_node (Some key) (Some value) (rb_dummy t) 0 0 ASSOC_RED) with nd_left := rb_dummy t |} H2 Hzz ltac:(by rewrite put_node_eq)) as [H3 _].
  unfold set_right at 1. rewrite (upd_node_ok _ z _ _ (put_node_eq _ _ _)). simpl.
  destruct (rep_put_loose _ w _ z {| (mk_node (Some key) (Some value) (rb_dummy t) (rb_dummy t) 0 ASSOC_RED) with nd_right := rb_dummy t |} H3 Hzz ltac:(by rewrite put_node_eq)) as [H4 _].
  eexists. split; [done|]. split_and!; [exact H4|apply put_node_eq|done..].
Qed.

(** The new node [z] becomes a leaf of the tree. *)
Lemma link_ok t u z key value :
  rb_rep t (plug u E) [z] -> key_place key u ->
  rb_nodes t !! z = Some (mk_node (Some key) (Some value) (above (rb_dummy t) u) (rb_dummy t) (rb_dummy t) ASSOC_RED) ->
  exists t', (if above (rb_dummy t) u =? rb_dummy t then Ok (set_root t z)
              else let* c := compare_at comp t key (above (rb_dummy t) u) in
                   if (c =? 1)%Z then set_left t (above (rb_dummy t) u) z else set_right t (above (rb_dummy t) u) z) = Ok t' /\
    rb_rep t' (plug u (T ASSOC_RED z key value E E)) [] /\ rb_kept t t'.
Proof.
  intros H [Hb Ha] Hz. rewrite (above_dummy _ _ _ _ H). pose proof (rep_nodup _ _ _ _ H) as Hn. rewrite app_nil_r in Hn.
  destruct (rep_place _ _ _ _ H) as [_ Hu]. simpl in Hu.
  assert (Hdone : forall t', rb_kept t t' -> rb_nodes t' !! rb_dummy t = rb_nodes t !! rb_dummy t -> rb_nodes t' !! z = rb_nodes t !! z ->
    crep (rb_nodes t') (rb_dummy t) (rb_root t') u z -> rb_rep t' (plug u (T ASSOC_RED z key value E E)) []).
  { intros t' Hk Hd Hz' Hc. rewrite Hz in Hz'. apply (rep_built t t' (plug u E) [z]); [done|done| | |by simpl; split_and!|done].
    - rewrite Hd. apply (rr_dummy _ _ _ H).
    - rewrite addrs_plug. simpl. rewrite app_nil_r. solve_Permutation. }
  destruct u as [|c p kp vp s u|c p kp vp s u]; simpl in *.
  - eexists. split; [done|]. split; [|done]. by apply Hdone.
  - destruct Hu as (Hpn & Hs & Hu). rewrite (compare_at_ok t u c p kp vp E s [z] key H). simpl.
    inversion Ha as [|? ? Hg _]; subst. unfold goes_left, key_of in Hg. simpl in Hg. rewrite Hg. simpl.
    unfold set_left. rewrite (upd_node_ok t p _ _ Hpn). eexists. split; [done|].
    assert (Hk : rb_kept t (put_node t p {| (mk_node (Some kp) (Some vp) (above (rb_dummy t) u) (rb_dummy t) (ptr (rb_dummy t) s) c) with nd_left := z |}))
      by (apply put_kept; by rewrite Hpn).
    split; [|done]. apply Hdone; [done|apply put_node_ne; apart|apply put_node_ne; apart|].
    simpl. split_and!; [by rewrite lookup_insert_eq|apply rep_put; [apart|done]|apply crep_put; [apart|done]].
  - destruct Hu as (Hpn & Hs & Hu). rewrite (compare_at_ok t u c p kp vp s E [z] key H). simpl.
    apply Forall_app in Hb as [_ Hb]. apply Forall_app in Hb as [_ Hb]. inversion Hb as [|? ? Hg _]; subst.
    unfold goes_left, key_of in Hg. simpl in Hg. rewrite (proj2 (Z.eqb_neq _ _)) by done.
    unfold set_right. rewrite (upd_node_ok t p _ _ Hpn). eexists. split; [done|].
    assert (Hk : rb_kept t (put_node t p {| (mk_node (Some kp) (Some vp) (above (rb_dummy t) u) (ptr (rb_dummy t) s) (rb_dummy t) c) with nd_right := z |}))
      by (apply put_kept; by rewrite Hpn).
    split; [|done]. apply Hdone; [done|apply put_node_ne; apart|apply put_node_ne; apart|].
    simpl. split_and!; [by rewrite lookup_insert_eq|apply rep_put; [apart|done]|apply crep_put; [apart|done]].
Qed.

(** ** Insertion *)

(** A tree of the code that holds the sorted list [l]. *)
Definition rb_tree t (l : list entry) : Prop :=
  exists w n, rb_rep t w [] /\ rb ASSOC_BLACK n w /\ inorder w = l /\ sorted_keys l /\ rb_size t = zlen l.

Lemma init_ok key_sz free_func : (0 < key_sz)%Z ->
  exists t, assoc_rb_tree_init (K:=K) (V:=V) key_sz free_func = Ok t /\ rb_tree t [] /\
    rb_key_sz t = key_sz /\ rb_free_func t = free_func.
Proof.
  intros Hk. unfold assoc_rb_tree_init. rewrite (proj2 (Z.ltb_lt _ _) Hk). simpl.
  eexists. split; [done|]. split; [|done]. exists E, 0. split_and!; [|constructor|done|constructor|done].
  split; simpl.
  - eexists. split; [by rewrite lookup_insert_eq|done].
  - done.
  - done.
  - by apply NoDup_singleton.
  - intros a. rewrite !lookup_insert, lookup_empty, list_elem_of_singleton. case_decide as Heq; [by subst|].
    split; [by intros [? ?]|by intros ->].
  - intros a ->%list_elem_of_singleton. lia.
Qed.

Lemma insert_fixup_ok t u z (k : K) (v : V) n : rb_rep t (plug u (T ASSOC_RED z k v E E)) [] -> rb ASSOC_BLACK n (plug u E) ->
  exists t' w' n', insert_fixup t z = Ok t' /\ rb_rep t' w' [] /\ rb_kept t t' /\ rb ASSOC_BLACK n' w' /\
    inorder w' = inorder (plug u (T ASSOC_RED z k v E E)).
Proof.
  intros H Hrb. destruct (rb_unplug n u E Hrb) as (c & m & HE & Hu). inversion HE; subst.
  unfold insert_fixup. rewrite (nodes_size t _ _ H).
  assert (Hfuel : depth u < S (length (@nil nat) + length (addrs (plug u (T ASSOC_RED z k v E E))))).
  { rewrite addrs_plug, length_app. pose proof (depth_caddrs u). simpl. lia. }
  destruct (insert_fixup_loop_ok _ t u z k v E E [] 0 H HE HE Hu Hfuel) as (t1 & w1 & -> & H1 & K1 & Hi & n1 & Hb). simpl.
  destruct w1 as [|c a ka va l r].
  - exfalso. rewrite inorder_plug in Hi. simpl in Hi. by destruct (before u).
  - rewrite (rr_root _ _ _ H1). simpl.
    destruct (set_color_ok t1 Top c a ka va l r [] ASSOC_BLACK H1) as (t2 & -> & H2 & K2 & _).
    exists t2, (T ASSOC_BLACK a ka va l r), n1. split_and!; [done|done|by etrans|done|done].
Qed.

Lemma list_insert_length e l : length (list_insert e l) = S (length l).
Proof. induction l as [|x l IH]; simpl; [done|]. case_match; simpl; by rewrite ?IH. Qed.

Lemma rb_insert_ok t l key value : rb_tree t l -> (zlen l + 1 < 2 ^ 64)%Z ->
  exists t', assoc_rb_tree_insert comp t key (rb_key_sz t) value = Ok t' /\ rb_tree t' (list_insert (rb_brk t, key, value) l) /\
    rb_key_sz t' = rb_key_sz t /\ rb_free_func t' = rb_free_func t /\ rb_brk t' = S (rb_brk t).
Proof.
  intros (w & n & H & Hrb & <- & Hs & Hsize) Hlen. unfold assoc_rb_tree_insert. rewrite Z.eqb_refl. simpl.
  destruct (create_node_ok t w key value H) as (t1 & -> & H1 & Hz & Ed1 & Es1 & Ek1 & Ef1 & Eb1 & Er1). simpl.
  set (z := rb_brk t) in *.
  assert (Hzd : z <> rb_dummy t) by (pose proof (rr_brk _ _ _ H (rb_dummy t) ltac:(set_solver)); unfold z; lia).
  rewrite Ed1, (proj2 (Nat.eqb_neq _ _) Hzd). simpl.
  destruct (find_leaf_ok (size (rb_nodes t1)) t1 Top w [z] key H1 Hs) as (u & Hy & Hw & Hp).
  { by split. }
  { rewrite (nodes_size _ _ _ H1). pose proof (height_addrs w). lia. }
  simpl in Hy, Hw. rewrite <- (rr_root _ _ _ H1), Ed1 in Hy. rewrite Hy. simpl. subst w.
  unfold set_parent. rewrite (upd_node_ok t1 z _ _ Hz). simpl. set (nz := mk_node _ _ _ _ _ _).
  destruct (rep_put_loose t1 _ [z] z nz H1 ltac:(set_solver) ltac:(by rewrite Hz)) as [H2 K2].
  destruct (link_ok (put_node t1 z nz) u z key value H2 Hp) as (t3 & Hl3 & H3 & K3).
  { simpl. rewrite lookup_insert_eq. unfold nz. by rewrite Ed1. }
  simpl in Hl3. rewrite Ed1 in Hl3. rewrite Ed1, Hl3. simpl.
  destruct (insert_fixup_ok t3 u z key value n H3 Hrb) as (t4 & w4 & n4 & -> & H4 & K4 & Hrb4 & Hi4). simpl.
  assert (K14 : rb_kept t1 t4) by (etrans; [exact K2|]; by etrans).
  assert (Hin : inorder w4 = list_insert (z, key, value) (inorder (plug u E))).
  { rewrite Hi4, !inorder_plug. simpl. symmetry. by destruct Hp; apply list_insert_at. }
  eexists. split; [done|]. simpl. split_and!; [|by rewrite (rk_key_sz _ _ K14)|by rewrite (rk_free _ _ K14)|by rewrite (rk_brk _ _ K14)].
  exists w4, n4. split_and!; [|done|done| |].
  - by destruct H4; constructor.
  - rewrite inorder_plug in *. simpl in *. destruct Hp as [Hb Ha]. rewrite list_insert_at by done.
    apply sorted_middle; [done|eapply Forall_impl; [exact Hb|]|eapply Forall_impl; [exact Ha|]]; intros x Hx; unfold key_le, goes_left, key_of in *; simpl in *.
    + intros Hneg. apply Hx. by apply comp_flip.
    + rewrite Hx. lia.
  - simpl. rewrite (rk_size _ _ K14), Es1, Hsize. unfold zlen in *. rewrite list_insert_length, wrap_small; lia.
Qed.

End Ops.
