(* ===== verification/RbDelete.v ===== *)
(** The red-black tree of flexric: the fix-up of a deletion. *)

From S2P Require Import Prelude RbTree RbShape RbInsert RbOps.
#[local] Open Scope nat_scope.

Section Fixup.
Context {K V : Type}.
Abbreviation tree := (assoc_rb_tree_t K V).
Abbreviation rbt := (rbt K V).
Abbreviation ctx := (ctx K V).
Implicit Types (t : tree).

(** ** Where the fix-up is *)

(** The node the pointer to [s] leads to has the node above as its parent, also
    when it is the shared leaf. *)
Definition foc t (u : ctx) (s : rbt) : Prop :=
  exists xn, node t (ptr (rb_dummy t) s) = Ok xn /\ nd_parent xn = above (rb_dummy t) u.

Lemma foc_node t u c a k v l r ex : rb_rep t (plug u (T c a k v l r)) ex -> foc t u (T c a k v l r).
Proof. intros H. eexists. split; [apply (rep_node t u c a k v l r ex H)|done]. Qed.

Lemma crep_root m d root u q : crep (K:=K) (V:=V) m d root u q -> u = Top /\ root = q \/ root ∈ caddrs u.
Proof.
  revert q. induction u as [|c a k v s u IH|c a k v s u IH]; intros q; simpl; [by left| |];
    intros (_ & _ & [[-> ->]|?]%IH); right; simpl; set_solver.
Qed.

Lemma root_test t u s ex : rb_rep t (plug u s) ex -> (ptr (rb_dummy t) s =? rb_root t) = match u with Top => true | _ => false end.
Proof.
  intros H. pose proof (rep_nodup _ _ _ _ H) as Hn. destruct (rep_place _ _ _ _ H) as [_ Hu].
  destruct (crep_root _ _ _ _ _ Hu) as [[-> ->]|Hr]; [apply Nat.eqb_refl|].
  assert (Hne : ptr (rb_dummy t) s <> rb_root t).
  { intros Heq. rewrite <- Heq in Hr. destruct (ptr_cases (rb_dummy t) s) as [Hp|?]; [rewrite Hp in Hr|]; apart. }
  rewrite (proj2 (Nat.eqb_neq _ _) Hne). by destruct u.
Qed.

(** A subtree is not its sibling, when one of them is not empty. *)
Lemma right_not_left t u cp p kp vp cw w kw vw wl wr s ex :
  rb_rep t (plug (InR cp p kp vp (T cw w kw vw wl wr) u) s) ex -> (ptr (rb_dummy t) s =? w) = false.
Proof.
  intros H. apply rep_nodup in H. apply Nat.eqb_neq. intros <-. simpl in H.
  destruct (ptr_cases (rb_dummy t) s) as [Hp|?]; [rewrite Hp in H|]; apart.
Qed.

(** [set_color] on a pointer that may lead to the shared leaf. *)
Lemma blacken_ok t u s ex : rb_rep t (plug u s) ex ->
  exists t', set_color t (ptr (rb_dummy t) s) ASSOC_BLACK = Ok t' /\ rb_rep t' (plug u (blacken s)) ex /\ rb_kept t t'.
Proof.
  intros H. destruct s as [|c a k v l r]; simpl.
  - destruct (rr_dummy _ _ _ H) as (dn & Hd & Hc). unfold set_color. rewrite (upd_node_ok t _ _ _ Hd).
    assert (Heq : put_node t (rb_dummy t) {| dn with nd_color := ASSOC_BLACK |} = t).
    { unfold put_node. destruct t as [? ? ? ? ? m ?]; simpl in *. f_equal. rewrite <- Hc. destruct dn; simpl. by apply insert_id. }
    rewrite Heq. by exists t.
  - destruct (set_color_ok t u c a k v l r ex ASSOC_BLACK H) as (t' & -> & H' & K' & _). by exists t'.
Qed.


(** *** The left child *)

Lemma sibling_of_left_ok t u cp p kp vp cw w kw vw wn wf s ex n :
  rb_rep t (plug (InL cp p kp vp (T cw w kw vw wn wf) u) s) ex -> rb ASSOC_BLACK n s ->
  frame_ok ASSOC_BLACK cp (S n) (T cw w kw vw wn wf) ->
  cok cp (up_height cp (S n)) u ->
  exists t' u' cp' y ky vy yn yf, sibling_of_left t p = Ok (t', y) /\
    rb_rep t' (plug (InL cp' p kp vp (T ASSOC_BLACK y ky vy yn yf) u') s) ex /\ rb_kept t t' /\
    inorder (plug (InL cp' p kp vp (T ASSOC_BLACK y ky vy yn yf) u') s)
      = inorder (plug (InL cp p kp vp (T cw w kw vw wn wf) u) s) /\
    (exists cn cf, rb cn n yn /\ rb cf n yf) /\ cok cp' (up_height cp' (S n)) u' /\
    (cp' = ASSOC_RED \/ u' = u).
Proof.
  intros H Hs Hf Hu. unfold sibling_of_left. rewrite (rep_node t u cp p kp vp _ _ ex H). simpl.
  unfold color_of. rewrite (rep_node t (InR cp p kp vp s u) cw w kw vw wn wf ex H). simpl. destruct cw; simpl.
  - exists t, u, cp, w, kw, vw, wn, wf. split_and!; try done; [|by right].
    destruct cp; simpl in Hf; [destruct Hf as [c Hf]|destruct Hf as [_ Hf]]; inversion Hf; subst; eauto.
  - destruct cp; simpl in Hf; [destruct Hf as [c Hf]|by destruct Hf as [_ Hf]; inversion Hf].
    inversion Hf as [|n' w' kw' vw' l' r' Hl Hr|]; subst.
    destruct (set_color_ok t (InR ASSOC_BLACK p kp vp s u) _ w _ _ _ _ ex ASSOC_BLACK H) as (t1 & -> & H1 & K1 & _). simpl.
    destruct (set_color_ok t1 u _ p _ _ _ _ ex ASSOC_RED H1) as (t2 & -> & H2 & K2 & _). simpl.
    destruct (left_rotate_ok t2 u _ p _ _ _ _ w _ _ _ _ ex H2) as (t3 & -> & H3 & K3 & _). simpl.
    rewrite (rep_node t3 (InL ASSOC_BLACK w kw vw wf u) _ p kp vp _ _ ex H3). simpl.
    assert (Hwn : rb ASSOC_BLACK (S n) wn) by done. inversion Hwn as [| |n' cl cr y ky vy yl yr Hyl Hyr]; subst. simpl.
    exists t3, (InL ASSOC_BLACK w kw vw wf u), ASSOC_RED, y, ky, vy, yl, yr.
    split_and!; [done|exact H3|etrans; [|etrans]; done| |eauto| |by left].
    + apply (inorder_recolor u). simpl. by rewrite <- ?app_assoc; simpl; rewrite <- ?app_assoc.
    + simpl. split; [|done]. exists ASSOC_BLACK. exact Hr.
Qed.

Lemma borrow_for_left_ok t u cp p kp vp w kw vw wn wf s ex n :
  rb_rep t (plug (InL cp p kp vp (T ASSOC_BLACK w kw vw wn wf) u) s) ex -> rb ASSOC_BLACK n s ->
  (exists cn cf, rb cn n wn /\ rb cf n wf /\ (cn = ASSOC_RED \/ cf = ASSOC_RED)) -> cok cp (up_height cp (S n)) u ->
  exists t' w', borrow_for_left t p w = Ok t' /\ rb_rep t' w' ex /\ rb_kept t t' /\
    inorder w' = inorder (plug (InL cp p kp vp (T ASSOC_BLACK w kw vw wn wf) u) s) /\ exists n', rb ASSOC_BLACK n' w'.
Proof.
  intros H Hs (cn & cf & Hn & Hf & Hred) Hu. unfold borrow_for_left.
  rewrite (rep_node t (InR cp p kp vp s u) _ w kw vw _ _ ex H). simpl.
  rewrite (color_ptr t (InR ASSOC_BLACK w kw vw wn (InR cp p kp vp s u)) wf ex H), (rb_color cf n) by done. simpl.
  assert (Hcase4 : forall t0 w0 k0 v0 a0 kz vz z b0 c0,
    rb_kept t t0 -> rb_rep t0 (plug (InL cp p kp vp (T ASSOC_BLACK w0 k0 v0 a0 (T ASSOC_RED z kz vz b0 c0)) u) s) ex ->
    (exists ca, rb ca n a0) -> rb ASSOC_BLACK n b0 -> rb ASSOC_BLACK n c0 ->
    inorder (plug (InL cp p kp vp (T ASSOC_BLACK w0 k0 v0 a0 (T ASSOC_RED z kz vz b0 c0)) u) s)
      = inorder (plug (InL cp p kp vp (T ASSOC_BLACK w kw vw wn wf) u) s) ->
    exists t' w',
      (let* wn := node t0 w0 in
       let* _ := assert_ (negb (is_red (nd_color wn))) in
       let* rc := color_of t0 (nd_right wn) in
       let* _ := assert_ (is_red rc) in
       let* pc := color_of t0 p in
       let* t := set_color t0 w0 pc in
       let* t := set_color t p ASSOC_BLACK in
       let* t := set_color t (nd_right wn) ASSOC_BLACK in
       left_rotate t p) = Ok t' /\ rb_rep t' w' ex /\ rb_kept t t' /\
    inorder w' = inorder (plug (InL cp p kp vp (T ASSOC_BLACK w kw vw wn wf) u) s) /\ exists n', rb ASSOC_BLACK n' w').
  { clear H. intros t0 w0 k0 v0 a0 kz vz z b0 c0 K0 H [ca Ha] Hb Hc Hi.
    rewrite (rep_node t0 (InR cp p kp vp s u) _ w0 k0 v0 _ _ ex H). simpl.
    unfold color_of. rewrite (rep_node t0 (InR ASSOC_BLACK w0 k0 v0 a0 (InR cp p kp vp s u)) _ z kz vz _ _ ex H). simpl.
    rewrite (rep_node t0 u cp p kp vp _ _ ex H). simpl.
    destruct (set_color_ok t0 (InR cp p kp vp s u) _ w0 _ _ _ _ ex cp H) as (t1 & -> & H1 & K1 & _). simpl.
    destruct (set_color_ok t1 u _ p _ _ _ _ ex ASSOC_BLACK H1) as (t2 & -> & H2 & K2 & _). simpl.
    destruct (set_color_ok t2 (InR cp w0 k0 v0 a0 (InR ASSOC_BLACK p kp vp s u)) _ z _ _ _ _ ex ASSOC_BLACK H2) as (t3 & -> & H3 & K3 & _). simpl.
    destruct (left_rotate_ok t3 u _ p _ _ _ _ w0 _ _ _ _ ex H3) as (t4 & -> & H4 & K4 & _).
    eexists t4, _. split_and!; [done|exact H4|etrans; [|etrans; [|etrans; [|etrans]]]; done| |].
    - etrans; [|exact Hi]. apply (inorder_recolor u). simpl. by rewrite <- ?app_assoc; simpl; rewrite <- ?app_assoc.
    - apply (rb_plug cp (up_height cp (S n))); [|done].
      assert (Hp : rb ASSOC_BLACK (S n) (T ASSOC_BLACK p kp vp s a0)) by by econstructor.
      assert (Hz : rb ASSOC_BLACK (S n) (T ASSOC_BLACK z kz vz b0 c0)) by by econstructor.
      destruct cp; simpl; by econstructor. }
  destruct cf; simpl.
  - destruct Hred as [->|]; [|done]. inversion Hn as [|n' y ky vy yl yr Hyl Hyr|]; subst.
    simpl. unfold color_of at 1. rewrite (rep_node t (InL ASSOC_BLACK w kw vw wf (InR cp p kp vp s u)) _ y ky vy _ _ ex H). simpl.
    destruct (set_color_ok t (InL ASSOC_BLACK w kw vw wf (InR cp p kp vp s u)) _ y _ _ _ _ ex ASSOC_BLACK H) as (t1 & -> & H1 & K1 & _). simpl.
    destruct (set_color_ok t1 (InR cp p kp vp s u) _ w _ _ _ _ ex ASSOC_RED H1) as (t2 & -> & H2 & K2 & _). simpl.
    destruct (right_rotate_ok t2 (InR cp p kp vp s u) _ w _ _ _ _ y _ _ _ _ ex H2) as (t3 & -> & H3 & K3 & _). simpl.
    rewrite (rep_node t3 u cp p kp vp _ _ ex H3). simpl.
    eapply Hcase4; [etrans; [|etrans]; done|exact H3|by eexists|done|done|].
    apply (inorder_recolor u). simpl. by rewrite <- ?app_assoc; simpl; rewrite <- ?app_assoc.
  - inversion Hf as [|n' z kz vz zl zr Hzl Hzr|]; subst.
    eapply Hcase4; [done|exact H|by eexists|done|done|done].
Qed.

(** *** The right child *)

Lemma sibling_of_right_ok t u cp p kp vp cw w kw vw wn wf s ex n :
  rb_rep t (plug (InR cp p kp vp (T cw w kw vw wf wn) u) s) ex -> rb ASSOC_BLACK n s ->
  frame_ok ASSOC_BLACK cp (S n) (T cw w kw vw wf wn) ->
  cok cp (up_height cp (S n)) u ->
  exists t' u' cp' y ky vy yn yf, sibling_of_right t p = Ok (t', y) /\
    rb_rep t' (plug (InR cp' p kp vp (T ASSOC_BLACK y ky vy yf yn) u') s) ex /\ rb_kept t t' /\
    inorder (plug (InR cp' p kp vp (T ASSOC_BLACK y ky vy yf yn) u') s)
      = inorder (plug (InR cp p kp vp (T cw w kw vw wf wn) u) s) /\
    (exists cn cf, rb cn n yn /\ rb cf n yf) /\ cok cp' (up_height cp' (S n)) u' /\
    (cp' = ASSOC_RED \/ u' = u).
Proof.
  intros H Hs Hf Hu. unfold sibling_of_right. rewrite (rep_node t u cp p kp vp _ _ ex H). simpl.
  unfold color_of. rewrite (rep_node t (InL cp p kp vp s u) cw w kw vw wf wn ex H). simpl. destruct cw; simpl.
  - exists t, u, cp, w, kw, vw, wn, wf. split_and!; try done; [|by right].
    destruct cp; simpl in Hf; [destruct Hf as [c Hf]|destruct Hf as [_ Hf]]; inversion Hf; subst; eauto.
  - destruct cp; simpl in Hf; [destruct Hf as [c Hf]|by destruct Hf as [_ Hf]; inversion Hf].
    inversion Hf as [|n' w' kw' vw' l' r' Hl Hr|]; subst.
    destruct (set_color_ok t (InL ASSOC_BLACK p kp vp s u) _ w _ _ _ _ ex ASSOC_BLACK H) as (t1 & -> & H1 & K1 & _). simpl.
    destruct (set_color_ok t1 u _ p _ _ _ _ ex ASSOC_RED H1) as (t2 & -> & H2 & K2 & _). simpl.
    destruct (right_rotate_ok t2 u _ p _ _ _ _ w _ _ _ _ ex H2) as (t3 & -> & H3 & K3 & _). simpl.
    rewrite (rep_node t3 (InR ASSOC_BLACK w kw vw wf u) _ p kp vp _ _ ex H3). simpl.
    assert (Hwn : rb ASSOC_BLACK (S n) wn) by done. inversion Hwn as [| |n' cl cr y ky vy yl yr Hyl Hyr]; subst. simpl.
    exists t3, (InR ASSOC_BLACK w kw vw wf u), ASSOC_RED, y, ky, vy, yr, yl.
    split_and!; [done|exact H3|etrans; [|etrans]; done| |eauto| |by left].
    + apply (inorder_recolor u). simpl. by rewrite <- ?app_assoc; simpl; rewrite <- ?app_assoc.
    + simpl. split; [|done]. exists ASSOC_BLACK. exact Hl.
Qed.

Lemma borrow_for_right_ok t u cp p kp vp w kw vw wn wf s ex n :
  rb_rep t (plug (InR cp p kp vp (T ASSOC_BLACK w kw vw wf wn) u) s) ex -> rb ASSOC_BLACK n s ->
  (exists cn cf, rb cn n wn /\ rb cf n wf /\ (cn = ASSOC_RED \/ cf = ASSOC_RED)) -> cok cp (up_height cp (S n)) u ->
  exists t' w', borrow_for_right t p w = Ok t' /\ rb_rep t' w' ex /\ rb_kept t t' /\
    inorder w' = inorder (plug (InR cp p kp vp (T ASSOC_BLACK w kw vw wf wn) u) s) /\ exists n', rb ASSOC_BLACK n' w'.
Proof.
  intros H Hs (cn & cf & Hn & Hf & Hred) Hu. unfold borrow_for_right.
  rewrite (rep_node t (InL cp p kp vp s u) _ w kw vw _ _ ex H). simpl.
  rewrite (color_ptr t (InL ASSOC_BLACK w kw vw wn (InL cp p kp vp s u)) wf ex H), (rb_color cf n) by done. simpl.
  assert (Hcase4 : forall t0 w0 k0 v0 a0 kz vz z b0 c0,
    rb_kept t t0 -> rb_rep t0 (plug (InR cp p kp vp (T ASSOC_BLACK w0 k0 v0 (T ASSOC_RED z kz vz c0 b0) a0) u) s) ex ->
    (exists ca, rb ca n a0) -> rb ASSOC_BLACK n b0 -> rb ASSOC_BLACK n c0 ->
    inorder (plug (InR cp p kp vp (T ASSOC_BLACK w0 k0 v0 (T ASSOC_RED z kz vz c0 b0) a0) u) s)
      = inorder (plug (InR cp p kp vp (T ASSOC_BLACK w kw vw wf wn) u) s) ->
    exists t' w',
      (let* wn := node t0 w0 in
       let* _ := assert_ (negb (is_red (nd_color wn))) in
       let* rc := color_of t0 (nd_left wn) in
       let* _ := assert_ (is_red rc) in
       let* pc := color_of t0 p in
       let* t := set_color t0 w0 pc in
       let* t := set_color t p ASSOC_BLACK in
       let* t := set_color t (nd_left wn) ASSOC_BLACK in
       right_rotate t p) = Ok t' /\ rb_rep t' w' ex /\ rb_kept t t' /\
    inorder w' = inorder (plug (InR cp p kp vp (T ASSOC_BLACK w kw vw wf wn) u) s) /\ exists n', rb ASSOC_BLACK n' w').
  { clear H. intros t0 w0 k0 v0 a0 kz vz z b0 c0 K0 H [ca Ha] Hb Hc Hi.
    rewrite (rep_node t0 (InL cp p kp vp s u) _ w0 k0 v0 _ _ ex H). simpl.
    unfold color_of. rewrite (rep_node t0 (InL ASSOC_BLACK w0 k0 v0 a0 (InL cp p kp vp s u)) _ z kz vz _ _ ex H). simpl.
    rewrite (rep_node t0 u cp p kp vp _ _ ex H). simpl.
    destruct (set_color_ok t0 (InL cp p kp vp s u) _ w0 _ _ _ _ ex cp H) as (t1 & -> & H1 & K1 & _). simpl.
    destruct (set_color_ok t1 u _ p _ _ _ _ ex ASSOC_BLACK H1) as (t2 & -> & H2 & K2 & _). simpl.
    destruct (set_color_ok t2 (InL cp w0 k0 v0 a0 (InL ASSOC_BLACK p kp vp s u)) _ z _ _ _ _ ex ASSOC_BLACK H2) as (t3 & -> & H3 & K3 & _). simpl.
    destruct (right_rotate_ok t3 u _ p _ _ _ _ w0 _ _ _ _ ex H3) as (t4 & -> & H4 & K4 & _).
    eexists t4, _. split_and!; [done|exact H4|etrans; [|etrans; [|etrans; [|etrans]]]; done| |].
    - etrans; [|exact Hi]. apply (inorder_recolor u). simpl. by rewrite <- ?app_assoc; simpl; rewrite <- ?app_assoc.
    - apply (rb_plug cp (up_height cp (S n))); [|done].
      assert (Hp : rb ASSOC_BLACK (S n) (T ASSOC_BLACK p kp vp a0 s)) by by econstructor.
      assert (Hz : rb ASSOC_BLACK (S n) (T ASSOC_BLACK z kz vz c0 b0)) by by econstructor.
      destruct cp; simpl; by econstructor. }
  destruct cf; simpl.
  - destruct Hred as [->|]; [|done]. inversion Hn as [|n' y ky vy yl yr Hyl Hyr|]; subst.
    simpl. unfold color_of at 1. rewrite (rep_node t (InR ASSOC_BLACK w kw vw wf (InL cp p kp vp s u)) _ y ky vy _ _ ex H). simpl.
    destruct (set_color_ok t (InR ASSOC_BLACK w kw vw wf (InL cp p kp vp s u)) _ y _ _ _ _ ex ASSOC_BLACK H) as (t1 & -> & H1 & K1 & _). simpl.
    destruct (set_color_ok t1 (InL cp p kp vp s u) _ w _ _ _ _ ex ASSOC_RED H1) as (t2 & -> & H2 & K2 & _). simpl.
    destruct (left_rotate_ok t2 (InL cp p kp vp s u) _ w _ _ _ _ y _ _ _ _ ex H2) as (t3 & -> & H3 & K3 & _). simpl.
    rewrite (rep_node t3 u cp p kp vp _ _ ex H3). simpl.
    eapply Hcase4; [etrans; [|etrans]; done|exact H3|by eexists|done|done|].
    apply (inorder_recolor u). simpl. by rewrite <- ?app_assoc; simpl; rewrite <- ?app_assoc.
  - inversion Hf as [|n' z kz vz zl zr Hzl Hzr|]; subst.
    eapply Hcase4; [done|exact H|by eexists|done|done|done].
Qed.

(** ** The loop *)

(** The fix-up ends at a subtree whose root only has to be black. *)
Definition deleted_ok (t t' : tree) (x' : nat) (w : rbt) (ex : list nat) : Prop :=
  exists u' s', x' = ptr (rb_dummy t') s' /\ rb_rep t' (plug u' s') ex /\ rb_kept t t' /\ inorder (plug u' s') = inorder w /\
    exists n', rb ASSOC_BLACK n' (plug u' (blacken s')).

Section Turns.
Variable fuel : nat.

Definition loop_ok (fuel : nat) t (a : nat) (w : rbt) (ex : list nat) : Prop :=
  exists t' x', delete_fixup_loop fuel t a = Ok (t', x') /\ deleted_ok t t' x' w ex.

Definition turn_ok t (u : ctx) (s : rbt) (ex : list nat) : Prop :=
  loop_ok (S fuel) t (ptr (rb_dummy t) s) (plug u s) ex.

Lemma turn_trans t t1 a w w1 ex : rb_kept t t1 -> inorder w1 = inorder w ->
  loop_ok fuel t1 a w1 ex -> exists t' x', delete_fixup_loop fuel t1 a = Ok (t', x') /\ deleted_ok t t' x' w ex.
Proof.
  intros Hk Hi (t' & x' & Hl & u' & s' & Hx & H' & K' & Hi' & Hrb). exists t', x'. split; [done|]. exists u', s'.
  split_and!; [done|done|by etrans|congruence|done].
Qed.

Lemma delete_stop t u s ex : rb_rep t (plug u s) ex -> 0 < fuel -> u = Top \/ color s = ASSOC_RED ->
  (exists n', rb ASSOC_BLACK n' (plug u (blacken s))) -> loop_ok fuel t (ptr (rb_dummy t) s) (plug u s) ex.
Proof.
  intros H Hfuel Hu Hrb. destruct fuel as [|fuel']; [lia|]. unfold loop_ok. simpl.
  rewrite (color_ptr t u s ex H), (root_test t u s ex H). simpl.
  assert (Hb : match u with Top => true | _ => false end || is_red (color s) = true).
  { destruct Hu as [->|Hc]; [done|]. rewrite Hc. apply orb_true_r. }
  rewrite Hb. exists t, (ptr (rb_dummy t) s). split; [done|]. by exists u, s.
Qed.

Hypothesis next_turns : forall t u s ex n,
  rb_rep t (plug u s) ex -> foc t u s -> rb ASSOC_BLACK n s -> cok ASSOC_BLACK (S n) u -> S (depth u) < fuel ->
  loop_ok fuel t (ptr (rb_dummy t) s) (plug u s) ex.

Lemma delete_turn_left t u cp p kp vp sib s ex n :
  rb_rep t (plug (InL cp p kp vp sib u) s) ex -> foc t (InL cp p kp vp sib u) s -> rb ASSOC_BLACK n s ->
  frame_ok ASSOC_BLACK cp (S n) sib -> cok cp (up_height cp (S n)) u -> S (S (depth u)) < S fuel ->
  turn_ok t (InL cp p kp vp sib u) s ex.
Proof.
  intros H (xn & Hx & Hxp) Hs Hf Hu Hfuel. unfold turn_ok, loop_ok. simpl. rewrite (color_ptr t _ s ex H), (rb_color _ _ _ Hs). simpl.
  rewrite (root_test t _ s ex H). simpl. rewrite Hx. simpl. rewrite Hxp. simpl.
  rewrite (rep_node t u cp p kp vp _ _ ex H). simpl.
  assert (exists cw w kw vw wl wr, sib = T cw w kw vw wl wr) as (cw & w & kw & vw & wl & wr & ->).
  { destruct cp; simpl in Hf; [destruct Hf as [c Hf]|destruct Hf as [_ Hf]]; inversion Hf; subst; repeat eexists. }
  simpl. rewrite Nat.eqb_refl.
  destruct (sibling_of_left_ok t u cp p kp vp cw w kw vw wl wr s ex n H Hs Hf Hu)
    as (t1 & u1 & cp1 & y & ky & vy & yn & yf & -> & H1 & K1 & Hi1 & (cn & cf & Hcn & Hcf) & Hu1 & Hred). simpl.
  rewrite (rep_node t1 (InR cp1 p kp vp s u1) _ y ky vy _ _ ex H1). simpl.
  rewrite (color_ptr t1 (InR ASSOC_BLACK y ky vy yn (InR cp1 p kp vp s u1)) yf ex H1), (rb_color _ _ _ Hcf).
  rewrite (color_ptr t1 (InL ASSOC_BLACK y ky vy yf (InR cp1 p kp vp s u1)) yn ex H1), (rb_color _ _ _ Hcn). simpl.
  destruct (negb (is_red cn) && negb (is_red cf)) eqn:Hb.
  - assert (cn = ASSOC_BLACK /\ cf = ASSOC_BLACK) as [-> ->] by (by destruct cn, cf).
    destruct (set_color_ok t1 (InR cp1 p kp vp s u1) _ y _ _ _ _ ex ASSOC_RED H1) as (t2 & -> & H2 & K2 & _). simpl.
    assert (Hw : rb ASSOC_RED n (T ASSOC_RED y ky vy yn yf)) by by constructor.
    assert (Hi2 : inorder (plug u1 (T cp1 p kp vp s (T ASSOC_RED y ky vy yn yf))) = inorder (plug (InL cp p kp vp (T cw w kw vw wl wr) u) s)).
    { etrans; [|exact Hi1]. by apply (inorder_recolor u1). }
    destruct cp1.
    + destruct Hred as [|Hu1u]; [done|]. subst u1.
      eapply turn_trans; [etrans; done|exact Hi2|apply (next_turns t2 u (T ASSOC_BLACK p kp vp s _) ex (S n) H2)].
      * by eapply foc_node.
      * by econstructor.
      * exact Hu1.
      * lia.
    + eapply turn_trans; [etrans; done|exact Hi2|apply (delete_stop t2 u1 (T ASSOC_RED p kp vp s _) ex H2)]; [lia|by right|].
      apply (rb_plug ASSOC_BLACK (S n)); [by econstructor|by eapply cok_black].
  - destruct (borrow_for_left_ok t1 u1 cp1 p kp vp y ky vy yn yf s ex n H1 Hs) as (t2 & w2 & -> & H2 & K2 & Hi2 & n2 & Hrb2); [|done|].
    { exists cn, cf. split_and!; [done..|]. destruct cn, cf; naive_solver. }
    simpl. rewrite (rr_root _ _ _ H2).
    eapply turn_trans; [etrans; done|etrans; [exact Hi2|exact Hi1]|apply (delete_stop t2 Top w2 ex H2)]; [lia|by left|].
    exists n2. simpl. by rewrite (blacken_black n2).
Qed.

Lemma delete_turn_right t u cp p kp vp sib s ex n :
  rb_rep t (plug (InR cp p kp vp sib u) s) ex -> foc t (InR cp p kp vp sib u) s -> rb ASSOC_BLACK n s ->
  frame_ok ASSOC_BLACK cp (S n) sib -> cok cp (up_height cp (S n)) u -> S (S (depth u)) < S fuel ->
  turn_ok t (InR cp p kp vp sib u) s ex.
Proof.
  intros H (xn & Hx & Hxp) Hs Hf Hu Hfuel. unfold turn_ok, loop_ok. simpl. rewrite (color_ptr t _ s ex H), (rb_color _ _ _ Hs). simpl.
  rewrite (root_test t _ s ex H). simpl. rewrite Hx. simpl. rewrite Hxp. simpl.
  rewrite (rep_node t u cp p kp vp _ _ ex H). simpl.
  assert (exists cw w kw vw wl wr, sib = T cw w kw vw wl wr) as (cw & w & kw & vw & wl & wr & ->).
  { destruct cp; simpl in Hf; [destruct Hf as [c Hf]|destruct Hf as [_ Hf]]; inversion Hf; subst; repeat eexists. }
  simpl. rewrite (right_not_left t u cp p kp vp cw w kw vw wl wr s ex H).
  destruct (sibling_of_right_ok t u cp p kp vp cw w kw vw wr wl s ex n H Hs Hf Hu)
    as (t1 & u1 & cp1 & y & ky & vy & yn & yf & -> & H1 & K1 & Hi1 & (cn & cf & Hcn & Hcf) & Hu1 & Hred). simpl.
  rewrite (rep_node t1 (InL cp1 p kp vp s u1) _ y ky vy _ _ ex H1). simpl.
  rewrite (color_ptr t1 (InL ASSOC_BLACK y ky vy yn (InL cp1 p kp vp s u1)) yf ex H1), (rb_color _ _ _ Hcf).
  rewrite (color_ptr t1 (InR ASSOC_BLACK y ky vy yf (InL cp1 p kp vp s u1)) yn ex H1), (rb_color _ _ _ Hcn). simpl.
  destruct (negb (is_red cf) && negb (is_red cn)) eqn:Hb.
  - assert (cn = ASSOC_BLACK /\ cf = ASSOC_BLACK) as [-> ->] by (by destruct cn, cf).
    destruct (set_color_ok t1 (InL cp1 p kp vp s u1) _ y _ _ _ _ ex ASSOC_RED H1) as (t2 & -> & H2 & K2 & _). simpl.
    assert (Hw : rb ASSOC_RED n (T ASSOC_RED y ky vy yf yn)) by by constructor.
    assert (Hi2 : inorder (plug u1 (T cp1 p kp vp (T ASSOC_RED y ky vy yf yn) s)) = inorder (plug (InR cp p kp vp (T cw w kw vw wl wr) u) s)).
    { etrans; [|exact Hi1]. by apply (inorder_recolor u1). }
    destruct cp1.
    + destruct Hred as [|Hu1u]; [done|]. subst u1.
      eapply turn_trans; [etrans; done|exact Hi2|apply (next_turns t2 u (T ASSOC_BLACK p kp vp _ s) ex (S n) H2)].
      * by eapply foc_node.
      * by econstructor.
      * exact Hu1.
      * lia.
    + eapply turn_trans; [etrans; done|exact Hi2|apply (delete_stop t2 u1 (T ASSOC_RED p kp vp _ s) ex H2)]; [lia|by right|].
      apply (rb_plug ASSOC_BLACK (S n)); [by econstructor|by eapply cok_black].
  - destruct (borrow_for_right_ok t1 u1 cp1 p kp vp y ky vy yn yf s ex n H1 Hs) as (t2 & w2 & -> & H2 & K2 & Hi2 & n2 & Hrb2); [|done|].
    { exists cn, cf. split_and!; [done..|]. destruct cn, cf; naive_solver. }
    simpl. rewrite (rr_root _ _ _ H2).
    eapply turn_trans; [etrans; done|etrans; [exact Hi2|exact Hi1]|apply (delete_stop t2 Top w2 ex H2)]; [lia|by left|].
    exists n2. simpl. by rewrite (blacken_black n2).
Qed.

End Turns.

Lemma delete_fixup_loop_ok fuel : forall t u s ex n,
  rb_rep t (plug u s) ex -> foc t u s -> rb ASSOC_BLACK n s -> cok ASSOC_BLACK (S n) u -> S (depth u) < fuel ->
  loop_ok fuel t (ptr (rb_dummy t) s) (plug u s) ex.
Proof.
  induction fuel as [|fuel IH]; [lia|]. intros t u s ex n H Hfoc Hs Hu Hfuel.
  destruct u as [|cp p kp vp sib u|cp p kp vp sib u].
  - apply (delete_stop (S fuel) t Top s ex H); [lia|by left|]. exists n. simpl. by rewrite (blacken_black n).
  - destruct Hu as [Hf Hu]. by apply (delete_turn_left fuel IH t u cp p kp vp sib s ex n).
  - destruct Hu as [Hf Hu]. by apply (delete_turn_right fuel IH t u cp p kp vp sib s ex n).
Qed.

(** The node that left was black: the place needs one black node more. *)
Lemma delete_fixup_ok t u s ex c n : rb_rep t (plug u s) ex -> foc t u s -> rb c n s -> cok ASSOC_BLACK (S n) u -> ex <> [] ->
  exists t' w' n', delete_fixup t (ptr (rb_dummy t) s) = Ok t' /\ rb_rep t' w' ex /\ rb_kept t t' /\
    inorder w' = inorder (plug u s) /\ rb ASSOC_BLACK n' w'.
Proof.
  intros H Hfoc Hs Hu Hex. unfold delete_fixup.
  assert (Hfuel : S (depth u) < size (rb_nodes t)).
  { rewrite (nodes_size t _ _ H), addrs_plug, length_app. pose proof (depth_caddrs u). destruct ex; [done|]. simpl. lia. }
  assert (loop_ok (size (rb_nodes t)) t (ptr (rb_dummy t) s) (plug u s) ex) as (t1 & x1 & -> & u1 & s1 & -> & H1 & K1 & Hi1 & n1 & Hrb1).
  { destruct c; [by apply (delete_fixup_loop_ok _ t u s ex n)|]. apply (delete_stop _ t u s ex H); [lia|right; by eapply rb_color|].
    inversion Hs; subst. apply (rb_plug ASSOC_BLACK (S n)); [by econstructor|done]. }
  simpl. destruct (blacken_ok t1 u1 s1 ex H1) as (t2 & -> & H2 & K2). exists t2, (plug u1 (blacken s1)), n1.
  split_and!; [done|done|by etrans| |done]. etrans; [|exact Hi1]. apply inorder_recolor, inorder_blacken.
Qed.

End Fixup.
