(* ===== verification/RbExtract.v ===== *)
(** The red-black tree of flexric: a node leaves the tree. *)

From S2P Require Import Prelude RbTree RbShape RbInsert RbOps RbDelete.
#[local] Open Scope nat_scope.

Section Extract.
Context {K V : Type}.
Abbreviation tree := (assoc_rb_tree_t K V).
Abbreviation rbt := (rbt K V).
Abbreviation ctx := (ctx K V).
Abbreviation entry := (nat * K * V)%type.
Implicit Types (t : tree).

(** ** Transplanting *)

Lemma transplant_ok t u z v zn vn d :
  rb_dummy t = d -> rb_nodes t !! z = Some zn -> nd_parent zn = above d u -> crep (rb_nodes t) d (rb_root t) u z ->
  NoDup (d :: z :: caddrs u) -> v ∉ z :: caddrs u -> rb_nodes t !! v = Some vn ->
  exists t', transplant t z v = Ok t' /\ crep (rb_nodes t') d (rb_root t') u v /\
    rb_nodes t' !! v = Some {| vn with nd_parent := above d u |} /\
    (forall b, b ∉ v :: caddrs u -> rb_nodes t' !! b = rb_nodes t !! b) /\ rb_kept t t'.
Proof.
  intros Ed Hz Hp Hu Hn Hv Hvn. unfold transplant. rewrite Ed, (proj2 (Nat.eqb_neq z d)) by apart. simpl.
  destruct (replace_child_ok t u z v zn Hz) as (t1 & -> & Hu1 & Hf1 & K1); rewrite ?Ed; [done|done|apart|apart|apart|].
  simpl. rewrite Ed in Hu1. unfold node. rewrite Hf1, Hz by apart. simpl. rewrite Hp.
  assert (Hvn1 : rb_nodes t1 !! v = Some vn) by (rewrite Hf1; [done|set_solver]).
  unfold set_parent. rewrite (upd_node_ok t1 v _ _ Hvn1). eexists. split; [done|]. split_and!.
  - apply crep_put; [set_solver|done].
  - apply put_node_eq.
  - intros b Hb. rewrite put_node_ne by set_solver. apply Hf1. set_solver.
  - etrans; [exact K1|]. apply put_kept. by rewrite Hvn1.
Qed.

Lemma rep_reparent m m' d p p' s n : rep (K:=K) (V:=V) m d p s -> NoDup (addrs s) ->
  m !! ptr d s = Some n -> m' !! ptr d s = Some {| n with nd_parent := p' |} ->
  (forall b, b ∈ addrs s -> b <> ptr d s -> m' !! b = m !! b) -> rep m' d p' s.
Proof.
  destruct s as [|c a k v l r]; simpl; [done|]. intros (Ha & Hl & Hr) Hn Hm Hm' Hf. rewrite Ha in Hm. injection Hm as <-.
  apply NoDup_cons in Hn as [Hal Hn]. split_and!; [done|..].
  - eapply rep_frame; [|exact Hl]. intros b Hb. apply Hf; set_solver.
  - eapply rep_frame; [|exact Hr]. intros b Hb. apply Hf; set_solver.
Qed.

Lemma ptr_node t u s ex : rb_rep t (plug u s) ex -> exists n, rb_nodes t !! ptr (rb_dummy t) s = Some n /\ nd_color n = color s.
Proof.
  intros H. destruct s as [|c a k v l r]; simpl; [exact (rr_dummy _ _ _ H)|].
  destruct (rep_place _ _ _ _ H) as [(Ha & _) _]. by eexists.
Qed.

(** A node with one child at most is replaced by it. *)
Lemma splice_ok t u c z k v l r s ex : rb_rep t (plug u (T c z k v l r)) ex -> l = E /\ s = r \/ r = E /\ s = l ->
  exists t', transplant t z (ptr (rb_dummy t) s) = Ok t' /\ rb_rep t' (plug u s) (z :: ex) /\ foc t' u s /\ rb_kept t t' /\
    rb_nodes t' !! z = rb_nodes t !! z.
Proof.
  intros H Hs. pose proof (rep_nodup _ _ _ _ H) as Hn. destruct (rep_place _ _ _ _ H) as [(Hz & Hl & Hr) Hu].
  assert (Hrep : rep (rb_nodes t) (rb_dummy t) z s) by (by destruct Hs as [[_ ->]|[_ ->]]).
  assert (Hn' : NoDup (rb_dummy t :: caddrs u ++ z :: addrs s)).
  { destruct Hs as [[-> ->]|[-> ->]]; simpl in Hn; rewrite ?app_nil_r in Hn; clear -Hn; apart_list. }
  assert (Hperm : addrs (T c z k v l r) ≡ₚ z :: addrs s).
  { destruct Hs as [[-> ->]|[-> ->]]; simpl; by rewrite ?app_nil_r. }
  assert (Hsn : exists n, rb_nodes t !! ptr (rb_dummy t) s = Some n /\ nd_color n = color s).
  { destruct Hs as [[_ ->]|[_ ->]]; [apply (ptr_node t (InR c z k v l u) r ex H)|apply (ptr_node t (InL c z k v r u) l ex H)]. }
  destruct Hsn as (n & Hsn & Hcol). clear Hs Hl Hr Hn.
  assert (Hptr : ptr (rb_dummy t) s ∉ z :: caddrs u) by (destruct (ptr_cases (rb_dummy t) s) as [->|?]; apart).
  destruct (transplant_ok t u z (ptr (rb_dummy t) s) _ n (rb_dummy t) eq_refl Hz eq_refl Hu) as (t' & -> & Hu' & Hv' & Hf & Hk);
    [apart_list|done|done|].
  exists t'. split; [done|].
  assert (Hfoc : foc t' u s).
  { eexists. unfold node. rewrite (rk_dummy _ _ Hk), Hv'. by split. }
  split_and!; [|done|done|apply Hf; clear -Hptr Hn'; apart].
  apply (rep_built t t' (plug u (T c z k v l r)) ex u s (z :: ex)); [done|done| | | |done].
  - destruct s as [|c' a' k' v' l' r']; simpl in *; [by eexists|]. rewrite Hf by apart. apply (rr_dummy _ _ _ H).
  - rewrite addrs_plug, Hperm. solve_Permutation.
  - apply (rep_reparent (rb_nodes t) _ _ z _ s n); [done|apart|done|done|]. intros b Hb Hne. apply Hf. apart.
Qed.

(** ** The leftmost node of a subtree *)

(** The way down to the left, from the root of a subtree. *)
Fixpoint lctx (lp : list (assoc_color_e * nat * K * V * rbt)) (u : ctx) : ctx :=
  match lp with
  | [] => u
  | (c, a, k, v, r) :: lp => lctx lp (InL c a k v r u)
  end.

Lemma plug_lctx lp u s : plug (lctx lp u) s = plug u (plug (lctx lp Top) s).
Proof.
  revert u. induction lp as [|[[[[c a] k] v] r] lp IH]; intros u; simpl; [done|].
  by rewrite (IH (InL c a k v r u)), (IH (InL c a k v r Top)).
Qed.

Lemma before_lctx lp u : before (lctx lp u) = before u.
Proof. revert u. induction lp as [|[[[[c a] k] v] r] lp IH]; intros u; simpl; [done|]. by rewrite IH. Qed.

Lemma caddrs_lctx lp u : caddrs (lctx lp u) ≡ₚ caddrs (lctx lp Top) ++ caddrs u.
Proof.
  revert u. induction lp as [|[[[[c a] k] v] r] lp IH]; intros u; simpl; [done|].
  rewrite (IH (InL c a k v r u)), (IH (InL c a k v r Top)). simpl. rewrite app_nil_r. solve_Permutation.
Qed.

(** The node above the end of a path that is not empty is on the path. *)
Lemma above_lctx d lp u : lp <> [] -> above d (lctx lp u) = above d (lctx lp Top) /\ above d (lctx lp u) ∈ caddrs (lctx lp Top).
Proof.
  intros Hlp. assert (Hgen : forall lp f u u', above d (lctx (f :: lp) u) = above d (lctx (f :: lp) u') /\
    above d (lctx (f :: lp) u) ∈ caddrs (lctx (f :: lp) u')).
  { clear. intros lp. induction lp as [|f' lp IH]; intros [[[[c a] k] v] r] u u'; simpl in *.
    - split; [done|]. apply list_elem_of_here.
    - apply (IH f' (InL c a k v r u) (InL c a k v r u')). }
  destruct lp as [|f lp]; [done|]. apply Hgen.
Qed.

Lemma ptr_lctx d lp s : lp <> [] -> ptr d (plug (lctx lp Top) s) ∈ caddrs (lctx lp Top).
Proof.
  destruct lp as [|[[[[c a] k] v] r] lp]; [done|]. intros _. simpl. rewrite plug_lctx. simpl.
  rewrite caddrs_lctx. simpl. set_solver.
Qed.

Lemma leftmost_ok fuel : forall t u c a k v l r ex, rb_rep t (plug u (T c a k v l r)) ex -> height l <= fuel ->
  exists lp cy y ky vy r2, leftmost fuel t a = Ok y /\ T c a k v l r = plug (lctx lp Top) (T cy y ky vy E r2).
Proof.
  induction fuel as [|fuel IH]; intros t u c a k v l r ex H Hf; simpl; rewrite (rep_node t u c a k v l r ex H); simpl;
    (destruct l as [|c' a' k' v' l' r']; simpl in *; [rewrite Nat.eqb_refl; by exists [], c, a, k, v, r|]); [lia|].
  rewrite (not_dummy t (InL c a k v r u) c' a' k' v' l' r' ex H).
  destruct (IH t (InL c a k v r u) c' a' k' v' l' r' ex H ltac:(lia)) as (lp & cy & y & ky & vy & r2 & -> & Heq).
  exists ((c, a, k, v, r) :: lp), cy, y, ky, vy, r2. split; [done|]. simpl. rewrite plug_lctx. simpl. by rewrite <- Heq.
Qed.

Lemma minimum_ok t u s ex : rb_rep t (plug u s) ex ->
  (s = E /\ minimum t (ptr (rb_dummy t) s) = Ok (rb_dummy t)) \/
  exists lp cy y ky vy r2, minimum t (ptr (rb_dummy t) s) = Ok y /\ s = plug (lctx lp Top) (T cy y ky vy E r2).
Proof.
  intros H. unfold minimum. destruct s as [|c a k v l r]; simpl; [left; by rewrite Nat.eqb_refl|right].
  rewrite (not_dummy t u c a k v l r ex H). apply (leftmost_ok _ t u c a k v l r ex H).
  rewrite (nodes_size t _ _ H), addrs_plug, length_app. pose proof (height_addrs l). simpl. rewrite length_app. lia.
Qed.

(** ** The successor takes the place of a node *)

(** [y] was cut off the right subtree of [z], of which [R] is left. *)
Record detached t (u : ctx) cz z (kz : K) (vz : V) l cy y ky vy (R : rbt) : Prop := {
  dt_dummy : exists dn, rb_nodes t !! rb_dummy t = Some dn /\ nd_color dn = ASSOC_BLACK;
  dt_z : exists zr, rb_nodes t !! z = Some (mk_node (Some kz) (Some vz) (above (rb_dummy t) u) (ptr (rb_dummy t) l) zr cz);
  dt_l : rep (rb_nodes t) (rb_dummy t) z l;
  dt_y : exists p yl, rb_nodes t !! y = Some (mk_node (Some ky) (Some vy) p yl (ptr (rb_dummy t) R) cy);
  dt_R : rep (rb_nodes t) (rb_dummy t) y R;
  dt_u : crep (rb_nodes t) (rb_dummy t) (rb_root t) u z
}.

Section Successor.
Context (t : tree) (u : ctx) (cz : assoc_color_e) (z : nat) (kz : K) (vz : V) (l : rbt) (lp : list (assoc_color_e * nat * K * V * rbt)).
Context (cy : assoc_color_e) (y : nat) (ky : K) (vy : V) (r2 : rbt).
Let R := plug (lctx lp Top) r2.
Hypothesis H : rb_rep t (plug u (T cz z kz vz l (plug (lctx lp Top) (T cy y ky vy E r2)))) [].

Lemma succ_nodup : NoDup (rb_dummy t :: z :: y :: caddrs u ++ addrs l ++ caddrs (lctx lp Top) ++ addrs r2).
Proof.
  pose proof (rep_nodup _ _ _ _ H) as Hn. simpl in Hn.
  assert (Hp : caddrs u ++ z :: addrs l ++ addrs (plug (lctx lp Top) (T cy y ky vy E r2))
    ≡ₚ z :: y :: caddrs u ++ addrs l ++ caddrs (lctx lp Top) ++ addrs r2) by (rewrite addrs_plug; simpl; solve_Permutation).
  by rewrite Hp in Hn.
Qed.

Lemma detach_direct : lp = [] ->
  exists t', detach t z y = Ok t' /\ rb_kept t t' /\ detached t' u cz z kz vz l cy y ky vy R /\
    (exists xn, rb_nodes t' !! ptr (rb_dummy t) r2 = Some xn /\ nd_parent xn = above (rb_dummy t) (lctx lp (InR cz y ky vy l u))).
Proof.
  intros Hlp. pose proof succ_nodup as Hn. pose proof H as H0. unfold R. clear R. rewrite Hlp in H0, Hn |- *. simpl in H0, Hn |- *.
  unfold detach. rewrite (rep_node t (InR cz z kz vz l u) cy y ky vy E r2 [] H0). simpl. rewrite Nat.eqb_refl.
  destruct (ptr_node t (InR cy y ky vy E (InR cz z kz vz l u)) r2 [] H0) as (n & Hx & Hc).
  destruct (rep_place _ _ _ _ H0) as [(Hz & Hl & Hy & _ & Hr2) Hu]. simpl in Hy.
  assert (Hptr : ptr (rb_dummy t) r2 ∉ z :: y :: caddrs u ++ addrs l) by (destruct (ptr_cases (rb_dummy t) r2) as [->|?]; apart).
  unfold set_parent. rewrite (upd_node_ok t _ _ _ Hx). eexists. split; [done|]. split_and!; [apply put_kept; by rewrite Hx| |].
  - split; simpl.
    + destruct r2 as [|c' a' k' v' l' r']; simpl in *; [by rewrite lookup_insert_eq; eexists|].
      rewrite lookup_insert_ne by apart. apply (rr_dummy _ _ _ H0).
    + eexists. rewrite lookup_insert_ne by set_solver. exact Hz.
    + apply rep_put; [set_solver|done].
    + eexists _, _. rewrite lookup_insert_ne by set_solver. exact Hy.
    + apply (rep_reparent (rb_nodes t) _ _ y _ r2 n); [done|apart|done|by rewrite lookup_insert_eq|].
      intros b Hb Hne. by apply lookup_insert_ne.
    + apply crep_put; [set_solver|done].
  - eexists. split; [apply put_node_eq|done].
Qed.

Lemma detach_far : lp <> [] ->
  exists t', detach t z y = Ok t' /\ rb_kept t t' /\ detached t' u cz z kz vz l cy y ky vy R /\
    (exists xn, rb_nodes t' !! ptr (rb_dummy t) r2 = Some xn /\ nd_parent xn = above (rb_dummy t) (lctx lp (InR cz y ky vy l u))).
Proof.
  intros Hlp. pose proof succ_nodup as Hn. unfold detach.
  assert (H' : rb_rep t (plug (lctx lp (InR cz z kz vz l u)) (T cy y ky vy E r2)) []) by (by rewrite plug_lctx).
  rewrite (rep_node t _ cy y ky vy E r2 [] H'). simpl.
  destruct (above_lctx (rb_dummy t) lp (InR cz z kz vz l u) Hlp) as [Ha1 Ha2].
  destruct (above_lctx (rb_dummy t) lp (InR cz y ky vy l u) Hlp) as [Ha3 _].
  rewrite (proj2 (Nat.eqb_neq _ z)) by (intros Heq; rewrite Heq in Ha2; apart).
  destruct (splice_ok t _ cy y ky vy E r2 r2 [] H' (or_introl (conj eq_refl eq_refl))) as (t1 & -> & H1 & (xn & Hx & Hxp) & K1 & Hy1). simpl.
  rewrite plug_lctx in H1. fold R in H1. simpl in H1. pose proof (rk_dummy _ _ K1) as Ed.
  rewrite (rep_node t1 u cz z kz vz l R [y] H1). simpl.
  destruct (rep_place _ _ _ _ H') as [(Hy & _) _]. simpl in Hy. rewrite <- Hy1 in Hy.
  unfold set_right. rewrite (upd_node_ok t1 y _ _ Hy). simpl. set (ny := mk_node _ _ _ _ _ _).
  destruct (rep_put_loose t1 _ [y] y ny H1 ltac:(set_solver) ltac:(by rewrite Hy)) as [H2 K2]. set (t2 := put_node t1 y ny) in *.
  destruct (ptr_node t2 (InR cz z kz vz l u) R [y] H2) as (n & Hn2 & _). change (rb_dummy t2) with (rb_dummy t1) in Hn2.
  unfold set_parent. rewrite (upd_node_ok t2 _ _ _ Hn2). set (t3 := put_node t2 _ _).
  assert (HpR : ptr (rb_dummy t1) R ∈ caddrs (lctx lp Top)) by by apply ptr_lctx.
  assert (Hpx : ptr (rb_dummy t) r2 ∉ y :: caddrs (lctx lp Top)) by (destruct (ptr_cases (rb_dummy t) r2) as [->|Hin]; [clear -Hn|clear -Hn Hin]; apart).
  assert (Hf3 : forall b, b ∉ caddrs (lctx lp Top) -> rb_nodes t3 !! b = rb_nodes t2 !! b).
  { intros b Hb. apply put_node_ne. by intros <-. }
  assert (HaR : forall b, b ∈ addrs R <-> b ∈ caddrs (lctx lp Top) ++ addrs r2) by (intros b; unfold R; by rewrite addrs_plug).
  destruct (rep_place _ _ _ _ H2) as [(Hz2 & Hl2 & HR2) Hu2]. simpl in Hz2, Hl2, HR2, Hu2.
  exists t3. split; [done|]. rewrite <- Ed. split_and!.
  - etrans; [exact K1|]. etrans; [exact K2|]. apply put_kept. by rewrite Hn2.
  - split; change (rb_dummy t3) with (rb_dummy t1).
    + rewrite Hf3 by (rewrite Ed; apart). apply (rr_dummy _ _ _ H2).
    + eexists. rewrite Hf3 by apart. exact Hz2.
    + eapply rep_frame; [|exact Hl2]. intros b Hb. apply Hf3. apart.
    + eexists _, _. rewrite Hf3 by apart. apply put_node_eq.
    + apply (rep_reparent (rb_nodes t2) _ _ z _ R n); [done| |exact Hn2|apply put_node_eq|].
      * unfold R. rewrite addrs_plug. clear -Hn. apart_list.
      * intros b Hb Hne. by apply put_node_ne.
    + eapply crep_frame; [|exact Hu2]. intros b Hb. apply Hf3. apart.
  - rewrite Ed in *. exists xn. split; [|congruence].
    rewrite Hf3 by set_solver. unfold t2. rewrite put_node_ne by set_solver.
    unfold node in Hx. by destruct (rb_nodes t1 !! ptr (rb_dummy t) r2); [injection Hx as ->|].
Qed.

Lemma ptr_l_in : l <> E -> ptr (rb_dummy t) l ∈ addrs l.
Proof. destruct l; [done|]. simpl. set_solver. Qed.

Lemma take_place_ok t1 : l <> E -> rb_kept t t1 -> detached t1 u cz z kz vz l cy y ky vy R ->
  (exists xn, rb_nodes t1 !! ptr (rb_dummy t) r2 = Some xn /\ nd_parent xn = above (rb_dummy t) (lctx lp (InR cz y ky vy l u))) ->
  exists t2, take_place t1 z y = Ok t2 /\ rb_kept t t2 /\ rb_rep t2 (plug u (T cz y ky vy l R)) [z] /\
    foc t2 (lctx lp (InR cz y ky vy l u)) r2 /\
    exists zn, rb_nodes t2 !! z = Some zn /\ nd_key zn = Some kz /\ nd_value zn = Some vz.
Proof.
  intros Hl K1 [Hdn [zr Hz] Hrl (p & yl & Hy) HrR Hu] (xn & Hx & Hxp). pose proof succ_nodup as Hn.
  pose proof (rk_dummy _ _ K1) as Ed. rewrite Ed in *. unfold take_place.
  assert (HaR : forall b, b ∈ addrs R <-> b ∈ caddrs (lctx lp Top) ++ addrs r2) by (intros b; unfold R; by rewrite addrs_plug).
  assert (Hpl : ptr (rb_dummy t) l ∈ addrs l) by by apply ptr_l_in.
  destruct (transplant_ok t1 u z y _ (mk_node (Some ky) (Some vy) p yl (ptr (rb_dummy t) R) cy) (rb_dummy t) Ed Hz eq_refl Hu) as (t2 & -> & Hu2 & Hy2 & Hf2 & K2); [clear -Hn; apart_list|clear -Hn; apart|done|].
  simpl in Hy2 |- *. unfold node at 1. rewrite Hf2, Hz by (clear -Hn; apart). simpl.
  unfold set_left. rewrite (upd_node_ok t2 y _ _ Hy2). simpl. set (t3 := put_node t2 y _).
  assert (Hf3 : forall b, b ∉ y :: caddrs u -> rb_nodes t3 !! b = rb_nodes t1 !! b).
  { intros b Hb. unfold t3. rewrite put_node_ne by set_solver. by apply Hf2. }
  assert (Hln : exists ln, rb_nodes t1 !! ptr (rb_dummy t) l = Some ln).
  { clear -Hl Hrl. destruct l as [|c' a' k' v' l' r']; [done|]. simpl in *. destruct Hrl as [? _]. by eexists. }
  destruct Hln as [ln Hln]. assert (Hln3 : rb_nodes t3 !! ptr (rb_dummy t) l = Some ln) by (rewrite Hf3; [done|clear -Hn Hpl; apart]).
  unfold set_parent. rewrite (upd_node_ok t3 _ _ _ Hln3). simpl. set (t4 := put_node t3 _ _).
  assert (Hf4 : forall b, b ∉ y :: caddrs u ++ addrs l -> rb_nodes t4 !! b = rb_nodes t1 !! b).
  { intros b Hb. unfold t4. rewrite put_node_ne by set_solver. apply Hf3. set_solver. }
  assert (Hy4 : rb_nodes t4 !! y = Some (mk_node (Some ky) (Some vy) (above (rb_dummy t) u) (ptr (rb_dummy t) l) (ptr (rb_dummy t) R) cy)).
  { unfold t4. rewrite put_node_ne by (clear -Hn Hpl; apart). apply put_node_eq. }
  unfold set_color. rewrite (upd_node_ok t4 y _ _ Hy4). set (t5 := put_node t4 y _).
  assert (Hf5 : forall b, b ∉ y :: caddrs u ++ addrs l -> rb_nodes t5 !! b = rb_nodes t1 !! b).
  { intros b Hb. unfold t5. rewrite put_node_ne by set_solver. by apply Hf4. }
  assert (K5 : rb_kept t t5).
  { etrans; [exact K1|]. etrans; [exact K2|]. transitivity t3; [apply put_kept; by rewrite Hy2|].
    transitivity t4; apply put_kept; [by rewrite Hln3|by rewrite Hy4]. }
  pose proof (rk_dummy _ _ K5) as Ed5. exists t5. split_and!; [done|done| | |].
  - apply (rep_built t t5 _ [] u (T cz y ky vy l R) [z] H K5).
    + rewrite Hf5; [done|clear -Hn; apart].
    + simpl. unfold R. rewrite !addrs_plug. simpl. rewrite !addrs_plug. simpl. solve_Permutation.
    + simpl. split_and!; [apply (put_node_eq t4)| |].
      * apply rep_put; [clear -Hn; apart|]. apply (rep_reparent (rb_nodes t1) _ _ z _ l ln); [done|clear -Hn; apart|done|apply (put_node_eq t3)|].
        intros b Hb Hne. etrans; [by apply (put_node_ne t3)|]. apply Hf3. clear -Hn Hb. apart.
      * eapply rep_frame; [|exact HrR]. intros b Hb%HaR. apply Hf5. clear -Hn Hb. apart.
    + apply crep_put; [clear -Hn; apart|]. apply crep_put; [clear -Hn Hpl; apart|]. apply crep_put; [clear -Hn; apart|done].
  - exists xn. unfold node. rewrite Ed5, Hf5, Hx; [done|].
    destruct (ptr_cases (rb_dummy t) r2) as [->|Hin]; [clear -Hn|clear -Hn Hin]; apart.
  - eexists. rewrite Hf5, Hz by (clear -Hn; apart). done.
Qed.

End Successor.

End Extract.
