(* ===== verification/RbMap.v ===== *)
(** The red-black tree of flexric as a map: search, extraction, iteration and
    release, and the height of the tree. *)

From S2P Require Import Prelude Assoc RbTree RbShape RbInsert RbOps RbDelete RbExtract.
#[local] Open Scope nat_scope.

Section Locate.
Context {K V : Type}.
Abbreviation tree := (assoc_rb_tree_t K V).
Abbreviation rbt := (rbt K V).
Abbreviation ctx := (ctx K V).
Abbreviation entry := (nat * K * V)%type.
Implicit Types (t : tree).

(** ** A node of the tree leaves it *)

Lemma locate s : forall (u0 : ctx) (l1 l2 : list entry) z k v, inorder s = l1 ++ (z, k, v) :: l2 ->
  exists u c l r, plug u (T c z k v l r) = plug u0 s /\ before u ++ inorder l = before u0 ++ l1 /\ inorder r ++ after u = l2 ++ after u0.
Proof.
  induction s as [|c a k' v' l IHl r IHr]; intros u0 l1 l2 z k v Hi; simpl in Hi; [by destruct l1|].
  apply app_eq_inv in Hi as [(m & Hl & Hm)|(m & Hl & Hm)].
  - destruct m as [|e m]; simpl in Hm.
    + injection Hm as <- <- <- Hr. exists u0, c, l, r. rewrite app_nil_r in Hl. by rewrite Hl, Hr.
    + injection Hm as <- Hr. destruct (IHl (InL c a k' v' r u0) l1 m z k v) as (u & c' & ll & rr & H1 & H2 & H3); [by rewrite Hl|].
      exists u, c', ll, rr. split_and!; [done|done|]. rewrite H3. simpl. by rewrite Hr, <- app_assoc.
  - destruct m as [|e m]; simpl in Hm.
    + injection Hm as -> -> -> Hr. exists u0, c, l, r. rewrite app_nil_r in Hl. by rewrite Hl, Hr.
    + injection Hm as <- Hr. destruct (IHr (InR c a k' v' l u0) m l2 z k v) as (u & c' & ll & rr & H1 & H2 & H3); [done|].
      exists u, c', ll, rr. split_and!; [done| |done]. rewrite H2. simpl. by rewrite Hl, <- !app_assoc.
Qed.

(** The colour of the place of a node that is taken out. *)
Lemma hole_ok n u c z k v l r (s : rbt) : rb ASSOC_BLACK n (plug u (T c z k v l r)) -> l = E /\ s = r \/ r = E /\ s = l ->
  match c with
  | ASSOC_RED => exists n', rb ASSOC_BLACK n' (plug u s)
  | ASSOC_BLACK => exists cs m, rb cs m s /\ cok ASSOC_BLACK (S m) u
  end.
Proof.
  intros H Hs. destruct (rb_unplug _ _ _ H) as (c' & m & Hr & Hu). inversion Hr; subst.
  - apply (rb_plug ASSOC_BLACK m); [by destruct Hs as [[_ ->]|[_ ->]]|by eapply cok_black].
  - destruct Hs as [[_ ->]|[_ ->]]; eauto.
Qed.

Lemma finish_ok t u (s : rbt) z oc n' : rb_rep t (plug u s) [z] -> foc t u s ->
  match oc with
  | ASSOC_RED => rb ASSOC_BLACK n' (plug u s)
  | ASSOC_BLACK => exists cs m, rb cs m s /\ cok ASSOC_BLACK (S m) u
  end ->
  exists t' w' n', (if is_red oc then Ok t else delete_fixup t (ptr (rb_dummy t) s)) = Ok t' /\ rb_rep t' w' [z] /\
    rb_kept t t' /\ rb ASSOC_BLACK n' w' /\ inorder w' = inorder (plug u s).
Proof.
  intros H Hf Hc. destruct oc; simpl.
  - destruct Hc as (cs & m & Hs & Hu). destruct (delete_fixup_ok t u s [z] cs m H Hf Hs Hu ltac:(done)) as (t' & w' & n & ? & ? & ? & ? & ?).
    by exists t', w', n.
  - by exists t, (plug u s), n'.
Qed.

(** The colours around the successor do not depend on what is above it. *)
Lemma cok_rename lp : forall c n cz z kz vz y ky vy (l : rbt) u,
  cok c n (lctx lp (InR cz z kz vz l u)) -> cok c n (lctx lp (InR cz y ky vy l u)).
Proof.
  assert (Hgen : forall lp c n (u u' : ctx), (forall c n, cok c n u -> cok c n u') -> cok c n (lctx lp u) -> cok c n (lctx lp u')).
  { clear. intros lp. induction lp as [|[[[[c' a] k] v] r] lp IH]; intros c n u u' Hu; simpl; [apply Hu|].
    apply IH. intros c0 n0. simpl. intros [? ?]. split; auto. }
  intros c n cz z kz vz y ky vy l u. by apply Hgen.
Qed.

Lemma extract_node_ok t w n l1 z k v l2 : rb_rep t w [] -> rb ASSOC_BLACK n w -> inorder w = l1 ++ (z, k, v) :: l2 ->
  exists t' w' n', assoc_rb_tree_extract_node t z = Ok t' /\ rb_rep t' w' [z] /\ rb_kept t t' /\ rb ASSOC_BLACK n' w' /\
    inorder w' = l1 ++ l2.
Proof.
  intros H Hrb Hi. destruct (locate w Top l1 l2 z k v Hi) as (u & c & l & r & Hw & Hl1 & Hl2). simpl in Hw, Hl1, Hl2. subst w.
  rewrite app_nil_r in Hl2. subst l1 l2. unfold assoc_rb_tree_extract_node.
  assert (Hz0 : z <> 0).
  { intros ->. assert (Hin : 0 ∈ rb_dummy t :: [] ++ addrs (plug u (T c 0 k v l r))) by (simpl; rewrite addrs_plug; simpl; set_solver).
    pose proof (rr_brk _ _ _ H 0 Hin). lia. }
  rewrite (proj2 (Nat.eqb_neq _ _) Hz0), (not_dummy t u c z k v l r [] H), (rep_node t u c z k v l r [] H). simpl.
  assert (Hsplice : forall s, l = E /\ s = r \/ r = E /\ s = l -> inorder l ++ inorder r = inorder s ->
    exists t' w' n', (let* (t, original_color, x) := let* t1 := transplant t z (ptr (rb_dummy t) s) in Ok (t1, c, ptr (rb_dummy t) s) in
       if is_red original_color then Ok t else delete_fixup t x) = Ok t' /\ rb_rep t' w' [z] /\ rb_kept t t' /\ rb ASSOC_BLACK n' w' /\
       inorder w' = (before u ++ inorder l) ++ inorder r ++ after u).
  { intros s Hs Hio. destruct (splice_ok t u c z k v l r s [] H Hs) as (t1 & -> & H1 & Hf1 & K1 & _). simpl.
    pose proof (hole_ok n u c z k v l r s Hrb Hs) as Hhole. rewrite <- (rk_dummy _ _ K1).
    assert (Hc : exists n', match c with ASSOC_RED => rb ASSOC_BLACK n' (plug u s)
      | ASSOC_BLACK => exists cs m, rb cs m s /\ cok ASSOC_BLACK (S m) u end) by (destruct c; [by exists 0|done]).
    destruct Hc as [n' Hc]. destruct (finish_ok t1 u s z c n' H1 Hf1 Hc) as (t2 & w2 & n2 & Hd & H2 & K2 & Hrb2 & Hi2).
    exists t2, w2, n2. split_and!; [done|done|by etrans|done|]. rewrite Hi2, inorder_plug, <- Hio. by rewrite <- !app_assoc. }
  destruct l as [|cl la lk lv ll lr].
  { simpl. rewrite Nat.eqb_refl. apply Hsplice; [by left|done]. }
  simpl. rewrite (not_dummy t (InL c z k v r u) cl la lk lv ll lr [] H). destruct r as [|cr ra rk rv rl rr].
  { simpl. rewrite Nat.eqb_refl. apply (Hsplice (T cl la lk lv ll lr)); [by right|by rewrite app_nil_r]. }
  clear Hsplice. simpl. rewrite (not_dummy t (InR c z k v _ u) cr ra rk rv rl rr [] H). simpl.
  set (l := T cl la lk lv ll lr) in *. remember (T cr ra rk rv rl rr) as r eqn:Er.
  assert (Hio : inorder (T cr ra rk rv rl rr) ++ after u = inorder r ++ after u) by by rewrite Er.
  simpl in Hio. rewrite <- app_assoc in Hio. simpl in Hio.
  destruct (minimum_ok t (InR c z k v l u) r [] H) as [[-> _]|(lp & cy & y & ky & vy & r2 & Hmin & Hr)]; [done|].
  rewrite Er in Hmin. simpl in Hmin. rewrite Hmin. clear Hmin. simpl. clear Er. subst r.
  assert (Hy : rb_rep t (plug (lctx lp (InR c z k v l u)) (T cy y ky vy E r2)) []) by (rewrite plug_lctx; exact H).
  rewrite (rep_node t _ cy y ky vy E r2 [] Hy). simpl.
  assert (Hdt : exists t1, detach t z y = Ok t1 /\ rb_kept t t1 /\ detached t1 u c z k v l cy y ky vy (plug (lctx lp Top) r2) /\
    (exists xn, rb_nodes t1 !! ptr (rb_dummy t) r2 = Some xn /\ nd_parent xn = above (rb_dummy t) (lctx lp (InR c y ky vy l u)))).
  { destruct (decide (lp = [])); [by apply (detach_direct t u c z k v l lp)|by apply (detach_far t u c z k v l lp)]. }
  destruct Hdt as (t1 & -> & K1 & Hd1 & Hx1). simpl.
  destruct (take_place_ok t u c z k v l lp cy y ky vy r2 H t1 ltac:(done) K1 Hd1 Hx1) as (t2 & -> & K2 & H2 & Hf2 & _). simpl.
  rewrite <- (rk_dummy _ _ K2).
  assert (H2' : rb_rep t2 (plug (lctx lp (InR c y ky vy l u)) r2) [z]) by (rewrite plug_lctx; exact H2).
  assert (Hrb' : rb ASSOC_BLACK n (plug (lctx lp (InR c z k v l u)) (T cy y ky vy E r2))) by (rewrite plug_lctx; exact Hrb).
  assert (Hc : exists n', match cy with ASSOC_RED => rb ASSOC_BLACK n' (plug (lctx lp (InR c y ky vy l u)) r2)
    | ASSOC_BLACK => exists cs m, rb cs m r2 /\ cok ASSOC_BLACK (S m) (lctx lp (InR c y ky vy l u)) end).
  { destruct (rb_unplug _ _ _ Hrb') as (c' & m & Hm & Hu). apply (cok_rename lp _ _ _ _ _ _ y ky vy) in Hu. inversion Hm; subst.
    - apply (rb_plug ASSOC_BLACK m); [done|by eapply cok_black].
    - exists 0. eauto. }
  destruct Hc as [n' Hc]. destruct (finish_ok t2 _ r2 z cy n' H2' Hf2 Hc) as (t3 & w3 & n3 & Hd & H3 & K3 & Hrb3 & Hi3).
  exists t3, w3, n3. split_and!; [done|done|by etrans|done|].
  rewrite Hi3, plug_lctx, inorder_plug. simpl. rewrite !(inorder_plug (lctx lp Top)), !before_lctx. simpl.
  rewrite <- !app_assoc. simpl. rewrite Hio, inorder_plug, before_lctx. simpl. by rewrite <- !app_assoc.
Qed.
End Locate.

Section Map.
Context {K V : Type} (comp : K -> K -> Z) `{!Comparison comp}.
Abbreviation tree := (assoc_rb_tree_t K V).
Abbreviation rbt := (rbt K V).
Abbreviation ctx := (ctx K V).
Abbreviation entry := (nat * K * V)%type.
Implicit Types (t : tree) (e : entry).

(** ** Search *)

Definition has_key (key : K) e : Prop := comp key (key_of e) = 0%Z.

Lemma find_loop_ok fuel : forall t u s ex key,
  rb_rep t (plug u s) ex -> sorted_keys comp (inorder s) -> height s <= fuel ->
  (find_loop comp fuel t (ptr (rb_dummy t) s) key = Ok (rb_dummy t) /\ Forall (fun e => ~ has_key key e) (inorder s)) \/
  exists l1 z k v l2, find_loop comp fuel t (ptr (rb_dummy t) s) key = Ok z /\ inorder s = l1 ++ (z, k, v) :: l2 /\ comp key k = 0%Z.
Proof.
  induction fuel as [|fuel IH]; intros t u s ex key H Hs Hf; (destruct s as [|c a k v l r]; simpl in *;
    [rewrite Nat.eqb_refl; by left|]); [lia|].
  rewrite (not_dummy t u c a k v l r ex H), (compare_at_ok comp t u c a k v l r ex key H), (rep_node t u c a k v l r ex H). simpl.
  destruct (sorted_split comp _ _ _ Hs) as (Hlr & Hl & Hr).
  assert (Hsl : sorted_keys comp (inorder l) /\ sorted_keys comp (inorder r)).
  { unfold sorted_keys in *. split; [|by eapply sorted_app_r]. clear -Hlr. induction (inorder l) as [|x m IHm]; [constructor|].
    simpl in Hlr. inversion Hlr as [|? ? Hm Hx]; subst. constructor; [by apply IHm|]. by apply Forall_app in Hx as [? _]. }
  destruct Hsl as [Hsl Hsr]. destruct (Z.eqb_spec (comp key k) 1) as [H1|H1]; [|destruct (Z.eqb_spec (comp key k) (-1)) as [H2|H2]].
  - destruct (IH t (InL c a k v r u) l ex key H Hsl ltac:(lia)) as [[-> Hn]|(l1 & z & k' & v' & l2 & -> & Hi & Hk)]; [left|right].
    + split; [done|]. apply Forall_app. split; [done|]. constructor; [unfold has_key, key_of; simpl; lia|].
      eapply Forall_impl; [exact Hr|]. intros x Hx. unfold has_key. rewrite (comp_lt_le comp key k); [done|done|exact Hx].
    + exists l1, z, k', v', (l2 ++ (a, k, v) :: inorder r). split_and!; [done| |done]. by rewrite Hi, <- app_assoc.
  - destruct (IH t (InR c a k v l u) r ex key H Hsr ltac:(lia)) as [[-> Hn]|(l1 & z & k' & v' & l2 & -> & Hi & Hk)]; [left|right].
    + split; [done|]. apply Forall_app. split; [|constructor; [unfold has_key, key_of; simpl; lia|done]].
      eapply Forall_impl; [exact Hl|]. intros x Hx. unfold has_key.
      assert (Hlt : comp (key_of x) key = 1%Z) by (apply (comp_le_lt comp _ k); [exact Hx|by apply comp_flip]).
      apply comp_flip in Hlt. rewrite Hlt. done.
    + exists (inorder l ++ (a, k, v) :: l1), z, k', v', l2. split_and!; [done| |done]. by rewrite Hi, <- app_assoc.
  - assert (H0 : comp key k = 0%Z) by (destruct (comp_val (comp:=comp) key k) as [?|[?|?]]; done).
    rewrite H0. simpl. right. by exists (inorder l), a, k, v, (inorder r).
Qed.

Lemma find_ok t w ex key : rb_rep t w ex -> sorted_keys comp (inorder w) ->
  (find_rb_tree comp t (rb_root t) key = Ok (rb_dummy t) /\ Forall (fun e => ~ has_key key e) (inorder w)) \/
  exists l1 z k v l2, find_rb_tree comp t (rb_root t) key = Ok z /\ inorder w = l1 ++ (z, k, v) :: l2 /\ comp key k = 0%Z.
Proof.
  intros H Hs. unfold find_rb_tree. rewrite (rr_root _ _ _ H). apply (find_loop_ok _ t Top w ex key H Hs).
  rewrite (nodes_size _ _ _ H). pose proof (height_addrs w). lia.
Qed.

(** ** Extraction *)

Lemma free_node_ok t w z ex : rb_rep t w (z :: ex) ->
  exists t', free_node_rb_tree t z = Ok t' /\ rb_rep t' w ex /\ t' = {| t with rb_nodes := delete z (rb_nodes t) |}.
Proof.
  intros H. assert (Hz : is_Some (rb_nodes t !! z)) by (apply (rr_dom _ _ _ H); set_solver). destruct Hz as [n Hz].
  unfold free_node_rb_tree, node. rewrite Hz. simpl. eexists. split; [done|]. split; [|done].
  pose proof (rr_nodup _ _ _ H) as Hn. simpl in Hn.
  assert (Hz' : z ∉ rb_dummy t :: ex ++ addrs w) by (clear -Hn; apply NoDup_cons in Hn as [? Hn]; apply NoDup_cons in Hn as [? _]; set_solver).
  split; simpl.
  - destruct (rr_dummy _ _ _ H) as (dn & Hd & Hc). exists dn. rewrite lookup_delete_ne; [done|set_solver].
  - eapply rep_frame; [|apply (rr_rep _ _ _ H)]. intros b Hb. apply lookup_delete_ne. set_solver.
  - apply (rr_root _ _ _ H).
  - clear -Hn. apply NoDup_cons in Hn as [? Hn]. apply NoDup_cons in Hn as [? Hn]. apply NoDup_cons. split; [set_solver|done].
  - intros a. pose proof (rr_dom _ _ _ H a) as Hd. destruct (decide (a = z)) as [->|Hne].
    + rewrite lookup_delete_eq. split; [by intros [? ?]|done].
    + rewrite lookup_delete_ne, Hd by done. set_solver.
  - intros a Ha. apply (rr_brk _ _ _ H). set_solver.
Qed.

(** Taking out the element at [z], and freeing its node. *)
Lemma take_out_ok t l l1 z k v l2 : rb_tree comp t l -> l = l1 ++ (z, k, v) :: l2 ->
  z <> rb_dummy t /\ exists t1 t2 zn, assoc_rb_tree_extract_node t z = Ok t1 /\ node t1 z = Ok zn /\ nd_key zn = Some k /\ nd_value zn = Some v /\
    free_node_rb_tree t1 z = Ok t2 /\ rb_size t2 = rb_size t /\ (0 < rb_size t2)%Z /\ rb_free_func t1 = rb_free_func t /\
    rb_tree comp {| t2 with rb_size := (rb_size t2 - 1)%Z |} (l1 ++ l2) /\ rb_key_sz t2 = rb_key_sz t /\ rb_brk t2 = rb_brk t.
Proof.
  intros (w & n & H & Hrb & Hi & Hs & Hsize) ->.
  destruct (locate w Top l1 l2 z k v Hi) as (u & c & l & r & Hw & _). simpl in Hw. subst w.
  pose proof (rep_node t u c z k v l r [] H) as Hz.
  split; [apply Nat.eqb_neq; by apply (not_dummy t u c z k v l r [])|].
  destruct (extract_node_ok t _ n l1 z k v l2 H Hrb Hi) as (t1 & w1 & n1 & He & H1 & K1 & Hrb1 & Hi1).
  destruct (free_node_ok t1 w1 z [] H1) as (t2 & Hfree & H2 & Ht2).
  assert (Hz' : rb_nodes t !! z = Some (mk_node (Some k) (Some v) (above (rb_dummy t) u) (ptr (rb_dummy t) l) (ptr (rb_dummy t) r) c)).
  { unfold node in Hz. destruct (rb_nodes t !! z); [by injection Hz as ->|done]. }
  destruct (rk_node t t1 z _ K1 Hz') as (zn & Hzn & Hk & Hv). unfold zlen in Hsize. rewrite length_app in Hsize. simpl in Hsize.
  assert (Hsz : rb_size t2 = rb_size t) by (subst t2; apply (rk_size _ _ K1)).
  exists t1, t2, zn. unfold node. rewrite Hzn. split_and!; try done; [lia|apply (rk_free _ _ K1)| | |].
  - exists w1, n1. split_and!; [by destruct H2; constructor|done|done|by apply sorted_split in Hs as [? _]|].
    simpl. unfold zlen. rewrite length_app. lia.
  - subst t2. apply (rk_key_sz _ _ K1).
  - subst t2. apply (rk_brk _ _ K1).
Qed.

Lemma rb_extract_ok t l key : rb_tree comp t l -> Exists (has_key key) l ->
  exists t' l1 z k v l2, assoc_rb_tree_extract comp t key = Ok (t', Some v) /\ l = l1 ++ (z, k, v) :: l2 /\ comp key k = 0%Z /\
    rb_tree comp t' (l1 ++ l2) /\ rb_key_sz t' = rb_key_sz t /\ rb_free_func t' = rb_free_func t /\ rb_brk t' = rb_brk t.
Proof.
  intros Ht Hex. pose proof Ht as (w & n & H & _ & Hi & Hs & _). rewrite <- Hi in Hs.
  destruct (find_ok t w [] key H Hs) as [[_ Hn]|(l1 & z & k & v & l2 & Hf & Hl & Hk)].
  { rewrite Hi in Hn. exfalso. apply Exists_exists in Hex as (x & Hx & Hkx). rewrite Forall_forall in Hn. by apply (Hn x). }
  rewrite Hi in Hl.
  destruct (take_out_ok t l l1 z k v l2 Ht Hl) as (Hzd & t1 & t2 & zn & He & Hzn & _ & Hv & Hfr & Hsz & Hpos & Hff & Ht2 & Hks & Hbr).
  exists {| t2 with rb_size := (rb_size t2 - 1)%Z |}, l1, z, k, v, l2.
  unfold assoc_rb_tree_extract. rewrite Hf. simpl. rewrite (proj2 (Nat.eqb_neq _ _) Hzd). simpl. rewrite He. simpl. rewrite Hzn. simpl.
  rewrite Hfr. simpl. rewrite (proj2 (Z.eqb_neq _ _)) by lia. simpl. rewrite Hv. split_and!; try done.
  simpl. unfold free_node_rb_tree in Hfr. rewrite Hzn in Hfr. simpl in Hfr. by injection Hfr as <-.
Qed.

Lemma rb_extract_missing t l key : rb_tree comp t l -> Forall (fun e => ~ has_key key e) l ->
  assoc_rb_tree_extract comp t key = Fail FExit.
Proof.
  intros (w & n & H & _ & Hi & Hs & _) Hn. rewrite <- Hi in Hs. unfold assoc_rb_tree_extract.
  destruct (find_ok t w [] key H Hs) as [[-> _]|(l1 & z & k & v & l2 & _ & Hl & Hk)].
  - simpl. by rewrite Nat.eqb_refl.
  - exfalso. rewrite Hi in Hl. rewrite Hl in Hn. apply Forall_app in Hn as [_ Hn]. by inversion Hn.
Qed.

Lemma rb_free_it_ok t l l1 z k v l2 : rb_tree comp t l -> l = l1 ++ (z, k, v) :: l2 -> rb_free_func t = true ->
  exists t', assoc_rb_tree_free_it t z = Ok (t', (Some k, Some v)) /\ rb_tree comp t' (l1 ++ l2) /\
    rb_key_sz t' = rb_key_sz t /\ rb_free_func t' = rb_free_func t.
Proof.
  intros Ht Hl Hff.
  destruct (take_out_ok t l l1 z k v l2 Ht Hl) as (Hzd & t1 & t2 & zn & He & Hzn & Hk & Hv & Hfr & Hsz & Hpos & Hff1 & Ht2 & Hks & _).
  exists {| t2 with rb_size := (rb_size t2 - 1)%Z |}. unfold assoc_rb_tree_free_it. rewrite (proj2 (Nat.eqb_neq _ _) Hzd). simpl.
  rewrite He. simpl. rewrite Hzn. simpl. rewrite Hff1, Hff. simpl. rewrite Hfr. simpl. rewrite (proj2 (Z.eqb_neq _ _)) by lia.
  simpl. rewrite Hk, Hv. split_and!; try done.
  unfold free_node_rb_tree in Hfr. rewrite Hzn in Hfr. simpl in Hfr. injection Hfr as <-. simpl. congruence.
Qed.

Lemma rb_free_it_null t l l1 z k v l2 : rb_tree comp t l -> l = l1 ++ (z, k, v) :: l2 -> rb_free_func t = false ->
  assoc_rb_tree_free_it t z = Fail FBounds.
Proof.
  intros Ht Hl Hff.
  destruct (take_out_ok t l l1 z k v l2 Ht Hl) as (Hzd & t1 & t2 & zn & He & Hzn & Hk & Hv & Hfr & Hsz & Hpos & Hff1 & _).
  unfold assoc_rb_tree_free_it. rewrite (proj2 (Nat.eqb_neq _ _) Hzd). simpl. rewrite He. simpl. rewrite Hzn. simpl. by rewrite Hff1, Hff.
Qed.

End Map.

Section Iter.
Context {K V : Type} (comp : K -> K -> Z) `{!Comparison comp}.
Abbreviation tree := (assoc_rb_tree_t K V).
Abbreviation rbt := (rbt K V).
Abbreviation ctx := (ctx K V).
Abbreviation entry := (nat * K * V)%type.
Implicit Types (t : tree) (e : entry).

(** ** Iterators *)

(** The iterator of the first element of a list, or the end. *)
Definition first_of t (l : list entry) : nat := match l with [] => rb_dummy t | (a, _, _) :: _ => a end.

Lemma climb_ok fuel : forall t u c a k v l r ex, rb_rep t (plug u (T c a k v l r)) ex -> depth u <= fuel ->
  climb fuel t a (above (rb_dummy t) u) = Ok (first_of t (after u)).
Proof.
  induction fuel as [|fuel IH]; intros t u c a k v l r ex H Hf;
    (destruct u as [|cp p kp vp s u|cp p kp vp s u]; simpl in *; [by rewrite Nat.eqb_refl| |]); try lia.
  - rewrite (not_dummy t u cp p kp vp _ s ex H), (rep_node t u cp p kp vp _ s ex H). simpl. by rewrite Nat.eqb_refl.
  - rewrite (not_dummy t u cp p kp vp s _ ex H), (rep_node t u cp p kp vp s _ ex H). simpl.
    rewrite Nat.eqb_sym, (sibling_neq t cp p kp vp s u c a k v l r ex (or_intror H)).
    apply (IH t u cp p kp vp s (T c a k v l r) ex H). lia.
Qed.

Lemma inorder_first lp cy y ky vy (r2 : rbt) :
  exists k, inorder (plug (lctx lp Top) (T cy y ky vy E r2)) = (y, ky, vy) :: k.
Proof. rewrite inorder_plug, before_lctx. simpl. by eexists. Qed.

Lemma minimum_first t u s ex : rb_rep t (plug u s) ex -> minimum t (ptr (rb_dummy t) s) = Ok (first_of t (inorder s)).
Proof.
  intros H. destruct (minimum_ok t u s ex H) as [[-> ->]|(lp & cy & y & ky & vy & r2 & -> & ->)]; [done|].
  by destruct (inorder_first lp cy y ky vy r2) as [k ->].
Qed.

Lemma front_ok t w ex : rb_rep t w ex -> assoc_rb_tree_front t = Ok (first_of t (inorder w)).
Proof. intros H. unfold assoc_rb_tree_front. rewrite (rr_root _ _ _ H). apply (minimum_first t Top w ex H). Qed.

Lemma entry_node t w l1 z k v l2 : rb_rep t w [] -> inorder w = l1 ++ (z, k, v) :: l2 ->
  z <> 0 /\ (z =? rb_dummy t) = false /\ exists n, node t z = Ok n /\ nd_key n = Some k /\ nd_value n = Some v.
Proof.
  intros H Hi. destruct (locate w Top l1 l2 z k v Hi) as (u & c & l & r & Hw & _). simpl in Hw. subst w. split_and!.
  - intros ->. assert (Hin : 0 ∈ rb_dummy t :: [] ++ addrs (plug u (T c 0 k v l r))) by (simpl; rewrite addrs_plug; simpl; set_solver).
    pose proof (rr_brk _ _ _ H 0 Hin). lia.
  - by apply (not_dummy t u c z k v l r []).
  - eexists. split; [by apply (rep_node t u c z k v l r [])|done].
Qed.

Lemma next_ok t w l1 z k v l2 : rb_rep t w [] -> inorder w = l1 ++ (z, k, v) :: l2 ->
  assoc_rb_tree_next t z = Ok (first_of t l2).
Proof.
  intros H Hi. destruct (entry_node t w l1 z k v l2 H Hi) as (Hz0 & Hzd & _).
  destruct (locate w Top l1 l2 z k v Hi) as (u & c & l & r & Hw & _ & Hl2). simpl in Hw, Hl2. subst w. rewrite app_nil_r in Hl2.
  unfold assoc_rb_tree_next. rewrite (proj2 (Nat.eqb_neq _ _) Hz0), Hzd. simpl.
  rewrite (rep_node t u c z k v l r [] H). simpl. subst l2. destruct r as [|cr ra rk rv rl rr].
  - simpl. rewrite Nat.eqb_refl. apply (climb_ok _ t u c z k v l E [] H).
    rewrite (nodes_size t _ _ H), addrs_plug, length_app. pose proof (depth_caddrs u). simpl. lia.
  - cbn [ptr]. rewrite (not_dummy t (InR c z k v l u) cr ra rk rv rl rr [] H).
    etrans; [apply (minimum_first t (InR c z k v l u) (T cr ra rk rv rl rr) [] H)|]. f_equal.
    assert (Hne : inorder (T cr ra rk rv rl rr) <> []) by (simpl; by destruct (inorder rl)).
    by destruct (inorder (T cr ra rk rv rl rr)) as [|[[? ?] ?] ?].
Qed.

(** ** Release *)

Fixpoint postorder (s : rbt) : list (option K * option V) :=
  match s with E => [] | T _ _ k v l r => postorder l ++ postorder r ++ [(Some k, Some v)] end.

Lemma postorder_perm s : postorder s ≡ₚ map (fun e : entry => (Some e.1.2, Some e.2)) (inorder s).
Proof. induction s as [|c a k v l IHl r IHr]; simpl; [done|]. rewrite IHl, IHr, map_app. simpl. solve_Permutation. Qed.

Abbreviation with_nodes t m := ({| t with rb_nodes := m |}).

Lemma free_ok fuel : forall t p s f, rep (rb_nodes t) (rb_dummy t) p s -> NoDup (rb_dummy t :: addrs s) ->
  (forall a, a ∈ rb_dummy t :: addrs s -> a <> 0) -> height s <= fuel ->
  exists m, depth_first_search_free fuel t (ptr (rb_dummy t) s) f = Ok (with_nodes t m, if f then postorder s else []) /\
    forall b, m !! b = if decide (b ∈ addrs s) then None else rb_nodes t !! b.
Proof.
  induction fuel as [|fuel IH]; intros t p s f Hs Hn H0 Hf; (destruct s as [|c a k v l r]; simpl in *;
    [rewrite (proj2 (Nat.eqb_neq _ _)) by (apply H0; set_solver); simpl; rewrite Nat.eqb_refl;
     exists (rb_nodes t); split; [by destruct t, f|done]|]); [lia|].
  destruct Hs as (Ha & Hl & Hr). rewrite (proj2 (Nat.eqb_neq a 0)) by (apply H0; set_solver). simpl.
  rewrite (proj2 (Nat.eqb_neq a (rb_dummy t))) by (clear -Hn; apart).
  unfold node at 1. rewrite Ha. simpl.
  destruct (IH t a l f Hl) as (m1 & -> & Hm1); [clear -Hn; apart_list|set_solver|lia|]. simpl.
  assert (Ha1 : m1 !! a = rb_nodes t !! a) by (rewrite Hm1, decide_False; [done|clear -Hn; apart]).
  unfold node at 1. simpl. rewrite Ha1, Ha. simpl.
  destruct (IH (with_nodes t m1) a r f) as (m2 & Hfr & Hm2); simpl.
  { eapply rep_frame; [|exact Hr]. intros b Hb. rewrite Hm1, decide_False; [done|clear -Hn Hb; apart]. }
  { clear -Hn; apart_list. }
  { set_solver. }
  { lia. }
  simpl in Hfr. rewrite Hfr. simpl.
  assert (Ha2 : m2 !! a = rb_nodes t !! a) by (rewrite Hm2, decide_False; [done|clear -Hn; apart]).
  unfold free_node_rb_tree, node. simpl. rewrite Ha2, Ha. simpl. eexists. split; [by destruct f|].
  intros b. destruct (decide (b = a)) as [->|Hne]; [rewrite lookup_delete_eq; by rewrite decide_True by set_solver|].
  rewrite lookup_delete_ne, Hm2 by done. simpl. rewrite Hm1.
  repeat case_decide; try done; set_solver.
Qed.

Lemma rb_free_ok t l : rb_tree comp t l ->
  exists t' ev, assoc_rb_tree_free t = Ok (t', ev) /\ rb_nodes t' = ∅ /\
    ev ≡ₚ (if rb_free_func t then map (fun e : entry => (Some e.1.2, Some e.2)) l else []).
Proof.
  intros (w & n & H & _ & <- & _ & _). unfold assoc_rb_tree_free. rewrite (rr_root _ _ _ H).
  pose proof (rr_nodup _ _ _ H) as Hn. simpl in Hn.
  destruct (free_ok (size (rb_nodes t)) t (rb_dummy t) w (rb_free_func t) (rr_rep _ _ _ H) Hn) as (m & -> & Hm).
  { intros a Ha. pose proof (rr_brk _ _ _ H a Ha). lia. }
  { rewrite (nodes_size _ _ _ H). pose proof (height_addrs w). lia. }
  simpl. unfold free_node_rb_tree, node. simpl.
  destruct (rr_dummy _ _ _ H) as (dn & Hd & _).
  rewrite Hm, decide_False, Hd by (apply NoDup_cons in Hn as [? _]; done). simpl.
  eexists _, _. split; [done|]. split.
  - simpl. apply map_empty. intros a. destruct (decide (a = rb_dummy t)) as [->|Hne]; [apply lookup_delete_eq|].
    rewrite lookup_delete_ne, Hm by done. case_decide as Hin; [done|].
    apply eq_None_not_Some. rewrite (rr_dom _ _ _ H). set_solver.
  - destruct (rb_free_func t); [apply postorder_perm|done].
Qed.

(** ** The height *)

Lemma rb_size_bound c n (s : rbt) : rb c n s -> 2 ^ n <= S (length (inorder s)).
Proof.
  induction 1 as [|n a k v l r Hl IHl Hr IHr|n cl cr a k v l r Hl IHl Hr IHr]; simpl; rewrite ?length_app; simpl; lia.
Qed.

Lemma rb_height c n (s : rbt) : rb c n s -> height s <= 2 * n + (if is_red c then 1 else 0).
Proof.
  induction 1 as [|n a k v l r Hl IHl Hr IHr|n cl cr a k v l r Hl IHl Hr IHr]; simpl in *; [lia|lia|].
  destruct cl, cr; simpl in *; lia.
Qed.

(** "Lemma 1: a red-black tree with n internal nodes has a height at most 2lg(n+1)". *)
Lemma height_log n (s : rbt) : rb ASSOC_BLACK n s -> height s <= 2 * Nat.log2 (S (length (inorder s))).
Proof.
  intros H. pose proof (rb_size_bound _ _ _ H) as Hs. pose proof (rb_height _ _ _ H) as Hh. simpl in Hh.
  apply Nat.log2_le_mono in Hs. rewrite Nat.log2_pow2 in Hs by lia. lia.
Qed.

End Iter.
