(* ===== verification/RbSpec.v ===== *)
(** The red-black tree of flexric: the instance of [AssocLaws] and the
    properties of the tree under any sequence of operations. *)

From stdpp Require Import sorting.
From S2P Require Import Prelude Assoc RbTree RbShape RbInsert RbOps RbDelete RbExtract RbMap Compare.

Section Instance_.
Context {K V : Type} (comp : K -> K -> Z) `{!Comparison comp}.
Abbreviation tree := (assoc_rb_tree_t K V).
Abbreviation entry := (nat * K * V)%type.
Implicit Types (t : tree).

#[local] Instance rb_assoc : Assoc K V tree := {
  assoc_comp := comp;
  assoc_key_sz := rb_key_sz;
  assoc_free_func := rb_free_func;
  assoc_init := assoc_rb_tree_init;
  assoc_free := assoc_rb_tree_free;
  assoc_insert := assoc_rb_tree_insert comp;
  assoc_extract := assoc_rb_tree_extract comp;
  assoc_key := assoc_rb_tree_key;
  assoc_value := assoc_rb_tree_value;
  assoc_size := assoc_rb_tree_size;
  assoc_front := assoc_rb_tree_front;
  assoc_next := assoc_rb_tree_next;
  assoc_end := assoc_rb_tree_end
}.

(** An element of the tree without its address. *)
Definition kv_of (e : entry) : K * V := (e.1.2, e.2).

Definition rb_holds t (l : list (K * V)) : Prop := exists el, rb_tree comp t el /\ map kv_of el = l.

Lemma kv_of_insert e el : map kv_of (list_insert comp e el) = kv_insert comp (kv_of e) (map kv_of el).
Proof. induction el as [|x el IH]; simpl; [done|]. unfold key_of. case_bool_; simpl; [done|by rewrite IH]. Qed.

Lemma kv_of_sorted el : sorted_keys comp el -> kv_sorted comp (map kv_of el).
Proof.
  induction 1 as [|x el Hs IH Hf]; simpl; constructor; [done|]. apply Forall_map. by eapply Forall_impl.
Qed.

Lemma kv_of_has el key : has comp (map kv_of el) key <-> Exists (has_key comp key) el.
Proof. unfold has. by rewrite Exists_fmap. Qed.

Lemma kv_of_has_not el key : ~ has comp (map kv_of el) key -> Forall (fun e => ~ has_key comp key e) el.
Proof. rewrite kv_of_has. apply Forall_Exists_neg. Qed.

Lemma map_kv_app el l1 k v l2 : map kv_of el = l1 ++ (k, v) :: l2 ->
  exists el1 z el2, el = el1 ++ (z, k, v) :: el2 /\ map kv_of el1 = l1 /\ map kv_of el2 = l2.
Proof.
  intros H. apply map_eq_app in H as (el1 & el' & -> & <- & H).
  destruct el' as [|[[z k'] v'] el2]; [done|]. injection H as <- <- <-. by exists el1, z, el2.
Qed.

Lemma rb_walks t w : rb_rep t w [] ->
  forall el2 el1, inorder w = el1 ++ el2 -> walks t (first_of t el2) (map kv_of el2).
Proof.
  intros H. induction el2 as [|[[z k] v] el2 IH]; intros el1 Hi; simpl; [done|].
  destruct (entry_node comp t w el1 z k v el2 H Hi) as (Hz0 & Hzd & zn & Hz & Hk & Hv).
  split; [by apply Nat.eqb_neq|]. unfold assoc_rb_tree_key, assoc_rb_tree_value. rewrite Hzd, Hz. simpl.
  rewrite Hk, Hv. split; [done|]. split; [done|].
  exists (first_of t el2). split; [by apply (next_ok comp t w el1 z k v)|].
  apply (IH (el1 ++ [(z, k, v)])). by rewrite <- app_assoc.
Qed.

Lemma rb_front_walks t l : rb_holds t l -> exists it, assoc_rb_tree_front t = Ok it /\ walks t it l.
Proof.
  intros (el & (w & n & H & _ & <- & _) & <-). exists (first_of t (inorder w)).
  split; [by apply (front_ok t w [])|]. by apply (rb_walks t w H (inorder w) []).
Qed.

Lemma rb_insert_sz t key key_sz value : key_sz <> rb_key_sz t -> assoc_rb_tree_insert comp t key key_sz value = Fail FExit.
Proof. intros H. unfold assoc_rb_tree_insert. by rewrite (proj2 (Z.eqb_neq _ _)). Qed.

#[program] Definition rb_assoc_laws : AssocLaws K V tree (A:=rb_assoc) := {| al_holds := rb_holds |}.
Next Obligation.
  intros ks ff Hk. destruct (init_ok comp (K:=K) (V:=V) ks ff Hk) as (t & Ht & H & ? & ?).
  exists t. split_and!; [done| |done|done]. by exists [].
Qed.
Next Obligation.
  intros t l k v (el & H & <-) Hl. unfold zlen in Hl. rewrite length_map in Hl.
  destruct (rb_insert_ok comp t el k v H Hl) as (t' & Hi & H' & ? & ? & ?).
  exists t'. split_and!; [done| |done|done]. eexists. split; [exact H'|]. by rewrite kv_of_insert.
Qed.
Next Obligation. intros t l k ks v _ Hne. by apply rb_insert_sz. Qed.
Next Obligation.
  intros t l key (el & H & <-) Hh. apply kv_of_has in Hh.
  destruct (rb_extract_ok comp t el key H Hh) as (t' & l1 & z & k & v & l2 & He & -> & Hk & H' & ? & ? & ?).
  exists t', (map kv_of l1), k, v, (map kv_of l2). split_and!; [done|by rewrite map_app|done| |done|done].
  eexists. split; [exact H'|]. by rewrite map_app.
Qed.
Next Obligation.
  intros t l key (el & H & <-) Hh. apply (rb_extract_missing comp t el key H). by apply kv_of_has_not.
Qed.
Next Obligation. intros t l (el & (w & n & _ & _ & _ & _ & Hs) & <-). change (rb_size t = zlen (map kv_of el)). rewrite Hs. unfold zlen. by rewrite length_map. Qed.
Next Obligation. intros t l (el & (w & n & _ & _ & _ & Hs & _) & <-). by apply kv_of_sorted. Qed.
Next Obligation. intros t l H. by apply rb_front_walks. Qed.
Next Obligation.
  intros t l (el & H & <-). destruct (rb_free_ok comp t el H) as (t' & ev & Hf & _ & Hev).
  exists t', ev. split; [done|]. simpl. rewrite Hev. case_bool_; [|done]. by rewrite map_map.
Qed.

End Instance_.

(** ** The tree as a sorted list *)

Section Spec.
Context {K V : Type} (comp : K -> K -> Z) `{!Comparison comp}.
Abbreviation tree := (assoc_rb_tree_t K V).
Implicit Types (t : tree) (l : list (K * V)).
#[local] Instance spec_laws : AssocLaws K V tree (A:=rb_assoc comp) := rb_assoc_laws comp.

(** What a client does: [RbFreeIt n] releases the element that [n] steps of
    [next] from the front lead to, [RbElements] iterates from front to end. *)
Inductive rb_op := RbInsert (key : K) (key_sz : Z) (value : V) | RbExtract (key : K) | RbFreeIt (n : nat) | RbElements | RbSize.

Inductive rb_out :=
| ODone
| OValue (v : option V)
| OFreed (kv : option K * option V)
| OElements (kvs : list (option K * option V))
| OSize (n : Z).

Fixpoint rb_advance (n : nat) t (it : nat) : res nat :=
  match n with O => Ok it | S n' => let* it := assoc_rb_tree_next t it in rb_advance n' t it end.

Fixpoint rb_elements (fuel : nat) t (it : nat) : res (list (option K * option V)) :=
  if (it =? assoc_rb_tree_end t)%nat then Ok []
  else match fuel with
       | O => Fail FFuel
       | S fuel' =>
           let* k := assoc_rb_tree_key t it in
           let* v := assoc_rb_tree_value t it in
           let* it := assoc_rb_tree_next t it in
           let* rest := rb_elements fuel' t it in
           Ok ((k, v) :: rest)
       end.

Definition rb_step t (op : rb_op) : res (tree * rb_out) :=
  match op with
  | RbInsert key key_sz value => let* t := assoc_rb_tree_insert comp t key key_sz value in Ok (t, ODone)
  | RbExtract key => let* (t, v) := assoc_rb_tree_extract comp t key in Ok (t, OValue v)
  | RbFreeIt n =>
      let* it := assoc_rb_tree_front t in
      let* it := rb_advance n t it in
      let* (t, kv) := assoc_rb_tree_free_it t it in
      Ok (t, OFreed kv)
  | RbElements =>
      let* it := assoc_rb_tree_front t in
      let* kvs := rb_elements (Z.to_nat (assoc_rb_tree_size t)) t it in
      Ok (t, OElements kvs)
  | RbSize => Ok (t, OSize (assoc_rb_tree_size t))
  end.

(** The outputs of a run up to its end or its failure. *)
Fixpoint rb_run t (ops : list rb_op) : list rb_out * res tree :=
  match ops with
  | [] => ([], Ok t)
  | op :: ops' =>
      match rb_step t op with
      | Fail f => ([], Fail f)
      | Ok (t', o) => let (os, r) := rb_run t' ops' in (o :: os, r)
      end
  end.

(** The specification: a sorted list.  Extraction may take any of the elements
    with an equal key. *)
Inductive list_spec (key_sz : Z) (free_func : bool) : list (K * V) -> rb_op -> list (K * V) -> rb_out -> Prop :=
| spec_insert l k v : list_spec key_sz free_func l (RbInsert k key_sz v) (kv_insert comp (k, v) l) ODone
| spec_extract l1 k v l2 key : comp key k = 0 ->
    list_spec key_sz free_func (l1 ++ (k, v) :: l2) (RbExtract key) (l1 ++ l2) (OValue (Some v))
| spec_free_it l1 k v l2 : free_func = true ->
    list_spec key_sz free_func (l1 ++ (k, v) :: l2) (RbFreeIt (length l1)) (l1 ++ l2) (OFreed (Some k, Some v))
| spec_elements l : list_spec key_sz free_func l RbElements l (OElements (map (fun e => (Some e.1, Some e.2)) l))
| spec_size l : list_spec key_sz free_func l RbSize l (OSize (zlen l)).

Inductive list_specs (key_sz : Z) (free_func : bool) : list (K * V) -> list rb_op -> list (K * V) -> list rb_out -> Prop :=
| specs_nil l : list_specs key_sz free_func l [] l []
| specs_cons l op l1 o ops l2 os : list_spec key_sz free_func l op l1 o -> list_specs key_sz free_func l1 ops l2 os ->
    list_specs key_sz free_func l (op :: ops) l2 (o :: os).

Record tree_is (key_sz : Z) (free_func : bool) t l : Prop := {
  ti_holds : rb_holds comp t l;
  ti_key_sz : rb_key_sz t = key_sz;
  ti_free_func : rb_free_func t = free_func
}.

Lemma rb_elements_ok t l : forall it fuel, walks (A:=rb_assoc comp) t it l -> (length l <= fuel)%nat ->
  rb_elements fuel t it = Ok (map (fun e => (Some e.1, Some e.2)) l).
Proof.
  induction l as [|[k v] l IH]; intros it fuel Hw Hf; simpl in *.
  - subst it. destruct fuel; simpl; by rewrite Nat.eqb_refl.
  - destruct Hw as (Hne & Hk & Hv & it' & Hn & Hw). destruct fuel as [|fuel]; [lia|]. simpl.
    rewrite (proj2 (Nat.eqb_neq _ _) Hne), Hk, Hv, Hn. simpl. rewrite (IH it' fuel Hw) by lia. done.
Qed.

Lemma next_at_end t : assoc_rb_tree_next t (rb_dummy t) = Fail FExit.
Proof. unfold assoc_rb_tree_next. rewrite Nat.eqb_refl. by destruct (rb_dummy t =? 0)%nat. Qed.

(** [n] steps from the front: at the [n]-th element, or at the end, or over it. *)
Lemma rb_advance_ok t w (el2 : list (nat * K * V)) : rb_rep t w [] -> forall n (el1 : list (nat * K * V)), inorder w = el1 ++ el2 ->
  rb_advance n t (first_of t el2) =
    if decide (n <= length el2)%nat then Ok (first_of t (drop n el2)) else Fail FExit.
Proof.
  intros H. induction el2 as [|[[z k] v] el2 IH]; intros n el1 Hi; (destruct n as [|n]; [done|]); simpl.
  - by rewrite next_at_end.
  - rewrite (next_ok comp t w el1 z k v el2 H Hi). simpl.
    rewrite (IH n (el1 ++ [(z, k, v)])) by (by rewrite <- app_assoc). repeat case_decide; done || lia.
Qed.

(** A step of the tree is one of the list, or fails where the list has none. *)
Definition step_good key_sz free_func l op (r : res (tree * rb_out)) : Prop :=
  match r with
  | Ok (t', o) => exists l', list_spec key_sz free_func l op l' o /\ tree_is key_sz free_func t' l' /\ zlen l' <= zlen l + 1
  | Fail f => f <> FFuel /\ forall l' o, ~ list_spec key_sz free_func l op l' o
  end.

Lemma insert_good ks ff t l k key_sz v : tree_is ks ff t l -> zlen l + 1 < 2 ^ 64 ->
  step_good ks ff l (RbInsert k key_sz v) (rb_step t (RbInsert k key_sz v)).
Proof.
  intros [H <- <-] Hl. simpl. destruct (decide (key_sz = rb_key_sz t)) as [->|Hne].
  - destruct (al_insert (AssocLaws:=spec_laws) t l k v H Hl) as (t' & Hi & H' & ? & ?). simpl in Hi. rewrite Hi. simpl.
    exists (kv_insert comp (k, v) l). split_and!; [constructor|by constructor|].
    unfold zlen. rewrite (Permutation_length (kv_insert_perm comp (k, v) l)). simpl. lia.
  - rewrite rb_insert_sz by done. simpl. split; [done|]. intros l' o Hs. by inversion Hs.
Qed.

Lemma extract_good ks ff t l k : tree_is ks ff t l -> step_good ks ff l (RbExtract k) (rb_step t (RbExtract k)).
Proof.
  intros [H <- <-]. simpl. destruct (decide (has comp l k)) as [Hh|Hn].
  - destruct (al_extract (AssocLaws:=spec_laws) t l k H Hh) as (t' & l1 & k' & v & l2 & He & -> & Hk & H' & ? & ?). simpl in He. rewrite He. simpl.
    exists (l1 ++ l2). split_and!; [by constructor|by constructor|]. rewrite !zlen_app, zlen_cons. lia.
  - pose proof (al_missing (AssocLaws:=spec_laws) t l k H Hn) as He. simpl in He. rewrite He. simpl. split; [done|]. intros l' o Hs.
    inversion Hs; subst. apply Hn. unfold has. rewrite Exists_app, Exists_cons. right. by left.
Qed.

Lemma free_it_good ks ff t l n : tree_is ks ff t l -> step_good ks ff l (RbFreeIt n) (rb_step t (RbFreeIt n)).
Proof.
  intros [(el & Ht & <-) <- <-]. pose proof Ht as (w & nb & H & _ & Hi & _). simpl.
  rewrite (front_ok t w [] H), Hi. simpl. rewrite (rb_advance_ok t w el H n [] Hi).
  assert (Hno : forall x y, map kv_of el !! n = None -> ~ list_spec (rb_key_sz t) (rb_free_func t) (map kv_of el) (RbFreeIt n) x y).
  { intros x y Hnone Hs. inversion Hs as [| |l1 k v l2 Hff Heq| |]; subst. rewrite <- Heq, list_lookup_middle in Hnone; done. }
  rewrite list_lookup_fmap in Hno. destruct (el !! n) as [[[z k] v]|] eqn:Hn.
  - pose proof (take_drop_middle _ _ _ Hn) as Hel. pose proof (lookup_lt_Some _ _ _ Hn) as Hlt.
    rewrite decide_True by lia. rewrite (drop_S _ _ _ Hn). simpl. symmetry in Hel.
    assert (Hln : length (map kv_of (take n el)) = n) by (rewrite length_map, length_take; lia).
    destruct (rb_free_func t) eqn:Hff.
    + destruct (rb_free_it_ok comp t el _ z k v _ Ht Hel Hff) as (t' & -> & H' & ? & ?). simpl.
      exists (map kv_of (take n el) ++ map kv_of (drop (S n) el)). split_and!.
      * pose proof (spec_free_it (rb_key_sz t) true (map kv_of (take n el)) k v (map kv_of (drop (S n) el)) eq_refl) as Hsp.
        rewrite Hln in Hsp. rewrite Hel at 1. rewrite map_app. exact Hsp.
      * split; [|done|congruence]. eexists. split; [exact H'|]. by rewrite map_app.
      * rewrite <- map_app. unfold zlen. rewrite !length_map, length_app, length_take, length_drop. lia.
    + rewrite (rb_free_it_null comp t el _ z k v _ Ht Hel Hff). simpl. split; [done|]. intros l' o Hs. by inversion Hs.
  - apply lookup_ge_None in Hn as Hge. case_decide as Hd; simpl.
    + rewrite drop_ge by lia. simpl. unfold assoc_rb_tree_free_it. rewrite Nat.eqb_refl. simpl. split; [done|]. intros l' o. by apply Hno.
    + split; [done|]. intros l' o. by apply Hno.
Qed.

Lemma rb_step_good ks ff t l op : tree_is ks ff t l -> zlen l + 1 < 2 ^ 64 -> step_good ks ff l op (rb_step t op).
Proof.
  intros H Hl. destruct op as [k key_sz v|k|n| |].
  - by apply insert_good.
  - by apply extract_good.
  - by apply free_it_good.
  - destruct H as [H Hk Hf]. destruct (al_front (AssocLaws:=spec_laws) t l H) as (it & Hit & Hw). simpl in *. rewrite Hit. simpl.
    pose proof (al_size (AssocLaws:=spec_laws) t l H) as Hs. simpl in Hs. rewrite (rb_elements_ok t l it) by (done || (rewrite Hs; unfold zlen; lia)). simpl.
    exists l. split_and!; [constructor|by constructor|lia].
  - destruct H as [H Hk Hf]. pose proof (al_size (AssocLaws:=spec_laws) t l H) as Hs. simpl in *. rewrite Hs.
    exists l. split_and!; [constructor|by constructor|lia].
Qed.

Lemma rb_run_ok ks ff ops : forall t l, tree_is ks ff t l -> zlen l + zlen ops < 2 ^ 64 ->
  let (outs, r) := rb_run t ops in
  exists l', list_specs ks ff l (take (length outs) ops) l' outs /\
    match r with
    | Ok t' => length outs = length ops /\ tree_is ks ff t' l'
    | Fail f => f <> FFuel /\ exists op, ops !! length outs = Some op /\ forall l2 o, ~ list_spec ks ff l' op l2 o
    end.
Proof.
  induction ops as [|op ops IH]; intros t l H Hl; simpl; [by exists l; split; [constructor|]|].
  rewrite zlen_cons in Hl. pose proof (zlen_nonneg ops). pose proof (rb_step_good ks ff t l op H ltac:(lia)) as Hg.
  unfold step_good in Hg. destruct (rb_step t op) as [[t1 o]|f].
  - destruct Hg as (l1 & Hs & H1 & Hl1). pose proof (IH t1 l1 H1 ltac:(lia)) as Hr.
    destruct (rb_run t1 ops) as [outs r]. destruct Hr as (l' & Hss & Hr). exists l'. simpl.
    split; [by econstructor|]. destruct r; [|done]. destruct Hr. split; [lia|done].
  - destruct Hg as [Hf Hn]. exists l. simpl. split; [constructor|]. split; [done|]. by exists op.
Qed.

Lemma tree_is_init ks ff : 0 < ks -> exists t, assoc_rb_tree_init (K:=K) (V:=V) ks ff = Ok t /\ tree_is ks ff t [].
Proof.
  intros Hk. destruct (al_init (AssocLaws:=rb_assoc_laws comp (V:=V)) ks ff Hk) as (t & Ht & H & ? & ?).
  exists t. split; [done|]. by split.
Qed.

Lemma list_specs_sorted ks ff l ops l' outs : kv_sorted comp l -> list_specs ks ff l ops l' outs -> kv_sorted comp l'.
Proof.
  intros Hl Hs. induction Hs as [|l op l1 o ops l2 os Hs Hss IH]; [done|]. apply IH.
  inversion Hs; subst; [by apply kv_insert_sorted|by eapply kv_sorted_remove|by eapply kv_sorted_remove|done|done].
Qed.

Lemma rb_find_log t l key : rb_holds comp t l ->
  exists a, find_loop comp (2 * Nat.log2 (S (length l)))%nat t (rb_root t) key = Ok a /\
    if decide (has comp l key)
    then exists k v, (k, v) ∈ l /\ assoc_rb_tree_key t a = Ok (Some k) /\ assoc_rb_tree_value t a = Ok (Some v) /\ comp key k = 0
    else a = assoc_rb_tree_end t.
Proof.
  intros (el & (w & n & H & Hrb & Hi & Hs & _) & <-). rewrite length_map. rewrite <- Hi in Hs.
  rewrite (rr_root _ _ _ H).
  destruct (find_loop_ok comp (2 * Nat.log2 (S (length el))) t Top w [] key H Hs) as [[Hf Hn]|(l1 & z & k & v & l2 & Hf & Hl & Hk)].
  { rewrite <- Hi. by apply (height_log n). }
  - exists (rb_dummy t). split; [done|]. rewrite decide_False; [done|]. rewrite kv_of_has. rewrite Hi in Hn. by apply Forall_Exists_neg.
  - exists z. split; [done|]. rewrite decide_True.
    + exists k, v. destruct (entry_node comp t w l1 z k v l2 H Hl) as (_ & Hzd & zn & Hz & Hzk & Hzv).
      unfold assoc_rb_tree_key, assoc_rb_tree_value. rewrite Hzd, Hz. simpl. rewrite Hzk, Hzv. split_and!; try done.
      rewrite <- Hi, Hl, map_app. simpl. apply elem_of_app. right. left.
    + rewrite kv_of_has, <- Hi, Hl. apply Exists_app. right. by left.
Qed.

(** ** What the nodes look like *)

(** A child [c] of the node [n] at [a]. *)
Definition child_ok t (a : nat) (n : assoc_node_t K V) (c : nat) (order : K -> K -> Prop) : Prop :=
  c = rb_dummy t \/
  exists cn k kc, c <> rb_dummy t /\ rb_nodes t !! c = Some cn /\ nd_parent cn = a /\
    (nd_color n = ASSOC_RED -> nd_color cn = ASSOC_BLACK) /\ nd_key n = Some k /\ nd_key cn = Some kc /\ order k kc.

(** Every node carries a key and a value; parents and children point at each
    other; no red node has a red child; the key of a left child is not greater,
    that of a right child not smaller. *)
Definition node_wf t (a : nat) : Prop :=
  exists n, rb_nodes t !! a = Some n /\ is_Some (nd_key n) /\ is_Some (nd_value n) /\
    child_ok t a n (nd_left n) (fun k kc => comp kc k <> -1) /\ child_ok t a n (nd_right n) (fun k kc => comp k kc <> -1).

Lemma child_wf t a n k s c m p order :
  rep (rb_nodes t) (rb_dummy t) a s -> rb_dummy t ∉ addrs s -> rb c m s -> (nd_color n = ASSOC_RED -> c = ASSOC_BLACK) -> nd_key n = Some k ->
  Forall (fun e => order k (key_of e)) (inorder s) -> p = ptr (rb_dummy t) s -> child_ok t a n p order.
Proof.
  intros Hs Hd Hrb Hc Hk Ho ->. destruct s as [|cs b kb vb l r]; [by left|]. right. simpl in *. destruct Hs as (Hb & _ & _).
  eexists _, k, kb. split; [set_solver|]. split; [exact Hb|]. split; [done|]. split_and!; try done.
  - intros Hn. rewrite <- (Hc Hn). simpl. by inversion Hrb.
  - rewrite Forall_app in Ho. destruct Ho as [_ Ho]. by inversion Ho.
Qed.

Lemma nodes_wf t s : forall p c m, rep (rb_nodes t) (rb_dummy t) p s -> rb_dummy t ∉ addrs s -> rb c m s ->
  sorted_keys comp (inorder s) -> Forall (node_wf t) (addrs s).
Proof.
  induction s as [|cs a k v l IHl r IHr]; intros p c m Hs Hd Hrb Hi; simpl in *; [constructor|].
  destruct Hs as (Ha & Hl & Hr). apply not_elem_of_cons in Hd as [_ Hd]. rewrite not_elem_of_app in Hd. destruct Hd as [Hdl Hdr].
  apply StronglySorted_app in Hi as (Hlt & Hil & Hir). inversion Hir as [|? ? Hir' Hgt]; subst.
  assert (Hlo : Forall (fun e => comp (key_of e) k <> -1) (inorder l)).
  { apply Forall_forall. intros e He. apply (Hlt e (a, k, v) He). left. }
  assert (Hhi : Forall (fun e => comp k (key_of e) <> -1) (inorder r)) by (eapply Forall_impl; [exact Hgt|]; done).
  inversion Hrb as [|? ? ? ? ? ? Hbl Hbr|? cl cr ? ? ? ? ? Hbl Hbr]; subst.
  - constructor; [|apply Forall_app; split; [by eapply IHl|by eapply IHr]].
    eexists. split; [exact Ha|]. split; [done|]. split; [done|].
    split; [eapply (child_wf _ _ _ k l)|eapply (child_wf _ _ _ k r)]; try done; try reflexivity; done.
  - constructor; [|apply Forall_app; split; [by eapply IHl|by eapply IHr]].
    eexists. split; [exact Ha|]. split; [done|]. split; [done|].
    split; [eapply (child_wf _ _ _ k l)|eapply (child_wf _ _ _ k r)]; try done; try reflexivity; done.
Qed.

Lemma rb_nodes_ok t l : rb_holds comp t l ->
  (rb_root t = rb_dummy t \/ exists rn, rb_nodes t !! rb_root t = Some rn /\ nd_color rn = ASSOC_BLACK /\ nd_parent rn = rb_dummy t) /\
  forall a, a <> rb_dummy t -> is_Some (rb_nodes t !! a) -> node_wf t a.
Proof.
  intros (el & (w & n & H & Hrb & Hi & Hs & _) & _). rewrite <- Hi in Hs. split.
  - rewrite (rr_root _ _ _ H). pose proof (rr_rep _ _ _ H) as Hw. destruct w as [|c a k v lw rw]; [by left|]. right.
    destruct Hw as (Ha & _ & _). eexists. split; [exact Ha|]. by inversion Hrb.
  - intros a Ha Hin. apply (rr_dom _ _ _ H) in Hin. simpl in Hin. apply elem_of_cons in Hin as [->|Hin]; [done|].
    pose proof (rr_nodup _ _ _ H) as Hn. simpl in Hn. apply NoDup_cons in Hn as [Hd _].
    pose proof (nodes_wf t w _ _ _ (rr_rep _ _ _ H) Hd Hrb Hs) as Hf. rewrite Forall_forall in Hf. by apply Hf.
Qed.

End Spec.

(** ** The properties *)

(** C15. The red-black tree is a sorted list: any operations on a fresh tree give
    what the list gives, and leave a tree that is again a red-black tree with
    the elements of the list.  A run stops only where the list has no step: a
    wrong key size, a key that is not there, an iterator past the end, or the
    release of an element without a function for it.  No loop of the tree runs
    out of fuel. *)
Theorem rb_tree_refines_sorted_list {K V} (comp : K -> K -> Z) `{!Comparison comp} key_sz free_func (ops : list (rb_op (K:=K) (V:=V))) :
  0 < key_sz -> zlen ops < 2 ^ 64 ->
  exists t0, assoc_rb_tree_init key_sz free_func = Ok t0 /\
    let (outs, r) := rb_run comp t0 ops in
    exists l, list_specs comp key_sz free_func [] (take (length outs) ops) l outs /\ kv_sorted comp l /\
      match r with
      | Ok t => length outs = length ops /\ rb_holds comp t l
      | Fail f => f <> FFuel /\ exists op, ops !! length outs = Some op /\ forall l' o, ~ list_spec comp key_sz free_func l op l' o
      end.
Proof.
  intros Hk Hl. destruct (tree_is_init comp (V:=V) key_sz free_func Hk) as (t0 & H0 & Ht). exists t0. split; [done|].
  pose proof (rb_run_ok comp key_sz free_func ops t0 [] Ht ltac:(rewrite zlen_nil; lia)) as Hr.
  destruct (rb_run comp t0 ops) as [outs r]. destruct Hr as (l & Hs & Hr). exists l. split; [done|].
  split; [by apply (list_specs_sorted comp key_sz free_func [] (take (length outs) ops) l outs); [constructor|]|]. destruct r; [|done]. destruct Hr as [? []]. by split.
Qed.

(** C35. "Lemma 1" of assoc_rb_tree.c at work: after any operations, the search for
    a key visits at most twice the binary logarithm of the number of elements
    plus one; it finds an element with the key, or there is none. *)
Theorem rb_search_logarithmic {K V} (comp : K -> K -> Z) `{!Comparison comp} key_sz free_func t0 (ops : list (rb_op (K:=K) (V:=V))) outs t key :
  0 < key_sz -> zlen ops < 2 ^ 64 -> assoc_rb_tree_init key_sz free_func = Ok t0 -> rb_run comp t0 ops = (outs, Ok t) ->
  exists l, list_specs comp key_sz free_func [] ops l outs /\
    exists a, find_loop comp (2 * Nat.log2 (S (length l)))%nat t (rb_root t) key = Ok a /\
      if decide (has comp l key)
      then exists k v, (k, v) ∈ l /\ assoc_rb_tree_key t a = Ok (Some k) /\ assoc_rb_tree_value t a = Ok (Some v) /\ comp key k = 0
      else a = assoc_rb_tree_end t.
Proof.
  intros Hk Hl Hi Hrun. destruct (tree_is_init comp (V:=V) key_sz free_func Hk) as (t1 & H1 & Ht).
  rewrite Hi in H1. injection H1 as <-.
  pose proof (rb_run_ok comp key_sz free_func ops t0 [] Ht ltac:(rewrite zlen_nil; lia)) as Hr. rewrite Hrun in Hr.
  destruct Hr as (l & Hs & Hlen & [Hh _ _]). rewrite Hlen, firstn_all in Hs. exists l. split; [done|].
  by apply rb_find_log.
Qed.

(** Releasing a tree gives every element it holds to the function of the
    tree, once, and leaves no node behind. *)
Theorem rb_free_releases_all {K V} (comp : K -> K -> Z) `{!Comparison comp} key_sz t0 (ops : list (rb_op (K:=K) (V:=V))) outs t :
  0 < key_sz -> zlen ops < 2 ^ 64 -> assoc_rb_tree_init key_sz true = Ok t0 -> rb_run comp t0 ops = (outs, Ok t) ->
  exists l t' ev, list_specs comp key_sz true [] ops l outs /\ assoc_rb_tree_free t = Ok (t', ev) /\
    rb_nodes t' = ∅ /\ ev ≡ₚ map (fun e => (Some e.1, Some e.2)) l.
Proof.
  intros Hk Hl Hi Hrun. destruct (tree_is_init comp (V:=V) key_sz true Hk) as (t1 & H1 & Ht).
  rewrite Hi in H1. injection H1 as <-.
  pose proof (rb_run_ok comp key_sz true ops t0 [] Ht ltac:(rewrite zlen_nil; lia)) as Hr. rewrite Hrun in Hr.
  destruct Hr as (l & Hs & Hlen & [(el & Hh & <-) _ Hff]). rewrite Hlen, firstn_all in Hs.
  destruct (rb_free_ok comp t el Hh) as (t' & ev & Hf & Hn & Hev). exists (map kv_of el), t', ev.
  split_and!; [done|done|done|]. rewrite Hev, Hff, map_map. done.
Qed.

(** The nodes of a tree are always well formed, after any operations: the root
    is black and has no parent, every node carries a key and a value, parents and
    children point at each other, no red node has a red child, and the key of a
    left child is not greater, that of a right child not smaller. *)
Theorem rb_nodes_well_formed {K V} (comp : K -> K -> Z) `{!Comparison comp} key_sz free_func t0 (ops : list (rb_op (K:=K) (V:=V))) outs t :
  0 < key_sz -> zlen ops < 2 ^ 64 -> assoc_rb_tree_init key_sz free_func = Ok t0 -> rb_run comp t0 ops = (outs, Ok t) ->
  (rb_root t = rb_dummy t \/ exists rn, rb_nodes t !! rb_root t = Some rn /\ nd_color rn = ASSOC_BLACK /\ nd_parent rn = rb_dummy t) /\
  forall a, a <> rb_dummy t -> is_Some (rb_nodes t !! a) -> node_wf comp t a.
Proof.
  intros Hk Hl Hi Hrun. destruct (tree_is_init comp (V:=V) key_sz free_func Hk) as (t1 & H1 & Ht).
  rewrite Hi in H1. injection H1 as <-.
  pose proof (rb_run_ok comp key_sz free_func ops t0 [] Ht ltac:(rewrite zlen_nil; lia)) as Hr. rewrite Hrun in Hr.
  destruct Hr as (l & Hs & Hlen & [Hh _ _]). by apply (rb_nodes_ok comp t l).
Qed.

(** ** Concrete runs: file descriptors to numbers *)

Definition ex_rb_ops : list (rb_op (K:=Z) (V:=Z)) :=
  [RbInsert 5 4 50; RbInsert 3 4 30; RbInsert 9 4 90; RbInsert 4 4 40; RbInsert 7 4 70; RbInsert 5 4 51; RbElements;
   RbExtract 3; RbFreeIt 1; RbElements; RbSize].

(** A key that is not there stops the run. *)
Definition ex_rb_stuck : list (rb_op (K:=Z) (V:=Z)) := ex_rb_ops ++ [RbExtract 8; RbSize].

Example ex_rb_run : (rb_run cmp_fd (match assoc_rb_tree_init 4 true with Ok t => t | Fail _ => mk_rb_tree 0 0 0 0 false ∅ 0 end) ex_rb_stuck).1 =
  [ODone; ODone; ODone; ODone; ODone; ODone;
   OElements [(Some 3, Some 30); (Some 4, Some 40); (Some 5, Some 50); (Some 5, Some 51); (Some 7, Some 70); (Some 9, Some 90)];
   OValue (Some 30); OFreed (Some 5, Some 50);
   OElements [(Some 4, Some 40); (Some 5, Some 51); (Some 7, Some 70); (Some 9, Some 90)]; OSize 4].
Proof. vm_compute. reflexivity. Qed.

(** The tree after [ex_rb_ops]. *)
Definition ex_rb_tree0 : assoc_rb_tree_t Z Z :=
  match assoc_rb_tree_init 4 true with Ok t => t | Fail _ => mk_rb_tree 0 0 0 0 false ∅ 0 end.
Definition ex_rb_tree : assoc_rb_tree_t Z Z := match (rb_run cmp_fd ex_rb_tree0 ex_rb_ops).2 with Ok t => t | Fail _ => ex_rb_tree0 end.

Lemma rb_tree_refines_sorted_list_witness :
  0 < 4 /\ zlen ex_rb_stuck < 2 ^ 64 /\
  exists t0, assoc_rb_tree_init 4 true = Ok t0 /\
    let (outs, r) := rb_run cmp_fd t0 ex_rb_stuck in
    exists l, list_specs cmp_fd 4 true [] (take (length outs) ex_rb_stuck) l outs /\ kv_sorted cmp_fd l /\
      match r with
      | Ok t => length outs = length ex_rb_stuck /\ rb_holds cmp_fd t l
      | Fail f => f <> FFuel /\ exists op, ex_rb_stuck !! length outs = Some op /\ forall l' o, ~ list_spec cmp_fd 4 true l op l' o
      end.
Proof.
  split; [lia|]. split; [reflexivity|]. apply (rb_tree_refines_sorted_list cmp_fd 4 true ex_rb_stuck); [lia|reflexivity].
Defined.

Lemma rb_search_logarithmic_witness :
  assoc_rb_tree_init 4 true = Ok ex_rb_tree0 /\ rb_run cmp_fd ex_rb_tree0 ex_rb_ops = ((rb_run cmp_fd ex_rb_tree0 ex_rb_ops).1, Ok ex_rb_tree) /\
  exists (l : list (Z * Z)) a, find_loop cmp_fd (2 * Nat.log2 (S (length l)))%nat ex_rb_tree (rb_root ex_rb_tree) 7 = Ok a.
Proof.
  assert (Hr : rb_run cmp_fd ex_rb_tree0 ex_rb_ops = ((rb_run cmp_fd ex_rb_tree0 ex_rb_ops).1, Ok ex_rb_tree)) by (vm_compute; reflexivity).
  split; [reflexivity|]. split; [exact Hr|].
  destruct (rb_search_logarithmic cmp_fd 4 true ex_rb_tree0 ex_rb_ops _ ex_rb_tree 7 ltac:(lia) ltac:(reflexivity) ltac:(reflexivity) Hr)
    as (l & _ & a & Ha & _).
  exists l, a. exact Ha.
Defined.

Lemma rb_free_releases_all_witness :
  rb_run cmp_fd ex_rb_tree0 ex_rb_ops = ((rb_run cmp_fd ex_rb_tree0 ex_rb_ops).1, Ok ex_rb_tree) /\
  exists t' ev, assoc_rb_tree_free ex_rb_tree = Ok (t', ev) /\ rb_nodes t' = ∅.
Proof.
  assert (Hr : rb_run cmp_fd ex_rb_tree0 ex_rb_ops = ((rb_run cmp_fd ex_rb_tree0 ex_rb_ops).1, Ok ex_rb_tree)) by (vm_compute; reflexivity).
  split; [exact Hr|].
  destruct (rb_free_releases_all cmp_fd 4 ex_rb_tree0 ex_rb_ops _ ex_rb_tree ltac:(lia) ltac:(reflexivity) ltac:(reflexivity) Hr)
    as (l & t' & ev & _ & Hf & Hn & _).
  exists t', ev. exact (conj Hf Hn).
Defined.

Lemma rb_nodes_well_formed_witness :
  rb_run cmp_fd ex_rb_tree0 ex_rb_ops = ((rb_run cmp_fd ex_rb_tree0 ex_rb_ops).1, Ok ex_rb_tree) /\
  forall a, a <> rb_dummy ex_rb_tree -> is_Some (rb_nodes ex_rb_tree !! a) -> node_wf cmp_fd ex_rb_tree a.
Proof.
  assert (Hr : rb_run cmp_fd ex_rb_tree0 ex_rb_ops = ((rb_run cmp_fd ex_rb_tree0 ex_rb_ops).1, Ok ex_rb_tree)) by (vm_compute; reflexivity).
  split; [exact Hr|].
  apply (rb_nodes_well_formed cmp_fd 4 true ex_rb_tree0 ex_rb_ops _ ex_rb_tree ltac:(lia) ltac:(reflexivity) ltac:(reflexivity) Hr).
Defined.
