(* ===== verification/BiMap.v ===== *)
(** The bidirectional map of flexric
    (util/alg_ds/ds/assoc_container/bimap.[ch]): two associative containers, the
    left one from the first keys to the second ones, the right one back.  It is
    proved against [AssocLaws], for any container, and then over the red-black
    trees, as the code builds it with [BI_MAP_RB_RB], under any sequence of
    operations.

    A value of a container is the block that the map allocates for a copy of the
    other key; here it is that key. *)

From S2P Require Import Prelude Assoc Compare RbTree RbSpec.

Record bi_map_t (L R : Type) := mk_bi_map { bm_left : L; bm_right : R }.
Arguments mk_bi_map {L R}.
Arguments bm_left {L R}.
Arguments bm_right {L R}.

(** ** The operations *)

Section BiMap.
Context {K1 K2 L R : Type} `{AL : Assoc K1 K2 L} `{AR : Assoc K2 K1 R}.
Abbreviation bi_map := (bi_map_t L R).
Implicit Types (m : bi_map).

Definition bi_map_init (key_sz1 key_sz2 : Z) (free1 free2 : bool) : res bi_map :=
  let* _ := assert_ (0 <? key_sz1) in
  let* _ := assert_ (0 <? key_sz2) in
  let* l := assoc_init key_sz1 free1 in
  let* r := assoc_init key_sz2 free2 in
  Ok (mk_bi_map l r).

(** With the calls of both free functions. *)
Definition bi_map_free m : res (bi_map * list (option K1 * option K2) * list (option K2 * option K1)) :=
  let* (l, evl) := assoc_free (bm_left m) in
  let* (r, evr) := assoc_free (bm_right m) in
  Ok (mk_bi_map l r, evl, evr).

Definition bi_map_insert m (key1 : K1) (key_sz1 : Z) (key2 : K2) (key_sz2 : Z) : res bi_map :=
  let* _ := assert_ (0 <? key_sz1) in
  let* _ := assert_ (0 <? key_sz2) in
  let val1 := key2 in
  let* _ := assert_ (assoc_comp (Assoc:=AR) key2 val1 =? 0) in
  let* l := assoc_insert (bm_left m) key1 key_sz1 val1 in
  let val2 := key1 in
  let* _ := assert_ (assoc_comp (Assoc:=AL) key1 val2 =? 0) in
  let* r := assoc_insert (bm_right m) key2 key_sz2 val2 in
  Ok (mk_bi_map l r).

(** The second key, and the first one as it is given to [f] before it is
    released. *)
Definition bi_map_extract_left m (key1 : K1) (key1_sz : Z) : res (bi_map * K2 * K1) :=
  let* _ := assert_ (key1_sz =? assoc_key_sz (bm_left m)) in
  let* (l, okey2) := assoc_extract (bm_left m) key1 in
  let* key2 := of_opt FBounds okey2 in
  let* (r, okey3) := assoc_extract (bm_right m) key2 in
  let* key3 := of_opt FBounds okey3 in
  let* _ := assert_ (assoc_comp (Assoc:=AL) key1 key3 =? 0) in
  let* _ := assert_ (assoc_size l =? assoc_size r) in
  Ok (mk_bi_map l r, key2, key3).

Definition bi_map_extract_right m (key2 : K2) (key2_sz : Z) : res (bi_map * K1 * K2) :=
  let* _ := assert_ (key2_sz =? assoc_key_sz (bm_right m)) in
  let* (r, okey1) := assoc_extract (bm_right m) key2 in
  let* key1 := of_opt FBounds okey1 in
  let* (l, okey3) := assoc_extract (bm_left m) key1 in
  let* key3 := of_opt FBounds okey3 in
  let* _ := assert_ (assoc_comp (Assoc:=AR) key2 key3 =? 0) in
  let* _ := assert_ (assoc_free_func r) in
  let* _ := assert_ (assoc_size l =? assoc_size r) in
  Ok (mk_bi_map l r, key1, key3).

Definition bi_map_size m : res Z :=
  let cap := assoc_size (bm_left m) in
  let* _ := assert_ (cap =? assoc_size (bm_right m)) in
  Ok cap.

Definition bi_map_front_left m : res nat := assoc_front (bm_left m).
Definition bi_map_next_left m (it : nat) : res nat := let* _ := assert_ (negb (it =? 0)%nat) in assoc_next (bm_left m) it.
Definition bi_map_end_left m : nat := assoc_end (bm_left m).
Definition bi_map_front_right m : res nat := assoc_front (bm_right m).
Definition bi_map_next_right m (it : nat) : res nat := let* _ := assert_ (negb (it =? 0)%nat) in assoc_next (bm_right m) it.
Definition bi_map_end_right m : nat := assoc_end (bm_right m).
Definition bi_map_value_left m (it : nat) : res (option K2) := assoc_value (bm_left m) it.
Definition bi_map_value_right m (it : nat) : res (option K1) := assoc_value (bm_right m) it.

End BiMap.

(** ** The pairs of a map *)

Section Pairs.
Context {K1 K2 L R : Type} `{AL : Assoc K1 K2 L} `{AR : Assoc K2 K1 R}.
Context `{LL : !AssocLaws K1 K2 L} `{LR : !AssocLaws K2 K1 R}.
Abbreviation bi_map := (bi_map_t L R).
Abbreviation comp1 := (assoc_comp (Assoc:=AL)).
Abbreviation comp2 := (assoc_comp (Assoc:=AR)).
Implicit Types (m : bi_map) (l : list (K1 * K2)).

Definition swap_kv {A B} (p : A * B) : B * A := (p.2, p.1).

(** The left side holds the pairs [l], the right side the same ones. *)
Record bi_is (sz1 sz2 : Z) (ff1 ff2 : bool) m l : Prop := {
  bi_left : exists ll, al_holds (bm_left m) ll /\ ll ≡ₚ l;
  bi_right : exists rr, al_holds (bm_right m) rr /\ map swap_kv rr ≡ₚ l;
  bi_sz1 : assoc_key_sz (bm_left m) = sz1;
  bi_sz2 : assoc_key_sz (bm_right m) = sz2;
  bi_ff1 : assoc_free_func (bm_left m) = ff1;
  bi_ff2 : assoc_free_func (bm_right m) = ff2
}.

(** No two pairs share their first key, or their second. *)
Definition inj1 l : Prop := forall p q l', l ≡ₚ p :: q :: l' -> comp1 p.1 q.1 <> 0.
Definition inj2 l : Prop := forall p q l', l ≡ₚ p :: q :: l' -> comp2 p.2 q.2 <> 0.

Lemma inj1_perm l l' : l ≡ₚ l' -> inj1 l -> inj1 l'.
Proof. intros Hp Hi p q k Hk. apply (Hi p q k). by rewrite Hp. Qed.

Lemma inj2_perm l l' : l ≡ₚ l' -> inj2 l -> inj2 l'.
Proof. intros Hp Hi p q k Hk. apply (Hi p q k). by rewrite Hp. Qed.

(** In a list of pairs with different second keys, the pair of a second key. *)
Lemma inj2_same l l' p q l2 : inj2 l -> l ≡ₚ p :: l' -> l ≡ₚ q :: l2 -> comp2 p.2 q.2 = 0 -> p = q /\ l' ≡ₚ l2.
Proof.
  intros Hi Hp Hq Hc. assert (Hin : q ∈ p :: l') by (rewrite <- Hp, Hq; by left).
  apply elem_of_cons in Hin as [->|Hin].
  - split; [done|]. apply (Permutation_cons_inv (a:=p)). by rewrite <- Hp, Hq.
  - exfalso. apply elem_of_Permutation in Hin as (k & Hk). apply (Hi p q k); [|done]. by rewrite Hp, Hk.
Qed.

Lemma inj1_same l l' p q l2 : inj1 l -> l ≡ₚ p :: l' -> l ≡ₚ q :: l2 -> comp1 p.1 q.1 = 0 -> p = q /\ l' ≡ₚ l2.
Proof.
  intros Hi Hp Hq Hc. assert (Hin : q ∈ p :: l') by (rewrite <- Hp, Hq; by left).
  apply elem_of_cons in Hin as [->|Hin].
  - split; [done|]. apply (Permutation_cons_inv (a:=p)). by rewrite <- Hp, Hq.
  - exfalso. apply elem_of_Permutation in Hin as (k & Hk). apply (Hi p q k); [|done]. by rewrite Hp, Hk.
Qed.

Lemma zlen_perm {A} (l l' : list A) : l ≡ₚ l' -> zlen l = zlen l'.
Proof. intros H. unfold zlen. by rewrite H. Qed.

Lemma bi_init_ok sz1 sz2 ff1 ff2 : 0 < sz1 -> 0 < sz2 ->
  exists m, bi_map_init sz1 sz2 ff1 ff2 = Ok m /\ bi_is sz1 sz2 ff1 ff2 m [].
Proof.
  intros H1 H2. unfold bi_map_init. rewrite !(proj2 (Z.ltb_lt _ _)) by done. simpl.
  destruct (al_init (AssocLaws:=LL) sz1 ff1 H1) as (l & -> & ? & ? & ?). simpl.
  destruct (al_init (AssocLaws:=LR) sz2 ff2 H2) as (r & -> & ? & ? & ?). simpl.
  eexists. split; [done|]. split; simpl; eauto.
Qed.

Lemma bi_size_ok sz1 sz2 ff1 ff2 m l : bi_is sz1 sz2 ff1 ff2 m l -> bi_map_size m = Ok (zlen l).
Proof.
  intros [(ll & Hl & Hpl) (rr & Hr & Hpr) _ _ _ _]. unfold bi_map_size.
  rewrite (al_size _ _ Hl), (al_size _ _ Hr). pose proof (zlen_perm _ _ Hpl). pose proof (zlen_perm _ _ Hpr) as Hz.
  unfold zlen in *. rewrite length_map in Hz. rewrite (proj2 (Z.eqb_eq _ _)) by lia. simpl. f_equal. lia.
Qed.

Lemma bi_insert_ok sz1 sz2 ff1 ff2 m l k1 k2 : bi_is sz1 sz2 ff1 ff2 m l -> 0 < sz1 -> 0 < sz2 -> zlen l + 1 < 2 ^ 64 ->
  exists m', bi_map_insert m k1 sz1 k2 sz2 = Ok m' /\ bi_is sz1 sz2 ff1 ff2 m' ((k1, k2) :: l).
Proof.
  intros [(ll & Hl & Hpl) (rr & Hr & Hpr) <- <- <- <-] H1 H2 Hlen. unfold bi_map_insert.
  rewrite !(proj2 (Z.ltb_lt _ _)) by done. simpl.
  pose proof (zlen_perm _ _ Hpl). pose proof (zlen_perm _ _ Hpr) as Hz. unfold zlen in *. rewrite length_map in Hz.
  rewrite (comp_refl comp2). simpl.
  destruct (al_insert (bm_left m) ll k1 k2 Hl ltac:(unfold zlen; lia)) as (l' & -> & Hl' & ? & ?). simpl.
  rewrite (comp_refl comp1). simpl.
  destruct (al_insert (bm_right m) rr k2 k1 Hr ltac:(unfold zlen; lia)) as (r' & -> & Hr' & ? & ?). simpl.
  eexists. split; [done|]. split; simpl; try done.
  - eexists. split; [exact Hl'|]. by rewrite kv_insert_perm, Hpl.
  - eexists. split; [exact Hr'|]. rewrite kv_insert_perm. simpl. by rewrite Hpr.
Qed.

Lemma bi_extract_left_ok sz1 sz2 ff1 ff2 m l key : bi_is sz1 sz2 ff1 ff2 m l -> inj2 l -> has comp1 l key ->
  exists m' k1 k2 l', bi_map_extract_left m key sz1 = Ok (m', k2, k1) /\ l ≡ₚ (k1, k2) :: l' /\ comp1 key k1 = 0 /\
    bi_is sz1 sz2 ff1 ff2 m' l'.
Proof.
  intros [(ll & Hl & Hpl) (rr & Hr & Hpr) <- <- <- <-] Hi Hh. unfold bi_map_extract_left. rewrite Z.eqb_refl. simpl.
  destruct (al_extract (bm_left m) ll key Hl) as (tl & l1 & k1 & k2 & l2 & -> & -> & Hk & Hl' & Hs1 & Hf1); [by eapply has_perm|]. simpl.
  rewrite <- Permutation_middle in Hpl.
  assert (Hh2 : has comp2 rr k2).
  { apply has_elem. exists k2, k1. split; [|apply comp_refl; apply _].
    assert (Hin : (k1, k2) ∈ map swap_kv rr) by (rewrite Hpr, <- Hpl; by left).
    apply list_elem_of_fmap in Hin as ([a b] & [= -> ->] & ?). done. }
  destruct (al_extract (bm_right m) rr k2 Hr Hh2) as (tr & r1 & k2' & k1' & r2 & -> & -> & Hk2 & Hr' & Hs2 & Hf2). simpl.
  rewrite map_app in Hpr. simpl in Hpr. rewrite <- Permutation_middle in Hpr. unfold swap_kv at 1 in Hpr. simpl in Hpr.
  destruct (inj2_same l (l1 ++ l2) (k1, k2) (k1', k2') (map swap_kv r1 ++ map swap_kv r2)) as [[= <- <-] Hp]; [done|by symmetry|by symmetry|done|].
  rewrite Hk. simpl. rewrite (al_size _ _ Hl'), (al_size _ _ Hr').
  assert (Hz : zlen (l1 ++ l2) = zlen (r1 ++ r2)) by (rewrite (zlen_perm _ _ Hp), <- map_app; unfold zlen; by rewrite length_map).
  rewrite Hz, Z.eqb_refl. simpl. eexists _, k1, k2, (l1 ++ l2). split; [done|]. split; [by symmetry|]. split; [done|].
  split; simpl; try done; [by eexists|]. eexists. split; [exact Hr'|]. by rewrite map_app, Hp.
Qed.

Lemma bi_extract_right_ok sz1 sz2 ff1 m l key : bi_is sz1 sz2 ff1 true m l -> inj1 l -> has comp2 (map swap_kv l) key ->
  exists m' k1 k2 l', bi_map_extract_right m key sz2 = Ok (m', k1, k2) /\ l ≡ₚ (k1, k2) :: l' /\ comp2 key k2 = 0 /\
    bi_is sz1 sz2 ff1 true m' l'.
Proof.
  intros [(ll & Hl & Hpl) (rr & Hr & Hpr) <- <- <- Hff] Hi Hh. unfold bi_map_extract_right. rewrite Z.eqb_refl. simpl.
  destruct (al_extract (bm_right m) rr key Hr) as (tr & r1 & k2 & k1 & r2 & -> & -> & Hk & Hr' & Hs2 & Hf2).
  { eapply has_perm, Hh. rewrite <- Hpr, map_map. by rewrite (map_ext _ id), map_id by (by intros []). }
  simpl. rewrite map_app in Hpr. simpl in Hpr. rewrite <- Permutation_middle in Hpr. unfold swap_kv at 1 in Hpr. simpl in Hpr.
  assert (Hh1 : has comp1 ll k1).
  { apply has_elem. exists k1, k2. split; [rewrite Hpl, <- Hpr; by left|apply comp_refl; apply _]. }
  destruct (al_extract (bm_left m) ll k1 Hl Hh1) as (tl & l1 & k1' & k2' & l2 & -> & -> & Hk1 & Hl' & Hs1 & Hf1). simpl.
  rewrite <- Permutation_middle in Hpl.
  destruct (inj1_same l (map swap_kv r1 ++ map swap_kv r2) (k1, k2) (k1', k2') (l1 ++ l2)) as [[= <- <-] Hp]; [done|by symmetry|by symmetry|done|].
  rewrite Hk. simpl. rewrite Hf2, Hff. simpl. rewrite (al_size _ _ Hl'), (al_size _ _ Hr').
  assert (Hz : zlen (l1 ++ l2) = zlen (r1 ++ r2)) by (rewrite <- (zlen_perm _ _ Hp), <- map_app; unfold zlen; by rewrite length_map).
  rewrite Hz, Z.eqb_refl. simpl. eexists _, k1, k2, (l1 ++ l2). split; [done|]. split; [by symmetry|]. split; [done|].
  split; simpl; try done; [by eexists| |congruence]. eexists. split; [exact Hr'|]. by rewrite map_app, Hp.
Qed.

Lemma bi_extract_left_missing sz1 sz2 ff1 ff2 m l key : bi_is sz1 sz2 ff1 ff2 m l -> ~ has comp1 l key ->
  bi_map_extract_left m key sz1 = Fail FExit.
Proof.
  intros [(ll & Hl & Hpl) _ <- _ _ _] Hn. unfold bi_map_extract_left. rewrite Z.eqb_refl. simpl.
  rewrite (al_missing _ _ _ Hl); [done|]. intros Hh. apply Hn. by eapply has_perm.
Qed.

Lemma bi_extract_right_missing sz1 sz2 ff1 ff2 m l key : bi_is sz1 sz2 ff1 ff2 m l -> ~ has comp2 (map swap_kv l) key ->
  bi_map_extract_right m key sz2 = Fail FExit.
Proof.
  intros [_ (rr & Hr & Hpr) _ <- _ _] Hn. unfold bi_map_extract_right. rewrite Z.eqb_refl. simpl.
  rewrite (al_missing _ _ _ Hr); [done|]. intros Hh. apply Hn. eapply has_perm, Hh.
  rewrite <- Hpr, map_map. by rewrite (map_ext _ id), map_id by (by intros []).
Qed.

Lemma bi_free_ok sz1 sz2 ff1 ff2 m l : bi_is sz1 sz2 ff1 ff2 m l ->
  exists m' evl evr, bi_map_free m = Ok (m', evl, evr) /\
    evl ≡ₚ (if ff1 then map (fun p => (Some p.1, Some p.2)) l else []) /\
    evr ≡ₚ (if ff2 then map (fun p => (Some p.2, Some p.1)) l else []).
Proof.
  intros [(ll & Hl & Hpl) (rr & Hr & Hpr) _ _ <- <-]. unfold bi_map_free.
  destruct (al_free _ _ Hl) as (l' & evl & -> & He1). simpl. destruct (al_free _ _ Hr) as (r' & evr & -> & He2). simpl.
  eexists _, evl, evr. split; [done|]. rewrite He1, He2. split; case_bool_; [by rewrite Hpl|done| |done].
  rewrite <- Hpr, map_map. done.
Qed.

(** ** A finite bijection *)

Inductive bi_op := BiInsert (k1 : K1) (k2 : K2) | BiExtractLeft (k1 : K1) | BiExtractRight (k2 : K2) | BiSize.
Inductive bi_out := BoDone | BoPair (k1 : K1) (k2 : K2) | BoSize (n : Z).

(** The client gives the sizes of its keys. *)
Definition bi_step (sz1 sz2 : Z) m (op : bi_op) : res (bi_map * bi_out) :=
  match op with
  | BiInsert k1 k2 => let* m := bi_map_insert m k1 sz1 k2 sz2 in Ok (m, BoDone)
  | BiExtractLeft k => let* (m, k2, k1) := bi_map_extract_left m k sz1 in Ok (m, BoPair k1 k2)
  | BiExtractRight k => let* (m, k1, k2) := bi_map_extract_right m k sz2 in Ok (m, BoPair k1 k2)
  | BiSize => let* n := bi_map_size m in Ok (m, BoSize n)
  end.

Fixpoint bi_run (sz1 sz2 : Z) m (ops : list bi_op) : list bi_out * res bi_map :=
  match ops with
  | [] => ([], Ok m)
  | op :: ops' =>
      match bi_step sz1 sz2 m op with
      | Fail f => ([], Fail f)
      | Ok (m', o) => let (os, r) := bi_run sz1 sz2 m' ops' in (o :: os, r)
      end
  end.

(** The first pair that [f] accepts, and the rest. *)
Fixpoint take_out (f : K1 * K2 -> bool) l : option (K1 * K2 * list (K1 * K2)) :=
  match l with
  | [] => None
  | p :: l' => if f p then Some (p, l') else match take_out f l' with Some (q, l2) => Some (q, p :: l2) | None => None end
  end.

(** The specification: a pair is looked up from either side.  [SAbort]: the key
    is in no pair; [SOutside]: the new pair would share a key with another. *)
Inductive bij_res (A : Type) := SOk (a : A) | SAbort | SOutside.
Arguments SOk {A}.
Arguments SAbort {A}.
Arguments SOutside {A}.

Definition bij_step l (op : bi_op) : bij_res (list (K1 * K2) * bi_out) :=
  match op with
  | BiInsert k1 k2 =>
      if decide (has comp1 l k1 \/ has comp2 (map swap_kv l) k2) then SOutside else SOk ((k1, k2) :: l, BoDone)
  | BiExtractLeft k =>
      match take_out (fun p => comp1 k p.1 =? 0) l with Some (p, l') => SOk (l', BoPair p.1 p.2) | None => SAbort end
  | BiExtractRight k =>
      match take_out (fun p => comp2 k p.2 =? 0) l with Some (p, l') => SOk (l', BoPair p.1 p.2) | None => SAbort end
  | BiSize => SOk (l, BoSize (zlen l))
  end.

Fixpoint bij_run l (ops : list bi_op) : list bi_out * bij_res (list (K1 * K2)) :=
  match ops with
  | [] => ([], SOk l)
  | op :: ops' =>
      match bij_step l op with
      | SOk (l', o) => let (os, r) := bij_run l' ops' in (o :: os, r)
      | SAbort => ([], SAbort)
      | SOutside => ([], SOutside)
      end
  end.

Lemma take_out_some f l p l' : take_out f l = Some (p, l') -> l ≡ₚ p :: l' /\ f p = true.
Proof.
  revert l'. induction l as [|q l IH]; intros l' H; simpl in H; [done|].
  destruct (f q) eqn:Hf; [by injection H as <- <-|].
  destruct (take_out f l) as [[q' l2]|]; [|done]. injection H as <- <-.
  destruct (IH l2 eq_refl) as [Hp Hq]. split; [|done]. rewrite Hp. apply Permutation_swap.
Qed.

Lemma take_out_none f l : take_out f l = None -> Forall (fun p => f p = false) l.
Proof.
  induction l as [|q l IH]; simpl; intros H; [constructor|].
  destruct (f q) eqn:Hf; [done|]. destruct (take_out f l) as [[]|]; [done|]. constructor; [done|by apply IH].
Qed.

Lemma inj_cons k1 k2 l : inj1 l -> inj2 l -> ~ has comp1 l k1 -> ~ has comp2 (map swap_kv l) k2 -> inj1 ((k1, k2) :: l) /\ inj2 ((k1, k2) :: l).
Proof.
  intros H1 H2 Hn1 Hn2.
  assert (Hgen : forall p q l', (k1, k2) :: l ≡ₚ p :: q :: l' ->
    (p = (k1, k2) /\ q ∈ l) \/ (q = (k1, k2) /\ p ∈ l) \/ exists l2, l ≡ₚ p :: q :: l2).
  { intros p q l' Hp. assert (Hin : (k1, k2) ∈ p :: q :: l') by (rewrite <- Hp; by left).
    apply elem_of_cons in Hin as [<-|Hin]; [left|].
    { apply Permutation_cons_inv in Hp. split; [done|]. rewrite Hp. by left. }
    apply elem_of_cons in Hin as [<-|Hin]; [right; left|right; right].
    { rewrite Permutation_swap in Hp. apply Permutation_cons_inv in Hp. split; [done|]. rewrite Hp. by left. }
    apply elem_of_Permutation in Hin as (l2 & Hl2). exists l2. apply (Permutation_cons_inv (a:=(k1, k2))). rewrite Hp, Hl2. solve_Permutation. }
  split; intros p q l' Hp Hc; destruct (Hgen p q l' Hp) as [[-> Hq]|[[-> Hq]|(l2 & Hl2)]].
  - apply Hn1, has_elem. destruct q as [a b]. by exists a, b.
  - apply Hn1, has_elem. destruct p as [a b]. exists a, b. split; [done|]. by apply comp_0_sym; [apply _|].
  - by apply (H1 p q l2).
  - apply Hn2, has_elem. destruct q as [a b]. exists b, a. split; [|done]. by apply (list_elem_of_fmap_2 swap_kv l (a, b)).
  - apply Hn2, has_elem. destruct p as [a b]. exists b, a. split; [by apply (list_elem_of_fmap_2 swap_kv l (a, b))|]. by apply comp_0_sym; [apply _|].
  - by apply (H2 p q l2).
Qed.

Lemma inj_rest p l l' : l ≡ₚ p :: l' -> inj1 l -> inj2 l -> inj1 l' /\ inj2 l'.
Proof.
  intros Hp H1 H2. split; intros a b k Hk.
  - apply (H1 a b (p :: k)). rewrite Hp, Hk. solve_Permutation.
  - apply (H2 a b (p :: k)). rewrite Hp, Hk. solve_Permutation.
Qed.

(** The state of a map that a client uses as a bijection. *)
Definition bij_is sz1 sz2 ff1 m l : Prop := bi_is sz1 sz2 ff1 true m l /\ inj1 l /\ inj2 l.

Lemma bij_fresh sz1 sz2 ff1 m : bi_is sz1 sz2 ff1 true m [] -> bij_is sz1 sz2 ff1 m [].
Proof. intros H. split; [done|]. by split; intros p q l Hq; apply Permutation_nil_cons in Hq. Qed.

Lemma bij_extract_left sz1 sz2 ff1 m l k : bij_is sz1 sz2 ff1 m l ->
  match take_out (fun p => comp1 k p.1 =? 0) l with
  | Some (p, l') => exists m', bi_map_extract_left m k sz1 = Ok (m', p.2, p.1) /\ bij_is sz1 sz2 ff1 m' l' /\ zlen l' <= zlen l
  | None => bi_map_extract_left m k sz1 = Fail FExit
  end.
Proof.
  intros (H & H1 & H2). destruct (take_out _ l) as [[p l']|] eqn:Ht.
  - apply take_out_some in Ht as [Hp Hc]. apply Z.eqb_eq in Hc. rewrite (zlen_perm _ _ Hp), zlen_cons.
    destruct (bi_extract_left_ok sz1 sz2 ff1 true m l k H H2) as (m' & k1 & k2 & l2 & He & Hl2 & Hk & H').
    { eapply has_perm; [symmetry; exact Hp|]. by left. }
    destruct (inj1_same l l' p (k1, k2) l2 H1 Hp Hl2) as [-> Hl].
    { apply (comp_0_trans comp1 _ k); [by apply comp_0_sym; [apply _|]|done]. }
    exists m'. split; [done|]. split; [|lia]. destruct (inj_rest (k1, k2) l l' Hp H1 H2). split; [|done].
    destruct H' as [(ll & ? & Hll) (rr & ? & Hrr) ? ? ? ?]. split; try done; eexists; (split; [done|]); by rewrite Hl.
  - apply take_out_none in Ht. apply (bi_extract_left_missing sz1 sz2 ff1 true m l k H). intros (p & Hp & Hc)%Exists_exists.
    rewrite Forall_forall in Ht. specialize (Ht p Hp). simpl in Ht. by rewrite Hc in Ht.
Qed.

Lemma bij_extract_right sz1 sz2 ff1 m l k : bij_is sz1 sz2 ff1 m l ->
  match take_out (fun p => comp2 k p.2 =? 0) l with
  | Some (p, l') => exists m', bi_map_extract_right m k sz2 = Ok (m', p.1, p.2) /\ bij_is sz1 sz2 ff1 m' l' /\ zlen l' <= zlen l
  | None => bi_map_extract_right m k sz2 = Fail FExit
  end.
Proof.
  intros (H & H1 & H2). destruct (take_out _ l) as [[p l']|] eqn:Ht.
  - apply take_out_some in Ht as [Hp Hc]. apply Z.eqb_eq in Hc. rewrite (zlen_perm _ _ Hp), zlen_cons.
    destruct (bi_extract_right_ok sz1 sz2 ff1 m l k H H1) as (m' & k1 & k2 & l2 & He & Hl2 & Hk & H').
    { eapply has_perm; [by rewrite Hp|]. by left. }
    destruct (inj2_same l l' p (k1, k2) l2 H2 Hp Hl2) as [-> Hl].
    { apply (comp_0_trans comp2 _ k); [by apply comp_0_sym; [apply _|]|done]. }
    exists m'. split; [done|]. split; [|lia]. destruct (inj_rest (k1, k2) l l' Hp H1 H2). split; [|done].
    destruct H' as [(ll & ? & Hll) (rr & ? & Hrr) ? ? ? ?]. split; try done; eexists; (split; [done|]); by rewrite Hl.
  - apply take_out_none in Ht. apply (bi_extract_right_missing sz1 sz2 ff1 true m l k H). intros (p & Hp & Hc)%Exists_exists.
    apply list_elem_of_fmap in Hp as (q & -> & Hq). rewrite Forall_forall in Ht. specialize (Ht q Hq). simpl in Ht, Hc. by rewrite Hc in Ht.
Qed.

Lemma bij_perm sz1 sz2 ff1 m l l' : l ≡ₚ l' -> bij_is sz1 sz2 ff1 m l -> bij_is sz1 sz2 ff1 m l'.
Proof.
  intros Hp ([(ll & ? & Hll) (rr & ? & Hrr) ? ? ? ?] & H1 & H2). split; [|split; [by eapply inj1_perm|by eapply inj2_perm]].
  split; try done; eexists; (split; [done|]); by rewrite <- Hp.
Qed.

Lemma inj1_elem l p q : inj1 l -> p ∈ l -> q ∈ l -> comp1 p.1 q.1 = 0 -> p = q.
Proof.
  intros Hi (lp & Hp)%elem_of_Permutation (lq & Hq)%elem_of_Permutation Hc. by destruct (inj1_same l lp p q lq Hi Hp Hq Hc).
Qed.

Lemma inj2_elem l p q : inj2 l -> p ∈ l -> q ∈ l -> comp2 p.2 q.2 = 0 -> p = q.
Proof.
  intros Hi (lp & Hp)%elem_of_Permutation (lq & Hq)%elem_of_Permutation Hc. by destruct (inj2_same l lp p q lq Hi Hp Hq Hc).
Qed.

Lemma bij_insert sz1 sz2 ff1 m l k1 k2 : bij_is sz1 sz2 ff1 m l -> 0 < sz1 -> 0 < sz2 -> zlen l + 1 < 2 ^ 64 ->
  Forall (fun p => comp1 k1 p.1 <> 0) l -> Forall (fun p => comp2 k2 p.2 <> 0) l ->
  exists m', bi_map_insert m k1 sz1 k2 sz2 = Ok m' /\ bij_is sz1 sz2 ff1 m' ((k1, k2) :: l).
Proof.
  intros (H & H1 & H2) Hs1 Hs2 Hl Hn1 Hn2.
  destruct (bi_insert_ok sz1 sz2 ff1 true m l k1 k2 H Hs1 Hs2 Hl) as (m' & Hi & H'). exists m'. split; [done|]. split; [done|].
  apply inj_cons; [done|done| |].
  - intros (p & Hp & Hc)%Exists_exists. rewrite Forall_forall in Hn1. by apply (Hn1 p).
  - intros (p & Hp & Hc)%Exists_exists. apply list_elem_of_fmap in Hp as (q & -> & Hq). rewrite Forall_forall in Hn2. by apply (Hn2 q).
Qed.

(** A step of the map against a step of the bijection. *)
Lemma bij_step_ok sz1 sz2 ff1 m l op : bij_is sz1 sz2 ff1 m l -> 0 < sz1 -> 0 < sz2 -> zlen l + 1 < 2 ^ 64 ->
  match bij_step l op with
  | SOk (l', o) => exists m', bi_step sz1 sz2 m op = Ok (m', o) /\ bij_is sz1 sz2 ff1 m' l' /\ zlen l' <= zlen l + 1
  | SAbort => bi_step sz1 sz2 m op = Fail FExit
  | SOutside => True
  end.
Proof.
  intros H Hs1 Hs2 Hl. destruct op as [k1 k2|k|k|]; simpl.
  - case_decide as Hd; [done|]. destruct H as (H & H1 & H2).
    destruct (bi_insert_ok sz1 sz2 ff1 true m l k1 k2 H Hs1 Hs2 Hl) as (m' & -> & H').
    exists m'. split; [done|]. rewrite zlen_cons. split; [|lia]. split; [done|]. apply inj_cons; naive_solver.
  - pose proof (bij_extract_left sz1 sz2 ff1 m l k H) as He. destruct (take_out _ l) as [[p l']|]; [|by rewrite He].
    destruct He as (m' & -> & H' & Hz). exists m'. split; [done|]. split; [done|lia].
  - pose proof (bij_extract_right sz1 sz2 ff1 m l k H) as He. destruct (take_out _ l) as [[p l']|]; [|by rewrite He].
    destruct He as (m' & -> & H' & Hz). exists m'. split; [done|]. split; [done|lia].
  - exists m. rewrite (bi_size_ok sz1 sz2 ff1 true m l) by apply H. split; [done|]. split; [done|lia].
Qed.

Lemma bij_run_ok sz1 sz2 ff1 ops : 0 < sz1 -> 0 < sz2 -> forall m l, bij_is sz1 sz2 ff1 m l -> zlen l + zlen ops < 2 ^ 64 ->
  let (outs, e) := bij_run l ops in
  match e with
  | SOk l' => exists m', bi_run sz1 sz2 m ops = (outs, Ok m') /\ bij_is sz1 sz2 ff1 m' l'
  | SAbort => bi_run sz1 sz2 m ops = (outs, Fail FExit)
  | SOutside => outs `prefix_of` (bi_run sz1 sz2 m ops).1
  end.
Proof.
  intros Hs1 Hs2. induction ops as [|op ops IH]; intros m l H Hl; simpl; [by exists m|].
  rewrite zlen_cons in Hl. pose proof (zlen_nonneg ops).
  pose proof (bij_step_ok sz1 sz2 ff1 m l op H Hs1 Hs2 ltac:(lia)) as Hst. destruct (bij_step l op) as [[l' o]| |].
  - destruct Hst as (m' & -> & H' & Hz). pose proof (IH m' l' H' ltac:(lia)) as Hr. destruct (bij_run l' ops) as [outs e].
    destruct e as [l2| |].
    + destruct Hr as (m2 & -> & H2). by exists m2.
    + by rewrite Hr.
    + destruct (bi_run sz1 sz2 m' ops). simpl in *. by apply prefix_cons.
  - by rewrite Hst.
  - apply prefix_nil.
Qed.

End Pairs.
Arguments SOk {A}.
Arguments SAbort {A}.
Arguments SOutside {A}.

(** C26. The bidirectional map is a finite bijection: a pair is taken out by either
    of its keys, and is then gone from both sides.  As long as no insertion
    reuses a key of a pair that is in the map, the map gives what the list of
    pairs gives; an extraction aborts exactly when no pair has the key.  At the
    end of a run both trees hold the same pairs, and [bi_map_free] hands every
    pair to the functions of both sides. *)
Theorem bi_map_refines_bijection {K1 K2} (comp1 : K1 -> K1 -> Z) (comp2 : K2 -> K2 -> Z) `{!Comparison comp1} `{!Comparison comp2}
    sz1 sz2 (ops : list (bi_op (K1:=K1) (K2:=K2))) :
  let A1 := rb_assoc (V:=K2) comp1 in
  let A2 := rb_assoc (V:=K1) comp2 in
  let L1 := rb_assoc_laws (V:=K2) comp1 in
  let L2 := rb_assoc_laws (V:=K1) comp2 in
  0 < sz1 -> 0 < sz2 -> zlen ops < 2 ^ 64 ->
  exists m0, bi_map_init sz1 sz2 true true = Ok m0 /\
    let (outs, e) := bij_run [] ops in
    match e with
    | SOk l => exists m, bi_run sz1 sz2 m0 ops = (outs, Ok m) /\ bij_is sz1 sz2 true m l /\
        exists m' evl evr, bi_map_free m = Ok (m', evl, evr) /\
          evl ≡ₚ map (fun p => (Some p.1, Some p.2)) l /\ evr ≡ₚ map (fun p => (Some p.2, Some p.1)) l
    | SAbort => bi_run sz1 sz2 m0 ops = (outs, Fail FExit)
    | SOutside => outs `prefix_of` (bi_run sz1 sz2 m0 ops).1
    end.
Proof.
  intros A1 A2 L1 L2 H1 H2 Hl.
  destruct (bi_init_ok (AL:=A1) (AR:=A2) (LL:=L1) (LR:=L2) sz1 sz2 true true H1 H2) as (m0 & H0 & Hm). exists m0. split; [done|].
  pose proof (bij_run_ok (AL:=A1) (AR:=A2) (LL:=L1) (LR:=L2) sz1 sz2 true ops H1 H2 m0 [] (bij_fresh sz1 sz2 true m0 Hm) ltac:(rewrite zlen_nil; lia)) as Hr.
  destruct (bij_run [] ops) as [outs e]. destruct e as [l| |]; [|done|done].
  destruct Hr as (m & Hrun & Hb). exists m. split; [done|]. split; [done|].
  by apply (bi_free_ok _ _ _ _ _ _ (proj1 Hb)).
Qed.

(** Descriptors of timers and the events they are for, as [pending] of the E2
    agent has them. *)
Definition ex_bi_ops : list (bi_op (K1:=Z) (K2:=pending_event_t)) :=
  [BiInsert 5 SETUP_REQUEST_PENDING_EVENT; BiInsert 9 CONTROL_REQUEST_PENDING_EVENT; BiInsert 7 SUBSCRIPTION_REQUEST_PENDING_EVENT; BiSize;
   BiExtractRight CONTROL_REQUEST_PENDING_EVENT; BiExtractLeft 5; BiSize].

Lemma bi_map_refines_bijection_witness :
  0 < 4 /\ zlen ex_bi_ops < 2 ^ 64 /\
  exists m0 m outs, bi_map_init (AL:=rb_assoc cmp_fd) (AR:=rb_assoc cmp_pending_event) 4 4 true true = Ok m0 /\
    bi_run (AL:=rb_assoc cmp_fd) (AR:=rb_assoc cmp_pending_event) 4 4 m0 ex_bi_ops = (outs, Ok m) /\
    bij_is (LL:=rb_assoc_laws cmp_fd) (LR:=rb_assoc_laws cmp_pending_event) 4 4 true m [(7, SUBSCRIPTION_REQUEST_PENDING_EVENT)].
Proof.
  split; [lia|]. split; [reflexivity|].
  destruct (bi_map_refines_bijection cmp_fd cmp_pending_event 4 4 ex_bi_ops ltac:(lia) ltac:(lia) ltac:(reflexivity)) as (m0 & H0 & H).
  destruct (bij_run [] ex_bi_ops) as [outs e] eqn:E. vm_compute in E. injection E as E1 E2. subst e.
  destruct H as (m & Hr & Hb & _). exists m0, m, outs. exact (conj H0 (conj Hr Hb)).
Defined.
