(* ===== verification/RicMap.v ===== *)
(** The registries of the iApp of flexric: which request of which xApp is behind
    a request to an E2 node (ric/iApp/map_ric_id.c), and at which address an xApp
    is (ric/iApp/map_xapps_sockaddr.c).  Both are bidirectional maps.

    A lock is held for the whole of an operation, so an operation is one step.
    The sizes of the keys are those of the structures on a 64-bit machine. *)

From S2P Require Import Prelude Assoc Compare RbTree RbSpec BiMap.

(** [find_if] from front to end, as the clients call it; every element is visited
    at most once, so the size of the container is enough fuel. *)
Definition find_first {K V T} `{A : Assoc K V T} (t : T) (f : K -> bool) : res nat :=
  let* it := assoc_front t in
  find_if_rb_tree (Z.to_nat (assoc_size t)) t it (assoc_end t) f.

Lemma find_first_ok {K V T} `{A : Assoc K V T} `{!AssocLaws K V T} (t : T) l f : al_holds t l ->
  (find_first t f = Ok (assoc_end t) /\ Forall (fun e => f e.1 = false) l) \/
  exists l1 k v l2 it, find_first t f = Ok it /\ l = l1 ++ (k, v) :: l2 /\ Forall (fun e => f e.1 = false) l1 /\ f k = true /\
    walks t it ((k, v) :: l2).
Proof.
  intros H. destruct (al_front t l H) as (it & Hit & Hw). unfold find_first. rewrite Hit. simpl.
  apply find_if_ok; [done|]. rewrite (al_size t l H). unfold zlen. lia.
Qed.

(** ** Requests *)

#[global] Instance node_assoc : Assoc e2_node_ric_id_t xapp_ric_id_t _ := rb_assoc cmp_e2_node_ric_req_wrapper.
#[global] Instance xapp_assoc : Assoc xapp_ric_id_t e2_node_ric_id_t _ := rb_assoc cmp_xapp_ric_gen_id.
#[global] Instance node_laws : AssocLaws e2_node_ric_id_t xapp_ric_id_t _ := rb_assoc_laws cmp_e2_node_ric_req_wrapper.
#[global] Instance xapp_laws : AssocLaws xapp_ric_id_t e2_node_ric_id_t _ := rb_assoc_laws cmp_xapp_ric_gen_id.

Definition map_ric_id_t := bi_map_t (assoc_rb_tree_t e2_node_ric_id_t xapp_ric_id_t) (assoc_rb_tree_t xapp_ric_id_t e2_node_ric_id_t).

(** sizeof(e2_node_ric_id_t) and sizeof(xapp_ric_id_t). *)
Definition e2_node_ric_id_sz : Z := 48.
Definition xapp_ric_id_sz : Z := 12.

Definition init_map_ric_id : res map_ric_id_t := bi_map_init e2_node_ric_id_sz xapp_ric_id_sz true true.

Definition free_map_ric_id (map : map_ric_id_t) :
    res (map_ric_id_t * list (option e2_node_ric_id_t * option xapp_ric_id_t) * list (option xapp_ric_id_t * option e2_node_ric_id_t)) :=
  bi_map_free map.

Definition add_map_ric_id (map : map_ric_id_t) (node : e2_node_ric_id_t) (x : xapp_ric_id_t) : res map_ric_id_t :=
  let left := bm_left map in
  let* it := find_first left (eq_e2_node_ric_req node) in
  let* _ := assert_ (it =? assoc_end left)%nat in
  bi_map_insert map node e2_node_ric_id_sz x xapp_ric_id_sz.

(** Also gives the node of the request, which is released. *)
Definition rm_map_ric_id (map : map_ric_id_t) (ric_id : xapp_ric_id_t) : res (map_ric_id_t * e2_node_ric_id_t) :=
  let* (map, n, _) := bi_map_extract_right map ric_id xapp_ric_id_sz in
  Ok (map, n).

(** The node with the given [ric_req_id] and zeros that is searched for. *)
Definition dummy_node (req_id : Z) : e2_node_ric_id_t :=
  mk_e2_node_ric_id (mk_global_e2_node_id ngran_eNB (mk_e2ap_plmn 0 0 0) (mk_e2ap_gnb_id 0 0) None)
    (mk_ric_gen_id req_id 0 0) SUBSCRIPTION_RIC_REQUEST_TYPE.

(** [None] is [has_value = false]. *)
Definition find_xapp_map_ric_id (map : map_ric_id_t) (req_id : Z) : res (option xapp_ric_id_t) :=
  let* _ := assert_ (0 <? req_id) in
  let left := bm_left map in
  let* it := find_first left (eq_e2_node_ric_req (dummy_node req_id)) in
  if (it =? assoc_end left)%nat then Ok None
  else
    let* ov := assoc_value left it in
    let* v := of_opt FBounds ov in
    Ok (Some v).

Definition find_ric_req_map_ric_id (map : map_ric_id_t) (x : xapp_ric_id_t) : res e2_node_ric_id_t :=
  let r := bm_right map in
  let* it := find_first r (eq_xapp_ric_gen_id x) in
  let* _ := assert_ (negb (it =? assoc_end r)%nat) in
  let* ov := assoc_value r it in
  of_opt FBounds ov.

Definition cp_global_e2_node_id (src : global_e2_node_id_t) : global_e2_node_id_t :=
  mk_global_e2_node_id (ge_type src)
    (mk_e2ap_plmn (mcc (ge_plmn src)) (mnc (ge_plmn src)) (mnc_digit_len (ge_plmn src))) (ge_nb_id src)
    match ge_cu_du_id src with Some id => Some id | None => None end.

Definition cp_e2_node_ric_id (src : e2_node_ric_id_t) : e2_node_ric_id_t :=
  mk_e2_node_ric_id (cp_global_e2_node_id (en_e2_node_id src)) (en_ric_id src) (en_ric_req_type src).

(** The loop of [find_all_subs_map_ric_id]; the array it fills is a list. *)
Fixpoint find_all_loop (fuel : nat) (right : assoc_rb_tree_t xapp_ric_id_t e2_node_ric_id_t) (it : nat) (first : xapp_ric_id_t)
    : res (list e2_node_ric_id_t) :=
  if (it =? assoc_end right)%nat then Ok []
  else match fuel with
       | O => Fail FFuel
       | S fuel' =>
           let* ov := assoc_value right it in
           let* n := of_opt FBounds ov in
           let* it := assoc_next right it in
           let* it := find_if_rb_tree (Z.to_nat (assoc_size right)) right it (assoc_end right) (eq_xapp_ric_gen_id2 first) in
           let* arr := find_all_loop fuel' right it first in
           Ok (if bool_decide (en_ric_req_type n = SUBSCRIPTION_RIC_REQUEST_TYPE) then cp_e2_node_ric_id n :: arr else arr)
       end.

Definition find_all_subs_map_ric_id (map : map_ric_id_t) (xapp_id : Z) : res (list e2_node_ric_id_t) :=
  let first_xapp_id := mk_xapp_ric_id (mk_ric_gen_id 0 0 0) xapp_id in
  let right := bm_right map in
  let* it := find_first right (eq_xapp_ric_gen_id2 first_xapp_id) in
  find_all_loop (Z.to_nat (assoc_size right)) right it first_xapp_id.

(** ** Addresses of the xApps *)

Section Xapps.
Context {sri_t : Type}.
Abbreviation sctp_info := (sctp_info_t sri_t).

#[global] Instance xid_assoc : Assoc Z sctp_info _ := rb_assoc cmp_uint16_wrapper.
#[global] Instance sad_assoc : Assoc sctp_info Z _ := rb_assoc cmp_sctp_info_wrapper.
#[global] Instance xid_laws : AssocLaws Z sctp_info _ := rb_assoc_laws cmp_uint16_wrapper.
#[global] Instance sad_laws : AssocLaws sctp_info Z _ := rb_assoc_laws cmp_sctp_info_wrapper.

Definition map_xapps_sockaddr_t := bi_map_t (assoc_rb_tree_t Z sctp_info) (assoc_rb_tree_t sctp_info Z).

(** sizeof(uint16_t) and sizeof(sctp_info_t). *)
Definition xapp_id_sz : Z := 2.
Definition sctp_info_sz : Z := 48.

Definition init_map_xapps_sad : res map_xapps_sockaddr_t := bi_map_init xapp_id_sz sctp_info_sz true true.

Definition free_map_xapps_sad (m : map_xapps_sockaddr_t) :
    res (map_xapps_sockaddr_t * list (option Z * option sctp_info) * list (option sctp_info * option Z)) :=
  bi_map_free m.

Definition add_map_xapps_sad (m : map_xapps_sockaddr_t) (xapp_id : Z) (s : sctp_info) : res map_xapps_sockaddr_t :=
  let tree := bm_left m in
  let* it := find_first tree (eq_uint16_wrapper xapp_id) in
  let* _ := assert_ (it =? assoc_end tree)%nat in
  bi_map_insert m xapp_id xapp_id_sz s sctp_info_sz.

(** "Not tested, it should work". *)
Definition rm_map_xapps_sad (m : map_xapps_sockaddr_t) (xapp_id : Z) : res map_xapps_sockaddr_t :=
  let* _ := assert_ false in
  let* (m, _, _) := bi_map_extract_left m xapp_id xapp_id_sz in
  Ok m.

Definition find_map_xapps_sad (m : map_xapps_sockaddr_t) (xapp_id : Z) : res sctp_info :=
  let tree := bm_left m in
  let* it := find_first tree (eq_uint16_wrapper xapp_id) in
  let* _ := assert_ (negb (it =? assoc_end tree)%nat) in
  let* ov := assoc_value tree it in
  of_opt FBounds ov.

Definition find_map_xapps_xid (m : map_xapps_sockaddr_t) (s : sctp_info) : res Z :=
  let tree := bm_right m in
  let* it := find_first tree (eq_sctp_info_wrapper s) in
  let* _ := assert_ (negb (it =? assoc_end tree)%nat) in
  let* ov := assoc_value tree it in
  of_opt FBounds ov.

End Xapps.
Arguments map_xapps_sockaddr_t : clear implicits.

(** ** What the registry of requests does *)

(** The registry holds the pairs [l]: no two requests to a node share their
    [ric_req_id], no two pairs are of one request of one xApp. *)
Definition ric_map_is (m : map_ric_id_t) (l : list (e2_node_ric_id_t * xapp_ric_id_t)) : Prop :=
  bij_is e2_node_ric_id_sz xapp_ric_id_sz true m l.

(** The number a request has towards the E2 node. *)
Abbreviation node_req n := (ric_req_id (en_ric_id n)).

Lemma eq_e2_node_ric_req_spec n n' : eq_e2_node_ric_req n n' = true <-> cmp_e2_node_ric_req_wrapper n n' = 0.
Proof.
  unfold eq_e2_node_ric_req, cmp_e2_node_ric_req_wrapper, cmp_uint32. rewrite Z.eqb_eq.
  destruct (Z.ltb_spec (node_req n) (node_req n')), (Z.eqb_spec (node_req n) (node_req n')); lia.
Qed.

Lemma cmp_e2_node_0 n n' : cmp_e2_node_ric_req_wrapper n n' = 0 <-> node_req n = node_req n'.
Proof. rewrite <- eq_e2_node_ric_req_spec. apply Z.eqb_eq. Qed.

Lemma cmp_ric_gen_id_0 a b : cmp_ric_gen_id a b = 0 <-> a = b.
Proof.
  split; [|intros ->; apply comp_refl; apply _]. unfold cmp_ric_gen_id. rewrite !Z.gtb_ltb.
  destruct a as [r i f], b as [r' i' f']; simpl. intros H.
  destruct (Z.ltb_spec f f'); [done|]. destruct (Z.ltb_spec f' f); [done|].
  destruct (Z.ltb_spec i i'); [done|]. destruct (Z.ltb_spec i' i); [done|].
  destruct (Z.ltb_spec r r'); [done|]. destruct (Z.ltb_spec r' r); [done|]. f_equal; lia.
Qed.

Lemma cmp_xapp_0 a b : cmp_xapp_ric_gen_id a b = 0 <-> a = b.
Proof.
  split; [|intros ->; apply comp_refl; apply _]. unfold cmp_xapp_ric_gen_id. rewrite Z.gtb_ltb.
  destruct (Z.ltb_spec (xr_xapp_id a) (xr_xapp_id b)); [done|]. destruct (Z.ltb_spec (xr_xapp_id b) (xr_xapp_id a)); [done|].
  rewrite cmp_ric_gen_id_0. destruct a, b; simpl in *. intros ->. f_equal. lia.
Qed.

Lemma eq_ric_gen_id_spec a b : eq_ric_gen_id a b = true <-> a = b.
Proof.
  unfold eq_ric_gen_id. destruct a, b; simpl. rewrite !andb_true_iff, !Z.eqb_eq. split; [intros [[-> ->] ->]; done|by intros [= -> -> ->]].
Qed.

(** [eq_xapp_ric_gen_id] compares the xApp of its first argument with itself. *)
Lemma eq_xapp_ric_gen_id_spec x y : eq_xapp_ric_gen_id x y = true <-> xr_ric_id x = xr_ric_id y.
Proof. unfold eq_xapp_ric_gen_id, eq_xapp_id. rewrite Z.eqb_refl. simpl. apply eq_ric_gen_id_spec. Qed.

Section RicMap.
Context (m : map_ric_id_t) (l : list (e2_node_ric_id_t * xapp_ric_id_t)) (Hm : ric_map_is m l).

Lemma ric_map_left : exists ll, al_holds (bm_left m) ll /\ ll ≡ₚ l.
Proof. destruct Hm as [[H _ _ _ _ _] _]. exact H. Qed.

Lemma ric_map_right : exists rr, al_holds (bm_right m) rr /\ map swap_kv rr ≡ₚ l /\ rr ≡ₚ map swap_kv l.
Proof.
  destruct Hm as [[_ (rr & H & Hp) _ _ _ _] _]. exists rr. split_and!; [done|done|].
  rewrite <- Hp, map_map. by rewrite (map_ext _ id), map_id by (by intros []).
Qed.

Lemma add_map_ok node x : zlen l + 1 < 2 ^ 64 -> Forall (fun p => node_req p.1 <> node_req node) l -> Forall (fun p => p.2 <> x) l ->
  exists m', add_map_ric_id m node x = Ok m' /\ ric_map_is m' ((node, x) :: l).
Proof.
  intros Hl Hn Hx. destruct ric_map_left as (ll & Hll & Hpl). unfold add_map_ric_id.
  destruct (find_first_ok (bm_left m) ll (eq_e2_node_ric_req node) Hll) as [[-> _]|(l1 & k & v & l2 & it & _ & -> & _ & Hk & _)].
  - simpl. rewrite Nat.eqb_refl. simpl. destruct Hm as (H & H1 & H2).
    destruct (bi_insert_ok _ _ _ _ m l node x H ltac:(done) ltac:(done) Hl) as (m' & Hi & H'). exists m'. split; [exact Hi|].
    split; [done|]. apply inj_cons; [done|done| |].
    + intros (p & Hp & Hc)%Exists_exists. rewrite Forall_forall in Hn. apply (Hn p Hp). symmetry. by apply cmp_e2_node_0.
    + intros (p & Hp & Hc)%Exists_exists. apply list_elem_of_fmap in Hp as (q & -> & Hq). rewrite Forall_forall in Hx.
      apply (Hx q Hq). symmetry. by apply cmp_xapp_0.
  - exfalso. rewrite <- Hpl, Forall_app, Forall_cons in Hn. destruct Hn as (_ & Hn & _). apply Hn.
    apply eq_e2_node_ric_req_spec, cmp_e2_node_0 in Hk. done.
Qed.

Lemma add_map_dup node x : Exists (fun p => node_req p.1 = node_req node) l -> add_map_ric_id m node x = Fail FExit.
Proof.
  intros Hn. destruct ric_map_left as (ll & Hll & Hpl). unfold add_map_ric_id.
  destruct (find_first_ok (bm_left m) ll (eq_e2_node_ric_req node) Hll) as [[_ HF]|(l1 & k & v & l2 & it & -> & -> & _ & Hk & Hw)].
  - exfalso. rewrite <- Hpl in Hn. apply Exists_exists in Hn as (p & Hp & He). rewrite Forall_forall in HF. specialize (HF p Hp). simpl in HF.
    assert (Ht : eq_e2_node_ric_req node p.1 = true) by (apply eq_e2_node_ric_req_spec, cmp_e2_node_0; done). congruence.
  - destruct Hw as (Hne & _). cbn [rbind]. by rewrite (proj2 (Nat.eqb_neq _ _) Hne).
Qed.

Lemma find_xapp_ok r : 0 < r ->
  (find_xapp_map_ric_id m r = Ok None /\ Forall (fun p => node_req p.1 <> r) l) \/
  exists n x, find_xapp_map_ric_id m r = Ok (Some x) /\ (n, x) ∈ l /\ node_req n = r.
Proof.
  intros Hr. destruct ric_map_left as (ll & Hll & Hpl). unfold find_xapp_map_ric_id. rewrite (proj2 (Z.ltb_lt _ _) Hr). cbn [assert_ rbind].
  destruct (find_first_ok (bm_left m) ll (eq_e2_node_ric_req (dummy_node r)) Hll) as [[-> HF]|(l1 & k & v & l2 & it & -> & -> & _ & Hk & Hw)].
  - left. simpl. rewrite Nat.eqb_refl. split; [done|]. rewrite <- Hpl. eapply Forall_impl; [exact HF|]. intros p Hp Hc.
    simpl in Hp. assert (Ht : eq_e2_node_ric_req (dummy_node r) p.1 = true) by (apply eq_e2_node_ric_req_spec, cmp_e2_node_0; done). congruence.
  - right. exists k, v. cbn [walks] in Hw. destruct Hw as (Hne & _ & Hv & _). cbn [rbind]. rewrite (proj2 (Nat.eqb_neq _ _) Hne), Hv. simpl.
    split; [done|]. split; [rewrite <- Hpl; apply elem_of_app; right; by left|]. apply eq_e2_node_ric_req_spec, cmp_e2_node_0 in Hk. done.
Qed.

(** The request that an xApp means: the one with its number, of whichever xApp
    comes first. *)
Lemma find_ric_req_ok x :
  (find_ric_req_map_ric_id m x = Fail FExit /\ Forall (fun p => xr_ric_id p.2 <> xr_ric_id x) l) \/
  exists n y, find_ric_req_map_ric_id m x = Ok n /\ (n, y) ∈ l /\ xr_ric_id y = xr_ric_id x /\
    Forall (fun p => xr_ric_id p.2 = xr_ric_id x -> xr_xapp_id y <= xr_xapp_id p.2) l.
Proof.
  destruct ric_map_right as (rr & Hrr & Hpr & Hpl). unfold find_ric_req_map_ric_id.
  destruct (find_first_ok (bm_right m) rr (eq_xapp_ric_gen_id x) Hrr) as [[-> HF]|(l1 & y & n & l2 & it & -> & -> & HF & Hk & Hw)].
  - left. simpl. rewrite Nat.eqb_refl. split; [done|]. rewrite <- Hpr. apply Forall_fmap. eapply Forall_impl; [exact HF|].
    intros [y n] Hp Hc. simpl in *. assert (Ht : eq_xapp_ric_gen_id x y = true) by (by apply eq_xapp_ric_gen_id_spec). congruence.
  - right. exists n, y. cbn [walks] in Hw. destruct Hw as (Hne & _ & Hv & _). cbn [rbind]. rewrite (proj2 (Nat.eqb_neq _ _) Hne). cbn [negb assert_ rbind]. rewrite Hv. simpl.
    apply eq_xapp_ric_gen_id_spec in Hk. split_and!; [done| |done|].
    + rewrite <- Hpr, map_app. apply elem_of_app. right. by left.
    + rewrite <- Hpr, map_app. pose proof (al_sorted _ _ Hrr) as Hs. unfold kv_sorted in Hs. apply sorted_app_r in Hs as Hs2.
      apply Forall_app. split.
      * apply Forall_fmap. eapply Forall_impl; [exact HF|]. intros [y' n'] Hp Hc. simpl in *.
        assert (Ht : eq_xapp_ric_gen_id x y' = true) by (by apply eq_xapp_ric_gen_id_spec). congruence.
      * simpl. constructor; [done|]. apply StronglySorted_inv in Hs2 as [_ Hf]. apply Forall_fmap. eapply Forall_impl; [exact Hf|].
        intros [y' n'] Hp _. simpl in *. unfold cmp_xapp_ric_gen_id in Hp. rewrite Z.gtb_ltb in Hp.
        destruct (Z.ltb_spec (xr_xapp_id y) (xr_xapp_id y')); [lia|]. destruct (Z.ltb_spec (xr_xapp_id y') (xr_xapp_id y)); lia.
Qed.

Lemma rm_map_ok n x : (n, x) ∈ l -> exists m' l', rm_map_ric_id m x = Ok (m', n) /\ l ≡ₚ (n, x) :: l' /\ ric_map_is m' l'.
Proof.
  intros Hin. pose proof (bij_extract_right _ _ _ m l x Hm) as He. unfold rm_map_ric_id.
  destruct (take_out _ l) as [[p l']|] eqn:Ht.
  - destruct He as (m' & -> & H' & _). apply take_out_some in Ht as [Hp Hc]. apply Z.eqb_eq, cmp_xapp_0 in Hc.
    assert (Hpn : p = (n, x)).
    { apply elem_of_Permutation in Hin as (k & Hk). destruct Hm as (_ & _ & H2).
      destruct (inj2_same l l' p (n, x) k H2 Hp Hk) as [-> _]; [|done]. subst x. apply comp_refl. apply _. }
    subst p. by exists m', l'.
  - exfalso. apply take_out_none in Ht. rewrite Forall_forall in Ht. specialize (Ht _ Hin). simpl in Ht.
    assert (Hz : cmp_xapp_ric_gen_id x x = 0) by (by apply cmp_xapp_0). by rewrite Hz in Ht.
Qed.

End RicMap.

(** ** The subscriptions of an xApp *)

Definition is_sub_of (xapp_id : Z) (p : e2_node_ric_id_t * xapp_ric_id_t) : Prop :=
  xr_xapp_id p.2 = xapp_id /\ en_ric_req_type p.1 = SUBSCRIPTION_RIC_REQUEST_TYPE.

#[global] Instance is_sub_of_dec xapp_id p : Decision (is_sub_of xapp_id p).
Proof. unfold is_sub_of. apply _. Defined.

Definition subs_of (xapp_id : Z) (l : list (e2_node_ric_id_t * xapp_ric_id_t)) : list e2_node_ric_id_t :=
  map fst (filter (is_sub_of xapp_id) l).

Lemma cp_e2_node_ric_id_eq n : cp_e2_node_ric_id n = n.
Proof. destruct n as [[t [a b c] nb [id|]] r ty]; done. Qed.

Lemma eq2_spec xid x : eq_xapp_ric_gen_id2 (mk_xapp_ric_id (mk_ric_gen_id 0 0 0) xid) x = true <-> xr_xapp_id x = xid.
Proof. unfold eq_xapp_ric_gen_id2. simpl. rewrite Z.eqb_eq. lia. Qed.

Lemma subs_of_skip xid rr : Forall (fun e => eq_xapp_ric_gen_id2 (mk_xapp_ric_id (mk_ric_gen_id 0 0 0) xid) e.1 = false) rr ->
  subs_of xid (map swap_kv rr) = [].
Proof.
  induction 1 as [|[x n] rr Hx Hf IH]; [done|]. unfold subs_of in *. simpl. rewrite filter_cons_False; [done|].
  intros [H _]. simpl in *. apply eq2_spec in H. congruence.
Qed.

Lemma find_all_loop_ok xid right fuel : forall it rr, walks right it rr -> (length rr <= fuel)%nat ->
  zlen rr <= assoc_size right -> match rr with [] => True | p :: _ => xr_xapp_id p.1 = xid end ->
  find_all_loop fuel right it (mk_xapp_ric_id (mk_ric_gen_id 0 0 0) xid) = Ok (subs_of xid (map swap_kv rr)).
Proof.
  induction fuel as [|fuel IH]; intros it [|[x n] rr] Hw Hf Hs Hx; cbn [length walks] in *; try lia; cbn [find_all_loop].
  - subst it. by rewrite Nat.eqb_refl.
  - subst it. by rewrite Nat.eqb_refl.
  - destruct Hw as (Hne & _ & Hv & it' & Hn & Hw). rewrite (proj2 (Nat.eqb_neq _ _) Hne), Hv. cbn [rbind of_opt]. rewrite Hn. cbn [rbind].
    rewrite zlen_cons in Hs.
    assert (Hrest : forall a, subs_of xid (map swap_kv ((x, n) :: rr)) =
        (if bool_decide (en_ric_req_type n = SUBSCRIPTION_RIC_REQUEST_TYPE) then cp_e2_node_ric_id n :: a else a) <-> subs_of xid (map swap_kv rr) = a).
    { intros a. unfold subs_of. simpl in Hx. simpl. rewrite cp_e2_node_ric_id_eq. case_bool_decide as Hd.
      - rewrite filter_cons_True by done. simpl. split; [by intros [= ->]|by intros ->].
      - rewrite filter_cons_False by (by intros [_ ?]). done. }
    destruct (find_if_ok (Z.to_nat (assoc_size right)) (eq_xapp_ric_gen_id2 (mk_xapp_ric_id (mk_ric_gen_id 0 0 0) xid)) right it' rr Hw)
      as [[-> HF]|(l1 & k & v & l2 & it2 & -> & -> & HF & Hk & Hw2)]; [unfold zlen in Hs; lia| |]; cbn [rbind].
    + rewrite (IH (assoc_end right) []); [|done|simpl; lia|rewrite zlen_nil; pose proof (zlen_nonneg rr); lia|done].
      cbn [rbind]. f_equal. symmetry. apply Hrest. by apply subs_of_skip.
    + rewrite zlen_app in Hs. pose proof (zlen_nonneg l1). rewrite length_app in Hf.
      rewrite (IH it2 ((k, v) :: l2)); [|done|simpl in *; lia|lia|by apply eq2_spec].
      cbn [rbind]. f_equal. symmetry. apply Hrest. rewrite map_app. unfold subs_of. rewrite filter_app, map_app.
      fold (subs_of xid (map swap_kv l1)). by rewrite subs_of_skip.
Qed.

Lemma find_all_subs_ok m l xid : ric_map_is m l ->
  exists subs, find_all_subs_map_ric_id m xid = Ok subs /\ subs ≡ₚ subs_of xid l.
Proof.
  intros Hm. destruct (ric_map_right m l Hm) as (rr & Hrr & Hpr & _). exists (subs_of xid (map swap_kv rr)).
  split; [|unfold subs_of; by rewrite Hpr]. unfold find_all_subs_map_ric_id. pose proof (al_size _ _ Hrr) as Hs.
  destruct (find_first_ok (bm_right m) rr (eq_xapp_ric_gen_id2 (mk_xapp_ric_id (mk_ric_gen_id 0 0 0) xid)) Hrr)
    as [[-> HF]|(l1 & k & v & l2 & it & -> & -> & HF & Hk & Hw)]; cbn [rbind].
  - rewrite (find_all_loop_ok xid _ _ _ []); [|done|simpl; lia|rewrite Hs, zlen_nil; apply zlen_nonneg|done]. by rewrite (subs_of_skip xid rr).
  - rewrite (find_all_loop_ok xid _ _ _ ((k, v) :: l2)); [|done| | |by apply eq2_spec].
    + rewrite map_app. unfold subs_of. rewrite filter_app, map_app. fold (subs_of xid (map swap_kv l1)). by rewrite subs_of_skip.
    + rewrite Hs. unfold zlen. rewrite length_app. simpl. lia.
    + rewrite Hs, zlen_app. pose proof (zlen_nonneg l1). lia.
Qed.
