(* ===== verification/IApp.v ===== *)
(** The near-real-time RIC of flexric and its iApp, which connects the xApps to
    the E2 nodes; definitions only.

    - ric/near_ric.c and ric/msg_handler_ric.c: the RIC numbers the requests to
      the nodes, keeps those that wait for an answer in [pending], and hands the
      answers to the iApp; it publishes indications to its own listeners.
    - ric/iApp/msg_handler_iapp.c and ric/iApp/e42_iapp.c: the iApp forwards the
      requests of the xApps and brings every answer back to the xApp it is for,
      under the number that xApp knows.

    What goes out is a list of events.  The descriptor of a new timer comes from
    the kernel and is an argument of the operation that creates it.  [payload] is
    what a message carries besides identifiers; encoding it is left to the E2AP
    library. *)

From S2P Require Import Prelude Assoc Compare RbTree RbSpec BiMap RicMap.

#[global] Instance fd_ric_assoc : Assoc Z pending_event_ric_t _ := rb_assoc cmp_fd.
#[global] Instance ric_fd_assoc : Assoc pending_event_ric_t Z _ := rb_assoc cmp_pending_event_ric.
#[global] Instance fd_ric_laws : AssocLaws Z pending_event_ric_t _ := rb_assoc_laws cmp_fd.
#[global] Instance ric_fd_laws : AssocLaws pending_event_ric_t Z _ := rb_assoc_laws cmp_pending_event_ric.
#[global] Instance pub_sub_assoc : Assoc Z nat _ := rb_assoc cmp_ran_func_id.
#[global] Instance pub_sub_laws : AssocLaws Z nat _ := rb_assoc_laws cmp_ran_func_id.

(** The listeners that the RIC registers itself: [notify_stdout_listener] etc. *)
Inductive listener_t := stdout_listener | redis_listener | influx_listener.

(** ** Messages *)

Section Messages.
Context (sri_t payload : Type).

(** RIC to E2 node. *)
Inductive node_req_t :=
| RIC_SUBSCRIPTION_REQUEST (id : ric_gen_id_t) (p : payload)
| RIC_SUBSCRIPTION_DELETE_REQUEST (id : ric_gen_id_t)
| RIC_CONTROL_REQUEST (id : ric_gen_id_t) (p : payload).

(** E2 node to RIC, and RIC to xApp.  [na] and [admitted] are the actions that
    are not admitted and the identifiers of those that are. *)
Inductive node_msg_t :=
| RIC_SUBSCRIPTION_RESPONSE (id : ric_gen_id_t) (admitted : list Z) (na : list Z)
| RIC_SUBSCRIPTION_DELETE_RESPONSE (id : ric_gen_id_t)
| RIC_INDICATION (id : ric_gen_id_t) (p : payload)
| RIC_CONTROL_ACKNOWLEDGE (id : ric_gen_id_t) (outcome : option payload)
| RIC_CONTROL_FAILURE (id : ric_gen_id_t) (p : payload).

(** xApp to iApp. *)
Inductive xapp_req_t :=
| E42_SETUP_REQUEST (len_rf : Z)
| E42_RIC_SUBSCRIPTION_REQUEST (xapp_id : Z) (node : global_e2_node_id_t) (id : ric_gen_id_t) (p : payload)
| E42_RIC_SUBSCRIPTION_DELETE_REQUEST (xapp_id : Z) (id : ric_gen_id_t)
| E42_RIC_CONTROL_REQUEST (xapp_id : Z) (node : global_e2_node_id_t) (id : ric_gen_id_t) (p : payload).

(** What leaves the RIC. *)
Inductive ric_out :=
| ToNode (node : global_e2_node_id_t) (m : node_req_t)
| ToXapp (info : sctp_info_t sri_t) (m : node_msg_t)
| SetupResponse (info : sctp_info_t sri_t) (xapp_id : Z) (nodes : list global_e2_node_id_t)
| RmFd (fd : Z)
| Published (listener : listener_t) (p : payload).

End Messages.
Arguments RIC_SUBSCRIPTION_REQUEST {payload}.
Arguments RIC_SUBSCRIPTION_DELETE_REQUEST {payload}.
Arguments RIC_CONTROL_REQUEST {payload}.
Arguments RIC_SUBSCRIPTION_RESPONSE {payload}.
Arguments RIC_SUBSCRIPTION_DELETE_RESPONSE {payload}.
Arguments RIC_INDICATION {payload}.
Arguments RIC_CONTROL_ACKNOWLEDGE {payload}.
Arguments RIC_CONTROL_FAILURE {payload}.
Arguments E42_SETUP_REQUEST {payload}.
Arguments E42_RIC_SUBSCRIPTION_REQUEST {payload}.
Arguments E42_RIC_SUBSCRIPTION_DELETE_REQUEST {payload}.
Arguments E42_RIC_CONTROL_REQUEST {payload}.
Arguments ToNode {sri_t payload}.
Arguments ToXapp {sri_t payload}.
Arguments SetupResponse {sri_t payload}.
Arguments RmFd {sri_t payload}.
Arguments Published {sri_t payload}.

Definition set_ric_req_id (id : ric_gen_id_t) (r : Z) : ric_gen_id_t := {| id with ric_req_id := r |}.

(** ** State *)

Definition pending_ric_t := bi_map_t (assoc_rb_tree_t Z pending_event_ric_t) (assoc_rb_tree_t pending_event_ric_t Z).

(** [req_id] is a 32-bit [int], of which the requests get the lower 16 bits.
    [pub_sub] has, for a RAN function, the address of the array of its
    listeners; [arrs] are those arrays. *)
Record near_ric_t := mk_near_ric {
  nr_req_id : Z;
  nr_pending : pending_ric_t;
  nr_pub_sub : assoc_rb_tree_t Z nat;
  nr_arrs : gmap nat (list listener_t)
}.

(** [ia_e2_nodes] are the nodes of the registry, in its order. *)
Record e42_iapp_t (sri_t : Type) := mk_iapp {
  ia_xapp_id : Z;
  ia_map_ric_id : map_ric_id_t;
  ia_xapps : map_xapps_sockaddr_t sri_t;
  ia_e2_nodes : list global_e2_node_id_t
}.
Arguments mk_iapp {sri_t}.
Arguments ia_xapp_id {sri_t}.
Arguments ia_map_ric_id {sri_t}.
Arguments ia_xapps {sri_t}.
Arguments ia_e2_nodes {sri_t}.

Record ric_t (sri_t : Type) := mk_ric { rc_ric : near_ric_t; rc_iapp : e42_iapp_t sri_t }.
Arguments mk_ric {sri_t}.
Arguments rc_ric {sri_t}.
Arguments rc_iapp {sri_t}.

(** ** The RIC *)

Section NearRic.
Context {sri_t payload : Type}.
Abbreviation out := (ric_out sri_t payload).
Abbreviation msg := (node_msg_t payload).
Implicit Types (ric : near_ric_t) (ev : pending_event_ric_t).

(** sizeof(int) and sizeof(pending_event_ric_t). *)
Definition fd_sz : Z := 4.
Definition event_ric_sz : Z := 12.
Definition ran_func_id_sz : Z := 2.

(** [init_near_ric], as far as it is about the state modelled here. *)
Definition init_near_ric : res near_ric_t :=
  let* pending := bi_map_init fd_sz event_ric_sz true true in
  let* pub_sub := assoc_init ran_func_id_sz true in
  Ok (mk_near_ric 1021 pending pub_sub ∅).

(** [free_fd]: the key is asserted to be a descriptor. *)
Definition free_fd (kv : option Z * option pending_event_ric_t) : res unit :=
  let* fd := of_opt FExit kv.1 in
  let* _ := of_opt FExit kv.2 in
  assert_ (0 <? fd).

Definition free_pending_ev_ric (kv : option pending_event_ric_t * option Z) : res unit :=
  let* ev := of_opt FExit kv.1 in
  let* _ := of_opt FExit kv.2 in
  let* b := valid_pending_event (per_ev ev) in
  assert_ b.

Fixpoint each {A} (f : A -> res unit) (l : list A) : res unit :=
  match l with [] => Ok tt | a :: l' => let* _ := f a in each f l' end.

(** The part of [free_near_ric] that releases [pending]. *)
Definition free_pending_ric ric : res unit :=
  let* (_, evl, evr) := bi_map_free (nr_pending ric) in
  let* _ := each free_fd evl in
  each free_pending_ev_ric evr.

Definition add_pending_ric ric (fd : Z) ev : res near_ric_t :=
  let* p := bi_map_insert (nr_pending ric) fd fd_sz ev event_ric_sz in
  Ok {| ric with nr_pending := p |}.

(** The request with its new identifier: the code writes it into the message of
    the caller. *)
Definition fwd_ric_subscription_request ric (fd : Z) (node : global_e2_node_id_t) (sr : ric_gen_id_t) (p : payload)
    : res (near_ric_t * Z * ric_gen_id_t * list out) :=
  let req_id := u16 (nr_req_id ric) in
  let ric := {| ric with nr_req_id := s32 (nr_req_id ric + 1) |} in
  let sr := set_ric_req_id sr req_id in
  let* ric := add_pending_ric ric fd (mk_pending_event_ric SUBSCRIPTION_REQUEST_PENDING_EVENT sr) in
  Ok (ric, req_id, sr, [ToNode node (RIC_SUBSCRIPTION_REQUEST sr p)]).

Definition fwd_ric_subscription_request_delete ric (fd : Z) (node : global_e2_node_id_t) (sdr : ric_gen_id_t)
    : res (near_ric_t * list out) :=
  let ev := mk_pending_event_ric SUBSCRIPTION_DELETE_REQUEST_PENDING_EVENT sdr in
  let tree := bm_right (nr_pending ric) in
  let* it := find_first tree (eq_pending_event_ric ev) in
  if negb (it =? assoc_end tree)%nat then Ok (ric, [])
  else
    let* ric := add_pending_ric ric fd ev in
    Ok (ric, [ToNode node (RIC_SUBSCRIPTION_DELETE_REQUEST sdr)]).

Definition fwd_ric_control_request ric (fd : Z) (node : global_e2_node_id_t) (cr : ric_gen_id_t) (p : payload)
    : res (near_ric_t * Z * ric_gen_id_t * list out) :=
  let req_id := u16 (nr_req_id ric) in
  let ric := {| ric with nr_req_id := s32 (nr_req_id ric + 1) |} in
  let cr := set_ric_req_id cr req_id in
  let* ric := add_pending_ric ric fd (mk_pending_event_ric CONTROL_REQUEST_PENDING_EVENT cr) in
  Ok (ric, req_id, cr, [ToNode node (RIC_CONTROL_REQUEST cr p)]).

Definition stop_pending_event ric ev : res (near_ric_t * list out) :=
  let* (p, fd, _) := bi_map_extract_right (nr_pending ric) ev event_ric_sz in
  let* _ := assert_ (0 <? fd) in
  Ok ({| ric with nr_pending := p |}, [RmFd fd]).

(** *** Publication of indications *)

(** [addr] is the block that [malloc] gives for a new array. *)
Definition register_listeners_for_ran_func_id ric (addr : nat) (ran_func_id : Z) (subs : listener_t) : res near_ric_t :=
  let* it := find_first (nr_pub_sub ric) (eq_ran_func_id ran_func_id) in
  if (it =? assoc_end (nr_pub_sub ric))%nat then
    let* t := assoc_insert (nr_pub_sub ric) ran_func_id ran_func_id_sz addr in
    Ok {| ric with nr_pub_sub := t; nr_arrs := <[addr := [subs]]> (nr_arrs ric) |}
  else
    let* oarr := assoc_value (nr_pub_sub ric) it in
    let* arr := of_opt FBounds oarr in
    let* l := of_opt FBounds (nr_arrs ric !! arr) in
    Ok {| ric with nr_arrs := <[arr := l ++ [subs]]> (nr_arrs ric) |}.

(** The RAN functions of the loaded service models, each with the block for its
    array. *)
Fixpoint load_default_pub_sub_ric ric (fs : list (nat * Z)) : res near_ric_t :=
  match fs with
  | [] => Ok ric
  | (addr, ran_func_id) :: fs' =>
      let* ric := register_listeners_for_ran_func_id ric addr ran_func_id stdout_listener in
      let* ric := register_listeners_for_ran_func_id ric addr ran_func_id redis_listener in
      let* ric := register_listeners_for_ran_func_id ric addr ran_func_id influx_listener in
      load_default_pub_sub_ric ric fs'
  end.

Definition publish_ind_msg ric (ran_func_id : Z) (d : payload) : res (list out) :=
  let* start_it := assoc_front (nr_pub_sub ric) in
  let* sm_it := find_first (nr_pub_sub ric) (eq_ran_func_id ran_func_id) in
  let* _ := assert_ (negb (sm_it =? assoc_end (nr_pub_sub ric))%nat) in
  let* oarr := assoc_value (nr_pub_sub ric) start_it in
  let* arr := of_opt FBounds oarr in
  let* l := of_opt FBounds (nr_arrs ric !! arr) in
  let* _ := assoc_next (nr_pub_sub ric) start_it in
  Ok (map (fun s => Published s d) l).

End NearRic.

(** ** The iApp *)

Section IApp.
Context {sri_t payload : Type}.
Abbreviation out := (ric_out sri_t payload).
Abbreviation iapp_t := (e42_iapp_t sri_t).
Abbreviation ric_t := (ric_t sri_t).
Implicit Types (iapp : iapp_t) (r : ric_t).

Definition init_e42_iapp : res iapp_t :=
  let* xapps := init_map_xapps_sad in
  let* map := init_map_ric_id in
  Ok (mk_iapp 7 map xapps []).

Definition valid_xapp_id iapp (xapp_id : Z) : res bool :=
  let* _ := assert_ (xapp_id <? 2 ^ 16) in
  Ok (xapp_id <=? ia_xapp_id iapp).

Fixpoint valid_global_e2_node (nodes : list global_e2_node_id_t) (id : global_e2_node_id_t) : res bool :=
  match nodes with
  | [] => Ok false
  | n :: nodes' => let* b := eq_global_e2_node_id n id in if b then Ok true else valid_global_e2_node nodes' id
  end.

(** An xApp is asked for its RAN functions and gets its number; the event loop
    keeps its address. *)
Definition e2ap_handle_e42_setup_request_iapp iapp (info : sctp_info_t sri_t) (len_rf : Z) : res (iapp_t * list out) :=
  let* _ := assert_ (0 <? len_rf) in
  let id := u16 (ia_xapp_id iapp) in
  let iapp := {| iapp with ia_xapp_id := u32 (ia_xapp_id iapp + 1) |} in
  let* xapps := add_map_xapps_sad (ia_xapps iapp) id info in
  Ok ({| iapp with ia_xapps := xapps |}, [SetupResponse info id (ia_e2_nodes iapp)]).

Definition e2ap_handle_e42_ric_subscription_request_iapp r (fd : Z) (xapp_id : Z) (node : global_e2_node_id_t)
    (id : ric_gen_id_t) (p : payload) : res (ric_t * list out) :=
  let* b := valid_xapp_id (rc_iapp r) xapp_id in
  let* _ := assert_ b in
  let* b := valid_global_e2_node (ia_e2_nodes (rc_iapp r)) node in
  let* _ := assert_ b in
  let xapp_ric_id := mk_xapp_ric_id id xapp_id in
  let* (ric, new_ric_id, id, outs) := fwd_ric_subscription_request (rc_ric r) fd node id p in
  let n := mk_e2_node_ric_id (cp_global_e2_node_id node) (set_ric_req_id id new_ric_id) SUBSCRIPTION_RIC_REQUEST_TYPE in
  let* map := add_map_ric_id (ia_map_ric_id (rc_iapp r)) n xapp_ric_id in
  Ok (mk_ric ric {| (rc_iapp r) with ia_map_ric_id := map |}, outs).

Definition e2ap_handle_e42_ric_control_request_iapp r (fd : Z) (xapp_id : Z) (node : global_e2_node_id_t)
    (id : ric_gen_id_t) (p : payload) : res (ric_t * list out) :=
  let* b := valid_xapp_id (rc_iapp r) xapp_id in
  let* _ := assert_ b in
  let* b := valid_global_e2_node (ia_e2_nodes (rc_iapp r)) node in
  let* _ := assert_ b in
  let xapp_ric_id := mk_xapp_ric_id id xapp_id in
  let* (ric, new_ric_id, id, outs) := fwd_ric_control_request (rc_ric r) fd node id p in
  let n := mk_e2_node_ric_id (cp_global_e2_node_id node) (set_ric_req_id id new_ric_id) CONTROL_RIC_REQUEST_TYPE in
  let* map := add_map_ric_id (ia_map_ric_id (rc_iapp r)) n xapp_ric_id in
  Ok (mk_ric ric {| (rc_iapp r) with ia_map_ric_id := map |}, outs).

Definition e2ap_handle_e42_ric_subscription_delete_request_iapp r (fd : Z) (xapp_id : Z) (id : ric_gen_id_t)
    : res (ric_t * list out) :=
  let x := mk_xapp_ric_id id xapp_id in
  let* n := find_ric_req_map_ric_id (ia_map_ric_id (rc_iapp r)) x in
  let* _ := assert_ (bool_decide (en_ric_req_type n = SUBSCRIPTION_RIC_REQUEST_TYPE)) in
  let dst := set_ric_req_id id (ric_req_id (en_ric_id n)) in
  let* (ric, outs) := fwd_ric_subscription_request_delete (rc_ric r) fd (en_e2_node_id n) dst in
  Ok ({| r with rc_ric := ric |}, outs).

(** *** Answers *)

(** The xApp of an answer: its identifiers are those of the request but for the
    number. *)
Definition check_ids (src : ric_gen_id_t) (x : xapp_ric_id_t) : res unit :=
  let* _ := assert_ (ran_func_id src =? ran_func_id (xr_ric_id x)) in
  assert_ (ric_inst_id src =? ric_inst_id (xr_ric_id x)).

Definition e2ap_handle_subscription_response_iapp iapp (src : ric_gen_id_t) (admitted na : list Z) : res (iapp_t * list out) :=
  let* xpctd := find_xapp_map_ric_id (ia_map_ric_id iapp) (u16 (ric_req_id src)) in
  let* x := of_opt FExit xpctd in
  let* _ := check_ids src x in
  let* info := find_map_xapps_sad (ia_xapps iapp) (xr_xapp_id x) in
  Ok (iapp, [ToXapp info (RIC_SUBSCRIPTION_RESPONSE (set_ric_req_id src (ric_req_id (xr_ric_id x))) admitted na)]).

Definition e2ap_handle_ric_indication_iapp iapp (src : ric_gen_id_t) (p : payload) : res (iapp_t * list out) :=
  let* xpctd := find_xapp_map_ric_id (ia_map_ric_id iapp) (u16 (ric_req_id src)) in
  match xpctd with
  | None => Ok (iapp, [])
  | Some x =>
      let* _ := check_ids src x in
      let* info := find_map_xapps_sad (ia_xapps iapp) (xr_xapp_id x) in
      Ok (iapp, [ToXapp info (RIC_INDICATION (set_ric_req_id src (ric_req_id (xr_ric_id x))) p)])
  end.

Definition e2ap_handle_subscription_delete_response_iapp iapp (src : ric_gen_id_t) : res (iapp_t * list out) :=
  let* xpctd := find_xapp_map_ric_id (ia_map_ric_id iapp) (u16 (ric_req_id src)) in
  match xpctd with
  | None => Ok (iapp, [])
  | Some x =>
      let* _ := check_ids src x in
      let* info := find_map_xapps_sad (ia_xapps iapp) (xr_xapp_id x) in
      let* (map, _) := rm_map_ric_id (ia_map_ric_id iapp) x in
      Ok ({| iapp with ia_map_ric_id := map |}, [ToXapp info (RIC_SUBSCRIPTION_DELETE_RESPONSE (xr_ric_id x))])
  end.

(** The outcome of the control is not passed on. *)
Definition e2ap_handle_e42_ric_control_ack_iapp iapp (src : ric_gen_id_t) (outcome : option payload) : res (iapp_t * list out) :=
  let* xpctd := find_xapp_map_ric_id (ia_map_ric_id iapp) (u16 (ric_req_id src)) in
  let* x := of_opt FExit xpctd in
  let* _ := check_ids src x in
  let* info := find_map_xapps_sad (ia_xapps iapp) (xr_xapp_id x) in
  let* (map, _) := rm_map_ric_id (ia_map_ric_id iapp) x in
  Ok ({| iapp with ia_map_ric_id := map |}, [ToXapp info (RIC_CONTROL_ACKNOWLEDGE (xr_ric_id x) None)]).

Definition e2ap_handle_e42_ric_control_failure_iapp iapp (src : ric_gen_id_t) (p : payload) : res (iapp_t * list out) :=
  let* xpctd := find_xapp_map_ric_id (ia_map_ric_id iapp) (u16 (ric_req_id src)) in
  let* x := of_opt FExit xpctd in
  let* _ := check_ids src x in
  let* info := find_map_xapps_sad (ia_xapps iapp) (xr_xapp_id x) in
  let* (map, _) := rm_map_ric_id (ia_map_ric_id iapp) x in
  Ok ({| iapp with ia_map_ric_id := map |}, [ToXapp info (RIC_CONTROL_FAILURE (xr_ric_id x) p)]).

(** [notify_msg_iapp]: the table of handlers. *)
Definition notify_msg_iapp iapp (m : node_msg_t payload) : res (iapp_t * list out) :=
  match m with
  | RIC_SUBSCRIPTION_RESPONSE id admitted na => e2ap_handle_subscription_response_iapp iapp id admitted na
  | RIC_SUBSCRIPTION_DELETE_RESPONSE id => e2ap_handle_subscription_delete_response_iapp iapp id
  | RIC_INDICATION id p => e2ap_handle_ric_indication_iapp iapp id p
  | RIC_CONTROL_ACKNOWLEDGE id outcome => e2ap_handle_e42_ric_control_ack_iapp iapp id outcome
  | RIC_CONTROL_FAILURE id p => e2ap_handle_e42_ric_control_failure_iapp iapp id p
  end.

(** *** Answers that reach the RIC *)

Definition notify r ric (outs : list out) (m : node_msg_t payload) : res (ric_t * list out) :=
  let* (iapp, outs') := notify_msg_iapp (rc_iapp r) m in
  Ok (mk_ric ric iapp, outs ++ outs').

Definition e2ap_handle_subscription_response_ric r (id : ric_gen_id_t) (admitted na : list Z) : res (ric_t * list out) :=
  let* (ric, outs) := stop_pending_event (rc_ric r) (mk_pending_event_ric SUBSCRIPTION_REQUEST_PENDING_EVENT id) in
  let* _ := assert_ (zlen na =? 0) in
  let* _ := assert_ (zlen admitted =? 1) in
  let* act := of_opt FBounds (admitted !! 0%nat) in
  let* _ := assert_ (act =? 0) in
  notify r ric outs (RIC_SUBSCRIPTION_RESPONSE id admitted na).

Definition e2ap_handle_subscription_delete_response_ric r (id : ric_gen_id_t) : res (ric_t * list out) :=
  let* (ric, outs) := stop_pending_event (rc_ric r) (mk_pending_event_ric SUBSCRIPTION_DELETE_REQUEST_PENDING_EVENT id) in
  notify r ric outs (RIC_SUBSCRIPTION_DELETE_RESPONSE id).

(** The service model turns [p] into what the listeners get; here they get [p]. *)
Definition e2ap_handle_indication_ric r (id : ric_gen_id_t) (p : payload) : res (ric_t * list out) :=
  let* outs := publish_ind_msg (rc_ric r) (ran_func_id id) p in
  notify r (rc_ric r) outs (RIC_INDICATION id p).

Definition e2ap_handle_control_ack_ric r (id : ric_gen_id_t) (outcome : option payload) : res (ric_t * list out) :=
  let* (ric, outs) := stop_pending_event (rc_ric r) (mk_pending_event_ric CONTROL_REQUEST_PENDING_EVENT id) in
  notify r ric outs (RIC_CONTROL_ACKNOWLEDGE id outcome).

Definition e2ap_handle_control_failure_ric r (id : ric_gen_id_t) (p : payload) : res (ric_t * list out) :=
  let* (ric, outs) := stop_pending_event (rc_ric r) (mk_pending_event_ric CONTROL_REQUEST_PENDING_EVENT id) in
  notify r ric outs (RIC_CONTROL_FAILURE id p).

(** *** An xApp that is gone *)

Definition gen_e2ap_subs_delete r (fd : Z) (n : e2_node_ric_id_t) : res (ric_t * list out) :=
  let* (ric, outs) := fwd_ric_subscription_request_delete (rc_ric r) fd (en_e2_node_id n) (en_ric_id n) in
  Ok ({| r with rc_ric := ric |}, outs).

(** One descriptor of [fds] per request. *)
Fixpoint gen_all r (fds : list Z) (arr : list e2_node_ric_id_t) : res (ric_t * list out) :=
  match arr, fds with
  | [], _ => Ok (r, [])
  | n :: arr', fd :: fds' =>
      let* (r, outs) := gen_e2ap_subs_delete r fd n in
      let* (r, outs') := gen_all r fds' arr' in
      Ok (r, outs ++ outs')
  | _, [] => Fail FExit
  end.

Definition rm_if_pending_subs r (fds : list Z) (xapp_id : Z) : res (ric_t * list out) :=
  let* arr := find_all_subs_map_ric_id (ia_map_ric_id (rc_iapp r)) xapp_id in
  gen_all r fds arr.

(** ** What happens to the RIC, one event at a time *)

Inductive ric_event :=
| FromXapp (info : sctp_info_t sri_t) (m : xapp_req_t payload) (fd : Z)
| FromNode (m : node_msg_t payload)
| XappLost (info : sctp_info_t sri_t) (fds : list Z).

Definition ric_step r (ev : ric_event) : res (ric_t * list out) :=
  match ev with
  | FromXapp info (E42_SETUP_REQUEST len_rf) _ =>
      let* (iapp, outs) := e2ap_handle_e42_setup_request_iapp (rc_iapp r) info len_rf in
      Ok ({| r with rc_iapp := iapp |}, outs)
  | FromXapp _ (E42_RIC_SUBSCRIPTION_REQUEST x node id p) fd => e2ap_handle_e42_ric_subscription_request_iapp r fd x node id p
  | FromXapp _ (E42_RIC_SUBSCRIPTION_DELETE_REQUEST x id) fd => e2ap_handle_e42_ric_subscription_delete_request_iapp r fd x id
  | FromXapp _ (E42_RIC_CONTROL_REQUEST x node id p) fd => e2ap_handle_e42_ric_control_request_iapp r fd x node id p
  | FromNode (RIC_SUBSCRIPTION_RESPONSE id admitted na) => e2ap_handle_subscription_response_ric r id admitted na
  | FromNode (RIC_SUBSCRIPTION_DELETE_RESPONSE id) => e2ap_handle_subscription_delete_response_ric r id
  | FromNode (RIC_INDICATION id p) => e2ap_handle_indication_ric r id p
  | FromNode (RIC_CONTROL_ACKNOWLEDGE id outcome) => e2ap_handle_control_ack_ric r id outcome
  | FromNode (RIC_CONTROL_FAILURE id p) => e2ap_handle_control_failure_ric r id p
  | XappLost info fds =>
      let* xapp_id := find_map_xapps_xid (ia_xapps (rc_iapp r)) info in
      rm_if_pending_subs r fds xapp_id
  end.

Fixpoint ric_run r (evs : list ric_event) : res (ric_t * list out) :=
  match evs with
  | [] => Ok (r, [])
  | ev :: evs' =>
      let* (r, outs) := ric_step r ev in
      let* (r, outs') := ric_run r evs' in
      Ok (r, outs ++ outs')
  end.

(** A RIC to which the nodes [nodes] are connected, with the service models of
    the RAN functions [fs]. *)
Definition init_ric (nodes : list global_e2_node_id_t) (fs : list (nat * Z)) : res ric_t :=
  let* ric := init_near_ric in
  let* ric := load_default_pub_sub_ric ric fs in
  let* iapp := init_e42_iapp in
  Ok (mk_ric ric {| iapp with ia_e2_nodes := nodes |}).

End IApp.
