(* ===== verification/IAppSpec.v ===== *)
(** The RIC and the iApp of flexric as a router: what a request of an xApp and an
    answer of an E2 node do, on lists; the code implements it. *)

From S2P Require Import Prelude Assoc Compare RbTree RbSpec BiMap RicMap IApp.

(** Taking a step of the router apart: the timer that is stopped, the answer. *)
Ltac router_answer Hs :=
  match type of Hs with mbind _ ?e = _ => let Ht := fresh "Hstop" in destruct e as [[? ?]|] eqn:Ht; [|done] end;
  cbn [mbind option_bind] in Hs;
  match type of Hs with mbind _ ?e = _ => let Ha := fresh "Hans" in destruct e as [[[? ?] ?]|] eqn:Ha; [|done] end;
  cbn [mbind option_bind] in Hs; injection Hs as <- <-.

(** ** The router *)

(** [ro_live] are the requests that are not answered for good: the identifiers
    towards the node and those of the xApp.  [ro_pend] are the timers of the
    requests that wait for their first answer.  All RAN functions of [ro_funcs]
    have the listeners [ro_listeners]. *)
Record router (sri_t : Type) := mk_router {
  ro_next : Z;
  ro_live : list (e2_node_ric_id_t * xapp_ric_id_t);
  ro_pend : list (Z * pending_event_ric_t);
  ro_xnext : Z;
  ro_xapps : list (Z * sctp_info_t sri_t);
  ro_nodes : list global_e2_node_id_t;
  ro_funcs : list Z;
  ro_listeners : list listener_t
}.
Arguments mk_router {sri_t}.
Arguments ro_next {sri_t}.
Arguments ro_live {sri_t}.
Arguments ro_pend {sri_t}.
Arguments ro_xnext {sri_t}.
Arguments ro_xapps {sri_t}.
Arguments ro_nodes {sri_t}.
Arguments ro_funcs {sri_t}.
Arguments ro_listeners {sri_t}.

Section Router.
Context {sri_t payload : Type}.
Abbreviation router := (router sri_t).
Abbreviation out := (ric_out sri_t payload).
Abbreviation event := (ric_event (sri_t:=sri_t) (payload:=payload)).
Implicit Types (s : router).

(** The address of an xApp. *)
Definition ro_addr s (xapp_id : Z) : option (sctp_info_t sri_t) :=
  snd <$> List.find (fun p => p.1 =? xapp_id) (ro_xapps s).

(** The request to a node with a number. *)
Definition ro_find s (r : Z) : option (e2_node_ric_id_t * xapp_ric_id_t) := List.find (fun p => ric_req_id (en_ric_id p.1) =? r) (ro_live s).

(** A timer is new, and so is the event it is for. *)
Definition ro_wait s (fd : Z) (ev : pending_event_ric_t) : option router :=
  if (0 <? fd) && (zlen (ro_pend s) + 1 <? 2 ^ 64) &&
     forallb (fun p => negb (cmp_fd fd p.1 =? 0) && negb (cmp_pending_event_ric ev p.2 =? 0)) (ro_pend s)
  then Some {| s with ro_pend := (fd, ev) :: ro_pend s |} else None.

Definition ro_stop s (ev : pending_event_ric_t) : option (router * Z) :=
  match take_out (fun p => cmp_pending_event_ric ev p.2 =? 0) (ro_pend s) with
  | Some (p, rest) => Some ({| s with ro_pend := rest |}, p.1)
  | None => None
  end.

(** A request of a registered xApp, under a number it does not use at the time,
    gets a new number. *)
Definition ro_request s (fd : Z) (xapp_id : Z) (node : global_e2_node_id_t) (id : ric_gen_id_t) (kind : ric_request_type_e)
    (ev : pending_event_t) : option (router * ric_gen_id_t) :=
  let x := mk_xapp_ric_id id xapp_id in
  let id' := set_ric_req_id id (ro_next s) in
  if bool_decide (is_Some (ro_addr s xapp_id)) && (ro_next s <? 2 ^ 16) && (zlen (ro_live s) + 1 <? 2 ^ 64) &&
     match valid_global_e2_node (ro_nodes s) node with Ok b => b | Fail _ => false end &&
     forallb (fun p => negb (cmp_xapp_ric_gen_id x p.2 =? 0)) (ro_live s)
  then
    s ← ro_wait s fd (mk_pending_event_ric ev id');
    Some ({| s with ro_next := ro_next s + 1; ro_live := (mk_e2_node_ric_id node id' kind, x) :: ro_live s |}, id')
  else None.

(** An answer goes to the address of the xApp whose request it answers, under
    the number of the xApp; the last answer ends the request. *)
Definition ro_answer s (id : ric_gen_id_t) (final : bool) : option (router * sctp_info_t sri_t * xapp_ric_id_t) :=
  p ← ro_find s (ric_req_id id);
  if bool_decide (en_ric_id p.1 = id) then
    info ← ro_addr s (xr_xapp_id p.2);
    Some (if final then {| s with ro_live := filter (fun q => q.2 <> p.2) (ro_live s) |} else s, info, p.2)
  else None.

Definition ro_step s (ev : event) : option (router * list out) :=
  match ev with
  | FromXapp info (E42_SETUP_REQUEST len_rf) _ =>
      if (0 <? len_rf) && (ro_xnext s <? 2 ^ 16 - 1) && (zlen (ro_xapps s) + 1 <? 2 ^ 64) &&
         forallb (fun p => negb (cmp_sctp_info_wrapper info p.2 =? 0)) (ro_xapps s)
      then Some ({| s with ro_xnext := ro_xnext s + 1; ro_xapps := (ro_xnext s, info) :: ro_xapps s |},
                 [SetupResponse info (ro_xnext s) (ro_nodes s)])
      else None
  | FromXapp _ (E42_RIC_SUBSCRIPTION_REQUEST x node id p) fd =>
      '(s, id') ← ro_request s fd x node id SUBSCRIPTION_RIC_REQUEST_TYPE SUBSCRIPTION_REQUEST_PENDING_EVENT;
      Some (s, [ToNode node (RIC_SUBSCRIPTION_REQUEST id' p)])
  | FromXapp _ (E42_RIC_CONTROL_REQUEST x node id p) fd =>
      '(s, id') ← ro_request s fd x node id CONTROL_RIC_REQUEST_TYPE CONTROL_REQUEST_PENDING_EVENT;
      Some (s, [ToNode node (RIC_CONTROL_REQUEST id' p)])
  | FromXapp _ (E42_RIC_SUBSCRIPTION_DELETE_REQUEST x id) fd =>
      q ← List.find (fun q => bool_decide (q.2 = mk_xapp_ric_id id x)) (ro_live s);
      (* no other xApp has a request under this number *)
      if bool_decide (en_ric_req_type q.1 = SUBSCRIPTION_RIC_REQUEST_TYPE) &&
         forallb (fun p => bool_decide (p.2 = mk_xapp_ric_id id x) || negb (eq_ric_gen_id (xr_ric_id p.2) id)) (ro_live s)
      then
        let ev := mk_pending_event_ric SUBSCRIPTION_DELETE_REQUEST_PENDING_EVENT (en_ric_id q.1) in
        if existsb (fun p => cmp_pending_event_ric ev p.2 =? 0) (ro_pend s) then Some (s, [])
        else
          s ← ro_wait s fd ev;
          Some (s, [ToNode (en_e2_node_id q.1) (RIC_SUBSCRIPTION_DELETE_REQUEST (en_ric_id q.1))])
      else None
  | FromNode (RIC_SUBSCRIPTION_RESPONSE id admitted na) =>
      if bool_decide (admitted = [0]) && bool_decide (na = []) then
        '(s, fd) ← ro_stop s (mk_pending_event_ric SUBSCRIPTION_REQUEST_PENDING_EVENT id);
        '(s, info, x) ← ro_answer s id false;
        Some (s, [RmFd fd; ToXapp info (RIC_SUBSCRIPTION_RESPONSE (xr_ric_id x) admitted na)])
      else None
  | FromNode (RIC_SUBSCRIPTION_DELETE_RESPONSE id) =>
      '(s, fd) ← ro_stop s (mk_pending_event_ric SUBSCRIPTION_DELETE_REQUEST_PENDING_EVENT id);
      '(s, info, x) ← ro_answer s id true;
      Some (s, [RmFd fd; ToXapp info (RIC_SUBSCRIPTION_DELETE_RESPONSE (xr_ric_id x))])
  | FromNode (RIC_INDICATION id p) =>
      if bool_decide (ran_func_id id ∈ ro_funcs s) then
        '(s, info, x) ← ro_answer s id false;
        Some (s, map (fun l => Published l p) (ro_listeners s) ++ [ToXapp info (RIC_INDICATION (xr_ric_id x) p)])
      else None
  | FromNode (RIC_CONTROL_ACKNOWLEDGE id outcome) =>
      '(s, fd) ← ro_stop s (mk_pending_event_ric CONTROL_REQUEST_PENDING_EVENT id);
      '(s, info, x) ← ro_answer s id true;
      Some (s, [RmFd fd; ToXapp info (RIC_CONTROL_ACKNOWLEDGE (xr_ric_id x) None)])
  | FromNode (RIC_CONTROL_FAILURE id p) =>
      '(s, fd) ← ro_stop s (mk_pending_event_ric CONTROL_REQUEST_PENDING_EVENT id);
      '(s, info, x) ← ro_answer s id true;
      Some (s, [RmFd fd; ToXapp info (RIC_CONTROL_FAILURE (xr_ric_id x) p)])
  | XappLost _ _ => None
  end.

Fixpoint ro_run s (evs : list event) : option (router * list out) :=
  match evs with
  | [] => Some (s, [])
  | ev :: evs' =>
      '(s, outs) ← ro_step s ev;
      '(s, outs') ← ro_run s evs';
      Some (s, outs ++ outs')
  end.

(** ** The state of the code as a router *)

Definition pub_is (ric : near_ric_t) (funcs : list Z) (listeners : list listener_t) : Prop :=
  exists sl, al_holds (nr_pub_sub ric) sl /\ map fst sl ≡ₚ funcs /\ Forall (fun p => nr_arrs ric !! p.2 = Some listeners) sl.

(** A request of an xApp and the request to a node it became. *)
Definition live_ok s (p : e2_node_ric_id_t * xapp_ric_id_t) : Prop :=
  0 < ric_req_id (en_ric_id p.1) < ro_next s /\
  set_ric_req_id (xr_ric_id p.2) (ric_req_id (en_ric_id p.1)) = en_ric_id p.1 /\ is_Some (ro_addr s (xr_xapp_id p.2)).

Record ric_is (r : ric_t sri_t) s : Prop := {
  ri_next : nr_req_id (rc_ric r) = ro_next s /\ 0 < ro_next s <= 2 ^ 16;
  ri_xnext : ia_xapp_id (rc_iapp r) = ro_xnext s /\ 0 <= ro_xnext s <= 2 ^ 16 - 1;
  ri_nodes : ia_e2_nodes (rc_iapp r) = ro_nodes s;
  ri_map : ric_map_is (ia_map_ric_id (rc_iapp r)) (ro_live s);
  ri_pend : bij_is fd_sz event_ric_sz true (nr_pending (rc_ric r)) (ro_pend s);
  ri_xapps : bij_is xapp_id_sz sctp_info_sz true (ia_xapps (rc_iapp r)) (ro_xapps s);
  ri_pub : pub_is (rc_ric r) (ro_funcs s) (ro_listeners s);
  ri_live : Forall (live_ok s) (ro_live s);
  ri_fds : Forall (fun p => 0 < p.1) (ro_pend s);
  ri_xids : Forall (fun p => p.1 < ro_xnext s) (ro_xapps s)
}.

(** ** Lookups *)

Lemma list_find_some {A} (f : A -> bool) l x : List.find f l = Some x -> x ∈ l /\ f x = true.
Proof. intros H. apply List.find_some in H as [Hin Hf]. split; [by apply list_elem_of_In|done]. Qed.

Lemma find_addr_ok (m : map_xapps_sockaddr_t sri_t) l xid p : bij_is xapp_id_sz sctp_info_sz true m l ->
  List.find (fun p => p.1 =? xid) l = Some p -> find_map_xapps_sad m xid = Ok p.2.
Proof.
  intros ([(ll & Hll & Hp) _ _ _ _ _] & H1 & _) Hf. apply list_find_some in Hf as [Hin Hx]. apply Z.eqb_eq in Hx.
  unfold find_map_xapps_sad.
  destruct (find_first_ok (bm_left m) ll (eq_uint16_wrapper xid) Hll) as [[_ HF]|(l1 & k & v & l2 & it & -> & -> & _ & Hk & Hw)].
  - exfalso. rewrite <- Hp in Hin. rewrite Forall_forall in HF. specialize (HF p Hin). unfold eq_uint16_wrapper in HF. lia.
  - cbn [walks] in Hw. destruct Hw as (Hne & _ & Hv & _). cbn [rbind]. rewrite (proj2 (Nat.eqb_neq _ _) Hne). cbn [negb assert_ rbind].
    rewrite Hv. simpl. f_equal. assert (Hkv : (k, v) = p); [|by subst p].
    apply (inj1_elem l (k, v) p H1); [rewrite <- Hp; apply elem_of_app; right; by left|done|].
    apply Z.eqb_eq in Hk. simpl. rewrite Hx, <- Hk. apply (comp_refl cmp_uint16_wrapper).
Qed.

Lemma find_live_ok m l r p : ric_map_is m l -> 0 < r -> List.find (fun p => ric_req_id (en_ric_id p.1) =? r) l = Some p ->
  find_xapp_map_ric_id m r = Ok (Some p.2).
Proof.
  intros Hm Hr Hf. apply list_find_some in Hf as [Hin Hx]. apply Z.eqb_eq in Hx.
  destruct (find_xapp_ok m l Hm r Hr) as [[_ HF]|(n & x & -> & Hin' & Hn)].
  - exfalso. rewrite Forall_forall in HF. by apply (HF p).
  - do 2 f_equal. destruct Hm as (_ & H1 & _). assert (Hp : (n, x) = p); [|by subst p].
    apply (inj1_elem l (n, x) p H1 Hin' Hin). apply cmp_e2_node_0. simpl. lia.
Qed.

Lemma filter_all {A} (P : A -> Prop) `{!forall a, Decision (P a)} l : Forall P l -> filter P l = l.
Proof. induction 1 as [|a l Ha _ IH]; [done|]. by rewrite filter_cons_True, IH. Qed.

(** Removing the request of [x]. *)
Lemma rm_live_ok m l n x : ric_map_is m l -> (n, x) ∈ l ->
  exists m', rm_map_ric_id m x = Ok (m', n) /\ ric_map_is m' (filter (fun q => q.2 <> x) l).
Proof.
  intros Hm Hin. destruct (rm_map_ok m l Hm n x Hin) as (m' & l' & Hr & Hp & Hm'). exists m'. split; [done|].
  eapply bij_perm; [|exact Hm']. rewrite Hp, filter_cons_False by (simpl; by intros []).
  rewrite filter_all; [done|]. apply Forall_forall. intros q Hq Heq.
  destruct Hm as (_ & _ & H2). apply elem_of_Permutation in Hq as (k & Hk). apply (H2 (n, x) q k); [by rewrite Hp, Hk|].
  apply cmp_xapp_0. done.
Qed.

(** ** Timers *)

Lemma ro_wait_ok ric s s' fd ev : bij_is fd_sz event_ric_sz true (nr_pending ric) (ro_pend s) -> ro_wait s fd ev = Some s' ->
  0 < fd /\ s' = {| s with ro_pend := (fd, ev) :: ro_pend s |} /\
  exists p, add_pending_ric ric fd ev = Ok {| ric with nr_pending := p |} /\ bij_is fd_sz event_ric_sz true p ((fd, ev) :: ro_pend s).
Proof.
  intros H Hw. unfold ro_wait in Hw. match type of Hw with (if ?b then _ else _) = _ => destruct b eqn:Hb end; [|done]. injection Hw as <-. bool_hyps. split; [lia|]. split; [done|].
  assert (HF : Forall (fun p => cmp_fd fd p.1 <> 0 /\ cmp_pending_event_ric ev p.2 <> 0) (ro_pend s)).
  { apply Forall_forall. intros p Hp. rewrite forallb_forall in H1. specialize (H1 p ltac:(by apply list_elem_of_In)). bool_hyps. lia. }
  unfold add_pending_ric.
  destruct (bij_insert fd_sz event_ric_sz true (nr_pending ric) (ro_pend s) fd ev H) as (p & -> & Hp); [done|done|lia| | |].
  - eapply Forall_impl; [exact HF|]. by intros q [? _].
  - eapply Forall_impl; [exact HF|]. by intros q [_ ?].
  - by exists p.
Qed.

Lemma ro_stop_ok ric s s' fd ev : bij_is fd_sz event_ric_sz true (nr_pending ric) (ro_pend s) -> Forall (fun p => 0 < p.1) (ro_pend s) ->
  ro_stop s ev = Some (s', fd) ->
  exists p rest, stop_pending_event ric ev = Ok ({| ric with nr_pending := p |}, [@RmFd sri_t payload fd]) /\
    s' = {| s with ro_pend := rest |} /\ bij_is fd_sz event_ric_sz true p rest /\ Forall (fun p => 0 < p.1) rest.
Proof.
  intros H Hf Hs. unfold ro_stop in Hs. pose proof (bij_extract_right _ _ _ _ _ ev H) as He.
  change (assoc_comp (Assoc:=ric_fd_assoc)) with cmp_pending_event_ric in He.
  destruct (take_out _ (ro_pend s)) as [[q rest]|] eqn:Ht; [|done]. injection Hs as <- <-.
  destruct He as (m' & He & Hm & _). apply take_out_some in Ht as [Hp _]. rewrite Hp in Hf. inversion Hf; subst.
  exists m', rest. unfold stop_pending_event. rewrite He. cbn [rbind]. rewrite (proj2 (Z.ltb_lt _ _)) by done. done.
Qed.

(** ** Publication *)

Lemma publish_ok ric funcs listeners f d : pub_is ric funcs listeners -> f ∈ funcs ->
  publish_ind_msg ric f d = Ok (map (fun l => @Published sri_t payload l d) listeners).
Proof.
  intros (sl & Hs & Hp & Hf) Hin. unfold publish_ind_msg. destruct (al_front _ _ Hs) as (it & -> & Hw). cbn [rbind].
  destruct (find_first_ok (nr_pub_sub ric) sl (eq_ran_func_id f) Hs) as [[_ HF]|(l1 & k & v & l2 & it' & -> & Hsl & _ & _ & Hw')].
  - exfalso. rewrite <- Hp in Hin. apply list_elem_of_fmap in Hin as (p & -> & Hin). rewrite Forall_forall in HF.
    specialize (HF p Hin). unfold eq_ran_func_id in HF. lia.
  - cbn [walks] in Hw'. destruct Hw' as (Hne & _). cbn [rbind]. rewrite (proj2 (Nat.eqb_neq _ _) Hne). cbn [negb assert_ rbind].
    destruct sl as [|[k0 a] sl]; [by destruct l1|]. cbn [walks] in Hw. destruct Hw as (_ & _ & Hv & it2 & Hn & _).
    rewrite Hv. cbn [rbind of_opt]. inversion Hf as [|? ? Ha _]; subst. simpl in Ha. rewrite Ha. cbn [rbind of_opt]. by rewrite Hn.
Qed.

(** ** Answers *)

Lemma ro_answer_ok r s id final s' info x : ric_is r s -> ro_answer s id final = Some (s', info, x) ->
  find_xapp_map_ric_id (ia_map_ric_id (rc_iapp r)) (u16 (ric_req_id id)) = Ok (Some x) /\ check_ids id x = Ok tt /\
  find_map_xapps_sad (ia_xapps (rc_iapp r)) (xr_xapp_id x) = Ok info /\
  set_ric_req_id id (ric_req_id (xr_ric_id x)) = xr_ric_id x /\
  if final then exists n m', rm_map_ric_id (ia_map_ric_id (rc_iapp r)) x = Ok (m', n) /\
      s' = {| s with ro_live := filter (fun q => q.2 <> x) (ro_live s) |} /\ ric_map_is m' (ro_live s')
  else s' = s.
Proof.
  intros H Ha. unfold ro_answer, ro_find, ro_addr in Ha.
  destruct (List.find _ (ro_live s)) as [[n y]|] eqn:Hf; [|done]. simpl in Ha. case_bool_decide as Hid; [|done].
  destruct (List.find _ (ro_xapps s)) as [q|] eqn:Hq; [|done]. simpl in Ha. injection Ha as <- <- <-.
  pose proof (list_find_some _ _ _ Hf) as [Hin _]. pose proof (ri_live _ _ H) as Hl. rewrite Forall_forall in Hl.
  destruct (Hl _ Hin) as (Hr & Hset & _). simpl in Hr, Hset. destruct (ri_next _ _ H) as [_ Hn].
  rewrite Hid in *. rewrite (wrap_small 16) by lia. split_and!.
  - apply (find_live_ok _ (ro_live s) _ (n, y) (ri_map _ _ H)); [lia|exact Hf].
  - unfold check_ids. rewrite <- Hset. simpl. by rewrite !Z.eqb_refl.
  - by apply (find_addr_ok _ (ro_xapps s) _ q (ri_xapps _ _ H)).
  - rewrite <- Hset. by destruct (xr_ric_id y).
  - destruct final; [|done]. destruct (rm_live_ok _ _ n y (ri_map _ _ H) Hin) as (m' & Hrm & Hm'). by exists n, m'.
Qed.

Lemma live_filter s s' x : ro_next s' = ro_next s -> ro_xapps s' = ro_xapps s -> Forall (live_ok s) (ro_live s) ->
  Forall (live_ok s') (filter (fun q : e2_node_ric_id_t * xapp_ric_id_t => q.2 <> x) (ro_live s)).
Proof.
  intros Hn Hx H. rewrite Forall_forall in H. apply Forall_forall. intros p [_ Hp]%list_elem_of_filter. specialize (H p Hp).
  unfold live_ok, ro_addr in *. by rewrite Hn, Hx.
Qed.

(** ** The handlers *)

(** An answer to a request that waits for it; the listeners do not change. *)
Lemma answer_pending_ok r s ev id final s1 fd s' info x : ric_is r s -> ro_stop s ev = Some (s1, fd) -> ro_answer s1 id final = Some (s', info, x) ->
  exists p iapp, stop_pending_event (rc_ric r) ev = Ok ({| (rc_ric r) with nr_pending := p |}, [@RmFd sri_t payload fd]) /\
    find_xapp_map_ric_id (ia_map_ric_id (rc_iapp r)) (u16 (ric_req_id id)) = Ok (Some x) /\ check_ids id x = Ok tt /\
    find_map_xapps_sad (ia_xapps (rc_iapp r)) (xr_xapp_id x) = Ok info /\
    set_ric_req_id id (ric_req_id (xr_ric_id x)) = xr_ric_id x /\
    (if final then exists n m', rm_map_ric_id (ia_map_ric_id (rc_iapp r)) x = Ok (m', n) /\ iapp = {| (rc_iapp r) with ia_map_ric_id := m' |}
     else iapp = rc_iapp r) /\
    ric_is (mk_ric {| (rc_ric r) with nr_pending := p |} iapp) s'.
Proof.
  intros H Hs Ha. destruct (ro_stop_ok (rc_ric r) s s1 fd ev (ri_pend _ _ H) (ri_fds _ _ H) Hs) as (p & rest & Hst & -> & Hp & Hfd).
  assert (H1 : ric_is (mk_ric {| (rc_ric r) with nr_pending := p |} (rc_iapp r)) {| s with ro_pend := rest |}).
  { destruct H. split; simpl; try done. }
  destruct (ro_answer_ok _ _ id final s' info x H1 Ha) as (Hf & Hc & Hi & Hset & Hfin). simpl in *.
  destruct final.
  - destruct Hfin as (n & m' & Hrm & -> & Hm). exists p, {| (rc_iapp r) with ia_map_ric_id := m' |}.
    split; [done|]. split; [done|]. split; [done|]. split; [done|]. split; [done|]. split; [by exists n, m'|].
    destruct H1. split; simpl in *; try done. by apply (live_filter {| s with ro_pend := rest |}).
  - subst s'. exists p, (rc_iapp r). done.
Qed.

Lemma setup_ok r s info len_rf fd s' outs : ric_is r s -> ro_step s (FromXapp info (E42_SETUP_REQUEST len_rf) fd) = Some (s', outs) ->
  exists r', ric_step r (FromXapp info (E42_SETUP_REQUEST len_rf) fd) = Ok (r', outs) /\ ric_is r' s'.
Proof.
  intros H Hs. cbn [ro_step] in Hs.
  match type of Hs with (if ?b then _ else _) = _ => destruct b eqn:Hb end; [|done]. injection Hs as <- <-. bool_hyps.
  rename H1 into Hfree. cbn [ric_step]. unfold e2ap_handle_e42_setup_request_iapp.
  destruct (ri_xnext _ _ H) as [Hx Hx2]. rewrite (proj2 (Z.ltb_lt _ _)) by lia. cbn [assert_ rbind].
  assert (HF : Forall (fun p => cmp_sctp_info_wrapper info p.2 <> 0) (ro_xapps s)).
  { apply Forall_forall. intros p Hp. rewrite forallb_forall in Hfree. specialize (Hfree p ltac:(by apply list_elem_of_In)). bool_hyps. lia. }
  assert (HF1 : Forall (fun p => p.1 <> ro_xnext s) (ro_xapps s)) by (eapply Forall_impl; [apply (ri_xids _ _ H)|]; simpl; lia).
  assert (Hu : u16 (ro_xnext s) = ro_xnext s) by (apply wrap_small; lia).
  assert (Hu2 : u32 (ro_xnext s + 1) = ro_xnext s + 1) by (apply wrap_small; lia).
  unfold add_map_xapps_sad. cbn [ia_xapps]. rewrite Hx, Hu, Hu2.
  pose proof (ri_xapps _ _ H) as Hxa. destruct Hxa as ([(ll & Hll & Hpl) _ _ _ _ _] & _ & _).
  destruct (find_first_ok (bm_left (ia_xapps (rc_iapp r))) ll (eq_uint16_wrapper (ro_xnext s)) Hll) as [[-> _]|(l1 & k & v & l2 & it & _ & -> & _ & Hk & _)].
  2: { exfalso. rewrite <- Hpl, Forall_app, Forall_cons in HF1. destruct HF1 as (_ & Hne & _). apply Hne. apply Z.eqb_eq in Hk. by rewrite Hk. }
  cbn [rbind]. rewrite Nat.eqb_refl. cbn [assert_ rbind].
  destruct (bij_insert xapp_id_sz sctp_info_sz true (ia_xapps (rc_iapp r)) (ro_xapps s) (ro_xnext s) info (ri_xapps _ _ H)) as (m' & -> & Hm');
    [done|done|lia| |exact HF|].
  { eapply Forall_impl; [exact HF1|]. intros p Hne Hc. apply Hne. unfold assoc_comp, xid_assoc, rb_assoc, cmp_uint16_wrapper in Hc.
    rewrite Z.gtb_ltb in Hc. destruct (Z.ltb_spec (ro_xnext s) p.1); [done|]. destruct (Z.ltb_spec p.1 (ro_xnext s)); [done|]. lia. }
  cbn [rbind]. rewrite (ri_nodes _ _ H). eexists. split; [done|].
  destruct H. split; simpl in *; try done.
  - split; [done|lia].
  - eapply Forall_impl; [exact ri_live0|]. intros p (? & ? & Ha). split; [done|]. split; [done|].
    unfold ro_addr in *. simpl. by destruct (ro_xnext s =? xr_xapp_id p.2).
  - constructor; [simpl; lia|]. eapply Forall_impl; [exact ri_xids0|]. simpl. lia.
Qed.

Lemma addr_known r s xapp_id : ric_is r s -> is_Some (ro_addr s xapp_id) -> valid_xapp_id (rc_iapp r) xapp_id = Ok true.
Proof.
  intros H [info Hi]. unfold ro_addr in Hi. destruct (List.find _ (ro_xapps s)) as [p|] eqn:Hf; [|done].
  apply list_find_some in Hf as [Hin Hx]. apply Z.eqb_eq in Hx. pose proof (ri_xids _ _ H) as Hl. rewrite Forall_forall in Hl.
  specialize (Hl p Hin). destruct (ri_xnext _ _ H) as [He Hb]. unfold valid_xapp_id. rewrite (proj2 (Z.ltb_lt _ _)) by lia.
  simpl. by rewrite (proj2 (Z.leb_le _ _)) by lia.
Qed.

Lemma cp_node_eq n : cp_global_e2_node_id n = n.
Proof. by destruct n as [t [a b c] nb [id|]]. Qed.

Lemma request_ok r s fd xapp_id node id kind ev s' id' : ric_is r s -> ro_request s fd xapp_id node id kind ev = Some (s', id') ->
  valid_xapp_id (rc_iapp r) xapp_id = Ok true /\ valid_global_e2_node (ia_e2_nodes (rc_iapp r)) node = Ok true /\
  exists p m, u16 (nr_req_id (rc_ric r)) = ro_next s /\ id' = set_ric_req_id id (ro_next s) /\
    add_pending_ric {| (rc_ric r) with nr_req_id := s32 (nr_req_id (rc_ric r) + 1) |} fd (mk_pending_event_ric ev id') =
      Ok {| (rc_ric r) with nr_req_id := s32 (nr_req_id (rc_ric r) + 1); nr_pending := p |} /\
    add_map_ric_id (ia_map_ric_id (rc_iapp r)) (mk_e2_node_ric_id (cp_global_e2_node_id node) (set_ric_req_id id' (ro_next s)) kind)
      (mk_xapp_ric_id id xapp_id) = Ok m /\
    ric_is (mk_ric {| (rc_ric r) with nr_req_id := s32 (nr_req_id (rc_ric r) + 1); nr_pending := p |} {| (rc_iapp r) with ia_map_ric_id := m |}) s'.
Proof.
  intros H Hs. unfold ro_request in Hs.
  match type of Hs with (if ?b then _ else _) = _ => destruct b eqn:Hb end; [|done]. bool_hyps.
  match goal with Hx : forallb _ _ = true |- _ => rename Hx into Hown end.
  match goal with Hx : match valid_global_e2_node _ _ with _ => _ end = true |- _ => rename Hx into Hnode end.
  match goal with Hx : bool_decide (is_Some _) = true |- _ => apply bool_decide_eq_true in Hx as Haddr end.
  rewrite (ri_nodes _ _ H). split; [by eapply addr_known|]. split; [by destruct (valid_global_e2_node _ _) as [[]|]|].
  destruct (ro_wait s fd _) as [s1|] eqn:Hw; [|done]. simpl in Hs. injection Hs as <- <-.
  destruct (ri_next _ _ H) as [Hn Hnb]. rewrite Hn in *.
  assert (Hu : u16 (ro_next s) = ro_next s) by (apply wrap_small; lia).
  assert (Hs32 : s32 (ro_next s + 1) = ro_next s + 1) by (apply s32_small; lia).
  set (ric1 := {| (rc_ric r) with nr_req_id := s32 (ro_next s + 1) |}).
  destruct (ro_wait_ok ric1 s s1 fd _ (ri_pend _ _ H) Hw) as (Hfd & -> & p & Hadd & Hp).
  destruct (add_map_ok _ _ (ri_map _ _ H) (mk_e2_node_ric_id node (set_ric_req_id id (ro_next s)) kind) (mk_xapp_ric_id id xapp_id)) as (m & Hm & Hm').
  { lia. }
  { eapply Forall_impl; [apply (ri_live _ _ H)|]. intros q (Hq & _). simpl. lia. }
  { apply Forall_forall. intros q Hq Heq. rewrite forallb_forall in Hown. specialize (Hown q ltac:(by apply list_elem_of_In)). bool_hyps.
    rewrite Heq in *. rewrite (comp_refl cmp_xapp_ric_gen_id) in *. done. }
  exists p, m. split; [done|]. split; [done|]. split; [done|]. rewrite cp_node_eq. split; [exact Hm|].
  destruct H. split; simpl in *; try done.
  - split; lia.
  - constructor.
    + split; [simpl; lia|]. split; [done|]. exact Haddr.
    + eapply Forall_impl; [exact ri_live0|]. intros q (? & ? & ?). split; [simpl; lia|done].
  - by constructor.
Qed.

(** The request for a deletion goes to the node, once. *)
Lemma fwd_delete_new r s fd node id s1 : ric_is r s -> ro_wait s fd (mk_pending_event_ric SUBSCRIPTION_DELETE_REQUEST_PENDING_EVENT id) = Some s1 ->
  exists ric, fwd_ric_subscription_request_delete (rc_ric r) fd node id = Ok (ric, [@ToNode sri_t payload node (RIC_SUBSCRIPTION_DELETE_REQUEST id)]) /\
    ric_is {| r with rc_ric := ric |} s1.
Proof.
  intros H Hwt. unfold fwd_ric_subscription_request_delete. set (ev := mk_pending_event_ric _ id) in *.
  destruct (ro_wait_ok (rc_ric r) s s1 _ ev (ri_pend _ _ H) Hwt) as (Hfd & Hs1 & p & Hadd & Hp).
  pose proof (ri_pend _ _ H) as ([_ (rr & Hrr & Hpr) _ _ _ _] & _ & _).
  destruct (find_first_ok (bm_right (nr_pending (rc_ric r))) rr (eq_pending_event_ric ev) Hrr) as [[-> _]|(l1 & k & v & l2 & it & _ & -> & _ & Hk & _)].
  - cbn [rbind]. rewrite Nat.eqb_refl. cbn [negb]. rewrite Hadd. cbn [rbind]. eexists. split; [done|]. subst s1.
    destruct H. split; simpl in *; try done. by constructor.
  - exfalso. unfold ro_wait in Hwt. match type of Hwt with (if ?b then _ else _) = _ => destruct b eqn:Hb end; [|done]. bool_hyps.
    match goal with Hx : forallb _ _ = true |- _ => rewrite forallb_forall in Hx; specialize (Hx (v, k)); rename Hx into Hnew end.
    unfold eq_pending_event_ric in Hk. simpl in Hnew. rewrite Hk, andb_false_r in Hnew. discriminate Hnew.
    apply list_elem_of_In. rewrite <- Hpr, map_app. apply elem_of_app. right. by left.
Qed.

Lemma fwd_delete_again r s fd node id : ric_is r s ->
  existsb (fun p => cmp_pending_event_ric (mk_pending_event_ric SUBSCRIPTION_DELETE_REQUEST_PENDING_EVENT id) p.2 =? 0) (ro_pend s) = true ->
  fwd_ric_subscription_request_delete (sri_t:=sri_t) (payload:=payload) (rc_ric r) fd node id = Ok (rc_ric r, []).
Proof.
  intros H (q & Hq & Hc)%existsb_exists. unfold fwd_ric_subscription_request_delete. set (ev := mk_pending_event_ric _ id) in *.
  pose proof (ri_pend _ _ H) as ([_ (rr & Hrr & Hpr) _ _ _ _] & _ & _).
  destruct (find_first_ok (bm_right (nr_pending (rc_ric r))) rr (eq_pending_event_ric ev) Hrr) as [[_ HF]|(l1 & k & v & l2 & it & -> & -> & _ & _ & Hw)].
  - exfalso. apply list_elem_of_In in Hq. rewrite <- Hpr in Hq. apply list_elem_of_fmap in Hq as (q' & -> & Hq').
    rewrite Forall_forall in HF. specialize (HF _ Hq'). simpl in Hc. unfold eq_pending_event_ric in HF. congruence.
  - cbn [walks] in Hw. destruct Hw as (Hne & _). cbn [rbind]. by rewrite (proj2 (Nat.eqb_neq _ _) Hne).
Qed.

(** The deletion of a subscription that no other xApp has under the same number. *)
Lemma delete_ok r s x id fd s' outs : ric_is r s -> ro_step s (FromXapp (payload:=payload) fd.2 (E42_RIC_SUBSCRIPTION_DELETE_REQUEST x id) fd.1) = Some (s', outs) ->
  exists r', e2ap_handle_e42_ric_subscription_delete_request_iapp r fd.1 x id = Ok (r', outs) /\ ric_is r' s'.
Proof.
  intros H Hs. cbn [ro_step] in Hs. destruct (List.find _ (ro_live s)) as [[n y]|] eqn:Hf; [|done]. cbn [mbind option_bind fst snd] in Hs.
  match type of Hs with (if ?b then _ else _) = _ => destruct b eqn:Hb end; [|done]. bool_hyps.
  match goal with Hx : forallb _ _ = true |- _ => rename Hx into Hother end.
  match goal with Hx : bool_decide (en_ric_req_type _ = _) = true |- _ => apply bool_decide_eq_true in Hx as Hty end.
  apply list_find_some in Hf as [Hin Hy]. apply bool_decide_eq_true in Hy. simpl in Hy. subst y.
  unfold e2ap_handle_e42_ric_subscription_delete_request_iapp.
  destruct (find_ric_req_ok _ _ (ri_map _ _ H) (mk_xapp_ric_id id x)) as [[_ HF]|(n' & y & -> & Hin' & Hid & _)].
  { exfalso. rewrite Forall_forall in HF. by apply (HF _ Hin). }
  assert (Hny : (n', y) = (n, mk_xapp_ric_id id x)).
  { rewrite forallb_forall in Hother. specialize (Hother _ ltac:(apply list_elem_of_In; exact Hin')). simpl in Hother, Hid.
    apply orb_true_iff in Hother as [Hy|Hy]; [|exfalso; rewrite Hid in Hy; apply negb_true_iff in Hy;
      pose proof (proj2 (eq_ric_gen_id_spec id id) eq_refl); congruence].
    apply bool_decide_eq_true in Hy. destruct (ri_map _ _ H) as (_ & _ & H2).
    apply (inj2_elem _ _ _ H2 Hin' Hin). apply cmp_xapp_0. done. }
  injection Hny as -> ->. cbn [rbind]. rewrite Hty. rewrite bool_decide_eq_true_2 by done. cbn [assert_ rbind].
  pose proof (ri_live _ _ H) as Hl. rewrite Forall_forall in Hl. destruct (Hl _ Hin) as (_ & Hset & _). simpl in Hset. rewrite Hset.
  destruct (existsb _ (ro_pend s)) eqn:Hpend in Hs.
  - injection Hs as <- <-. rewrite (fwd_delete_again r s fd.1 (en_e2_node_id n) _ H Hpend). cbn [rbind]. eexists. split; [done|]. by destruct r.
  - destruct (ro_wait s fd.1 _) as [s1|] eqn:Hwt; [|done]. cbn [mbind option_bind] in Hs. injection Hs as <- <-.
    destruct (fwd_delete_new r s fd.1 (en_e2_node_id n) _ s1 H Hwt) as (ric & -> & H'). by eexists.
Qed.

Lemma node_msg_ok r s m s' outs : ric_is r s -> ro_step s (FromNode m) = Some (s', outs) ->
  exists r', ric_step r (FromNode m) = Ok (r', outs) /\ ric_is r' s'.
Proof.
  intros H Hs. destruct m as [id admitted na|id|id p|id outcome|id p]; cbn [ro_step] in Hs; cbn [ric_step].
  - match type of Hs with (if ?b then _ else _) = _ => destruct b eqn:Hb end; [|done]. bool_hyps.
    repeat match goal with Hx : bool_decide _ = true |- _ => apply bool_decide_eq_true in Hx end. subst admitted na. router_answer Hs.
    destruct (answer_pending_ok _ _ _ _ _ _ _ _ _ _ H Hstop Hans) as (q & iapp & Hst & Hf & Hc & Hi & Hset & -> & H').
    unfold e2ap_handle_subscription_response_ric. rewrite Hst. cbn. unfold notify, notify_msg_iapp, e2ap_handle_subscription_response_iapp.
    rewrite Hf. cbn [rbind of_opt]. rewrite Hc. cbn [rbind]. rewrite Hi. cbn [rbind]. rewrite Hset. by eexists.
  - router_answer Hs.
    destruct (answer_pending_ok _ _ _ _ _ _ _ _ _ _ H Hstop Hans) as (q & iapp & Hst & Hf & Hc & Hi & _ & (n & m' & Hrm & ->) & H').
    unfold e2ap_handle_subscription_delete_response_ric. rewrite Hst. cbn [rbind].
    unfold notify, notify_msg_iapp, e2ap_handle_subscription_delete_response_iapp.
    rewrite Hf. cbn [rbind]. rewrite Hc. cbn [rbind]. rewrite Hi. cbn [rbind]. rewrite Hrm. by eexists.
  - case_bool_decide as Hfun; [|done].
    match type of Hs with context [ro_answer ?s ?id ?f] => destruct (ro_answer s id f) as [[[? ?] ?]|] eqn:Hans; [|done] end.
    cbn [mbind option_bind] in Hs. injection Hs as <- <-.
    destruct (ro_answer_ok _ _ _ _ _ _ _ H Hans) as (Hf & Hc & Hi & Hset & ->).
    unfold e2ap_handle_indication_ric. rewrite (publish_ok _ _ _ _ p (ri_pub _ _ H) Hfun). cbn [rbind].
    unfold notify, notify_msg_iapp, e2ap_handle_ric_indication_iapp.
    rewrite Hf. cbn [rbind]. rewrite Hc. cbn [rbind]. rewrite Hi. cbn [rbind]. rewrite Hset. eexists. split; [done|]. by destruct r.
  - router_answer Hs.
    destruct (answer_pending_ok _ _ _ _ _ _ _ _ _ _ H Hstop Hans) as (q & iapp & Hst & Hf & Hc & Hi & _ & (n & m' & Hrm & ->) & H').
    unfold e2ap_handle_control_ack_ric. rewrite Hst. cbn [rbind]. unfold notify, notify_msg_iapp, e2ap_handle_e42_ric_control_ack_iapp.
    rewrite Hf. cbn [rbind of_opt]. rewrite Hc. cbn [rbind]. rewrite Hi. cbn [rbind]. rewrite Hrm. by eexists.
  - router_answer Hs.
    destruct (answer_pending_ok _ _ _ _ _ _ _ _ _ _ H Hstop Hans) as (q & iapp & Hst & Hf & Hc & Hi & _ & (n & m' & Hrm & ->) & H').
    unfold e2ap_handle_control_failure_ric. rewrite Hst. cbn [rbind]. unfold notify, notify_msg_iapp, e2ap_handle_e42_ric_control_failure_iapp.
    rewrite Hf. cbn [rbind of_opt]. rewrite Hc. cbn [rbind]. rewrite Hi. cbn [rbind]. rewrite Hrm. by eexists.
Qed.

Lemma ric_step_ok r s ev s' outs : ric_is r s -> ro_step s ev = Some (s', outs) ->
  exists r', ric_step r ev = Ok (r', outs) /\ ric_is r' s'.
Proof.
  intros H Hs. destruct ev as [info [len_rf|x node id p|x id|x node id p] fd|m|info fds]; [by eapply setup_ok| | | |by eapply node_msg_ok|done].
  - cbn [ro_step] in Hs. destruct (ro_request s fd x node id _ _) as [[s1 id']|] eqn:Hr; [|done]. cbn [mbind option_bind] in Hs. injection Hs as <- <-.
    destruct (request_ok _ _ _ _ _ _ _ _ _ _ H Hr) as (Hv & Hnode & q & m & Hu & -> & Ha & Hm & H').
    cbn [ric_step]. unfold e2ap_handle_e42_ric_subscription_request_iapp. rewrite Hv. cbn [rbind assert_]. rewrite Hnode. cbn [rbind assert_].
    unfold fwd_ric_subscription_request. rewrite Hu, Ha. cbn [rbind]. rewrite Hm. cbn [rbind]. by eexists.
  - by apply (delete_ok r s x id (fd, info)).
  - cbn [ro_step] in Hs. destruct (ro_request s fd x node id _ _) as [[s1 id']|] eqn:Hr; [|done]. cbn [mbind option_bind] in Hs. injection Hs as <- <-.
    destruct (request_ok _ _ _ _ _ _ _ _ _ _ H Hr) as (Hv & Hnode & q & m & Hu & -> & Ha & Hm & H').
    cbn [ric_step]. unfold e2ap_handle_e42_ric_control_request_iapp. rewrite Hv. cbn [rbind assert_]. rewrite Hnode. cbn [rbind assert_].
    unfold fwd_ric_control_request. rewrite Hu, Ha. cbn [rbind]. rewrite Hm. cbn [rbind]. by eexists.
Qed.

Lemma ric_run_ok evs : forall r s s' outs, ric_is r s -> ro_run s evs = Some (s', outs) ->
  exists r', ric_run r evs = Ok (r', outs) /\ ric_is r' s'.
Proof.
  induction evs as [|ev evs IH]; intros r s s' outs H Hs; simpl in Hs; [injection Hs as <- <-; by exists r|].
  destruct (ro_step s ev) as [[s1 o1]|] eqn:H1; [|done]. cbn [mbind option_bind] in Hs.
  destruct (ro_run s1 evs) as [[s2 o2]|] eqn:H2; [|done]. cbn [mbind option_bind] in Hs. injection Hs as <- <-.
  destruct (ric_step_ok _ _ _ _ _ H H1) as (r1 & Hr1 & H'). destruct (IH r1 s1 s2 o2 H' H2) as (r2 & Hr2 & H2').
  exists r2. simpl. rewrite Hr1. cbn [rbind]. rewrite Hr2. done.
Qed.

(** ** The start *)

Definition default_listeners : list listener_t := [stdout_listener; redis_listener; influx_listener].

Lemma find_func_ok t (sl : list (Z * nat)) f a : al_holds t sl -> (f, a) ∈ sl -> NoDup (map fst sl) ->
  exists it, find_first t (eq_ran_func_id f) = Ok it /\ it <> assoc_end t /\ assoc_value t it = Ok (Some a).
Proof.
  intros H Hin Hn. destruct (find_first_ok t sl (eq_ran_func_id f) H) as [[_ HF]|(l1 & k & v & l2 & it & Hit & -> & _ & Hk & Hw)].
  - exfalso. rewrite Forall_forall in HF. specialize (HF _ Hin). unfold eq_ran_func_id in HF. simpl in HF. lia.
  - apply Z.eqb_eq in Hk. subst k. cbn [walks] in Hw. destruct Hw as (Hne & _ & Hv & _).
    exists it. split; [done|]. split; [done|]. rewrite Hv. do 2 f_equal.
    apply elem_of_app in Hin as [Hin|Hin]; [|apply elem_of_cons in Hin as [Hin|Hin]; [by injection Hin|]]; exfalso;
      rewrite map_app in Hn; apply NoDup_app in Hn as (_ & Hn1 & Hn2); apply (list_elem_of_fmap_2 fst) in Hin; simpl in *.
    + apply (Hn1 _ Hin). by left.
    + apply NoDup_cons in Hn2 as [Hn2 _]. done.
Qed.

(** One more listener for a function that has an array already. *)
Lemma register_more_ok ric sl f a addr l subs : al_holds (nr_pub_sub ric) sl -> (f, a) ∈ sl -> NoDup (map fst sl) -> nr_arrs ric !! a = Some l ->
  register_listeners_for_ran_func_id ric addr f subs = Ok {| ric with nr_arrs := <[a := l ++ [subs]]> (nr_arrs ric) |}.
Proof.
  intros H Hin Hn Ha. destruct (find_func_ok _ _ _ _ H Hin Hn) as (it & Hit & Hne & Hv).
  unfold register_listeners_for_ran_func_id. rewrite Hit. cbn [rbind]. rewrite (proj2 (Nat.eqb_neq _ _) Hne), Hv. cbn [rbind of_opt]. by rewrite Ha.
Qed.

Lemma register_new_ok ric sl f addr subs : al_holds (nr_pub_sub ric) sl -> rb_key_sz (nr_pub_sub ric) = ran_func_id_sz -> f ∉ map fst sl -> zlen sl + 1 < 2 ^ 64 ->
  exists t sl', register_listeners_for_ran_func_id ric addr f subs = Ok {| ric with nr_pub_sub := t; nr_arrs := <[addr := [subs]]> (nr_arrs ric) |} /\
    al_holds t sl' /\ sl' ≡ₚ (f, addr) :: sl /\ rb_key_sz t = ran_func_id_sz.
Proof.
  intros H Hk Hn Hl. unfold register_listeners_for_ran_func_id.
  destruct (find_first_ok (nr_pub_sub ric) sl (eq_ran_func_id f) H) as [[-> _]|(l1 & k & v & l2 & it & _ & -> & _ & Hf & _)].
  - cbn [rbind]. rewrite Nat.eqb_refl. rewrite <- Hk.
    destruct (al_insert (nr_pub_sub ric) sl f addr H Hl) as (t & Hi & Ht & Hks & _). cbn in Hks.
    change (assoc_key_sz (nr_pub_sub ric)) with (rb_key_sz (nr_pub_sub ric)) in Hi. rewrite Hi. cbn [rbind].
    exists t, (kv_insert cmp_ran_func_id (f, addr) sl). split; [done|]. split; [exact Ht|]. split; [apply kv_insert_perm|congruence].
  - exfalso. apply Hn. apply Z.eqb_eq in Hf. subst k. rewrite map_app. apply elem_of_app. right. by left.
Qed.

Lemma load_default_ok fs : forall ric sl, al_holds (nr_pub_sub ric) sl -> rb_key_sz (nr_pub_sub ric) = ran_func_id_sz ->
  NoDup (map snd fs ++ map fst sl) -> NoDup (map fst fs ++ map snd sl) -> zlen sl + zlen fs < 2 ^ 64 ->
  Forall (fun p => nr_arrs ric !! p.2 = Some default_listeners) sl ->
  exists ric', load_default_pub_sub_ric ric fs = Ok ric' /\ pub_is ric' (map snd fs ++ map fst sl) default_listeners /\
    nr_req_id ric' = nr_req_id ric /\ nr_pending ric' = nr_pending ric.
Proof.
  induction fs as [|[a f] fs IH]; intros ric sl H Hk Hn Hna Hl Hf; cbn [load_default_pub_sub_ric].
  { exists ric. split; [done|]. split; [|done]. by exists sl. }
  simpl in Hn, Hna. apply NoDup_cons in Hn as Hn'. destruct Hn' as [Hnf Hn2]. apply NoDup_cons in Hna as Hna'. destruct Hna' as [Hnaf Hna2].
  rewrite zlen_cons in Hl. pose proof (zlen_nonneg fs).
  destruct (register_new_ok ric sl f a stdout_listener H Hk ltac:(set_solver) ltac:(lia)) as (t & sl' & -> & Ht & Hp & Hkt). cbn [rbind].
  set (ric1 := {| ric with nr_pub_sub := t; nr_arrs := _ |}).
  assert (Hin : (f, a) ∈ sl') by (rewrite Hp; by left).
  assert (Hnd : NoDup (map fst sl')) by (rewrite Hp; simpl; apply NoDup_cons; split; [set_solver|by apply NoDup_app in Hn2 as (_ & _ & ?)]).
  rewrite (register_more_ok ric1 sl' f a a [stdout_listener]) by (done || apply lookup_insert_eq). cbn [rbind].
  rewrite (register_more_ok _ sl' f a a [stdout_listener; redis_listener]) by (done || apply lookup_insert_eq). cbn [rbind].
  destruct (IH {| ric1 with nr_arrs := <[a:=default_listeners]> (<[a:=[stdout_listener; redis_listener]]> (nr_arrs ric1)) |} sl') as (ric' & Hr & Hpub & Hid & Hpn); simpl.
  - exact Ht.
  - exact Hkt.
  - rewrite Hp. simpl. by rewrite <- Permutation_middle.
  - rewrite Hp. simpl. by rewrite <- Permutation_middle.
  - rewrite (zlen_perm _ _ Hp), zlen_cons. lia.
  - rewrite Hp. constructor; [apply lookup_insert_eq|]. rewrite Forall_forall in Hf. apply Forall_forall. intros [f' a'] Hin'.
    assert (Hne : a <> a') by (intros ->; apply Hnaf, elem_of_app; right; by apply (list_elem_of_fmap_2 snd sl (f', a'))).
    simpl. rewrite !lookup_insert_ne by done. by apply (Hf _ Hin').
  - exists ric'. split; [exact Hr|]. split; [|done]. destruct Hpub as (sl2 & ? & Hp2 & ?). exists sl2. split; [done|]. split; [|done].
    rewrite Hp2, Hp. simpl. by rewrite <- Permutation_middle.
Qed.

Definition router0 (nodes : list global_e2_node_id_t) (fs : list (nat * Z)) : router :=
  mk_router 1021 [] [] 7 [] nodes (map snd fs) default_listeners.

Lemma init_ric_ok nodes fs : NoDup (map fst fs) -> NoDup (map snd fs) -> zlen fs < 2 ^ 64 ->
  exists r, init_ric nodes fs = Ok r /\ ric_is r (router0 nodes fs).
Proof.
  intros Ha Hf Hl. unfold init_ric, init_near_ric.
  destruct (bi_init_ok (AL:=fd_ric_assoc) (AR:=ric_fd_assoc) fd_sz event_ric_sz true true) as (pnd & -> & Hp); [done|done|]. cbn [rbind].
  destruct (al_init (AssocLaws:=pub_sub_laws) ran_func_id_sz true) as (t & Hi & Ht & Hk & _); [done|]. cbn in Hi. cbn. rewrite Hi. cbn [rbind].
  destruct (load_default_ok fs (mk_near_ric 1021 pnd t ∅) [] Ht Hk) as (ric & -> & Hpub & Hid & Hpn).
  { by rewrite app_nil_r. }
  { by rewrite app_nil_r. }
  { rewrite zlen_nil. lia. }
  { constructor. }
  cbn [rbind]. unfold init_e42_iapp, init_map_xapps_sad, init_map_ric_id.
  destruct (bi_init_ok (AL:=xid_assoc (sri_t:=sri_t)) (AR:=sad_assoc) xapp_id_sz sctp_info_sz true true) as (xa & -> & Hxa); [done|done|]. cbn [rbind].
  destruct (bi_init_ok (AL:=node_assoc) (AR:=xapp_assoc) e2_node_ric_id_sz xapp_ric_id_sz true true) as (mp & -> & Hmp); [done|done|]. cbn [rbind].
  eexists. split; [done|]. rewrite app_nil_r in Hpub.
  split; simpl; try done; [by apply bij_fresh| |by apply bij_fresh].
  rewrite Hpn. by apply bij_fresh.
Qed.

End Router.
