(* ===== verification/IAppProps.v ===== *)
(** The properties of the RIC and the iApp of flexric. *)

From S2P Require Import Prelude Assoc Compare RbTree RbSpec BiMap RicMap IApp IAppSpec.

Section Props.
Context {sri_t payload : Type}.
Abbreviation router := (router sri_t).
Abbreviation out := (ric_out sri_t payload).
Abbreviation event := (ric_event (sri_t:=sri_t) (payload:=payload)).
Implicit Types (s : router) (evs : list event) (outs : list out).

(** ** Who asked *)

(** A request came from this address, under this number and in the name of this
    xApp. *)
Definition asked_from evs (src : sctp_info_t sri_t) (x : xapp_ric_id_t) : Prop :=
  exists fd node p,
    FromXapp src (E42_RIC_SUBSCRIPTION_REQUEST (xr_xapp_id x) node (xr_ric_id x) p) fd ∈ evs \/
    FromXapp src (E42_RIC_CONTROL_REQUEST (xr_xapp_id x) node (xr_ric_id x) p) fd ∈ evs.

Definition asked evs (x : xapp_ric_id_t) : Prop := exists src, asked_from evs src x.

(** The xApp got its number at this address. *)
Definition set_up outs (xapp_id : Z) (info : sctp_info_t sri_t) : Prop := exists nodes, SetupResponse info xapp_id nodes ∈ outs.

(** Every request comes from the address that the xApp was set up at. *)
Definition own_requests evs outs : Prop := forall src x, asked_from evs src x -> set_up outs (xr_xapp_id x) src.

Definition node_msg_id (m : node_msg_t payload) : ric_gen_id_t :=
  match m with
  | RIC_SUBSCRIPTION_RESPONSE id _ _ | RIC_SUBSCRIPTION_DELETE_RESPONSE id | RIC_INDICATION id _
  | RIC_CONTROL_ACKNOWLEDGE id _ | RIC_CONTROL_FAILURE id _ => id
  end.

(** What leads to the state [s]. *)
Definition history s evs outs : Prop :=
  Forall (fun p => asked evs p.2) (ro_live s) /\ Forall (fun p => set_up outs p.1 p.2) (ro_xapps s).

(** Everything sent to an xApp answers a request of that xApp. *)
Definition answers_own evs outs (o : out) : Prop :=
  match o with
  | ToXapp info m => exists x, asked evs x /\ node_msg_id m = xr_ric_id x /\ set_up outs (xr_xapp_id x) info
  | _ => True
  end.

Lemma asked_app evs evs' x : asked evs x -> asked (evs ++ evs') x.
Proof. intros (i & fd & n & p & H). exists i, fd, n, p. rewrite !elem_of_app. naive_solver. Qed.

Lemma set_up_app outs outs' x info : set_up outs x info -> set_up (outs ++ outs') x info.
Proof. intros [ns H]. exists ns. apply elem_of_app. by left. Qed.

Lemma answers_own_app evs evs' outs outs' o : answers_own evs outs o -> answers_own (evs ++ evs') (outs ++ outs') o.
Proof. destruct o; try done. intros (x & ? & ? & ?). exists x. split_and!; [by apply asked_app|done|by apply set_up_app]. Qed.

Lemma history_app s evs evs' outs outs' : history s evs outs -> history s (evs ++ evs') (outs ++ outs').
Proof.
  intros [H1 H2]. split; (eapply Forall_impl; [eassumption|]); intros p Hp; [by apply asked_app|by apply set_up_app].
Qed.

Lemma ro_wait_history s s' fd ev evs outs : ro_wait s fd ev = Some s' -> history s evs outs -> history s' evs outs.
Proof. unfold ro_wait. intros H. case_match; [|done]. by injection H as <-. Qed.

Lemma ro_stop_history s s' fd ev evs outs : ro_stop s ev = Some (s', fd) -> history s evs outs -> history s' evs outs.
Proof. unfold ro_stop. intros H. destruct (take_out _ _) as [[? ?]|]; [|done]. by injection H as <- <-. Qed.

Lemma ro_answer_history s id final s' info x evs outs : ro_answer s id final = Some (s', info, x) -> history s evs outs ->
  history s' evs outs /\ asked evs x /\ set_up outs (xr_xapp_id x) info.
Proof.
  intros H [H1 H2]. unfold ro_answer, ro_find, ro_addr in H.
  destruct (List.find _ (ro_live s)) as [q|] eqn:Hq; [|done]. simpl in H. case_bool_decide; [|done].
  destruct (List.find _ (ro_xapps s)) as [a|] eqn:Ha; [|done]. simpl in H. injection H as <- <- <-.
  apply list_find_some in Hq as [Hq _]. apply list_find_some in Ha as [Ha Hx]. apply Z.eqb_eq in Hx.
  rewrite Forall_forall in H1. rewrite Forall_forall in H2. split_and!.
  - split; simpl; apply Forall_forall; [|by destruct final]. intros p Hp. apply H1. destruct final; [|done].
    simpl in Hp. by apply list_elem_of_filter in Hp as [_ ?].
  - by apply (H1 q).
  - rewrite <- Hx. by apply (H2 a).
Qed.

Lemma ro_request_history s fd x node id kind ev s' id' evs outs : ro_request s fd x node id kind ev = Some (s', id') -> history s evs outs ->
  asked evs (mk_xapp_ric_id id x) -> history s' evs outs.
Proof.
  unfold ro_request. intros H [H1 H2] Ha. case_match; [|done]. unfold ro_wait in H. case_match; [|done]. simpl in H. injection H as <- <-.
  split; simpl; [by constructor|done].
Qed.

Lemma ro_step_history s ev s' o evs outs : ro_step s ev = Some (s', o) -> history s evs outs ->
  history s' (evs ++ [ev]) (outs ++ o) /\ Forall (answers_own (evs ++ [ev]) (outs ++ o)) o.
Proof.
  intros Hs Hh. apply (history_app s evs [ev] outs o) in Hh.
  destruct ev as [info [len_rf|x node id p|x id|x node id p] fd|m|info fds]; cbn [ro_step] in Hs; [| | | | |done].
  - case_match; [|done]. injection Hs as <- <-. split; [|by repeat constructor]. destruct Hh as [H1 H2]. split; [done|].
    simpl. constructor; [|done]. exists (ro_nodes s). apply elem_of_app. right. by left.
  - destruct (ro_request _ _ _ _ _ _ _) as [[s1 id']|] eqn:Hr; [|done]. cbn [mbind option_bind] in Hs. injection Hs as <- <-.
    split; [|by repeat constructor]. eapply ro_request_history; [exact Hr|done|].
    exists info, fd, node, p. left. apply elem_of_app. right. by left.
  - destruct (List.find _ (ro_live s)) as [q|]; [|done]. cbn [mbind option_bind] in Hs. case_match; [|done].
    case_match; [by injection Hs as <- <-|]. destruct (ro_wait _ _ _) as [s1|] eqn:Hw; [|done]. cbn [mbind option_bind] in Hs. injection Hs as <- <-.
    split; [by eapply ro_wait_history|by repeat constructor].
  - destruct (ro_request _ _ _ _ _ _ _) as [[s1 id']|] eqn:Hr; [|done]. cbn [mbind option_bind] in Hs. injection Hs as <- <-.
    split; [|by repeat constructor]. eapply ro_request_history; [exact Hr|done|].
    exists info, fd, node, p. right. apply elem_of_app. right. by left.
  - destruct m as [id admitted na|id|id p|id outcome|id p].
    + case_match; [|done]. router_answer Hs. pose proof (ro_stop_history _ _ _ _ _ _ Hstop Hh) as Hh1.
      destruct (ro_answer_history _ _ _ _ _ _ _ _ Hans Hh1) as (Hh2 & ? & ?). split; [done|]. repeat constructor. by eexists.
    + router_answer Hs. pose proof (ro_stop_history _ _ _ _ _ _ Hstop Hh) as Hh1.
      destruct (ro_answer_history _ _ _ _ _ _ _ _ Hans Hh1) as (Hh2 & ? & ?). split; [done|]. repeat constructor. by eexists.
    + case_match; [|done]. destruct (ro_answer _ _ _) as [[[? ?] ?]|] eqn:Hans; [|done]. cbn [mbind option_bind] in Hs. injection Hs as <- <-.
      destruct (ro_answer_history _ _ _ _ _ _ _ _ Hans Hh) as (Hh2 & ? & ?). split; [done|]. apply Forall_app. split.
      * by apply Forall_fmap, Forall_true.
      * repeat constructor. by eexists.
    + router_answer Hs. pose proof (ro_stop_history _ _ _ _ _ _ Hstop Hh) as Hh1.
      destruct (ro_answer_history _ _ _ _ _ _ _ _ Hans Hh1) as (Hh2 & ? & ?). split; [done|]. repeat constructor. by eexists.
    + router_answer Hs. pose proof (ro_stop_history _ _ _ _ _ _ Hstop Hh) as Hh1.
      destruct (ro_answer_history _ _ _ _ _ _ _ _ Hans Hh1) as (Hh2 & ? & ?). split; [done|]. repeat constructor. by eexists.
Qed.

Lemma ro_run_history evs : forall s s' o pre outs, ro_run s evs = Some (s', o) -> history s pre outs ->
  Forall (answers_own pre outs) outs -> Forall (answers_own (pre ++ evs) (outs ++ o)) (outs ++ o).
Proof.
  induction evs as [|ev evs IH]; intros s s' o pre outs Hr Hh Hf; simpl in Hr.
  { injection Hr as <- <-. by rewrite !app_nil_r. }
  destruct (ro_step s ev) as [[s1 o1]|] eqn:H1; [|done]. cbn [mbind option_bind] in Hr.
  destruct (ro_run s1 evs) as [[s2 o2]|] eqn:H2; [|done]. cbn [mbind option_bind] in Hr. injection Hr as <- <-.
  destruct (ro_step_history _ _ _ _ _ _ H1 Hh) as [Hh1 Hf1].
  pose proof (IH s1 s2 o2 (pre ++ [ev]) (outs ++ o1) H2 Hh1) as Hi. rewrite <- !app_assoc in Hi. apply Hi.
  apply Forall_app. split; [|done]. eapply Forall_impl; [exact Hf|]. intros x. apply answers_own_app.
Qed.

(** ** The addresses of the xApps *)

(** The addresses that were given out are those of the registry, and no xApp has
    two. *)
Record addresses s outs : Prop := {
  ad_given : forall x info, set_up outs x info -> (x, info) ∈ ro_xapps s;
  ad_once : NoDup (map fst (ro_xapps s));
  ad_below : Forall (fun p => p.1 < ro_xnext s) (ro_xapps s)
}.

(** A step that sets nobody up. *)
Lemma addresses_same s s' outs o : ro_xapps s' = ro_xapps s -> ro_xnext s' = ro_xnext s ->
  Forall (fun x : out => match x with SetupResponse _ _ _ => False | _ => True end) o -> addresses s outs -> addresses s' (outs ++ o).
Proof.
  intros Hx Hn Ho [H1 H2 H3]. split; rewrite Hx, ?Hn; [|done|done]. intros x info [ns Hin]. apply elem_of_app in Hin as [Hin|Hin].
  - apply H1. by exists ns.
  - rewrite Forall_forall in Ho. by apply Ho in Hin.
Qed.

Lemma ro_wait_same s s' fd ev : ro_wait s fd ev = Some s' -> ro_xapps s' = ro_xapps s /\ ro_xnext s' = ro_xnext s.
Proof. unfold ro_wait. intros H. case_match; [|done]. by injection H as <-. Qed.

Lemma ro_stop_same s s' fd ev : ro_stop s ev = Some (s', fd) -> ro_xapps s' = ro_xapps s /\ ro_xnext s' = ro_xnext s.
Proof. unfold ro_stop. intros H. destruct (take_out _ _) as [[? ?]|]; [|done]. by injection H as <- <-. Qed.

Lemma ro_answer_same s id final s' info x : ro_answer s id final = Some (s', info, x) -> ro_xapps s' = ro_xapps s /\ ro_xnext s' = ro_xnext s.
Proof.
  unfold ro_answer. intros H. destruct (ro_find _ _); [|done]. simpl in H. case_bool_decide; [|done].
  destruct (ro_addr _ _); [|done]. simpl in H. injection H as <- _ _. by destruct final.
Qed.

Lemma ro_request_same s fd x node id kind ev s' id' : ro_request s fd x node id kind ev = Some (s', id') ->
  ro_xapps s' = ro_xapps s /\ ro_xnext s' = ro_xnext s.
Proof.
  unfold ro_request. intros H. case_match; [|done]. destruct (ro_wait _ _ _) as [s1|] eqn:Hw; [|done]. simpl in H.
  injection H as <- <-. by apply ro_wait_same in Hw.
Qed.

Lemma ro_step_addresses s ev s' o outs : ro_step s ev = Some (s', o) -> addresses s outs -> addresses s' (outs ++ o).
Proof.
  intros Hs Ha. destruct ev as [info [len_rf|x node id p|x id|x node id p] fd|m|info fds]; cbn [ro_step] in Hs; [| | | | |done].
  - case_match; [|done]. injection Hs as <- <-. destruct Ha as [H1 H2 H3]. split; simpl.
    + intros x i [ns Hin]. apply elem_of_app in Hin as [Hin|Hin]; [right; apply H1; by exists ns|].
      apply elem_of_cons in Hin as [[= -> -> _]|Hin]; [by left|by apply elem_of_nil in Hin].
    + constructor; [|done]. intros Hin. apply list_elem_of_fmap in Hin as (p & Hp & Hin). rewrite Forall_forall in H3. specialize (H3 p Hin). lia.
    + constructor; [simpl; lia|]. eapply Forall_impl; [exact H3|]. simpl. lia.
  - destruct (ro_request _ _ _ _ _ _ _) as [[s1 id']|] eqn:Hr; [|done]. cbn [mbind option_bind] in Hs. injection Hs as <- <-.
    apply ro_request_same in Hr as [? ?]. apply (addresses_same s); [done|done|by repeat constructor|done].
  - destruct (List.find _ (ro_live s)) as [q|]; [|done]. cbn [mbind option_bind] in Hs. case_match; [|done].
    case_match; [injection Hs as <- <-; by apply (addresses_same s)|].
    destruct (ro_wait _ _ _) as [s1|] eqn:Hw; [|done]. cbn [mbind option_bind] in Hs. injection Hs as <- <-.
    apply ro_wait_same in Hw as [? ?]. apply (addresses_same s); [done|done|by repeat constructor|done].
  - destruct (ro_request _ _ _ _ _ _ _) as [[s1 id']|] eqn:Hr; [|done]. cbn [mbind option_bind] in Hs. injection Hs as <- <-.
    apply ro_request_same in Hr as [? ?]. apply (addresses_same s); [done|done|by repeat constructor|done].
  - destruct m as [id admitted na|id|id p|id outcome|id p]; repeat (case_match; [|done]);
      try (router_answer Hs; apply ro_stop_same in Hstop as [? ?]; apply ro_answer_same in Hans as [? ?];
           apply (addresses_same s); [congruence|congruence|by repeat constructor|done]).
    destruct (ro_answer _ _ _) as [[[? ?] ?]|] eqn:Hans; [|done]. cbn [mbind option_bind] in Hs. injection Hs as <- <-.
    apply ro_answer_same in Hans as [? ?]. apply (addresses_same s); [done|done| |done].
    apply Forall_app. split; [by apply Forall_fmap, Forall_true|by repeat constructor].
Qed.

Lemma ro_run_addresses evs : forall s s' o outs, ro_run s evs = Some (s', o) -> addresses s outs -> addresses s' (outs ++ o).
Proof.
  induction evs as [|ev evs IH]; intros s s' o outs Hr Ha; simpl in Hr; [injection Hr as <- <-; by rewrite app_nil_r|].
  destruct (ro_step s ev) as [[s1 o1]|] eqn:H1; [|done]. cbn [mbind option_bind] in Hr.
  destruct (ro_run s1 evs) as [[s2 o2]|] eqn:H2; [|done]. cbn [mbind option_bind] in Hr. injection Hr as <- <-.
  rewrite app_assoc. eapply IH; [exact H2|]. by eapply ro_step_addresses.
Qed.

(** An xApp has one address. *)
Lemma set_up_once s outs x i i' : addresses s outs -> set_up outs x i -> set_up outs x i' -> i = i'.
Proof.
  intros [H1 H2 _] Hi%H1 Hi'%H1. apply elem_of_Permutation in Hi as (k & Hk). rewrite Hk in H2, Hi'. simpl in H2.
  apply NoDup_cons in H2 as [Hn _]. apply elem_of_cons in Hi' as [Heq|Hin]; [by injection Heq|].
  exfalso. apply Hn. apply list_elem_of_fmap. by exists (x, i').
Qed.

(** ** A deletion that hits another xApp *)

Lemma ro_find_live r s n x : ric_is r s -> (n, x) ∈ ro_live s -> ro_find s (ric_req_id (en_ric_id n)) = Some (n, x).
Proof.
  intros H Hin. unfold ro_find. destruct (List.find _ (ro_live s)) as [p|] eqn:Hf.
  - apply list_find_some in Hf as [Hp Heq]. apply Z.eqb_eq in Heq. f_equal. destruct (ri_map _ _ H) as (_ & H1 & _).
    apply (inj1_elem _ _ _ H1 Hp Hin). by apply cmp_e2_node_0.
  - exfalso. apply list_elem_of_In in Hin. pose proof (List.find_none _ _ Hf _ Hin) as Hn. simpl in Hn. by rewrite Z.eqb_refl in Hn.
Qed.

(** The answer to a deletion for which the timer [fd] runs. *)
Lemma delete_answer_step r s s1 fd n x info : ric_is r s -> (n, x) ∈ ro_live s -> ro_addr s (xr_xapp_id x) = Some info ->
  ro_wait s fd (mk_pending_event_ric SUBSCRIPTION_DELETE_REQUEST_PENDING_EVENT (en_ric_id n)) = Some s1 ->
  ro_step s1 (FromNode (RIC_SUBSCRIPTION_DELETE_RESPONSE (en_ric_id n))) =
    Some ({| s with ro_live := filter (fun q => q.2 <> x) (ro_live s) |}, [RmFd fd; @ToXapp sri_t payload info (RIC_SUBSCRIPTION_DELETE_RESPONSE (xr_ric_id x))]).
Proof.
  intros H Hin Ha Hw. destruct (ro_wait_ok (rc_ric r) s s1 _ _ (ri_pend _ _ H) Hw) as (_ & -> & _). cbn [ro_step].
  unfold ro_stop. cbn [ro_pend take_out snd]. rewrite (comp_refl cmp_pending_event_ric). cbn [Z.eqb mbind option_bind fst].
  unfold ro_answer. change (ro_find _ (ric_req_id (en_ric_id n))) with (ro_find s (ric_req_id (en_ric_id n))).
  rewrite (ro_find_live r s n x H Hin). cbn [mbind option_bind fst snd]. rewrite bool_decide_eq_true_2 by done.
  change (ro_addr _ (xr_xapp_id x)) with (ro_addr s (xr_xapp_id x)). rewrite Ha. by destruct s.
Qed.

(** The code takes the request of the first xApp for the one to delete. *)
Lemma delete_first_ok r s s1 fd src id a b n : ric_is r s -> (n, mk_xapp_ric_id id a) ∈ ro_live s ->
  en_ric_req_type n = SUBSCRIPTION_RIC_REQUEST_TYPE -> (forall q, q ∈ ro_live s -> xr_ric_id q.2 = id -> a <= xr_xapp_id q.2) ->
  ro_wait s fd (mk_pending_event_ric SUBSCRIPTION_DELETE_REQUEST_PENDING_EVENT (en_ric_id n)) = Some s1 ->
  exists r', ric_step r (FromXapp src (E42_RIC_SUBSCRIPTION_DELETE_REQUEST b id) fd) =
      Ok (r', [@ToNode sri_t payload (en_e2_node_id n) (RIC_SUBSCRIPTION_DELETE_REQUEST (en_ric_id n))]) /\ ric_is r' s1.
Proof.
  intros H Hin Hty Hmin Hw. cbn [ric_step]. unfold e2ap_handle_e42_ric_subscription_delete_request_iapp.
  destruct (find_ric_req_ok _ _ (ri_map _ _ H) (mk_xapp_ric_id id b)) as [[_ HF]|(n' & y & -> & Hin' & Hid & Hle)].
  { exfalso. rewrite Forall_forall in HF. by apply (HF _ Hin). }
  rewrite Forall_forall in Hle. specialize (Hle _ Hin eq_refl). simpl in Hle, Hid. specialize (Hmin _ Hin' Hid). simpl in Hmin.
  assert (Hny : (n', y) = (n, mk_xapp_ric_id id a)).
  { destruct (ri_map _ _ H) as (_ & _ & H2). apply (inj2_elem _ _ _ H2 Hin' Hin). apply cmp_xapp_0. destruct y as [yid yx]. simpl in *. f_equal; [done|lia]. }
  injection Hny as -> _. cbn [rbind]. rewrite Hty, bool_decide_eq_true_2 by done. cbn [assert_ rbind].
  pose proof (ri_live _ _ H) as Hl. rewrite Forall_forall in Hl. destruct (Hl _ Hin) as (_ & Hset & _). simpl in Hset. rewrite Hset.
  destruct (fwd_delete_new (payload:=payload) r s fd (en_e2_node_id n) _ s1 H Hw) as (ric & -> & H'). by eexists.
Qed.

(** ** What can be pending *)

Definition ric_kind (p : Z * pending_event_ric_t) : Prop :=
  per_ev p.2 = SUBSCRIPTION_REQUEST_PENDING_EVENT \/ per_ev p.2 = SUBSCRIPTION_DELETE_REQUEST_PENDING_EVENT \/
  per_ev p.2 = CONTROL_REQUEST_PENDING_EVENT.

Lemma ro_wait_kinds s s' fd ev : ro_wait s fd ev = Some s' -> ric_kind (fd, ev) -> Forall ric_kind (ro_pend s) -> Forall ric_kind (ro_pend s').
Proof. unfold ro_wait. intros H Hk Hf. case_match; [|done]. injection H as <-. by constructor. Qed.

Lemma ro_stop_kinds s s' fd ev : ro_stop s ev = Some (s', fd) -> Forall ric_kind (ro_pend s) -> Forall ric_kind (ro_pend s').
Proof.
  unfold ro_stop. intros H Hf. destruct (take_out _ _) as [[p l]|] eqn:Ht; [|done]. injection H as <- <-.
  apply take_out_some in Ht as [Hp _]. rewrite Hp in Hf. by inversion Hf.
Qed.

Lemma ro_answer_pend s id final s' info x : ro_answer s id final = Some (s', info, x) -> ro_pend s' = ro_pend s.
Proof.
  unfold ro_answer. intros H. destruct (ro_find _ _); [|done]. simpl in H. case_bool_decide; [|done].
  destruct (ro_addr _ _); [|done]. simpl in H. injection H as <- _ _. by destruct final.
Qed.

Lemma ro_request_kinds s fd x node id kind ev s' id' : ro_request s fd x node id kind ev = Some (s', id') ->
  (forall i, ric_kind (fd, mk_pending_event_ric ev i)) -> Forall ric_kind (ro_pend s) -> Forall ric_kind (ro_pend s').
Proof.
  unfold ro_request. intros H Hk Hf. case_match; [|done]. destruct (ro_wait _ _ _) as [s1|] eqn:Hw; [|done].
  simpl in H. injection H as <- <-. by apply (ro_wait_kinds _ _ _ _ Hw).
Qed.

Lemma ro_step_kinds s (ev : event) s' o : ro_step s ev = Some (s', o) -> Forall ric_kind (ro_pend s) -> Forall ric_kind (ro_pend s').
Proof.
  intros Hs Hf. destruct ev as [info [len_rf|x node id p|x id|x node id p] fd|m|info fds]; cbn [ro_step] in Hs; [| | | | |done].
  - case_match; [|done]. by injection Hs as <- <-.
  - destruct (ro_request _ _ _ _ _ _ _) as [[s1 id']|] eqn:Hr; [|done]. cbn [mbind option_bind] in Hs. injection Hs as <- <-.
    eapply ro_request_kinds; [exact Hr|by left|done].
  - destruct (List.find _ (ro_live s)) as [q|]; [|done]. cbn [mbind option_bind] in Hs. case_match; [|done].
    case_match; [by injection Hs as <- <-|]. destruct (ro_wait _ _ _) as [s1|] eqn:Hw; [|done]. cbn [mbind option_bind] in Hs. injection Hs as <- <-.
    eapply ro_wait_kinds; [exact Hw|right; by left|done].
  - destruct (ro_request _ _ _ _ _ _ _) as [[s1 id']|] eqn:Hr; [|done]. cbn [mbind option_bind] in Hs. injection Hs as <- <-.
    eapply ro_request_kinds; [exact Hr|right; by right|done].
  - destruct m as [id admitted na|id|id p|id outcome|id p]; repeat (case_match; [|done]);
      try (router_answer Hs; rewrite (ro_answer_pend _ _ _ _ _ _ Hans); by eapply ro_stop_kinds).
    destruct (ro_answer _ _ _) as [[[? ?] ?]|] eqn:Hans; [|done]. cbn [mbind option_bind] in Hs. injection Hs as <- <-.
    by rewrite (ro_answer_pend _ _ _ _ _ _ Hans).
Qed.

Lemma ro_run_kinds evs : forall s s' o, ro_run s evs = Some (s', o) -> Forall ric_kind (ro_pend s) -> Forall ric_kind (ro_pend s').
Proof.
  induction evs as [|ev evs IH]; intros s s' o Hr Hf; simpl in Hr; [by injection Hr as <- <-|].
  destruct (ro_step s ev) as [[s1 o1]|] eqn:H1; [|done]. cbn [mbind option_bind] in Hr.
  destruct (ro_run s1 evs) as [[s2 o2]|] eqn:H2; [|done]. cbn [mbind option_bind] in Hr. injection Hr as <- <-.
  eapply IH; [exact H2|]. by eapply ro_step_kinds.
Qed.

End Props.

(** ** The properties *)

(** C13. The RIC and its iApp are a router.  As long as the xApps are registered,
    use no number twice at a time and delete only requests whose number no other
    xApp uses, as long as the nodes answer what they were asked, and the numbers
    towards the nodes are not used up, no assertion of the code fails: it sends
    what the router sends, and its registries hold what the router holds. *)
Theorem iapp_refines_router {sri_t payload} nodes fs (evs : list (ric_event (sri_t:=sri_t) (payload:=payload))) s outs :
  NoDup (map fst fs) -> NoDup (map snd fs) -> zlen fs < 2 ^ 64 ->
  ro_run (router0 nodes fs) evs = Some (s, outs) ->
  exists r r', init_ric nodes fs = Ok r /\ ric_run r evs = Ok (r', outs) /\ ric_is r' s.
Proof.
  intros Ha Hf Hl Hr. destruct (init_ric_ok (sri_t:=sri_t) nodes fs Ha Hf Hl) as (r & Hi & H).
  destruct (ric_run_ok evs r _ _ _ H Hr) as (r' & Hrun & H'). by exists r, r'.
Qed.

(** C14. Nothing reaches the wrong xApp, under the discipline of C13 ([ro_run]
    has a result): each message that the code sends to the address of an xApp
    answers a request that came in the name of this xApp, and carries the number
    of that request.  The code does not compare the address that a request comes
    from with that of the xApp it names, so "in the name of" is all that holds
    without a hypothesis on the senders; when each xApp asks from the address it
    was set up at, the message answers a request that came from the very address
    it goes to.  No xApp is set up at two addresses. *)
Theorem iapp_answers_own_requests {sri_t payload} nodes fs (evs : list (ric_event (sri_t:=sri_t) (payload:=payload))) s outs :
  NoDup (map fst fs) -> NoDup (map snd fs) -> zlen fs < 2 ^ 64 ->
  ro_run (router0 nodes fs) evs = Some (s, outs) ->
  exists r r', init_ric nodes fs = Ok r /\ ric_run r evs = Ok (r', outs) /\
    (forall xapp_id i i', set_up outs xapp_id i -> set_up outs xapp_id i' -> i = i') /\
    forall info m, ToXapp info m ∈ outs ->
      exists x, asked evs x /\ node_msg_id m = xr_ric_id x /\ set_up outs (xr_xapp_id x) info /\
        (own_requests evs outs -> asked_from evs info x).
Proof.
  intros Ha Hf Hl Hr. destruct (init_ric_ok (sri_t:=sri_t) nodes fs Ha Hf Hl) as (r & Hi & H).
  destruct (ric_run_ok evs r _ _ _ H Hr) as (r' & Hrun & H'). exists r, r'. split; [done|]. split; [done|].
  assert (Hone : forall x i i', set_up outs x i -> set_up outs x i' -> i = i').
  { intros x i i'. apply (set_up_once s outs). apply (ro_run_addresses evs _ _ _ [] Hr).
    split; [by intros x0 i0 [ns Hn%elem_of_nil]|constructor|constructor]. }
  split; [exact Hone|].
  intros info m Hin. pose proof (ro_run_history evs _ _ _ [] [] Hr ltac:(by split) ltac:(by constructor)) as Ho.
  rewrite Forall_forall in Ho. destruct (Ho _ Hin) as (x & [src Hx] & Hid & Hs). exists x. split; [by exists src|]. split_and!; [done|done|].
  intros Hown. by rewrite (Hone _ _ _ Hs (Hown src x Hx)).
Qed.

(** C36. Deletion is different: when several xApps have a live request under the
    same number, the first of them (the least xApp number [a]) with a
    subscription, and another xApp [b] asks to delete its subscription of that
    number, the code tells the node of [a] to delete the subscription of [a];
    the node answers, and the code drops the request of [a], tells [a] that it
    is deleted, and keeps the one of [b].  The comparison [eq_xapp_ric_gen_id]
    looks at the xApp of one argument only. *)
Theorem iapp_delete_hits_other_xapp {sri_t payload} nodes fs (evs : list (ric_event (sri_t:=sri_t) (payload:=payload))) s outs id a b na nb fd s1 src :
  NoDup (map fst fs) -> NoDup (map snd fs) -> zlen fs < 2 ^ 64 ->
  ro_run (router0 nodes fs) evs = Some (s, outs) ->
  (na, mk_xapp_ric_id id a) ∈ ro_live s -> en_ric_req_type na = SUBSCRIPTION_RIC_REQUEST_TYPE ->
  (forall q, q ∈ ro_live s -> xr_ric_id q.2 = id -> a <= xr_xapp_id q.2) ->
  (nb, mk_xapp_ric_id id b) ∈ ro_live s -> a <> b ->
  ro_wait s fd (mk_pending_event_ric SUBSCRIPTION_DELETE_REQUEST_PENDING_EVENT (en_ric_id na)) = Some s1 ->
  exists r r1 r2 r3 info, init_ric nodes fs = Ok r /\ ric_run r evs = Ok (r1, outs) /\ ro_addr s a = Some info /\
    ric_step (payload:=payload) r1 (FromXapp src (E42_RIC_SUBSCRIPTION_DELETE_REQUEST b id) fd) =
      Ok (r2, [ToNode (en_e2_node_id na) (RIC_SUBSCRIPTION_DELETE_REQUEST (en_ric_id na))]) /\
    ric_step (payload:=payload) r2 (FromNode (RIC_SUBSCRIPTION_DELETE_RESPONSE (en_ric_id na))) =
      Ok (r3, [RmFd fd; ToXapp info (RIC_SUBSCRIPTION_DELETE_RESPONSE id)]) /\
    exists s3, ric_is r3 s3 /\ ro_live s3 = filter (fun q => q.2 <> mk_xapp_ric_id id a) (ro_live s) /\
      (nb, mk_xapp_ric_id id b) ∈ ro_live s3.
Proof.
  intros Ha Hf Hl Hr Hina Hty Hmin Hinb Hab Hw. destruct (init_ric_ok (sri_t:=sri_t) nodes fs Ha Hf Hl) as (r & Hi & H).
  destruct (ric_run_ok evs r _ _ _ H Hr) as (r1 & Hrun & H1).
  destruct (delete_first_ok (payload:=payload) r1 s s1 fd src id a b na H1 Hina Hty Hmin Hw) as (r2 & Hdel & H2).
  pose proof (ri_live _ _ H1) as Hlive. rewrite Forall_forall in Hlive. destruct (Hlive _ Hina) as (_ & _ & [info Hinfo]). simpl in Hinfo.
  pose proof (delete_answer_step (payload:=payload) r1 s s1 fd na _ info H1 Hina Hinfo Hw) as Hans.
  destruct (node_msg_ok r2 s1 _ _ _ H2 Hans) as (r3 & Hstep & H3). exists r, r1, r2, r3, info. split_and!; try done.
  eexists. split; [exact H3|]. split; [done|]. simpl. apply list_elem_of_filter. split; [|done]. simpl. by intros [= ?].
Qed.

(** ** A pending request at the end *)

Lemma each_ok {A} (f : A -> res unit) l : Forall (fun a => f a = Ok tt) l -> each f l = Ok tt.
Proof. induction 1 as [|a l Ha _ IH]; simpl; [done|]. by rewrite Ha. Qed.

Lemma each_fail {A} (f : A -> res unit) l : Forall (fun a => f a = Ok tt \/ f a = Fail FExit) l -> Exists (fun a => f a = Fail FExit) l ->
  each f l = Fail FExit.
Proof.
  intros Hf He. induction Hf as [|a l [Ha|Ha] _ IH]; simpl; [by inversion He| |by rewrite Ha].
  rewrite Ha. simpl. apply IH. inversion He; subst; [congruence|done].
Qed.

Definition is_control (p : Z * pending_event_ric_t) : Prop := per_ev p.2 = CONTROL_REQUEST_PENDING_EVENT.

#[global] Instance is_control_dec p : Decision (is_control p).
Proof. unfold is_control. apply _. Defined.

Lemma free_event_ok p : ric_kind p -> free_pending_ev_ric (Some p.2, Some p.1) = if decide (is_control p) then Fail FExit else Ok tt.
Proof.
  destruct p as [fd [ev id]]. unfold ric_kind, is_control, free_pending_ev_ric. simpl.
  intros [E | [E | E]]; subst ev; done.
Qed.

Lemma free_pending_ok ric l : bij_is fd_sz event_ric_sz true (nr_pending ric) l -> Forall (fun p => 0 < p.1) l -> Forall ric_kind l ->
  free_pending_ric ric = if decide (Exists is_control l) then Fail FExit else Ok tt.
Proof.
  intros [H _] Hfd Hk. destruct (bi_free_ok _ _ _ _ _ _ H) as (m' & evl & evr & Hf & Hl & Hr). unfold free_pending_ric. rewrite Hf. cbn [rbind].
  assert (Hel : each free_fd evl = Ok tt).
  { apply each_ok. rewrite Hl. apply Forall_fmap. eapply Forall_impl; [exact Hfd|]. intros p Hp. unfold free_fd. simpl.
    by rewrite (proj2 (Z.ltb_lt _ _)) by done. }
  rewrite Hel. cbn [rbind]. rewrite Forall_forall in Hk.
  case_decide as Hd.
  - apply each_fail; rewrite Hr.
    + apply Forall_fmap, Forall_forall. intros p Hp. simpl. rewrite free_event_ok by (by apply Hk). case_decide; [by right|by left].
    + apply Exists_fmap. apply Exists_exists in Hd as (p & Hp & Hc). apply Exists_exists. exists p. split; [done|]. simpl.
      rewrite free_event_ok by (by apply Hk). by rewrite decide_True.
  - apply each_ok. rewrite Hr. apply Forall_fmap, Forall_forall. intros p Hp. simpl. rewrite free_event_ok by (by apply Hk).
    rewrite decide_False; [done|]. intros Hc. apply Hd, Exists_exists. by exists p.
Qed.

(** Stopping the RIC: the descriptors and events of the requests that still
    wait for an answer are released, unless one of them is a control request:
    that event is not among those [valid_pending_event] accepts, and the RIC
    aborts. *)
Theorem near_ric_stop_aborts_on_control {sri_t payload} nodes fs (evs : list (ric_event (sri_t:=sri_t) (payload:=payload))) s outs :
  NoDup (map fst fs) -> NoDup (map snd fs) -> zlen fs < 2 ^ 64 ->
  ro_run (router0 nodes fs) evs = Some (s, outs) ->
  exists r r', init_ric nodes fs = Ok r /\ ric_run r evs = Ok (r', outs) /\
    free_pending_ric (rc_ric r') =
      if decide (Exists is_control (ro_pend s)) then Fail FExit else Ok tt.
Proof.
  intros Ha Hf Hl Hr. destruct (init_ric_ok (sri_t:=sri_t) nodes fs Ha Hf Hl) as (r & Hi & H).
  destruct (ric_run_ok evs r _ _ _ H Hr) as (r' & Hrun & H'). exists r, r'. split; [done|]. split; [done|].
  apply free_pending_ok; [apply (ri_pend _ _ H')|apply (ri_fds _ _ H')|by eapply ro_run_kinds].
Qed.

(** ** A run *)

(** Two xApps at one node, which serves the RAN function 142. *)
Definition run_node : global_e2_node_id_t := mk_global_e2_node_id ngran_gNB (mk_e2ap_plmn 208 95 2) (mk_e2ap_gnb_id 3584 0) None.
Definition run_id (r : Z) : ric_gen_id_t := mk_ric_gen_id r 0 142.
Definition run_xapp (port : Z) : sctp_info_t unit := mk_sctp_info (mk_sockaddr_in 2 port 1) tt.
Definition run_router : router unit := router0 [run_node] [(1%nat, 142)].

Definition run_setup : list (ric_event (sri_t:=unit) (payload:=Z)) :=
  [FromXapp (run_xapp 5001) (E42_SETUP_REQUEST 1) 0; FromXapp (run_xapp 5002) (E42_SETUP_REQUEST 1) 0].

(** Both subscribe, one of them gets its answer and an indication and ends its
    subscription. *)
Definition run_own : list (ric_event (sri_t:=unit) (payload:=Z)) :=
  run_setup ++
  [FromXapp (run_xapp 5001) (E42_RIC_SUBSCRIPTION_REQUEST 7 run_node (run_id 1) 10) 20;
   FromXapp (run_xapp 5002) (E42_RIC_SUBSCRIPTION_REQUEST 8 run_node (run_id 2) 11) 21;
   FromNode (RIC_SUBSCRIPTION_RESPONSE (run_id 1022) [0] []);
   FromNode (RIC_INDICATION (run_id 1022) 99);
   FromXapp (run_xapp 5002) (E42_RIC_SUBSCRIPTION_DELETE_REQUEST 8 (run_id 2)) 22;
   FromNode (RIC_SUBSCRIPTION_DELETE_RESPONSE (run_id 1022))].

(** Both subscribe under the number 1. *)
Definition run_same : list (ric_event (sri_t:=unit) (payload:=Z)) :=
  run_setup ++
  [FromXapp (run_xapp 5001) (E42_RIC_SUBSCRIPTION_REQUEST 7 run_node (run_id 1) 10) 20;
   FromXapp (run_xapp 5002) (E42_RIC_SUBSCRIPTION_REQUEST 8 run_node (run_id 1) 11) 21].

(** The second xApp asks in the name of the first, which gets the answer. *)
Definition run_forged : list (ric_event (sri_t:=unit) (payload:=Z)) :=
  run_setup ++
  [FromXapp (run_xapp 5002) (E42_RIC_SUBSCRIPTION_REQUEST 7 run_node (run_id 1) 10) 20;
   FromNode (RIC_SUBSCRIPTION_RESPONSE (run_id 1021) [0] [])].

(** A control request that is not answered yet. *)
Definition run_control : list (ric_event (sri_t:=unit) (payload:=Z)) :=
  run_setup ++ [FromXapp (run_xapp 5001) (E42_RIC_CONTROL_REQUEST 7 run_node (run_id 1) 10) 20].

Lemma run_own_ends : exists s outs, ro_run run_router run_own = Some (s, outs) /\ length outs = 13%nat /\
  ToXapp (run_xapp 5002) (RIC_INDICATION (run_id 2) 99) ∈ outs.
Proof. eexists _, _. split; [vm_compute; reflexivity|]. split; [reflexivity|]. repeat (first [left; reflexivity | right]). Qed.

Lemma run_same_ends : exists s outs, ro_run run_router run_same = Some (s, outs) /\
  (mk_e2_node_ric_id run_node (run_id 1021) SUBSCRIPTION_RIC_REQUEST_TYPE, mk_xapp_ric_id (run_id 1) 7) ∈ ro_live s /\
  (mk_e2_node_ric_id run_node (run_id 1022) SUBSCRIPTION_RIC_REQUEST_TYPE, mk_xapp_ric_id (run_id 1) 8) ∈ ro_live s /\
  (forall q, q ∈ ro_live s -> xr_ric_id q.2 = run_id 1 -> 7 <= xr_xapp_id q.2) /\
  exists s1, ro_wait s 22 (mk_pending_event_ric SUBSCRIPTION_DELETE_REQUEST_PENDING_EVENT (run_id 1021)) = Some s1.
Proof.
  eexists _, _. split; [vm_compute; reflexivity|]. split; [right; left; reflexivity|]. split; [left; reflexivity|]. split.
  - cbn [ro_live]. intros q [-> | [-> | []%not_elem_of_nil]%elem_of_cons]%elem_of_cons _; done.
  - eexists. vm_compute. reflexivity.
Qed.

Example run_forged_reaches_other : exists s outs, ro_run run_router run_forged = Some (s, outs) /\
  ToXapp (run_xapp 5001) (RIC_SUBSCRIPTION_RESPONSE (run_id 1) [0] []) ∈ outs.
Proof. eexists _, _. split; [vm_compute; reflexivity|]. repeat (first [left; reflexivity | right]). Qed.

Lemma run_control_ends : exists s outs, ro_run run_router run_control = Some (s, outs) /\ Exists is_control (ro_pend s).
Proof. eexists _, _. split; [vm_compute; reflexivity|]. left. reflexivity. Qed.

Lemma run_funcs_ok : NoDup (map fst [(1%nat, 142)]) /\ NoDup (map snd [(1%nat, 142)]) /\ zlen [(1%nat, 142)] < 2 ^ 64.
Proof. split_and!; [apply NoDup_singleton|apply NoDup_singleton|done]. Qed.

Lemma iapp_refines_router_witness :
  exists s outs r r', ro_run run_router run_own = Some (s, outs) /\ length outs = 13%nat /\
    init_ric [run_node] [(1%nat, 142)] = Ok r /\ ric_run r run_own = Ok (r', outs) /\ ric_is r' s.
Proof.
  destruct run_own_ends as (s & outs & E & Hl & Hin).
  destruct (iapp_refines_router [run_node] [(1%nat, 142)] run_own s outs
    (proj1 run_funcs_ok) (proj1 (proj2 run_funcs_ok)) (proj2 (proj2 run_funcs_ok)) E) as (r & r' & H).
  exists s, outs, r, r'. exact (conj E (conj Hl H)).
Defined.

Lemma iapp_answers_own_requests_witness :
  exists s outs r r', ro_run run_router run_own = Some (s, outs) /\
    ToXapp (run_xapp 5002) (RIC_INDICATION (run_id 2) 99) ∈ outs /\
    init_ric [run_node] [(1%nat, 142)] = Ok r /\ ric_run r run_own = Ok (r', outs) /\
    (forall xapp_id i i', set_up outs xapp_id i -> set_up outs xapp_id i' -> i = i') /\
    forall info m, ToXapp info m ∈ outs ->
      exists x, asked run_own x /\ node_msg_id m = xr_ric_id x /\ set_up outs (xr_xapp_id x) info /\
        (own_requests run_own outs -> asked_from run_own info x).
Proof.
  destruct run_own_ends as (s & outs & E & Hl & Hin).
  destruct (iapp_answers_own_requests [run_node] [(1%nat, 142)] run_own s outs
    (proj1 run_funcs_ok) (proj1 (proj2 run_funcs_ok)) (proj2 (proj2 run_funcs_ok)) E) as (r & r' & H).
  exists s, outs, r, r'. exact (conj E (conj Hin H)).
Defined.

(** The xApp 8 asks to delete, and the subscription of the xApp 7 is gone. *)
Lemma iapp_delete_hits_other_xapp_witness :
  exists s outs r r1 r2 r3 info, ro_run run_router run_same = Some (s, outs) /\
    init_ric [run_node] [(1%nat, 142)] = Ok r /\ ric_run r run_same = Ok (r1, outs) /\ ro_addr s 7 = Some info /\
    ric_step (payload:=Z) r1 (FromXapp (run_xapp 5002) (E42_RIC_SUBSCRIPTION_DELETE_REQUEST 8 (run_id 1)) 22) =
      Ok (r2, [ToNode run_node (RIC_SUBSCRIPTION_DELETE_REQUEST (run_id 1021))]) /\
    ric_step (payload:=Z) r2 (FromNode (RIC_SUBSCRIPTION_DELETE_RESPONSE (run_id 1021))) =
      Ok (r3, [RmFd 22; ToXapp info (RIC_SUBSCRIPTION_DELETE_RESPONSE (run_id 1))]).
Proof.
  destruct run_same_ends as (s & outs & E & Ha & Hb & Hmin & s1 & Hw).
  destruct (iapp_delete_hits_other_xapp [run_node] [(1%nat, 142)] run_same s outs (run_id 1) 7 8
    (mk_e2_node_ric_id run_node (run_id 1021) SUBSCRIPTION_RIC_REQUEST_TYPE)
    (mk_e2_node_ric_id run_node (run_id 1022) SUBSCRIPTION_RIC_REQUEST_TYPE) 22 s1 (run_xapp 5002)
    (proj1 run_funcs_ok) (proj1 (proj2 run_funcs_ok)) (proj2 (proj2 run_funcs_ok)) E Ha eq_refl Hmin Hb)
    as (r & r1 & r2 & r3 & info & H0 & H1 & H2 & H3 & H4 & _).
  - discriminate.
  - exact Hw.
  - exists s, outs, r, r1, r2, r3, info. exact (conj E (conj H0 (conj H1 (conj H2 (conj H3 H4))))).
Defined.

Lemma near_ric_stop_aborts_on_control_witness :
  exists s outs r r', ro_run run_router run_control = Some (s, outs) /\
    init_ric [run_node] [(1%nat, 142)] = Ok r /\ ric_run r run_control = Ok (r', outs) /\
    free_pending_ric (rc_ric r') = Fail FExit.
Proof.
  destruct run_control_ends as (s & outs & E & Hc).
  destruct (near_ric_stop_aborts_on_control [run_node] [(1%nat, 142)] run_control s outs
    (proj1 run_funcs_ok) (proj1 (proj2 run_funcs_ok)) (proj2 (proj2 run_funcs_ok)) E) as (r & r' & Hi & Hr & H).
  exists s, outs, r, r'. split; [exact E|]. split; [exact Hi|]. split; [exact Hr|].
  rewrite H, decide_True; [reflexivity|exact Hc].
Defined.
