(* ===== verification/Pdcp.v ===== *)
(** The NR PDCP entity (openair2/LAYER2/nr_pdcp/nr_pdcp_entity.[ch], nr_pdcp_sdu.[ch],
    nr_pdcp_integrity_data.h and the entry points of nr_pdcp_security_nea1/2.c and
    nr_pdcp_integrity_nia1/2.c): definitions only.

    The ciphers and the MACs themselves (AES through OpenSSL, SNOW 3G) are the
    section variables [keystream_cipher] and [mac_of].  A security context is
    its algorithm and its key; [None] is the NULL of [free_security] or
    [free_integrity].  The reception list is a Rocq list; a call of
    [deliver_sdu] is an event that holds the SDU whose buffer and
    [msg_integrity] the callback gets.  COUNTs are 32-bit unsigned, the stored
    timers 64-bit unsigned with 0 for "not running". *)

From S2P Require Import Prelude.

Definition SHORT_SN_SIZE : Z := 12.
Definition LONG_SN_SIZE : Z := 18.
Definition SHORT_PDCP_HEADER_SIZE : Z := 2.
Definition LONG_PDCP_HEADER_SIZE : Z := 3.
Definition PDCP_INTEGRITY_SIZE : Z := 4.

Inductive nr_pdcp_entity_type := NR_PDCP_DRB_AM | NR_PDCP_DRB_UM | NR_PDCP_SRB.

#[global] Instance nr_pdcp_entity_type_eq_dec : EqDecision nr_pdcp_entity_type.
Proof. solve_decision. Defined.

(** -1 is "keep the current algorithm". *)
Record nr_pdcp_security := mk_security {
  integrity_algorithm : Z;
  ciphering_algorithm : Z;
  integrity_key : bytes;
  ciphering_key : bytes
}.

Record nr_pdcp_count := mk_count { cnt_sn : Z; cnt_hfn : Z }.

Record nr_pdcp_statistics := mk_pdcp_stats {
  txpdu_pkts : Z; txpdu_bytes : Z; txpdu_sn : Z;
  rxpdu_pkts : Z; rxpdu_bytes : Z; rxpdu_sn : Z;
  rxpdu_oo_pkts : Z; rxpdu_oo_bytes : Z;
  rxpdu_dd_pkts : Z; rxpdu_dd_bytes : Z;
  rxpdu_ro_count : Z;
  txsdu_pkts : Z; txsdu_bytes : Z;
  rxsdu_pkts : Z; rxsdu_bytes : Z;
  stats_mode : Z
}.

Record nr_pdcp_integrity_data := mk_integrity {
  mi_count : Z;
  mi_mac : bytes;
  mi_header_size : Z;
  mi_header : bytes
}.

Record nr_pdcp_sdu := mk_pdcp_sdu {
  ps_count : Z;
  ps_buffer : bytes;
  ps_integrity : nr_pdcp_integrity_data
}.

Definition ps_size (s : nr_pdcp_sdu) : Z := zlen (ps_buffer s).

Record nr_pdcp_entity := mk_pdcp {
  pe_type : nr_pdcp_entity_type;
  pe_rb_id : Z;
  pe_pdusession_id : Z;
  pe_has_sdap_rx : bool;
  pe_has_sdap_tx : bool;
  pe_sn_size : Z;
  pe_t_reordering : Z;
  pe_discard_timer : Z;
  pe_sn_max : Z;
  pe_window_size : Z;
  pe_tx_next : Z;
  pe_rx_next : Z;
  pe_rx_deliv : Z;
  pe_rx_reord : Z;
  pe_t_current : Z;
  pe_t_reordering_start : Z;
  pe_has_ciphering : bool;
  pe_has_integrity : bool;
  pe_keys : nr_pdcp_security;
  pe_security_context : option (Z * bytes);
  pe_integrity_context : option (Z * bytes);
  pe_is_gnb : bool;
  pe_rx_list : list nr_pdcp_sdu;
  pe_rx_size : Z;
  pe_stats : nr_pdcp_statistics;
  pe_entity_suspended : bool
}.

Definition pdcp_stats (f : nr_pdcp_statistics -> nr_pdcp_statistics) (e : nr_pdcp_entity) : nr_pdcp_entity :=
  {| e with pe_stats := f (pe_stats e) |}.

Definition stats_dropped (size : Z) (s : nr_pdcp_statistics) : nr_pdcp_statistics :=
  {| s with rxpdu_dd_pkts := u32 (rxpdu_dd_pkts s + 1); rxpdu_dd_bytes := u32 (rxpdu_dd_bytes s + size) |}.

Definition stats_sdu_up (size : Z) (s : nr_pdcp_statistics) : nr_pdcp_statistics :=
  {| s with txsdu_pkts := u32 (txsdu_pkts s + 1); txsdu_bytes := u32 (txsdu_bytes s + size) |}.

Definition nr_max_pdcp_pdu_size (sdu_size : Z) : Z := sdu_size + LONG_PDCP_HEADER_SIZE + PDCP_INTEGRITY_SIZE.

(** ** The SDU list *)

Definition nr_pdcp_new_sdu (count : Z) (buffer : bytes) (integrity : nr_pdcp_integrity_data) : nr_pdcp_sdu :=
  {| ps_count := count; ps_buffer := buffer; ps_integrity := integrity |}.

Fixpoint nr_pdcp_sdu_list_add (l : list nr_pdcp_sdu) (sdu : nr_pdcp_sdu) : list nr_pdcp_sdu :=
  match l with
  | [] => [sdu]
  | cur :: l' => if ps_count sdu <? ps_count cur then sdu :: l else cur :: nr_pdcp_sdu_list_add l' sdu
  end.

Fixpoint nr_pdcp_sdu_in_list (l : list nr_pdcp_sdu) (count : Z) : bool :=
  match l with
  | [] => false
  | s :: l' => if ps_count s =? count then true else nr_pdcp_sdu_in_list l' count
  end.

(** ** Delivery *)

(** One iteration of a delivery loop: [cur] was the head of the list. *)
Definition pdcp_deliver (e : nr_pdcp_entity) (cur : nr_pdcp_sdu) (rest : list nr_pdcp_sdu) : nr_pdcp_entity :=
  pdcp_stats (stats_sdu_up (ps_size cur))
    {| e with pe_rx_list := rest; pe_rx_size := pe_rx_size e - ps_size cur |}.

(** Deliver from [count] up to a discontinuity or the end of the list. *)
Fixpoint deliver_consecutive (l : list nr_pdcp_sdu) (count : Z) (e : nr_pdcp_entity)
    : nr_pdcp_entity * Z * list nr_pdcp_sdu :=
  match l with
  | cur :: l' =>
      if count =? ps_count cur
      then let '(e, c, ev) := deliver_consecutive l' (u32 (count + 1)) (pdcp_deliver e cur l') in (e, c, cur :: ev)
      else (e, count, [])
  | [] => (e, count, [])
  end.

(** Deliver while the COUNT is less than [rx_reord]. *)
Fixpoint deliver_before (l : list nr_pdcp_sdu) (e : nr_pdcp_entity) : nr_pdcp_entity * list nr_pdcp_sdu :=
  match l with
  | cur :: l' =>
      if ps_count cur <? pe_rx_reord e
      then let (e, ev) := deliver_before l' (pdcp_deliver e cur l') in (e, cur :: ev)
      else (e, [])
  | [] => (e, [])
  end.

Fixpoint deliver_all (l : list nr_pdcp_sdu) (e : nr_pdcp_entity) : nr_pdcp_entity * list nr_pdcp_sdu :=
  match l with
  | cur :: l' => let (e, ev) := deliver_all l' (pdcp_deliver e cur l') in (e, cur :: ev)
  | [] => (e, [])
  end.

Definition deliver_all_sdus (e : nr_pdcp_entity) : nr_pdcp_entity * list nr_pdcp_sdu :=
  deliver_all (pe_rx_list e) e.

Fixpoint free_list (l : list nr_pdcp_sdu) (e : nr_pdcp_entity) : nr_pdcp_entity :=
  match l with
  | cur :: l' => free_list l' (pdcp_stats (stats_dropped (ps_size cur)) e)
  | [] => e
  end.

Definition free_rx_list (e : nr_pdcp_entity) : nr_pdcp_entity :=
  {| (free_list (pe_rx_list e) e) with pe_rx_list := []; pe_rx_size := 0 |}.

(** ** Security *)

Definition has_mac (e : nr_pdcp_entity) : bool :=
  pe_has_integrity e || bool_decide (pe_type e = NR_PDCP_SRB).

Definition integrity_size_of (e : nr_pdcp_entity) : Z := if has_mac e then PDCP_INTEGRITY_SIZE else 0.

Definition header_size_of (e : nr_pdcp_entity) : Z :=
  if pe_sn_size e =? SHORT_SN_SIZE then SHORT_PDCP_HEADER_SIZE else LONG_PDCP_HEADER_SIZE.

(** [nr_pdcp_entity_set_security]: -1 keeps the stored algorithm and key; the
    [free_*] functions release the context. *)
Definition store_keys (e : nr_pdcp_entity) (p : nr_pdcp_security) : nr_pdcp_entity :=
  let e := if negb (integrity_algorithm p =? -1)
           then {| e with pe_keys := {| (pe_keys e) with integrity_algorithm := integrity_algorithm p;
                                                         integrity_key := integrity_key p |} |} else e in
  if negb (ciphering_algorithm p =? -1)
  then {| e with pe_keys := {| (pe_keys e) with ciphering_algorithm := ciphering_algorithm p;
                                                ciphering_key := ciphering_key p |} |} else e.

Definition install_integrity (e : nr_pdcp_entity) (alg : Z) : res nr_pdcp_entity :=
  let e := if alg =? 0 then {| e with pe_has_integrity := false; pe_integrity_context := None |} else e in
  if negb (alg =? 0) && negb (alg =? -1) then
    if (alg =? 2) || (alg =? 1)
    then Ok {| e with pe_has_integrity := true; pe_integrity_context := Some (alg, integrity_key (pe_keys e)) |}
    else Fail FExit
  else Ok e.

Definition install_ciphering (e : nr_pdcp_entity) (alg : Z) : res nr_pdcp_entity :=
  let e := if alg =? 0 then {| e with pe_has_ciphering := false; pe_security_context := None |} else e in
  if negb (alg =? 0) && negb (alg =? -1) then
    if (alg =? 2) || (alg =? 1)
    then Ok {| e with pe_has_ciphering := true; pe_security_context := Some (alg, ciphering_key (pe_keys e)) |}
    else Fail FExit
  else Ok e.

Definition nr_pdcp_entity_set_security (e : nr_pdcp_entity) (p : nr_pdcp_security) : res nr_pdcp_entity :=
  let* e := install_integrity (store_keys e p) (integrity_algorithm p) in
  install_ciphering e (ciphering_algorithm p).

Section Pdcp.
Context (keystream_cipher : Z -> bytes -> Z -> Z -> Z -> bytes -> bytes).
Context (mac_of : Z -> bytes -> Z -> Z -> Z -> bytes -> bytes).

(** [entity->cipher] and [entity->decipher]: the buffer is replaced. *)
Definition pdcp_cipher (ctx : option (Z * bytes)) (buffer : bytes) (bearer count direction : Z) : res bytes :=
  let* (alg, key) := of_opt FBounds ctx in
  let* _ := if alg =? 2
            then assert_ ((0 <? zlen buffer) && (-1 <? bearer) && (bearer <? 32)
                          && (-1 <? direction) && (direction <? 2))
            else Ok tt in
  Ok (keystream_cipher alg key count (bearer - 1) direction buffer).

(** [entity->integrity]: the four bytes of the MAC-I. *)
Definition pdcp_integrity (ctx : option (Z * bytes)) (buffer : bytes) (bearer count direction : Z) : res bytes :=
  let* (alg, key) := of_opt FBounds ctx in
  let* _ := if alg =? 2 then assert_ ((0 <? bearer) && (bearer <? 33)) else Ok tt in
  Ok (mac_of alg key count (bearer - 1) direction buffer).

(** Run the cipher over the bytes of [buf] from [off] on. *)
Definition cipher_from (ctx : option (Z * bytes)) (buf : bytes) (off bearer count direction : Z) : res bytes :=
  let* tail := buf_read buf off (zlen buf - off) in
  let* tail := pdcp_cipher ctx tail bearer count direction in
  buf_write buf off tail.

(** ** Reception *)

Definition rcvd_sn_of (e : nr_pdcp_entity) (buffer : bytes) : res Z :=
  let* b0 := of_opt FBounds (buffer !! 0%nat) in
  let* b1 := of_opt FBounds (buffer !! 1%nat) in
  if pe_sn_size e =? SHORT_SN_SIZE then Ok (Z.lor (Z.shiftl (Z.land b0 0xf) 8) b1)
  else
    let* b2 := of_opt FBounds (buffer !! 2%nat) in
    Ok (Z.lor (Z.lor (Z.shiftl (Z.land b0 0x3) 16) (Z.shiftl b1 8)) b2).

Definition rcvd_count_of (e : nr_pdcp_entity) (rcvd_sn : Z) : Z :=
  let rx_deliv_sn := Z.land (pe_rx_deliv e) (pe_sn_max e) in
  let rx_deliv_hfn := Z.shiftr (pe_rx_deliv e) (pe_sn_size e) in
  let rcvd_hfn :=
    if rcvd_sn <? rx_deliv_sn - pe_window_size e then u32 (rx_deliv_hfn + 1)
    else if rx_deliv_sn + pe_window_size e <=? rcvd_sn then u32 (rx_deliv_hfn - 1)
    else rx_deliv_hfn in
  Z.lor (u32 (Z.shiftl rcvd_hfn (pe_sn_size e))) rcvd_sn.

(** The end of [recv_pdu]: t-Reordering is stopped, then started. *)
Definition pdcp_reordering_update (e : nr_pdcp_entity) : nr_pdcp_entity :=
  let e := if negb (pe_t_reordering_start e =? 0) && (pe_rx_reord e <=? pe_rx_deliv e)
           then {| e with pe_t_reordering_start := 0 |} else e in
  if (pe_t_reordering_start e =? 0) && (pe_rx_deliv e <? pe_rx_next e)
  then {| e with pe_rx_reord := pe_rx_next e; pe_t_reordering_start := pe_t_current e |} else e.

(** The SDU is accepted: it is stored, [added] bytes are added to [rx_size],
    and what became deliverable is delivered. *)
Definition pdcp_accept (e : nr_pdcp_entity) (sdu : nr_pdcp_sdu) (added : Z)
    : nr_pdcp_entity * list nr_pdcp_sdu :=
  let rcvd_count := ps_count sdu in
  let e := {| e with pe_rx_list := nr_pdcp_sdu_list_add (pe_rx_list e) sdu;
                     pe_rx_size := pe_rx_size e + added |} in
  let e := if pe_rx_next e <=? rcvd_count then {| e with pe_rx_next := u32 (rcvd_count + 1) |} else e in
  let '(e, ev) :=
    if rcvd_count =? pe_rx_deliv e
    then let '(e, count, ev) := deliver_consecutive (pe_rx_list e) (pe_rx_deliv e) e in
         ({| e with pe_rx_deliv := count |}, ev)
    else (e, []) in
  (pdcp_reordering_update e, ev).

Definition pdcp_drop (e : nr_pdcp_entity) (size : Z) : nr_pdcp_entity := pdcp_stats (stats_dropped size) e.

(** From the deciphering on, for a PDU whose COUNT is known. *)
Definition pdcp_recv_data (e : nr_pdcp_entity) (buffer : bytes) (rcvd_count : Z)
    : res (nr_pdcp_entity * list nr_pdcp_sdu) :=
  let size := zlen buffer in
  let header_size := header_size_of e in
  let sdap_header_size := if pe_has_sdap_rx e then 1 else 0 in
  let integrity_size := integrity_size_of e in
  let direction := if pe_is_gnb e then 0 else 1 in
  let* msg_integrity :=
    if has_mac e then
      let* mac := buf_read buffer (size - 4) 4 in
      let* header := buf_read buffer 0 header_size in
      Ok {| mi_count := rcvd_count; mi_mac := mac; mi_header_size := header_size; mi_header := header |}
    else Ok (mk_integrity 0 [0; 0; 0; 0] 0 [0; 0; 0]) in
  let* buffer :=
    if pe_has_ciphering e
    then cipher_from (pe_security_context e) buffer (header_size + sdap_header_size) (pe_rb_id e) rcvd_count direction
    else Ok buffer in
  let* intact :=
    if pe_has_integrity e then
      let* msg := buf_read buffer 0 (size - integrity_size) in
      let* mac := pdcp_integrity (pe_integrity_context e) msg (pe_rb_id e) rcvd_count direction in
      let* rcvd_mac := buf_read buffer (size - integrity_size) PDCP_INTEGRITY_SIZE in
      Ok (bool_decide (mac = rcvd_mac))
    else Ok true in
  if negb intact then Ok (pdcp_drop e size, [])
  else if (rcvd_count <? pe_rx_deliv e) || nr_pdcp_sdu_in_list (pe_rx_list e) rcvd_count
  then Ok (pdcp_drop e size, [])
  else
    let* data := buf_read buffer header_size (size - header_size - integrity_size) in
    Ok (pdcp_accept e (nr_pdcp_new_sdu rcvd_count data msg_integrity) (size - header_size)).

Definition nr_pdcp_entity_recv_pdu (e : nr_pdcp_entity) (buffer : bytes)
    : res (nr_pdcp_entity * list nr_pdcp_sdu) :=
  let size := zlen buffer in
  if pe_entity_suspended e then Ok (e, [])
  else if size <? 1 then Ok (e, [])
  else
    let* b0 := of_opt FBounds (buffer !! 0%nat) in
    let buffer := if negb (bool_decide (pe_type e = NR_PDCP_SRB)) && (Z.land b0 0x80 =? 0)
                  then <[0%nat := Z.lor b0 128]> buffer else buffer in
    let e := pdcp_stats (fun s => {| s with rxpdu_pkts := u32 (rxpdu_pkts s + 1);
                                            rxpdu_bytes := u32 (rxpdu_bytes s + size) |}) e in
    let sdap_header_size := if pe_has_sdap_rx e then 1 else 0 in
    let* rcvd_sn := rcvd_sn_of e buffer in
    let e := pdcp_stats (fun s => {| s with rxpdu_sn := rcvd_sn |}) e in
    if size <? header_size_of e + sdap_header_size + integrity_size_of e + 1
    then Ok (pdcp_drop e size, [])
    else pdcp_recv_data e buffer (rcvd_count_of e rcvd_sn).

(** ** Transmission *)

Definition pdcp_header (e : nr_pdcp_entity) (sn : Z) : bytes :=
  let dc_bit := if bool_decide (pe_type e = NR_PDCP_SRB) then 0 else 0x80 in
  if pe_sn_size e =? SHORT_SN_SIZE
  then [Z.lor dc_bit (Z.land (Z.shiftr sn 8) 0xf); Z.land sn 0xff]
  else [Z.lor dc_bit (Z.land (Z.shiftr sn 16) 0x3); Z.land (Z.shiftr sn 8) 0xff; Z.land sn 0xff].

(** Returns the bytes written to [pdu_buffer], or -1 when suspended ([None]). *)
Definition nr_pdcp_entity_process_sdu (e : nr_pdcp_entity) (buffer : bytes) (pdu_max_size : Z)
    : res (nr_pdcp_entity * option bytes) :=
  let size := zlen buffer in
  let* _ := assert_ (nr_max_pdcp_pdu_size size <=? pdu_max_size) in
  if pe_entity_suspended e then Ok (e, None)
  else
    let e := pdcp_stats (fun s => {| s with rxsdu_pkts := u32 (rxsdu_pkts s + 1);
                                            rxsdu_bytes := u32 (rxsdu_bytes s + size) |}) e in
    let count := pe_tx_next e in
    let sn := Z.land (pe_tx_next e) (pe_sn_max e) in
    let sdap_header_size := if pe_has_sdap_tx e then 1 else 0 in
    let direction := if pe_is_gnb e then 1 else 0 in
    let header := pdcp_header e sn in
    let header_size := header_size_of e in
    let buf := header ++ buffer in
    let* buf :=
      if pe_has_integrity e then
        let* mac := pdcp_integrity (pe_integrity_context e) buf (pe_rb_id e) count direction in
        Ok (buf ++ mac)
      else if has_mac e then Ok (buf ++ [0; 0; 0; 0])
      else Ok buf in
    let* buf :=
      if pe_has_ciphering e
      then cipher_from (pe_security_context e) buf (header_size + sdap_header_size) (pe_rb_id e) count direction
      else Ok buf in
    let e := {| e with pe_tx_next := u32 (pe_tx_next e + 1) |} in
    let e := pdcp_stats (fun s => {| s with txpdu_pkts := u32 (txpdu_pkts s + 1);
                                            txpdu_bytes := u32 (txpdu_bytes s + zlen buf);
                                            txpdu_sn := sn |}) e in
    Ok (e, Some buf).

(** [nr_pdcp_entity_check_integrity], used by RRC on a delivered SDU. *)
Definition nr_pdcp_entity_check_integrity (e : nr_pdcp_entity) (buffer : bytes)
    (msg : nr_pdcp_integrity_data) : res bool :=
  if negb (pe_has_integrity e) then Ok false
  else
    let* header := buf_read (mi_header msg) 0 (mi_header_size msg) in
    let* mac := pdcp_integrity (pe_integrity_context e) (header ++ buffer) (pe_rb_id e) (mi_count msg)
                  (if pe_is_gnb e then 0 else 1) in
    Ok (bool_decide (mac = mi_mac msg)).

End Pdcp.

(** ** Time *)

Definition check_t_reordering (e : nr_pdcp_entity) : nr_pdcp_entity * list nr_pdcp_sdu :=
  if pe_t_reordering e =? -1 then (e, [])
  else if (pe_t_reordering_start e =? 0)
          || (pe_t_current e <=? u64 (pe_t_reordering_start e + pe_t_reordering e))
  then (e, [])
  else
    let e := {| e with pe_t_reordering_start := 0 |} in
    let (e, ev1) := deliver_before (pe_rx_list e) e in
    let '(e, count, ev2) := deliver_consecutive (pe_rx_list e) (pe_rx_reord e) e in
    let e := {| e with pe_rx_deliv := count |} in
    let e := if pe_rx_deliv e <? pe_rx_next e
             then {| e with pe_rx_reord := pe_rx_next e; pe_t_reordering_start := pe_t_current e |} else e in
    (e, ev1 ++ ev2).

Definition nr_pdcp_entity_set_time (e : nr_pdcp_entity) (now : Z) : nr_pdcp_entity * list nr_pdcp_sdu :=
  check_t_reordering {| e with pe_t_current := now |}.

(** ** Suspension, re-establishment, release *)

Definition nr_pdcp_entity_suspend (e : nr_pdcp_entity) : nr_pdcp_entity * list nr_pdcp_sdu :=
  let e := {| e with pe_tx_next := 0 |} in
  let (e, ev) := if negb (pe_t_reordering_start e =? 0)
                 then deliver_all_sdus {| e with pe_t_reordering_start := 0 |} else (e, []) in
  ({| e with pe_rx_next := 0; pe_rx_deliv := 0; pe_entity_suspended := true |}, ev).

Definition nr_pdcp_entity_reestablish_drb_am (e : nr_pdcp_entity) (p : nr_pdcp_security)
    : res (nr_pdcp_entity * list nr_pdcp_sdu) :=
  let* e := nr_pdcp_entity_set_security e p in
  Ok ({| e with pe_entity_suspended := false |}, []).

Definition nr_pdcp_entity_reestablish_drb_um (e : nr_pdcp_entity) (p : nr_pdcp_security)
    : res (nr_pdcp_entity * list nr_pdcp_sdu) :=
  let e := {| e with pe_tx_next := 0 |} in
  let (e, ev) := if negb (pe_t_reordering_start e =? 0) then deliver_all_sdus e else (e, []) in
  let e := {| e with pe_t_reordering_start := 0; pe_rx_next := 0; pe_rx_deliv := 0 |} in
  let* e := nr_pdcp_entity_set_security e p in
  Ok ({| e with pe_entity_suspended := false |}, ev).

Definition nr_pdcp_entity_reestablish_srb (e : nr_pdcp_entity) (p : nr_pdcp_security)
    : res (nr_pdcp_entity * list nr_pdcp_sdu) :=
  let e := free_rx_list {| e with pe_tx_next := 0 |} in
  let e := {| e with pe_t_reordering_start := 0; pe_rx_next := 0; pe_rx_deliv := 0 |} in
  let* e := nr_pdcp_entity_set_security e p in
  Ok ({| e with pe_entity_suspended := false |}, []).

(** [entity->reestablish_entity], as [new_nr_pdcp_entity] sets it. *)
Definition reestablish_entity (e : nr_pdcp_entity) (p : nr_pdcp_security) : res (nr_pdcp_entity * list nr_pdcp_sdu) :=
  match pe_type e with
  | NR_PDCP_DRB_AM => nr_pdcp_entity_reestablish_drb_am e p
  | NR_PDCP_DRB_UM => nr_pdcp_entity_reestablish_drb_um e p
  | NR_PDCP_SRB => nr_pdcp_entity_reestablish_srb e p
  end.

Definition nr_pdcp_entity_release (e : nr_pdcp_entity) : nr_pdcp_entity * list nr_pdcp_sdu := deliver_all_sdus e.

(** The entity and its contexts are freed; this is its last state. *)
Definition nr_pdcp_entity_delete (e : nr_pdcp_entity) : nr_pdcp_entity :=
  {| (free_rx_list e) with pe_security_context := None; pe_integrity_context := None |}.

Definition nr_pdcp_entity_get_stats (e : nr_pdcp_entity) : nr_pdcp_statistics := pe_stats e.

(** ** COUNT *)

Definition nr_pdcp_entity_get_count_dl (e : nr_pdcp_entity) : nr_pdcp_count :=
  {| cnt_sn := Z.land (pe_rx_deliv e) (pe_sn_max e); cnt_hfn := Z.shiftr (pe_rx_deliv e) (pe_sn_size e) |}.

Definition nr_pdcp_entity_get_count_ul (e : nr_pdcp_entity) : nr_pdcp_count :=
  {| cnt_sn := Z.land (pe_tx_next e) (pe_sn_max e); cnt_hfn := Z.shiftr (pe_tx_next e) (pe_sn_size e) |}.

Definition compose_count (c : nr_pdcp_count) (sn_size : Z) : Z :=
  Z.lor (u32 (Z.shiftl (cnt_hfn c) sn_size)) (Z.land (cnt_sn c) (Z.shiftl 1 sn_size - 1)).

Definition nr_pdcp_entity_set_count_dl (e : nr_pdcp_entity) (c : nr_pdcp_count) (sn_size : Z) : nr_pdcp_entity :=
  let count := compose_count c sn_size in
  {| e with pe_rx_next := u32 (count + 1); pe_rx_deliv := count |}.

Definition nr_pdcp_entity_set_count_ul (e : nr_pdcp_entity) (c : nr_pdcp_count) (sn_size : Z) : nr_pdcp_entity :=
  {| e with pe_tx_next := compose_count c sn_size |}.

(** ** Creation *)

Definition new_nr_pdcp_entity (type : nr_pdcp_entity_type) (is_gnb : bool) (rb_id pdusession_id : Z)
    (has_sdap_rx has_sdap_tx : bool) (sn_size t_reordering discard_timer : Z) (p : nr_pdcp_security)
    : res nr_pdcp_entity :=
  nr_pdcp_entity_set_security
    {| pe_type := type; pe_rb_id := rb_id; pe_pdusession_id := pdusession_id;
       pe_has_sdap_rx := has_sdap_rx; pe_has_sdap_tx := has_sdap_tx; pe_sn_size := sn_size;
       pe_t_reordering := t_reordering; pe_discard_timer := discard_timer;
       pe_sn_max := Z.shiftl 1 sn_size - 1; pe_window_size := Z.shiftl 1 (sn_size - 1);
       pe_tx_next := 0; pe_rx_next := 0; pe_rx_deliv := 0; pe_rx_reord := 0;
       pe_t_current := 0; pe_t_reordering_start := 0;
       pe_has_ciphering := false; pe_has_integrity := false;
       pe_keys := mk_security 0 0 (replicate 16 0) (replicate 16 0);
       pe_security_context := None; pe_integrity_context := None; pe_is_gnb := is_gnb;
       pe_rx_list := []; pe_rx_size := 0;
       pe_stats := mk_pdcp_stats 0 0 0 0 0 0 0 0 0 0 0 0 0 0 0 0;
       pe_entity_suspended := false |} p.
