(* ===== verification/PdcpRx.v ===== *)
(** The receiver of the NR PDCP entity: reconstruction of COUNT, order of
    delivery, t-Reordering, suspension, and the accounting of stored bytes.
    The theorems are proved for every cipher and every MAC. *)

From S2P Require Import Prelude Pdcp.

(** ** COUNT *)

(** What [new_nr_pdcp_entity] computes from a valid [sn_size]. *)
Record pdcp_cfg (e : nr_pdcp_entity) : Prop := {
  pcfg_sn : pe_sn_size e = 12 \/ pe_sn_size e = 18;
  pcfg_max : pe_sn_max e = 2 ^ pe_sn_size e - 1;
  pcfg_window : 2 * pe_window_size e = 2 ^ pe_sn_size e
}.

Lemma lor_mul_add h n s : 0 <= n -> 0 <= s < 2 ^ n -> Z.lor (h * 2 ^ n) s = h * 2 ^ n + s.
Proof.
  intros Hn Hs. rewrite <- Z.add_lor_land.
  assert (Z.land (h * 2 ^ n) s = 0) as ->; [|lia].
  apply Z.bits_inj'. intros i Hi. rewrite Z.land_spec, Z.bits_0.
  destruct (Z_lt_ge_dec i n) as [Hlt|Hge].
  - by rewrite Z.mul_pow2_bits_low.
  - rewrite <- (Z.mod_small s (2 ^ n)) by lia. rewrite (Z.mod_pow2_bits_high s) by lia.
    apply andb_false_r.
Qed.

Lemma u32_shiftl_lor h n s :
  0 <= n <= 32 -> 0 <= s < 2 ^ n -> Z.lor (u32 (Z.shiftl (u32 h) n)) s = u32 (h * 2 ^ n + s).
Proof.
  intros Hn Hs. rewrite Z.shiftl_mul_pow2 by lia. unfold wrap.
  rewrite Zmult_mod_idemp_l.
  assert (H32 : 2 ^ 32 = 2 ^ (32 - n) * 2 ^ n) by (rewrite <- Z.pow_add_r by lia; f_equal; lia).
  rewrite H32, Z.mul_mod_distr_r by (apply Z.pow_nonzero; lia).
  rewrite lor_mul_add by lia.
  pose proof (Z.mod_pos_bound h (2 ^ (32 - n)) ltac:(apply Z.pow_pos_nonneg; lia)).
  apply (Z.mod_unique_pos _ _ (h / 2 ^ (32 - n))); [nia|].
  pose proof (Z.div_mod h (2 ^ (32 - n)) ltac:(apply Z.pow_nonzero; lia)). nia.
Qed.

Lemma rcvd_count_spec e c :
  pdcp_cfg e -> 0 <= pe_rx_deliv e ->
  pe_rx_deliv e - pe_window_size e <= c < pe_rx_deliv e + pe_window_size e ->
  rcvd_count_of e (c mod 2 ^ pe_sn_size e) = u32 c.
Proof.
  intros [Hn Hm Hw] Hd Hc. unfold rcvd_count_of.
  set (n := pe_sn_size e) in *. set (w := pe_window_size e) in *. set (d := pe_rx_deliv e) in *.
  assert (Hn' : 0 <= n <= 32) by (destruct Hn as [-> | ->]; lia).
  assert (HN : 0 < 2 ^ n) by (apply Z.pow_pos_nonneg; lia).
  rewrite Hm. replace (2 ^ n - 1) with (Z.ones n) by (rewrite Z.ones_equiv; lia).
  rewrite Z.land_ones, Z.shiftr_div_pow2 by lia.
  pose proof (Z.mod_pos_bound c _ HN) as Hcm. pose proof (Z.mod_pos_bound d _ HN) as Hdm.
  pose proof (Z.div_mod c (2 ^ n) ltac:(lia)) as Ec. pose proof (Z.div_mod d (2 ^ n) ltac:(lia)) as Ed.
  set (N := 2 ^ n) in *. set (hc := c / N) in *. set (hd := d / N) in *.
  assert (Hgoal : forall h, h = hc -> Z.lor (u32 (Z.shiftl (u32 h) n)) (c mod N) = u32 c).
  { intros h ->. rewrite u32_shiftl_lor by (fold N; lia). fold N. f_equal. lia. }
  assert (0 <= hd) by (apply Z.div_pos; lia).
  destruct (_ <? _) eqn:H1; [|destruct (_ <=? _) eqn:H2].
  - apply Hgoal. nia.
  - apply Hgoal. nia.
  - rewrite <- (Hgoal hd) by nia. unfold wrap. by rewrite !Z.shiftl_mul_pow2, Zmult_mod_idemp_l by lia.
Qed.

(** Every SN is that of exactly one COUNT of the window. *)
Lemma rcvd_count_range e sn :
  pdcp_cfg e -> 0 <= pe_rx_deliv e -> 0 <= sn < 2 ^ pe_sn_size e -> 0 <= rcvd_count_of e sn < 2 ^ 32.
Proof.
  intros Hcfg Hd Hsn. destruct (Hcfg) as [Hn _ Hw].
  set (N := 2 ^ pe_sn_size e) in *. set (lo := pe_rx_deliv e - pe_window_size e).
  set (c := lo + (sn - lo) mod N).
  assert (0 <= (sn - lo) mod N < N) by (apply Z.mod_pos_bound; lia).
  assert (Hc : c mod N = sn).
  { unfold c. rewrite Zplus_mod_idemp_r. replace (lo + (sn - lo)) with sn by lia. by apply Z.mod_small. }
  assert (Hwin : pe_rx_deliv e - pe_window_size e <= c < pe_rx_deliv e + pe_window_size e) by lia.
  pose proof (rcvd_count_spec e c Hcfg Hd Hwin) as H'.
  fold N in H'. rewrite Hc in H'. rewrite H'. apply wrap_range. lia.
Qed.

Lemma land_range_ones b n : 0 <= n -> 0 <= Z.land b (Z.ones n) < 2 ^ n.
Proof. intros. rewrite Z.land_ones by done. apply Z.mod_pos_bound, Z.pow_pos_nonneg; lia. Qed.

(** The SN read from the header is the big-endian number of its bits. *)
Lemma rcvd_sn_value e b0 b1 rest :
  pe_sn_size e = 12 -> byte_ok b1 -> rcvd_sn_of e (b0 :: b1 :: rest) = Ok (b0 mod 16 * 256 + b1).
Proof.
  intros E Hb1. unfold rcvd_sn_of. rewrite E. cbn -[Z.land Z.lor Z.shiftl]. unfold byte_ok in *.
  change 15 with (Z.ones 4). rewrite Z.land_ones, Z.shiftl_mul_pow2 by lia.
  by rewrite (lor_mul_add _ 8) by lia.
Qed.

Lemma rcvd_sn_value_long e b0 b1 b2 rest :
  pe_sn_size e = 18 -> byte_ok b1 -> byte_ok b2 ->
  rcvd_sn_of e (b0 :: b1 :: b2 :: rest) = Ok (b0 mod 4 * 65536 + b1 * 256 + b2).
Proof.
  intros E Hb1 Hb2. unfold rcvd_sn_of. rewrite E. cbn -[Z.land Z.lor Z.shiftl]. unfold byte_ok in *.
  change 3 with (Z.ones 2). rewrite Z.land_ones, !Z.shiftl_mul_pow2, <- Z.lor_assoc by lia.
  rewrite (lor_mul_add b1 8), (lor_mul_add _ 16) by lia. by rewrite Z.add_assoc.
Qed.

Lemma header_size_short e : pe_sn_size e = 12 -> header_size_of e = 2.
Proof. intros E. unfold header_size_of. by rewrite E. Qed.

Lemma header_size_long e : pe_sn_size e = 18 -> header_size_of e = 3.
Proof. intros E. unfold header_size_of. by rewrite E. Qed.

Lemma header_size_range e : 2 <= header_size_of e <= 3.
Proof. unfold header_size_of. case_match; [done | by unfold LONG_PDCP_HEADER_SIZE]. Qed.

(** A buffer with a whole header has an SN in range; a shorter one is read
    out of its bounds. *)
Lemma rcvd_sn_ok e b :
  pdcp_cfg e -> Forall byte_ok b -> header_size_of e <= zlen b ->
  exists sn, rcvd_sn_of e b = Ok sn /\ 0 <= sn < 2 ^ pe_sn_size e.
Proof.
  intros Hcfg Hb Hlen.
  destruct (pcfg_sn e Hcfg) as [E|E]; [rewrite header_size_short in Hlen by done | rewrite header_size_long in Hlen by done];
    rewrite E.
  - destruct b as [|b0 [|b1 r]]; try (unfold zlen in *; simpl in *; lia).
    inversion_clear Hb as [|?? _ H']. inversion_clear H'.
    rewrite (rcvd_sn_value e b0 b1 r) by done. eexists; split; [done|].
    unfold byte_ok in *. pose proof (Z.mod_pos_bound b0 16). lia.
  - destruct b as [|b0 [|b1 [|b2 r]]]; try (unfold zlen in *; simpl in *; lia).
    inversion_clear Hb as [|?? _ H']. inversion_clear H' as [|??? H'']. inversion_clear H''.
    rewrite (rcvd_sn_value_long e b0 b1 b2 r) by done. eexists; split; [done|].
    unfold byte_ok in *. pose proof (Z.mod_pos_bound b0 4). lia.
Qed.

Lemma rcvd_sn_short e b :
  pdcp_cfg e -> 1 <= zlen b < header_size_of e -> rcvd_sn_of e b = Fail FBounds.
Proof.
  intros Hcfg Hlen. unfold rcvd_sn_of.
  destruct (pcfg_sn e Hcfg) as [E|E]; [rewrite header_size_short in Hlen by done | rewrite header_size_long in Hlen by done];
    rewrite E; destruct b as [|b0 [|b1 [|b2 r]]]; try (unfold zlen in *; simpl in *; lia); done.
Qed.

(** The buffer after the correction of the D/C bit. *)
Definition with_dc_bit (e : nr_pdcp_entity) (buffer : bytes) : bytes :=
  match buffer with
  | b0 :: rest => if negb (bool_decide (pe_type e = NR_PDCP_SRB)) && (Z.land b0 0x80 =? 0)
                  then Z.lor b0 128 :: rest else buffer
  | [] => []
  end.

Lemma with_dc_bit_len e b : zlen (with_dc_bit e b) = zlen b.
Proof. destruct b; simpl; [done|]. by case_match. Qed.

Lemma lor_128_range b : byte_ok b -> byte_ok (Z.lor b 128).
Proof.
  unfold byte_ok. intros H. split; [apply Z.lor_nonneg; lia|].
  change 256 with (2 ^ 8). apply Z.log2_lt_pow2.
  - assert (0 <= Z.lor b 128) by (apply Z.lor_nonneg; lia).
    assert (Z.lor b 128 <> 0) by (rewrite Z.lor_eq_0_iff; lia). lia.
  - rewrite Z.log2_lor by lia. apply Z.max_lub_lt; [|reflexivity].
    destruct (decide (b = 0)) as [->|]; [reflexivity | apply Z.log2_lt_pow2; lia].
Qed.

Lemma with_dc_bit_bytes e b : Forall byte_ok b -> Forall byte_ok (with_dc_bit e b).
Proof.
  destruct 1 as [|b0 r H0 H]; simpl; [constructor|]. case_match; constructor; auto using lor_128_range.
Qed.

Lemma with_dc_bit_sn e b : rcvd_sn_of e (with_dc_bit e b) = rcvd_sn_of e b.
Proof.
  destruct b as [|b0 r]; simpl; [done|]. case_match; [|done].
  unfold rcvd_sn_of. cbn -[Z.land Z.lor Z.shiftl].
  rewrite !Z.land_lor_distr_l. change (Z.land 128 15) with 0. change (Z.land 128 3) with 0.
  by rewrite !Z.lor_0_r.
Qed.

Lemma with_dc_bit_drop e b n : (1 <= n)%nat -> drop n (with_dc_bit e b) = drop n b.
Proof. intros. destruct b as [|b0 r]; simpl; [done|]. case_match; [|done]. destruct n; [lia | done]. Qed.

(** The COUNT that [recv_pdu] reconstructs from the SN of a PDU is the one
    the sender used, modulo 2^32, for every COUNT in the window of
    [window_size] on either side of RX_DELIV: the sender may run up to half the
    SN space behind or ahead, over any number of SN wrap-arounds. *)
Theorem pdcp_count_reconstruction e c :
  pdcp_cfg e -> 0 <= pe_rx_deliv e ->
  pe_rx_deliv e - pe_window_size e <= c < pe_rx_deliv e + pe_window_size e ->
  rcvd_count_of e (c mod 2 ^ pe_sn_size e) = u32 c.
Proof. apply rcvd_count_spec. Qed.

(** ** The reception list *)

Abbreviation count_lt := (fun a b => ps_count a < ps_count b).
Abbreviation pdcp_sorted := (StronglySorted count_lt).

Lemma sdu_in_list_spec l c :
  nr_pdcp_sdu_in_list l c = true <-> exists s, s ∈ l /\ ps_count s = c.
Proof.
  induction l as [|s l IH]; simpl.
  - split; [done | intros (?&?&?); set_solver].
  - destruct (ps_count s =? c) eqn:E.
    + split; [|done]. intros _. exists s. split; [set_solver | lia].
    + rewrite IH. split; intros (x&Hx&Ex); exists x; (split; [|done]); [set_solver|].
      apply elem_of_cons in Hx as [->|]; [lia | done].
Qed.

Lemma sdu_list_add_perm l s : nr_pdcp_sdu_list_add l s ≡ₚ s :: l.
Proof. induction l as [|x l IH]; simpl; [done|]. case_match; [done|]. rewrite IH. constructor. Qed.

Lemma sdu_list_add_sorted l s :
  pdcp_sorted l -> nr_pdcp_sdu_in_list l (ps_count s) = false -> pdcp_sorted (nr_pdcp_sdu_list_add l s).
Proof.
  induction 1 as [|x l Hs IH Hx]; simpl; intros Hin; [repeat constructor|].
  destruct (ps_count x =? ps_count s) eqn:E; [done|].
  destruct (ps_count s <? ps_count x) eqn:E'.
  - constructor; [by constructor|]. constructor; [lia|]. eapply Forall_impl; [done|]. simpl. lia.
  - constructor; [by apply IH|]. rewrite sdu_list_add_perm. constructor; [lia | done].
Qed.

Lemma sdu_list_add_first l s :
  Forall (fun x => ps_count s < ps_count x) l -> nr_pdcp_sdu_list_add l s = s :: l.
Proof. destruct 1; simpl; [done|]. by rewrite (proj2 (Z.ltb_lt _ _)). Qed.

(** ** Delivery *)

(** [e'] is [e] after the SDUs of [ev] left the head of the list. *)
Record delivered (e e' : nr_pdcp_entity) (ev : list nr_pdcp_sdu) : Prop := {
  dl_list : pe_rx_list e = ev ++ pe_rx_list e';
  dl_size : pe_rx_size e' = pe_rx_size e - zsum ps_size ev;
  dl_same : exists l z st, e' = {| e with pe_rx_list := l; pe_rx_size := z; pe_stats := st |}
}.

Lemma delivered_refl e : delivered e e [].
Proof. split; simpl; [done | lia|]. exists (pe_rx_list e), (pe_rx_size e), (pe_stats e). by destruct e. Qed.

Lemma delivered_step e cur l e' ev :
  pe_rx_list e = cur :: l -> delivered (pdcp_deliver e cur l) e' ev -> delivered e e' (cur :: ev).
Proof.
  intros El [Hl Hz (l'&z&st&->)]. split.
  - rewrite El. simpl in *. by rewrite Hl.
  - simpl in *. lia.
  - by exists l', z, st.
Qed.

Lemma deliver_all_spec l e e' ev :
  pe_rx_list e = l -> deliver_all l e = (e', ev) -> delivered e e' ev /\ ev = l /\ pe_rx_list e' = [].
Proof.
  revert e e' ev. induction l as [|cur l IH]; simpl; intros e e' ev El.
  - intros [= <- <-]. split_and!; [apply delivered_refl | done..].
  - destruct (deliver_all l _) as [e1 ev1] eqn:E. intros [= <- <-].
    destruct (IH (pdcp_deliver e cur l) e1 ev1 eq_refl E) as (H&->&Hn). split_and!; [|done..].
    by eapply delivered_step.
Qed.

Lemma deliver_before_spec l e e' ev :
  pe_rx_list e = l -> pdcp_sorted l -> deliver_before l e = (e', ev) ->
  delivered e e' ev /\ Forall (fun s => ps_count s < pe_rx_reord e) ev
  /\ Forall (fun s => pe_rx_reord e <= ps_count s) (pe_rx_list e').
Proof.
  revert e e' ev. induction l as [|cur l IH]; simpl; intros e e' ev El Hs.
  - intros [= <- <-]. split_and!; [apply delivered_refl | done | by rewrite El].
  - apply StronglySorted_inv in Hs as [Hs Hc].
    destruct (ps_count cur <? pe_rx_reord e) eqn:Ec.
    + destruct (deliver_before l _) as [e1 ev1] eqn:E. intros [= <- <-].
      destruct (IH (pdcp_deliver e cur l) e1 ev1 eq_refl Hs E) as (H&Hb&Ha).
      split_and!; [by eapply delivered_step | constructor; [lia | done] | done].
    + intros [= <- <-]. split_and!; [apply delivered_refl | done|]. rewrite El.
      constructor; [lia|]. eapply Forall_impl; [done|]. simpl. lia.
Qed.

(** The run of consecutive COUNTs at the head of the list goes, nothing else. *)
Lemma deliver_consecutive_spec l e c hi e' c' ev :
  pe_rx_list e = l -> pdcp_sorted l -> Forall (fun s => c <= ps_count s < hi) l ->
  0 <= c <= hi -> hi < 2 ^ 32 ->
  deliver_consecutive l c e = (e', c', ev) ->
  delivered e e' ev /\ c <= c' <= hi /\ Forall (fun s => c <= ps_count s < c') ev
  /\ Forall (fun s => c' < ps_count s < hi) (pe_rx_list e') /\ c' = c + zlen ev.
Proof.
  revert e c e' c' ev. induction l as [|cur l IH]; simpl; intros e c e' c' ev El Hs Hr Hc Hhi.
  - intros [= <- <- <-]. rewrite zlen_nil. split_and!; try lia; [apply delivered_refl | done | by rewrite El].
  - apply StronglySorted_inv in Hs as [Hs Hcur]. apply Forall_cons in Hr as [Hr0 Hr].
    assert (Hgt : Forall (fun s => ps_count cur < ps_count s < hi) l).
    { rewrite Forall_forall in Hr, Hcur |- *. intros s Hin. specialize (Hr s Hin). specialize (Hcur s Hin). simpl in *. lia. }
    destruct (c =? ps_count cur) eqn:Ec.
    + destruct (deliver_consecutive l _ _) as [[e1 c1] ev1] eqn:E. intros [= <- <- <-].
      rewrite wrap_small in E by lia.
      destruct (IH (pdcp_deliver e cur l) (c + 1) e1 c1 ev1 eq_refl Hs) as (H&Hc1&Hb&Ha&Hn); try done; try lia.
      { eapply Forall_impl; [exact Hgt|]. simpl. lia. }
      rewrite zlen_cons. split_and!; try lia; [by eapply delivered_step | | done].
      constructor; [lia|]. eapply Forall_impl; [done|]. simpl. lia.
    + intros [= <- <- <-]. rewrite zlen_nil. split_and!; try lia; [apply delivered_refl | done|]. rewrite El.
      constructor; [lia|]. eapply Forall_impl; [exact Hgt|]. simpl. lia.
Qed.

(** ** The invariant of the receiver *)

Record pdcp_rx_inv (e : nr_pdcp_entity) : Prop := {
  pri_cfg : pdcp_cfg e;
  pri_range : 0 <= pe_rx_deliv e <= pe_rx_next e /\ pe_rx_next e < 2 ^ 32;
  pri_sorted : pdcp_sorted (pe_rx_list e);
  pri_window : Forall (fun s => pe_rx_deliv e < ps_count s < pe_rx_next e) (pe_rx_list e);
  pri_timer : pe_t_reordering_start e <> 0 -> pe_rx_deliv e < pe_rx_reord e <= pe_rx_next e
}.

(** An SDU that waits, waits under a running t-Reordering. *)
Definition timer_live (e : nr_pdcp_entity) : Prop :=
  pe_t_current e <> 0 /\ (pe_rx_list e <> [] -> pe_t_reordering_start e <> 0).

(** A batch of deliveries that takes the receiver from [e] to [e']: COUNTs in
    increasing order, from the old RX_DELIV up to below the new one. *)
Record batch (e e' : nr_pdcp_entity) (ev : list nr_pdcp_sdu) : Prop := {
  ba_sorted : pdcp_sorted ev;
  ba_range : Forall (fun s => pe_rx_deliv e <= ps_count s < pe_rx_deliv e') ev;
  ba_deliv : pe_rx_deliv e <= pe_rx_deliv e'
}.

Lemma batch_nil e e' : pe_rx_deliv e <= pe_rx_deliv e' -> batch e e' [].
Proof. by split; [constructor|..]. Qed.

Lemma sorted_app_l {A} (R : A -> A -> Prop) l k : StronglySorted R (l ++ k) -> StronglySorted R l.
Proof.
  induction l as [|x l IH]; simpl; [constructor|]. intros [Hs Hx]%StronglySorted_inv.
  constructor; [auto|]. by apply Forall_app in Hx as [? _].
Qed.

Lemma sorted_app {A} (R : A -> A -> Prop) l k :
  StronglySorted R l -> StronglySorted R k -> (forall x y, x ∈ l -> y ∈ k -> R x y) -> StronglySorted R (l ++ k).
Proof.
  induction 1 as [|x l Hs IH Hx]; simpl; intros Hk Hlk; [done|].
  constructor; [apply IH; [done | set_solver]|].
  apply Forall_app. split; [done|]. apply Forall_forall. intros y Hy. apply Hlk; set_solver.
Qed.

Lemma batch_app e1 e2 e3 ev1 ev2 : batch e1 e2 ev1 -> batch e2 e3 ev2 -> batch e1 e3 (ev1 ++ ev2).
Proof.
  intros [S1 R1 D1] [S2 R2 D2]. rewrite Forall_forall in R1, R2. split.
  - apply sorted_app; [done..|]. intros x y Hx%R1 Hy%R2. simpl in *. lia.
  - apply Forall_app. split; apply Forall_forall; [intros x Hx%R1 | intros x Hx%R2]; simpl in *; lia.
  - lia.
Qed.

Lemma reordering_update_ok e :
  pdcp_cfg e -> 0 <= pe_rx_deliv e <= pe_rx_next e /\ pe_rx_next e < 2 ^ 32 -> pdcp_sorted (pe_rx_list e) ->
  Forall (fun s => pe_rx_deliv e < ps_count s < pe_rx_next e) (pe_rx_list e) ->
  (pe_t_reordering_start e <> 0 -> pe_rx_reord e <= pe_rx_next e) ->
  pdcp_rx_inv (pdcp_reordering_update e) /\ (pe_t_current e <> 0 -> timer_live (pdcp_reordering_update e)).
Proof.
  intros Hcfg Hr Hs Hw Ht.
  assert (Hne : pe_rx_list e <> [] -> pe_rx_deliv e < pe_rx_next e).
  { destruct (pe_rx_list e); [done|]. apply Forall_cons in Hw as [? _]. lia. }
  unfold pdcp_reordering_update.
  set (e1 := if negb _ && _ then _ else _).
  assert (H1 : pe_t_reordering_start e1 = 0 /\ e1 = {| e with pe_t_reordering_start := 0 |}
               \/ pe_t_reordering_start e1 <> 0 /\ e1 = e /\ pe_rx_deliv e < pe_rx_reord e).
  { subst e1. destruct (pe_t_reordering_start e =? 0) eqn:E0; simpl.
    - left. split; [lia|]. destruct e; simpl in *. f_equal. lia.
    - destruct (pe_rx_reord e <=? pe_rx_deliv e) eqn:E1; [by left | right; split_and!; [lia | done | lia]]. }
  clearbody e1. destruct H1 as [[E0 ->] | (E0 & -> & Hlt)]; simpl in *.
  - destruct (pe_rx_deliv e <? pe_rx_next e) eqn:E2.
    + split; [split; simpl; try done; [by destruct Hcfg|intros; lia]|].
      by intros; split.
    + split; [split; simpl; try done; by destruct Hcfg|].
      intros; split; [done|]. simpl. intros Hn. specialize (Hne Hn). lia.
  - rewrite (proj2 (Z.eqb_neq _ 0)) by done. split; [split; try done; intros; split; [done | auto]|].
    by intros; split.
Qed.

Lemma reordering_update_same e :
  let e' := pdcp_reordering_update e in
  pe_rx_list e' = pe_rx_list e /\ pe_rx_size e' = pe_rx_size e /\ pe_rx_deliv e' = pe_rx_deliv e
  /\ pe_rx_next e' = pe_rx_next e /\ pe_stats e' = pe_stats e
  /\ pe_t_current e' = pe_t_current e.
Proof. unfold pdcp_reordering_update. simpl. repeat case_match; done. Qed.

(** Nothing stored is lost: what was stored and what comes in is what goes
    out and what stays. *)
Record conserved (e e' : nr_pdcp_entity) (inp ev : list nr_pdcp_sdu) (leak : Z) : Prop := {
  co_perm : inp ++ pe_rx_list e ≡ₚ ev ++ pe_rx_list e';
  co_size : pe_rx_size e' - zsum ps_size (pe_rx_list e') = pe_rx_size e - zsum ps_size (pe_rx_list e) + leak
}.

Lemma delivered_conserved e e' ev : delivered e e' ev -> conserved e e' [] ev 0.
Proof. intros [Hl Hz _]. split; [by rewrite Hl|]. rewrite Hl, zsum_app. lia. Qed.

Lemma pdcp_accept_ok e s added e' ev :
  pdcp_rx_inv e -> pe_rx_deliv e <= ps_count s < 2 ^ 32 - 1 ->
  nr_pdcp_sdu_in_list (pe_rx_list e) (ps_count s) = false ->
  pdcp_accept e s added = (e', ev) ->
  pdcp_rx_inv e' /\ (pe_t_current e <> 0 -> timer_live e') /\ batch e e' ev
  /\ conserved e e' [s] ev (added - ps_size s).
Proof.
  intros [Hcfg [Hr Hr'] Hs Hw Ht] Hc Hin. unfold pdcp_accept.
  pose proof (sdu_list_add_sorted _ _ Hs Hin) as Hs'.
  pose proof (sdu_list_add_perm (pe_rx_list e) s) as Hp.
  set (l := nr_pdcp_sdu_list_add (pe_rx_list e) s) in *.
  set (e1 := if _ <=? _ then _ else _).
  set (nx := Z.max (pe_rx_next e) (ps_count s + 1)).
  assert (H1 : e1 = {| e with pe_rx_list := l; pe_rx_size := pe_rx_size e + added; pe_rx_next := nx |}).
  { subst e1 nx. simpl. destruct (pe_rx_next e <=? ps_count s) eqn:E.
    - rewrite wrap_small, Z.max_r by lia. done.
    - rewrite Z.max_l by lia. done. }
  assert (Hw1 : Forall (fun x => pe_rx_deliv e <= ps_count x < nx) l).
  { rewrite Hp. constructor; [lia|]. eapply Forall_impl; [done|]. simpl. lia. }
  clearbody e1. subst e1. simpl.
  destruct (ps_count s =? pe_rx_deliv e) eqn:E.
  - destruct (deliver_consecutive l _ _) as [[e2 c2] ev2] eqn:Hd. intros [= <- <-].
    eapply (deliver_consecutive_spec _ _ _ nx) in Hd; try done; try lia.
    destruct Hd as (Hdl&Hc2&Hb&Ha&_). destruct (Hdl) as [Hl2 Hz2 (l2&z2&st2&->)]. simpl in *.
    set (e3 := {| e with pe_rx_deliv := c2; pe_rx_next := nx; pe_rx_list := l2; pe_rx_size := z2; pe_stats := st2 |}).
    change (_ /\ (_ -> _) /\ _) with
      (pdcp_rx_inv (pdcp_reordering_update e3) /\ (pe_t_current e3 <> 0 -> timer_live (pdcp_reordering_update e3))
       /\ batch e (pdcp_reordering_update e3) ev2
       /\ conserved e (pdcp_reordering_update e3) [s] ev2 (added - ps_size s)).
    destruct (reordering_update_same e3) as (L&Z&D&N&_).
    destruct (reordering_update_ok e3); subst e3; simpl in *; try done; try lia; [by destruct Hcfg| |].
    { rewrite Hl2 in Hs'. by apply sorted_app_r in Hs'. }
    split_and!; [done|done| |].
    + split; rewrite ?D; [by rewrite Hl2 in Hs'; apply sorted_app_l in Hs' | done | lia].
    + split; rewrite ?L, ?Z; [by rewrite <- Hl2, Hp|].
      pose proof (zsum_perm ps_size _ _ Hp) as Hz. rewrite Hl2, zsum_app in Hz. simpl in Hz. lia.
  - intros [= <- <-].
    match goal with |- context [pdcp_reordering_update ?x] => set (e3 := x) end.
    change (pe_t_current e) with (pe_t_current e3).
    destruct (reordering_update_same e3) as (L&Z&D&N&_).
    destruct (reordering_update_ok e3); subst e3; simpl in *; try done; try lia; [by destruct Hcfg| |].
    { rewrite Hp. constructor; [lia|]. eapply Forall_impl; [done|]. simpl. lia. }
    split_and!; [done|done| |].
    + apply batch_nil. rewrite D. lia.
    + split; rewrite ?L, ?Z; [simpl; by rewrite Hp|].
      rewrite (zsum_perm ps_size _ _ Hp). simpl. lia.
Qed.

(** t-Reordering runs and has run out. *)
Definition t_reordering_expired (e : nr_pdcp_entity) : bool :=
  negb (pe_t_reordering e =? -1) && negb (pe_t_reordering_start e =? 0)
  && (u64 (pe_t_reordering_start e + pe_t_reordering e) <? pe_t_current e).

(** What t-Reordering does when it runs out: the stored SDUs leave in the order
    of the list, those below RX_REORD at least, and for what stays it is started
    again, with RX_REORD above all of it. *)
Record released (e e' : nr_pdcp_entity) (ev : list nr_pdcp_sdu) : Prop := {
  re_list : pe_rx_list e = ev ++ pe_rx_list e';
  re_deliv : pe_rx_reord e <= pe_rx_deliv e';
  re_again : pe_rx_list e' <> [] -> pe_rx_reord e' = pe_rx_next e' /\ pe_t_reordering_start e' = pe_t_current e
}.

Lemma check_t_reordering_ok e e' ev :
  pdcp_rx_inv e -> check_t_reordering e = (e', ev) ->
  pdcp_rx_inv e' /\ (timer_live e -> timer_live e') /\ batch e e' ev /\ conserved e e' [] ev 0
  /\ (if t_reordering_expired e then released e e' ev else e' = e /\ ev = []).
Proof.
  intros Hi. unfold check_t_reordering, t_reordering_expired.
  assert (Hid : pdcp_rx_inv e /\ (timer_live e -> timer_live e) /\ batch e e [] /\ conserved e e [] [] 0).
  { split_and!; [done|done|by apply batch_nil | apply delivered_conserved, delivered_refl]. }
  destruct Hid as (I1&I2&I3&I4).
  destruct (_ =? -1); [by intros [= <- <-]|]. cbn [negb andb].
  destruct (_ || _) eqn:Et.
  { intros [= <- <-]. split_and!; try done. replace (_ && _) with false; [done|]. symmetry. lia. }
  clear I1 I2 I3 I4. bool_hyps. replace (_ && _) with true by (symmetry; lia).
  destruct Hi as [Hcfg [Hr Hr'] Hs Hw Ht]. specialize (Ht ltac:(lia)).
  set (e0 := {| e with pe_t_reordering_start := 0 |}).
  destruct (deliver_before _ e0) as [e1 ev1] eqn:E1.
  destruct (deliver_before_spec _ e0 e1 ev1 eq_refl Hs E1) as (D1&B1&A1).
  destruct (deliver_consecutive (pe_rx_list e1) _ e1) as [[e2 c2] ev2] eqn:E2.
  destruct (D1) as [L1 Z1 (l1&z1&st1&->)]. simpl in *.
  assert (Hs1 : pdcp_sorted l1) by (rewrite L1 in Hs; by eapply sorted_app_r).
  rewrite L1, Forall_app in Hw. destruct Hw as [Hw0 Hw1].
  assert (Hw2 : Forall (fun s => pe_rx_reord e <= ps_count s < pe_rx_next e) l1).
  { rewrite Forall_forall in A1, Hw1 |- *. intros s Hin. specialize (A1 s Hin). specialize (Hw1 s Hin). simpl in *. lia. }
  eapply (deliver_consecutive_spec _ _ _ (pe_rx_next e)) in E2; try done; try lia.
  destruct E2 as (D2&C2&B2&A2&_). destruct D2 as [L2 Z2 (l2&z2&st2&->)]. simpl in *.
  assert (Hs2 : pdcp_sorted l2) by (rewrite L2 in Hs1; by eapply sorted_app_r).
  intros [= <- <-].
  set (e3 := if c2 <? pe_rx_next e then _ else _).
  assert (H3 : exists rd ts, e3 = {| e with pe_rx_list := l2; pe_rx_size := z2; pe_stats := st2; pe_rx_deliv := c2;
      pe_rx_reord := rd; pe_t_reordering_start := ts |}
      /\ ((c2 < pe_rx_next e /\ rd = pe_rx_next e /\ ts = pe_t_current e) \/ (pe_rx_next e <= c2 /\ ts = 0))).
  { subst e3. destruct (c2 <? pe_rx_next e) eqn:E3; eexists _, _; (split; [reflexivity|]); [left | right]; lia. }
  clearbody e3. destruct H3 as (rd&ts&->&H3). split_and!.
  - split; simpl; try done; [by destruct Hcfg | lia | lia].
  - intros [Hc0 _]. split; [done|]. simpl. intros Hn. destruct l2; [done|].
    apply Forall_cons in A2 as [A2 _]. lia.
  - split; simpl; [|apply Forall_app; split | lia].
    + rewrite L1, L2 in Hs. rewrite app_assoc in Hs. by eapply sorted_app_l.
    + rewrite Forall_forall in Hw0, B1 |- *. intros s Hin. specialize (Hw0 s Hin). specialize (B1 s Hin). simpl in *. lia.
    + eapply Forall_impl; [done|]. simpl. lia.
  - split; simpl; [by rewrite L1, L2, app_assoc|]. rewrite L1, L2, !zsum_app. lia.
  - split; simpl; [by rewrite L1, L2, app_assoc|lia|]. intros Hn. destruct l2; [done|].
    apply Forall_cons in A2 as [A2 _]. destruct H3 as [(_ & -> & ->)|[? _]]; [done|lia].
Qed.

Lemma pdcp_time_ok e now e' ev :
  pdcp_rx_inv e -> nr_pdcp_entity_set_time e now = (e', ev) ->
  pdcp_rx_inv e' /\ (timer_live e -> now <> 0 -> timer_live e') /\ batch e e' ev /\ conserved e e' [] ev 0
  /\ (let e0 := {| e with pe_t_current := now |} in if t_reordering_expired e0 then released e0 e' ev else e' = e0 /\ ev = []).
Proof.
  intros [Hcfg Hr Hs Hw Ht] E. apply check_t_reordering_ok in E.
  - destruct E as (I&L&[B1 B2 B3]&[C1 C2]&X). split_and!; [done | | by split | by split | exact X].
    intros [T1 T2] Hn. apply L. by split.
  - by split; try done; destruct Hcfg.
Qed.

Lemma pdcp_stats_inv f e : pdcp_rx_inv e -> pdcp_rx_inv (pdcp_stats f e).
Proof. intros [[] ????]. by split. Qed.

Section Trace.
Context (keystream_cipher mac_of : Z -> bytes -> Z -> Z -> Z -> bytes -> bytes).
Abbreviation recv_data := (pdcp_recv_data keystream_cipher mac_of).
Abbreviation recv_pdu := (nr_pdcp_entity_recv_pdu keystream_cipher mac_of).
Abbreviation process_sdu := (nr_pdcp_entity_process_sdu keystream_cipher mac_of).

Lemma recv_data_cases e b c e' ev :
  recv_data e b c = Ok (e', ev) ->
  (e' = pdcp_drop e (zlen b) /\ ev = []) \/
  (exists s, ps_count s = c /\ ps_size s = zlen b - header_size_of e - integrity_size_of e
     /\ pe_rx_deliv e <= c /\ nr_pdcp_sdu_in_list (pe_rx_list e) c = false
     /\ pdcp_accept e s (zlen b - header_size_of e) = (e', ev)).
Proof.
  unfold pdcp_recv_data. intros (mi&_&H)%rbind_ok. revert H. intros (b'&_&H)%rbind_ok.
  revert H. intros (ok&_&H)%rbind_ok. destruct ok; simpl in H; [|left; by simplify_eq].
  destruct (c <? pe_rx_deliv e) eqn:E1; [left; simpl in H; by simplify_eq|].
  destruct (nr_pdcp_sdu_in_list _ _) eqn:E2; [left; simpl in H; by simplify_eq|].
  simpl in H. apply rbind_ok in H as (data&Hd&H). apply buf_read_len in Hd. right.
  eexists. split_and!; [..|by injection H as H]; [done | done | lia | done].
Qed.

Lemma pdcp_recv_cases e b :
  recv_pdu e b =
    if pe_entity_suspended e then Ok (e, []) else if zlen b <? 1 then Ok (e, []) else
    let* sn := rcvd_sn_of e b in
    let e1 := pdcp_stats (fun s => {| s with rxpdu_pkts := u32 (rxpdu_pkts s + 1);
                                             rxpdu_bytes := u32 (rxpdu_bytes s + zlen b); rxpdu_sn := sn |}) e in
    if zlen b <? header_size_of e + (if pe_has_sdap_rx e then 1 else 0) + integrity_size_of e + 1
    then Ok (pdcp_drop e1 (zlen b), [])
    else recv_data e1 (with_dc_bit e b) (rcvd_count_of e sn).
Proof.
  unfold nr_pdcp_entity_recv_pdu. destruct (pe_entity_suspended e); [done|].
  destruct (zlen b <? 1) eqn:E; [done|]. destruct b as [|b0 r]; [done|]. cbn [of_opt rbind lookup list_lookup].
  rewrite <- (with_dc_bit_sn e (b0 :: r)).
  assert (Hb : (if negb (bool_decide (pe_type e = NR_PDCP_SRB)) && (Z.land b0 128 =? 0)
    then <[0%nat:=Z.lor b0 128]> (b0 :: r) else b0 :: r) = with_dc_bit e (b0 :: r)) by (simpl; by case_match).
  rewrite Hb. change (rcvd_sn_of (pdcp_stats ?f e) ?x) with (rcvd_sn_of e x).
  destruct (rcvd_sn_of e _) as [sn|]; [|done]. cbn [rbind].
  change (header_size_of (pdcp_stats ?f (pdcp_stats ?g e))) with (header_size_of e).
  change (integrity_size_of (pdcp_stats ?f (pdcp_stats ?g e))) with (integrity_size_of e).
  case_match; reflexivity.
Qed.

(** The PDU does not carry the last COUNT of the key (2^32 - 1). *)
Definition count_ok (e : nr_pdcp_entity) (b : bytes) : bool :=
  match rcvd_sn_of e b with
  | Ok sn => rcvd_count_of e sn <? 2 ^ 32 - 1
  | Fail _ => true
  end.

Lemma pdcp_recv_ok e b e' ev :
  pdcp_rx_inv e -> count_ok e b = true -> recv_pdu e b = Ok (e', ev) ->
  pdcp_rx_inv e' /\ (timer_live e -> timer_live e') /\ batch e e' ev
  /\ exists inp, conserved e e' inp ev (integrity_size_of e * zlen inp) /\ zlen inp <= 1.
Proof.
  intros Hi Hc. rewrite pdcp_recv_cases.
  assert (Hid : forall f, pdcp_rx_inv (pdcp_stats f e) /\ (timer_live e -> timer_live (pdcp_stats f e))
     /\ batch e (pdcp_stats f e) []
     /\ exists inp, conserved e (pdcp_stats f e) inp [] (integrity_size_of e * zlen inp) /\ zlen inp <= 1).
  { intros f. split_and!; [by apply pdcp_stats_inv | done | by apply batch_nil|].
    exists []. rewrite zlen_nil. split; [|done]. by split; [|simpl; lia]. }
  assert (He : e = pdcp_stats id e) by by destruct e.
  pose proof (Hid id) as Hid0. rewrite <- He in Hid0.
  destruct (pe_entity_suspended e); [by intros [= <- <-]|].
  destruct (zlen b <? 1); [by intros [= <- <-]|].
  unfold count_ok in Hc. destruct (rcvd_sn_of e b) as [sn|]; [|done]. cbn [rbind]. cbv zeta.
  set (f := fun s => _).
  destruct (zlen b <? _) eqn:Hsz.
  { intros [= <- <-]. apply (Hid (fun s => stats_dropped (zlen b) (f s))). }
  intros [[-> ->]|(s&Ec&Ez&Hd&Hin&Ha)]%recv_data_cases.
  { rewrite with_dc_bit_len. apply (Hid (fun s => stats_dropped (zlen b) (f s))). }
  apply pdcp_accept_ok in Ha; [|by apply pdcp_stats_inv | rewrite Ec; split; [exact Hd | by apply Z.ltb_lt] | by rewrite Ec].
  destruct Ha as (I&L&[B1 B2 B3]&[C1 C2]). split_and!; [done | by intros [? _]; apply L | by split|].
  exists [s]. split; [|done]. split; [done|]. rewrite C2, Ez.
  change (header_size_of (pdcp_stats f e)) with (header_size_of e).
  change (integrity_size_of (pdcp_stats f e)) with (integrity_size_of e). rewrite zlen_cons, zlen_nil. simpl. lia.
Qed.

(** ** Runs *)

Inductive pdcp_op :=
| PRecv (pdu : bytes)
| PSend (sdu : bytes) (pdu_max_size : Z)
| PTime (now : Z).

Definition pdcp_step (e : nr_pdcp_entity) (op : pdcp_op) : res (nr_pdcp_entity * list nr_pdcp_sdu) :=
  match op with
  | PRecv pdu => recv_pdu e pdu
  | PSend sdu max => let* (e, _) := process_sdu e sdu max in Ok (e, [])
  | PTime now => Ok (nr_pdcp_entity_set_time e now)
  end.

Fixpoint pdcp_run (e : nr_pdcp_entity) (ops : list pdcp_op) : res (nr_pdcp_entity * list nr_pdcp_sdu) :=
  match ops with
  | [] => Ok (e, [])
  | op :: ops =>
      let* (e, ev) := pdcp_step e op in
      let* (e, evs) := pdcp_run e ops in
      Ok (e, ev ++ evs)
  end.

(** No PDU of the run carries the last COUNT of the key. *)
Fixpoint run_count_ok (e : nr_pdcp_entity) (ops : list pdcp_op) : bool :=
  match ops with
  | [] => true
  | op :: ops =>
      match op with PRecv pdu => count_ok e pdu | _ => true end
      && match pdcp_step e op with Ok (e, _) => run_count_ok e ops | Fail _ => true end
  end.

(** The clock of the run never shows 0. *)
Definition op_clock_ok (op : pdcp_op) : Prop :=
  match op with PTime now => now <> 0 | _ => True end.

Lemma process_sdu_rx e sdu max e' pdu :
  process_sdu e sdu max = Ok (e', pdu) ->
  exists tn st, e' = {| e with pe_tx_next := tn; pe_stats := st |}.
Proof.
  unfold nr_pdcp_entity_process_sdu. intros (u&_&H)%rbind_ok.
  destruct (pe_entity_suspended e) eqn:Es.
  { injection H as <- <-. exists (pe_tx_next e), (pe_stats e). destruct e; simpl in Es; by subst. }
  apply rbind_ok in H as (b1&_&H). apply rbind_ok in H as (b2&_&H). injection H as <- <-.
  destruct e; simpl in *; subst. by eexists _, _.
Qed.

(** What every operation guarantees. *)
Record step_ok (e e' : nr_pdcp_entity) (ev : list nr_pdcp_sdu) : Prop := {
  so_inv : pdcp_rx_inv e';
  so_batch : batch e e' ev;
  so_mac : integrity_size_of e' = integrity_size_of e;
  so_flow : exists inp, conserved e e' inp ev (integrity_size_of e * zlen inp)
}.

Lemma deliver_consecutive_mac l c e :
  integrity_size_of (deliver_consecutive l c e).1.1 = integrity_size_of e.
Proof.
  revert c e. induction l as [|cur l IH]; intros c e; simpl; [done|].
  destruct (c =? _); [|done]. specialize (IH (u32 (c + 1)) (pdcp_deliver e cur l)).
  by destruct (deliver_consecutive _ _ _) as [[? ?] ?].
Qed.

Lemma deliver_before_mac l e : integrity_size_of (deliver_before l e).1 = integrity_size_of e.
Proof.
  revert e. induction l as [|cur l IH]; intros e; simpl; [done|].
  destruct (_ <? _); [|done]. specialize (IH (pdcp_deliver e cur l)).
  by destruct (deliver_before _ _) as [? ?].
Qed.

Lemma reordering_update_mac e : integrity_size_of (pdcp_reordering_update e) = integrity_size_of e.
Proof. unfold pdcp_reordering_update. by repeat case_match. Qed.

Lemma pdcp_accept_mac e s added : integrity_size_of (pdcp_accept e s added).1 = integrity_size_of e.
Proof.
  unfold pdcp_accept. destruct (_ =? _).
  - match goal with |- context [deliver_consecutive ?l ?c ?x] => pose proof (deliver_consecutive_mac l c x) as H;
      destruct (deliver_consecutive l c x) as [[e2 c2] ev2] end.
    cbn [fst]. rewrite reordering_update_mac. simpl in H. etrans; [exact H|]. by case_match.
  - cbn [fst]. rewrite reordering_update_mac. by case_match.
Qed.

Lemma set_time_mac e now : integrity_size_of (nr_pdcp_entity_set_time e now).1 = integrity_size_of e.
Proof.
  unfold nr_pdcp_entity_set_time, check_t_reordering. repeat (case_match; try done); simplify_eq/=.
  all: match goal with
    H1 : deliver_before ?l ?x = _, H2 : deliver_consecutive ?l' ?c ?y = _ |- _ =>
      pose proof (deliver_before_mac l x) as M1; rewrite H1 in M1;
      pose proof (deliver_consecutive_mac l' c y) as M2; rewrite H2 in M2 end.
  all: simpl in *; etrans; [exact M2 | exact M1].
Qed.

(** Reception changes the four receiver variables, the list, its size and the
    statistics; the MAC-I is there or not for the whole run. *)
Lemma recv_pdu_mac e b e' ev : recv_pdu e b = Ok (e', ev) -> integrity_size_of e' = integrity_size_of e.
Proof.
  rewrite pdcp_recv_cases. destruct (pe_entity_suspended e); [by intros [= <- <-]|].
  destruct (zlen b <? 1); [by intros [= <- <-]|].
  intros (sn&_&H)%rbind_ok. cbv zeta in H. destruct (zlen b <? _); [by simplify_eq|].
  apply recv_data_cases in H as [[-> ->]|(s&_&_&_&_&Ha)]; [done|].
  apply (f_equal fst) in Ha. simpl in Ha. subst e'. by rewrite pdcp_accept_mac.
Qed.

Lemma pdcp_step_ok e op e' ev :
  pdcp_rx_inv e -> match op with PRecv pdu => count_ok e pdu | _ => true end = true ->
  pdcp_step e op = Ok (e', ev) ->
  step_ok e e' ev /\ (timer_live e -> op_clock_ok op -> timer_live e').
Proof.
  intros Hi Hc. destruct op as [pdu|sdu max|now]; simpl.
  - intros H. pose proof (recv_pdu_mac _ _ _ _ H) as Hm. apply pdcp_recv_ok in H; [|done..].
    destruct H as (I&L&B&inp&F&_). split; [|auto]. split; [done..|by exists inp].
  - intros ([e1 o]&H&E)%rbind_ok. injection E as <- <-. apply process_sdu_rx in H as (tn&st&->).
    destruct Hi as [[] ????]. split; [|done]. split; [by split | by apply batch_nil | done|].
    exists []. rewrite zlen_nil. split; simpl; [done | lia].
  - intros [= H]. pose proof (set_time_mac e now) as Hm. rewrite H in Hm.
    apply pdcp_time_ok in H as (I&L&B&F&_); [|done]. split; [|auto]. split; [done..|].
    exists []. rewrite zlen_nil, Z.mul_0_r. done.
Qed.

Lemma step_ok_trans e1 e2 e3 ev1 ev2 : step_ok e1 e2 ev1 -> step_ok e2 e3 ev2 -> step_ok e1 e3 (ev1 ++ ev2).
Proof.
  intros [I1 B1 M1 (i1&P1&Z1)] [I2 B2 M2 (i2&P2&Z2)].
  split; [done | by eapply batch_app | congruence|].
  exists (i1 ++ i2). split; [|rewrite zlen_app; rewrite M1 in Z2; lia].
  rewrite <- !app_assoc, <- P2, !app_assoc, (Permutation_app_comm i1 i2), <- (app_assoc i2), P1.
  rewrite !app_assoc. by rewrite (Permutation_app_comm i2 ev1).
Qed.

Lemma step_ok_refl e : pdcp_rx_inv e -> step_ok e e [].
Proof.
  intros I. split; [done | by apply batch_nil | done|]. exists []. rewrite zlen_nil. split; [done | lia].
Qed.

Lemma pdcp_run_ok e ops e' evs :
  pdcp_rx_inv e -> run_count_ok e ops = true -> pdcp_run e ops = Ok (e', evs) ->
  step_ok e e' evs /\ (timer_live e -> Forall op_clock_ok ops -> timer_live e').
Proof.
  revert e evs. induction ops as [|op ops IH]; simpl; intros e evs Hi Hc.
  - intros [= <- <-]. split; [by apply step_ok_refl | done].
  - intros ([e1 ev1]&H1&H)%rbind_ok. apply rbind_ok in H as ([e2 ev2]&H2&H). injection H as <- <-.
    apply andb_true_iff in Hc as [Hc1 Hc2]. rewrite H1 in Hc2.
    destruct (pdcp_step_ok e op e1 ev1) as [S1 L1]; [done..|].
    destruct (IH e1 ev2) as [S2 L2]; [apply S1 | done..|].
    split; [by eapply step_ok_trans|]. intros L [Ho Hos]%Forall_cons. auto.
Qed.

(** C11. Whatever PDUs arrive, in whatever order, duplicated, corrupted or lost,
    and however time passes, the SDUs handed to the upper layer have strictly
    increasing COUNTs (no SDU twice, none out of order), all of them from the
    old RX_DELIV up to below the new one, and the state of the receiver stays
    well formed: RX_DELIV <= RX_NEXT, the list sorted, without duplicates and
    between the two, and RX_REORD between them while t-Reordering runs.  The
    run may not use the last COUNT of a key. *)
Theorem pdcp_in_order_delivery e ops e' evs :
  pdcp_rx_inv e -> run_count_ok e ops = true -> pdcp_run e ops = Ok (e', evs) ->
  pdcp_rx_inv e' /\ pdcp_sorted evs
  /\ Forall (fun s => pe_rx_deliv e <= ps_count s < pe_rx_deliv e') evs.
Proof.
  intros Hi Hc H. destruct (pdcp_run_ok e ops e' evs Hi Hc H) as [[I [B1 B2 _] _ _] _]. done.
Qed.

(** The accounting of [rx_size]: [recv_pdu] adds the bytes of the MAC-I
    to it and no delivery takes them off again, so after any run it has drifted
    from the bytes stored by the size of the MAC-I for every SDU that was
    accepted; without MAC-I it is exact. *)
Theorem pdcp_rx_size_drift e ops e' evs :
  pdcp_rx_inv e -> run_count_ok e ops = true -> pdcp_run e ops = Ok (e', evs) ->
  pe_rx_size e' - zsum ps_size (pe_rx_list e')
    = pe_rx_size e - zsum ps_size (pe_rx_list e)
      + integrity_size_of e * (zlen evs + zlen (pe_rx_list e') - zlen (pe_rx_list e)).
Proof.
  intros Hi Hc H. destruct (pdcp_run_ok e ops e' evs Hi Hc H) as [[_ _ _ (inp&P&Z)] _].
  apply Permutation_length in P. rewrite !length_app in P. rewrite Z. unfold zlen. repeat f_equal. lia.
Qed.

(** C38. No SDU waits for ever, unless t-Reordering is configured as infinite:
    while the clock is not 0, a receiver that holds SDUs has t-Reordering
    running.  When a finite one runs out, the SDUs stored leave in the order of
    the list, which is that of their COUNTs, up to a COUNT that is RX_REORD at
    least, so every SDU stored below RX_REORD is delivered at once; for what
    stays, all of it below the new RX_REORD, t-Reordering starts again at that
    moment, so that it goes with the next round at the latest.  An infinite
    t-Reordering delivers nothing, however late it is. *)
Theorem pdcp_reordering_bounded_wait e ops e1 evs now e2 ev :
  pdcp_rx_inv e -> timer_live e -> run_count_ok e ops = true -> Forall op_clock_ok ops ->
  pdcp_run e ops = Ok (e1, evs) -> nr_pdcp_entity_set_time e1 now = (e2, ev) ->
  (pe_rx_list e1 <> [] -> pe_t_reordering_start e1 <> 0)
  /\ (pe_t_reordering e1 <> -1 -> pe_t_reordering_start e1 <> 0 -> u64 (pe_t_reordering_start e1 + pe_t_reordering e1) < now ->
      pe_rx_list e1 = ev ++ pe_rx_list e2 /\ pdcp_sorted ev /\ pe_rx_reord e1 <= pe_rx_deliv e2
      /\ (forall s, s ∈ pe_rx_list e1 -> ps_count s < pe_rx_reord e1 -> s ∈ ev)
      /\ (forall s, s ∈ pe_rx_list e2 -> ps_count s < pe_rx_reord e2 /\ pe_t_reordering_start e2 = now))
  /\ (pe_t_reordering e1 = -1 -> ev = [] /\ pe_rx_list e2 = pe_rx_list e1).
Proof.
  intros Hi Hl Hc Ho H Ht. destruct (pdcp_run_ok e ops e1 evs Hi Hc H) as [[I _ _ _] L].
  destruct (L Hl Ho) as [_ L2]. split; [done|].
  apply pdcp_time_ok in Ht as (I2&_&[B _ _]&_&X); [|done]. cbv zeta in X. unfold t_reordering_expired in X. simpl in X. split.
  - intros Hf Hs Hlate. rewrite (proj2 (Z.eqb_neq _ _) Hf), (proj2 (Z.eqb_neq _ _) Hs), (proj2 (Z.ltb_lt _ _) Hlate) in X. simpl in X.
    destruct X as [P D A]. simpl in P, D, A. pose proof (proj1 (Forall_forall _ _) (pri_window e2 I2)) as Hw. split_and!; try done.
    + intros s Hin Hr. rewrite P in Hin. apply elem_of_app in Hin as [Hin|Hin]; [done|]. specialize (Hw s Hin). simpl in *. lia.
    + intros s Hin. destruct A as [A1 A2]; [by intros Hn; rewrite Hn in Hin; apply elem_of_nil in Hin|]. specialize (Hw s Hin). simpl in *. lia.
  - intros Hf. rewrite Hf in X. simpl in X. by destruct X as [-> ->].
Qed.

(** ** Security contexts *)

Definition context_ok (on : bool) (ctx : option (Z * bytes)) : Prop :=
  on = true -> exists alg key, ctx = Some (alg, key) /\ (alg = 1 \/ alg = 2).

(** What [set_security] leaves, with a radio bearer the algorithms accept. *)
Record security_ok (e : nr_pdcp_entity) : Prop := {
  sec_cipher : context_ok (pe_has_ciphering e) (pe_security_context e);
  sec_integrity : context_ok (pe_has_integrity e) (pe_integrity_context e);
  sec_bearer : 1 <= pe_rb_id e <= 31
}.

Context (cipher_length : forall alg key count bearer dir msg,
  length (keystream_cipher alg key count bearer dir msg) = length msg).
Abbreviation crypt := (cipher_from keystream_cipher).

Lemma cipher_from_ok alg key buf off bearer count dir :
  alg = 1 \/ alg = 2 -> 1 <= bearer <= 31 -> dir = 0 \/ dir = 1 -> 0 <= off < zlen buf ->
  crypt (Some (alg, key)) buf off bearer count dir
    = Ok (take (Z.to_nat off) buf
          ++ keystream_cipher alg key count (bearer - 1) dir (drop (Z.to_nat off) buf)).
Proof.
  intros Ha Hb Hd Ho. unfold cipher_from. rewrite buf_read_ok by lia. cbn [rbind].
  assert (Hl : zlen (drop (Z.to_nat off) buf) = zlen buf - off) by (apply zlen_drop; lia).
  rewrite take_ge by (unfold zlen in *; lia).
  unfold pdcp_cipher. cbn [of_opt rbind].
  assert (Hk : assert_ ((0 <? zlen (drop (Z.to_nat off) buf)) && (-1 <? bearer) && (bearer <? 32)
                        && (-1 <? dir) && (dir <? 2)) = Ok tt).
  { unfold assert_. rewrite Hl. case_bool_; [done | lia]. }
  rewrite Hk. replace (if alg =? 2 then Ok tt else Ok tt) with (Ok tt) by by case_match.
  cbn [rbind]. unfold buf_write.
  assert (Hl2 : zlen (keystream_cipher alg key count (bearer - 1) dir (drop (Z.to_nat off) buf)) = zlen buf - off)
    by (rewrite <- Hl; unfold zlen; by rewrite cipher_length).
  rewrite Hl2,  (proj2 (Z.leb_le 0 off)), (proj2 (Z.leb_le _ (zlen buf))) by lia. cbn [andb].
  rewrite cipher_length, (drop_ge buf (_ + _)); [by rewrite app_nil_r|].
  rewrite length_drop. unfold zlen in *. lia.
Qed.

Lemma cipher_from_len alg key buf off bearer count dir :
  length (take (Z.to_nat off) buf ++ keystream_cipher alg key count bearer dir (drop (Z.to_nat off) buf))
    = length buf.
Proof. rewrite length_app, cipher_length, length_take, length_drop. lia. Qed.

Lemma pdcp_integrity_ok alg key buf bearer count dir :
  alg = 1 \/ alg = 2 -> 1 <= bearer <= 31 ->
  pdcp_integrity mac_of (Some (alg, key)) buf bearer count dir = Ok (mac_of alg key count (bearer - 1) dir buf).
Proof.
  intros Ha Hb. unfold pdcp_integrity. cbn [of_opt rbind].
  replace (assert_ _) with (Ok tt); [by case_match|]. unfold assert_. case_bool_; [done | lia].
Qed.

Lemma integrity_size_range e : 0 <= integrity_size_of e <= 4.
Proof. unfold integrity_size_of, PDCP_INTEGRITY_SIZE. case_match; lia. Qed.

Lemma recv_data_total e b c :
  security_ok e ->
  header_size_of e + (if pe_has_sdap_rx e then 1 else 0) + integrity_size_of e + 1 <= zlen b ->
  exists r, recv_data e b c = Ok r.
Proof.
  intros [Hc Hi Hb] Hlen. pose proof (header_size_range e). pose proof (integrity_size_range e).
  unfold pdcp_recv_data.
  set (dir := if pe_is_gnb e then 0 else 1).
  assert (Hdir : dir = 0 \/ dir = 1) by (subst dir; destruct (pe_is_gnb e); auto).
  clearbody dir. set (sdap := if pe_has_sdap_rx e then 1 else 0) in *.
  assert (0 <= sdap <= 1) by (subst sdap; case_match; lia). clearbody sdap.
  match goal with |- context [rbind ?m _] => assert (exists mi, m = Ok mi) as [mi ->] end.
  { destruct (has_mac e) eqn:Em; [|by eexists]. unfold integrity_size_of in *. rewrite Em in *.
    unfold PDCP_INTEGRITY_SIZE in *.
    rewrite !buf_read_ok by lia. by eexists. }
  cbn [rbind].
  match goal with |- context [rbind ?m _] => assert (exists b', m = Ok b' /\ zlen b' = zlen b) as (b'&->&Hb') end.
  { destruct (pe_has_ciphering e); [|by eexists]. destruct (Hc eq_refl) as (alg&key&->&Ha).
    rewrite cipher_from_ok by (done || lia). eexists. split; [done|]. unfold zlen. by rewrite cipher_from_len. }
  cbn [rbind].
  match goal with |- context [rbind ?m _] => assert (exists ok, m = Ok ok) as [ok ->] end.
  { destruct (pe_has_integrity e) eqn:Ei; [|by eexists]. destruct (Hi eq_refl) as (alg&key&->&Ha).
    assert (integrity_size_of e = 4) as E4 by (unfold integrity_size_of, has_mac; by rewrite Ei).
    rewrite E4, !buf_read_ok by (unfold PDCP_INTEGRITY_SIZE; lia). cbn [rbind].
    rewrite pdcp_integrity_ok by done. by eexists. }
  cbn [rbind]. destruct (negb ok); [by eexists|]. destruct (_ || _); [by eexists|].
  rewrite buf_read_ok by lia. by eexists.
Qed.

(** [recv_pdu] returns for every sequence of bytes but one kind: a PDU
    that is not empty and is shorter than the PDCP header makes it read bytes
    after the end of the PDU, because the SN is read before the size is
    checked.  No other length, content, COUNT or security setting makes it
    leave an object or stop the process. *)
Theorem pdcp_recv_pdu_safe e b :
  pdcp_cfg e -> security_ok e -> Forall byte_ok b ->
  if negb (pe_entity_suspended e) && (1 <=? zlen b) && (zlen b <? header_size_of e)
  then recv_pdu e b = Fail FBounds
  else exists r, recv_pdu e b = Ok r.
Proof.
  intros Hcfg Hsec Hb. rewrite pdcp_recv_cases. destruct (pe_entity_suspended e); simpl; [by eexists|].
  destruct (1 <=? zlen b) eqn:E1; simpl; [|rewrite (proj2 (Z.ltb_lt _ 1)) by lia; by eexists].
  rewrite (proj2 (Z.ltb_ge _ 1)) by lia.
  destruct (zlen b <? header_size_of e) eqn:E2; [rewrite rcvd_sn_short by (done || lia); done|].
  destruct (rcvd_sn_ok e b) as (sn&->&_); [done..|lia|]. cbn [rbind]. cbv zeta.
  destruct (zlen b <? _ + 1) eqn:E3; [by eexists|].
  apply recv_data_total; [by destruct Hsec|]. rewrite with_dc_bit_len.
  change (header_size_of (pdcp_stats ?f e)) with (header_size_of e).
  change (integrity_size_of (pdcp_stats ?f e)) with (integrity_size_of e). simpl. lia.
Qed.

(** ** Sender and receiver *)

(** Two entities of a bearer, one at each end. *)
Record pdcp_peers (tx rx : nr_pdcp_entity) : Prop := {
  pp_type : pe_type tx = pe_type rx;
  pp_rb_id : pe_rb_id tx = pe_rb_id rx;
  pp_sn_size : pe_sn_size tx = pe_sn_size rx;
  pp_sdap : pe_has_sdap_tx tx = pe_has_sdap_rx rx;
  pp_ciphering : pe_has_ciphering tx = pe_has_ciphering rx;
  pp_integrity : pe_has_integrity tx = pe_has_integrity rx;
  pp_security : pe_security_context tx = pe_security_context rx;
  pp_mac : pe_integrity_context tx = pe_integrity_context rx;
  pp_side : pe_is_gnb tx = negb (pe_is_gnb rx);
  pp_tx_up : pe_entity_suspended tx = false;
  pp_rx_up : pe_entity_suspended rx = false
}.

Context (mac_length : forall alg key count bearer dir msg,
  length (mac_of alg key count bearer dir msg) = 4%nat).
Context (cipher_involutive : forall alg key count bearer dir msg,
  keystream_cipher alg key count bearer dir (keystream_cipher alg key count bearer dir msg) = msg).

(** The trailer that [process_sdu] appends to [header ++ sdu]. *)
Definition trailer (tx : nr_pdcp_entity) (msg : bytes) : bytes :=
  if pe_has_integrity tx then
    match pe_integrity_context tx with
    | Some (alg, key) => mac_of alg key (pe_tx_next tx) (pe_rb_id tx - 1) (if pe_is_gnb tx then 1 else 0) msg
    | None => []
    end
  else if has_mac tx then [0; 0; 0; 0] else [].

(** The bytes in clear, and what ciphering makes of them. *)
Definition plain_pdu (tx : nr_pdcp_entity) (sdu : bytes) : bytes :=
  let h := pdcp_header tx (Z.land (pe_tx_next tx) (pe_sn_max tx)) in (h ++ sdu) ++ trailer tx (h ++ sdu).

Definition cipher_offset (e : nr_pdcp_entity) (sdap : bool) : Z := header_size_of e + (if sdap then 1 else 0).

Definition ciphered (e : nr_pdcp_entity) (off count dir : Z) (buf : bytes) : bytes :=
  if pe_has_ciphering e then
    match pe_security_context e with
    | Some (alg, key) =>
        take (Z.to_nat off) buf ++ keystream_cipher alg key count (pe_rb_id e - 1) dir (drop (Z.to_nat off) buf)
    | None => buf
    end
  else buf.

Lemma ciphered_ok e off count dir buf :
  security_ok e -> dir = 0 \/ dir = 1 -> 0 <= off < zlen buf ->
  (if pe_has_ciphering e then crypt (pe_security_context e) buf off (pe_rb_id e) count dir else Ok buf)
    = Ok (ciphered e off count dir buf).
Proof.
  intros [Hc _ Hb] Hd Ho. unfold ciphered. destruct (pe_has_ciphering e); [|done].
  destruct (Hc eq_refl) as (alg&key&->&Ha). by apply cipher_from_ok.
Qed.

Lemma ciphered_len e off count dir buf : zlen (ciphered e off count dir buf) = zlen buf.
Proof. unfold ciphered, zlen. repeat case_match; [by rewrite cipher_from_len | done..]. Qed.

Lemma ciphered_take e off count dir buf n :
  Z.of_nat n <= off -> off <= zlen buf -> take n (ciphered e off count dir buf) = take n buf.
Proof.
  intros Hn Ho. unfold ciphered. repeat case_match; try done.
  rewrite take_app_le by (rewrite length_take; unfold zlen in *; lia).
  rewrite take_take. f_equal. lia.
Qed.

(** Deciphering undoes ciphering. *)
Lemma ciphered_involutive e off count dir buf :
  0 <= off <= zlen buf -> ciphered e off count dir (ciphered e off count dir buf) = buf.
Proof.
  intros Ho. unfold ciphered. repeat case_match; try done.
  assert (length (take (Z.to_nat off) buf) = Z.to_nat off) as Hl by (rewrite length_take; unfold zlen in *; lia).
  rewrite take_app_le, take_take, Nat.min_id by lia.
  rewrite <- Hl at 2. rewrite drop_app_length, cipher_involutive. apply take_drop.
Qed.

Lemma pdcp_header_len e sn : zlen (pdcp_header e sn) = header_size_of e.
Proof. unfold pdcp_header, header_size_of. by case_match. Qed.

Lemma trailer_len tx msg : security_ok tx -> zlen (trailer tx msg) = integrity_size_of tx.
Proof.
  intros [_ Hi _]. unfold trailer, integrity_size_of, has_mac, PDCP_INTEGRITY_SIZE.
  destruct (pe_has_integrity tx); simpl.
  - destruct (Hi eq_refl) as (alg&key&->&_). unfold zlen. by rewrite mac_length.
  - by case_match.
Qed.

(** The sender up to its cipher. *)
Definition cipher_step (tx : nr_pdcp_entity) (buf : bytes) : res bytes :=
  if pe_has_ciphering tx
  then crypt (pe_security_context tx) buf (cipher_offset tx (pe_has_sdap_tx tx)) (pe_rb_id tx) (pe_tx_next tx) (if pe_is_gnb tx then 1 else 0)
  else Ok buf.

Lemma process_sdu_plain tx sdu max :
  security_ok tx -> pe_entity_suspended tx = false -> nr_max_pdcp_pdu_size (zlen sdu) <= max ->
  match cipher_step tx (plain_pdu tx sdu) with
  | Ok buf => exists st, process_sdu tx sdu max = Ok ({| tx with pe_tx_next := u32 (pe_tx_next tx + 1); pe_stats := st |}, Some buf)
  | Fail f => process_sdu tx sdu max = Fail f
  end.
Proof.
  intros Hsec Hs Hm. unfold nr_pdcp_entity_process_sdu, assert_.
  rewrite (proj2 (Z.leb_le _ _)) by done. cbn [rbind]. rewrite Hs. cbn -[pdcp_header pdcp_integrity cipher_from cipher_step].
  set (h := pdcp_header _ _).
  assert (Eh : h = pdcp_header tx (Z.land (pe_tx_next tx) (pe_sn_max tx))) by reflexivity. clearbody h.
  change (header_size_of (pdcp_stats ?f tx)) with (header_size_of tx).
  match goal with |- context [rbind ?m (fun buf => rbind _ _)] =>
    assert (m = Ok (plain_pdu tx sdu)) as -> end.
  { unfold plain_pdu, trailer. rewrite <- Eh. change (has_mac (pdcp_stats ?f tx)) with (has_mac tx).
    destruct (pe_has_integrity tx) eqn:Ei; [|destruct (has_mac tx); [done | by rewrite app_nil_r]].
    destruct (sec_integrity tx Hsec Ei) as (alg&key&->&Ha).
    rewrite pdcp_integrity_ok by (done || apply Hsec). done. }
  cbn [rbind]. fold (cipher_offset tx (pe_has_sdap_tx tx)). fold (cipher_step tx (plain_pdu tx sdu)).
  destruct (cipher_step tx (plain_pdu tx sdu)); [|done]. cbn [rbind pe_entity_suspended pdcp_stats]. rewrite Hs. by eexists.
Qed.

Lemma process_sdu_spec tx sdu max :
  security_ok tx -> pe_entity_suspended tx = false -> nr_max_pdcp_pdu_size (zlen sdu) <= max ->
  (if pe_has_sdap_tx tx then 1 else 0) < zlen sdu ->
  exists st, process_sdu tx sdu max =
    Ok ({| tx with pe_tx_next := u32 (pe_tx_next tx + 1); pe_stats := st |},
        Some (ciphered tx (cipher_offset tx (pe_has_sdap_tx tx)) (pe_tx_next tx)
                (if pe_is_gnb tx then 1 else 0) (plain_pdu tx sdu))).
Proof.
  intros Hsec Hs Hm Hsz. pose proof (process_sdu_plain tx sdu max Hsec Hs Hm) as Hp. unfold cipher_step in Hp.
  rewrite ciphered_ok in Hp; [exact Hp|done|destruct (pe_is_gnb tx); auto|]. clear Hp. unfold plain_pdu, cipher_offset.
  set (h := pdcp_header _ _). assert (zlen h = header_size_of tx) by apply pdcp_header_len.
  pose proof (header_size_range tx). pose proof (zlen_nonneg (trailer tx (h ++ sdu))).
  rewrite !zlen_app. destruct (pe_has_sdap_tx tx); lia.
Qed.

Lemma land_lor_dc b m dc x : Z.land dc m = 0 -> b = Z.lor dc (Z.land x m) -> Z.land b m = Z.land x m.
Proof. intros Hd ->. by rewrite Z.land_lor_distr_l, Hd, Z.lor_0_l, <- Z.land_assoc, Z.land_diag. Qed.

Lemma land_255_byte x : byte_ok (Z.land x 255).
Proof. apply (land_range_ones x 8). lia. Qed.

(** The header that [process_sdu] writes is read back. *)
Lemma header_sn tx rx sn tail :
  pe_sn_size tx = pe_sn_size rx -> pe_sn_size rx = 12 \/ pe_sn_size rx = 18 -> 0 <= sn < 2 ^ pe_sn_size rx ->
  rcvd_sn_of rx (pdcp_header tx sn ++ tail) = Ok sn.
Proof.
  intros Esn [E|E] Hsn; unfold pdcp_header; rewrite Esn, E in *; cbn [Z.eqb SHORT_SN_SIZE Pos.eqb app];
    set (dc := if bool_decide _ then 0 else 128);
    assert (Hdc : dc = 0 \/ dc = 128) by (subst dc; destruct (bool_decide _); auto).
  - rewrite rcvd_sn_value by (done || apply land_255_byte).
    rewrite <- (Z.land_ones _ 4) by lia. change (Z.ones 4) with 15.
    rewrite (land_lor_dc _ 15 dc (Z.shiftr sn 8)); [|by destruct Hdc as [-> | ->]|done].
    change 15 with (Z.ones 4). change 255 with (Z.ones 8). rewrite !Z.land_ones, Z.shiftr_div_pow2 by lia.
    apply f_equal. change (2 ^ 4) with 16. change (2 ^ 8) with 256.
    rewrite (Z.mod_small (sn / 256)) by (split; [apply Z.div_pos | apply Z.div_lt_upper_bound]; lia).
    pose proof (Z.div_mod sn 256). lia.
  - rewrite rcvd_sn_value_long by (done || apply land_255_byte).
    rewrite <- (Z.land_ones _ 2) by lia. change (Z.ones 2) with 3.
    rewrite (land_lor_dc _ 3 dc (Z.shiftr sn 16)); [|by destruct Hdc as [-> | ->]|done].
    change 3 with (Z.ones 2). change 255 with (Z.ones 8). rewrite !Z.land_ones, !Z.shiftr_div_pow2 by lia.
    apply f_equal. change (2 ^ 2) with 4. change (2 ^ 8) with 256. change (2 ^ 16) with (256 * 256).
    rewrite (Z.mod_small (sn / (256 * 256))) by (split; [apply Z.div_pos | apply Z.div_lt_upper_bound]; lia).
    rewrite <- (Z.div_div sn 256 256) by lia.
    pose proof (Z.div_mod sn 256). pose proof (Z.div_mod (sn / 256) 256). lia.
Qed.

Lemma header_dc_bit tx rx sn tail :
  pe_type tx = pe_type rx -> with_dc_bit rx (pdcp_header tx sn ++ tail) = pdcp_header tx sn ++ tail.
Proof.
  intros Et. unfold pdcp_header. rewrite Et.
  assert (Hb : forall x, (Z.land (Z.lor 128 x) 128 =? 0) = false).
  { intros x. rewrite Z.land_lor_distr_l. change (Z.land 128 128) with 128.
    apply Z.eqb_neq. rewrite Z.lor_eq_0_iff. lia. }
  destruct (bool_decide (pe_type rx = NR_PDCP_SRB)) eqn:Eb; destruct (pe_sn_size tx =? SHORT_SN_SIZE);
    unfold with_dc_bit; cbn [app]; rewrite Eb; cbn [negb andb]; by rewrite ?Hb.
Qed.

(** What the statistics record of a PDU before anything else. *)
Definition stats_pdu_in (size sn : Z) (s : nr_pdcp_statistics) : nr_pdcp_statistics :=
  {| s with rxpdu_pkts := u32 (rxpdu_pkts s + 1); rxpdu_bytes := u32 (rxpdu_bytes s + size); rxpdu_sn := sn |}.

(** The receiver's part: deciphering, integrity check and SDU of a PDU that
    [plain] is the clear text of. *)
Lemma recv_data_plain e pdu hd sdu mac count :
  security_ok e -> zlen hd = header_size_of e -> zlen mac = integrity_size_of e ->
  (if pe_has_sdap_rx e then 1 else 0) < zlen sdu ->
  let dir := if pe_is_gnb e then 0 else 1 in
  zlen pdu = zlen ((hd ++ sdu) ++ mac) ->
  ciphered e (cipher_offset e (pe_has_sdap_rx e)) count dir pdu = (hd ++ sdu) ++ mac ->
  (pe_has_integrity e = true -> exists alg key,
     pe_integrity_context e = Some (alg, key) /\ mac = mac_of alg key count (pe_rb_id e - 1) dir (hd ++ sdu)) ->
  (pe_rx_deliv e <= count) -> nr_pdcp_sdu_in_list (pe_rx_list e) count = false ->
  exists mi, recv_data e pdu count
    = Ok (pdcp_accept e (nr_pdcp_new_sdu count sdu mi) (zlen sdu + integrity_size_of e)).
Proof.
  intros Hsec Hh Hm Hsdu dir Hlen Hc Hmac Hd Hin.
  pose proof (header_size_range e). pose proof (integrity_size_range e).
  assert (Hz : zlen pdu = header_size_of e + zlen sdu + integrity_size_of e) by (rewrite Hlen, !zlen_app; lia).
  unfold pdcp_recv_data. fold dir.
  match goal with |- context [rbind ?m _] => assert (exists mi, m = Ok mi) as [mi ->] end.
  { destruct (has_mac e) eqn:Em; [|by eexists].
    assert (integrity_size_of e = 4) by (unfold integrity_size_of; by rewrite Em).
    rewrite !buf_read_ok by (destruct (pe_has_sdap_rx e); lia). by eexists. }
  cbn [rbind]. fold (cipher_offset e (pe_has_sdap_rx e)). rewrite ciphered_ok.
  2: done. 2: subst dir; destruct (pe_is_gnb e); auto.
  2: unfold cipher_offset; destruct (pe_has_sdap_rx e); lia.
  cbn [rbind]. rewrite Hc.
  match goal with |- context [rbind ?m _] => assert (m = Ok true) as -> end.
  { destruct (pe_has_integrity e) eqn:Ei; [|done]. destruct (Hmac eq_refl) as (alg&key&Hctx&Hmac').
    assert (Hi4 : integrity_size_of e = 4) by (unfold integrity_size_of, has_mac; by rewrite Ei).
    assert (Hl : zlen pdu - integrity_size_of e = zlen (hd ++ sdu)) by (rewrite zlen_app; lia).
    rewrite Hl. pose proof (buf_read_app (hd ++ sdu) [] mac) as R. simpl in R. rewrite zlen_nil in R.
    rewrite R. cbn [rbind]. rewrite Hctx.
    rewrite pdcp_integrity_ok; [|by destruct (sec_integrity e Hsec Ei) as (?&?&[= <- <-]%(eq_trans (eq_sym Hctx))&?)|apply Hsec].
    cbn [rbind]. pose proof (buf_read_app mac (hd ++ sdu) []) as R2. rewrite app_nil_r in R2.
    change PDCP_INTEGRITY_SIZE with 4. rewrite <- Hi4, <- Hm, R2. cbn [rbind].
    by rewrite bool_decide_eq_true_2 by done. }
  cbn [rbind negb]. rewrite (proj2 (Z.ltb_ge _ _)) by done. rewrite Hin. cbn [orb].
  replace (zlen pdu - header_size_of e - integrity_size_of e) with (zlen sdu) by lia.
  pose proof (buf_read_app sdu hd mac) as R3. rewrite Hh in R3. rewrite <- app_assoc, R3. cbn [rbind].
  exists mi. by replace (zlen sdu + integrity_size_of e) with (zlen pdu - header_size_of e) by lia.
Qed.

Lemma recv_pdu_long e b sn :
  pe_entity_suspended e = false -> rcvd_sn_of e b = Ok sn ->
  header_size_of e + (if pe_has_sdap_rx e then 1 else 0) + integrity_size_of e + 1 <= zlen b ->
  recv_pdu e b = recv_data (pdcp_stats (stats_pdu_in (zlen b) sn) e) (with_dc_bit e b) (rcvd_count_of e sn).
Proof.
  intros Hs Hsn Hlen. pose proof (header_size_range e). pose proof (integrity_size_range e).
  rewrite pdcp_recv_cases, Hs, Hsn. cbn [rbind]. cbv zeta.
  rewrite !(proj2 (Z.ltb_ge _ _)) by (destruct (pe_has_sdap_rx e); lia). reflexivity.
Qed.

Section Peers.
Context (tx rx : nr_pdcp_entity) (peers : pdcp_peers tx rx).

Lemma peers_security : security_ok rx -> security_ok tx.
Proof.
  intros [C I B]. split.
  - by rewrite (pp_ciphering tx rx peers), (pp_security tx rx peers).
  - by rewrite (pp_integrity tx rx peers), (pp_mac tx rx peers).
  - by rewrite (pp_rb_id tx rx peers).
Qed.

Lemma peers_header_size : header_size_of tx = header_size_of rx.
Proof. unfold header_size_of. by rewrite (pp_sn_size tx rx peers). Qed.

Lemma peers_integrity_size : integrity_size_of tx = integrity_size_of rx.
Proof. unfold integrity_size_of, has_mac. by rewrite (pp_type tx rx peers), (pp_integrity tx rx peers). Qed.

Lemma peers_direction : (if pe_is_gnb tx then 1 else 0) = if pe_is_gnb rx then 0 else 1.
Proof. rewrite (pp_side tx rx peers). by destruct (pe_is_gnb rx). Qed.

Lemma peers_ciphered off count dir buf : ciphered tx off count dir buf = ciphered rx off count dir buf.
Proof.
  unfold ciphered. by rewrite (pp_ciphering tx rx peers), (pp_security tx rx peers), (pp_rb_id tx rx peers).
Qed.

Lemma peers_offset : cipher_offset tx (pe_has_sdap_tx tx) = cipher_offset rx (pe_has_sdap_rx rx).
Proof. unfold cipher_offset. by rewrite peers_header_size, (pp_sdap tx rx peers). Qed.

Lemma peers_sn count :
  pdcp_cfg tx -> let sn := Z.land count (pe_sn_max tx) in
  0 <= sn < 2 ^ pe_sn_size rx /\ sn = count mod 2 ^ pe_sn_size rx.
Proof.
  intros C. rewrite (pcfg_max tx C), <- (pp_sn_size tx rx peers).
  assert (0 <= pe_sn_size tx) by (destruct (pcfg_sn tx C) as [-> | ->]; lia).
  replace (2 ^ pe_sn_size tx - 1) with (Z.ones (pe_sn_size tx)) by (rewrite Z.ones_equiv; lia).
  split; [by apply land_range_ones | by rewrite Z.land_ones].
Qed.

(** The PDU: the header in clear, then a body of known size. *)
Lemma plain_pdu_len sdu :
  security_ok tx -> zlen (plain_pdu tx sdu) = header_size_of rx + zlen sdu + integrity_size_of rx.
Proof.
  intros S. unfold plain_pdu. rewrite !zlen_app, pdcp_header_len, trailer_len by done.
  by rewrite peers_header_size, peers_integrity_size.
Qed.

Lemma pdu_split sdu off count dir :
  security_ok tx -> header_size_of rx <= off <= header_size_of rx + zlen sdu ->
  exists body, ciphered tx off count dir (plain_pdu tx sdu)
               = pdcp_header tx (Z.land (pe_tx_next tx) (pe_sn_max tx)) ++ body.
Proof.
  intros S Ho. set (pdu := ciphered _ _ _ _ _). set (hd := pdcp_header _ _).
  pose proof (plain_pdu_len sdu S) as Hl. pose proof (integrity_size_range rx).
  assert (Hhd : zlen hd = header_size_of rx) by (rewrite <- peers_header_size; apply pdcp_header_len).
  exists (drop (length hd) pdu). rewrite <- (take_drop (length hd) pdu) at 1. f_equal.
  unfold pdu. rewrite ciphered_take by (rewrite ?Hl; unfold zlen in *; lia).
  unfold plain_pdu. rewrite <- app_assoc. apply take_app_length.
Qed.

End Peers.

Lemma secured_roundtrip_ok tx rx sdu max :
  pdcp_cfg tx -> pdcp_cfg rx -> security_ok rx -> pdcp_peers tx rx ->
  nr_max_pdcp_pdu_size (zlen sdu) <= max -> (if pe_has_sdap_rx rx then 1 else 0) < zlen sdu ->
  0 <= pe_rx_deliv rx <= pe_tx_next tx -> pe_tx_next tx < 2 ^ 32 ->
  pe_tx_next tx < pe_rx_deliv rx + pe_window_size rx ->
  nr_pdcp_sdu_in_list (pe_rx_list rx) (pe_tx_next tx) = false ->
  exists tx' pdu mi sn,
    process_sdu tx sdu max = Ok (tx', Some pdu)
    /\ pe_tx_next tx' = u32 (pe_tx_next tx + 1)
    /\ recv_pdu rx pdu
       = Ok (pdcp_accept (pdcp_stats (stats_pdu_in (zlen pdu) sn) rx) (nr_pdcp_new_sdu (pe_tx_next tx) sdu mi)
               (zlen sdu + integrity_size_of rx)).
Proof.
  intros Ctx Crx Srx P Hmax Hsdu Hd Hw Hwin Hin.
  pose proof (peers_security tx rx P Srx) as Stx.
  destruct (process_sdu_spec tx sdu max) as [st ->]; [done|apply P|done|by rewrite (pp_sdap tx rx P)|].
  rewrite (peers_offset tx rx P), (peers_direction tx rx P).
  assert (Hoff : header_size_of rx <= cipher_offset rx (pe_has_sdap_rx rx) <= header_size_of rx + zlen sdu)
    by (unfold cipher_offset; destruct (pe_has_sdap_rx rx); lia).
  pose proof (plain_pdu_len tx rx P sdu Stx) as Hlen.
  destruct (pdu_split tx rx P sdu _ (pe_tx_next tx) (if pe_is_gnb rx then 0 else 1) Stx Hoff) as [body Hb].
  destruct (peers_sn tx rx P (pe_tx_next tx) Ctx) as [Hsn Hmod].
  assert (0 <= pe_window_size rx) by (pose proof (pcfg_window rx Crx); destruct (pcfg_sn rx Crx) as [E|E]; rewrite E in *; lia).
  pose proof (rcvd_count_spec rx (pe_tx_next tx) Crx ltac:(lia) ltac:(lia)) as Hc.
  rewrite <- Hmod, wrap_small in Hc by lia.
  set (sn := Z.land _ _) in *. set (pdu := ciphered _ _ _ _ _) in *.
  assert (Hpdu : zlen pdu = zlen (plain_pdu tx sdu)) by apply ciphered_len.
  assert (Hrsn : rcvd_sn_of rx pdu = Ok sn)
    by (rewrite Hb; apply header_sn; [apply P | apply Crx | done]).
  assert (Hdc : with_dc_bit rx pdu = pdu) by (rewrite Hb; apply header_dc_bit, P).
  clear Hmod.
  set (rx1 := pdcp_stats (stats_pdu_in (zlen pdu) sn) rx).
  set (hd := pdcp_header tx _) in *.
  destruct (recv_data_plain rx1 pdu hd sdu (trailer tx (hd ++ sdu)) (pe_tx_next tx)) as [mi Hmi].
  - by destruct Srx.
  - unfold hd. rewrite pdcp_header_len. apply (peers_header_size tx rx P).
  - rewrite trailer_len by done. apply (peers_integrity_size tx rx P).
  - done.
  - exact Hpdu.
  - change (ciphered rx (cipher_offset rx (pe_has_sdap_rx rx)) (pe_tx_next tx) (if pe_is_gnb rx then 0 else 1) pdu
            = plain_pdu tx sdu).
    rewrite <- (peers_ciphered tx rx P). apply ciphered_involutive.
    pose proof (header_size_range rx). pose proof (integrity_size_range rx). lia.
  - intros Hi. change (pe_has_integrity rx = true) in Hi. rewrite <- (pp_integrity tx rx P) in Hi.
    destruct (sec_integrity tx Stx Hi) as (alg&key&Hctx&_). exists alg, key. split.
    + change (pe_integrity_context rx = Some (alg, key)). by rewrite <- (pp_mac tx rx P).
    + unfold trailer. by rewrite Hi, Hctx, (pp_rb_id tx rx P), (peers_direction tx rx P).
  - apply Hd.
  - exact Hin.
  - eexists _, pdu, mi, sn. split; [done|]. split; [done|].
    rewrite (recv_pdu_long rx pdu sn), Hdc, Hc; [exact Hmi | apply P | done|].
    rewrite Hpdu, Hlen. lia.
Qed.

(** C12. Round trip: a PDU that [process_sdu] makes is taken by the entity at
    the other end, which has the same bearer, algorithms and keys, as exactly
    the SDU, under the COUNT the sender used, provided the COUNT is in the
    window, is not below RX_DELIV and is not stored already: the header is
    parsed back, ciphering is undone, the MAC-I agrees, and the SDAP header that
    is not ciphered and the MAC-I do not get lost or left in the SDU. *)
Theorem pdcp_secured_roundtrip tx rx sdu max :
  pdcp_cfg tx -> pdcp_cfg rx -> security_ok rx -> pdcp_peers tx rx ->
  nr_max_pdcp_pdu_size (zlen sdu) <= max -> (if pe_has_sdap_rx rx then 1 else 0) < zlen sdu ->
  0 <= pe_rx_deliv rx <= pe_tx_next tx -> pe_tx_next tx < 2 ^ 32 ->
  pe_tx_next tx < pe_rx_deliv rx + pe_window_size rx ->
  nr_pdcp_sdu_in_list (pe_rx_list rx) (pe_tx_next tx) = false ->
  exists tx' pdu mi sn,
    process_sdu tx sdu max = Ok (tx', Some pdu)
    /\ pe_tx_next tx' = u32 (pe_tx_next tx + 1)
    /\ recv_pdu rx pdu
       = Ok (pdcp_accept (pdcp_stats (stats_pdu_in (zlen pdu) sn) rx) (nr_pdcp_new_sdu (pe_tx_next tx) sdu mi)
               (zlen sdu + integrity_size_of rx)).
Proof. apply secured_roundtrip_ok. Qed.

End Trace.

(** ** Security parameters *)

Definition alg_ok (a : Z) : bool := (a =? -1) || (a =? 0) || (a =? 1) || (a =? 2).

(** What one of the two algorithm fields does to a flag and a context. *)
Definition flag_of (a : Z) (old : bool) : bool := if a =? -1 then old else negb (a =? 0).
Definition context_of (a : Z) (key : bytes) (old : option (Z * bytes)) : option (Z * bytes) :=
  if a =? -1 then old else if a =? 0 then None else Some (a, key).

(** The entity after [set_security] with valid algorithms. *)
Definition secured (e : nr_pdcp_entity) (p : nr_pdcp_security) : nr_pdcp_entity :=
  let ia := integrity_algorithm p in
  let ca := ciphering_algorithm p in
  let keys := mk_security (if ia =? -1 then integrity_algorithm (pe_keys e) else ia)
                          (if ca =? -1 then ciphering_algorithm (pe_keys e) else ca)
                          (if ia =? -1 then integrity_key (pe_keys e) else integrity_key p)
                          (if ca =? -1 then ciphering_key (pe_keys e) else ciphering_key p) in
  {| e with pe_keys := keys;
            pe_has_integrity := flag_of ia (pe_has_integrity e);
            pe_integrity_context := context_of ia (integrity_key p) (pe_integrity_context e);
            pe_has_ciphering := flag_of ca (pe_has_ciphering e);
            pe_security_context := context_of ca (ciphering_key p) (pe_security_context e) |}.

Lemma alg_ok_cases a : alg_ok a = true -> a = -1 \/ a = 0 \/ a = 1 \/ a = 2.
Proof. unfold alg_ok. lia. Qed.

Lemma set_security_valid e p :
  alg_ok (integrity_algorithm p) = true -> alg_ok (ciphering_algorithm p) = true ->
  nr_pdcp_entity_set_security e p = Ok (secured e p).
Proof.
  intros Hi%alg_ok_cases Hc%alg_ok_cases.
  destruct p as [ia ca ik ck], e as [? ? ? ? ? ? ? ? ? ? ? ? ? ? ? ? ? ? [] ? ? ? ? ? ? ?]. simpl in *.
  destruct Hi as [->|[->|[->| ->]]], Hc as [->|[->|[->| ->]]]; reflexivity.
Qed.

Lemma secured_ok e p :
  alg_ok (integrity_algorithm p) = true -> alg_ok (ciphering_algorithm p) = true ->
  security_ok e -> security_ok (secured e p).
Proof.
  intros Hi%alg_ok_cases Hc%alg_ok_cases [C I B].
  split; [..|done]; unfold context_ok, flag_of, context_of; simpl.
  - destruct Hc as [->|[->|[->| ->]]]; [done|done|intros _; eexists _, _; eauto..].
  - destruct Hi as [->|[->|[->| ->]]]; [done|done|intros _; eexists _, _; eauto..].
Qed.

Lemma secured_inv e p : pdcp_rx_inv e -> pdcp_rx_inv (secured e p).
Proof. intros [[] ????]. by split. Qed.

Lemma install_integrity_fails e a : alg_ok a = false -> install_integrity e a = Fail FExit.
Proof.
  unfold alg_ok, install_integrity. intros H. bool_hyps.
  repeat match goal with H : (_ =? _) = false |- _ => rewrite H; clear H end. done.
Qed.

Lemma install_ciphering_fails e a : alg_ok a = false -> install_ciphering e a = Fail FExit.
Proof.
  unfold alg_ok, install_ciphering. intros H. bool_hyps.
  repeat match goal with H : (_ =? _) = false |- _ => rewrite H; clear H end. done.
Qed.

Lemma install_integrity_ok e a : alg_ok a = true -> exists e', install_integrity e a = Ok e'.
Proof. intros [->|[->|[->| ->]]]%alg_ok_cases; by eexists. Qed.

(** [set_security] with algorithms among -1 (keep), 0 (none), 1 and 2
    installs exactly what was asked for, for ciphering and integrity
    separately: an algorithm kept keeps its flag, context and key, 0 turns it
    off and releases its context, 1 and 2 turn it on under the new key; the
    counters, the timer and the stored SDUs stay.  Any other algorithm stops the
    process. *)
Theorem pdcp_set_security_spec e p :
  nr_pdcp_entity_set_security e p =
    if alg_ok (integrity_algorithm p) && alg_ok (ciphering_algorithm p)
    then Ok (secured e p) else Fail FExit.
Proof.
  destruct (alg_ok (integrity_algorithm p)) eqn:Hi; [destruct (alg_ok (ciphering_algorithm p)) eqn:Hc|].
  - by apply set_security_valid.
  - unfold nr_pdcp_entity_set_security. rewrite andb_false_r.
    destruct (install_integrity_ok (store_keys e p) _ Hi) as [e' ->]. cbn [rbind]. by apply install_ciphering_fails.
  - unfold nr_pdcp_entity_set_security. by rewrite install_integrity_fails.
Qed.

(** ** Creation *)

Lemma new_entity_ok type is_gnb rb_id psid sdap_rx sdap_tx sn_size t_reordering discard p :
  sn_size = 12 \/ sn_size = 18 -> 1 <= rb_id <= 31 ->
  alg_ok (integrity_algorithm p) = true -> alg_ok (ciphering_algorithm p) = true ->
  exists e, new_nr_pdcp_entity type is_gnb rb_id psid sdap_rx sdap_tx sn_size t_reordering discard p = Ok e
    /\ pdcp_rx_inv e /\ security_ok e.
Proof.
  intros Hsn Hrb Hi Hc. unfold new_nr_pdcp_entity. rewrite set_security_valid by done.
  eexists. split; [done|]. split.
  - apply secured_inv. split; simpl; [|done|constructor|done|done].
    destruct Hsn as [-> | ->]; split; simpl; auto.
  - apply secured_ok; [done..|]. by split.
Qed.

(** ** Suspension and re-establishment *)

(** A suspension hands over every stored SDU, in order, and leaves an
    entity that takes no PDU; re-establishing it with valid parameters, for
    each kind of bearer, hands over nothing more and gives a working entity
    with an empty list and its three COUNT variables at 0, so nothing of the
    old keys' epoch is delivered under the new ones. *)
Theorem pdcp_suspend_reestablish kc mac e e1 ev p :
  pdcp_rx_inv e -> timer_live e ->
  alg_ok (integrity_algorithm p) = true -> alg_ok (ciphering_algorithm p) = true ->
  nr_pdcp_entity_suspend e = (e1, ev) ->
  ev = pe_rx_list e /\ pdcp_sorted ev
  /\ (forall b, nr_pdcp_entity_recv_pdu kc mac e1 b = Ok (e1, []))
  /\ exists e2, reestablish_entity e1 p = Ok (e2, [])
       /\ pdcp_rx_inv e2 /\ timer_live e2 /\ pe_rx_list e2 = [] /\ pe_entity_suspended e2 = false
       /\ pe_rx_deliv e2 = 0 /\ pe_rx_next e2 = 0 /\ pe_tx_next e2 = 0.
Proof.
  intros [Hcfg _ Hs _ _] [Ht Hl] Hi Hc. unfold nr_pdcp_entity_suspend.
  assert (H1 : exists z st ev', (if negb (pe_t_reordering_start {| e with pe_tx_next := 0 |} =? 0)
      then deliver_all_sdus {| e with pe_tx_next := 0; pe_t_reordering_start := 0 |} else ({| e with pe_tx_next := 0 |}, []))
      = ({| e with pe_tx_next := 0; pe_t_reordering_start := 0; pe_rx_list := []; pe_rx_size := z; pe_stats := st |}, ev')
      /\ ev' = pe_rx_list e).
  { simpl. destruct (pe_t_reordering_start e =? 0) eqn:E0; simpl.
    - destruct (pe_rx_list e) eqn:El; [|exfalso; apply Hl; [done | lia]].
      exists (pe_rx_size e), (pe_stats e), []. split; [|done]. apply Z.eqb_eq in E0. by rewrite ?E0, ?El.
    - destruct (deliver_all_sdus _) as [e' ev'] eqn:E. apply deliver_all_spec in E as ([_ _ (l&z&st&->)]&->&Hn); [|done].
      simpl in *. subst l. by eexists _, _, _. }
  destruct H1 as (z&st&ev'&H1&->). cbv zeta in *. simpl in H1 |- *. rewrite H1. intros [= <- <-].
  split_and!; [done|done|done|].
  unfold reestablish_entity. simpl. destruct (pe_type e); unfold nr_pdcp_entity_reestablish_drb_am,
    nr_pdcp_entity_reestablish_drb_um, nr_pdcp_entity_reestablish_srb; simpl; rewrite set_security_valid by done;
    (eexists; split; [reflexivity|]; simpl; split_and!; try done; split; simpl; try done;
     try (by destruct Hcfg); try constructor).
Qed.

(** ** COUNT interface *)

Lemma compose_count_value c n :
  0 <= n <= 32 -> 0 <= cnt_sn c < 2 ^ n -> 0 <= cnt_hfn c < 2 ^ (32 - n) ->
  compose_count c n = cnt_hfn c * 2 ^ n + cnt_sn c /\ compose_count c n < 2 ^ 32.
Proof.
  intros Hn Hs Hh. unfold compose_count. rewrite Z.shiftl_1_l.
  replace (2 ^ n - 1) with (Z.ones n) by (rewrite Z.ones_equiv; lia).
  rewrite Z.land_ones, (Z.mod_small (cnt_sn c)) by lia.
  assert (H32 : 2 ^ 32 = 2 ^ (32 - n) * 2 ^ n) by (rewrite <- Z.pow_add_r by lia; f_equal; lia).
  assert (cnt_hfn c * 2 ^ n + cnt_sn c < 2 ^ 32) by nia.
  rewrite Z.shiftl_mul_pow2, wrap_small, lor_mul_add by (lia || nia). done.
Qed.

Lemma split_count v n h s :
  0 <= n -> 0 <= s < 2 ^ n -> v = h * 2 ^ n + s -> Z.land v (2 ^ n - 1) = s /\ Z.shiftr v n = h.
Proof.
  intros Hn Hs ->. replace (2 ^ n - 1) with (Z.ones n) by (rewrite Z.ones_equiv; lia).
  rewrite Z.land_ones, Z.shiftr_div_pow2 by done. split.
  - rewrite Z.add_comm, Z_mod_plus_full. by apply Z.mod_small.
  - rewrite Z.add_comm, Z.div_add by (apply Z.pow_nonzero; lia). rewrite Z.div_small by done. lia.
Qed.

(** The COUNT interface used for handover: what [set_pdcp_count_dl] and
    [set_pdcp_count_ul] store, [get_pdcp_count_dl] and [get_pdcp_count_ul] give
    back, for every SN and HFN of their ranges; an idle receiver stays
    well formed, with RX_NEXT one above RX_DELIV. *)
Theorem pdcp_count_interface e c :
  pdcp_cfg e -> 0 <= cnt_sn c < 2 ^ pe_sn_size e -> 0 <= cnt_hfn c < 2 ^ (32 - pe_sn_size e) ->
  nr_pdcp_entity_get_count_dl (nr_pdcp_entity_set_count_dl e c (pe_sn_size e)) = c
  /\ nr_pdcp_entity_get_count_ul (nr_pdcp_entity_set_count_ul e c (pe_sn_size e)) = c
  /\ (pe_rx_list e = [] -> pe_t_reordering_start e = 0 ->
      cnt_hfn c * 2 ^ pe_sn_size e + cnt_sn c < 2 ^ 32 - 1 ->
      pdcp_rx_inv (nr_pdcp_entity_set_count_dl e c (pe_sn_size e))).
Proof.
  intros Hcfg Hs Hh. assert (Hn : 0 <= pe_sn_size e <= 32) by (destruct (pcfg_sn e Hcfg) as [-> | ->]; lia).
  destruct (compose_count_value c (pe_sn_size e)) as [Hv Hlt]; [done..|].
  destruct (split_count _ _ _ _ (proj1 Hn) Hs Hv) as [Hsn Hhfn].
  unfold nr_pdcp_entity_get_count_dl, nr_pdcp_entity_get_count_ul. simpl.
  rewrite (pcfg_max e Hcfg), Hsn, Hhfn. split_and!; [by destruct c | by destruct c|].
  intros Hl Ht Hb. split; simpl; rewrite ?Hl; try done.
  - by destruct Hcfg.
  - rewrite wrap_small by lia. rewrite Hv. assert (0 <= cnt_hfn c * 2 ^ pe_sn_size e) by (apply Z.mul_nonneg_nonneg; lia). lia.
  - constructor.
Qed.

(** ** Concrete instances *)

(** A cipher and a MAC of the shape the theorems ask for. *)
Definition toy_cipher (alg : Z) (key : bytes) (count bearer dir : Z) (msg : bytes) : bytes :=
  map (Z.lxor ((count + bearer + dir) mod 256)) msg.
Definition toy_mac (alg : Z) (key : bytes) (count bearer dir : Z) (msg : bytes) : bytes :=
  [count mod 256; bearer; dir; zlen msg mod 256].

Lemma toy_cipher_length alg key count bearer dir msg :
  length (toy_cipher alg key count bearer dir msg) = length msg.
Proof. apply length_map. Qed.

Lemma toy_mac_length alg key count bearer dir msg :
  length (toy_mac alg key count bearer dir msg) = 4%nat.
Proof. reflexivity. Qed.

Lemma toy_cipher_involutive alg key count bearer dir msg :
  toy_cipher alg key count bearer dir (toy_cipher alg key count bearer dir msg) = msg.
Proof.
  unfold toy_cipher. rewrite map_map. rewrite <- (map_id msg) at 2. apply map_ext. intros x.
  by rewrite <- Z.lxor_assoc, Z.lxor_nilpotent, Z.lxor_0_l.
Qed.

Definition ex_params : nr_pdcp_security := mk_security 2 2 (replicate 16 7) (replicate 16 9).

(** One end of a DRB with SDAP headers, 12-bit SNs, NEA2 and NIA2. *)
Definition ex_end (is_gnb : bool) (tx_next rx_deliv : Z) : nr_pdcp_entity :=
  match new_nr_pdcp_entity NR_PDCP_DRB_UM is_gnb 4 1 true true 12 100 0 ex_params with
  | Ok e => {| e with pe_t_current := 1; pe_tx_next := tx_next; pe_rx_deliv := rx_deliv; pe_rx_next := rx_deliv |}
  | Fail _ => mk_pdcp NR_PDCP_SRB 0 0 false false 0 0 0 0 0 0 0 0 0 0 0 false false ex_params None None false [] 0
                (mk_pdcp_stats 0 0 0 0 0 0 0 0 0 0 0 0 0 0 0 0) false
  end.

Lemma ex_end_ok g tn rd :
  0 <= rd < 2 ^ 32 -> pdcp_rx_inv (ex_end g tn rd) /\ security_ok (ex_end g tn rd) /\ timer_live (ex_end g tn rd).
Proof.
  intros Hrd. unfold ex_end, new_nr_pdcp_entity. rewrite set_security_valid by reflexivity.
  split_and!.
  - split; simpl; try done; [split; simpl; auto | lia | constructor].
  - split; [intros _; eexists _, _; eauto..|]. split; simpl; lia.
  - by split.
Qed.

(** The PDU that carries [sdu] under COUNT [c]. *)
Definition ex_pdu (c : Z) (sdu : bytes) : bytes :=
  match nr_pdcp_entity_process_sdu toy_cipher toy_mac (ex_end true c 0) sdu 100 with
  | Ok (_, Some pdu) => pdu
  | _ => []
  end.

(** PDU 1 is lost, 2 arrives twice, the timer runs out, 1 arrives too late. *)
Definition ex_ops : list pdcp_op :=
  [PRecv (ex_pdu 0 [65; 1]); PRecv (ex_pdu 2 [65; 3]); PRecv (ex_pdu 2 [65; 3]); PTime 50; PTime 200;
   PRecv (ex_pdu 1 [65; 2]); PRecv (ex_pdu 3 [65; 4]); PRecv (ex_pdu 5 [65; 6])].

Definition ex_final : res (nr_pdcp_entity * list nr_pdcp_sdu) :=
  pdcp_run toy_cipher toy_mac (ex_end false 0 0) ex_ops.

Example ex_final_delivers :
  match ex_final with
  | Ok (e, evs) => map (fun s => (ps_count s, ps_buffer s)) evs = [(0, [65; 1]); (2, [65; 3]); (3, [65; 4])]
                   /\ map ps_count (pe_rx_list e) = [5] /\ pe_rx_deliv e = 4 /\ pe_rx_size e = 2 + 16
  | Fail _ => False
  end.
Proof. vm_compute. auto. Qed.

(** The receiver at the end of the run: it holds an SDU. *)
Definition ex_holding : nr_pdcp_entity :=
  match ex_final with Ok (e, _) => e | Fail _ => ex_end false 0 0 end.

Lemma ex_holding_ok : pdcp_rx_inv ex_holding /\ timer_live ex_holding.
Proof.
  assert (H : exists evs, pdcp_run toy_cipher toy_mac (ex_end false 0 0) ex_ops = Ok (ex_holding, evs))
    by (eexists; vm_compute; reflexivity).
  destruct H as [evs H]. destruct (ex_end_ok false 0 0 ltac:(lia)) as (I&_&L).
  apply pdcp_run_ok in H as [S L']; [|done | by vm_compute]. split; [apply S | apply L'; [done|]].
  unfold ex_ops. rewrite !Forall_cons. by split_and!.
Qed.

Lemma pdcp_count_reconstruction_witness :
  rcvd_count_of (ex_end true 0 8190) (8192 mod 2 ^ 12) = 8192.
Proof.
  apply (pdcp_count_reconstruction (ex_end true 0 8190) 8192).
  - split; [left | |]; reflexivity.
  - discriminate.
  - split; [discriminate | reflexivity].
Defined.

Lemma pdcp_in_order_delivery_witness :
  exists e' evs, ex_final = Ok (e', evs) /\ length evs = 3%nat
    /\ pdcp_rx_inv e' /\ pdcp_sorted evs /\ Forall (fun s => 0 <= ps_count s < pe_rx_deliv e') evs.
Proof.
  eexists _, _. split; [vm_compute; reflexivity|]. split; [reflexivity|].
  apply (pdcp_in_order_delivery toy_cipher toy_mac (ex_end false 0 0) ex_ops).
  - apply ex_end_ok. lia.
  - vm_compute. reflexivity.
  - vm_compute. reflexivity.
Defined.

Lemma pdcp_rx_size_drift_witness :
  exists e' evs, ex_final = Ok (e', evs)
    /\ pe_rx_size e' - zsum ps_size (pe_rx_list e') = 0 + 4 * (zlen evs + zlen (pe_rx_list e') - 0)
    /\ pe_rx_size e' - zsum ps_size (pe_rx_list e') = 16.
Proof.
  eexists _, _. split; [vm_compute; reflexivity|]. split; [|vm_compute; reflexivity].
  apply (pdcp_rx_size_drift toy_cipher toy_mac (ex_end false 0 0) ex_ops).
  - apply ex_end_ok. lia.
  - vm_compute. reflexivity.
  - vm_compute. reflexivity.
Defined.

(** The SDU with COUNT 5 is released. *)
Lemma pdcp_reordering_bounded_wait_witness :
  let (e2, ev) := nr_pdcp_entity_set_time ex_holding 301 in
  map ps_count ev = [5] /\ pe_rx_list ex_holding = ev ++ pe_rx_list e2 /\ pdcp_sorted ev /\ pe_rx_reord ex_holding <= pe_rx_deliv e2.
Proof.
  destruct (nr_pdcp_entity_set_time ex_holding 301) as [e2 ev] eqn:Ht.
  assert (H : exists evs, pdcp_run toy_cipher toy_mac (ex_end false 0 0) ex_ops = Ok (ex_holding, evs))
    by (eexists; vm_compute; reflexivity).
  destruct H as [evs H].
  destruct (pdcp_reordering_bounded_wait toy_cipher toy_mac (ex_end false 0 0) ex_ops ex_holding evs 301 e2 ev) as (_ & X & _); [..|exact H|exact Ht|].
  - apply ex_end_ok. lia.
  - apply ex_end_ok. lia.
  - vm_compute. reflexivity.
  - clear H Ht. unfold ex_ops, op_clock_ok. rewrite !Forall_cons. split_and!; (exact I || discriminate || constructor).
  - destruct X as (H1 & H2 & H3 & _); [by vm_compute|by vm_compute|by vm_compute|]. split; [|exact (conj H1 (conj H2 H3))].
    clear -Ht. vm_compute in Ht. injection Ht as _ <-. reflexivity.
Defined.

Lemma pdcp_recv_pdu_safe_witness :
  nr_pdcp_entity_recv_pdu toy_cipher toy_mac (ex_end true 0 0) [128] = Fail FBounds.
Proof.
  apply (pdcp_recv_pdu_safe toy_cipher toy_mac toy_cipher_length (ex_end true 0 0) [128]).
  - apply ex_end_ok. lia.
  - apply ex_end_ok. lia.
  - repeat constructor; discriminate.
Defined.

Lemma pdcp_secured_roundtrip_witness :
  exists tx' pdu mi sn,
    nr_pdcp_entity_process_sdu toy_cipher toy_mac (ex_end true 8195 0) [65; 1; 2] 20 = Ok (tx', Some pdu)
    /\ pe_tx_next tx' = 8196
    /\ nr_pdcp_entity_recv_pdu toy_cipher toy_mac (ex_end false 0 8190) pdu
       = Ok (pdcp_accept (pdcp_stats (stats_pdu_in (zlen pdu) sn) (ex_end false 0 8190))
               (nr_pdcp_new_sdu 8195 [65; 1; 2] mi) 7).
Proof.
  apply (pdcp_secured_roundtrip toy_cipher toy_mac toy_cipher_length toy_mac_length toy_cipher_involutive
           (ex_end true 8195 0) (ex_end false 0 8190) [65; 1; 2] 20).
  - apply ex_end_ok. lia.
  - apply ex_end_ok. lia.
  - apply ex_end_ok. lia.
  - split; reflexivity.
  - discriminate.
  - reflexivity.
  - split; discriminate.
  - reflexivity.
  - reflexivity.
  - reflexivity.
Defined.

Lemma pdcp_suspend_reestablish_witness :
  exists e1 ev, nr_pdcp_entity_suspend ex_holding = (e1, ev) /\ map ps_buffer ev = [[65; 6]]
    /\ ev = pe_rx_list ex_holding /\ pdcp_sorted ev
    /\ (forall b, nr_pdcp_entity_recv_pdu toy_cipher toy_mac e1 b = Ok (e1, []))
    /\ exists e2, reestablish_entity e1 ex_params = Ok (e2, [])
       /\ pdcp_rx_inv e2 /\ timer_live e2 /\ pe_rx_list e2 = [] /\ pe_entity_suspended e2 = false
       /\ pe_rx_deliv e2 = 0 /\ pe_rx_next e2 = 0 /\ pe_tx_next e2 = 0.
Proof.
  eexists _, _. split; [vm_compute; reflexivity|]. split; [reflexivity|].
  apply (pdcp_suspend_reestablish toy_cipher toy_mac ex_holding).
  - apply ex_holding_ok.
  - apply ex_holding_ok.
  - reflexivity.
  - reflexivity.
  - vm_compute. reflexivity.
Defined.

Lemma pdcp_count_interface_witness :
  nr_pdcp_entity_get_count_dl (nr_pdcp_entity_set_count_dl (ex_end false 0 0) (mk_count 77 3) 12) = mk_count 77 3.
Proof.
  apply (pdcp_count_interface (ex_end false 0 0) (mk_count 77 3)).
  - apply ex_end_ok. lia.
  - simpl. split; [discriminate | reflexivity].
  - simpl. split; [discriminate | reflexivity].
Defined.
