(* ===== verification/Sdap.v ===== *)
(** SDAP of the 5G user plane (openair2/SDAP/nr_sdap/nr_sdap_entity.c and
    nr_sdap.c): the entity of a PDU session, which marks packets with their QoS
    flow and maps flows to bearers; the registry of the entities; the TUN
    interfaces.  Definitions only.

    What goes out is a list of events.  Descriptors come from the kernel and are
    arguments.  The thread that reads a TUN interface is the function of one
    read. *)

From S2P Require Import Prelude.

Definition SDAP_HDR_UL_DATA_PDU : Z := 1.
Definition SDAP_HDR_UL_CTRL_PDU : Z := 0.
Definition SDAP_HDR_LENGTH : Z := 1.
Definition SDAP_MAX_QFI : Z := 64.
Definition SDAP_MAP_RULE_EMPTY : Z := 0.
Definition SDAP_NO_MAPPING_RULE : Z := 0.
Definition SDAP_REFLECTIVE_MAPPING : Z := 1.
Definition SDAP_CTRL_PDU_MAP_DEF_DRB : Z := 0.
Definition SDAP_CTRL_PDU_MAP_RULE_DRB : Z := 1.
Definition SDAP_MAX_PDU : Z := 9000.
Definition MAX_DRBS_PER_UE : Z := 32.
Definition MAX_MOBILES_PER_ENB : Z := 40.
Definition SDAP_MAX_NUM_OF_ENTITIES : Z := MAX_DRBS_PER_UE * MAX_MOBILES_PER_ENB.
Definition SDAP_MAX_UE_ID : Z := 65536.
Definition NR_MAX_NB_PDU_SESSIONS : Z := 256.

(** [sdap_role_t], a set of bits. *)
Definition NO_SDAP_HEADER : Z := 0.
Definition SDAP_UL_TX : Z := 1.
Definition SDAP_UL_RX : Z := 2.
Definition SDAP_DL_TX : Z := 4.
Definition SDAP_DL_RX : Z := 8.

Definition has_role (role f : Z) : bool := negb (Z.land role f =? 0).

(** ** Headers: bit fields of one byte, from the low bits *)

Record nr_sdap_dl_hdr_t := mk_dl_hdr { dl_QFI : Z; dl_RQI : Z; dl_RDI : Z }.
Record nr_sdap_ul_hdr_t := mk_ul_hdr { ul_QFI : Z; ul_R : Z; ul_DC : Z }.

Definition three_fields (a b c : Z) : Z :=
  Z.lor (Z.land a 0x3f) (Z.lor (Z.shiftl (Z.land b 1) 6) (Z.shiftl (Z.land c 1) 7)).

Definition dl_hdr_byte (h : nr_sdap_dl_hdr_t) : Z := three_fields (dl_QFI h) (dl_RQI h) (dl_RDI h).
Definition ul_hdr_byte (h : nr_sdap_ul_hdr_t) : Z := three_fields (ul_QFI h) (ul_R h) (ul_DC h).
Definition dl_hdr_of (b : Z) : nr_sdap_dl_hdr_t := mk_dl_hdr (Z.land b 0x3f) (Z.land (Z.shiftr b 6) 1) (Z.land (Z.shiftr b 7) 1).
Definition ul_hdr_of (b : Z) : nr_sdap_ul_hdr_t := mk_ul_hdr (Z.land b 0x3f) (Z.land (Z.shiftr b 6) 1) (Z.land (Z.shiftr b 7) 1).

(** ** State *)

Record qfi2drb_t := mk_qfi2drb { q_drb_id : Z; q_role : Z }.

#[global] Instance qfi2drb_eq_dec : EqDecision qfi2drb_t.
Proof. solve_decision. Defined.

(** The QFIs to add and to release are the first elements of the arrays, as many
    as the counters say. *)
Record sdap_config_t := mk_sdap_config {
  sc_pdusession_id : Z;
  sc_drb_id : Z;
  sc_role : Z;
  sc_defaultDRB : bool;
  sc_mappedQFIs2Add : list Z;
  sc_mappedQFIs2Release : list Z
}.

(** The fields of the ASN.1 type SDAP-Config (TS 38.331) that the code reads. *)
Record NR_SDAP_Config_t := mk_NR_SDAP_Config {
  sdap_pdu_Session : Z;
  sdap_HeaderDL_present : bool;
  sdap_HeaderUL_present : bool;
  sdap_defaultDRB : bool;
  sdap_mappedQoS_FlowsToAdd : option (list Z);
  sdap_mappedQoS_FlowsToRelease : option (list Z)
}.

Record nr_sdap_entity_t := mk_sdap_entity {
  sd_ue_id : Z;
  sd_default_drb : Z;
  sd_is_gnb : bool;
  sd_enable_sdap : bool;
  sd_pdusession_id : Z;
  sd_pdusession_sock : Z;
  sd_stop_thread : bool;
  sd_qfi : Z;
  sd_table : list qfi2drb_t
}.

Record sdap_tun_iface_t := mk_tun_iface { ti_ue_id : Z; ti_pdusession_id : Z; ti_sock : Z; ti_qfi : Z }.

(** [sdap_info] and [sdap_tun_iface_list]: the linked lists, from their heads. *)
Record sdap_t := mk_sdap { sp_entities : list nr_sdap_entity_t; sp_ifaces : list sdap_tun_iface_t }.

(** [ToGtp ue pdu (Some qfi) _] is [gtpv1uSendDirectWithQFI], [ToGtp _ _ None _]
    is [gtpv1uSendDirect]. *)
Inductive sdap_out :=
| ToPdcp (ue_id drb_id : Z) (pdu : bytes)
| ToGtp (ue_id pdusession_id : Z) (qfi : option Z) (sdu : bytes)
| ToTun (sock : Z) (sdu : bytes)
| CloseSock (sock : Z).

(** What becomes of an SDU: the caller gets [false], or the answer of PDCP to a
    PDU for a bearer. *)
Inductive sdap_tx := TxDropped | TxSubmit (drb_id : Z) (pdu : bytes).

(** ** The table of an entity *)

Section Table.
Implicit Types (e : nr_sdap_entity_t).

Definition table_get e (qfi : Z) : res qfi2drb_t := of_opt FBounds (sd_table e !! Z.to_nat qfi).

Definition table_set e (qfi : Z) (m : qfi2drb_t) : res nr_sdap_entity_t :=
  let* _ := table_get e qfi in
  Ok {| e with sd_table := <[Z.to_nat qfi := m]> (sd_table e) |}.

Definition nr_sdap_qfi2drb_map_add e (qfi drb_id role : Z) : res nr_sdap_entity_t := table_set e qfi (mk_qfi2drb drb_id role).

Definition nr_sdap_qfi2drb_map_del e (qfi : Z) : res nr_sdap_entity_t := table_set e qfi (mk_qfi2drb SDAP_NO_MAPPING_RULE NO_SDAP_HEADER).

Definition nr_sdap_qfi2drb e (qfi : Z) : res Z :=
  let* m := table_get e qfi in
  let drb_id := q_drb_id m in
  if negb (drb_id =? 0) then Ok drb_id
  else if negb (sd_default_drb e =? 0) then Ok (sd_default_drb e)
  else Ok SDAP_MAP_RULE_EMPTY.

(** ** Control PDUs: end markers *)

Definition nr_sdap_construct_ctrl_pdu (qfi : Z) : nr_sdap_ul_hdr_t := mk_ul_hdr qfi 0 SDAP_HDR_UL_CTRL_PDU.

Definition nr_sdap_map_ctrl_pdu e (map_type dl_qfi : Z) : res Z :=
  if map_type =? SDAP_CTRL_PDU_MAP_DEF_DRB then Ok (sd_default_drb e)
  else if map_type =? SDAP_CTRL_PDU_MAP_RULE_DRB then nr_sdap_qfi2drb e dl_qfi
  else Ok 0.

Definition nr_sdap_submit_ctrl_pdu (ue_id sdap_ctrl_pdu_drb : Z) (ctrl_pdu : nr_sdap_ul_hdr_t) : list sdap_out :=
  if negb (sdap_ctrl_pdu_drb =? 0) then [ToPdcp ue_id sdap_ctrl_pdu_drb [ul_hdr_byte ctrl_pdu]] else [].

(** The three calls that send an end marker. *)
Definition end_marker e (ue_id map_type qfi : Z) : res (list sdap_out) :=
  let sdap_ctrl_pdu := nr_sdap_construct_ctrl_pdu qfi in
  let* sdap_ctrl_pdu_drb := nr_sdap_map_ctrl_pdu e map_type qfi in
  Ok (nr_sdap_submit_ctrl_pdu ue_id sdap_ctrl_pdu_drb sdap_ctrl_pdu).

(** ** Data *)

(** [sdap_buf] holds the header and the SDU. *)
Definition in_sdap_buf (pdu : bytes) : res bytes := if zlen pdu <=? SDAP_MAX_PDU then Ok pdu else Fail FBounds.

Definition nr_sdap_tx_entity e (sdu : bytes) (qfi : Z) (rqi : bool) : res sdap_tx :=
  let* drb_id := nr_sdap_qfi2drb e qfi in
  if drb_id =? SDAP_MAP_RULE_EMPTY then Ok TxDropped
  else
    let* m := table_get e qfi in
    let sdap_ul_tx := has_role (q_role m) SDAP_UL_TX in
    let sdap_dl_tx := has_role (q_role m) SDAP_DL_TX in
    if negb sdap_ul_tx && negb sdap_dl_tx then Ok (TxSubmit drb_id sdu)
    else if (zlen sdu =? 0) || (8999 <? zlen sdu) then Ok TxDropped
    else if sdap_dl_tx then
      let* pdu := in_sdap_buf (dl_hdr_byte (mk_dl_hdr qfi (Z.b2z rqi) 0) :: sdu) in
      Ok (TxSubmit drb_id pdu)
    else
      let* pdu := in_sdap_buf (ul_hdr_byte (mk_ul_hdr qfi 0 (Z.b2z rqi)) :: sdu) in
      Ok (TxSubmit drb_id pdu).

(** The QoS flow of a received PDU and the two roles of its mapping; [None] when
    the PDU is dropped. *)
Definition rx_mapping e (buf : bytes) : res (option (Z * bool * bool)) :=
  if negb (sd_enable_sdap e) then Ok (Some (-1, false, false))
  else
    let* b0 := of_opt FBounds (buf !! 0%nat) in
    let qfi := Z.land b0 0x3f in
    if SDAP_MAX_QFI <=? qfi then Ok None
    else
      let* m := table_get e qfi in
      if q_drb_id m =? SDAP_NO_MAPPING_RULE then Ok None
      else Ok (Some (qfi, has_role (q_role m) SDAP_UL_RX, has_role (q_role m) SDAP_DL_RX)).

(** Reflective mapping (TS 37.324, 5.3.2). *)
Definition reflective_mapping e (pdcp_entity ue_id qfi : Z) : res (nr_sdap_entity_t * list sdap_out) :=
  let* m := table_get e qfi in
  let* outs1 :=
    if (q_drb_id m =? 0) && negb (sd_default_drb e =? 0) then end_marker e ue_id SDAP_CTRL_PDU_MAP_DEF_DRB qfi else Ok [] in
  let* outs2 :=
    if negb (pdcp_entity =? q_drb_id m) then end_marker e ue_id SDAP_CTRL_PDU_MAP_RULE_DRB qfi else Ok [] in
  let* e := table_set e qfi {| m with q_drb_id := pdcp_entity |} in
  Ok (e, outs1 ++ outs2).

Definition nr_sdap_rx_entity e (pdcp_entity : Z) (is_gnb : bool) (pdusession_id ue_id : Z) (buf : bytes)
    : res (nr_sdap_entity_t * list sdap_out) :=
  let* mapping := rx_mapping e buf in
  match mapping with
  | None => Ok (e, [])
  | Some (qfi, sdap_ul_rx, sdap_dl_rx) =>
      if is_gnb then
        if sdap_ul_rx then
          let* _ := assert_ ((0 <=? qfi) && (qfi <? SDAP_MAX_QFI)) in
          let* b0 := of_opt FBounds (buf !! 0%nat) in
          let* _ := assert_ (ul_QFI (ul_hdr_of b0) =? qfi) in
          Ok (e, [ToGtp ue_id pdusession_id (Some qfi) (drop (Z.to_nat SDAP_HDR_LENGTH) buf)])
        else
          let* _ := assert_ (qfi =? -1) in
          Ok (e, [ToGtp ue_id pdusession_id None buf])
      else
        let* (e, offset, outs) :=
          if sdap_dl_rx then
            let* b0 := of_opt FBounds (buf !! 0%nat) in
            let sdap_hdr := dl_hdr_of b0 in
            if dl_RDI sdap_hdr =? SDAP_REFLECTIVE_MAPPING then
              let* (e, outs) := reflective_mapping e pdcp_entity ue_id (dl_QFI sdap_hdr) in
              Ok (e, SDAP_HDR_LENGTH, outs)
            else Ok (e, SDAP_HDR_LENGTH, [])
          else Ok (e, 0, []) in
        if sd_pdusession_sock e <? 0 then Ok (e, outs)
        else Ok (e, outs ++ [ToTun (sd_pdusession_sock e) (drop (Z.to_nat offset) buf)])
  end.

(** ** Configuration of the flows *)

Fixpoint nr_sdap_ue_control_pdu_config e (ue_id drb_id : Z) (qfis : list Z) : res (list sdap_out) :=
  match qfis with
  | [] => Ok []
  | q :: qfis' =>
      let qfi := u8 q in
      let* m := table_get e qfi in
      let* outs1 :=
        if negb (sd_default_drb e =? 0) && (q_drb_id m =? SDAP_NO_MAPPING_RULE)
        then end_marker e ue_id SDAP_CTRL_PDU_MAP_DEF_DRB qfi else Ok [] in
      let ul_sdap_header := has_role (q_role m) SDAP_UL_TX in
      let* outs2 :=
        if negb (q_drb_id m =? drb_id) && ul_sdap_header
        then end_marker e ue_id SDAP_CTRL_PDU_MAP_RULE_DRB qfi else Ok [] in
      let* outs := nr_sdap_ue_control_pdu_config e ue_id drb_id qfis' in
      Ok (outs1 ++ outs2 ++ outs)
  end.

Fixpoint nr_sdap_add_qos_flows_to_drb e (drb_id role : Z) (qfis : list Z) : res nr_sdap_entity_t :=
  match qfis with
  | [] => Ok e
  | q :: qfis' =>
      let qfi := u8 q in
      let* e :=
        if (qfi <? SDAP_MAX_QFI) && (SDAP_MAP_RULE_EMPTY <? drb_id) && (drb_id <=? MAX_DRBS_PER_UE)
        then nr_sdap_qfi2drb_map_add e qfi (u8 drb_id) (u8 role) else Ok e in
      nr_sdap_add_qos_flows_to_drb e drb_id role qfis'
  end.

Fixpoint nr_sdap_rm_qos_flows_from_drb e (qfis : list Z) : res nr_sdap_entity_t :=
  match qfis with
  | [] => Ok e
  | q :: qfis' =>
      let* e := nr_sdap_qfi2drb_map_del e (u8 q) in
      nr_sdap_rm_qos_flows_from_drb e qfis'
  end.

Definition nr_sdap_qfi2drb_map_update e (sdap : sdap_config_t) : res (nr_sdap_entity_t * list sdap_out) :=
  let* _ :=
    if negb (sd_enable_sdap e)
    then assert_ (forallb (fun m => (q_drb_id m =? SDAP_NO_MAPPING_RULE) || (q_drb_id m =? sc_drb_id sdap)) (sd_table e))
    else Ok tt in
  let* outs :=
    if negb (sd_is_gnb e) then nr_sdap_ue_control_pdu_config e (sd_ue_id e) (sc_drb_id sdap) (sc_mappedQFIs2Add sdap) else Ok [] in
  let* e := nr_sdap_add_qos_flows_to_drb e (sc_drb_id sdap) (sc_role sdap) (sc_mappedQFIs2Add sdap) in
  let* e := nr_sdap_rm_qos_flows_from_drb e (sc_mappedQFIs2Release sdap) in
  Ok (e, outs).

Definition get_sdap_role (is_gnb : bool) (sdap_config : NR_SDAP_Config_t) : Z :=
  let role_ul := if is_gnb then SDAP_UL_RX else SDAP_UL_TX in
  let role_dl := if is_gnb then SDAP_DL_TX else SDAP_DL_RX in
  let role := NO_SDAP_HEADER in
  let role := if sdap_HeaderUL_present sdap_config then Z.lor role role_ul else role in
  if sdap_HeaderDL_present sdap_config then Z.lor role role_dl else role.

(** The counters are bytes. *)
Definition config_qfis (l : option (list Z)) : res (list Z) :=
  match l with
  | None => Ok []
  | Some l =>
      let count := u8 (zlen l) in
      let* _ := assert_ (count <=? SDAP_MAX_QFI) in
      Ok (take (Z.to_nat count) l)
  end.

Definition nr_sdap_get_config (is_gnb : bool) (sdap_Config : NR_SDAP_Config_t) (drb_id : Z) : res sdap_config_t :=
  let* add := config_qfis (sdap_mappedQoS_FlowsToAdd sdap_Config) in
  let* release := config_qfis (sdap_mappedQoS_FlowsToRelease sdap_Config) in
  Ok (mk_sdap_config (sdap_pdu_Session sdap_Config) drb_id (get_sdap_role is_gnb sdap_Config) (sdap_defaultDRB sdap_Config) add release).

(** The QFIs from [q] on that are mapped to the bearer and not in the list. *)
Fixpoint qfis_to_release (q : Z) (drb_id : Z) (qfis : list Z) (table : list qfi2drb_t) : list Z :=
  match table with
  | [] => []
  | m :: table' =>
      let rest := qfis_to_release (q + 1) drb_id qfis table' in
      if negb (q_drb_id m =? drb_id) then rest
      else if existsb (fun x => x =? q) qfis then rest
      else q :: rest
  end.

(** The role that [nr_sdap_entity_update_qos_flows] gives. *)
Definition entity_role e : Z :=
  if sd_enable_sdap e
  then if sd_is_gnb e then Z.lor (Z.lor NO_SDAP_HEADER SDAP_UL_RX) SDAP_DL_TX else Z.lor (Z.lor NO_SDAP_HEADER SDAP_UL_TX) SDAP_DL_RX
  else NO_SDAP_HEADER.

(** The entity part of [nr_sdap_entity_update_qos_flows]. *)
Definition update_qos_flows e (pdusession_id drb_id : Z) (qfis : list Z) : res (nr_sdap_entity_t * list sdap_out) :=
  let release := qfis_to_release 0 drb_id qfis (sd_table e) in
  let* _ := if zlen qfis <=? SDAP_MAX_QFI then Ok tt else Fail FBounds in
  nr_sdap_qfi2drb_map_update e
    (mk_sdap_config pdusession_id drb_id (entity_role e) (sd_default_drb e =? drb_id) qfis release).

End Table.

(** ** The registry *)

Section Registry.
Implicit Types (e : nr_sdap_entity_t) (s : sdap_t).

Definition is_entity (ue_id pdusession_id : Z) e : bool := (sd_ue_id e =? ue_id) && (sd_pdusession_id e =? pdusession_id).

Fixpoint get_loop (ue_id pdusession_id : Z) (l : list nr_sdap_entity_t) : option nr_sdap_entity_t :=
  match l with
  | [] => None
  | e :: l' => if is_entity ue_id pdusession_id e then Some e else get_loop ue_id pdusession_id l'
  end.

Definition nr_sdap_get_entity s (ue_id pdusession_id : Z) : option nr_sdap_entity_t := get_loop ue_id pdusession_id (sp_entities s).

(** Writing through the pointer that [nr_sdap_get_entity] returned. *)
Fixpoint put_loop (ue_id pdusession_id : Z) e (l : list nr_sdap_entity_t) : list nr_sdap_entity_t :=
  match l with
  | [] => []
  | x :: l' => if is_entity ue_id pdusession_id x then e :: l' else x :: put_loop ue_id pdusession_id e l'
  end.

Definition put_entity s (ue_id pdusession_id : Z) e : sdap_t := {| s with sp_entities := put_loop ue_id pdusession_id e (sp_entities s) |}.

(** *** TUN interfaces *)

Definition is_iface (ue_id pdusession_id : Z) (i : sdap_tun_iface_t) : bool := (ti_ue_id i =? ue_id) && (ti_pdusession_id i =? pdusession_id).

Definition sdap_tun_iface_lookup (l : list sdap_tun_iface_t) (ue_id pdusession_id : Z) : option sdap_tun_iface_t :=
  List.find (is_iface ue_id pdusession_id) l.

(** [iface->qfi = qfi] for the interface that is found. *)
Fixpoint iface_set_qfi (l : list sdap_tun_iface_t) (ue_id pdusession_id qfi : Z) : list sdap_tun_iface_t :=
  match l with
  | [] => []
  | i :: l' => if is_iface ue_id pdusession_id i then {| i with ti_qfi := qfi |} :: l' else i :: iface_set_qfi l' ue_id pdusession_id qfi
  end.

Definition valid_qfi (qfi : Z) : bool := (0 <=? qfi) && (qfi <? SDAP_MAX_QFI).

Definition nr_sdap_tun_store_qfi (l : list sdap_tun_iface_t) (ue_id pdusession_id qfi : Z) : res (list sdap_tun_iface_t) :=
  let* _ := assert_ (qfi <? SDAP_MAX_QFI) in
  Ok (iface_set_qfi l ue_id pdusession_id qfi).

(** [d] is what [dup] returns. *)
Definition nr_sdap_tun_attach (l : list sdap_tun_iface_t) e (d : Z) : nr_sdap_entity_t :=
  if 0 <=? sd_pdusession_sock e then e
  else match sdap_tun_iface_lookup l (sd_ue_id e) (sd_pdusession_id e) with
       | None => e
       | Some iface =>
           let e := if negb (sd_is_gnb e) && valid_qfi (ti_qfi iface) then {| e with sd_qfi := ti_qfi iface |} else e in
           let e := {| e with sd_pdusession_sock := d |} in
           if d <? 0 then e else {| e with sd_stop_thread := false |}
       end.

Definition nr_sdap_tun_detach (l : list sdap_tun_iface_t) e : list sdap_tun_iface_t * nr_sdap_entity_t * list sdap_out :=
  let l := if negb (sd_is_gnb e) && valid_qfi (sd_qfi e) then iface_set_qfi l (sd_ue_id e) (sd_pdusession_id e) (sd_qfi e) else l in
  if sd_pdusession_sock e <? 0 then (l, e, [])
  else (l, {| e with sd_stop_thread := true; sd_pdusession_sock := -1 |}, [CloseSock (sd_pdusession_sock e)]).

Fixpoint nr_sdap_tun_destroy (l : list sdap_tun_iface_t) (ue_id pdusession_id : Z) : list sdap_tun_iface_t * list sdap_out :=
  match l with
  | [] => ([], [])
  | i :: l' =>
      if is_iface ue_id pdusession_id i then (l', [CloseSock (ti_sock i)])
      else let (l', outs) := nr_sdap_tun_destroy l' ue_id pdusession_id in (i :: l', outs)
  end.

Definition sdap_tun_iface_register s (ue_id pdusession_id sock : Z) : res (list sdap_tun_iface_t) :=
  let* _ := assert_ (match sdap_tun_iface_lookup (sp_ifaces s) ue_id pdusession_id with None => true | Some _ => false end) in
  let qfi :=
    match nr_sdap_get_entity s ue_id pdusession_id with
    | Some e => if negb (sd_is_gnb e) && valid_qfi (sd_qfi e) then sd_qfi e else -1
    | None => -1
    end in
  Ok (mk_tun_iface ue_id pdusession_id sock qfi :: sp_ifaces s).

(** Registering the interface of an entity and attaching to it. *)
Definition register_and_attach s (ue_id pdusession_id sock d : Z) e : res sdap_t :=
  let* l := sdap_tun_iface_register s ue_id pdusession_id sock in
  Ok (mk_sdap (put_loop ue_id pdusession_id (nr_sdap_tun_attach l e d) (sp_entities s)) l).

Definition start_sdap_tun_gnb_first_ue_default_pdu_session s (ue_id pdu_session_id sock d : Z) : res sdap_t :=
  let* e := of_opt FExit (nr_sdap_get_entity s ue_id pdu_session_id) in
  let* _ := assert_ (sd_is_gnb e) in
  register_and_attach s ue_id pdu_session_id sock d e.

Definition start_sdap_tun_ue s (ue_id pdu_session_id sock d : Z) : res sdap_t :=
  let* e := of_opt FExit (nr_sdap_get_entity s ue_id pdu_session_id) in
  let* _ := assert_ (negb (sd_is_gnb e)) in
  register_and_attach s ue_id pdu_session_id sock d e.

(** [create_ue_ip_if] and [create_ue_eth_if]; the interface is configured after. *)
Definition create_ue_ip_if s (ue_id pdu_session_id sock d : Z) : res sdap_t :=
  match sdap_tun_iface_lookup (sp_ifaces s) ue_id pdu_session_id with
  | None => start_sdap_tun_ue s ue_id pdu_session_id sock d
  | Some _ =>
      match nr_sdap_get_entity s ue_id pdu_session_id with
      | Some e => Ok (put_entity s ue_id pdu_session_id (nr_sdap_tun_attach (sp_ifaces s) e d))
      | None => Ok s
      end
  end.

(** One read of [sdap_tun_read_thread]. *)
Definition sdap_tun_read e (rx_buf : bytes) : res sdap_tx :=
  if negb (sd_is_gnb e) && sd_enable_sdap e && negb (valid_qfi (sd_qfi e)) then Ok TxDropped
  else
    let dc := if sd_is_gnb e then false else true in
    nr_sdap_tx_entity e rx_buf (u8 (sd_qfi e)) dc.

(** *** Creation and release of entities *)

(** [nos1]: the gNB terminates SDAP itself; [sock] and [d] are its descriptors. *)
Definition nr_sdap_add_entity s (nos1 is_gnb : bool) (ue_id sock d : Z) (sdap : sdap_config_t) : res sdap_t :=
  let enable := negb (sc_role sdap =? NO_SDAP_HEADER) in
  let default := if sc_defaultDRB sdap then sc_drb_id sdap else 0 in
  let e := mk_sdap_entity ue_id default is_gnb enable (sc_pdusession_id sdap) (-1) false 0
             (replicate (Z.to_nat SDAP_MAX_QFI) (mk_qfi2drb 0 0)) in
  let* _ := if negb enable then assert_ (zlen (sc_mappedQFIs2Add sdap) <=? 1) else Ok tt in
  let* e := nr_sdap_add_qos_flows_to_drb e (sc_drb_id sdap) (sc_role sdap) (sc_mappedQFIs2Add sdap) in
  let s := {| s with sp_entities := e :: sp_entities s |} in
  let* s := if nos1 && is_gnb then start_sdap_tun_gnb_first_ue_default_pdu_session s ue_id (sc_pdusession_id sdap) sock d else Ok s in
  if negb is_gnb then
    match sp_entities s with
    | e :: l => Ok {| s with sp_entities := nr_sdap_tun_attach (sp_ifaces s) e d :: l |}
    | [] => Ok s
    end
  else Ok s.

Definition nr_sdap_addmod_entity s (nos1 is_gnb : bool) (ue_id sock d : Z) (sdap : sdap_config_t) : res (sdap_t * list sdap_out) :=
  match nr_sdap_get_entity s ue_id (sc_pdusession_id sdap) with
  | Some e =>
      let* (e, outs) := nr_sdap_qfi2drb_map_update e sdap in
      Ok (put_entity s ue_id (sc_pdusession_id sdap) e, outs)
  | None => let* s := nr_sdap_add_entity s nos1 is_gnb ue_id sock d sdap in Ok (s, [])
  end.

Definition remove_ip_if (l : list sdap_tun_iface_t) e : list sdap_tun_iface_t * list sdap_out :=
  let '(l, e, outs) := nr_sdap_tun_detach l e in
  if negb (sd_is_gnb e) then (l, outs)
  else let (l, outs') := nr_sdap_tun_destroy l (sd_ue_id e) (sd_pdusession_id e) in (l, outs ++ outs').

(** The walk of [nr_sdap_delete_entity] after the head: the entities before the
    one that is found, it, and those after; at most [bound] steps. *)
Fixpoint delete_walk (bound : nat) (ue_id pdusession_id : Z) e (l : list nr_sdap_entity_t)
    : option (list nr_sdap_entity_t * nr_sdap_entity_t * list nr_sdap_entity_t) :=
  if is_entity ue_id pdusession_id e then Some ([], e, l)
  else match bound, l with
       | S bound', e' :: l' =>
           match delete_walk bound' ue_id pdusession_id e' l' with
           | Some (before, x, after) => Some (e :: before, x, after)
           | None => None
           end
       | _, _ => None
       end.

Definition nr_sdap_delete_entity s (ue_id pdusession_id : Z) : res (sdap_t * bool * list sdap_out) :=
  match sp_entities s with
  | [] =>
      if (pdusession_id <? 0) || (NR_MAX_NB_PDU_SESSIONS <? pdusession_id) then Ok (s, false, [])
      else Fail FBounds
  | e :: l =>
      match delete_walk (Z.to_nat SDAP_MAX_NUM_OF_ENTITIES) ue_id pdusession_id e l with
      | Some (before, x, after) =>
          let (ifaces, outs) := remove_ip_if (sp_ifaces s) x in
          Ok (mk_sdap (before ++ after) ifaces, true, outs)
      | None => Ok (s, false, [])
      end
  end.

(** [nr_sdap_delete_ue_entities]: [upperBound] is compared and never raised. *)
Fixpoint delete_ue_loop (ue_id : Z) (l : list nr_sdap_entity_t) (ifaces : list sdap_tun_iface_t)
    : list nr_sdap_entity_t * list sdap_tun_iface_t * bool * list sdap_out :=
  match l with
  | [] => ([], ifaces, false, [])
  | e :: l' =>
      if negb (sd_ue_id e =? ue_id) then
        let '(l', ifaces, ret, outs) := delete_ue_loop ue_id l' ifaces in (e :: l', ifaces, ret, outs)
      else
        let (ifaces, outs) := remove_ip_if ifaces e in
        let '(l', ifaces, _, outs') := delete_ue_loop ue_id l' ifaces in (l', ifaces, true, outs ++ outs')
  end.

Definition nr_sdap_delete_ue_entities s (ue_id : Z) : sdap_t * bool * list sdap_out :=
  let '(l, ifaces, ret, outs) := delete_ue_loop ue_id (sp_entities s) (sp_ifaces s) in
  (mk_sdap l ifaces, ret, outs).

(** *** Operations on an entity of the registry *)

Definition nr_sdap_release_drb s (ue_id drb_id pdusession_id : Z) : sdap_t :=
  match nr_sdap_get_entity s ue_id pdusession_id with
  | Some e =>
      let table := map (fun m => if q_drb_id m =? drb_id then {| m with q_drb_id := SDAP_NO_MAPPING_RULE |} else m) (sd_table e) in
      put_entity s ue_id pdusession_id {| e with sd_table := table |}
  | None => s
  end.

Definition nr_sdap_entity_update_qos_flows s (ue_id pdusession_id drb_id : Z) (qfis : list Z) : res (sdap_t * list sdap_out) :=
  match nr_sdap_get_entity s ue_id pdusession_id with
  | Some e =>
      let* (e, outs) := update_qos_flows e pdusession_id drb_id qfis in
      Ok (put_entity s ue_id pdusession_id e, outs)
  | None => Ok (s, [])
  end.

Definition nr_reconfigure_sdap_entity s (sdap_config : NR_SDAP_Config_t) (ue_id pdusession_id drb_id : Z) : res (sdap_t * list sdap_out) :=
  match nr_sdap_get_entity s ue_id pdusession_id with
  | Some e =>
      let* sdap := nr_sdap_get_config false sdap_config drb_id in
      let* (e, outs) := nr_sdap_qfi2drb_map_update e sdap in
      Ok (put_entity s ue_id pdusession_id e, outs)
  | None => Ok (s, [])
  end.

Definition set_qfi s (qfi pduid ue_id : Z) : res sdap_t :=
  let* _ := assert_ (qfi <? SDAP_MAX_QFI) in
  let* e := of_opt FExit (nr_sdap_get_entity s ue_id pduid) in
  let s := put_entity s ue_id pduid {| e with sd_qfi := qfi |} in
  let* l := nr_sdap_tun_store_qfi (sp_ifaces s) ue_id pduid qfi in
  Ok {| s with sp_ifaces := l |}.

Definition sdap_data_req s (ue_id pdusession_id : Z) (sdu : bytes) (qfi : Z) (rqi : bool) : res sdap_tx :=
  match nr_sdap_get_entity s ue_id pdusession_id with
  | Some e => nr_sdap_tx_entity e sdu qfi rqi
  | None => Ok TxDropped
  end.

Definition sdap_data_ind s (pdcp_entity : Z) (is_gnb : bool) (pdusession_id ue_id : Z) (buf : bytes) : res (sdap_t * list sdap_out) :=
  match nr_sdap_get_entity s ue_id pdusession_id with
  | Some e =>
      let* (e, outs) := nr_sdap_rx_entity e pdcp_entity is_gnb pdusession_id ue_id buf in
      Ok (put_entity s ue_id pdusession_id e, outs)
  | None => Ok (s, [])
  end.

End Registry.
