(* ===== verification/SdapSpec.v ===== *)
(** The properties of SDAP: headers, data in both directions, the mapping of
    flows to bearers, and every sequence of operations on the registry. *)

From S2P Require Import Prelude Sdap.

(** ** Headers *)

Definition fields_ok (a b c : Z) : bool :=
  let h := three_fields a b c in
  (Z.land h 0x3f =? a) && (Z.land (Z.shiftr h 6) 1 =? b) && (Z.land (Z.shiftr h 7) 1 =? c) && (0 <=? h) && (h <? 256).

Lemma fields_checked : forallb (fun a => forallb (fun b => forallb (fun c => fields_ok a b c) [0; 1]) [0; 1]) (seqZ 0 64) = true.
Proof. vm_compute. reflexivity. Qed.

Lemma three_fields_ok a b c : 0 <= a < 64 -> 0 <= b < 2 -> 0 <= c < 2 ->
  Z.land (three_fields a b c) 0x3f = a /\ Z.land (Z.shiftr (three_fields a b c) 6) 1 = b /\
  Z.land (Z.shiftr (three_fields a b c) 7) 1 = c /\ byte_ok (three_fields a b c).
Proof.
  intros Ha Hb Hc. pose proof fields_checked as H.
  rewrite forallb_forall in H. specialize (H a ltac:(apply list_elem_of_In, elem_of_seqZ; lia)).
  rewrite forallb_forall in H. specialize (H b ltac:(simpl; lia)).
  rewrite forallb_forall in H. specialize (H c ltac:(simpl; lia)).
  unfold fields_ok in H. rewrite !andb_true_iff in H. unfold byte_ok. lia.
Qed.

Lemma b2z_bit b : 0 <= Z.b2z b < 2.
Proof. by destruct b. Qed.

(** ** Well-formed entities *)

Definition mapping_ok (m : qfi2drb_t) : Prop := 0 <= q_drb_id m.

Definition table_ok (e : nr_sdap_entity_t) : Prop := length (sd_table e) = 64%nat.

Section Entity.
Implicit Types (e : nr_sdap_entity_t).

Lemma table_get_ok e qfi : table_ok e -> 0 <= qfi < 64 -> exists m, table_get e qfi = Ok m /\ sd_table e !! Z.to_nat qfi = Some m.
Proof.
  intros He Hq. destruct (lookup_lt_is_Some_2 (sd_table e) (Z.to_nat qfi)) as [m Hm]; [rewrite He; lia|].
  exists m. unfold table_get. by rewrite Hm.
Qed.

Lemma table_get_out e qfi : table_ok e -> 64 <= qfi -> table_get e qfi = Fail FBounds.
Proof. intros He Hq. unfold table_get. rewrite lookup_ge_None_2; [done|]. rewrite He. lia. Qed.

Lemma table_get_lookup e qfi m : table_get e qfi = Ok m <-> sd_table e !! Z.to_nat qfi = Some m.
Proof. unfold table_get. destruct (sd_table e !! Z.to_nat qfi); simpl; [|done]. split; by intros [= ->]. Qed.

Lemma table_set_ok e qfi m : table_ok e -> 0 <= qfi < 64 ->
  table_set e qfi m = Ok {| e with sd_table := <[Z.to_nat qfi := m]> (sd_table e) |} /\
  table_ok {| e with sd_table := <[Z.to_nat qfi := m]> (sd_table e) |}.
Proof.
  intros He Hq. destruct (table_get_ok e qfi He Hq) as (m0 & H0 & _). unfold table_set. rewrite H0. split; [done|].
  unfold table_ok. simpl. by rewrite length_insert.
Qed.

(** Where an SDU of a flow goes: the stored rule, or the default bearer. *)
Definition bearer_of e (m : qfi2drb_t) : Z := if q_drb_id m =? 0 then sd_default_drb e else q_drb_id m.

Lemma qfi2drb_ok e qfi m : table_get e qfi = Ok m -> nr_sdap_qfi2drb e qfi = Ok (bearer_of e m).
Proof.
  intros H. unfold nr_sdap_qfi2drb, bearer_of. rewrite H. simpl.
  destruct (Z.eqb_spec (q_drb_id m) 0); simpl; [|done]. destruct (Z.eqb_spec (sd_default_drb e) 0) as [->|]; done.
Qed.

Lemma in_buf_ok b sdu : zlen sdu <= 8999 -> in_sdap_buf (b :: sdu) = Ok (b :: sdu).
Proof. intros H. unfold in_sdap_buf, SDAP_MAX_PDU. rewrite zlen_cons. by rewrite (proj2 (Z.leb_le _ _)) by lia. Qed.

(** What leaves the sending entity, for each kind of mapping. *)
Lemma tx_entity_ok e sdu qfi rqi m : table_get e qfi = Ok m ->
  nr_sdap_tx_entity e sdu qfi rqi =
    Ok (if bearer_of e m =? 0 then TxDropped
        else if negb (has_role (q_role m) SDAP_UL_TX) && negb (has_role (q_role m) SDAP_DL_TX) then TxSubmit (bearer_of e m) sdu
        else if (zlen sdu =? 0) || (8999 <? zlen sdu) then TxDropped
        else if has_role (q_role m) SDAP_DL_TX then TxSubmit (bearer_of e m) (dl_hdr_byte (mk_dl_hdr qfi (Z.b2z rqi) 0) :: sdu)
        else TxSubmit (bearer_of e m) (ul_hdr_byte (mk_ul_hdr qfi 0 (Z.b2z rqi)) :: sdu)).
Proof.
  intros H. unfold nr_sdap_tx_entity. rewrite (qfi2drb_ok _ _ _ H). simpl. rewrite H. unfold SDAP_MAP_RULE_EMPTY. cbn [rbind].
  destruct (bearer_of e m =? 0); [done|]. destruct (negb _ && negb _); [done|].
  destruct (Z.eqb_spec (zlen sdu) 0); simpl; [done|]. destruct (Z.ltb_spec 8999 (zlen sdu)); [done|].
  rewrite !in_buf_ok by lia. by destruct (has_role _ _).
Qed.

Lemma rx_mapping_ok e b buf m : sd_enable_sdap e = true -> table_ok e -> table_get e (Z.land b 0x3f) = Ok m -> 0 <= Z.land b 0x3f < 64 ->
  rx_mapping e (b :: buf) = Ok (if q_drb_id m =? 0 then None
    else Some (Z.land b 0x3f, has_role (q_role m) SDAP_UL_RX, has_role (q_role m) SDAP_DL_RX)).
Proof.
  intros He Ht Hm Hq. unfold rx_mapping. rewrite He. simpl. unfold SDAP_MAX_QFI, SDAP_NO_MAPPING_RULE.
  rewrite (proj2 (Z.leb_gt _ _)) by lia. rewrite Hm. simpl. by destruct (q_drb_id m =? 0).
Qed.

Lemma land_qfi b : 0 <= Z.land b 0x3f < 64.
Proof. change 0x3f with (Z.ones 6). rewrite Z.land_ones by lia. apply Z.mod_pos_bound. lia. Qed.

(** ** Configuration *)

(** The table after flows are added, and after flows are removed. *)
Fixpoint added (drb_id role : Z) (qfis : list Z) (t : list qfi2drb_t) : list qfi2drb_t :=
  match qfis with
  | [] => t
  | q :: qfis' => added drb_id role qfis' (<[Z.to_nat q := mk_qfi2drb drb_id role]> t)
  end.

Fixpoint removed (qfis : list Z) (t : list qfi2drb_t) : list qfi2drb_t :=
  match qfis with
  | [] => t
  | q :: qfis' => removed qfis' (<[Z.to_nat q := mk_qfi2drb 0 0]> t)
  end.

Definition qfi_ok (q : Z) : Prop := 0 <= q < 64.
Definition drb_ok (drb_id : Z) : Prop := 1 <= drb_id <= 32.

Lemma u8_qfi q : qfi_ok q -> u8 q = q.
Proof. intros [? ?]. apply wrap_small. lia. Qed.

Lemma added_length drb_id role qfis : forall t, length (added drb_id role qfis t) = length t.
Proof. induction qfis as [|q qfis IH]; intros t; simpl; [done|]. by rewrite IH, length_insert. Qed.

Lemma removed_length qfis : forall t, length (removed qfis t) = length t.
Proof. induction qfis as [|q qfis IH]; intros t; simpl; [done|]. by rewrite IH, length_insert. Qed.

Lemma added_lookup drb_id role qfis : Forall qfi_ok qfis -> forall t q, length t = 64%nat -> qfi_ok q ->
  added drb_id role qfis t !! Z.to_nat q = if decide (q ∈ qfis) then Some (mk_qfi2drb drb_id role) else t !! Z.to_nat q.
Proof.
  induction 1 as [|x qfis Hx _ IH]; intros t q Ht Hq; simpl; [done|]. rewrite IH by (rewrite ?length_insert; done).
  unfold qfi_ok in *. destruct (decide (q ∈ qfis)) as [Hin|Hin]; [by rewrite decide_True by (by right)|].
  destruct (Z.eq_dec q x) as [->|Hne].
  - rewrite decide_True by left. apply list_lookup_insert_eq. rewrite Ht. lia.
  - rewrite decide_False by (intros [->|?]%elem_of_cons; done). apply list_lookup_insert_ne. lia.
Qed.

Lemma removed_lookup qfis : Forall qfi_ok qfis -> forall t q, length t = 64%nat -> qfi_ok q ->
  removed qfis t !! Z.to_nat q = if decide (q ∈ qfis) then Some (mk_qfi2drb 0 0) else t !! Z.to_nat q.
Proof.
  induction 1 as [|x qfis Hx _ IH]; intros t q Ht Hq; simpl; [done|]. rewrite IH by (rewrite ?length_insert; done).
  unfold qfi_ok in *. destruct (decide (q ∈ qfis)) as [Hin|Hin]; [by rewrite decide_True by (by right)|].
  destruct (Z.eq_dec q x) as [->|Hne].
  - rewrite decide_True by left. apply list_lookup_insert_eq. rewrite Ht. lia.
  - rewrite decide_False by (intros [->|?]%elem_of_cons; done). apply list_lookup_insert_ne. lia.
Qed.

Lemma add_flows_ok drb_id role qfis : Forall qfi_ok qfis -> 0 <= role < 256 -> forall e, table_ok e ->
  nr_sdap_add_qos_flows_to_drb e drb_id role qfis =
    Ok (if decide (drb_ok drb_id) then {| e with sd_table := added drb_id role qfis (sd_table e) |} else e).
Proof.
  intros Hf Hr. induction Hf as [|q qfis Hq _ IH]; intros e He; simpl; [by destruct e; case_decide|].
  rewrite (u8_qfi q Hq). unfold SDAP_MAX_QFI, SDAP_MAP_RULE_EMPTY, MAX_DRBS_PER_UE, drb_ok, qfi_ok in *.
  rewrite (proj2 (Z.ltb_lt q 64)) by lia. case_decide as Hd.
  - rewrite (proj2 (Z.ltb_lt _ _)), (proj2 (Z.leb_le _ _)) by lia. cbn [andb].
    destruct (table_set_ok e q (mk_qfi2drb drb_id role) He Hq) as [Hs Ho].
    unfold nr_sdap_qfi2drb_map_add. rewrite (wrap_small 8 drb_id), (wrap_small 8 role) by lia. rewrite Hs. cbn [rbind].
    by rewrite IH by done.
  - replace ((true && (0 <? drb_id)) && (drb_id <=? 32)) with false by (symmetry; lia). cbn [rbind].
    by rewrite IH by done.
Qed.

Lemma rm_flows_ok qfis : Forall qfi_ok qfis -> forall e, table_ok e ->
  nr_sdap_rm_qos_flows_from_drb e qfis = Ok {| e with sd_table := removed qfis (sd_table e) |}.
Proof.
  induction 1 as [|q qfis Hq _ IH]; intros e He; simpl; [by destruct e|].
  rewrite (u8_qfi q Hq). unfold nr_sdap_qfi2drb_map_del, SDAP_NO_MAPPING_RULE, NO_SDAP_HEADER.
  destruct (table_set_ok e q (mk_qfi2drb 0 0) He Hq) as [Hs Ho]. rewrite Hs. cbn [rbind]. by rewrite IH.
Qed.

Lemma qfis_to_release_elem drb_id qfis t : forall off q, q ∈ qfis_to_release off drb_id qfis t <->
  off <= q < off + zlen t /\ (exists m, t !! Z.to_nat (q - off) = Some m /\ q_drb_id m = drb_id) /\ q ∉ qfis.
Proof.
  induction t as [|m t IH]; intros off q; simpl.
  { rewrite zlen_nil, elem_of_nil. split; [done|]. intros (? & _). lia. }
  rewrite zlen_cons. assert (Hrest : q ∈ qfis_to_release (off + 1) drb_id qfis t <->
    off + 1 <= q < off + (1 + zlen t) /\ (exists m', (m :: t) !! Z.to_nat (q - off) = Some m' /\ q_drb_id m' = drb_id) /\ q ∉ qfis).
  { rewrite IH. replace (off + 1 + zlen t) with (off + (1 + zlen t)) by lia.
    split; (intros (? & (m' & Hm & ?) & ?); split; [lia|]; split; [|done]; exists m'; split; [|done]).
    - replace (Z.to_nat (q - off)) with (S (Z.to_nat (q - (off + 1)))) by lia. done.
    - replace (Z.to_nat (q - off)) with (S (Z.to_nat (q - (off + 1)))) in Hm by lia. done. }
  assert (Hhere : q = off -> (exists m', (m :: t) !! Z.to_nat (q - off) = Some m' /\ q_drb_id m' = drb_id) <-> q_drb_id m = drb_id).
  { intros ->. rewrite Z.sub_diag. simpl. split; [by intros (? & [= ->] & ?)|by exists m]. }
  pose proof (zlen_nonneg t). destruct (Z.eqb_spec (q_drb_id m) drb_id) as [Hd|Hd]; cbn [negb].
  - destruct (existsb (fun x => x =? off) qfis) eqn:Hx.
    + rewrite Hrest. split; [intros (? & ? & ?); split; [lia|done]|]. intros (? & ? & Hn). split; [|done]. split; [|lia].
      destruct (Z.eq_dec q off) as [->|]; [|lia]. exfalso. apply Hn. apply existsb_exists in Hx as (x & Hi & ?).
      apply list_elem_of_In. replace off with x by lia. done.
    + rewrite elem_of_cons, Hrest. split.
      * intros [->|(? & ? & ?)]; [|split; [lia|done]]. split; [lia|]. split; [by apply Hhere|]. intros Hin.
        assert (existsb (fun x => x =? off) qfis = true); [|congruence]. apply existsb_exists. exists off. split; [by apply list_elem_of_In|lia].
      * intros (? & ? & ?). destruct (Z.eq_dec q off) as [->|]; [by left|right]. split; [lia|done].
  - rewrite Hrest. split; intros (? & Hm & ?); (split; [|done]); [lia|]. split; [|lia].
    destruct (Z.eq_dec q off) as [->|]; [|lia]. exfalso. apply Hd. by apply Hhere.
Qed.

(** The end markers for one flow that is configured for a bearer. *)
Definition markers e (drb_id q : Z) (m : qfi2drb_t) : list sdap_out :=
  (if negb (sd_default_drb e =? 0) && (q_drb_id m =? 0)
   then nr_sdap_submit_ctrl_pdu (sd_ue_id e) (sd_default_drb e) (nr_sdap_construct_ctrl_pdu q) else []) ++
  (if negb (q_drb_id m =? drb_id) && has_role (q_role m) SDAP_UL_TX
   then nr_sdap_submit_ctrl_pdu (sd_ue_id e) (bearer_of e m) (nr_sdap_construct_ctrl_pdu q) else []).

Lemma control_config_ok e drb_id qfis : table_ok e -> Forall qfi_ok qfis -> exists ms,
  Forall2 (fun q m => table_get e q = Ok m) qfis ms /\
  nr_sdap_ue_control_pdu_config e (sd_ue_id e) drb_id qfis = Ok (concat (zip_with (markers e drb_id) qfis ms)).
Proof.
  intros He. induction 1 as [|q qfis Hq _ (ms & Hms & IH)]; [by exists []|].
  destruct (table_get_ok e q He Hq) as (m & Hm & _). exists (m :: ms). split; [by constructor|]. simpl.
  rewrite (u8_qfi q Hq), Hm. cbn [rbind]. unfold end_marker, nr_sdap_map_ctrl_pdu.
  rewrite (qfi2drb_ok e q m Hm). unfold SDAP_CTRL_PDU_MAP_DEF_DRB, SDAP_CTRL_PDU_MAP_RULE_DRB, SDAP_NO_MAPPING_RULE, markers.
  rewrite IH. rewrite <- app_assoc. by destruct (_ && _); destruct (_ && _).
Qed.

(** The flows of the configuration are at most mapped elsewhere when the entity
    has headers to tell them apart. *)
Definition one_bearer e (drb_id : Z) : bool :=
  sd_enable_sdap e || forallb (fun m => (q_drb_id m =? 0) || (q_drb_id m =? drb_id)) (sd_table e).

Record config_ok (sdap : sdap_config_t) : Prop := {
  co_role : 0 <= sc_role sdap < 16;
  co_drb : 0 <= sc_drb_id sdap;
  co_add : Forall qfi_ok (sc_mappedQFIs2Add sdap);
  co_release : Forall qfi_ok (sc_mappedQFIs2Release sdap)
}.

Definition configured (sdap : sdap_config_t) (t : list qfi2drb_t) : list qfi2drb_t :=
  removed (sc_mappedQFIs2Release sdap)
    (if decide (drb_ok (sc_drb_id sdap)) then added (sc_drb_id sdap) (sc_role sdap) (sc_mappedQFIs2Add sdap) t else t).

Lemma configured_lookup sdap t q : config_ok sdap -> drb_ok (sc_drb_id sdap) -> length t = 64%nat -> qfi_ok q ->
  configured sdap t !! Z.to_nat q =
    if decide (q ∈ sc_mappedQFIs2Release sdap) then Some (mk_qfi2drb 0 0)
    else if decide (q ∈ sc_mappedQFIs2Add sdap) then Some (mk_qfi2drb (sc_drb_id sdap) (sc_role sdap)) else t !! Z.to_nat q.
Proof.
  intros [_ _ Ha Hr] Hd Ht Hq. unfold configured. rewrite decide_True by exact Hd.
  rewrite (removed_lookup _ Hr _ q); [|by rewrite added_length|done]. by rewrite (added_lookup _ _ _ Ha t q Ht Hq).
Qed.

Lemma configured_length sdap t : length (configured sdap t) = length t.
Proof. unfold configured. rewrite removed_length. case_decide; [apply added_length|done]. Qed.

Lemma map_update_ok e sdap : table_ok e -> config_ok sdap ->
  (one_bearer e (sc_drb_id sdap) = false -> nr_sdap_qfi2drb_map_update e sdap = Fail FExit) /\
  (one_bearer e (sc_drb_id sdap) = true ->
    exists outs, nr_sdap_qfi2drb_map_update e sdap = Ok ({| e with sd_table := configured sdap (sd_table e) |}, outs) /\
      (sd_is_gnb e = true -> outs = [])).
Proof.
  intros He [Hr Hd Ha Hrel]. unfold nr_sdap_qfi2drb_map_update, one_bearer, SDAP_NO_MAPPING_RULE.
  split; intros Ho.
  { apply orb_false_iff in Ho as [-> Ho]. cbn [negb]. unfold assert_. by rewrite Ho. }
  assert (Hchk : (if negb (sd_enable_sdap e) then assert_ (forallb (fun m => (q_drb_id m =? 0) || (q_drb_id m =? sc_drb_id sdap)) (sd_table e)) else Ok tt) = Ok tt).
  { destruct (sd_enable_sdap e); [done|]. simpl in Ho |- *. unfold assert_. by rewrite Ho. }
  rewrite Hchk. cbn [rbind].
  destruct (control_config_ok e (sc_drb_id sdap) _ He Ha) as (ms & _ & Hc). rewrite Hc.
  rewrite (add_flows_ok (sc_drb_id sdap) (sc_role sdap) _ Ha ltac:(lia) e He).
  assert (Hrm : nr_sdap_rm_qos_flows_from_drb
      (if decide (drb_ok (sc_drb_id sdap)) then {| e with sd_table := added (sc_drb_id sdap) (sc_role sdap) (sc_mappedQFIs2Add sdap) (sd_table e) |} else e)
      (sc_mappedQFIs2Release sdap) = Ok {| e with sd_table := configured sdap (sd_table e) |}).
  { rewrite rm_flows_ok by (done || (case_decide; [unfold table_ok; simpl; by rewrite added_length|done])).
    unfold configured. by case_decide. }
  destruct (sd_is_gnb e); simpl; rewrite Hrm; simpl; eexists; split; try done.
Qed.

End Entity.

(** ** The registry *)

Lemma is_entity_true ue pdu e : is_entity ue pdu e = true <-> sd_ue_id e = ue /\ sd_pdusession_id e = pdu.
Proof. unfold is_entity. rewrite andb_true_iff, !Z.eqb_eq. done. Qed.

Lemma get_some ue pdu l e : get_loop ue pdu l = Some e -> e ∈ l /\ is_entity ue pdu e = true.
Proof.
  induction l as [|x l IH]; simpl; [done|]. destruct (is_entity ue pdu x) eqn:Hx.
  - intros [= <-]. split; [left|done].
  - intros H. destruct (IH H). split; [by right|done].
Qed.

Lemma get_none ue pdu l : get_loop ue pdu l = None <-> Forall (fun e => is_entity ue pdu e = false) l.
Proof.
  induction l as [|x l IH]; simpl; [done|]. rewrite Forall_cons. destruct (is_entity ue pdu x); [split; [done|by intros [? _]]|].
  rewrite IH. naive_solver.
Qed.

Lemma get_put_eq ue pdu l e e' : get_loop ue pdu l = Some e -> is_entity ue pdu e' = true -> get_loop ue pdu (put_loop ue pdu e' l) = Some e'.
Proof.
  induction l as [|x l IH]; simpl; [done|]. intros Hg He'. destruct (is_entity ue pdu x) eqn:Hx; simpl; [by rewrite He'|].
  rewrite Hx. by apply IH.
Qed.

Lemma get_put_ne ue pdu ue' pdu' l e' : is_entity ue pdu e' = true -> (ue', pdu') <> (ue, pdu) ->
  get_loop ue' pdu' (put_loop ue pdu e' l) = get_loop ue' pdu' l.
Proof.
  intros He' Hne. assert (Hex : forall x, is_entity ue pdu x = true -> is_entity ue' pdu' x = false).
  { intros x [<- <-]%is_entity_true. unfold is_entity. apply andb_false_iff. rewrite !Z.eqb_neq.
    destruct (Z.eq_dec (sd_ue_id x) ue'); [right|by left]. intros <-. by subst. }
  induction l as [|x l IH]; simpl; [done|]. destruct (is_entity ue pdu x) eqn:Hx; simpl; [by rewrite (Hex _ He'), (Hex _ Hx)|by rewrite IH].
Qed.
