(* ===== verification/SdapTrace.v ===== *)
(** Every sequence of operations on the SDAP registry: what stays true, and where
    the code stops. *)

From S2P Require Import Prelude Sdap SdapSpec.

(** ** Invariant *)

Record entity_wf (e : nr_sdap_entity_t) : Prop := {
  ew_table : table_ok e;
  ew_qfi : qfi_ok (sd_qfi e);
  ew_drbs : Forall (fun m => 0 <= q_drb_id m) (sd_table e);
  ew_default : 0 <= sd_default_drb e
}.

Definition key_of (e : nr_sdap_entity_t) : Z * Z := (sd_ue_id e, sd_pdusession_id e).

Record sdap_wf (s : sdap_t) : Prop := {
  sw_entities : Forall entity_wf (sp_entities s);
  sw_keys : NoDup (map key_of (sp_entities s));
  sw_ifaces : Forall (fun i => ti_qfi i = -1 \/ qfi_ok (ti_qfi i)) (sp_ifaces s)
}.

Lemma is_entity_key ue pdu e : is_entity ue pdu e = true <-> key_of e = (ue, pdu).
Proof. rewrite is_entity_true. unfold key_of. split; [by intros [-> ->]|by intros [= -> ->]]. Qed.

Lemma get_wf s ue pdu e : sdap_wf s -> nr_sdap_get_entity s ue pdu = Some e -> entity_wf e /\ key_of e = (ue, pdu).
Proof.
  intros [Hf _ _] H. apply get_some in H as [Hin Hk]. rewrite Forall_forall in Hf. split; [by apply Hf|by apply is_entity_key].
Qed.

Lemma put_keys ue pdu e l : is_entity ue pdu e = true -> map key_of (put_loop ue pdu e l) = map key_of l.
Proof.
  intros He. induction l as [|x l IH]; simpl; [done|]. destruct (is_entity ue pdu x) eqn:Hx; simpl; [|by rewrite IH].
  apply is_entity_key in He. apply is_entity_key in Hx. by rewrite He, Hx.
Qed.

Lemma put_forall (P : nr_sdap_entity_t -> Prop) ue pdu e l : P e -> Forall P l -> Forall P (put_loop ue pdu e l).
Proof.
  intros He. induction 1 as [|x l Hx Hl IH]; simpl; [constructor|]. destruct (is_entity _ _ _); by constructor.
Qed.

Lemma put_wf s ue pdu e : sdap_wf s -> entity_wf e -> key_of e = (ue, pdu) -> sdap_wf (put_entity s ue pdu e).
Proof.
  intros [Hf Hk Hi] He Hke. apply is_entity_key in Hke.
  split; simpl; [by apply put_forall|by rewrite put_keys|done].
Qed.

Lemma table_wf e t : entity_wf e -> length t = 64%nat -> Forall (fun m => 0 <= q_drb_id m) t -> entity_wf {| e with sd_table := t |}.
Proof. intros [He Hq Hd Hdf] Hl Hf. by split. Qed.

Lemma configured_wf sdap t : config_ok sdap -> Forall (fun m => 0 <= q_drb_id m) t -> Forall (fun m => 0 <= q_drb_id m) (configured sdap t).
Proof.
  intros [_ Hd _ _] Ht. unfold configured.
  assert (Hadd : forall qfis t, Forall (fun m => 0 <= q_drb_id m) t -> Forall (fun m => 0 <= q_drb_id m) (added (sc_drb_id sdap) (sc_role sdap) qfis t)).
  { induction qfis as [|q qfis IH]; intros t' Ht'; simpl; [done|]. apply IH. by apply Forall_insert. }
  assert (Hrm : forall qfis t, Forall (fun m => 0 <= q_drb_id m) t -> Forall (fun m => 0 <= q_drb_id m) (removed qfis t)).
  { induction qfis as [|q qfis IH]; intros t' Ht'; simpl; [done|]. apply IH. apply Forall_insert; [done|simpl; lia]. }
  apply Hrm. case_decide; [by apply Hadd|done].
Qed.

(** ** Interfaces *)

Lemma iface_set_wf l ue pdu qfi : qfi_ok qfi -> Forall (fun i => ti_qfi i = -1 \/ qfi_ok (ti_qfi i)) l ->
  Forall (fun i => ti_qfi i = -1 \/ qfi_ok (ti_qfi i)) (iface_set_qfi l ue pdu qfi).
Proof. intros Hq. induction 1 as [|i l Hi Hl IH]; simpl; [constructor|]. destruct (is_iface _ _ _); constructor; simpl; auto. Qed.

Lemma attach_wf l e d : entity_wf e -> entity_wf (nr_sdap_tun_attach l e d) /\ key_of (nr_sdap_tun_attach l e d) = key_of e.
Proof.
  intros [He Hq Hd Hdf]. unfold nr_sdap_tun_attach. destruct (0 <=? _); [done|]. destruct (sdap_tun_iface_lookup _ _ _) as [i|]; [|done].
  unfold valid_qfi, SDAP_MAX_QFI, qfi_ok in *. destruct (negb _ && _) eqn:Hc; destruct (d <? 0); (split; [|done]); split; simpl; try done; unfold qfi_ok; lia.
Qed.

Lemma destroy_wf (P : sdap_tun_iface_t -> Prop) l ue pdu : Forall P l -> Forall P (nr_sdap_tun_destroy l ue pdu).1.
Proof.
  induction 1 as [|i l Hi Hl IH]; simpl; [constructor|]. destruct (is_iface _ _ _); simpl; [done|].
  destruct (nr_sdap_tun_destroy l ue pdu). simpl in *. by constructor.
Qed.

Lemma remove_if_wf l e : Forall (fun i => ti_qfi i = -1 \/ qfi_ok (ti_qfi i)) l -> qfi_ok (sd_qfi e) ->
  Forall (fun i => ti_qfi i = -1 \/ qfi_ok (ti_qfi i)) (remove_ip_if l e).1.
Proof.
  intros Hl Hq. unfold remove_ip_if, nr_sdap_tun_detach.
  assert (Hl' : Forall (fun i => ti_qfi i = -1 \/ qfi_ok (ti_qfi i))
    (if negb (sd_is_gnb e) && valid_qfi (sd_qfi e) then iface_set_qfi l (sd_ue_id e) (sd_pdusession_id e) (sd_qfi e) else l)).
  { destruct (_ && _); [by apply iface_set_wf|done]. }
  destruct (sd_pdusession_sock e <? 0); cbn -[nr_sdap_tun_destroy]; destruct (sd_is_gnb e); cbn -[nr_sdap_tun_destroy] in *; try done.
  all: pose proof (destroy_wf _ _ (sd_ue_id e) (sd_pdusession_id e) Hl'); by destruct (nr_sdap_tun_destroy _ _ _).
Qed.

Lemma register_ok s ue pdu sock d e : sdap_wf s -> nr_sdap_get_entity s ue pdu = Some e ->
  sdap_tun_iface_lookup (sp_ifaces s) ue pdu = None ->
  exists s', register_and_attach s ue pdu sock d e = Ok s' /\ sdap_wf s'.
Proof.
  intros Hs He Hl. destruct (get_wf s ue pdu e Hs He) as [Hwf Hkey].
  unfold register_and_attach, sdap_tun_iface_register. rewrite Hl, He. cbn [rbind assert_].
  eexists. split; [done|].
  match goal with |- sdap_wf (mk_sdap (put_loop _ _ (nr_sdap_tun_attach ?l _ _) _) _) => set (l' := l) end.
  destruct (attach_wf l' e d Hwf) as [Ha Hka].
  pose proof (put_wf s ue pdu _ Hs Ha ltac:(by rewrite Hka)) as [H1 H2 _]. split; [done|done|]. simpl. unfold l'. constructor; [|apply (sw_ifaces _ Hs)].
  simpl. destruct (_ && _); [right; apply (ew_qfi _ Hwf)|by left].
Qed.

(** ** Operations *)

Inductive sdap_op :=
| OpAddMod (is_gnb : bool) (ue_id sock d : Z) (sdap : sdap_config_t)
| OpUpdateQos (ue_id pdusession_id drb_id : Z) (qfis : list Z)
| OpReconfigure (sdap_config : NR_SDAP_Config_t) (ue_id pdusession_id drb_id : Z)
| OpReleaseDrb (ue_id drb_id pdusession_id : Z)
| OpDelete (ue_id pdusession_id : Z)
| OpDeleteUe (ue_id : Z)
| OpSetQfi (qfi pduid ue_id : Z)
| OpCreateIf (ue_id pdu_session_id sock d : Z)
| OpDataReq (ue_id pdusession_id : Z) (sdu : bytes) (qfi : Z) (rqi : bool)
| OpDataInd (pdcp_entity : Z) (is_gnb : bool) (pdusession_id ue_id : Z) (buf : bytes)
| OpTunRead (ue_id pdusession_id : Z) (rx_buf : bytes).

Definition sent (ue_id : Z) (t : sdap_tx) : list sdap_out :=
  match t with TxDropped => [] | TxSubmit drb_id pdu => [ToPdcp ue_id drb_id pdu] end.

(** Without the noS1 mode. *)
Definition sdap_step s (op : sdap_op) : res (sdap_t * list sdap_out) :=
  match op with
  | OpAddMod is_gnb ue_id sock d sdap => nr_sdap_addmod_entity s false is_gnb ue_id sock d sdap
  | OpUpdateQos ue_id pdu drb_id qfis => nr_sdap_entity_update_qos_flows s ue_id pdu drb_id qfis
  | OpReconfigure c ue_id pdu drb_id => nr_reconfigure_sdap_entity s c ue_id pdu drb_id
  | OpReleaseDrb ue_id drb_id pdu => Ok (nr_sdap_release_drb s ue_id drb_id pdu, [])
  | OpDelete ue_id pdu => let* (s, _, outs) := nr_sdap_delete_entity s ue_id pdu in Ok (s, outs)
  | OpDeleteUe ue_id => let '(s, _, outs) := nr_sdap_delete_ue_entities s ue_id in Ok (s, outs)
  | OpSetQfi qfi pduid ue_id => let* s := set_qfi s qfi pduid ue_id in Ok (s, [])
  | OpCreateIf ue_id pdu sock d => let* s := create_ue_ip_if s ue_id pdu sock d in Ok (s, [])
  | OpDataReq ue_id pdu sdu qfi rqi => let* t := sdap_data_req s ue_id pdu sdu qfi rqi in Ok (s, sent ue_id t)
  | OpDataInd pdcp is_gnb pdu ue_id buf => sdap_data_ind s pdcp is_gnb pdu ue_id buf
  | OpTunRead ue_id pdu buf =>
      match nr_sdap_get_entity s ue_id pdu with
      | Some e => let* t := sdap_tun_read e buf in Ok (s, sent ue_id t)
      | None => Ok (s, [])
      end
  end.

Fixpoint sdap_run s (ops : list sdap_op) : list (list sdap_out) * res sdap_t :=
  match ops with
  | [] => ([], Ok s)
  | op :: ops' =>
      match sdap_step s op with
      | Ok (s', o) => let (os, r) := sdap_run s' ops' in (o :: os, r)
      | Fail f => ([], Fail f)
      end
  end.

(** Inputs as the other layers give them: flow identifiers of six bits, at most
    64 of them, and no PDU without a byte. *)
Definition flows_ok (l : list Z) : Prop := Forall qfi_ok l /\ zlen l <= 64.

Definition op_ok (op : sdap_op) : Prop :=
  match op with
  | OpAddMod _ _ _ _ sdap => config_ok sdap
  | OpUpdateQos _ _ drb_id qfis => 0 <= drb_id /\ flows_ok qfis
  | OpReconfigure c _ _ drb_id =>
      0 <= drb_id /\ flows_ok (default [] (sdap_mappedQoS_FlowsToAdd c)) /\ flows_ok (default [] (sdap_mappedQoS_FlowsToRelease c))
  | OpSetQfi qfi _ _ | OpDataReq _ _ _ qfi _ => qfi_ok qfi
  | OpDataInd pdcp _ _ _ buf => 0 <= pdcp /\ buf <> []
  | OpReleaseDrb _ _ _ | OpDelete _ _ | OpDeleteUe _ | OpCreateIf _ _ _ _ | OpTunRead _ _ _ => True
  end.

(** ** Where the code stops *)

(** A gNB entity that expects a header, but none in uplink. *)
Definition wrong_uplink (e : nr_sdap_entity_t) (buf : bytes) : bool :=
  sd_enable_sdap e &&
  match buf with
  | b :: _ =>
      match sd_table e !! Z.to_nat (Z.land b 0x3f) with
      | Some m => negb (q_drb_id m =? 0) && negb (has_role (q_role m) SDAP_UL_RX)
      | None => false
      end
  | [] => false
  end.

Definition sdap_aborts s (op : sdap_op) : bool :=
  match op with
  | OpAddMod is_gnb ue_id sock d sdap =>
      match nr_sdap_get_entity s ue_id (sc_pdusession_id sdap) with
      | Some e => negb (one_bearer e (sc_drb_id sdap))
      | None => (sc_role sdap =? 0) && (1 <? zlen (sc_mappedQFIs2Add sdap))
      end
  | OpUpdateQos ue_id pdu drb_id _ | OpReconfigure _ ue_id pdu drb_id =>
      match nr_sdap_get_entity s ue_id pdu with Some e => negb (one_bearer e drb_id) | None => false end
  | OpDelete _ pdu => match sp_entities s with [] => (0 <=? pdu) && (pdu <=? 256) | _ => false end
  | OpSetQfi _ pduid ue_id => match nr_sdap_get_entity s ue_id pduid with Some _ => false | None => true end
  | OpCreateIf ue_id pdu _ _ =>
      match sdap_tun_iface_lookup (sp_ifaces s) ue_id pdu, nr_sdap_get_entity s ue_id pdu with
      | Some _, _ => false
      | None, Some e => sd_is_gnb e
      | None, None => true
      end
  | OpDataInd _ is_gnb pdu ue_id buf =>
      is_gnb && match nr_sdap_get_entity s ue_id pdu with Some e => wrong_uplink e buf | None => false end
  | OpReleaseDrb _ _ _ | OpDeleteUe _ | OpDataReq _ _ _ _ _ | OpTunRead _ _ _ => false
  end.

(** What one step does. *)
Definition step_as_said s (op : sdap_op) : Prop :=
  if sdap_aborts s op then exists f, sdap_step s op = Fail f
  else exists s' outs, sdap_step s op = Ok (s', outs) /\ sdap_wf s'.

Lemma update_step s ue pdu e sdap : sdap_wf s -> nr_sdap_get_entity s ue pdu = Some e -> config_ok sdap ->
  let r := let* (e, outs) := nr_sdap_qfi2drb_map_update e sdap in Ok (put_entity s ue pdu e, outs) in
  if negb (one_bearer e (sc_drb_id sdap)) then exists f, r = Fail f else exists s' outs, r = Ok (s', outs) /\ sdap_wf s'.
Proof.
  intros Hs He Hc. destruct (get_wf s ue pdu e Hs He) as [Hwf Hkey].
  destruct (map_update_ok e sdap (ew_table _ Hwf) Hc) as [Hno Hyes].
  destruct (one_bearer e (sc_drb_id sdap)); cbn [negb].
  - destruct (Hyes eq_refl) as (outs & -> & _). simpl. eexists _, outs. split; [done|].
    apply put_wf; [done| |done]. apply table_wf; [done|by rewrite configured_length, (ew_table _ Hwf)|by apply configured_wf, (ew_drbs _ Hwf)].
  - rewrite (Hno eq_refl). simpl. by eexists.
Qed.

Lemma fresh_wf ue pdu default is_gnb enable t : 0 <= default -> length t = 64%nat -> Forall (fun m => 0 <= q_drb_id m) t ->
  entity_wf (mk_sdap_entity ue default is_gnb enable pdu (-1) false 0 t).
Proof. intros Hd Hl Hf. split; [done|unfold qfi_ok; simpl; lia|done|done]. Qed.

Lemma added_wf drb_id role qfis : 0 <= drb_id -> forall t, Forall (fun m => 0 <= q_drb_id m) t -> Forall (fun m => 0 <= q_drb_id m) (added drb_id role qfis t).
Proof. intros Hd. induction qfis as [|q qfis IH]; intros t' Ht'; simpl; [done|]. apply IH. by apply Forall_insert. Qed.

Lemma add_step s is_gnb ue sock d sdap : sdap_wf s -> nr_sdap_get_entity s ue (sc_pdusession_id sdap) = None -> config_ok sdap ->
  if (sc_role sdap =? 0) && (1 <? zlen (sc_mappedQFIs2Add sdap))
  then nr_sdap_add_entity s false is_gnb ue sock d sdap = Fail FExit
  else exists s', nr_sdap_add_entity s false is_gnb ue sock d sdap = Ok s' /\ sdap_wf s'.
Proof.
  intros [Hf Hk Hi] Hn [Hr Hd Ha _]. unfold nr_sdap_add_entity, NO_SDAP_HEADER, SDAP_MAX_QFI.
  set (t0 := replicate (Z.to_nat 64) (mk_qfi2drb 0 0)).
  set (e0 := mk_sdap_entity ue _ _ _ _ _ _ _ t0).
  assert (He0 : table_ok e0) by done.
  assert (Hchk : (if negb (negb (sc_role sdap =? 0)) then assert_ (zlen (sc_mappedQFIs2Add sdap) <=? 1) else Ok tt) =
    if (sc_role sdap =? 0) && (1 <? zlen (sc_mappedQFIs2Add sdap)) then Fail FExit else Ok tt).
  { destruct (sc_role sdap =? 0); [|done]. simpl. unfold assert_. rewrite Z.leb_antisym. by destruct (1 <? _). }
  rewrite Hchk. destruct (_ && _); [done|]. cbn [rbind].
  rewrite (add_flows_ok (sc_drb_id sdap) (sc_role sdap) _ Ha ltac:(lia) e0 He0). cbn [rbind andb].
  set (e1 := if decide (drb_ok (sc_drb_id sdap))
    then {| e0 with sd_table := added (sc_drb_id sdap) (sc_role sdap) (sc_mappedQFIs2Add sdap) (sd_table e0) |} else e0).
  assert (H1 : entity_wf e1 /\ key_of e1 = (ue, sc_pdusession_id sdap)).
  { assert (Ht0 : Forall (fun m => 0 <= q_drb_id m) t0) by (by apply Forall_replicate).
    assert (Hdef : 0 <= if sc_defaultDRB sdap then sc_drb_id sdap else 0) by (by destruct (sc_defaultDRB sdap)).
    subst e1 e0. case_decide; (split; [|done]); apply fresh_wf; try done.
    - by rewrite added_length.
    - by apply added_wf. }
  destruct H1 as [H1 Hk1].
  assert (Hs1 : forall e, entity_wf e -> key_of e = (ue, sc_pdusession_id sdap) -> sdap_wf {| s with sp_entities := e :: sp_entities s |}).
  { intros e He Hke. split; simpl; [by constructor| |done]. constructor; [|done]. rewrite Hke. intros Hin.
    apply list_elem_of_fmap in Hin as (x & Hx & Hxin). apply get_none in Hn. rewrite Forall_forall in Hn.
    specialize (Hn x Hxin). symmetry in Hx. apply is_entity_key in Hx. congruence. }
  destruct is_gnb; cbn [negb]; eexists; (split; [done|]); [by apply Hs1|]. simpl.
  destruct (attach_wf (sp_ifaces s) e1 d H1) as [Ha1 Hka1]. apply Hs1; [done|by rewrite Hka1].
Qed.

Lemma config_qfis_ok l : flows_ok (default [] l) -> config_qfis l = Ok (default [] l).
Proof.
  intros [Hf Hl]. unfold config_qfis. destruct l as [l|]; [|done]. simpl in *. pose proof (zlen_nonneg l).
  rewrite wrap_small by lia. unfold SDAP_MAX_QFI. rewrite (proj2 (Z.leb_le _ _)) by lia. simpl.
  unfold zlen. by rewrite Nat2Z.id, firstn_all.
Qed.

Lemma sdap_role_ok is_gnb c : 0 <= get_sdap_role is_gnb c < 16.
Proof. unfold get_sdap_role. destruct is_gnb, (sdap_HeaderUL_present c), (sdap_HeaderDL_present c); vm_compute; split; congruence. Qed.

Lemma entity_role_ok e : 0 <= entity_role e < 16.
Proof. unfold entity_role. destruct (sd_enable_sdap e), (sd_is_gnb e); vm_compute; split; congruence. Qed.

Lemma release_list_ok e drb_id qfis : table_ok e -> Forall qfi_ok (qfis_to_release 0 drb_id qfis (sd_table e)).
Proof.
  intros He. apply Forall_forall. intros q Hq. apply qfis_to_release_elem in Hq as (Hq & _). unfold qfi_ok. unfold zlen in Hq. rewrite He in Hq. lia.
Qed.

Lemma delete_walk_ok ue pdu : forall l bound e, match delete_walk bound ue pdu e l with
  | Some (before, x, after) => e :: l = before ++ x :: after /\ is_entity ue pdu x = true
  | None => True
  end.
Proof.
  induction l as [|e' l IH]; intros bound e; destruct bound as [|bound]; simpl; destruct (is_entity ue pdu e) eqn:He; try done.
  specialize (IH bound e'). destruct (delete_walk bound ue pdu e' l) as [[[before x] after]|]; [|done].
  destruct IH as [-> Hx]. done.
Qed.

Lemma removed_sublist_wf s l ifaces : sdap_wf s -> sublist l (sp_entities s) ->
  Forall (fun i => ti_qfi i = -1 \/ qfi_ok (ti_qfi i)) ifaces -> sdap_wf (mk_sdap l ifaces).
Proof.
  intros [Hf Hk _] Hl Hi. split; simpl; [by eapply sublist_forall| |done].
  eapply sublist_NoDup; [exact Hk|by apply sublist_map].
Qed.

Lemma delete_ue_ok ue l : forall ifaces, Forall entity_wf l -> Forall (fun i => ti_qfi i = -1 \/ qfi_ok (ti_qfi i)) ifaces ->
  let '(l', ifaces', ret, outs) := delete_ue_loop ue l ifaces in
  l' = filter (fun e => sd_ue_id e <> ue) l /\ ret = existsb (fun e => sd_ue_id e =? ue) l /\
  Forall (fun i => ti_qfi i = -1 \/ qfi_ok (ti_qfi i)) ifaces'.
Proof.
  induction l as [|e l IH]; intros ifaces Hl Hi; simpl; [done|]. inversion Hl as [|? ? He Hl']; subst.
  destruct (Z.eqb_spec (sd_ue_id e) ue) as [Hu|Hu]; simpl.
  - pose proof (remove_if_wf ifaces e Hi (ew_qfi _ He)) as Hri. destruct (remove_ip_if ifaces e) as [ifaces1 o1].
    specialize (IH ifaces1 Hl' Hri). destruct (delete_ue_loop ue l ifaces1) as [[[l' i'] r'] o'].
    destruct IH as (-> & -> & ?). rewrite filter_cons_False by naive_solver. done.
  - specialize (IH ifaces Hl' Hi). destruct (delete_ue_loop ue l ifaces) as [[[l' i'] r'] o'].
    destruct IH as (-> & -> & ?). by rewrite filter_cons_True.
Qed.

(** ** Data: nothing of the state changes but the rule of a reflected flow *)

Lemma data_req_ok s ue pdu sdu qfi rqi : sdap_wf s -> qfi_ok qfi -> exists t, sdap_data_req s ue pdu sdu qfi rqi = Ok t.
Proof.
  intros Hs Hq. unfold sdap_data_req. destruct (nr_sdap_get_entity s ue pdu) as [e|] eqn:He; [|by eexists].
  destruct (get_wf s ue pdu e Hs He) as [Hwf _]. destruct (table_get_ok e qfi (ew_table _ Hwf) Hq) as (m & Hm & _).
  rewrite (tx_entity_ok e sdu qfi rqi m Hm). by eexists.
Qed.

Lemma tun_read_ok e buf : entity_wf e -> exists t, sdap_tun_read e buf = Ok t.
Proof.
  intros He. unfold sdap_tun_read. destruct (_ && _); [by eexists|]. pose proof (ew_qfi _ He) as Hq. rewrite (u8_qfi _ Hq).
  destruct (table_get_ok e (sd_qfi e) (ew_table _ He) Hq) as (m & Hm & _). rewrite (tx_entity_ok _ _ _ _ _ Hm). by eexists.
Qed.

Lemma reflective_ok e pdcp ue qfi m : table_ok e -> qfi_ok qfi -> table_get e qfi = Ok m ->
  reflective_mapping e pdcp ue qfi =
    Ok ({| e with sd_table := <[Z.to_nat qfi := {| m with q_drb_id := pdcp |}]> (sd_table e) |},
      (if (q_drb_id m =? 0) && negb (sd_default_drb e =? 0)
       then nr_sdap_submit_ctrl_pdu ue (sd_default_drb e) (nr_sdap_construct_ctrl_pdu qfi) else []) ++
      (if negb (pdcp =? q_drb_id m) then nr_sdap_submit_ctrl_pdu ue (bearer_of e m) (nr_sdap_construct_ctrl_pdu qfi) else [])).
Proof.
  intros He Hq Hm. unfold reflective_mapping. rewrite Hm. cbn [rbind]. unfold end_marker, nr_sdap_map_ctrl_pdu, SDAP_CTRL_PDU_MAP_DEF_DRB, SDAP_CTRL_PDU_MAP_RULE_DRB.
  rewrite (qfi2drb_ok e qfi m Hm). destruct (table_set_ok e qfi {| m with q_drb_id := pdcp |} He Hq) as [Hs _].
  destruct (_ && _); destruct (negb (pdcp =? _)); cbn [rbind]; rewrite Hs; done.
Qed.

Lemma rx_entity_ok e pdcp is_gnb pdu ue buf : entity_wf e -> 0 <= pdcp -> buf <> [] ->
  if is_gnb && wrong_uplink e buf then nr_sdap_rx_entity e pdcp is_gnb pdu ue buf = Fail FExit
  else exists e' outs, nr_sdap_rx_entity e pdcp is_gnb pdu ue buf = Ok (e', outs) /\ entity_wf e' /\ key_of e' = key_of e.
Proof.
  intros He Hp Hb. destruct buf as [|b buf]; [done|]. unfold nr_sdap_rx_entity, wrong_uplink.
  destruct (sd_enable_sdap e) eqn:Hen; cbn [andb].
  2:{ unfold rx_mapping. rewrite Hen, andb_false_r. cbn. destruct is_gnb; cbn; [by eexists _, _|]. destruct (_ <? 0); by eexists _, _. }
  pose proof (land_qfi b) as Hq. destruct (table_get_ok e _ (ew_table _ He) Hq) as (m & Hm & Hl). rewrite Hl.
  rewrite (rx_mapping_ok e b buf m Hen (ew_table _ He) Hm Hq). cbn [rbind].
  destruct (q_drb_id m =? 0); cbn [negb andb]; [rewrite andb_false_r; by eexists _, _|].
  destruct is_gnb; cbn [andb].
  - destruct (has_role (q_role m) SDAP_UL_RX); cbn [negb].
    + unfold SDAP_MAX_QFI. rewrite (proj2 (Z.leb_le _ _)), (proj2 (Z.ltb_lt _ 64)) by lia. cbn [andb assert_ rbind].
      replace (of_opt FBounds ((b :: buf) !! 0%nat)) with (Ok b) by done. cbn [rbind]. unfold ul_hdr_of. cbn [ul_QFI]. rewrite Z.eqb_refl. by eexists _, _.
    + unfold assert_. by rewrite (proj2 (Z.eqb_neq _ _)) by lia.
  - destruct (has_role (q_role m) SDAP_DL_RX); cbn [rbind]; [|destruct (_ <? 0); by eexists _, _].
    replace (of_opt FBounds ((b :: buf) !! 0%nat)) with (Ok b) by done. cbn [rbind]. unfold dl_hdr_of. cbn [dl_RDI dl_QFI].
    destruct (_ =? SDAP_REFLECTIVE_MAPPING); cbn [rbind]; [|destruct (_ <? 0); by eexists _, _].
    rewrite (reflective_ok e pdcp ue _ m (ew_table _ He) Hq Hm). cbn [rbind].
    destruct (_ <? 0); eexists _, _; (split; [done|]; split; [|done]); (apply table_wf; [done|by rewrite length_insert, (ew_table _ He)|]);
      apply Forall_insert; simpl; (apply (ew_drbs _ He) || done).
Qed.

(** ** Every step *)

Lemma release_drb_step s ue drb pdu : sdap_wf s -> step_as_said s (OpReleaseDrb ue drb pdu).
Proof.
  intros Hs. unfold step_as_said. cbn [sdap_step sdap_aborts].
  eexists _, _. split; [done|]. unfold nr_sdap_release_drb. destruct (nr_sdap_get_entity s ue pdu) as [e|] eqn:He; [|done].
  destruct (get_wf s ue pdu e Hs He) as [Hwf Hk]. apply put_wf; [done| |done].
  apply table_wf; [done|by rewrite length_map, (ew_table _ Hwf)|]. apply Forall_fmap. eapply Forall_impl; [apply (ew_drbs _ Hwf)|].
  intros m Hm. simpl. destruct (_ =? _); [|done]. unfold SDAP_NO_MAPPING_RULE. simpl. lia.
Qed.

Lemma delete_step s ue pdu : sdap_wf s -> step_as_said s (OpDelete ue pdu).
Proof.
  intros Hs. unfold step_as_said. cbn [sdap_step sdap_aborts].
  unfold nr_sdap_delete_entity, NR_MAX_NB_PDU_SESSIONS. destruct (sp_entities s) as [|e l] eqn:El.
  + destruct (Z.leb_spec 0 pdu), (Z.leb_spec pdu 256); cbn [andb].
    * rewrite (proj2 (Z.ltb_ge _ _)), (proj2 (Z.ltb_ge _ _)) by lia. by eexists.
    * rewrite (proj2 (Z.ltb_lt 256 pdu)) by lia. rewrite orb_true_r. by eexists _, _.
    * rewrite (proj2 (Z.ltb_lt pdu 0)) by lia. by eexists _, _.
    * rewrite (proj2 (Z.ltb_lt pdu 0)) by lia. by eexists _, _.
  + pose proof (delete_walk_ok ue pdu l (Z.to_nat SDAP_MAX_NUM_OF_ENTITIES) e) as Hw.
    destruct (delete_walk _ _ _ _ _) as [[[before x] after]|]; [|by eexists _, _]. destruct Hw as [Hl Hx].
    assert (Hxin : entity_wf x).
    { pose proof (sw_entities _ Hs) as Hf. rewrite El, Hl in Hf. apply Forall_app in Hf as [_ Hf]. by inversion Hf. }
    pose proof (remove_if_wf (sp_ifaces s) x (sw_ifaces _ Hs) (ew_qfi _ Hxin)) as Hri. destruct (remove_ip_if _ _) as [ifaces outs].
    eexists _, _. split; [done|]. apply (removed_sublist_wf s); [done| |done]. rewrite El, Hl. apply sublist_app; [done|by apply sublist_cons].
Qed.

Lemma delete_ue_step s ue : sdap_wf s -> step_as_said s (OpDeleteUe ue).
Proof.
  intros Hs. unfold step_as_said. cbn [sdap_step sdap_aborts].
  unfold nr_sdap_delete_ue_entities. pose proof (delete_ue_ok ue (sp_entities s) (sp_ifaces s) (sw_entities _ Hs) (sw_ifaces _ Hs)) as Hd.
  destruct (delete_ue_loop _ _ _) as [[[l i] r] o]. destruct Hd as (-> & _ & Hi). eexists _, _. split; [done|].
  apply (removed_sublist_wf s); [done|apply sublist_filter|done].
Qed.

Lemma set_qfi_step s qfi pdu ue : sdap_wf s -> qfi_ok qfi -> step_as_said s (OpSetQfi qfi pdu ue).
Proof.
  intros Hs Hop. unfold step_as_said. cbn [sdap_step sdap_aborts].
  unfold set_qfi, nr_sdap_tun_store_qfi, SDAP_MAX_QFI. unfold qfi_ok in Hop. rewrite (proj2 (Z.ltb_lt _ _)) by lia. cbn [assert_ rbind].
  destruct (nr_sdap_get_entity s ue pdu) as [e|] eqn:He; [|by eexists]. cbn [of_opt rbind].
  destruct (get_wf s ue pdu e Hs He) as [Hwf Hk]. eexists _, _. split; [done|].
  destruct (put_wf s ue pdu {| e with sd_qfi := qfi |} Hs) as [H1 H2 H3]; [|done|].
  { destruct Hwf. by split. }
  split; [done|done|]. simpl. by apply iface_set_wf.
Qed.

Lemma create_if_step s ue pdu sock d : sdap_wf s -> step_as_said s (OpCreateIf ue pdu sock d).
Proof.
  intros Hs. unfold step_as_said. cbn [sdap_step sdap_aborts].
  unfold create_ue_ip_if. destruct (sdap_tun_iface_lookup _ _ _) as [i|] eqn:Hi.
  + destruct (nr_sdap_get_entity s ue pdu) as [e|] eqn:He; [|by eexists _, _]. destruct (get_wf s ue pdu e Hs He) as [Hwf Hk].
    destruct (attach_wf (sp_ifaces s) e d Hwf) as [Ha Hka]. eexists _, _. split; [done|]. apply put_wf; [done|done|by rewrite Hka].
  + unfold start_sdap_tun_ue. destruct (nr_sdap_get_entity s ue pdu) as [e|] eqn:He; [|by eexists]. cbn [of_opt rbind].
    destruct (sd_is_gnb e); cbn [negb assert_ rbind]; [by eexists|].
    destruct (register_ok s ue pdu sock d e Hs He Hi) as (s' & -> & ?). by eexists _, _.
Qed.

Lemma sdap_step_ok s op : sdap_wf s -> op_ok op -> step_as_said s op.
Proof.
  intros Hs Hop.
  destruct op as [is_gnb ue sock d sdap|ue pdu drb qfis|c ue pdu drb|ue drb pdu|ue pdu|ue|qfi pdu ue|ue pdu sock d|ue pdu sdu qfi rqi|pdcp is_gnb pdu ue buf|ue pdu buf];
    cbn [op_ok] in Hop;
    try (unfold step_as_said; cbn [sdap_step sdap_aborts]).
  - unfold nr_sdap_addmod_entity. destruct (nr_sdap_get_entity s ue (sc_pdusession_id sdap)) as [e|] eqn:He; [by apply update_step|].
    pose proof (add_step s is_gnb ue sock d sdap Hs He Hop) as Ha. destruct (_ && _); [rewrite Ha; by eexists|].
    destruct Ha as (s' & -> & ?). by eexists _, _.
  - unfold nr_sdap_entity_update_qos_flows. destruct (nr_sdap_get_entity s ue pdu) as [e|] eqn:He; [|by eexists _, _].
    destruct Hop as (Hd & Hf & Hl). destruct (get_wf s ue pdu e Hs He) as [Hwf _]. unfold update_qos_flows, SDAP_MAX_QFI.
    rewrite (proj2 (Z.leb_le _ _)) by done. cbn [rbind].
    apply (update_step s ue pdu e (mk_sdap_config pdu drb (entity_role e) (sd_default_drb e =? drb) qfis (qfis_to_release 0 drb qfis (sd_table e))) Hs He).
    split; simpl; [apply entity_role_ok|done|done|apply release_list_ok, (ew_table _ Hwf)].
  - unfold nr_reconfigure_sdap_entity. destruct (nr_sdap_get_entity s ue pdu) as [e|] eqn:He; [|by eexists _, _].
    destruct Hop as (Hd & Ha & Hr). unfold nr_sdap_get_config. rewrite !config_qfis_ok by done. cbn [rbind].
    apply (update_step s ue pdu e (mk_sdap_config (sdap_pdu_Session c) drb (get_sdap_role false c) (sdap_defaultDRB c) _ _) Hs He).
    split; simpl; [apply sdap_role_ok|done|apply Ha|apply Hr].
  - by apply (release_drb_step s).
  - by apply (delete_step s).
  - by apply (delete_ue_step s).
  - by apply (set_qfi_step s).
  - by apply (create_if_step s).
  - destruct (data_req_ok s ue pdu sdu qfi rqi Hs Hop) as [t ->]. by eexists _, _.
  - destruct Hop as [Hp Hb]. unfold sdap_data_ind. destruct (nr_sdap_get_entity s ue pdu) as [e|] eqn:He; [|rewrite andb_false_r; by eexists _, _].
    destruct (get_wf s ue pdu e Hs He) as [Hwf Hk]. pose proof (rx_entity_ok e pdcp is_gnb pdu ue buf Hwf Hp Hb) as Hrx.
    destruct (_ && _); [rewrite Hrx; by eexists|]. destruct Hrx as (e' & outs & -> & Hwf' & Hk'). eexists _, _. split; [done|].
    apply put_wf; [done|done|by rewrite Hk'].
  - destruct (nr_sdap_get_entity s ue pdu) as [e|] eqn:He; [|by eexists _, _].
    destruct (get_wf s ue pdu e Hs He) as [Hwf _]. destruct (tun_read_ok e buf Hwf) as [t ->]. by eexists _, _.
Qed.
