(* ===== verification/SdapProps.v ===== *)
(** The properties of SDAP. *)

From S2P Require Import Prelude Sdap SdapSpec SdapTrace.

(** ** Sequences of operations *)

Lemma sdap_run_ok ops : forall s, sdap_wf s -> Forall op_ok ops ->
  let (outs, r) := sdap_run s ops in
  match r with
  | Ok s' => length outs = length ops /\ sdap_wf s'
  | Fail _ => exists s' op, ops !! length outs = Some op /\ sdap_run s (take (length outs) ops) = (outs, Ok s') /\ sdap_aborts s' op = true
  end.
Proof.
  induction ops as [|op ops IH]; intros s Hs Hf; simpl; [done|]. inversion Hf as [|? ? Hop Hf']; subst.
  pose proof (sdap_step_ok s op Hs Hop) as Hst. unfold step_as_said in Hst. destruct (sdap_aborts s op) eqn:Ha.
  - destruct Hst as (f & ->). by exists s, op.
  - destruct Hst as (s1 & o & Hst & Hs1). rewrite Hst. specialize (IH s1 Hs1 Hf'). destruct (sdap_run s1 ops) as [outs [s2|f]] eqn:Hr.
    + destruct IH as [Hl Hs2]. split; [simpl; by f_equal|done].
    + destruct IH as (s' & op' & Ho & Hr' & Ha'). exists s', op'. simpl. split; [done|]. rewrite Hst. split; [|done]. by rewrite Hr'.
Qed.


(** ** Data *)

Section Data.
Implicit Types (tx rx e : nr_sdap_entity_t).

Lemma submit_dl tx sdu qfi rqi m : table_get tx qfi = Ok m -> bearer_of tx m <> 0 -> has_role (q_role m) SDAP_DL_TX = true ->
  1 <= zlen sdu <= 8999 ->
  nr_sdap_tx_entity tx sdu qfi rqi = Ok (TxSubmit (bearer_of tx m) (dl_hdr_byte (mk_dl_hdr qfi (Z.b2z rqi) 0) :: sdu)).
Proof.
  intros Hm Hb Hr Hl. rewrite (tx_entity_ok _ _ _ _ _ Hm), Hr, andb_false_r.
  rewrite !(proj2 (Z.eqb_neq _ _)) by lia. by rewrite (proj2 (Z.ltb_ge _ _)) by lia.
Qed.

Lemma submit_ul tx sdu qfi rqi m : table_get tx qfi = Ok m -> bearer_of tx m <> 0 -> has_role (q_role m) SDAP_DL_TX = false ->
  has_role (q_role m) SDAP_UL_TX = true -> 1 <= zlen sdu <= 8999 ->
  nr_sdap_tx_entity tx sdu qfi rqi = Ok (TxSubmit (bearer_of tx m) (ul_hdr_byte (mk_ul_hdr qfi 0 (Z.b2z rqi)) :: sdu)).
Proof.
  intros Hm Hb Hd Hu Hl. rewrite (tx_entity_ok _ _ _ _ _ Hm), Hd, Hu. cbn [negb andb].
  rewrite !(proj2 (Z.eqb_neq _ _)) by lia. by rewrite (proj2 (Z.ltb_ge _ _)) by lia.
Qed.

(** An end marker is the number of its flow. *)
Lemma end_marker_byte qfi : qfi_ok qfi -> ul_hdr_byte (nr_sdap_construct_ctrl_pdu qfi) = qfi.
Proof.
  intros Hq. unfold ul_hdr_byte, nr_sdap_construct_ctrl_pdu, three_fields. cbn [ul_QFI ul_R ul_DC].
  change (Z.lor (Z.shiftl (Z.land 0 1) 6) (Z.shiftl (Z.land SDAP_HDR_UL_CTRL_PDU 1) 7)) with 0. rewrite Z.lor_0_r.
  change 63 with (Z.ones 6). rewrite Z.land_ones by lia. by apply Z.mod_small.
Qed.

(** A received PDU of a mapped flow, on the UE and on the gNB. *)
Lemma rx_ue e pdcp pdu_id ue h sdu qfi m : sd_enable_sdap e = true -> table_ok e -> Z.land h 0x3f = qfi -> table_get e qfi = Ok m ->
  q_drb_id m <> 0 -> has_role (q_role m) SDAP_DL_RX = true ->
  nr_sdap_rx_entity e pdcp false pdu_id ue (h :: sdu) =
    let* (e, outs) := if dl_RDI (dl_hdr_of h) =? 1 then reflective_mapping e pdcp ue qfi else Ok (e, []) in
    Ok (e, outs ++ if sd_pdusession_sock e <? 0 then [] else [ToTun (sd_pdusession_sock e) sdu]).
Proof.
  intros Hen He Hh Hm Hd Hr. subst qfi. unfold nr_sdap_rx_entity.
  rewrite (rx_mapping_ok e h sdu m Hen He Hm (land_qfi h)), (proj2 (Z.eqb_neq _ _) Hd). cbn [rbind]. rewrite Hr.
  replace (of_opt FBounds ((h :: sdu) !! 0%nat)) with (Ok h) by done. cbn [rbind]. unfold SDAP_REFLECTIVE_MAPPING.
  unfold dl_hdr_of at 2. cbn [dl_QFI].
  destruct (dl_RDI (dl_hdr_of h) =? 1); cbn [rbind].
  - destruct (reflective_mapping _ _ _ _) as [[e' o]|]; cbn [rbind]; [|done]. destruct (_ <? 0); [by rewrite app_nil_r|done].
  - by destruct (_ <? 0).
Qed.

Lemma rx_gnb e pdcp pdu_id ue h sdu qfi m : sd_enable_sdap e = true -> table_ok e -> Z.land h 0x3f = qfi -> table_get e qfi = Ok m ->
  q_drb_id m <> 0 -> has_role (q_role m) SDAP_UL_RX = true ->
  nr_sdap_rx_entity e pdcp true pdu_id ue (h :: sdu) = Ok (e, [ToGtp ue pdu_id (Some qfi) sdu]).
Proof.
  intros Hen He Hh Hm Hd Hr. subst qfi. pose proof (land_qfi h) as Hq. unfold nr_sdap_rx_entity.
  rewrite (rx_mapping_ok e h sdu m Hen He Hm Hq), (proj2 (Z.eqb_neq _ _) Hd). cbn [rbind]. rewrite Hr.
  unfold SDAP_MAX_QFI. rewrite (proj2 (Z.leb_le _ _)), (proj2 (Z.ltb_lt _ 64)) by lia. cbn [andb assert_ rbind].
  replace (of_opt FBounds ((h :: sdu) !! 0%nat)) with (Ok h) by done. cbn [rbind]. unfold ul_hdr_of. cbn [ul_QFI]. by rewrite Z.eqb_refl.
Qed.

End Data.

(** The two ends of a flow: the sender has a bearer for it, the receiver a rule. *)
Record flow_between (tx rx : nr_sdap_entity_t) (qfi : Z) (mt mr : qfi2drb_t) : Prop := {
  fb_qfi : qfi_ok qfi;
  fb_tx : table_get tx qfi = Ok mt;
  fb_bearer : bearer_of tx mt <> 0;
  fb_enabled : sd_enable_sdap rx = true;
  fb_table : table_ok rx;
  fb_rx : table_get rx qfi = Ok mr;
  fb_rule : q_drb_id mr <> 0
}.

(** C20. An SDU of 1 to 8999 bytes of a flow that both ends keep with headers
    comes over: the sender's entry of the flow leads to a bearer and the
    receiver has a rule for the flow ([flow_between]), and both have the role of
    the header of the direction.  In downlink the SDU comes out of the interface
    of the UE, in uplink it goes to the core network marked with its flow; there
    is no other output, and the receiver's rules stay as they are.  Nothing is
    said of bearers without headers, where an uplink SDU is not marked, nor of a
    flow without a rule, which goes to the default bearer without a header and
    whose first byte the receiver may take for one. *)
Theorem sdap_data_roundtrip tx rx qfi mt mr sdu rqi pdcp pdu_id ue :
  flow_between tx rx qfi mt mr -> 1 <= zlen sdu <= 8999 ->
  (has_role (q_role mt) SDAP_DL_TX = true -> has_role (q_role mr) SDAP_DL_RX = true -> 0 <= sd_pdusession_sock rx ->
    exists pdu, nr_sdap_tx_entity tx sdu qfi rqi = Ok (TxSubmit (bearer_of tx mt) pdu) /\
      nr_sdap_rx_entity rx pdcp false pdu_id ue pdu = Ok (rx, [ToTun (sd_pdusession_sock rx) sdu])) /\
  (has_role (q_role mt) SDAP_DL_TX = false -> has_role (q_role mt) SDAP_UL_TX = true -> has_role (q_role mr) SDAP_UL_RX = true ->
    exists pdu, nr_sdap_tx_entity tx sdu qfi rqi = Ok (TxSubmit (bearer_of tx mt) pdu) /\
      nr_sdap_rx_entity rx pdcp true pdu_id ue pdu = Ok (rx, [ToGtp ue pdu_id (Some qfi) sdu])).
Proof.
  intros [Hq Htx Hb Hen Ht Hrx Hd] Hl. pose proof (b2z_bit rqi) as Hbit. split.
  - intros H1 H2 Hs. eexists. split; [by apply submit_dl|]. unfold dl_hdr_byte. cbn [dl_QFI dl_RQI dl_RDI].
    destruct (three_fields_ok qfi (Z.b2z rqi) 0 Hq Hbit ltac:(lia)) as (Hf & _ & Hr & _).
    rewrite (rx_ue rx pdcp pdu_id ue _ sdu qfi mr Hen Ht Hf Hrx Hd H2). unfold dl_hdr_of. cbn [dl_RDI]. rewrite Hr. cbn [Z.eqb rbind].
    by rewrite (proj2 (Z.ltb_ge _ _)) by lia.
  - intros H0 H1 H2. eexists. split; [by apply submit_ul|]. unfold ul_hdr_byte. cbn [ul_QFI ul_R ul_DC].
    destruct (three_fields_ok qfi 0 (Z.b2z rqi) Hq ltac:(lia) Hbit) as (Hf & _). by apply (rx_gnb rx pdcp pdu_id ue _ sdu qfi mr).
Qed.

(** C21. The list of flows that the control plane gives for a bearer replaces the
    mapping of that bearer, if the entity may have it (one without headers has
    one bearer, a second one stops the process): its flows are mapped to it with
    the headers of the entity, the other flows that were on it have no rule any
    more, and the rules of the other bearers stay, unless one of their flows is
    in the list.  No other entity is touched, and a gNB sends nothing. *)
Theorem sdap_update_qos_flows_spec s ue pdu drb_id qfis e :
  sdap_wf s -> nr_sdap_get_entity s ue pdu = Some e -> drb_ok drb_id -> flows_ok qfis -> one_bearer e drb_id = true ->
  exists s' outs e', nr_sdap_entity_update_qos_flows s ue pdu drb_id qfis = Ok (s', outs) /\
    nr_sdap_get_entity s' ue pdu = Some e' /\ (sd_is_gnb e = true -> outs = []) /\
    (forall q m, qfi_ok q -> table_get e q = Ok m ->
      table_get e' q = Ok (if decide (q ∈ qfis) then mk_qfi2drb drb_id (entity_role e)
                           else if decide (q_drb_id m = drb_id) then mk_qfi2drb 0 0 else m)) /\
    forall ue' pdu', (ue', pdu') <> (ue, pdu) -> nr_sdap_get_entity s' ue' pdu' = nr_sdap_get_entity s ue' pdu'.
Proof.
  intros Hs He Hd [Hf Hl] Hone. destruct (get_wf s ue pdu e Hs He) as [Hwf Hk]. pose proof (ew_table _ Hwf) as Ht.
  set (rel := qfis_to_release 0 drb_id qfis (sd_table e)).
  pose proof (release_list_ok e drb_id qfis Ht) as Hrel. fold rel in Hrel.
  set (cfg := mk_sdap_config pdu drb_id (entity_role e) (sd_default_drb e =? drb_id) qfis rel).
  assert (Hcfg : config_ok cfg) by (split; simpl; [apply entity_role_ok|unfold drb_ok in Hd; lia|done|done]).
  destruct (map_update_ok e cfg Ht Hcfg) as [_ Hu].
  destruct (Hu Hone) as (outs & Hup & Ho). unfold nr_sdap_entity_update_qos_flows. rewrite He. unfold update_qos_flows, SDAP_MAX_QFI.
  rewrite (proj2 (Z.leb_le _ _) Hl). cbn [rbind]. fold rel. fold cfg. rewrite Hup. cbn [rbind].
  eexists _, outs, _. split; [done|]. apply is_entity_key in Hk.
  split; [by apply (get_put_eq ue pdu (sp_entities s) e)|]. split; [done|]. split.
  - intros q m Hq Hm. apply table_get_lookup in Hm. apply table_get_lookup. cbn [sd_table].
    rewrite (configured_lookup cfg (sd_table e) q Hcfg Hd Ht Hq). cbn [sc_mappedQFIs2Release sc_mappedQFIs2Add sc_drb_id sc_role cfg].
    assert (Hin : q ∈ rel <-> q_drb_id m = drb_id /\ q ∉ qfis).
    { unfold rel. rewrite qfis_to_release_elem, Z.sub_0_r. unfold zlen. rewrite Ht. unfold qfi_ok in Hq. split.
      - intros (_ & (m' & Hm' & <-) & Hn). rewrite Hm in Hm'. by injection Hm' as <-.
      - intros [<- Hn]. split; [lia|]. split; [by exists m|done]. }
    destruct (decide (q ∈ qfis)); destruct (decide (q_drb_id m = drb_id)); destruct (decide (q ∈ rel)); naive_solver.
  - intros ue' pdu' Hne. by apply get_put_ne.
Qed.

(** Reflective mapping of the UE.  A downlink PDU that asks for it on another
    bearer than the flow is mapped to moves the flow: the end marker goes out on
    the old bearer before anything goes on the new one, and the SDU is delivered.
    A flow without a rule is not mapped, although the comments say that its end
    marker goes to the default bearer: its PDU is dropped before. *)
Theorem sdap_reflective_mapping_spec e m qfi rqi pdcp pdu_id ue sdu :
  entity_wf e -> sd_enable_sdap e = true -> qfi_ok qfi -> 0 < pdcp -> 0 <= rqi < 2 -> table_get e qfi = Ok m ->
  let pdu := dl_hdr_byte (mk_dl_hdr qfi rqi 1) :: sdu in
  (q_drb_id m = 0 -> nr_sdap_rx_entity e pdcp false pdu_id ue pdu = Ok (e, [])) /\
  (q_drb_id m <> 0 -> has_role (q_role m) SDAP_DL_RX = true -> 0 <= sd_pdusession_sock e ->
    exists e', nr_sdap_rx_entity e pdcp false pdu_id ue pdu =
        Ok (e', (if decide (q_drb_id m = pdcp) then [] else [ToPdcp ue (q_drb_id m) [qfi]]) ++ [ToTun (sd_pdusession_sock e) sdu]) /\
      nr_sdap_qfi2drb e' qfi = Ok pdcp /\ forall q, q <> qfi -> qfi_ok q -> table_get e' q = table_get e q).
Proof.
  intros Hwf Hen Hq Hp Hb Hm pdu. pose proof (ew_table _ Hwf) as Ht.
  destruct (three_fields_ok qfi rqi 1 Hq Hb ltac:(lia)) as (Hf & _ & Hr & _).
  subst pdu. unfold dl_hdr_byte. cbn [dl_QFI dl_RQI dl_RDI]. split.
  - intros Hd. unfold nr_sdap_rx_entity. rewrite (rx_mapping_ok e _ sdu m Hen Ht) by (rewrite ?Hf; done).
    by rewrite (proj2 (Z.eqb_eq _ _) Hd).
  - intros Hd Hdl Hs. rewrite (rx_ue e pdcp pdu_id ue _ sdu qfi m Hen Ht Hf Hm Hd Hdl). unfold dl_hdr_of. cbn [dl_RDI]. rewrite Hr. cbn [Z.eqb Pos.eqb].
    rewrite (reflective_ok e pdcp ue qfi m Ht Hq Hm), (proj2 (Z.eqb_neq _ _) Hd). cbn [andb rbind]. simpl sd_pdusession_sock.
    rewrite (proj2 (Z.ltb_ge _ _)) by lia. eexists. split; [|split].
    + destruct (Z.eqb_spec pdcp (q_drb_id m)) as [Heq|Hne]; cbn [negb app].
      * by rewrite decide_True by done.
      * rewrite decide_False by congruence. unfold nr_sdap_submit_ctrl_pdu, bearer_of. rewrite (proj2 (Z.eqb_neq _ 0) Hd). simpl.
        by rewrite (end_marker_byte qfi Hq), (proj2 (Z.eqb_neq _ 0) Hd).
    + rewrite (qfi2drb_ok _ _ {| m with q_drb_id := pdcp |}).
      * unfold bearer_of. simpl. by rewrite (proj2 (Z.eqb_neq _ _)) by lia.
      * apply table_get_lookup. simpl. apply list_lookup_insert_eq. rewrite Ht. unfold qfi_ok in Hq. lia.
    + intros q Hne Hq'. unfold table_get. simpl. rewrite list_lookup_insert_ne; [done|]. unfold qfi_ok in *. lia.
Qed.

(** ** Examples *)

(** The gNB gives a session two bearers, a default one with flow 1 and another
    with flow 5, sends downlink and receives uplink; then flow 5 moves and the
    session ends. *)
Definition example_config (drb_id : Z) (default : bool) (qfis : list Z) : sdap_config_t :=
  mk_sdap_config 10 drb_id (Z.lor SDAP_UL_RX SDAP_DL_TX) default qfis [].

Definition example_ops : list sdap_op :=
  [OpAddMod true 1 (-1) (-1) (example_config 1 true [1]);
   OpAddMod true 1 (-1) (-1) (example_config 2 false [5]);
   OpDataReq 1 10 [0xaa; 0xbb] 5 false;
   OpDataInd 2 true 10 1 [0x85; 0xcc];
   OpUpdateQos 1 10 1 [1; 5];
   OpDataReq 1 10 [0xaa; 0xbb] 5 true;
   OpDeleteUe 1].

Lemma example_ops_run : sdap_run (mk_sdap [] []) example_ops =
  ([[]; []; [ToPdcp 1 2 [5; 0xaa; 0xbb]]; [ToGtp 1 10 (Some 5) [0xcc]]; []; [ToPdcp 1 1 [0x45; 0xaa; 0xbb]]; []], Ok (mk_sdap [] [])).
Proof. reflexivity. Qed.

Lemma example_config_ok drb_id b qfis : 0 <= drb_id -> Forall qfi_ok qfis -> config_ok (example_config drb_id b qfis).
Proof. intros. by split; [cbn| | |constructor]. Qed.

Lemma example_flows_ok : Forall qfi_ok [1; 5].
Proof. repeat constructor; by vm_compute. Qed.

Lemma example_ops_ok : Forall op_ok example_ops.
Proof.
  pose proof example_flows_ok as Hf. inversion Hf as [|? ? H1 Hf']. inversion Hf' as [|? ? H5 _].
  assert (F1 : Forall qfi_ok [1]) by (by constructor). assert (F5 : Forall qfi_ok [5]) by (by constructor).
  repeat constructor; cbn [op_ok]; try done; try (split; done); by apply example_config_ok.
Qed.


(** A session with flow 5 on bearer 2, and 1 as default bearer: at the gNB and at
    the UE. *)
Definition example_end (is_gnb : bool) : nr_sdap_entity_t :=
  mk_sdap_entity 1 1 is_gnb true 10 7 false 0
    (<[5%nat := mk_qfi2drb 2 (entity_role (mk_sdap_entity 1 1 is_gnb true 10 7 false 0 []))]> (replicate 64 (mk_qfi2drb 0 0))).

Lemma example_flow (b : bool) : flow_between (example_end b) (example_end (negb b)) 5
  (mk_qfi2drb 2 (if b then 6 else 9)) (mk_qfi2drb 2 (if negb b then 6 else 9)).
Proof. destruct b; (split; [unfold qfi_ok; lia|done..]). Qed.

Lemma sdap_data_roundtrip_witness :
  (exists pdu, nr_sdap_tx_entity (example_end true) [1; 2] 5 false = Ok (TxSubmit 2 pdu) /\
    nr_sdap_rx_entity (example_end false) 2 false 10 1 pdu = Ok (example_end false, [ToTun 7 [1; 2]])) /\
  (exists pdu, nr_sdap_tx_entity (example_end false) [1; 2] 5 true = Ok (TxSubmit 2 pdu) /\
    nr_sdap_rx_entity (example_end true) 2 true 10 1 pdu = Ok (example_end true, [ToGtp 1 10 (Some 5) [1; 2]])).
Proof.
  split.
  - destruct (sdap_data_roundtrip _ _ _ _ _ [1; 2] false 2 10 1 (example_flow true) ltac:(vm_compute; split; congruence)) as [H _].
    apply H; [reflexivity|reflexivity|vm_compute; congruence].
  - destruct (sdap_data_roundtrip _ _ _ _ _ [1; 2] true 2 10 1 (example_flow false) ltac:(vm_compute; split; congruence)) as [_ H].
    apply H; reflexivity.
Defined.

Lemma example_end_wf b : entity_wf (example_end b).
Proof.
  split; [reflexivity|unfold qfi_ok; simpl; lia| |simpl; lia]. unfold example_end. cbn [sd_table].
  apply Forall_insert; [by apply Forall_replicate|simpl; lia].
Qed.

Lemma example_registry_wf : sdap_wf (mk_sdap [example_end true] []).
Proof. split; [repeat constructor; apply (example_end_wf true)|cbn; apply NoDup_singleton|constructor]. Qed.

(** Flow 6 takes the place of flow 5 on bearer 2. *)
Lemma sdap_update_qos_flows_spec_witness :
  exists s' outs e', nr_sdap_entity_update_qos_flows (mk_sdap [example_end true] []) 1 10 2 [6] = Ok (s', outs) /\
    nr_sdap_get_entity s' 1 10 = Some e' /\ outs = [] /\
    table_get e' 6 = Ok (mk_qfi2drb 2 6) /\ table_get e' 5 = Ok (mk_qfi2drb 0 0).
Proof.
  destruct (sdap_update_qos_flows_spec (mk_sdap [example_end true] []) 1 10 2 [6] (example_end true) example_registry_wf)
    as (s' & outs & e' & H1 & H2 & H3 & H4 & _); [reflexivity|unfold drb_ok; lia|split; [repeat constructor; unfold qfi_ok; lia|vm_compute; congruence]|reflexivity|].
  exists s', outs, e'. split; [exact H1|]. split; [exact H2|]. split; [apply H3; reflexivity|]. split.
  - rewrite (H4 6 (mk_qfi2drb 0 0)); [reflexivity|unfold qfi_ok; lia|reflexivity].
  - rewrite (H4 5 (mk_qfi2drb 2 6)); [reflexivity|unfold qfi_ok; lia|reflexivity].
Defined.

Lemma sdap_reflective_mapping_spec_witness :
  exists e', nr_sdap_rx_entity (example_end false) 3 false 10 1 [0x85; 0xaa] =
      Ok (e', [ToPdcp 1 2 [5]; ToTun 7 [0xaa]]) /\ nr_sdap_qfi2drb e' 5 = Ok 3.
Proof.
  destruct (sdap_reflective_mapping_spec (example_end false) (mk_qfi2drb 2 9) 5 0 3 10 1 [0xaa] (example_end_wf false)) as [_ H];
    [reflexivity|unfold qfi_ok; lia|lia|lia|reflexivity|].
  destruct H as (e' & H1 & H2 & _); [simpl; lia|reflexivity|simpl; lia|]. exists e'. split; [exact H1|exact H2].
Defined.
