(* ===== verification/Hashtable.v ===== *)
(** The hash table of OpenAirInterface (common/utils/ds/hashtable.c): chains of
    nodes in an array, and its iterator.  The table refines a finite map,
    whatever the hash function, and its iterator visits every entry once.

    A pointer to data is a value of type [A] ([None] is NULL); the calls of
    [freefunc] are returned, in their order. *)

From S2P Require Import Prelude.

Inductive hashtable_rc_t :=
| HASH_TABLE_OK
| HASH_TABLE_INSERT_OVERWRITTEN_DATA
| HASH_TABLE_KEY_NOT_EXISTS
| HASH_TABLE_BAD_PARAMETER_HASHTABLE.

#[global] Instance hashtable_rc_eq_dec : EqDecision hashtable_rc_t.
Proof. solve_decision. Defined.

Section Hashtable.
Context {A : Type}.

Record hash_node_t := mk_hash_node { hn_key : Z; hn_data : option A }.

Record hash_table_t := mk_hash_table {
  ht_size : Z;
  ht_nodes : list (list hash_node_t);
  ht_hashfunc : Z -> Z
}.

(** The index is an [int]; the node of the iterator is the rest of a chain. *)
Record hash_table_iterator_s := mk_hash_iterator { hi_index : Z; hi_node : list hash_node_t }.

Implicit Types (t : hash_table_t) (chain : list hash_node_t).

(** ** Operations *)

Definition def_hashfunc (keyP : Z) : Z := keyP.

Definition hashtable_create (sizeP : Z) (hashfuncP : option (Z -> Z)) : hash_table_t :=
  mk_hash_table sizeP (replicate (Z.to_nat sizeP) []) (default def_hashfunc hashfuncP).

Definition freed (d : option A) : list A := match d with Some a => [a] | None => [] end.

Definition hashtable_destroy (hashtblP : option hash_table_t) : hashtable_rc_t * list A :=
  match hashtblP with
  | None => (HASH_TABLE_BAD_PARAMETER_HASHTABLE, [])
  | Some t => (HASH_TABLE_OK, flat_map (flat_map (fun n => freed (hn_data n))) (ht_nodes t))
  end.

(** A table of size 0 divides by zero. *)
Definition hash_of t (keyP : Z) : res nat :=
  if ht_size t =? 0 then Fail FBounds else Ok (Z.to_nat (u64 (ht_hashfunc t keyP) mod ht_size t)).

Definition chain_of t (hash : nat) : res (list hash_node_t) := of_opt FBounds (ht_nodes t !! hash).

Fixpoint find_key (keyP : Z) chain : option hash_node_t :=
  match chain with
  | [] => None
  | node :: chain' => if hn_key node =? keyP then Some node else find_key keyP chain'
  end.

Definition hashtable_is_key_exists (hashtblP : option hash_table_t) (keyP : Z) : res hashtable_rc_t :=
  match hashtblP with
  | None => Ok HASH_TABLE_BAD_PARAMETER_HASHTABLE
  | Some t =>
      let* hash := hash_of t keyP in
      let* chain := chain_of t hash in
      match find_key keyP chain with
      | Some _ => Ok HASH_TABLE_OK
      | None => Ok HASH_TABLE_KEY_NOT_EXISTS
      end
  end.

Definition hashtable_get (hashtblP : option hash_table_t) (keyP : Z) : res (hashtable_rc_t * option A) :=
  match hashtblP with
  | None => Ok (HASH_TABLE_BAD_PARAMETER_HASHTABLE, None)
  | Some t =>
      let* hash := hash_of t keyP in
      let* chain := chain_of t hash in
      match find_key keyP chain with
      | Some node => Ok (HASH_TABLE_OK, hn_data node)
      | None => Ok (HASH_TABLE_KEY_NOT_EXISTS, None)
      end
  end.

Definition set_chain t (hash : nat) chain : hash_table_t := {| t with ht_nodes := <[hash := chain]> (ht_nodes t) |}.

(** The walk of [hashtable_insert]: the chain with the data replaced, and the
    old data. *)
Fixpoint replace_data (keyP : Z) (dataP : option A) chain : option (list hash_node_t * list A) :=
  match chain with
  | [] => None
  | node :: chain' =>
      if hn_key node =? keyP then Some ({| node with hn_data := dataP |} :: chain', freed (hn_data node))
      else match replace_data keyP dataP chain' with
           | Some (chain'', old) => Some (node :: chain'', old)
           | None => None
           end
  end.

Definition hashtable_insert (hashtblP : option hash_table_t) (keyP : Z) (dataP : option A)
    : res (option hash_table_t * hashtable_rc_t * list A) :=
  match hashtblP with
  | None => Ok (None, HASH_TABLE_BAD_PARAMETER_HASHTABLE, [])
  | Some t =>
      let* hash := hash_of t keyP in
      let* chain := chain_of t hash in
      match replace_data keyP dataP chain with
      | Some (chain, old) => Ok (Some (set_chain t hash chain), HASH_TABLE_INSERT_OVERWRITTEN_DATA, old)
      | None => Ok (Some (set_chain t hash (mk_hash_node keyP dataP :: chain)), HASH_TABLE_OK, [])
      end
  end.

(** The walk of [hashtable_remove]. *)
Fixpoint unlink_key (keyP : Z) chain : option (list hash_node_t * list A) :=
  match chain with
  | [] => None
  | node :: chain' =>
      if hn_key node =? keyP then Some (chain', freed (hn_data node))
      else match unlink_key keyP chain' with
           | Some (chain'', old) => Some (node :: chain'', old)
           | None => None
           end
  end.

Definition hashtable_remove (hashtblP : option hash_table_t) (keyP : Z)
    : res (option hash_table_t * hashtable_rc_t * list A) :=
  match hashtblP with
  | None => Ok (None, HASH_TABLE_BAD_PARAMETER_HASHTABLE, [])
  | Some t =>
      let* hash := hash_of t keyP in
      let* chain := chain_of t hash in
      match unlink_key keyP chain with
      | Some (chain, old) => Ok (Some (set_chain t hash chain), HASH_TABLE_OK, old)
      | None => Ok (Some t, HASH_TABLE_KEY_NOT_EXISTS, [])
      end
  end.

Definition hashtable_get_iterator t : res hash_table_iterator_s :=
  let* node := chain_of t 0 in
  Ok (mk_hash_iterator 0 node).

(** [index++] of an [int], whose overflow is undefined. *)
Definition index_incr (index : Z) : res Z := if index <? 2 ^ 31 - 1 then Ok (index + 1) else Fail FBounds.

(** The loop over the empty chains.  The comparison turns the [int] into a
    [size_t]. *)
Fixpoint next_chain (fuel : nat) t (it : hash_table_iterator_s) : res (hash_table_iterator_s * bool) :=
  match hi_node it with
  | _ :: _ => Ok (it, true)
  | [] =>
      match fuel with
      | O => Fail FFuel
      | S fuel =>
          let* index := index_incr (hi_index it) in
          if ht_size t <=? u64 index then Ok (mk_hash_iterator index [], false)
          else
            let* node := chain_of t (Z.to_nat index) in
            next_chain fuel t (mk_hash_iterator index node)
      end
  end.

(** [None]: the iteration is over. *)
Definition hashtable_iterator_getnext t (it : hash_table_iterator_s) : res (hash_table_iterator_s * option (option A)) :=
  let* (it, found) := next_chain (Z.to_nat (Z.max 1 (ht_size t - hi_index it))) t it in
  match hi_node it with
  | node :: rest => Ok ({| it with hi_node := rest |}, if found then Some (hn_data node) else None)
  | [] => Ok (it, None)
  end.

(** How the callers iterate: until [getnext] returns false. *)
Fixpoint iterate (fuel : nat) t (it : hash_table_iterator_s) : res (list (option A)) :=
  match fuel with
  | O => Fail FFuel
  | S fuel =>
      let* (it, d) := hashtable_iterator_getnext t it in
      match d with
      | None => Ok []
      | Some d => let* l := iterate fuel t it in Ok (d :: l)
      end
  end.

End Hashtable.
Arguments hash_node_t A : clear implicits.
Arguments hash_table_t A : clear implicits.
Arguments hash_table_iterator_s A : clear implicits.

Section Spec.
Context {A : Type}.
Implicit Types (t : hash_table_t A) (chain : list (hash_node_t A)) (m : gmap Z (option A)).

(** ** Chains *)

Lemma find_key_elem k chain n : NoDup (map hn_key chain) -> find_key k chain = Some n <-> n ∈ chain /\ hn_key n = k.
Proof.
  induction chain as [|x chain IH]; simpl; [set_solver|]. rewrite NoDup_cons. intros [Hx Hn]. rewrite elem_of_cons.
  destruct (Z.eqb_spec (hn_key x) k) as [<-|Hne].
  - split; [intros [= ->]; auto|]. intros [[->|Hin] Hk]; [done|]. exfalso. apply Hx. rewrite <- Hk. apply list_elem_of_fmap. by exists n.
  - rewrite (IH Hn). naive_solver.
Qed.

Lemma replace_data_spec k d chain :
  match replace_data k d chain with
  | Some (chain', old) => exists n, find_key k chain = Some n /\ old = freed (hn_data n) /\ map hn_key chain' = map hn_key chain /\
      forall k', find_key k' chain' = if decide (k' = k) then Some (mk_hash_node k d) else find_key k' chain
  | None => find_key k chain = None
  end.
Proof.
  induction chain as [|x chain IH]; simpl; [done|]. destruct (Z.eqb_spec (hn_key x) k) as [<-|Hne].
  - exists x. split; [done|]. split; [done|]. split; [done|]. intros k'. simpl. case_decide as Hd; destruct (Z.eqb_spec (hn_key x) k'); congruence.
  - destruct (replace_data k d chain) as [[chain' old]|]; [|done]. destruct IH as (n & Hf & Ho & Hk & Hl).
    exists n. split; [done|]. split; [done|]. split; [simpl; by rewrite Hk|]. intros k'. simpl. rewrite Hl.
    case_decide as Hd; destruct (Z.eqb_spec (hn_key x) k'); congruence.
Qed.

Lemma unlink_key_spec k chain : NoDup (map hn_key chain) ->
  match unlink_key k chain with
  | Some (chain', old) => exists n, find_key k chain = Some n /\ old = freed (hn_data n) /\ sublist chain' chain /\
      forall k', find_key k' chain' = if decide (k' = k) then None else find_key k' chain
  | None => find_key k chain = None
  end.
Proof.
  induction chain as [|x chain IH]; simpl; [done|]. intros [Hx Hn]%NoDup_cons. destruct (Z.eqb_spec (hn_key x) k) as [<-|Hne].
  - exists x. split; [done|]. split; [done|]. split; [by apply sublist_cons|]. intros k'. case_decide as Hd.
    + subst k'. destruct (find_key (hn_key x) chain) as [n|] eqn:Hf; [|done]. apply find_key_elem in Hf as [Hin Hk]; [|done].
      exfalso. apply Hx. rewrite <- Hk. apply list_elem_of_fmap. by exists n.
    + destruct (Z.eqb_spec (hn_key x) k'); congruence.
  - specialize (IH Hn). destruct (unlink_key k chain) as [[chain' old]|]; [|done]. destruct IH as (n & Hf & Ho & Hs & Hl).
    exists n. split; [done|]. split; [done|]. split; [by apply sublist_skip|]. intros k'. simpl. rewrite Hl.
    case_decide as Hd; destruct (Z.eqb_spec (hn_key x) k'); congruence.
Qed.

(** ** Tables *)

Definition bucket t (k : Z) : nat := Z.to_nat (u64 (ht_hashfunc t k) mod ht_size t).

Record ht_wf t : Prop := {
  hw_size : 0 < ht_size t;
  hw_length : zlen (ht_nodes t) = ht_size t;
  hw_chains : forall i chain, ht_nodes t !! i = Some chain ->
    NoDup (map hn_key chain) /\ Forall (fun n => bucket t (hn_key n) = i) chain
}.

Definition ht_find t (k : Z) : option (option A) :=
  match ht_nodes t !! bucket t k with
  | Some chain => hn_data <$> find_key k chain
  | None => None
  end.

(** The table holds the entries of the map. *)
Record ht_rep t m : Prop := { hr_wf : ht_wf t; hr_map : forall k, m !! k = ht_find t k }.

Lemma bucket_chain t k : ht_wf t -> exists chain, hash_of t k = Ok (bucket t k) /\ chain_of t (bucket t k) = Ok chain /\
  ht_nodes t !! bucket t k = Some chain /\ NoDup (map hn_key chain) /\ Forall (fun n => bucket t (hn_key n) = bucket t k) chain /\
  ht_find t k = hn_data <$> find_key k chain.
Proof.
  intros [Hs Hl Hc]. destruct (lookup_lt_is_Some_2 (ht_nodes t) (bucket t k)) as [chain Hn].
  { unfold bucket, zlen in *. pose proof (Z.mod_pos_bound (u64 (ht_hashfunc t k)) _ Hs). lia. }
  destruct (Hc _ _ Hn). exists chain. unfold hash_of, chain_of, ht_find. rewrite (proj2 (Z.eqb_neq _ _)) by lia. by rewrite Hn.
Qed.

Lemma set_chain_ok t k chain' : ht_wf t -> NoDup (map hn_key chain') ->
  Forall (fun n => bucket t (hn_key n) = bucket t k) chain' ->
  ht_wf (set_chain t (bucket t k) chain') /\
  forall k', ht_find (set_chain t (bucket t k) chain') k' =
    if decide (bucket t k' = bucket t k) then hn_data <$> find_key k' chain' else ht_find t k'.
Proof.
  intros Hw Hn Hf. destruct (bucket_chain t k Hw) as (chain & _ & _ & Hch & _). destruct Hw as [Hs Hl Hc].
  pose proof (lookup_lt_Some _ _ _ Hch) as Hlt.
  split; [split; simpl; [done|unfold zlen in *; by rewrite length_insert|]|].
  - intros i c Hi. change (bucket (set_chain _ _ _)) with (bucket t). apply list_lookup_insert_Some in Hi as [(<- & <- & _)|[_ Hi]]; [done|by apply Hc].
  - intros k'. unfold ht_find. change (bucket (set_chain _ _ _) k') with (bucket t k'). simpl. case_decide as Hd.
    + by rewrite Hd, list_lookup_insert_eq.
    + by rewrite list_lookup_insert_ne by done.
Qed.

(** ** Operations against a finite map *)

Inductive hash_op :=
| HInsert (k : Z) (d : option A)
| HRemove (k : Z)
| HGet (k : Z)
| HExists (k : Z).

(** The code, the data read, and the data given to [freefunc]. *)
Abbreviation hash_out := (hashtable_rc_t * option A * list A)%type.

Definition hash_step (t : option (hash_table_t A)) (op : hash_op) : res (option (hash_table_t A) * hash_out) :=
  match op with
  | HInsert k d => let* (t, rc, old) := hashtable_insert t k d in Ok (t, (rc, None, old))
  | HRemove k => let* (t, rc, old) := hashtable_remove t k in Ok (t, (rc, None, old))
  | HGet k => let* (rc, d) := hashtable_get t k in Ok (t, (rc, d, []))
  | HExists k => let* rc := hashtable_is_key_exists t k in Ok (t, (rc, None, []))
  end.

Definition map_step m (op : hash_op) : gmap Z (option A) * hash_out :=
  match op with
  | HInsert k d =>
      (<[k := d]> m, match m !! k with
                     | Some old => (HASH_TABLE_INSERT_OVERWRITTEN_DATA, None, freed old)
                     | None => (HASH_TABLE_OK, None, [])
                     end)
  | HRemove k =>
      (delete k m, match m !! k with
                   | Some old => (HASH_TABLE_OK, None, freed old)
                   | None => (HASH_TABLE_KEY_NOT_EXISTS, None, [])
                   end)
  | HGet k => (m, match m !! k with Some d => (HASH_TABLE_OK, d, []) | None => (HASH_TABLE_KEY_NOT_EXISTS, None, []) end)
  | HExists k => (m, (match m !! k with Some _ => HASH_TABLE_OK | None => HASH_TABLE_KEY_NOT_EXISTS end, None, []))
  end.

Lemma bucket_eq t k k' : k' = k -> bucket t k' = bucket t k.
Proof. by intros ->. Qed.

Lemma insert_ok t m k d : ht_rep t m -> exists t', hash_step (Some t) (HInsert k d) = Ok (Some t', (map_step m (HInsert k d)).2) /\
  ht_rep t' (<[k := d]> m).
Proof.
  intros [Hw Hm]. destruct (bucket_chain t k Hw) as (chain & Hh & Hc & Hn & Hnd & Hf & Hk). simpl. rewrite Hh. cbn [rbind]. rewrite Hc. cbn [rbind].
  rewrite Hm, Hk. pose proof (replace_data_spec k d chain) as Hr. destruct (replace_data k d chain) as [[chain' old]|].
  - destruct Hr as (n & Hfn & -> & Hkeys & Hl). rewrite Hfn. eexists. split; [done|].
    destruct (set_chain_ok t k chain' Hw) as [Hw' Hg]; [by rewrite Hkeys| |].
    { apply (Forall_map hn_key (fun k' => bucket t k' = bucket t k)). rewrite Hkeys. by apply Forall_map. }
    split; [done|]. intros k'. rewrite Hg. case_decide as Hb; rewrite ?Hl.
    + case_decide as He; [subst; by rewrite lookup_insert_eq|]. rewrite lookup_insert_ne, Hm by done. unfold ht_find. by rewrite Hb, Hn.
    + rewrite lookup_insert_ne; [done|]. intros ->. done.
  - rewrite Hr. eexists. split; [done|].
    destruct (set_chain_ok t k (mk_hash_node k d :: chain) Hw) as [Hw' Hg]; [|by constructor|].
    { simpl. constructor; [|done]. intros (n & Hkn & Hin)%list_elem_of_fmap. assert (Hs : find_key k chain = Some n) by (by apply find_key_elem). congruence. }
    split; [done|]. intros k'. rewrite Hg. simpl. case_decide as Hb; destruct (Z.eqb_spec k k') as [<-|Hne].
    + by rewrite lookup_insert_eq.
    + rewrite lookup_insert_ne, Hm by done. unfold ht_find. by rewrite Hb, Hn.
    + done.
    + by rewrite lookup_insert_ne, Hm.
Qed.

Lemma remove_ok t m k : ht_rep t m -> exists t', hash_step (Some t) (HRemove k) = Ok (Some t', (map_step m (HRemove k)).2) /\
  ht_rep t' (delete k m).
Proof.
  intros [Hw Hm]. destruct (bucket_chain t k Hw) as (chain & Hh & Hc & Hn & Hnd & Hf & Hk). simpl. rewrite Hh. cbn [rbind]. rewrite Hc. cbn [rbind].
  rewrite Hm, Hk. pose proof (unlink_key_spec k chain Hnd) as Hr. destruct (unlink_key k chain) as [[chain' old]|].
  - destruct Hr as (n & Hfn & -> & Hs & Hl). rewrite Hfn. eexists. split; [done|].
    destruct (set_chain_ok t k chain' Hw) as [Hw' Hg].
    { eapply sublist_NoDup; [exact Hnd|by apply sublist_map]. }
    { by eapply sublist_forall. }
    split; [done|]. intros k'. rewrite Hg. case_decide as Hb; rewrite ?Hl.
    + case_decide as He; [subst; by rewrite lookup_delete_eq|]. rewrite lookup_delete_ne, Hm by done. unfold ht_find. by rewrite Hb, Hn.
    + rewrite lookup_delete_ne; [done|]. intros ->. done.
  - rewrite Hr. eexists. split; [done|]. split; [done|]. intros k'. destruct (decide (k' = k)) as [->|He].
    + by rewrite lookup_delete_eq, Hk, Hr.
    + by rewrite lookup_delete_ne.
Qed.

Lemma hash_step_ok t m op : ht_rep t m ->
  exists t', hash_step (Some t) op = Ok (Some t', (map_step m op).2) /\ ht_rep t' (map_step m op).1.
Proof.
  intros Hr. destruct op as [k d|k|k|k]; [by apply insert_ok|by apply remove_ok|..];
    (exists t; split; [|done]; destruct Hr as [Hw Hm]; destruct (bucket_chain t k Hw) as (chain & Hh & Hc & _ & _ & _ & Hk);
     simpl; rewrite Hh; cbn [rbind]; rewrite Hc; cbn [rbind]; rewrite Hm, Hk; by destruct (find_key k chain)).
Qed.

(** ** Iteration *)

(** The nodes that an iterator has before it. *)
Definition ahead t (it : hash_table_iterator_s A) : list (hash_node_t A) := hi_node it ++ concat (drop (Z.to_nat (hi_index it + 1)) (ht_nodes t)).

(** A chain that is found has the entries that were ahead.  The index goes up to
    the size when none is left: that overflows in a table of 2^31 chains or
    more. *)
Lemma next_chain_ok t : ht_wf t -> forall fuel it, 0 <= hi_index it < ht_size t -> hi_index it < 2 ^ 31 ->
  ht_size t - hi_index it <= Z.of_nat fuel ->
  (2 ^ 31 <= ht_size t /\ next_chain fuel t it = Fail FBounds) \/
  exists it' found, next_chain fuel t it = Ok (it', found) /\
    if found then ahead t it' = ahead t it /\ hi_node it' <> [] /\ 0 <= hi_index it' < ht_size t /\ hi_index it' < 2 ^ 31
    else hi_node it' = [] /\ ahead t it = [] /\ ht_size t < 2 ^ 31.
Proof.
  intros [Hs Hl _]. induction fuel as [|fuel IH]; intros it Hi Hb Hf; [lia|]. simpl. destruct (hi_node it) as [|n rest] eqn:Hn.
  2:{ right. exists it, true. rewrite Hn. split_and!; done || lia. }
  unfold index_incr. destruct (Z.ltb_spec (hi_index it) (2 ^ 31 - 1)) as [Hlt|Hge]; cbn [rbind]; [|left; split; [lia|done]].
  rewrite wrap_small by lia. destruct (Z.leb_spec (ht_size t) (hi_index it + 1)) as [Hge|Hlt'].
  - right. exists (mk_hash_iterator (hi_index it + 1) []), false. split_and!; [done..| |lia].
    unfold ahead. rewrite Hn, drop_ge; [done|]. unfold zlen in Hl. lia.
  - destruct (lookup_lt_is_Some_2 (ht_nodes t) (Z.to_nat (hi_index it + 1))) as [chain Hch]; [unfold zlen in Hl; lia|].
    unfold chain_of. rewrite Hch. cbn [of_opt rbind].
    assert (Ha : ahead t (mk_hash_iterator (hi_index it + 1) chain) = ahead t it).
    { unfold ahead. simpl. rewrite Hn. rewrite (drop_S (ht_nodes t) chain (Z.to_nat (hi_index it + 1)) Hch). simpl.
      by replace (Z.to_nat (hi_index it + 1 + 1)) with (S (Z.to_nat (hi_index it + 1))) by lia. }
    rewrite <- Ha. apply IH; cbn [hi_index]; lia.
Qed.

Lemma getnext_ok t it : ht_wf t -> 0 <= hi_index it < ht_size t -> hi_index it < 2 ^ 31 ->
  (2 ^ 31 <= ht_size t /\ hashtable_iterator_getnext t it = Fail FBounds) \/
  (ht_size t < 2 ^ 31 /\ ahead t it = [] /\ exists it', hashtable_iterator_getnext t it = Ok (it', None)) \/
  exists n it', hashtable_iterator_getnext t it = Ok (it', Some (hn_data n)) /\ ahead t it = n :: ahead t it' /\
    0 <= hi_index it' < ht_size t /\ hi_index it' < 2 ^ 31.
Proof.
  intros Hw Hi Hb. unfold hashtable_iterator_getnext.
  destruct (next_chain_ok t Hw (Z.to_nat (Z.max 1 (ht_size t - hi_index it))) it Hi Hb) as [[? ->]|(it' & found & -> & Hok)];
    [lia|by left|]. cbn [rbind]. right. destruct found.
  - right. destruct Hok as (Ha & Hne & Hi'). destruct (hi_node it') as [|n rest] eqn:Hn; [done|].
    exists n, {| it' with hi_node := rest |}. split; [done|]. split; [|done]. rewrite <- Ha. unfold ahead. by rewrite Hn.
  - left. destruct Hok as (Hn & Ha & Hs). rewrite Hn. split_and!; [done..|]. by exists it'.
Qed.

Lemma iterate_ok t : ht_wf t -> forall fuel it, 0 <= hi_index it < ht_size t -> hi_index it < 2 ^ 31 ->
  (length (ahead t it) < fuel)%nat ->
  iterate fuel t it = if ht_size t <? 2 ^ 31 then Ok (map hn_data (ahead t it)) else Fail FBounds.
Proof.
  intros Hw. induction fuel as [|fuel IH]; intros it Hi Hb Hl; [lia|]. simpl.
  destruct (getnext_ok t it Hw Hi Hb) as [[Hs ->]|[(Hs & Ha & it' & ->)|(n & it' & -> & Ha & Hi' & Hb')]]; cbn [rbind].
  - by rewrite (proj2 (Z.ltb_ge _ _)).
  - by rewrite (proj2 (Z.ltb_lt _ _)), Ha.
  - rewrite Ha in Hl |- *. simpl in Hl. rewrite IH by (done || lia). by destruct (_ <? _).
Qed.

Lemma concat_nodup {B} (f : B -> nat) (l : list (list B)) : forall off,
  (forall i c, l !! i = Some c -> NoDup c /\ Forall (fun x => f x = (off + i)%nat) c) -> NoDup (concat l).
Proof.
  induction l as [|c l IH]; intros off Hc; simpl; [constructor|]. destruct (Hc 0%nat c eq_refl) as [Hn Hf]. apply NoDup_app.
  split; [done|]. split.
  2:{ apply (IH (S off)). intros i c' Hi. destruct (Hc (S i) c' Hi) as [? Hf']. split; [done|]. eapply Forall_impl; [exact Hf'|]. simpl. lia. }
  intros x Hx Hin. rewrite Forall_forall in Hf. specialize (Hf x Hx). apply list_elem_of_In, in_concat in Hin as (c' & Hc' & Hx').
  apply list_elem_of_In, list_elem_of_lookup in Hc' as (i & Hi). destruct (Hc (S i) c' Hi) as [_ Hf']. rewrite Forall_forall in Hf'.
  specialize (Hf' x ltac:(by apply list_elem_of_In)). lia.
Qed.

Lemma entries_ok t m : ht_rep t m -> map (fun n => (hn_key n, hn_data n)) (concat (ht_nodes t)) ≡ₚ map_to_list m.
Proof.
  intros [Hw Hm]. pose proof Hw as [Hs Hl Hc].
  assert (Hk : NoDup (map hn_key (concat (ht_nodes t)))).
  { rewrite concat_map. apply (concat_nodup (bucket t) _ 0). intros i ks Hi. apply list_lookup_fmap_Some in Hi as (c & -> & Hi).
    destruct (Hc i c Hi) as [? Hf]. split; [done|]. by rewrite Forall_map. }
  apply NoDup_Permutation; [|apply NoDup_map_to_list|].
  - apply (NoDup_fmap_1 fst). unfold fmap. by rewrite map_map.
  - intros [k d]. rewrite elem_of_map_to_list, Hm. rewrite list_elem_of_fmap.
    destruct (bucket_chain t k Hw) as (chain & _ & _ & Hn & Hnd & _ & ->). rewrite fmap_Some. split.
    + intros ([k' d'] & [= -> ->] & Hin). exists (mk_hash_node k' d'). split; [|done]. apply find_key_elem; [done|]. split; [|done].
      apply list_elem_of_In, in_concat in Hin as (c & Hcin & Hx). apply list_elem_of_In, list_elem_of_lookup in Hcin as (i & Hi).
      destruct (Hc i c Hi) as [_ Hf]. rewrite Forall_forall in Hf. apply list_elem_of_In in Hx. specialize (Hf _ Hx). simpl in Hf.
      subst i. congruence.
    + intros (n & Hf & ->). apply find_key_elem in Hf as [Hin <-]; [|done]. exists n. split; [done|].
      apply list_elem_of_In, in_concat. exists chain. split; [|by apply list_elem_of_In]. by apply list_elem_of_In, (list_elem_of_lookup_2 _ (bucket t (hn_key n))).
Qed.

Lemma create_rep size f : 0 < size -> ht_rep (hashtable_create size f) ∅.
Proof.
  intros Hs. assert (Hn : forall i c, ht_nodes (hashtable_create (A := A) size f) !! i = Some c -> c = []).
  { intros i c Hi. by apply lookup_replicate in Hi as [-> _]. }
  split; [split; simpl; [done|unfold zlen; rewrite length_replicate; lia|]|].
  - intros i c Hi. rewrite (Hn i c Hi). split; constructor.
  - intros k. rewrite lookup_empty. unfold ht_find. destruct (_ !! _) as [c|] eqn:Hc; [|done]. by rewrite (Hn _ _ Hc).
Qed.

End Spec.
Arguments hash_op A : clear implicits.

Section Runs.
Context {A : Type}.

Fixpoint hash_run (t : option (hash_table_t A)) (ops : list (hash_op A)) : res (option (hash_table_t A) * list (hashtable_rc_t * option A * list A)) :=
  match ops with
  | [] => Ok (t, [])
  | op :: ops' => let* (t, o) := hash_step t op in let* (t, os) := hash_run t ops' in Ok (t, o :: os)
  end.

Fixpoint map_run (m : gmap Z (option A)) (ops : list (hash_op A)) : gmap Z (option A) * list (hashtable_rc_t * option A * list A) :=
  match ops with
  | [] => (m, [])
  | op :: ops' => let (m, o) := map_step m op in let (m, os) := map_run m ops' in (m, o :: os)
  end.

Lemma hash_step_size (t : hash_table_t A) op t' o : hash_step (Some t) op = Ok (Some t', o) -> ht_size t' = ht_size t.
Proof.
  destruct op as [k d|k|k|k]; simpl; destruct (hash_of t k) as [h|]; cbn [rbind]; try done;
    destruct (chain_of t h) as [c|]; cbn [rbind]; try done.
  - by destruct (replace_data k d c) as [[]|]; intros [= <- _].
  - by destruct (unlink_key k c) as [[]|]; intros [= <- _].
  - by destruct (find_key k c); intros [= <- _].
  - by destruct (find_key k c); intros [= <- _].
Qed.

Lemma hash_run_ok ops : forall t m, ht_rep t m ->
  exists t', hash_run (Some t) ops = Ok (Some t', (map_run m ops).2) /\ ht_rep t' (map_run m ops).1 /\ ht_size t' = ht_size t.
Proof.
  induction ops as [|op ops IH]; intros t m Hr; simpl; [by exists t|].
  destruct (hash_step_ok t m op Hr) as (t1 & Hs & H1). rewrite Hs. cbn [rbind]. apply hash_step_size in Hs.
  destruct (map_step m op) as [m1 o]. destruct (IH t1 m1 H1) as (t2 & Hrun & H2 & Hz). simpl. rewrite Hrun, <- Hs.
  destruct (map_run m1 ops) as [m2 os]. by exists t2.
Qed.


End Runs.

(** Keys 1 and 1320 fall into one chain of the tables of F1 (1319 chains); a
    small table with such a collision. *)
Definition example_hash_ops : list (hash_op Z) :=
  [HInsert 1 (Some 10); HInsert 4 (Some 40); HInsert 1 (Some 11); HGet 4; HRemove 1; HExists 1; HInsert 2 None].

