(* ===== verification/F1apIds.v ===== *)
(** The secondary UE identifiers of CU and DU (openair2/F1AP/f1ap_ids.c): two
    hash tables, that the CU and the DU create at start. *)

From S2P Require Import Prelude Hashtable.

Record f1_ue_data_t := mk_f1_ue_data { secondary_ue : Z; e1_assoc_id : Z; du_assoc_id : Z }.

Abbreviation f1_table := (option (hash_table_t f1_ue_data_t)).

Record f1_ids := mk_f1_ids { cu2du_ue_mapping : f1_table; du2cu_ue_mapping : f1_table }.

Section Ids.
Implicit Types (ht : f1_table) (g : f1_ids) (data : f1_ue_data_t).

(** ** The helpers *)

Definition get_hashtable_data ht (ue_id : Z) : res f1_ue_data_t :=
  let* (ret, data) := hashtable_get ht ue_id in
  let* _ := assert_ (bool_decide (ret = HASH_TABLE_OK) && bool_decide (data <> None)) in
  of_opt FExit data.

Definition add_hashtable_data ht (ue_id : Z) data : res (f1_table * bool) :=
  let* (ht, ret, _) := hashtable_insert ht ue_id (Some data) in
  Ok (ht, bool_decide (ret = HASH_TABLE_OK)).

Definition not_null ht : res unit := assert_ (bool_decide (is_Some ht)).

(** The bodies that the versions for CU and DU share; [uint32_t ue_id]. *)
Definition init_f1_ue_data ht : res f1_table :=
  let* _ := assert_ (negb (bool_decide (is_Some ht))) in
  Ok (Some (hashtable_create 1319 None)).

Definition exists_f1_ue_data ht (ue_id : Z) : res bool :=
  let* _ := not_null ht in
  let* ret := hashtable_is_key_exists ht (u32 ue_id) in
  Ok (bool_decide (ret = HASH_TABLE_OK)).

Definition add_f1_ue_data ht (ue_id : Z) data : res (f1_table * bool) :=
  let* found := exists_f1_ue_data ht ue_id in
  if found then Ok (ht, false) else add_hashtable_data ht (u32 ue_id) data.

Definition get_f1_ue_data ht (ue_id : Z) : res f1_ue_data_t :=
  let* _ := not_null ht in
  get_hashtable_data ht (u32 ue_id).

Definition remove_f1_ue_data ht (ue_id : Z) : res (f1_table * bool) :=
  let* _ := not_null ht in
  let* (ht, ret, _) := hashtable_remove ht (u32 ue_id) in
  Ok (ht, bool_decide (ret = HASH_TABLE_OK)).

(** ** The CU *)

Definition on_cu {R} (f : f1_table -> res (f1_table * R)) g : res (f1_ids * R) :=
  let* (ht, r) := f (cu2du_ue_mapping g) in
  Ok ({| g with cu2du_ue_mapping := ht |}, r).

Definition cu_init_f1_ue_data g : res f1_ids :=
  let* ht := init_f1_ue_data (cu2du_ue_mapping g) in
  Ok {| g with cu2du_ue_mapping := ht |}.

Definition cu_add_f1_ue_data g (ue_id : Z) data : res (f1_ids * bool) := on_cu (fun ht => add_f1_ue_data ht ue_id data) g.

Definition cu_exists_f1_ue_data g (ue_id : Z) : res bool := exists_f1_ue_data (cu2du_ue_mapping g) ue_id.

Definition cu_update_f1_ue_data g (ue_id : Z) data : res (f1_ids * bool) :=
  on_cu (fun ht =>
    let* _ := not_null ht in
    let* (ht, retrm, _) := hashtable_remove ht (u32 ue_id) in
    let* _ := assert_ (bool_decide (retrm = HASH_TABLE_OK)) in
    add_hashtable_data ht (u32 ue_id) data) g.

Definition cu_get_f1_ue_data g (ue_id : Z) : res f1_ue_data_t := get_f1_ue_data (cu2du_ue_mapping g) ue_id.

Definition cu_remove_f1_ue_data g (ue_id : Z) : res (f1_ids * bool) := on_cu (fun ht => remove_f1_ue_data ht ue_id) g.

(** ** The DU *)

Definition on_du {R} (f : f1_table -> res (f1_table * R)) g : res (f1_ids * R) :=
  let* (ht, r) := f (du2cu_ue_mapping g) in
  Ok ({| g with du2cu_ue_mapping := ht |}, r).

Definition du_init_f1_ue_data g : res f1_ids :=
  let* ht := init_f1_ue_data (du2cu_ue_mapping g) in
  Ok {| g with du2cu_ue_mapping := ht |}.

Definition du_add_f1_ue_data g (ue_id : Z) data : res (f1_ids * bool) := on_du (fun ht => add_f1_ue_data ht ue_id data) g.

Definition du_exists_f1_ue_data g (ue_id : Z) : res bool := exists_f1_ue_data (du2cu_ue_mapping g) ue_id.

Definition du_get_f1_ue_data g (ue_id : Z) : res f1_ue_data_t := get_f1_ue_data (du2cu_ue_mapping g) ue_id.

Definition du_remove_f1_ue_data g (ue_id : Z) : res (f1_ids * bool) := on_du (fun ht => remove_f1_ue_data ht ue_id) g.

End Ids.

(** ** What the helpers do to the map that a table holds *)

Section Spec.
Implicit Types (m : gmap Z f1_ue_data_t).

(** The table holds [m], and no key without data. *)
Definition f1_rep (ht : f1_table) m : Prop := exists t, ht = Some t /\ ht_rep t (Some <$> m).

Lemma f1_init_ok : exists ht, init_f1_ue_data None = Ok ht /\ f1_rep ht ∅.
Proof. eexists. split; [done|]. exists (hashtable_create 1319 None). split; [done|]. rewrite fmap_empty. by apply create_rep. Qed.

Lemma f1_exists_ok ht m ue_id : f1_rep ht m -> exists_f1_ue_data ht ue_id = Ok (bool_decide (is_Some (m !! u32 ue_id))).
Proof.
  intros (t & -> & Hr). unfold exists_f1_ue_data. destruct (hash_step_ok t _ (HExists (u32 ue_id)) Hr) as (t' & Hs & _).
  cbn [hash_step map_step snd] in Hs. rewrite lookup_fmap in Hs. change (not_null (Some t)) with (Ok tt). cbn [rbind].
  destruct (hashtable_is_key_exists (Some t) (u32 ue_id)) as [rc|]; [|done]. by destruct (m !! u32 ue_id); injection Hs as _ ->.
Qed.

Lemma f1_insert_ok ht m k data : f1_rep ht m -> m !! k = None ->
  exists ht', add_hashtable_data ht k data = Ok (ht', true) /\ f1_rep ht' (<[k := data]> m).
Proof.
  intros (t & -> & Hr) Hn. destruct (hash_step_ok t _ (HInsert k (Some data)) Hr) as (t' & Hs & Hr').
  unfold add_hashtable_data. cbn [hash_step map_step] in Hs. rewrite lookup_fmap, Hn in Hs. cbn [fmap option_fmap option_map snd] in Hs.
  destruct (hashtable_insert (Some t) k (Some data)) as [[[h rc] old]|]; [|done]. injection Hs as -> -> ->.
  eexists. split; [done|]. exists t'. split; [done|]. rewrite fmap_insert. exact Hr'.
Qed.

Lemma f1_add_ok ht m ue_id data : f1_rep ht m ->
  exists ht', add_f1_ue_data ht ue_id data = Ok (ht', negb (bool_decide (is_Some (m !! u32 ue_id)))) /\
    f1_rep ht' (match m !! u32 ue_id with Some _ => m | None => <[u32 ue_id := data]> m end).
Proof.
  intros Hr. unfold add_f1_ue_data. rewrite (f1_exists_ok _ _ _ Hr). cbn [rbind]. destruct (m !! u32 ue_id) as [d|] eqn:Hm; simpl.
  - by exists ht.
  - by apply f1_insert_ok.
Qed.

Lemma f1_get_ok ht m ue_id : f1_rep ht m -> get_f1_ue_data ht ue_id = of_opt FExit (m !! u32 ue_id).
Proof.
  intros (t & -> & Hr). unfold get_f1_ue_data, not_null, get_hashtable_data. destruct (hash_step_ok t _ (HGet (u32 ue_id)) Hr) as (t' & Hs & _).
  cbn [hash_step map_step snd] in Hs. destruct (hashtable_get (Some t) (u32 ue_id)) as [[rc d]|]; [|done]. rewrite lookup_fmap in Hs.
  destruct (m !! u32 ue_id); simpl in *; by injection Hs as _ -> ->.
Qed.

Lemma f1_remove_ok ht m ue_id : f1_rep ht m ->
  exists ht', remove_f1_ue_data ht ue_id = Ok (ht', bool_decide (is_Some (m !! u32 ue_id))) /\ f1_rep ht' (delete (u32 ue_id) m).
Proof.
  intros (t & -> & Hr). destruct (hash_step_ok t _ (HRemove (u32 ue_id)) Hr) as (t' & Hs & Hr').
  unfold remove_f1_ue_data. cbn [hash_step map_step] in Hs. rewrite lookup_fmap in Hs. change (not_null (Some t)) with (Ok tt). cbn [rbind].
  destruct (hashtable_remove (Some t) (u32 ue_id)) as [[[h rc] old]|]; [|done].
  assert (f1_rep (Some t') (delete (u32 ue_id) m)) by (exists t'; split; [done|]; by rewrite fmap_delete).
  destruct (m !! u32 ue_id); simpl in *; injection Hs as -> -> ->; by eexists.
Qed.

End Spec.

Lemma f1_update_ok ht m ue_id data : f1_rep ht m ->
  let update := (let* _ := not_null ht in
                 let* (ht, retrm, _) := hashtable_remove ht (u32 ue_id) in
                 let* _ := assert_ (bool_decide (retrm = HASH_TABLE_OK)) in
                 add_hashtable_data ht (u32 ue_id) data) in
  match m !! u32 ue_id with
  | Some _ => exists ht', update = Ok (ht', true) /\ f1_rep ht' (<[u32 ue_id := data]> m)
  | None => update = Fail FExit
  end.
Proof.
  intros Hr. destruct (f1_remove_ok ht m ue_id Hr) as (ht' & Hrm & Hr'). unfold remove_f1_ue_data in Hrm. simpl.
  destruct (not_null ht); [|done]. cbn [rbind] in *. destruct (hashtable_remove ht (u32 ue_id)) as [[[h rc] old]|]; [|done]. cbn [rbind] in *.
  injection Hrm as -> Hb. rewrite Hb. destruct (m !! u32 ue_id); [|done]. cbn.
  destruct (f1_insert_ok ht' _ (u32 ue_id) data Hr') as (h2 & -> & Hr2); [apply lookup_delete_eq|].
  exists h2. split; [done|]. by rewrite insert_delete_eq in Hr2.
Qed.

(** The identifiers of the CU are a map from UE identifiers of 32 bits: an
    entry is added once, changed only when it is there (the process stops
    otherwise, as it does when an unknown one is read), and removed; two
    identifiers that are equal modulo 2^32 are the same.  The table of the DU
    stays as it is. *)
Theorem f1_ids_refine_map g m ue_id data : f1_rep (cu2du_ue_mapping g) m ->
  let k := u32 ue_id in
  let is_known := bool_decide (is_Some (m !! k)) in
  let holds g' m' := f1_rep (cu2du_ue_mapping g') m' /\ du2cu_ue_mapping g' = du2cu_ue_mapping g in
  cu_exists_f1_ue_data g ue_id = Ok is_known /\
  cu_get_f1_ue_data g ue_id = of_opt FExit (m !! k) /\
  (exists g', cu_add_f1_ue_data g ue_id data = Ok (g', negb is_known) /\ holds g' (if is_known then m else <[k := data]> m)) /\
  (if is_known then exists g', cu_update_f1_ue_data g ue_id data = Ok (g', true) /\ holds g' (<[k := data]> m)
   else cu_update_f1_ue_data g ue_id data = Fail FExit) /\
  exists g', cu_remove_f1_ue_data g ue_id = Ok (g', is_known) /\ holds g' (delete k m).
Proof.
  intros Hr. simpl. split; [by apply f1_exists_ok|]. split; [by apply f1_get_ok|]. split; [|split].
  - unfold cu_add_f1_ue_data, on_cu. destruct (f1_add_ok _ m ue_id data Hr) as (h & -> & Hr'). eexists. split; [done|]. split; [|done].
    simpl. destruct (m !! u32 ue_id); exact Hr'.
  - unfold cu_update_f1_ue_data, on_cu. pose proof (f1_update_ok _ m ue_id data Hr) as Hu. simpl in Hu.
    destruct (m !! u32 ue_id); simpl.
    + destruct Hu as (h & -> & Hr'). eexists. split; [done|]. by split.
    + by rewrite Hu.
  - unfold cu_remove_f1_ue_data, on_cu. destruct (f1_remove_ok _ m ue_id Hr) as (h & -> & Hr'). eexists. split; [done|]. by split.
Qed.

Definition example_ids : res (f1_ids * bool) :=
  let* g := cu_init_f1_ue_data (mk_f1_ids None None) in
  cu_add_f1_ue_data g 7 (mk_f1_ue_data 100 1 2).

Lemma example_ids_ok : exists g, example_ids = Ok (g, true) /\ f1_rep (cu2du_ue_mapping g) {[7 := mk_f1_ue_data 100 1 2]}.
Proof.
  unfold example_ids, cu_init_f1_ue_data. cbn [cu2du_ue_mapping]. destruct f1_init_ok as (ht & -> & Hr). cbn [rbind].
  unfold cu_add_f1_ue_data, on_cu. destruct (f1_add_ok ht ∅ 7 (mk_f1_ue_data 100 1 2) Hr) as (ht' & Ha & Hr'). simpl. rewrite Ha. by eexists.
Qed.

Lemma f1_ids_refine_map_witness : exists g m, f1_rep (cu2du_ue_mapping g) m /\
  cu_get_f1_ue_data g (2 ^ 32 + 7) = Ok (mk_f1_ue_data 100 1 2) /\ cu_update_f1_ue_data g 8 (mk_f1_ue_data 0 0 0) = Fail FExit.
Proof.
  destruct example_ids_ok as (g & _ & Hr). exists g, {[7 := mk_f1_ue_data 100 1 2]}. split; [exact Hr|]. split.
  - apply (f1_ids_refine_map g _ (2 ^ 32 + 7) (mk_f1_ue_data 0 0 0) Hr).
  - apply (f1_ids_refine_map g _ 8 (mk_f1_ue_data 0 0 0) Hr).
Defined.
