(* ===== verification/L2Queue.v ===== *)
(** The two queues that decouple PDCP from RLC (openair2/LAYER2/nr_pdcp/
    nr_pdcp_oai_api.c): [enqueue_rlc_data_req] with [rlc_data_req_thread], and
    [enqueue_pdcp_data_ind] with [pdcp_data_ind_thread].  Both are a ring of
    [SIZE] items, a mutex and one condition variable on which producers wait for
    room and the thread for an item.

    What a thread does while it holds the mutex is one step.  The thread reads
    its item without the mutex, in a step of its own. *)

From S2P Require Import Prelude.

Definition RLC_DATA_REQ_QUEUE_SIZE : Z := 10000.
Definition PDCP_DATA_IND_QUEUE_SIZE : Z := 10000.

Section Queue.
Context {A : Type} (SIZE : Z).

(** ** The ring *)

Record l2_queue := mk_l2_queue { lq_q : list A; lq_start : Z; lq_length : Z }.
Implicit Types (q : l2_queue).

Definition l2_slot q (i : Z) : res A := of_opt FBounds (lq_q q !! Z.to_nat i).

(** [None]: the producer waits. *)
Definition enqueue_item q (x : A) : option (res l2_queue) :=
  if lq_length q =? SIZE then None
  else
    let i := (lq_start q + lq_length q) mod SIZE in
    Some (let* _ := l2_slot q i in
          Ok {| q with lq_q := <[Z.to_nat i := x]> (lq_q q); lq_length := lq_length q + 1 |}).

Definition pop_item q : l2_queue :=
  {| q with lq_length := lq_length q - 1; lq_start := (lq_start q + 1) mod SIZE |}.

(** ** The threads *)

(** Where the consumer is: at its test of [length], in [pthread_cond_wait], with
    the item [i] (the mutex is free), and after the call with that item. *)
Inductive consumer_t := CTest | CWait | CTook (i : Z) | CCalled.

#[local] Instance consumer_eq_dec : EqDecision consumer_t.
Proof. solve_decision. Defined.

(** [qs_waiting] producers are in [pthread_cond_wait]; [qs_in] and [qs_out] are
    the items that were put in the ring and those that were handed on. *)
Record queue_sys := mk_queue_sys {
  qs_q : l2_queue;
  qs_consumer : consumer_t;
  qs_waiting : Z;
  qs_in : list A;
  qs_out : list A
}.
Implicit Types (s : queue_sys).

(** [pthread_cond_signal] wakes at least one of the threads that wait, the
    consumer or producers, if there is one. *)
Inductive signal : consumer_t -> Z -> consumer_t -> Z -> Prop :=
| signal_none c : c <> CWait -> signal c 0 c 0
| signal_consumer w w' : 0 <= w' <= w -> signal CWait w CTest w'
| signal_producers c w w' : 0 <= w' < w -> signal c w c w'.

(** The steps of the consumer. *)
Inductive consumer_step : queue_sys -> queue_sys -> Prop :=
| QEmpty s :
    qs_consumer s = CTest -> lq_length (qs_q s) = 0 ->
    consumer_step s {| s with qs_consumer := CWait |}
| QTake s :
    qs_consumer s = CTest -> lq_length (qs_q s) <> 0 ->
    consumer_step s {| s with qs_consumer := CTook (lq_start (qs_q s)) |}
| QCall s i x :
    qs_consumer s = CTook i -> l2_slot (qs_q s) i = Ok x ->
    consumer_step s {| s with qs_consumer := CCalled; qs_out := qs_out s ++ [x] |}
| QPop s c' w' :
    qs_consumer s = CCalled -> signal CTest (qs_waiting s) c' w' ->
    consumer_step s (mk_queue_sys (pop_item (qs_q s)) c' w' (qs_in s) (qs_out s)).

(** [producers] threads put items in the ring; a thread may also wake up
    without a signal. *)
Inductive queue_step (producers : Z) : queue_sys -> queue_sys -> Prop :=
| QConsumer s s' : consumer_step s s' -> queue_step producers s s'
| QEnqueue s x q' c' w' :
    enqueue_item (qs_q s) x = Some (Ok q') -> signal (qs_consumer s) (qs_waiting s) c' w' ->
    queue_step producers s (mk_queue_sys q' c' w' (qs_in s ++ [x]) (qs_out s))
| QFull s x :
    enqueue_item (qs_q s) x = None -> qs_waiting s < producers ->
    queue_step producers s {| s with qs_waiting := qs_waiting s + 1 |}
| QSpuriousConsumer s :
    qs_consumer s = CWait -> queue_step producers s {| s with qs_consumer := CTest |}
| QSpuriousProducer s :
    0 < qs_waiting s -> queue_step producers s {| s with qs_waiting := qs_waiting s - 1 |}.

(** The static object, all zero. *)
Definition init_queue (zero : A) : queue_sys :=
  mk_queue_sys (mk_l2_queue (replicate (Z.to_nat SIZE) zero) 0 0) CTest 0 [] [].

(** ** The ring as a list *)

Record ring_rep q (l : list A) : Prop := {
  rr_slots : zlen (lq_q q) = SIZE;
  rr_start : 0 <= lq_start q < SIZE;
  rr_length : lq_length q = zlen l;
  rr_bound : zlen l <= SIZE;
  rr_items : forall k, 0 <= k < zlen l -> lq_q q !! Z.to_nat ((lq_start q + k) mod SIZE) = l !! Z.to_nat k
}.

Lemma enqueue_rep q l x : ring_rep q l ->
  (zlen l = SIZE -> enqueue_item q x = None) /\
  (zlen l <> SIZE -> exists q', enqueue_item q x = Some (Ok q') /\ ring_rep q' (l ++ [x])).
Proof.
  intros [Hs Hst Hl Hb Hi]. unfold enqueue_item. split; intros Hf.
  { by rewrite (proj2 (Z.eqb_eq _ _)) by lia. }
  rewrite (proj2 (Z.eqb_neq _ _)) by lia. set (i := (lq_start q + lq_length q) mod SIZE).
  assert (Hir : 0 <= i < SIZE) by (apply Z.mod_pos_bound; lia).
  destruct (lookup_lt_is_Some_2 (lq_q q) (Z.to_nat i)) as [y Hy]; [unfold zlen in *; lia|].
  unfold l2_slot. rewrite Hy. cbn [of_opt rbind]. eexists. split; [done|].
  pose proof (zlen_nonneg l). split; cbn [lq_q lq_start lq_length]; [unfold zlen in *; by rewrite length_insert|done| | |].
  - rewrite zlen_app, zlen_cons, zlen_nil. lia.
  - rewrite zlen_app, zlen_cons, zlen_nil. lia.
  - intros k Hk. rewrite zlen_app in Hk. change (zlen [x]) with 1 in Hk. destruct (Z.eq_dec k (zlen l)) as [->|Hne].
    + rewrite lookup_app_r by (unfold zlen; lia). replace (Z.to_nat (zlen l) - length l)%nat with 0%nat by (unfold zlen; lia). simpl.
      rewrite <- Hl. apply list_lookup_insert_eq. unfold zlen in *. lia.
    + rewrite lookup_app_l by (unfold zlen in *; lia). rewrite list_lookup_insert_ne; [apply Hi; lia|].
      intros He. pose proof (Z.mod_pos_bound (lq_start q + k) SIZE ltac:(lia)).
      apply Z2Nat.inj in He; [|lia|lia]. unfold i in He. apply (mod_eq_close SIZE) in He; lia.
Qed.

Lemma pop_rep q x l : ring_rep q (x :: l) -> l2_slot q (lq_start q) = Ok x /\ ring_rep (pop_item q) l.
Proof.
  intros [Hs Hst Hl Hb Hi]. rewrite zlen_cons in *. pose proof (zlen_nonneg l). split.
  - specialize (Hi 0 ltac:(lia)). rewrite Z.add_0_r, Z.mod_small in Hi by lia. unfold l2_slot. by rewrite Hi.
  - split; cbn [pop_item lq_q lq_start lq_length]; [done|apply Z.mod_pos_bound; lia|lia|lia|]. intros k Hk. rewrite Zplus_mod_idemp_l.
    replace (lq_start q + 1 + k) with (lq_start q + (k + 1)) by lia. rewrite Hi by lia.
    by replace (Z.to_nat (k + 1)) with (S (Z.to_nat k)) by lia.
Qed.

(** ** The invariant *)

(** The items that are in the ring and not handed on. *)
Definition in_ring (c : consumer_t) (out_pending l : list A) : Prop :=
  match c with
  | CCalled => exists x, l = x :: out_pending
  | _ => l = out_pending
  end.

(** No signal is lost: when the consumer waits, nothing is in the ring and no
    producer waits; waiting producers and free places are at most the threads. *)
Record queue_inv (producers : Z) s : Prop := {
  qi_ring : exists l rest, ring_rep (qs_q s) l /\ qs_in s = qs_out s ++ rest /\ in_ring (qs_consumer s) rest l;
  qi_took : forall i, qs_consumer s = CTook i -> i = lq_start (qs_q s) /\ lq_length (qs_q s) <> 0;
  qi_wait : qs_consumer s = CWait -> lq_length (qs_q s) = 0 /\ qs_waiting s = 0;
  qi_producers : 0 <= qs_waiting s /\ (qs_waiting s = 0 \/ qs_waiting s + (SIZE - lq_length (qs_q s)) <= producers)
}.

Lemma signal_waiting c w c' w' : signal c w c' w' -> 0 <= w -> 0 <= w' <= w /\ (0 < w -> c <> CWait -> w' < w) /\ (c <> CWait -> c' = c).
Proof. destruct 1; intros; repeat split; intros; try lia; try done; congruence. Qed.

Lemma init_inv zero producers : 0 < SIZE -> 0 <= producers -> queue_inv producers (init_queue zero).
Proof.
  intros Hs Hp. split; simpl; [|done|done|lia]. exists [], []. split; [|done]. split; simpl; [unfold zlen; rewrite length_replicate; lia|lia|done| |].
  - unfold zlen. simpl. lia.
  - intros k. unfold zlen. simpl. lia.
Qed.

Lemma enqueue_step_inv producers s x q' c' w' : 0 < SIZE -> producers <= SIZE ->
  enqueue_item (qs_q s) x = Some (Ok q') -> signal (qs_consumer s) (qs_waiting s) c' w' ->
  queue_inv producers s -> queue_inv producers (mk_queue_sys q' c' w' (qs_in s ++ [x]) (qs_out s)).
Proof.
  intros HS Hp He Hsig [(l & rest & Hr & Hin & Hir) Ht Hw [Hp0 Hp1]]. pose proof (rr_length _ _ Hr) as Hl. pose proof (zlen_nonneg l).
  destruct (enqueue_rep (qs_q s) l x Hr) as [Hfull Hok]. destruct (Z.eq_dec (zlen l) SIZE) as [Hf|Hf]; [by rewrite (Hfull Hf) in He|].
  destruct (Hok Hf) as (q1 & Hq1 & Hr1). rewrite Hq1 in He. injection He as ->.
  destruct (signal_waiting _ _ _ _ Hsig Hp0) as (Hw1 & Hw2 & Hc1).
  pose proof (rr_length _ _ Hr1) as Hl1. rewrite zlen_app, zlen_cons, zlen_nil in Hl1.
  assert (Hst : lq_start q' = lq_start (qs_q s)).
  { unfold enqueue_item in Hq1. destruct (_ =? _); [done|]. destruct (l2_slot _ _); [|done]. by injection Hq1 as <-. }
  assert (Hcw : c' = if decide (qs_consumer s = CWait) then CTest else qs_consumer s).
  { case_decide as Hc; [|by apply Hc1]. destruct (Hw Hc) as [_ Hw0]. rewrite Hw0, Hc in Hsig. inversion Hsig; subst; [done|done|lia]. }
  split; cbn [qs_q qs_consumer qs_waiting qs_in qs_out].
  - exists (l ++ [x]), (rest ++ [x]). split; [done|]. split; [by rewrite Hin, <- app_assoc|].
    rewrite Hcw. destruct (qs_consumer s); simpl in *; [by subst..|]. destruct Hir as (y & ->). by exists y.
  - intros i Hi. rewrite Hcw in Hi. case_decide; [done|]. destruct (Ht i Hi) as [-> _]. rewrite Hst. split; [done|lia].
  - rewrite Hcw. case_decide; done.
  - destruct (decide (qs_consumer s = CWait)) as [Ec|Ec]; [destruct (Hw Ec) as [_ Hw0]|]; lia.
Qed.

Lemma consumer_step_inv producers s s' : producers <= SIZE -> consumer_step s s' -> queue_inv producers s -> queue_inv producers s'.
Proof.
  intros Hp Hst [(l & rest & Hr & Hin & Hir) Ht Hw [Hp0 Hp1]]. pose proof (rr_length _ _ Hr) as Hl. pose proof (zlen_nonneg l).
  pose proof (rr_bound _ _ Hr) as Hb.
  destruct Hst as [s Hc He|s Hc He|s i x Hc Hx|s c' w' Hc Hsig]; simpl in *; rewrite Hc in Hir; simpl in Hir.
  - split; simpl; [by exists l, rest|done| |lia]. intros _. lia.
  - split; simpl; [by exists l, rest| |done|done]. by intros i [= <-].
  - destruct (Ht i Hc) as [-> Hne]. subst rest. destruct l as [|y l]; [by rewrite Hl in Hne|].
    destruct (pop_rep _ _ _ Hr) as [Hy _]. rewrite Hy in Hx. injection Hx as ->.
    split; simpl; [|done|done|done]. exists (x :: l), l. split; [done|]. split; [by rewrite Hin, <- app_assoc|by exists x].
  - destruct Hir as (y & ->). destruct (pop_rep _ _ _ Hr) as [_ Hr'].
    destruct (signal_waiting _ _ _ _ Hsig Hp0) as (Hw1 & Hw2 & Hc1). rewrite Hc1 by done. rewrite zlen_cons in *.
    split; simpl; [by exists rest, rest|done|done|]. destruct (decide (0 < qs_waiting s)); [specialize (Hw2 ltac:(lia) ltac:(done))|]; lia.
Qed.

Lemma step_inv producers s s' : 0 < SIZE -> producers <= SIZE -> queue_step producers s s' -> queue_inv producers s -> queue_inv producers s'.
Proof.
  intros HS Hp Hst Hinv. destruct Hst as [s s' Hst|s x q' c' w' He Hsig|s x He Hlt|s Hc|s Hpos];
    [by eapply consumer_step_inv|by eapply enqueue_step_inv|..]; destruct Hinv as [(l & rest & Hr & Hin & Hir) Ht Hw [Hp0 Hp1]];
    pose proof (rr_length _ _ Hr) as Hl; pose proof (zlen_nonneg l); simpl in *.
  - destruct (enqueue_rep (qs_q s) l x Hr) as [_ Hok]. destruct (Z.eq_dec (zlen l) SIZE) as [Hf|Hf].
    2:{ destruct (Hok Hf) as (q1 & Hq1 & _). by rewrite Hq1 in He. }
    split; simpl; [by exists l, rest|done| |lia]. intros Hc. specialize (Hw Hc). lia.
  - split; simpl; [exists l, rest; rewrite Hc in Hir; done|done|done|done].
  - split; simpl; [by exists l, rest|done| |lia]. intros Hc. specialize (Hw Hc). lia.
Qed.

Lemma reach_inv zero producers s : 0 < SIZE -> 0 <= producers <= SIZE -> rtc (queue_step producers) (init_queue zero) s -> queue_inv producers s.
Proof.
  intros HS Hp Hr. assert (H0 : queue_inv producers (init_queue zero)) by (apply init_inv; lia).
  induction Hr as [|s1 s2 s3 Hst _ IH]; [done|]. apply IH. by apply (step_inv producers s1 s2 HS (proj2 Hp)).
Qed.

(** ** The consumer empties the ring *)

(** What the consumer still has to do. *)
Lemma drain_called producers l : producers <= SIZE -> forall s, queue_inv producers s -> qs_consumer s = CCalled -> ring_rep (qs_q s) l ->
  exists s', rtc consumer_step s s' /\ qs_consumer s' = CTest /\ lq_length (qs_q s') = 0 /\ qs_in s' = qs_in s.
Proof.
  intros Hp. induction l as [|x l IH]; intros s Hinv Hc Hr.
  { destruct (qi_ring _ _ Hinv) as (l & rest & Hr2 & _ & Hir). rewrite Hc in Hir. destruct Hir as (y & ->).
    pose proof (rr_length _ _ Hr) as H1. pose proof (rr_length _ _ Hr2) as H2. rewrite zlen_cons in H2. unfold zlen in H1, H2. simpl in H1. lia. }
  assert (exists w', signal CTest (qs_waiting s) CTest w') as [w' Hsig].
  { destruct (qi_producers _ _ Hinv) as [Hw0 _]. destruct (decide (qs_waiting s = 0)) as [->|]; [exists 0; by constructor|].
    exists 0. apply signal_producers. lia. }
  pose proof (QPop s CTest w' Hc Hsig) as Hpop. set (s1 := mk_queue_sys (pop_item (qs_q s)) CTest w' (qs_in s) (qs_out s)) in *.
  destruct (pop_rep _ _ _ Hr) as [_ Hr1]. pose proof (consumer_step_inv producers _ _ Hp Hpop Hinv) as H1.
  destruct l as [|y l].
  { exists s1. split; [by apply rtc_once|]. split; [done|]. split; [|done]. apply (rr_length _ _ Hr1). }
  assert (Hlen : lq_length (qs_q s1) <> 0) by (simpl; pose proof (rr_length _ _ Hr1) as E; simpl in E; rewrite zlen_cons in E; pose proof (zlen_nonneg l); lia).
  pose proof (QTake s1 eq_refl Hlen) as Htake. pose proof (consumer_step_inv producers _ _ Hp Htake H1) as H2.
  destruct (pop_rep _ _ _ Hr1) as [Hslot _].
  pose proof (QCall {| s1 with qs_consumer := CTook (lq_start (qs_q s1)) |} _ y eq_refl Hslot) as Hcall.
  pose proof (consumer_step_inv producers _ _ Hp Hcall H2) as H3.
  destruct (IH _ H3 eq_refl Hr1) as (s' & Hrtc & ? & ? & ?). exists s'. split; [|done].
  eapply rtc_l; [exact Hpop|]. eapply rtc_l; [exact Htake|]. eapply rtc_l; [exact Hcall|]. exact Hrtc.
Qed.

Lemma drain producers s : producers <= SIZE -> queue_inv producers s -> exists s', rtc consumer_step s s' /\ qs_consumer s' <> CCalled /\ lq_length (qs_q s') = 0 /\ qs_in s' = qs_in s.
Proof.
  intros Hp Hinv. assert (Hcalled : forall s, queue_inv producers s -> qs_consumer s = CCalled ->
    exists s', rtc consumer_step s s' /\ qs_consumer s' <> CCalled /\ lq_length (qs_q s') = 0 /\ qs_in s' = qs_in s).
  { clear -Hp. intros s Hinv Hc. destruct (qi_ring _ _ Hinv) as (l & rest & Hr & _ & _).
    destruct (drain_called producers l Hp s Hinv Hc Hr) as (s' & ? & Hc' & ? & ?). exists s'. split; [done|]. split; [by rewrite Hc'|done]. }
  assert (Htook : forall s i, queue_inv producers s -> qs_consumer s = CTook i ->
    exists s', rtc consumer_step s s' /\ qs_consumer s' <> CCalled /\ lq_length (qs_q s') = 0 /\ qs_in s' = qs_in s).
  { clear -Hcalled Hp. intros s i Hinv Hc. destruct (qi_took _ _ Hinv i Hc) as [-> Hne]. destruct (qi_ring _ _ Hinv) as (l & rest & Hr & _ & _).
    destruct l as [|y l]; [by rewrite (rr_length _ _ Hr) in Hne|]. destruct (pop_rep _ _ _ Hr) as [Hslot _].
    pose proof (QCall s _ y Hc Hslot) as Hcall. destruct (Hcalled _ (consumer_step_inv producers _ _ Hp Hcall Hinv) eq_refl) as (s' & ? & ? & ? & ?).
    exists s'. split; [by eapply rtc_l|done]. }
  destruct (qs_consumer s) as [| |i|] eqn:Hc; [|exists s; split; [done|]; rewrite Hc; by destruct (qi_wait _ _ Hinv Hc)|by apply (Htook s i)|by apply Hcalled].
  destruct (decide (lq_length (qs_q s) = 0)) as [Hz|Hz]; [exists s; split; [done|]; by rewrite Hc|].
  pose proof (QTake s Hc Hz) as Htake. destruct (Htook _ _ (consumer_step_inv producers _ _ Hp Htake Hinv) eq_refl) as (s' & ? & ? & ? & ?).
  exists s'. split; [by eapply rtc_l|done].
Qed.

Lemma consumer_rtc_inv producers s s' : producers <= SIZE -> rtc consumer_step s s' -> queue_inv producers s -> queue_inv producers s'.
Proof. intros Hp. induction 1 as [|s1 s2 s3 Hst _ IH]; intros Hi; [done|]. apply IH. by apply (consumer_step_inv producers s1). Qed.

(** Nothing in the ring: everything was handed on, and nobody waits for room. *)
Lemma empty_ring producers s : producers <= SIZE -> queue_inv producers s -> qs_consumer s <> CCalled -> lq_length (qs_q s) = 0 ->
  qs_out s = qs_in s /\ qs_waiting s = 0.
Proof.
  intros Hp [(l & rest & Hr & Hin & Hir) _ _ Hw] Hc Hl. pose proof (rr_length _ _ Hr) as E. rewrite Hl in E. symmetry in E. apply zlen_0_nil in E as ->.
  split; [|lia]. destruct (qs_consumer s); simpl in Hir; try done; subst rest; by rewrite Hin, app_nil_r.
Qed.

(** C16. A queue between PDCP and RLC hands on every item, once and in the order
    in which the producers put them in, and never holds more than its size, as
    long as not more threads than its size put items in.  No wake-up is lost,
    although producers and consumer wait on one condition variable and a signal
    may wake any of them: when the consumer waits there is nothing to hand on,
    and no producer waits. *)
Theorem l2_queue_fifo (zero : A) (producers : Z) (s : queue_sys) :
  0 < SIZE -> 0 <= producers <= SIZE -> rtc (queue_step producers) (init_queue zero) s ->
  (exists rest, qs_in s = qs_out s ++ rest /\ zlen rest <= SIZE) /\
  (qs_consumer s = CWait -> qs_out s = qs_in s /\ qs_waiting s = 0).
Proof.
  intros HS Hp Hr. pose proof (reach_inv zero producers s HS Hp Hr) as Hinv. split.
  - destruct (qi_ring _ _ Hinv) as (l & rest & Hrep & Hin & Hir). exists rest. split; [done|]. pose proof (rr_bound _ _ Hrep) as Hb.
    destruct (qs_consumer s); simpl in Hir; try by subst. destruct Hir as (y & ->). rewrite zlen_cons in Hb. lia.
  - intros Hc. apply (empty_ring producers); [lia|done|by rewrite Hc|]. by destruct (qi_wait _ _ Hinv Hc).
Qed.

(** C17. From every state that can be reached, the consumer alone hands on all the
    items that are in the ring, and wakes every producer that waits for room. *)
Theorem l2_queue_drains (zero : A) (producers : Z) (s : queue_sys) :
  0 < SIZE -> 0 <= producers <= SIZE -> rtc (queue_step producers) (init_queue zero) s ->
  exists s', rtc consumer_step s s' /\ qs_in s' = qs_in s /\ qs_out s' = qs_in s /\ qs_waiting s' = 0.
Proof.
  intros HS Hp Hr. pose proof (reach_inv zero producers s HS Hp Hr) as Hinv.
  destruct (drain producers s (proj2 Hp) Hinv) as (s' & Hrtc & Hc & Hl & Hin). exists s'. split; [done|]. split; [done|].
  rewrite <- Hin. apply (empty_ring producers); [lia|by apply (consumer_rtc_inv producers s _ (proj2 Hp))|done..].
Qed.

End Queue.
Arguments l2_queue A : clear implicits.
Arguments queue_sys A : clear implicits.

(** A ring of one place: two items, the second producer waits. *)
Definition example_queue : queue_sys nat := mk_queue_sys (mk_l2_queue [7%nat] 0 1) CTest 1 [7%nat] [].

Lemma example_queue_reached : rtc (queue_step 1 1) (init_queue 1 0%nat) example_queue.
Proof.
  eapply rtc_l; [eapply (QEnqueue 1 1 (init_queue 1 0%nat) 7%nat); [reflexivity|by constructor]|].
  eapply rtc_l; [|reflexivity]. by apply (QFull 1 1 (mk_queue_sys (mk_l2_queue [7%nat] 0 1) CTest 0 [7%nat] []) 8%nat).
Qed.

Lemma l2_queue_fifo_witness : exists rest, qs_in example_queue = qs_out example_queue ++ rest /\ zlen rest <= 1.
Proof. apply (l2_queue_fifo 1 0%nat 1 example_queue); [lia|lia|exact example_queue_reached]. Defined.

Lemma l2_queue_drains_witness : exists s', rtc (consumer_step 1) example_queue s' /\ qs_out s' = [7%nat] /\ qs_waiting s' = 0.
Proof.
  destruct (l2_queue_drains 1 0%nat 1 example_queue) as (s' & Hr & Hi & Ho & Hw); [lia|lia|exact example_queue_reached|].
  exists s'. split; [exact Hr|]. split; [exact Ho|exact Hw].
Defined.
