(* ===== verification/PdcpApi.v ===== *)
(** The bearers of the UEs (openair2/LAYER2/nr_pdcp/nr_pdcp_ue_manager.c,
    nr_pdcp_oai_api.c, nr_pdcp_timer_thread.c): the table of PDCP
    entities, the interface to SDAP, RRC, RLC and F1, and the tick.
    Definitions only.

    The state also holds the SDAP registry and the identifiers of the CU, which
    the callbacks of PDCP use.  What leaves is a list of events; the queues
    towards RLC and from it are in [L2Queue].  A pointer to an entity is its
    place (UE, radio bearer): the tables never share an entity.  The SDUs that
    an entity hands over during an operation go through the callback after it;
    the callback touches nothing that the receiving side of the entity uses.
    The mutex of the manager is recursive and held during each operation. *)

From S2P Require Import Prelude Asn1Utils Sdap Pdcp Hashtable F1apIds.

(** ** The manager *)

Record nr_pdcp_ue_t := mk_pdcp_ue {
  pu_ue_id : Z;
  pu_srb : list (option nr_pdcp_entity);
  pu_drb : list (option nr_pdcp_entity)
}.

Definition new_pdcp_ue (UEid : Z) : nr_pdcp_ue_t :=
  mk_pdcp_ue UEid (replicate 3 None) (replicate (Z.to_nat MAX_DRBS_PER_UE) None).

Section Manager.
Implicit Types (ues : list nr_pdcp_ue_t) (ue : nr_pdcp_ue_t).

Fixpoint find_ue ues (UEid : Z) : option nr_pdcp_ue_t :=
  match ues with
  | [] => None
  | ue :: ues' => if pu_ue_id ue =? UEid then Some ue else find_ue ues' UEid
  end.

(** Writing through the pointer. *)
Fixpoint put_ue ues ue : list nr_pdcp_ue_t :=
  match ues with
  | [] => []
  | x :: ues' => if pu_ue_id x =? pu_ue_id ue then ue :: ues' else x :: put_ue ues' ue
  end.

Definition nr_pdcp_manager_get_ue ues (UEid : Z) : list nr_pdcp_ue_t * nr_pdcp_ue_t :=
  match find_ue ues UEid with
  | Some ue => (ues, ue)
  | None => (ues ++ [new_pdcp_ue UEid], new_pdcp_ue UEid)
  end.

(** The entities that are deleted: two SRBs and the first five DRBs. *)
Definition deleted_entities ue : list nr_pdcp_entity := omap id (take 2 (pu_srb ue)) ++ omap id (take 5 (pu_drb ue)).

Fixpoint nr_pdcp_manager_remove_ue ues (UEid : Z) : list nr_pdcp_ue_t * list nr_pdcp_entity :=
  match ues with
  | [] => ([], [])
  | ue :: ues' =>
      if pu_ue_id ue =? UEid then (ues', deleted_entities ue)
      else let (ues', gone) := nr_pdcp_manager_remove_ue ues' UEid in (ue :: ues', gone)
  end.

Definition nr_pdcp_ue_add_srb_pdcp_entity ue (srb_id : Z) (entity : nr_pdcp_entity) : res nr_pdcp_ue_t :=
  let* _ := assert_ (negb ((srb_id <? 1) || (2 <? srb_id))) in
  let* old := of_opt FBounds (pu_srb ue !! Z.to_nat (srb_id - 1)) in
  let* _ := assert_ (negb (bool_decide (is_Some old))) in
  Ok {| ue with pu_srb := <[Z.to_nat (srb_id - 1) := Some entity]> (pu_srb ue) |}.

Definition nr_pdcp_ue_add_drb_pdcp_entity ue (drb_id : Z) (entity : nr_pdcp_entity) : res nr_pdcp_ue_t :=
  let* _ := assert_ (negb ((drb_id <? 1) || (MAX_DRBS_PER_UE <? drb_id))) in
  let* old := of_opt FBounds (pu_drb ue !! Z.to_nat (drb_id - 1)) in
  let* _ := assert_ (negb (bool_decide (is_Some old))) in
  Ok {| ue with pu_drb := <[Z.to_nat (drb_id - 1) := Some entity]> (pu_drb ue) |}.

Definition nr_pdcp_manager_get_ue_count ues : Z := zlen ues.

Definition nr_pdcp_get_first_ue_id ues : option Z := match ues with [] => None | ue :: _ => Some (pu_ue_id ue) end.

Definition nr_pdcp_get_rb ue (rb_id : Z) (srb_flag : bool) : res (option nr_pdcp_entity) :=
  if srb_flag then
    if (rb_id <? 1) || (2 <? rb_id) then Ok None else of_opt FBounds (pu_srb ue !! Z.to_nat (rb_id - 1))
  else
    if (rb_id <? 1) || (MAX_DRBS_PER_UE <? rb_id) then Ok None else of_opt FBounds (pu_drb ue !! Z.to_nat (rb_id - 1)).

(** Writing to the place of a bearer. *)
Definition put_rb ue (rb_id : Z) (srb_flag : bool) (rb : option nr_pdcp_entity) : nr_pdcp_ue_t :=
  if srb_flag then {| ue with pu_srb := <[Z.to_nat (rb_id - 1) := rb]> (pu_srb ue) |}
  else {| ue with pu_drb := <[Z.to_nat (rb_id - 1) := rb]> (pu_drb ue) |}.

End Manager.

(** ** Layer 2 above RLC *)

Record l2_t := mk_l2 { l2_ues : list nr_pdcp_ue_t; l2_sdap : sdap_t; l2_f1 : f1_ids }.

(** The globals that choose the path: noS1 or NAS over a TUN interface, the CU
    of a split gNB, and whether its F1-U instance exists ([getCxt(0)]). *)
Record l2_mode := mk_l2_mode { nos1_or_tun : bool; node_is_cu : bool; has_f1_cxt : bool }.

Inductive l2_out :=
| OutRlc (enb_flag : bool) (rntiMaybeUEid : Z) (srb_flag : bool) (rb_id mui : Z) (pdu : bytes)
| OutNru (ue_id rb_id : Z) (pdu : bytes)
| OutSdap (o : sdap_out)
| OutUlRrc (du_assoc_id cu_ue_id du_ue_id srb_id : Z) (container : bytes)
| OutDcch (ue_id srb_id : Z) (sdu : bytes) (msg_integrity : nr_pdcp_integrity_data).

Record protocol_ctxt_t := mk_ctxt {
  cx_module_id : Z; cx_instance : Z; cx_eNB_index : Z; cx_brOption : Z; cx_enb_flag : bool; cx_rntiMaybeUEid : Z
}.

(** The fields of PDCP-Config (TS 38.331) that the code reads. *)
Record NR_PDCP_Config__drb := mk_PDCP_Config_drb {
  pdcp_SN_SizeUL : option Z;
  pdcp_SN_SizeDL : option Z;
  discardTimer : option Z;
  integrityProtection : bool
}.

Record NR_PDCP_Config_t := mk_PDCP_Config {
  pc_drb : option NR_PDCP_Config__drb;
  pc_t_Reordering : option Z;
  pc_cipheringDisabled : bool
}.

(** SRB-ToAddMod; no t-Reordering when [pdcp_Config] or its field is NULL. *)
Record NR_SRB_ToAddMod := mk_SRB_ToAddMod { srb_Identity : Z; srb_t_Reordering : option Z }.

Section Api.
Context (keystream_cipher : Z -> bytes -> Z -> Z -> Z -> bytes -> bytes).
Context (mac_of : Z -> bytes -> Z -> Z -> Z -> bytes -> bytes).
Abbreviation process_sdu := (nr_pdcp_entity_process_sdu keystream_cipher mac_of).
Abbreviation recv_pdu := (nr_pdcp_entity_recv_pdu keystream_cipher mac_of).
Context (mode : l2_mode).
Implicit Types (s : l2_t) (e : nr_pdcp_entity).

(** *** Access to a bearer *)

(** [nr_pdcp_manager_get_ue] on the state. *)
Definition get_ue s (ue_id : Z) : l2_t * nr_pdcp_ue_t :=
  let (ues, ue) := nr_pdcp_manager_get_ue (l2_ues s) ue_id in ({| s with l2_ues := ues |}, ue).

Definition store_ue s (ue : nr_pdcp_ue_t) : l2_t := {| s with l2_ues := put_ue (l2_ues s) ue |}.

(** The entity of a bearer, or [none] after the log. *)
Definition on_rb {R} s (ue_id rb_id : Z) (srb_flag : bool) (none : R)
    (f : l2_t -> nr_pdcp_ue_t -> nr_pdcp_entity -> res (l2_t * R)) : res (l2_t * R) :=
  let (s, ue) := get_ue s ue_id in
  let* rb := nr_pdcp_get_rb ue rb_id srb_flag in
  match rb with
  | None => Ok (s, none)
  | Some e => f s ue e
  end.

Definition store_rb s (ue : nr_pdcp_ue_t) (rb_id : Z) (srb_flag : bool) e : l2_t :=
  store_ue s (put_rb ue rb_id srb_flag (Some e)).

(** *** PDUs towards RLC or F1-U *)

Definition deliver_pdu_drb_ue (ue_id rb_id : Z) (buf : bytes) (sdu_id : Z) : list l2_out :=
  [OutRlc false ue_id false rb_id sdu_id buf].

Definition deliver_pdu_drb_gnb s (ue_id rb_id : Z) (buf : bytes) (sdu_id : Z) : res (list l2_out) :=
  let* ue_data := cu_get_f1_ue_data (l2_f1 s) ue_id in
  if node_is_cu mode then
    let* _ := assert_ (has_f1_cxt mode) in
    Ok [OutNru ue_id rb_id buf]
  else Ok [OutRlc true (secondary_ue ue_data) false rb_id sdu_id buf].

Definition deliver_pdu_srb_rlc (ue_id srb_id : Z) (buf : bytes) (sdu_id : Z) : list l2_out :=
  [OutRlc true ue_id true srb_id sdu_id buf].

(** [entity->deliver_pdu], as [nr_pdcp_add_drb] sets it. *)
Definition deliver_pdu_drb s e (ue_id rb_id : Z) (buf : bytes) (sdu_id : Z) : res (list l2_out) :=
  if pe_is_gnb e then deliver_pdu_drb_gnb s ue_id rb_id buf sdu_id else Ok (deliver_pdu_drb_ue ue_id rb_id buf sdu_id).

(** *** SDUs from the layers above *)

Definition nr_pdcp_data_req_drb s (ctxt : protocol_ctxt_t) (srb_flag : bool) (rb_id mui : Z) (sdu_buffer : bytes)
    : res (l2_t * (bool * list l2_out)) :=
  let* _ := assert_ (negb srb_flag) in
  let* _ := assert_ ((cx_module_id ctxt =? 0) && (cx_instance ctxt =? 0) && (cx_eNB_index ctxt =? 0)) in
  let ue_id := cx_rntiMaybeUEid ctxt in
  on_rb s ue_id rb_id false (false, []) (fun s ue e =>
    let* (e, pdu) := process_sdu e sdu_buffer (nr_max_pdcp_pdu_size (zlen sdu_buffer)) in
    let s := store_rb s ue rb_id false e in
    match pdu with
    | None => Ok (s, (false, []))
    | Some pdu_buf =>
        let* outs := deliver_pdu_drb s e ue_id rb_id pdu_buf mui in
        Ok (s, (true, outs))
    end).

(** [deliver_pdu_cb] is given by the caller. *)
Definition nr_pdcp_data_req_srb s (ue_id rb_id mui : Z) (sdu_buffer : bytes)
    (deliver_pdu_cb : Z -> Z -> bytes -> Z -> list l2_out) : res (l2_t * (bool * list l2_out)) :=
  on_rb s ue_id rb_id true (false, []) (fun s ue e =>
    let* (e, pdu) := process_sdu e sdu_buffer (nr_max_pdcp_pdu_size (zlen sdu_buffer)) in
    let s := store_rb s ue rb_id true e in
    match pdu with
    | None => Ok (s, (false, []))
    | Some pdu_buf =>
        let* _ := assert_ (bool_decide (pe_type e = NR_PDCP_SRB)) in
        Ok (s, (true, deliver_pdu_cb ue_id rb_id pdu_buf mui))
    end).

(** *** What SDAP sends: [nr_pdcp_submit_sdap_ctrl_pdu] and [nr_sdap_tx_entity] *)

Definition RLC_MUI_UNDEFINED : Z := 0.

Definition sdap_ctxt (ue_id : Z) : protocol_ctxt_t := mk_ctxt 0 0 0 0 false ue_id.

Fixpoint sdap_outputs s (mui : Z) (outs : list sdap_out) : res (l2_t * list l2_out) :=
  match outs with
  | [] => Ok (s, [])
  | ToPdcp ue_id drb_id pdu :: outs' =>
      let* (s, (_, o1)) := nr_pdcp_data_req_drb s (sdap_ctxt ue_id) false drb_id mui pdu in
      let* (s, o2) := sdap_outputs s mui outs' in
      Ok (s, o1 ++ o2)
  | o :: outs' =>
      let* (s, o2) := sdap_outputs s mui outs' in
      Ok (s, OutSdap o :: o2)
  end.

(** *** SDUs that an entity hands over *)

(** The bearer is found by its place in the table of the UE. *)
Definition deliver_sdu_drb s (ue_id rb_id : Z) e (sdu : nr_pdcp_sdu) : res (l2_t * list l2_out) :=
  let* (sdap, outs) :=
    if nos1_or_tun mode
    then sdap_data_ind (l2_sdap s) (pe_rb_id e) false (pe_pdusession_id e) ue_id (ps_buffer sdu)
    else sdap_data_ind (l2_sdap s) rb_id (pe_is_gnb e) (pe_pdusession_id e) ue_id (ps_buffer sdu) in
  sdap_outputs {| s with l2_sdap := sdap |} RLC_MUI_UNDEFINED outs.

Definition deliver_sdu_srb s (ue_id srb_id : Z) e (sdu : nr_pdcp_sdu) : res (l2_t * list l2_out) :=
  if pe_is_gnb e then
    let* ue_data := cu_get_f1_ue_data (l2_f1 s) ue_id in
    Ok (s, [OutUlRrc (du_assoc_id ue_data) (u32 ue_id) (secondary_ue ue_data) srb_id (ps_buffer sdu)])
  else Ok (s, [OutDcch ue_id srb_id (ps_buffer sdu) (ps_integrity sdu)]).

Fixpoint deliver_sdus s (ue_id rb_id : Z) (srb_flag : bool) e (sdus : list nr_pdcp_sdu) : res (l2_t * list l2_out) :=
  match sdus with
  | [] => Ok (s, [])
  | sdu :: sdus' =>
      let* (s, o1) := if srb_flag then deliver_sdu_srb s ue_id rb_id e sdu else deliver_sdu_drb s ue_id rb_id e sdu in
      let* (s, o2) := deliver_sdus s ue_id rb_id srb_flag e sdus' in
      Ok (s, o1 ++ o2)
  end.

(** An operation of the entity, then the callbacks. *)
Definition run_entity s (ue : nr_pdcp_ue_t) (rb_id : Z) (srb_flag : bool) (op : res (nr_pdcp_entity * list nr_pdcp_sdu))
    : res (l2_t * list l2_out) :=
  let* (e, sdus) := op in
  deliver_sdus (store_rb s ue rb_id srb_flag e) (pu_ue_id ue) rb_id srb_flag e sdus.

(** *** PDUs from RLC or F1-U *)

Definition do_pdcp_data_ind s (ctxt : protocol_ctxt_t) (srb_flag : bool) (rb_id : Z) (sdu_buffer : bytes)
    : res (l2_t * list l2_out) :=
  let* _ := assert_ ((cx_module_id ctxt =? 0) && (cx_instance ctxt =? 0) && (cx_eNB_index ctxt =? 0) && (cx_brOption ctxt =? 0)) in
  on_rb s (cx_rntiMaybeUEid ctxt) rb_id srb_flag [] (fun s ue e =>
    run_entity s ue rb_id srb_flag (recv_pdu e sdu_buffer)).

(** What the consumer of the queue executes for an item of [cu_f1u_data_req]. *)
Definition cu_f1u_data_req s (ctxt : protocol_ctxt_t) (srb_flag : bool) (rb_id : Z) (sdu_buffer : bytes)
    : res (l2_t * list l2_out) :=
  do_pdcp_data_ind s {| ctxt with cx_instance := 0 |} srb_flag rb_id sdu_buffer.

(** *** Creation of bearers *)

Definition add_srb s (is_gnb : bool) (UEid : Z) (srb : NR_SRB_ToAddMod) (security : nr_pdcp_security) : res l2_t :=
  let srb_id := srb_Identity srb in
  let* t_Reordering := match srb_t_Reordering srb with Some t => decode_t_reordering t | None => Ok (-1) end in
  let (s, ue) := get_ue s UEid in
  let* rb := nr_pdcp_get_rb ue srb_id true in
  match rb with
  | Some _ => Ok s
  | None =>
      let* pdcp_srb := new_nr_pdcp_entity NR_PDCP_SRB is_gnb srb_id 0 false false SHORT_SN_SIZE t_Reordering (-1) security in
      let* ue := nr_pdcp_ue_add_srb_pdcp_entity ue srb_id pdcp_srb in
      Ok (store_ue s ue)
  end.

Fixpoint nr_pdcp_add_srbs s (is_gnb : bool) (UEid : Z) (srb2add_list : list NR_SRB_ToAddMod) (security : nr_pdcp_security) : res l2_t :=
  match srb2add_list with
  | [] => Ok s
  | srb :: srbs => let* s := add_srb s is_gnb UEid srb security in nr_pdcp_add_srbs s is_gnb UEid srbs security
  end.

(** A field that the code dereferences without a test. *)
Definition deref (v : option Z) : res Z := of_opt FBounds v.

Definition nr_pdcp_add_drb s (is_gnb : bool) (UEid : Z) (pdcp : NR_PDCP_Config_t) (sdap : sdap_config_t) (security : nr_pdcp_security)
    : res l2_t :=
  match pc_drb pdcp with
  | None => Ok s
  | Some drb =>
      let* ul := deref (pdcp_SN_SizeUL drb) in
      let* sn_size_ul := decode_sn_size_ul ul in
      let* dl := deref (pdcp_SN_SizeDL drb) in
      let* sn_size_dl := decode_sn_size_dl dl in
      let* discard := deref (discardTimer drb) in
      let* discard_timer := decode_discard_timer discard in
      let* t_reordering := match pc_t_Reordering pdcp with Some t => decode_t_reordering t | None => Ok (-1) end in
      let has_integrity := integrityProtection drb in
      let has_ciphering := negb (pc_cipheringDisabled pdcp) in
      let actual :=
        {| security with ciphering_algorithm := if has_ciphering then ciphering_algorithm security else 0;
                         integrity_algorithm := if has_integrity then integrity_algorithm security else 0 |} in
      let (s, ue) := get_ue s UEid in
      let* rb := nr_pdcp_get_rb ue (sc_drb_id sdap) false in
      match rb with
      | Some _ => Ok s
      | None =>
          let* _ := assert_ (sn_size_ul =? sn_size_dl) in
          let* pdcp_drb := new_nr_pdcp_entity NR_PDCP_DRB_AM is_gnb (sc_drb_id sdap) (sc_pdusession_id sdap)
                             (has_role (sc_role sdap) (Z.lor SDAP_UL_RX SDAP_DL_RX))
                             (has_role (sc_role sdap) (Z.lor SDAP_UL_TX SDAP_DL_TX))
                             sn_size_dl t_reordering discard_timer actual in
          let* ue := nr_pdcp_ue_add_drb_pdcp_entity ue (sc_drb_id sdap) pdcp_drb in
          Ok (store_ue s ue)
      end
  end.

(** *** Reconfiguration, suspension, re-establishment *)

Definition nr_pdcp_config_set_security s (ue_id rb_id : Z) (is_srb : bool) (parameters : nr_pdcp_security) : res (l2_t * list l2_out) :=
  on_rb s ue_id rb_id is_srb [] (fun s ue e =>
    let* e := nr_pdcp_entity_set_security e parameters in
    Ok (store_rb s ue rb_id is_srb e, [])).

Definition nr_pdcp_check_integrity_srb s (ue_id srb_id : Z) (msg : bytes) (msg_integrity : nr_pdcp_integrity_data) : res (l2_t * bool) :=
  on_rb s ue_id srb_id true false (fun s ue e =>
    let* ret := nr_pdcp_entity_check_integrity mac_of e msg msg_integrity in
    Ok (s, ret)).

Definition nr_pdcp_suspend_srb s (ue_id srb_id : Z) : res (l2_t * list l2_out) :=
  on_rb s ue_id srb_id true [] (fun s ue e => run_entity s ue srb_id true (Ok (nr_pdcp_entity_suspend e))).

Definition nr_pdcp_suspend_drb s (ue_id drb_id : Z) : res (l2_t * list l2_out) :=
  on_rb s ue_id drb_id false [] (fun s ue e => run_entity s ue drb_id false (Ok (nr_pdcp_entity_suspend e))).

Definition nr_pdcp_reconfigure_srb s (ue_id srb_id t_Reordering : Z) : res (l2_t * list l2_out) :=
  on_rb s ue_id srb_id true [] (fun s ue e =>
    let* decoded := decode_t_reordering t_Reordering in
    Ok (store_rb s ue srb_id true {| e with pe_t_reordering := decoded |}, [])).

Definition reconfigure_drb_entity e (c : NR_PDCP_Config_t) : res nr_pdcp_entity :=
  let* t := match pc_t_Reordering c with Some t => decode_t_reordering t | None => Ok (-1) end in
  let e := {| e with pe_t_reordering := t |} in
  match pc_drb c with
  | None => Ok e
  | Some drb_config =>
      let* e := match discardTimer drb_config with
                | Some d => let* d := decode_discard_timer d in Ok {| e with pe_discard_timer := d |}
                | None => Ok e
                end in
      let* (e, size_set) := match pdcp_SN_SizeUL drb_config with
                            | Some u => let* u := decode_sn_size_ul u in Ok ({| e with pe_sn_size := u |}, true)
                            | None => Ok (e, false)
                            end in
      match pdcp_SN_SizeDL drb_config with
      | Some d =>
          let* size := decode_sn_size_dl d in
          let* _ := assert_ (negb size_set || (size =? pe_sn_size e)) in
          Ok {| e with pe_sn_size := size |}
      | None => Ok e
      end
  end.

Definition nr_pdcp_reconfigure_drb s (ue_id drb_id : Z) (pdcp_config : option NR_PDCP_Config_t) : res (l2_t * list l2_out) :=
  on_rb s ue_id drb_id false [] (fun s ue e =>
    match pdcp_config with
    | None => Ok (s, [])
    | Some c => let* e := reconfigure_drb_entity e c in Ok (store_rb s ue drb_id false e, [])
    end).

Definition nr_pdcp_reestablishment s (ue_id rb_id : Z) (srb_flag : bool) (security : nr_pdcp_security) : res (l2_t * list l2_out) :=
  on_rb s ue_id rb_id srb_flag [] (fun s ue e => run_entity s ue rb_id srb_flag (reestablish_entity e security)).

(** *** Release *)

Definition nr_pdcp_release_srb s (ue_id srb_id : Z) : res l2_t :=
  let (s, ue) := get_ue s ue_id in
  let* rb := if srb_id <? 1 then Fail FBounds else of_opt FBounds (pu_srb ue !! Z.to_nat (srb_id - 1)) in
  match rb with
  | Some _ => Ok (store_ue s (put_rb ue srb_id true None))
  | None => Ok s
  end.

(** SDAP forgets the bearer first; the entity hands its SDUs over after. *)
Definition nr_pdcp_release_drb s (ue_id drb_id : Z) : res (l2_t * list l2_out) :=
  let (s, ue) := get_ue s ue_id in
  let* rb := if drb_id <? 1 then Fail FBounds else of_opt FBounds (pu_drb ue !! Z.to_nat (drb_id - 1)) in
  match rb with
  | Some e =>
      let s := {| s with l2_sdap := nr_sdap_release_drb (l2_sdap s) ue_id drb_id (pe_pdusession_id e) |} in
      let* (s, outs) := run_entity s ue drb_id false (Ok (nr_pdcp_entity_release e)) in
      let (s, ue) := get_ue s ue_id in
      Ok (store_ue s (put_rb ue drb_id false None), outs)
  | None => Ok (s, [])
  end.

Definition nr_pdcp_remove_UE s (ue_id : Z) : l2_t := {| s with l2_ues := (nr_pdcp_manager_remove_ue (l2_ues s) ue_id).1 |}.

(** *** Queries *)

Definition nr_pdcp_get_statistics s (ue_id rb_id : Z) (srb_flag : bool) : res (l2_t * option nr_pdcp_statistics) :=
  on_rb s ue_id rb_id srb_flag None (fun s ue e => Ok (s, Some (nr_pdcp_entity_get_stats e))).

Definition nr_pdcp_get_num_ues s (len : Z) : Z * list Z :=
  (nr_pdcp_manager_get_ue_count (l2_ues s), take (Z.to_nat len) (map pu_ue_id (l2_ues s))).

Definition nr_pdcp_get_drb_ids_for_pdusession s (ue_id pdusession_id : Z) : l2_t * list Z :=
  let (s, ue) := get_ue s ue_id in
  (s, omap (fun rb => match rb with
                      | Some e => if pe_pdusession_id e =? pdusession_id then Some (pe_rb_id e) else None
                      | None => None
                      end) (pu_drb ue)).

Definition nr_pdcp_count_update s (ue_id drb_id : Z) (dl_count ul_count : nr_pdcp_count) (sn_size : Z) : res (l2_t * list l2_out) :=
  on_rb s ue_id drb_id false [] (fun s ue e =>
    let e := nr_pdcp_entity_set_count_dl e dl_count sn_size in
    let e := nr_pdcp_entity_set_count_ul e ul_count sn_size in
    Ok (store_rb s ue drb_id false e, [])).

Definition nr_pdcp_get_drb_count_values s (ue_id rb_id : Z) : res (l2_t * option (nr_pdcp_count * nr_pdcp_count)) :=
  on_rb s ue_id rb_id false None (fun s ue e =>
    Ok (s, Some (nr_pdcp_entity_get_count_ul e, nr_pdcp_entity_get_count_dl e))).

(** *** The tick (nr_pdcp_timer_thread) *)

Definition tick_rb s (ue_id curtime : Z) (rb_id : Z) (srb_flag : bool) : res (l2_t * list l2_out) :=
  match find_ue (l2_ues s) ue_id with
  | None => Ok (s, [])
  | Some ue =>
      let* rb := nr_pdcp_get_rb ue rb_id srb_flag in
      match rb with
      | Some e => run_entity s ue rb_id srb_flag (Ok (nr_pdcp_entity_set_time e curtime))
      | None => Ok (s, [])
      end
  end.

Fixpoint tick_rbs s (ue_id curtime : Z) (rbs : list (Z * bool)) : res (l2_t * list l2_out) :=
  match rbs with
  | [] => Ok (s, [])
  | (rb_id, srb_flag) :: rbs' =>
      let* (s, o1) := tick_rb s ue_id curtime rb_id srb_flag in
      let* (s, o2) := tick_rbs s ue_id curtime rbs' in
      Ok (s, o1 ++ o2)
  end.

(** Two SRBs and five DRBs of each UE. *)
Definition ticked_rbs : list (Z * bool) := [(1, true); (2, true); (1, false); (2, false); (3, false); (4, false); (5, false)].

Fixpoint tick_ues s (curtime : Z) (ue_ids : list Z) : res (l2_t * list l2_out) :=
  match ue_ids with
  | [] => Ok (s, [])
  | ue_id :: ue_ids' =>
      let* (s, o1) := tick_rbs s ue_id curtime ticked_rbs in
      let* (s, o2) := tick_ues s curtime ue_ids' in
      Ok (s, o1 ++ o2)
  end.

(** One round of [nr_pdcp_timer_thread]. *)
Definition nr_pdcp_timer_round s (curtime : Z) : res (l2_t * list l2_out) := tick_ues s curtime (map pu_ue_id (l2_ues s)).

(** [sdap_data_req] down to the PDCP PDU. *)
Definition l2_data_req s (ctxt : protocol_ctxt_t) (pdusession_id mui : Z) (sdu : bytes) (qfi : Z) (rqi : bool)
    : res (l2_t * (bool * list l2_out)) :=
  let* t := sdap_data_req (l2_sdap s) (cx_rntiMaybeUEid ctxt) pdusession_id sdu qfi rqi in
  match t with
  | TxDropped => Ok (s, (false, []))
  | TxSubmit drb_id pdu => nr_pdcp_data_req_drb s ctxt false drb_id mui pdu
  end.

End Api.
