(* ===== verification/PdcpApiInv.v ===== *)
(** The invariant of the tables of bearers, for every sequence of operations:
    one entry per UE, every entity at the place of its bearer, and no clock in
    the bearers that the tick leaves out. *)

From S2P Require Import Prelude Asn1Utils Sdap SdapTrace Pdcp Hashtable F1apIds PdcpApi.

(** ** What an operation on an entity keeps *)

(** Type, number and clock stay; without a clock no t-Reordering starts. *)
Record keeps_rb (e e' : nr_pdcp_entity) : Prop := {
  kr_type : pe_type e' = pe_type e;
  kr_rb_id : pe_rb_id e' = pe_rb_id e;
  kr_clock : pe_t_current e' = pe_t_current e;
  kr_timer : pe_t_current e = 0 -> pe_t_reordering_start e = 0 -> pe_t_reordering_start e' = 0
}.

#[global] Instance keeps_rb_preorder : PreOrder keeps_rb.
Proof.
  split; [by intros e; split|]. intros e1 e2 e3 [T1 R1 C1 S1] [T2 R2 C2 S2].
  split; [congruence|congruence|congruence|]. intros Hc Hs. apply S2; [congruence|by apply S1].
Qed.

Ltac keeps := try solve [by split | by split; auto].

Section Entity.
Implicit Types (e : nr_pdcp_entity).

Lemma keeps_stats e f : keeps_rb e (pdcp_stats f e).
Proof. keeps. Qed.

Lemma keeps_deliver e cur l : keeps_rb e (pdcp_deliver e cur l).
Proof. keeps. Qed.

Lemma keeps_consecutive l : forall c e, keeps_rb e (deliver_consecutive l c e).1.1.
Proof.
  induction l as [|cur l IH]; intros c e; simpl; [done|]. destruct (_ =? _); [|done].
  specialize (IH (u32 (c + 1)) (pdcp_deliver e cur l)). destruct (deliver_consecutive _ _ _) as [[e' c'] ev]. simpl in *.
  etransitivity; [apply (keeps_deliver e cur l)|done].
Qed.

Lemma keeps_before l : forall e, keeps_rb e (deliver_before l e).1.
Proof.
  induction l as [|cur l IH]; intros e; simpl; [done|]. destruct (_ <? _); [|done].
  specialize (IH (pdcp_deliver e cur l)). destruct (deliver_before _ _) as [e' ev]. simpl in *.
  etransitivity; [apply (keeps_deliver e cur l)|done].
Qed.

Lemma keeps_all l : forall e, keeps_rb e (deliver_all l e).1.
Proof.
  induction l as [|cur l IH]; intros e; simpl; [done|].
  specialize (IH (pdcp_deliver e cur l)). destruct (deliver_all _ _) as [e' ev]. simpl in *.
  etransitivity; [apply (keeps_deliver e cur l)|done].
Qed.

Lemma keeps_free l : forall e, keeps_rb e (free_list l e).
Proof. induction l as [|cur l IH]; intros e; simpl; [done|]. etransitivity; [|apply IH]. apply keeps_stats. Qed.

Lemma keeps_update e : keeps_rb e (pdcp_reordering_update e).
Proof. unfold pdcp_reordering_update. repeat case_match; keeps. Qed.

Lemma keeps_accept e sdu n : keeps_rb e (pdcp_accept e sdu n).1.
Proof.
  unfold pdcp_accept. set (e1 := {| e with pe_rx_list := _; pe_rx_size := _ |}). set (e2 := if _ <=? _ then _ else e1).
  assert (H2 : keeps_rb e e2) by (subst e2 e1; case_match; keeps). clearbody e2.
  destruct (_ =? _).
  - pose proof (keeps_consecutive (pe_rx_list e2) (pe_rx_deliv e2) e2) as H3. destruct (deliver_consecutive _ _ _) as [[e3 c] ev]. simpl in *.
    etransitivity; [exact H2|]. etransitivity; [exact H3|]. etransitivity; [|apply keeps_update]. keeps.
  - simpl. etransitivity; [exact H2|apply keeps_update].
Qed.

Lemma keeps_set_security e p e' : nr_pdcp_entity_set_security e p = Ok e' -> keeps_rb e e'.
Proof.
  unfold nr_pdcp_entity_set_security. intros (e1 & H1 & H2)%rbind_ok.
  assert (Hs : keeps_rb e (store_keys e p)) by (unfold store_keys; repeat case_match; keeps).
  assert (Hi : keeps_rb (store_keys e p) e1).
  { revert H1. unfold install_integrity. repeat case_match; intros [= <-]; keeps. }
  assert (Hc : keeps_rb e1 e').
  { revert H2. unfold install_ciphering. repeat case_match; intros [= <-]; keeps. }
  by etransitivity; [|etransitivity].
Qed.

Lemma keeps_suspend e : keeps_rb e (nr_pdcp_entity_suspend e).1.
Proof.
  unfold nr_pdcp_entity_suspend, deliver_all_sdus. destruct (negb _); simpl; [|keeps].
  match goal with |- context [deliver_all ?l ?x] => pose proof (keeps_all l x) as H; destruct (deliver_all l x) as [e' ev] end.
  simpl in *. destruct H as [T R C S]. split; simpl in *; auto.
Qed.

Lemma keeps_release e : keeps_rb e (nr_pdcp_entity_release e).1.
Proof. apply keeps_all. Qed.

Lemma keeps_reestablish e p e' ev : reestablish_entity e p = Ok (e', ev) -> keeps_rb e e'.
Proof.
  unfold reestablish_entity. destruct (pe_type e).
  - unfold nr_pdcp_entity_reestablish_drb_am. intros (e1 & H1 & [= <- <-])%rbind_ok. apply keeps_set_security in H1.
    etransitivity; [exact H1|keeps].
  - unfold nr_pdcp_entity_reestablish_drb_um, deliver_all_sdus. destruct (negb _); simpl.
    + match goal with |- context [deliver_all ?l ?x] => pose proof (keeps_all l x) as H; destruct (deliver_all l x) as [e1 ev1] end.
      intros (e2 & H2 & [= <- <-])%rbind_ok. apply keeps_set_security in H2. simpl in H.
      transitivity e1; [destruct H as [T R C S]; split; simpl in *; auto|]. etransitivity; [|etransitivity; [exact H2|]]; keeps.
    + intros (e2 & H2 & [= <- <-])%rbind_ok. apply keeps_set_security in H2. etransitivity; [|etransitivity; [exact H2|]]; keeps.
  - unfold nr_pdcp_entity_reestablish_srb, free_rx_list. intros (e2 & H2 & [= <- <-])%rbind_ok. apply keeps_set_security in H2. simpl in H2.
    etransitivity; [|etransitivity; [exact H2|]]; [|keeps].
    match goal with |- context [free_list ?l ?x] => pose proof (keeps_free l x) as [T R C S] end. split; simpl in *; auto.
Qed.

Lemma keeps_reconfigure e c e' : reconfigure_drb_entity e c = Ok e' -> keeps_rb e e'.
Proof.
  unfold reconfigure_drb_entity. intros (t & _ & H)%rbind_ok. destruct (pc_drb c) as [d|]; [|injection H as <-; keeps].
  apply rbind_ok in H as (e1 & H1 & H). apply rbind_ok in H as ([e2 b] & H2 & H).
  assert (K1 : keeps_rb e e1).
  { destruct (discardTimer d); [apply rbind_ok in H1 as (? & _ & [= <-])|injection H1 as <-]; keeps. }
  assert (K2 : keeps_rb e1 e2).
  { destruct (pdcp_SN_SizeUL d); [apply rbind_ok in H2 as (? & _ & [= <- <-])|injection H2 as <- <-]; keeps. }
  assert (K3 : keeps_rb e2 e').
  { destruct (pdcp_SN_SizeDL d); [apply rbind_ok in H as (? & _ & H); apply rbind_ok in H as (? & _ & [= <-])|injection H as <-]; keeps. }
  by etransitivity; [|etransitivity].
Qed.

Section Crypto.
Context (kc mac : Z -> bytes -> Z -> Z -> Z -> bytes -> bytes).

Lemma keeps_process e sdu max e' pdu : nr_pdcp_entity_process_sdu kc mac e sdu max = Ok (e', pdu) -> keeps_rb e e'.
Proof.
  unfold nr_pdcp_entity_process_sdu. intros (_ & _ & H)%rbind_ok. destruct (pe_entity_suspended e); [injection H as <- _; keeps|].
  apply rbind_ok in H as (b1 & _ & H). apply rbind_ok in H as (b2 & _ & H). injection H as <- _. keeps.
Qed.

Lemma keeps_recv_data e b c r : pdcp_recv_data kc mac e b c = Ok r -> keeps_rb e r.1.
Proof.
  unfold pdcp_recv_data. intros (mi & _ & H)%rbind_ok. apply rbind_ok in H as (b1 & _ & H). apply rbind_ok in H as (ok & _ & H).
  destruct (negb ok); [injection H as <-; keeps|]. destruct (_ || _); [injection H as <-; keeps|].
  apply rbind_ok in H as (d & _ & [= <-]). apply keeps_accept.
Qed.

Lemma keeps_recv e b r : nr_pdcp_entity_recv_pdu kc mac e b = Ok r -> keeps_rb e r.1.
Proof.
  unfold nr_pdcp_entity_recv_pdu. destruct (pe_entity_suspended e); [intros [= <-]; keeps|].
  destruct (_ <? 1); [intros [= <-]; keeps|]. intros (b0 & _ & H)%rbind_ok. apply rbind_ok in H as (sn & _ & H).
  destruct (_ <? _); [injection H as <-; keeps|]. apply keeps_recv_data in H. etransitivity; [|exact H]. keeps.
Qed.

End Crypto.

End Entity.

Lemma set_time_same e now : let e' := (nr_pdcp_entity_set_time e now).1 in pe_type e' = pe_type e /\ pe_rb_id e' = pe_rb_id e.
Proof.
  unfold nr_pdcp_entity_set_time, check_t_reordering. destruct (_ =? -1); [done|]. destruct (_ || _); [done|]. simpl.
  match goal with |- context [deliver_before ?l ?x] => pose proof (keeps_before l x) as H; destruct (deliver_before l x) as [e1 ev1] end.
  pose proof (keeps_consecutive (pe_rx_list e1) (pe_rx_reord e1) e1) as H2. destruct (deliver_consecutive _ _ _) as [[e2 c] ev2]. simpl in *.
  destruct H as [T R _ _], H2 as [T2 R2 _ _]. simpl in *. case_match; split; simpl; congruence.
Qed.

(** ** Well-formed tables *)

(** The entity at a place: the bearer's, SRB 1 or 2 or one of 32 DRBs, and for the
    DRBs from 6 on one whose clock never started. *)
Record slot_ok (srb_flag : bool) (slot : Z) (e : nr_pdcp_entity) : Prop := {
  so_place : 1 <= slot <= if srb_flag then 2 else 32;
  so_rb_id : pe_rb_id e = slot;
  so_type : pe_type e = if srb_flag then NR_PDCP_SRB else NR_PDCP_DRB_AM;
  so_clock : srb_flag = false -> 5 < slot -> pe_t_current e = 0 /\ pe_t_reordering_start e = 0
}.

Lemma keeps_slot b k e e' : keeps_rb e e' -> slot_ok b k e -> slot_ok b k e'.
Proof.
  intros [T R C S] [Hp Hr Ht Hc]. split; [done|congruence|congruence|]. intros Hb Hk. destruct (Hc Hb Hk). split; [congruence|auto].
Qed.

Definition slots_ok (srb_flag : bool) (l : list (option nr_pdcp_entity)) : Prop :=
  forall i e, l !! i = Some (Some e) -> slot_ok srb_flag (Z.of_nat i + 1) e.

Record pdcp_ue_wf (ue : nr_pdcp_ue_t) : Prop := {
  uw_srb_length : length (pu_srb ue) = 3%nat;
  uw_drb_length : length (pu_drb ue) = 32%nat;
  uw_srb : slots_ok true (pu_srb ue);
  uw_drb : slots_ok false (pu_drb ue)
}.

Record l2_wf (s : l2_t) : Prop := {
  lw_ids : NoDup (map pu_ue_id (l2_ues s));
  lw_ues : Forall pdcp_ue_wf (l2_ues s)
}.

Lemma new_ue_wf ue_id : pdcp_ue_wf (new_pdcp_ue ue_id).
Proof. split; [done|done|..]; intros i e H; by apply lookup_replicate in H as [? _]. Qed.

Lemma slots_insert b l k rb : slots_ok b l -> 1 <= k -> (forall e, rb = Some e -> slot_ok b k e) -> slots_ok b (<[Z.to_nat (k - 1) := rb]> l).
Proof.
  intros Hl Hk Hrb i e Hi. apply list_lookup_insert_Some in Hi as [(<- & -> & _)|[_ Hi]]; [|by apply Hl].
  replace (Z.of_nat (Z.to_nat (k - 1)) + 1) with k by lia. by apply Hrb.
Qed.

Lemma put_rb_wf ue k b rb : pdcp_ue_wf ue -> 1 <= k -> (forall e, rb = Some e -> slot_ok b k e) -> pdcp_ue_wf (put_rb ue k b rb).
Proof.
  intros [H1 H2 H3 H4] Hk Hrb. unfold put_rb. destruct b; split; simpl; try done; try by rewrite length_insert.
  - by apply slots_insert.
  - by apply slots_insert.
Qed.

Lemma get_rb_ok ue k b : pdcp_ue_wf ue -> exists rb, nr_pdcp_get_rb ue k b = Ok rb /\
  forall e, rb = Some e -> slot_ok b k e /\ 1 <= k <= if b then 2 else 32.
Proof.
  intros [H1 H2 H3 H4]. unfold nr_pdcp_get_rb, MAX_DRBS_PER_UE.
  assert (Hgen : forall (l : list (option nr_pdcp_entity)) n, slots_ok b l -> n <= zlen l ->
    exists rb, (if (k <? 1) || (n <? k) then Ok None else of_opt FBounds (l !! Z.to_nat (k - 1))) = Ok rb /\
      forall e, rb = Some e -> slot_ok b k e /\ 1 <= k <= n).
  { intros l n Hl Hn. destruct (Z.ltb_spec k 1); [by eexists|]. destruct (Z.ltb_spec n k); [by eexists|]. cbn [orb].
    destruct (lookup_lt_is_Some_2 l (Z.to_nat (k - 1))) as [rb Hrb]; [unfold zlen in Hn; lia|]. rewrite Hrb. exists rb. split; [done|].
    intros e ->. apply Hl in Hrb. replace (Z.of_nat (Z.to_nat (k - 1)) + 1) with k in Hrb by lia. split; [done|lia]. }
  destruct b; [apply Hgen; [done|unfold zlen; lia]|apply Hgen; [done|unfold zlen; lia]].
Qed.

Lemma find_ue_some ues ue_id ue : find_ue ues ue_id = Some ue -> ue ∈ ues /\ pu_ue_id ue = ue_id.
Proof.
  induction ues as [|x ues IH]; simpl; [done|]. destruct (Z.eqb_spec (pu_ue_id x) ue_id).
  - intros [= <-]. split; [left|done].
  - intros H. destruct (IH H). split; [by right|done].
Qed.

Lemma find_ue_none ues ue_id : find_ue ues ue_id = None -> ue_id ∉ map pu_ue_id ues.
Proof.
  induction ues as [|x ues IH]; simpl; [set_solver|]. destruct (Z.eqb_spec (pu_ue_id x) ue_id); [done|].
  intros H. rewrite not_elem_of_cons. split; [congruence|by apply IH].
Qed.

Lemma find_put ues ue : find_ue ues (pu_ue_id ue) <> None -> find_ue (put_ue ues ue) (pu_ue_id ue) = Some ue.
Proof.
  induction ues as [|x ues IH]; simpl; [done|]. destruct (Z.eqb_spec (pu_ue_id x) (pu_ue_id ue)) as [He|He]; simpl.
  - by rewrite Z.eqb_refl.
  - rewrite (proj2 (Z.eqb_neq _ _)) by done. apply IH.
Qed.

Lemma find_app ues x ue_id : find_ue ues ue_id = None -> find_ue (ues ++ [x]) ue_id = if pu_ue_id x =? ue_id then Some x else None.
Proof. induction ues as [|y ues IH]; simpl; [done|]. by destruct (pu_ue_id y =? ue_id). Qed.

Lemma put_ids ues ue : map pu_ue_id (put_ue ues ue) = map pu_ue_id ues.
Proof.
  induction ues as [|x ues IH]; simpl; [done|]. destruct (Z.eqb_spec (pu_ue_id x) (pu_ue_id ue)) as [->|]; simpl; [done|]. by rewrite IH.
Qed.

Lemma store_wf s ue : l2_wf s -> pdcp_ue_wf ue -> l2_wf (store_ue s ue).
Proof.
  intros [Hi Hu] Hw. split; simpl; [by rewrite put_ids|]. clear Hi.
  induction Hu as [|x ues Hx Hu IH]; simpl; [constructor|]. destruct (_ =? _); by constructor.
Qed.

Lemma get_ue_wf s ue_id : l2_wf s -> let '(s', ue) := get_ue s ue_id in
  l2_wf s' /\ pdcp_ue_wf ue /\ pu_ue_id ue = ue_id /\ find_ue (l2_ues s') ue_id = Some ue /\ l2_sdap s' = l2_sdap s /\ l2_f1 s' = l2_f1 s.
Proof.
  intros [Hi Hu]. unfold get_ue, nr_pdcp_manager_get_ue. destruct (find_ue (l2_ues s) ue_id) as [ue|] eqn:Hf.
  - destruct (find_ue_some _ _ _ Hf) as [Hin Hid]. split; [by split|]. rewrite Forall_forall in Hu.
    split; [by apply Hu|]. by split.
  - split; [split; simpl|].
    + rewrite map_app. apply NoDup_app. split; [done|]. split; [|apply NoDup_singleton]. intros x Hx ->%list_elem_of_singleton. by apply find_ue_none in Hf.
    + apply Forall_app. split; [done|]. constructor; [apply new_ue_wf|constructor].
    + split; [apply new_ue_wf|]. split; [done|]. split; [|done]. simpl. rewrite (find_app _ _ _ Hf). simpl. by rewrite Z.eqb_refl.
Qed.

Section Steps.
Context (kc mac : Z -> bytes -> Z -> Z -> Z -> bytes -> bytes) (mode : l2_mode).

Lemma on_rb_wf {R} s ue_id k b (none : R) f s' r : l2_wf s -> on_rb s ue_id k b none f = Ok (s', r) ->
  (forall s1 ue e, l2_wf s1 -> pdcp_ue_wf ue -> slot_ok b k e -> 1 <= k <= (if b then 2 else 32) -> f s1 ue e = Ok (s', r) -> l2_wf s') ->
  l2_wf s'.
Proof.
  intros Hs Ho Hf. unfold on_rb in Ho. pose proof (get_ue_wf s ue_id Hs) as Hg. destruct (get_ue s ue_id) as [s1 ue].
  destruct Hg as (H1 & Hu & _). destruct (get_rb_ok ue k b Hu) as (rb & Hrb & Hslot). rewrite Hrb in Ho. simpl in Ho.
  destruct rb as [e|]; [|by injection Ho as <- _]. destruct (Hslot e eq_refl). by apply (Hf s1 ue e).
Qed.

Lemma store_rb_wf s ue k b e : l2_wf s -> pdcp_ue_wf ue -> 1 <= k -> slot_ok b k e -> l2_wf (store_rb s ue k b e).
Proof. intros Hs Hu Hk He. apply store_wf; [done|]. apply put_rb_wf; [done|done|]. by intros ? [= <-]. Qed.

Lemma data_req_wf s ctxt b k mui sdu s' r : l2_wf s -> nr_pdcp_data_req_drb kc mac mode s ctxt b k mui sdu = Ok (s', r) -> l2_wf s'.
Proof.
  intros Hs H. unfold nr_pdcp_data_req_drb in H. apply rbind_ok in H as (_ & _ & H). apply rbind_ok in H as (_ & _ & H).
  eapply on_rb_wf; [exact Hs|exact H|]. intros s1 ue e H1 Hu He Hk Hf. apply rbind_ok in Hf as ([e' pdu] & Hp & Hf).
  assert (Hst : l2_wf (store_rb s1 ue k false e')) by (apply store_rb_wf; [done|done|lia|]; by eapply keeps_slot; [eapply keeps_process|]).
  destruct pdu; [apply rbind_ok in Hf as (o & _ & [= <- _])|injection Hf as <- _]; exact Hst.
Qed.

Lemma sdap_outputs_wf mui outs : forall s s' r, l2_wf s -> sdap_outputs kc mac mode s mui outs = Ok (s', r) -> l2_wf s'.
Proof.
  induction outs as [|o outs IH]; intros s s' r Hs H; simpl in H; [by injection H as <- _|].
  destruct o; [apply rbind_ok in H as ([s1 [b o1]] & H1 & H); apply data_req_wf in H1; [|done]|..];
    apply rbind_ok in H as ([s2 o2] & H2 & [= <- _]); eapply IH; eauto.
Qed.

Lemma deliver_wf ue_id k b e sdus : forall s s' r, l2_wf s -> deliver_sdus kc mac mode s ue_id k b e sdus = Ok (s', r) -> l2_wf s'.
Proof.
  induction sdus as [|sdu sdus IH]; intros s s' r Hs H; simpl in H; [by injection H as <- _|].
  apply rbind_ok in H as ([s1 o1] & H1 & H). apply rbind_ok in H as ([s2 o2] & H2 & [= <- _]). eapply IH; [|exact H2].
  destruct b; revert H1; unfold deliver_sdu_srb, deliver_sdu_drb.
  - destruct (pe_is_gnb e); [intros (? & _ & [= <- _])%rbind_ok|intros [= <- _]]; done.
  - intros ([sd outs] & _ & H1)%rbind_ok. eapply sdap_outputs_wf; [|exact H1]. destruct Hs. by split.
Qed.

Lemma run_entity_wf s ue k b op s' r : l2_wf s -> pdcp_ue_wf ue -> 1 <= k -> (forall e ev, op = Ok (e, ev) -> slot_ok b k e) ->
  run_entity kc mac mode s ue k b op = Ok (s', r) -> l2_wf s'.
Proof.
  intros Hs Hu Hk Hop H. unfold run_entity in H. apply rbind_ok in H as ([e ev] & -> & H). eapply deliver_wf; [|exact H].
  apply store_rb_wf; [done|done|done|]. by apply (Hop e ev).
Qed.

End Steps.

(** ** Every operation *)

Inductive l2_op :=
| LDataReq (ctxt : protocol_ctxt_t) (pdusession_id mui : Z) (sdu : bytes) (qfi : Z) (rqi : bool)
| LPdcpReqDrb (ctxt : protocol_ctxt_t) (srb_flag : bool) (rb_id mui : Z) (sdu : bytes)
| LPdcpReqSrb (ue_id rb_id mui : Z) (sdu : bytes)
| LDataInd (ctxt : protocol_ctxt_t) (srb_flag : bool) (rb_id : Z) (pdu : bytes)
| LTick (curtime : Z)
| LAddSrbs (is_gnb : bool) (ue_id : Z) (srbs : list NR_SRB_ToAddMod) (security : nr_pdcp_security)
| LAddDrb (is_gnb : bool) (ue_id : Z) (pdcp : NR_PDCP_Config_t) (sdap : sdap_config_t) (security : nr_pdcp_security)
| LSetSecurity (ue_id rb_id : Z) (is_srb : bool) (security : nr_pdcp_security)
| LCheckIntegrity (ue_id srb_id : Z) (msg : bytes) (msg_integrity : nr_pdcp_integrity_data)
| LSuspendSrb (ue_id srb_id : Z)
| LSuspendDrb (ue_id drb_id : Z)
| LReconfigureSrb (ue_id srb_id t_Reordering : Z)
| LReconfigureDrb (ue_id drb_id : Z) (c : option NR_PDCP_Config_t)
| LReestablish (ue_id rb_id : Z) (srb_flag : bool) (security : nr_pdcp_security)
| LReleaseSrb (ue_id srb_id : Z)
| LReleaseDrb (ue_id drb_id : Z)
| LRemoveUe (ue_id : Z)
| LStatistics (ue_id rb_id : Z) (srb_flag : bool)
| LCountUpdate (ue_id drb_id : Z) (dl ul : nr_pdcp_count) (sn_size : Z)
| LCountValues (ue_id rb_id : Z)
| LDrbIds (ue_id pdusession_id : Z)
| LSdap (op : sdap_op)
| LF1Add (ue_id : Z) (data : f1_ue_data_t).

(** The queries answer to their callers; their effect on the tables is kept. *)
Definition silent {R} (r : res (l2_t * R)) : res (l2_t * list l2_out) := let* (s, _) := r in Ok (s, []).

Section Run.
Context (kc mac : Z -> bytes -> Z -> Z -> Z -> bytes -> bytes) (mode : l2_mode).

Definition l2_step (s : l2_t) (op : l2_op) : res (l2_t * list l2_out) :=
  match op with
  | LDataReq ctxt pdu mui sdu qfi rqi => let* (s, (_, o)) := l2_data_req kc mac mode s ctxt pdu mui sdu qfi rqi in Ok (s, o)
  | LPdcpReqDrb ctxt b rb mui sdu => let* (s, (_, o)) := nr_pdcp_data_req_drb kc mac mode s ctxt b rb mui sdu in Ok (s, o)
  | LPdcpReqSrb ue rb mui sdu => let* (s, (_, o)) := nr_pdcp_data_req_srb kc mac s ue rb mui sdu deliver_pdu_srb_rlc in Ok (s, o)
  | LDataInd ctxt b rb pdu => do_pdcp_data_ind kc mac mode s ctxt b rb pdu
  | LTick now => nr_pdcp_timer_round kc mac mode s now
  | LAddSrbs g ue srbs p => let* s := nr_pdcp_add_srbs s g ue srbs p in Ok (s, [])
  | LAddDrb g ue c sd p => let* s := nr_pdcp_add_drb s g ue c sd p in Ok (s, [])
  | LSetSecurity ue rb b p => nr_pdcp_config_set_security s ue rb b p
  | LCheckIntegrity ue rb m mi => silent (nr_pdcp_check_integrity_srb mac s ue rb m mi)
  | LSuspendSrb ue rb => nr_pdcp_suspend_srb kc mac mode s ue rb
  | LSuspendDrb ue rb => nr_pdcp_suspend_drb kc mac mode s ue rb
  | LReconfigureSrb ue rb t => nr_pdcp_reconfigure_srb s ue rb t
  | LReconfigureDrb ue rb c => nr_pdcp_reconfigure_drb s ue rb c
  | LReestablish ue rb b p => nr_pdcp_reestablishment kc mac mode s ue rb b p
  | LReleaseSrb ue rb => let* s := nr_pdcp_release_srb s ue rb in Ok (s, [])
  | LReleaseDrb ue rb => nr_pdcp_release_drb kc mac mode s ue rb
  | LRemoveUe ue => Ok (nr_pdcp_remove_UE s ue, [])
  | LStatistics ue rb b => silent (nr_pdcp_get_statistics s ue rb b)
  | LCountUpdate ue rb dl ul n => nr_pdcp_count_update s ue rb dl ul n
  | LCountValues ue rb => silent (nr_pdcp_get_drb_count_values s ue rb)
  | LDrbIds ue pdu => Ok ((nr_pdcp_get_drb_ids_for_pdusession s ue pdu).1, [])
  | LSdap op =>
      let* (sd, outs) := sdap_step (l2_sdap s) op in
      sdap_outputs kc mac mode {| s with l2_sdap := sd |} RLC_MUI_UNDEFINED outs
  | LF1Add ue data => let* (f, _) := cu_add_f1_ue_data (l2_f1 s) ue data in Ok ({| s with l2_f1 := f |}, [])
  end.

(** Operations one after the other: what each sent, and the state after the last
    one that returned. *)
Fixpoint l2_run (s : l2_t) (ops : list l2_op) : list (list l2_out) * l2_t * option failure :=
  match ops with
  | [] => ([], s, None)
  | op :: ops' =>
      match l2_step s op with
      | Ok (s', o) => let '(os, s'', f) := l2_run s' ops' in (o :: os, s'', f)
      | Fail f => ([], s, Some f)
      end
  end.

(** *** Operations on one bearer *)

Lemma on_entity_wf s ue_id k b (f : l2_t -> nr_pdcp_ue_t -> nr_pdcp_entity -> res (l2_t * list l2_out)) s' o :
  l2_wf s -> on_rb s ue_id k b [] f = Ok (s', o) ->
  (forall s1 ue e, f s1 ue e = Ok (s', o) -> exists op, run_entity kc mac mode s1 ue k b op = Ok (s', o) /\
    forall e' ev, op = Ok (e', ev) -> keeps_rb e e') -> l2_wf s'.
Proof.
  intros Hs H Hf. eapply on_rb_wf; [exact Hs|exact H|]. intros s1 ue e H1 Hu He Hk Hr. destruct (Hf s1 ue e Hr) as (op & Hrun & Hop).
  eapply run_entity_wf; [exact H1|exact Hu|exact (proj1 Hk)| |exact Hrun]. intros e' ev Ho. eapply keeps_slot; [by eapply Hop|done].
Qed.

(** An operation that only writes the entity back. *)
Lemma on_write_wf s ue_id k b (f : nr_pdcp_entity -> res nr_pdcp_entity) s' o : l2_wf s ->
  on_rb s ue_id k b ([] : list l2_out) (fun s ue e => let* e := f e in Ok (store_rb s ue k b e, [])) = Ok (s', o) ->
  (forall e e', f e = Ok e' -> keeps_rb e e') -> l2_wf s' .
Proof.
  intros Hs H Hf. eapply on_rb_wf; [exact Hs|exact H|]. intros s1 ue e H1 Hu He Hk Hr. apply rbind_ok in Hr as (e' & He' & [= <- <-]).
  apply store_rb_wf; [done|done|exact (proj1 Hk)|]. eapply keeps_slot; [by apply Hf|done].
Qed.

Lemma query_wf {R} s ue_id k b (none : R) (f : l2_t -> nr_pdcp_ue_t -> nr_pdcp_entity -> res (l2_t * R)) s' o : l2_wf s ->
  silent (on_rb s ue_id k b none f) = Ok (s', o) -> (forall s1 ue e r, f s1 ue e = Ok (s', r) -> s' = s1) -> l2_wf s'.
Proof.
  intros Hs H Hf. apply rbind_ok in H as ([s1 r] & H & [= -> <-]). eapply on_rb_wf; [exact Hs|exact H|].
  intros s2 ue e H2 _ _ _ Hr. by rewrite (Hf _ _ _ _ Hr).
Qed.

Lemma new_entity_slot (b : bool) g k psid rx tx sn t d p e :
  1 <= k <= (if b then 2 else 32) ->
  new_nr_pdcp_entity (if b then NR_PDCP_SRB else NR_PDCP_DRB_AM) g k psid rx tx sn t d p = Ok e -> slot_ok b k e.
Proof.
  intros Hp H. apply keeps_set_security in H as [T R C S]. simpl in *. split; [done|done|by destruct b|]. intros _ _. split; [done|by apply S].
Qed.

Lemma add_entity_wf (b : bool) ue k e ue' : pdcp_ue_wf ue -> (1 <= k <= (if b then 2 else 32) -> slot_ok b k e) ->
  (if b then nr_pdcp_ue_add_srb_pdcp_entity ue k e else nr_pdcp_ue_add_drb_pdcp_entity ue k e) = Ok ue' -> pdcp_ue_wf ue'.
Proof.
  intros Hu He H.
  assert (Hp : forall rb, 1 <= k <= (if b then 2 else 32) -> rb = Some e -> pdcp_ue_wf (put_rb ue k b rb)).
  { intros rb Hk ->. apply put_rb_wf; [done|lia|]. intros ? [= <-]. by apply He. }
  assert (Hk : forall n u, assert_ (negb ((k <? 1) || (n <? k))) = Ok u -> 1 <= k <= n).
  { intros n u Hr. destruct (Z.ltb_spec k 1) as [Hlt|], (Z.ltb_spec n k); done. }
  destruct b; apply rbind_ok in H as (u & Hr & H); apply Hk in Hr;
    apply rbind_ok in H as (old & _ & H); apply rbind_ok in H as (u2 & _ & [= <-]); by apply (Hp (Some e)).
Qed.

Lemma add_srb_wf s g ue_id srb p s' : l2_wf s -> add_srb s g ue_id srb p = Ok s' -> l2_wf s'.
Proof.
  intros Hs H. unfold add_srb in H. apply rbind_ok in H as (t & _ & H). pose proof (get_ue_wf s ue_id Hs) as Hg.
  destruct (get_ue s ue_id) as [s1 ue]. destruct Hg as (H1 & Hu & _). apply rbind_ok in H as (rb & _ & H).
  destruct rb as [e|]; [by injection H as <-|]. apply rbind_ok in H as (e & He & H). apply rbind_ok in H as (ue' & Hue & [= <-]).
  apply store_wf; [done|]. eapply (add_entity_wf true); [exact Hu| |exact Hue]. intros Hk. by eapply (new_entity_slot true).
Qed.

Lemma add_srbs_wf g ue_id p srbs : forall s s', l2_wf s -> nr_pdcp_add_srbs s g ue_id srbs p = Ok s' -> l2_wf s'.
Proof.
  induction srbs as [|srb srbs IH]; intros s s' Hs H; simpl in H; [by injection H as <-|].
  apply rbind_ok in H as (s1 & H1 & H). eapply IH; [|exact H]. by eapply add_srb_wf.
Qed.

Lemma add_drb_wf s g ue_id c sd p s' : l2_wf s -> nr_pdcp_add_drb s g ue_id c sd p = Ok s' -> l2_wf s'.
Proof.
  intros Hs H. unfold nr_pdcp_add_drb in H. destruct (pc_drb c) as [d|]; [|by injection H as <-].
  do 7 (apply rbind_ok in H as (? & _ & H)). pose proof (get_ue_wf s ue_id Hs) as Hg.
  destruct (get_ue s ue_id) as [s1 ue]. destruct Hg as (H1 & Hu & _). apply rbind_ok in H as (rb & _ & H).
  destruct rb as [e|]; [by injection H as <-|]. apply rbind_ok in H as (_ & _ & H). apply rbind_ok in H as (e & He & H).
  apply rbind_ok in H as (ue' & Hue & [= <-]).
  apply store_wf; [done|]. eapply (add_entity_wf false); [exact Hu| |exact Hue]. intros Hk. by eapply (new_entity_slot false).
Qed.

(** *** The tick *)

Lemma tick_rb_wf s ue_id now k b s' o : l2_wf s -> b = true \/ k <= 5 -> tick_rb kc mac mode s ue_id now k b = Ok (s', o) -> l2_wf s'.
Proof.
  intros Hs Hk H. unfold tick_rb in H. destruct (find_ue (l2_ues s) ue_id) as [ue|] eqn:Hf; [|by injection H as <- _].
  assert (Hu : pdcp_ue_wf ue) by (apply find_ue_some in Hf as [Hin _]; pose proof (lw_ues _ Hs) as Hall; rewrite Forall_forall in Hall; by apply Hall).
  destruct (get_rb_ok ue k b Hu) as (rb & Hrb & Hslot). rewrite Hrb in H. destruct rb as [e|]; [|by injection H as <- _].
  change (run_entity kc mac mode s ue k b (Ok (nr_pdcp_entity_set_time e now)) = Ok (s', o)) in H.
  destruct (Hslot e eq_refl) as [[Hp Hr Ht Hc] Hk']. eapply run_entity_wf; [exact Hs|exact Hu|exact (proj1 Hk')| |exact H].
  intros e' ev He'. pose proof (set_time_same e now) as Hsame. injection He' as He'. rewrite He' in Hsame. simpl in Hsame. destruct Hsame as [Hty Hid].
  split; [done|congruence|congruence|]. intros Hb Hk5. destruct Hk as [Hk|Hk]; [congruence|lia].
Qed.

Lemma timer_round_wf s now s' o : l2_wf s -> nr_pdcp_timer_round kc mac mode s now = Ok (s', o) -> l2_wf s'.
Proof.
  unfold nr_pdcp_timer_round. generalize (map pu_ue_id (l2_ues s)). intros ids. revert s s' o.
  assert (Hrbs : forall rbs ue_id, Forall (fun x => x.2 = true \/ x.1 <= 5) rbs -> forall s s' o, l2_wf s ->
    tick_rbs kc mac mode s ue_id now rbs = Ok (s', o) -> l2_wf s').
  { induction 1 as [|[k b] rbs Hk _ IH]; intros s s' o Hs H; simpl in H; [by injection H as <- _|].
    apply rbind_ok in H as ([s1 o1] & H1 & H). apply rbind_ok in H as ([s2 o2] & H2 & [= <- _]). eapply IH; [|exact H2].
    by eapply tick_rb_wf. }
  induction ids as [|ue_id ids IH]; intros s s' o Hs H; simpl in H; [by injection H as <- _|].
  apply rbind_ok in H as ([s1 o1] & H1 & H). apply rbind_ok in H as ([s2 o2] & H2 & [= <- _]). eapply IH; [|exact H2].
  apply (Hrbs ticked_rbs ue_id) in H1; [done| |exact Hs]. unfold ticked_rbs.
  repeat (apply Forall_cons_2; [first [by left|right; simpl; lia]|]). constructor.
Qed.

(** *** Every step *)

Lemma remove_ue_wf s ue_id : l2_wf s -> l2_wf (nr_pdcp_remove_UE s ue_id).
Proof.
  intros [Hi Hu]. assert (Hsub : sublist (nr_pdcp_manager_remove_ue (l2_ues s) ue_id).1 (l2_ues s)).
  { clear. induction (l2_ues s) as [|ue ues IH]; simpl; [constructor|]. destruct (_ =? _); [by apply sublist_cons|].
    destruct (nr_pdcp_manager_remove_ue ues ue_id). by apply sublist_skip. }
  split; simpl; [eapply sublist_NoDup; [exact Hi|by apply sublist_map]|by eapply sublist_forall].
Qed.

Lemma release_srb_wf s ue_id k s' : l2_wf s -> nr_pdcp_release_srb s ue_id k = Ok s' -> l2_wf s'.
Proof.
  intros Hs H. unfold nr_pdcp_release_srb in H. pose proof (get_ue_wf s ue_id Hs) as Hg. destruct (get_ue s ue_id) as [s1 ue].
  destruct Hg as (H1 & Hu & _). destruct (Z.ltb_spec k 1); [done|]. apply rbind_ok in H as (rb & _ & H).
  destruct rb; injection H as <-; [|done]. apply store_wf; [done|]. by apply (put_rb_wf ue k true None).
Qed.

Lemma release_drb_wf s ue_id k s' o : l2_wf s -> nr_pdcp_release_drb kc mac mode s ue_id k = Ok (s', o) -> l2_wf s'.
Proof.
  intros Hs H. unfold nr_pdcp_release_drb in H. pose proof (get_ue_wf s ue_id Hs) as Hg. destruct (get_ue s ue_id) as [s1 ue].
  destruct Hg as (H1 & Hu & _). destruct (Z.ltb_spec k 1); [done|]. apply rbind_ok in H as (rb & Hrb & H).
  destruct rb as [e|]; [|by injection H as <- _]. apply rbind_ok in H as ([s2 o2] & H2 & H).
  assert (He : slot_ok false k e).
  { destruct (pu_drb ue !! Z.to_nat (k - 1)) as [rb|] eqn:Hl; [|done]. injection Hrb as ->. apply (uw_drb _ Hu) in Hl.
    by replace (Z.of_nat (Z.to_nat (k - 1)) + 1) with k in Hl by lia. }
  assert (Hs2 : l2_wf s2).
  { eapply run_entity_wf; [|exact Hu|done| |exact H2]; [by destruct H1|]. intros e' ev [= He']. eapply keeps_slot; [|exact He].
    pose proof (keeps_release e) as Hk. by rewrite He' in Hk. }
  pose proof (get_ue_wf s2 ue_id Hs2) as Hg. destruct (get_ue s2 ue_id) as [s3 ue3]. destruct Hg as (H3 & Hu3 & _).
  injection H as <- _. apply store_wf; [done|]. by apply (put_rb_wf ue3 k false None).
Qed.

Lemma srb_req_wf s ue_id k mui sdu cb s' r : l2_wf s -> nr_pdcp_data_req_srb kc mac s ue_id k mui sdu cb = Ok (s', r) -> l2_wf s'.
Proof.
  intros Hs H. eapply on_rb_wf; [exact Hs|exact H|]. intros s1 ue e H1 Hu He Hk Hf. apply rbind_ok in Hf as ([e' pdu] & Hp & Hf).
  assert (Hst : l2_wf (store_rb s1 ue k true e')) by (apply store_rb_wf; [done|done|lia|]; by eapply keeps_slot; [eapply keeps_process|]).
  destruct pdu; [apply rbind_ok in Hf as (o & _ & [= <- _])|injection Hf as <- _]; exact Hst.
Qed.

Lemma l2_data_req_wf s ctxt pdu mui sdu qfi rqi s' r : l2_wf s -> l2_data_req kc mac mode s ctxt pdu mui sdu qfi rqi = Ok (s', r) -> l2_wf s'.
Proof.
  intros Hs H. apply rbind_ok in H as (t & _ & H). destruct t; [by injection H as <- _|]. by eapply data_req_wf.
Qed.

Lemma l2_step_wf s op s' o : l2_wf s -> l2_step s op = Ok (s', o) -> l2_wf s'.
Proof.
  intros Hs. destruct op as [ctxt pdu mui sdu qfi rqi|ctxt b rb mui sdu|ue rb mui sdu|ctxt b rb pdu|now|g ue srbs p|g ue c sd p|ue rb b p|ue rb m mi|ue rb|ue rb|ue rb t|ue rb c|ue rb b p|ue rb|ue rb|ue|ue rb b|ue rb dl ul n|ue rb|ue pdu|op|ue data];
    cbn [l2_step]; intros H.
  - apply rbind_ok in H as ([s1 [r o1]] & H & [= -> _]). by eapply l2_data_req_wf.
  - apply rbind_ok in H as ([s1 [r o1]] & H & [= -> _]). by eapply data_req_wf.
  - apply rbind_ok in H as ([s1 [r o1]] & H & [= -> _]). by eapply srb_req_wf.
  - apply rbind_ok in H as (_ & _ & H). eapply on_entity_wf; [exact Hs|exact H|]. intros s1 u e He. eexists. split; [exact He|].
    intros e' ev Hr. exact (keeps_recv _ _ _ _ _ Hr).
  - by eapply timer_round_wf.
  - apply rbind_ok in H as (s1 & H & [= -> _]). by eapply add_srbs_wf.
  - apply rbind_ok in H as (s1 & H & [= -> _]). by eapply add_drb_wf.
  - eapply (on_write_wf s ue rb b (fun e => nr_pdcp_entity_set_security e p)); [exact Hs|exact H|]. intros e e' He. by apply (keeps_set_security e p).
  - eapply query_wf; [exact Hs|exact H|]. by intros s1 u e r (? & _ & [= -> _])%rbind_ok.
  - eapply on_entity_wf; [exact Hs|exact H|]. intros s1 u e He. eexists. split; [exact He|].
    intros e' ev [= Hr]. pose proof (keeps_suspend e) as Hk. by rewrite Hr in Hk.
  - eapply on_entity_wf; [exact Hs|exact H|]. intros s1 u e He. eexists. split; [exact He|].
    intros e' ev [= Hr]. pose proof (keeps_suspend e) as Hk. by rewrite Hr in Hk.
  - eapply (on_write_wf s ue rb true (fun e => let* d := decode_t_reordering t in Ok {| e with pe_t_reordering := d |})); [exact Hs| |].
    + rewrite <- H. unfold nr_pdcp_reconfigure_srb, on_rb. destruct (get_ue s ue) as [s1 u]. destruct (nr_pdcp_get_rb u rb true) as [[e|]|]; [|done|done].
      cbn [rbind]. by rewrite rbind_assoc.
    + intros e e' (d & _ & [= <-])%rbind_ok. keeps.
  - eapply on_rb_wf; [exact Hs|exact H|]. intros s1 u e H1 Hu He Hk Hf. destruct c as [c|]; [|by injection Hf as <- _].
    apply rbind_ok in Hf as (e' & He' & [= <- _]). apply store_rb_wf; [done|done|lia|]. eapply keeps_slot; [by eapply keeps_reconfigure|done].
  - eapply on_entity_wf; [exact Hs|exact H|]. intros s1 u e He. eexists. split; [exact He|].
    intros e' ev Hr. by eapply keeps_reestablish.
  - apply rbind_ok in H as (s1 & H & [= -> _]). by eapply release_srb_wf.
  - by eapply release_drb_wf.
  - injection H as <- _. by apply remove_ue_wf.
  - eapply query_wf; [exact Hs|exact H|]. by intros s1 u e r [= -> _].
  - eapply (on_write_wf s ue rb false (fun e => Ok (nr_pdcp_entity_set_count_ul (nr_pdcp_entity_set_count_dl e dl n) ul n))); [exact Hs|exact H|].
    intros e e' [= <-]. keeps.
  - eapply query_wf; [exact Hs|exact H|]. by intros s1 u e r [= -> _].
  - injection H as <- _. unfold nr_pdcp_get_drb_ids_for_pdusession. pose proof (get_ue_wf s ue Hs) as Hg. destruct (get_ue s ue). apply Hg.
  - apply rbind_ok in H as ([sd outs] & _ & H). eapply sdap_outputs_wf; [|exact H]. by destruct Hs.
  - apply rbind_ok in H as ([f r] & _ & [= <- _]). by destruct Hs.
Qed.

Lemma l2_run_wf ops : forall s, l2_wf s -> l2_wf (l2_run s ops).1.2.
Proof.
  induction ops as [|op ops IH]; intros s Hs; simpl; [done|]. destruct (l2_step s op) as [[s1 o]|f] eqn:Hst; [|done].
  specialize (IH s1 (l2_step_wf _ _ _ _ Hs Hst)). by destruct (l2_run s1 ops) as [[os s2] f].
Qed.

End Run.
