(* ===== verification/L2Props.v ===== *)
(** The properties of layer 2 above RLC: SDAP and PDCP together, at the two ends
    of a bearer, and the tables of bearers under every sequence of operations. *)

From S2P Require Import Prelude Sdap SdapSpec SdapTrace SdapProps Pdcp PdcpRx Hashtable F1apIds PdcpApi PdcpApiInv.

(** ** The bearers of a state *)

Definition has_bearer (s : l2_t) (ue_id k : Z) (b : bool) (e : nr_pdcp_entity) : Prop :=
  exists ue, find_ue (l2_ues s) ue_id = Some ue /\ nr_pdcp_get_rb ue k b = Ok (Some e).

Lemma get_put_rb ue k b e e' : nr_pdcp_get_rb ue k b = Ok (Some e) -> nr_pdcp_get_rb (put_rb ue k b (Some e')) k b = Ok (Some e').
Proof.
  unfold nr_pdcp_get_rb, put_rb. destruct b; (destruct (_ || _); [done|]); intros H; simpl.
  - destruct (pu_srb ue !! _) eqn:Hl; [|done]. by rewrite list_lookup_insert_eq by (by eapply lookup_lt_Some).
  - destruct (pu_drb ue !! _) eqn:Hl; [|done]. by rewrite list_lookup_insert_eq by (by eapply lookup_lt_Some).
Qed.

Lemma put_rb_id ue k b rb : pu_ue_id (put_rb ue k b rb) = pu_ue_id ue.
Proof. by destruct b. Qed.

Lemma get_ue_found s ue_id ue : find_ue (l2_ues s) ue_id = Some ue -> get_ue s ue_id = (s, ue).
Proof. intros H. unfold get_ue, nr_pdcp_manager_get_ue. rewrite H. by destruct s. Qed.

Lemma on_bearer {R} s ue_id k b e : has_bearer s ue_id k b e -> exists ue, pu_ue_id ue = ue_id /\
  (forall (none : R) f, on_rb s ue_id k b none f = f s ue e) /\ forall e', has_bearer (store_rb s ue k b e') ue_id k b e'.
Proof.
  intros (ue & Hf & Hg). destruct (find_ue_some _ _ _ Hf) as [_ Hid]. exists ue. split; [done|]. split.
  - intros none f. unfold on_rb. by rewrite (get_ue_found _ _ _ Hf), Hg.
  - intros e'. exists (put_rb ue k b (Some e')). split; [|by eapply get_put_rb]. simpl. rewrite <- Hid, <- (put_rb_id ue k b (Some e')).
    apply find_put. rewrite put_rb_id, Hid. by rewrite Hf.
Qed.

Lemma put_get_id ue pdu l e : get_loop ue pdu l = Some e -> put_loop ue pdu e l = l.
Proof. induction l as [|x l IH]; simpl; [done|]. destruct (is_entity ue pdu x); [by intros [= ->]|]. intros H. by rewrite IH. Qed.

Lemma put_entity_same s ue pdu e : nr_sdap_get_entity s ue pdu = Some e -> put_entity s ue pdu e = s.
Proof. intros H. unfold put_entity. rewrite (put_get_id _ _ _ _ H). by destruct s. Qed.

(** ** An SDU that comes in order *)

Lemma accept_in_order e s n : pe_rx_list e = [] -> pe_rx_next e = pe_rx_deliv e -> ps_count s = pe_rx_deliv e ->
  0 <= ps_count s < 2 ^ 32 - 1 ->
  exists z st t r, pdcp_accept e s n =
    ({| e with pe_rx_list := []; pe_rx_size := z; pe_stats := st; pe_rx_next := ps_count s + 1; pe_rx_deliv := ps_count s + 1;
               pe_t_reordering_start := t; pe_rx_reord := r |}, [s]).
Proof.
  intros Hl Hn Hc Hr. unfold pdcp_accept. rewrite Hl. cbn [nr_pdcp_sdu_list_add]. simpl pe_rx_next. rewrite Hn, Hc, Z.leb_refl, Z.eqb_refl.
  rewrite Hc in Hr. simpl. rewrite Hc, Z.eqb_refl, wrap_small by lia. unfold pdcp_reordering_update. simpl.
  destruct (negb (_ =? 0) && _); simpl; rewrite Z.ltb_irrefl, ?andb_false_r; by eexists _, _, _, _.
Qed.

(** ** A flow from one end to the other *)

Section Link.
Context (kc mac : Z -> bytes -> Z -> Z -> Z -> bytes -> bytes).
Context (cipher_length : forall alg key count bearer dir msg, length (kc alg key count bearer dir msg) = length msg).
Context (mac_length : forall alg key count bearer dir msg, length (mac alg key count bearer dir msg) = 4%nat).
Context (cipher_involutive : forall alg key count bearer dir msg, kc alg key count bearer dir (kc alg key count bearer dir msg) = msg).

(** Both ends of bearer [k] are set up alike, and the receiver has everything
    that was sent. *)
Record pdcp_in_sync (tx rx : nr_pdcp_entity) : Prop := {
  ps_cfg_tx : pdcp_cfg tx;
  ps_cfg_rx : pdcp_cfg rx;
  ps_security : security_ok rx;
  ps_peers : pdcp_peers tx rx;
  ps_empty : pe_rx_list rx = [];
  ps_next : pe_rx_next rx = pe_rx_deliv rx;
  ps_deliv : pe_rx_deliv rx = pe_tx_next tx
}.

(** One SDU, from [process_sdu] to the delivery. *)
Lemma pdcp_hop tx rx sdu : pdcp_in_sync tx rx -> (if pe_has_sdap_rx rx then 1 else 0) < zlen sdu -> 0 <= pe_tx_next tx < 2 ^ 32 - 1 ->
  exists tx' pdu rx' d, nr_pdcp_entity_process_sdu kc mac tx sdu (nr_max_pdcp_pdu_size (zlen sdu)) = Ok (tx', Some pdu) /\
    nr_pdcp_entity_recv_pdu kc mac rx pdu = Ok (rx', [d]) /\ ps_buffer d = sdu /\ pdcp_in_sync tx' rx' /\
    pe_tx_next tx' = pe_tx_next tx + 1 /\
    pe_is_gnb tx' = pe_is_gnb tx /\ pe_is_gnb rx' = pe_is_gnb rx /\ pe_has_sdap_rx rx' = pe_has_sdap_rx rx /\
    pe_pdusession_id rx' = pe_pdusession_id rx /\ pe_rb_id rx' = pe_rb_id rx.
Proof.
  intros [C1 C2 S P Hl Hn Hd] Hsdu Hr. assert (Hu : u32 (pe_tx_next tx + 1) = pe_tx_next tx + 1) by (apply wrap_small; lia). pose proof (pcfg_window rx C2) as Hw.
  assert (0 < pe_window_size rx) by (destruct (pcfg_sn rx C2) as [E|E]; rewrite E in Hw; lia).
  destruct (secured_roundtrip_ok kc mac cipher_length mac_length cipher_involutive tx rx sdu (nr_max_pdcp_pdu_size (zlen sdu)) C1 C2 S P)
    as (tx' & pdu & mi & sn & Hp & Ht & Hrcv); [lia|done|lia|lia|lia|by rewrite Hl|].
  destruct (process_sdu_spec kc mac cipher_length tx sdu (nr_max_pdcp_pdu_size (zlen sdu)) (peers_security tx rx P S)
    (pp_tx_up tx rx P)) as (st & Hp2); [lia|by rewrite (pp_sdap tx rx P)|]. rewrite Hp in Hp2. injection Hp2 as -> _.
  set (rx1 := pdcp_stats (stats_pdu_in (zlen pdu) sn) rx) in *.
  destruct (accept_in_order rx1 (nr_pdcp_new_sdu (pe_tx_next tx) sdu mi) (zlen sdu + integrity_size_of rx)) as (z & st2 & t & r & Ha);
    [done|done|done|simpl; lia|]. rewrite Ha in Hrcv. clear Ha.
  eexists _, _, _, _. split; [exact Hp|]. split; [exact Hrcv|]. split; [done|]. split; [|simpl; by rewrite Hu].
  destruct C1, C2, S, P. split; simpl; done.
Qed.

(** *** The whole of layer 2 above RLC, at the sender and at the receiver *)

(** What does not change: the direction, the modes of the two processes, the
    identifiers of the UE and of its session, bearer, flow, SDAP entities. *)
Record flow_setup := mk_flow_setup {
  fs_up : bool;
  fs_mode_tx : l2_mode; fs_mode_rx : l2_mode;
  fs_ue_tx : Z; fs_ue_rx : Z;
  fs_pdu_tx : Z; fs_pdu_rx : Z;
  fs_drb : Z; fs_qfi : Z; fs_mui : Z;
  fs_tx : nr_sdap_entity_t; fs_rx : nr_sdap_entity_t;
  fs_map_tx : qfi2drb_t; fs_map_rx : qfi2drb_t;
  fs_f1 : f1_ue_data_t
}.
Context (fs : flow_setup).

Record setup_ok : Prop := {
  st_flow : flow_between (fs_tx fs) (fs_rx fs) (fs_qfi fs) (fs_map_tx fs) (fs_map_rx fs);
  st_drb : bearer_of (fs_tx fs) (fs_map_tx fs) = fs_drb fs;
  st_dl_tx : has_role (q_role (fs_map_tx fs)) SDAP_DL_TX = negb (fs_up fs);
  st_ul_tx : fs_up fs = true -> has_role (q_role (fs_map_tx fs)) SDAP_UL_TX = true;
  st_rx : has_role (q_role (fs_map_rx fs)) (if fs_up fs then SDAP_UL_RX else SDAP_DL_RX) = true;
  st_sock : fs_up fs = false -> 0 <= sd_pdusession_sock (fs_rx fs);
  st_mode_rx : fs_up fs = true -> nos1_or_tun (fs_mode_rx fs) = false;
  st_mode_tx : node_is_cu (fs_mode_tx fs) = true -> has_f1_cxt (fs_mode_tx fs) = true
}.

(** What the two ends keep for the flow besides its bearer. *)
Record ends_ok (sT sR : l2_t) : Prop := {
  le_tx : nr_sdap_get_entity (l2_sdap sT) (fs_ue_tx fs) (fs_pdu_tx fs) = Some (fs_tx fs);
  le_rx : nr_sdap_get_entity (l2_sdap sR) (fs_ue_rx fs) (fs_pdu_rx fs) = Some (fs_rx fs);
  le_f1 : fs_up fs = false -> cu_get_f1_ue_data (l2_f1 sT) (fs_ue_tx fs) = Ok (fs_f1 fs)
}.

(** The two states, after [n] PDUs of the bearer. *)
Record linked (sT sR : l2_t) (n : Z) : Prop := {
  lk_ends : ends_ok sT sR;
  lk_bearer : exists eT eR, has_bearer sT (fs_ue_tx fs) (fs_drb fs) false eT /\ has_bearer sR (fs_ue_rx fs) (fs_drb fs) false eR /\
    pdcp_in_sync eT eR /\ pe_tx_next eT = n /\ pe_is_gnb eT = negb (fs_up fs) /\ pe_pdusession_id eR = fs_pdu_rx fs
}.

Lemma ends_ok_same sT sR sT' sR' : ends_ok sT sR -> l2_sdap sT' = l2_sdap sT -> l2_f1 sT' = l2_f1 sT -> l2_sdap sR' = l2_sdap sR -> ends_ok sT' sR'.
Proof. intros [H1 H2 H3] E1 E2 E3. split; by rewrite ?E1, ?E2, ?E3. Qed.

(** The PDU towards RLC, or towards F1-U. *)
Definition sent_pdu (p : bytes) : l2_out :=
  if fs_up fs then OutRlc false (fs_ue_tx fs) false (fs_drb fs) (fs_mui fs) p
  else if node_is_cu (fs_mode_tx fs) then OutNru (fs_ue_tx fs) (fs_drb fs) p
  else OutRlc true (secondary_ue (fs_f1 fs)) false (fs_drb fs) (fs_mui fs) p.

(** What the receiver gives to the network, or to the interface of the UE. *)
Definition received (sdu : bytes) : l2_out :=
  if fs_up fs then OutSdap (ToGtp (fs_ue_rx fs) (fs_pdu_rx fs) (Some (fs_qfi fs)) sdu)
  else OutSdap (ToTun (sd_pdusession_sock (fs_rx fs)) sdu).

Definition pdu_of (outs : list l2_out) : res bytes :=
  match outs with
  | [OutRlc _ _ _ _ _ p] | [OutNru _ _ p] => Ok p
  | _ => Fail FExit
  end.

(** SDUs that the layers below bring over one after the other. *)
Fixpoint carry (sT sR : l2_t) (sdus : list (bytes * bool)) : res (l2_t * l2_t * list l2_out) :=
  match sdus with
  | [] => Ok (sT, sR, [])
  | (sdu, rqi) :: sdus' =>
      let* (sT, (_, o)) := l2_data_req kc mac (fs_mode_tx fs) sT (sdap_ctxt (fs_ue_tx fs)) (fs_pdu_tx fs) (fs_mui fs) sdu (fs_qfi fs) rqi in
      let* pdu := pdu_of o in
      let* (sR, o1) := do_pdcp_data_ind kc mac (fs_mode_rx fs) sR (sdap_ctxt (fs_ue_rx fs)) false (fs_drb fs) pdu in
      let* (sT, sR, o2) := carry sT sR sdus' in
      Ok (sT, sR, o1 ++ o2)
  end.

Definition sdap_pdu (sdu : bytes) (rqi : bool) : bytes :=
  (if fs_up fs then ul_hdr_byte (mk_ul_hdr (fs_qfi fs) 0 (Z.b2z rqi)) else dl_hdr_byte (mk_dl_hdr (fs_qfi fs) (Z.b2z rqi) 0)) :: sdu.

Lemma sdap_send_ok sdu rqi : setup_ok -> 1 <= zlen sdu <= 8999 ->
  nr_sdap_tx_entity (fs_tx fs) sdu (fs_qfi fs) rqi = Ok (TxSubmit (fs_drb fs) (sdap_pdu sdu rqi)).
Proof.
  intros [Hf Hd Hdl Hul _ _ _ _] Hl. unfold sdap_pdu. rewrite <- Hd. destruct (fs_up fs).
  - apply (submit_ul _ _ _ _ _ (fb_tx _ _ _ _ _ Hf)); [apply Hf|done|by apply Hul|done].
  - apply (submit_dl _ _ _ _ _ (fb_tx _ _ _ _ _ Hf)); [apply Hf|done|done].
Qed.

Lemma sdap_receive_ok k sdu rqi : setup_ok -> exists o, received sdu = OutSdap o /\
  (match o with ToPdcp _ _ _ => False | _ => True end) /\
  nr_sdap_rx_entity (fs_rx fs) k (fs_up fs) (fs_pdu_rx fs) (fs_ue_rx fs) (sdap_pdu sdu rqi) = Ok (fs_rx fs, [o]).
Proof.
  intros [Hf Hd _ _ Hr Hs _ _]. unfold received, sdap_pdu. pose proof (b2z_bit rqi) as Hb. pose proof (fb_qfi _ _ _ _ _ Hf) as Hq.
  destruct (fs_up fs); eexists; (split; [done|]); (split; [done|]).
  - unfold ul_hdr_byte. cbn [ul_QFI ul_R ul_DC]. destruct (three_fields_ok (fs_qfi fs) 0 (Z.b2z rqi) Hq ltac:(lia) Hb) as (Hqf & _).
    by apply (rx_gnb _ k _ _ _ sdu (fs_qfi fs) (fs_map_rx fs)); try apply Hf.
  - unfold dl_hdr_byte. cbn [dl_QFI dl_RQI dl_RDI]. destruct (three_fields_ok (fs_qfi fs) (Z.b2z rqi) 0 Hq Hb ltac:(lia)) as (Hqf & _ & Hrdi & _).
    rewrite (rx_ue _ k _ _ _ sdu (fs_qfi fs) (fs_map_rx fs)); try apply Hf; try done. unfold dl_hdr_of. cbn [dl_RDI]. rewrite Hrdi. cbn [Z.eqb rbind].
    by rewrite (proj2 (Z.ltb_ge _ _)) by (by apply Hs).
Qed.

Lemma sdap_outs_one mode s mui o : (match o with ToPdcp _ _ _ => False | _ => True end) ->
  sdap_outputs kc mac mode s mui [o] = Ok (s, [OutSdap o]).
Proof. by destruct o. Qed.

(** The sender's half: SDAP, PDCP and the callback towards RLC. *)
Lemma send_hop sT sR eT sdu rqi : setup_ok -> ends_ok sT sR -> 1 <= zlen sdu <= 8999 ->
  has_bearer sT (fs_ue_tx fs) (fs_drb fs) false eT -> pe_is_gnb eT = negb (fs_up fs) ->
  forall eT' p, nr_pdcp_entity_process_sdu kc mac eT (sdap_pdu sdu rqi) (nr_max_pdcp_pdu_size (zlen (sdap_pdu sdu rqi))) = Ok (eT', Some p) ->
  pe_is_gnb eT' = pe_is_gnb eT ->
  exists sT', l2_data_req kc mac (fs_mode_tx fs) sT (sdap_ctxt (fs_ue_tx fs)) (fs_pdu_tx fs) (fs_mui fs) sdu (fs_qfi fs) rqi =
      Ok (sT', (true, [sent_pdu p])) /\ has_bearer sT' (fs_ue_tx fs) (fs_drb fs) false eT' /\
    l2_sdap sT' = l2_sdap sT /\ l2_f1 sT' = l2_f1 sT.
Proof.
  intros Hset Hlk Hl Hb Hg eT' p Hp Hg'. unfold l2_data_req, sdap_data_req. cbn [sdap_ctxt cx_rntiMaybeUEid].
  rewrite (le_tx _ _ Hlk), (sdap_send_ok sdu rqi Hset Hl). cbn [rbind].
  unfold nr_pdcp_data_req_drb. cbn [negb assert_ rbind sdap_ctxt cx_module_id cx_instance cx_eNB_index Z.eqb andb cx_rntiMaybeUEid].
  destruct (on_bearer (R := bool * list l2_out) _ _ _ _ _ Hb) as (ue & _ & Hon & Hst). rewrite Hon, Hp. cbn [rbind].
  exists (store_rb sT ue (fs_drb fs) false eT'). split; [|by split].
  unfold deliver_pdu_drb, sent_pdu. rewrite Hg', Hg. destruct (fs_up fs) eqn:Eu; cbn [negb]; [done|].
  unfold deliver_pdu_drb_gnb. change (l2_f1 (store_rb sT ue (fs_drb fs) false eT')) with (l2_f1 sT). rewrite (le_f1 _ _ Hlk Eu). cbn [rbind].
  destruct (node_is_cu (fs_mode_tx fs)) eqn:Ec; [|done]. by rewrite (st_mode_tx Hset Ec).
Qed.

(** The receiver's half. *)
Lemma receive_hop sT sR eR sdu rqi : setup_ok -> ends_ok sT sR ->
  has_bearer sR (fs_ue_rx fs) (fs_drb fs) false eR ->
  forall eR' p d, nr_pdcp_entity_recv_pdu kc mac eR p = Ok (eR', [d]) -> ps_buffer d = sdap_pdu sdu rqi ->
  pe_is_gnb eR' = fs_up fs -> pe_pdusession_id eR' = fs_pdu_rx fs ->
  exists sR', do_pdcp_data_ind kc mac (fs_mode_rx fs) sR (sdap_ctxt (fs_ue_rx fs)) false (fs_drb fs) p = Ok (sR', [received sdu]) /\
    has_bearer sR' (fs_ue_rx fs) (fs_drb fs) false eR' /\ l2_sdap sR' = l2_sdap sR.
Proof.
  intros Hset Hlk Hb eR' p d Hr Hd Hg Hpdu. unfold do_pdcp_data_ind. cbn [sdap_ctxt cx_module_id cx_instance cx_eNB_index cx_brOption Z.eqb andb assert_ rbind cx_rntiMaybeUEid].
  destruct (on_bearer (R := list l2_out) _ _ _ _ _ Hb) as (ue & Hid & Hon & Hst). rewrite Hon. unfold run_entity. rewrite Hr. cbn [rbind].
  exists (store_rb sR ue (fs_drb fs) false eR'). split; [|by split]. cbn [deliver_sdus]. unfold deliver_sdu_drb. rewrite Hid, Hd, Hpdu, Hg.
  change (l2_sdap (store_rb sR ue (fs_drb fs) false eR')) with (l2_sdap sR).
  assert (Hrx : exists k, (if nos1_or_tun (fs_mode_rx fs)
      then sdap_data_ind (l2_sdap sR) (pe_rb_id eR') false (fs_pdu_rx fs) (fs_ue_rx fs) (sdap_pdu sdu rqi)
      else sdap_data_ind (l2_sdap sR) (fs_drb fs) (fs_up fs) (fs_pdu_rx fs) (fs_ue_rx fs) (sdap_pdu sdu rqi)) =
    sdap_data_ind (l2_sdap sR) k (fs_up fs) (fs_pdu_rx fs) (fs_ue_rx fs) (sdap_pdu sdu rqi)).
  { destruct (nos1_or_tun (fs_mode_rx fs)) eqn:Em; [|by eexists]. exists (pe_rb_id eR'). destruct (fs_up fs) eqn:Eu; [|done].
    by rewrite (st_mode_rx Hset Eu) in Em. }
  destruct Hrx as [k ->]. unfold sdap_data_ind. rewrite (le_rx _ _ Hlk). destruct (sdap_receive_ok k sdu rqi Hset) as (o & Ho & Hno & ->).
  cbn [rbind]. rewrite (put_entity_same _ _ _ _ (le_rx _ _ Hlk)).
  rewrite (sdap_outs_one _ _ _ o Hno). cbn [rbind]. rewrite Ho. reflexivity.
Qed.

Lemma hop_ok sT sR n sdu rqi : setup_ok -> linked sT sR n -> 1 <= zlen sdu <= 8999 -> 0 <= n < 2 ^ 32 - 1 ->
  exists sT' sR' p, l2_data_req kc mac (fs_mode_tx fs) sT (sdap_ctxt (fs_ue_tx fs)) (fs_pdu_tx fs) (fs_mui fs) sdu (fs_qfi fs) rqi =
      Ok (sT', (true, [sent_pdu p])) /\
    do_pdcp_data_ind kc mac (fs_mode_rx fs) sR (sdap_ctxt (fs_ue_rx fs)) false (fs_drb fs) p = Ok (sR', [received sdu]) /\
    linked sT' sR' (n + 1).
Proof.
  intros Hset Hlk Hl Hn. destruct (lk_bearer _ _ _ Hlk) as (eT & eR & HbT & HbR & Hsync & Hnx & Hg & Hpdu).
  assert (Hlen : zlen (sdap_pdu sdu rqi) = zlen sdu + 1) by (unfold sdap_pdu; rewrite zlen_cons; lia).
  destruct (pdcp_hop eT eR (sdap_pdu sdu rqi) Hsync) as (eT' & p & eR' & d & Hp & Hr & Hd & Hsync' & Hnx' & Hg1 & Hg2 & _ & Hpd & _);
    [rewrite Hlen; destruct (pe_has_sdap_rx eR); lia|by rewrite Hnx|].
  destruct (send_hop sT sR eT sdu rqi Hset (lk_ends _ _ _ Hlk) Hl HbT Hg eT' p Hp Hg1) as (sT' & Hs & HbT' & HsdT & HfT).
  assert (HgR : pe_is_gnb eR' = fs_up fs).
  { rewrite Hg2. pose proof (pp_side _ _ (ps_peers _ _ Hsync)) as Hside. rewrite Hg in Hside. by destruct (fs_up fs), (pe_is_gnb eR). }
  destruct (receive_hop sT sR eR sdu rqi Hset (lk_ends _ _ _ Hlk) HbR eR' p d Hr Hd HgR) as (sR' & Hrcv & HbR' & HsdR); [by rewrite Hpd|].
  exists sT', sR', p. split; [exact Hs|]. split; [exact Hrcv|]. destruct Hlk as [L _]. split.
  - by apply (ends_ok_same sT sR).
  - exists eT', eR'. split; [done|]. split; [done|]. split; [done|]. split; [lia|]. split; congruence.
Qed.

Lemma pdu_of_sent p : pdu_of [sent_pdu p] = Ok p.
Proof. unfold sent_pdu. destruct (fs_up fs); [done|]. by destruct (node_is_cu (fs_mode_tx fs)). Qed.

Lemma carry_ok sdus : setup_ok -> forall sT sR n, linked sT sR n -> 0 <= n -> n + zlen sdus < 2 ^ 32 ->
  Forall (fun x => 1 <= zlen x.1 <= 8999) sdus ->
  exists sT' sR', carry sT sR sdus = Ok (sT', sR', map (fun x => received x.1) sdus) /\ linked sT' sR' (n + zlen sdus).
Proof.
  intros Hset. induction sdus as [|[sdu rqi] sdus IH]; intros sT sR n Hlk Hn Hb Hf.
  - exists sT, sR. split; [done|]. by rewrite zlen_nil, Z.add_0_r.
  - rewrite zlen_cons in Hb. pose proof (zlen_nonneg sdus). inversion Hf as [|? ? Hl Hf']; subst.
    destruct (hop_ok sT sR n sdu rqi Hset Hlk Hl ltac:(lia)) as (sT1 & sR1 & p & Hs & Hr & Hlk1).
    destruct (IH sT1 sR1 (n + 1) Hlk1 ltac:(lia) ltac:(lia) Hf') as (sT2 & sR2 & Hc & Hlk2).
    exists sT2, sR2. cbn [carry]. rewrite Hs. cbn [rbind]. rewrite pdu_of_sent. cbn [rbind]. rewrite Hr. cbn [rbind]. rewrite Hc. cbn [rbind map fst app].
    split; [done|]. rewrite zlen_cons. by replace (n + (1 + zlen sdus)) with (n + 1 + zlen sdus) by lia.
Qed.

(** C7. The user plane end to end, above RLC, in both directions: the SDUs of a
    flow that SDAP accepts at one end become PDCP PDUs for the bearer of the
    flow, and when RLC brings these over, the other end hands exactly these
    SDUs, in order, to the core network under their flow (uplink) or to the
    interface of the UE (downlink): headers of SDAP and PDCP, ciphering and
    integrity cancel out, and nothing else comes out.  The two ends stay in
    step. *)
Theorem l2_user_plane_delivers sT sR n sdus :
  setup_ok -> linked sT sR n -> 0 <= n -> n + zlen sdus < 2 ^ 32 -> Forall (fun x => 1 <= zlen x.1 <= 8999) sdus ->
  exists sT' sR', carry sT sR sdus = Ok (sT', sR', map (fun x => received x.1) sdus) /\ linked sT' sR' (n + zlen sdus).
Proof. intros Hset Hlk Hn Hb Hf. by apply carry_ok. Qed.

End Link.

(** ** Examples *)

Definition example_bearer (is_gnb : bool) : nr_pdcp_entity := {| (ex_end is_gnb 0 0) with pe_pdusession_id := 10 |}.

Definition example_ue (is_gnb : bool) : nr_pdcp_ue_t := put_rb (new_pdcp_ue 7) 4 false (Some (example_bearer is_gnb)).

(** Flow 5 of session 10 on bearer 4. *)
Definition example_sdap (is_gnb : bool) : nr_sdap_entity_t :=
  mk_sdap_entity 7 0 is_gnb true 10 7 false 0 (<[5%nat := mk_qfi2drb 4 (if is_gnb then 6 else 9)]> (replicate 64 (mk_qfi2drb 0 0))).

Definition example_l2 (is_gnb : bool) (f : f1_ids) : l2_t := mk_l2 [example_ue is_gnb] (mk_sdap [example_sdap is_gnb] []) f.

Definition example_setup (up : bool) : flow_setup :=
  mk_flow_setup up (mk_l2_mode false false false) (mk_l2_mode false false false) 7 7 10 10 4 5 0
    (example_sdap (negb up)) (example_sdap up) (mk_qfi2drb 4 (if up then 9 else 6)) (mk_qfi2drb 4 (if up then 6 else 9)) (mk_f1_ue_data 100 1 2).

Lemma example_setup_ok up : setup_ok (example_setup up).
Proof. destruct up; (split; [split; try done; unfold qfi_ok; simpl; lia|try done; simpl; lia..]). Qed.

Lemma with_session e pdu : pdcp_cfg e -> security_ok e ->
  pdcp_cfg {| e with pe_pdusession_id := pdu |} /\ security_ok {| e with pe_pdusession_id := pdu |}.
Proof. intros [H1 H2 H3] [H4 H5 H6]. split; by split. Qed.

Lemma example_bearer_ok g : pdcp_cfg (example_bearer g) /\ security_ok (example_bearer g).
Proof. destruct (ex_end_ok g 0 0 ltac:(lia)) as (Hi & Hs & _). apply with_session; [exact (pri_cfg _ Hi)|exact Hs]. Qed.

Lemma example_linked up f : (up = false -> cu_get_f1_ue_data f 7 = Ok (mk_f1_ue_data 100 1 2)) ->
  linked (example_setup up) (example_l2 (negb up) f) (example_l2 up f) 0.
Proof.
  intros Hf. split; [split; [by destruct up|by destruct up|done]|]. exists (example_bearer (negb up)), (example_bearer up).
  split; [exists (example_ue (negb up)); by destruct up|]. split; [exists (example_ue up); by destruct up|].
  split; [|by destruct up]. destruct (example_bearer_ok (negb up)) as [C1 _]. destruct (example_bearer_ok up) as [C2 S].
  split; try done; destruct up; by split.
Qed.

(** Two packets up, and two packets down. *)
Lemma l2_user_plane_delivers_witness : exists g f,
  (exists s1 s2, carry toy_cipher toy_mac (example_setup true) (example_l2 false g) (example_l2 true g) [([1; 2], false); ([3], true)] =
    Ok (s1, s2, [OutSdap (ToGtp 7 10 (Some 5) [1; 2]); OutSdap (ToGtp 7 10 (Some 5) [3])])) /\
  (exists s1 s2, carry toy_cipher toy_mac (example_setup false) (example_l2 true f) (example_l2 false f) [([1; 2], false); ([3], true)] =
    Ok (s1, s2, [OutSdap (ToTun 7 [1; 2]); OutSdap (ToTun 7 [3])])).
Proof.
  exists (mk_f1_ids None None). destruct example_ids_ok as (f & _ & Hr). exists f.
  pose proof (f1_get_ok _ _ 7 Hr) as Hg.
  assert (Hsz : Forall (fun x : bytes * bool => 1 <= zlen x.1 <= 8999) [([1; 2], false); ([3], true)]) by (repeat constructor; vm_compute; congruence).
  split.
  - destruct (l2_user_plane_delivers toy_cipher toy_mac toy_cipher_length toy_mac_length toy_cipher_involutive (example_setup true)
      (example_l2 false (mk_f1_ids None None)) (example_l2 true (mk_f1_ids None None)) 0 [([1; 2], false); ([3], true)]) as (s1 & s2 & H & _);
      [apply example_setup_ok|by apply (example_linked true)|lia|vm_compute; reflexivity|exact Hsz|]. by exists s1, s2.
  - destruct (l2_user_plane_delivers toy_cipher toy_mac toy_cipher_length toy_mac_length toy_cipher_involutive (example_setup false)
      (example_l2 true f) (example_l2 false f) 0 [([1; 2], false); ([3], true)]) as (s1 & s2 & H & _);
      [apply example_setup_ok|apply (example_linked false); intros _; exact Hg|lia|vm_compute; reflexivity|exact Hsz|by exists s1, s2].
Defined.
