(* ===== verification/L2Limits.v ===== *)
(** The tables of bearers under every sequence of operations, and what layer 2
    above RLC does not do although it means to: end markers, the SDUs of a
    released bearer, the clock of the bearers from 6 on. *)

From S2P Require Import Prelude Sdap SdapSpec SdapTrace SdapProps Pdcp PdcpRx Hashtable F1apIds PdcpApi PdcpApiInv L2Props.

(** ** The tables *)

Section Tables.
Context (kc mac : Z -> bytes -> Z -> Z -> Z -> bytes -> bytes) (mode : l2_mode).

(** C23. Whatever operations are called, and wherever they stop: there is one
    entry per UE, with three places for SRBs and 32 for DRBs; an entity is at the
    place of its bearer and of the type of its table, and an SRB is 1 or 2: the
    third place stays empty. *)
Theorem l2_tables_well_formed f (ops : list l2_op) : let '(_, s, _) := l2_run kc mac mode (mk_l2 [] (mk_sdap [] []) f) ops in l2_wf s.
Proof.
  pose proof (l2_run_wf kc mac mode ops (mk_l2 [] (mk_sdap [] []) f)) as H.
  destruct (l2_run _ _ _ _ _) as [[os s] r]. apply H. by split; constructor.
Qed.

(** The tick leaves the bearers from 6 to 32 out: after any sequence of
    operations, any number of ticks included, the clock of such a bearer is
    still 0, its t-Reordering does not run, and no PDU starts it.  What waits
    there for a lost PDU waits for ever. *)
Theorem l2_high_drbs_have_no_clock f ops outs s r ue_id drb_id e :
  l2_run kc mac mode (mk_l2 [] (mk_sdap [] []) f) ops = (outs, s, r) ->
  has_bearer s ue_id drb_id false e -> 5 < drb_id ->
  pe_t_current e = 0 /\ pe_t_reordering_start e = 0 /\
  forall pdu e' ev, nr_pdcp_entity_recv_pdu kc mac e pdu = Ok (e', ev) -> pe_t_reordering_start e' = 0.
Proof.
  intros Hrun (ue & Hf & Hg) Hk. pose proof (l2_run_wf kc mac mode ops (mk_l2 [] (mk_sdap [] []) f)) as H. rewrite Hrun in H.
  assert (Hs : l2_wf s) by (apply H; by split; constructor). destruct (find_ue_some _ _ _ Hf) as [Hin _].
  pose proof (lw_ues _ Hs) as Hu. rewrite Forall_forall in Hu. destruct (get_rb_ok ue drb_id false (Hu ue Hin)) as (rb & Hrb & Hslot).
  rewrite Hg in Hrb. injection Hrb as <-. destruct (Hslot e eq_refl) as [[_ _ _ Hc] _]. destruct (Hc eq_refl Hk) as [H1 H2].
  split; [done|]. split; [done|]. intros pdu e' ev Hr. pose proof (keeps_recv kc mac e pdu (e', ev) Hr) as K. by apply (kr_timer _ _ K).
Qed.

End Tables.

(** ** End markers *)

Section EndMarker.
Context (kc mac : Z -> bytes -> Z -> Z -> Z -> bytes -> bytes).
Context (cipher_length : forall alg key count bearer dir msg, length (kc alg key count bearer dir msg) = length msg).
Context (mac_length : forall alg key count bearer dir msg, length (mac alg key count bearer dir msg) = 4%nat).

(** NEA2 without integrity protection: the cipher gets no byte. *)
Definition nea2_alone (e : nr_pdcp_entity) : bool :=
  pe_has_ciphering e && negb (has_mac e) && match pe_security_context e with Some (alg, _) => alg =? 2 | None => false end.

Lemma rcvd_sn_total e b : pdcp_cfg e -> header_size_of e <= zlen b -> exists sn, rcvd_sn_of e b = Ok sn.
Proof.
  intros Hcfg Hl. unfold rcvd_sn_of. destruct (pcfg_sn e Hcfg) as [E|E]; rewrite E; cbn [Z.eqb Pos.eqb SHORT_SN_SIZE].
  - rewrite header_size_short in Hl by done. destruct b as [|b0 [|b1 r]]; try (unfold zlen in Hl; simpl in Hl; lia). by eexists.
  - rewrite header_size_long in Hl by done. destruct b as [|b0 [|b1 [|b2 r]]]; try (unfold zlen in Hl; simpl in Hl; lia). by eexists.
Qed.

(** A PDU whose payload is only the SDAP header is too short for [recv_pdu]. *)
Lemma recv_header_only rx pdu : pdcp_cfg rx -> pe_entity_suspended rx = false -> pe_has_sdap_rx rx = true ->
  zlen pdu = header_size_of rx + 1 + integrity_size_of rx ->
  exists f, nr_pdcp_entity_recv_pdu kc mac rx pdu = Ok (pdcp_stats f rx, []).
Proof.
  intros Hcfg Hs Hsd Hl. pose proof (header_size_range rx). pose proof (integrity_size_range rx).
  destruct (rcvd_sn_total rx pdu Hcfg ltac:(lia)) as [sn Hsn]. rewrite pdcp_recv_cases, Hs, Hsn, Hsd. cbn [rbind]. cbv zeta.
  rewrite (proj2 (Z.ltb_ge _ 1)) by lia. rewrite (proj2 (Z.ltb_lt _ _)) by lia. by eexists (fun s => stats_dropped (zlen pdu) _).
Qed.

(** The cipher over the bytes after the SDAP header. *)
Lemma cipher_marker tx buf : security_ok tx -> pe_has_sdap_tx tx = true ->
  zlen buf = header_size_of tx + 1 + integrity_size_of tx ->
  if nea2_alone tx then cipher_step kc tx buf = Fail FExit
  else exists b, cipher_step kc tx buf = Ok b /\ zlen b = zlen buf.
Proof.
  intros Hsec Hsd Hl. unfold nea2_alone, cipher_step, cipher_offset, integrity_size_of in *. rewrite Hsd. pose proof (header_size_range tx).
  destruct (pe_has_ciphering tx) eqn:Ec; cbn [andb]; [|by exists buf].
  destruct (sec_cipher tx Hsec Ec) as (alg & key & -> & Ha). pose proof (sec_bearer tx Hsec) as Hb. destruct (has_mac tx); cbn [negb andb].
  - unfold PDCP_INTEGRITY_SIZE in Hl. rewrite (cipher_from_ok kc cipher_length); [|done|done|destruct (pe_is_gnb tx); auto|lia].
    eexists. split; [done|]. unfold zlen. by rewrite (cipher_from_len kc cipher_length).
  - assert (Hread : buf_read buf (header_size_of tx + 1) (zlen buf - (header_size_of tx + 1)) = Ok []).
    { rewrite buf_read_ok by lia. by replace (zlen buf - (header_size_of tx + 1)) with 0 by lia. }
    unfold cipher_from. rewrite Hread. cbn [rbind]. unfold pdcp_cipher. cbn [of_opt rbind].
    destruct Ha as [-> | ->]; cbn [Z.eqb Pos.eqb rbind]; [|done]. set (dir := if pe_is_gnb tx then 1 else 0).
    assert (Hk : kc 1 key (pe_tx_next tx) (pe_rb_id tx - 1) dir [] = []) by (apply nil_length_inv; by rewrite cipher_length). rewrite Hk.
    unfold buf_write. rewrite (proj2 (Z.leb_le 0 _)), (proj2 (Z.leb_le _ (zlen buf))) by (rewrite ?zlen_nil; lia). eexists. split; [reflexivity|].
    simpl. unfold zlen. rewrite length_app, length_take, length_drop. lia.
Qed.

(** An end marker of SDAP, a PDU of one byte, never reaches the other end.
    Where PDCP ciphers with NEA2 and has no MAC, [process_sdu] asks the cipher for
    zero bytes and the process stops.  Otherwise a PDU goes out under a COUNT of its
    own, but [recv_pdu] takes it for too short and drops it, so that the COUNT is
    missing for what follows. *)
Theorem l2_end_marker_lost tx rx qfi :
  pdcp_cfg tx -> pdcp_cfg rx -> security_ok rx -> pdcp_peers tx rx -> pe_has_sdap_rx rx = true -> qfi_ok qfi ->
  let marker := [ul_hdr_byte (nr_sdap_construct_ctrl_pdu qfi)] in
  let sent := nr_pdcp_entity_process_sdu kc mac tx marker (nr_max_pdcp_pdu_size 1) in
  if nea2_alone tx then sent = Fail FExit
  else exists tx' pdu rx', sent = Ok (tx', Some pdu) /\ pe_tx_next tx' = u32 (pe_tx_next tx + 1) /\
    nr_pdcp_entity_recv_pdu kc mac rx pdu = Ok (rx', []) /\
    pe_rx_deliv rx' = pe_rx_deliv rx /\ pe_rx_next rx' = pe_rx_next rx /\ pe_rx_list rx' = pe_rx_list rx.
Proof.
  intros C1 C2 Srx P Hsd Hq marker sent. pose proof (peers_security tx rx P Srx) as S.
  assert (Hl : zlen (plain_pdu mac tx marker) = header_size_of tx + 1 + integrity_size_of tx).
  { rewrite (plain_pdu_len mac mac_length tx rx P marker S), (peers_header_size tx rx P), (peers_integrity_size tx rx P). done. }
  pose proof (cipher_marker tx (plain_pdu mac tx marker) S ltac:(by rewrite (pp_sdap tx rx P)) Hl) as Hc.
  pose proof (process_sdu_plain kc mac tx marker (nr_max_pdcp_pdu_size 1) S (pp_tx_up tx rx P) ltac:(done)) as Hp.
  destruct (nea2_alone tx); [rewrite Hc in Hp; exact Hp|]. destruct Hc as (b & Hc & Hb). rewrite Hc in Hp. destruct Hp as [st Hp].
  destruct (recv_header_only rx b C2 (pp_rx_up tx rx P) Hsd) as [f Hr].
  { by rewrite Hb, Hl, (peers_header_size tx rx P), (peers_integrity_size tx rx P). }
  eexists _, b, _. split; [exact Hp|]. split; [done|]. split; [exact Hr|done].
Qed.

End EndMarker.

(** ** Release of a bearer *)

Section Release.
Context (kc mac : Z -> bytes -> Z -> Z -> Z -> bytes -> bytes) (mode : l2_mode).

Definition released_table (drb_id : Z) (t : list qfi2drb_t) : list qfi2drb_t :=
  map (fun m => if q_drb_id m =? drb_id then {| m with q_drb_id := SDAP_NO_MAPPING_RULE |} else m) t.

(** The flow of the SDU was mapped to the bearer. *)
Definition of_bearer (se : nr_sdap_entity_t) (drb_id : Z) (d : nr_pdcp_sdu) : Prop :=
  exists b sdu m, ps_buffer d = b :: sdu /\ table_get se (Z.land b 0x3f) = Ok m /\ q_drb_id m = drb_id.

Lemma released_rx se drb_id d k g pdu ue : sd_enable_sdap se = true -> table_ok se -> of_bearer se drb_id d ->
  nr_sdap_rx_entity {| se with sd_table := released_table drb_id (sd_table se) |} k g pdu ue (ps_buffer d) =
    Ok ({| se with sd_table := released_table drb_id (sd_table se) |}, []).
Proof.
  intros Hen Ht (b & sdu & m & -> & Hm & Hd). unfold nr_sdap_rx_entity. set (se' := {| se with sd_table := _ |}).
  assert (Hm' : table_get se' (Z.land b 0x3f) = Ok {| m with q_drb_id := 0 |}).
  { apply table_get_lookup. apply table_get_lookup in Hm. simpl. unfold released_table. rewrite list_lookup_fmap, Hm. simpl.
    by rewrite (proj2 (Z.eqb_eq _ _) Hd). }
  by rewrite (rx_mapping_ok se' b sdu _ Hen ltac:(unfold table_ok; simpl; unfold released_table; by rewrite length_map) Hm' (land_qfi b)).
Qed.

Lemma deliver_released se drb_id e sdus s ue_id : sd_enable_sdap se = true -> table_ok se -> Forall (of_bearer se drb_id) sdus ->
  nr_sdap_get_entity (l2_sdap s) ue_id (pe_pdusession_id e) = Some {| se with sd_table := released_table drb_id (sd_table se) |} ->
  deliver_sdus kc mac mode s ue_id drb_id false e sdus = Ok (s, []).
Proof.
  intros Hen Ht Hf Hg. induction Hf as [|d sdus Hd _ IH]; [done|]. cbn [deliver_sdus]. unfold deliver_sdu_drb, sdap_data_ind.
  rewrite Hg, !(released_rx se drb_id d) by done. cbn [rbind]. rewrite (put_entity_same _ _ _ _ Hg).
  replace (if nos1_or_tun mode then _ else _) with (Ok (l2_sdap s, @nil sdap_out)) by (by destruct (nos1_or_tun mode)).
  cbn [rbind sdap_outputs]. replace {| s with l2_sdap := l2_sdap s |} with s by (by destruct s). by rewrite IH.
Qed.

Lemma get_rb_slot ue k e : nr_pdcp_get_rb ue k false = Ok (Some e) -> 1 <= k /\ pu_drb ue !! Z.to_nat (k - 1) = Some (Some e).
Proof.
  unfold nr_pdcp_get_rb. destruct (Z.ltb_spec k 1); [done|]. destruct (_ <? k); [done|]. simpl.
  destruct (pu_drb ue !! Z.to_nat (k - 1)) as [rb|]; [|done]. by intros [= ->].
Qed.

Lemma find_store s ue ue_id : pu_ue_id ue = ue_id -> find_ue (l2_ues s) ue_id <> None -> find_ue (l2_ues (store_ue s ue)) ue_id = Some ue.
Proof. intros <-. apply find_put. Qed.

(** The release of a bearer loses the SDUs that wait in its reordering
    buffer, although [release_entity] hands them over: SDAP has already dropped
    the rules of the bearer, and drops an SDU with header of a flow without a
    rule.  Nothing leaves, and the bearer is gone. *)
Theorem l2_release_drb_loses_sdus s ue_id drb_id e se :
  has_bearer s ue_id drb_id false e ->
  nr_sdap_get_entity (l2_sdap s) ue_id (pe_pdusession_id e) = Some se -> sd_enable_sdap se = true -> table_ok se ->
  Forall (of_bearer se drb_id) (pe_rx_list e) ->
  exists s', nr_pdcp_release_drb kc mac mode s ue_id drb_id = Ok (s', []) /\ forall e', ~ has_bearer s' ue_id drb_id false e'.
Proof.
  intros (ue & Hf & Hg) Hse Hen Ht Hall. destruct (find_ue_some _ _ _ Hf) as [_ Hid]. destruct (get_rb_slot _ _ _ Hg) as [Hk Hslot].
  unfold nr_pdcp_release_drb. rewrite (get_ue_found _ _ _ Hf), (proj2 (Z.ltb_ge _ _)), Hslot by lia. cbn [of_opt rbind].
  unfold run_entity, nr_pdcp_entity_release, deliver_all_sdus. destruct (deliver_all (pe_rx_list e) e) as [e1 ev] eqn:Hda.
  destruct (deliver_all_spec _ _ _ _ eq_refl Hda) as ([_ _ (l & z & st & He1)] & -> & _). cbn [rbind]. rewrite Hid.
  set (s1 := store_rb _ ue drb_id false e1).
  assert (Hg1 : nr_sdap_get_entity (l2_sdap s1) ue_id (pe_pdusession_id e1) = Some {| se with sd_table := released_table drb_id (sd_table se) |}).
  { rewrite He1. simpl. unfold nr_sdap_release_drb. rewrite Hse. apply (get_put_eq ue_id _ (sp_entities (l2_sdap s)) se); [done|].
    apply get_some in Hse as [_ Hse]. exact Hse. }
  rewrite (deliver_released se drb_id e1 _ s1 ue_id Hen Ht Hall Hg1). cbn [rbind].
  assert (Hf1 : find_ue (l2_ues s1) ue_id = Some (put_rb ue drb_id false (Some e1))).
  { apply (find_store {| s with l2_sdap := nr_sdap_release_drb (l2_sdap s) ue_id drb_id (pe_pdusession_id e) |}); [done|simpl; by rewrite Hf]. }
  rewrite (get_ue_found _ _ _ Hf1). eexists. split; [done|]. intros e' (ue' & Hf' & Hg').
  assert (Hf2 : find_ue (l2_ues (store_ue s1 (put_rb (put_rb ue drb_id false (Some e1)) drb_id false None))) ue_id =
    Some (put_rb (put_rb ue drb_id false (Some e1)) drb_id false None)).
  { apply find_store; [done|by rewrite Hf1]. }
  rewrite Hf2 in Hf'. injection Hf' as <-. apply get_rb_slot in Hg' as [_ Hl]. simpl in Hl.
  rewrite list_lookup_insert_eq in Hl; [done|]. rewrite length_insert. by eapply lookup_lt_Some.
Qed.

End Release.

(** ** Examples *)

Definition example_mode : l2_mode := mk_l2_mode false false false.
Definition example_start : l2_t := mk_l2 [] (mk_sdap [] []) (mk_f1_ids None None).

(** A bearer of the gNB with SDAP headers and a t-Reordering of 100 ms; the
    first PDU is lost, the second arrives, and the clock goes on to 2 s. *)
Definition example_tick_ops (drb_id : Z) : list l2_op :=
  [LAddDrb true 7 (mk_PDCP_Config (Some (mk_PDCP_Config_drb (Some 0) (Some 0) (Some 15) false)) (Some 14) true)
     (mk_sdap_config 10 drb_id 6 false [5] []) (mk_security 0 0 [] []);
   LSdap (OpAddMod true 7 (-1) (-1) (mk_sdap_config 10 drb_id 6 false [5] []));
   LTick 1;
   LDataInd (sdap_ctxt 7) false drb_id [0x80; 1; 0x85; 0xaa];
   LTick 2000].

(** On bearer 5 the SDU comes out when the time is over. *)
Lemma example_tick_5 : (l2_run toy_cipher toy_mac example_mode example_start (example_tick_ops 5)).1.1 =
  [[]; []; []; []; [OutSdap (ToGtp 7 10 (Some 5) [0xaa])]].
Proof. vm_compute. reflexivity. Qed.

Lemma example_tick_6 : exists s e, l2_run toy_cipher toy_mac example_mode example_start (example_tick_ops 6) = ([[]; []; []; []; []], s, None) /\
  has_bearer s 7 6 false e /\ map ps_buffer (pe_rx_list e) = [[0x85; 0xaa]].
Proof.
  eexists _, _. split; [vm_compute; reflexivity|]. split; [eexists; split; [vm_compute; reflexivity|vm_compute; reflexivity]|reflexivity].
Qed.

Lemma l2_high_drbs_have_no_clock_witness : exists s e,
  l2_run toy_cipher toy_mac example_mode example_start (example_tick_ops 6) = ([[]; []; []; []; []], s, None) /\
  map ps_buffer (pe_rx_list e) = [[0x85; 0xaa]] /\ has_bearer s 7 6 false e /\ pe_t_current e = 0 /\ pe_t_reordering_start e = 0.
Proof.
  destruct example_tick_6 as (s & e & Hr & Hb & Hl). exists s, e. split; [exact Hr|]. split; [exact Hl|]. split; [exact Hb|].
  destruct (l2_high_drbs_have_no_clock toy_cipher toy_mac example_mode _ _ _ _ _ 7 6 e Hr Hb) as (H1 & H2 & _); [lia|].
  split; [exact H1|exact H2].
Defined.

(** Two ends that only cipher, with NEA2. *)
Definition cipher_only (e : nr_pdcp_entity) : nr_pdcp_entity := {| e with pe_has_integrity := false; pe_integrity_context := None |}.

Lemma cipher_only_ok e : security_ok e -> pdcp_cfg e -> security_ok (cipher_only e) /\ pdcp_cfg (cipher_only e).
Proof. intros [H1 H2 H3] [H4 H5 H6]. split; [by split|by split]. Qed.

Lemma cipher_only_peers tx rx : pdcp_peers tx rx -> pdcp_peers (cipher_only tx) (cipher_only rx).
Proof. intros []. by split. Qed.

Lemma ex_peers b : pdcp_peers (ex_end b 0 0) (ex_end (negb b) 0 0).
Proof. by destruct b. Qed.

(** The UE stops when it ciphers with NEA2 only; with a MAC the gNB drops its
    end marker. *)
Lemma l2_end_marker_lost_witness :
  nr_pdcp_entity_process_sdu toy_cipher toy_mac (cipher_only (ex_end false 0 0)) [5] (nr_max_pdcp_pdu_size 1) = Fail FExit /\
  exists tx' pdu rx', nr_pdcp_entity_process_sdu toy_cipher toy_mac (ex_end false 0 0) [5] (nr_max_pdcp_pdu_size 1) = Ok (tx', Some pdu) /\
    pe_tx_next tx' = 1 /\ nr_pdcp_entity_recv_pdu toy_cipher toy_mac (ex_end true 0 0) pdu = Ok (rx', []) /\ pe_rx_next rx' = 0.
Proof.
  destruct (ex_end_ok false 0 0 ltac:(lia)) as (I1 & S1 & _). destruct (ex_end_ok true 0 0 ltac:(lia)) as (I2 & S2 & _).
  pose proof (pri_cfg _ I1) as C1. pose proof (pri_cfg _ I2) as C2.
  destruct (cipher_only_ok _ S1 C1) as [S1' C1']. destruct (cipher_only_ok _ S2 C2) as [S2' C2']. split.
  - apply (l2_end_marker_lost toy_cipher toy_mac toy_cipher_length toy_mac_length (cipher_only (ex_end false 0 0)) (cipher_only (ex_end true 0 0)) 5
      C1' C2' S2' (cipher_only_peers _ _ (ex_peers false))); [reflexivity|unfold qfi_ok; lia].
  - destruct (l2_end_marker_lost toy_cipher toy_mac toy_cipher_length toy_mac_length (ex_end false 0 0) (ex_end true 0 0) 5
      C1 C2 S2 (ex_peers false)) as (tx' & pdu & rx' & H1 & H2 & H3 & _ & H4 & _); [reflexivity|unfold qfi_ok; lia|].
    exists tx', pdu, rx'. split; [exact H1|]. split; [exact H2|]. split; [exact H3|exact H4].
Defined.

(** The gNB of [example_l2] with an SDU of flow 5 in the buffer of bearer 4. *)
Definition example_waiting : nr_pdcp_entity :=
  {| (example_bearer true) with pe_rx_list := [nr_pdcp_new_sdu 1 [0x85; 0xaa] (mk_integrity 0 [] 0 [])]; pe_rx_next := 2 |}.

Definition example_release : l2_t :=
  mk_l2 [put_rb (new_pdcp_ue 7) 4 false (Some example_waiting)] (mk_sdap [example_sdap true] []) (mk_f1_ids None None).

Lemma l2_release_drb_loses_sdus_witness :
  has_bearer example_release 7 4 false example_waiting /\ map ps_buffer (pe_rx_list example_waiting) = [[0x85; 0xaa]] /\
  exists s', nr_pdcp_release_drb toy_cipher toy_mac example_mode example_release 7 4 = Ok (s', []).
Proof.
  assert (Hb : has_bearer example_release 7 4 false example_waiting) by (eexists; split; reflexivity).
  split; [exact Hb|]. split; [reflexivity|].
  destruct (l2_release_drb_loses_sdus toy_cipher toy_mac example_mode example_release 7 4 example_waiting (example_sdap true) Hb) as (s' & Hr & _);
    [reflexivity|reflexivity|reflexivity| |by exists s'].
  constructor; [|constructor]. exists 0x85, [0xaa], (mk_qfi2drb 4 6). split; [reflexivity|]. split; reflexivity.
Defined.
