(* ===== verification/StatsRan.v ===== *)
(** The PDCP statistics of the gNB on their way to the RIC
    (openair2/E2AP/RAN_FUNCTION/CUSTOMIZED/ran_func_pdcp.c): the callback that
    the agent calls, on the tables of [PdcpApi].

    [now] is [time_now_us()].  The callback counts the bearers, allocates and
    then fills; the model runs it without other threads in between.  A member
    that is assigned is converted to its type. *)

From S2P Require Import Prelude SmCodec SmStruct StatsData StatsCodec StatsProps StatsIe StatsSm.
From S2P Require Import Compare Pdcp PdcpRx Sdap F1apIds PdcpApi PdcpApiInv L2Props L2Limits.

Definition MAX_MOBILES_PER_GNB : Z := 16.

(** The bearers that are looked at, in the order of the two loops. *)
Definition stats_rb_ids : list Z := [1; 2; 3; 4; 5].
Definition stats_rbs (ues : list Z) : list (Z * Z) := flat_map (fun ue => map (pair ue) stats_rb_ids) ues.

(** One entry of the array; it was cleared by [calloc]. *)
Definition pdcp_rb_stats (ue_id rb_id : Z) (st : nr_pdcp_statistics) : StatsData.Pdcp.pdcp_radio_bearer_stats_t :=
  StatsData.Pdcp.mk_rb
    (u32 (txpdu_pkts st)) (u32 (txpdu_bytes st)) (u32 (txpdu_sn st))
    (u32 (rxpdu_pkts st)) (u32 (rxpdu_bytes st)) (u32 (rxpdu_sn st))
    (u32 (rxpdu_oo_pkts st)) (u32 (rxpdu_oo_bytes st))
    (u32 (rxpdu_dd_pkts st)) (u32 (rxpdu_dd_bytes st)) (u32 (rxpdu_ro_count st))
    (u32 (txsdu_pkts st)) (u32 (txsdu_bytes st)) (u32 (rxsdu_pkts st)) (u32 (rxsdu_bytes st))
    (u32 ue_id) (u8 (stats_mode st)) (u8 rb_id) 0.

(** The loops that count. *)
Fixpoint count_rbs (s : l2_t) (rbs : list (Z * Z)) (total : Z) : res (l2_t * Z) :=
  match rbs with
  | [] => Ok (s, total)
  | (ue_id, rb_id) :: rbs =>
      let* (s, rc) := nr_pdcp_get_statistics s ue_id rb_id false in
      count_rbs s rbs (if bool_decide (is_Some rc) then total + 1 else total)
  end.

(** [fill_pdcp_stats_for_all_rbs]: [j] is the next entry of the array [rb]. *)
Fixpoint fill_pdcp_stats_for_all_rbs (s : l2_t) (rb : list StatsData.Pdcp.pdcp_radio_bearer_stats_t) (j : nat)
    (rbs : list (Z * Z)) : res (l2_t * list StatsData.Pdcp.pdcp_radio_bearer_stats_t) :=
  match rbs with
  | [] => Ok (s, rb)
  | (ue_id, rb_id) :: rbs =>
      let* (s, rc) := nr_pdcp_get_statistics s ue_id rb_id false in
      match rc with
      | None => fill_pdcp_stats_for_all_rbs s rb j rbs
      | Some st =>
          let* _ := of_opt FBounds (rb !! j) in
          fill_pdcp_stats_for_all_rbs s (<[j := pdcp_rb_stats ue_id rb_id st]> rb) (S j) rbs
      end
  end.

Definition cleared_rb : StatsData.Pdcp.pdcp_radio_bearer_stats_t := cs_make [].

(** The end of [read_pdcp_sm], for the UEs of [ue_id_list]. *)
Definition report_pdcp (now : Z) (s : l2_t) (total_num_rb : Z) (ues : list Z) : res (l2_t * bool * StatsData.Pdcp.pdcp_ind_msg_t) :=
  let len := u32 total_num_rb in
  if 0 <? len then
    let* (s, rb) := fill_pdcp_stats_for_all_rbs s (replicate (Z.to_nat len) cleared_rb) 0 (stats_rbs ues) in
    Ok (s, true, StatsData.Pdcp.mk_msg rb now)
  else Ok (s, false, StatsData.Pdcp.mk_msg [] now).

(** The loop over the tree of RRC, which holds [ues] in its order. *)
Fixpoint list_rrc_ues (s : l2_t) (ues : list Z) (num_ues total_num_rb : Z) : res (l2_t * Z) :=
  match ues with
  | [] => Ok (s, total_num_rb)
  | ue_id :: ues =>
      let* _ := if num_ues <? MAX_MOBILES_PER_GNB then Ok tt else Fail FBounds in
      let* (s, total_num_rb) := count_rbs s (stats_rbs [ue_id]) total_num_rb in
      let num_ues := num_ues + 1 in
      let* _ := assert_ (num_ues <? MAX_MOBILES_PER_GNB) in
      list_rrc_ues s ues num_ues total_num_rb
  end.

(** [read_pdcp_sm] of a monolithic gNB or of a CU. *)
Definition read_pdcp_sm (node_type : ngran_node_t) (now : Z) (rrc_ues : list Z) (s : l2_t)
    : res (l2_t * bool * StatsData.Pdcp.pdcp_ind_msg_t) :=
  if bool_decide (node_type = ngran_gNB_DU) || bool_decide (node_type = ngran_gNB_CUCP)
  then Ok (s, false, StatsData.Pdcp.mk_msg [] now)
  else
    let* _ := assert_ (bool_decide (node_type = ngran_gNB_CU) || bool_decide (node_type = ngran_gNB)) in
    let* (s, total_num_rb) := list_rrc_ues s rrc_ues 0 0 in
    report_pdcp now s total_num_rb rrc_ues.

(** [read_pdcp_sm] of a CU-UP, whose UEs are those of PDCP.  The identifiers
    beyond the sixteenth are read from outside of the array. *)
Definition read_pdcp_sm_cuup (now : Z) (s : l2_t) : res (l2_t * bool * StatsData.Pdcp.pdcp_ind_msg_t) :=
  let (num_ues, ue_id_list) := nr_pdcp_get_num_ues s MAX_MOBILES_PER_GNB in
  let* _ := if num_ues <=? zlen ue_id_list then Ok tt else Fail FBounds in
  let* (s, total_num_rb) := count_rbs s (stats_rbs ue_id_list) 0 in
  report_pdcp now s total_num_rb ue_id_list.

(** ** What is reported *)

(** The entity of a DRB, without the UE that a lookup may create. *)
Definition drb_entity (s : l2_t) (ue_id rb_id : Z) : option nr_pdcp_entity :=
  ue ← find_ue (l2_ues s) ue_id;
  match nr_pdcp_get_rb ue rb_id false with
  | Ok (Some e) => Some e
  | _ => None
  end.
Definition drb_stats (s : l2_t) (ue_id rb_id : Z) : option nr_pdcp_statistics := pe_stats <$> drb_entity s ue_id rb_id.

Lemma drb_entity_bearer s u k e : drb_entity s u k = Some e <-> has_bearer s u k false e.
Proof.
  unfold drb_entity, has_bearer. destruct (find_ue (l2_ues s) u) as [ue|]; cbn [mbind option_bind]; [|split; [done|by intros (? & ? & _)]]. split.
  - intros H. exists ue. split; [done|]. by destruct (nr_pdcp_get_rb ue k false) as [[e'|]|]; simplify_eq/=.
  - intros (ue' & [= <-] & Hg). by rewrite Hg.
Qed.

(** What the RIC is told: the DRBs 1 to 5 of the UEs, in this order, and an entry
    for each. *)
Definition reported_bearers (s : l2_t) (ues : list Z) : list (Z * Z * nr_pdcp_entity) :=
  u ← ues; k ← [1; 2; 3; 4; 5]; e ← option_list (drb_entity s u k); [(u, k, e)].

Definition reports_of (b : Z * Z * nr_pdcp_entity) (rb : StatsData.Pdcp.pdcp_radio_bearer_stats_t) : Prop :=
  let '(u, k, e) := b in
  let st := pe_stats e in
  StatsData.Pdcp.txpdu_pkts rb = u32 (txpdu_pkts st) /\ StatsData.Pdcp.txpdu_bytes rb = u32 (txpdu_bytes st) /\
  StatsData.Pdcp.txpdu_sn rb = u32 (txpdu_sn st) /\
  StatsData.Pdcp.rxpdu_pkts rb = u32 (rxpdu_pkts st) /\ StatsData.Pdcp.rxpdu_bytes rb = u32 (rxpdu_bytes st) /\
  StatsData.Pdcp.rxpdu_sn rb = u32 (rxpdu_sn st) /\
  StatsData.Pdcp.rxpdu_oo_pkts rb = u32 (rxpdu_oo_pkts st) /\ StatsData.Pdcp.rxpdu_oo_bytes rb = u32 (rxpdu_oo_bytes st) /\
  StatsData.Pdcp.rxpdu_dd_pkts rb = u32 (rxpdu_dd_pkts st) /\ StatsData.Pdcp.rxpdu_dd_bytes rb = u32 (rxpdu_dd_bytes st) /\
  StatsData.Pdcp.rxpdu_ro_count rb = u32 (rxpdu_ro_count st) /\
  StatsData.Pdcp.txsdu_pkts rb = u32 (txsdu_pkts st) /\ StatsData.Pdcp.txsdu_bytes rb = u32 (txsdu_bytes st) /\
  StatsData.Pdcp.rxsdu_pkts rb = u32 (rxsdu_pkts st) /\ StatsData.Pdcp.rxsdu_bytes rb = u32 (rxsdu_bytes st) /\
  StatsData.Pdcp.rnti rb = u32 u /\ StatsData.Pdcp.mode rb = u8 (stats_mode st) /\ StatsData.Pdcp.rbid rb = k /\
  StatsData.Pdcp.pad rb = 0.

(** The entries that the callback writes. *)
Definition pdcp_report (s : l2_t) (rbs : list (Z * Z)) : list StatsData.Pdcp.pdcp_radio_bearer_stats_t :=
  omap (fun '(ue_id, rb_id) => pdcp_rb_stats ue_id rb_id <$> drb_stats s ue_id rb_id) rbs.

(** The tables with an entry without bearers for some of [ids], and nothing else
    changed. *)
Definition same_stats (ids : list Z) (s s' : l2_t) : Prop :=
  l2_wf s' /\ exists us, us ⊆ ids /\ s' = {| s with l2_ues := l2_ues s ++ map new_pdcp_ue us |}.

Lemma pdcp_report_cons s u k rbs :
  pdcp_report s ((u, k) :: rbs)
  = match drb_stats s u k with Some st => pdcp_rb_stats u k st :: pdcp_report s rbs | None => pdcp_report s rbs end.
Proof. unfold pdcp_report. cbn [omap list_omap]. by destruct (drb_stats s u k). Qed.

Lemma new_ue_no_drb u k : nr_pdcp_get_rb (new_pdcp_ue u) k false = Ok None.
Proof.
  destruct (get_rb_ok (new_pdcp_ue u) k false (new_ue_wf u)) as ([e|] & Hrb & _); [|done]. exfalso. revert Hrb.
  unfold nr_pdcp_get_rb, new_pdcp_ue. cbn [pu_drb]. case_match; [done|].
  destruct (lookup _ _) as [o|] eqn:Hl; [|done]. apply lookup_replicate in Hl as [-> _]. done.
Qed.

Lemma find_ue_app l l' u : find_ue (l ++ l') u = match find_ue l u with Some ue => Some ue | None => find_ue l' u end.
Proof. induction l as [|x l IH]; simpl; [done|]. by destruct (_ =? _). Qed.

Lemma find_new_pdcp_ue us u ue : find_ue (map new_pdcp_ue us) u = Some ue -> ue = new_pdcp_ue u.
Proof. induction us as [|x us IH]; simpl; [done|]. destruct (Z.eqb_spec x u); [by intros [= <-]; subst|done]. Qed.

Lemma same_stats_refl ids s : l2_wf s -> same_stats ids s s.
Proof. intros Hs. split; [done|]. exists []. split; [set_solver|]. rewrite app_nil_r. by destruct s. Qed.

Lemma same_stats_trans ids s1 s2 s3 : same_stats ids s1 s2 -> same_stats ids s2 s3 -> same_stats ids s1 s3.
Proof.
  intros [_ (us1 & H1 & ->)] [Hw (us2 & H2 & ->)]. split; [done|]. exists (us1 ++ us2). split; [set_solver|].
  by rewrite map_app, app_assoc.
Qed.

Lemma same_stats_drb ids s s' u k : same_stats ids s s' -> drb_entity s' u k = drb_entity s u k.
Proof.
  intros [_ (us & _ & ->)]. unfold drb_entity. cbn [l2_ues]. rewrite find_ue_app.
  destruct (find_ue (l2_ues s) u) as [ue|]; [done|]. destruct (find_ue (map new_pdcp_ue us) u) as [ue|] eqn:Hf; [|done].
  apply find_new_pdcp_ue in Hf as ->. cbn [mbind option_bind]. by rewrite new_ue_no_drb.
Qed.

Lemma same_report ids s s' rbs : same_stats ids s s' -> pdcp_report s' rbs = pdcp_report s rbs.
Proof.
  intros H. unfold pdcp_report, drb_stats. induction rbs as [|[u k] rbs IH]; [done|].
  simpl. rewrite (same_stats_drb _ _ _ _ _ H). destruct (_ <$> _); [by f_equal|exact IH].
Qed.

Lemma get_ue_same ids s u : l2_wf s -> u ∈ ids -> same_stats ids s (get_ue s u).1.
Proof.
  intros Hs Hu. pose proof (get_ue_wf s u Hs) as Hg. split; [by destruct (get_ue s u); apply Hg|].
  unfold get_ue, nr_pdcp_manager_get_ue. destruct (find_ue (l2_ues s) u) as [ue|] eqn:Hf.
  - exists []. split; [set_solver|]. rewrite app_nil_r. by destruct s.
  - exists [u]. split; [set_solver|done].
Qed.

Lemma get_statistics_ok ids s u k :
  l2_wf s -> u ∈ ids -> exists s', nr_pdcp_get_statistics s u k false = Ok (s', drb_stats s u k) /\ same_stats ids s s'.
Proof.
  intros Hs Hu. pose proof (get_ue_same ids s u Hs Hu) as Hsame. pose proof (get_ue_wf s u Hs) as Hg.
  unfold nr_pdcp_get_statistics, on_rb. destruct (get_ue s u) as [s1 ue]. destruct Hg as (_ & Hue & _ & Hf & _).
  destruct (get_rb_ok ue k false Hue) as (rb & Hrb & _). exists s1. split; [|done].
  rewrite Hrb. cbn [rbind]. pose proof (same_stats_drb _ _ _ u k Hsame) as Hd. unfold drb_stats. rewrite <- Hd.
  unfold drb_entity. cbn [fst]. rewrite Hf. cbn [mbind option_bind]. rewrite Hrb. by destruct rb.
Qed.

Lemma stats_rbs_ids ids ues : ues ⊆ ids -> Forall (fun x => x.1 ∈ ids) (stats_rbs ues).
Proof.
  intros Hu. apply Forall_forall. intros [u k] Hx. apply list_elem_of_In, in_flat_map in Hx as (u' & Hin & Hx).
  apply list_elem_of_In in Hin. apply in_map_iff in Hx as (k' & [= <- <-] & _). by apply Hu.
Qed.

Lemma count_rbs_ok ids s rbs total :
  l2_wf s -> Forall (fun x => x.1 ∈ ids) rbs -> exists s', count_rbs s rbs total = Ok (s', total + zlen (pdcp_report s rbs)) /\ same_stats ids s s'.
Proof.
  revert s total. induction rbs as [|[u k] rbs IH]; intros s total Hs Hin; cbn [count_rbs].
  { exists s. split; [by rewrite Z.add_0_r|by apply same_stats_refl]. }
  apply Forall_cons in Hin as [Hu Hin]. destruct (get_statistics_ok ids s u k Hs Hu) as (s1 & -> & Hsame). cbn [rbind].
  destruct (IH s1 (if bool_decide (is_Some (drb_stats s u k)) then total + 1 else total)) as (s2 & -> & H2); [apply Hsame|done|].
  exists s2. split; [|by eapply same_stats_trans]. rewrite (same_report _ _ _ _ Hsame). do 2 f_equal.
  rewrite pdcp_report_cons. destruct (drb_stats s u k); [rewrite zlen_cons, bool_decide_true by done|rewrite bool_decide_false by (by intros [])]; lia.
Qed.

Lemma fill_ok ids s rb j rbs :
  l2_wf s -> Forall (fun x => x.1 ∈ ids) rbs -> (j + length (pdcp_report s rbs) <= length rb)%nat ->
  exists s', fill_pdcp_stats_for_all_rbs s rb j rbs
    = Ok (s', take j rb ++ pdcp_report s rbs ++ drop (j + length (pdcp_report s rbs)) rb) /\ same_stats ids s s'.
Proof.
  revert s rb j. induction rbs as [|[u k] rbs IH]; intros s rb j Hs Hin Hlen; cbn [fill_pdcp_stats_for_all_rbs].
  { exists s. split; [|by apply same_stats_refl]. simpl. by rewrite Nat.add_0_r, take_drop. }
  apply Forall_cons in Hin as [Hu Hin]. destruct (get_statistics_ok ids s u k Hs Hu) as (s1 & -> & Hsame). cbn [rbind].
  rewrite pdcp_report_cons in *. destruct (drb_stats s u k) as [st|].
  2: { destruct (IH s1 rb j) as (s2 & -> & H2); [apply Hsame|done|by rewrite (same_report _ _ _ _ Hsame)|].
       exists s2. rewrite (same_report _ _ _ _ Hsame). split; [done|by eapply same_stats_trans]. }
  simpl in Hlen. destruct (lookup_lt_is_Some_2 rb j) as [x Hx]; [lia|]. rewrite Hx. cbn [of_opt rbind].
  set (x' := pdcp_rb_stats u k st).
  destruct (IH s1 (<[j := x']> rb) (S j)) as (s2 & -> & H2);
    [apply Hsame|done|rewrite (same_report _ _ _ _ Hsame), length_insert; lia|].
  exists s2. rewrite (same_report _ _ _ _ Hsame). split; [|by eapply same_stats_trans]. do 2 f_equal. simpl length.
  rewrite (take_S_r _ _ x') by (apply list_lookup_insert_eq; lia).
  rewrite take_insert_ge, drop_insert_lt by lia. rewrite <- app_assoc. f_equal.
  cbn [app]. do 3 f_equal. lia.
Qed.

Lemma pdcp_report_app s l l' : pdcp_report s (l ++ l') = pdcp_report s l ++ pdcp_report s l'.
Proof. apply omap_app. Qed.

Lemma report_cons s u ues : pdcp_report s (stats_rbs (u :: ues)) = pdcp_report s (stats_rbs [u]) ++ pdcp_report s (stats_rbs ues).
Proof. rewrite <- pdcp_report_app. reflexivity. Qed.

Lemma zlen_report s ues : zlen (pdcp_report s (stats_rbs ues)) <= 5 * zlen ues.
Proof.
  induction ues as [|u ues IH]; [done|]. rewrite report_cons, zlen_app, zlen_cons.
  enough (zlen (pdcp_report s (stats_rbs [u])) <= 5) by lia. unfold stats_rbs. cbn [flat_map map stats_rb_ids app].
  rewrite !pdcp_report_cons. change (pdcp_report s []) with (@nil StatsData.Pdcp.pdcp_radio_bearer_stats_t).
  repeat case_match; rewrite ?zlen_cons, zlen_nil; lia.
Qed.

Lemma list_rrc_ues_ok ids s ues n total :
  l2_wf s -> ues ⊆ ids -> 0 <= n -> n + zlen ues < MAX_MOBILES_PER_GNB ->
  exists s', list_rrc_ues s ues n total = Ok (s', total + zlen (pdcp_report s (stats_rbs ues))) /\ same_stats ids s s'.
Proof.
  revert s n total. induction ues as [|u ues IH]; intros s n total Hs Hin Hn Hlt; cbn [list_rrc_ues].
  { exists s. split; [by rewrite Z.add_0_r|by apply same_stats_refl]. }
  rewrite zlen_cons in Hlt. pose proof (zlen_nonneg ues).
  rewrite (proj2 (Z.ltb_lt n _)) by lia. cbn [rbind].
  destruct (count_rbs_ok ids s (stats_rbs [u]) total Hs) as (s1 & -> & H1); [apply stats_rbs_ids; set_solver|]. cbn [rbind]. unfold assert_.
  rewrite (proj2 (Z.ltb_lt (n + 1) _)) by lia. cbn [rbind].
  destruct (IH s1 (n + 1) (total + zlen (pdcp_report s (stats_rbs [u])))) as (s2 & -> & H2); [apply H1|set_solver|lia..|].
  exists s2. split; [|by eapply same_stats_trans]. rewrite (same_report _ _ _ _ H1), (report_cons s u ues), zlen_app. by rewrite Z.add_assoc.
Qed.

Lemma report_pdcp_ok now s ues :
  l2_wf s -> zlen ues < MAX_MOBILES_PER_GNB -> let r := pdcp_report s (stats_rbs ues) in
  exists s', report_pdcp now s (zlen r) ues = Ok (s', bool_decide (r <> []), StatsData.Pdcp.mk_msg r now) /\ same_stats ues s s'.
Proof.
  intros Hs Hlt r. pose proof (zlen_report s ues). pose proof (zlen_nonneg r). unfold MAX_MOBILES_PER_GNB in *.
  unfold report_pdcp. rewrite wrap_small by (subst r; lia).
  destruct (Z.ltb_spec 0 (zlen r)) as [Hpos|Hz].
  - destruct (fill_ok ues s (replicate (Z.to_nat (zlen r)) cleared_rb) 0 (stats_rbs ues) Hs) as (s' & -> & Hs').
    { by apply stats_rbs_ids. }
    { rewrite length_replicate. unfold zlen. subst r. lia. }
    exists s'. split; [|done]. cbn [rbind].
    rewrite drop_ge by (rewrite length_replicate; unfold zlen; subst r; lia). rewrite app_nil_r. cbn [take app].
    rewrite bool_decide_true; [done|]. intros Hr. by rewrite Hr in Hpos.
  - exists s. split; [|by apply same_stats_refl]. assert (r = []) as Hr by (apply length_zero_iff_nil; unfold zlen in *; lia).
    rewrite Hr. rewrite bool_decide_false by auto. done.
Qed.

(** The callback of a node that has both RRC and PDCP reports every bearer 1 to
    5 of every UE of RRC, with its statistics. *)
Lemma read_pdcp_sm_ok node now ues s :
  l2_wf s -> node = ngran_gNB \/ node = ngran_gNB_CU -> zlen ues < MAX_MOBILES_PER_GNB ->
  let r := pdcp_report s (stats_rbs ues) in
  exists s', read_pdcp_sm node now ues s = Ok (s', bool_decide (r <> []), StatsData.Pdcp.mk_msg r now) /\ same_stats ues s s'.
Proof.
  intros Hs Hnode Hlt r. unfold read_pdcp_sm.
  destruct (list_rrc_ues_ok ues s ues 0 0 Hs ltac:(done) ltac:(lia) ltac:(lia)) as (s1 & Hl & H1).
  destruct (report_pdcp_ok now s1 ues) as (s2 & Hr & H2); [apply H1|done|].
  rewrite (same_report _ _ _ _ H1) in Hr. rewrite Z.add_0_l in Hl. exists s2. split; [|by eapply same_stats_trans].
  destruct Hnode as [-> | ->]; cbn; by rewrite Hl; cbn [rbind].
Qed.

Lemma pdcp_report_of s ues : Forall2 reports_of (reported_bearers s ues) (pdcp_report s (stats_rbs ues)).
Proof.
  unfold reported_bearers. induction ues as [|u ues IH]; [constructor|]. rewrite report_cons. cbn [mbind list_bind].
  apply Forall2_app; [|exact IH]. unfold stats_rbs, pdcp_report, drb_stats. cbn [flat_map map stats_rb_ids app omap list_omap].
  assert (He : forall k e, 1 <= k <= 5 -> reports_of (u, k, e) (pdcp_rb_stats u k (pe_stats e))).
  { intros k e Hk. unfold reports_of, pdcp_rb_stats. cbn. split_and!; try done. apply (wrap_small 8). lia. }
  destruct (drb_entity s u 1), (drb_entity s u 2), (drb_entity s u 3), (drb_entity s u 4), (drb_entity s u 5);
    cbn; repeat (constructor; [apply He; lia|]); constructor.
Qed.

Lemma reported_bearers_elem s ues u k e :
  (u, k, e) ∈ reported_bearers s ues <-> u ∈ ues /\ 1 <= k <= 5 /\ has_bearer s u k false e.
Proof.
  rewrite <- drb_entity_bearer. unfold reported_bearers. rewrite list_elem_of_bind. split.
  - intros (u' & Hb & Hu). apply list_elem_of_bind in Hb as (k' & Hb & Hk). apply list_elem_of_bind in Hb as (e' & Hb & He).
    apply list_elem_of_singleton in Hb as [= <- <- <-]. split; [done|]. split; [|by destruct (drb_entity s u k); set_solver].
    rewrite !elem_of_cons, elem_of_nil in Hk. lia.
  - intros (Hu & Hk & He). exists u. split; [|done]. apply list_elem_of_bind. exists k. split.
    + rewrite He. cbn. set_solver.
    + assert (k = 1 \/ k = 2 \/ k = 3 \/ k = 4 \/ k = 5) as H by lia. rewrite !elem_of_cons. intuition.
Qed.

Lemma wf_pdcp_rb u k st : wf_obj (pdcp_rb_stats u k st).
Proof.
  unfold pdcp_rb_stats. split; [|reflexivity]. cbn [cs_sizes cs_words StatsData.Pdcp.rb_struct replicate app].
  repeat constructor; try apply (wrap_range 32); try apply (wrap_range 8); try lia; done.
Qed.

Lemma wf_pdcp_report s ues now :
  zlen ues < MAX_MOBILES_PER_GNB -> - 2 ^ 63 <= now < 2 ^ 63 ->
  wf_pdcp (StatsData.Pdcp.mk_msg (pdcp_report s (stats_rbs ues)) now).
Proof.
  intros Hlt Hnow. pose proof (zlen_report s ues). unfold MAX_MOBILES_PER_GNB in *. split; [cbn; lia|]. split; [|done]. cbn.
  apply Forall_forall. intros x Hx. apply list_elem_of_omap in Hx as ([u k] & _ & Hx).
  destruct (drb_stats s u k); [|done]. injection Hx as <-. apply wf_pdcp_rb.
Qed.

(** ** From the gNB to the RIC *)

Section Telemetry.
Context (malloc : Z -> bytes) (malloc_len : forall n, 0 <= n -> zlen (malloc n) = n).
#[local] Existing Instances pdcp_model pdcp_laws.

Lemma pdcp_indication_stops node now ues s :
  l2_wf s -> node = ngran_gNB \/ node = ngran_gNB_CU -> zlen ues < MAX_MOBILES_PER_GNB -> - 2 ^ 63 <= now < 2 ^ 63 ->
  ~ Forall pdcp_rb_ok (pdcp_report s (stats_rbs ues)) ->
  on_indication_sm_ag (H := pdcp_model malloc) (read_pdcp_sm node now ues) s = Fail FExit.
Proof.
  intros Hs Hnode Hlt Hnow Hbad. destruct (read_pdcp_sm_ok node now ues s Hs Hnode Hlt) as (s' & Hread & _).
  pose proof (wf_pdcp_report s ues now Hlt Hnow) as Hwf. unfold on_indication_sm_ag.
  destruct (sm_hdr_law (StatsModelLaws := pdcp_laws malloc malloc_len)) as (b & -> & _). cbn [rbind].
  rewrite Hread. cbn [rbind]. rewrite bool_decide_true by (intros Hr; apply Hbad; rewrite Hr; constructor). cbn [negb].
  destruct (sm_ind_law (StatsModelLaws := pdcp_laws malloc malloc_len) _ Hwf) as (ba & -> & _). cbn [rbind].
  assert (Hfree : sm_free_ind_msg (StatsModel := pdcp_model malloc) (StatsData.Pdcp.mk_msg (pdcp_report s (stats_rbs ues)) now)
                  = if bool_decide (Forall pdcp_rb_ok (pdcp_report s (stats_rbs ues))) then Ok tt else Fail FExit) by apply check_pdcp_rbs_spec.
  rewrite Hfree. by rewrite bool_decide_false.
Qed.

(** C28. The indication of the agent of a gNB with fewer than 16 UEs tells of the
    DRBs 1 to 5 of the UEs that RRC lists, in this order; there is none without
    such a DRB.  When every entry passes the checks of [free_pdcp_ind_msg], the
    RIC decodes one entry for each of these bearers, each of whose members is the
    counter of the entity of this name; otherwise the gNB stops.  The tables of
    PDCP are left as they were, but for an entry without bearers for each UE that
    only RRC knows.  Bearers from 6 on are never reported. *)
Theorem pdcp_statistics_reach_ric node now ues s :
  l2_wf s -> node = ngran_gNB \/ node = ngran_gNB_CU -> zlen ues < MAX_MOBILES_PER_GNB -> - 2 ^ 63 <= now < 2 ^ 63 ->
  let out := on_indication_sm_ag (H := pdcp_model malloc) (read_pdcp_sm node now ues) s in
  exists r, Forall2 reports_of (reported_bearers s ues) r /\
    if bool_decide (Forall pdcp_rb_ok r) then
      exists s', same_stats ues s s' /\
        if bool_decide (r = []) then out = Ok (s', None)
        else exists d, out = Ok (s', Some d) /\
               on_indication_sm_ric (H := pdcp_model malloc) d = Ok (0, StatsData.Pdcp.mk_msg r now)
    else out = Fail FExit.
Proof.
  intros Hs Hnode Hlt Hnow out. set (r := pdcp_report s (stats_rbs ues)). exists r. split; [apply pdcp_report_of|].
  destruct (read_pdcp_sm_ok node now ues s Hs Hnode Hlt) as (s' & Hread & Hsame). fold r in Hread.
  pose proof (wf_pdcp_report s ues now Hlt Hnow) as Hwf. fold r in Hwf.
  assert (Hfree : sm_free_ind_msg (StatsModel := pdcp_model malloc) (StatsData.Pdcp.mk_msg r now)
                  = if bool_decide (Forall pdcp_rb_ok r) then Ok tt else Fail FExit) by apply check_pdcp_rbs_spec.
  destruct (decide (Forall pdcp_rb_ok r)) as [Hok|Hok];
    [rewrite (bool_decide_true (Forall _ _)) in * by done|rewrite (bool_decide_false (Forall _ _)) in * by done].
  - exists s'. split; [done|]. destruct (decide (r = [])) as [Hr|Hr]; [rewrite (bool_decide_true (r = [])) by done|rewrite (bool_decide_false (r = [])) by done].
    + subst out. unfold on_indication_sm_ag. rewrite Hread.
      destruct (sm_hdr_law (StatsModelLaws := pdcp_laws malloc malloc_len)) as (b & -> & _). cbn [rbind].
      rewrite (bool_decide_false (r <> [])) by auto. cbn [negb]. rewrite Hfree. cbn [rbind]. done.
    + rewrite bool_decide_true in Hread by done.
      exact (sm_indication_conveyed (H := pdcp_model malloc) wf_pdcp (StatsModelLaws0 := pdcp_laws malloc malloc_len) (read_pdcp_sm node now ues) s s' _ Hread Hwf Hfree).
  - by apply pdcp_indication_stops.
Qed.

(** ** Counters *)

(** A bearer with its statistics is what the report holds of it. *)
Lemma drb_stats_bearer s u k e : has_bearer s u k false e -> drb_stats s u k = Some (pe_stats e).
Proof. intros He%drb_entity_bearer. unfold drb_stats. by rewrite He. Qed.

Lemma in_stats_rbs u k ues : u ∈ ues -> 1 <= k <= 5 -> (u, k) ∈ stats_rbs ues.
Proof.
  intros Hu Hk. unfold stats_rbs. apply list_elem_of_In, in_flat_map. exists u. split; [by apply list_elem_of_In|].
  apply in_map. assert (k = 1 \/ k = 2 \/ k = 3 \/ k = 4 \/ k = 5) as H by lia. cbn. intuition.
Qed.

Context (kc mac : Z -> bytes -> Z -> Z -> Z -> bytes -> bytes).

(** SDUs that a bearer sends one after the other. *)
Fixpoint send_sdus (e : nr_pdcp_entity) (sdus : list bytes) : res nr_pdcp_entity :=
  match sdus with
  | [] => Ok e
  | sdu :: sdus =>
      let* (e, _) := nr_pdcp_entity_process_sdu kc mac e sdu (nr_max_pdcp_pdu_size (zlen sdu)) in
      send_sdus e sdus
  end.

Definition sdus_bytes (sdus : list bytes) : Z := foldr (fun sdu n => zlen sdu + n) 0 sdus.

Lemma process_sdu_counters e sdu max e' pdu :
  pe_entity_suspended e = false -> nr_pdcp_entity_process_sdu kc mac e sdu max = Ok (e', pdu) ->
  pe_entity_suspended e' = false /\
  rxsdu_pkts (pe_stats e') = u32 (rxsdu_pkts (pe_stats e) + 1) /\ rxsdu_bytes (pe_stats e') = u32 (rxsdu_bytes (pe_stats e) + zlen sdu).
Proof.
  intros Hs. unfold nr_pdcp_entity_process_sdu. intros (_ & _ & H)%rbind_ok. rewrite Hs in H.
  apply rbind_ok in H as (b1 & _ & H). apply rbind_ok in H as (b2 & _ & H). by injection H as <- _.
Qed.

Lemma send_sdus_counters sdus : forall e e',
  pe_entity_suspended e = false -> send_sdus e sdus = Ok e' ->
  u32 (rxsdu_pkts (pe_stats e')) = u32 (rxsdu_pkts (pe_stats e) + zlen sdus) /\
  u32 (rxsdu_bytes (pe_stats e')) = u32 (rxsdu_bytes (pe_stats e) + sdus_bytes sdus).
Proof.
  induction sdus as [|sdu sdus IH]; intros e e' Hs Hrun; cbn [send_sdus] in Hrun.
  { injection Hrun as <-. by rewrite zlen_nil, !Z.add_0_r. }
  apply rbind_ok in Hrun as ([e1 pdu] & H1 & Hrun). destruct (process_sdu_counters _ _ _ _ _ Hs H1) as (Hs1 & Hp & Hb).
  destruct (IH _ _ Hs1 Hrun) as [-> ->]. rewrite Hp, Hb, zlen_cons. cbn [sdus_bytes foldr]. unfold wrap.
  rewrite !Zplus_mod_idemp_l. split; f_equal; unfold sdus_bytes; lia.
Qed.

Lemma send_sdus_keeps sdus : forall e e', send_sdus e sdus = Ok e' -> keeps_rb e e'.
Proof.
  induction sdus as [|sdu sdus IH]; intros e e' Hrun; cbn [send_sdus] in Hrun; [by injection Hrun as <-|].
  apply rbind_ok in Hrun as ([e1 pdu] & H1 & Hrun). etransitivity; [by eapply keeps_process|by apply IH].
Qed.

(** Without security, nothing stops a bearer from sending. *)
Lemma send_sdus_total sdus : forall e,
  pe_has_integrity e = false -> pe_has_ciphering e = false -> exists e', send_sdus e sdus = Ok e'.
Proof.
  induction sdus as [|sdu sdus IH]; intros e Hi Hc; cbn [send_sdus]; [by eexists|].
  unfold nr_pdcp_entity_process_sdu. rewrite assert_ge by (unfold nr_max_pdcp_pdu_size; lia). cbn [rbind].
  destruct (pe_entity_suspended e); cbn [rbind]; [by apply IH|].
  cbn [pe_has_integrity pe_has_ciphering pdcp_stats]. rewrite Hi, Hc. destruct (has_mac _); cbn [rbind]; by apply IH.
Qed.

(** C37. The byte counters have 32 bits, and the agent insists on every report that
    there are not fewer bytes than packets.  A bearer 1 to 5 of a UE that has
    been sent more packets than the bytes that are left of their sum modulo
    2^32 stops the gNB with the next report, whatever else is reported. *)
Theorem pdcp_byte_counter_wrap_stops_gnb node now ues s u k e0 sdus e :
  l2_wf s -> node = ngran_gNB \/ node = ngran_gNB_CU -> zlen ues < MAX_MOBILES_PER_GNB -> - 2 ^ 63 <= now < 2 ^ 63 ->
  pe_entity_suspended e0 = false -> rxsdu_pkts (pe_stats e0) = 0 -> rxsdu_bytes (pe_stats e0) = 0 ->
  send_sdus e0 sdus = Ok e -> has_bearer s u k false e -> u ∈ ues -> 1 <= k <= 5 ->
  u32 (sdus_bytes sdus) < u32 (zlen sdus) ->
  on_indication_sm_ag (H := pdcp_model malloc) (read_pdcp_sm node now ues) s = Fail FExit.
Proof.
  intros Hs Hnode Hlt Hnow Hsus Hp0 Hb0 Hsend Hbearer Hu Hk Hwrap. apply pdcp_indication_stops; [done..|].
  destruct (send_sdus_counters sdus e0 e Hsus Hsend) as [Hp Hb]. rewrite Hp0 in Hp. rewrite Hb0 in Hb.
  intros Hall. rewrite Forall_forall in Hall.
  assert (Hin : pdcp_rb_stats u k (pe_stats e) ∈ pdcp_report s (stats_rbs ues)).
  { apply list_elem_of_omap. exists (u, k). split; [by apply in_stats_rbs|]. by rewrite (drb_stats_bearer _ _ _ _ Hbearer). }
  destruct (Hall _ Hin) as (_ & _ & _ & _ & _ & Hle). cbn in Hle. rewrite Hp, Hb, !Z.add_0_l in Hle. lia.
Qed.

End Telemetry.

(** ** Examples *)

(** A gNB with one UE, and the bearer 4 of it. *)
Definition stats_l2 (e : nr_pdcp_entity) : l2_t :=
  mk_l2 [put_rb (new_pdcp_ue 7) 4 false (Some e)] (mk_sdap [] []) (mk_f1_ids None None).

(** The bearer before its first SDU, without security. *)
Definition stats_bearer : nr_pdcp_entity :=
  {| (cipher_only (example_bearer true)) with pe_type := NR_PDCP_DRB_AM; pe_has_ciphering := false; pe_security_context := None |}.

Lemma stats_l2_wf e : slot_ok false 4 e -> l2_wf (stats_l2 e).
Proof.
  intros He. split; [by repeat constructor; intros ?%elem_of_nil|].
  constructor; [|constructor]. apply put_rb_wf; [apply new_ue_wf|lia|]. by intros e' [= <-].
Qed.

Lemma stats_bearer_slot e sdus : send_sdus toy_cipher toy_mac stats_bearer sdus = Ok e -> slot_ok false 4 e.
Proof. intros H. eapply keeps_slot; [by eapply send_sdus_keeps|]. split; [lia|done|done|lia]. Qed.

Lemma stats_l2_bearer e : has_bearer (stats_l2 e) 7 4 false e.
Proof. by eexists. Qed.

(** Two SDUs are sent, and the RIC gets the counters. *)
Lemma pdcp_statistics_reach_ric_witness : exists e s' d,
  send_sdus toy_cipher toy_mac stats_bearer [[1; 2; 3]; [4; 5]] = Ok e /\
  on_indication_sm_ag (H := pdcp_model calloc) (read_pdcp_sm ngran_gNB 1000 [7]) (stats_l2 e) = Ok (s', Some d) /\
  on_indication_sm_ric (H := pdcp_model calloc) d =
    Ok (0, StatsData.Pdcp.mk_msg [StatsData.Pdcp.mk_rb 2 9 1 0 0 0 0 0 0 0 0 0 0 2 5 7 0 4 0] 1000).
Proof.
  destruct (send_sdus toy_cipher toy_mac stats_bearer [[1; 2; 3]; [4; 5]]) as [e|f] eqn:He; [|discriminate].
  pose proof (pdcp_statistics_reach_ric calloc zlen_calloc ngran_gNB 1000 [7] (stats_l2 e)
    (stats_l2_wf e (stats_bearer_slot _ _ He)) (or_introl eq_refl) eq_refl ltac:(lia)) as H.
  vm_compute in He. injection He as <-. destruct H as (r & Hr & H).
  assert (Hr' : r = [StatsData.Pdcp.mk_rb 2 9 1 0 0 0 0 0 0 0 0 0 0 2 5 7 0 4 0]).
  { apply Forall2_cons_inv_l in Hr as ([] & l & Hrb & Hl & ->). apply Forall2_nil_inv_l in Hl as ->.
    f_equal. vm_compute in Hrb. by destruct_and! Hrb; subst. }
  subst r. destruct H as (s' & _ & d & Hag & Hric). eexists _, s', d. split; [reflexivity|]. split; [exact Hag|exact Hric].
Defined.

Lemma sdus_bytes_replicate n sdu : 0 <= n -> sdus_bytes (replicate (Z.to_nat n) sdu) = n * zlen sdu.
Proof.
  intros Hn. rewrite <- (Z2Nat.id n) at 2 by done. induction (Z.to_nat n) as [|m IH]; [done|].
  change (replicate (S m) sdu) with (sdu :: replicate m sdu). cbn [sdus_bytes foldr]. unfold sdus_bytes in IH. lia.
Qed.

(** 4 GiB in packets of 1400 bytes. *)
Definition stats_sdus : list bytes := replicate (Z.to_nat 3067834) (replicate (Z.to_nat 1400) 0).

Lemma pdcp_byte_counter_wrap_stops_gnb_witness : exists e,
  send_sdus toy_cipher toy_mac stats_bearer stats_sdus = Ok e /\
  on_indication_sm_ag (H := pdcp_model calloc) (read_pdcp_sm ngran_gNB 1000 [7]) (stats_l2 e) = Fail FExit.
Proof.
  destruct (send_sdus_total toy_cipher toy_mac stats_sdus stats_bearer eq_refl eq_refl) as [e He].
  exists e. split; [exact He|].
  apply (pdcp_byte_counter_wrap_stops_gnb calloc zlen_calloc toy_cipher toy_mac ngran_gNB 1000 [7] (stats_l2 e) 7 4 stats_bearer stats_sdus e
    (stats_l2_wf e (stats_bearer_slot _ _ He)) (or_introl eq_refl) eq_refl ltac:(lia) eq_refl eq_refl eq_refl He (stats_l2_bearer e)).
  - left.
  - lia.
  - unfold stats_sdus. rewrite sdus_bytes_replicate, !zlen_replicate by lia. reflexivity.
Defined.
