(* ===== verification/RlcApi.v ===== *)
(** The RLC entities of the UEs (openair2/LAYER2/nr_rlc/nr_rlc_ue_manager.c,
    nr_rlc_oai_api.c): the table of bearers and logical channels, and the
    interface to MAC, PDCP, RRC and F1.  Definitions only.

    A bearer is an entity of one of the three kinds with the SDUs it holds: no
    SDU is shared between entities, so each has its part of the store.  A pointer
    to an entity is its place in the table of the UE.  The callbacks of an
    operation run after it, in the order in which it makes them; they read the
    table and change nothing.  [clock] stands for [time_average_now]. *)

From S2P Require Import Prelude Asn1Utils RlcPdu RlcSdu TimeStat RlcEntity RlcTm RlcUm RlcAm RlcAmTx.
From S2P Require Import Sdap Hashtable F1apIds PdcpApi.

Definition RLC_TX_MAXSIZE : Z := 10000000.
Definition RLC_RX_MAXSIZE : Z := 10000000.

(** ** Bearers *)

Inductive rlc_rb :=
| RbTm (h : rlc_heap) (e : nr_rlc_entity_tm)
| RbUm (h : rlc_heap) (e : nr_rlc_entity_um)
| RbAm (h : rlc_heap) (e : nr_rlc_entity_am).

(** A call through the table of operations of the entity. *)
Definition rb_call {R} (f : forall E, RlcEntity E -> rlc_heap -> E -> res (rlc_heap * E * R)) (rb : rlc_rb) : res (rlc_rb * R) :=
  match rb with
  | RbTm h e => let* (h, e, r) := f _ _ h e in Ok (RbTm h e, r)
  | RbUm h e => let* (h, e, r) := f _ _ h e in Ok (RbUm h e, r)
  | RbAm h e => let* (h, e, r) := f _ _ h e in Ok (RbAm h e, r)
  end.

Definition rb_recv_pdu (buffer : bytes) : rlc_rb -> res (rlc_rb * list event) :=
  rb_call (fun E _ h e => recv_pdu h e buffer).

Definition rb_set_time (now : Z) : rlc_rb -> res (rlc_rb * list event) :=
  rb_call (fun E _ h e => set_time h e now).

Definition rb_generate_pdu (now : Z) (buffer : bytes) (size : Z) : rlc_rb -> res (rlc_rb * (bytes * Z)) :=
  rb_call (fun E _ h e => let* (h, e, buffer, ret) := generate_pdu h e now buffer size in Ok (h, e, (buffer, ret))).

Definition rb_recv_sdu (now : Z) (buffer : bytes) (size sdu_id : Z) (rb : rlc_rb) : res rlc_rb :=
  let* (rb, _) := rb_call (fun E _ h e => let* (h, e) := recv_sdu h e now buffer size sdu_id in Ok (h, e, tt)) rb in Ok rb.

Definition rb_reestablishment (rb : rlc_rb) : res rlc_rb :=
  let* (rb, _) := rb_call (fun E _ h e => let* (h, e) := reestablishment h e in Ok (h, e, tt)) rb in Ok rb.

Definition rb_query {R} (f : forall E, RlcEntity E -> E -> R) (rb : rlc_rb) : R :=
  match rb with RbTm _ e => f _ _ e | RbUm _ e => f _ _ e | RbAm _ e => f _ _ e end.

Definition rb_buffer_status (maxsize : Z) : rlc_rb -> res nr_rlc_entity_buffer_status :=
  rb_query (fun E _ e => buffer_status e maxsize).

Definition rb_delete (rb : rlc_rb) : res unit :=
  let* _ := match rb with
            | RbTm h e => nr_rlc_entity_tm_delete h e
            | RbUm h e => nr_rlc_entity_um_delete h e
            | RbAm h e => nr_rlc_entity_am_delete h e
            end in Ok tt.

(** [rb->avg_time_is_on = is_on; time_average_reset(rb->txsdu_avg_time_to_tx);] *)
Definition avg_time_switch (is_on : bool) (c : nr_rlc_entity) : nr_rlc_entity :=
  {| c with avg_time_is_on := is_on; avg_time_to_tx := time_average_reset (avg_time_to_tx c) |}.

Definition rb_avg_time (is_on : bool) (rb : rlc_rb) : rlc_rb :=
  match rb with
  | RbTm h e => RbTm h {| e with tm_common := avg_time_switch is_on (tm_common e) |}
  | RbUm h e => RbUm h {| e with um_common := avg_time_switch is_on (um_common e) |}
  | RbAm h e => RbAm h {| e with am_common := avg_time_switch is_on (am_common e) |}
  end.

Definition rb_get_stats (now : Z) (rb : rlc_rb) : res (rlc_rb * nr_rlc_statistics) :=
  match rb with
  | RbTm h e => let* (c, out) := nr_rlc_entity_get_stats h (tm_common e) (head (sl_list (tm_tx e))) now in
                Ok (RbTm h {| e with tm_common := c |}, out)
  | RbUm h e => let* (e, out) := nr_rlc_entity_um_get_stats h e now in Ok (RbUm h e, out)
  | RbAm h e => let* (e, out) := nr_rlc_entity_am_get_stats h e now in Ok (RbAm h e, out)
  end.

(** ** The table *)

Inductive nr_lcid_rb_t := NR_LCID_NONE | NR_LCID_SRB (srb_id : Z) | NR_LCID_DRB (drb_id : Z).

(** [ru_srb0_id]: the [ue_id] in the data of the callback of SRB 0. *)
Record nr_rlc_ue_t := mk_rlc_ue {
  ru_ue_id : Z;
  ru_srb0 : option rlc_rb;
  ru_srb0_id : Z;
  ru_srb : list (option rlc_rb);
  ru_drb : list (option rlc_rb);
  ru_lcid2rb : list nr_lcid_rb_t;
  ru_rlf_handler : bool
}.

Inductive nr_rlc_op_mode_t := NR_RLC_OP_MODE_SPLIT_GNB | NR_RLC_OP_MODE_MONO_GNB | NR_RLC_OP_MODE_UE.

Record rlc_t := mk_rlc { rl_ues : list nr_rlc_ue_t; rl_mode : nr_rlc_op_mode_t; rl_time : Z }.

(** An access to an array. *)
Definition arr_get {A} (l : list A) (i : Z) : res A := if i <? 0 then Fail FBounds else of_opt FBounds (l !! Z.to_nat i).

(** [PSrb i] is [srb[i - 1]]. *)
Inductive rlc_place := PSrb0 | PSrb (i : Z) | PDrb (i : Z).

Section Table.
Implicit Types (ue : nr_rlc_ue_t) (s : rlc_t).

Definition new_nr_rlc_ue_manager (mode : nr_rlc_op_mode_t) : rlc_t := mk_rlc [] mode 0.

Definition nr_rlc_manager_rlc_is_split s : bool := match rl_mode s with NR_RLC_OP_MODE_SPLIT_GNB => true | _ => false end.

Definition nr_rlc_manager_get_gnb_flag s : bool := match rl_mode s with NR_RLC_OP_MODE_UE => false | _ => true end.

Definition new_rlc_ue (ue_id : Z) : nr_rlc_ue_t :=
  mk_rlc_ue ue_id None 0 (replicate 3 None) (replicate (Z.to_nat MAX_DRBS_PER_UE) None) (replicate 32 NR_LCID_NONE) false.

Fixpoint find_rlc_ue (ues : list nr_rlc_ue_t) (ue_id : Z) : option nr_rlc_ue_t :=
  match ues with
  | [] => None
  | ue :: ues' => if ru_ue_id ue =? ue_id then Some ue else find_rlc_ue ues' ue_id
  end.

(** Writing through the pointer to the UE that was found under [ue_id]. *)
Fixpoint put_rlc_ue (ues : list nr_rlc_ue_t) (ue_id : Z) ue : list nr_rlc_ue_t :=
  match ues with
  | [] => []
  | x :: ues' => if ru_ue_id x =? ue_id then ue :: ues' else x :: put_rlc_ue ues' ue_id ue
  end.

Definition nr_rlc_manager_get_ue s (ue_id : Z) : rlc_t * nr_rlc_ue_t :=
  match find_rlc_ue (rl_ues s) ue_id with
  | Some ue => (s, ue)
  | None => ({| s with rl_ues := rl_ues s ++ [new_rlc_ue ue_id] |}, new_rlc_ue ue_id)
  end.

Definition put_rlc s (ue_id : Z) ue : rlc_t := {| s with rl_ues := put_rlc_ue (rl_ues s) ue_id ue |}.

(** The [delete_entity] calls of [nr_rlc_manager_remove_ue]. *)
Fixpoint delete_all (rbs : list (option rlc_rb)) : res unit :=
  match rbs with
  | [] => Ok tt
  | rb :: rbs' => let* _ := match rb with Some rb => rb_delete rb | None => Ok tt end in delete_all rbs'
  end.

Fixpoint remove_rlc_ue (ues : list nr_rlc_ue_t) (ue_id : Z) : res (list nr_rlc_ue_t) :=
  match ues with
  | [] => Ok []
  | ue :: ues' =>
      if ru_ue_id ue =? ue_id then let* _ := delete_all (ru_srb0 ue :: ru_srb ue ++ ru_drb ue) in Ok ues'
      else let* ues' := remove_rlc_ue ues' ue_id in Ok (ue :: ues')
  end.

Definition nr_rlc_manager_remove_ue s (ue_id : Z) : res rlc_t :=
  let* ues := remove_rlc_ue (rl_ues s) ue_id in Ok {| s with rl_ues := ues |}.

Definition place_get ue (p : rlc_place) : res (option rlc_rb) :=
  match p with
  | PSrb0 => Ok (ru_srb0 ue)
  | PSrb i => arr_get (ru_srb ue) (i - 1)
  | PDrb i => arr_get (ru_drb ue) (i - 1)
  end.

Definition place_set ue (p : rlc_place) (rb : option rlc_rb) : nr_rlc_ue_t :=
  match p with
  | PSrb0 => {| ue with ru_srb0 := rb |}
  | PSrb i => {| ue with ru_srb := <[Z.to_nat (i - 1) := rb]> (ru_srb ue) |}
  | PDrb i => {| ue with ru_drb := <[Z.to_nat (i - 1) := rb]> (ru_drb ue) |}
  end.

(** The entity must not be there yet. *)
Definition place_add ue (p : rlc_place) (entity : rlc_rb) : res nr_rlc_ue_t :=
  let* old := place_get ue p in
  let* _ := assert_ (negb (bool_decide (is_Some old))) in
  Ok (place_set ue p (Some entity)).

Definition nr_rlc_ue_add_srb_rlc_entity ue (srb_id : Z) (entity : rlc_rb) : res nr_rlc_ue_t :=
  let* _ := assert_ (negb ((srb_id <? 0) || (3 <? srb_id))) in
  place_add ue (if srb_id =? 0 then PSrb0 else PSrb srb_id) entity.

Definition nr_rlc_ue_add_drb_rlc_entity ue (drb_id : Z) (entity : rlc_rb) : res nr_rlc_ue_t :=
  let* _ := assert_ (negb ((drb_id <? 1) || (MAX_DRBS_PER_UE <? drb_id))) in
  place_add ue (PDrb drb_id) entity.

(** ** Logical channels *)

(** The place that a channel other than 0 is mapped to. *)
Definition lcid_place ue (channel_id : Z) : res (option rlc_place) :=
  let* rb := arr_get (ru_lcid2rb ue) (channel_id - 1) in
  match rb with
  | NR_LCID_NONE => Ok None
  | NR_LCID_SRB id => let* _ := assert_ (0 <? id) in Ok (Some (PSrb id))
  | NR_LCID_DRB id => Ok (Some (PDrb id))
  end.

Definition get_rlc_entity_from_lcid ue (channel_id : Z) : res (option (rlc_place * rlc_rb)) :=
  let* p := if channel_id =? 0 then Ok (Some PSrb0) else lcid_place ue channel_id in
  match p with
  | None => Ok None
  | Some p => let* rb := place_get ue p in Ok (match rb with Some rb => Some (p, rb) | None => None end)
  end.

Definition is_channel_of (is_srb : bool) (rb_id : Z) (rb : nr_lcid_rb_t) : bool :=
  match rb with
  | NR_LCID_NONE => false
  | NR_LCID_SRB id => is_srb && (id =? rb_id)
  | NR_LCID_DRB id => negb is_srb && (id =? rb_id)
  end.

Fixpoint lcid_from_rb (id : Z) (is_srb : bool) (rb_id : Z) (l : list nr_lcid_rb_t) : Z :=
  match l with
  | [] => 0
  | rb :: l' => if is_channel_of is_srb rb_id rb then id else lcid_from_rb (id + 1) is_srb rb_id l'
  end.

Definition nr_rlc_get_lcid_from_rb s (ue_id : Z) (is_srb : bool) (rb_id : Z) : rlc_t * Z :=
  let (s, ue) := nr_rlc_manager_get_ue s ue_id in (s, lcid_from_rb 1 is_srb rb_id (ru_lcid2rb ue)).

Definition release_rlc_entity_from_lcid ue (channel_id : Z) : res nr_rlc_ue_t :=
  let* _ := assert_ (negb (channel_id =? 0)) in
  let* p := lcid_place ue channel_id in
  match p with
  | None => Ok ue
  | Some p =>
      let* rb := place_get ue p in
      match rb with
      | Some rb => let* _ := rb_delete rb in Ok (place_set ue p None)
      | None => Ok ue
      end
  end.

Definition nr_rlc_release_entity s (ue_id channel_id : Z) : res rlc_t :=
  let (s, ue) := nr_rlc_manager_get_ue s ue_id in
  let* ue :=
    if channel_id =? 0 then
      match ru_srb0 ue with
      | Some rb => let* _ := rb_delete rb in Ok {| ue with ru_srb0 := None |}
      | None => Ok ue
      end
    else release_rlc_entity_from_lcid ue channel_id in
  Ok (put_rlc s ue_id ue).

End Table.

(** ** The interface *)

(** [nr_pdcp_data_ind], the message F1AP_UL_RRC_MESSAGE, [gtpv1uSendDirect],
    [send_initial_ul_rrc_message] and the handler of radio link failures. *)
Inductive rlc_out :=
| ToPdcpInd (ctx : protocol_ctxt_t) (is_srb : bool) (rb_id : Z) (sdu : bytes)
| ToF1UlRrc (gNB_CU_ue_id gNB_DU_ue_id srb_id : Z) (rrc_container : bytes)
| ToF1U (ue_id rb_id : Z) (sdu : bytes)
| ToInitialUlRrc (ue_id : Z) (sdu : bytes)
| RadioLinkFailure (ue_id : Z).

(** The fields of RLC-Config and RLC-BearerConfig (TS 38.331) that the code reads. *)
Record NR_RLC_Config__am := mk_RLC_Config_am {
  am_dl_sn_FieldLength : option Z;
  am_dl_t_Reassembly : Z;
  am_dl_t_StatusProhibit : Z;
  am_ul_sn_FieldLength : option Z;
  am_ul_t_PollRetransmit : Z;
  am_ul_pollPDU : Z;
  am_ul_pollByte : Z;
  am_ul_maxRetxThreshold : Z
}.

Record NR_RLC_Config__um := mk_RLC_Config_um {
  um_dl_sn_FieldLength : option Z;
  um_dl_t_Reassembly : Z;
  um_ul_sn_FieldLength : option Z
}.

Inductive NR_RLC_Config_t := RLC_Config_am (am : NR_RLC_Config__am) | RLC_Config_um_Bi_Directional (um : NR_RLC_Config__um) | RLC_Config_other.

Inductive servedRadioBearer_t := served_srb (srb_Identity : Z) | served_drb (drb_Identity : Z).

Record NR_RLC_BearerConfig_t := mk_RLC_BearerConfig {
  logicalChannelIdentity : Z;
  servedRadioBearer : option servedRadioBearer_t;
  rlc_Config : option NR_RLC_Config_t
}.

(** The decoded parameters of an AM entity but the SN length. *)
Record am_params := mk_am_params {
  ap_t_poll_retransmit : Z;
  ap_t_reassembly : Z;
  ap_t_status_prohibit : Z;
  ap_poll_pdu : Z;
  ap_poll_byte : Z;
  ap_max_retx_threshold : Z
}.

(** The default values of 9.2.1 of TS 38.331. *)
Definition default_am_params : am_params := mk_am_params 45 35 0 (-1) (-1) 8.

Definition decode_am_params (am : NR_RLC_Config__am) : res am_params :=
  let* t_reassembly := decode_t_reassembly (am_dl_t_Reassembly am) in
  let* t_status_prohibit := decode_t_status_prohibit (am_dl_t_StatusProhibit am) in
  let* t_poll_retransmit := decode_t_poll_retransmit (am_ul_t_PollRetransmit am) in
  let* poll_pdu := decode_poll_pdu (am_ul_pollPDU am) in
  let* poll_byte := decode_poll_byte (am_ul_pollByte am) in
  let* max_retx_threshold := decode_max_retx_threshold (am_ul_maxRetxThreshold am) in
  Ok (mk_am_params t_poll_retransmit t_reassembly t_status_prohibit poll_pdu poll_byte max_retx_threshold).

(** The SN lengths of both directions, which must be there and equal. *)
Definition same_sn_length (dl ul : option Z) : res Z :=
  let* d := of_opt FBounds dl in
  let* u := of_opt FBounds ul in
  let* _ := assert_ (d =? u) in Ok d.

(** In a reconfiguration: both, or none. *)
Definition new_sn_length (decode : Z -> res Z) (dl ul : option Z) : res (option Z) :=
  match dl with
  | Some d =>
      let* u := of_opt FExit ul in
      let* _ := assert_ (d =? u) in
      let* n := decode d in Ok (Some n)
  | None => let* _ := assert_ (negb (bool_decide (is_Some ul))) in Ok None
  end.

Definition new_am (p : am_params) (sn_field_length : Z) : res rlc_rb :=
  let* e := new_nr_rlc_entity_am RLC_RX_MAXSIZE RLC_TX_MAXSIZE (ap_t_poll_retransmit p) (ap_t_reassembly p)
              (ap_t_status_prohibit p) (ap_poll_pdu p) (ap_poll_byte p) (ap_max_retx_threshold p) sn_field_length in
  Ok (RbAm heap_empty e).

Definition reconfigure_am (e : nr_rlc_entity_am) (p : am_params) (sn_field_length : option Z) : nr_rlc_entity_am :=
  nr_rlc_entity_am_reconfigure e (ap_t_poll_retransmit p) (ap_t_reassembly p) (ap_t_status_prohibit p)
    (ap_poll_pdu p) (ap_poll_byte p) (ap_max_retx_threshold p) sn_field_length.

(** [rb->stats.mode] tells the kind of the entity. *)
Definition reconfigure_rb (c : option NR_RLC_Config_t) (rb : rlc_rb) : res rlc_rb :=
  match c, rb with
  | Some (RLC_Config_am am), RbAm h e =>
      let* p := decode_am_params am in
      let* n := new_sn_length decode_sn_field_length_am (am_dl_sn_FieldLength am) (am_ul_sn_FieldLength am) in
      Ok (RbAm h (reconfigure_am e p n))
  | Some (RLC_Config_um_Bi_Directional um), RbUm h e =>
      let* t_reassembly := decode_t_reassembly (um_dl_t_Reassembly um) in
      let* n := new_sn_length decode_sn_field_length_um (um_dl_sn_FieldLength um) (um_ul_sn_FieldLength um) in
      Ok (RbUm h (nr_rlc_entity_um_reconfigure e t_reassembly n))
  | None, RbAm h e => Ok (RbAm h (reconfigure_am e default_am_params (Some 12)))
  | _, _ => Fail FExit
  end.

Section Api.
Context (f1 : f1_ids) (has_f1_cxt : bool).
Implicit Types (s : rlc_t) (ue : nr_rlc_ue_t) (p : rlc_place).

(** *** Callbacks *)

Definition rlc_deliver_sdu s ue (is_srb : bool) (rb_id : Z) (buf : bytes) : res (list rlc_out) :=
  let is_gnb := nr_rlc_manager_get_gnb_flag s in
  if is_gnb then
    let* ue_data := du_get_f1_ue_data f1 (ru_ue_id ue) in
    if nr_rlc_manager_rlc_is_split s then
      if is_srb then Ok [ToF1UlRrc (secondary_ue ue_data) (ru_ue_id ue) rb_id buf]
      else let* _ := assert_ has_f1_cxt in Ok [ToF1U (ru_ue_id ue) rb_id buf]
    else Ok [ToPdcpInd (mk_ctxt 0 0 0 0 is_gnb (secondary_ue ue_data)) is_srb rb_id buf]
  else Ok [ToPdcpInd (mk_ctxt 0 0 0 0 is_gnb (ru_ue_id ue)) is_srb rb_id buf].

(** Two SRBs are searched, although there are three. *)
Definition successful_delivery p : res (list rlc_out) :=
  match p with
  | PSrb0 => Fail FBounds
  | PSrb i => let* _ := assert_ (i <=? 2) in Ok []
  | PDrb _ => Ok []
  end.

Definition rlc_max_retx_reached ue p : res (list rlc_out) :=
  let rlf := if ru_rlf_handler ue then [RadioLinkFailure (ru_ue_id ue)] else [] in
  match p with
  | PSrb0 => Fail FBounds
  | PSrb i => let* _ := assert_ (i <=? 2) in Ok rlf
  | PDrb _ => Ok rlf
  end.

Definition rlc_callback s ue p (ev : event) : res (list rlc_out) :=
  match ev with
  | deliver_sdu buf =>
      match p with
      | PSrb0 => Ok [ToInitialUlRrc (ru_srb0_id ue) buf]
      | PSrb i => rlc_deliver_sdu s ue true i buf
      | PDrb i => rlc_deliver_sdu s ue false i buf
      end
  | sdu_successful_delivery _ => successful_delivery p
  | max_retx_reached => rlc_max_retx_reached ue p
  end.

Fixpoint rlc_callbacks s ue p (evs : list event) : res (list rlc_out) :=
  match evs with
  | [] => Ok []
  | ev :: evs' =>
      let* o1 := rlc_callback s ue p ev in
      let* o2 := rlc_callbacks s ue p evs' in
      Ok (o1 ++ o2)
  end.

(** *** PDUs from MAC *)

Fixpoint data_ind_loop s ue (data : list (Z * bytes)) : res (nr_rlc_ue_t * list rlc_out) :=
  match data with
  | [] => Ok (ue, [])
  | (ch, buf) :: data' =>
      let* r := get_rlc_entity_from_lcid ue ch in
      match r with
      | None => data_ind_loop s ue data'
      | Some (p, rb) =>
          let* (rb, ev1) := rb_set_time (rl_time s) rb in
          let* (rb, ev2) := rb_recv_pdu buf rb in
          let* o1 := rlc_callbacks s ue p (ev1 ++ ev2) in
          let* (ue, o2) := data_ind_loop s (place_set ue p (Some rb)) data' in
          Ok (ue, o1 ++ o2)
      end
  end.

Definition nr_mac_rlc_data_ind s (ue_id : Z) (data : list (Z * bytes)) : res (rlc_t * list rlc_out) :=
  let (s, ue) := nr_rlc_manager_get_ue s (u16 ue_id) in
  let* (ue, outs) := data_ind_loop s ue data in
  Ok (put_rlc s (u16 ue_id) ue, outs).

(** *** PDUs to MAC *)

(** The entity of a channel with its time set and the callbacks of that; [none]
    when there is no entity. *)
Definition on_channel {R} s (ue_id channel_id : Z) (none : R) (f : rlc_rb -> res (rlc_rb * R)) : res (rlc_t * R * list rlc_out) :=
  let (s, ue) := nr_rlc_manager_get_ue s ue_id in
  let* r := get_rlc_entity_from_lcid ue channel_id in
  match r with
  | None => Ok (s, none, [])
  | Some (p, rb) =>
      let* (rb, ev) := rb_set_time (rl_time s) rb in
      let* outs := rlc_callbacks s ue p ev in
      let* (rb, r) := f rb in
      Ok (put_rlc s ue_id (place_set ue p (Some rb)), r, outs)
  end.

(** The loop over a transport block: each PDU after three bytes that are left
    for a header.  Returns the block and the sizes of the PDUs. *)
Fixpoint multi_data_loop (pdu_siz_len : nat) (clock : nat -> Z) (tb_size : Z) (buffer : bytes) (rb : rlc_rb)
    : res (rlc_rb * (bytes * list Z)) :=
  match pdu_siz_len with
  | O => Ok (rb, (buffer, []))
  | S n =>
      if tb_size - 3 <=? 0 then Ok (rb, (buffer, []))
      else
        let* (rb, (pdu, size)) := rb_generate_pdu (clock n) (drop 3 buffer) (tb_size - 3) rb in
        if size =? 0 then Ok (rb, (take 3 buffer ++ pdu, []))
        else
          let* (rb, (rest, sizes)) := multi_data_loop n clock (tb_size - (3 + size)) (drop (Z.to_nat size) pdu) rb in
          Ok (rb, (take 3 buffer ++ take (Z.to_nat size) pdu ++ rest, size :: sizes))
  end.

Definition nr_mac_rlc_multi_data_req s (clock : nat -> Z) (ue_id channel_id tb_size : Z) (buffer : bytes) (pdu_siz_len : nat)
    : res (rlc_t * (bytes * list Z) * list rlc_out) :=
  on_channel s (u16 ue_id) channel_id (buffer, []) (multi_data_loop pdu_siz_len clock tb_size buffer).

(** Returns the buffer and the size of the PDU. *)
Definition nr_mac_rlc_data_req s (clock : Z) (ue_id channel_id tb_size : Z) (buffer : bytes)
    : res (rlc_t * (bytes * Z) * list rlc_out) :=
  on_channel s (u16 ue_id) channel_id (buffer, 0) (rb_generate_pdu clock buffer tb_size).

Definition bytes_in_buffer (b : nr_rlc_entity_buffer_status) : Z := bs_status_size b + bs_retx_size b + bs_tx_size b.

Definition nr_rlc_status_ind s (ue_id channel_id : Z) : res (rlc_t * Z * list rlc_out) :=
  on_channel s ue_id channel_id 0 (fun rb =>
    let* b := rb_buffer_status (1000 * 1000) rb in
    Ok (rb, bytes_in_buffer b)).

(** The length of [ch] is [n_ch]. *)
Fixpoint status_ind_loop s (ue_id : Z) (ch : list Z) : res (rlc_t * list Z * list rlc_out) :=
  match ch with
  | [] => Ok (s, [], [])
  | c :: ch' =>
      let* (s, b, o1) := nr_rlc_status_ind s ue_id c in
      let* (s, bs, o2) := status_ind_loop s ue_id ch' in
      Ok (s, b :: bs, o1 ++ o2)
  end.

Definition nr_mac_rlc_status_ind s (ue_id : Z) (ch : list Z) : res (rlc_t * list Z * list rlc_out) :=
  let (s, _) := nr_rlc_manager_get_ue s (u16 ue_id) in
  status_ind_loop s (u16 ue_id) ch.

(** *** SDUs from the layers above *)

(** [set_time] and [recv_sdu] of the entity at a place. *)
Definition send_sdu s (clock : Z) (ue_id : Z) ue p (rb : rlc_rb) (sdu : bytes) (sdu_id : Z) : res (rlc_t * list rlc_out) :=
  let* (rb, ev) := rb_set_time (rl_time s) rb in
  let* outs := rlc_callbacks s ue p ev in
  let* rb := rb_recv_sdu clock sdu (zlen sdu) sdu_id rb in
  Ok (put_rlc s ue_id (place_set ue p (Some rb)), outs).

(** The bearers that [nr_rlc_data_req] and [nr_rlc_get_statistics] find. *)
Definition data_req_place (srb_flag : bool) (rb_id max_drb : Z) : option rlc_place :=
  if srb_flag then if (1 <=? rb_id) && (rb_id <=? 2) then Some (PSrb rb_id) else None
  else if (1 <=? rb_id) && (rb_id <=? max_drb) then Some (PDrb rb_id) else None.

Definition rb_of_place ue (p : option rlc_place) : res (option (rlc_place * rlc_rb)) :=
  match p with
  | None => Ok None
  | Some p => let* rb := place_get ue p in Ok (match rb with Some rb => Some (p, rb) | None => None end)
  end.

Definition nr_rlc_data_req s (clock : Z) (ctxt : protocol_ctxt_t) (srb_flag : bool) (rb_id mui : Z) (sdu : bytes)
    : res (rlc_t * list rlc_out) :=
  let ue_id := s32 (cx_rntiMaybeUEid ctxt) in
  let (s, ue) := nr_rlc_manager_get_ue s ue_id in
  let* r := rb_of_place ue (data_req_place srb_flag rb_id MAX_DRBS_PER_UE) in
  match r with
  | Some (p, rb) => send_sdu s clock ue_id ue p rb sdu mui
  | None => Ok (s, [])
  end.

Definition nr_rlc_srb_recv_sdu s (clock : Z) (ue_id channel_id : Z) (sdu : bytes) : res (rlc_t * list rlc_out) :=
  let (s, ue) := nr_rlc_manager_get_ue s ue_id in
  let p := if channel_id =? 0 then PSrb0 else PSrb channel_id in
  let* rb := place_get ue p in
  let* rb := of_opt FExit rb in
  send_sdu s clock ue_id ue p rb sdu (-1).

(** *** Queries *)

Definition on_channel_query {R} s (ue_id channel_id : Z) (none : R) (f : rlc_rb -> R) : res (rlc_t * R) :=
  let (s, ue) := nr_rlc_manager_get_ue s ue_id in
  let* r := get_rlc_entity_from_lcid ue channel_id in
  Ok (s, match r with Some (_, rb) => f rb | None => none end).

Definition nr_rlc_get_available_tx_space s (ue_id channel_id : Z) : res (rlc_t * Z) :=
  on_channel_query s ue_id channel_id (-1) (rb_query (fun E _ e => available_tx_space e)).

Definition nr_rlc_tx_list_occupancy s (ue_id channel_id : Z) : res (rlc_t * Z) :=
  on_channel_query s ue_id channel_id 0 (rb_query (fun E _ e => tx_list_occupancy e)).

(** [None]: there is no such bearer. *)
Definition nr_rlc_get_statistics s (clock : Z) (ue_id : Z) (srb_flag : bool) (rb_id : Z) : res (rlc_t * option nr_rlc_statistics) :=
  let (s, ue) := nr_rlc_manager_get_ue s ue_id in
  let* r := rb_of_place ue (data_req_place srb_flag rb_id 5) in
  match r with
  | None => Ok (s, None)
  | Some (p, rb) =>
      let* (rb, out) := rb_get_stats clock rb in
      let* oai_stat := rb_buffer_status (256 * 1000) rb in
      let out := {| out with rxbuf_occ_bytes := u32 (bs_status_size oai_stat);
                             txbuf_occ_bytes := u32 (bs_tx_size oai_stat + bs_retx_size oai_stat) |} in
      Ok (put_rlc s ue_id (place_set ue p (Some rb)), Some out)
  end.

(** *** Control *)

(** Whether a gNB and a UE were initialised in this process, whose clock goes on. *)
Definition nr_rlc_module_init (inited inited_ue : bool) (nr_rlc_current_time : Z) (mode : nr_rlc_op_mode_t) : res (bool * bool * rlc_t) :=
  let gnb_flag := match mode with NR_RLC_OP_MODE_UE => false | _ => true end in
  let* _ := assert_ (negb (gnb_flag && inited)) in
  let* _ := assert_ (negb (negb gnb_flag && inited_ue)) in
  Ok (inited || gnb_flag, inited_ue || negb gnb_flag, {| (new_nr_rlc_ue_manager mode) with rl_time := nr_rlc_current_time |}).

Definition nr_rlc_set_rlf_handler s (ue_id : Z) (handler : bool) : rlc_t :=
  let (s, ue) := nr_rlc_manager_get_ue s ue_id in
  put_rlc s ue_id {| ue with ru_rlf_handler := handler |}.

Definition nr_rlc_reestablish_entity s (ue_id channel_id : Z) : res rlc_t :=
  let (s, ue) := nr_rlc_manager_get_ue s ue_id in
  let* r := get_rlc_entity_from_lcid ue channel_id in
  match r with
  | Some (p, rb) => let* rb := rb_reestablishment rb in Ok (put_rlc s ue_id (place_set ue p (Some rb)))
  | None => Ok s
  end.

(** A missing entity is followed. *)
Definition nr_rlc_reconfigure_entity s (ue_id channel_id : Z) (c : option NR_RLC_Config_t) : res rlc_t :=
  let (s, ue) := nr_rlc_manager_get_ue s ue_id in
  let* r := get_rlc_entity_from_lcid ue channel_id in
  let* (p, rb) := of_opt FBounds r in
  let* rb := reconfigure_rb c rb in
  Ok (put_rlc s ue_id (place_set ue p (Some rb))).

(** [ue->lcid2rb[local_id] = ...] *)
Definition set_lcid ue (channel_id : Z) (rb : nr_lcid_rb_t) : res nr_rlc_ue_t :=
  let* _ := arr_get (ru_lcid2rb ue) (channel_id - 1) in
  Ok {| ue with ru_lcid2rb := <[Z.to_nat (channel_id - 1) := rb]> (ru_lcid2rb ue) |}.

Definition nr_rlc_add_srb s (ue_id srb_id : Z) (c : NR_RLC_BearerConfig_t) : res rlc_t :=
  let* _ := assert_ ((0 <? srb_id) && (srb_id <? 4)) in
  let* (params, sn_field_length) :=
    match rlc_Config c with
    | Some (RLC_Config_am am) =>
        let* params := decode_am_params am in
        let* n := same_sn_length (am_dl_sn_FieldLength am) (am_ul_sn_FieldLength am) in
        let* n := decode_sn_field_length_am n in Ok (params, n)
    | _ => Ok (default_am_params, 12)
    end in
  let (s, ue) := nr_rlc_manager_get_ue s ue_id in
  let* id := match servedRadioBearer c with Some (served_srb id) => Ok id | _ => Fail FExit end in
  let* ue := set_lcid ue (logicalChannelIdentity c) (NR_LCID_SRB id) in
  let* old := place_get ue (PSrb srb_id) in
  let* ue := match old with
             | Some _ => Ok ue
             | None => let* e := new_am params sn_field_length in nr_rlc_ue_add_srb_rlc_entity ue srb_id e
             end in
  Ok (put_rlc s ue_id ue).

(** The part that [add_drb_am] and [add_drb_um] share. *)
Definition add_drb s (ue_id drb_id : Z) (c : NR_RLC_BearerConfig_t) (new : res rlc_rb) : res rlc_t :=
  let (s, ue) := nr_rlc_manager_get_ue s ue_id in
  let* id := match servedRadioBearer c with Some (served_drb id) => Ok id | _ => Fail FExit end in
  let* ue := set_lcid ue (logicalChannelIdentity c) (NR_LCID_DRB id) in
  let* old := place_get ue (PDrb drb_id) in
  let* ue := match old with
             | Some _ => Ok ue
             | None => let* e := new in nr_rlc_ue_add_drb_rlc_entity ue drb_id e
             end in
  Ok (put_rlc s ue_id ue).

Definition add_drb_am s (ue_id drb_id : Z) (am : NR_RLC_Config__am) (c : NR_RLC_BearerConfig_t) : res rlc_t :=
  let* _ := assert_ ((0 <? drb_id) && (drb_id <=? MAX_DRBS_PER_UE)) in
  let* params := decode_am_params am in
  let* n := same_sn_length (am_dl_sn_FieldLength am) (am_ul_sn_FieldLength am) in
  let* n := decode_sn_field_length_am n in
  add_drb s ue_id drb_id c (new_am params n).

Definition add_drb_um s (ue_id drb_id : Z) (um : NR_RLC_Config__um) (c : NR_RLC_BearerConfig_t) : res rlc_t :=
  let* _ := assert_ ((0 <? drb_id) && (drb_id <=? MAX_DRBS_PER_UE)) in
  let* t_reassembly := decode_t_reassembly (um_dl_t_Reassembly um) in
  let* n := same_sn_length (um_dl_sn_FieldLength um) (um_ul_sn_FieldLength um) in
  let* n := decode_sn_field_length_um n in
  add_drb s ue_id drb_id c (let* e := new_nr_rlc_entity_um RLC_RX_MAXSIZE RLC_TX_MAXSIZE t_reassembly n in Ok (RbUm heap_empty e)).

Definition nr_rlc_add_drb s (ue_id drb_id : Z) (c : NR_RLC_BearerConfig_t) : res rlc_t :=
  let* r := of_opt FBounds (rlc_Config c) in
  match r with
  | RLC_Config_am am => add_drb_am s ue_id drb_id am c
  | RLC_Config_um_Bi_Directional um => add_drb_um s ue_id drb_id um c
  | RLC_Config_other => Fail FExit
  end.

Definition nr_rlc_activate_srb0 s (ue_id : Z) : res (rlc_t * bool) :=
  let (s, ue) := nr_rlc_manager_get_ue s ue_id in
  match ru_srb0 ue with
  | Some _ => Ok (s, false)
  | None =>
      let* nr_rlc_tm := new_nr_rlc_entity_tm 10000 in
      let* ue := nr_rlc_ue_add_srb_rlc_entity {| ue with ru_srb0_id := ue_id |} 0 (RbTm heap_empty nr_rlc_tm) in
      Ok (put_rlc s ue_id ue, true)
  end.

Definition nr_rlc_remove_ue s (ue_id : Z) : res rlc_t := nr_rlc_manager_remove_ue s ue_id.

(** Re-establishment of the bearer at a place, where there is one. *)
Definition reestablish_place ue p : res nr_rlc_ue_t :=
  let* rb := place_get ue p in
  match rb with
  | Some rb => let* rb := rb_reestablishment rb in Ok (place_set ue p (Some rb))
  | None => Ok ue
  end.

Definition nr_rlc_update_id s (from_id to_id : Z) : res rlc_t :=
  let (s, ue) := nr_rlc_manager_get_ue s from_id in
  let* ue := reestablish_place {| ue with ru_ue_id := to_id |} (PSrb 1) in
  Ok (put_rlc s from_id ue).

Definition nr_rlc_test_trigger_reestablishment s (ue_id : Z) : res rlc_t :=
  let (s, ue) := nr_rlc_manager_get_ue s ue_id in
  let* ent := place_get ue (PSrb 1) in
  let* _ := of_opt FBounds ent in
  let* ue := reestablish_place ue (PSrb 1) in
  let* ue := reestablish_place ue (PDrb 1) in
  Ok (put_rlc s ue_id ue).

Definition nr_rlc_ms_tick s : rlc_t := {| s with rl_time := u64 (rl_time s + 1) |}.

(** Channels are taken for bearers here: 1 to 3 are SRBs, 4 to 8 DRBs 1 to 5. *)
Definition nr_rlc_activate_avg_time_to_tx s (ue_id channel_id : Z) (is_on : bool) : res rlc_t :=
  let (s, ue) := nr_rlc_manager_get_ue s ue_id in
  let* r := rb_of_place ue
    (if (1 <=? channel_id) && (channel_id <=? 3) then Some (PSrb channel_id)
     else if (4 <=? channel_id) && (channel_id <=? 8) then Some (PDrb (channel_id - 3)) else None) in
  match r with
  | Some (p, rb) => Ok (put_rlc s ue_id (place_set ue p (Some (rb_avg_time is_on rb))))
  | None => Ok s
  end.

End Api.
