(* ===== verification/RlcApiInv.v ===== *)
(** The interface of the RLC layer (RlcApi.v): what every operation of an
    entity, of whatever mode, comes to and keeps; the well-formed table, every
    operation on it, what the callers guarantee, and the places where the
    process does not come back. *)

From S2P Require Import Prelude Asn1Utils RlcPdu RlcSdu TimeStat RlcEntity RlcTm RlcUm RlcUmRx RlcUmTx RlcUmEntity RlcRxManager RlcAm RlcAmStatus.
From S2P Require Import RlcAmTx RlcAmRx RlcAmReport RlcAmStore RlcAmTxInv RlcAmOps RlcAmAck RlcAmEntity Sdap Hashtable F1apIds PdcpApi RlcApi.

(** ** A bearer *)

Definition rb_mode (rb : rlc_rb) : nr_rlc_mode := match rb with RbTm _ _ => NR_RLC_TM | RbUm _ _ => NR_RLC_UM | RbAm _ _ => NR_RLC_AM end.

Definition rb_inv (rb : rlc_rb) : Prop :=
  match rb with RbTm h e => tm_inv h e | RbUm h e => um_inv (h, e) | RbAm h e => am_inv (h, e) end.

Definition rb_sn_length (rb : rlc_rb) : option Z :=
  match rb with RbTm _ _ => None | RbUm _ e => Some (um_sn_field_length e) | RbAm _ e => Some (am_sn_field_length e) end.

Definition is_delivery (ev : event) : Prop := match ev with deliver_sdu _ => True | _ => False end.

(** A TM entity has one kind of event. *)
Definition rb_events_ok (rb : rlc_rb) (ev : list event) : Prop :=
  rb_mode rb = NR_RLC_TM -> Forall (fun e => exists buf, e = deliver_sdu buf) ev.

Definition rb_fine {R} (rb : rlc_rb) (P : R -> Prop) (r : res (rlc_rb * R)) : Prop :=
  exists rb' x, r = Ok (rb', x) /\ rb_inv rb' /\ rb_mode rb' = rb_mode rb /\ P x.

(** The poll retransmission timer runs out while nothing waits for its
    acknowledgement. *)
Definition rb_poll_crash (now : Z) (rb : rlc_rb) : Prop :=
  match rb with RbAm _ e => am_poll_crashes {| e with am_t_current := now |} = true | _ => False end.

(** The last bytes missing arrive while the reception window is full. *)
Definition rb_window_full (buffer : bytes) (rb : rlc_rb) : Prop :=
  match rb with RbAm _ e => am_hangs_on (am_stats (stats_rxpdu (zlen buffer)) e) buffer | _ => False end.

(** The peer does not acknowledge what was not sent. *)
Definition rb_honest (buffer : bytes) (rb : rlc_rb) : bool :=
  match rb with RbAm h e => am_honest_pdu (h, e) buffer | _ => true end.

Lemma step_result {S R O} (m : res (S * R)) (k : S -> R -> O) st out :
  (let* (s, x) := m in Ok (s, k s x)) = Ok (st, out) -> exists x, m = Ok (st, x) /\ out = k st x.
Proof. intros ([s x] & -> & [= <- <-])%rbind_ok. by exists x. Qed.

Lemma rb_set_time_ok now rb : rb_inv rb ->
  rb_fine rb (rb_events_ok rb) (rb_set_time now rb) \/ (rb_poll_crash now rb /\ rb_set_time now rb = Fail FBounds).
Proof.
  unfold rb_set_time, rb_call. destruct rb as [h e|h e|h e]; cbn [rb_inv]; intros Hinv.
  - left. eexists (RbTm h _), _. split_and!; [done|destruct Hinv; by constructor|done|]. intros _. constructor.
  - left. destruct (um_step_ok _ (um_op_set_time now) Hinv I) as ([h' e'] & out & Hs & Hinv').
    apply rbind_ok in Hs as ([[h1 e1] ev] & -> & [= -> -> _]). by eexists _, _.
  - pose proof (am_set_time_ok h e now Hinv) as H. cbn [rb_poll_crash]. destruct (am_poll_crashes _); [right|left].
    + by rewrite H.
    + destruct H as ([h' e'] & ev & -> & Hinv'). by eexists _, _.
Qed.

Lemma rb_recv_pdu_ok buffer rb : rb_inv rb -> rb_honest buffer rb = true ->
  rb_fine rb (rb_events_ok rb) (rb_recv_pdu buffer rb) \/ (rb_window_full buffer rb /\ rb_recv_pdu buffer rb = Fail FFuel).
Proof.
  unfold rb_recv_pdu, rb_call. destruct rb as [h e|h e|h e]; cbn [rb_inv rb_honest]; intros Hinv Hh.
  - left. eexists (RbTm h _), _. split_and!; [done|destruct Hinv; by constructor|done|]. intros _. constructor; [by eexists|constructor].
  - left. destruct (um_step_ok _ (um_op_recv_pdu buffer) Hinv I) as ([h' e'] & out & Hs & Hinv').
    apply rbind_ok in Hs as ([[h1 e1] ev] & -> & [= -> -> _]). by eexists _, _.
  - destruct (am_recv_pdu_ok h e buffer Hinv (am_honest_pdu_ok _ _ _ Hh)) as [([h' e'] & ev & -> & Hinv')|[Hw ->]]; [left|by right].
    by eexists _, _.
Qed.

(** The buffer keeps its length, the PDU is inside of the grant. *)
Definition grant_ok (buffer : bytes) (size : Z) (x : bytes * Z) : Prop :=
  zlen x.1 = zlen buffer /\ (x.2 = 0 \/ 0 < x.2 <= size).

Lemma tm_generate_ok h e now buffer size : tm_inv h e -> size <= zlen buffer ->
  exists h' e' b n, generate_pdu h e now buffer size = Ok (h', e', b, n) /\ tm_inv h' e' /\ grant_ok buffer size (b, n).
Proof.
  intros Hinv Hbuf. change generate_pdu with RlcTm.generate_tx_pdu. unfold grant_ok. simpl.
  destruct (sl_list (tm_tx e)) as [|seg rest] eqn:Hl.
  { unfold RlcTm.generate_tx_pdu. rewrite Hl. eexists h, e, _, _. split_and!; try done. by left. }
  pose proof (tmi_live h e Hinv) as Hlive. rewrite Hl in Hlive. apply Forall_cons in Hlive as [(? & _ & _ & _ & Hsz & _) _].
  destruct (Z.lt_ge_cases size (seg_size seg)) as [Hlt|Hge].
  { unfold RlcTm.generate_tx_pdu. rewrite Hl, (proj2 (Z.ltb_lt _ _)) by done. eexists h, e, _, _. split_and!; try done. by left. }
  destruct (tm_generate_sends h e now buffer size seg rest Hinv Hl) as (h' & e' & b & Hg & Hinv' & _); [lia|].
  exists h', e', b, (seg_size seg). split_and!; [done|done| |right; lia].
  unfold RlcTm.generate_tx_pdu in Hg. rewrite Hl, (proj2 (Z.ltb_ge _ _)) in Hg by done.
  apply rbind_ok in Hg as (s & _ & Hg). apply rbind_ok in Hg as (data & _ & Hg). apply rbind_ok in Hg as (b' & Hw & Hg).
  apply rbind_ok in Hg as ([h2 r] & _ & [= _ _ <-]). apply buf_write_length in Hw. unfold zlen. lia.
Qed.

Lemma um_generate_ok h e now buffer size : um_inv (h, e) -> size <= zlen buffer ->
  exists h' e' b n, generate_pdu h e now buffer size = Ok (h', e', b, n) /\ um_inv (h', e') /\ grant_ok buffer size (b, n).
Proof.
  intros [Hrx Htx] Hbuf. change generate_pdu with RlcUm.generate_tx_pdu. simpl in Hrx, Htx.
  assert (exists h' e' b n, RlcUm.generate_tx_pdu h e now buffer size = Ok (h', e', b, n) /\ um_tx_inv h' e' /\ grant_ok buffer size (b, n))
    as (h' & e' & b & n & Hg & Htx' & Hok).
  2:{ exists h', e', b, n. split_and!; [done| |done]. split; [|done]. eapply um_rx_part_inv; [by eapply generate_tx_pdu_rx|done]. }
  unfold grant_ok. simpl. destruct (sl_list (um_tx e)) as [|seg rest] eqn:Hl.
  { rewrite generate_idle by by rewrite Hl. eexists h, e, _, _. split_and!; try done. by left. }
  pose proof (RlcUmTx.compute_pdu_header_size_range e seg).
  destruct (Z.lt_ge_cases size (RlcUm.compute_pdu_header_size e seg + 1)).
  { rewrite generate_idle by by rewrite Hl. eexists h, e, _, _. split_and!; try done. by left. }
  pose proof (txi_live h e Htx) as Hlive. rewrite Hl in Hlive. apply Forall_cons in Hlive as [(? & _ & _ & _ & Hsz & _) _].
  destruct (Z.lt_ge_cases size (seg_cost e seg)).
  - destruct (Z.lt_ge_cases size (RlcUm.compute_pdu_header_size e (cut_head seg 0) + 1)).
    + destruct (generate_lost h e now buffer size seg rest) as (h' & e' & Hg & Hi & _); try done.
      exists h', e', buffer, 0. split_and!; try done. by left.
    + destruct (generate_split h e now buffer size seg rest) as (h' & e' & b & Hg & Hi & _ & _ & _ & _ & _ & _ & Hlen); try done.
      exists h', e', b, size. split_and!; [done|done|unfold zlen; lia|right; lia].
  - destruct (generate_whole h e now buffer size seg rest) as (h' & e' & b & Hg & Hi & _ & _ & _ & _ & _ & Hlen); [done|done|lia|].
    exists h', e', b, (seg_cost e seg). unfold seg_cost in *. split_and!; [done|done|unfold zlen; lia|right; lia].
Qed.

Lemma rb_generate_ok now buffer size rb : rb_inv rb -> size <= zlen buffer ->
  rb_fine rb (grant_ok buffer size) (rb_generate_pdu now buffer size rb).
Proof.
  unfold rb_generate_pdu, rb_call. destruct rb as [h e|h e|h e]; cbn [rb_inv]; intros Hinv Hbuf.
  - destruct (tm_generate_ok h e now buffer size Hinv Hbuf) as (h' & e' & b & n & -> & Hi & Hg). by eexists _, _.
  - destruct (um_generate_ok h e now buffer size Hinv Hbuf) as (h' & e' & b & n & -> & Hi & Hg). by eexists _, _.
  - destruct (am_generate_pdu_ok h e now buffer size Hinv Hbuf) as (h' & e' & b & n & -> & Hi & Hl & Hcase).
    eexists _, _. split; [done|]. split; [done|]. split; [done|]. split; [done|]. simpl.
    destruct (status_to_report e && (3 <=? size)); [right; lia|]. destruct (agn_size _ _ _ _ _ _ _ _ Hcase); [by left|right; lia].
Qed.

Lemma rb_recv_sdu_ok now buffer id rb : rb_inv rb -> 0 < zlen buffer ->
  if NR_SDU_MAX <? zlen buffer then rb_recv_sdu now buffer (zlen buffer) id rb = Fail FExit
  else exists rb', rb_recv_sdu now buffer (zlen buffer) id rb = Ok rb' /\ rb_inv rb' /\ rb_mode rb' = rb_mode rb.
Proof.
  unfold rb_recv_sdu, rb_call. destruct rb as [h e|h e|h e]; cbn [rb_inv]; intros Hinv Hpos; destruct (NR_SDU_MAX <? zlen buffer) eqn:Hmax.
  - change recv_sdu with nr_rlc_entity_tm_recv_sdu. unfold nr_rlc_entity_tm_recv_sdu. by rewrite Hmax.
  - destruct (tm_step_refines h e (tm_op_recv_sdu now buffer (zlen buffer) id) Hinv) as (h' & e' & Hs & Hinv' & _); [simpl; lia|].
    apply rbind_ok in Hs as ([h1 e1] & -> & [= -> -> _]). by eexists.
  - change recv_sdu with nr_rlc_entity_um_recv_sdu. unfold nr_rlc_entity_um_recv_sdu. by rewrite Hmax.
  - destruct (um_step_ok _ (um_op_recv_sdu now buffer (zlen buffer) id) Hinv) as ([h' e'] & out & Hs & Hinv'); [simpl; lia|].
    apply rbind_ok in Hs as ([h1 e1] & -> & [= -> -> _]). by eexists.
  - pose proof (am_recv_sdu_ok h e now buffer (zlen buffer) id (proj1 Hinv) ltac:(lia)) as H. rewrite Hmax in H.
    change recv_sdu with nr_rlc_entity_am_recv_sdu. by rewrite H.
  - pose proof (am_recv_sdu_ok h e now buffer (zlen buffer) id (proj1 Hinv) ltac:(lia)) as H. rewrite Hmax in H.
    destruct H as (h' & e' & H & Htx & Hp). change recv_sdu with nr_rlc_entity_am_recv_sdu. rewrite H. eexists. split; [done|]. split; [|done].
    split; [done|]. apply (am_rx_inv_part e); [done|apply Hinv].
Qed.

Lemma rb_reestablishment_ok rb : rb_inv rb -> exists rb', rb_reestablishment rb = Ok rb' /\ rb_inv rb' /\ rb_mode rb' = rb_mode rb.
Proof.
  unfold rb_reestablishment, rb_call. destruct rb as [h e|h e|h e]; cbn [rb_inv]; intros Hinv.
  - destruct (tm_step_refines h e tm_op_reestablish Hinv I) as (h' & e' & Hs & Hinv' & _).
    apply rbind_ok in Hs as ([h1 e1] & -> & [= -> ->]). by eexists.
  - destruct (um_step_ok _ um_op_reestablish Hinv I) as ([h' e'] & out & Hs & Hinv').
    apply rbind_ok in Hs as ([h1 e1] & -> & [= -> -> _]). by eexists.
  - destruct (am_step_ok (h, e) am_op_reestablish Hinv I eq_refl) as [([h' e'] & out & Hs & Hinv')|(f & _ & Hst)]; [|inversion Hst].
    apply rbind_ok in Hs as ([h1 e1] & -> & [= -> -> _]). by eexists.
Qed.

Lemma rb_delete_ok rb : rb_inv rb -> rb_delete rb = Ok tt.
Proof.
  intros Hinv. destruct (rb_reestablishment_ok rb Hinv) as (rb' & Hr & _). unfold rb_reestablishment, rb_call in Hr.
  apply rbind_ok in Hr as ([x []] & Hr & _). unfold rb_delete. destruct rb as [h e|h e|h e];
    apply rbind_ok in Hr as ([[h1 e1] []] & Hr & _); apply rbind_ok in Hr as ([h2 e2] & Hr & _).
  - change (reestablishment h e) with (RlcTm.clear_entity h e) in Hr. unfold nr_rlc_entity_tm_delete. by rewrite Hr.
  - change (reestablishment h e) with (RlcUm.clear_entity h e) in Hr. unfold nr_rlc_entity_um_delete. by rewrite Hr.
  - change (reestablishment h e) with (RlcAmTx.clear_entity h e) in Hr. unfold nr_rlc_entity_am_delete. by rewrite Hr.
Qed.

Lemma rb_buffer_status_ok maxsize rb : rb_inv rb -> exists b, rb_buffer_status maxsize rb = Ok b.
Proof.
  destruct rb as [h e|h e|h e]; cbn [rb_inv]; intros Hinv; [by eexists..|].
  destruct (am_step_ok (h, e) (am_op_buffer_status maxsize) Hinv I eq_refl) as [([h' e'] & out & Hs & _)|(f & _ & Hst)]; [|inversion Hst].
  apply rbind_ok in Hs as (b & Hs & _). by exists b.
Qed.

Lemma entity_get_stats_ok h c sdu now : (forall seg, sdu = Some seg -> exists s, heap_get h (seg_sdu seg) = Ok s) ->
  exists c' out, nr_rlc_entity_get_stats h c sdu now = Ok (c', out) /\ bstatus c' = bstatus c.
Proof.
  intros Hs. unfold nr_rlc_entity_get_stats.
  assert (exists w, (match sdu with
    | Some seg => let* s := heap_get h (seg_sdu seg) in Ok (u32 (u64 (now - sdu_time_of_arrival s)))
    | None => Ok 0 end) = Ok w) as (w & ->).
  { destruct sdu as [seg|]; [|by eexists]. destruct (Hs seg eq_refl) as (s & ->). by eexists. }
  cbn [rbind]. case_bool_; [|by eexists _, _]. destruct (time_average_get_average _ _) as [avg v]. by eexists _, _.
Qed.

Lemma rb_get_stats_ok now rb : rb_inv rb -> rb_fine rb (fun _ => True) (rb_get_stats now rb).
Proof.
  unfold rb_get_stats. destruct rb as [h e|h e|h e]; cbn [rb_inv]; intros Hinv.
  - destruct (entity_get_stats_ok h (tm_common e) (head (sl_list (tm_tx e))) now) as (c & out & -> & Hb).
    { intros seg Hh. pose proof (tmi_live h e Hinv) as Hl. destruct (sl_list (tm_tx e)); [done|]. injection Hh as ->.
      apply Forall_cons in Hl as [(s & Hs & _) _]. exists s. by apply heap_get_lookup. }
    cbn [rbind]. eexists _, _. split; [done|]. split; [|done]. destruct Hinv as [? ? ? ? ? Hbs]. constructor; try done. simpl. by rewrite Hb.
  - destruct (um_step_ok _ (um_op_get_stats now) Hinv I) as ([h' e'] & out & Hs & Hinv').
    apply rbind_ok in Hs as ([e1 o] & -> & [= <- -> _]). by eexists _, _.
  - destruct (am_get_stats_ok h e now Hinv) as (e' & out & -> & Hinv' & _). by eexists _, _.
Qed.

Lemma rb_avg_time_ok b rb : rb_inv rb -> rb_inv (rb_avg_time b rb) /\ rb_mode (rb_avg_time b rb) = rb_mode rb.
Proof.
  destruct rb as [h e|h e|h e]; cbn [rb_inv rb_avg_time]; intros Hinv; (split; [|done]).
  - destruct Hinv. by constructor.
  - destruct Hinv as [Hr Ht]. split; [by apply (um_rx_part_inv e)|by apply (um_tx_part_inv h e)].
  - destruct Hinv as [Ht Hr]. split; [by apply (am_tx_inv_core h e)|by apply (am_rx_inv_part e)].
Qed.

(** The SN length that a reconfiguration brings, if it brings one. *)
Definition config_sn_length (c : option NR_RLC_Config_t) : option Z :=
  match c with
  | None => Some 12
  | Some (RLC_Config_am am) => match am_dl_sn_FieldLength am with Some d => VALUES_NR_RLC_SN_FIELD_LENGTH_AM !! Z.to_nat d | None => None end
  | Some (RLC_Config_um_Bi_Directional um) => match um_dl_sn_FieldLength um with Some d => VALUES_NR_RLC_SN_FIELD_LENGTH_UM !! Z.to_nat d | None => None end
  | Some RLC_Config_other => None
  end.

Definition keeps_sn_length (c : option NR_RLC_Config_t) (rb : rlc_rb) : Prop :=
  forall n, config_sn_length c = Some n -> rb_sn_length rb = Some n.

Lemma new_sn_length_ok tab decode dl ul r : decode = decode_value tab -> new_sn_length decode dl ul = Ok r ->
  r = match dl with Some d => tab !! Z.to_nat d | None => None end.
Proof.
  intros ->. unfold new_sn_length. destruct dl as [d|].
  - intros (u & _ & H)%rbind_ok. apply rbind_ok in H as ([] & _ & H). apply rbind_ok in H as (n & Hd%decode_value_lookup & [= <-]).
    by destruct Hd as [_ ->].
  - by intros ([] & _ & [= <-])%rbind_ok.
Qed.

Lemma reconfigure_um_inv h e t n : um_inv (h, e) -> (forall m, n = Some m -> um_sn_field_length e = m) ->
  um_inv (h, nr_rlc_entity_um_reconfigure e t n).
Proof.
  intros [Hr Ht] Hn. unfold nr_rlc_entity_um_reconfigure. destruct n as [m|].
  - specialize (Hn m eq_refl). split; [apply (um_rx_part_inv e)|apply (um_tx_part_inv h e)]; try done; unfold um_rx_part, um_tx_part; simpl; by rewrite <- Hn.
  - split; [by apply (um_rx_part_inv e)|by apply (um_tx_part_inv h e)].
Qed.

Lemma reconfigure_am_inv h e p n : am_inv (h, e) -> (forall m, n = Some m -> am_sn_field_length e = m) -> am_inv (h, reconfigure_am e p n).
Proof.
  intros [Ht Hr] Hn. unfold reconfigure_am, nr_rlc_entity_am_reconfigure. destruct n as [m|].
  - specialize (Hn m eq_refl). split; [apply (am_tx_inv_core h e)|apply (am_rx_inv_part e)]; try done; unfold am_core, am_rx_part; simpl; by rewrite <- Hn.
  - split; [by apply (am_tx_inv_core h e)|by apply (am_rx_inv_part e)].
Qed.

Lemma reconfigure_rb_inv c rb rb' : rb_inv rb -> keeps_sn_length c rb -> reconfigure_rb c rb = Ok rb' -> rb_inv rb' /\ rb_mode rb' = rb_mode rb.
Proof.
  unfold reconfigure_rb, keeps_sn_length. destruct c as [[am|um|]|], rb as [h e|h e|h e]; cbn [rb_inv rb_sn_length config_sn_length]; try done; intros Hinv Hk.
  - intros (p & _ & H)%rbind_ok. apply rbind_ok in H as (n & Hn & [= <-]). split; [|done]. apply reconfigure_am_inv; [done|].
    apply (new_sn_length_ok VALUES_NR_RLC_SN_FIELD_LENGTH_AM) in Hn; [|done]. rewrite <- Hn in Hk. intros m Hm. by injection (Hk m Hm).
  - intros (t & _ & H)%rbind_ok. apply rbind_ok in H as (n & Hn & [= <-]). split; [|done]. apply reconfigure_um_inv; [done|].
    apply (new_sn_length_ok VALUES_NR_RLC_SN_FIELD_LENGTH_UM) in Hn; [|done]. rewrite <- Hn in Hk. intros m Hm. by injection (Hk m Hm).
  - intros H. assert (rb' = RbAm h (reconfigure_am e default_am_params (Some 12))) as -> by congruence.
    split; [|done]. apply reconfigure_am_inv; [done|]. intros m Hm. by injection (Hk m Hm).
Qed.

(** New bearers. *)
Lemma new_am_ok p n rb : new_am p n = Ok rb -> rb_inv rb /\ rb_mode rb = NR_RLC_AM.
Proof. intros (e & He & [= <-])%rbind_ok. split; [|done]. by apply am_inv_new in He. Qed.

Lemma new_um_ok t n rb : (let* e := new_nr_rlc_entity_um RLC_RX_MAXSIZE RLC_TX_MAXSIZE t n in Ok (RbUm heap_empty e)) = Ok rb ->
  rb_inv rb /\ rb_mode rb = NR_RLC_UM.
Proof. intros (e & He & [= <-])%rbind_ok. split; [|done]. split; [by eapply um_rx_inv_new|by eapply um_tx_inv_new]. Qed.

Lemma new_tm_ok m e : new_nr_rlc_entity_tm m = Ok e -> rb_inv (RbTm heap_empty e).
Proof. intros He. by eapply tm_inv_new. Qed.

(** ** The well-formed table *)

Definition place_ok (p : rlc_place) : Prop :=
  match p with PSrb0 => True | PSrb i => 1 <= i <= 3 | PDrb i => 1 <= i <= MAX_DRBS_PER_UE end.

(** What a place holds: TM for SRB 0, AM for the other SRBs, UM or AM for DRBs. *)
Definition place_fits (p : rlc_place) (rb : rlc_rb) : Prop :=
  rb_inv rb /\ match p with PSrb0 => rb_mode rb = NR_RLC_TM | PSrb _ => rb_mode rb = NR_RLC_AM | PDrb _ => rb_mode rb <> NR_RLC_TM end.

Definition slot_fits (p : rlc_place) (o : option rlc_rb) : Prop := forall rb, o = Some rb -> place_fits p rb.

Definition lcid_ok (x : nr_lcid_rb_t) : Prop :=
  match x with NR_LCID_NONE => True | NR_LCID_SRB i => place_ok (PSrb i) | NR_LCID_DRB i => place_ok (PDrb i) end.

Record rlc_ue_wf (ue : nr_rlc_ue_t) : Prop := {
  rw_srb0 : slot_fits PSrb0 (ru_srb0 ue);
  rw_srb_len : length (ru_srb ue) = 3%nat;
  rw_srb : Forall (slot_fits (PSrb 1)) (ru_srb ue);
  rw_drb_len : length (ru_drb ue) = 32%nat;
  rw_drb : Forall (slot_fits (PDrb 1)) (ru_drb ue);
  rw_lcid_len : length (ru_lcid2rb ue) = 32%nat;
  rw_lcid : Forall lcid_ok (ru_lcid2rb ue)
}.

Definition rlc_wf (s : rlc_t) : Prop := Forall rlc_ue_wf (rl_ues s).

Section Wf.
Implicit Types (s : rlc_t) (ue : nr_rlc_ue_t) (p : rlc_place).

Lemma arr_get_ok {A} (l : list A) i : 0 <= i < zlen l -> exists x, arr_get l i = Ok x /\ x ∈ l.
Proof.
  intros Hi. unfold arr_get. rewrite (proj2 (Z.ltb_ge _ _)) by lia. unfold zlen in Hi.
  destruct (lookup_lt_is_Some_2 l (Z.to_nat i)) as [x Hx]; [lia|]. rewrite Hx. exists x. split; [done|]. by eapply list_elem_of_lookup_2.
Qed.

Lemma slot_fits_srb i j o : slot_fits (PSrb i) o -> slot_fits (PSrb j) o.
Proof. done. Qed.

Lemma slot_fits_drb i j o : slot_fits (PDrb i) o -> slot_fits (PDrb j) o.
Proof. done. Qed.

Lemma place_get_ok ue p : rlc_ue_wf ue -> place_ok p -> exists o, place_get ue p = Ok o /\ slot_fits p o.
Proof.
  intros [H0 Hsl Hs Hdl Hd _ _]. unfold MAX_DRBS_PER_UE in *. destruct p as [|i|i]; cbn [place_ok place_get]; intros Hp; [by eexists|..].
  - destruct (arr_get_ok (ru_srb ue) (i - 1)) as (o & -> & Ho); [unfold zlen; rewrite Hsl; lia|]. exists o. split; [done|].
    rewrite Forall_forall in Hs. by apply (slot_fits_srb 1), Hs.
  - destruct (arr_get_ok (ru_drb ue) (i - 1)) as (o & -> & Ho); [unfold zlen, MAX_DRBS_PER_UE in *; rewrite Hdl; lia|]. exists o. split; [done|].
    rewrite Forall_forall in Hd. by apply (slot_fits_drb 1), Hd.
Qed.

Lemma place_set_wf ue p o : rlc_ue_wf ue -> slot_fits p o -> rlc_ue_wf (place_set ue p o).
Proof.
  intros [H0 Hsl Hs Hdl Hd Hll Hl] Ho. destruct p as [|i|i]; simpl; constructor; simpl; rewrite ?length_insert; try done.
  - apply Forall_insert; [done|]. exact Ho.
  - apply Forall_insert; [done|]. exact Ho.
Qed.

Lemma place_set_id ue p o : ru_ue_id (place_set ue p o) = ru_ue_id ue.
Proof. by destruct p. Qed.

(** What a search of a bearer gives. *)
Definition found_ok (r : res (option (rlc_place * rlc_rb))) : Prop :=
  exists o, r = Ok o /\ forall p rb, o = Some (p, rb) -> place_ok p /\ place_fits p rb.

Lemma lcid_place_ok ue ch : rlc_ue_wf ue -> 1 <= ch <= 32 -> exists o, lcid_place ue ch = Ok o /\ forall p, o = Some p -> place_ok p.
Proof.
  intros [_ _ _ _ _ Hll Hl] Hch. unfold lcid_place. destruct (arr_get_ok (ru_lcid2rb ue) (ch - 1)) as (x & -> & Hx); [unfold zlen; rewrite Hll; lia|].
  cbn [rbind]. rewrite Forall_forall in Hl. specialize (Hl x Hx). destruct x as [|i|i]; simpl in Hl; [by eexists| |].
  - unfold assert_. rewrite (proj2 (Z.ltb_lt _ _)) by lia. simpl. eexists. split; [done|]. by intros p [= <-].
  - eexists. split; [done|]. by intros p [= <-].
Qed.

Lemma place_found ue p : rlc_ue_wf ue -> place_ok p ->
  found_ok (let* rb := place_get ue p in Ok (match rb with Some rb => Some (p, rb) | None => None end)).
Proof.
  intros Hwf Hp. destruct (place_get_ok ue p Hwf Hp) as (o & -> & Ho). cbn [rbind]. eexists. split; [done|].
  destruct o as [rb|]; [|done]. intros p' rb' [= <- <-]. split; [done|]. by apply Ho.
Qed.

Lemma channel_found ue ch : rlc_ue_wf ue -> 0 <= ch <= 32 -> found_ok (get_rlc_entity_from_lcid ue ch).
Proof.
  intros Hwf Hch. unfold get_rlc_entity_from_lcid. destruct (Z.eqb_spec ch 0) as [->|Hne]; cbn [rbind].
  - by apply (place_found ue PSrb0).
  - destruct (lcid_place_ok ue ch Hwf) as ([p|] & -> & Hp); [lia|..]; cbn [rbind]; [|by eexists].
    apply place_found; [done|]. by apply Hp.
Qed.

Lemma rb_of_place_found ue o : rlc_ue_wf ue -> (forall p, o = Some p -> place_ok p) -> found_ok (rb_of_place ue o).
Proof. intros Hwf Hp. destruct o as [p|]; simpl; [|by eexists]. apply place_found; [done|]. by apply Hp. Qed.

Lemma data_req_place_ok b k m p : m <= MAX_DRBS_PER_UE -> data_req_place b k m = Some p -> place_ok p.
Proof. unfold data_req_place. intros Hm. destruct b; case_bool_; try done; intros [= <-]; simpl; bool_hyps; lia. Qed.

(** *** UEs *)

Lemma new_rlc_ue_wf id : rlc_ue_wf (new_rlc_ue id).
Proof. constructor; try done; unfold new_rlc_ue; cbn [ru_srb ru_drb ru_lcid2rb]; by apply Forall_replicate. Qed.

Lemma find_rlc_some ues id ue : find_rlc_ue ues id = Some ue -> ue ∈ ues /\ ru_ue_id ue = id.
Proof.
  induction ues as [|x ues IH]; simpl; [done|]. destruct (Z.eqb_spec (ru_ue_id x) id); [intros [= <-]; split; [by left|done]|].
  intros [? ?]%IH. split; [by right|done].
Qed.

Lemma get_rlc_ue_wf s id : rlc_wf s -> rlc_wf (nr_rlc_manager_get_ue s id).1 /\ rlc_ue_wf (nr_rlc_manager_get_ue s id).2.
Proof.
  intros Hwf. unfold nr_rlc_manager_get_ue. destruct (find_rlc_ue (rl_ues s) id) as [ue|] eqn:Hf; simpl.
  - split; [done|]. apply find_rlc_some in Hf as [Hin _]. unfold rlc_wf in Hwf. rewrite Forall_forall in Hwf. by apply Hwf.
  - split; [|apply new_rlc_ue_wf]. unfold rlc_wf. simpl. apply Forall_app. split; [done|]. constructor; [apply new_rlc_ue_wf|constructor].
Qed.

Lemma put_rlc_wf s id ue : rlc_wf s -> rlc_ue_wf ue -> rlc_wf (put_rlc s id ue).
Proof.
  unfold rlc_wf, put_rlc. simpl. intros Hwf Hue. induction Hwf as [|x ues Hx Hwf IH]; simpl; [constructor|]. by case_bool_; constructor.
Qed.

Lemma get_rlc_ue_time s id : rl_time (nr_rlc_manager_get_ue s id).1 = rl_time s.
Proof. unfold nr_rlc_manager_get_ue. by destruct (find_rlc_ue _ _). Qed.

End Wf.

(** ** Operations *)

(** The entry points, each with the value of the clock where it reads it.  The
    PDUs of one call of [nr_mac_rlc_data_ind] come one by one (see
    [data_ind_one_by_one]), and so do the channels of a status indication. *)
Inductive rlc_op :=
| rop_data_ind (ue_id ch : Z) (buf : bytes)
| rop_multi_data_req (clock : nat -> Z) (ue_id ch tb_size : Z) (buffer : bytes) (n : nat)
| rop_mac_data_req (clock ue_id ch tb_size : Z) (buffer : bytes)
| rop_status_ind (ue_id ch : Z)
| rop_data_req (clock : Z) (ctxt : protocol_ctxt_t) (srb_flag : bool) (rb_id mui : Z) (sdu : bytes)
| rop_srb_recv_sdu (clock ue_id ch : Z) (sdu : bytes)
| rop_tx_space (ue_id ch : Z)
| rop_occupancy (ue_id ch : Z)
| rop_lcid (ue_id : Z) (is_srb : bool) (rb_id : Z)
| rop_statistics (clock ue_id : Z) (srb_flag : bool) (rb_id : Z)
| rop_avg_time (ue_id ch : Z) (is_on : bool)
| rop_rlf_handler (ue_id : Z) (handler : bool)
| rop_reestablish (ue_id ch : Z)
| rop_reconfigure (ue_id ch : Z) (c : option NR_RLC_Config_t)
| rop_release (ue_id ch : Z)
| rop_add_srb (ue_id srb_id : Z) (c : NR_RLC_BearerConfig_t)
| rop_add_drb (ue_id drb_id : Z) (c : NR_RLC_BearerConfig_t)
| rop_activate_srb0 (ue_id : Z)
| rop_update_id (from_id to_id : Z)
| rop_remove_ue (ue_id : Z)
| rop_test_trigger (ue_id : Z)
| rop_ms_tick.

Definition no_out {R} (r : res (rlc_t * R)) : res (rlc_t * list rlc_out) := let* (s, _) := r in Ok (s, []).

Definition outs {R} (r : res (rlc_t * R * list rlc_out)) : res (rlc_t * list rlc_out) := let* (s, _, o) := r in Ok (s, o).

Definition quiet_op (r : res rlc_t) : res (rlc_t * list rlc_out) := let* s := r in Ok (s, []).

Section Steps.
Context (f1 : f1_ids) (has_f1_cxt : bool).
Implicit Types (s : rlc_t) (ue : nr_rlc_ue_t) (p : rlc_place) (rb : rlc_rb).

Definition rlc_step s (op : rlc_op) : res (rlc_t * list rlc_out) :=
  match op with
  | rop_data_ind ue_id ch buf => nr_mac_rlc_data_ind f1 has_f1_cxt s ue_id [(ch, buf)]
  | rop_multi_data_req clock ue_id ch tb_size buffer n => outs (nr_mac_rlc_multi_data_req f1 has_f1_cxt s clock ue_id ch tb_size buffer n)
  | rop_mac_data_req clock ue_id ch tb_size buffer => outs (nr_mac_rlc_data_req f1 has_f1_cxt s clock ue_id ch tb_size buffer)
  | rop_status_ind ue_id ch => outs (nr_mac_rlc_status_ind f1 has_f1_cxt s ue_id [ch])
  | rop_data_req clock ctxt srb_flag rb_id mui sdu => nr_rlc_data_req f1 has_f1_cxt s clock ctxt srb_flag rb_id mui sdu
  | rop_srb_recv_sdu clock ue_id ch sdu => nr_rlc_srb_recv_sdu f1 has_f1_cxt s clock ue_id ch sdu
  | rop_tx_space ue_id ch => no_out (nr_rlc_get_available_tx_space s ue_id ch)
  | rop_occupancy ue_id ch => no_out (nr_rlc_tx_list_occupancy s ue_id ch)
  | rop_lcid ue_id is_srb rb_id => Ok ((nr_rlc_get_lcid_from_rb s ue_id is_srb rb_id).1, [])
  | rop_statistics clock ue_id srb_flag rb_id => no_out (nr_rlc_get_statistics s clock ue_id srb_flag rb_id)
  | rop_avg_time ue_id ch is_on => quiet_op (nr_rlc_activate_avg_time_to_tx s ue_id ch is_on)
  | rop_rlf_handler ue_id handler => Ok (nr_rlc_set_rlf_handler s ue_id handler, [])
  | rop_reestablish ue_id ch => quiet_op (nr_rlc_reestablish_entity s ue_id ch)
  | rop_reconfigure ue_id ch c => quiet_op (nr_rlc_reconfigure_entity s ue_id ch c)
  | rop_release ue_id ch => quiet_op (nr_rlc_release_entity s ue_id ch)
  | rop_add_srb ue_id srb_id c => quiet_op (nr_rlc_add_srb s ue_id srb_id c)
  | rop_add_drb ue_id drb_id c => quiet_op (nr_rlc_add_drb s ue_id drb_id c)
  | rop_activate_srb0 ue_id => no_out (nr_rlc_activate_srb0 s ue_id)
  | rop_update_id from_id to_id => quiet_op (nr_rlc_update_id s from_id to_id)
  | rop_remove_ue ue_id => quiet_op (nr_rlc_remove_ue s ue_id)
  | rop_test_trigger ue_id => quiet_op (nr_rlc_test_trigger_reestablishment s ue_id)
  | rop_ms_tick => Ok (nr_rlc_ms_tick s, [])
  end.

Fixpoint rlc_run s (ops : list rlc_op) : res (rlc_t * list rlc_out) :=
  match ops with
  | [] => Ok (s, [])
  | op :: ops' =>
      let* (s1, o1) := rlc_step s op in
      let* (s2, o2) := rlc_run s1 ops' in
      Ok (s2, o1 ++ o2)
  end.

(** *** What the callers guarantee *)

Definition ue_of s (ue_id : Z) : nr_rlc_ue_t := (nr_rlc_manager_get_ue s ue_id).2.

(** The bearer that an operation is for, with its UE. *)
Definition op_bearer s (op : rlc_op) : res (nr_rlc_ue_t * option (rlc_place * rlc_rb)) :=
  let on_channel ue_id ch := let* o := get_rlc_entity_from_lcid (ue_of s ue_id) ch in Ok (ue_of s ue_id, o) in
  match op with
  | rop_data_ind ue_id ch _ | rop_multi_data_req _ ue_id ch _ _ _ | rop_mac_data_req _ ue_id ch _ _ | rop_status_ind ue_id ch =>
      on_channel (u16 ue_id) ch
  | rop_data_req _ ctxt srb_flag rb_id _ _ =>
      let ue := ue_of s (s32 (cx_rntiMaybeUEid ctxt)) in
      let* o := rb_of_place ue (data_req_place srb_flag rb_id MAX_DRBS_PER_UE) in Ok (ue, o)
  | rop_srb_recv_sdu _ ue_id ch _ =>
      let* o := rb_of_place (ue_of s ue_id) (Some (if ch =? 0 then PSrb0 else PSrb ch)) in Ok (ue_of s ue_id, o)
  | rop_reconfigure ue_id ch _ => on_channel ue_id ch
  | rop_test_trigger ue_id => let* o := rb_of_place (ue_of s ue_id) (Some (PSrb 1)) in Ok (ue_of s ue_id, o)
  | _ => Ok (ue_of s 0, None)
  end.

(** A configuration inside of the ranges of TS 38.331, with the SN lengths. *)
Definition bearer_config_ok (c : NR_RLC_BearerConfig_t) : Prop :=
  1 <= logicalChannelIdentity c <= 32 /\
  match servedRadioBearer c with
  | Some (served_srb i) => place_ok (PSrb i)
  | Some (served_drb i) => place_ok (PDrb i)
  | None => True
  end /\
  match rlc_Config c with
  | Some (RLC_Config_am am) => is_Some (am_dl_sn_FieldLength am) /\ is_Some (am_ul_sn_FieldLength am)
  | Some (RLC_Config_um_Bi_Directional um) => is_Some (um_dl_sn_FieldLength um) /\ is_Some (um_ul_sn_FieldLength um)
  | _ => True
  end.

Definition channel_ok (ch : Z) : Prop := 0 <= ch <= 32.

(** Channels in range, buffers of the size that is announced, honest peers, and
    reconfigurations that keep the SN length. *)
Definition rlc_op_ok s (op : rlc_op) : Prop :=
  match op with
  | rop_data_ind ue_id ch buf => channel_ok ch /\ forall ue p rb rb1 ev, op_bearer s op = Ok (ue, Some (p, rb)) ->
      rb_set_time (rl_time s) rb = Ok (rb1, ev) -> rb_honest buf rb1 = true
  | rop_multi_data_req _ _ ch tb_size buffer _ | rop_mac_data_req _ _ ch tb_size buffer => channel_ok ch /\ tb_size <= zlen buffer
  | rop_status_ind _ ch | rop_tx_space _ ch | rop_occupancy _ ch | rop_reestablish _ ch | rop_release _ ch => channel_ok ch
  | rop_data_req _ _ _ _ _ sdu => 0 < zlen sdu
  | rop_srb_recv_sdu _ _ ch sdu => 0 <= ch <= 3 /\ 0 < zlen sdu
  | rop_reconfigure _ ch c => channel_ok ch /\ forall ue p rb, op_bearer s op = Ok (ue, Some (p, rb)) -> keeps_sn_length c rb
  | rop_add_srb _ _ c => bearer_config_ok c
  | rop_add_drb _ _ c => bearer_config_ok c /\ is_Some (rlc_Config c)
  | _ => True
  end.

Fixpoint rlc_run_ok s (ops : list rlc_op) : Prop :=
  match ops with
  | [] => True
  | op :: ops' => rlc_op_ok s op /\ match rlc_step s op with Ok (s', _) => rlc_run_ok s' ops' | Fail _ => True end
  end.

(** *** Where the process does not come back *)

(** A callback of an event of the bearer: no SRB 3 is found for an
    acknowledgement or a failure; the UE of a delivered SDU has no data of F1,
    or there is no context of F1-U for an SDU of a DRB. *)
Inductive callback_stop s ue p (evs : list event) : failure -> Prop :=
| cb_srb3 ev : p = PSrb 3 -> ev ∈ evs -> ~ is_delivery ev -> callback_stop s ue p evs FExit
| cb_no_f1_data buf f : p <> PSrb0 -> deliver_sdu buf ∈ evs -> nr_rlc_manager_get_gnb_flag s = true ->
    du_get_f1_ue_data f1 (ru_ue_id ue) = Fail f -> callback_stop s ue p evs f
| cb_no_f1_context i buf : p = PDrb i -> deliver_sdu buf ∈ evs -> nr_rlc_manager_rlc_is_split s = true -> has_f1_cxt = false ->
    callback_stop s ue p evs FExit.

Definition sdu_of (op : rlc_op) : bytes := match op with rop_data_req _ _ _ _ _ sdu | rop_srb_recv_sdu _ _ _ sdu => sdu | _ => [] end.

(** The operations that set the time of the bearer. *)
Definition is_timed (op : rlc_op) : bool :=
  match op with
  | rop_data_ind _ _ _ | rop_multi_data_req _ _ _ _ _ _ | rop_mac_data_req _ _ _ _ _ | rop_status_ind _ _
  | rop_data_req _ _ _ _ _ _ | rop_srb_recv_sdu _ _ _ _ => true
  | _ => false
  end.

(** What the entity does with the PDU of the operation. *)
Definition op_recv (op : rlc_op) (rb : rlc_rb) : res (rlc_rb * list event) :=
  match op with rop_data_ind _ _ buf => rb_recv_pdu buf rb | _ => Ok (rb, []) end.

(** The events of the bearer, in order. *)
Definition op_events s (op : rlc_op) (rb : rlc_rb) : res (list event) :=
  let* (rb1, ev1) := rb_set_time (rl_time s) rb in
  let* (_, ev2) := op_recv op rb1 in Ok (ev1 ++ ev2).

(** A configuration that passes the assertions: the bearer exists in the
    standard, the values are of the tables, both SN lengths are the same. *)
Definition listed (tab : list Z) (v : Z) : bool := (0 <=? v) && (v <? zlen tab).

Definition am_listed (am : NR_RLC_Config__am) : bool :=
  listed VALUES_NR_RLC_T_REASSEMBLY (am_dl_t_Reassembly am) && listed VALUES_NR_RLC_T_STATUS_PROHIBIT (am_dl_t_StatusProhibit am) &&
  listed VALUES_NR_RLC_T_POLL_RETRANSMIT (am_ul_t_PollRetransmit am) && listed VALUES_NR_RLC_POLL_PDU (am_ul_pollPDU am) &&
  listed VALUES_NR_RLC_POLL_BYTE (am_ul_pollByte am) && listed VALUES_NR_RLC_MAX_RETX_THRESHOLD (am_ul_maxRetxThreshold am).

Definition same_listed (tab : list Z) (dl ul : option Z) : bool :=
  match dl, ul with Some d, Some u => (d =? u) && listed tab d | _, _ => false end.

Definition same_or_none (tab : list Z) (dl ul : option Z) : bool := match dl, ul with None, None => true | _, _ => same_listed tab dl ul end.

Definition reconfig_accepted (c : option NR_RLC_Config_t) (rb : rlc_rb) : bool :=
  match c, rb with
  | Some (RLC_Config_am am), RbAm _ _ =>
      am_listed am && same_or_none VALUES_NR_RLC_SN_FIELD_LENGTH_AM (am_dl_sn_FieldLength am) (am_ul_sn_FieldLength am)
  | Some (RLC_Config_um_Bi_Directional um), RbUm _ _ =>
      listed VALUES_NR_RLC_T_REASSEMBLY (um_dl_t_Reassembly um) &&
      same_or_none VALUES_NR_RLC_SN_FIELD_LENGTH_UM (um_dl_sn_FieldLength um) (um_ul_sn_FieldLength um)
  | None, RbAm _ _ => true
  | _, _ => false
  end.

Definition new_am_accepted (am : NR_RLC_Config__am) : bool :=
  am_listed am && same_listed VALUES_NR_RLC_SN_FIELD_LENGTH_AM (am_dl_sn_FieldLength am) (am_ul_sn_FieldLength am).

Definition srb_accepted (srb_id : Z) (c : NR_RLC_BearerConfig_t) : bool :=
  (0 <? srb_id) && (srb_id <? 4) &&
  match rlc_Config c with Some (RLC_Config_am am) => new_am_accepted am | _ => true end &&
  match servedRadioBearer c with Some (served_srb _) => true | _ => false end.

Definition drb_accepted (drb_id : Z) (c : NR_RLC_BearerConfig_t) : bool :=
  (0 <? drb_id) && (drb_id <=? MAX_DRBS_PER_UE) &&
  match rlc_Config c with
  | Some (RLC_Config_am am) => new_am_accepted am
  | Some (RLC_Config_um_Bi_Directional um) =>
      listed VALUES_NR_RLC_T_REASSEMBLY (um_dl_t_Reassembly um) &&
      same_listed VALUES_NR_RLC_SN_FIELD_LENGTH_UM (um_dl_sn_FieldLength um) (um_ul_sn_FieldLength um)
  | _ => false
  end &&
  match servedRadioBearer c with Some (served_drb _) => true | _ => false end.

Inductive config_refused s : rlc_op -> Prop :=
| refused_reconfig ue_id ch c ue p rb : op_bearer s (rop_reconfigure ue_id ch c) = Ok (ue, Some (p, rb)) -> reconfig_accepted c rb = false ->
    config_refused s (rop_reconfigure ue_id ch c)
| refused_srb ue_id srb_id c : srb_accepted srb_id c = false -> config_refused s (rop_add_srb ue_id srb_id c)
| refused_drb ue_id drb_id c : drb_accepted drb_id c = false -> config_refused s (rop_add_drb ue_id drb_id c).

Inductive rlc_stop s : rlc_op -> failure -> Prop :=
| stop_poll op ue p rb : is_timed op = true -> op_bearer s op = Ok (ue, Some (p, rb)) -> rb_poll_crash (rl_time s) rb -> rlc_stop s op FBounds
| stop_callback op ue p rb evs f : is_timed op = true -> op_bearer s op = Ok (ue, Some (p, rb)) -> op_events s op rb = Ok evs ->
    callback_stop s ue p evs f -> rlc_stop s op f
| stop_window_full ue_id ch buf ue p rb rb1 ev : op_bearer s (rop_data_ind ue_id ch buf) = Ok (ue, Some (p, rb)) ->
    rb_set_time (rl_time s) rb = Ok (rb1, ev) -> rb_window_full buf rb1 -> rlc_stop s (rop_data_ind ue_id ch buf) FFuel
| stop_too_long op ue p rb : is_timed op = true -> op_bearer s op = Ok (ue, Some (p, rb)) -> NR_SDU_MAX < zlen (sdu_of op) -> rlc_stop s op FExit
| stop_no_srb clock ue_id ch sdu ue : op_bearer s (rop_srb_recv_sdu clock ue_id ch sdu) = Ok (ue, None) ->
    rlc_stop s (rop_srb_recv_sdu clock ue_id ch sdu) FExit
| stop_no_bearer ue_id ch c ue : op_bearer s (rop_reconfigure ue_id ch c) = Ok (ue, None) -> rlc_stop s (rop_reconfigure ue_id ch c) FBounds
| stop_no_srb1 ue_id ue : op_bearer s (rop_test_trigger ue_id) = Ok (ue, None) -> rlc_stop s (rop_test_trigger ue_id) FBounds
| stop_config op : config_refused s op -> rlc_stop s op FExit.

(** *** Callbacks *)

(** What a delivered SDU needs. *)
Lemma deliver_sdu_cases s ue (b : bool) p k buf evs : p = (if b then PSrb k else PDrb k) -> deliver_sdu buf ∈ evs ->
  match rlc_deliver_sdu f1 has_f1_cxt s ue b k buf with Ok _ => True | Fail f => callback_stop s ue p evs f end.
Proof.
  intros Hp Hin. unfold rlc_deliver_sdu. destruct (nr_rlc_manager_get_gnb_flag s) eqn:Hg; [|done].
  destruct (du_get_f1_ue_data f1 (ru_ue_id ue)) as [d|f] eqn:Hf; simpl; [|eapply cb_no_f1_data; [by destruct b; subst|done..]].
  destruct (nr_rlc_manager_rlc_is_split s) eqn:Hs; [|done]. destruct b; [done|]. unfold assert_. destruct has_f1_cxt eqn:Hx; [done|].
  by eapply cb_no_f1_context.
Qed.

Lemma rlc_callback_cases s ue p ev evs : place_ok p -> (p = PSrb0 -> is_delivery ev) -> ev ∈ evs ->
  match rlc_callback f1 has_f1_cxt s ue p ev with Ok _ => True | Fail f => callback_stop s ue p evs f end.
Proof.
  intros Hp H0 Hin. destruct p as [|i|i].
  - by destruct ev; simpl in *; [|by destruct H0..].
  - destruct ev as [buf|id|]; simpl; [by apply deliver_sdu_cases| |]; unfold assert_; simpl in Hp;
      (destruct (i <=? 2) eqn:Hi; [done|]; assert (i = 3) as -> by lia; eapply cb_srb3; [done|exact Hin|by intros []]).
  - destruct ev as [buf|id|]; simpl; [by apply (deliver_sdu_cases s ue false)|done|done].
Qed.

Lemma rlc_callbacks_ok s ue p rb evs : place_ok p -> place_fits p rb -> rb_events_ok rb evs ->
  match rlc_callbacks f1 has_f1_cxt s ue p evs with Ok _ => True | Fail f => callback_stop s ue p evs f end.
Proof.
  intros Hp [_ Hfit] Hev.
  assert (Hall : Forall (fun ev => p = PSrb0 -> is_delivery ev) evs).
  { destruct p; [|by apply Forall_forall..]. eapply Forall_impl; [by apply Hev|]. by intros ev [buf ->]. }
  assert (Hsub : forall l, Forall (fun ev => p = PSrb0 -> is_delivery ev) l -> (forall ev, ev ∈ l -> ev ∈ evs) ->
    match rlc_callbacks f1 has_f1_cxt s ue p l with Ok _ => True | Fail f => callback_stop s ue p evs f end); [|by apply Hsub].
  induction 1 as [|ev l Hv Hl IH]; intros Hin; simpl; [done|].
  pose proof (rlc_callback_cases s ue p ev evs Hp Hv (Hin ev ltac:(by left))) as Hone.
  destruct (rlc_callback f1 has_f1_cxt s ue p ev) as [o1|]; [|done]. simpl.
  specialize (IH ltac:(intros x Hx; apply Hin; by right)). by destruct (rlc_callbacks f1 has_f1_cxt s ue p l).
Qed.

Lemma rlc_callbacks_fail s ue p ev evs f : ev ∈ evs -> rlc_callback f1 has_f1_cxt s ue p ev = Fail f ->
  exists f', rlc_callbacks f1 has_f1_cxt s ue p evs = Fail f'.
Proof.
  intros Hin Hev. induction evs as [|y l IH]; [by apply elem_of_nil in Hin|]. simpl. apply elem_of_cons in Hin as [<-|Hin].
  - rewrite Hev. by eexists.
  - destruct (rlc_callback f1 has_f1_cxt s ue p y); [|by eexists]. destruct (IH Hin) as [f' ->]. by eexists.
Qed.

(** The conditions are exact. *)
Lemma callback_stop_fails s ue p evs f : place_ok p -> callback_stop s ue p evs f ->
  exists f', rlc_callbacks f1 has_f1_cxt s ue p evs = Fail f'.
Proof.
  intros Hp [ev -> Hin Hev|buf f' Hp0 Hin Hg Hd|i buf -> Hin Hs Hx].
  - apply (rlc_callbacks_fail s ue _ ev evs FExit Hin). by destruct ev; [by destruct Hev|..].
  - apply (rlc_callbacks_fail s ue _ _ evs f' Hin). by destruct p; [done|..]; simpl; unfold rlc_deliver_sdu; rewrite Hg, Hd.
  - eapply (rlc_callbacks_fail s ue _ _ evs (match du_get_f1_ue_data f1 (ru_ue_id ue) with Ok _ => FExit | Fail f => f end) Hin).
    simpl. unfold rlc_deliver_sdu. rewrite Hs. unfold nr_rlc_manager_rlc_is_split, nr_rlc_manager_get_gnb_flag in *.
    destruct (rl_mode s); [|done..]. by destruct (du_get_f1_ue_data _ _); [rewrite Hx|].
Qed.

End Steps.
