(* ===== verification/RlcApiSteps.v ===== *)
(** What one operation of the RLC interface comes to: on a well-formed table it
    leaves a well-formed table, or it stops at one of the places of [rlc_stop]. *)

From S2P Require Import Prelude Asn1Utils RlcPdu RlcSdu TimeStat RlcEntity RlcTm RlcUm RlcAm RlcAmEntity.
From S2P Require Import Sdap Hashtable F1apIds PdcpApi RlcApi RlcApiInv.

(** ** Postconditions of code that can stop *)

(** The result satisfies [P], or the failure is one of [stop]. *)
Definition stops {A} (stop : failure -> Prop) (P : A -> Prop) (r : res A) : Prop :=
  match r with Ok x => P x | Fail f => stop f end.

Definition rlc_safe {R} (stop : failure -> Prop) (r : res (rlc_t * R)) : Prop := stops stop (fun x => rlc_wf x.1) r.

Lemma stops_bind {A B} stop (Q : A -> Prop) (P : B -> Prop) m k :
  stops stop Q m -> (forall x, m = Ok x -> Q x -> stops stop P (k x)) -> stops stop P (rbind m k).
Proof. destruct m as [x|f]; simpl; intros HQ Hk; [by apply Hk|done]. Qed.

Lemma stops_imp {A} (stop stop' : failure -> Prop) (P P' : A -> Prop) r :
  stops stop P r -> (forall f, stop f -> stop' f) -> (forall x, P x -> P' x) -> stops stop' P' r.
Proof. destruct r; simpl; auto. Qed.

Lemma stops_of_opt {A} (stop : failure -> Prop) (P : A -> Prop) f o :
  (o = None -> stop f) -> (forall x, o = Some x -> P x) -> stops stop P (of_opt f o).
Proof. destruct o; simpl; auto. Qed.

(** Code that runs to its end, where [P] holds, when [b] holds, and exits when
    it does not. *)
Definition decides {A} (P : A -> Prop) (b : bool) (r : res A) : Prop := if b then exists x, r = Ok x /\ P x else r = Fail FExit.

Lemma decides_bind {A B} (Q : A -> Prop) (P : B -> Prop) b1 b2 m k :
  decides Q b1 m -> (forall x, m = Ok x -> Q x -> decides P b2 (k x)) -> decides P (b1 && b2) (rbind m k).
Proof. destruct b1; simpl; [intros (x & -> & Hx) Hk; by apply Hk|by intros ->]. Qed.

(** The last of several decisions. *)
Lemma decides_last {A B} (Q : A -> Prop) (P : B -> Prop) b m k :
  decides Q b m -> (forall x, Q x -> exists y, k x = Ok y /\ P y) -> decides P b (rbind m k).
Proof. intros Hm Hk. rewrite <- (andb_true_r b). eapply decides_bind; [exact Hm|]. intros x _. exact (Hk x). Qed.

Lemma decides_stops {A} (stop : failure -> Prop) (P : A -> Prop) b r : decides P b r -> (b = false -> stop FExit) -> stops stop P r.
Proof. destruct b; simpl; [by intros (x & -> & Hx)|intros -> Hs; by apply Hs]. Qed.

Lemma decides_assert b : decides (fun _ => b = true) b (assert_ b).
Proof. destruct b; simpl; [by eexists|done]. Qed.

Lemma decides_decode tab v : decides (.∈ tab) (listed tab v) (decode_value tab v).
Proof.
  unfold decides, listed. destruct (_ && _) eqn:Hb.
  - unfold zlen in Hb. destruct (lookup_lt_is_Some_2 tab (Z.to_nat v)) as [x Hx]; [lia|]. exists x. split; [|by eapply list_elem_of_lookup_2].
    apply decode_value_lookup. split; [lia|done].
  - unfold decode_value, assert_. by rewrite Hb.
Qed.

Lemma decides_am_params am : decides (fun _ => True) (am_listed am) (decode_am_params am).
Proof.
  unfold am_listed, decode_am_params. rewrite <- !andb_assoc.
  do 5 (eapply decides_bind; [apply decides_decode|intros ? _ _]). eapply decides_last; [apply decides_decode|by eexists].
Qed.

(** Both SN lengths of a new entity. *)
Lemma decides_same {A} (P : A -> Prop) tab dl ul b (k : Z -> res A) :
  is_Some dl -> is_Some ul -> (forall n, n ∈ tab -> decides P b (k n)) ->
  decides P (same_listed tab dl ul && b) (let* n := same_sn_length dl ul in let* m := decode_value tab n in k m).
Proof.
  intros [d ->] [u ->] Hk. unfold same_sn_length, same_listed. cbn [of_opt rbind]. rewrite <- andb_assoc, rbind_assoc.
  eapply decides_bind; [apply decides_assert|]. intros [] _ _. cbn [rbind]. eapply decides_bind; [apply decides_decode|]. auto.
Qed.

Lemma decides_new_sn_length tab dl ul : decides (fun _ => True) (same_or_none tab dl ul) (new_sn_length (decode_value tab) dl ul).
Proof.
  unfold new_sn_length, same_or_none, same_listed. destruct dl as [d|], ul as [u|]; simpl; [|done|done|by eexists].
  eapply decides_bind; [apply decides_assert|]. intros [] _ _. eapply decides_last; [apply decides_decode|by eexists].
Qed.

Lemma decides_reconfigure c rb : decides (fun _ => True) (reconfig_accepted c rb) (reconfigure_rb c rb).
Proof.
  unfold reconfigure_rb, reconfig_accepted. destruct c as [[am|um|]|], rb as [h e|h e|h e]; try done; [| |by eexists].
  - eapply decides_bind; [apply decides_am_params|]. intros p _ _. eapply decides_last; [apply decides_new_sn_length|by eexists].
  - eapply decides_bind; [apply decides_decode|]. intros p _ _. eapply decides_last; [apply decides_new_sn_length|by eexists].
Qed.

Lemma new_am_length p n : n ∈ VALUES_NR_RLC_SN_FIELD_LENGTH_AM -> exists rb, new_am p n = Ok rb.
Proof. by intros [->|[->|[]%not_elem_of_nil]%elem_of_cons]%elem_of_cons; eexists. Qed.

Lemma new_um_length t n : n ∈ VALUES_NR_RLC_SN_FIELD_LENGTH_UM ->
  exists rb, (let* e := new_nr_rlc_entity_um RLC_RX_MAXSIZE RLC_TX_MAXSIZE t n in Ok (RbUm heap_empty e)) = Ok rb.
Proof. by intros [->|[->|[]%not_elem_of_nil]%elem_of_cons]%elem_of_cons; eexists. Qed.

(** ** Parts of the operations *)

Section Parts.
Context (f1 : f1_ids) (has_f1_cxt : bool).
Implicit Types (s : rlc_t) (ue : nr_rlc_ue_t) (p : rlc_place) (rb : rlc_rb) (stop : failure -> Prop).

Lemma callback_stop_get s id ue p evs f :
  callback_stop f1 has_f1_cxt (nr_rlc_manager_get_ue s id).1 ue p evs f -> callback_stop f1 has_f1_cxt s ue p evs f.
Proof.
  unfold nr_rlc_manager_get_ue. destruct (find_rlc_ue _ _); [done|].
  intros [? ? ? ?|? ? ? ? ? ?|? ? ? ? ? ?]; [by eapply cb_srb3|by eapply cb_no_f1_data|by eapply cb_no_f1_context].
Qed.

(** [stop] covers what [set_time] and its callbacks can come to. *)
Record covers stop s ue p rb : Prop := {
  cv_poll : rb_poll_crash (rl_time s) rb -> stop FBounds;
  cv_callback : forall rb1 evs f, rb_set_time (rl_time s) rb = Ok (rb1, evs) -> callback_stop f1 has_f1_cxt s ue p evs f -> stop f
}.

Lemma place_fits_mode p rb rb' : place_fits p rb -> rb_inv rb' -> rb_mode rb' = rb_mode rb -> place_fits p rb'.
Proof. intros [_ Hp] Hi Hm. split; [done|]. by rewrite Hm. Qed.

Lemma set_time_stops stop s id p rb :
  place_fits p rb -> (rb_poll_crash (rl_time s) rb -> stop FBounds) ->
  stops stop (fun x => place_fits p x.1 /\ rb_events_ok x.1 x.2) (rb_set_time (rl_time (nr_rlc_manager_get_ue s id).1) rb).
Proof.
  intros Hfit Hpoll. rewrite get_rlc_ue_time.
  destruct (rb_set_time_ok (rl_time s) rb (proj1 Hfit)) as [(rb' & ev & -> & Hi & Hm & Hev)|[Hc ->]]; [|by apply Hpoll].
  simpl. split; [by eapply place_fits_mode|]. intros H. apply Hev. by rewrite <- Hm.
Qed.

Lemma callbacks_stop stop s id ue p rb evs :
  place_ok p -> place_fits p rb -> rb_events_ok rb evs -> (forall f, callback_stop f1 has_f1_cxt s ue p evs f -> stop f) ->
  stops stop (fun _ => True) (rlc_callbacks f1 has_f1_cxt (nr_rlc_manager_get_ue s id).1 ue p evs).
Proof.
  intros Hp Hfit Hev Hcb. pose proof (rlc_callbacks_ok f1 has_f1_cxt (nr_rlc_manager_get_ue s id).1 ue p rb evs Hp Hfit Hev) as H.
  unfold stops. destruct (rlc_callbacks _ _ _ _ _ _); [done|]. by eapply Hcb, callback_stop_get.
Qed.

(** The bearer of a UE is replaced. *)
Lemma put_place_wf s id p rb : rlc_wf s -> place_fits p rb ->
  rlc_wf (put_rlc (nr_rlc_manager_get_ue s id).1 id (place_set (nr_rlc_manager_get_ue s id).2 p (Some rb))).
Proof.
  intros Hwf Hfit. destruct (get_rlc_ue_wf s id Hwf) as [Hs Hue]. apply put_rlc_wf; [done|]. apply place_set_wf; [done|]. by intros rb' [= <-].
Qed.

Lemma found_stops stop P k r :
  found_ok r -> (forall p rb, r = Ok (Some (p, rb)) -> place_ok p -> place_fits p rb -> stops stop P (k (Some (p, rb)))) ->
  (r = Ok None -> stops stop P (k None)) -> stops (A := rlc_t * list rlc_out) stop P (rbind r k).
Proof. intros (o & -> & Ho) Hs Hn. cbn [rbind]. destruct o as [[p rb]|]; [|by apply Hn]. destruct (Ho p rb eq_refl). by apply Hs. Qed.

Lemma op_covers s op ue p rb : is_timed op = true -> (forall rb, op_recv op rb = Ok (rb, [])) ->
  op_bearer s op = Ok (ue, Some (p, rb)) -> covers (rlc_stop f1 has_f1_cxt s op) s ue p rb.
Proof.
  intros Ht Hr Hb. split; [by apply stop_poll with (2 := Hb)|]. intros rb1 evs f Hs Hf. apply (stop_callback f1 has_f1_cxt s op ue p rb evs); try done.
  unfold op_events. rewrite Hs. cbn [rbind]. rewrite Hr. cbn [rbind]. by rewrite app_nil_r.
Qed.

Lemma on_channel_safe {R} stop s id ch (none : R) f :
  rlc_wf s -> channel_ok ch ->
  (forall p rb, get_rlc_entity_from_lcid (ue_of s id) ch = Ok (Some (p, rb)) -> covers stop s (ue_of s id) p rb) ->
  (forall rb, rb_inv rb -> rb_fine rb (fun _ => True) (f rb)) ->
  rlc_safe stop (outs (on_channel f1 has_f1_cxt s id ch none f)).
Proof.
  intros Hwf Hch Hcov Hf. destruct (get_rlc_ue_wf s id Hwf) as [Hs Hue]. unfold on_channel, ue_of in *.
  pose proof (put_place_wf s id) as Hput. pose proof (callbacks_stop stop s id) as Hcb. pose proof (set_time_stops stop s id) as Hset.
  pose proof (get_rlc_ue_time s id) as Ht.
  destruct (nr_rlc_manager_get_ue s id) as [s1 ue]. cbn [fst snd] in *. unfold outs. rewrite rbind_assoc. apply found_stops; [by apply channel_found| |done].
  intros p rb Hg Hp Hfit. specialize (Hcov p rb Hg). rewrite !rbind_assoc. eapply stops_bind; [apply Hset; [done|apply Hcov]|].
  intros [rb1 ev] Hs1 [Hfit1 Hev]. rewrite Ht in Hs1. cbn [fst snd] in *. rewrite !rbind_assoc.
  eapply stops_bind; [by eapply Hcb; [..|intros ?; by eapply cv_callback]|]. intros o _ _.
  rewrite !rbind_assoc. destruct (Hf rb1 (proj1 Hfit1)) as (rb2 & x & -> & Hi & Hm & _). cbn [rbind stops fst]. apply Hput; [done|]. by eapply place_fits_mode.
Qed.

Lemma multi_data_ok n clock tb_size buffer rb : rb_inv rb -> tb_size <= zlen buffer ->
  rb_fine rb (fun _ => True) (multi_data_loop n clock tb_size buffer rb).
Proof.
  revert tb_size buffer rb. induction n as [|n IH]; intros tb_size buffer rb Hinv Hlen; simpl; [by eexists _, _|].
  destruct (tb_size - 3 <=? 0) eqn:Hz; [by eexists _, _|].
  assert (Hd : zlen (drop 3 buffer) = zlen buffer - 3) by (apply (zlen_drop buffer 3); lia).
  destruct (rb_generate_ok (clock n) (drop 3 buffer) (tb_size - 3) rb Hinv) as (rb1 & [pdu size] & -> & Hi & Hm & [Hl Hsz]); [lia|].
  cbn [rbind fst snd] in *. destruct (Z.eqb_spec size 0); [by eexists _, _|].
  destruct (IH (tb_size - (3 + size)) (drop (Z.to_nat size) pdu) rb1 Hi) as (rb2 & [rest sizes] & -> & Hi2 & Hm2 & _).
  { rewrite zlen_drop; lia. }
  cbn [rbind]. eexists _, _. split; [done|]. by rewrite Hm2.
Qed.

(** [set_time], callbacks and [recv_sdu] of a bearer. *)
Lemma send_sdu_safe stop s id clock p rb sdu sdu_id :
  rlc_wf s -> place_ok p -> place_fits p rb -> covers stop s (ue_of s id) p rb -> 0 < zlen sdu -> (NR_SDU_MAX < zlen sdu -> stop FExit) ->
  rlc_safe stop (send_sdu f1 has_f1_cxt (nr_rlc_manager_get_ue s id).1 clock id (ue_of s id) p rb sdu sdu_id).
Proof.
  intros Hwf Hp Hfit Hcov Hpos Hmax. unfold send_sdu. eapply stops_bind; [apply set_time_stops; [done|apply Hcov]|].
  intros [rb1 ev] Hs1 [Hfit1 Hev]. rewrite get_rlc_ue_time in Hs1.
  eapply stops_bind; [by eapply callbacks_stop; [..|intros ?; by eapply cv_callback]|]. intros o _ _. pose proof (rb_recv_sdu_ok clock sdu sdu_id rb1 (proj1 Hfit1) Hpos) as H.
  destruct (Z.ltb_spec NR_SDU_MAX (zlen sdu)); [rewrite H; by apply Hmax|]. destruct H as (rb2 & -> & Hi & Hm).
  cbn [rbind stops fst]. apply put_place_wf; [done|]. by eapply place_fits_mode.
Qed.

(** A bearer that exists is left, a missing one is added. *)
Lemma add_place_ok ue p (new : res rlc_rb) (add : rlc_rb -> res nr_rlc_ue_t) e :
  rlc_ue_wf ue -> place_ok p -> new = Ok e -> place_fits p e -> add e = place_add ue p e ->
  exists ue', (let* old := place_get ue p in match old with Some _ => Ok ue | None => let* e := new in add e end) = Ok ue' /\ rlc_ue_wf ue'.
Proof.
  intros Hue Hp -> Hfit Hadd. destruct (place_get_ok ue p Hue Hp) as (o & Ho & _). rewrite Ho. cbn [rbind].
  destruct o as [rb|]; [by eexists|]. rewrite Hadd. unfold place_add. rewrite Ho. cbn.
  eexists. split; [done|]. apply place_set_wf; [done|]. by intros rb [= <-].
Qed.

Lemma set_lcid_ok ue ch x : rlc_ue_wf ue -> 1 <= ch <= 32 -> lcid_ok x -> exists ue', set_lcid ue ch x = Ok ue' /\ rlc_ue_wf ue'.
Proof.
  intros [? ? ? ? ? Hll ?] Hch Hx. unfold set_lcid. destruct (arr_get_ok (ru_lcid2rb ue) (ch - 1)) as (y & -> & _); [unfold zlen; rewrite Hll; lia|].
  cbn [rbind]. eexists. split; [done|]. constructor; simpl; rewrite ?length_insert; try done. by apply Forall_insert.
Qed.

End Parts.

(** ** The steps *)

Section Steps.
Context (f1 : f1_ids) (has_f1_cxt : bool).
Implicit Types (s : rlc_t) (ue : nr_rlc_ue_t) (p : rlc_place) (rb : rlc_rb).

Abbreviation safe_step s op := (rlc_safe (rlc_stop f1 has_f1_cxt s op) (rlc_step f1 has_f1_cxt s op)).

Lemma safe_quiet stop (r : res rlc_t) : stops stop rlc_wf r -> rlc_safe stop (quiet_op r).
Proof. by destruct r. Qed.

Lemma safe_no_out {R} stop (r : res (rlc_t * R)) : rlc_safe stop r -> rlc_safe stop (no_out r).
Proof. by destruct r as [[s x]|]. Qed.

(** The bearer of an operation on a channel. *)
Lemma channel_bearer s id ch o : get_rlc_entity_from_lcid (ue_of s id) ch = Ok o ->
  (let* o := get_rlc_entity_from_lcid (ue_of s id) ch in Ok (ue_of s id, o)) = Ok (ue_of s id, o).
Proof. by intros ->. Qed.

Lemma step_data_ind s id ch buf : let op := rop_data_ind id ch buf in rlc_wf s -> rlc_op_ok s op -> safe_step s op.
Proof.
  intros op Hwf [Hch Hhonest]. destruct (get_rlc_ue_wf s (u16 id) Hwf) as [Hs Hue]. cbn [rlc_step op]. unfold nr_mac_rlc_data_ind.
  pose proof (put_place_wf s (u16 id)) as Hput. pose proof (callbacks_stop f1 has_f1_cxt (rlc_stop f1 has_f1_cxt s op) s (u16 id)) as Hcb.
  pose proof (set_time_stops (rlc_stop f1 has_f1_cxt s op) s (u16 id)) as Hset. pose proof (get_rlc_ue_time s (u16 id)) as Ht.
  pose proof (fun o => channel_bearer s (u16 id) ch o : _ -> op_bearer s op = _) as Hb. unfold ue_of in *.
  destruct (nr_rlc_manager_get_ue s (u16 id)) as [s1 ue]. cbn [fst snd data_ind_loop] in *. rewrite !rbind_assoc.
  apply found_stops; [by apply channel_found| |].
  2:{ intros _. cbn. by apply put_rlc_wf. }
  intros p rb Hg%Hb Hp Hfit. rewrite !rbind_assoc.
  eapply stops_bind; [apply Hset; [done|by apply (stop_poll f1 has_f1_cxt s op ue p rb)]|]. intros [rb1 ev] Hset1 [Hfit1 Hev]. rewrite Ht in Hset1. cbn [fst snd] in *. rewrite !rbind_assoc.
  destruct (rb_recv_pdu_ok buf rb1 (proj1 Hfit1)) as [(rb2 & ev2 & Hrecv & Hi & Hm & Hev2)|[Hw ->]].
  - by eapply Hhonest.
  - rewrite Hrecv. cbn [rbind]. assert (Hfit2 : place_fits p rb2) by by eapply place_fits_mode. rewrite !rbind_assoc. eapply stops_bind.
    { eapply Hcb; [done|exact Hfit2| |].
      - intros Hm2. rewrite Hm in Hm2. apply Forall_app. split; [by apply Hev|by apply Hev2].
      - intros f. apply (stop_callback f1 has_f1_cxt s op ue p rb); [done|done|]. unfold op_events. rewrite Hset1. cbn. by rewrite Hrecv. }
    intros o _ _. cbn. by apply Hput.
  - cbn. by eapply stop_window_full.
Qed.

Lemma step_multi_data_req s clock id ch tb_size buffer n :
  let op := rop_multi_data_req clock id ch tb_size buffer n in rlc_wf s -> rlc_op_ok s op -> safe_step s op.
Proof.
  intros op Hwf [Hch Hlen]. apply on_channel_safe; [done|done| |].
  - intros p rb Hg. apply op_covers; [done|done|]. by apply channel_bearer.
  - intros rb Hi. by apply multi_data_ok.
Qed.

Lemma step_mac_data_req s clock id ch tb_size buffer :
  let op := rop_mac_data_req clock id ch tb_size buffer in rlc_wf s -> rlc_op_ok s op -> safe_step s op.
Proof.
  intros op Hwf [Hch Hlen]. apply on_channel_safe; [done|done| |].
  - intros p rb Hg. apply op_covers; [done|done|]. by apply channel_bearer.
  - intros rb Hi. destruct (rb_generate_ok clock buffer tb_size rb Hi Hlen) as (rb' & x & -> & ? & ? & _). by eexists _, _.
Qed.

Lemma find_new (ues : list nr_rlc_ue_t) id : find_rlc_ue ues id = None -> find_rlc_ue (ues ++ [new_rlc_ue id]) id = Some (new_rlc_ue id).
Proof. induction ues as [|x l IH]; simpl; [by rewrite Z.eqb_refl|]. destruct (ru_ue_id x =? id); [done|]. by apply IH. Qed.

Lemma rlc_get_ue_found s id : find_rlc_ue (rl_ues (nr_rlc_manager_get_ue s id).1) id = Some (nr_rlc_manager_get_ue s id).2.
Proof. unfold nr_rlc_manager_get_ue. destruct (find_rlc_ue (rl_ues s) id) as [ue|] eqn:Hf; [done|]. by apply find_new. Qed.

Lemma get_ue_idem s id : nr_rlc_manager_get_ue (nr_rlc_manager_get_ue s id).1 id = nr_rlc_manager_get_ue s id.
Proof. unfold nr_rlc_manager_get_ue at 1. rewrite rlc_get_ue_found. by destruct (nr_rlc_manager_get_ue s id). Qed.

Lemma step_status_ind s id ch : let op := rop_status_ind id ch in rlc_wf s -> rlc_op_ok s op -> safe_step s op.
Proof.
  intros op Hwf Hch. cbn [rlc_step op]. unfold nr_mac_rlc_status_ind.
  assert (Hq : rlc_safe (rlc_stop f1 has_f1_cxt s op) (outs (nr_rlc_status_ind f1 has_f1_cxt (nr_rlc_manager_get_ue s (u16 id)).1 (u16 id) ch))).
  { pose proof (get_ue_idem s (u16 id)) as Hidem. pose proof (get_rlc_ue_time s (u16 id)) as Ht.
    apply on_channel_safe; [by apply get_rlc_ue_wf|done| |].
    - unfold ue_of. rewrite Hidem. intros p rb Hg. pose proof (op_covers f1 has_f1_cxt s op _ p rb eq_refl (fun _ => eq_refl) (channel_bearer s (u16 id) ch _ Hg)) as [Hc1 Hc2].
      rewrite <- Ht in *. split; [done|]. intros rb1 evs f Hs Hf. by eapply Hc2, callback_stop_get.
    - intros rb Hi. destruct (rb_buffer_status_ok (1000 * 1000) rb Hi) as (b & ->). by eexists _, _. }
  destruct (nr_rlc_manager_get_ue s (u16 id)) as [s1 ue]. cbn [fst status_ind_loop] in *.
  by destruct (nr_rlc_status_ind f1 has_f1_cxt s1 (u16 id) ch) as [[[s2 b] o]|f].
Qed.

Lemma step_data_req s clock ctxt b k mui sdu : let op := rop_data_req clock ctxt b k mui sdu in rlc_wf s -> rlc_op_ok s op -> safe_step s op.
Proof.
  intros op Hwf Hpos. cbn [rlc_step op]. unfold nr_rlc_data_req. set (id := s32 (cx_rntiMaybeUEid ctxt)).
  destruct (get_rlc_ue_wf s id Hwf) as [Hs Hue]. pose proof (send_sdu_safe f1 has_f1_cxt (rlc_stop f1 has_f1_cxt s op) s id clock) as Hsend.
  assert (Hb : forall o, rb_of_place (ue_of s id) (data_req_place b k MAX_DRBS_PER_UE) = Ok o -> op_bearer s op = Ok (ue_of s id, o)).
  { intros o Ho. simpl. fold id. by rewrite Ho. }
  unfold ue_of in *. destruct (nr_rlc_manager_get_ue s id) as [s1 ue]. cbn [fst snd] in *. apply found_stops; [|..].
  - apply rb_of_place_found; [done|]. intros p. by apply data_req_place_ok.
  - intros p rb Hg Hp Hfit. apply Hsend; try done; [by apply op_covers; [..|apply Hb]|]. by apply (stop_too_long f1 has_f1_cxt s op ue p rb); [|apply Hb].
  - done.
Qed.

Lemma step_srb_recv_sdu s clock id ch sdu : let op := rop_srb_recv_sdu clock id ch sdu in rlc_wf s -> rlc_op_ok s op -> safe_step s op.
Proof.
  intros op Hwf [Hch Hpos]. cbn [rlc_step op]. unfold nr_rlc_srb_recv_sdu. set (p := if ch =? 0 then PSrb0 else PSrb ch).
  assert (Hp : place_ok p) by (unfold p; destruct (Z.eqb_spec ch 0); simpl; [done|lia]).
  destruct (get_rlc_ue_wf s id Hwf) as [Hs Hue]. pose proof (send_sdu_safe f1 has_f1_cxt (rlc_stop f1 has_f1_cxt s op) s id clock) as Hsend.
  assert (Hb : forall o, rb_of_place (ue_of s id) (Some p) = Ok o -> op_bearer s op = Ok (ue_of s id, o)).
  { intros o Ho. simpl in *. fold p. by rewrite Ho. }
  unfold ue_of in *. destruct (nr_rlc_manager_get_ue s id) as [s1 ue]. cbn [fst snd] in *. cbn [rb_of_place] in Hb.
  destruct (place_get_ok ue p Hue Hp) as (o & Ho & Hfit). rewrite Ho in *. cbn [rbind] in *. destruct o as [rb|]; cbn [of_opt rbind].
  - apply Hsend; try done; [by apply Hfit|by apply op_covers; [..|apply Hb]|]. by apply (stop_too_long f1 has_f1_cxt s op ue p rb); [|apply Hb].
  - eapply stop_no_srb. by apply Hb.
Qed.

(** *** Queries and control *)

Lemma query_safe {R} stop s id ch (none : R) f : rlc_wf s -> channel_ok ch -> rlc_safe stop (on_channel_query s id ch none f).
Proof.
  intros Hwf Hch. destruct (get_rlc_ue_wf s id Hwf) as [Hs Hue]. unfold on_channel_query.
  destruct (nr_rlc_manager_get_ue s id) as [s1 ue]. cbn [fst snd] in *. by destruct (channel_found ue ch Hue Hch) as (o & -> & _).
Qed.

Lemma step_statistics s clock id b k : let op := rop_statistics clock id b k in rlc_wf s -> safe_step s op.
Proof.
  intros op Hwf. apply safe_no_out. destruct (get_rlc_ue_wf s id Hwf) as [Hs Hue]. pose proof (put_place_wf s id) as Hput.
  unfold nr_rlc_get_statistics. destruct (nr_rlc_manager_get_ue s id) as [s1 ue]. cbn [fst snd] in *.
  destruct (rb_of_place_found ue (data_req_place b k 5) Hue) as (o & -> & Ho); [intros p; by apply data_req_place_ok|].
  cbn [rbind]. destruct o as [[p rb]|]; [|done]. destruct (Ho p rb eq_refl) as [Hp Hfit].
  destruct (rb_get_stats_ok clock rb (proj1 Hfit)) as (rb' & x & -> & Hi & Hm & _). cbn [rbind].
  destruct (rb_buffer_status_ok (256 * 1000) rb' Hi) as (bs & ->). cbn. apply Hput; [done|]. by eapply place_fits_mode.
Qed.

Lemma step_avg_time s id ch b : let op := rop_avg_time id ch b in rlc_wf s -> safe_step s op.
Proof.
  intros op Hwf. apply safe_quiet. destruct (get_rlc_ue_wf s id Hwf) as [Hs Hue]. pose proof (put_place_wf s id) as Hput.
  unfold nr_rlc_activate_avg_time_to_tx. destruct (nr_rlc_manager_get_ue s id) as [s1 ue]. cbn [fst snd] in *.
  match goal with |- context [rb_of_place ue ?x] => destruct (rb_of_place_found ue x Hue) as (o & -> & Ho) end.
  { intros p. unfold MAX_DRBS_PER_UE, place_ok. case_bool_; [intros [= <-]; bool_hyps; lia|]. case_bool_; [intros [= <-]; bool_hyps; unfold MAX_DRBS_PER_UE; lia|done]. }
  cbn [rbind]. destruct o as [[p rb]|]; [|done]. destruct (Ho p rb eq_refl) as [Hp Hfit]. cbn. apply Hput; [done|].
  destruct (rb_avg_time_ok b rb (proj1 Hfit)). by eapply place_fits_mode.
Qed.

Lemma step_reestablish s id ch : let op := rop_reestablish id ch in rlc_wf s -> rlc_op_ok s op -> safe_step s op.
Proof.
  intros op Hwf Hch. apply safe_quiet. destruct (get_rlc_ue_wf s id Hwf) as [Hs Hue]. pose proof (put_place_wf s id) as Hput.
  unfold nr_rlc_reestablish_entity. destruct (nr_rlc_manager_get_ue s id) as [s1 ue]. cbn [fst snd] in *.
  destruct (channel_found ue ch Hue Hch) as (o & -> & Ho). cbn [rbind]. destruct o as [[p rb]|]; [|done]. destruct (Ho p rb eq_refl) as [Hp Hfit].
  destruct (rb_reestablishment_ok rb (proj1 Hfit)) as (rb' & -> & Hi & Hm). cbn. apply Hput; [done|]. by eapply place_fits_mode.
Qed.

Lemma step_reconfigure s id ch c : let op := rop_reconfigure id ch c in rlc_wf s -> rlc_op_ok s op -> safe_step s op.
Proof.
  intros op Hwf [Hch Hk]. apply safe_quiet. destruct (get_rlc_ue_wf s id Hwf) as [Hs Hue]. pose proof (put_place_wf s id) as Hput.
  pose proof (fun o => channel_bearer s id ch o : _ -> op_bearer s op = _) as Hb. unfold nr_rlc_reconfigure_entity, ue_of in *.
  destruct (nr_rlc_manager_get_ue s id) as [s1 ue]. cbn [fst snd] in *. destruct (channel_found ue ch Hue Hch) as (o & Hg & Ho).
  specialize (Hb o Hg). rewrite Hg. cbn [rbind]. destruct o as [[p rb]|]; cbn [of_opt rbind]; [|by eapply stop_no_bearer].
  destruct (Ho p rb eq_refl) as [Hp Hfit]. eapply stops_bind with (Q := fun _ => True); [apply (decides_stops _ _ _ _ (decides_reconfigure c rb)); intros Hr; by eapply stop_config, refused_reconfig|].
  intros rb' Hr _. destruct (reconfigure_rb_inv c rb rb' (proj1 Hfit)) as [Hi Hm]; [by eapply Hk|done|]. cbn. apply Hput; [done|]. by eapply place_fits_mode.
Qed.

Lemma step_release s id ch : let op := rop_release id ch in rlc_wf s -> rlc_op_ok s op -> safe_step s op.
Proof.
  intros op Hwf Hch. apply safe_quiet. destruct (get_rlc_ue_wf s id Hwf) as [Hs Hue]. unfold nr_rlc_release_entity, release_rlc_entity_from_lcid.
  destruct (nr_rlc_manager_get_ue s id) as [s1 ue]. cbn [fst snd rlc_op_ok op] in *. apply stops_bind with (Q := rlc_ue_wf).
  2:{ intros ue' _ Hue'. by apply put_rlc_wf. }
  destruct (Z.eqb_spec ch 0) as [->|Hne]; cbn [negb assert_ rbind].
  - destruct (ru_srb0 ue) as [rb|] eqn:H0; [|done]. rewrite (rb_delete_ok rb); [|by apply (rw_srb0 ue Hue rb H0)]. cbn.
    by apply (place_set_wf ue PSrb0 None).
  - destruct (lcid_place_ok ue ch Hue) as ([p|] & -> & Hp); [unfold channel_ok in Hch; lia|..]; cbn [rbind]; [|done].
    destruct (place_get_ok ue p Hue (Hp p eq_refl)) as (o & -> & Hfit). cbn [rbind]. destruct o as [rb|]; [|done].
    rewrite (rb_delete_ok rb); [|by apply (Hfit rb eq_refl)]. cbn. by apply place_set_wf.
Qed.

Lemma new_am_fits params n e i : new_am params n = Ok e -> place_fits (PSrb i) e /\ place_fits (PDrb i) e.
Proof. intros [Hi Hm]%new_am_ok. unfold place_fits. by rewrite Hm. Qed.

(** The end of the creation of a bearer, once its parameters are known. *)
Lemma add_bearer_ok s id ch x p new add e : rlc_wf s -> 1 <= ch <= 32 -> lcid_ok x -> place_ok p -> new = Ok e -> place_fits p e ->
  (forall ue, add ue e = place_add ue p e) ->
  let (s1, ue) := nr_rlc_manager_get_ue s id in
  exists s', (let* ue := set_lcid ue ch x in
              let* old := place_get ue p in
              let* ue := match old with Some _ => Ok ue | None => let* e := new in add ue e end in
              Ok (put_rlc s1 id ue)) = Ok s' /\ rlc_wf s'.
Proof.
  intros Hwf Hch Hx Hp Hnew Hfit Hadd. destruct (get_rlc_ue_wf s id Hwf) as [Hs Hue].
  destruct (nr_rlc_manager_get_ue s id) as [s1 ue]. cbn [fst snd] in *.
  destruct (set_lcid_ok ue ch x Hue Hch Hx) as (ue1 & -> & Hue1). cbn [rbind].
  destruct (add_place_ok ue1 p new (add ue1) e Hue1 Hp Hnew Hfit (Hadd ue1)) as (ue2 & Hok & Hue2).
  rewrite <- rbind_assoc, Hok. cbn [rbind]. eexists. split; [done|]. by apply put_rlc_wf.
Qed.

Lemma add_srb_decides s id srb c : rlc_wf s -> bearer_config_ok c -> decides rlc_wf (srb_accepted srb c) (nr_rlc_add_srb s id srb c).
Proof.
  intros Hwf (Hlc & Hid & Hcfg). unfold nr_rlc_add_srb, srb_accepted. rewrite <- (andb_assoc ((0 <? srb) && (srb <? 4))).
  eapply decides_bind; [apply decides_assert|]. intros [] _ Hr.
  eapply decides_bind with (Q := fun x => x.2 ∈ VALUES_NR_RLC_SN_FIELD_LENGTH_AM).
  { destruct (rlc_Config c) as [[am|um|]|]; [|by exists (default_am_params, 12); split; [|left]..]. eapply decides_bind; [apply decides_am_params|]. intros params _ _.
    rewrite <- (andb_true_r (same_listed _ _ _)). apply decides_same; [apply Hcfg|apply Hcfg|]. intros n Hn. by exists (params, n). }
  intros [params n] _ Hn. destruct (new_am_length params n Hn) as [e He]. cbn [fst snd] in *.
  assert (Hsrb : place_ok (PSrb srb)) by (simpl; lia).
  pose proof (fun i H => add_bearer_ok s id (logicalChannelIdentity c) (NR_LCID_SRB i) (PSrb srb) (new_am params n)
    (fun ue e => nr_rlc_ue_add_srb_rlc_entity ue srb e) e Hwf Hlc H Hsrb He) as Hadd.
  destruct (nr_rlc_manager_get_ue s id) as [s1 ue]. destruct (servedRadioBearer c) as [[i|i]|]; [|done..].
  apply Hadd; [done|by eapply new_am_fits|]. intros ue'. unfold nr_rlc_ue_add_srb_rlc_entity. simpl in Hsrb.
  by rewrite (proj2 (Z.ltb_ge srb 0)), (proj2 (Z.ltb_ge 3 srb)), (proj2 (Z.eqb_neq srb 0)) by lia.
Qed.

Lemma step_add_srb s id srb c : let op := rop_add_srb id srb c in rlc_wf s -> rlc_op_ok s op -> safe_step s op.
Proof.
  intros op Hwf Hc. apply safe_quiet. apply (decides_stops _ _ _ _ (add_srb_decides s id srb c Hwf Hc)).
  intros Hb. by apply stop_config, refused_srb.
Qed.

Lemma add_drb_ok s id drb c new e : rlc_wf s -> bearer_config_ok c -> (0 <? drb) && (drb <=? MAX_DRBS_PER_UE) = true ->
  new = Ok e -> place_fits (PDrb drb) e ->
  decides rlc_wf (match servedRadioBearer c with Some (served_drb _) => true | _ => false end) (add_drb s id drb c new).
Proof.
  intros Hwf (Hlc & Hid & _) Hdrb Hnew Hfit. unfold add_drb. assert (Hp : place_ok (PDrb drb)) by (simpl; lia).
  pose proof (fun i H => add_bearer_ok s id (logicalChannelIdentity c) (NR_LCID_DRB i) (PDrb drb) new
    (fun ue e => nr_rlc_ue_add_drb_rlc_entity ue drb e) e Hwf Hlc H Hp Hnew Hfit) as Hadd.
  destruct (nr_rlc_manager_get_ue s id) as [s1 ue]. destruct (servedRadioBearer c) as [[i|i]|]; [done| |done].
  apply Hadd; [done|]. intros ue'. unfold nr_rlc_ue_add_drb_rlc_entity. simpl in Hp.
  by rewrite (proj2 (Z.ltb_ge drb 1)), (proj2 (Z.ltb_ge MAX_DRBS_PER_UE drb)) by lia.
Qed.

Lemma add_drb_decides s id drb c : rlc_wf s -> bearer_config_ok c -> is_Some (rlc_Config c) ->
  decides rlc_wf (drb_accepted drb c) (nr_rlc_add_drb s id drb c).
Proof.
  intros Hwf Hc [r Hr]. pose proof Hc as (_ & _ & Hcfg). unfold nr_rlc_add_drb, drb_accepted. rewrite Hr in *. cbn [of_opt rbind].
  destruct r as [am|um|]; [| |by rewrite andb_false_r].
  - unfold add_drb_am, new_am_accepted. rewrite <- !andb_assoc, (andb_assoc (0 <? drb)).
    eapply decides_bind; [apply decides_assert|]. intros [] _ Hdrb. eapply decides_bind; [apply decides_am_params|]. intros p _ _.
    apply decides_same; [apply Hcfg|apply Hcfg|]. intros n [e He]%(new_am_length p). by eapply add_drb_ok; [..|eapply new_am_fits].
  - unfold add_drb_um. rewrite <- !andb_assoc, (andb_assoc (0 <? drb)).
    eapply decides_bind; [apply decides_assert|]. intros [] _ Hdrb. eapply decides_bind; [apply decides_decode|]. intros t _ _.
    apply decides_same; [apply Hcfg|apply Hcfg|]. intros n [e He]%(new_um_length t). eapply add_drb_ok; [done..|].
    apply new_um_ok in He as [Hi Hm]. unfold place_fits. by rewrite Hm.
Qed.

Lemma step_add_drb s id drb c : let op := rop_add_drb id drb c in rlc_wf s -> rlc_op_ok s op -> safe_step s op.
Proof.
  intros op Hwf [Hc Hr]. apply safe_quiet. apply (decides_stops _ _ _ _ (add_drb_decides s id drb c Hwf Hc Hr)).
  intros Hb. by apply stop_config, refused_drb.
Qed.

Lemma step_activate_srb0 s id : let op := rop_activate_srb0 id in rlc_wf s -> safe_step s op.
Proof.
  intros op Hwf. apply safe_no_out. destruct (get_rlc_ue_wf s id Hwf) as [Hs Hue]. unfold nr_rlc_activate_srb0.
  destruct (nr_rlc_manager_get_ue s id) as [s1 ue]. cbn [fst snd] in *. destruct (ru_srb0 ue) as [rb|] eqn:H0; [done|].
  destruct (new_nr_rlc_entity_tm 10000) as [e|f] eqn:He; [|by vm_compute in He]. cbn [rbind].
  cbn.
  apply put_rlc_wf; [done|]. destruct Hue. constructor; try done. intros rb [= <-]. split; [by eapply new_tm_ok|done].
Qed.

Lemma reestablish_place_ok ue p : rlc_ue_wf ue -> place_ok p -> exists ue', reestablish_place ue p = Ok ue' /\ rlc_ue_wf ue'.
Proof.
  intros Hue Hp. unfold reestablish_place. destruct (place_get_ok ue p Hue Hp) as (o & -> & Hfit). cbn [rbind].
  destruct o as [rb|]; [|by exists ue]. specialize (Hfit rb eq_refl). destruct (rb_reestablishment_ok rb (proj1 Hfit)) as (rb' & -> & Hi & Hm).
  cbn [rbind]. eexists. split; [done|]. apply place_set_wf; [done|]. intros rb2 [= <-]. by eapply place_fits_mode.
Qed.

Lemma step_update_id s a b : let op := rop_update_id a b in rlc_wf s -> safe_step s op.
Proof.
  intros op Hwf. apply safe_quiet. destruct (get_rlc_ue_wf s a Hwf) as [Hs Hue]. unfold nr_rlc_update_id.
  destruct (nr_rlc_manager_get_ue s a) as [s1 ue]. cbn [fst snd] in *.
  destruct (reestablish_place_ok {| ue with ru_ue_id := b |} (PSrb 1)) as (ue' & -> & Hue'); [by destruct Hue; constructor|simpl; lia|].
  by apply put_rlc_wf.
Qed.

Lemma step_test_trigger s id : let op := rop_test_trigger id in rlc_wf s -> safe_step s op.
Proof.
  intros op Hwf. apply safe_quiet. destruct (get_rlc_ue_wf s id Hwf) as [Hs Hue].
  assert (Hb : forall o, place_get (ue_of s id) (PSrb 1) = Ok o -> o = None -> op_bearer s op = Ok (ue_of s id, None)).
  { intros o Ho ->. cbn [op_bearer op rb_of_place]. by rewrite Ho. }
  unfold nr_rlc_test_trigger_reestablishment, ue_of in *. destruct (nr_rlc_manager_get_ue s id) as [s1 ue]. cbn [fst snd] in *.
  assert (H1 : place_ok (PSrb 1) /\ place_ok (PDrb 1)) by (simpl; unfold MAX_DRBS_PER_UE; lia).
  destruct (place_get_ok ue (PSrb 1) Hue (proj1 H1)) as (o & Ho & _). specialize (Hb o Ho). rewrite Ho. cbn [rbind].
  destruct o as [rb|]; [|by eapply stop_no_srb1, Hb]. cbn [of_opt rbind].
  destruct (reestablish_place_ok ue (PSrb 1) Hue (proj1 H1)) as (ue1 & -> & Hue1). cbn [rbind].
  destruct (reestablish_place_ok ue1 (PDrb 1) Hue1 (proj2 H1)) as (ue2 & -> & Hue2). by apply put_rlc_wf.
Qed.

Lemma delete_all_ok (l : list (option rlc_rb)) : Forall (fun o => forall rb, o = Some rb -> rb_inv rb) l -> delete_all l = Ok tt.
Proof. induction 1 as [|o l Ho Hl IH]; simpl; [done|]. destruct o as [rb|]; [rewrite (rb_delete_ok rb) by by apply Ho|]; exact IH. Qed.

Lemma ue_bearers_inv ue : rlc_ue_wf ue -> Forall (fun o => forall rb, o = Some rb -> rb_inv rb) (ru_srb0 ue :: ru_srb ue ++ ru_drb ue).
Proof.
  intros [H0 _ Hs _ Hd _ _]. constructor; [by intros rb Hrb; apply (H0 rb)|]. apply Forall_app.
  split; (eapply Forall_impl; [eassumption|]); intros o Ho rb Hrb; by apply (Ho rb Hrb).
Qed.

(** The first UE with the number goes, the others stay. *)
Lemma remove_rlc_ue_ok (ues : list nr_rlc_ue_t) id : Forall rlc_ue_wf ues ->
  exists ues', remove_rlc_ue ues id = Ok ues' /\ Forall rlc_ue_wf ues' /\ sublist ues' ues /\
    forall id', id' <> id -> find_rlc_ue ues' id' = find_rlc_ue ues id'.
Proof.
  induction 1 as [|ue ues Hue Hl IH]; cbn [remove_rlc_ue find_rlc_ue]; [by eexists|]. destruct (Z.eqb_spec (ru_ue_id ue) id) as [Heq|Hne].
  - rewrite (delete_all_ok _ (ue_bearers_inv ue Hue)). cbn [rbind]. exists ues. split_and!; [done|done|by constructor|].
    intros id' Hid. by rewrite (proj2 (Z.eqb_neq (ru_ue_id ue) id')) by congruence.
  - destruct IH as (ues' & -> & Hwf & Hsub & Hf). cbn [rbind]. exists (ue :: ues'). split_and!; [done|by constructor|by constructor|].
    intros id' Hid. simpl. case_bool_; [done|]. by apply Hf.
Qed.

Lemma step_remove_ue s id : let op := rop_remove_ue id in rlc_wf s -> safe_step s op.
Proof.
  intros op Hwf. apply safe_quiet. cbn [rlc_step op]. unfold nr_rlc_remove_ue, nr_rlc_manager_remove_ue.
  by destruct (remove_rlc_ue_ok (rl_ues s) id Hwf) as (ues' & -> & Hwf' & _).
Qed.

Lemma rlc_step_ok s op : rlc_wf s -> rlc_op_ok s op -> safe_step s op.
Proof.
  intros Hwf Hok. destruct op.
  - by apply step_data_ind.
  - by apply step_multi_data_req.
  - by apply step_mac_data_req.
  - by apply step_status_ind.
  - by apply step_data_req.
  - by apply step_srb_recv_sdu.
  - apply safe_no_out. by apply query_safe.
  - apply safe_no_out. by apply query_safe.
  - cbn [rlc_step]. unfold nr_rlc_get_lcid_from_rb. pose proof (get_rlc_ue_wf s ue_id Hwf) as [H _].
    by destruct (nr_rlc_manager_get_ue s ue_id).
  - by apply step_statistics.
  - by apply step_avg_time.
  - cbn [rlc_step]. unfold nr_rlc_set_rlf_handler. pose proof (get_rlc_ue_wf s ue_id Hwf) as [H Hue].
    destruct (nr_rlc_manager_get_ue s ue_id). apply put_rlc_wf; [done|]. by destruct Hue; constructor.
  - by apply step_reestablish.
  - by apply step_reconfigure.
  - by apply step_release.
  - by apply step_add_srb.
  - by apply step_add_drb.
  - by apply step_activate_srb0.
  - by apply step_update_id.
  - by apply step_remove_ue.
  - by apply step_test_trigger.
  - done.
Qed.

End Steps.
