(* ===== verification/RlcApiProps.v ===== *)
(** The properties of the RLC interface (RlcApi.v): every sequence of
    operations, the order of the PDUs of one indication, the independence of the
    UEs, and the end of the process at an acknowledgement on SRB 3. *)

From S2P Require Import Prelude Asn1Utils RlcPdu RlcSdu TimeStat RlcEntity RlcTm RlcUm RlcAm RlcAmEntity.
From S2P Require Import Sdap Hashtable F1apIds PdcpApi RlcApi RlcApiInv RlcApiSteps.

(** ** The table *)

Section Lookup.
Implicit Types (s : rlc_t) (ue : nr_rlc_ue_t) (ues : list nr_rlc_ue_t).

Lemma find_put_same ues id ue : is_Some (find_rlc_ue ues id) -> ru_ue_id ue = id -> find_rlc_ue (put_rlc_ue ues id ue) id = Some ue.
Proof.
  intros [x Hx] Hid. induction ues as [|y ues IH]; simpl in *; [done|]. destruct (Z.eqb_spec (ru_ue_id y) id) as [Heq|Hne]; simpl.
  - by rewrite Hid, Z.eqb_refl.
  - rewrite (proj2 (Z.eqb_neq _ _) Hne). by apply IH.
Qed.

Lemma put_put ues id ue ue' : ru_ue_id ue = id -> put_rlc_ue (put_rlc_ue ues id ue) id ue' = put_rlc_ue ues id ue'.
Proof.
  intros Hid. induction ues as [|y ues IH]; simpl; [done|]. destruct (Z.eqb_spec (ru_ue_id y) id) as [Heq|Hne]; simpl.
  - by rewrite Hid, Z.eqb_refl.
  - by rewrite (proj2 (Z.eqb_neq _ _) Hne), IH.
Qed.

Lemma find_put_other ues id ue id' : id' <> id -> ru_ue_id ue <> id' -> find_rlc_ue (put_rlc_ue ues id ue) id' = find_rlc_ue ues id'.
Proof.
  intros Hne Hid. induction ues as [|y ues IH]; simpl; [done|]. destruct (Z.eqb_spec (ru_ue_id y) id) as [Heq|Hy]; simpl.
  - by rewrite (proj2 (Z.eqb_neq (ru_ue_id ue) id')), (proj2 (Z.eqb_neq (ru_ue_id y) id')) by congruence.
  - case_bool_; [done|]. apply IH.
Qed.

Lemma find_app_new ues id id' : id' <> id -> find_rlc_ue (ues ++ [new_rlc_ue id]) id' = find_rlc_ue ues id'.
Proof.
  intros Hne. induction ues as [|y ues IH]; simpl; [by rewrite (proj2 (Z.eqb_neq id id')) by congruence|]. case_bool_; [done|]. apply IH.
Qed.

Lemma get_ue_id s id : ru_ue_id (nr_rlc_manager_get_ue s id).2 = id.
Proof. by destruct (find_rlc_some _ _ _ (rlc_get_ue_found s id)) as [_ ?]. Qed.

Lemma get_ue_other s id id' : id' <> id -> find_rlc_ue (rl_ues (nr_rlc_manager_get_ue s id).1) id' = find_rlc_ue (rl_ues s) id'.
Proof. intros Hne. unfold nr_rlc_manager_get_ue. destruct (find_rlc_ue (rl_ues s) id); [done|]. by apply find_app_new. Qed.

Lemma get_ue_put s id ue : ru_ue_id ue = id ->
  nr_rlc_manager_get_ue (put_rlc (nr_rlc_manager_get_ue s id).1 id ue) id = (put_rlc (nr_rlc_manager_get_ue s id).1 id ue, ue).
Proof.
  intros Hid. unfold nr_rlc_manager_get_ue at 1. cbn [rl_ues put_rlc]. rewrite find_put_same; [done| |done]. by rewrite rlc_get_ue_found.
Qed.

End Lookup.

(** ** The PDUs of one indication *)

Section Order.
Context (f1 : f1_ids) (has_f1_cxt : bool).
Implicit Types (s : rlc_t) (ue : nr_rlc_ue_t).

Lemma data_ind_loop_id s data : forall ue, stops (fun _ => True) (fun x => ru_ue_id x.1 = ru_ue_id ue) (data_ind_loop f1 has_f1_cxt s ue data).
Proof.
  induction data as [|[ch buf] data IH]; intros ue; [done|]. cbn [data_ind_loop].
  destruct (get_rlc_entity_from_lcid ue ch) as [[[p rb]|]|]; cbn [rbind]; [|by apply IH|done].
  destruct (rb_set_time (rl_time s) rb) as [[rb1 ev1]|]; cbn [rbind]; [|done]. destruct (rb_recv_pdu buf rb1) as [[rb2 ev2]|]; cbn [rbind]; [|done].
  destruct (rlc_callbacks _ _ _ _ _ _) as [o1|]; cbn [rbind]; [|done]. specialize (IH (place_set ue p (Some rb2))). rewrite place_set_id in IH.
  by destruct (data_ind_loop f1 has_f1_cxt s (place_set ue p (Some rb2)) data) as [[ue' o2]|].
Qed.

(** The loop reads the time and the mode of the manager, not the table. *)
Lemma data_ind_loop_table s s' data : rl_time s' = rl_time s -> rl_mode s' = rl_mode s ->
  forall ue, data_ind_loop f1 has_f1_cxt s' ue data = data_ind_loop f1 has_f1_cxt s ue data.
Proof.
  intros Ht Hm. assert (Hc : forall ue p evs, rlc_callbacks f1 has_f1_cxt s' ue p evs = rlc_callbacks f1 has_f1_cxt s ue p evs).
  { intros ue p. induction evs as [|ev evs IH]; simpl; [done|]. rewrite IH. f_equal. destruct ev, p; try done; simpl;
      unfold rlc_deliver_sdu, nr_rlc_manager_get_gnb_flag, nr_rlc_manager_rlc_is_split; by rewrite Hm. }
  induction data as [|[ch buf] data IH]; intros ue; [done|]. cbn [data_ind_loop]. rewrite Ht.
  destruct (get_rlc_entity_from_lcid ue ch) as [[[p rb]|]|]; cbn [rbind]; [|by apply IH|done].
  destruct (rb_set_time (rl_time s) rb) as [[rb1 ev1]|]; cbn [rbind]; [|done]. destruct (rb_recv_pdu buf rb1) as [[rb2 ev2]|]; cbn [rbind]; [|done].
  by rewrite Hc, IH.
Qed.

Lemma data_ind_loop_cons s ue a data : data_ind_loop f1 has_f1_cxt s ue (a :: data) =
  let* (ue1, o1) := data_ind_loop f1 has_f1_cxt s ue [a] in
  let* (ue2, o2) := data_ind_loop f1 has_f1_cxt s ue1 data in Ok (ue2, o1 ++ o2).
Proof.
  destruct a as [ch buf]. cbn [data_ind_loop]. destruct (get_rlc_entity_from_lcid ue ch) as [[[p rb]|]|]; cbn [rbind]; [| |done].
  - destruct (rb_set_time (rl_time s) rb) as [[rb1 ev1]|]; cbn [rbind]; [|done]. destruct (rb_recv_pdu buf rb1) as [[rb2 ev2]|]; cbn [rbind]; [|done].
    destruct (rlc_callbacks _ _ _ _ _ _) as [o1|]; cbn [rbind]; [|done]. by rewrite app_nil_r.
  - by destruct (data_ind_loop f1 has_f1_cxt s ue data) as [[ue' o]|].
Qed.

(** The PDUs that MAC brings in one indication are handled one after the other:
    an indication with several PDUs is the same as one for each of them, in
    their order. *)
Theorem data_ind_one_by_one s ue_id a data :
  nr_mac_rlc_data_ind f1 has_f1_cxt s ue_id (a :: data) =
  let* (s1, o1) := nr_mac_rlc_data_ind f1 has_f1_cxt s ue_id [a] in
  let* (s2, o2) := nr_mac_rlc_data_ind f1 has_f1_cxt s1 ue_id data in Ok (s2, o1 ++ o2).
Proof.
  unfold nr_mac_rlc_data_ind. pose proof (get_ue_put s (u16 ue_id)) as Hput. pose proof (get_ue_id s (u16 ue_id)) as Hid.
  destruct (nr_rlc_manager_get_ue s (u16 ue_id)) as [s0 ue]. cbn [fst snd] in *. rewrite data_ind_loop_cons.
  pose proof (data_ind_loop_id s0 [a] ue) as Hid1. destruct (data_ind_loop f1 has_f1_cxt s0 ue [a]) as [[ue1 o1]|]; cbn [rbind]; [|done].
  simpl in Hid1. rewrite (Hput ue1) by congruence. rewrite (data_ind_loop_table s0 (put_rlc s0 (u16 ue_id) ue1)) by done.
  destruct (data_ind_loop f1 has_f1_cxt s0 ue1 data) as [[ue2 o2]|]; cbn [rbind]; [|done].
  unfold put_rlc. cbn [rl_ues]. by rewrite put_put by congruence.
Qed.

End Order.

(** ** The UEs do not touch each other *)

(** The UEs that an operation is for. *)
Definition op_ues (op : rlc_op) : list Z :=
  match op with
  | rop_data_ind id _ _ | rop_multi_data_req _ id _ _ _ _ | rop_mac_data_req _ id _ _ _ | rop_status_ind id _ => [u16 id]
  | rop_data_req _ ctxt _ _ _ _ => [s32 (cx_rntiMaybeUEid ctxt)]
  | rop_srb_recv_sdu _ id _ _ | rop_tx_space id _ | rop_occupancy id _ | rop_lcid id _ _ | rop_statistics _ id _ _ | rop_avg_time id _ _
  | rop_rlf_handler id _ | rop_reestablish id _ | rop_reconfigure id _ _ | rop_release id _ | rop_add_srb id _ _ | rop_add_drb id _ _
  | rop_activate_srb0 id | rop_remove_ue id | rop_test_trigger id => [id]
  | rop_update_id from_id to_id => [from_id; to_id]
  | rop_ms_tick => []
  end.

Section Isolation.
Context (f1 : f1_ids) (has_f1_cxt : bool).
Implicit Types (s : rlc_t) (ue : nr_rlc_ue_t).

(** When code comes back. *)
Abbreviation back P r := (stops (fun _ => True) P r).

Lemma back_bind {A B} (P : B -> Prop) (m : res A) k : (forall x, back P (k x)) -> back P (rbind m k).
Proof. destruct m as [x|]; simpl; auto. Qed.

Definition same_others s (ids : list Z) (s' : rlc_t) : Prop := forall id, id ∉ ids -> find_rlc_ue (rl_ues s') id = find_rlc_ue (rl_ues s) id.

Lemma others_get s id : same_others s [id] (nr_rlc_manager_get_ue s id).1.
Proof. intros id' Hid. apply get_ue_other. set_solver. Qed.

Lemma others_put s id ue : ru_ue_id ue = id -> same_others s [id] (put_rlc (nr_rlc_manager_get_ue s id).1 id ue).
Proof. intros Hue id' Hid. cbn [put_rlc rl_ues]. rewrite find_put_other by set_solver. by apply others_get. Qed.

Lemma others_place s id p o : same_others s [id] (put_rlc (nr_rlc_manager_get_ue s id).1 id (place_set (nr_rlc_manager_get_ue s id).2 p o)).
Proof. apply others_put. rewrite place_set_id. apply get_ue_id. Qed.

Lemma others_trans s1 s2 s3 ids : same_others s1 ids s2 -> same_others s2 ids s3 -> same_others s1 ids s3.
Proof. intros H12 H23 id Hid. by rewrite H23, H12. Qed.

(** Follow the code to its results. *)
Ltac follow := repeat first
  [ apply back_bind; let x := fresh "x" in intros x
  | match goal with |- stops _ _ (match ?x with _ => _ end) => destruct x eqn:? end ].

Ltac get_ue s id :=
  pose proof (others_get s id); pose proof (others_place s id); pose proof (others_put s id); pose proof (get_ue_id s id);
  destruct (nr_rlc_manager_get_ue s id) as [s0 ue0]; cbn [fst snd] in *.

Lemma quiet_back P r : back P r -> back (fun x => P x.1) (quiet_op r).
Proof. by destruct r. Qed.

Lemma no_out_back {R} P (r : res (rlc_t * R)) : back (fun x => P x.1) r -> back (fun x => P x.1) (no_out r).
Proof. by destruct r as [[? ?]|]. Qed.

Lemma outs_back {R} P (r : res (rlc_t * R * list rlc_out)) : back (fun x => P x.1.1) r -> back (fun x => P x.1) (outs r).
Proof. by destruct r as [[[? ?] ?]|]. Qed.

Lemma on_channel_others {R} s id ch (none : R) f : back (fun x => same_others s [id] x.1.1) (on_channel f1 has_f1_cxt s id ch none f).
Proof. unfold on_channel. get_ue s id. follow; simpl; auto. Qed.

Lemma send_sdu_others s clock id p rb sdu sdu_id :
  back (fun x => same_others s [id] x.1) (send_sdu f1 has_f1_cxt (nr_rlc_manager_get_ue s id).1 clock id (nr_rlc_manager_get_ue s id).2 p rb sdu sdu_id).
Proof. unfold send_sdu. pose proof (others_place s id). follow; simpl; auto. Qed.

Lemma set_lcid_id ue ch x : back (fun ue' => ru_ue_id ue' = ru_ue_id ue) (set_lcid ue ch x).
Proof. unfold set_lcid. by follow. Qed.

Lemma place_add_id ue p e : back (fun ue' => ru_ue_id ue' = ru_ue_id ue) (place_add ue p e).
Proof. unfold place_add. follow. apply place_set_id. Qed.

Lemma reestablish_place_id ue p : back (fun ue' => ru_ue_id ue' = ru_ue_id ue) (reestablish_place ue p).
Proof. unfold reestablish_place. follow; [apply place_set_id|done]. Qed.

Lemma release_id ue ch : back (fun ue' => ru_ue_id ue' = ru_ue_id ue) (release_rlc_entity_from_lcid ue ch).
Proof. unfold release_rlc_entity_from_lcid. follow; try done; apply place_set_id. Qed.

Lemma add_entity_id ue (old : option rlc_rb) (new : res rlc_rb) add :
  (forall e, back (fun ue' => ru_ue_id ue' = ru_ue_id ue) (add e)) ->
  back (fun ue' => ru_ue_id ue' = ru_ue_id ue) (match old with Some _ => Ok ue | None => let* e := new in add e end).
Proof. intros Hadd. destruct old; [done|]. apply back_bind. auto. Qed.

Lemma back_ok {A} (P : A -> Prop) r x : back P r -> r = Ok x -> P x.
Proof. by intros H ->. Qed.

Lemma add_srb_others s id srb c : back (same_others s [id]) (nr_rlc_add_srb s id srb c).
Proof.
  unfold nr_rlc_add_srb. get_ue s id. apply back_bind; intros []. apply back_bind; intros [params n]. apply back_bind; intros i.
  eapply stops_bind; [apply set_lcid_id|]. intros ue1 _ Hue1. apply back_bind; intros old. eapply stops_bind.
  { apply add_entity_id. intros e. unfold nr_rlc_ue_add_srb_rlc_entity. apply back_bind. intros []. apply place_add_id. }
  intros ue2 _ Hue2. simpl. naive_solver congruence.
Qed.

Lemma add_drb_others' s id drb c new : back (same_others s [id]) (add_drb s id drb c new).
Proof.
  unfold add_drb. get_ue s id. apply back_bind; intros i.
  eapply stops_bind; [apply set_lcid_id|]. intros ue1 _ Hue1. apply back_bind; intros old. eapply stops_bind.
  { apply add_entity_id. intros e. unfold nr_rlc_ue_add_drb_rlc_entity. apply back_bind. intros []. apply place_add_id. }
  intros ue2 _ Hue2. simpl. naive_solver congruence.
Qed.

Lemma add_drb_others s id drb c : back (same_others s [id]) (nr_rlc_add_drb s id drb c).
Proof.
  unfold nr_rlc_add_drb, add_drb_am, add_drb_um. apply back_bind; intros [am|um|]; [..|done]; repeat (apply back_bind; intros ?); apply add_drb_others'.
Qed.

Lemma release_others s id ch : back (same_others s [id]) (nr_rlc_release_entity s id ch).
Proof.
  unfold nr_rlc_release_entity. get_ue s id. eapply stops_bind with (Q := fun ue => ru_ue_id ue = ru_ue_id ue0).
  - destruct (ch =? 0); [|apply release_id]. by follow.
  - intros ue _ Hue. simpl in *. naive_solver congruence.
Qed.

Lemma activate_others s id : back (fun x => same_others s [id] x.1) (nr_rlc_activate_srb0 s id).
Proof.
  unfold nr_rlc_activate_srb0. get_ue s id. destruct (ru_srb0 ue0); [done|]. apply back_bind; intros e. eapply stops_bind.
  { unfold nr_rlc_ue_add_srb_rlc_entity. apply back_bind. intros []. apply place_add_id. }
  intros ue _ Hue. simpl in *. naive_solver congruence.
Qed.

Lemma update_others s a b : back (same_others s [a; b]) (nr_rlc_update_id s a b).
Proof.
  unfold nr_rlc_update_id. pose proof (others_get s a) as Hg. destruct (nr_rlc_manager_get_ue s a) as [s1 ue]. cbn [fst snd] in *.
  eapply stops_bind; [apply reestablish_place_id|]. intros ue' _ Hue id Hid. simpl in *.
  rewrite find_put_other by set_solver. apply Hg. set_solver.
Qed.

Lemma test_trigger_others s id : back (same_others s [id]) (nr_rlc_test_trigger_reestablishment s id).
Proof.
  unfold nr_rlc_test_trigger_reestablishment. get_ue s id. apply back_bind; intros ent. apply back_bind; intros rb.
  eapply stops_bind; [apply reestablish_place_id|]. intros ue1 _ Hue1. eapply stops_bind; [apply reestablish_place_id|]. intros ue2 _ Hue2.
  simpl. naive_solver congruence.
Qed.

Lemma data_ind_others s id data : back (fun x => same_others s [u16 id] x.1) (nr_mac_rlc_data_ind f1 has_f1_cxt s id data).
Proof.
  unfold nr_mac_rlc_data_ind. get_ue s (u16 id). eapply stops_bind; [apply data_ind_loop_id|]. intros [ue o] _ Hue. simpl in *. naive_solver congruence.
Qed.

Lemma remove_others s id : rlc_wf s -> back (same_others s [id]) (nr_rlc_remove_ue s id).
Proof.
  intros Hwf. unfold nr_rlc_remove_ue, nr_rlc_manager_remove_ue. destruct (remove_rlc_ue_ok (rl_ues s) id Hwf) as (ues' & -> & _ & _ & Hf).
  intros id' Hid. apply Hf. set_solver.
Qed.

Lemma status_ind_others s id ch : back (fun x => same_others s [u16 id] x.1.1) (nr_mac_rlc_status_ind f1 has_f1_cxt s id ch).
Proof.
  unfold nr_mac_rlc_status_ind. pose proof (others_get s (u16 id)) as Hg. destruct (nr_rlc_manager_get_ue s (u16 id)) as [s1 ue]. cbn [fst] in *.
  revert s1 ue Hg. induction ch as [|c ch IH]; intros s1 ue Hg; [done|]. cbn [status_ind_loop]. eapply stops_bind; [apply on_channel_others|].
  intros [[s2 b] o] _ H2. eapply stops_bind; [eapply (IH s2 ue), others_trans; [exact Hg|exact H2]|]. by intros [[s3 bs] o3] _ H3.
Qed.

Lemma step_others s op : rlc_wf s -> back (fun x => same_others s (op_ues op) x.1) (rlc_step f1 has_f1_cxt s op).
Proof.
  intros Hwf. destruct op; cbn [rlc_step op_ues].
  - apply data_ind_others.
  - apply outs_back, on_channel_others.
  - apply outs_back, on_channel_others.
  - apply outs_back, status_ind_others.
  - unfold nr_rlc_data_req. pose proof (send_sdu_others s) as Hs. specialize (Hs clock (s32 (cx_rntiMaybeUEid ctxt))).
    get_ue s (s32 (cx_rntiMaybeUEid ctxt)). follow; simpl; auto.
  - unfold nr_rlc_srb_recv_sdu. pose proof (send_sdu_others s clock ue_id) as Hs. get_ue s ue_id. follow; simpl; auto.
  - apply no_out_back. unfold nr_rlc_get_available_tx_space, on_channel_query. get_ue s ue_id. follow; simpl; auto.
  - apply no_out_back. unfold nr_rlc_tx_list_occupancy, on_channel_query. get_ue s ue_id. follow; simpl; auto.
  - unfold nr_rlc_get_lcid_from_rb. by get_ue s ue_id.
  - apply no_out_back. unfold nr_rlc_get_statistics. get_ue s ue_id. follow; simpl; auto.
  - apply quiet_back. unfold nr_rlc_activate_avg_time_to_tx. get_ue s ue_id. follow; simpl; auto.
  - unfold nr_rlc_set_rlf_handler. get_ue s ue_id. simpl. auto.
  - apply quiet_back. unfold nr_rlc_reestablish_entity. get_ue s ue_id. follow; simpl; auto.
  - apply quiet_back. unfold nr_rlc_reconfigure_entity. get_ue s ue_id. follow; simpl; auto.
  - apply quiet_back, release_others.
  - apply quiet_back, add_srb_others.
  - apply quiet_back, add_drb_others.
  - apply no_out_back, activate_others.
  - apply quiet_back, update_others.
  - apply quiet_back. by apply remove_others.
  - apply quiet_back, test_trigger_others.
  - done.
Qed.

(** C24. An operation on one UE leaves every other UE as it is: its bearers, their
    buffers and timers, and the mapping of its channels. *)
Theorem rlc_ues_isolated s op s' outs id : rlc_wf s -> id ∉ op_ues op -> rlc_step f1 has_f1_cxt s op = Ok (s', outs) ->
  find_rlc_ue (rl_ues s') id = find_rlc_ue (rl_ues s) id.
Proof. intros Hwf Hid Hs. pose proof (step_others s op Hwf) as H. rewrite Hs in H. by apply H. Qed.

End Isolation.

Lemma rlc_ues_isolated_witness :
  exists s' outs, rlc_step (mk_f1_ids None None) false (mk_rlc [new_rlc_ue 7] NR_RLC_OP_MODE_UE 0) (rop_activate_srb0 5) = Ok (s', outs) /\
    length (rl_ues s') = 2%nat /\ find_rlc_ue (rl_ues s') 7 = Some (new_rlc_ue 7).
Proof.
  eexists _, _. split; [by vm_compute|]. split; [done|].
  apply (rlc_ues_isolated (mk_f1_ids None None) false (mk_rlc [new_rlc_ue 7] NR_RLC_OP_MODE_UE 0) (rop_activate_srb0 5) _ [] 7).
  - constructor; [apply new_rlc_ue_wf|constructor].
  - simpl. set_solver.
  - by vm_compute.
Defined.

(** ** The places where the process does not come back, exactly *)

Definition fails {A} (r : res A) : Prop := exists f, r = Fail f.

Lemma fails_bind {A B} (m : res A) (k : A -> res B) : fails m -> fails (rbind m k).
Proof. intros [f ->]. by exists f. Qed.

Lemma fails_cont {A B} (m : res A) (k : A -> res B) : (forall x, m = Ok x -> fails (k x)) -> fails (rbind m k).
Proof. destruct m as [x|f]; intros H; [by apply H|by exists f]. Qed.

Section Stops.
Context (f1 : f1_ids) (has_f1_cxt : bool).
Implicit Types (s : rlc_t) (ue : nr_rlc_ue_t) (p : rlc_place) (rb : rlc_rb).

(** What an operation that sets the time of a bearer begins with. *)
Definition prologue s (op : rlc_op) ue p rb : res rlc_rb :=
  let* (rb1, ev1) := rb_set_time (rl_time s) rb in
  let* (rb2, ev2) := op_recv op rb1 in
  let* _ := rlc_callbacks f1 has_f1_cxt s ue p (ev1 ++ ev2) in Ok rb2.

Lemma callbacks_get s id ue p evs :
  rlc_callbacks f1 has_f1_cxt (nr_rlc_manager_get_ue s id).1 ue p evs = rlc_callbacks f1 has_f1_cxt s ue p evs.
Proof.
  unfold nr_rlc_manager_get_ue. destruct (find_rlc_ue _ _); [done|]. induction evs as [|ev evs IH]; [done|]. cbn [rlc_callbacks].
  by rewrite IH.
Qed.

Lemma prologue_quiet s op ue p rb : (forall rb, op_recv op rb = Ok (rb, [])) -> fails (prologue s op ue p rb) ->
  fails (let* (rb1, ev1) := rb_set_time (rl_time s) rb in let* _ := rlc_callbacks f1 has_f1_cxt s ue p ev1 in Ok rb1).
Proof.
  intros Hr. unfold prologue. destruct (rb_set_time _ _) as [[rb1 ev1]|f]; [|by exists f]. cbn [rbind]. rewrite Hr. cbn [rbind]. by rewrite app_nil_r.
Qed.

Lemma on_channel_fails {R} s op id ch (none : R) f p rb :
  (forall rb, op_recv op rb = Ok (rb, [])) -> get_rlc_entity_from_lcid (ue_of s id) ch = Ok (Some (p, rb)) ->
  fails (prologue s op (ue_of s id) p rb) -> fails (on_channel f1 has_f1_cxt s id ch none f).
Proof.
  intros Hr Hg Hp%prologue_quiet; [|done]. unfold on_channel, ue_of in *. pose proof (get_rlc_ue_time s id) as Ht.
  pose proof (callbacks_get s id) as Hcb. destruct (nr_rlc_manager_get_ue s id) as [s1 ue]. cbn [fst snd] in *. rewrite Hg. cbn [rbind]. rewrite Ht.
  destruct (rb_set_time (rl_time s) rb) as [[rb1 ev]|]; [|by eexists]. cbn [rbind] in *. rewrite Hcb.
  destruct (rlc_callbacks f1 has_f1_cxt s ue p ev); [by destruct Hp|by eexists].
Qed.

(** An SDU that is too long comes to nothing. *)
Lemma send_sdu_fails s op id clock p rb sdu sdu_id : (forall rb, op_recv op rb = Ok (rb, [])) -> place_fits p rb -> 0 < zlen sdu ->
  fails (prologue s op (ue_of s id) p rb) \/ NR_SDU_MAX < zlen sdu ->
  fails (send_sdu f1 has_f1_cxt (nr_rlc_manager_get_ue s id).1 clock id (ue_of s id) p rb sdu sdu_id).
Proof.
  intros Hr Hfit Hpos Hcase. unfold send_sdu. rewrite get_rlc_ue_time. destruct Hcase as [Hp%prologue_quiet|Hlong]; [|done|].
  - destruct (rb_set_time (rl_time s) rb) as [[rb1 ev]|]; [|by eexists]. cbn [rbind] in *. rewrite callbacks_get.
    destruct (rlc_callbacks f1 has_f1_cxt s _ p ev); [by destruct Hp|by eexists].
  - apply fails_cont. intros [rb1 ev] Hs. apply fails_cont. intros o _. apply fails_bind.
    destruct (rb_set_time_ok (rl_time s) rb (proj1 Hfit)) as [(rb' & ev' & Hs' & Hi & _)|[_ Hf]]; [|congruence].
    rewrite Hs in Hs'. injection Hs' as -> ->. pose proof (rb_recv_sdu_ok clock sdu sdu_id rb' Hi Hpos) as H.
    rewrite (proj2 (Z.ltb_lt _ _)) in H by done. by exists FExit.
Qed.

Lemma bearer_of_channel s id ch ue o :
  (let* o := get_rlc_entity_from_lcid (ue_of s id) ch in Ok (ue_of s id, o)) = Ok (ue, o) -> ue = ue_of s id /\ get_rlc_entity_from_lcid (ue_of s id) ch = Ok o.
Proof. by intros (x & -> & [= -> ->])%rbind_ok. Qed.

Lemma data_ind_fails s id ch buf p rb : get_rlc_entity_from_lcid (ue_of s (u16 id)) ch = Ok (Some (p, rb)) ->
  fails (prologue s (rop_data_ind id ch buf) (ue_of s (u16 id)) p rb) -> fails (nr_mac_rlc_data_ind f1 has_f1_cxt s id [(ch, buf)]).
Proof.
  intros Hg Hp. unfold nr_mac_rlc_data_ind, ue_of, prologue in *. pose proof (get_rlc_ue_time s (u16 id)) as Ht.
  pose proof (callbacks_get s (u16 id)) as Hcb. destruct (nr_rlc_manager_get_ue s (u16 id)) as [s1 ue]. cbn [fst snd data_ind_loop op_recv] in *.
  rewrite Hg. cbn [rbind]. rewrite Ht. destruct (rb_set_time (rl_time s) rb) as [[rb1 ev1]|]; [|by eexists]. cbn [rbind] in *.
  destruct (rb_recv_pdu buf rb1) as [[rb2 ev2]|]; [|by eexists]. cbn [rbind] in *. rewrite Hcb.
  destruct (rlc_callbacks f1 has_f1_cxt s ue p (ev1 ++ ev2)); [by destruct Hp|by eexists].
Qed.

Lemma found_fits r p rb : found_ok r -> r = Ok (Some (p, rb)) -> place_ok p /\ place_fits p rb.
Proof. intros (o & -> & Ho) [= ->]. by apply Ho. Qed.

(** The bearer of an operation in range is one of the table. *)
Lemma op_bearer_fits s op ue p rb : rlc_wf s -> rlc_op_ok s op -> is_timed op = true -> op_bearer s op = Ok (ue, Some (p, rb)) ->
  place_ok p /\ place_fits p rb.
Proof.
  intros Hwf Hok Ht Hb. assert (Hue : forall id, rlc_ue_wf (ue_of s id)) by (intros id; by apply get_rlc_ue_wf).
  destruct op; try done; simpl in Hok, Hb.
  1-4: apply bearer_of_channel in Hb as [_ Hg]; eapply found_fits; [|exact Hg]; apply channel_found; [done|].
  1-4: first [exact Hok|exact (proj1 Hok)].
  - apply rbind_ok in Hb as (o & Ho & [= _ ->]). eapply found_fits; [|exact Ho]. apply rb_of_place_found; [done|]. intros p'. by apply data_req_place_ok.
  - apply rbind_ok in Hb as (o & Ho & [= _ ->]). eapply (found_fits (rb_of_place _ (Some _))); [|exact Ho]. apply rb_of_place_found; [done|].
    intros p' [= <-]. destruct (Z.eqb_spec ch 0); simpl; [done|lia].
Qed.

Lemma timed_fails s op ue p rb : rlc_wf s -> rlc_op_ok s op -> is_timed op = true -> op_bearer s op = Ok (ue, Some (p, rb)) ->
  fails (prologue s op ue p rb) \/ NR_SDU_MAX < zlen (sdu_of op) -> fails (rlc_step f1 has_f1_cxt s op).
Proof.
  intros Hwf Hok Ht Hb Hcase. destruct (op_bearer_fits s op ue p rb Hwf Hok Ht Hb) as [_ Hfit].
  assert (Hshort : forall P, P \/ NR_SDU_MAX < zlen (@nil Z) -> P) by (intros P [?|H]; [done|by vm_compute in H]).
  destruct op; try done; cbn [op_bearer sdu_of rlc_op_ok] in *.
  1-4: apply Hshort in Hcase; apply bearer_of_channel in Hb as [-> Hg].
  - by eapply data_ind_fails.
  - apply fails_bind. by apply (on_channel_fails s (rop_multi_data_req clock ue_id ch tb_size buffer n) _ _ _ _ p rb).
  - apply fails_bind. by apply (on_channel_fails s (rop_mac_data_req clock ue_id ch tb_size buffer) _ _ _ _ p rb).
  - apply fails_bind. unfold nr_mac_rlc_status_ind. pose proof (get_ue_idem s (u16 ue_id)) as Hidem. pose proof (callbacks_get s (u16 ue_id)) as Hcb.
    pose proof (get_rlc_ue_time s (u16 ue_id)) as Htime. destruct (nr_rlc_manager_get_ue s (u16 ue_id)) as [s1 ue] eqn:Hs1. cbn [fst snd] in *.
    cbn [status_ind_loop]. apply fails_bind. unfold nr_rlc_status_ind. eapply on_channel_fails with (op := rop_status_ind ue_id ch); [done|..].
    + unfold ue_of in *. rewrite Hidem. by rewrite Hs1 in Hg.
    + unfold prologue, ue_of in *. rewrite Hidem, Htime. rewrite Hs1 in Hcase. cbn [snd] in *.
      destruct (rb_set_time (rl_time s) rb) as [[rb1 ev1]|]; [|by eexists]. cbn [rbind op_recv] in *. by rewrite Hcb.
  - apply rbind_ok in Hb as (o & Ho & [= <- ->]). unfold nr_rlc_data_req, ue_of in *.
    pose proof (send_sdu_fails s (rop_data_req clock ctxt srb_flag rb_id mui sdu) (s32 (cx_rntiMaybeUEid ctxt)) clock p rb sdu mui) as H.
    unfold ue_of in H. cbn [rlc_step]. unfold nr_rlc_data_req. destruct (nr_rlc_manager_get_ue s _) as [s1 ue]. cbn [fst snd] in *. rewrite Ho. cbn [rbind]. by apply H.
  - apply rbind_ok in Hb as (o & Ho & [= <- ->]). cbn [rlc_step]. unfold nr_rlc_srb_recv_sdu, ue_of in *.
    pose proof (send_sdu_fails s (rop_srb_recv_sdu clock ue_id ch sdu) ue_id clock p rb sdu (-1)) as H.
    unfold ue_of in H. destruct (nr_rlc_manager_get_ue s ue_id) as [s1 ue]. cbn [fst snd rb_of_place] in *.
    apply rbind_ok in Ho as (o & Ho & Hsome). rewrite Ho. cbn [rbind]. destruct o as [rb'|]; [|done]. injection Hsome as <- <-. apply H; try done. apply Hok.
Qed.

(** Wherever [rlc_stop] holds the operation does not come back. *)
Lemma rlc_stop_fails s op f : rlc_wf s -> rlc_op_ok s op -> rlc_stop f1 has_f1_cxt s op f -> fails (rlc_step f1 has_f1_cxt s op).
Proof.
  intros Hwf Hok. destruct 1 as [op ue p rb Ht Hb Hc|op ue p rb evs f Ht Hb Hev Hc|id ch buf ue p rb rb1 ev Hb Hs Hw|op ue p rb Ht Hb Hl
    |clock id ch sdu ue Hb|id ch c ue Hb|id ue Hb|op Hr].
  - destruct (op_bearer_fits s op ue p rb Hwf Hok Ht Hb) as [_ [Hinv _]]. eapply timed_fails; try done. left. apply fails_bind.
    destruct rb as [h e|h e|h e]; try done. pose proof (am_set_time_ok h e (rl_time s) Hinv) as H. simpl in Hc. rewrite Hc in H.
    exists FBounds. unfold rb_set_time, rb_call. by rewrite H.
  - destruct (op_bearer_fits s op ue p rb Hwf Hok Ht Hb) as [Hp _]. eapply timed_fails; try done. left. unfold op_events, prologue in *.
    destruct (rb_set_time (rl_time s) rb) as [[rb1 ev1]|]; [|done]. cbn [rbind] in *. destruct (op_recv op rb1) as [[rb2 ev2]|]; [|done].
    cbn [rbind] in *. injection Hev as ->. apply fails_bind. by eapply callback_stop_fails.
  - destruct (op_bearer_fits s _ ue p rb Hwf Hok eq_refl Hb) as [_ [Hinv _]]. eapply timed_fails; try done. left. unfold prologue. rewrite Hs. cbn [rbind op_recv].
    apply fails_bind. destruct (rb_set_time_ok (rl_time s) rb Hinv) as [(rb' & ev' & Hs' & Hi & _)|[_ Hf]]; [|congruence].
    rewrite Hs in Hs'. injection Hs' as -> ->. destruct rb' as [h e|h e|h e]; try done. exists FFuel. unfold rb_recv_pdu, rb_call. by rewrite am_recv_pdu_hangs.
  - eapply timed_fails; try done. by right.
  - apply rbind_ok in Hb as (o & Ho & [= <- ->]). cbn [rlc_step rb_of_place] in *. unfold nr_rlc_srb_recv_sdu, ue_of in *.
    destruct (nr_rlc_manager_get_ue s id) as [s1 ue]. cbn [fst snd] in *. apply rbind_ok in Ho as (o & Ho & Hnone). rewrite Ho. cbn [rbind].
    destruct o; [done|]. by exists FExit.
  - apply bearer_of_channel in Hb as [_ Hg]. cbn [rlc_step]. apply fails_bind. unfold nr_rlc_reconfigure_entity, ue_of in *.
    destruct (nr_rlc_manager_get_ue s id) as [s1 ue']. cbn [fst snd] in *. rewrite Hg. by exists FBounds.
  - apply rbind_ok in Hb as (o & Ho & [= <- ->]). cbn [rlc_step rb_of_place] in *. apply fails_bind. unfold nr_rlc_test_trigger_reestablishment, ue_of in *.
    destruct (nr_rlc_manager_get_ue s id) as [s1 ue]. cbn [fst snd] in *. apply rbind_ok in Ho as (o & Ho & Hnone). rewrite Ho. cbn [rbind].
    destruct o; [done|]. by exists FBounds.
  - destruct Hr as [id ch c ue p rb Hb Hr|id srb c Hr|id drb c Hr]; cbn [rlc_step]; apply fails_bind.
    + apply bearer_of_channel in Hb as [_ Hg]. unfold nr_rlc_reconfigure_entity, ue_of in *.
      destruct (nr_rlc_manager_get_ue s id) as [s1 ue']. cbn [fst snd] in *. rewrite Hg. cbn [rbind of_opt].
      pose proof (decides_reconfigure c rb) as H. rewrite Hr in H. apply fails_bind. by exists FExit.
    + pose proof (add_srb_decides s id srb c Hwf Hok) as H. rewrite Hr in H. by exists FExit.
    + destruct Hok as [Hok Hc]. pose proof (add_drb_decides s id drb c Hwf Hok Hc) as H. rewrite Hr in H. by exists FExit.
Qed.

End Stops.

(** ** Every sequence of operations *)

Section Trace.
Context (f1 : f1_ids) (has_f1_cxt : bool).

(** C5. The table stays well formed through every sequence of operations of MAC,
    PDCP, RRC and the tick, on any number of UEs: no operation leaves an object,
    all loops end, and the sequence runs to its end if, and only if, no
    operation of it meets one of the conditions of [rlc_stop]: the poll timer
    that finds nothing to send again, the PDU on which a full window hangs, an
    event whose callback finds no SRB 3 or no context of F1, an SDU longer than
    16000 bytes, a missing bearer, and a configuration that an assertion refuses.
    [rlc_op_ok] is what is asked of the callers and of the peer: channels from 0
    to 32, non-empty SDUs, grants no longer than their buffers, PDUs from the
    air that acknowledge nothing that was never sent (any other PDU may come,
    well formed or not), configurations of new bearers that name the SN lengths,
    and reconfigurations that keep the SN length of the bearer. *)
Theorem rlc_trace_safe ops : forall s, rlc_wf s -> rlc_run_ok f1 has_f1_cxt s ops ->
  (exists s' outs, rlc_run f1 has_f1_cxt s ops = Ok (s', outs) /\ rlc_wf s' /\
     forall pre op post s1 o f, ops = pre ++ op :: post -> rlc_run f1 has_f1_cxt s pre = Ok (s1, o) -> ~ rlc_stop f1 has_f1_cxt s1 op f) \/
  (exists pre op post s1 outs f, ops = pre ++ op :: post /\ rlc_run f1 has_f1_cxt s pre = Ok (s1, outs) /\ rlc_wf s1 /\
     rlc_stop f1 has_f1_cxt s1 op f /\ rlc_step f1 has_f1_cxt s1 op = Fail f /\ rlc_run f1 has_f1_cxt s ops = Fail f).
Proof.
  induction ops as [|op ops IH]; intros s Hwf Hok; [left; eexists _, _; split_and!; [done|done|by intros []]|]. destruct Hok as [Hop Hok].
  pose proof (rlc_step_ok f1 has_f1_cxt s op Hwf Hop) as Hstep. cbn [rlc_run].
  destruct (rlc_step f1 has_f1_cxt s op) as [[s1 o1]|f] eqn:Hs; cbn [rbind].
  - destruct (IH s1 Hstep Hok) as [(s' & o & -> & Hwf' & Hno)|(pre & op' & post & s2 & o & f & -> & Hpre & Hwf2 & Hst & Hf & ->)].
    + left. eexists _, _. split_and!; [done|done|]. intros [|op2 pre] op' post s2 o2 f Heq Hpre Hst.
      * injection Heq as <- <-. injection Hpre as <- <-. destruct (rlc_stop_fails f1 has_f1_cxt s op f Hwf Hop Hst) as [f' Hf]. congruence.
      * injection Heq as <- ->. cbn [rlc_run] in Hpre. rewrite Hs in Hpre. cbn [rbind] in Hpre. apply rbind_ok in Hpre as ([s3 o3] & Hpre & [= -> _]).
        exact (Hno pre op' post s2 o3 f eq_refl Hpre Hst).
    + right. exists (op :: pre), op', post, s2, (o1 ++ o), f. split_and!; try done. cbn [app rlc_run]. rewrite Hs. cbn [rbind]. by rewrite Hpre.
  - right. exists [], op, ops, s, [], f. by split_and!.
Qed.

End Trace.

(** A UE in the mode of a UE with SRB 3 in AM, an SDU on it and its PDU. *)
Definition demo_am : NR_RLC_Config__am := mk_RLC_Config_am (Some 0) 10 0 (Some 0) 5 23 43 3.
Definition demo_srb3 : list rlc_op :=
  [rop_add_srb 5 3 (mk_RLC_BearerConfig 3 (Some (served_srb 3)) (Some (RLC_Config_am demo_am)));
   rop_srb_recv_sdu 0 5 3 [1; 2; 3]; rop_ms_tick; rop_mac_data_req 0 5 3 20 (replicate 20 0)].

Lemma rlc_trace_safe_witness :
  exists s outs, rlc_run (mk_f1_ids None None) false (new_nr_rlc_ue_manager NR_RLC_OP_MODE_UE) demo_srb3 = Ok (s, outs) /\ rlc_wf s.
Proof.
  destruct (rlc_trace_safe (mk_f1_ids None None) false demo_srb3 (new_nr_rlc_ue_manager NR_RLC_OP_MODE_UE)) as [(s & o & H & Hwf & _)|(pre & op & post & s1 & o & f & _ & _ & _ & _ & _ & H)].
  - constructor.
  - repeat (split; [|exact I]).
    assert (bearer_config_ok (mk_RLC_BearerConfig 3 (Some (served_srb 3)) (Some (RLC_Config_am demo_am)))).
    { unfold bearer_config_ok, place_ok. simpl. split_and!; try lia; by eexists. }
    split; [done|]. vm_compute. done.
  - exists s, o. split; [exact H|exact Hwf].
  - by vm_compute in H.
Defined.

(** ** An acknowledgement on SRB 3 *)

Section Srb3.
Context (f1 : f1_ids) (has_f1_cxt : bool).

Lemma srb3_callback s ue ev : (forall buf, ev <> deliver_sdu buf) -> rlc_callback f1 has_f1_cxt s ue (PSrb 3) ev = Fail FExit.
Proof. destruct ev; simpl; [|done..]. intros H. by destruct (H buf). Qed.

Lemma srb3_callbacks s ue evs id : sdu_successful_delivery id ∈ evs ->
  exists f, rlc_callbacks f1 has_f1_cxt s ue (PSrb 3) evs = Fail f /\ (nr_rlc_manager_get_gnb_flag s = false -> f = FExit).
Proof.
  induction evs as [|ev evs IH]; intros Hin; [by apply elem_of_nil in Hin|]. cbn [rlc_callbacks].
  destruct (rlc_callback f1 has_f1_cxt s ue (PSrb 3) ev) as [o|f] eqn:Hev; cbn [rbind].
  - apply elem_of_cons in Hin as [<-|Hin]; [by rewrite srb3_callback in Hev|]. destruct (IH Hin) as (f & -> & Hf). by exists f.
  - exists f. split; [done|]. intros Hg. destruct ev; simpl in Hev; [|by injection Hev..].
    unfold rlc_deliver_sdu in Hev. by rewrite Hg in Hev.
Qed.

(** C34. The callbacks look for the bearer among SRBs 1 and 2 only, although there
    are three: when a PDU arrives by which the peer acknowledges an SDU of SRB
    3, the process does not come back. *)
Theorem rlc_srb3_ack_kills s ue_id ch buf rb rb1 ev1 rb2 ev2 id : let ue := ue_of s (u16 ue_id) in
  get_rlc_entity_from_lcid ue ch = Ok (Some (PSrb 3, rb)) -> rb_set_time (rl_time s) rb = Ok (rb1, ev1) ->
  rb_recv_pdu buf rb1 = Ok (rb2, ev2) -> sdu_successful_delivery id ∈ ev2 ->
  exists f, nr_mac_rlc_data_ind f1 has_f1_cxt s ue_id [(ch, buf)] = Fail f /\ (nr_rlc_manager_get_gnb_flag s = false -> f = FExit).
Proof.
  unfold ue_of, nr_mac_rlc_data_ind. intros Hg Ht Hr Hid. pose proof (get_rlc_ue_time s (u16 ue_id)) as Htime.
  assert (Hmode : nr_rlc_manager_get_gnb_flag (nr_rlc_manager_get_ue s (u16 ue_id)).1 = nr_rlc_manager_get_gnb_flag s).
  { unfold nr_rlc_manager_get_ue. by destruct (find_rlc_ue _ _). }
  destruct (nr_rlc_manager_get_ue s (u16 ue_id)) as [s1 ue]. cbn [fst snd] in *. cbn [data_ind_loop].
  rewrite Hg. cbn [rbind]. rewrite Htime, Ht. cbn [rbind]. rewrite Hr. cbn [rbind].
  destruct (srb3_callbacks s1 ue (ev1 ++ ev2) id) as (f & -> & Hf); [set_solver|]. exists f. split; [done|]. by rewrite <- Hmode.
Qed.

End Srb3.

Definition demo_state : rlc_t :=
  match rlc_run (mk_f1_ids None None) false (new_nr_rlc_ue_manager NR_RLC_OP_MODE_UE) demo_srb3 with
  | Ok (s, _) => s
  | Fail _ => new_nr_rlc_ue_manager NR_RLC_OP_MODE_UE
  end.

(** The status PDU with ACK_SN 1. *)
Lemma rlc_srb3_ack_kills_witness :
  exists f, nr_mac_rlc_data_ind (mk_f1_ids None None) false demo_state 5 [(3, [0; 1; 0])] = Fail f /\
    (nr_rlc_manager_get_gnb_flag demo_state = false -> f = FExit).
Proof.
  eapply (rlc_srb3_ack_kills (mk_f1_ids None None) false demo_state 5 3 [0; 1; 0] _ _ _ _ _ (-1));
    [vm_compute; reflexivity..|]. by left.
Defined.
