(* ===== verification/L2Stack.v ===== *)
(** The user plane down to the air: SDAP, PDCP and a UM bearer of RLC at both
    ends, each through the interface that the code offers to the layer above and
    to MAC, over a channel that loses nothing and keeps the order. *)

From S2P Require Import Prelude RlcPdu RlcSdu TimeStat RlcEntity RlcTm RlcUm RlcUmRx RlcUmTx RlcUmEntity RlcUmSync RlcUmLink RlcAm.
From S2P Require Import Pdcp PdcpRx Sdap SdapSpec Hashtable F1apIds PdcpApi PdcpApiInv L2Props.
From S2P Require Import RlcApi RlcApiInv RlcApiSteps RlcApiProps.

(** ** A UM bearer in the table of RLC *)

(** The UE [ue_id] has the DRB [k] on channel [ch]. *)
Definition has_um (s : rlc_t) (ue_id ch k : Z) (h : rlc_heap) (e : nr_rlc_entity_um) : Prop :=
  exists ue, find_rlc_ue (rl_ues s) ue_id = Some ue /\ get_rlc_entity_from_lcid ue ch = Ok (Some (PDrb k, RbUm h e)).

Section Bearer.
Context (f1 : f1_ids) (has_f1_cxt : bool).
Implicit Types (s : rlc_t) (ue : nr_rlc_ue_t).

Lemma get_ue_some s id ue : find_rlc_ue (rl_ues s) id = Some ue -> nr_rlc_manager_get_ue s id = (s, ue).
Proof. intros H. unfold nr_rlc_manager_get_ue. by rewrite H. Qed.

Lemma arr_get_inv {A} (l : list A) i x : arr_get l i = Ok x -> 0 <= i /\ l !! Z.to_nat i = Some x.
Proof.
  unfold arr_get. destruct (Z.ltb_spec i 0); [done|]. destruct (l !! Z.to_nat i) as [y|]; [|done]. intros [= ->]. by split.
Qed.

Lemma drb_found ue ch k rb : get_rlc_entity_from_lcid ue ch = Ok (Some (PDrb k, rb)) -> place_get ue (PDrb k) = Ok (Some rb).
Proof.
  unfold get_rlc_entity_from_lcid. intros ([p|] & _ & H)%rbind_ok; [|done]. apply rbind_ok in H as ([rb'|] & Hg & H); [|done].
  injection H as -> ->. exact Hg.
Qed.

(** A bearer that is replaced is found again on its channel. *)
Lemma drb_replaced ue ch k rb rb' : get_rlc_entity_from_lcid ue ch = Ok (Some (PDrb k, rb)) ->
  get_rlc_entity_from_lcid (place_set ue (PDrb k) (Some rb')) ch = Ok (Some (PDrb k, rb')).
Proof.
  intros Hg. pose proof (drb_found _ _ _ _ Hg) as Hp. cbn [place_get] in Hp. apply arr_get_inv in Hp as [Hk Hl].
  apply lookup_lt_Some in Hl. unfold get_rlc_entity_from_lcid in *. change (lcid_place (place_set ue (PDrb k) (Some rb')) ch) with (lcid_place ue ch).
  apply rbind_ok in Hg as ([p|] & Hlc & H); [|done]. apply rbind_ok in H as ([x|] & _ & H); [|done]. injection H as -> ->.
  rewrite Hlc. cbn [rbind place_get place_set ru_drb]. unfold arr_get. rewrite (proj2 (Z.ltb_ge _ _)) by done.
  by rewrite list_lookup_insert_eq.
Qed.

Lemma has_um_put s id ch k ue h e h' e' : find_rlc_ue (rl_ues s) id = Some ue -> get_rlc_entity_from_lcid ue ch = Ok (Some (PDrb k, RbUm h e)) ->
  has_um (put_rlc s id (place_set ue (PDrb k) (Some (RbUm h' e')))) id ch k h' e'.
Proof.
  intros Hf Hg. eexists. split; [|by eapply drb_replaced]. cbn [put_rlc rl_ues]. apply find_put_same; [by rewrite Hf|].
  rewrite place_set_id. by destruct (find_rlc_some _ _ _ Hf).
Qed.

(** What [put_rlc] leaves of the manager. *)
Definition same_manager (s s' : rlc_t) : Prop := rl_time s' = rl_time s /\ rl_mode s' = rl_mode s.

(** *** The three operations of the user plane *)

Lemma um_data_req s clock ctxt k mui sdu id ch h e e1 h2 e2 :
  s32 (cx_rntiMaybeUEid ctxt) = id -> 1 <= k <= MAX_DRBS_PER_UE -> has_um s id ch k h e ->
  nr_rlc_entity_um_set_time e (rl_time s) = Ok e1 -> nr_rlc_entity_um_recv_sdu h e1 clock sdu (zlen sdu) mui = Ok (h2, e2) ->
  exists s', nr_rlc_data_req f1 has_f1_cxt s clock ctxt false k mui sdu = Ok (s', []) /\ has_um s' id ch k h2 e2 /\ same_manager s s'.
Proof.
  intros Hid Hk (ue & Hf & Hg) Ht Hr. unfold nr_rlc_data_req. rewrite Hid, (get_ue_some _ _ _ Hf).
  assert (data_req_place false k MAX_DRBS_PER_UE = Some (PDrb k)) as -> by (unfold data_req_place; destruct (_ && _) eqn:Hb; [done|lia]).
  cbn [rb_of_place]. rewrite (drb_found _ _ _ _ Hg). cbn [rbind]. unfold send_sdu, rb_set_time, rb_recv_sdu, rb_call.
  change (set_time h e (rl_time s)) with (let* e := nr_rlc_entity_um_set_time e (rl_time s) in Ok (h, e, @nil event)).
  rewrite Ht. cbn [rbind rlc_callbacks]. change recv_sdu with nr_rlc_entity_um_recv_sdu. rewrite Hr. cbn [rbind].
  eexists. split; [done|]. split; [by eapply has_um_put|done].
Qed.

Lemma um_mac_data_req s clock ue_id ch size buffer k h e e1 h2 e2 b ret :
  has_um s (u16 ue_id) ch k h e -> nr_rlc_entity_um_set_time e (rl_time s) = Ok e1 ->
  nr_rlc_entity_um_generate_pdu h e1 clock buffer size = Ok (h2, e2, b, ret) ->
  exists s', nr_mac_rlc_data_req f1 has_f1_cxt s clock ue_id ch size buffer = Ok (s', (b, ret), []) /\
    has_um s' (u16 ue_id) ch k h2 e2 /\ same_manager s s'.
Proof.
  intros (ue & Hf & Hg) Ht Hr. unfold nr_mac_rlc_data_req, on_channel. rewrite (get_ue_some _ _ _ Hf), Hg. cbn [rbind].
  unfold rb_set_time, rb_generate_pdu, rb_call.
  change (set_time h e (rl_time s)) with (let* e := nr_rlc_entity_um_set_time e (rl_time s) in Ok (h, e, @nil event)).
  rewrite Ht. cbn [rbind rlc_callbacks]. change generate_pdu with nr_rlc_entity_um_generate_pdu. rewrite Hr. cbn [rbind].
  eexists. split; [done|]. split; [by eapply has_um_put|done].
Qed.

Lemma um_callbacks s ue k ctx del :
  (forall buf, rlc_deliver_sdu f1 has_f1_cxt s ue false k buf = Ok [ToPdcpInd ctx false k buf]) ->
  rlc_callbacks f1 has_f1_cxt s ue (PDrb k) (map deliver_sdu del) = Ok (map (ToPdcpInd ctx false k) del).
Proof. intros Hd. induction del as [|d del IH]; [done|]. cbn [map rlc_callbacks rlc_callback]. rewrite Hd. cbn [rbind]. rewrite IH. done. Qed.

Lemma um_data_ind s ue_id ch k h e e1 e2 pdu del ctx :
  has_um s (u16 ue_id) ch k h e -> nr_rlc_entity_um_set_time e (rl_time s) = Ok e1 ->
  nr_rlc_entity_um_recv_pdu e1 pdu = Ok (e2, map deliver_sdu del) ->
  (forall ue buf, ru_ue_id ue = u16 ue_id -> rlc_deliver_sdu f1 has_f1_cxt s ue false k buf = Ok [ToPdcpInd ctx false k buf]) ->
  exists s', nr_mac_rlc_data_ind f1 has_f1_cxt s ue_id [(ch, pdu)] = Ok (s', map (ToPdcpInd ctx false k) del) /\
    has_um s' (u16 ue_id) ch k h e2 /\ same_manager s s'.
Proof.
  intros (ue & Hf & Hg) Ht Hr Hd. unfold nr_mac_rlc_data_ind. rewrite (get_ue_some _ _ _ Hf). cbn [data_ind_loop]. rewrite Hg. cbn [rbind].
  unfold rb_set_time, rb_recv_pdu, rb_call.
  change (set_time h e (rl_time s)) with (let* e := nr_rlc_entity_um_set_time e (rl_time s) in Ok (h, e, @nil event)).
  rewrite Ht. cbn [rbind]. change (recv_pdu h e1 pdu) with (let* (e, ev) := nr_rlc_entity_um_recv_pdu e1 pdu in Ok (h, e, ev)).
  rewrite Hr. cbn [rbind app]. rewrite (um_callbacks s ue k ctx) by (intros buf; apply Hd; by destruct (find_rlc_some _ _ _ Hf)).
  cbn [rbind]. rewrite app_nil_r. eexists. split; [done|]. split; [by eapply has_um_put|done].
Qed.

(** The mode of the manager and the identifiers of F1 make the RLC of the UE
    [id] address the PDCP of [pdcp_id] in the same process. *)
Definition delivers_to s (id pdcp_id : Z) : Prop :=
  match rl_mode s with
  | NR_RLC_OP_MODE_UE => pdcp_id = id
  | NR_RLC_OP_MODE_MONO_GNB => exists data, du_get_f1_ue_data f1 id = Ok data /\ secondary_ue data = pdcp_id
  | NR_RLC_OP_MODE_SPLIT_GNB => False
  end.

Lemma delivers_to_ok s id pdcp_id : delivers_to s id pdcp_id -> exists gnb, forall k ue buf, ru_ue_id ue = id ->
  rlc_deliver_sdu f1 has_f1_cxt s ue false k buf = Ok [ToPdcpInd (mk_ctxt 0 0 0 0 gnb pdcp_id) false k buf].
Proof.
  unfold delivers_to, rlc_deliver_sdu, nr_rlc_manager_get_gnb_flag, nr_rlc_manager_rlc_is_split. intros Hd. destruct (rl_mode s); [done| |].
  - destruct Hd as (data & Hg & <-). exists true. intros k ue buf ->. by rewrite Hg.
  - subst pdcp_id. exists false. by intros k ue buf ->.
Qed.

End Bearer.

(** ** Single operations of the link *)

Section Link.
Implicit Types (l : um_link) (todo : list bytes).

Lemma link_tx_time_ok e0 l todo now : um_link_inv e0 l todo -> exists e, nr_rlc_entity_um_set_time (lk_tx l) now = Ok e /\
  um_link_inv e0 {| l with lk_tx := e |} todo /\ available_tx_space e = available_tx_space (lk_tx l).
Proof.
  intros Hinv. destruct (link_step_ok e0 l todo (link_tx_time now) Hinv I) as (l' & acc & del & todo' & Hs & Hinv' & Heq & _). cbn [link_step] in Hs.
  change (set_time (lk_heap l) (lk_tx l) now) with (let* e := nr_rlc_entity_um_set_time (lk_tx l) now in Ok (lk_heap l, e, @nil event)) in Hs.
  destruct (nr_rlc_entity_um_set_time (lk_tx l) now) as [e|] eqn:He; [|done]. cbn [rbind] in Hs. injection Hs as <- <- <-.
  exists e. split; [done|]. rewrite app_nil_r in Heq. subst todo. split; [by destruct l|].
  pose proof (set_time_tx _ _ _ He) as Hp. unfold um_tx_part in Hp. change available_tx_space with nr_rlc_entity_um_available_tx_space.
  unfold nr_rlc_entity_um_available_tx_space. congruence.
Qed.

Lemma link_rx_time_ok e0 l todo now : um_link_inv e0 l todo -> exists e, nr_rlc_entity_um_set_time (lk_rx l) now = Ok e /\
  um_link_inv e0 {| l with lk_rx := e |} todo.
Proof.
  intros Hinv. destruct (link_step_ok e0 l todo (link_rx_time now) Hinv I) as (l' & acc & del & todo' & Hs & Hinv' & Heq & _). cbn [link_step] in Hs.
  change (set_time heap_empty (lk_rx l) now) with (let* e := nr_rlc_entity_um_set_time (lk_rx l) now in Ok (heap_empty, e, @nil event)) in Hs.
  destruct (nr_rlc_entity_um_set_time (lk_rx l) now) as [e|] eqn:He; [|done]. cbn [rbind] in Hs. injection Hs as <- <- <-.
  exists e. split; [done|]. rewrite app_nil_r in Heq. subst todo. by destruct l.
Qed.

(** An SDU for which there is room. *)
Lemma link_sdu_room e0 l todo now sdu id : um_link_inv e0 l todo -> 0 < zlen sdu <= NR_SDU_MAX -> zlen sdu <= available_tx_space (lk_tx l) ->
  exists h e, nr_rlc_entity_um_recv_sdu (lk_heap l) (lk_tx l) now sdu (zlen sdu) id = Ok (h, e) /\
    um_link_inv e0 {| l with lk_heap := h; lk_tx := e |} (todo ++ [sdu]).
Proof.
  intros Hinv Hsz Hroom. destruct (link_step_ok e0 l todo (link_sdu now sdu id) Hinv Hsz) as (l' & acc & del & todo' & Hs & Hinv' & Heq & _).
  cbn [link_step] in Hs. change recv_sdu with nr_rlc_entity_um_recv_sdu in Hs. rewrite (proj2 (Z.leb_le _ _) Hroom) in Hs.
  destruct (nr_rlc_entity_um_recv_sdu _ _ _ _ _ _) as [[h e]|] eqn:He; [|done]. cbn [rbind] in Hs. injection Hs as <- <- <-.
  exists h, e. split; [done|]. simpl in Heq. subst todo'. by destruct l.
Qed.

Lemma link_grant_pdu e0 l todo now buffer size : um_link_inv e0 l todo -> size <= zlen buffer -> size <> 2 ->
  exists h e b ret, nr_rlc_entity_um_generate_pdu (lk_heap l) (lk_tx l) now buffer size = Ok (h, e, b, ret) /\
    um_link_inv e0 {| l with lk_heap := h; lk_tx := e; lk_air := lk_air l ++ if 0 <? ret then [take (Z.to_nat ret) b] else [] |} todo.
Proof.
  intros Hinv Hsz Hno. destruct (link_grant_ok e0 l todo now buffer size Hinv Hsz (fun _ => Hno)) as (l' & Hs & Hinv' & _). cbn [link_step] in Hs.
  change generate_pdu with nr_rlc_entity_um_generate_pdu in Hs. destruct (nr_rlc_entity_um_generate_pdu _ _ _ _ _) as [[[[h e] b] ret]|] eqn:He; [|done].
  cbn [rbind] in Hs. injection Hs as <-. exists h, e, b, ret. split; [done|]. by destruct l.
Qed.

End Link.

(** ** The stack *)

(** The UE identifiers in the RLC of both ends, the channel of the bearer, and
    what the RLC processes know of F1. *)
Record stack_setup := mk_stack_setup {
  ss_tx : Z; ss_rx : Z; ss_ch : Z;
  ss_f1_tx : f1_ids; ss_f1_rx : f1_ids;
  ss_cxt_tx : bool; ss_cxt_rx : bool
}.

(** The two ends, and the PDUs that are on their way, in order. *)
Record stack := mk_stack { sk_tx : l2_t; sk_rlc_tx : rlc_t; sk_air : list bytes; sk_rlc_rx : rlc_t; sk_rx : l2_t }.

(** A packet for SDAP, a grant of MAC, the arrival of the first PDU on its way,
    and the ticks of both ends. *)
Inductive stack_op :=
| stk_packet (clock : Z) (sdu : bytes) (rqi : bool)
| stk_grant (clock : Z) (buffer : bytes) (size : Z)
| stk_arrive
| stk_tx_tick
| stk_rx_tick.

Section Stack.
Context (kc mac : Z -> bytes -> Z -> Z -> Z -> bytes -> bytes).
Context (fs : flow_setup) (ss : stack_setup).

(** What PDCP gives to RLC, and RLC to PDCP. *)
Fixpoint to_rlc (s : rlc_t) (clock : Z) (outs : list l2_out) : res rlc_t :=
  match outs with
  | [] => Ok s
  | OutRlc enb_flag rnti srb_flag rb_id mui pdu :: outs' =>
      let* (s, _) := nr_rlc_data_req (ss_f1_tx ss) (ss_cxt_tx ss) s clock (mk_ctxt 0 0 0 0 enb_flag rnti) srb_flag rb_id mui pdu in
      to_rlc s clock outs'
  | _ :: outs' => to_rlc s clock outs'
  end.

Fixpoint to_pdcp (s : l2_t) (outs : list rlc_out) : res (l2_t * list l2_out) :=
  match outs with
  | [] => Ok (s, [])
  | ToPdcpInd ctx is_srb rb_id pdu :: outs' =>
      let* (s, o1) := do_pdcp_data_ind kc mac (fs_mode_rx fs) s ctx is_srb rb_id pdu in
      let* (s, o2) := to_pdcp s outs' in Ok (s, o1 ++ o2)
  | _ :: outs' => to_pdcp s outs'
  end.

Definition stack_step (s : stack) (op : stack_op) : res (stack * list l2_out) :=
  match op with
  | stk_packet clock sdu rqi =>
      let* (sT, (_, o)) := l2_data_req kc mac (fs_mode_tx fs) (sk_tx s) (sdap_ctxt (fs_ue_tx fs)) (fs_pdu_tx fs) (fs_mui fs) sdu (fs_qfi fs) rqi in
      let* rlc := to_rlc (sk_rlc_tx s) clock o in
      Ok ({| s with sk_tx := sT; sk_rlc_tx := rlc |}, [])
  | stk_grant clock buffer size =>
      let* (rlc, (b, ret), _) := nr_mac_rlc_data_req (ss_f1_tx ss) (ss_cxt_tx ss) (sk_rlc_tx s) clock (ss_tx ss) (ss_ch ss) size buffer in
      Ok ({| s with sk_rlc_tx := rlc; sk_air := sk_air s ++ if 0 <? ret then [take (Z.to_nat ret) b] else [] |}, [])
  | stk_arrive =>
      match sk_air s with
      | [] => Ok (s, [])
      | pdu :: air =>
          let* (rlc, o) := nr_mac_rlc_data_ind (ss_f1_rx ss) (ss_cxt_rx ss) (sk_rlc_rx s) (ss_rx ss) [(ss_ch ss, pdu)] in
          let* (sR, outs) := to_pdcp (sk_rx s) o in
          Ok ({| s with sk_air := air; sk_rlc_rx := rlc; sk_rx := sR |}, outs)
      end
  | stk_tx_tick => Ok ({| s with sk_rlc_tx := nr_rlc_ms_tick (sk_rlc_tx s) |}, [])
  | stk_rx_tick => Ok ({| s with sk_rlc_rx := nr_rlc_ms_tick (sk_rlc_rx s) |}, [])
  end.

Fixpoint stack_run (s : stack) (ops : list stack_op) : res (stack * list l2_out) :=
  match ops with
  | [] => Ok (s, [])
  | op :: ops' =>
      let* (s1, o1) := stack_step s op in
      let* (s2, o2) := stack_run s1 ops' in
      Ok (s2, o1 ++ o2)
  end.

(** Packets of a size that SDAP takes, for which RLC has room with the eight
    bytes that SDAP and PDCP add; grants that fit in their buffer, but not of
    two bytes, which lose an SDU. *)
Definition stack_op_ok (s : stack) (op : stack_op) : bool :=
  match op with
  | stk_packet _ sdu _ => (1 <=? zlen sdu) && (zlen sdu <=? 8999) &&
      match nr_rlc_get_available_tx_space (sk_rlc_tx s) (ss_tx ss) (ss_ch ss) with Ok (_, room) => zlen sdu + 8 <=? room | Fail _ => true end
  | stk_grant _ buffer size => (size <=? zlen buffer) && negb (size =? 2)
  | _ => true
  end.

Fixpoint stack_run_ok (s : stack) (ops : list stack_op) : bool :=
  match ops with
  | [] => true
  | op :: ops' => stack_op_ok s op && match stack_step s op with Ok (s', _) => stack_run_ok s' ops' | Fail _ => true end
  end.

Definition packets (op : stack_op) : list bytes := match op with stk_packet _ sdu _ => [sdu] | _ => [] end.

(** The identifiers of PDCP, RLC and F1 fit together. *)
Record stack_setup_ok : Prop := {
  so_flow : setup_ok fs;
  so_drb : 1 <= fs_drb fs <= MAX_DRBS_PER_UE;
  so_du : node_is_cu (fs_mode_tx fs) = false;
  so_tx : (if fs_up fs then fs_ue_tx fs else secondary_ue (fs_f1 fs)) = ss_tx ss;
  so_tx_range : 0 <= ss_tx ss < 2 ^ 16;
  so_rx_range : 0 <= ss_rx ss < 2 ^ 16
}.

(** Nothing waits to be sent on the bearer. *)
Definition nothing_waits (s : rlc_t) : Prop := exists h e, has_um s (ss_tx ss) (ss_ch ss) (fs_drb fs) h e /\ sl_list (um_tx e) = [].

(** The two ends are set up alike and nothing is on its way. *)
Record stack_ready (n : Z) (s : stack) : Prop := {
  sr_linked : linked fs (sk_tx s) (sk_rx s) n;
  sr_air : sk_air s = [];
  sr_rlc : exists sn rxm1 txm1 t1 e1 rxm2 txm2 t2 e2,
    new_nr_rlc_entity_um rxm1 txm1 t1 sn = Ok e1 /\ new_nr_rlc_entity_um rxm2 txm2 t2 sn = Ok e2 /\ NR_SDU_MAX <= rxm2 /\
    has_um (sk_rlc_tx s) (ss_tx ss) (ss_ch ss) (fs_drb fs) heap_empty e1 /\
    exists h, has_um (sk_rlc_rx s) (ss_rx ss) (ss_ch ss) (fs_drb fs) h e2;
  sr_delivers : delivers_to (ss_f1_rx ss) (sk_rlc_rx s) (ss_rx ss) (fs_ue_rx fs)
}.

(** *** PDUs on their way *)

Context (cipher_length : forall alg key count bearer dir msg, length (kc alg key count bearer dir msg) = length msg).
Context (mac_length : forall alg key count bearer dir msg, length (mac alg key count bearer dir msg) = 4%nat).
Context (cipher_involutive : forall alg key count bearer dir msg, kc alg key count bearer dir (kc alg key count bearer dir msg) = msg).

Definition rx_side (e : nr_pdcp_entity) : Prop := pe_is_gnb e = fs_up fs /\ pe_pdusession_id e = fs_pdu_rx fs.

(** The PDUs that take the receiving entity to where the sending one is, with
    the packets in them. *)
Inductive flight (eT : nr_pdcp_entity) : nr_pdcp_entity -> list bytes -> list bytes -> Prop :=
| flight_nil eR : pdcp_in_sync eT eR -> rx_side eR -> flight eT eR [] []
| flight_cons eR p eR' d sdu rqi ps ws :
    nr_pdcp_entity_recv_pdu kc mac eR p = Ok (eR', [d]) -> ps_buffer d = sdap_pdu fs sdu rqi -> rx_side eR' -> flight eT eR' ps ws ->
    flight eT eR (p :: ps) (sdu :: ws).

Lemma sdap_pdu_len sdu rqi : zlen (sdap_pdu fs sdu rqi) = zlen sdu + 1.
Proof. unfold sdap_pdu. rewrite zlen_cons. lia. Qed.

(** What PDCP adds to an SDU. *)
Lemma pdcp_pdu_len tx rx sdu tx' p : pdcp_in_sync tx rx -> (if pe_has_sdap_rx rx then 1 else 0) < zlen sdu ->
  nr_pdcp_entity_process_sdu kc mac tx sdu (nr_max_pdcp_pdu_size (zlen sdu)) = Ok (tx', Some p) -> zlen sdu < zlen p <= zlen sdu + 7.
Proof.
  intros [C1 C2 S P _ _ _] Hsz Hp. pose proof (peers_security tx rx P S) as S1.
  destruct (process_sdu_spec kc mac cipher_length tx sdu (nr_max_pdcp_pdu_size (zlen sdu)) S1 (pp_tx_up tx rx P)) as (st & Hp2);
    [lia|by rewrite (pp_sdap tx rx P)|]. rewrite Hp in Hp2. injection Hp2 as _ ->. rewrite ciphered_len by done.
  unfold plain_pdu. rewrite !zlen_app, pdcp_header_len, trailer_len by done. pose proof (header_size_range tx).
  unfold integrity_size_of, PDCP_INTEGRITY_SIZE. destruct (has_mac tx); lia.
Qed.

Lemma flight_snoc eT eR ps ws sdu rqi : flight eT eR ps ws -> 1 <= zlen sdu -> 0 <= pe_tx_next eT < 2 ^ 32 - 1 ->
  exists eT' p, nr_pdcp_entity_process_sdu kc mac eT (sdap_pdu fs sdu rqi) (nr_max_pdcp_pdu_size (zlen (sdap_pdu fs sdu rqi))) = Ok (eT', Some p) /\
    flight eT' eR (ps ++ [p]) (ws ++ [sdu]) /\ pe_tx_next eT' = pe_tx_next eT + 1 /\ pe_is_gnb eT' = pe_is_gnb eT /\
    0 < zlen p <= zlen sdu + 8.
Proof.
  intros Hf Hsz Hn. induction Hf as [eR Hs [Hg Hpdu]|eR p eR' d sdu' rqi' ps ws Hr Hd Hside Hf IH].
  - destruct (pdcp_hop kc mac cipher_length mac_length cipher_involutive eT eR (sdap_pdu fs sdu rqi) Hs)
      as (eT' & p & eR' & d & Hp & Hr & Hd & Hs' & Hnx & Hg1 & Hg2 & _ & Hpd & _); [rewrite sdap_pdu_len; destruct (pe_has_sdap_rx eR); lia|done|].
    exists eT', p. split; [exact Hp|]. split_and!; [|done|done|..].
    + eapply flight_cons; [exact Hr|exact Hd|split; congruence|]. constructor; [done|split; congruence].
    + eapply pdcp_pdu_len in Hp; [|exact Hs|rewrite sdap_pdu_len; destruct (pe_has_sdap_rx eR); lia]. rewrite sdap_pdu_len in Hp. lia.
    + eapply pdcp_pdu_len in Hp; [|exact Hs|rewrite sdap_pdu_len; destruct (pe_has_sdap_rx eR); lia]. rewrite sdap_pdu_len in Hp. lia.
  - destruct IH as (eT' & q & Hp & Hf' & Hrest). exists eT', q. split; [done|]. split; [|done]. by eapply flight_cons.
Qed.

(** *** The invariant *)

Context (Hss : stack_setup_ok).

Abbreviation has_um_tx s h e := (has_um s (ss_tx ss) (ss_ch ss) (fs_drb fs) h e).
Abbreviation has_um_rx s h e := (has_um s (ss_rx ss) (ss_ch ss) (fs_drb fs) h e).

(** The RLC entities are those of the link [l], on which the PDUs [todo] of PDCP
    are still to deliver. *)
Record stack_rlc (e0 : nr_rlc_entity_um) (s : stack) (l : um_link) (todo : list bytes) : Prop := {
  sv_tx : has_um_tx (sk_rlc_tx s) (lk_heap l) (lk_tx l);
  sv_rx : exists h, has_um_rx (sk_rlc_rx s) h (lk_rx l);
  sv_air : sk_air s = lk_air l;
  sv_link : um_link_inv e0 l todo;
  sv_delivers : delivers_to (ss_f1_rx ss) (sk_rlc_rx s) (ss_rx ss) (fs_ue_rx fs)
}.

(** Of [n] packets taken, [ws] are still on their way. *)
Definition stack_inv (e0 : nr_rlc_entity_um) (s : stack) (ws : list bytes) (n : Z) : Prop :=
  exists l todo eT eR, stack_rlc e0 s l todo /\ ends_ok fs (sk_tx s) (sk_rx s) /\
    has_bearer (sk_tx s) (fs_ue_tx fs) (fs_drb fs) false eT /\ has_bearer (sk_rx s) (fs_ue_rx fs) (fs_drb fs) false eR /\
    pe_is_gnb eT = negb (fs_up fs) /\ pe_tx_next eT = n /\ flight eT eR todo ws.

Lemma packet_ok e0 s ws n clock sdu rqi : stack_inv e0 s ws n -> stack_op_ok s (stk_packet clock sdu rqi) = true -> 0 <= n < 2 ^ 32 - 1 ->
  exists s', stack_step s (stk_packet clock sdu rqi) = Ok (s', []) /\ stack_inv e0 s' (ws ++ [sdu]) (n + 1).
Proof.
  intros (l & todo & eT & eR & [Htx Hrx Hair Hlink Hdel] & Hends & HbT & HbR & Hg & Hn & Hfl) Hop Hrange. cbn [stack_step].
  cbn [stack_op_ok] in Hop. apply andb_prop in Hop as [Hsz Hroom]. assert (1 <= zlen sdu <= 8999) as Hsz' by lia. clear Hsz. rename Hsz' into Hsz.
  destruct (flight_snoc eT eR todo ws sdu rqi Hfl) as (eT' & p & Hp & Hfl' & Hn' & Hg' & Hlen); [lia|by rewrite Hn|].
  destruct (send_hop kc mac fs _ _ eT sdu rqi (so_flow Hss) Hends Hsz HbT Hg eT' p Hp Hg') as (sT' & -> & HbT' & HsdT & HfT). cbn [rbind].
  assert (exists gnb, sent_pdu fs p = OutRlc gnb (ss_tx ss) false (fs_drb fs) (fs_mui fs) p) as [gnb ->].
  { unfold sent_pdu. rewrite (so_du Hss), <- (so_tx Hss). destruct (fs_up fs); by eexists. }
  destruct (link_tx_time_ok e0 l todo (rl_time (sk_rlc_tx s)) Hlink) as (e1 & Ht & Hlink1 & Hsp).
  assert (zlen sdu + 8 <= available_tx_space (lk_tx l)) as Hroom'.
  { destruct Htx as (ue & Hf & Hgt). revert Hroom. unfold nr_rlc_get_available_tx_space, on_channel_query.
    rewrite (get_ue_some _ _ _ Hf), Hgt. apply Z.leb_le. }
  destruct (link_sdu_room e0 _ todo clock p (fs_mui fs) Hlink1) as (h2 & e2 & Hr & Hlink2); [unfold NR_SDU_MAX; lia|cbn [lk_tx]; lia|].
  pose proof (so_tx_range Hss). destruct (um_data_req (ss_f1_tx ss) (ss_cxt_tx ss) (sk_rlc_tx s) clock (mk_ctxt 0 0 0 0 gnb (ss_tx ss)) (fs_drb fs) (fs_mui fs) p
    (ss_tx ss) (ss_ch ss) (lk_heap l) (lk_tx l) e1 h2 e2) as (rlc & Hreq & Htx' & Hsame); [apply s32_small; simpl; lia|apply Hss|exact Htx|exact Ht|exact Hr|].
  cbn [to_rlc]. rewrite Hreq. cbn [rbind]. eexists. split; [done|]. exists (mk_link h2 e2 (lk_air l) (lk_rx l)), (todo ++ [p]), eT', eR. split_and!; [| | |exact HbR|congruence|lia|exact Hfl'].
  - constructor; [exact Htx'|exact Hrx|exact Hair|exact Hlink2|exact Hdel].
  - by apply (ends_ok_same fs (sk_tx s) (sk_rx s)).
  - exact HbT'.
Qed.

Lemma grant_ok_stack e0 s ws n clock buffer size : stack_inv e0 s ws n -> stack_op_ok s (stk_grant clock buffer size) = true ->
  exists s', stack_step s (stk_grant clock buffer size) = Ok (s', []) /\ stack_inv e0 s' ws n.
Proof.
  intros (l & todo & eT & eR & [Htx Hrx Hair Hlink Hdel] & Hrest) Hop. cbn [stack_step].
  assert (size <= zlen buffer /\ size <> 2) as [Hsz Hno] by (simpl in Hop; lia).
  destruct (link_tx_time_ok e0 l todo (rl_time (sk_rlc_tx s)) Hlink) as (e1 & Ht & Hlink1 & _).
  destruct (link_grant_pdu e0 _ todo clock buffer size Hlink1 Hsz Hno) as (h2 & e2 & b & ret & Hgen & Hlink2).
  assert (Hu : u16 (ss_tx ss) = ss_tx ss) by (apply wrap_small; apply (so_tx_range Hss)). rewrite <- Hu in Htx.
  destruct (um_mac_data_req (ss_f1_tx ss) (ss_cxt_tx ss) (sk_rlc_tx s) clock (ss_tx ss) (ss_ch ss) size buffer (fs_drb fs) _ _ e1 h2 e2 b ret Htx Ht Hgen)
    as (rlc & -> & Htx' & Hsame). rewrite Hu in Htx'. cbn [rbind]. eexists. split; [done|]. eexists (mk_link h2 e2 (lk_air l ++ _) (lk_rx l)), todo, eT, eR. split; [|exact Hrest].
  constructor; [exact Htx'|exact Hrx|simpl; by rewrite Hair|exact Hlink2|exact Hdel].
Qed.

(** PDUs of PDCP that RLC hands over. *)
Lemma to_pdcp_ok gnb eT del : forall sT sR eR todo ws, ends_ok fs sT sR -> has_bearer sR (fs_ue_rx fs) (fs_drb fs) false eR ->
  flight eT eR (del ++ todo) ws ->
  exists sR' eR' ws1 ws2, to_pdcp sR (map (ToPdcpInd (mk_ctxt 0 0 0 0 gnb (fs_ue_rx fs)) false (fs_drb fs)) del) = Ok (sR', map (received fs) ws1) /\
    ends_ok fs sT sR' /\ has_bearer sR' (fs_ue_rx fs) (fs_drb fs) false eR' /\ flight eT eR' todo ws2 /\ ws = ws1 ++ ws2.
Proof.
  induction del as [|p del IH]; intros sT sR eR todo ws Hends HbR Hfl.
  - exists sR, eR, [], ws. by split_and!.
  - inversion Hfl as [|? ? eR1 d sdu rqi ps ws' Hr Hd [Hg Hpdu] Hfl' Ha Hb Hc]; subst.
    destruct (receive_hop kc mac fs sT sR eR sdu rqi (so_flow Hss) Hends HbR eR1 p d Hr Hd Hg Hpdu) as (sR1 & Hind & HbR1 & Hsd).
    assert (ends_ok fs sT sR1) as Hends1 by by apply (ends_ok_same fs sT sR).
    destruct (IH sT sR1 eR1 todo ws' Hends1 HbR1 Hfl') as (sR2 & eR2 & ws1 & ws2 & Hto & Hends2 & HbR2 & Hfl2 & ->).
    exists sR2, eR2, (sdu :: ws1), ws2. split_and!; try done. cbn [map to_pdcp].
    change (do_pdcp_data_ind kc mac (fs_mode_rx fs) sR (mk_ctxt 0 0 0 0 gnb (fs_ue_rx fs)) false (fs_drb fs) p)
      with (do_pdcp_data_ind kc mac (fs_mode_rx fs) sR (sdap_ctxt (fs_ue_rx fs)) false (fs_drb fs) p).
    rewrite Hind. cbn [rbind]. rewrite Hto. done.
Qed.

Lemma arrive_ok e0 s ws n : stack_inv e0 s ws n ->
  exists s' ws1 ws2, stack_step s stk_arrive = Ok (s', map (received fs) ws1) /\ stack_inv e0 s' ws2 n /\ ws = ws1 ++ ws2.
Proof.
  intros Hinv. pose proof Hinv as (l & todo & eT & eR & [Htx [h Hrx] Hair Hlink Hdel] & Hends & HbT & HbR & Hg & Hn & Hfl). cbn [stack_step].
  destruct (link_rx_time_ok e0 l todo (rl_time (sk_rlc_rx s)) Hlink) as (e1 & Ht & Hlink1).
  destruct (link_arrive_ok e0 _ todo Hlink1) as (l2 & del & todo' & _ & Hlink2 & -> & _ & _ & Harr). cbn [lk_air] in Harr. rewrite Hair.
  destruct (lk_air l) as [|pdu air] eqn:Hla.
  { exists s, [], ws. by split_and!. }
  destruct Harr as (e2 & Hr & ->). cbn [lk_rx] in Hr. assert (Hu : u16 (ss_rx ss) = ss_rx ss) by (apply wrap_small; apply (so_rx_range Hss)).
  destruct (delivers_to_ok (ss_f1_rx ss) (ss_cxt_rx ss) _ _ _ Hdel) as [gnb Hgnb]. rewrite <- Hu in Hrx.
  destruct (um_data_ind (ss_f1_rx ss) (ss_cxt_rx ss) (sk_rlc_rx s) (ss_rx ss) (ss_ch ss) (fs_drb fs) h (lk_rx l) e1 e2 pdu del
    (mk_ctxt 0 0 0 0 gnb (fs_ue_rx fs)) Hrx Ht Hr)
    as (rlc & -> & Hrx' & [Htm Hmd]); [intros ue buf Hid; apply Hgnb; by rewrite Hid|]. rewrite Hu in Hrx'. cbn [rbind].
  destruct (to_pdcp_ok gnb eT del (sk_tx s) (sk_rx s) eR todo' ws Hends HbR Hfl) as (sR' & eR' & ws1 & ws2 & -> & Hends' & HbR' & Hfl' & ->).
  cbn [rbind]. eexists _, ws1, ws2. split; [done|]. split; [|done]. exists (mk_link (lk_heap l) (lk_tx l) air e2), todo', eT, eR'. split_and!; try done.
  constructor; [exact Htx|by eexists|done|exact Hlink2|]. unfold delivers_to in *. simpl. by rewrite Hmd.
Qed.

Lemma stack_step_ok e0 s ws n op : stack_inv e0 s ws n -> stack_op_ok s op = true -> 0 <= n -> n + zlen (packets op) < 2 ^ 32 ->
  exists s' ws1 ws2, stack_step s op = Ok (s', map (received fs) ws1) /\ stack_inv e0 s' ws2 (n + zlen (packets op)) /\ ws ++ packets op = ws1 ++ ws2.
Proof.
  intros Hinv Hop Hn Hb. destruct op as [clock sdu rqi|clock buffer size| | |]; cbn [packets] in *; unfold zlen in *; simpl in Hb; simpl length; rewrite ?Z.add_0_r, ?app_nil_r.
  - destruct (packet_ok e0 s ws n clock sdu rqi Hinv Hop) as (s' & Hs & Hinv'); [lia|]. by exists s', [], (ws ++ [sdu]).
  - destruct (grant_ok_stack e0 s ws n clock buffer size Hinv Hop) as (s' & Hs & Hinv'). by exists s', [], ws.
  - by apply arrive_ok.
  - exists {| s with sk_rlc_tx := nr_rlc_ms_tick (sk_rlc_tx s) |}, [], ws. split; [done|]. split; [|done].
    destruct Hinv as (l & todo & eT & eR & [Htx Hrx Hair Hlink Hdel] & Hrest). exists l, todo, eT, eR. by split.
  - exists {| s with sk_rlc_rx := nr_rlc_ms_tick (sk_rlc_rx s) |}, [], ws. split; [done|]. split; [|done].
    destruct Hinv as (l & todo & eT & eR & [Htx Hrx Hair Hlink Hdel] & Hrest). exists l, todo, eT, eR. by split.
Qed.

Lemma stack_run_inv e0 ops : forall s ws n, stack_inv e0 s ws n -> stack_run_ok s ops = true -> 0 <= n ->
  n + zlen (mjoin (map packets ops)) < 2 ^ 32 ->
  exists s' ws1 ws2 n', stack_run s ops = Ok (s', map (received fs) ws1) /\ stack_inv e0 s' ws2 n' /\
    ws ++ mjoin (map packets ops) = ws1 ++ ws2.
Proof.
  induction ops as [|op ops IH]; intros s ws n Hinv Hok Hn Hb.
  { exists s, [], ws, n. by rewrite app_nil_r. }
  cbn [stack_run_ok] in Hok. apply andb_prop in Hok as [Hop Hok]. change (mjoin (map packets (op :: ops))) with (packets op ++ mjoin (map packets ops)) in *.
  rewrite zlen_app in Hb. pose proof (zlen_nonneg (packets op)). pose proof (zlen_nonneg (mjoin (map packets ops))).
  destruct (stack_step_ok e0 s ws n op Hinv Hop) as (s1 & a1 & w1 & Hs & Hinv1 & Heq1); [lia|lia|].
  rewrite Hs in Hok. destruct (IH s1 w1 _ Hinv1 Hok) as (s2 & a2 & w2 & n2 & Hr & Hinv2 & Heq2); [lia|lia|].
  exists s2, (a1 ++ a2), w2, n2. cbn [stack_run]. rewrite Hs. cbn [rbind]. rewrite Hr. cbn [rbind].
  rewrite map_app. split; [done|]. split; [done|]. by rewrite app_assoc, Heq1, <- !app_assoc, Heq2.
Qed.

Lemma ready_inv n s : stack_ready n s -> exists e0, stack_inv e0 s [] n.
Proof.
  intros [[Hends (eT & eR & HbT & HbR & Hs & Hn & Hg & Hpdu)] Hair Hrlc Hdel].
  destruct Hrlc as (sn & rxm1 & txm1 & t1 & e1 & rxm2 & txm2 & t2 & e2 & He1 & He2 & Hm & Htx & Hrx).
  exists e1, (mk_link heap_empty e1 [] e2), [], eT, eR. split; [|split_and!; try done].
  - constructor; try done. by eapply link_inv_new.
  - constructor; [done|]. split; [|done]. pose proof (pp_side _ _ (ps_peers _ _ Hs)) as Hside. rewrite Hg in Hside. by destruct (fs_up fs), (pe_is_gnb eR).
Qed.

Lemma has_um_unique s id ch k h e h' e' : has_um s id ch k h e -> has_um s id ch k h' e' -> e = e'.
Proof. intros (ue & Hf & Hg) (ue' & Hf' & Hg'). congruence. Qed.

Lemma idle_inv e0 s ws n : stack_inv e0 s ws n -> sk_air s = [] -> nothing_waits (sk_rlc_tx s) -> ws = [].
Proof.
  intros (l & todo & eT & eR & [Htx _ Hair Hlink _] & _ & _ & _ & _ & _ & Hfl) Hno (h & e & Hh & He).
  assert (lk_tx l = e) as <- by by eapply has_um_unique.
  rewrite Hno in Hair. destruct Hlink as [_ _ _ _ (m & c & old & cur & m' & c' & ds & sdus & _ & Hf & Ht & ->)].
  rewrite <- Hair in Hf. inversion Hf; subst. pose proof (uta_queue _ _ _ _ _ Ht) as Hq. rewrite He in Hq. destruct Hq as [_ ->].
  by inversion Hfl.
Qed.

(** C1. The user plane from one end to the other, down to the air, for one flow
    on a bearer in UM whose two ends are set up alike ([stack_ready]), as long
    as the air loses nothing and keeps the order, the COUNT of PDCP stays below
    2^32, every packet of 1 to 8999 bytes finds room in the buffer of RLC when
    it comes (RLC drops what finds none, after SDAP and PDCP have taken it), and
    no grant is of two bytes ([stack_run_ok]): packets that SDAP takes at one
    end, in any interleaving with grants of MAC of any other size, arrivals of
    PDUs and ticks, come out of SDAP at the other end unchanged and in order, as
    a prefix of those taken; when no PDU is on its way and nothing waits in RLC,
    all of them.  Nothing fails on the way through the interfaces of SDAP, PDCP
    and RLC of both ends. *)
Theorem l2_stack_lossless n s ops :
  stack_ready n s -> stack_run_ok s ops = true -> 0 <= n -> n + zlen (mjoin (map packets ops)) < 2 ^ 32 ->
  exists s' got, stack_run s ops = Ok (s', map (received fs) got) /\ got `prefix_of` mjoin (map packets ops) /\
    (sk_air s' = [] -> nothing_waits (sk_rlc_tx s') -> got = mjoin (map packets ops)).
Proof.
  intros Hready Hok Hn Hb. destruct (ready_inv n s Hready) as [e0 Hinv].
  destruct (stack_run_inv e0 ops s [] n Hinv Hok Hn Hb) as (s' & got & rest & n' & Hr & Hinv' & Heq). simpl in Heq.
  exists s', got. split; [done|]. split; [by exists rest|]. intros Hair Hw. by rewrite Heq, (idle_inv e0 s' rest n' Hinv' Hair Hw), app_nil_r.
Qed.

End Stack.

(** ** An example: one packet up, from the UE to the gNB *)

Definition demo_bearer : NR_RLC_BearerConfig_t :=
  mk_RLC_BearerConfig 4 (Some (served_drb 4)) (Some (RLC_Config_um_Bi_Directional (mk_RLC_Config_um (Some 1) 7 (Some 1)))).

Definition demo_rlc (mode : nr_rlc_op_mode_t) (id : Z) : rlc_t :=
  match nr_rlc_add_drb (new_nr_rlc_ue_manager mode) id 4 demo_bearer with Ok s => s | Fail _ => new_nr_rlc_ue_manager mode end.

(** The UE 7 of PDCP has the RNTI 9. *)
Definition demo_f1 : f1_ids :=
  match (let* g := du_init_f1_ue_data (mk_f1_ids None None) in let* (g, _) := du_add_f1_ue_data g 9 (mk_f1_ue_data 7 1 2) in Ok g) with
  | Ok g => g
  | Fail _ => mk_f1_ids None None
  end.

Definition demo_stack_setup : stack_setup := mk_stack_setup 7 9 4 (mk_f1_ids None None) demo_f1 false false.

Definition demo_stack : stack :=
  mk_stack (example_l2 false (mk_f1_ids None None)) (demo_rlc NR_RLC_OP_MODE_UE 7) []
    (demo_rlc NR_RLC_OP_MODE_MONO_GNB 9) (example_l2 true (mk_f1_ids None None)).

Definition demo_stack_ops : list stack_op :=
  [stk_packet 0 [1; 2; 3] false; stk_tx_tick; stk_grant 0 (replicate 20 0) 6; stk_grant 0 (replicate 20 0) 20; stk_rx_tick; stk_arrive; stk_arrive].

Lemma demo_ready : stack_ready (example_setup true) demo_stack_setup 0 demo_stack.
Proof.
  split.
  - by apply (example_linked true).
  - done.
  - exists 12, RLC_RX_MAXSIZE, RLC_TX_MAXSIZE, 35. eexists. exists RLC_RX_MAXSIZE, RLC_TX_MAXSIZE, 35. eexists.
    split; [vm_compute; reflexivity|]. split; [vm_compute; reflexivity|]. split; [by vm_compute|].
    split; [eexists; split; vm_compute; reflexivity|]. eexists. eexists. split; vm_compute; reflexivity.
  - unfold delivers_to. simpl. eexists. split; [vm_compute; reflexivity|done].
Qed.

Lemma demo_setup_ok : stack_setup_ok (example_setup true) demo_stack_setup.
Proof. split; [apply example_setup_ok|unfold MAX_DRBS_PER_UE; simpl; lia|done|done|simpl; lia|simpl; lia]. Qed.

Lemma l2_stack_lossless_witness :
  exists s got, stack_run toy_cipher toy_mac (example_setup true) demo_stack_setup demo_stack demo_stack_ops = Ok (s, map (received (example_setup true)) got) /\
    got `prefix_of` [[1; 2; 3]] /\ (sk_air s = [] -> nothing_waits (example_setup true) demo_stack_setup (sk_rlc_tx s) -> got = [[1; 2; 3]]).
Proof.
  apply (l2_stack_lossless toy_cipher toy_mac (example_setup true) demo_stack_setup toy_cipher_length toy_mac_length toy_cipher_involutive
    demo_setup_ok 0 demo_stack demo_stack_ops demo_ready); [vm_compute; reflexivity|lia|by vm_compute].
Defined.
